(* ===== verification/_CoqProject ===== *)
-Q . S2P
Prelude.v
ListHead.v
MM.v
MMInv.v
MMAlloc.v
MMFree.v
MMScan.v
MMBlocks.v
MMWitness.v
Rect.v
Idr.v
HandleTable.v
IdrList.v
Gem.v
GemSafe.v
HwLock.v
Auth.v
Modes.v
ModesBounds.v
ModeSort.v
EdidTables.v
EdidBase.v
EdidBlock.v
EdidModes.v
EdidCea.v
EdidRun.v
EdidGen.v
EdidSafe.v
EdidCeaSafe.v
EdidDetail.v
EdidFetch.v
EdidFacts.v
I2c.v
I2cSlave.v
Ddc.v
CrtcHelper.v
CrtcHelperFacts.v
SetConfig.v
Poll.v
Probe.v
FbHelper.v
FbHelperFacts.v
Vblank.v
VblankFacts.v
VblankSafe.v
VblankRuns.v
Tiling.v
TilingFacts.v
Fence.v
Gtt.v
GttInv.v
GttFence.v
GttBind.v
Evict.v
Bind.v
Pin.v
SetTiling.v
Active.v
Aperture.v
GttWitness.v
FbFormat.v
Framebuffer.v
ModeIoctl.v
Sums.v
FbFacts.v
FbShow.v
FbLife.v
FbSystem.v
FbInv.v
FbParts.v
FbCalls.v
FbAdd.v
FbSafe.v
FbLive.v
ModeFacts.v
FbRuns.v
RadeonMem.v
RadeonHeap.v
RadeonAlloc.v
RadeonSys.v
