(* ===== verification/Prelude.v ===== *)
(** * A verification library for the gfx-drm kernel modules

    The repository is the port of the Linux DRM (Direct Rendering Manager) to illumos:
    the driver independent core in [src/usr/src/uts/common/io/drm/] (headers in
    [src/usr/src/uts/common/drm/]), the i915 and radeon drivers and the AGP bridge in
    [src/usr/src/uts/intel/io/].  This library models the parts of the core that keep
    state or decide something, as functions that follow the C line by line, and proves
    what each part promises.

    ** How the code is modelled

    A C function is a Rocq function of the same name.  What it changes is an explicit
    state that it takes and returns; where a file threads the same state through many
    functions there is a small monad (EdidBase for the probing of an EDID, I2c for the
    bus).  Faults are [None]: a failed [BUG_ON] or panic, a use of freed memory, an access
    outside an array, a division by zero.  Error codes are the negative numbers the C
    functions return.  Integers are [Z] with the wrap-around of their width written out
    ([u32], [s32], [u64] below).  Whether an allocation succeeds is an argument (a boolean,
    or a list of outcomes), and theorems hold for every pattern of failures unless they say
    otherwise.  Those on framebuffers are for tables of identifiers that get their memory,
    because the code does not survive their failure ([d_allocs] in FbFacts, the runs of
    FbRuns); the search for the CRTCs of the console is optimal, and its mode sets filled,
    when no allocation fails (FbHelperFacts).  What a theorem asks of the callers and the
    code does not check (sizes, alignments, numbers of contexts) is a hypothesis or the
    predicate [allowed] of its transition system, and its doc comment says so.  Code that
    is not in the repository is an argument too, or a class of operations: the kernel's
    callout table, the pins of an I2C bus, a driver's callbacks, AVL trees (used as the
    finite map they implement).  Locks that serialise a whole operation are not modelled;
    where callers can interleave ([drm_getmagic], the hardware lock) the code is cut into
    steps and theorems quantify over the interleavings.  Pointers are indices into a
    store wherever aliasing matters: ListHead has a heap of nodes, and the lists other
    files use are those it refines.

    ** The parts, and what is shown of them

    - ListHead: the list macros of drm_linux_list.h over a heap.  The macros refine the
      operations of mathematical lists, and the entry walk terminates.
    - MM, MMInv, MMAlloc, MMFree, MMScan, MMBlocks, MMWitness: the range allocator
      drm_mm.c, its ring of nodes and stack of holes.  [mm_wf] says that blocks and holes
      partition the range; insertion and removal keep it, -ENOSPC is exact, a scan followed
      by the reverse removal restores the manager, and the blocks a scan marks make room.  The
      walk of the debug table counts the whole range and never ends.
    - Rect: drm_rect.c: intersection, clipping and scaling within 32 bits.
    - Idr, HandleTable, IdrList: the two identifier allocators of drm_sun_idr.c.
      HandleTable is the class that the clients of handle tables are proved against and
      IdrList discharges it.
    - Gem, GemSafe: reference counts, handles and names of GEM objects (drm_gem.c, parts of
      drm_drv.c and i915_gem.c), then the device as a transition system: in every reachable
      state the counts are exact and nothing touches a freed object.
    - HwLock: the hardware lock of drm_lock.c, with user space changing the lock word
      between any two accesses, and anybody freeing the lock for any context.  Auth: the magic numbers of drm_auth.c.
    - Modes, ModesBounds, ModeSort: drm_modes.c, the CVT and GTF generators, of which CVT is
      shown to compute its formulas as they are in unbounded integers, the order of
      modes and the in place sort, which equals insertion sort.
    - EdidTables, EdidBase, EdidBlock, EdidModes, EdidCea: drm_edid.c, from the fetch over
      DDC to the modes; EdidRun, EdidGen, EdidSafe, EdidCeaSafe, EdidDetail, EdidFetch and
      EdidFacts hold the proofs: no array of bytes makes the parser leave the array or
      divide by zero (but for one GTF parameter), an EDID that is returned is valid, and
      detailed timings are decoded as they are encoded.
    - I2c, I2cSlave, Ddc: the bit banged bus of drm_sun_i2c.c, a wire with a memory on it,
      and the composition with EdidBlock: the fetch reads exactly the bytes of the memory.
    - CrtcHelper, CrtcHelperFacts, SetConfig: drm_crtc_helper.c, the routing of connectors,
      encoders and CRTCs.  A configuration is established, or the routing is restored.
    - Poll: timers (drm_sun_timer.c) and the polling of outputs.  Probe: the probe of a
      connector, a composition of Modes, EdidCea and Poll.
    - FbHelper, FbHelperFacts: drm_fb_helper.c, the initial configuration of the console;
      the search for CRTCs is optimal and the mode sets stay inside their arrays.
    - Vblank, VblankFacts, VblankSafe, VblankRuns: drm_irq.c and the events of drm_fops.c:
      vertical blank counts, references and events, with page flips; then clients,
      drivers and interrupts as a transition system.
    - Tiling, TilingFacts: i915_gem_tiling.c and the fence register writers of i915_gem.c:
      sizes and alignments of tiled objects, swizzling, and the writes that program a
      fence.  What is written decodes to the region of the object, on each generation.
    - Fence: the table of fence registers, its LRU list, stealing and restoring.  Gtt: the
      aperture of i915_gem.c, i915_gem_evict.c and i915_gem_gtt.c: binding, unbinding,
      pinning, eviction and changes of tiling, over the allocator of MM.  GttInv states the
      invariant ([gtt_ok]: every bound object has a block of the allocator, every register
      shows its owner); GttFence, GttBind, Evict, Bind, Pin, SetTiling and Active prove
      that each operation runs and keeps it; Aperture composes them into a transition
      system with arbitrary replies of the chip; GttWitness runs them on small machines, one
      of them with an alignment that execbuffer lets through and that breaks a fence.
    - FbFormat: the pixel formats of drm_fourcc.h, as the switches of drm_crtc.c have them
      and as the header documents them ([layouts]), and the checks a framebuffer passes in
      drm_crtc.c and intel_display.c.  Framebuffer and ModeIoctl: identifiers of mode
      objects over Idr, reference counts of framebuffers, and the ioctls of drm_crtc.c on
      framebuffers, planes, CRTC configurations and page flips, with the GEM objects of
      Gem; the driver is the type class [KmsDriver] with its laws [KmsLaws].  A call that
      gives up its locks is two definitions, and the whole call is their composition.
      FbFacts, FbShow, FbLife, FbParts, FbCalls and FbAdd prove what each part does to the
      references; FbSystem composes the parts of different calls in any order; FbInv is
      the invariant, FbSafe the safety, counts and types of every reachable state, FbLive
      the end of every call and the removal of a framebuffer; FbRuns applies them and
      shows three runs in which the code falls short.  ModeFacts: the tests on modes and
      planes that user space asks for.  Sums: sums over lists and maps, used to count.
    - RadeonMem: the memory heap of radeon_mem.c, blocks in a circular list over a store.
      RadeonHeap says what list of ranges a store holds, with the rings of ListHead;
      RadeonAlloc proves what each operation does to it; RadeonSys states the handlers and
      every sequence of calls on the two heaps, and shows what the handlers do not refuse.
    ** Fuel and bounds

    Loops over lists and counters are structural.  Where a loop has no measure in its own
    arguments the function takes fuel, and a theorem says how much is enough: the length
    of the list for the walks of ListHead, ModeSort and Auth, the entries of the table for
    IdrList ([find_fuel]), three times the entries waiting and six for
    [drm_getmagic], the 127 bytes of an extension for its data blocks, 256 for the
    extensions of an EDID.
    A wait of the I2C bus for its clock line takes one poll on a slave that does not stretch
    the clock, which is what Ddc shows.  The loop of [drm_update_vblank_count] reads a
    hardware counter until it is steady; its theorems assume that this happens
    ([counter_settles]).  Binding an object retries after each eviction; a round for each bound
    object is enough (Bind), and the size loop of a tiled object ends for at most 2 GB
    (TilingFacts).  The handle that [drm_mode_getfb] makes takes at most two rounds, as in
    Gem; the walks of a radeon heap have one round for each block in memory and one more
    ([around]), which RadeonAlloc shows to be enough; the calls on framebuffers end within
    the number of parts FbLive counts ([work]).  The walk of [drm_mm_debug_table] has no end:
    its fuel only says how far it is followed (MMFree).
    The compare and swap loops of HwLock consume the list of
    interfering stores, whatever it is.

    ** What is not modelled

    - Within modelled files: printing, DMA memory and mmap offsets of GEM objects, locks
      that only serialise, kernel statistics.
    - The drivers' code that programs registers (intel_display.c, intel_pm.c, intel_dp.c,
      intel_sdvo.c, intel_tv.c, i915_irq.c, radeon_cp.c, radeon_state.c ...): sequences of
      register writes whose meaning is in hardware documents and not in the repository.
    - The glue to the illumos DDI (drm_sunmod.c, drm_memory.c, drm_cache.c, drm_fops.c,
      drm_stub.c, agpgart.c): calls into a kernel that is not part of the repository.
    - What is pure data or text: i915_reg.h, the libdrm build, devfsadm links, mdb output.
    PROJECT.json lists every part with its status.

    ** Plan

    Next: the cache domains of i915_gem.c over Gtt, the reservation of execbuffer, the ioctl
    dispatch of drm_drv.c, the context bitmap of drm_context.c over Idr, the properties
    of drm_crtc.c, the ring buffer arithmetic of intel_ringbuffer.c, the command checks of
    r300_cmdbuf.c.

    ** Naming

    Definitions have the name of the C function, structure or constant, with the file
    they are in; parts of a function that are definitions of their own (a loop body, a
    branch) have a descriptive name and are mapped to their lines.  Each property's doc
    comment carries its number in the list of properties. *)

From stdpp Require Export base option list numbers gmap.
From Stdlib Require Export ZArith Lia Bool.

Global Open Scope Z_scope.
Global Set Default Goal Selector "!".

(** ** Machine integers

    Unsigned C types wrap modulo [2^w]; signed ones are kept in two's
    complement range. *)

Definition u32 (z : Z) : Z := z mod 2 ^ 32.
Definition u64 (z : Z) : Z := z mod 2 ^ 64.
Definition s32 (z : Z) : Z := (z + 2 ^ 31) mod 2 ^ 32 - 2 ^ 31.

Definition is_u32 (z : Z) : Prop := 0 <= z < 2 ^ 32.
Definition is_u64 (z : Z) : Prop := 0 <= z < 2 ^ 64.
Definition is_s32 (z : Z) : Prop := - 2 ^ 31 <= z < 2 ^ 31.

Create HintDb word.
Create Rewrite HintDb word.

Lemma pow32_val : 2 ^ 32 = 4294967296. Proof. reflexivity. Qed.
Lemma pow64_val : 2 ^ 64 = 18446744073709551616. Proof. reflexivity. Qed.
Lemma pow31_val : 2 ^ 31 = 2147483648. Proof. reflexivity. Qed.
Lemma pow63_val : 2 ^ 63 = 9223372036854775808. Proof. reflexivity. Qed.

Lemma u32_range z : 0 <= u32 z < 2 ^ 32.
Proof. unfold u32. apply Z.mod_pos_bound. lia. Qed.
Lemma u64_range z : 0 <= u64 z < 2 ^ 64.
Proof. unfold u64. apply Z.mod_pos_bound. lia. Qed.
Lemma s32_range z : - 2 ^ 31 <= s32 z < 2 ^ 31.
Proof. unfold s32. pose proof (Z.mod_pos_bound (z + 2 ^ 31) (2 ^ 32)). lia. Qed.

Lemma u32_small z : 0 <= z < 2 ^ 32 -> u32 z = z.
Proof. apply Z.mod_small. Qed.
Lemma u64_small z : 0 <= z < 2 ^ 64 -> u64 z = z.
Proof. apply Z.mod_small. Qed.
Lemma s32_small z : - 2 ^ 31 <= z < 2 ^ 31 -> s32 z = z.
Proof. intros. unfold s32. rewrite Z.mod_small; lia. Qed.

#[export] Hint Rewrite u32_small u64_small s32_small using lia : word.
#[export] Hint Resolve u32_range u64_range s32_range : word.

(** Normalise the wrap-arounds whose argument is provably in range. *)
Ltac word_simpl :=
  rewrite ?pow32_val, ?pow64_val, ?pow31_val, ?pow63_val in *;
  repeat first [ rewrite u64_small by (rewrite ?pow64_val in *; lia)
               | rewrite u32_small by (rewrite ?pow32_val in *; lia)
               | rewrite s32_small by (rewrite ?pow31_val in *; lia) ].

(** Turn boolean comparisons into propositions. *)
Ltac zbool :=
  repeat match goal with
  | H : (_ <? _) = true |- _ => apply Z.ltb_lt in H
  | H : (_ <? _) = false |- _ => apply Z.ltb_ge in H
  | H : (_ <=? _) = true |- _ => apply Z.leb_le in H
  | H : (_ <=? _) = false |- _ => apply Z.leb_gt in H
  | H : (_ >? _) = true |- _ => rewrite Z.gtb_ltb in H; apply Z.ltb_lt in H
  | H : (_ >? _) = false |- _ => rewrite Z.gtb_ltb in H; apply Z.ltb_ge in H
  | H : (_ >=? _) = true |- _ => rewrite Z.geb_leb in H; apply Z.leb_le in H
  | H : (_ >=? _) = false |- _ => rewrite Z.geb_leb in H; apply Z.leb_gt in H
  | H : (_ =? _) = true |- _ => apply Z.eqb_eq in H
  | H : (_ =? _) = false |- _ => apply Z.eqb_neq in H
  | H : (_ && _) = true |- _ => apply andb_prop in H as [? ?]
  | H : (_ || _) = false |- _ => apply orb_false_elim in H as [? ?]
  | H : negb _ = true |- _ => apply negb_true_iff in H
  | H : negb _ = false |- _ => apply negb_false_iff in H
  end.

(** ** Error numbers (the values of sys/errno.h the code returns negated) *)

Definition EPERM : Z := 1.
Definition ENOENT : Z := 2.
Definition EINTR : Z := 4.
Definition EAGAIN : Z := 11.
Definition ENOMEM : Z := 12.
Definition EACCES : Z := 13.
Definition EFAULT : Z := 14.
Definition EBUSY : Z := 16.
Definition ENODEV : Z := 19.
Definition EINVAL : Z := 22.
Definition ENOSPC : Z := 28.
Definition ERANGE : Z := 34.

(** ** Failure

    Partial C operations (a failed [BUG_ON], a dereference of a pointer that
    is not live) are [None] in the option monad of stdpp. *)

Definition BUG_ON (b : bool) : option unit := if b then None else Some ().

Lemma BUG_ON_Some b u : BUG_ON b = Some u <-> b = false.
Proof. destruct b, u; simpl; naive_solver. Qed.

(** ** Programs with a state that can fail

    [wp m Q s]: the program does not fail from [s], and [Q] holds of what it returns and
    leaves behind. *)

Definition Prog (S A : Type) : Type := S -> option (A * S).

#[export] Instance Prog_ret S : MRet (Prog S) := fun _ a s => Some (a, s).
#[export] Instance Prog_bind S : MBind (Prog S) := fun _ _ k m s =>
  match m s with Some (a, s') => k a s' | None => None end.

Definition fail {S A} : Prog S A := fun _ => None.
Definition gets {S A} (f : S -> A) : Prog S A := fun s => Some (f s, s).
Definition modify {S} (f : S -> S) : Prog S unit := fun s => Some (tt, f s).

Definition wp {S A} (m : Prog S A) (Q : A -> S -> Prop) (s : S) : Prop :=
  match m s with Some (a, s') => Q a s' | None => False end.

Lemma wp_bind {S A B} (m : Prog S A) (k : A -> Prog S B) Q s : wp (m ≫= k) Q s <-> wp m (fun a => wp (k a) Q) s.
Proof. unfold wp, mbind, Prog_bind. by destruct (m s) as [[a s']|]. Qed.

Lemma wp_ret {S A} (a : A) Q (s : S) : wp (mret a) Q s <-> Q a s.
Proof. done. Qed.

Lemma wp_gets {S A} (f : S -> A) Q s : wp (gets f) Q s <-> Q (f s) s.
Proof. done. Qed.

Lemma wp_modify {S} (f : S -> S) Q s : wp (modify f) Q s <-> Q tt (f s).
Proof. done. Qed.

Lemma wp_mono {S A} (m : Prog S A) (Q Q' : A -> S -> Prop) s : wp m Q s -> (forall a s', Q a s' -> Q' a s') -> wp m Q' s.
Proof. unfold wp. destruct (m s) as [[a s']|]; [auto|done]. Qed.

Lemma wp_and {S A} (m : Prog S A) (Q Q' : A -> S -> Prop) s : wp m Q s -> wp m Q' s -> wp m (fun a s' => Q a s' /\ Q' a s') s.
Proof. unfold wp. by destruct (m s) as [[a s']|]. Qed.

Lemma wp_run {S A} (m : Prog S A) Q s : wp m Q s <-> exists a s', m s = Some (a, s') /\ Q a s'.
Proof. unfold wp. destruct (m s) as [[a s']|]; [|naive_solver]. split; [eauto|]. by intros (? & ? & [= -> ->] & ?). Qed.

(** The two branches of a program that starts with a test. *)
Ltac wp_if := match goal with |- wp (if ?b then _ else _) _ _ => destruct b eqn:? end.

(** Peel the binds of a run that succeeded. *)
Ltac run_inv :=
  repeat match goal with
  | H : _ ≫= _ = Some _ |- _ => apply bind_Some in H as (? & ? & ?)
  | H : BUG_ON _ = Some _ |- _ => apply BUG_ON_Some in H
  | H : Some _ = Some _ |- _ => simplify_eq H; clear H; intros
  | H : _ <$> _ = Some _ |- _ => apply fmap_Some in H as (? & ? & ?)
  end.

(** ** Chains: a relation between every two consecutive elements *)

Section Chain.
Context {A : Type}.
Implicit Types (R : A -> A -> Prop) (l : list A) (a b : A).

Fixpoint Chain R l : Prop :=
  match l with
  | a :: ((b :: _) as t) => R a b /\ Chain R t
  | _ => True
  end.

Lemma Chain_cons R a b l : Chain R (a :: b :: l) <-> R a b /\ Chain R (b :: l).
Proof. reflexivity. Qed.

Lemma Chain_tail R a l : Chain R (a :: l) -> Chain R l.
Proof. destruct l; simpl; tauto. Qed.

Lemma Chain_split R l1 a l2 :
  Chain R (l1 ++ a :: l2) <-> Chain R (l1 ++ [a]) /\ Chain R (a :: l2).
Proof.
  induction l1 as [|x l1 IH]; [simpl; tauto|].
  destruct l1 as [|y l1].
  - cbn [app]. rewrite (Chain_cons R x a l2), (Chain_cons R x a []).
    clear IH. split; [intros [? ?]|intros [[? ?] ?]]; repeat split; done.
  - cbn [app] in *. rewrite !(Chain_cons R x y), IH. apply and_assoc.
Qed.

Lemma Chain_join R l1 a b l2 :
  Chain R (l1 ++ a :: b :: l2) <->
  Chain R (l1 ++ [a]) /\ R a b /\ Chain R (b :: l2).
Proof. rewrite Chain_split, Chain_cons. reflexivity. Qed.

Lemma Chain_lookup R l :
  Chain R l <-> forall i a b, l !! i = Some a -> l !! S i = Some b -> R a b.
Proof.
  induction l as [|x l IH]; [split; [intros _ i a b; by rewrite lookup_nil|done]|].
  destruct l as [|y l].
  - split; [|done]. intros _ [|i] a b; simpl; by rewrite ?lookup_nil.
  - rewrite Chain_cons, IH. split.
    + intros [Hxy Hl] [|i] a b Ha Hb; [by simplify_eq/=|]. by apply (Hl i).
    + intros Hl. split; [by apply (Hl 0%nat)|]. intros i. apply (Hl (S i)).
Qed.

(** A chain survives a change of relation that agrees on its links. *)
Lemma Chain_impl R R' l :
  Chain R l ->
  (forall l1 a b l2, l = l1 ++ a :: b :: l2 -> R a b -> R' a b) ->
  Chain R' l.
Proof.
  induction l as [|x l IH]; [done|]. destruct l as [|y l]; [done|].
  rewrite !Chain_cons. intros [Hxy Hl] HR. split.
  - by apply (HR [] x y l).
  - apply IH; [done|]. intros l1 a b l2 Hl12. apply (HR (x :: l1) a b l2). by rewrite Hl12.
Qed.

(** The same, with what is known of the two ends of a link: the first is
    not the last element, the second is not the head. *)
Lemma Chain_impl_in R R' l x :
  Chain R (l ++ [x]) ->
  (forall a b, a ∈ l -> b ∈ tail (l ++ [x]) -> R a b -> R' a b) ->
  Chain R' (l ++ [x]).
Proof.
  intros HC HR. apply (Chain_impl R); [done|].
  intros l1 a b l2 Hl. apply HR.
  - destruct l2 as [|c l2 _] using rev_ind.
    + replace (l1 ++ [a; b]) with ((l1 ++ [a]) ++ [b]) in Hl by by rewrite <-app_assoc.
      apply app_inj_tail in Hl as [-> _]. set_solver.
    + replace (l1 ++ a :: b :: l2 ++ [c]) with ((l1 ++ a :: b :: l2) ++ [c]) in Hl
        by by rewrite <-app_assoc.
      apply app_inj_tail in Hl as [-> _]. set_solver.
  - rewrite Hl. destruct l1; simpl; set_solver.
Qed.

(** A transitive relation holds between any two elements in order. *)
Lemma Chain_trans R l1 a l2 b l3 :
  (forall x y z, y ∈ l2 -> R x y -> R y z -> R x z) ->
  Chain R (l1 ++ a :: l2 ++ b :: l3) -> R a b.
Proof.
  intros HR HC. apply Chain_split in HC as [_ HC]. clear l1.
  revert a HC HR. induction l2 as [|x l2 IH]; intros a HC HR.
  - cbn [app] in HC. by destruct HC as [? _].
  - assert (R a x /\ Chain R (x :: l2 ++ b :: l3)) as [Hax HC'] by done.
    apply (HR a x b); [set_solver|done|]. apply IH; [done|]. intros u v w Hv. apply HR. set_solver.
Qed.
End Chain.
#[global] Arguments Chain : simpl never.

(** ** Neighbours in a list without duplicates *)

Section Neighbours.
Context {A : Type} `{EqDecision A}.
Implicit Types (l : list A) (x y : A).

(** The element that follows [x] in [l]. *)
Fixpoint succ_in (l : list A) (x : A) : option A :=
  match l with
  | a :: ((b :: _) as t) => if decide (a = x) then Some b else succ_in t x
  | _ => None
  end.

(** The element that precedes [x] in [l]. *)
Fixpoint pred_in (l : list A) (x : A) : option A :=
  match l with
  | a :: ((b :: _) as t) => if decide (b = x) then Some a else pred_in t x
  | _ => None
  end.

(** [p] put right after [x] in [l]. *)
Fixpoint insert_after (l : list A) (x p : A) : list A :=
  match l with
  | [] => []
  | a :: t => if decide (a = x) then a :: p :: t else a :: insert_after t x p
  end.

(** [x] taken out of [l]; [None] when it is not there. *)
Fixpoint take_out (l : list A) (x : A) : option (list A) :=
  match l with
  | [] => None
  | a :: t => if decide (a = x) then Some t else cons a <$> take_out t x
  end.

Lemma succ_in_app l1 x y l2 : x ∉ l1 -> succ_in (l1 ++ x :: y :: l2) x = Some y.
Proof.
  induction l1 as [|a l1 IH]; intros Hx.
  - simpl. by rewrite decide_True.
  - apply not_elem_of_cons in Hx as [Ha Hx]. specialize (IH Hx).
    destruct l1 as [|b l1]; simpl in *; by rewrite decide_False.
Qed.

Lemma succ_in_hd x y l : succ_in (x :: y :: l) x = Some y.
Proof. apply (succ_in_app [] x y l). apply not_elem_of_nil. Qed.

Lemma succ_in_snd a x y l : a <> x -> succ_in (a :: x :: y :: l) x = Some y.
Proof. intros Ha. apply (succ_in_app [a] x y l). rewrite list_elem_of_singleton. congruence. Qed.

Lemma pred_in_app l1 x y l2 : y ∉ l1 -> x <> y -> y ∉ l2 ->
  pred_in (l1 ++ x :: y :: l2) y = Some x.
Proof.
  induction l1 as [|a l1 IH]; intros Hy Hxy Hy2.
  - simpl. by rewrite decide_True.
  - apply not_elem_of_cons in Hy as [Ha Hy]. specialize (IH Hy Hxy Hy2).
    destruct l1 as [|b l1]; simpl in *.
    + by rewrite decide_False.
    + rewrite decide_False; [done|]. set_solver.
Qed.

Lemma insert_after_app l1 x p l2 : x ∉ l1 ->
  insert_after (l1 ++ x :: l2) x p = l1 ++ x :: p :: l2.
Proof.
  induction l1 as [|a l1 IH]; intros Hx; simpl.
  - by rewrite decide_True.
  - apply not_elem_of_cons in Hx as [Ha Hx]. rewrite decide_False by done. by rewrite IH.
Qed.

Lemma take_out_app l1 x l2 : x ∉ l1 -> take_out (l1 ++ x :: l2) x = Some (l1 ++ l2).
Proof.
  induction l1 as [|a l1 IH]; intros Hx; simpl.
  - by rewrite decide_True.
  - apply not_elem_of_cons in Hx as [Ha Hx]. rewrite decide_False by done. by rewrite IH.
Qed.

Lemma take_out_None l x : x ∉ l -> take_out l x = None.
Proof.
  induction l as [|a l IH]; intros Hx; simpl; [done|].
  apply not_elem_of_cons in Hx as [Ha Hx]. rewrite decide_False by done. by rewrite IH.
Qed.

Lemma take_out_Some l x l' :
  take_out l x = Some l' <->
  exists l1 l2, l = l1 ++ x :: l2 /\ l' = l1 ++ l2 /\ x ∉ l1.
Proof.
  split.
  - revert l'. induction l as [|a l IH]; intros l'; simpl; [done|].
    case_decide as Ha; subst.
    + intros [= <-]. exists [], l. set_solver.
    + intros (t & (l1 & l2 & -> & -> & Hx)%IH & ->)%fmap_Some.
      exists (a :: l1), l2. set_solver.
  - intros (l1 & l2 & -> & -> & Hx). by apply take_out_app.
Qed.

(** Every member of a list splits it at its first occurrence. *)
Lemma split_first l x : x ∈ l -> exists l1 l2, l = l1 ++ x :: l2 /\ x ∉ l1.
Proof.
  induction l as [|a l IH]; [by intros ?%elem_of_nil|].
  intros [->|Hx]%elem_of_cons.
  - exists [], l. set_solver.
  - destruct (decide (a = x)) as [->|Ha]; [exists [], l; set_solver|].
    destruct (IH Hx) as (l1 & l2 & -> & H1). exists (a :: l1), l2. set_solver.
Qed.

Lemma take_out_is_Some l x : x ∈ l -> is_Some (take_out l x).
Proof. intros (l1 & l2 & -> & Hx)%split_first. rewrite take_out_app by done. eauto. Qed.

(** [take_out] on a duplicate-free list removes exactly one element. *)
Lemma take_out_spec l x l' : NoDup l -> take_out l x = Some l' ->
  NoDup l' /\ (forall y, y ∈ l' <-> y ∈ l /\ y <> x) /\ x ∈ l.
Proof.
  intros Hnd (l1 & l2 & -> & -> & Hx)%take_out_Some.
  apply NoDup_app in Hnd as (Hn1 & Hd & Hn2).
  apply NoDup_cons in Hn2 as [Hx2 Hn2].
  split; [apply NoDup_app; set_solver|]. split; [|set_solver].
  intros y. destruct (decide (y = x)); set_solver.
Qed.
End Neighbours.

(** ** Ends of lists *)

Lemma hd_snoc {A} (l : list A) x : exists y, hd_error (l ++ [x]) = Some y /\ (y ∈ l \/ y = x).
Proof. destruct l as [|a l]; simpl; eexists; split; [done|set_solver|done|set_solver]. Qed.

Lemma last_cons' {A} (x : A) (l : list A) : exists y, last (x :: l) = Some y /\ (y ∈ x :: l).
Proof.
  destruct (last (x :: l)) as [y|] eqn:Hy; [|by apply last_None in Hy].
  exists y. split; [done|]. apply last_Some in Hy as [l' ->]. set_solver.
Qed.


Lemma elem_of_tail {A} (l : list A) y : y ∈ tail l -> y ∈ l.
Proof. destruct l; [done|]. intros. by right. Qed.

(** The two sides of a split list [x :: l = l1 ++ a :: l2], closed as a ring. *)
Lemma split_left_in {A} (x a y : A) l l1 l2 :
  x :: l = l1 ++ a :: l2 -> y ∈ l1 ++ [a] -> y ∈ x :: l.
Proof. intros ->. rewrite !elem_of_app, list_elem_of_singleton, elem_of_cons. tauto. Qed.

Lemma split_right_in {A} (x a y : A) l l1 l2 :
  x :: l = l1 ++ a :: l2 -> y ∈ l2 ++ [x] -> y ∈ x :: l.
Proof.
  intros E. rewrite elem_of_app, list_elem_of_singleton. intros [Hy| ->]; [|by left].
  rewrite E, elem_of_app, elem_of_cons. tauto.
Qed.

(** Where a list passes from elements satisfying [P] to one satisfying [Q]. *)
Lemma list_crossing {A} (P Q : A -> Prop) a l z :
  P a -> (forall n, n ∈ l -> P n \/ Q n) -> Q z ->
  exists l1 x y l2, a :: l ++ [z] = l1 ++ x :: y :: l2 /\ P x /\ Q y.
Proof.
  revert a. induction l as [|b l IH]; intros a Ha Hl Hz.
  - by exists [], a, z, [].
  - destruct (Hl b) as [Hb|Hb]; [by left| |].
    + destruct (IH b Hb) as (l1 & x & y & l2 & E & ? & ?); [intros; apply Hl; by right|done|].
      exists (a :: l1), x, y, l2. split; [|done]. simpl. by rewrite <-E.
    + by exists [], a, b, (l ++ [z]).
Qed.

(** Consecutive elements of a closed list: the first is not the closing one. *)
Lemma ring_consecutive {A} (l : list A) z l1 x y l2 :
  l ++ [z] = l1 ++ x :: y :: l2 -> exists l2', l = l1 ++ x :: l2'.
Proof.
  destruct l2 as [|c l2 _] using rev_ind; intros E.
  - replace (l1 ++ [x; y]) with ((l1 ++ [x]) ++ [y]) in E by by rewrite <-app_assoc.
    apply app_inj_tail in E as [-> _]. by exists [].
  - replace (l1 ++ x :: y :: l2 ++ [c]) with ((l1 ++ x :: y :: l2) ++ [c]) in E
      by by rewrite <-app_assoc.
    apply app_inj_tail in E as [-> _]. by exists (y :: l2).
Qed.
