(* ===== verification/ListHead.v ===== *)
(** * The intrusive doubly linked lists of drm_linux_list.h

    [struct list_head] is a node of a circular list; [contain_ptr] holds the
    address of the structure the node is embedded in, which is how this port
    of the Linux lists implements [list_entry].  The macros are translated
    statement by statement over an explicit heap, and shown to implement
    operations on mathematical lists: the components that keep their nodes
    in such lists are then modelled with those lists. *)

From S2P Require Import Prelude.

Record list_head := mk_list_head { next : Z; prev : Z; contain_ptr : Z }.

Definition NULL : Z := 0.

(** The memory of list nodes, by address. *)
Abbreviation heap := (gmap Z list_head).

Definition wr_next (p v : Z) (h : heap) : option heap :=
  nd ← h !! p; Some (<[p := mk_list_head v (prev nd) (contain_ptr nd)]> h).
Definition wr_prev (p v : Z) (h : heap) : option heap :=
  nd ← h !! p; Some (<[p := mk_list_head (next nd) v (contain_ptr nd)]> h).
Definition wr_ptr (p v : Z) (h : heap) : option heap :=
  nd ← h !! p; Some (<[p := mk_list_head (next nd) (prev nd) v]> h).
Definition rd_next (p : Z) (h : heap) : option Z := next <$> h !! p.
Definition rd_prev (p : Z) (h : heap) : option Z := prev <$> h !! p.
Definition rd_ptr (p : Z) (h : heap) : option Z := contain_ptr <$> h !! p.

(** ** The macros *)

Definition list_entry (ptr : Z) (h : heap) : option Z :=
  if ptr =? NULL then Some NULL else rd_ptr ptr h.

Definition list_empty (head : Z) (h : heap) : option bool :=
  n ← rd_next head h; Some (n =? head).

Definition INIT_LIST_HEAD (head : Z) (h : heap) : option heap :=
  h ← wr_next head head h;
  h ← wr_prev head head h;
  wr_ptr head NULL h.

Definition list_add (ptr head entry : Z) (h : heap) : option heap :=
  n_node ← rd_next head h;
  h ← wr_prev ptr head h;
  n ← rd_next head h;
  h ← wr_next ptr n h;
  h ← wr_prev n_node ptr h;
  h ← wr_next head ptr h;
  wr_ptr ptr entry h.

Definition list_add_tail (ptr head entry : Z) (h : heap) : option heap :=
  p_node ← rd_prev head h;
  p ← rd_prev head h;
  h ← wr_prev ptr p h;
  h ← wr_next ptr head h;
  h ← wr_next p_node ptr h;
  h ← wr_prev head ptr h;
  wr_ptr ptr entry h.

Definition list_del (ptr : Z) (h : heap) : option heap :=
  n_node ← rd_next ptr h;
  p_node ← rd_prev ptr h;
  p ← rd_prev ptr h;
  h ← wr_prev n_node p h;
  n ← rd_next ptr h;
  h ← wr_next p_node n h;
  h ← wr_prev ptr NULL h;
  wr_next ptr NULL h.

Definition list_del_init (ptr : Z) (h : heap) : option heap :=
  h ← list_del ptr h; INIT_LIST_HEAD ptr h.

Definition list_move (ptr head entry : Z) (h : heap) : option heap :=
  h ← list_del ptr h; list_add ptr head entry h.

Definition list_move_tail (ptr head entry : Z) (h : heap) : option heap :=
  h ← list_del ptr h; list_add_tail ptr head entry h.

Definition list_splice (list be ne : Z) (h : heap) : option heap :=
  e ← list_empty list h;
  if (e : bool) then Some h else
  first ← rd_next list h;
  last ← rd_prev list h;
  h ← wr_prev first be h;
  h ← wr_next be first h;
  h ← wr_next last ne h;
  wr_prev ne last h.

Definition list_replace (old new : Z) (h : heap) : option heap :=
  on ← rd_next old h;
  h ← wr_next new on h;
  nn ← rd_next new h;
  h ← wr_prev nn new h;
  op ← rd_prev old h;
  h ← wr_prev new op h;
  np ← rd_prev new h;
  wr_next np new h.

(** [list_for_each]: the nodes visited from [(head)->next] until [head]. *)
Fixpoint list_for_each_from (fuel : nat) (pos head : Z) (h : heap) : option (list Z) :=
  match fuel with
  | O => None
  | S fuel =>
      if pos =? head then Some [] else
      n ← rd_next pos h; cons pos <$> list_for_each_from fuel n head h
  end.

Definition list_for_each (fuel : nat) (head : Z) (h : heap) : option (list Z) :=
  n ← rd_next head h; list_for_each_from fuel n head h.

(** [list_for_each_entry]: the structures visited, which ends at the first
    node whose [contain_ptr] is NULL, normally the bare list head.  The map
    [mem] takes a structure to its embedded list node. *)
Fixpoint list_for_each_entry_from (fuel : nat) (mem : Z -> Z) (pos : Z) (h : heap)
    : option (list Z) :=
  match fuel with
  | O => None
  | S fuel =>
      if pos =? NULL then Some [] else
      n ← rd_next (mem pos) h; e ← list_entry n h;
      cons pos <$> list_for_each_entry_from fuel mem e h
  end.

Definition list_for_each_entry (fuel : nat) (mem : Z -> Z) (head : Z) (h : heap)
    : option (list Z) :=
  n ← rd_next head h; e ← list_entry n h; list_for_each_entry_from fuel mem e h.

(** ** Effects of the writes *)

(** What a run of a macro leaves: the three fields as functions of the address. *)
Definition shape (h : heap) (nx pv cp : Z -> option Z) : Prop :=
  (forall a, rd_next a h = nx a) /\ (forall a, rd_prev a h = pv a) /\
  (forall a, rd_ptr a h = cp a).

Definition upd (f : Z -> option Z) (p v : Z) : Z -> option Z :=
  fun a => if a =? p then Some v else f a.

Lemma upd_eq f p v : upd f p v p = Some v.
Proof. unfold upd. by rewrite Z.eqb_refl. Qed.
Lemma upd_ne f p v a : a <> p -> upd f p v a = f a.
Proof. unfold upd. by destruct (Z.eqb_spec a p). Qed.
Lemma upd_live f p v a : is_Some (f a) -> is_Some (upd f p v a).
Proof. unfold upd. case_match; eauto. Qed.

Create HintDb live.
#[export] Hint Resolve upd_live : live.

Section Writes.
Context (h : heap) (nx pv cp : Z -> option Z) (H : shape h nx pv cp) (p v : Z).

Lemma shape_live : is_Some (nx p) -> is_Some (h !! p).
Proof. destruct H as [Hn _]. rewrite <-Hn. unfold rd_next. by rewrite fmap_is_Some. Qed.

Ltac wr_tac := intros [nd Hp]%shape_live; destruct H as (Hn & Hv & Hc);
  eexists; rewrite Hp; split; [reflexivity|];
  revert Hn Hv Hc; unfold shape, rd_next, rd_prev, rd_ptr, upd; intros Hn Hv Hc;
  repeat split; intros a; rewrite <-?Hn, <-?Hv, <-?Hc;
  destruct (Z.eqb_spec a p) as [->|];
  rewrite ?lookup_insert_eq, ?lookup_insert_ne by congruence; rewrite ?Hp; try done.

Lemma wr_next_shape : is_Some (nx p) ->
  exists h', wr_next p v h = Some h' /\ shape h' (upd nx p v) pv cp.
Proof. unfold wr_next. wr_tac. Qed.

Lemma wr_prev_shape : is_Some (nx p) ->
  exists h', wr_prev p v h = Some h' /\ shape h' nx (upd pv p v) cp.
Proof. unfold wr_prev. wr_tac. Qed.

Lemma wr_ptr_shape : is_Some (nx p) ->
  exists h', wr_ptr p v h = Some h' /\ shape h' nx pv (upd cp p v).
Proof. unfold wr_ptr. wr_tac. Qed.
End Writes.

(** ** Effects of the macros *)

(** Run the next read or write of a macro, keeping the shape of the heap. *)
Ltac wstep :=
  match goal with
  | S : shape ?h _ _ _ |- context [rd_next ?p ?h] => rewrite (proj1 S p)
  | S : shape ?h _ _ _ |- context [rd_prev ?p ?h] => rewrite (proj1 (proj2 S) p)
  | S : shape ?h _ _ _ |- context [wr_next ?p ?v ?h] =>
      destruct (wr_next_shape h _ _ _ S p v) as (? & -> & ?S); [eauto 8 with live|]
  | S : shape ?h _ _ _ |- context [wr_prev ?p ?v ?h] =>
      destruct (wr_prev_shape h _ _ _ S p v) as (? & -> & ?S); [eauto 8 with live|]
  | S : shape ?h _ _ _ |- context [wr_ptr ?p ?v ?h] =>
      destruct (wr_ptr_shape h _ _ _ S p v) as (? & -> & ?S); [eauto 8 with live|]
  end.

Ltac wsimpl := simpl; rewrite ?upd_eq, ?upd_ne by done; simpl.

Section Effects.
Context (h : heap) (nx pv cp : Z -> option Z) (H : shape h nx pv cp).

Lemma INIT_LIST_HEAD_shape head : is_Some (nx head) ->
  exists h', INIT_LIST_HEAD head h = Some h' /\
    shape h' (upd nx head head) (upd pv head head) (upd cp head NULL).
Proof.
  intros Hn. unfold INIT_LIST_HEAD. do 3 (wstep; wsimpl). eauto.
Qed.

Lemma list_add_shape p head entry n :
  nx head = Some n -> is_Some (nx n) -> is_Some (nx p) -> p <> head ->
  exists h', list_add p head entry h = Some h' /\
    shape h' (upd (upd nx p n) head p) (upd (upd pv p head) n p) (upd cp p entry).
Proof.
  intros Hh Hn Hp Hne. unfold list_add. wstep. rewrite Hh. wsimpl.
  wstep; wsimpl. wstep. rewrite Hh. wsimpl. do 4 (wstep; wsimpl). eauto.
Qed.

Lemma list_add_tail_shape p head entry q :
  pv head = Some q -> is_Some (nx head) -> is_Some (nx q) -> is_Some (nx p) -> p <> head ->
  exists h', list_add_tail p head entry h = Some h' /\
    shape h' (upd (upd nx p head) q p) (upd (upd pv p q) head p) (upd cp p entry).
Proof.
  intros Hh Hn Hq Hp Hne. unfold list_add_tail. wstep. rewrite Hh. wsimpl.
  do 5 (wstep; wsimpl). eauto.
Qed.

Lemma list_del_shape p n q :
  nx p = Some n -> pv p = Some q -> is_Some (nx n) -> is_Some (nx q) ->
  exists h', list_del p h = Some h' /\
    shape h' (upd (upd nx q n) p NULL) (upd (upd pv n q) p NULL) cp.
Proof.
  intros Hn Hq Hln Hlq. unfold list_del. wstep. rewrite Hn. wsimpl.
  wstep. rewrite Hq. wsimpl. wstep; wsimpl. wstep. rewrite Hn. wsimpl.
  do 3 (wstep; wsimpl). eauto.
Qed.

Lemma list_replace_shape old new n q :
  nx old = Some n -> pv old = Some q -> is_Some (nx n) -> is_Some (nx q) ->
  is_Some (nx new) -> old <> new -> n <> old ->
  exists h', list_replace old new h = Some h' /\
    shape h' (upd (upd nx new n) q new) (upd (upd pv n new) new q) cp.
Proof.
  intros Hn Hq Hln Hlq Hnew Hne Hno. unfold list_replace. wstep. rewrite Hn. wsimpl.
  wstep; wsimpl. wstep; wsimpl. wstep; wsimpl. wstep; wsimpl. rewrite Hq. wsimpl.
  do 3 (wstep; wsimpl). eauto.
Qed.
End Effects.

(** ** Rings: the lists a heap represents *)

Definition linked (nx pv : Z -> option Z) (a b : Z) : Prop := nx a = Some b /\ pv b = Some a.

(** [head] is the head of a circular list of the nodes [l], in order. *)
Definition ring (nx pv : Z -> option Z) (head : Z) (l : list Z) : Prop :=
  NoDup (head :: l) /\ Chain (linked nx pv) (head :: l ++ [head]).

Definition is_list (h : heap) (head : Z) (l : list Z) : Prop :=
  ring (fun a => rd_next a h) (fun a => rd_prev a h) head l.

Lemma ring_shape h nx pv cp head l : shape h nx pv cp -> ring nx pv head l -> is_list h head l.
Proof.
  intros (Hn & Hp & _) [Hnd HC]. split; [done|].
  apply (Chain_impl _ _ _ HC). intros l1 a b l2 _. unfold linked. by rewrite Hn, Hp.
Qed.

Lemma shape_refl h : shape h (fun a => rd_next a h) (fun a => rd_prev a h) (fun a => rd_ptr a h).
Proof. done. Qed.
#[export] Hint Resolve shape_refl : live.

Section Ring.
Context (nx pv : Z -> option Z) (head : Z).

Lemma ring_nil : nx head = Some head -> pv head = Some head -> ring nx pv head [].
Proof. intros. split; [apply NoDup_singleton|]. by split. Qed.

Lemma ring_empty l : ring nx pv head l -> (nx head = Some head <-> l = []).
Proof.
  intros [Hnd HC]. destruct l as [|a l]; [by destruct HC as [[-> _] _]|].
  destruct HC as [[-> _] _]. apply NoDup_cons in Hnd as [Hh _]. set_solver.
Qed.

(** Each node of a ring has live neighbours, on both sides. *)
Lemma ring_live l a : ring nx pv head l -> a ∈ head :: l -> is_Some (nx a) /\ is_Some (pv a).
Proof.
  intros [_ HC] Ha. split.
  - rewrite app_comm_cons in HC. apply list_elem_of_lookup in Ha as [i Hi].
    assert (Hlt := lookup_lt_Some _ _ _ Hi).
    destruct (lookup_lt_is_Some_2 ((head :: l) ++ [head]) (S i)) as [b Hb];
      [rewrite length_app; simpl in *; lia|].
    destruct (proj1 (Chain_lookup _ _) HC i a b) as [-> _]; eauto.
    by apply lookup_app_l_Some.
  - assert (a ∈ l ++ [head]) as (l1 & l2 & Hl & _)%split_first by set_solver.
    rewrite Hl in HC. destruct l1 as [|b l1 _] using rev_ind.
    + destruct HC as [[_ ->] _]. eauto.
    + rewrite <-app_assoc, app_comm_cons in HC. apply Chain_join in HC as (_ & [_ ->] & _). eauto.
Qed.

(** The two chains on either side of the seam between [x], the last of
    [head :: l1], and [y], the first of [l2 ++ [head]], survive changes of
    the next field of [x], of the prev field of [y] and of nodes outside. *)
Lemma ring_sides l1 l2 x y nx' pv' :
  NoDup (head :: l1 ++ l2) ->
  last (head :: l1) = Some x -> hd_error (l2 ++ [head]) = Some y ->
  (forall a, a ∈ head :: l1 ++ l2 -> a <> x -> nx' a = nx a) ->
  (forall b, b ∈ head :: l1 ++ l2 -> b <> y -> pv' b = pv b) ->
  Chain (linked nx pv) (head :: l1) -> Chain (linked nx pv) (l2 ++ [head]) ->
  Chain (linked nx' pv') (head :: l1) /\ Chain (linked nx' pv') (l2 ++ [head]).
Proof.
  intros Hnd Hx Hy Hn' Hp' H1 H2. apply NoDup_cons in Hnd as [Hh Hnd].
  assert (y ∉ l1) as Hy1.
  { apply NoDup_app in Hnd as (_ & Hd & _). destruct l2; simplify_eq/=; set_solver. }
  apply last_Some in Hx as [A HA]. split.
  - rewrite HA in *. apply (Chain_impl_in _ _ _ _ H1). rewrite <-HA. simpl.
    intros a b Ha Hb [Hab Hba]. assert (a ∈ head :: l1) by (rewrite HA; set_solver).
    split; [rewrite Hn'; [done|set_solver|]|rewrite Hp'; [done|set_solver|set_solver]].
    intros ->. assert (NoDup (A ++ [x])) as HndA.
    { rewrite <-HA. apply NoDup_cons. apply NoDup_app in Hnd as [? _]. set_solver. }
    apply NoDup_app in HndA. set_solver.
  - apply (Chain_impl_in _ _ _ _ H2). intros a b Ha Hb [Hab Hba].
    assert (x ∈ head :: l1) by (rewrite HA; set_solver).
    apply NoDup_app in Hnd as (_ & Hd & Hnd).
    split; [rewrite Hn'; [done|set_solver|set_solver]|rewrite Hp'; [done| |]].
    + destruct l2; set_solver.
    + intros ->. destruct l2 as [|c l2]; simplify_eq/=; [set_solver|].
      apply NoDup_cons in Hnd as [? _]. set_solver.
Qed.

(** A ring is the two sides of a seam and the link across it. *)
Lemma ring_seam l1 l2 x y :
  last (head :: l1) = Some x -> hd_error (l2 ++ [head]) = Some y ->
  ring nx pv head (l1 ++ l2) <->
  NoDup (head :: l1 ++ l2) /\ Chain (linked nx pv) (head :: l1) /\
  linked nx pv x y /\ Chain (linked nx pv) (l2 ++ [head]).
Proof.
  intros [A HA]%last_Some Hy. unfold ring.
  destruct (l2 ++ [head]) as [|y' B] eqn:HB; simplify_eq/=.
  replace (head :: (l1 ++ l2) ++ [head]) with (A ++ x :: y :: B).
  - rewrite Chain_join, HA. tauto.
  - rewrite <-app_assoc, HB, app_comm_cons, HA, <-app_assoc. done.
Qed.
End Ring.

(** Linking [p] in between [x], the last of [l1], and [y], the first of [l2]. *)
Lemma ring_insert nx pv nx' pv' head l1 l2 p x y :
  ring nx pv head (l1 ++ l2) -> p ∉ head :: l1 ++ l2 ->
  last (head :: l1) = Some x -> hd_error (l2 ++ [head]) = Some y ->
  nx' x = Some p -> nx' p = Some y -> pv' y = Some p -> pv' p = Some x ->
  (forall a, a <> x -> a <> p -> nx' a = nx a) ->
  (forall b, b <> y -> b <> p -> pv' b = pv b) ->
  ring nx' pv' head (l1 ++ p :: l2).
Proof.
  intros Hr Hp Hx Hy Hxp Hpy Hyp Hpx Hn' Hp'.
  apply (ring_seam _ _ _ _ _ x y Hx Hy) in Hr as (Hnd & H1 & _ & H2).
  destruct (ring_sides nx pv head l1 l2 x y nx' pv') as [H1' H2']; try done;
    [intros; apply Hn'; set_solver|intros; apply Hp'; set_solver|].
  apply (ring_seam _ _ _ l1 (p :: l2) x p); [done|done|]. split; [|split; [done|split; [done|]]].
  - rewrite app_comm_cons, <-Permutation_middle. apply NoDup_cons. split; [set_solver|done].
  - destruct l2; simplify_eq/=; by repeat split.
Qed.

(** Unlinking [p]. *)
Lemma ring_remove nx pv nx' pv' head l1 l2 p x y :
  ring nx pv head (l1 ++ p :: l2) ->
  last (head :: l1) = Some x -> hd_error (l2 ++ [head]) = Some y ->
  nx' x = Some y -> pv' y = Some x ->
  (forall a, a <> x -> a <> p -> nx' a = nx a) ->
  (forall b, b <> y -> b <> p -> pv' b = pv b) ->
  ring nx' pv' head (l1 ++ l2).
Proof.
  intros Hr Hx Hy Hxy Hyx Hn' Hp'.
  apply (ring_seam _ _ _ l1 (p :: l2) x p) in Hr as (Hnd & H1 & _ & H2); [|done|done].
  rewrite app_comm_cons, <-Permutation_middle in Hnd. apply NoDup_cons in Hnd as [Hp Hnd].
  rewrite <-app_comm_cons in *. apply Chain_tail in H2.
  destruct (ring_sides nx pv head l1 l2 x y nx' pv') as [H1' H2']; try done;
    [intros; apply Hn'; set_solver|intros; apply Hp'; set_solver|].
  by apply (ring_seam _ _ _ _ _ x y Hx Hy).
Qed.

(** ** The macros on rings *)

(** [h'] is [h] except at the addresses of [S]. *)
Definition same_off (S : list Z) (h h' : heap) : Prop :=
  forall a, a ∉ S ->
    rd_next a h' = rd_next a h /\ rd_prev a h' = rd_prev a h /\ rd_ptr a h' = rd_ptr a h.

Lemma same_off_is_list S h h' head l :
  same_off S h h' -> is_list h head l -> (forall a, a ∈ head :: l -> a ∉ S) -> is_list h' head l.
Proof.
  intros Hf [Hnd HC] Hd. split; [done|].
  rewrite app_comm_cons in *. apply (Chain_impl_in _ _ _ _ HC).
  intros a b Ha Hb [Hab Hba].
  destruct (Hf a) as (Hna & _); [by apply Hd|].
  destruct (Hf b) as (_ & Hpb & _); [apply Hd; set_solver|]. split; congruence.
Qed.

Lemma shape_same_off S h h' nx pv cp :
  shape h' nx pv cp ->
  (forall a, a ∉ S -> nx a = rd_next a h /\ pv a = rd_prev a h /\ cp a = rd_ptr a h) ->
  same_off S h h'.
Proof. intros (Hn & Hp & Hc) HS a Ha. rewrite Hn, Hp, Hc. by apply HS. Qed.

Lemma is_list_live h head l a : is_list h head l -> a ∈ head :: l -> is_Some (rd_next a h).
Proof. intros Hl Ha. apply (ring_live _ _ _ _ a Hl Ha). Qed.

Lemma is_list_mid h head l1 p l2 :
  is_list h head (l1 ++ p :: l2) -> (p ∉ head :: l1 ++ l2) /\ NoDup (head :: l1 ++ l2).
Proof.
  intros [Hnd _]. rewrite app_comm_cons, <-Permutation_middle in Hnd.
  by apply NoDup_cons in Hnd.
Qed.

(** The links around a member. *)
Lemma is_list_links h head l1 p l2 q n :
  last (head :: l1) = Some q -> hd_error (l2 ++ [head]) = Some n ->
  is_list h head (l1 ++ p :: l2) ->
  rd_next q h = Some p /\ rd_prev p h = Some q /\ rd_next p h = Some n /\ rd_prev n h = Some p.
Proof.
  intros Hq Hn Hl.
  assert (is_list h head ((l1 ++ [p]) ++ l2)) as Hl' by by rewrite <-app_assoc.
  apply (ring_seam _ _ _ l1 (p :: l2) q p) in Hl as (_ & _ & [? ?] & _); [|done|done].
  apply (ring_seam _ _ head (l1 ++ [p]) l2 p n) in Hl' as (_ & _ & [? ?] & _);
    [done|by rewrite app_comm_cons, last_snoc|done].
Qed.

Lemma INIT_LIST_HEAD_spec h head : is_Some (rd_next head h) ->
  exists h', INIT_LIST_HEAD head h = Some h' /\ is_list h' head [] /\
    rd_ptr head h' = Some NULL /\ same_off [head] h h'.
Proof.
  intros Hh. destruct (INIT_LIST_HEAD_shape h _ _ _ (shape_refl h) head Hh) as (h' & -> & S').
  exists h'. split; [done|]. split; [|split].
  - apply (ring_shape _ _ _ _ _ _ S'). apply ring_nil; by rewrite upd_eq.
  - destruct S' as (_ & _ & ->). by rewrite upd_eq.
  - apply (shape_same_off _ _ _ _ _ _ S'). intros a Ha. rewrite !upd_ne by set_solver. done.
Qed.

Lemma list_add_spec h head l p entry :
  is_list h head l -> p ∉ head :: l -> is_Some (rd_next p h) ->
  exists h', list_add p head entry h = Some h' /\ is_list h' head (p :: l) /\
    rd_ptr p h' = Some entry /\ (forall a, a <> p -> rd_ptr a h' = rd_ptr a h) /\
    same_off (p :: head :: l) h h'.
Proof.
  intros Hl Hp Hlive. destruct (hd_snoc l head) as (n & Hn & Hnl).
  assert (rd_next head h = Some n) as Hhn.
  { apply (ring_seam _ _ _ [] l head n) in Hl as (_ & _ & [? _] & _); done. }
  destruct (list_add_shape h _ _ _ (shape_refl h) p head entry n) as (h' & -> & S');
    [done|apply (is_list_live _ _ _ _ Hl); set_solver|done|set_solver|].
  exists h'. split; [done|]. split; [|split; [|split]].
  - apply (ring_shape _ _ _ _ _ _ S').
    apply (ring_insert _ _ _ _ head [] l p head n Hl); try done;
      intros; rewrite ?upd_eq, ?upd_ne by set_solver; try done.
    all: by rewrite ?upd_eq, ?upd_ne, ?upd_eq by set_solver.
  - destruct S' as (_ & _ & ->). by rewrite upd_eq.
  - intros a Ha. destruct S' as (_ & _ & ->). by rewrite upd_ne.
  - apply (shape_same_off _ _ _ _ _ _ S'). intros a Ha. rewrite !upd_ne by set_solver. done.
Qed.

Lemma list_add_tail_spec h head l p entry :
  is_list h head l -> p ∉ head :: l -> is_Some (rd_next p h) ->
  exists h', list_add_tail p head entry h = Some h' /\ is_list h' head (l ++ [p]) /\
    rd_ptr p h' = Some entry /\ (forall a, a <> p -> rd_ptr a h' = rd_ptr a h) /\
    same_off (p :: head :: l) h h'.
Proof.
  intros Hl Hp Hlive. destruct (last_cons' head l) as (q & Hq & Hql).
  assert (rd_prev head h = Some q) as Hhq.
  { rewrite <-(app_nil_r l) in Hl.
    apply (ring_seam _ _ _ l [] q head) in Hl as (_ & _ & [_ ?] & _); done. }
  destruct (list_add_tail_shape h _ _ _ (shape_refl h) p head entry q) as (h' & -> & S');
    [done|apply (is_list_live _ _ _ _ Hl); set_solver|by apply (is_list_live _ _ _ _ Hl)|done|set_solver|].
  assert (q <> p) by set_solver.
  exists h'. split; [done|]. split; [|split; [|split]].
  - apply (ring_shape _ _ _ _ _ _ S'). rewrite <-(app_nil_r l) in Hl.
    apply (ring_insert _ _ _ _ head l [] p q head Hl); try done; [set_solver|..];
      intros; rewrite ?upd_eq, ?upd_ne by set_solver; try done.
    all: by rewrite ?upd_eq, ?upd_ne, ?upd_eq by set_solver.
  - destruct S' as (_ & _ & ->). by rewrite upd_eq.
  - intros a Ha. destruct S' as (_ & _ & ->). by rewrite upd_ne.
  - apply (shape_same_off _ _ _ _ _ _ S'). intros a Ha. rewrite !upd_ne by set_solver. done.
Qed.

Lemma list_del_spec h head l1 p l2 :
  is_list h head (l1 ++ p :: l2) ->
  exists h', list_del p h = Some h' /\ is_list h' head (l1 ++ l2) /\
    (forall a, rd_ptr a h' = rd_ptr a h) /\ is_Some (rd_next p h') /\
    same_off (p :: head :: l1 ++ l2) h h'.
Proof.
  intros Hl. destruct (hd_snoc l2 head) as (n & Hn & Hnl).
  destruct (last_cons' head l1) as (q & Hq & Hql).
  destruct (is_list_mid h head l1 p l2 Hl) as [Hp Hnd].
  destruct (is_list_links h head l1 p l2 q n Hq Hn Hl) as (Hqp & Hpq & Hpn & Hnp).
  assert (q <> p) by set_solver. assert (n <> p) by set_solver.
  destruct (list_del_shape h _ _ _ (shape_refl h) p n q) as (h' & -> & S');
    [done|done|apply (is_list_live _ _ _ _ Hl); set_solver|apply (is_list_live _ _ _ _ Hl); set_solver|].
  exists h'. split; [done|]. split; [|split; [|split]].
  - apply (ring_shape _ _ _ _ _ _ S').
    apply (ring_remove _ _ _ _ head l1 l2 p q n Hl); try done;
      intros; rewrite ?upd_ne, ?upd_eq by set_solver; try done.
    all: by rewrite ?upd_eq, ?upd_ne, ?upd_eq by set_solver.
  - intros a. by destruct S' as (_ & _ & ->).
  - destruct S' as (-> & _ & _). rewrite upd_eq. eauto.
  - apply (shape_same_off _ _ _ _ _ _ S'). intros a Ha. rewrite !upd_ne by set_solver. done.
Qed.

Lemma list_move_spec h head l1 p l2 entry :
  is_list h head (l1 ++ p :: l2) ->
  exists h', list_move p head entry h = Some h' /\ is_list h' head (p :: l1 ++ l2) /\
    rd_ptr p h' = Some entry /\ (forall a, a <> p -> rd_ptr a h' = rd_ptr a h) /\
    same_off (p :: head :: l1 ++ l2) h h'.
Proof.
  intros Hl. unfold list_move.
  destruct (is_list_mid h head l1 p l2 Hl) as [Hp _].
  destruct (list_del_spec h head l1 p l2 Hl) as (h1 & -> & H1 & Hc1 & Hlive & Hf1). simpl.
  destruct (list_add_spec h1 head (l1 ++ l2) p entry H1 Hp Hlive) as (h2 & -> & H2 & Hp2 & Hc2 & Hf2).
  exists h2. split; [done|]. split; [done|]. split; [done|]. split.
  - intros a Ha. by rewrite Hc2, Hc1.
  - intros a Ha. destruct (Hf1 a Ha) as (<- & <- & <-). by apply Hf2.
Qed.

Lemma list_empty_spec h head l :
  is_list h head l -> list_empty head h = Some (bool_decide (l = [])).
Proof.
  intros Hl. unfold list_empty.
  destruct (is_list_live _ _ _ head Hl) as [n Hn]; [set_solver|]. rewrite Hn. simpl.
  f_equal. apply eq_true_iff_eq. rewrite bool_decide_eq_true, Z.eqb_eq.
  rewrite <-(ring_empty _ _ _ _ Hl), Hn. naive_solver.
Qed.

(** [list_for_each] visits exactly the nodes of the list, in order, and ends:
    one unit of fuel per node and one for the test at the head. *)
Lemma list_for_each_from_spec h head l1 l2 fuel pos :
  is_list h head (l1 ++ l2) -> (length l2 < fuel)%nat -> hd_error (l2 ++ [head]) = Some pos ->
  list_for_each_from fuel pos head h = Some l2.
Proof.
  revert l1 fuel pos. induction l2 as [|a l2 IH]; intros l1 [|fuel] pos Hl Hf Hpos;
    simpl in *; try lia; simplify_eq.
  - by rewrite Z.eqb_refl.
  - destruct (Z.eqb_spec pos head) as [->|Hne].
    { destruct Hl as [Hnd _]. apply NoDup_cons in Hnd as [Hh _]. set_solver. }
    destruct (hd_snoc l2 head) as (n & Hn & _).
    assert (is_list h head ((l1 ++ [pos]) ++ l2)) as Hl' by by rewrite <-app_assoc.
    assert (rd_next pos h = Some n) as ->.
    { apply (ring_seam _ _ head (l1 ++ [pos]) l2 pos n) in Hl' as (_ & _ & [? _] & _);
        [done|by rewrite app_comm_cons, last_snoc|done]. }
    simpl. rewrite (IH (l1 ++ [pos])); [done|done|lia|done].
Qed.

Lemma list_for_each_spec h head l fuel :
  is_list h head l -> (length l < fuel)%nat -> list_for_each fuel head h = Some l.
Proof.
  intros Hl Hf. unfold list_for_each. destruct (hd_snoc l head) as (n & Hn & _).
  assert (rd_next head h = Some n) as ->.
  { apply (ring_seam _ _ head [] l head n) in Hl as (_ & _ & [? _] & _); done. }
  simpl. by apply (list_for_each_from_spec h head [] l).
Qed.

(** The structures a list carries: every node embedded in its structure, the
    head bare. *)
Definition carries (h : heap) (mem : Z -> Z) (head : Z) (es : list Z) : Prop :=
  is_list h head (mem <$> es) /\ rd_ptr head h = Some NULL /\
  (forall e, e ∈ es -> e <> NULL /\ rd_ptr (mem e) h = Some e) /\ (NULL ∉ head :: (mem <$> es)).

(** The walk started after node [x] follows the structures [es] up to the
    first node [stop] whose [contain_ptr] is NULL. *)
Lemma walk_to_stop h mem es stop x fuel :
  Chain (fun a b => rd_next a h = Some b) (x :: (mem <$> es) ++ [stop]) ->
  (forall e, e ∈ es -> e <> NULL /\ mem e <> NULL /\ rd_ptr (mem e) h = Some e) ->
  stop <> NULL -> rd_ptr stop h = Some NULL -> (length es < fuel)%nat ->
  (n ← rd_next x h; e ← list_entry n h; list_for_each_entry_from fuel mem e h) = Some es.
Proof.
  intros HC Hes Hs Hsp Hf. revert x fuel HC Hf.
  induction es as [|e es IH]; intros x [|fuel] HC Hf; simpl in *; try lia.
  - destruct HC as [-> _]. simpl. unfold list_entry.
    destruct (Z.eqb_spec stop NULL); [done|]. by rewrite Hsp.
  - destruct HC as [-> HC]. cbn [mbind option_bind].
    destruct (Hes e) as (He & Hm & Hp); [set_solver|].
    assert (list_entry (mem e) h = Some e) as ->.
    { unfold list_entry. by destruct (Z.eqb_spec (mem e) NULL). }
    simpl. destruct (Z.eqb_spec e NULL); [done|].
    specialize (IH ltac:(set_solver) (mem e) fuel HC ltac:(lia)).
    destruct (rd_next (mem e) h) as [n'|]; [|done]. simpl in *.
    destruct (list_entry n' h) as [e'|]; [|done]. simpl in *. by rewrite IH.
Qed.

Lemma list_for_each_entry_spec h mem head es fuel :
  carries h mem head es -> (length es < fuel)%nat ->
  list_for_each_entry fuel mem head h = Some es.
Proof.
  intros ([_ HC] & Hh & Hes & Hz) Hf. apply (walk_to_stop _ _ _ head); try done.
  - apply (Chain_impl _ _ _ HC). by intros l1 a b l2 _ [? _].
  - intros e He. destruct (Hes e He). split; [done|]. split; [|done].
    intros Hm. apply Hz. rewrite <-Hm. apply elem_of_cons. right. by apply list_elem_of_fmap_2.
  - set_solver.
Qed.

Lemma list_replace_spec h head l1 old l2 new :
  is_list h head (l1 ++ old :: l2) -> new ∉ head :: l1 ++ old :: l2 ->
  is_Some (rd_next new h) ->
  exists h', list_replace old new h = Some h' /\ is_list h' head (l1 ++ new :: l2) /\
    (forall a, rd_ptr a h' = rd_ptr a h).
Proof.
  intros Hl Hnew Hlive. destruct (hd_snoc l2 head) as (n & Hn & Hnl).
  destruct (last_cons' head l1) as (q & Hq & Hql).
  destruct (is_list_mid h head l1 old l2 Hl) as [Hp Hnd].
  assert (Hold := Hl). apply (is_list_links h head l1 old l2 q n Hq Hn) in Hold as (_ & Hpq & Hpn & _).
  assert (q <> old) by set_solver. assert (n <> old) by set_solver.
  assert (q <> new) by set_solver. assert (n <> new) by set_solver. assert (old <> new) by set_solver.
  destruct (list_replace_shape h _ _ _ (shape_refl h) old new n q) as (h' & -> & S');
    [done|done|apply (is_list_live _ _ _ _ Hl); set_solver
    |apply (is_list_live _ _ _ _ Hl); set_solver|done|done|done|].
  exists h'. split; [done|]. split; [|intros a; by destruct S' as (_ & _ & ->)].
  apply (ring_shape _ _ _ _ _ _ S').
  assert (ring (upd (fun a => rd_next a h) q n) (upd (fun a => rd_prev a h) n q) head (l1 ++ l2)) as Hr.
  { apply (ring_remove _ _ _ _ head l1 l2 old q n Hl Hq Hn); rewrite ?upd_eq; try done;
      intros a Ha _; by rewrite upd_ne. }
  assert (new ∉ head :: l1 ++ l2) as Hnew' by set_solver.
  apply (ring_insert _ _ _ _ head l1 l2 new q n Hr Hnew' Hq Hn).
  - by rewrite upd_eq.
  - by rewrite upd_ne, upd_eq by done.
  - by rewrite upd_ne, upd_eq by done.
  - by rewrite upd_eq.
  - intros a Ha1 Ha2. by rewrite !upd_ne by done.
  - intros b Hb1 Hb2. by rewrite !upd_ne by done.
Qed.

(** ** What the macros implement *)

Section Carries.
Context (h : heap) (mem : Z -> Z) (head : Z) (es : list Z) (Hc : carries h mem head es).

Lemma carries_update h' es' S :
  is_list h' head (mem <$> es') -> rd_ptr head h' = Some NULL ->
  (forall e, e ∈ es' -> e <> NULL /\ rd_ptr (mem e) h' = Some e) ->
  (forall e, e ∈ es' -> mem e = NULL -> S) -> ~ S ->
  carries h' mem head es'.
Proof.
  intros Hl Hh He HS Hn. split; [done|]. split; [done|]. split; [done|].
  pose proof Hc as (_ & _ & _ & Hz). intros [Hz'|Hz']%elem_of_cons; [set_solver|].
  apply list_elem_of_fmap in Hz' as (e & Hm & Hin). by eapply Hn, HS.
Qed.

Lemma carries_mem_ne e : e ∈ es -> mem e <> NULL.
Proof.
  pose proof Hc as (_ & _ & _ & Hz). intros He Hm. apply Hz. rewrite <-Hm.
  apply elem_of_cons. right. by apply list_elem_of_fmap_2.
Qed.

Lemma carries_head_ne e : e ∈ es -> mem e <> head.
Proof.
  pose proof Hc as ([Hnd _] & _). intros He Hm. apply NoDup_cons in Hnd as [Hh _].
  apply Hh. rewrite <-Hm. by apply list_elem_of_fmap_2.
Qed.

Lemma carries_add e :
  e <> NULL -> mem e ∉ NULL :: head :: (mem <$> es) -> is_Some (rd_next (mem e) h) ->
  (exists h', list_add (mem e) head e h = Some h' /\ carries h' mem head (e :: es)) /\
  (exists h', list_add_tail (mem e) head e h = Some h' /\ carries h' mem head (es ++ [e])).
Proof.
  intros He Hm Hlive. pose proof Hc as (Hl & Hh & Hes & Hz).
  assert (forall e', e' ∈ es -> mem e' <> mem e).
  { intros e' He' Heq. apply Hm. rewrite <-Heq. do 2 (apply elem_of_cons; right).
    by apply list_elem_of_fmap_2. }
  destruct (list_add_spec h head _ (mem e) e Hl) as (h1 & -> & H1 & Hp1 & Hc1 & _);
    [set_solver|done|].
  destruct (list_add_tail_spec h head _ (mem e) e Hl) as (h2 & -> & H2 & Hp2 & Hc2 & _);
    [set_solver|done|].
  split; eexists; (split; [done|]); apply (carries_update _ _ False); try tauto.
  - rewrite Hc1; [done|set_solver].
  - intros e' [->|He']%elem_of_cons; [done|]. rewrite Hc1 by auto. auto.
  - intros e' [->|He']%elem_of_cons; [set_solver|]. by apply carries_mem_ne.
  - by rewrite fmap_app.
  - rewrite Hc2; [done|set_solver].
  - intros e' [He'| ->%list_elem_of_singleton]%elem_of_app; [|done].
    rewrite Hc2 by auto. auto.
  - intros e' [He'| ->%list_elem_of_singleton]%elem_of_app; [|set_solver].
    by apply carries_mem_ne.
Qed.

Lemma carries_del es1 e es2 : es = es1 ++ e :: es2 ->
  (exists h', list_del (mem e) h = Some h' /\ carries h' mem head (es1 ++ es2)) /\
  (exists h', list_move (mem e) head e h = Some h' /\ carries h' mem head (e :: es1 ++ es2)).
Proof.
  intros Hsplit. pose proof Hc as (Hl & Hh & Hes & Hz).
  assert (Hl' := Hl). rewrite Hsplit, fmap_app, fmap_cons in Hl'.
  destruct (is_list_mid _ _ _ _ _ Hl') as [Hm _].
  destruct (list_del_spec _ _ _ _ _ Hl') as (h1 & -> & H1 & Hp1 & _).
  destruct (list_move_spec _ _ _ _ _ e Hl') as (h2 & -> & H2 & Hp2 & Hc2 & _).
  assert (forall e', e' ∈ es1 ++ es2 -> mem e' <> mem e).
  { intros e' He' Heq. apply Hm. rewrite <-Heq, <-fmap_app. apply elem_of_cons. right.
    by apply list_elem_of_fmap_2. }
  assert (forall e', e' ∈ es1 ++ es2 -> e' ∈ es) by set_solver. assert (e ∈ es) by set_solver.
  split; eexists; (split; [done|]); apply (carries_update _ _ False); try tauto.
  - by rewrite fmap_app.
  - by rewrite Hp1.
  - intros e' He'. rewrite Hp1. auto.
  - intros e' He'. apply carries_mem_ne. auto.
  - by rewrite fmap_cons, fmap_app.
  - rewrite Hc2; [done|]. intros Heq. by apply (carries_head_ne e).
  - intros e' [->|He']%elem_of_cons; [split; [by apply Hes|done]|]. rewrite Hc2 by auto. auto.
  - intros e' [->|He']%elem_of_cons; apply carries_mem_ne; auto.
Qed.
End Carries.

(** C21: the list macros refine the operations of mathematical lists.  On a
    heap that carries the structures [es], [list_empty] decides emptiness,
    [list_add] puts a structure in front, [list_add_tail] at the back,
    [list_del] takes one out wherever it stands and [list_move] brings it to
    the front; none of them dereferences a dead pointer. *)
Theorem list_macros_refine h mem head es :
  carries h mem head es ->
  list_empty head h = Some (bool_decide (es = [])) /\
  (forall e, e <> NULL -> mem e ∉ NULL :: head :: (mem <$> es) -> is_Some (rd_next (mem e) h) ->
    (exists h', list_add (mem e) head e h = Some h' /\ carries h' mem head (e :: es)) /\
    (exists h', list_add_tail (mem e) head e h = Some h' /\ carries h' mem head (es ++ [e]))) /\
  (forall es1 e es2, es = es1 ++ e :: es2 ->
    (exists h', list_del (mem e) h = Some h' /\ carries h' mem head (es1 ++ es2)) /\
    (exists h', list_move (mem e) head e h = Some h' /\ carries h' mem head (e :: es1 ++ es2))).
Proof.
  intros Hc. split; [|split].
  - destruct Hc as (Hl & _). rewrite (list_empty_spec _ _ _ Hl). f_equal.
    apply bool_decide_ext. by destruct es.
  - intros e. by apply carries_add.
  - intros es1 e es2. by apply carries_del.
Qed.

(** [list_for_each_entry] terminates on every well-formed list and visits
    each structure exactly once, in list order. *)
Theorem list_for_each_entry_visits h mem head es :
  carries h mem head es ->
  list_for_each_entry (S (length es)) mem head h = Some es /\ NoDup es.
Proof.
  intros Hc. split; [apply list_for_each_entry_spec; [done|lia]|].
  destruct Hc as ([Hnd _] & _). apply NoDup_cons in Hnd as [_ Hnd]. by eapply NoDup_fmap_1.
Qed.

(** [list_replace] links the new node in the place of the old one but does
    not set its [contain_ptr]: with the field still NULL, as after kzalloc,
    [list_for_each_entry] stops at the new node and misses the rest. *)
Theorem list_replace_truncates h mem head es1 old es2 new :
  carries h mem head (es1 ++ old :: es2) ->
  mem new ∉ NULL :: head :: (mem <$> es1 ++ old :: es2) ->
  rd_ptr (mem new) h = Some NULL ->
  exists h', list_replace (mem old) (mem new) h = Some h' /\
    is_list h' head (mem <$> es1 ++ new :: es2) /\
    list_for_each_entry (S (length es1)) mem head h' = Some es1.
Proof.
  intros Hc Hnew Hp. assert (Hc' := Hc). destruct Hc' as (Hl & Hh & Hes & Hz).
  rewrite fmap_app, fmap_cons in Hl, Hnew.
  destruct (list_replace_spec _ _ _ _ _ (mem new) Hl) as (h' & -> & Hl' & Hcp).
  - set_solver.
  - unfold rd_next. unfold rd_ptr in Hp. apply fmap_Some in Hp as (nd & -> & _). eauto.
  - exists h'. split; [done|]. split; [by rewrite fmap_app, fmap_cons|].
    apply (walk_to_stop _ _ _ (mem new)); [|..|lia].
    + destruct Hl' as [_ HC].
      rewrite <-app_assoc in HC.
      apply (Chain_split _ (head :: (mem <$> es1)) (mem new) ((mem <$> es2) ++ [head])) in HC as [HC _].
      apply (Chain_impl _ _ _ HC). by intros l1 a b l2 _ [? _].
    + intros e He. rewrite Hcp. destruct (Hes e ltac:(set_solver)).
      split; [done|]. split; [|done]. apply (carries_mem_ne _ _ _ _ Hc). set_solver.
    + set_solver.
    + by rewrite Hcp.
Qed.

(** ** A concrete heap *)

(** Head at 8; structures 16, 32 and 48, each with its list node at +1. *)
Definition demo_heap : heap :=
  list_to_map [(8, mk_list_head 17 33 NULL); (17, mk_list_head 33 8 16);
               (33, mk_list_head 8 17 32); (49, mk_list_head NULL NULL NULL)].
Definition demo_mem (e : Z) : Z := e + 1.

Lemma demo_carries : carries demo_heap demo_mem 8 [16; 32].
Proof.
  split; [|split; [done|split]].
  - split; [by apply (bool_decide_unpack _)|]. by repeat split.
  - intros e [->|[->|[]%not_elem_of_nil]%elem_of_cons]%elem_of_cons; by split.
  - by apply (bool_decide_unpack _).
Defined.

Lemma list_macros_refine_witness :
  exists h', list_del 17 demo_heap = Some h' /\ carries h' demo_mem 8 [32].
Proof.
  destruct (list_macros_refine demo_heap demo_mem 8 [16; 32] demo_carries) as (_ & _ & Hdel).
  destruct (Hdel [] 16 [32] eq_refl) as [Hd _]. exact Hd.
Defined.

Lemma list_for_each_entry_visits_witness :
  list_for_each_entry 3 demo_mem 8 demo_heap = Some [16; 32].
Proof. exact (proj1 (list_for_each_entry_visits demo_heap demo_mem 8 [16; 32] demo_carries)). Defined.

Lemma list_replace_truncates_witness :
  exists h', list_replace 33 49 demo_heap = Some h' /\
    list_for_each_entry 2 demo_mem 8 h' = Some [16].
Proof.
  destruct (list_replace_truncates demo_heap demo_mem 8 [16] 32 [] 48 demo_carries) as (h' & E & _ & F).
  - by apply (bool_decide_unpack _).
  - reflexivity.
  - exists h'. split; [exact E|exact F].
Defined.
