(* ===== verification/MM.v ===== *)
(** * The range allocator of drm_mm.c: data and operations

    A [drm_mm] manages an address range as an ordered list of allocated nodes
    and a stack of the nodes that are followed by a hole.  The intrusive lists
    are the lists that ListHead shows the macros implement; nodes live in a
    store indexed by their address.  A failed [BUG_ON], a use of a node that
    is not live and a [list_del] of a node that is not linked are [None]. *)

From S2P Require Import Prelude.

(** Addresses of [struct drm_mm_node]; [HEAD] is the embedded [head_node]. *)
Abbreviation nid := positive.
Definition HEAD : nid := 1%positive.

Definition MM_UNUSED_TARGET : Z := 4.

(** [scan_prev] and [scan_next] are what [drm_mm_scan_add_block] leaves in the
    [node_list] field of a node it has unlinked. *)
Record drm_mm_node := mk_node {
  hole_follows : bool;
  scanned_block : bool;
  scanned_prev_free : bool;
  scanned_next_free : bool;
  scanned_preceeds_hole : bool;
  allocated : bool;
  node_color : Z;
  node_start : Z;
  node_size : Z;
  scan_prev : nid;
  scan_next : option nid }.

(** The memory kzalloc returns. *)
Definition zero_node : drm_mm_node :=
  mk_node false false false false false false 0 0 0 HEAD None.

#[global] Instance node_inhabited : Inhabited drm_mm_node := populate zero_node.

(** A [color_adjust] callback reads the store and the [next] pointers. *)
Definition color_fn : Type :=
  (nid -> option drm_mm_node) -> (nid -> option nid) -> nid -> Z -> Z * Z -> Z * Z.

Record drm_mm := mk_mm {
  nodes : gmap nid drm_mm_node;
  node_list : list nid;          (* after head_node, in ring order *)
  hole_stack : list nid;
  unused_nodes : list nid;
  num_unused : Z;
  scan_check_range : bool;
  scan_alignment : Z;
  scan_color : Z;
  scan_size : Z;
  scan_hit_start : Z;
  scan_hit_end : Z;
  scanned_blocks : Z;
  scan_start : Z;
  scan_end : Z;
  prev_scanned_node : option nid;
  color_adjust : option color_fn }.

(** ** Field updates *)

Definition set_hole_follows (b : bool) (n : drm_mm_node) : drm_mm_node :=
  mk_node b (scanned_block n) (scanned_prev_free n) (scanned_next_free n)
    (scanned_preceeds_hole n) (allocated n) (node_color n) (node_start n) (node_size n)
    (scan_prev n) (scan_next n).
Definition set_allocated (b : bool) (n : drm_mm_node) : drm_mm_node :=
  mk_node (hole_follows n) (scanned_block n) (scanned_prev_free n) (scanned_next_free n)
    (scanned_preceeds_hole n) b (node_color n) (node_start n) (node_size n)
    (scan_prev n) (scan_next n).
Definition set_extent (st sz : Z) (n : drm_mm_node) : drm_mm_node :=
  mk_node (hole_follows n) (scanned_block n) (scanned_prev_free n) (scanned_next_free n)
    (scanned_preceeds_hole n) (allocated n) (node_color n) st sz
    (scan_prev n) (scan_next n).
Definition set_color (c : Z) (n : drm_mm_node) : drm_mm_node :=
  mk_node (hole_follows n) (scanned_block n) (scanned_prev_free n) (scanned_next_free n)
    (scanned_preceeds_hole n) (allocated n) c (node_start n) (node_size n)
    (scan_prev n) (scan_next n).
Definition set_scanned (b : bool) (n : drm_mm_node) : drm_mm_node :=
  mk_node (hole_follows n) b (scanned_prev_free n) (scanned_next_free n)
    (scanned_preceeds_hole n) (allocated n) (node_color n) (node_start n) (node_size n)
    (scan_prev n) (scan_next n).
Definition set_scan_links (ph : bool) (p : nid) (nx : option nid) (n : drm_mm_node) : drm_mm_node :=
  mk_node (hole_follows n) (scanned_block n) (scanned_prev_free n) (scanned_next_free n)
    ph (allocated n) (node_color n) (node_start n) (node_size n) p nx.

Definition with_nodes (ns : gmap nid drm_mm_node) (m : drm_mm) : drm_mm :=
  mk_mm ns (node_list m) (hole_stack m) (unused_nodes m) (num_unused m)
    (scan_check_range m) (scan_alignment m) (scan_color m) (scan_size m)
    (scan_hit_start m) (scan_hit_end m) (scanned_blocks m) (scan_start m) (scan_end m)
    (prev_scanned_node m) (color_adjust m).
Definition with_node_list (l : list nid) (m : drm_mm) : drm_mm :=
  mk_mm (nodes m) l (hole_stack m) (unused_nodes m) (num_unused m)
    (scan_check_range m) (scan_alignment m) (scan_color m) (scan_size m)
    (scan_hit_start m) (scan_hit_end m) (scanned_blocks m) (scan_start m) (scan_end m)
    (prev_scanned_node m) (color_adjust m).
Definition with_hole_stack (l : list nid) (m : drm_mm) : drm_mm :=
  mk_mm (nodes m) (node_list m) l (unused_nodes m) (num_unused m)
    (scan_check_range m) (scan_alignment m) (scan_color m) (scan_size m)
    (scan_hit_start m) (scan_hit_end m) (scanned_blocks m) (scan_start m) (scan_end m)
    (prev_scanned_node m) (color_adjust m).
Definition with_unused (l : list nid) (k : Z) (m : drm_mm) : drm_mm :=
  mk_mm (nodes m) (node_list m) (hole_stack m) l k
    (scan_check_range m) (scan_alignment m) (scan_color m) (scan_size m)
    (scan_hit_start m) (scan_hit_end m) (scanned_blocks m) (scan_start m) (scan_end m)
    (prev_scanned_node m) (color_adjust m).
Definition with_scanned (k : Z) (p : option nid) (m : drm_mm) : drm_mm :=
  mk_mm (nodes m) (node_list m) (hole_stack m) (unused_nodes m) (num_unused m)
    (scan_check_range m) (scan_alignment m) (scan_color m) (scan_size m)
    (scan_hit_start m) (scan_hit_end m) k (scan_start m) (scan_end m) p (color_adjust m).
Definition with_hit (hs he : Z) (m : drm_mm) : drm_mm :=
  mk_mm (nodes m) (node_list m) (hole_stack m) (unused_nodes m) (num_unused m)
    (scan_check_range m) (scan_alignment m) (scan_color m) (scan_size m)
    hs he (scanned_blocks m) (scan_start m) (scan_end m)
    (prev_scanned_node m) (color_adjust m).

(** Write through a node pointer. *)
Definition upd_node (n : nid) (f : drm_mm_node -> drm_mm_node) (m : drm_mm) : option drm_mm :=
  nd ← nodes m !! n; Some (with_nodes (<[n := f nd]> (nodes m)) m).

(** ** Neighbours *)

(** The circular [node_list], from [head_node] back to it. *)
Definition node_ring (m : drm_mm) : list nid := HEAD :: node_list m ++ [HEAD].

Definition next_node (m : drm_mm) (n : nid) : option nid := succ_in (node_ring m) n.
Definition prev_node (m : drm_mm) (n : nid) : option nid := pred_in (node_ring m) n.

(** [list_add] of a node into the ring right after [p], which must be linked. *)
Definition link_after (p n : nid) (m : drm_mm) : option drm_mm :=
  if decide (p ∈ HEAD :: node_list m)
  then Some (with_node_list (tail (insert_after (HEAD :: node_list m) p n)) m)
  else None.

Definition unlink_node (n : nid) (m : drm_mm) : option drm_mm :=
  l ← take_out (node_list m) n; Some (with_node_list l m).
Definition push_hole (n : nid) (m : drm_mm) : drm_mm := with_hole_stack (n :: hole_stack m) m.
Definition unlink_hole (n : nid) (m : drm_mm) : option drm_mm :=
  l ← take_out (hole_stack m) n; Some (with_hole_stack l m).

(** ** Holes *)

(** [__drm_mm_hole_node_start], on the node's contents. *)
Definition hole_start_of (nd : drm_mm_node) : Z := u64 (node_start nd + node_size nd).

Definition __drm_mm_hole_node_start (m : drm_mm) (hole_node : nid) : option Z :=
  nd ← nodes m !! hole_node; Some (hole_start_of nd).

Definition drm_mm_hole_node_start (m : drm_mm) (hole_node : nid) : option Z :=
  nd ← nodes m !! hole_node;
  _ ← BUG_ON (negb (hole_follows nd));
  __drm_mm_hole_node_start m hole_node.

Definition __drm_mm_hole_node_end (m : drm_mm) (hole_node : nid) : option Z :=
  n ← next_node m hole_node; nd ← nodes m !! n; Some (node_start nd).

Definition drm_mm_hole_node_end (m : drm_mm) (hole_node : nid) : option Z :=
  __drm_mm_hole_node_end m hole_node.

(** [if (mm->color_adjust) mm->color_adjust(...)]. *)
Definition do_color_adjust (m : drm_mm) (hole_node : nid) (color : Z) (r : Z * Z) : Z * Z :=
  match color_adjust m with
  | Some f => f (fun n => nodes m !! n) (next_node m) hole_node color r
  | None => r
  end.

(** Rounding up to the alignment, as written in four places of the file. *)
Definition align_start (start alignment : Z) : Z :=
  if alignment =? 0 then start else
  let tmp := u32 (start mod alignment) in
  if tmp =? 0 then start else u64 (start + u32 (alignment - tmp)).

Definition check_free_hole (start end_ size alignment : Z) : bool :=
  if u64 (end_ - start) <? size then false
  else u64 (align_start start alignment + size) <=? end_.

(** ** Spare nodes *)

(** [kz] is what kzalloc returns: a fresh zeroed node, or none. *)
Definition drm_mm_kmalloc (m : drm_mm) (kz : option nid) : option nid * drm_mm :=
  match kz with
  | Some child => (Some child, with_nodes (<[child := zero_node]> (nodes m)) m)
  | None =>
      match unused_nodes m with
      | [] => (None, m)
      | child :: rest => (Some child, with_unused rest (num_unused m - 1) m)
      end
  end.

(** The loop runs once per kzalloc result in [kzs]; [None] is a list of
    results too short for the loop. *)
Fixpoint drm_mm_pre_get (m : drm_mm) (kzs : list (option nid)) : option (Z * drm_mm) :=
  if num_unused m <? MM_UNUSED_TARGET then
    match kzs with
    | [] => None
    | None :: _ => Some (if num_unused m <? 2 then - ENOMEM else 0, m)
    | Some node :: kzs =>
        let m := with_nodes (<[node := zero_node]> (nodes m)) m in
        drm_mm_pre_get (with_unused (unused_nodes m ++ [node]) (num_unused m + 1) m) kzs
    end
  else Some (0, m).

(** ** Insertion *)

(** The part of the insert helpers after the start of the block is chosen. *)
Definition place_node (m : drm_mm) (hole_node node : nid) (size color : Z)
    (hole_start hole_end adj_start adj_end : Z) : option drm_mm :=
  m ← (if adj_start =? hole_start
       then m ← upd_node hole_node (set_hole_follows false) m; unlink_hole hole_node m
       else Some m);
  m ← upd_node node (fun n => set_allocated true (set_color color (set_extent adj_start size n))) m;
  m ← link_after hole_node node m;
  _ ← BUG_ON (u64 (adj_start + size) >? adj_end);
  m ← upd_node node (set_hole_follows false) m;
  nstart ← __drm_mm_hole_node_start m node;
  if nstart <? hole_end
  then upd_node node (set_hole_follows true) (push_hole node m)
  else Some m.

Definition drm_mm_insert_helper (m : drm_mm) (hole_node node : nid)
    (size alignment color : Z) : option drm_mm :=
  hole_start ← drm_mm_hole_node_start m hole_node;
  hole_end ← drm_mm_hole_node_end m hole_node;
  nd ← nodes m !! node;
  _ ← BUG_ON (allocated nd);
  let '(adj_start, adj_end) := do_color_adjust m hole_node color (hole_start, hole_end) in
  place_node m hole_node node size color hole_start hole_end
    (align_start adj_start alignment) adj_end.

Definition drm_mm_insert_helper_range (m : drm_mm) (hole_node node : nid)
    (size alignment color start end_ : Z) : option drm_mm :=
  hole_start ← drm_mm_hole_node_start m hole_node;
  hole_end ← drm_mm_hole_node_end m hole_node;
  hn ← nodes m !! hole_node;
  nd ← nodes m !! node;
  _ ← BUG_ON (negb (hole_follows hn) || allocated nd);
  let adj_start := if hole_start <? start then start else hole_start in
  let adj_end := if hole_end >? end_ then end_ else hole_end in
  let '(adj_start, adj_end) := do_color_adjust m hole_node color (adj_start, adj_end) in
  let adj_start := align_start adj_start alignment in
  m ← place_node m hole_node node size color hole_start hole_end adj_start adj_end;
  _ ← BUG_ON (u64 (adj_start + size) >? end_);
  Some m.

(** ** Search *)

(** The loop of the search functions over the hole stack; [fits] is the body
    up to [check_free_hole]. *)
Fixpoint search_holes (m : drm_mm) (fits : nid -> option bool) (best_match : bool)
    (holes : list nid) (best : option nid) (best_size : Z) : option (option nid) :=
  match holes with
  | [] => Some best
  | entry :: holes =>
      ok ← fits entry;
      if negb ok then search_holes m fits best_match holes best best_size
      else if negb best_match then Some (Some entry)
      else
        nd ← nodes m !! entry;
        if node_size nd <? best_size
        then search_holes m fits best_match holes (Some entry) (node_size nd)
        else search_holes m fits best_match holes best best_size
  end.

Definition hole_fits (m : drm_mm) (size alignment color : Z) (entry : nid) : option bool :=
  hs ← drm_mm_hole_node_start m entry;
  he ← drm_mm_hole_node_end m entry;
  let '(adj_start, adj_end) := do_color_adjust m entry color (hs, he) in
  if bool_decide (is_Some (color_adjust m)) && (adj_end <=? adj_start) then Some false
  else Some (check_free_hole adj_start adj_end size alignment).

Definition hole_fits_in_range (m : drm_mm) (size alignment color start end_ : Z) (entry : nid)
    : option bool :=
  hs ← drm_mm_hole_node_start m entry;
  he ← drm_mm_hole_node_end m entry;
  let adj_start := if hs <? start then start else hs in
  let adj_end := if he >? end_ then end_ else he in
  let '(adj_start, adj_end) := do_color_adjust m entry color (adj_start, adj_end) in
  if bool_decide (is_Some (color_adjust m)) && (adj_end <=? adj_start) then Some false
  else Some (check_free_hole adj_start adj_end size alignment).

Definition drm_mm_search_free_generic (m : drm_mm) (size alignment color : Z) (best_match : bool)
    : option (option nid) :=
  _ ← BUG_ON (negb (scanned_blocks m =? 0));
  search_holes m (hole_fits m size alignment color) best_match (hole_stack m) None (2 ^ 64 - 1).

Definition drm_mm_search_free_in_range_generic (m : drm_mm)
    (size alignment color start end_ : Z) (best_match : bool) : option (option nid) :=
  _ ← BUG_ON (negb (scanned_blocks m =? 0));
  search_holes m (hole_fits_in_range m size alignment color start end_) best_match
    (hole_stack m) None (2 ^ 64 - 1).

Definition drm_mm_search_free (m : drm_mm) (size alignment : Z) (best_match : bool) :=
  drm_mm_search_free_generic m size alignment 0 best_match.
Definition drm_mm_search_free_in_range (m : drm_mm) (size alignment start end_ : Z)
    (best_match : bool) :=
  drm_mm_search_free_in_range_generic m size alignment 0 start end_ best_match.

(** ** Insertion of a preallocated node *)

Definition drm_mm_insert_node_generic (m : drm_mm) (node : nid) (size alignment color : Z)
    : option (Z * drm_mm) :=
  hole ← drm_mm_search_free_generic m size alignment color false;
  match hole with
  | None => Some (- ENOSPC, m)
  | Some hole_node => m ← drm_mm_insert_helper m hole_node node size alignment color; Some (0, m)
  end.

Definition drm_mm_insert_node (m : drm_mm) (node : nid) (size alignment : Z) :=
  drm_mm_insert_node_generic m node size alignment 0.

Definition drm_mm_insert_node_in_range_generic (m : drm_mm) (node : nid)
    (size alignment color start end_ : Z) : option (Z * drm_mm) :=
  hole ← drm_mm_search_free_in_range_generic m size alignment color start end_ false;
  match hole with
  | None => Some (- ENOSPC, m)
  | Some hole_node =>
      m ← drm_mm_insert_helper_range m hole_node node size alignment color start end_; Some (0, m)
  end.

Definition drm_mm_insert_node_in_range (m : drm_mm) (node : nid) (size alignment start end_ : Z) :=
  drm_mm_insert_node_in_range_generic m node size alignment 0 start end_.

(** ** Allocation of a node for a hole found before *)

Definition drm_mm_get_block_generic (m : drm_mm) (hole_node : nid) (size alignment color : Z)
    (kz : option nid) : option (option nid * drm_mm) :=
  match drm_mm_kmalloc m kz with
  | (None, m) => Some (None, m)
  | (Some node, m) =>
      m ← drm_mm_insert_helper m hole_node node size alignment color; Some (Some node, m)
  end.

Definition drm_mm_get_block_range_generic (m : drm_mm) (hole_node : nid)
    (size alignment color start end_ : Z) (kz : option nid) : option (option nid * drm_mm) :=
  match drm_mm_kmalloc m kz with
  | (None, m) => Some (None, m)
  | (Some node, m) =>
      m ← drm_mm_insert_helper_range m hole_node node size alignment color start end_;
      Some (Some node, m)
  end.

(** The wrappers: the atomic ones differ in the kzalloc flag only. *)
Definition drm_mm_get_block (m : drm_mm) (parent : nid) (size alignment : Z) (kz : option nid) :=
  drm_mm_get_block_generic m parent size alignment 0 kz.
Definition drm_mm_get_block_atomic (m : drm_mm) (parent : nid) (size alignment : Z)
    (kz : option nid) :=
  drm_mm_get_block_generic m parent size alignment 0 kz.
Definition drm_mm_get_block_range (m : drm_mm) (parent : nid) (size alignment start end_ : Z)
    (kz : option nid) :=
  drm_mm_get_block_range_generic m parent size alignment 0 start end_ kz.
Definition drm_mm_get_block_atomic_range (m : drm_mm) (parent : nid)
    (size alignment start end_ : Z) (kz : option nid) :=
  drm_mm_get_block_range_generic m parent size alignment 0 start end_ kz.

(** [drm_mm_create_block]: the loop over the holes, then the block at the given place. *)
Fixpoint create_block_loop (m : drm_mm) (start size : Z) (kz : option nid) (holes : list nid)
    : option (option nid * drm_mm) :=
  let end_ := u64 (start + size) in
  match holes with
  | [] => Some (None, m)
  | hole :: holes =>
      hole_start ← drm_mm_hole_node_start m hole;
      hole_end ← drm_mm_hole_node_end m hole;
      if (hole_start >? start) || (hole_end <? end_)
      then create_block_loop m start size kz holes
      else
        match drm_mm_kmalloc m kz with
        | (None, m) => Some (None, m)
        | (Some node, m) =>
            m ← upd_node node (fun n => set_allocated true (set_extent start size n)) m;
            m ← link_after hole node m;
            m ← (if start =? hole_start
                 then m ← upd_node hole (set_hole_follows false) m; unlink_hole hole m
                 else Some m);
            m ← upd_node node (set_hole_follows false) m;
            m ← (if negb (end_ =? hole_end)
                 then upd_node node (set_hole_follows true) (push_hole node m)
                 else Some m);
            Some (Some node, m)
        end
  end.

Definition drm_mm_create_block (m : drm_mm) (start size : Z) (kz : option nid)
    : option (option nid * drm_mm) :=
  create_block_loop m start size kz (hole_stack m).

(** ** Removal *)

Definition drm_mm_remove_node (m : drm_mm) (node : nid) : option drm_mm :=
  nd ← nodes m !! node;
  _ ← BUG_ON (scanned_block nd || scanned_prev_free nd || scanned_next_free nd);
  prev ← prev_node m node;
  nstart ← __drm_mm_hole_node_start m node;
  nend ← __drm_mm_hole_node_end m node;
  m ← (if hole_follows nd
       then _ ← BUG_ON (nstart =? nend); unlink_hole node m
       else _ ← BUG_ON (negb (nstart =? nend)); Some m);
  pd ← nodes m !! prev;
  m ← (if negb (hole_follows pd)
       then m ← upd_node prev (set_hole_follows true) m; Some (push_hole prev m)
       else m ← unlink_hole prev m; Some (push_hole prev m));
  m ← unlink_node node m;
  upd_node node (set_allocated false) m.

Definition drm_mm_put_block (m : drm_mm) (node : nid) : option drm_mm :=
  m ← drm_mm_remove_node m node;
  if num_unused m <? MM_UNUSED_TARGET
  then Some (with_unused (node :: unused_nodes m) (num_unused m + 1) m)
  else Some (with_nodes (delete node (nodes m)) m).

(** ** Scanning for eviction *)

Definition drm_mm_init_scan (m : drm_mm) (size alignment color : Z) : drm_mm :=
  mk_mm (nodes m) (node_list m) (hole_stack m) (unused_nodes m) (num_unused m)
    false alignment color size 0 0 0 (scan_start m) (scan_end m) None (color_adjust m).

Definition drm_mm_init_scan_with_range (m : drm_mm) (size alignment color start end_ : Z)
    : drm_mm :=
  mk_mm (nodes m) (node_list m) (hole_stack m) (unused_nodes m) (num_unused m)
    true alignment color size 0 0 0 start end_ None (color_adjust m).

Definition drm_mm_scan_add_block (m : drm_mm) (node : nid) : option (Z * drm_mm) :=
  let m := with_scanned (u32 (scanned_blocks m + 1)) (prev_scanned_node m) m in
  nd ← nodes m !! node;
  _ ← BUG_ON (scanned_block nd);
  m ← upd_node node (set_scanned true) m;
  prev ← prev_node m node;
  pd ← nodes m !! prev;
  let ph := hole_follows pd in
  m ← upd_node prev (set_hole_follows true) m;
  m ← unlink_node node m;
  m ← upd_node node (set_scan_links ph prev (prev_scanned_node m)) m;
  let m := with_scanned (scanned_blocks m) (Some node) m in
  hole_start ← drm_mm_hole_node_start m prev;
  hole_end ← drm_mm_hole_node_end m prev;
  let adj_start := if scan_check_range m && (hole_start <? scan_start m)
                   then scan_start m else hole_start in
  let adj_end := if scan_check_range m && (hole_end >? scan_end m)
                 then scan_end m else hole_end in
  let '(adj_start, adj_end) := do_color_adjust m prev (scan_color m) (adj_start, adj_end) in
  if check_free_hole adj_start adj_end (scan_size m) (scan_alignment m)
  then Some (1, with_hit hole_start hole_end m)
  else Some (0, m).

Definition drm_mm_scan_remove_block (m : drm_mm) (node : nid) : option (Z * drm_mm) :=
  let m := with_scanned (u32 (scanned_blocks m - 1)) (prev_scanned_node m) m in
  nd ← nodes m !! node;
  _ ← BUG_ON (negb (scanned_block nd));
  m ← upd_node node (set_scanned false) m;
  let prev := scan_prev nd in
  m ← upd_node prev (set_hole_follows (scanned_preceeds_hole nd)) m;
  m ← link_after prev node m;
  nend ← drm_mm_hole_node_end m node;
  Some (Z.b2z ((nend >? scan_hit_start m) && (node_start nd <? scan_hit_end m)), m).

(** ** Set-up and teardown *)

Definition drm_mm_clean (m : drm_mm) : bool :=
  match next_node m HEAD with
  | Some n => match next_node m n with Some n' => bool_decide (n' = HEAD) | None => false end
  | None => false
  end.

(** [old] is the memory of the manager before; the fields [drm_mm_init] does
    not write keep their contents. *)
Definition drm_mm_init (old : drm_mm) (start size : Z) : drm_mm :=
  let hd := from_option id zero_node (nodes old !! HEAD) in
  let head_start := u64 (start + size) in
  mk_mm (<[HEAD := mk_node true false false false (scanned_preceeds_hole hd) (allocated hd)
            (node_color hd) head_start (u64 (start - head_start)) (scan_prev hd) (scan_next hd)]>
          (nodes old))
    [] [HEAD] [] 0 (scan_check_range old) (scan_alignment old) (scan_color old) (scan_size old)
    (scan_hit_start old) (scan_hit_end old) 0 (scan_start old) (scan_end old)
    (prev_scanned_node old) None.

Definition drm_mm_takedown (m : drm_mm) : option drm_mm :=
  if negb (bool_decide (node_list m = [])) then Some m else
  let m' := with_unused [] (num_unused m - Z.of_nat (length (unused_nodes m)))
              (with_nodes (foldr delete (nodes m) (unused_nodes m)) m) in
  _ ← BUG_ON (negb (num_unused m' =? 0));
  Some m'.

(** ** The debug table: the walk and its three totals *)

Definition drm_mm_debug_hole (m : drm_mm) (entry : nid) : option Z :=
  nd ← nodes m !! entry;
  if hole_follows nd then
    hs ← drm_mm_hole_node_start m entry;
    he ← drm_mm_hole_node_end m entry;
    Some (u64 (he - hs))
  else Some 0.

(** [contain_ptr] of a list head in the ring of nodes: [list_add] makes it the address of
    the node it is in, and for [head_node] [drm_mm_init] does. *)
Definition contain_ptr (n : nid) : option nid := Some n.

(** The loop of [drm_mm_for_each_node], which ends when there is no [contain_ptr]: the
    totals of used and free bytes, or where the walk is after [fuel] rounds. *)
Fixpoint debug_table_loop (fuel : nat) (m : drm_mm) (entry : option nid) (used free : Z)
    : option (Z * Z + nid * Z * Z) :=
  match entry, fuel with
  | None, _ => Some (inl (used, free))
  | Some entry, O => Some (inr (entry, used, free))
  | Some entry, S fuel =>
      nd ← nodes m !! entry;
      h ← drm_mm_debug_hole m entry;
      next ← next_node m entry;
      debug_table_loop fuel m (contain_ptr next) (u64 (used + node_size nd)) (u64 (free + h))
  end.

(** The totals printed at the end, total, used and free; or the walk that goes on. *)
Definition drm_mm_debug_table (fuel : nat) (m : drm_mm) : option (Z * Z * Z + nid * Z * Z) :=
  h ← drm_mm_debug_hole m HEAD;
  first ← next_node m HEAD;
  r ← debug_table_loop fuel m (contain_ptr first) 0 (u64 (0 + h));
  Some (match r with inl (used, free) => inl (u64 (free + used), used, free) | inr walk => inr walk end).
