(* ===== verification/MMInv.v ===== *)
(** * The range allocator of drm_mm.c: invariant and allocation

    [mm_wf m s e]: the manager [m] is a consistent partition of the address
    range from [s] to [e] into allocated blocks and holes.  Every operation
    outside a scan preserves it, none of them can fail on it, and the blocks
    handed out are aligned, in range and disjoint. *)

From S2P Require Import Prelude MM.

(** ** Reading nodes *)

Definition get (m : drm_mm) (n : nid) : drm_mm_node := nodes m !!! n.

Definition live (m : drm_mm) (n : nid) : Prop := is_Some (nodes m !! n).

Definition block_start (m : drm_mm) (n : nid) : Z := node_start (get m n).
Definition block_end (m : drm_mm) (n : nid) : Z := hole_start_of (get m n).

Lemma live_get m n : live m n -> nodes m !! n = Some (get m n).
Proof. intros [nd Hn]. unfold get. by rewrite (lookup_total_correct _ _ _ Hn). Qed.

Lemma get_lookup m n nd : nodes m !! n = Some nd -> get m n = nd.
Proof. apply lookup_total_correct. Qed.

(** The state after a write through a node pointer. *)
Lemma upd_node_run m n f : live m n -> upd_node n f m = Some (with_nodes (<[n := f (get m n)]> (nodes m)) m).
Proof. intros Hn. unfold upd_node. by rewrite (live_get _ _ Hn). Qed.

Lemma upd_node_eq m n f nd : nodes m !! n = Some nd ->
  upd_node n f m = Some (with_nodes (<[n := f nd]> (nodes m)) m).
Proof. intros Hn. unfold upd_node. by rewrite Hn. Qed.

Lemma get_insert m n nd ns k : nodes m = <[n := nd]> ns ->
  get m k = if decide (k = n) then nd else ns !!! k.
Proof.
  intros E. unfold get. rewrite E. case_decide as Hk; subst.
  - apply lookup_total_insert_eq.
  - by rewrite lookup_total_insert_ne.
Qed.

(** ** The invariant *)

(** [a] is followed by [b] in the ring: a hole is recorded at [a] exactly when
    there is space between them. *)
Definition adjacent (m : drm_mm) (a b : nid) : Prop :=
  block_end m a <= block_start m b /\
  hole_follows (get m a) = (block_end m a <? block_start m b).

(** What holds of each allocated block. *)
Definition block_ok (m : drm_mm) (e : Z) (n : nid) : Prop :=
  allocated (get m n) = true /\ scanned_block (get m n) = false /\
  scanned_prev_free (get m n) = false /\ scanned_next_free (get m n) = false /\
  0 <= block_start m n /\ 0 < node_size (get m n) /\ block_start m n + node_size (get m n) <= e.

Record mm_wf (m : drm_mm) (s e : Z) : Prop := {
  wf_range : 0 <= s < e /\ e < 2 ^ 64;
  wf_head : node_start (get m HEAD) = e /\ node_size (get m HEAD) = u64 (s - e);
  wf_nodup : NoDup (HEAD :: node_list m);
  wf_live : forall n, n ∈ HEAD :: node_list m -> live m n;
  wf_block : forall n, n ∈ node_list m -> block_ok m e n;
  wf_chain : Chain (adjacent m) (node_ring m);
  wf_holes : NoDup (hole_stack m);
  wf_hole_iff : forall n, n ∈ hole_stack m <->
    n ∈ HEAD :: node_list m /\ hole_follows (get m n) = true;
  wf_unused : NoDup (unused_nodes m) /\ num_unused m = Z.of_nat (length (unused_nodes m));
  wf_unused_off : forall n, n ∈ unused_nodes m ->
    live m n /\ (n ∉ HEAD :: node_list m) /\ allocated (get m n) = false /\
    scanned_block (get m n) = false /\ scanned_prev_free (get m n) = false /\
    scanned_next_free (get m n) = false;
  wf_idle : scanned_blocks m = 0 }.

(** A cleared node, as the callers hand to the insert functions. *)
Definition spare (m : drm_mm) (n : nid) : Prop :=
  live m n /\ (n ∉ HEAD :: node_list m) /\ (n ∉ unused_nodes m) /\
  allocated (get m n) = false /\ scanned_block (get m n) = false /\
  scanned_prev_free (get m n) = false /\ scanned_next_free (get m n) = false.

(** ** Consequences *)

Section Wf.
Context (m : drm_mm) (s e : Z) (Hwf : mm_wf m s e).

Lemma wf_head_end : block_end m HEAD = s.
Proof.
  destruct (wf_head _ _ _ Hwf) as [Hst Hsz]. destruct (wf_range _ _ _ Hwf) as [Hs He].
  unfold block_end, hole_start_of, u64 in *. rewrite Hst, Hsz.
  rewrite Z.add_mod_idemp_r by lia. replace (e + (s - e)) with s by lia.
  apply Z.mod_small. lia.
Qed.

Lemma wf_block_end n : n ∈ node_list m ->
  block_end m n = block_start m n + node_size (get m n).
Proof.
  intros Hn. destruct (wf_block _ _ _ Hwf n Hn) as (_ & _ & _ & _ & H0 & H1 & H2).
  pose proof (wf_range _ _ _ Hwf). unfold block_end, hole_start_of, block_start in *.
  apply u64_small. lia.
Qed.

(** Splitting the ring at a member: the node after it. *)
Lemma ring_split n : n ∈ HEAD :: node_list m ->
  exists l1 l2 b, HEAD :: node_list m = l1 ++ n :: l2 /\ (n ∉ l1) /\ (n ∉ l2) /\
    b ∈ HEAD :: node_list m /\ hd_error (l2 ++ [HEAD]) = Some b /\
    node_ring m = l1 ++ n :: l2 ++ [HEAD].
Proof.
  intros (l1 & l2 & Hl & Hn1)%split_first.
  pose proof (wf_nodup _ _ _ Hwf) as Hnd. rewrite Hl in Hnd.
  apply NoDup_app in Hnd as (_ & _ & Hnd). apply NoDup_cons in Hnd as [Hn2 _].
  destruct (hd_snoc l2 HEAD) as (b & Hb & Hb').
  assert (b ∈ HEAD :: node_list m).
  { destruct Hb' as [Hb'| ->]; [rewrite Hl|]; set_solver. }
  exists l1, l2, b. repeat (split; [done|]).
  unfold node_ring. by rewrite app_comm_cons, Hl, <-app_assoc.
Qed.

(** Every member of the ring has a next node, which it is adjacent to. *)
Lemma next_node_ok n : n ∈ HEAD :: node_list m ->
  exists b, next_node m n = Some b /\ adjacent m n b /\ b ∈ HEAD :: node_list m.
Proof.
  intros Hn. destruct (ring_split n Hn) as (l1 & l2 & b & Hl & Hn1 & Hn2 & Hin & Hb & Hr).
  exists b. unfold next_node. pose proof (wf_chain _ _ _ Hwf) as HC. rewrite Hr in *.
  destruct (l2 ++ [HEAD]) as [|b' t] eqn:Ht; simplify_eq/=.
  rewrite succ_in_app by done. split; [done|].
  by apply Chain_join in HC as (_ & HC & _).
Qed.

Lemma prev_node_ok n : n ∈ node_list m ->
  exists a, prev_node m n = Some a /\ adjacent m a n /\ a ∈ HEAD :: node_list m.
Proof.
  intros (l1 & l2 & Hl & Hn1)%split_first.
  pose proof (wf_nodup _ _ _ Hwf) as Hnd. rewrite Hl in Hnd.
  apply NoDup_cons in Hnd as [Hh Hnd].
  apply NoDup_app in Hnd as (_ & _ & Hnd). apply NoDup_cons in Hnd as [Hn2 _].
  destruct (exists_last (l := HEAD :: l1)) as (A & a & HA); [done|].
  assert (Hr : node_ring m = A ++ a :: n :: l2 ++ [HEAD]).
  { unfold node_ring. rewrite Hl, <-app_assoc, app_comm_cons, HA, <-app_assoc. done. }
  assert (n ∉ A ++ [a]) by (rewrite <-HA; set_solver).
  exists a. unfold prev_node. pose proof (wf_chain _ _ _ Hwf) as HC. rewrite Hr in *.
  rewrite pred_in_app by set_solver. split; [done|].
  apply Chain_join in HC as (HC1 & HC & _). split; [done|].
  assert (a ∈ HEAD :: l1) by (rewrite HA; set_solver). rewrite Hl. set_solver.
Qed.

(** Holes, as the code reads them. *)
Lemma hole_start_run n : n ∈ hole_stack m -> drm_mm_hole_node_start m n = Some (block_end m n).
Proof.
  intros [Hin Hh]%(wf_hole_iff _ _ _ Hwf).
  unfold drm_mm_hole_node_start, __drm_mm_hole_node_start.
  rewrite (live_get m n) by by apply (wf_live _ _ _ Hwf). simpl. by rewrite Hh.
Qed.

Lemma hole_end_run n b : n ∈ HEAD :: node_list m -> next_node m n = Some b ->
  drm_mm_hole_node_end m n = Some (block_start m b).
Proof.
  intros Hn Hb. unfold drm_mm_hole_node_end, __drm_mm_hole_node_end.
  destruct (next_node_ok n Hn) as (b' & Hb' & _ & Hin). simplify_eq. rewrite Hb. simpl.
  by rewrite (live_get m b) by by apply (wf_live _ _ _ Hwf).
Qed.

(** Two blocks in ring order do not overlap. *)
Lemma ring_order a b l1 l2 l3 : node_list m = l1 ++ a :: l2 ++ b :: l3 ->
  block_end m a <= block_start m b.
Proof.
  intros Hl. pose proof (wf_chain _ _ _ Hwf) as HC.
  assert (Chain (fun x y => block_end m x <= block_start m y) (node_ring m)) as HC'.
  { apply (Chain_impl _ _ _ HC). by intros ? ? ? ? _ [? _]. }
  unfold node_ring in HC'. rewrite Hl in HC'. rewrite <-app_assoc in HC'. simpl in HC'.
  rewrite <-app_assoc in HC'. simpl in HC'.
  refine (Chain_trans _ (HEAD :: l1) a l2 b (l3 ++ [HEAD]) _ HC').
  intros x y z Hy Hxy Hyz.
  assert (y ∈ node_list m) as Hin by (rewrite Hl; set_solver).
  rewrite wf_block_end in Hyz by done.
  destruct (wf_block _ _ _ Hwf y Hin) as (_ & _ & _ & _ & _ & ? & _). lia.
Qed.

(** So no two blocks overlap. *)
Lemma ring_apart a b : a ∈ node_list m -> b ∈ node_list m -> a <> b ->
  block_start m a + node_size (get m a) <= block_start m b \/
  block_start m b + node_size (get m b) <= block_start m a.
Proof.
  intros Ha Hb Hab. rewrite <-!wf_block_end by done.
  apply split_first in Ha as (p & q & Hl & Hp). rewrite Hl in Hb.
  apply elem_of_app in Hb as [(p1 & p2 & -> & _)%split_first|[->|(q1 & q2 & -> & _)%split_first]%elem_of_cons];
    [right|done|left].
  - apply (ring_order b a p1 p2 q). by rewrite Hl, <-app_assoc.
  - by apply (ring_order a b p q1 q2).
Qed.

Lemma ring_start_ge n : n ∈ node_list m -> s <= block_start m n.
Proof.
  intros (l1 & l2 & Hl & _)%split_first. pose proof (wf_chain _ _ _ Hwf) as HC.
  assert (Chain (fun x y => block_end m x <= block_start m y) (node_ring m)) as HC'.
  { apply (Chain_impl _ _ _ HC). by intros ? ? ? ? _ [? _]. }
  unfold node_ring in HC'. rewrite Hl in HC'. rewrite <-app_assoc in HC'. simpl in HC'.
  rewrite <-wf_head_end.
  refine (Chain_trans _ [] HEAD l1 n (l2 ++ [HEAD]) _ HC').
  intros x y z Hy Hxy Hyz.
  assert (y ∈ node_list m) as Hin by (rewrite Hl; set_solver).
  rewrite wf_block_end in Hyz by done.
  destruct (wf_block _ _ _ Hwf y Hin) as (_ & _ & _ & _ & _ & ? & _). lia.
Qed.

Lemma block_start_le n : n ∈ HEAD :: node_list m -> block_start m n <= e.
Proof.
  intros [->|Hn]%elem_of_cons; [unfold block_start; rewrite (proj1 (wf_head _ _ _ Hwf)); lia|].
  destruct (wf_block _ _ _ Hwf n Hn) as (_ & _ & _ & _ & ? & ? & ?). lia.
Qed.

Lemma block_end_ge n : n ∈ HEAD :: node_list m -> s <= block_end m n.
Proof.
  intros [->|Hn]%elem_of_cons; [rewrite wf_head_end; lia|].
  rewrite wf_block_end by done. pose proof (ring_start_ge n Hn).
  destruct (wf_block _ _ _ Hwf n Hn) as (_ & _ & _ & _ & ? & ? & ?). lia.
Qed.
End Wf.

(** ** Placing a node in a hole *)

(** The fields an insertion or removal leaves alone. *)
Definition same_params (m m' : drm_mm) : Prop :=
  unused_nodes m' = unused_nodes m /\ num_unused m' = num_unused m /\
  scanned_blocks m' = scanned_blocks m /\ color_adjust m' = color_adjust m /\
  (forall k, live m' k <-> live m k).

(** The node [place_node] fills in. *)
Definition placed_node (m : drm_mm) (node : nid) (size color adj_start hole_end : Z) : drm_mm_node :=
  set_hole_follows (adj_start + size <? hole_end)
    (set_allocated true (set_color color (set_extent adj_start size (get m node)))).

(** The manager [m'] is [m] with [node] placed at [adj_start] in the hole after [hole]. *)
Record placed (m : drm_mm) (hole node : nid) (size color adj_start hole_end : Z) (m' : drm_mm)
    : Prop := {
  placed_list : node_list m' = tail (insert_after (HEAD :: node_list m) hole node);
  placed_node_eq : get m' node = placed_node m node size color adj_start hole_end;
  placed_hole_eq : get m' hole =
    (if adj_start =? block_end m hole then set_hole_follows false (get m hole) else get m hole);
  placed_other : forall k, k <> node -> k <> hole -> get m' k = get m k;
  placed_stack : exists hs,
    hole_stack m' = ((if adj_start + size <? hole_end then [node] else []) ++ hs) /\
    (if adj_start =? block_end m hole then take_out (hole_stack m) hole = Some hs
     else hs = hole_stack m);
  placed_params : same_params m m' }.

Lemma live_insert m k n nd : live m n -> live (with_nodes (<[n := nd]> (nodes m)) m) k <-> live m k.
Proof.
  intros Hn. unfold live. simpl. rewrite lookup_insert_is_Some'. split; [|tauto].
  intros [<-|?]; done.
Qed.

Lemma get_with_nodes m n nd k :
  get (with_nodes (<[n := nd]> (nodes m)) m) k = if decide (k = n) then nd else get m k.
Proof. by rewrite (get_insert _ n nd (nodes m)). Qed.

Lemma link_after_run p n m : p ∈ HEAD :: node_list m ->
  link_after p n m = Some (with_node_list (tail (insert_after (HEAD :: node_list m) p n)) m).
Proof. intros Hp. unfold link_after. by rewrite decide_True. Qed.

Ltac get_tac := repeat (rewrite get_with_nodes || (progress cbn [with_nodes with_node_list with_hole_stack push_hole] in *)).

Lemma get_same_nodes m m' k : nodes m' = nodes m -> get m' k = get m k.
Proof. unfold get. by intros ->. Qed.
Lemma live_same_nodes m m' k : nodes m' = nodes m -> live m' k <-> live m k.
Proof. unfold live. by intros ->. Qed.

(** What is left of [place_node] once the chosen hole has been adjusted. *)
Definition place_tail (m : drm_mm) (hole_node node : nid) (size color hole_end adj_start : Z)
    : drm_mm :=
  let nd := placed_node m node size color adj_start hole_end in
  with_hole_stack ((if adj_start + size <? hole_end then [node] else []) ++ hole_stack m)
    (with_node_list (tail (insert_after (HEAD :: node_list m) hole_node node))
      (with_nodes (<[node := nd]> (nodes m)) m)).

Lemma place_tail_run m hole_node node size color hole_end adj_start adj_end :
  live m node -> hole_node ∈ HEAD :: node_list m ->
  0 <= adj_start -> 0 < size -> adj_start + size <= adj_end -> adj_start + size < 2 ^ 64 ->
  (m ← upd_node node (fun n => set_allocated true (set_color color (set_extent adj_start size n))) m;
   m ← link_after hole_node node m;
   _ ← BUG_ON (u64 (adj_start + size) >? adj_end);
   m ← upd_node node (set_hole_follows false) m;
   nstart ← __drm_mm_hole_node_start m node;
   if nstart <? hole_end
   then upd_node node (set_hole_follows true) (push_hole node m)
   else Some m) = Some (place_tail m hole_node node size color hole_end adj_start).
Proof.
  intros Hlive Hh H0 Hsz Hend H64. rewrite upd_node_run by done. simpl.
  rewrite link_after_run by done. simpl.
  rewrite u64_small by lia.
  assert ((adj_start + size >? adj_end) = false) as -> by (rewrite Z.gtb_ltb; apply Z.ltb_ge; lia).
  simpl. erewrite upd_node_eq by (simpl; apply lookup_insert_eq). simpl.
  unfold __drm_mm_hole_node_start. simpl. rewrite lookup_insert_eq. simpl.
  unfold hole_start_of. simpl. rewrite u64_small by lia.
  unfold place_tail, placed_node. destruct (adj_start + size <? hole_end) eqn:E.
  - unfold push_hole. erewrite upd_node_eq by (simpl; apply lookup_insert_eq). simpl.
    unfold with_hole_stack, with_node_list, with_nodes. simpl. rewrite !insert_insert_eq. done.
  - unfold with_hole_stack, with_node_list, with_nodes. simpl. rewrite !insert_insert_eq. done.
Qed.

Lemma place_node_run m s e hole node size color hole_end adj_start adj_end :
  mm_wf m s e -> hole ∈ hole_stack m -> spare m node ->
  block_end m hole <= adj_start -> 0 < size -> adj_start + size <= adj_end ->
  adj_start + size < 2 ^ 64 ->
  exists m', place_node m hole node size color (block_end m hole) hole_end adj_start adj_end = Some m' /\
    placed m hole node size color adj_start hole_end m'.
Proof.
  intros Hwf Hh (Hlive & Hout & Hun & _) Hst Hsz Hend H64.
  pose proof Hh as [Hin Hflag]%(wf_hole_iff _ _ _ Hwf).
  pose proof (block_end_ge _ _ _ Hwf hole Hin). pose proof (wf_range _ _ _ Hwf).
  assert (node <> hole) as Hne by (intros ->; done).
  assert (live m hole) as Hlh by by apply (wf_live _ _ _ Hwf).
  unfold place_node. destruct (Z.eqb_spec adj_start (block_end m hole)) as [Heq|Hneq].
  - destruct (take_out_is_Some _ _ Hh) as [hs Hhs].
    rewrite upd_node_run by done. simpl. unfold unlink_hole. simpl. rewrite Hhs. simpl.
    rewrite place_tail_run; [|by apply live_insert|done|lia..].
    eexists. split; [done|].
    assert ((block_end m hole =? block_end m hole) = true) as E by apply Z.eqb_refl.
    split; unfold place_tail; simpl.
    + done.
    + erewrite get_insert by reflexivity; rewrite decide_True by done.
      unfold placed_node. erewrite get_insert by reflexivity; rewrite decide_False by done. done.
    + erewrite get_insert by reflexivity; rewrite decide_False by done.
      rewrite lookup_total_insert_eq, Heq, E. done.
    + intros k Hk1 Hk2. erewrite get_insert by reflexivity; rewrite decide_False by done.
      by rewrite lookup_total_insert_ne.
    + exists hs. by rewrite Heq, E.
    + repeat split; try done; unfold live; simpl; rewrite !lookup_insert_is_Some'.
      * intros [<-|[<-|?]]; done.
      * tauto.
  - simpl. rewrite place_tail_run by (done || lia). eexists. split; [done|].
    assert ((adj_start =? block_end m hole) = false) as E by by apply Z.eqb_neq.
    split; unfold place_tail; simpl; rewrite ?E.
    + done.
    + erewrite get_insert by reflexivity. by rewrite decide_True.
    + erewrite get_insert by reflexivity. by rewrite decide_False.
    + intros k Hk1 Hk2. erewrite get_insert by reflexivity. by rewrite decide_False.
    + by exists (hole_stack m).
    + repeat split; try done; unfold live; simpl; rewrite !lookup_insert_is_Some'.
      * intros [<-|?]; done.
      * tauto.
Qed.

Section Placed.
Context (m : drm_mm) (s e : Z) (Hwf : mm_wf m s e).
Context (hole node b : nid) (size color adj_start : Z) (m' : drm_mm).
Context (Hh : hole ∈ hole_stack m) (Hsp : spare m node) (Hb : next_node m hole = Some b).
Context (Hst : block_end m hole <= adj_start) (Hsz : 0 < size)
  (Hend : adj_start + size <= block_start m b).
Context (HP : placed m hole node size color adj_start (block_start m b) m').

Lemma placed_in : hole ∈ HEAD :: node_list m /\ hole_follows (get m hole) = true.
Proof. by apply (wf_hole_iff _ _ _ Hwf). Qed.

Lemma placed_ne : node <> hole /\ node <> HEAD.
Proof.
  destruct placed_in as [Hin _]. destruct Hsp as (_ & Hout & _). set_solver.
Qed.

Lemma placed_ring : exists l1 l2,
  HEAD :: node_list m = l1 ++ hole :: l2 /\ hd_error (l2 ++ [HEAD]) = Some b /\
  HEAD :: node_list m' = l1 ++ hole :: node :: l2.
Proof.
  destruct (ring_split m s e Hwf hole (proj1 placed_in)) as (l1 & l2 & b' & Hl & Hn1 & _ & _ & Hb' & Hr).
  exists l1, l2. split; [done|].
  assert (b' = b) as ->.
  { unfold next_node in Hb. rewrite Hr in Hb. destruct (l2 ++ [HEAD]) eqn:E; simplify_eq/=.
    rewrite succ_in_app in Hb by done. by simplify_eq. }
  split; [done|]. rewrite (placed_list _ _ _ _ _ _ _ _ HP), Hl, insert_after_app by done.
  destruct l1 as [|a l1]; simplify_eq/=; done.
Qed.

Lemma placed_same k : k <> node ->
  block_start m' k = block_start m k /\ block_end m' k = block_end m k /\
  node_size (get m' k) = node_size (get m k) /\ (block_ok m e k -> block_ok m' e k) /\
  (k <> hole -> get m' k = get m k).
Proof.
  intros Hk. unfold block_start, block_end, block_ok, block_start. destruct (decide (k = hole)) as [->|Hkh].
  - rewrite (placed_hole_eq _ _ _ _ _ _ _ _ HP). destruct (adj_start =? _); simpl; done.
  - by rewrite (placed_other _ _ _ _ _ _ _ _ HP) by done.
Qed.

Lemma placed_at : 0 <= adj_start /\ adj_start + size <= e /\
  block_start m' node = adj_start /\ block_end m' node = adj_start + size.
Proof.
  pose proof (block_end_ge _ _ _ Hwf hole (proj1 placed_in)). pose proof (wf_range _ _ _ Hwf).
  destruct (next_node_ok m s e Hwf hole (proj1 placed_in)) as (b' & Hb' & _ & Hbin).
  assert (b' = b) as -> by congruence.
  pose proof (block_start_le _ _ _ Hwf b Hbin).
  assert (block_start m' node = adj_start) as ->
    by (unfold block_start; by rewrite (placed_node_eq _ _ _ _ _ _ _ _ HP)).
  unfold block_end, hole_start_of. rewrite (placed_node_eq _ _ _ _ _ _ _ _ HP). simpl.
  rewrite u64_small by lia. lia.
Qed.

Lemma placed_chain : Chain (adjacent m') (node_ring m').
Proof.
  destruct placed_ring as (l1 & l2 & Hl & Hhd & Hl'). destruct placed_at as (H0 & Hle & Hbs & Hbe).
  destruct placed_in as [Hin Hflag]. pose proof placed_ne as [Hne HneH].
  pose proof (wf_chain _ _ _ Hwf) as HC. pose proof (wf_nodup _ _ _ Hwf) as Hnd.
  destruct Hsp as (_ & Hout & _).
  unfold node_ring in *. rewrite app_comm_cons, Hl in HC. rewrite app_comm_cons, Hl'.
  rewrite <-app_assoc in *. cbn [app] in *.
  destruct (l2 ++ [HEAD]) as [|b' t] eqn:Ht; [done|].
  assert (b' = b) as -> by (simpl in Hhd; congruence).
  apply Chain_join in HC as (HC1 & [Hle1 Hfl] & HC2).
  assert (b ∈ HEAD :: node_list m) as Hbin.
  { destruct (next_node_ok m s e Hwf hole Hin) as (? & ? & _ & ?). by simplify_eq. }
  assert (b <> node) by set_solver.
  assert ((hole ∉ l1) /\ (hole ∉ l2)) as [Hh1 Hh2].
  { rewrite Hl in Hnd. apply NoDup_app in Hnd as (_ & Hd & [? _]%NoDup_cons). set_solver. }
  apply Chain_join. split; [|split; [|apply Chain_cons; split]].
  - apply (Chain_impl_in _ _ _ _ HC1). intros x y Hx Hy [Hxy Hfx].
    assert (x ∈ HEAD :: node_list m) by (apply (split_left_in _ _ _ _ _ _ Hl); by apply elem_of_app; left).
    assert (y ∈ HEAD :: node_list m) by by apply (split_left_in _ _ _ _ _ _ Hl), elem_of_tail.
    assert (x <> node /\ y <> node /\ x <> hole) as (? & ? & ?) by (split_and!; by intros ->).
    unfold adjacent. destruct (placed_same x) as (_ & -> & _ & _ & Ex); [done|].
    destruct (placed_same y) as (-> & _); [done|]. by rewrite Ex.
  - unfold adjacent. destruct (placed_same hole) as (_ & -> & _); [done|]. rewrite Hbs.
    split; [done|]. rewrite (placed_hole_eq _ _ _ _ _ _ _ _ HP).
    destruct (Z.eqb_spec adj_start (block_end m hole)); simpl; [|rewrite Hflag]; symmetry;
      [apply Z.ltb_ge|apply Z.ltb_lt]; lia.
  - unfold adjacent. rewrite Hbe. destruct (placed_same b) as (-> & _); [done|].
    split; [done|]. by rewrite (placed_node_eq _ _ _ _ _ _ _ _ HP).
  - rewrite <-Ht in *. apply (Chain_impl_in _ _ _ _ HC2). intros x y Hx Hy [Hxy Hfx].
    assert (x ∈ HEAD :: node_list m)
      by (apply (split_right_in _ _ _ _ _ _ Hl); by apply elem_of_app; left).
    assert (y ∈ HEAD :: node_list m) by by apply (split_right_in _ _ _ _ _ _ Hl), elem_of_tail.
    assert (x <> node /\ y <> node /\ x <> hole) as (? & ? & ?) by (split_and!; by intros ->).
    unfold adjacent. destruct (placed_same x) as (_ & -> & _ & _ & Ex); [done|].
    destruct (placed_same y) as (-> & _); [done|]. by rewrite Ex.
Qed.

Lemma placed_list_in k : k ∈ HEAD :: node_list m' <-> k = node \/ k ∈ HEAD :: node_list m.
Proof.
  destruct placed_ring as (l1 & l2 & -> & _ & ->).
  rewrite !elem_of_app, !elem_of_cons. tauto.
Qed.

Lemma placed_nodup : NoDup (HEAD :: node_list m').
Proof.
  destruct placed_ring as (l1 & l2 & E & _ & ->). pose proof (wf_nodup _ _ _ Hwf) as Hnd.
  pose proof Hsp as (_ & Hout & _). rewrite E in Hnd, Hout.
  replace (l1 ++ hole :: node :: l2) with ((l1 ++ [hole]) ++ node :: l2) by by rewrite <-app_assoc.
  rewrite <-Permutation_middle, <-app_assoc. by apply NoDup_cons.
Qed.

Lemma placed_holes :
  NoDup (hole_stack m') /\
  forall k, k ∈ hole_stack m' <-> k ∈ HEAD :: node_list m' /\ hole_follows (get m' k) = true.
Proof.
  destruct (placed_stack _ _ _ _ _ _ _ _ HP) as (hs & Hstk & Hhs).
  destruct placed_ne as [Hne HneH]. destruct placed_in as [Hin Hflag].
  pose proof Hsp as (_ & Hout & _).
  assert (NoDup hs /\ forall k, k ∈ hs <-> k ∈ HEAD :: node_list m /\ hole_follows (get m' k) = true
    /\ k <> node) as [Hnd Hk].
  { pose proof (wf_hole_iff _ _ _ Hwf) as Hiff. pose proof (wf_holes _ _ _ Hwf) as Hndh.
    destruct (Z.eqb_spec adj_start (block_end m hole)) as [Heq|Hneq].
    - destruct (take_out_spec _ _ _ Hndh Hhs) as (? & Hk & _). split; [done|]. intros k.
      rewrite Hk, Hiff. destruct (decide (k = hole)) as [->|Hkh].
      + rewrite (placed_hole_eq _ _ _ _ _ _ _ _ HP), (proj2 (Z.eqb_eq _ _) Heq). simpl. naive_solver.
      + destruct (decide (k = node)) as [->|Hkn]; [naive_solver|].
        rewrite (placed_other _ _ _ _ _ _ _ _ HP) by done. naive_solver.
    - subst hs. split; [done|]. intros k. rewrite Hiff.
      destruct (decide (k = node)) as [->|Hkn]; [naive_solver|].
      destruct (decide (k = hole)) as [->|Hkh].
      + rewrite (placed_hole_eq _ _ _ _ _ _ _ _ HP), (proj2 (Z.eqb_neq _ _) Hneq). naive_solver.
      + rewrite (placed_other _ _ _ _ _ _ _ _ HP) by done. naive_solver. }
  assert (hole_follows (get m' node) = (adj_start + size <? block_start m b)) as Hnf.
  { by rewrite (placed_node_eq _ _ _ _ _ _ _ _ HP). }
  rewrite Hstk. split.
  - destruct (adj_start + size <? block_start m b); [|done].
    apply NoDup_cons. split; [|done]. rewrite Hk. naive_solver.
  - intros k. rewrite elem_of_app, Hk, placed_list_in. destruct (decide (k = node)) as [->|Hkn].
    + rewrite Hnf. destruct (adj_start + size <? block_start m b);
        rewrite ?list_elem_of_singleton, ?elem_of_nil; naive_solver.
    + destruct (adj_start + size <? block_start m b);
        rewrite ?list_elem_of_singleton, ?elem_of_nil; naive_solver.
Qed.

Lemma placed_wf : mm_wf m' s e.
Proof.
  destruct (placed_params _ _ _ _ _ _ _ _ HP) as (Hu & Hnu & Hsc & _ & Hlive).
  pose proof placed_ne as [Hne HneH]. pose proof placed_at as (H0 & Hle & Hbs & Hbe).
  pose proof Hsp as (Hl & Hout & Hunu & _ & Hs1 & Hs2 & Hs3).
  split.
  - apply Hwf.
  - destruct (placed_same HEAD) as (E1 & _ & E2 & _); [done|]. unfold block_start in E1.
    rewrite E1, E2. apply Hwf.
  - apply placed_nodup.
  - intros k [->|Hk]%placed_list_in; apply Hlive; [done|]. by apply (wf_live _ _ _ Hwf).
  - intros k Hk. assert (k = node \/ k ∈ node_list m) as [->|Hk'].
    { pose proof placed_nodup as [HH _]%NoDup_cons.
      assert (k ∈ HEAD :: node_list m') as [?|Hk']%placed_list_in by (by right); [by left|].
      right. apply elem_of_cons in Hk' as [->|?]; done. }
    + unfold block_ok. rewrite Hbs, (placed_node_eq _ _ _ _ _ _ _ _ HP). simpl. done.
    + assert (k <> node) by (intros ->; by apply Hout; right).
      apply placed_same; [done|]. by apply (wf_block _ _ _ Hwf).
  - apply placed_chain.
  - apply placed_holes.
  - apply placed_holes.
  - rewrite Hu, Hnu. apply Hwf.
  - intros k Hk. rewrite Hu in Hk. assert (k <> node) by by intros ->.
    destruct (wf_unused_off _ _ _ Hwf k Hk) as (? & ? & ?).
    assert (k <> hole) by (intros ->; destruct placed_in; done).
    rewrite Hlive, placed_list_in, (placed_other _ _ _ _ _ _ _ _ HP) by done. naive_solver.
  - rewrite Hsc. apply Hwf.
Qed.
End Placed.
