(* ===== verification/MMAlloc.v ===== *)
(** * The range allocator of drm_mm.c: search, insertion, removal

    First-fit search and insertion never fail on a well-formed manager, return
    aligned blocks inside the requested range, and report -ENOSPC only when no
    aligned free interval of the size exists; removal gives the space back. *)

From S2P Require Import Prelude MM MMInv.

(** ** Alignment and the hole test *)

Lemma align_start_spec a al :
  0 <= a -> a + 2 ^ 32 <= 2 ^ 64 -> 0 <= al < 2 ^ 32 ->
  a <= align_start a al <= a + 2 ^ 32 - 1 /\
  (al <> 0 -> (al | align_start a al)) /\
  (forall x, a <= x -> (al <> 0 -> (al | x)) -> align_start a al <= x).
Proof.
  intros Ha Hb Hal. unfold align_start.
  destruct (Z.eqb_spec al 0) as [->|Hne]; [repeat split; intros; lia|].
  pose proof (Z.mod_pos_bound a al). rewrite u32_small by lia.
  pose proof (Z.div_mod a al ltac:(lia)) as Hdm.
  destruct (Z.eqb_spec (a mod al) 0) as [H0|H0].
  - split; [lia|]. split; [|intros; lia]. intros _. apply Z.mod_divide; lia.
  - rewrite u32_small, u64_small by lia. split; [lia|]. split.
    + intros _. exists (a / al + 1). nia.
    + intros x Hx [q ->]; [done|].
      assert (a <> q * al) by (intros ->; rewrite Z.mod_mul in H0; lia).
      assert (a / al < q) by (apply Z.div_lt_upper_bound; lia). nia.
Qed.

(** The test of the search loops, free of wrap-around. *)
Lemma check_free_hole_spec a b size al :
  0 <= a -> 0 <= b < 2 ^ 64 -> 0 < size < 2 ^ 64 -> 0 <= al < 2 ^ 32 ->
  (a <= b /\ b + 2 ^ 32 <= 2 ^ 64) \/ (a + size + 2 ^ 32 <= 2 ^ 64) ->
  check_free_hole a b size al = (align_start a al + size <=? b).
Proof.
  intros Ha Hb Hsz Hal Hno. unfold check_free_hole.
  destruct (align_start_spec a al) as ([Hlo Hhi] & _); [lia..|].
  destruct (decide (a <= b)) as [Hab|Hab].
  - rewrite u64_small by lia. destruct (Z.ltb_spec (b - a) size).
    + symmetry. apply Z.leb_gt. lia.
    + rewrite u64_small by lia. done.
  - assert (u64 (align_start a al + size) = align_start a al + size) as -> by (apply u64_small; lia).
    assert ((align_start a al + size <=? b) = false) as -> by (apply Z.leb_gt; lia).
    by destruct (_ <? _).
Qed.

(** ** The search loop *)

Section Search.
Context (m : drm_mm) (fits : nid -> option bool).

(** First fit: the first hole of the stack that fits, or none fits. *)
Lemma search_first holes best_size :
  (forall h, h ∈ holes -> is_Some (fits h)) ->
  exists r, search_holes m fits false holes None best_size = Some r /\
    match r with
    | Some h => h ∈ holes /\ fits h = Some true
    | None => forall h, h ∈ holes -> fits h = Some false
    end.
Proof.
  induction holes as [|h holes IH]; intros Hf; simpl.
  - exists None. split; [done|]. by intros h ?%elem_of_nil.
  - destruct (Hf h) as [[] E]; [by left| |]; rewrite E; simpl.
    + exists (Some h). split; [done|]. split; [by left|done].
    + destruct IH as (r & -> & Hr); [intros; apply Hf; by right|]. exists r. split; [done|].
      destruct r as [h'|]; [destruct Hr; split; [by right|done]|].
      by intros h' [->|?]%elem_of_cons; [|apply Hr].
Qed.

(** Best match: the hole after the smallest node among those that fit. *)
Lemma search_best holes best best_size :
  (forall h, h ∈ holes -> is_Some (fits h)) -> (forall h, h ∈ holes -> live m h) ->
  exists r, search_holes m fits true holes best best_size = Some r /\
    match r with
    | Some h => (h ∈ holes /\ fits h = Some true /\ node_size (get m h) < best_size) \/ best = Some h
    | None => best = None
    end /\
    forall h, h ∈ holes -> fits h = Some true -> node_size (get m h) < best_size ->
      exists h', r = Some h' /\ node_size (get m h') <= node_size (get m h).
Proof.
  revert best best_size. induction holes as [|h holes IH]; intros best bs Hf Hl; simpl.
  - exists best. split; [done|]. split; [destruct best; auto|]. by intros h ?%elem_of_nil.
  - assert (forall h', h' ∈ holes -> is_Some (fits h')) as Hf' by (intros; apply Hf; by right).
    assert (forall h', h' ∈ holes -> live m h') as Hl' by (intros; apply Hl; by right).
    destruct (Hf h) as [[] E]; [by left| |]; rewrite E; simpl.
    + rewrite (live_get m h) by (apply Hl; by left). simpl.
      destruct (Z.ltb_spec (node_size (get m h)) bs) as [Hlt|Hge].
      * destruct (IH (Some h) (node_size (get m h)) Hf' Hl') as (r & -> & Hr & Hmin).
        exists r. split; [done|]. split.
        { destruct r as [h'|]; [|done]. left.
          destruct Hr as [(? & ? & ?)|[= ->]]; [|by split_and!; [left|..]].
          split_and!; [by right|done|lia]. }
        intros h' [->|Hin]%elem_of_cons Hfit Hsz.
        -- destruct r as [h''|]; [|done]. exists h''. split; [done|].
           destruct Hr as [(_ & _ & ?)|[= ->]]; lia.
        -- destruct (decide (node_size (get m h') < node_size (get m h))) as [?|?].
           ++ by apply Hmin.
           ++ destruct r as [h''|]; [|done]. exists h''. split; [done|].
              destruct Hr as [(_ & _ & ?)|[= ->]]; lia.
      * destruct (IH best bs Hf' Hl') as (r & -> & Hr & Hmin). exists r. split; [done|]. split.
        { destruct r as [h'|]; [|done]. destruct Hr as [(? & ? & ?)|?]; [|by right].
          left. split_and!; [by right|done..]. }
        intros h' [->|Hin]%elem_of_cons Hfit Hsz; [lia|]. by apply Hmin.
    + destruct (IH best bs Hf' Hl') as (r & -> & Hr & Hmin). exists r. split; [done|]. split.
      { destruct r as [h'|]; [|done]. destruct Hr as [(? & ? & ?)|?]; [|by right].
        left. split_and!; [by right|done..]. }
      intros h' [->|Hin]%elem_of_cons Hfit Hsz; [congruence|]. by apply Hmin.
Qed.
End Search.

(** ** What a hole offers *)

(** The callback only ever narrows the interval it is given. *)
Definition color_narrows (m : drm_mm) : Prop :=
  forall f look nx h c a b, color_adjust m = Some f ->
    a <= fst (f look nx h c (a, b)) /\ snd (f look nx h c (a, b)) <= b.

Lemma color_none_narrows m : color_adjust m = None -> color_narrows m.
Proof. by intros E f ? ? ? ? ? ? ?; simplify_eq. Qed.

(** Restriction to a range, when there is one. *)
Definition clip (r : option (Z * Z)) (p : Z * Z) : Z * Z :=
  match r with
  | None => p
  | Some (st, en) => (if fst p <? st then st else fst p, if snd p >? en then en else snd p)
  end.

Lemma clip_spec r a b :
  a <= fst (clip r (a, b)) /\ snd (clip r (a, b)) <= b /\
  match r with
  | None => clip r (a, b) = (a, b)
  | Some (st, en) => st <= fst (clip r (a, b)) <= Z.max a st /\
                     Z.min b en <= snd (clip r (a, b)) <= en
  end.
Proof.
  destruct r as [[st en]|]; simpl; [|split_and!; [lia|lia|done]].
  destruct (Z.ltb_spec a st), (b >? en) eqn:E; zbool; lia.
Qed.

(** The interval the search and the insert helper look at in the hole after [h]. *)
Definition window (m : drm_mm) (r : option (Z * Z)) (color : Z) (h b : nid) : Z * Z :=
  do_color_adjust m h color (clip r (block_end m h, block_start m b)).

Definition fits_at (m : drm_mm) (r : option (Z * Z)) (size al color : Z) (h b : nid) : bool :=
  let '(a', b') := window m r color h b in
  if bool_decide (is_Some (color_adjust m)) && (b' <=? a') then false
  else check_free_hole a' b' size al.

Section Fits.
Context (m : drm_mm) (s e : Z) (Hwf : mm_wf m s e).

Lemma hole_next h : h ∈ hole_stack m -> exists b, next_node m h = Some b /\
  b ∈ HEAD :: node_list m /\ h ∈ HEAD :: node_list m /\ s <= block_end m h < block_start m b /\
  block_start m b <= e.
Proof.
  intros [Hin Hfl]%(wf_hole_iff _ _ _ Hwf).
  destruct (next_node_ok _ _ _ Hwf h Hin) as (b & Hb & [Hle Hf] & Hbin).
  exists b. repeat (split; [done|]). rewrite Hfl in Hf. symmetry in Hf. apply Z.ltb_lt in Hf.
  pose proof (block_end_ge _ _ _ Hwf h Hin). pose proof (block_start_le _ _ _ Hwf b Hbin). lia.
Qed.

Lemma hole_fits_run h b size al color : h ∈ hole_stack m -> next_node m h = Some b ->
  hole_fits m size al color h = Some (fits_at m None size al color h b).
Proof.
  intros Hh Hb. unfold hole_fits, fits_at, window.
  rewrite (hole_start_run _ _ _ Hwf h Hh). simpl.
  rewrite (hole_end_run _ _ _ Hwf h b) by (done || by apply (wf_hole_iff _ _ _ Hwf)). simpl.
  destruct (do_color_adjust _ _ _ _) as [a' b']. by destruct (_ && _).
Qed.

Lemma hole_fits_in_range_run h b size al color st en :
  h ∈ hole_stack m -> next_node m h = Some b ->
  hole_fits_in_range m size al color st en h = Some (fits_at m (Some (st, en)) size al color h b).
Proof.
  intros Hh Hb. unfold hole_fits_in_range, fits_at, window.
  rewrite (hole_start_run _ _ _ Hwf h Hh). simpl.
  rewrite (hole_end_run _ _ _ Hwf h b) by (done || by apply (wf_hole_iff _ _ _ Hwf)). simpl.
  destruct (do_color_adjust _ _ _ _) as [a' b']. by destruct (_ && _).
Qed.

(** Sizes and ranges for which the unsigned tests do not wrap. *)
Definition sane (r : option (Z * Z)) (size al : Z) : Prop :=
  0 < size < 2 ^ 64 /\ 0 <= al < 2 ^ 32 /\ e + 2 ^ 32 <= 2 ^ 64 /\
  match r with
  | None => True
  | Some (st, en) => 0 <= st /\ 0 <= en < 2 ^ 64 /\ Z.max st e + size + 2 ^ 32 <= 2 ^ 64
  end.

Context (Hcol : color_narrows m).

Lemma window_spec r color h b : h ∈ hole_stack m -> next_node m h = Some b ->
  fst (clip r (block_end m h, block_start m b)) <= fst (window m r color h b) /\
  snd (window m r color h b) <= snd (clip r (block_end m h, block_start m b)).
Proof.
  intros Hh Hb. unfold window, do_color_adjust.
  destruct (clip r _) as [a b']. destruct (color_adjust m) as [f|] eqn:Ef; [|simpl; lia].
  by apply Hcol.
Qed.

Lemma fits_at_spec r size al color h b a' b' :
  sane r size al -> h ∈ hole_stack m -> next_node m h = Some b ->
  window m r color h b = (a', b') ->
  fits_at m r size al color h b = true ->
  block_end m h <= a' /\ b' <= block_start m b /\ 0 <= a' /\ a' + 2 ^ 32 <= 2 ^ 64 /\
  match r with None => True | Some (st, en) => st <= a' /\ b' <= en end /\
  align_start a' al + size <= b'.
Proof.
  intros (Hsz & Hal & He & Hr) Hh Hb Hw Hfit. unfold fits_at in Hfit. rewrite Hw in Hfit.
  pose proof (window_spec r color h b Hh Hb) as [Hw1 Hw2]. rewrite Hw in Hw1, Hw2. simpl in Hw1, Hw2.
  destruct (clip_spec r (block_end m h) (block_start m b)) as (Hc1 & Hc2 & Hc3).
  destruct (hole_next h Hh) as (b0 & Hb0 & _ & _ & Hbb & Hbe). simplify_eq.
  pose proof (wf_range _ _ _ Hwf) as [Hs _].
  destruct (bool_decide (is_Some (color_adjust m))) eqn:Ecol; simpl in Hfit.
  - destruct (Z.leb_spec b' a'); [done|].
    rewrite check_free_hole_spec in Hfit by (try lia; left; lia). zbool.
    split_and!; try lia. destruct r as [[st en]|]; [|done]. lia.
  - assert ((a', b') = clip r (block_end m h, block_start m b)) as Eclip.
    { rewrite <-Hw. unfold window, do_color_adjust.
      destruct (color_adjust m); [|done]. by apply bool_decide_eq_false in Ecol as []; eauto. }
    rewrite <-Eclip in *. simpl in *.
    destruct r as [[st en]|].
    + destruct Hr as (Hst & Hen & Hmax).
      rewrite check_free_hole_spec in Hfit by (try lia; right; lia). zbool. split_and!; lia.
    + simplify_eq. rewrite check_free_hole_spec in Hfit by (try lia; left; lia). zbool.
      split_and!; try lia; done.
Qed.

(** Without colours, a hole that has room passes the test. *)
Lemma fits_at_complete r size al color h b st0 :
  color_adjust m = None -> sane r size al -> h ∈ hole_stack m -> next_node m h = Some b ->
  block_end m h <= st0 -> st0 + size <= block_start m b -> (al <> 0 -> (al | st0)) ->
  match r with None => True | Some (st, en) => st <= st0 /\ st0 + size <= en end ->
  fits_at m r size al color h b = true.
Proof.
  intros Hnc (Hsz & Hal & He & Hr) Hh Hb Hlo Hhi Hdiv Hin. unfold fits_at, window, do_color_adjust.
  rewrite Hnc. destruct (clip_spec r (block_end m h) (block_start m b)) as (Hc1 & Hc2 & Hc3).
  destruct (hole_next h Hh) as (b0 & Hb0 & _ & _ & Hbb & Hbe). simplify_eq.
  pose proof (wf_range _ _ _ Hwf) as [Hs _].
  destruct (clip r _) as [a' b']. simpl in *.
  assert (a' <= st0 /\ st0 + size <= b') as [Ha Hb'].
  { destruct r as [[st en]|]; simplify_eq; lia. }
  rewrite check_free_hole_spec by (try lia; left; lia). apply Z.leb_le.
  destruct (align_start_spec a' al) as (_ & _ & Hmin); [lia..|].
  specialize (Hmin st0 Ha Hdiv). lia.
Qed.
End Fits.

(** ** Free intervals *)

(** The [size] addresses from [st] are in the range and in no block. *)
Definition free_interval (m : drm_mm) (s e st size : Z) : Prop :=
  s <= st /\ st + size <= e /\
  forall n, n ∈ node_list m -> block_end m n <= st \/ st + size <= block_start m n.

Lemma free_interval_hole m s e st size :
  mm_wf m s e -> 0 < size -> free_interval m s e st size ->
  exists h b, h ∈ hole_stack m /\ next_node m h = Some b /\
    block_end m h <= st /\ st + size <= block_start m b.
Proof.
  intros Hwf Hsz (Hs & He & Hfree).
  destruct (list_crossing (fun n => block_end m n <= st) (fun n => st + size <= block_start m n)
    HEAD (node_list m) HEAD) as (l1 & x & y & l2 & E & Hx & Hy).
  - rewrite (wf_head_end _ _ _ Hwf). lia.
  - done.
  - unfold block_start. rewrite (proj1 (wf_head _ _ _ Hwf)). lia.
  - exists x, y. pose proof E as E'. rewrite app_comm_cons in E'.
    apply ring_consecutive in E' as [l2' E'].
    pose proof (wf_nodup _ _ _ Hwf) as Hnd. rewrite E' in Hnd.
    apply NoDup_app in Hnd as (_ & Hd & _).
    assert (x ∉ l1) as Hx1 by (intros Hin; apply (Hd x Hin); by left).
    assert (next_node m x = Some y) as Hnext.
    { unfold next_node, node_ring. rewrite E. by apply succ_in_app. }
    assert (x ∈ HEAD :: node_list m) as Hin by (rewrite E'; apply elem_of_app; right; by left).
    split; [|done]. apply (wf_hole_iff _ _ _ Hwf). split; [done|].
    destruct (next_node_ok _ _ _ Hwf x Hin) as (b & Hb & [_ Hf] & _). simplify_eq.
    rewrite Hf. apply Z.ltb_lt. lia.
Qed.

(** A hole is clear of every block: each one ends before it or starts after it. *)
Lemma hole_misses_blocks m s e h b n :
  mm_wf m s e -> h ∈ hole_stack m -> next_node m h = Some b -> n ∈ node_list m ->
  block_end m n <= block_end m h \/ block_start m b <= block_start m n.
Proof.
  intros Hwf Hh Hb Hn. destruct (hole_next m s e Hwf h Hh) as (b0 & Hb0 & Hbin & Hin & _).
  assert (b0 = b) as -> by congruence.
  destruct (ring_split m s e Hwf h Hin) as (l1 & l2 & b' & Hl & Hh1 & _ & _ & Hb' & Hr).
  assert (b' = b) as ->.
  { unfold next_node in Hb. rewrite Hr in Hb. destruct (l2 ++ [HEAD]) eqn:E; simplify_eq/=.
    rewrite succ_in_app in Hb by done. by simplify_eq. }
  assert (forall k, k ∈ node_list m -> block_start m k <= block_end m k) as Hpos.
  { intros k Hk. rewrite (wf_block_end _ _ _ Hwf k Hk).
    destruct (wf_block _ _ _ Hwf k Hk) as (_ & _ & _ & _ & _ & ? & _). lia. }
  assert (n ∈ HEAD :: node_list m) as Hn' by by right. rewrite Hl in Hn'.
  apply elem_of_app in Hn' as [Hn1|[->|Hn2]%elem_of_cons]; [|left; lia|].
  - left. destruct l1 as [|x l1]; [by apply elem_of_nil in Hn1|].
    injection Hl as <- Hnl.
    pose proof (wf_nodup _ _ _ Hwf) as [HH _]%NoDup_cons.
    apply elem_of_cons in Hn1 as [->|Hn1]; [done|].
    apply split_first in Hn1 as (p & q & -> & _).
    assert (h ∈ node_list m) as Hhin by (rewrite Hnl; set_solver).
    etransitivity; [|by apply Hpos].
    apply (ring_order m s e Hwf n h p q l2). rewrite Hnl. by rewrite <-!app_assoc.
  - right. destruct l2 as [|x l2]; [by apply elem_of_nil in Hn2|].
    simpl in Hb'. injection Hb' as ->.
    apply elem_of_cons in Hn2 as [->|Hn2]; [lia|].
    apply split_first in Hn2 as (p & q & -> & _).
    destruct l1 as [|y l1]; injection Hl as <- Hnl.
    + assert (b ∈ node_list m) as Hbin' by (rewrite Hnl; by left).
      etransitivity; [by apply Hpos|]. by apply (ring_order m s e Hwf b n [] p q).
    + assert (b ∈ node_list m) as Hbin' by (rewrite Hnl; set_solver).
      etransitivity; [by apply Hpos|].
      apply (ring_order m s e Hwf b n (l1 ++ [h]) p q). rewrite Hnl. by rewrite <-app_assoc.
Qed.

(** ** Insertion *)

Section Insert.
Context (m : drm_mm) (s e : Z) (Hwf : mm_wf m s e) (Hcol : color_narrows m).
Context (node : nid) (Hsp : spare m node) (size al color : Z).

Lemma insert_helper_run h b a' b' :
  sane e None size al -> h ∈ hole_stack m -> next_node m h = Some b ->
  window m None color h b = (a', b') -> fits_at m None size al color h b = true ->
  exists m', drm_mm_insert_helper m h node size al color = Some m' /\
    placed m h node size color (align_start a' al) (block_start m b) m'.
Proof.
  intros Hsane Hh Hb Hw Hfit.
  destruct (fits_at_spec m s e Hwf Hcol None size al color h b a' b' Hsane Hh Hb Hw Hfit)
    as (Ha & Hbb & H0 & H32 & _ & Hroom).
  destruct Hsane as (Hsz & Hal & He & _).
  destruct (hole_next m s e Hwf h Hh) as (b0 & Hb0 & _ & Hin & _ & Hble). simplify_eq.
  destruct (align_start_spec a' al) as ([Hlo _] & _); [lia..|].
  unfold drm_mm_insert_helper. rewrite (hole_start_run _ _ _ Hwf h Hh). simpl.
  rewrite (hole_end_run _ _ _ Hwf h b) by done. simpl.
  destruct Hsp as (Hlive & _ & _ & Hna & _). rewrite (live_get m node Hlive). simpl. rewrite Hna. simpl.
  unfold window in Hw. simpl in Hw. rewrite Hw.
  apply (place_node_run m s e); try done; lia.
Qed.

Lemma insert_helper_range_run h b a' b' st en :
  sane e (Some (st, en)) size al -> h ∈ hole_stack m -> next_node m h = Some b ->
  window m (Some (st, en)) color h b = (a', b') ->
  fits_at m (Some (st, en)) size al color h b = true ->
  exists m', drm_mm_insert_helper_range m h node size al color st en = Some m' /\
    placed m h node size color (align_start a' al) (block_start m b) m'.
Proof.
  intros Hsane Hh Hb Hw Hfit.
  destruct (fits_at_spec m s e Hwf Hcol _ size al color h b a' b' Hsane Hh Hb Hw Hfit)
    as (Ha & Hbb & H0 & H32 & [Hst Hen] & Hroom).
  destruct Hsane as (Hsz & Hal & He & _).
  destruct (hole_next m s e Hwf h Hh) as (b0 & Hb0 & _ & Hin & _ & Hble). simplify_eq.
  destruct (align_start_spec a' al) as ([Hlo _] & _); [lia..|].
  unfold drm_mm_insert_helper_range. rewrite (hole_start_run _ _ _ Hwf h Hh). simpl.
  rewrite (hole_end_run _ _ _ Hwf h b) by done. simpl.
  rewrite (live_get m h) by by apply (wf_live _ _ _ Hwf). simpl.
  pose proof Hsp as (Hlive & _ & _ & Hna & _). rewrite (live_get m node Hlive). simpl.
  rewrite Hna, (proj2 (proj1 (wf_hole_iff _ _ _ Hwf h) Hh)). simpl.
  unfold window in Hw. simpl in Hw. rewrite Hw.
  destruct (place_node_run m s e h node size color (block_start m b) (align_start a' al) b')
    as (m' & -> & HP); try done; [lia..|]. simpl.
  rewrite u64_small by lia.
  assert ((align_start a' al + size >? en) = false) as ->
    by (rewrite Z.gtb_ltb; apply Z.ltb_ge; lia).
  by exists m'.
Qed.
End Insert.

(** What a successful insertion of [node] promises to its caller. *)
Record inserted (m : drm_mm) (s e : Z) (r : option (Z * Z)) (node : nid) (size al color : Z)
    (m' : drm_mm) : Prop := {
  ins_wf : mm_wf m' s e;
  ins_in : node ∈ node_list m';
  ins_size : node_size (get m' node) = size;
  ins_color : node_color (get m' node) = color;
  ins_aligned : al <> 0 -> (al | block_start m' node);
  ins_range : s <= block_start m' node /\ block_start m' node + size <= e;
  ins_clip : match r with None => True | Some (st, en) =>
      st <= block_start m' node /\ block_start m' node + size <= en end;
  ins_was_free : free_interval m s e (block_start m' node) size;
  ins_others : forall n, n ∈ node_list m -> n ∈ node_list m' /\
      block_start m' n = block_start m n /\ node_size (get m' n) = node_size (get m n);
  ins_only : forall n, n ∈ node_list m' -> n = node \/ n ∈ node_list m;
  ins_params : same_params m m' }.

Lemma placed_inserted m s e r h b node size al color a' b' m' :
  mm_wf m s e -> color_narrows m -> spare m node -> sane e r size al ->
  h ∈ hole_stack m -> next_node m h = Some b -> window m r color h b = (a', b') ->
  fits_at m r size al color h b = true ->
  placed m h node size color (align_start a' al) (block_start m b) m' ->
  inserted m s e r node size al color m'.
Proof.
  intros Hwf Hcol Hsp Hsane Hh Hb Hw Hfit HP.
  destruct (fits_at_spec m s e Hwf Hcol r size al color h b a' b' Hsane Hh Hb Hw Hfit)
    as (Ha & Hbb & H0 & H32 & Hr & Hroom).
  destruct Hsane as (Hsz & Hal & He & _).
  destruct (hole_next m s e Hwf h Hh) as (b0 & Hb0 & Hbin & Hin & Hbs & Hble). simplify_eq.
  destruct (align_start_spec a' al) as ([Hlo _] & Hdiv & _); [lia..|].
  assert (mm_wf m' s e) as Hwf' by (apply (placed_wf m s e Hwf h node b size color (align_start a' al) m' Hh Hsp Hb); [lia|lia|lia|done]).
  assert (block_start m' node = align_start a' al) as Est
    by (unfold block_start; by rewrite (placed_node_eq _ _ _ _ _ _ _ _ HP)).
  assert (forall k, k ∈ HEAD :: node_list m' <-> k = node \/ k ∈ HEAD :: node_list m) as Hlist
    by (intros k; apply (placed_list_in m s e Hwf h node b size color (align_start a' al) m'); done || lia).
  assert (forall n, n ∈ node_list m' <-> n = node \/ n ∈ node_list m) as Hlist'.
  { intros n. pose proof (wf_nodup _ _ _ Hwf) as [HH _]%NoDup_cons.
    pose proof (wf_nodup _ _ _ Hwf') as [HH' _]%NoDup_cons.
    pose proof Hsp as (_ & Hout & _). specialize (Hlist n). rewrite !elem_of_cons in Hlist.
    rewrite elem_of_cons in Hout. destruct (decide (n = HEAD)) as [->|Hn]; naive_solver. }
  split.
  - done.
  - apply Hlist'. by left.
  - by rewrite (placed_node_eq _ _ _ _ _ _ _ _ HP).
  - by rewrite (placed_node_eq _ _ _ _ _ _ _ _ HP).
  - by rewrite Est.
  - rewrite Est. lia.
  - rewrite Est. destruct r as [[st en]|]; [lia|done].
  - rewrite Est. split; [lia|]. split; [lia|]. intros n Hn.
    destruct (hole_misses_blocks m s e h b n Hwf Hh Hb Hn); lia.
  - intros n Hn. assert (n <> node) as Hne by (intros ->; destruct Hsp as (_ & Hout & _); apply Hout; by right).
    assert (block_start m' n = block_start m n /\ node_size (get m' n) = node_size (get m n)) as [-> ->].
    { by destruct (placed_same m e h node b size color (align_start a' al) m' HP n Hne) as (? & _ & ? & _). }
    split; [|done]. apply Hlist'. by right.
  - apply Hlist'.
  - by apply (placed_params _ _ _ _ _ _ _ _ HP).
Qed.


(** ** The insert functions *)

Section InsertNode.
Context (m : drm_mm) (s e : Z) (Hwf : mm_wf m s e) (Hcol : color_narrows m).
Context (node : nid) (Hsp : spare m node) (size al color : Z).

(** The outcome of an insertion restricted to [r]. *)
Definition insert_outcome (r : option (Z * Z)) (res : option (Z * drm_mm)) : Prop :=
  (exists m', res = Some (0, m') /\ inserted m s e r node size al color m') \/
  (res = Some (- ENOSPC, m) /\
   forall h b, h ∈ hole_stack m -> next_node m h = Some b ->
     fits_at m r size al color h b = false).

Lemma fits_everywhere r fits :
  (forall h b, h ∈ hole_stack m -> next_node m h = Some b ->
    fits h = Some (fits_at m r size al color h b)) ->
  exists r', search_holes m fits false (hole_stack m) None (2 ^ 64 - 1) = Some r' /\
    match r' with
    | Some h => exists b, h ∈ hole_stack m /\ next_node m h = Some b /\
        fits_at m r size al color h b = true
    | None => forall h b, h ∈ hole_stack m -> next_node m h = Some b ->
        fits_at m r size al color h b = false
    end.
Proof.
  intros Hf. destruct (search_first m fits (hole_stack m) (2 ^ 64 - 1)) as (r' & -> & Hr).
  - intros h Hh. destruct (hole_next m s e Hwf h Hh) as (b & Hb & _).
    rewrite (Hf h b Hh Hb). eauto.
  - exists r'. split; [done|]. destruct r' as [h|].
    + destruct Hr as [Hh Hfit]. destruct (hole_next m s e Hwf h Hh) as (b & Hb & _).
      exists b. rewrite (Hf h b Hh Hb) in Hfit. by simplify_eq.
    + intros h b Hh Hb. specialize (Hr h Hh). rewrite (Hf h b Hh Hb) in Hr. by simplify_eq.
Qed.

Lemma insert_node_generic_outcome :
  sane e None size al ->
  insert_outcome None (drm_mm_insert_node_generic m node size al color).
Proof.
  intros Hsane. unfold drm_mm_insert_node_generic, drm_mm_search_free_generic.
  rewrite (wf_idle _ _ _ Hwf). cbn -[search_holes].
  destruct (fits_everywhere None (hole_fits m size al color)) as (r' & Hr' & Hr).
  { intros. by apply (hole_fits_run m s e). }
  cbn -[search_holes] in Hr'. rewrite Hr'. simpl. destruct r' as [h|]; [|by right].
  left. destruct Hr as (b & Hh & Hb & Hfit).
  destruct (window m None color h b) as [a' b'] eqn:Hw.
  destruct (insert_helper_run m s e Hwf Hcol node Hsp size al color h b a' b' Hsane Hh Hb Hw Hfit)
    as (m' & -> & HP). simpl. exists m'. split; [done|].
  by apply (placed_inserted m s e None h b node size al color a' b').
Qed.

Lemma insert_node_in_range_outcome st en :
  sane e (Some (st, en)) size al ->
  insert_outcome (Some (st, en))
    (drm_mm_insert_node_in_range_generic m node size al color st en).
Proof.
  intros Hsane. unfold drm_mm_insert_node_in_range_generic, drm_mm_search_free_in_range_generic.
  rewrite (wf_idle _ _ _ Hwf). cbn -[search_holes].
  destruct (fits_everywhere (Some (st, en)) (hole_fits_in_range m size al color st en))
    as (r' & Hr' & Hr).
  { intros. by apply (hole_fits_in_range_run m s e). }
  cbn -[search_holes] in Hr'. rewrite Hr'. simpl. destruct r' as [h|]; [|by right].
  left. destruct Hr as (b & Hh & Hb & Hfit).
  destruct (window m (Some (st, en)) color h b) as [a' b'] eqn:Hw.
  destruct (insert_helper_range_run m s e Hwf Hcol node Hsp size al color h b a' b' st en
    Hsane Hh Hb Hw Hfit) as (m' & -> & HP). simpl. exists m'. split; [done|].
  by apply (placed_inserted m s e _ h b node size al color a' b').
Qed.
End InsertNode.

(** C17: [drm_mm_insert_node_generic] never fails on a well-formed manager.  It
    returns 0 with the node placed: aligned, in the range, where no block was,
    every other block untouched and the manager well formed again; or it
    returns -ENOSPC and changes nothing. *)
Theorem insert_node_sound m s e node size al color :
  mm_wf m s e -> color_narrows m -> spare m node -> sane e None size al ->
  (exists m', drm_mm_insert_node_generic m node size al color = Some (0, m') /\
     inserted m s e None node size al color m') \/
  drm_mm_insert_node_generic m node size al color = Some (- ENOSPC, m).
Proof.
  intros Hwf Hcol Hsp Hsane.
  destruct (insert_node_generic_outcome m s e Hwf Hcol node Hsp size al color Hsane) as [?|[? _]];
    [by left|by right].
Qed.

(** the range-restricted insertion, with the block inside the range asked for. *)
Theorem insert_node_in_range_sound m s e node size al color st en :
  mm_wf m s e -> color_narrows m -> spare m node -> sane e (Some (st, en)) size al ->
  (exists m', drm_mm_insert_node_in_range_generic m node size al color st en = Some (0, m') /\
     inserted m s e (Some (st, en)) node size al color m') \/
  drm_mm_insert_node_in_range_generic m node size al color st en = Some (- ENOSPC, m).
Proof.
  intros Hwf Hcol Hsp Hsane.
  destruct (insert_node_in_range_outcome m s e Hwf Hcol node Hsp size al color st en Hsane)
    as [?|[? _]]; [by left|by right].
Qed.

(** Without a colour callback, an insertion that finds nothing has missed nothing. *)
Lemma enospc_no_room m s e node size al color r res st :
  mm_wf m s e -> color_adjust m = None -> sane e r size al ->
  insert_outcome m s e node size al color r res -> res = Some (- ENOSPC, m) ->
  (al <> 0 -> (al | st)) ->
  match r with None => True | Some (lo, hi) => lo <= st /\ st + size <= hi end ->
  ~ free_interval m s e st size.
Proof.
  intros Hwf Hnc Hsane Hout Hres Hal Hr Hfree.
  destruct Hout as [(m' & -> & _)|[_ Hno]]; [unfold ENOSPC in Hres; by simplify_eq|].
  destruct (free_interval_hole m s e st size Hwf) as (h & b & Hh & Hb & Hlo & Hhi);
    [apply Hsane|done|].
  specialize (Hno h b Hh Hb).
  rewrite (fits_at_complete m s e Hwf r size al color h b st) in Hno; done.
Qed.

(** C19: -ENOSPC is never spurious.  Without a colour callback both insert
    functions return it only when no aligned free interval of the size exists
    in the range searched. *)
Theorem insert_node_complete m s e node size al color :
  mm_wf m s e -> color_adjust m = None -> spare m node ->
  (sane e None size al ->
   drm_mm_insert_node_generic m node size al color = Some (- ENOSPC, m) ->
   forall st, (al <> 0 -> (al | st)) -> ~ free_interval m s e st size) /\
  (forall lo hi, sane e (Some (lo, hi)) size al ->
   drm_mm_insert_node_in_range_generic m node size al color lo hi = Some (- ENOSPC, m) ->
   forall st, (al <> 0 -> (al | st)) -> lo <= st -> st + size <= hi ->
     ~ free_interval m s e st size).
Proof.
  intros Hwf Hnc Hsp. pose proof (color_none_narrows _ Hnc) as Hcol.
  split.
  - intros Hsane Hres st Hal.
    by apply (enospc_no_room m s e node size al color None _ st Hwf Hnc Hsane
      (insert_node_generic_outcome m s e Hwf Hcol node Hsp size al color Hsane) Hres).
  - intros lo hi Hsane Hres st Hal Hlo Hhi.
    by apply (enospc_no_room m s e node size al color (Some (lo, hi)) _ st Hwf Hnc Hsane
      (insert_node_in_range_outcome m s e Hwf Hcol node Hsp size al color lo hi Hsane) Hres).
Qed.
