(* ===== verification/MMFree.v ===== *)
(** * The range allocator of drm_mm.c: removal, spare nodes, set-up

    Removal merges the block with the holes around it; the spare-node cache
    stays within its target; a manager starts empty and its totals always add
    up to the managed range.  Every run of operations from [drm_mm_init] keeps
    the invariant, so blocks are disjoint at all times. *)

From S2P Require Import Prelude MM MMInv MMAlloc.

(** ** Removal *)

(** [m'] is [m] without [node], whose predecessor in the ring is [a]. *)
Record removed (m : drm_mm) (a node : nid) (m' : drm_mm) : Prop := {
  rem_list : take_out (node_list m) node = Some (node_list m');
  rem_node : get m' node = set_allocated false (get m node);
  rem_prev : get m' a = set_hole_follows true (get m a);
  rem_other : forall k, k <> node -> k <> a -> get m' k = get m k;
  rem_stack : exists hs, hole_stack m' = a :: hs /\ NoDup (a :: hs) /\
    forall k, k ∈ hs <-> k ∈ hole_stack m /\ k <> node /\ k <> a;
  rem_params : same_params m m' }.

Lemma set_hole_follows_id n : hole_follows n = true -> set_hole_follows true n = n.
Proof. destruct n; simpl. by intros ->. Qed.

Section Remove.
Context (m : drm_mm) (s e : Z) (Hwf : mm_wf m s e) (node : nid) (Hin : node ∈ node_list m).

Lemma remove_ne_head : node <> HEAD.
Proof. intros ->. by pose proof (wf_nodup _ _ _ Hwf) as [? _]%NoDup_cons. Qed.

(** The hole stack without the hole of the removed node. *)
Lemma remove_own_hole : exists hs,
  (if hole_follows (get m node) then take_out (hole_stack m) node = Some hs else hs = hole_stack m) /\
  NoDup hs /\ forall k, k ∈ hs <-> k ∈ hole_stack m /\ k <> node.
Proof.
  pose proof (wf_holes _ _ _ Hwf) as Hnd. pose proof (wf_hole_iff _ _ _ Hwf node) as Hiff.
  destruct (hole_follows (get m node)) eqn:Hf.
  - destruct (take_out_is_Some (hole_stack m) node) as [hs Hhs]; [apply Hiff; split; [by right|done]|].
    exists hs. split; [done|]. destruct (take_out_spec _ _ _ Hnd Hhs) as (? & ? & _). done.
  - exists (hole_stack m). split; [done|]. split; [done|]. intros k. split; [|tauto].
    intros Hk. split; [done|]. intros ->. by apply Hiff in Hk as [_ ?].
Qed.

(** The predecessor becomes the top of the hole stack, whether or not it was in it. *)
Lemma remove_push_prev a hs :
  a ∈ HEAD :: node_list m -> a <> node -> NoDup hs ->
  (forall k, k ∈ hs <-> k ∈ hole_stack m /\ k <> node) ->
  exists m2 hs2, (if negb (hole_follows (get m a))
    then m ← upd_node a (set_hole_follows true) (with_hole_stack hs m); Some (push_hole a m)
    else m ← unlink_hole a (with_hole_stack hs m); Some (push_hole a m)) = Some m2 /\
  nodes m2 = <[a := set_hole_follows true (get m a)]> (nodes m) /\ node_list m2 = node_list m /\
  hole_stack m2 = a :: hs2 /\ NoDup (a :: hs2) /\ (forall k, k ∈ hs2 <-> k ∈ hs /\ k <> a) /\
  same_params m m2.
Proof.
  intros Hain Hne Hndhs Hhsin.
  assert (live m a) as Hla by by apply (wf_live _ _ _ Hwf).
  destruct (hole_follows (get m a)) eqn:Hfl; simpl.
  - assert (a ∈ hs) as Hahs by (apply Hhsin; split; [by apply (wf_hole_iff _ _ _ Hwf)|done]).
    destruct (take_out_is_Some _ _ Hahs) as [hs2 Hhs2]. unfold unlink_hole. simpl. rewrite Hhs2. simpl.
    destruct (take_out_spec _ _ _ Hndhs Hhs2) as (Hnd2 & Hk2 & _).
    eexists _, hs2. split; [done|]. simpl. rewrite set_hole_follows_id by done.
    rewrite insert_id by by apply live_get. split_and!; try done.
    apply NoDup_cons. split; [rewrite Hk2; tauto|done].
  - assert (a ∉ hs) as Hahs.
    { intros [Hx _]%Hhsin. apply (wf_hole_iff _ _ _ Hwf) in Hx as [_ ?]. congruence. }
    rewrite (upd_node_eq (with_hole_stack hs m) a _ (get m a) (live_get m a Hla)). simpl.
    eexists _, hs. split; [done|]. simpl. split_and!; try done.
    + by apply NoDup_cons.
    + intros k. split; [|tauto]. intros Hk. split; [done|]. by intros ->.
    + split_and!; try done. intros k. unfold live. simpl. rewrite lookup_insert_is_Some'.
      split; [intros [<-|?]; done|tauto].
Qed.

(** The node's own hole, which its flag reports exactly, is unlinked. *)
Lemma remove_unlink_own b hs :
  adjacent m node b ->
  (if hole_follows (get m node) then take_out (hole_stack m) node = Some hs else hs = hole_stack m) ->
  (if hole_follows (get m node)
   then _ ← BUG_ON (block_end m node =? block_start m b); unlink_hole node m
   else _ ← BUG_ON (negb (block_end m node =? block_start m b)); Some m)
  = Some (with_hole_stack hs m).
Proof.
  intros [Hle Hfn] Hhs.
  assert ((block_end m node =? block_start m b) = negb (hole_follows (get m node))) as ->.
  { rewrite Hfn. destruct (Z.eqb_spec (block_end m node) (block_start m b)),
      (Z.ltb_spec (block_end m node) (block_start m b)); try done; lia. }
  unfold unlink_hole. destruct (hole_follows (get m node)); simpl.
  - by rewrite Hhs.
  - subst hs. by destruct m.
Qed.

Lemma remove_node_run : exists a m',
  prev_node m node = Some a /\ a ∈ HEAD :: node_list m /\ a <> node /\
  drm_mm_remove_node m node = Some m' /\ removed m a node m'.
Proof.
  destruct (prev_node_ok _ _ _ Hwf node Hin) as (a & Ha & [Hle Hfa] & Hain).
  destruct (next_node_ok _ _ _ Hwf node) as (b & Hb & Hadj & Hbin); [by right|].
  destruct (wf_block _ _ _ Hwf node Hin) as (Hal & Hs1 & Hs2 & Hs3 & _ & Hpos & _).
  assert (live m node) as Hlive by (apply (wf_live _ _ _ Hwf); by right).
  assert (live m a) as Hla by by apply (wf_live _ _ _ Hwf).
  assert (a <> node) as Hne.
  { intros ->. rewrite (wf_block_end _ _ _ Hwf node Hin) in Hle. lia. }
  destruct remove_own_hole as (hs & Hhs & Hndhs & Hhsin).
  destruct (take_out_is_Some _ _ Hin) as [nl Hnl].
  pose proof (remove_unlink_own b hs Hadj Hhs) as H1.
  destruct (remove_push_prev a hs Hain Hne Hndhs Hhsin)
    as (m2 & hs2 & H2 & Hn2 & Hl2 & Hst2 & Hnd2 & Hin2 & Hp2).
  assert (nodes m2 !! node = Some (get m node)) as Hn2node.
  { rewrite Hn2, lookup_insert_ne by done. by apply live_get. }
  exists a. eexists. split; [done|]. split; [done|]. split; [done|]. split.
  - unfold drm_mm_remove_node. rewrite (live_get m node Hlive). simpl. rewrite Hs1, Hs2, Hs3. simpl.
    rewrite Ha. simpl. unfold __drm_mm_hole_node_start at 1. rewrite (live_get m node Hlive). simpl.
    unfold __drm_mm_hole_node_end. rewrite Hb. simpl.
    rewrite (live_get m b) by by apply (wf_live _ _ _ Hwf). simpl.
    fold (block_end m node) (block_start m b). rewrite H1. simpl.
    rewrite (live_get m a Hla). simpl. rewrite H2. simpl.
    unfold unlink_node. rewrite Hl2, Hnl. simpl.
    by rewrite (upd_node_eq _ node _ (get m node)) by done.
  - split; simpl.
    + done.
    + erewrite get_insert by reflexivity. by rewrite decide_True.
    + erewrite get_insert by reflexivity. rewrite decide_False by done. simpl. rewrite Hn2.
      by rewrite lookup_total_insert_eq.
    + intros k Hk1 Hk2. erewrite get_insert by reflexivity. rewrite decide_False by done. simpl.
      rewrite Hn2. by rewrite lookup_total_insert_ne.
    + exists hs2. split; [done|]. split; [done|]. intros k. rewrite Hin2, Hhsin. tauto.
    + destruct Hp2 as (? & ? & ? & ? & Hlv). split_and!; try done.
      intros k. rewrite <-Hlv. unfold live. simpl. rewrite lookup_insert_is_Some'.
      split; [intros [<-|?]; [by rewrite Hn2node|done]|tauto].
Qed.
End Remove.

Section Removed.
Context (m : drm_mm) (s e : Z) (Hwf : mm_wf m s e) (a node : nid) (m' : drm_mm).
Context (Hin : node ∈ node_list m) (Ha : prev_node m node = Some a) (Hne : a <> node).
Context (HR : removed m a node m').

Lemma removed_same k : k <> node ->
  block_start m' k = block_start m k /\ block_end m' k = block_end m k /\
  node_size (get m' k) = node_size (get m k) /\ (block_ok m e k -> block_ok m' e k) /\
  (k <> a -> get m' k = get m k).
Proof.
  intros Hk. unfold block_start, block_end, block_ok, block_start. destruct (decide (k = a)) as [->|Hka].
  - by rewrite (rem_prev _ _ _ _ HR).
  - by rewrite (rem_other _ _ _ _ HR) by done.
Qed.

Lemma removed_ring : exists l1 l2 b,
  HEAD :: node_list m = l1 ++ a :: node :: l2 /\ HEAD :: node_list m' = l1 ++ a :: l2 /\
  hd_error (l2 ++ [HEAD]) = Some b.
Proof.
  pose proof (wf_nodup _ _ _ Hwf) as Hnd.
  pose proof (rem_list _ _ _ _ HR) as (p & q & Hl & Hl' & Hp)%take_out_Some.
  rewrite Hl in Hnd. apply NoDup_cons in Hnd as [HH Hnd].
  apply NoDup_app in Hnd as (_ & _ & [Hq _]%NoDup_cons).
  destruct (exists_last (l := HEAD :: p)) as (A & x & HA); [done|].
  destruct (hd_snoc q HEAD) as (b & Hb & _). exists A, q, b.
  assert (Hr : node_ring m = A ++ x :: node :: q ++ [HEAD]).
  { unfold node_ring. rewrite Hl, <-app_assoc, app_comm_cons, HA, <-app_assoc. done. }
  assert (x = a) as ->.
  { unfold prev_node in Ha. rewrite Hr, pred_in_app in Ha; [by simplify_eq|..].
    - intros HinA. assert (node ∈ HEAD :: p) as Hx by (rewrite HA; apply elem_of_app; by left).
      apply elem_of_cons in Hx as [->|?]; [|done]. set_solver.
    - intros ->. assert (node ∈ HEAD :: p) as Hx by (rewrite HA; apply elem_of_app; right; by left).
      apply elem_of_cons in Hx as [->|?]; [|done]. set_solver.
    - rewrite elem_of_app, list_elem_of_singleton. intros [?| ->]; [done|]. set_solver. }
  rewrite Hl, Hl', !app_comm_cons, HA, <-!app_assoc. done.
Qed.

Lemma removed_list_in k : k ∈ HEAD :: node_list m' <-> k ∈ HEAD :: node_list m /\ k <> node.
Proof.
  pose proof (wf_nodup _ _ _ Hwf) as Hnd. destruct removed_ring as (l1 & l2 & b & E & -> & _).
  rewrite E in *. rewrite Permutation_app_comm in Hnd. simpl in Hnd.
  apply NoDup_cons in Hnd as [_ [Hn _]%NoDup_cons].
  rewrite elem_of_app in Hn. rewrite !elem_of_app, !elem_of_cons.
  split; [|tauto]. intros Hk. split; [tauto|]. intros ->. naive_solver.
Qed.

Lemma removed_nodup : NoDup (HEAD :: node_list m').
Proof.
  pose proof (wf_nodup _ _ _ Hwf) as Hnd. destruct removed_ring as (l1 & l2 & b & E & -> & _).
  rewrite E in Hnd. replace (l1 ++ a :: node :: l2) with ((l1 ++ [a]) ++ node :: l2) in Hnd
    by by rewrite <-app_assoc.
  rewrite <-Permutation_middle, <-app_assoc in Hnd. by apply NoDup_cons in Hnd as [_ ?].
Qed.

Lemma removed_chain : Chain (adjacent m') (node_ring m').
Proof.
  destruct removed_ring as (l1 & l2 & b & E & E' & Hb). pose proof removed_list_in as Hlist.
  pose proof (wf_chain _ _ _ Hwf) as HC. pose proof (wf_nodup _ _ _ Hwf) as Hnd.
  assert ((a ∉ l1) /\ (a ∉ l2)) as [Ha1 Ha2].
  { pose proof removed_nodup as Hnd'. rewrite E' in Hnd'.
    apply NoDup_app in Hnd' as (_ & Hd & [? _]%NoDup_cons). set_solver. }
  unfold node_ring in *. rewrite app_comm_cons, E in HC. rewrite app_comm_cons, E'.
  rewrite <-app_assoc in *. cbn [app] in *.
  destruct (l2 ++ [HEAD]) as [|b' t] eqn:Ht; [done|]. simpl in Hb. injection Hb as ->.
  apply Chain_join in HC as (HC1 & [Hle Hfl] & HC2). apply Chain_cons in HC2 as [[Hle2 Hfl2] HC2].
  assert (forall x, x ∈ l1 ++ [a] -> x <> node) as Hleft.
  { intros x Hx. apply (proj2 (proj1 (Hlist x) (split_left_in _ _ _ _ _ _ E' Hx))). }
  assert (forall x, x ∈ l2 ++ [HEAD] -> x <> node) as Hright.
  { intros x Hx. apply (proj2 (proj1 (Hlist x) (split_right_in _ _ _ _ _ _ E' Hx))). }
  apply Chain_join. split; [|split].
  - apply (Chain_impl_in _ _ _ _ HC1). intros x y Hx Hy [Hxy Hfx].
    assert (x <> node) by (apply Hleft, elem_of_app; by left).
    assert (y <> node) by by apply Hleft, elem_of_tail.
    assert (x <> a) by by intros ->.
    unfold adjacent. destruct (removed_same x) as (_ & -> & _ & _ & Ex); [done|].
    destruct (removed_same y) as (-> & _); [done|]. by rewrite Ex.
  - unfold adjacent. destruct (removed_same a) as (_ & -> & _); [done|].
    destruct (removed_same b) as (-> & _); [apply Hright; rewrite Ht; by left|].
    rewrite (rem_prev _ _ _ _ HR). simpl.
    rewrite (wf_block_end _ _ _ Hwf node Hin) in Hle2.
    destruct (wf_block _ _ _ Hwf node Hin) as (_ & _ & _ & _ & _ & ? & _).
    split; [lia|]. symmetry. apply Z.ltb_lt. lia.
  - rewrite <-Ht in *. apply (Chain_impl_in _ _ _ _ HC2). intros x y Hx Hy [Hxy Hfx].
    assert (x <> node) by (apply Hright, elem_of_app; by left).
    assert (y <> node) by by apply Hright, elem_of_tail.
    assert (x <> a) by by intros ->.
    unfold adjacent. destruct (removed_same x) as (_ & -> & _ & _ & Ex); [done|].
    destruct (removed_same y) as (-> & _); [done|]. by rewrite Ex.
Qed.

Lemma removed_in k : k ∈ node_list m' <-> k ∈ node_list m /\ k <> node.
Proof.
  pose proof (wf_nodup _ _ _ Hwf) as [_ Hnd]%NoDup_cons.
  by destruct (take_out_spec _ _ _ Hnd (rem_list _ _ _ _ HR)) as (_ & ? & _).
Qed.

Lemma removed_wf : mm_wf m' s e.
Proof.
  destruct (rem_params _ _ _ _ HR) as (Hu & Hnu & Hsc & _ & Hlive).
  assert (HEAD <> node) as HneH by (intros <-; by pose proof (wf_nodup _ _ _ Hwf) as [? _]%NoDup_cons).
  destruct (rem_stack _ _ _ _ HR) as (hs & Hst & Hnd & Hhs).
  split.
  - apply Hwf.
  - destruct (removed_same HEAD) as (E1 & _ & E2 & _); [done|]. unfold block_start in E1.
    rewrite E1, E2. apply Hwf.
  - apply removed_nodup.
  - intros k [Hk _]%removed_list_in. apply Hlive. by apply (wf_live _ _ _ Hwf).
  - intros k [Hk Hkn]%removed_in. apply removed_same; [done|]. by apply (wf_block _ _ _ Hwf).
  - apply removed_chain.
  - by rewrite Hst.
  - intros k. rewrite Hst, elem_of_cons, Hhs, removed_list_in, (wf_hole_iff _ _ _ Hwf).
    assert (a ∈ HEAD :: node_list m) as Hain.
    { destruct removed_ring as (l1 & l2 & b & -> & _ & _). apply elem_of_app. right. by left. }
    destruct (decide (k = a)) as [->|Hka]; [rewrite (rem_prev _ _ _ _ HR); naive_solver|].
    destruct (decide (k = node)) as [->|Hkn]; [naive_solver|].
    rewrite (rem_other _ _ _ _ HR) by done. naive_solver.
  - rewrite Hu, Hnu. apply Hwf.
  - intros k Hk. rewrite Hu in Hk. destruct (wf_unused_off _ _ _ Hwf k Hk) as (? & Hout & ?).
    assert (k <> node) by (intros ->; apply Hout; by right).
    assert (k <> a).
    { intros ->. destruct removed_ring as (l1 & l2 & b & E & _ & _). apply Hout. rewrite E.
      apply elem_of_app. right. by left. }
    rewrite Hlive, removed_list_in, (rem_other _ _ _ _ HR) by done. naive_solver.
  - rewrite Hsc. apply Hwf.
Qed.
End Removed.

(** Changes that leave the ring and the hole stack alone. *)
Lemma wf_frame m s e m' :
  mm_wf m s e ->
  node_list m' = node_list m -> hole_stack m' = hole_stack m -> scanned_blocks m' = scanned_blocks m ->
  (forall n, n ∈ HEAD :: node_list m -> get m' n = get m n /\ live m' n) ->
  NoDup (unused_nodes m') /\ num_unused m' = Z.of_nat (length (unused_nodes m')) ->
  (forall n, n ∈ unused_nodes m' ->
    live m' n /\ (n ∉ HEAD :: node_list m) /\ allocated (get m' n) = false /\
    scanned_block (get m' n) = false /\ scanned_prev_free (get m' n) = false /\
    scanned_next_free (get m' n) = false) ->
  mm_wf m' s e.
Proof.
  intros Hwf Hl Hh Hs Hget Hu Hun.
  assert (get m' HEAD = get m HEAD) as HH by (apply Hget; by left).
  split; try done; rewrite ?Hl, ?Hh, ?Hs, ?HH; try apply Hwf.
  - intros n Hn. by apply Hget.
  - intros n Hn. unfold block_ok, block_start. rewrite (proj1 (Hget n ltac:(by right))).
    by apply (wf_block _ _ _ Hwf).
  - unfold node_ring. rewrite Hl. pose proof (wf_chain _ _ _ Hwf) as HC. unfold node_ring in HC.
    rewrite app_comm_cons in *. apply (Chain_impl_in _ _ _ _ HC). intros x y Hx Hy Hxy.
    assert (y ∈ HEAD :: node_list m) as Hy'.
    { apply elem_of_tail in Hy. apply elem_of_app in Hy as [?|Hy]; [done|].
      apply list_elem_of_singleton in Hy as ->. by left. }
    unfold adjacent, block_end, block_start in *.
    by rewrite (proj1 (Hget x Hx)), (proj1 (Hget y Hy')).
  - intros n. rewrite (wf_hole_iff _ _ _ Hwf). split; intros [Hn Hf]; (split; [done|]);
      by rewrite ?(proj1 (Hget n Hn)) in *.
  - exact Hun.
Qed.

(** C20: [drm_mm_remove_node] never fails on an allocated block.  The block is
    gone, its space is free, the other blocks are untouched, the node may be
    inserted again, and the hole that now contains the freed space is on top of
    the hole stack, where the next first-fit search looks first. *)
Theorem remove_node_sound m s e node :
  mm_wf m s e -> node ∈ node_list m ->
  exists m', drm_mm_remove_node m node = Some m' /\ mm_wf m' s e /\ spare m' node /\
    (forall n, n ∈ node_list m' <-> n ∈ node_list m /\ n <> node) /\
    (forall n, n ∈ node_list m' ->
      block_start m' n = block_start m n /\ node_size (get m' n) = node_size (get m n)) /\
    free_interval m' s e (block_start m node) (node_size (get m node)) /\
    exists a, hd_error (hole_stack m') = Some a /\ prev_node m node = Some a /\
      drm_mm_hole_node_start m' a = Some (block_end m a).
Proof.
  intros Hwf Hin. destruct (remove_node_run m s e Hwf node Hin) as (a & m' & Ha & Hain & Hne & -> & HR).
  pose proof (removed_wf m s e Hwf a node m' Hin Ha Hne HR) as Hwf'.
  pose proof (removed_in m s e Hwf a node m' HR) as Hlist.
  destruct (wf_block _ _ _ Hwf node Hin) as (Hal & Hs1 & Hs2 & Hs3 & H0 & Hsz & Hle).
  destruct (rem_params _ _ _ _ HR) as (Hu & _ & _ & _ & Hlive).
  destruct (rem_stack _ _ _ _ HR) as (hs & Hst & _).
  exists m'. split; [done|]. split; [done|]. split; [|split; [done|split; [|split]]].
  - split_and!; rewrite ?Hlive, ?Hu, ?(rem_node _ _ _ _ HR); try done.
    + apply (wf_live _ _ _ Hwf). by right.
    + rewrite (removed_list_in m s e Hwf a node m' Hin Ha Hne HR). tauto.
    + intros Hx. destruct (wf_unused_off _ _ _ Hwf node Hx) as (_ & Hout & _). apply Hout. by right.
  - intros n [Hn Hnn]%Hlist.
    by destruct (removed_same m e a node m' HR n Hnn) as (-> & _ & -> & _).
  - split; [by apply (ring_start_ge m s e)|]. split; [done|].
    intros n [Hn Hnn]%Hlist. destruct (removed_same m e a node m' HR n Hnn) as (-> & -> & _).
    rewrite <-(wf_block_end _ _ _ Hwf node Hin).
    pose proof Hin as (p & q & Hl & Hp)%split_first. pose proof Hn as Hn'. rewrite Hl in Hn'.
    apply elem_of_app in Hn' as [(p1 & p2 & -> & _)%split_first|[?|(q1 & q2 & -> & _)%split_first]%elem_of_cons];
      [left|done|right].
    + apply (ring_order m s e Hwf n node p1 p2 q). by rewrite Hl, <-app_assoc.
    + by apply (ring_order m s e Hwf node n p q1 q2).
  - exists a. split; [by rewrite Hst|]. split; [done|].
    rewrite (hole_start_run m' s e Hwf' a) by (rewrite Hst; by left).
    by destruct (removed_same m e a node m' HR a Hne) as (_ & -> & _).
Qed.

(** removal undoes insertion.  After a block is inserted and removed again
    the same blocks are allocated at the same places, every other node has its
    contents back, and the same nodes are followed by holes. *)
Theorem insert_remove_roundtrip m s e node size al color m1 :
  mm_wf m s e -> color_narrows m -> spare m node -> sane e None size al ->
  drm_mm_insert_node_generic m node size al color = Some (0, m1) ->
  exists m2, drm_mm_remove_node m1 node = Some m2 /\ mm_wf m2 s e /\
    (forall n, n ∈ node_list m2 <-> n ∈ node_list m) /\
    (forall n, n ∈ node_list m -> block_start m2 n = block_start m n /\
       node_size (get m2 n) = node_size (get m n)) /\
    (forall st sz, free_interval m2 s e st sz <-> free_interval m s e st sz).
Proof.
  intros Hwf Hcol Hsp Hsane Hins.
  destruct (insert_node_generic_outcome m s e Hwf Hcol node Hsp size al color Hsane)
    as [(m1' & E & HI)|[E _]]; rewrite Hins in E; [|by unfold ENOSPC in E; simplify_eq].
  injection E as <-. pose proof (ins_wf _ _ _ _ _ _ _ _ _ HI) as Hwf1.
  pose proof (ins_in _ _ _ _ _ _ _ _ _ HI) as Hin1.
  destruct (remove_node_run m1 s e Hwf1 node Hin1) as (a & m2 & Ha & Hain & Hne & Hr & HR).
  pose proof (removed_wf m1 s e Hwf1 a node m2 Hin1 Ha Hne HR) as Hwf2.
  pose proof (removed_in m1 s e Hwf1 a node m2 HR) as Hlist2.
  assert (forall n, n ∈ node_list m2 <-> n ∈ node_list m) as Hlist.
  { intros n. rewrite Hlist2. split.
    - intros [Hn Hnn]. by destruct (ins_only _ _ _ _ _ _ _ _ _ HI n Hn).
    - intros Hn. split; [by apply (ins_others _ _ _ _ _ _ _ _ _ HI)|].
      intros ->. destruct Hsp as (_ & Hout & _). apply Hout. by right. }
  assert (forall n, n ∈ node_list m -> block_start m2 n = block_start m n /\
       node_size (get m2 n) = node_size (get m n)) as Hsame.
  { intros n Hn. pose proof Hn as [_ Hnn]%Hlist%Hlist2.
    destruct (removed_same m1 e a node m2 HR n Hnn) as (-> & _ & -> & _).
    by apply (ins_others _ _ _ _ _ _ _ _ _ HI). }
  exists m2. split; [done|]. split; [done|]. split; [done|]. split; [done|].
  intros st sz. unfold free_interval. split; intros (? & ? & Hf); (split_and!; [done..|]);
    intros n Hn; (assert (n ∈ node_list m) as Hnm by (first [done|by apply Hlist]));
    destruct (Hsame n Hnm) as [E1 E2]; specialize (Hf n ltac:(first [done|by apply Hlist]));
    rewrite (wf_block_end _ _ _ Hwf n Hnm) in *;
    rewrite (wf_block_end _ _ _ Hwf2 n ltac:(first [done|by apply Hlist])) in *; rewrite E1, E2 in *; done.
Qed.

(** ** Set-up, spare nodes *)

Lemma drm_mm_init_wf old s size :
  0 <= s -> 0 < size -> s + size < 2 ^ 64 ->
  mm_wf (drm_mm_init old s size) s (s + size) /\ color_adjust (drm_mm_init old s size) = None.
Proof.
  intros Hs Hsz He. split; [|done].
  assert (get (drm_mm_init old s size) HEAD = mk_node true false false false
    (scanned_preceeds_hole (from_option id zero_node (nodes old !! HEAD)))
    (allocated (from_option id zero_node (nodes old !! HEAD)))
    (node_color (from_option id zero_node (nodes old !! HEAD))) (s + size) (u64 (s - (s + size)))
    (scan_prev (from_option id zero_node (nodes old !! HEAD)))
    (scan_next (from_option id zero_node (nodes old !! HEAD)))) as HH.
  { unfold get. simpl. rewrite lookup_total_insert_eq. by rewrite (u64_small (s + size)) by lia. }
  assert (block_end (drm_mm_init old s size) HEAD = s) as Hend.
  { unfold block_end, hole_start_of. rewrite HH. simpl. unfold u64.
    rewrite Z.add_mod_idemp_r by lia. replace (s + size + (s - (s + size))) with s by lia.
    apply Z.mod_small. lia. }
  split; simpl; try done.
  - lia.
  - by rewrite HH.
  - apply NoDup_singleton.
  - intros n ->%list_elem_of_singleton. unfold live. simpl. rewrite lookup_insert_eq. eauto.
  - by intros n ?%elem_of_nil.
  - unfold node_ring. simpl. repeat split.
    + rewrite Hend. unfold block_start. rewrite HH. simpl. lia.
    + rewrite Hend. unfold block_start. rewrite HH. simpl. symmetry. apply Z.ltb_lt. lia.
  - apply NoDup_singleton.
  - intros n. rewrite list_elem_of_singleton. split; [intros ->; by rewrite HH|tauto].
  - split; [constructor|done].
  - by intros n ?%elem_of_nil.
Qed.

(** [drm_mm_put_block] keeps the invariant; the node goes to the cache or is freed. *)
Lemma put_block_run m s e node :
  mm_wf m s e -> node ∈ node_list m ->
  exists m', drm_mm_put_block m node = Some m' /\ mm_wf m' s e /\ color_adjust m' = color_adjust m /\
    (forall n, n ∈ node_list m' <-> n ∈ node_list m /\ n <> node) /\
    (num_unused m' = if num_unused m <? MM_UNUSED_TARGET then num_unused m + 1 else num_unused m) /\
    (num_unused m >= MM_UNUSED_TARGET -> ~ live m' node).
Proof.
  intros Hwf Hin. destruct (remove_node_run m s e Hwf node Hin) as (a & m1 & Ha & Hain & Hne & Hr & HR).
  pose proof (removed_wf m s e Hwf a node m1 Hin Ha Hne HR) as Hwf1.
  pose proof (removed_in m s e Hwf a node m1 HR) as Hlist.
  destruct (rem_params _ _ _ _ HR) as (Hu & Hnu & _ & Hca & Hlive).
  assert (node ∉ HEAD :: node_list m1) as Hout.
  { intros [->|Hx]%elem_of_cons; [by apply (remove_ne_head m s e Hwf HEAD)|]. by apply Hlist in Hx as [_ ?]. }
  assert (live m1 node) as Hlv by (apply Hlive, (wf_live _ _ _ Hwf); by right).
  assert (node ∉ unused_nodes m1) as Hnun.
  { rewrite Hu. intros Hx. destruct (wf_unused_off _ _ _ Hwf node Hx) as (_ & Ho & _). apply Ho. by right. }
  destruct (wf_block _ _ _ Hwf node Hin) as (_ & Hs1 & Hs2 & Hs3 & _).
  unfold drm_mm_put_block. rewrite Hr. simpl. rewrite Hnu.
  destruct (wf_unused _ _ _ Hwf1) as [Hundp Hunl].
  destruct (Z.ltb_spec (num_unused m) MM_UNUSED_TARGET) as [Hlt|Hge]; eexists; (split; [done|]).
  - split; [|split_and!; done || lia]. apply (wf_frame m1 s e); try done.
    + intros n Hn. split; [done|]. by apply (wf_live _ _ _ Hwf1).
    + simpl. split; [by apply NoDup_cons|]. rewrite <-Hnu, Hunl. lia.
    + simpl. intros n [->|Hn]%elem_of_cons; [|by apply (wf_unused_off _ _ _ Hwf1)].
      change (get _ node) with (get m1 node). rewrite (rem_node _ _ _ _ HR). done.
  - assert (forall n, n <> node -> get (with_nodes (delete node (nodes m1)) m1) n = get m1 n /\
        (live m1 n -> live (with_nodes (delete node (nodes m1)) m1) n)) as Hdel.
    { intros n Hn. unfold get, live. simpl. by rewrite lookup_total_delete_ne, lookup_delete_ne by done. }
    split; [|split_and!; try done].
    + apply (wf_frame m1 s e); try done.
      * intros n Hn. assert (n <> node) as Hnn by by intros ->.
        destruct (Hdel n Hnn) as [-> Hl]. split; [done|]. apply Hl. by apply (wf_live _ _ _ Hwf1).
      * simpl. intros n Hn. assert (n <> node) as Hnn by by intros ->.
        destruct (Hdel n Hnn) as [-> Hl]. destruct (wf_unused_off _ _ _ Hwf1 n Hn) as (? & ? & ?).
        split_and!; naive_solver.
    + intros _. unfold live. simpl. rewrite lookup_delete_eq. by intros [? ?].
Qed.

(** kzalloc only returns memory that is not in use. *)
Fixpoint fresh_allocs (m : drm_mm) (kzs : list (option nid)) : Prop :=
  match kzs with
  | [] => True
  | None :: kzs => fresh_allocs m kzs
  | Some n :: kzs => ~ live m n /\ fresh_allocs (with_nodes (<[n := zero_node]> (nodes m)) m) kzs
  end.

Lemma fresh_allocs_ext m m' kzs :
  (forall n, live m' n <-> live m n) -> fresh_allocs m kzs -> fresh_allocs m' kzs.
Proof.
  revert m m'. induction kzs as [|[n|] kzs IH]; intros m m' Hl; simpl; [done| |by apply IH].
  intros [Hn Hf]. split; [by rewrite Hl|]. apply (IH _ _) with (2 := Hf).
  intros k. unfold live in *. simpl. rewrite !lookup_insert_is_Some'. by rewrite Hl.
Qed.

(** Adding one fresh node to the cache. *)
Lemma grow_unused_wf m s e n :
  mm_wf m s e -> ~ live m n ->
  mm_wf (with_unused (unused_nodes m ++ [n]) (num_unused m + 1)
           (with_nodes (<[n := zero_node]> (nodes m)) m)) s e.
Proof.
  intros Hwf Hn. destruct (wf_unused _ _ _ Hwf) as [Hnd Hlen].
  assert (n ∉ HEAD :: node_list m) as Hout by (intros Hx; by apply Hn, (wf_live _ _ _ Hwf)).
  apply (wf_frame m s e); try done.
  - intros k Hk. assert (k <> n) by by intros ->. split.
    + erewrite get_insert by reflexivity. by rewrite decide_False.
    + unfold live. simpl. rewrite lookup_insert_is_Some'. right. by apply (wf_live _ _ _ Hwf).
  - simpl. split.
    + apply NoDup_app. split; [done|]. split; [|apply NoDup_singleton].
      intros k Hk ->%list_elem_of_singleton. by apply Hn, (wf_unused_off _ _ _ Hwf).
    + rewrite length_app, Hlen. simpl. lia.
  - simpl. intros k Hk. erewrite get_insert by reflexivity. unfold live. simpl.
    rewrite lookup_insert_is_Some'. apply elem_of_app in Hk as [Hk| ->%list_elem_of_singleton].
    + destruct (wf_unused_off _ _ _ Hwf k Hk) as (? & ? & ?).
      rewrite decide_False by by intros ->. split_and!; naive_solver.
    + rewrite decide_True by done. split_and!; try done. by left.
Qed.

Lemma pre_get_run m s e kzs :
  mm_wf m s e -> fresh_allocs m kzs -> (Z.to_nat (MM_UNUSED_TARGET - num_unused m) <= length kzs)%nat ->
  exists ret m', drm_mm_pre_get m kzs = Some (ret, m') /\ mm_wf m' s e /\
    node_list m' = node_list m /\ hole_stack m' = hole_stack m /\ color_adjust m' = color_adjust m /\
    num_unused m <= num_unused m' /\
    (num_unused m <= MM_UNUSED_TARGET -> num_unused m' <= MM_UNUSED_TARGET) /\
    ((ret = 0 /\ 2 <= num_unused m') \/ (ret = - ENOMEM /\ num_unused m' < 2)).
Proof.
  unfold MM_UNUSED_TARGET in *. revert m. induction kzs as [|[n|] kzs IH]; intros m Hwf Hf Hlen; simpl.
  - unfold MM_UNUSED_TARGET. simpl in Hlen. destruct (Z.ltb_spec (num_unused m) 4); [lia|].
    eexists _, _. split; [done|]. split_and!; try done; lia.
  - destruct Hf as [Hn Hf]. unfold MM_UNUSED_TARGET.
    destruct (Z.ltb_spec (num_unused m) 4) as [Hlt|Hge].
    + pose proof (grow_unused_wf m s e n Hwf Hn) as Hwf1.
      destruct (IH _ Hwf1) as (ret & m' & -> & Hwf' & Hl & Hh & Hc & Hnu & Hmax & Hret).
      * eapply fresh_allocs_ext; [|exact Hf]. done.
      * simpl in *. lia.
      * eexists _, _. split; [done|]. simpl in *. split_and!; try done; lia.
    + eexists _, _. split; [done|]. split_and!; try done; lia.
  - unfold MM_UNUSED_TARGET. destruct (Z.ltb_spec (num_unused m) 4) as [Hlt|Hge];
      eexists _, _; (split; [done|]); split_and!; try done; try lia.
    destruct (Z.ltb_spec (num_unused m) 2); [right|left]; done.
Qed.


(** Results that the loop does not ask for do not matter. *)
Lemma pre_get_app m kzs kzs' r : drm_mm_pre_get m kzs = Some r -> drm_mm_pre_get m (kzs ++ kzs') = Some r.
Proof.
  revert m. induction kzs as [|[n|] kzs IH]; intros m; simpl.
  - destruct (num_unused m <? MM_UNUSED_TARGET) eqn:E; [done|]. intros <-.
    destruct kzs' as [|[]]; simpl; by rewrite E.
  - destruct (num_unused m <? MM_UNUSED_TARGET); [apply IH|done].
  - done.
Qed.

Lemma fresh_allocs_app_none m kzs k : fresh_allocs m kzs -> fresh_allocs m (kzs ++ replicate k None).
Proof.
  revert m. induction kzs as [|[n|] kzs IH]; intros m; simpl.
  - intros _. induction k; done.
  - intros [? ?]. auto.
  - apply IH.
Qed.

(** ** All runs from a fresh manager *)

(** What the drivers do with a manager between scans.  [Supply] is the caller
    providing a cleared node, embedded in one of its own structures. *)
Inductive mm_step (e : Z) : drm_mm -> drm_mm -> Prop :=
| StepSupply m n : ~ live m n ->
    mm_step e m (with_nodes (<[n := zero_node]> (nodes m)) m)
| StepInsert m node size al color ret m' : spare m node -> sane e None size al ->
    drm_mm_insert_node_generic m node size al color = Some (ret, m') -> mm_step e m m'
| StepInsertRange m node size al color lo hi ret m' :
    spare m node -> sane e (Some (lo, hi)) size al ->
    drm_mm_insert_node_in_range_generic m node size al color lo hi = Some (ret, m') -> mm_step e m m'
| StepRemove m node m' : node ∈ node_list m ->
    drm_mm_remove_node m node = Some m' -> mm_step e m m'
| StepPut m node m' : node ∈ node_list m ->
    drm_mm_put_block m node = Some m' -> mm_step e m m'
| StepPreGet m kzs ret m' : fresh_allocs m kzs ->
    drm_mm_pre_get m kzs = Some (ret, m') -> mm_step e m m'.

Lemma supply_wf m s e n : mm_wf m s e -> ~ live m n ->
  mm_wf (with_nodes (<[n := zero_node]> (nodes m)) m) s e.
Proof.
  intros Hwf Hn. apply (wf_frame m s e); try done.
  - intros k Hk. assert (k <> n) by (intros ->; by apply Hn, (wf_live _ _ _ Hwf)). split.
    + rewrite get_with_nodes. by rewrite decide_False.
    + unfold live. simpl. rewrite lookup_insert_is_Some'. right. by apply (wf_live _ _ _ Hwf).
  - apply Hwf.
  - simpl. intros k Hk. destruct (wf_unused_off _ _ _ Hwf k Hk) as (Hl & ? & ?).
    assert (k <> n) by by intros ->. rewrite get_with_nodes, decide_False by done.
    split; [|naive_solver]. unfold live. simpl. rewrite lookup_insert_is_Some'. by right.
Qed.

Definition mm_inv (s e : Z) (m : drm_mm) : Prop :=
  mm_wf m s e /\ color_adjust m = None /\ num_unused m <= MM_UNUSED_TARGET.

Lemma insert_outcome_inv s e m r node size al color ret m' :
  mm_inv s e m -> insert_outcome m s e node size al color r (Some (ret, m')) -> mm_inv s e m'.
Proof.
  intros (Hwf & Hc & Hn) [(m1 & E & HI)|[E _]]; simplify_eq; [|done].
  destruct (ins_params _ _ _ _ _ _ _ _ _ HI) as (_ & Hnu & _ & Hca & _).
  split; [apply HI|]. by rewrite Hca, Hnu.
Qed.

(** Every step keeps the invariant. *)
Lemma mm_step_inv s e m m' : mm_step e m m' -> mm_inv s e m -> mm_inv s e m'.
Proof.
  intros Hstep Hinv. pose proof Hinv as (Hwf & Hc & Hn). pose proof (color_none_narrows _ Hc) as Hcol.
  destruct Hstep as [m n Hf|m node size al color ret m' Hsp Hsane Hr
    |m node size al color lo hi ret m' Hsp Hsane Hr|m node m' Hin Hr|m node m' Hin Hr|m kzs ret m' Hf Hr].
  - split; [by apply supply_wf|done].
  - apply (insert_outcome_inv s e m None node size al color ret m' Hinv). rewrite <-Hr.
    by apply insert_node_generic_outcome.
  - apply (insert_outcome_inv s e m (Some (lo, hi)) node size al color ret m' Hinv). rewrite <-Hr.
    by apply insert_node_in_range_outcome.
  - destruct (remove_node_run m s e Hwf node Hin) as (a & m1 & Ha & _ & Hne & Hr' & HR).
    rewrite Hr in Hr'. injection Hr' as <-.
    destruct (rem_params _ _ _ _ HR) as (_ & Hnu & _ & Hca & _).
    split; [by apply (removed_wf m s e Hwf a node)|]. by rewrite Hca, Hnu.
  - destruct (put_block_run m s e node Hwf Hin) as (m1 & Hr' & Hwf1 & Hca & _ & Hnu & _).
    rewrite Hr in Hr'. injection Hr' as <-. split; [done|]. rewrite Hca. split; [done|].
    rewrite Hnu. unfold MM_UNUSED_TARGET in *. destruct (Z.ltb_spec (num_unused m) 4); lia.
  - assert (drm_mm_pre_get m (kzs ++ replicate 4 None) = Some (ret, m')) as Hr2 by by apply pre_get_app.
    destruct (pre_get_run m s e (kzs ++ replicate 4 None) Hwf) as (ret' & m1 & Hr' & Hwf1 & _ & _ & Hca & _ & Hmax & _).
    + by apply fresh_allocs_app_none.
    + rewrite length_app, length_replicate. unfold MM_UNUSED_TARGET.
      destruct (wf_unused _ _ _ Hwf) as [_ ->]. lia.
    + rewrite Hr2 in Hr'. injection Hr' as -> <-. split; [done|]. rewrite Hca. auto.
Qed.

(** C18: in every state reachable from [drm_mm_init] by insertions, removals and
    cache refills, the allocated blocks lie in the managed range and no two of
    them overlap, and the cache never exceeds its target. *)
Theorem mm_reachable_disjoint old s size m :
  0 <= s -> 0 < size -> s + size < 2 ^ 64 ->
  rtc (mm_step (s + size)) (drm_mm_init old s size) m ->
  (forall a, a ∈ node_list m -> s <= block_start m a /\
     block_start m a + node_size (get m a) <= s + size /\ 0 < node_size (get m a)) /\
  (forall a b, a ∈ node_list m -> b ∈ node_list m -> a <> b ->
     block_start m a + node_size (get m a) <= block_start m b \/
     block_start m b + node_size (get m b) <= block_start m a) /\
  num_unused m <= MM_UNUSED_TARGET.
Proof.
  intros Hs Hsz He Hrtc.
  assert (mm_inv s (s + size) m) as (Hwf & _ & Hn).
  { destruct (drm_mm_init_wf old s size Hs Hsz He) as [Hwf Hc].
    assert (mm_inv s (s + size) (drm_mm_init old s size)) as Hi by (split_and!; done).
    clear Hwf Hc. induction Hrtc; [done|]. by eapply IHHrtc, mm_step_inv. }
  split; [|split; [|done]].
  - intros a Ha. destruct (wf_block _ _ _ Hwf a Ha) as (_ & _ & _ & _ & _ & ? & ?).
    split; [by apply (ring_start_ge m s (s + size))|]. done.
  - intros a b. by apply (ring_apart m s (s + size)).
Qed.

(** ** The debug table *)

Lemma debug_hole_run m s e n b : mm_wf m s e -> n ∈ HEAD :: node_list m -> next_node m n = Some b ->
  drm_mm_debug_hole m n = Some (block_start m b - block_end m n).
Proof.
  intros Hwf Hn Hb. destruct (next_node_ok m s e Hwf n Hn) as (b' & Hb' & [Hle Hf] & Hbin).
  assert (b' = b) as -> by congruence.
  unfold drm_mm_debug_hole. rewrite (live_get m n) by by apply (wf_live _ _ _ Hwf). simpl.
  pose proof (block_start_le m s e Hwf b Hbin). pose proof (block_end_ge m s e Hwf n Hn).
  pose proof (wf_range _ _ _ Hwf).
  destruct (hole_follows (get m n)) eqn:Hfl.
  - rewrite (hole_start_run m s e Hwf n) by by apply (wf_hole_iff _ _ _ Hwf). simpl.
    rewrite (hole_end_run m s e Hwf n b) by done. simpl. by rewrite u64_small by lia.
  - symmetry in Hf. apply Z.ltb_ge in Hf. f_equal. lia.
Qed.

(** One round of the walk: it never faults, and goes on at the next node of the ring. *)
Lemma debug_table_round fuel m s e n b used free : mm_wf m s e -> n ∈ HEAD :: node_list m -> next_node m n = Some b ->
  debug_table_loop (S fuel) m (Some n) used free =
  debug_table_loop fuel m (Some b) (u64 (used + node_size (get m n))) (u64 (free + (block_start m b - block_end m n))).
Proof.
  intros Hwf Hn Hb. simpl. rewrite (live_get m n) by by apply (wf_live _ _ _ Hwf). simpl.
  rewrite (debug_hole_run m s e n b) by done. simpl. by rewrite Hb.
Qed.

(** The walk over [l2], the nodes that are left, and then at the head of the ring. *)
Lemma debug_table_loop_run m s e l1 l2 used free b :
  mm_wf m s e -> node_list m = l1 ++ l2 -> hd_error (l2 ++ [HEAD]) = Some b ->
  0 <= used -> 0 <= free -> used + free = block_start m b - s ->
  exists u f, debug_table_loop (length l2) m (Some b) used free = Some (inr (HEAD, u, f)) /\
    0 <= u /\ 0 <= f /\ u + f = e - s.
Proof.
  intros Hwf. revert l1 used free b. induction l2 as [|n l2 IH]; intros l1 used free b Hl Hb Hu Hf Hsum.
  - simpl in Hb. injection Hb as <-. unfold block_start in Hsum. rewrite (proj1 (wf_head _ _ _ Hwf)) in Hsum.
    by exists used, free.
  - simpl in Hb. injection Hb as <-.
    assert (n ∈ node_list m) as Hn by (rewrite Hl; apply elem_of_app; right; by left).
    destruct (hd_snoc l2 HEAD) as (c & Hc & _).
    assert (next_node m n = Some c) as Hnext.
    { destruct (l2 ++ [HEAD]) as [|c' t] eqn:Ht; [done|]. simpl in Hc. injection Hc as ->.
      unfold next_node, node_ring. rewrite Hl.
      replace (HEAD :: (l1 ++ n :: l2) ++ [HEAD]) with ((HEAD :: l1) ++ n :: c :: t)
        by (rewrite <-Ht; simpl; by rewrite <-app_assoc).
      apply succ_in_app.
      pose proof (wf_nodup _ _ _ Hwf) as Hnd. rewrite Hl, app_comm_cons in Hnd.
      apply NoDup_app in Hnd as (_ & Hd & _). intros Hx. apply (Hd n Hx). by left. }
    destruct (next_node_ok m s e Hwf n) as (c' & Hc' & [Hle _] & Hcin); [by right|].
    assert (c' = c) as -> by congruence.
    pose proof (block_start_le m s e Hwf c Hcin). pose proof (wf_range _ _ _ Hwf).
    pose proof (wf_block_end _ _ _ Hwf n Hn). pose proof (ring_start_ge m s e Hwf n Hn).
    destruct (wf_block _ _ _ Hwf n Hn) as (_ & _ & _ & _ & _ & Hsz & _).
    simpl length. rewrite (debug_table_round _ m s e n c) by (done || by right). rewrite !u64_small by lia.
    apply (IH (l1 ++ [n]) _ _ c); [by rewrite <-app_assoc|done|lia..].
Qed.

(** What happens before the loop. *)
Lemma debug_table_start fuel m s e : mm_wf m s e -> exists b, next_node m HEAD = Some b /\ (b ∈ HEAD :: node_list m) /\
  s <= block_start m b <= e /\ drm_mm_debug_table fuel m =
    (r ← debug_table_loop fuel m (Some b) 0 (block_start m b - s);
     Some (match r with inl (used, free) => inl (u64 (free + used), used, free) | inr walk => inr walk end)).
Proof.
  intros Hwf. destruct (next_node_ok m s e Hwf HEAD) as (b & Hb & [Hle _] & Hbin); [by left|].
  rewrite (wf_head_end m s e Hwf) in Hle. pose proof (block_start_le m s e Hwf b Hbin). pose proof (wf_range _ _ _ Hwf).
  exists b. split; [done|]. split; [done|]. split; [lia|]. unfold drm_mm_debug_table.
  rewrite (debug_hole_run m s e HEAD b) by (done || by left). simpl. rewrite Hb, (wf_head_end m s e Hwf). simpl.
  change (0 + (block_start m b - s)) with (block_start m b - s). by rewrite u64_small by lia.
Qed.

(** After one round for every block the bytes that [drm_mm_debug_table] has counted as used
    and as free add up to the size of the managed range; the walk is then at the head. *)
Theorem debug_table_total m s e :
  mm_wf m s e ->
  exists used free, drm_mm_debug_table (length (node_list m)) m = Some (inr (HEAD, used, free)) /\
    0 <= used /\ 0 <= free /\ used + free = e - s.
Proof.
  intros Hwf. destruct (debug_table_start (length (node_list m)) m s e Hwf) as (b & Hb & Hbin & Hle & ->).
  assert (hd_error (node_list m ++ [HEAD]) = Some b) as Hhd.
  { unfold next_node, node_ring in Hb. destruct (node_list m ++ [HEAD]) as [|x l] eqn:Hl; [done|].
    rewrite (succ_in_app [] HEAD x l) in Hb by apply not_elem_of_nil. by injection Hb as ->. }
  destruct (debug_table_loop_run m s e [] (node_list m) 0 (block_start m b - s) b)
    as (u & f & -> & ?); try done; [lia..|]. by exists u, f.
Qed.

(** But the walk does not end there, or anywhere: the list head inside [head_node] has a
    [contain_ptr] too, and so it counts that node and starts again. *)
Theorem debug_table_never_ends m s e :
  mm_wf m s e -> forall fuel, exists entry used free, drm_mm_debug_table fuel m = Some (inr (entry, used, free)).
Proof.
  intros Hwf fuel. destruct (debug_table_start fuel m s e Hwf) as (b & _ & Hbin & _ & ->).
  generalize (block_start m b - s), 0. clear -Hwf Hbin. revert b Hbin.
  induction fuel as [|fuel IH]; intros b Hbin free used; [by exists b, used, free|].
  destruct (next_node_ok m s e Hwf b Hbin) as (c & Hc & _ & Hcin). rewrite (debug_table_round fuel m s e b c) by done.
  by apply IH.
Qed.

(** [drm_mm_clean] does not mean that nothing is allocated: it also holds
    while exactly one block is. *)
Theorem drm_mm_clean_iff m s e :
  mm_wf m s e -> drm_mm_clean m = true <-> (length (node_list m) <= 1)%nat.
Proof.
  intros Hwf. pose proof (wf_nodup _ _ _ Hwf) as Hnd. unfold drm_mm_clean, next_node, node_ring.
  destruct (node_list m) as [|a l].
  - split; [simpl; lia|done].
  - apply NoDup_cons in Hnd as [Hh _]. pose proof Hh as [Ha _]%not_elem_of_cons.
    simpl app. rewrite succ_in_hd.
    destruct l as [|b l]; simpl app.
    + rewrite succ_in_snd by congruence.
      rewrite bool_decide_eq_true. simpl. lia.
    + rewrite succ_in_snd by congruence.
      rewrite bool_decide_eq_true. simpl. split; [intros ->|lia].
      destruct Hh. set_solver.
Qed.
