(* ===== verification/MMScan.v ===== *)
(** * The range allocator of drm_mm.c: scanning for eviction

    [drm_mm_scan_add_block] takes blocks out of the ring provisionally until
    the hole they leave is large enough; [drm_mm_scan_remove_block] puts them
    back and says which of them to evict.  Adding blocks and removing them in
    the reverse order gives the manager back, up to the scratch fields of the
    scan; the blocks marked for eviction make room for the allocation that was
    scanned for. *)

From S2P Require Import Prelude MM MMInv MMAlloc MMFree.

(** ** Equality up to the scratch fields *)

Definition node_eqv (a b : drm_mm_node) : Prop :=
  hole_follows a = hole_follows b /\ scanned_block a = scanned_block b /\
  scanned_prev_free a = scanned_prev_free b /\ scanned_next_free a = scanned_next_free b /\
  allocated a = allocated b /\ node_color a = node_color b /\
  node_start a = node_start b /\ node_size a = node_size b /\
  (scanned_block a = true -> scan_prev a = scan_prev b /\
     scanned_preceeds_hole a = scanned_preceeds_hole b).

#[global] Instance node_eqv_equivalence : Equivalence node_eqv.
Proof.
  split.
  - intros a. unfold node_eqv. tauto.
  - intros a b (?&E&?&?&?&?&?&?&Hs). unfold node_eqv. rewrite <-E.
    split_and!; try done. intros H'. by destruct (Hs H').
  - intros a b c (?&E&?&?&?&?&?&?&Hs) (?&E'&?&?&?&?&?&?&Hs'). unfold node_eqv.
    split_and!; try congruence. intros H'. destruct (Hs H'). rewrite E in H'. destruct (Hs' H').
    split; congruence.
Qed.

Definition mm_eqv (m m' : drm_mm) : Prop :=
  node_list m = node_list m' /\ hole_stack m = hole_stack m' /\
  unused_nodes m = unused_nodes m' /\ num_unused m = num_unused m' /\
  scanned_blocks m = scanned_blocks m' /\ color_adjust m = color_adjust m' /\
  forall k, option_Forall2 node_eqv (nodes m !! k) (nodes m' !! k).

#[global] Instance mm_eqv_equivalence : Equivalence mm_eqv.
Proof.
  split.
  - intros m. unfold mm_eqv. split_and!; try done.
  - intros m m' (?&?&?&?&?&?&Hk). unfold mm_eqv. split_and!; done.
  - intros m1 m2 m3 (?&?&?&?&?&?&Hk) (?&?&?&?&?&?&Hk'). unfold mm_eqv.
    split_and!; try congruence. intros k. by transitivity (nodes m2 !! k).
Qed.

Lemma mm_eqv_get m m' k : mm_eqv m m' -> node_eqv (get m k) (get m' k).
Proof.
  intros (_&_&_&_&_&_&Hk). specialize (Hk k). unfold get. rewrite !lookup_total_alt.
  by destruct Hk.
Qed.

Lemma mm_eqv_live m m' k : mm_eqv m m' -> live m k <-> live m' k.
Proof.
  intros (_&_&_&_&_&_&Hk). specialize (Hk k). unfold live.
  destruct Hk; rewrite ?is_Some_alt; done.
Qed.

Lemma node_eqv_end a b : node_eqv a b -> hole_start_of a = hole_start_of b.
Proof. intros (_&_&_&_&_&_&E&E'&_). unfold hole_start_of. by rewrite E, E'. Qed.

Lemma mm_eqv_extent m m' k : mm_eqv m m' ->
  block_start m k = block_start m' k /\ block_end m k = block_end m' k.
Proof.
  intros Hm. pose proof (mm_eqv_get m m' k Hm) as Hk. split.
  - by destruct Hk as (_&_&_&_&_&_&E&_).
  - by apply node_eqv_end.
Qed.

(** The invariant does not depend on the scratch fields. *)
Lemma mm_wf_eqv m m' s e : mm_eqv m m' -> mm_wf m s e -> mm_wf m' s e.
Proof.
  intros Hm Hwf. pose proof Hm as (Hl & Hh & Hu & Hn & Hs & _ & _).
  assert (forall k, node_eqv (get m k) (get m' k)) as Hk by (intros; by apply mm_eqv_get).
  split.
  - apply Hwf.
  - destruct (Hk HEAD) as (_&_&_&_&_&_&<-&<-&_). apply Hwf.
  - rewrite <-Hl. apply Hwf.
  - intros n. rewrite <-Hl, <-(mm_eqv_live m m') by done. apply (wf_live _ _ _ Hwf).
  - intros n. rewrite <-Hl. intros Hin%(wf_block _ _ _ Hwf). revert Hin. unfold block_ok, block_start.
    destruct (Hk n) as (_&->&->&->&->&_&->&->&_). done.
  - unfold node_ring. rewrite <-Hl. apply (Chain_impl _ _ _ (wf_chain _ _ _ Hwf)).
    intros ? a b ? _ [Hle Hf]. unfold adjacent.
    destruct (mm_eqv_extent m m' a Hm) as [_ <-], (mm_eqv_extent m m' b Hm) as [<- _].
    destruct (Hk a) as (<-&_). done.
  - rewrite <-Hh. apply Hwf.
  - intros n. rewrite <-Hh, <-Hl. destruct (Hk n) as (<-&_). apply (wf_hole_iff _ _ _ Hwf).
  - rewrite <-Hu, <-Hn. apply Hwf.
  - intros n. rewrite <-Hu, <-Hl, <-(mm_eqv_live m m') by done.
    destruct (Hk n) as (_&<-&<-&<-&<-&_). apply (wf_unused_off _ _ _ Hwf).
  - rewrite <-Hs. apply Hwf.
Qed.

#[global] Instance mm_wf_proper : Proper (mm_eqv ==> eq ==> eq ==> iff) mm_wf.
Proof. intros m m' Hm s ? <- e ? <-. split; by apply mm_wf_eqv. Qed.

#[global] Instance free_interval_proper : Proper (mm_eqv ==> eq ==> eq ==> eq ==> eq ==> iff) free_interval.
Proof.
  intros m m' Hm s ? <- e ? <- st ? <- sz ? <-. unfold free_interval.
  pose proof Hm as (<- & _). split; (intros (? & ? & Hf); split_and!; [done..|]; intros n Hn;
    specialize (Hf n Hn); destruct (mm_eqv_extent m m' n Hm) as [E1 E2]; lia).
Qed.

(** ** One block *)

(** What a scan needs of the manager between two of its steps; [m0] is the
    manager the scan started from. *)
Record scan_ok (m0 m : drm_mm) : Prop := {
  so_nodup : NoDup (HEAD :: node_list m);
  so_live : forall n, n ∈ HEAD :: node_list m -> live m n;
  so_plain : forall n, n ∈ node_list m -> scanned_block (get m n) = false;
  so_count : 0 <= scanned_blocks m;
  so_extent : forall n, node_start (get m n) = node_start (get m0 n) /\
    node_size (get m n) = node_size (get m0 n);
  so_chain : Chain (fun x y => block_end m0 x <= block_start m0 y) (node_ring m);
  so_pos : forall n, n ∈ node_list m -> block_start m0 n <= block_end m0 n;
  so_sub : forall n, n ∈ node_list m -> n ∈ node_list m0 }.

Definition scan_range (m : drm_mm) : option (Z * Z) :=
  if scan_check_range m then Some (scan_start m, scan_end m) else None.

(** The state after [drm_mm_scan_add_block] of [n], the node between [p] and [b]. *)
Record scan_added (m : drm_mm) (n : nid) (l1 : list nid) (p : nid) (l2 : list nid) (b : nid)
    (r : Z) (m1 : drm_mm) : Prop := {
  ad_ring : HEAD :: node_list m = l1 ++ p :: n :: l2;
  ad_ring' : HEAD :: node_list m1 = l1 ++ p :: l2;
  ad_next : hd_error (l2 ++ [HEAD]) = Some b;
  ad_nodes : nodes m1 =
    <[n := set_scan_links (hole_follows (get m p)) p (prev_scanned_node m)
             (set_scanned true (get m n))]> (<[p := set_hole_follows true (get m p)]> (nodes m));
  ad_same : hole_stack m1 = hole_stack m /\ unused_nodes m1 = unused_nodes m /\
    num_unused m1 = num_unused m /\ color_adjust m1 = color_adjust m;
  ad_count : scanned_blocks m1 = u32 (scanned_blocks m + 1);
  ad_params : scan_range m1 = scan_range m /\ scan_size m1 = scan_size m /\
    scan_alignment m1 = scan_alignment m;
  ad_result : (r = 1 /\ scan_hit_start m1 = block_end m p /\ scan_hit_end m1 = block_start m b) \/
    (r = 0 /\ scan_hit_start m1 = scan_hit_start m /\ scan_hit_end m1 = scan_hit_end m);
  ad_check : color_adjust m = None -> (r =? 1) =
    check_free_hole (fst (clip (scan_range m) (block_end m p, block_start m b)))
      (snd (clip (scan_range m) (block_end m p, block_start m b)))
      (scan_size m) (scan_alignment m) }.

(** The place of a block in the ring. *)
Lemma ring_before (l : list nid) n : NoDup (HEAD :: l) -> n ∈ l ->
  exists l1 p l2 b, HEAD :: l = l1 ++ p :: n :: l2 /\ hd_error (l2 ++ [HEAD]) = Some b /\
    (p ∉ l1) /\ (n ∉ l1) /\ n <> p /\ (n ∉ l2) /\ (p ∉ l2) /\ n <> HEAD /\
    take_out l n = Some (tail (l1 ++ p :: l2)) /\ hd_error (l1 ++ p :: l2) = Some HEAD.
Proof.
  intros Hnd (q1 & q2 & -> & Hn1)%split_first.
  destruct (exists_last (l := HEAD :: q1)) as (A & p & HA); [done|].
  destruct (hd_snoc q2 HEAD) as (b & Hb & _).
  exists A, p, q2, b.
  assert (HEAD :: q1 ++ n :: q2 = A ++ p :: n :: q2) as E
    by (rewrite app_comm_cons, HA, <-app_assoc; done).
  rewrite E in Hnd. pose proof Hnd as (_ & Hd & Hnd')%NoDup_app.
  apply NoDup_cons in Hnd' as [Hp [Hn _]%NoDup_cons].
  apply not_elem_of_cons in Hp as [Hpn Hp2].
  assert (p ∉ A) by (intros Hx; apply (Hd p Hx); by left).
  assert (n ∉ A) by (intros Hx; apply (Hd n Hx); right; by left).
  assert (HEAD :: q1 ++ q2 = A ++ p :: q2) as E' by (rewrite app_comm_cons, HA, <-app_assoc; done).
  split_and!; try done.
  - intros ->. assert (HEAD ∈ A ++ [p]) as Hx by (rewrite <-HA; by left). set_solver.
  - rewrite take_out_app by done. by rewrite <-E'.
  - by rewrite <-E'.
Qed.

Lemma tail_hd (l : list nid) x : hd_error l = Some x -> x :: tail l = l.
Proof. destruct l; simpl; congruence. Qed.

Lemma u32_succ k : 0 <= k -> 0 <= u32 (k + 1).
Proof. intros. unfold u32. apply Z.mod_pos_bound. lia. Qed.

Lemma next_node_split m l1 p l2 b : HEAD :: node_list m = l1 ++ p :: l2 ->
  hd_error (l2 ++ [HEAD]) = Some b -> p ∉ l1 -> next_node m p = Some b.
Proof.
  intros Hl Hb Hp. unfold next_node, node_ring. rewrite app_comm_cons, Hl, <-app_assoc. simpl.
  destruct (l2 ++ [HEAD]) as [|c t]; [done|]. injection Hb as ->. by apply succ_in_app.
Qed.

Lemma prev_node_split m l1 p n l2 : HEAD :: node_list m = l1 ++ p :: n :: l2 ->
  n ∉ l1 -> n <> p -> n ∉ l2 -> n <> HEAD -> prev_node m n = Some p.
Proof.
  intros Hl Hn1 Hnp Hn2 Hh. unfold prev_node, node_ring. rewrite app_comm_cons, Hl, <-app_assoc. simpl.
  apply pred_in_app; [done|congruence|]. set_solver.
Qed.

(** The store of an updated state, without unfolding the update. *)
Ltac nodes_proj :=
  repeat match goal with
  | |- context [nodes (with_scanned ?k ?p ?x)] =>
      change (nodes (with_scanned k p x)) with (nodes x)
  | |- context [nodes (with_nodes ?ns ?x)] => change (nodes (with_nodes ns x)) with ns
  | |- context [nodes (with_node_list ?l ?x)] =>
      change (nodes (with_node_list l x)) with (nodes x)
  end.

Lemma scan_add_run m0 m n : scan_ok m0 m -> n ∈ node_list m ->
  exists r m1 l1 p l2 b, drm_mm_scan_add_block m n = Some (r, m1) /\
    (p ∉ l1) /\ n <> p /\ scan_added m n l1 p l2 b r m1.
Proof.
  intros Hok Hn. destruct (ring_before _ n (so_nodup _ _ Hok) Hn)
    as (l1 & p & l2 & b & Hl & Hb & Hp1 & Hn1 & Hnp & Hn2 & Hp2 & HnH & Htake & Hhd).
  assert (n ∈ HEAD :: node_list m) as Hnin by by right.
  assert (p ∈ HEAD :: node_list m) as Hpin by (rewrite Hl; set_solver).
  assert (b ∈ HEAD :: node_list m /\ b <> n) as [Hbin Hbn].
  { destruct (hd_snoc l2 HEAD) as (b' & Hb' & Hin). assert (b' = b) as -> by congruence.
    rewrite Hl. destruct Hin as [Hin| ->]; [split; [set_solver|by intros ->]|].
    split; [|done]. rewrite <-Hl. by left. }
  assert (live m n /\ live m p) as [Hln Hlp] by (split; by apply (so_live _ _ Hok)).
  unfold drm_mm_scan_add_block.
  change (nodes (with_scanned _ _ _)) with (nodes m).
  rewrite (live_get m n Hln). cbn [mbind option_bind].
  rewrite (so_plain _ _ Hok n Hn). cbn [mbind option_bind BUG_ON].
  rewrite (upd_node_eq _ n _ (get m n)) by apply (live_get m n Hln). cbn [mbind option_bind].
  match goal with |- context [prev_node ?x n] => change (prev_node x n) with (prev_node m n) end.
  rewrite (prev_node_split m l1 p n l2) by done. cbn [mbind option_bind].
  nodes_proj. rewrite lookup_insert_ne, (live_get m p Hlp) by done. cbn [mbind option_bind].
  rewrite (upd_node_eq _ p _ (get m p))
    by (nodes_proj; rewrite lookup_insert_ne by done; apply (live_get m p Hlp)).
  cbn [mbind option_bind]. unfold unlink_node.
  match goal with |- context [take_out (node_list ?x) n] =>
    change (node_list x) with (node_list m) end.
  rewrite Htake. cbn [mbind option_bind].
  rewrite (upd_node_eq _ n _ (set_scanned true (get m n)))
    by (nodes_proj; rewrite lookup_insert_ne by done; apply lookup_insert_eq).
  cbn [mbind option_bind]. nodes_proj.
  set (m1 := with_scanned _ (Some n) _).
  assert (HEAD :: node_list m1 = l1 ++ p :: l2) as Hl' by by apply tail_hd.
  assert (nodes m1 = <[n := set_scan_links (hole_follows (get m p)) p (prev_scanned_node m)
    (set_scanned true (get m n))]> (<[p := set_hole_follows true (get m p)]> (nodes m))) as Hnodes.
  { subst m1. simpl. rewrite (insert_insert_ne (nodes m)), insert_insert_eq by done. done. }
  assert (nodes m1 !! p = Some (set_hole_follows true (get m p))) as Hp.
  { rewrite Hnodes. rewrite lookup_insert_ne by done. by rewrite lookup_insert_eq. }
  assert (exists bd, nodes m1 !! b = Some bd /\ node_start bd = block_start m b) as (bd & Hbd & Hbs).
  { destruct (decide (b = p)) as [->|Hbp]; [by eexists|].
    rewrite Hnodes, !lookup_insert_ne, (live_get m b) by (done || by apply (so_live _ _ Hok)).
    by eexists. }
  assert (drm_mm_hole_node_start m1 p = Some (block_end m p)) as ->.
  { unfold drm_mm_hole_node_start, __drm_mm_hole_node_start. by rewrite !Hp. }
  assert (drm_mm_hole_node_end m1 p = Some (block_start m b)) as ->.
  { unfold drm_mm_hole_node_end, __drm_mm_hole_node_end.
    rewrite (next_node_split m1 l1 p l2 b) by done. cbn [mbind option_bind]. rewrite Hbd. by rewrite <-Hbs. }
  cbn [mbind option_bind].
  fold m1.   destruct (do_color_adjust _ _ _ _) as [as_ ae] eqn:Hadj.
  destruct (check_free_hole as_ ae (scan_size m1) (scan_alignment m1)) eqn:Hck.
  - exists 1, (with_hit (block_end m p) (block_start m b) m1), l1, p, l2, b.
    split; [done|]. split; [done|]. split; [done|]. split; try done; [by left|].
    intros Hc. unfold do_color_adjust in Hadj. simpl in Hadj. rewrite Hc in Hadj.
    change (1 =? 1) with true. rewrite <-Hck. unfold scan_range. destruct (scan_check_range m); simpl in *; by simplify_eq.
  - exists 0, m1, l1, p, l2, b.
    split; [done|]. split; [done|]. split; [done|]. split; try done; [by right|].
    intros Hc. unfold do_color_adjust in Hadj. simpl in Hadj. rewrite Hc in Hadj.
    change (0 =? 1) with false. rewrite <-Hck. unfold scan_range. destruct (scan_check_range m); simpl in *; by simplify_eq.
Qed.

(** Looking at a node of an equivalent state. *)
Lemma mm_eqv_lookup m m' k nd : mm_eqv m m' -> nodes m !! k = Some nd ->
  exists nd', nodes m' !! k = Some nd' /\ node_eqv nd nd'.
Proof.
  intros (_&_&_&_&_&_&Hk) E. specialize (Hk k). rewrite E in Hk.
  inversion Hk as [? nd' Hnd E1 E2|]. by exists nd'.
Qed.

Section Added.
Context (m0 m : drm_mm) (Hok : scan_ok m0 m) (n : nid) (Hn : n ∈ node_list m).
Context (l1 : list nid) (p : nid) (l2 : list nid) (b : nid) (r : Z) (m1 : drm_mm).
Context (Hp1 : p ∉ l1) (Hnp : n <> p) (HA : scan_added m n l1 p l2 b r m1).

Lemma added_facts : (n ∉ l1) /\ (n ∉ l2) /\ n <> HEAD /\ live m n /\ live m p /\ live m b /\
  b <> n /\ NoDup (HEAD :: node_list m1).
Proof.
  pose proof (so_nodup _ _ Hok) as Hnd. pose proof (ad_ring _ _ _ _ _ _ _ _ HA) as Hl.
  rewrite (ad_ring' _ _ _ _ _ _ _ _ HA).
  pose proof (so_live _ _ Hok) as Hlive. pose proof (ad_next _ _ _ _ _ _ _ _ HA) as Hb.
  assert (n <> HEAD) as HnH by by (intros ->; apply NoDup_cons in Hnd as [? _]).
  rewrite Hl in Hnd, Hlive. pose proof Hnd as (Hd1 & Hd & Hnd')%NoDup_app.
  apply NoDup_cons in Hnd' as [Hp [Hn2 Hd2]%NoDup_cons].
  assert (n ∉ l1) by (intros Hx; apply (Hd n Hx); right; by left).
  assert (b ∈ HEAD :: node_list m /\ b <> n) as [Hbin Hbn].
  { destruct (hd_snoc l2 HEAD) as (b' & Hb' & Hin). assert (b' = b) as -> by congruence.
    rewrite Hl. destruct Hin as [Hin| ->]; [split; [set_solver|by intros ->]|].
    split; [|done]. rewrite <-Hl. by left. }
  split_and!; try done.
  - apply Hlive. set_solver.
  - apply Hlive. set_solver.
  - apply Hlive. by rewrite <-Hl.
  - apply NoDup_app. split; [done|]. split; [intros x Hx; specialize (Hd x Hx); set_solver|].
    apply NoDup_cons. set_solver.
Qed.

Lemma added_get k : get m1 k =
  if decide (k = n) then set_scan_links (hole_follows (get m p)) p (prev_scanned_node m)
    (set_scanned true (get m n))
  else if decide (k = p) then set_hole_follows true (get m p) else get m k.
Proof.
  unfold get at 1. rewrite (ad_nodes _ _ _ _ _ _ _ _ HA).
  repeat case_decide; subst; rewrite ?lookup_total_insert_eq, ?lookup_total_insert_ne by done;
    rewrite ?lookup_total_insert_eq, ?lookup_total_insert_ne by done; done.
Qed.

Lemma added_in k : k ∈ HEAD :: node_list m1 <-> k ∈ HEAD :: node_list m /\ k <> n.
Proof.
  destruct added_facts as (Hn1 & Hn2 & _). rewrite (ad_ring _ _ _ _ _ _ _ _ HA), (ad_ring' _ _ _ _ _ _ _ _ HA).
  rewrite !elem_of_app, !elem_of_cons. split.
  - intros [?|[->|?]]; split; try tauto; congruence.
  - tauto.
Qed.

Lemma added_in' k : k ∈ node_list m1 <-> k ∈ node_list m /\ k <> n.
Proof.
  destruct added_facts as (_ & _ & HnH & _ & _ & _ & _ & [H1 _]%NoDup_cons).
  pose proof (so_nodup _ _ Hok) as [H0 _]%NoDup_cons.
  pose proof (added_in k) as E. rewrite !elem_of_cons in E.
  destruct (decide (k = HEAD)) as [->|]; [|tauto]. tauto.
Qed.

Lemma added_ok : scanned_blocks m + 1 < 2 ^ 32 -> scan_ok m0 m1.
Proof.
  intros Hcnt. destruct added_facts as (Hn1 & Hn2 & HnH & Hln & Hlp & _ & _ & Hnd).
  split.
  - done.
  - intros k [Hk Hkn]%added_in. unfold live. rewrite (ad_nodes _ _ _ _ _ _ _ _ HA).
    apply (so_live _ _ Hok) in Hk. rewrite !lookup_insert_is_Some'. tauto.
  - intros k [Hk Hkn]%added_in'. rewrite added_get, decide_False by done.
    case_decide as E; [|by apply (so_plain _ _ Hok)]. subst k. by apply (so_plain _ _ Hok) in Hk.
  - rewrite (ad_count _ _ _ _ _ _ _ _ HA). apply u32_succ, (so_count _ _ Hok).
  - intros k. rewrite added_get. destruct (so_extent _ _ Hok k) as [E1 E2].
    repeat case_decide; subst; done.
  - pose proof (so_chain _ _ Hok) as HC. unfold node_ring in *.
    rewrite app_comm_cons, (ad_ring' _ _ _ _ _ _ _ _ HA).
    rewrite app_comm_cons, (ad_ring _ _ _ _ _ _ _ _ HA) in HC. rewrite <-app_assoc in *. simpl in *.
    apply Chain_join in HC as (HC1 & Hpn & HC2).
    destruct (l2 ++ [HEAD]) as [|c t] eqn:Ht; [by destruct l2|].
    apply Chain_cons in HC2 as [Hnc HC2]. apply Chain_join. split_and!; try done.
    pose proof (so_pos _ _ Hok n Hn). simpl in *. lia.
  - intros k [Hk _]%added_in'. by apply (so_pos _ _ Hok).
  - intros k [Hk _]%added_in'. by apply (so_sub _ _ Hok).
Qed.

(** Removing the block again, with what followed the addition undone. *)
Lemma scan_remove_run m1' : mm_eqv m1 m1' -> scanned_blocks m + 1 < 2 ^ 32 ->
  exists m2, drm_mm_scan_remove_block m1' n =
      Some (Z.b2z ((block_start m b >? scan_hit_start m1') &&
                   (block_start m n <? scan_hit_end m1')), m2) /\
    mm_eqv m m2 /\ scan_hit_start m2 = scan_hit_start m1' /\ scan_hit_end m2 = scan_hit_end m1'.
Proof.
  intros He Hcnt. destruct added_facts as (Hn1 & Hn2 & HnH & Hln & Hlp & Hlb & Hbn & Hnd).
  pose proof (so_count _ _ Hok) as Hc0. pose proof (so_plain _ _ Hok n Hn) as Hpl.
  pose proof (ad_nodes _ _ _ _ _ _ _ _ HA) as Hnodes.
  eassert (nodes m1 !! n = Some _) as Hx by (rewrite Hnodes; apply lookup_insert_eq).
  eassert (nodes m1 !! p = Some _) as Hy
    by (rewrite Hnodes, lookup_insert_ne by done; apply lookup_insert_eq).
  destruct (mm_eqv_lookup m1 m1' n _ He Hx) as (nd & Hnd1 & Hne).
  destruct (mm_eqv_lookup m1 m1' p _ He Hy) as (pd & Hpd & Hpe).
  destruct Hne as (Ef & Es & E1 & E2 & Ea & Ec & Est & Esz & Elinks). simpl in *.
  destruct (Elinks eq_refl) as [Eprev Eph].
  destruct Hpe as (_ & Ps & P1 & P2 & Pa & Pc & Pst & Psz & Plinks). simpl in *.
  pose proof He as (HL & HH & HU & HNU & HSB & HCA & HK).
  destruct (ad_same _ _ _ _ _ _ _ _ HA) as (Sh & Su & Snu & Sca).
  pose proof (ad_ring' _ _ _ _ _ _ _ _ HA) as Hr1. rewrite HL in Hr1.
  unfold drm_mm_scan_remove_block. simpl. rewrite Hnd1. simpl. rewrite <-Es. simpl.
  rewrite (upd_node_eq _ n _ nd) by done. simpl. rewrite <-Eprev, <-Eph.
  rewrite (upd_node_eq _ p _ pd) by (simpl; by rewrite lookup_insert_ne). simpl.
  rewrite link_after_run by (simpl; rewrite Hr1; set_solver). cbn [mbind option_bind].
  match goal with |- context [node_list (with_nodes ?a ?x)] =>
    change (node_list (with_nodes a x)) with (node_list m1') end.
  rewrite Hr1, insert_after_app, <-(ad_ring _ _ _ _ _ _ _ _ HA) by done. cbn [tail].
  set (m2 := with_node_list (node_list m) _).
  assert (nodes m2 = <[p := set_hole_follows (hole_follows (get m p)) pd]>
    (<[n := set_scanned false nd]> (nodes m1'))) as Hnodes2 by done.
  assert (mm_eqv m m2) as He2.
  { unfold mm_eqv. subst m2. simpl. split_and!; try congruence.
    - rewrite <-HSB, (ad_count _ _ _ _ _ _ _ _ HA), !u32_small by (rewrite ?u32_small by lia; lia). lia.
    - intros k. destruct (decide (k = p)) as [->|Hkp].
      { rewrite lookup_insert_eq, (live_get m p) by done. constructor.
        unfold node_eqv. simpl. split_and!; done. }
      rewrite lookup_insert_ne by done. destruct (decide (k = n)) as [->|Hkn].
      { rewrite lookup_insert_eq, (live_get m n) by done. constructor.
        unfold node_eqv. simpl. rewrite Hpl. split_and!; done. }
      rewrite lookup_insert_ne by done. specialize (HK k).
      by rewrite Hnodes, !lookup_insert_ne in HK by done. }
  assert (drm_mm_hole_node_end m2 n = Some (block_start m b)) as ->.
  { unfold drm_mm_hole_node_end, __drm_mm_hole_node_end.
    rewrite (next_node_split m2 (l1 ++ [p]) n l2 b).
    - cbn [mbind option_bind]. destruct (mm_eqv_lookup m m2 b (get m b) He2) as (bd & Hbd & Hbe);
        [by apply live_get|]. rewrite Hbd. simpl. f_equal. by destruct Hbe as (_&_&_&_&_&_&E&_).
    - subst m2. simpl. by rewrite (ad_ring _ _ _ _ _ _ _ _ HA), <-app_assoc.
    - apply (ad_next _ _ _ _ _ _ _ _ HA).
    - set_solver. }
  cbn [mbind option_bind]. exists m2. split; [|done]. rewrite <-Est. done.
Qed.
End Added.

(** ** Whole scans *)

Lemma elem_of_rev_iff (l : list nid) x : x ∈ rev l <-> x ∈ l.
Proof. rewrite !list_elem_of_In. symmetry. apply in_rev. Qed.

(** Blocks are offered in turn until one completes a large enough hole; the
    result has the blocks offered, last one first. *)
Fixpoint scan_until (m : drm_mm) (ns unwind : list nid) : option (bool * list nid * drm_mm) :=
  match ns with
  | [] => Some (false, unwind, m)
  | n :: ns =>
      '(r, m) ← drm_mm_scan_add_block m n;
      if r =? 0 then scan_until m ns (n :: unwind) else Some (true, n :: unwind, m)
  end.

(** Blocks are taken off the scan in the order of the list, each with its verdict. *)
Fixpoint scan_unwind (m : drm_mm) (ns : list nid) : option (list (nid * Z) * drm_mm) :=
  match ns with
  | [] => Some ([], m)
  | n :: ns =>
      '(v, m) ← drm_mm_scan_remove_block m n;
      '(vs, m) ← scan_unwind m ns;
      Some ((n, v) :: vs, m)
  end.

Lemma scan_unwind_snoc m ns n :
  scan_unwind m (ns ++ [n]) =
  '(vs, m) ← scan_unwind m ns; '(v, m) ← drm_mm_scan_remove_block m n; Some (vs ++ [(n, v)], m).
Proof.
  revert m. induction ns as [|a ns IH]; intros m; simpl.
  - by destruct (drm_mm_scan_remove_block m n) as [[v mx]|].
  - destruct (drm_mm_scan_remove_block m a) as [[v mx]|]; [|done]. simpl. rewrite IH.
    destruct (scan_unwind mx ns) as [[vs my]|]; [|done]. simpl.
    by destruct (drm_mm_scan_remove_block my n) as [[w mz]|].
Qed.

(** The verdict on a block, from the hit recorded when the scan succeeded. *)
Definition verdict (m0 : drm_mm) (hs he : Z) (nv : nid * Z) : Prop :=
  exists b, block_end m0 nv.1 <= block_start m0 b /\
    nv.2 = Z.b2z ((block_start m0 b >? hs) && (block_start m0 nv.1 <? he)).

(** What a successful scan has found: room between two blocks that stay. *)
Record scan_hit (m0 : drm_mm) (mk : drm_mm) : Prop := {
  hit_between : exists p b, scan_hit_start mk = block_end m0 p /\ scan_hit_end mk = block_start m0 b /\
    p ∈ HEAD :: node_list m0 /\ b ∈ HEAD :: node_list m0;
  hit_order : scan_hit_start mk <= scan_hit_end mk;
  hit_clear : forall k, k ∈ node_list mk ->
    block_end m0 k <= scan_hit_start mk \/ scan_hit_end mk <= block_start m0 k;
  hit_room : color_adjust mk = None ->
    check_free_hole (fst (clip (scan_range mk) (scan_hit_start mk, scan_hit_end mk)))
      (snd (clip (scan_range mk) (scan_hit_start mk, scan_hit_end mk)))
      (scan_size mk) (scan_alignment mk) = true }.

Lemma scan_ok_extent m0 m k : scan_ok m0 m ->
  block_start m k = block_start m0 k /\ block_end m k = block_end m0 k.
Proof.
  intros Hok. destruct (so_extent _ _ Hok k) as [E1 E2].
  unfold block_start, block_end, hole_start_of. by rewrite E1, E2.
Qed.

(** The blocks that stay lie on the two sides of a gap of the ring. *)
Lemma ring_gap m0 m l1 p l2 b k : scan_ok m0 m -> HEAD :: node_list m = l1 ++ p :: l2 ->
  hd_error (l2 ++ [HEAD]) = Some b -> k ∈ node_list m ->
  block_end m0 k <= block_end m0 p \/ block_start m0 b <= block_start m0 k.
Proof.
  intros Hok Hl Hb Hk. pose proof (so_chain _ _ Hok) as HC. unfold node_ring in HC.
  rewrite app_comm_cons, Hl, <-app_assoc in HC. simpl in HC.
  assert (forall x y z, y ∈ node_list m -> block_end m0 x <= block_start m0 y ->
    block_end m0 y <= block_start m0 z -> block_end m0 x <= block_start m0 z) as Htr.
  { intros x y z Hy ? ?. pose proof (so_pos _ _ Hok y Hy). lia. }
  pose proof (so_nodup _ _ Hok) as Hnd. pose proof Hnd as [HH _]%NoDup_cons.
  assert (k ∈ HEAD :: node_list m) as Hk' by by right. rewrite Hl in Hk', Hnd.
  apply elem_of_app in Hk' as [Hk1|[->|Hk2]%elem_of_cons]; [|left; lia|].
  - left. destruct l1 as [|h l1]; [by apply elem_of_nil in Hk1|]. injection Hl as <- Hl.
    apply elem_of_cons in Hk1 as [->|Hk1]; [done|]. apply split_first in Hk1 as (q1 & q2 & -> & _).
    assert (block_end m0 k <= block_start m0 p) as Hle.
    { apply (Chain_trans (fun x y => block_end m0 x <= block_start m0 y)
        (HEAD :: q1) k q2 p (l2 ++ [HEAD])).
      - intros x y z Hy. apply Htr. rewrite Hl. set_solver.
      - simpl in *. by rewrite <-app_assoc in HC. }
    assert (p ∈ node_list m) as Hp by (rewrite Hl; set_solver).
    pose proof (so_pos _ _ Hok p Hp). lia.
  - right. destruct l2 as [|c l2]; [by apply elem_of_nil in Hk2|]. injection Hb as ->.
    apply elem_of_cons in Hk2 as [->|Hk2]; [lia|]. apply split_first in Hk2 as (q1 & q2 & -> & _).
    assert (forall y, y ∈ b :: q1 -> y ∈ node_list m) as Hin.
    { intros y Hy. destruct l1 as [|h l1]; injection Hl as <- Hl; rewrite Hl; set_solver. }
    pose proof (so_pos _ _ Hok b (Hin b (list_elem_of_here _ _))).
    assert (block_end m0 b <= block_start m0 k) as Hle; [|lia].
    apply (Chain_trans (fun x y => block_end m0 x <= block_start m0 y)
      (l1 ++ [p]) b q1 k (q2 ++ [HEAD])).
    + intros x y z Hy. apply Htr, Hin. by right.
    + rewrite <-app_assoc. simpl in *. by rewrite <-app_assoc in HC.
Qed.

Lemma scan_added_hit m0 m n l1 p l2 b m1 : scan_ok m0 m -> scan_ok m0 m1 ->
  scan_added m n l1 p l2 b 1 m1 -> scan_hit m0 m1.
Proof.
  intros Hok Hok1 HA. pose proof (ad_ring' _ _ _ _ _ _ _ _ HA) as Hr. pose proof (ad_next _ _ _ _ _ _ _ _ HA) as Hb.
  destruct (ad_result _ _ _ _ _ _ _ _ HA) as [(_ & Hs & He)|[? _]]; [|done].
  destruct (scan_ok_extent m0 m p Hok) as [_ Ep], (scan_ok_extent m0 m b Hok) as [Eb _].
  split.
  - exists p, b. rewrite Hs, He. split; [done|]. split; [done|].
    assert (forall k, k ∈ HEAD :: node_list m1 -> k ∈ HEAD :: node_list m0) as Hsub.
    { intros k [->|Hk%(so_sub _ _ Hok1)]%elem_of_cons; [by left|by right]. }
    split; apply Hsub; [rewrite Hr; set_solver|].
    destruct (hd_snoc l2 HEAD) as (b' & Hb' & Hin). assert (b' = b) as -> by congruence.
    destruct Hin as [Hin| ->]; [rewrite Hr; set_solver|by left].
  - rewrite Hs, He, Ep, Eb. pose proof (so_chain _ _ Hok1) as HC. unfold node_ring in HC.
    rewrite app_comm_cons, Hr, <-app_assoc in HC. simpl in HC.
    destruct (l2 ++ [HEAD]) as [|c t]; [done|]. injection Hb as ->.
    by apply Chain_join in HC as (_ & HC & _).
  - intros k Hk. rewrite Hs, He, Ep, Eb. by apply (ring_gap m0 m1 l1 p l2).
  - intros Hc. destruct (ad_params _ _ _ _ _ _ _ _ HA) as (-> & -> & ->).
    destruct (ad_same _ _ _ _ _ _ _ _ HA) as (_ & _ & _ & Hca). rewrite Hs, He.
    rewrite <-(ad_check _ _ _ _ _ _ _ _ HA); [done|congruence].
Qed.

Definition same_scan (m m' : drm_mm) : Prop :=
  color_adjust m' = color_adjust m /\ scan_range m' = scan_range m /\
  scan_size m' = scan_size m /\ scan_alignment m' = scan_alignment m.

(** Taking the blocks off again, last one first, from any equivalent state. *)
Definition unwinds (m0 m mk : drm_mm) (off : list nid) : Prop :=
  forall mk', mm_eqv mk mk' ->
  exists vs m', scan_unwind mk' (rev off) = Some (vs, m') /\ mm_eqv m m' /\
    scan_hit_start m' = scan_hit_start mk' /\ scan_hit_end m' = scan_hit_end mk' /\
    vs.*1 = rev off /\ Forall (verdict m0 (scan_hit_start mk') (scan_hit_end mk')) vs.

Lemma unwinds_cons m0 m n l1 p l2 b r m1 mk off :
  scan_ok m0 m -> n ∈ node_list m -> (p ∉ l1) -> n <> p -> scan_added m n l1 p l2 b r m1 ->
  scanned_blocks m + 1 < 2 ^ 32 -> unwinds m0 m1 mk off -> unwinds m0 m mk (n :: off).
Proof.
  intros Hok Hn Hp1 Hnp HA Hcnt Hun mk' He.
  destruct (Hun mk' He) as (vs & m1' & Hrun & He1 & Hh1 & Hh2 & Hfst & Hvs).
  destruct (scan_remove_run m0 m Hok n Hn l1 p l2 b r m1 Hp1 Hnp HA m1' He1 Hcnt)
    as (m' & Hrm & He' & Hs1 & Hs2).
  simpl. rewrite scan_unwind_snoc, Hrun. simpl. rewrite Hrm. simpl.
  eexists _, m'. split; [done|]. split; [done|]. split; [congruence|]. split; [congruence|].
  split; [by rewrite fmap_app, Hfst|]. apply Forall_app. split; [done|]. apply Forall_singleton.
  destruct (scan_ok_extent m0 m n Hok) as [En _], (scan_ok_extent m0 m b Hok) as [Eb _].
  exists b. simpl. rewrite En, Eb, Hh1, Hh2. split; [|done].
  pose proof (so_chain _ _ Hok) as HC. unfold node_ring in HC.
  rewrite app_comm_cons, (ad_ring _ _ _ _ _ _ _ _ HA), <-app_assoc in HC. simpl in HC.
  pose proof (ad_next _ _ _ _ _ _ _ _ HA) as Hb. destruct (l2 ++ [HEAD]) as [|c t]; [done|].
  injection Hb as ->. apply Chain_join in HC as (_ & _ & HC). by apply Chain_cons in HC as [? _].
Qed.

Lemma scan_until_run m0 ns : forall m u,
  scan_ok m0 m -> NoDup ns -> (forall n, n ∈ ns -> n ∈ node_list m) ->
  scanned_blocks m + Z.of_nat (length ns) < 2 ^ 32 ->
  exists found off rest mk, ns = off ++ rest /\
    scan_until m ns u = Some (found, rev off ++ u, mk) /\ scan_ok m0 mk /\
    (forall k, k ∈ node_list mk <-> k ∈ node_list m /\ (k ∉ off)) /\ same_scan m mk /\
    (if found : bool then scan_hit m0 mk
     else rest = [] /\ scan_hit_start mk = scan_hit_start m /\ scan_hit_end mk = scan_hit_end m) /\
    unwinds m0 m mk off.
Proof.
  induction ns as [|n ns IH]; intros m u Hok Hnd Hin Hcnt.
  - exists false, [], [], m. split; [done|]. split; [done|]. split; [done|].
    split; [intros k; rewrite elem_of_nil; tauto|]. split; [done|]. split; [done|].
    intros mk' He. exists [], mk'. split; [done|]. by rewrite Forall_nil.
  - apply NoDup_cons in Hnd as [Hnn Hnd]. cbn [length] in Hcnt.
    assert (n ∈ node_list m) as Hn by (apply Hin; by left).
    destruct (scan_add_run m0 m n Hok Hn) as (r & m1 & l1 & p & l2 & b & Hrun & Hp1 & Hnp & HA).
    assert (scanned_blocks m + 1 < 2 ^ 32) as Hc1 by lia.
    pose proof (added_ok m0 m Hok n Hn l1 p l2 b r m1 Hp1 Hnp HA Hc1) as Hok1.
    pose proof (added_in' m0 m Hok n Hn l1 p l2 b r m1 Hp1 Hnp HA) as Hin1.
    destruct (ad_same _ _ _ _ _ _ _ _ HA) as (_ & _ & _ & Hca).
    destruct (ad_params _ _ _ _ _ _ _ _ HA) as (Hr1 & Hr2 & Hr3).
    cbn [scan_until]. rewrite Hrun. cbn [mbind option_bind].
    destruct (Z.eqb_spec r 0) as [->|Hr].
    + destruct (IH m1 (n :: u) Hok1 Hnd) as (found & off & rest & mk & -> & Hs & Hokk & Hk & Hsame & Hf & Hun).
      { intros k Hk. apply Hin1. split; [apply Hin; by right|]. by intros ->. }
      { pose proof (so_count _ _ Hok). rewrite (ad_count _ _ _ _ _ _ _ _ HA), u32_small by lia. lia. }
      exists found, (n :: off), rest, mk. split; [done|]. split; [simpl; by rewrite <-app_assoc|].
      split; [done|]. split.
      { intros k. rewrite Hk, Hin1, not_elem_of_cons. tauto. }
      split. { destruct Hsame as (? & ? & ? & ?). split_and!; congruence. }
      split.
      { destruct found; [done|]. destruct Hf as (-> & -> & ->).
        destruct (ad_result _ _ _ _ _ _ _ _ HA) as [[? _]|(_ & -> & ->)]; done. }
      by apply (unwinds_cons m0 m n l1 p l2 b 0 m1).
    + destruct (ad_result _ _ _ _ _ _ _ _ HA) as [[-> _]|[? _]]; [|done].
      exists true, [n], ns, m1. split; [done|]. split; [done|]. split; [done|].
      split; [intros k; rewrite Hin1, list_elem_of_singleton; tauto|]. split; [done|].
      split; [by apply (scan_added_hit m0 m n l1 p l2 b)|].
      apply (unwinds_cons m0 m n l1 p l2 b 1 m1); try done.
      intros mk' He. exists [], mk'. split; [done|]. by rewrite Forall_nil.
Qed.

(** ** Scans of a well-formed manager *)

Definition scan_params (m : drm_mm) (size al color : Z) (r : option (Z * Z)) : drm_mm :=
  match r with
  | None => drm_mm_init_scan m size al color
  | Some (st, en) => drm_mm_init_scan_with_range m size al color st en
  end.

Lemma scan_params_same m size al color r :
  let m' := scan_params m size al color r in
  scan_range m' = r /\ scan_size m' = size /\ scan_alignment m' = al /\
  color_adjust m' = color_adjust m /\ scan_hit_start m' = 0 /\ scan_hit_end m' = 0.
Proof. by destruct r as [[st en]|]. Qed.

Lemma scan_params_eqv m s e size al color r :
  mm_wf m s e -> mm_eqv m (scan_params m size al color r).
Proof.
  intros Hwf. pose proof (wf_idle _ _ _ Hwf).
  destruct r as [[st en]|]; unfold mm_eqv; simpl; split_and!; done.
Qed.

Lemma scan_start_ok m s e size al color r :
  mm_wf m s e -> scan_ok m (scan_params m size al color r).
Proof.
  intros Hwf. set (m' := scan_params _ _ _ _ _).
  assert (nodes m' = nodes m /\ node_list m' = node_list m /\ scanned_blocks m' = 0) as (En & El & Es)
    by (subst m'; by destruct r as [[st en]|]).
  assert (forall k, get m' k = get m k) as Eg by (intros k; unfold get; by rewrite En).
  split.
  - rewrite El. apply Hwf.
  - intros n. rewrite El. unfold live. rewrite En. apply (wf_live _ _ _ Hwf).
  - intros n. rewrite El, Eg. intros Hn. by destruct (wf_block _ _ _ Hwf n Hn) as (_ & ? & _).
  - by rewrite Es.
  - intros n. by rewrite Eg.
  - unfold node_ring. rewrite El. apply (Chain_impl _ _ _ (wf_chain _ _ _ Hwf)).
    by intros ? ? ? ? _ [? _].
  - intros n. rewrite El. intros Hn. rewrite (wf_block_end _ _ _ Hwf n Hn).
    destruct (wf_block _ _ _ Hwf n Hn) as (_ & _ & _ & _ & _ & ? & _). lia.
  - by rewrite El.
Qed.

(** ** Evicting the selected blocks *)

Lemma put_block_others m m1 m' node k :
  drm_mm_remove_node m node = Some m1 -> drm_mm_put_block m node = Some m' -> k <> node ->
  get m' k = get m1 k /\ (live m1 k -> live m' k) /\ (k ∈ unused_nodes m' -> k ∈ unused_nodes m1).
Proof.
  intros Hr Hp Hk. unfold drm_mm_put_block in Hp. rewrite Hr in Hp. simpl in Hp.
  destruct (_ <? _); injection Hp as <-.
  - split; [done|]. split; [done|]. simpl. by intros [->|?]%elem_of_cons.
  - unfold get, live. simpl. by rewrite lookup_total_delete_ne, lookup_delete_ne by done.
Qed.

(** Freeing a block makes no node. *)
Lemma put_block_live m s e n m' x : mm_wf m s e -> n ∈ node_list m -> drm_mm_put_block m n = Some m' -> live m' x -> live m x.
Proof.
  intros Hwf Hin Hp Hx. destruct (remove_node_run m s e Hwf n Hin) as (a & m1 & _ & _ & _ & Hr & HR).
  destruct (rem_params _ _ _ _ HR) as (_ & _ & _ & _ & Hlive). apply Hlive.
  unfold drm_mm_put_block in Hp. rewrite Hr in Hp. simpl in Hp. destruct (_ <? _); injection Hp as <-; [done|].
  unfold live in *. simpl in Hx. destruct (decide (x = n)) as [->|Hne]; [rewrite lookup_delete_eq in Hx; by destruct Hx|].
  by rewrite lookup_delete_ne in Hx.
Qed.

(** Freeing a block leaves the other blocks and the spare nodes alone. *)
Lemma put_block_keeps m s e n : mm_wf m s e -> n ∈ node_list m ->
  exists m', drm_mm_put_block m n = Some m' /\ mm_wf m' s e /\ color_adjust m' = color_adjust m /\
    (forall x, spare m x -> spare m' x) /\ (forall k, k ∈ node_list m' <-> k ∈ node_list m /\ k <> n) /\
    (forall k, k ∈ node_list m' -> block_start m' k = block_start m k /\ node_size (get m' k) = node_size (get m k)).
Proof.
  intros Hwf Hin. destruct (put_block_run m s e n Hwf Hin) as (m' & Hp & Hwf' & Hca & Hlist & _).
  destruct (remove_node_run m s e Hwf n Hin) as (a & m1 & Ha & Hain & Hne & Hr & HR).
  destruct (rem_params _ _ _ _ HR) as (Hu & _ & _ & _ & Hlive).
  exists m'. split; [done|]. split; [done|]. split; [done|]. split; [|split; [done|]].
  - intros x (Hxl & Hxr & Hxu & Hxf).
    assert (x <> n) as Hxn by (intros ->; apply Hxr; by right). assert (x <> a) as Hxa by by intros ->.
    destruct (put_block_others m m1 m' n x Hr Hp Hxn) as (Hg & Hl & Hun).
    unfold spare. rewrite Hg, (rem_other _ _ _ _ HR) by done. split_and!; try apply Hxf.
    + by apply Hl, Hlive.
    + intros [->|Hx]%elem_of_cons; [apply Hxr; by left|]. apply Hlist in Hx as [Hx _].
      apply Hxr. by right.
    + intros Hx%Hun. by rewrite Hu in Hx.
  - intros k [Hk Hkn]%Hlist. destruct (put_block_others m m1 m' n k Hr Hp Hkn) as (Hg & _).
    destruct (removed_same m e a n m1 HR k Hkn) as (E1 & _ & E2 & _).
    unfold block_start in *. by rewrite Hg.
Qed.

(** The end of a block follows from its start and size. *)
Lemma same_block_end m m' k : block_start m' k = block_start m k -> node_size (get m' k) = node_size (get m k) ->
  block_end m' k = block_end m k.
Proof. unfold block_start, block_end, hole_start_of. by intros -> ->. Qed.

Fixpoint put_blocks (m : drm_mm) (ns : list nid) : option drm_mm :=
  match ns with [] => Some m | n :: ns => m ← drm_mm_put_block m n; put_blocks m ns end.

Lemma put_blocks_run s e ns : forall m,
  mm_wf m s e -> NoDup ns -> (forall n, n ∈ ns -> n ∈ node_list m) ->
  exists m', put_blocks m ns = Some m' /\ mm_wf m' s e /\ color_adjust m' = color_adjust m /\
    (forall x, spare m x -> spare m' x) /\ (forall k, k ∈ node_list m' <-> k ∈ node_list m /\ (k ∉ ns)) /\
    (forall k, k ∈ node_list m' -> block_start m' k = block_start m k /\ node_size (get m' k) = node_size (get m k)).
Proof.
  induction ns as [|n ns IH]; intros m Hwf Hnd Hin.
  - exists m. split; [done|]. split_and!; try done. intros k. rewrite elem_of_nil. tauto.
  - apply NoDup_cons in Hnd as [Hn Hnd].
    destruct (put_block_keeps m s e n Hwf) as (m1 & Hp & Hwf1 & Hca1 & Hx1 & Hl1 & He1);
      [apply Hin; by left|].
    destruct (IH m1 Hwf1 Hnd) as (m' & Hps & Hwf' & Hca & Hx' & Hl & He).
    { intros k Hk. apply Hl1. split; [apply Hin; by right|]. by intros ->. }
    exists m'. simpl. rewrite Hp. simpl. split; [done|]. split; [done|]. split; [congruence|].
    split; [auto|]. split.
    + intros k. rewrite Hl, Hl1, not_elem_of_cons. tauto.
    + intros k Hk. destruct (He k Hk) as [-> ->]. apply He1. by apply Hl in Hk as [? _].
Qed.

Lemma spare_eqv m m' x : mm_eqv m m' -> spare m x -> spare m' x.
Proof.
  intros Hm. pose proof Hm as (Hl & _ & Hu & _). unfold spare.
  rewrite <-(mm_eqv_live m m'), <-Hl, <-Hu by done.
  destruct (mm_eqv_get m m' x Hm) as (_&->&->&->&->&_). done.
Qed.

Definition insert_any (m : drm_mm) (node : nid) (size al color : Z) (r : option (Z * Z)) :=
  match r with
  | None => drm_mm_insert_node_generic m node size al color
  | Some (st, en) => drm_mm_insert_node_in_range_generic m node size al color st en
  end.

Lemma insert_any_complete m s e node size al color r st :
  mm_wf m s e -> color_adjust m = None -> spare m node -> sane e r size al ->
  (al <> 0 -> (al | st)) ->
  match r with None => True | Some (lo, hi) => lo <= st /\ st + size <= hi end ->
  free_interval m s e st size ->
  exists m', insert_any m node size al color r = Some (0, m') /\ inserted m s e r node size al color m'.
Proof.
  intros Hwf Hnc Hsp Hsane Hal Hr Hfree. pose proof (color_none_narrows _ Hnc) as Hcol.
  assert (insert_outcome m s e node size al color r (insert_any m node size al color r)) as Hout.
  { destruct r as [[lo hi]|].
    - by apply insert_node_in_range_outcome.
    - by apply insert_node_generic_outcome. }
  destruct Hout as [?|[E Hno]]; [done|].
  by destruct (enospc_no_room m s e node size al color r _ st Hwf Hnc Hsane (or_intror (conj E Hno)) E Hal Hr).
Qed.

(** The room a successful scan has found, clear of every block but those to evict. *)
Lemma scan_hit_free m s e mk size al r :
  mm_wf m s e -> sane e r size al -> color_adjust mk = None -> scan_range mk = r ->
  scan_size mk = size -> scan_alignment mk = al -> scan_hit m mk ->
  exists st, (al <> 0 -> (al | st)) /\ scan_hit_start mk <= st /\ st + size <= scan_hit_end mk /\
    match r with None => True | Some (lo, hi) => lo <= st /\ st + size <= hi end /\
    s <= st /\ st + size <= e.
Proof.
  intros Hwf (Hsz & Hal & He & Hr) Hnc Er <- <- Hhit.
  destruct (hit_between _ _ Hhit) as (p & b & Ep & Eb & Hp & Hb).
  pose proof (hit_room _ _ Hhit Hnc) as Hroom. rewrite Er in Hroom.
  pose proof (block_end_ge m s e Hwf p Hp). pose proof (block_start_le m s e Hwf b Hb).
  pose proof (wf_range _ _ _ Hwf).
  assert (0 <= block_end m p <= e /\ 0 <= block_start m b) as [Hpe Hb0].
  { split.
    - destruct (next_node_ok m s e Hwf p Hp) as (c & _ & [Hle _] & Hc).
      pose proof (block_start_le m s e Hwf c Hc). lia.
    - apply elem_of_cons in Hb as [->|Hb]; [unfold block_start; rewrite (proj1 (wf_head _ _ _ Hwf)); lia|].
      by destruct (wf_block _ _ _ Hwf b Hb) as (_ & _ & _ & _ & ? & _). }
  rewrite <-Ep, <-Eb in *.
  destruct (clip_spec r (scan_hit_start mk) (scan_hit_end mk)) as (Hc1 & Hc2 & Hc3).
  destruct (clip r _) as [a' b']. simpl in *.
  exists (align_start a' (scan_alignment mk)).
  destruct r as [[lo hi]|].
  - destruct Hr as (Hlo & Hhi & Hmax).
    rewrite check_free_hole_spec in Hroom by (try lia; right; lia). apply Z.leb_le in Hroom.
    destruct (align_start_spec a' (scan_alignment mk)) as ([? _] & Hdiv & _); [lia..|].
    split; [done|]. lia.
  - injection Hc3 as -> ->. pose proof (hit_order _ _ Hhit) as Hle.
    rewrite check_free_hole_spec in Hroom by (try lia; left; lia). apply Z.leb_le in Hroom.
    destruct (align_start_spec (scan_hit_start mk) (scan_alignment mk)) as ([? _] & Hdiv & _); [lia..|].
    split; [done|]. lia.
Qed.

(** The blocks on the unwind list were offered. *)
Lemma scan_until_sub m ns : forall u found unwind mk, scan_until m ns u = Some (found, unwind, mk) ->
  forall n, n ∈ unwind -> n ∈ u \/ n ∈ ns.
Proof.
  revert m. induction ns as [|a ns IH]; intros m u found unwind mk; simpl.
  - intros [= _ <- _]. by left.
  - destruct (drm_mm_scan_add_block m a) as [[r m']|]; [|done]. simpl. destruct (r =? 0).
    + intros Hrun n Hn. destruct (IH _ _ _ _ _ Hrun n Hn) as [[->|?]%elem_of_cons|?]; [right; by left|by left|right; by right].
    + intros [= _ <- _] n [->|?]%elem_of_cons; [right; by left|by left].
Qed.

(** The block that completed the hole is always marked: a successful scan evicts something. *)
Lemma scan_marks_one m0 ns : forall m u n unwind mk,
  scan_ok m0 m -> NoDup ns -> (forall n, n ∈ ns -> n ∈ node_list m) ->
  scanned_blocks m + Z.of_nat (length ns) < 2 ^ 32 ->
  (forall k, k ∈ node_list m0 -> block_start m0 k < block_end m0 k) ->
  scan_until m ns u = Some (true, n :: unwind, mk) ->
  exists m', drm_mm_scan_remove_block mk n = Some (1, m').
Proof.
  induction ns as [|a ns IH]; intros m u n unwind mk Hok Hnd Hin Hcnt Hpos Hrun; [done|].
  apply NoDup_cons in Hnd as [Han Hnd]. cbn [length] in Hcnt.
  assert (a ∈ node_list m) as Ha by (apply Hin; by left).
  destruct (scan_add_run m0 m a Hok Ha) as (r & m1 & l1 & p & l2 & b & Hadd & Hp1 & Hap & HA).
  assert (scanned_blocks m + 1 < 2 ^ 32) as Hc1 by lia.
  pose proof (added_ok m0 m Hok a Ha l1 p l2 b r m1 Hp1 Hap HA Hc1) as Hok1.
  pose proof (added_in' m0 m Hok a Ha l1 p l2 b r m1 Hp1 Hap HA) as Hin1.
  cbn [scan_until] in Hrun. rewrite Hadd in Hrun. cbn [mbind option_bind] in Hrun.
  destruct (Z.eqb_spec r 0) as [->|Hr].
  - apply (IH m1 (a :: u) n unwind mk); try done.
    + intros k Hk. apply Hin1. split; [apply Hin; by right|]. by intros ->.
    + pose proof (so_count _ _ Hok). rewrite (ad_count _ _ _ _ _ _ _ _ HA), u32_small by lia. lia.
  - injection Hrun as -> _ <-. destruct (ad_result _ _ _ _ _ _ _ _ HA) as [(-> & Hs & He)|[? _]]; [|done].
    destruct (scan_remove_run m0 m Hok n Ha l1 p l2 b 1 m1 Hp1 Hap HA m1 ltac:(reflexivity) Hc1) as (m' & Hrm & _).
    exists m'. rewrite Hrm, Hs, He. f_equal. f_equal.
    destruct (scan_ok_extent m0 m n Hok) as [En En'], (scan_ok_extent m0 m b Hok) as [Eb _],
      (scan_ok_extent m0 m p Hok) as [_ Ep].
    pose proof (so_chain _ _ Hok) as HC. unfold node_ring in HC.
    rewrite app_comm_cons, (ad_ring _ _ _ _ _ _ _ _ HA), <-app_assoc in HC. simpl in HC.
    pose proof (ad_next _ _ _ _ _ _ _ _ HA) as Hb. destruct (l2 ++ [HEAD]) as [|c t]; [done|].
    injection Hb as ->. apply Chain_join in HC as (_ & Hpn & HC). apply Chain_cons in HC as [Hnb _].
    pose proof (Hpos n (so_sub _ _ Hok n Ha)). rewrite En, Eb, Ep.
    assert ((block_start m0 b >? block_end m0 p) = true) as -> by (apply Z.gtb_lt; lia).
    assert ((block_start m0 n <? block_start m0 b) = true) as -> by (apply Z.ltb_lt; lia). done.
Qed.

(** a scan leaves no trace.  Any distinct allocated blocks may be offered
    to it; taking them off again in the reverse order succeeds and gives back
    the manager, up to the scratch fields of the scan.  When no hole was found
    no block is marked for eviction. *)
Theorem scan_restores m s e ns size al color r :
  mm_wf m s e -> NoDup ns -> (forall n, n ∈ ns -> n ∈ node_list m) ->
  Z.of_nat (length ns) < 2 ^ 32 ->
  exists found unwind mk vs m',
    scan_until (scan_params m size al color r) ns [] = Some (found, unwind, mk) /\
    scan_unwind mk unwind = Some (vs, m') /\ mm_eqv m m' /\ mm_wf m' s e /\ vs.*1 = unwind /\
    (found = false -> forall nv, nv ∈ vs -> nv.2 = 0).
Proof.
  intros Hwf Hnd Hin Hlen. pose proof (scan_start_ok m s e size al color r Hwf) as Hok.
  pose proof (scan_params_eqv m s e size al color r Hwf) as Heq.
  assert (node_list (scan_params m size al color r) = node_list m) as El by by destruct Heq as [-> _].
  destruct (scan_until_run m ns _ [] Hok Hnd) as (found & off & rest & mk & Hns & Hrun & Hokk & _ & _ & Hf & Hun).
  { by rewrite El. }
  { destruct Heq as (_ & _ & _ & _ & <- & _). by rewrite (wf_idle _ _ _ Hwf). }
  destruct (Hun mk) as (vs & m' & Hu & He & _ & _ & Hfst & Hvs); [reflexivity|].
  exists found, (rev off), mk, vs, m'. rewrite app_nil_r in Hrun.
  assert (mm_eqv m m') as Hmm by by transitivity (scan_params m size al color r).
  split; [done|]. split; [done|]. split; [done|]. split; [by rewrite <-Hmm|]. split; [done|].
  intros -> [n v] Hnv. destruct Hf as (_ & Hs & He').
  destruct (scan_params_same m size al color r) as (_ & _ & _ & _ & Hs0 & He0).
  rewrite Forall_forall in Hvs. destruct (Hvs _ Hnv) as (b & _ & Hv). simpl in *.
  rewrite Hs, He', Hs0, He0 in Hv. rewrite Hv.
  assert (n ∈ node_list m) as Hn.
  { apply Hin. rewrite Hns. apply elem_of_app. left. rewrite <-elem_of_rev_iff, <-Hfst.
    apply list_elem_of_fmap. by exists (n, v). }
  destruct (wf_block _ _ _ Hwf n Hn) as (_ & _ & _ & _ & H0 & _).
  assert ((block_start m n <? 0) = false) as -> by (apply Z.ltb_ge; lia).
  by rewrite andb_false_r.
Qed.

(** A successful scan makes room: a place that was scanned for is free in any manager
    that has lost the marked blocks, and moved no other. *)
Lemma scan_frees m s e ns size al color r unwind mk :
  mm_wf m s e -> color_adjust m = None -> sane e r size al ->
  NoDup ns -> (forall n, n ∈ ns -> n ∈ node_list m) -> Z.of_nat (length ns) < 2 ^ 32 ->
  scan_until (scan_params m size al color r) ns [] = Some (true, unwind, mk) ->
  exists vs m1 st, scan_unwind mk unwind = Some (vs, m1) /\ vs.*1 = unwind /\ mm_eqv m m1 /\
    (al <> 0 -> (al | st)) /\ match r with None => True | Some (lo, hi) => lo <= st /\ st + size <= hi end /\
    forall m2, (forall k, k ∈ node_list m2 -> k ∈ node_list m /\ ((k, 1) ∉ vs) /\
        block_start m2 k = block_start m k /\ node_size (get m2 k) = node_size (get m k)) ->
      free_interval m2 s e st size.
Proof.
  intros Hwf Hnc Hsane Hnd Hin Hlen Hrun. pose proof (scan_start_ok m s e size al color r Hwf) as Hok.
  pose proof (scan_params_eqv m s e size al color r Hwf) as Heq.
  destruct (scan_params_same m size al color r) as (P1 & P2 & P3 & P4 & _).
  assert (node_list (scan_params m size al color r) = node_list m) as El by by destruct Heq as [-> _].
  destruct (scan_until_run m ns _ [] Hok Hnd) as (found & off & rest & mk' & Hns & Hrun' & Hokk & Hk & Hsame & Hf & Hun).
  { by rewrite El. }
  { destruct Heq as (_ & _ & _ & _ & <- & _). by rewrite (wf_idle _ _ _ Hwf). }
  rewrite app_nil_r in Hrun'. assert (found = true /\ rev off = unwind /\ mk' = mk) as (-> & <- & ->)
    by (split_and!; congruence).
  destruct Hsame as (S1 & S2 & S3 & S4). rewrite P1, P2, P3, P4 in *.
  destruct (Hun mk) as (vs & m1 & Hu & He & _ & _ & Hfst & Hvs); [reflexivity|].
  assert (mm_eqv m m1) as Hmm by by transitivity (scan_params m size al color r).
  destruct (scan_hit_free m s e mk size al r Hwf Hsane) as (st & Hal & Hst & Hen & Hclip & Hs & He'); try done.
  { congruence. }
  exists vs, m1, st. split_and!; try done. intros m2 Hm2. split; [done|]. split; [done|]. intros k Hk2.
  destruct (Hm2 k Hk2) as (Hkm & Hke & E1 & E2). rewrite (same_block_end m m2 k E1 E2), E1.
  destruct (decide (k ∈ off)) as [Hko|Hko].
  - rewrite <-elem_of_rev_iff, <-Hfst in Hko. apply list_elem_of_fmap in Hko as ([k' v] & Ek & Hkv).
    simpl in Ek. subst k'. rewrite Forall_forall in Hvs.
    destruct (Hvs _ Hkv) as (b & Hb & Hv). simpl in *.
    destruct (Z.gtb_spec (block_start m b) (scan_hit_start mk)) as [Hgt|Hgt]; [|left; lia].
    destruct (Z.ltb_spec (block_start m k) (scan_hit_end mk)) as [Hlt|Hge]; [|right; lia].
    simpl in Hv. by subst v.
  - assert (k ∈ node_list mk) as Hkk by (apply Hk; by rewrite El).
    destruct (hit_clear _ _ Hf k Hkk); lia.
Qed.

(** a successful scan makes room.  Once the blocks it marked are freed, in
    any order, the allocation that was scanned for succeeds; no other block is
    lost. *)
Theorem scan_makes_room m s e ns size al color r node unwind mk evict :
  mm_wf m s e -> color_adjust m = None -> sane e r size al -> spare m node ->
  NoDup ns -> (forall n, n ∈ ns -> n ∈ node_list m) -> Z.of_nat (length ns) < 2 ^ 32 ->
  scan_until (scan_params m size al color r) ns [] = Some (true, unwind, mk) ->
  exists vs m1, scan_unwind mk unwind = Some (vs, m1) /\
    (NoDup evict -> (forall n, n ∈ evict <-> (n, 1) ∈ vs) ->
     exists m2 m3, put_blocks m1 evict = Some m2 /\
       insert_any m2 node size al color r = Some (0, m3) /\
       inserted m2 s e r node size al color m3 /\
       (forall k, k ∈ node_list m2 <-> k ∈ node_list m /\ (k ∉ evict))).
Proof.
  intros Hwf Hnc Hsane Hsp Hnd Hin Hlen Hrun.
  destruct (scan_frees m s e ns size al color r unwind mk) as (vs & m1 & st & Hu & Hfst & Hmm & Hal & Hclip & Hfree); try done.
  exists vs, m1. split; [done|]. intros Hnde Hev.
  destruct (put_blocks_run s e evict m1) as (m2 & Hp & Hwf2 & Hca2 & Hsp2 & Hl2 & He2).
  { by rewrite <-Hmm. }
  { done. }
  { intros n Hn%Hev. destruct Hmm as [<- _]. apply Hin.
    destruct (scan_until_sub _ _ _ _ _ _ Hrun n) as [?%elem_of_nil|?]; [|done|done].
    rewrite <-Hfst. apply list_elem_of_fmap. by exists (n, 1). }
  destruct (insert_any_complete m2 s e node size al color r st) as (m3 & Hins & HI); try done.
  { rewrite Hca2. destruct Hmm as (_ & _ & _ & _ & _ & <- & _). done. }
  { apply Hsp2. by apply (spare_eqv m). }
  { apply Hfree. intros k Hk2. destruct (He2 k Hk2) as [-> ->]. apply Hl2 in Hk2 as [Hk1 Hke].
    destruct (mm_eqv_get m m1 k Hmm) as (_&_&_&_&_&_&Es&Ez&_). unfold block_start.
    destruct Hmm as [-> _]. split_and!; try done. by rewrite <-Hev. }
  exists m2, m3. split_and!; try done. intros k. rewrite Hl2. by destruct Hmm as [-> _].
Qed.
