(* ===== verification/MMBlocks.v ===== *)
(** * The range allocator of drm_mm.c: blocks found first and allocated later

    The two-step interface: a search that returns a hole, then
    [drm_mm_get_block] in that hole with a node from kzalloc or from the spare
    cache; [drm_mm_create_block] at a given place; and [drm_mm_takedown]. *)

From S2P Require Import Prelude MM MMInv MMAlloc MMFree.

(** ** Nodes from kzalloc or the cache *)

(** kzalloc returns memory that is not in use. *)
Definition fresh_kz (m : drm_mm) (kz : option nid) : Prop := forall n, kz = Some n -> ~ live m n.

(** [m'] is [m] with a cleared node [n] taken from kzalloc or the cache. *)
Record supplied (m : drm_mm) (s e : Z) (n : nid) (m' : drm_mm) : Prop := {
  sup_wf : mm_wf m' s e;
  sup_spare : spare m' n;
  sup_list : node_list m' = node_list m;
  sup_holes : hole_stack m' = hole_stack m;
  sup_color : color_adjust m' = color_adjust m;
  sup_get : forall k, k ∈ HEAD :: node_list m -> get m' k = get m k }.

Lemma kmalloc_run m s e kz : mm_wf m s e -> fresh_kz m kz ->
  match drm_mm_kmalloc m kz with
  | (None, m') => m' = m /\ kz = None /\ unused_nodes m = []
  | (Some n, m') => supplied m s e n m'
  end.
Proof.
  intros Hwf Hf. destruct kz as [n|]; simpl.
  - assert (~ live m n) as Hn by by apply Hf.
    assert (n ∉ HEAD :: node_list m) as Hout by (intros Hx; by apply Hn, (wf_live _ _ _ Hwf)).
    split; try done; [by apply supply_wf| |].
    + unfold spare. rewrite get_with_nodes, decide_True by done. split_and!; try done.
      * unfold live. simpl. rewrite lookup_insert_eq. by eexists.
      * intros Hx. by destruct (wf_unused_off _ _ _ Hwf n Hx).
    + intros k Hk. rewrite get_with_nodes, decide_False; [done|]. by intros ->.
  - destruct (unused_nodes m) as [|n rest] eqn:Hu; [done|].
    pose proof (wf_unused _ _ _ Hwf) as [Hnd Hnum]. rewrite Hu in Hnd, Hnum.
    apply NoDup_cons in Hnd as [Hnr Hnd].
    assert (n ∈ unused_nodes m) as Hin by (rewrite Hu; by left).
    destruct (wf_unused_off _ _ _ Hwf n Hin) as (Hl & Hout & Hrest).
    split; try done.
    apply (wf_frame m s e); try done.
    + intros k Hk. split; [done|]. by apply (wf_live _ _ _ Hwf).
    + simpl. split; [done|]. simpl in Hnum. lia.
    + simpl. intros k Hk. apply (wf_unused_off _ _ _ Hwf). rewrite Hu. by right.
Qed.

Section Supplied.
Context (m : drm_mm) (s e : Z) (Hwf : mm_wf m s e) (n : nid) (m' : drm_mm).
Context (HS : supplied m s e n m').

Lemma supplied_extent k : k ∈ HEAD :: node_list m ->
  block_start m' k = block_start m k /\ block_end m' k = block_end m k.
Proof. intros Hk. unfold block_start, block_end. by rewrite (sup_get _ _ _ _ _ HS). Qed.

Lemma supplied_next k : next_node m' k = next_node m k.
Proof. unfold next_node, node_ring. by rewrite (sup_list _ _ _ _ _ HS). Qed.

Lemma supplied_free st sz : free_interval m' s e st sz <-> free_interval m s e st sz.
Proof.
  unfold free_interval. rewrite (sup_list _ _ _ _ _ HS).
  split; intros (? & ? & Hf); split_and!; try done; intros k Hk; specialize (Hf k Hk);
    (destruct (supplied_extent k) as [E1 E2]; [by right|lia]).
Qed.

Lemma supplied_fits r size al color h b : color_adjust m = None ->
  h ∈ hole_stack m -> next_node m h = Some b ->
  fits_at m' r size al color h b = fits_at m r size al color h b.
Proof.
  intros Hc Hh Hb. destruct (hole_next m s e Hwf h Hh) as (b' & Hb' & Hbin & Hin & _).
  assert (b' = b) as -> by congruence.
  destruct (supplied_extent h Hin) as [_ Eh], (supplied_extent b Hbin) as [Eb _].
  unfold fits_at, window, do_color_adjust. by rewrite (sup_color _ _ _ _ _ HS), Hc, Eh, Eb.
Qed.
End Supplied.

(** ** Search, then allocate *)

Lemma search_result_fits m s e size al color r best h fits :
  mm_wf m s e ->
  (forall h b, h ∈ hole_stack m -> next_node m h = Some b ->
     fits h = Some (fits_at m r size al color h b)) ->
  search_holes m fits best (hole_stack m) None (2 ^ 64 - 1) = Some (Some h) ->
  exists b, h ∈ hole_stack m /\ next_node m h = Some b /\ fits_at m r size al color h b = true.
Proof.
  intros Hwf Hf Hs.
  assert (forall h, h ∈ hole_stack m -> is_Some (fits h)) as Hsome.
  { intros h' Hh'. destruct (hole_next m s e Hwf h' Hh') as (b & Hb & _). rewrite (Hf h' b Hh' Hb). eauto. }
  assert (h ∈ hole_stack m /\ fits h = Some true) as [Hh Hfit].
  { destruct best.
    - destruct (search_best m fits (hole_stack m) None (2 ^ 64 - 1)) as (r' & Hr' & Hr & _).
      + done.
      + intros h' Hh'. apply (wf_live _ _ _ Hwf). by apply (wf_hole_iff _ _ _ Hwf).
      + assert (r' = Some h) as -> by congruence. by destruct Hr as [(? & ? & _)|?].
    - destruct (search_first m fits (hole_stack m) (2 ^ 64 - 1)) as (r' & Hr' & Hr); [done|].
      assert (r' = Some h) as -> by congruence. done. }
  destruct (hole_next m s e Hwf h Hh) as (b & Hb & _). exists b. split; [done|]. split; [done|].
  rewrite (Hf h b Hh Hb) in Hfit. congruence.
Qed.

(** a hole returned by either search, first fit or best match, can be
    allocated from.  [drm_mm_get_block] in that hole gives an aligned block
    where no block was, or no block when kzalloc fails and the cache is empty,
    the manager being unchanged then. *)
Theorem search_then_get_block m s e size al best h kz :
  mm_wf m s e -> color_adjust m = None -> sane e None size al -> fresh_kz m kz ->
  drm_mm_search_free m size al best = Some (Some h) ->
  exists res m', drm_mm_get_block m h size al kz = Some (res, m') /\
    match res with
    | None => m' = m /\ kz = None /\ unused_nodes m = []
    | Some node => exists m1, supplied m s e node m1 /\ inserted m1 s e None node size al 0 m' /\
        free_interval m s e (block_start m' node) size
    end.
Proof.
  intros Hwf Hc Hsane Hf Hs. unfold drm_mm_search_free, drm_mm_search_free_generic in Hs.
  rewrite (wf_idle _ _ _ Hwf) in Hs. cbn -[search_holes] in Hs.
  destruct (search_result_fits m s e size al 0 None best h (hole_fits m size al 0) Hwf) as (b & Hh & Hb & Hfit).
  { intros. by apply (hole_fits_run m s e). }
  { done. }
  pose proof (kmalloc_run m s e kz Hwf Hf) as Hk.
  unfold drm_mm_get_block, drm_mm_get_block_generic.
  destruct (drm_mm_kmalloc m kz) as [[node|] m1]; [|by exists None, m1].
  pose proof (sup_wf _ _ _ _ _ Hk) as Hwf1. pose proof (sup_spare _ _ _ _ _ Hk) as Hsp1.
  assert (color_narrows m1) as Hcol1 by (apply color_none_narrows; by rewrite (sup_color _ _ _ _ _ Hk)).
  assert (h ∈ hole_stack m1) as Hh1 by by rewrite (sup_holes _ _ _ _ _ Hk).
  assert (next_node m1 h = Some b) as Hb1 by by rewrite (supplied_next m s e node m1 Hk).
  assert (fits_at m1 None size al 0 h b = true) as Hfit1
    by by rewrite (supplied_fits m s e Hwf node m1 Hk).
  destruct (window m1 None 0 h b) as [a' b'] eqn:Hw.
  destruct (insert_helper_run m1 s e Hwf1 Hcol1 node Hsp1 size al 0 h b a' b' Hsane Hh1 Hb1 Hw Hfit1)
    as (m' & -> & HP). simpl.
  assert (inserted m1 s e None node size al 0 m') as HI by by apply (placed_inserted m1 s e None h b node size al 0 a' b').
  exists (Some node), m'. split; [done|]. exists m1. split; [done|]. split; [done|].
  apply (supplied_free m s e node m1 Hk). apply (ins_was_free _ _ _ _ _ _ _ _ _ HI).
Qed.

(** ** Blocks at a given place *)

(** The tail of [drm_mm_create_block], in the hole that contains the place. *)
Lemma create_in_hole_run m s e hole b node start size hole_start hole_end :
  mm_wf m s e -> spare m node -> hole ∈ hole_stack m -> next_node m hole = Some b ->
  hole_start = block_end m hole -> hole_end = block_start m b ->
  hole_start <= start -> 0 < size -> start + size <= hole_end ->
  exists m', (m ← upd_node node (fun n => set_allocated true (set_extent start size n)) m;
    m ← link_after hole node m;
    m ← (if start =? hole_start
         then m ← upd_node hole (set_hole_follows false) m; unlink_hole hole m
         else Some m);
    m ← upd_node node (set_hole_follows false) m;
    m ← (if negb (u64 (start + size) =? hole_end)
         then upd_node node (set_hole_follows true) (push_hole node m)
         else Some m);
    Some (Some node, m)) = Some (Some node, m') /\
  placed m hole node size (node_color (get m node)) start hole_end m'.
Proof.
  intros Hwf (Hlive & Hout & Hun & _) Hh Hb Ehs Ehe Hst Hsz Hend.
  destruct (hole_next m s e Hwf hole Hh) as (b' & Hb' & _ & Hin & Hbb & Hbe).
  assert (b' = b) as -> by congruence. pose proof (wf_range _ _ _ Hwf).
  assert (node <> hole) as Hne by by intros ->.
  assert (live m hole) as Hlh by by apply (wf_live _ _ _ Hwf).
  rewrite (upd_node_run m node) by done. cbn [mbind option_bind].
  rewrite link_after_run by done. cbn [mbind option_bind]. rewrite u64_small by lia.
  set (m1 := with_node_list _ _).
  assert (nodes m1 = <[node := set_allocated true (set_extent start size (get m node))]> (nodes m)
    /\ hole_stack m1 = hole_stack m /\ same_params m m1 /\
    node_list m1 = tail (insert_after (HEAD :: node_list m) hole node)) as (Hn1 & Hs1 & Hp1 & Hl1).
  { split; [done|]. split; [done|]. split; [|done].
    unfold same_params. repeat (split; [done|]). intros k. by apply (live_insert m k node). }
  clearbody m1.
  assert (exists m2 hs, (if start =? hole_start
      then m ← upd_node hole (set_hole_follows false) m1; unlink_hole hole m else Some m1) = Some m2 /\
    nodes m2 !! node = Some (set_allocated true (set_extent start size (get m node))) /\
    get m2 hole = (if start =? hole_start then set_hole_follows false (get m hole) else get m hole) /\
    (forall k, k <> node -> k <> hole -> nodes m2 !! k = nodes m !! k) /\ is_Some (nodes m2 !! hole) /\
    node_list m2 = node_list m1 /\ hole_stack m2 = hs /\
    (if start =? hole_start then take_out (hole_stack m) hole = Some hs else hs = hole_stack m) /\
    unused_nodes m2 = unused_nodes m1 /\ num_unused m2 = num_unused m1 /\
    scanned_blocks m2 = scanned_blocks m1 /\ color_adjust m2 = color_adjust m1) as
    (m2 & hs & -> & Hnode2 & Hhole2 & Hoth2 & Hsome2 & Hl2 & Hs2 & Hhs & Hu2 & Hnu2 & Hsc2 & Hca2).
  { destruct (start =? hole_start).
    - destruct (take_out_is_Some _ _ Hh) as [hs Hhs].
      rewrite (upd_node_eq m1 hole _ (get m hole)) by (rewrite Hn1, lookup_insert_ne, live_get by done; done).
      cbn [mbind option_bind]. unfold unlink_hole.
      change (hole_stack (with_nodes ?a m1)) with (hole_stack m1). rewrite Hs1, Hhs.
      eexists _, hs. split; [done|]. split; [simpl; by rewrite Hn1, lookup_insert_ne, lookup_insert_eq|].
      split; [unfold get; simpl; by rewrite lookup_total_insert_eq|].
      split; [intros k ? ?; simpl; by rewrite Hn1, !lookup_insert_ne|].
      split; [simpl; rewrite lookup_insert_eq; by eexists|]. done.
    - exists m1, (hole_stack m). split; [done|]. split; [by rewrite Hn1, lookup_insert_eq|].
      split; [unfold get; by rewrite Hn1, lookup_total_insert_ne|].
      split; [intros k ? ?; by rewrite Hn1, lookup_insert_ne|].
      split; [by rewrite Hn1, lookup_insert_ne|]. done. }
  cbn [mbind option_bind]. rewrite (upd_node_eq m2 node _ _ Hnode2). cbn [mbind option_bind].
  destruct Hp1 as (P1 & P2 & P3 & P4 & Plive).
  assert (forall nd k, is_Some (<[node := nd]> (nodes m2) !! k) <-> live m k) as Hlv.
  { intros nd k. rewrite lookup_insert_is_Some'. unfold live.
    destruct (decide (k = node)) as [->|Hk1]; [split; [done|by left]|].
    destruct (decide (k = hole)) as [->|Hk2]; [split; [done|by right]|].
    rewrite Hoth2 by done. split; [by intros [?|?]|by right]. }
  assert ((negb (start + size =? hole_end)) = (start + size <? hole_end)) as ->.
  { destruct (Z.eqb_spec (start + size) hole_end), (Z.ltb_spec (start + size) hole_end); done || lia. }
  destruct (start + size <? hole_end) eqn:Hlt.
  - rewrite (upd_node_eq _ node _ (set_hole_follows false
      (set_allocated true (set_extent start size (get m node))))) by (simpl; apply lookup_insert_eq).
    cbn [mbind option_bind]. eexists. split; [done|]. split; simpl; rewrite <-?Ehs, ?insert_insert_eq.
    + by rewrite Hl2, Hl1.
    + unfold get. simpl. rewrite lookup_total_insert_eq. unfold placed_node. by rewrite Hlt.
    + unfold get. simpl. by rewrite lookup_total_insert_ne.
    + intros k Hk1 Hk2. unfold get. simpl. rewrite ?insert_insert_eq, lookup_total_insert_ne by done.
      rewrite !lookup_total_alt. by rewrite Hoth2.
    + exists hs. rewrite Hlt, Hs2. done.
    + unfold same_params. simpl. do 4 (split; [congruence|]). intros k. unfold live. simpl.
      rewrite ?insert_insert_eq. apply Hlv.
  - eexists. split; [done|]. split; simpl; rewrite <-?Ehs.
    + by rewrite Hl2, Hl1.
    + unfold get. simpl. rewrite lookup_total_insert_eq. unfold placed_node. by rewrite Hlt.
    + unfold get. simpl. by rewrite lookup_total_insert_ne.
    + intros k Hk1 Hk2. unfold get. simpl. rewrite lookup_total_insert_ne by done.
      rewrite !lookup_total_alt. by rewrite Hoth2.
    + exists hs. rewrite Hlt, Hs2. done.
    + unfold same_params. simpl. do 4 (split; [congruence|]). intros k. unfold live. simpl.
      rewrite ?insert_insert_eq. apply Hlv.
Qed.

(** What [drm_mm_create_block] promises of the block it returns. *)
Record created (m : drm_mm) (s e start size : Z) (node : nid) (m' : drm_mm) : Prop := {
  cr_wf : mm_wf m' s e;
  cr_in : forall k, k ∈ node_list m' <-> k = node \/ k ∈ node_list m;
  cr_place : block_start m' node = start /\ node_size (get m' node) = size;
  cr_was_free : free_interval m s e start size;
  cr_others : forall k, k ∈ node_list m ->
    block_start m' k = block_start m k /\ block_end m' k = block_end m k }.

Lemma placed_created m s e hole b node start size m1 m' :
  mm_wf m s e -> hole ∈ hole_stack m -> next_node m hole = Some b -> supplied m s e node m1 ->
  block_end m hole <= start -> 0 < size -> start + size <= block_start m b ->
  placed m1 hole node size (node_color (get m1 node)) start (block_start m b) m' ->
  created m s e start size node m'.
Proof.
  intros Hwf Hh Hb HS Hst Hsz Hend HP.
  destruct (hole_next m s e Hwf hole Hh) as (b' & Hb' & Hbin & Hin & Hbb & Hbe).
  assert (b' = b) as -> by congruence.
  pose proof (sup_wf _ _ _ _ _ HS) as Hwf1. pose proof (sup_spare _ _ _ _ _ HS) as Hsp1.
  destruct (supplied_extent m s e node m1 HS hole Hin) as [_ Eh].
  destruct (supplied_extent m s e node m1 HS b Hbin) as [Eb _].
  assert (hole ∈ hole_stack m1) as Hh1 by by rewrite (sup_holes _ _ _ _ _ HS).
  assert (next_node m1 hole = Some b) as Hb1 by by rewrite (supplied_next m s e node m1 HS).
  rewrite <-Eb in HP, Hend. rewrite <-Eh in Hst.
  pose proof (placed_wf m1 s e Hwf1 hole node b size _ start m' Hh1 Hsp1 Hb1 Hst Hsz Hend HP) as Hwf'.
  assert (forall k, k ∈ HEAD :: node_list m' <-> k = node \/ k ∈ HEAD :: node_list m) as Hl.
  { intros k. rewrite <-(sup_list _ _ _ _ _ HS).
    by apply (placed_list_in m1 s e Hwf1 hole node b size (node_color (get m1 node)) start). }
  assert (node ∉ HEAD :: node_list m) as Hout.
  { rewrite <-(sup_list _ _ _ _ _ HS). by destruct Hsp1 as (_ & ? & _). }
  split.
  - done.
  - intros k. pose proof (wf_nodup _ _ _ Hwf) as [HH _]%NoDup_cons.
    pose proof (wf_nodup _ _ _ Hwf') as [HH' _]%NoDup_cons. specialize (Hl k).
    rewrite !elem_of_cons in Hl. rewrite not_elem_of_cons in Hout.
    destruct (decide (k = HEAD)) as [->|Hk]; naive_solver.
  - unfold block_start. by rewrite (placed_node_eq _ _ _ _ _ _ _ _ HP).
  - split; [|split].
    + pose proof (block_end_ge m s e Hwf hole Hin). lia.
    + lia.
    + intros k Hk. destruct (hole_misses_blocks m s e hole b k Hwf Hh Hb Hk); lia.
  - intros k Hk. assert (k <> node) as Hkn by (intros ->; apply Hout; by right).
    destruct (placed_same m1 e hole node b size _ start m' HP k Hkn) as (-> & -> & _).
    apply (supplied_extent m s e node m1 HS). by right.
Qed.

Lemma create_block_loop_run m s e start size kz :
  mm_wf m s e -> fresh_kz m kz -> 0 <= start -> 0 < size -> start + size < 2 ^ 64 ->
  forall holes, (forall h, h ∈ holes -> h ∈ hole_stack m) ->
  exists res m', create_block_loop m start size kz holes = Some (res, m') /\
    match res with
    | Some node => created m s e start size node m'
    | None => m' = m /\ ((kz = None /\ unused_nodes m = []) \/
        forall h b, h ∈ holes -> next_node m h = Some b ->
          start < block_end m h \/ block_start m b < start + size)
    end.
Proof.
  intros Hwf Hf H0 Hsz H64. induction holes as [|hole holes IH]; intros Hin.
  - exists None, m. split; [done|]. split; [done|]. right. by intros h b ?%elem_of_nil.
  - assert (hole ∈ hole_stack m) as Hh by (apply Hin; by left).
    destruct (hole_next m s e Hwf hole Hh) as (b & Hb & Hbin & Hhin & Hbb & Hbe).
    cbn [create_block_loop]. rewrite (hole_start_run _ _ _ Hwf hole Hh). cbn [mbind option_bind].
    rewrite (hole_end_run _ _ _ Hwf hole b) by done. cbn [mbind option_bind].
    rewrite u64_small by lia.
    destruct ((block_end m hole >? start) || (block_start m b <? start + size)) eqn:Hmiss.
    + destruct IH as (res & m' & -> & Hres); [intros; apply Hin; by right|].
      exists res, m'. split; [done|]. destruct res as [node|]; [done|].
      destruct Hres as (-> & Hr). split; [done|]. destruct Hr as [?|Hr]; [by left|]. right.
      intros h b0 [->|?]%elem_of_cons Hb0; [|by apply Hr].
      assert (b0 = b) as -> by congruence. apply orb_true_iff in Hmiss as [E|E]; zbool; lia.
    + apply orb_false_iff in Hmiss as [E1 E2]. zbool.
      pose proof (kmalloc_run m s e kz Hwf Hf) as Hk.
      destruct (drm_mm_kmalloc m kz) as [[node|] m1].
      2: { destruct Hk as (-> & ? & ?). exists None, m. split; [done|]. split; [done|]. by left. }
      pose proof (sup_wf _ _ _ _ _ Hk) as Hwf1. pose proof (sup_spare _ _ _ _ _ Hk) as Hsp1.
      destruct (supplied_extent m s e node m1 Hk hole Hhin) as [_ Eh].
      destruct (supplied_extent m s e node m1 Hk b Hbin) as [Eb _].
      destruct (create_in_hole_run m1 s e hole b node start size (block_end m hole) (block_start m b))
        as (m' & Hrun & HP); try done; try lia.
      { by rewrite (sup_holes _ _ _ _ _ Hk). }
      { by rewrite (supplied_next m s e node m1 Hk). }
      rewrite u64_small in Hrun by lia. rewrite Hrun. exists (Some node), m'. split; [done|].
      by apply (placed_created m s e hole b node start size m1).
Qed.

(** [drm_mm_create_block] never fails: it returns the block at exactly the
    place asked for, or none, leaving the manager alone, when the place is not
    free or no node can be had. *)
Theorem create_block_sound m s e start size kz :
  mm_wf m s e -> fresh_kz m kz -> 0 <= start -> 0 < size -> start + size < 2 ^ 64 ->
  exists res m', drm_mm_create_block m start size kz = Some (res, m') /\
    match res with
    | Some node => created m s e start size node m'
    | None => m' = m /\ ((kz = None /\ unused_nodes m = []) \/ ~ free_interval m s e start size)
    end.
Proof.
  intros Hwf Hf H0 Hsz H64.
  destruct (create_block_loop_run m s e start size kz Hwf Hf H0 Hsz H64 (hole_stack m))
    as (res & m' & Hrun & Hres); [done|].
  exists res, m'. split; [done|]. destruct res as [node|]; [done|].
  destruct Hres as (-> & Hr). split; [done|]. destruct Hr as [?|Hr]; [by left|]. right.
  intros Hfree. destruct (free_interval_hole m s e start size Hwf Hsz Hfree) as (h & b & Hh & Hb & ? & ?).
  destruct (Hr h b Hh Hb); lia.
Qed.

(** ** Teardown *)


(** [drm_mm_takedown] frees the whole cache, and nothing else, when no
    block is allocated; otherwise it leaves the manager alone. *)
Theorem takedown_sound m s e :
  mm_wf m s e ->
  exists m', drm_mm_takedown m = Some m' /\
    (node_list m <> [] -> m' = m) /\
    (node_list m = [] -> unused_nodes m' = [] /\ num_unused m' = 0 /\ mm_wf m' s e /\
       forall k, live m' k <-> live m k /\ (k ∉ unused_nodes m)).
Proof.
  intros Hwf. unfold drm_mm_takedown. case_bool_decide as Hl; [|by exists m].
  destruct (wf_unused _ _ _ Hwf) as [Hnd Hnum]. simpl. rewrite Hnum, Z.sub_diag. simpl.
  assert (forall k l, (foldr delete (nodes m) l : gmap nid drm_mm_node) !! k =
    if decide (k ∈ l) then None else nodes m !! k) as Hdel.
  { intros k l. induction l as [|a l IH]; simpl; [done|].
    destruct (decide (k = a)) as [->|Hka].
    - rewrite lookup_delete_eq, decide_True; [done|by left].
    - rewrite lookup_delete_ne, IH by done.
      destruct (decide (k ∈ l)) as [Hk|Hk]; [rewrite decide_True by by right|rewrite decide_False]; try done.
      by intros [?|?]%elem_of_cons. }
  assert (forall k, k ∈ HEAD :: node_list m -> k ∉ unused_nodes m) as Hoff.
  { intros k Hk Hu. by destruct (wf_unused_off _ _ _ Hwf k Hu) as (_ & ? & _). }
  eexists. split; [done|]. split; [done|]. intros _. split; [done|]. split; [done|]. split.
  - apply (wf_frame m s e); try done.
    + intros k Hk. unfold get, live. simpl. rewrite !lookup_total_alt, Hdel, decide_False by by apply Hoff.
      split; [done|]. by apply (wf_live _ _ _ Hwf).
    + simpl. split; [constructor|done].
    + simpl. by intros n ?%elem_of_nil.
  - intros k. unfold live. simpl. rewrite Hdel. case_decide as Hk; split; try tauto.
    by intros [? ?].
Qed.
