(* ===== verification/MMWitness.v ===== *)
(** * The range allocator of drm_mm.c: concrete managers

    Managers built by running the operations themselves, on which the theorems
    about the allocator are applied, and two runs that show what the code does
    not do: the best-match search does not look at hole sizes, and blocks taken
    off a scan in the order in which they were added come back in the wrong
    order. *)

From S2P Require Import Prelude MM MMInv MMAlloc MMFree MMScan MMBlocks.

(** ** Building managers *)

Definition blank : drm_mm :=
  mk_mm ∅ [] [] [] 0 false 0 0 0 0 0 0 0 0 None None.

(** The addresses from 4096 to 69632. *)
Definition mgr0 : drm_mm := drm_mm_init blank 4096 65536.

Definition supply (m : drm_mm) (n : nid) : drm_mm :=
  with_nodes (<[n := zero_node]> (nodes m)) m.

(** A zeroed node inserted below a limit. *)
Definition put_in (m : drm_mm) (n : nid) (size lo hi : Z) : drm_mm :=
  from_option snd m (drm_mm_insert_node_in_range (supply m n) n size 0 lo hi).

Definition mgr1 : drm_mm := put_in mgr0 2 4096 0 69632.
Definition mgr2 : drm_mm := put_in mgr1 3 16384 40960 69632.
(** Block 2 at 4096, block 3 at 40960, and a spare node 4. *)
Definition mgr3 : drm_mm := supply mgr2 4.

Definition inv := mm_inv 4096 69632.

Lemma inv_wf m : inv m -> mm_wf m 4096 69632 /\ color_adjust m = None.
Proof. by intros (? & ? & _). Qed.

Lemma supply_inv m n : inv m -> nodes m !! n = None -> inv (supply m n) /\ spare (supply m n) n.
Proof.
  intros Hm Hn. assert (~ live m n) as Hl by (unfold live; rewrite Hn; by intros [? ?]). split.
  - apply (mm_step_inv 4096 69632 m); [by constructor|done].
  - pose proof (inv_wf m Hm) as [Hwf _].
    assert (fresh_kz m (Some n)) as Hf by (intros k [= <-]; done).
    by apply (sup_spare m 4096 69632 n), (kmalloc_run m 4096 69632 (Some n) Hwf Hf).
Qed.

Lemma put_in_inv m n size lo hi :
  inv m -> nodes m !! n = None -> 0 < size < 2 ^ 20 -> 0 <= lo < 2 ^ 20 -> 0 <= hi < 2 ^ 20 ->
  inv (put_in m n size lo hi).
Proof.
  intros Hm Hn Hsz Hlo Hhi. destruct (supply_inv m n Hm Hn) as [Hs Hsp]. unfold put_in.
  destruct (drm_mm_insert_node_in_range (supply m n) n size 0 lo hi) as [[ret m']|] eqn:E; [|done].
  apply (mm_step_inv 4096 69632 (supply m n)); [|done].
  apply (StepInsertRange 69632 (supply m n) n size 0 0 lo hi ret m'); [done| |done].
  unfold sane. lia.
Qed.

Lemma mgr0_inv : inv mgr0.
Proof.
  destruct (drm_mm_init_wf blank 4096 65536) as [Hwf Hc]; [done..|]. by split.
Qed.
Lemma mgr1_inv : inv mgr1.
Proof. apply put_in_inv; [apply mgr0_inv|by vm_compute|lia..]. Qed.
Lemma mgr2_inv : inv mgr2.
Proof. apply put_in_inv; [apply mgr1_inv|by vm_compute|lia..]. Qed.
Lemma mgr3_inv : inv mgr3 /\ spare mgr3 4%positive.
Proof. apply supply_inv; [apply mgr2_inv|by vm_compute]. Qed.

Lemma mgr3_wf : mm_wf mgr3 4096 69632 /\ color_adjust mgr3 = None /\ spare mgr3 4%positive.
Proof. destruct mgr3_inv as [H Hs]. destruct (inv_wf _ H) as [H1 H2]. exact (conj H1 (conj H2 Hs)). Qed.

Lemma mgr3_list : node_list mgr3 = [2%positive; 3%positive].
Proof. by vm_compute. Qed.

Lemma sane_small r size al : 0 < size < 2 ^ 20 -> 0 <= al < 2 ^ 20 ->
  match r with None => True | Some (lo, hi) => 0 <= lo < 2 ^ 20 /\ 0 <= hi < 2 ^ 20 end ->
  sane 69632 r size al.
Proof. intros ? ? Hr. unfold sane. destruct r as [[lo hi]|]; lia. Qed.

(** ** Two runs *)

(** "best match" compares the sizes of the blocks in front of the holes, not
    of the holes: it may return a larger hole although a smaller one fits. *)
Theorem best_match_ignores_hole_size :
  exists m s e size h h' hs he hs' he',
    mm_wf m s e /\ drm_mm_search_free m size 0 true = Some (Some h) /\
    h' ∈ hole_stack m /\ hole_fits m size 0 0 h' = Some true /\
    drm_mm_hole_node_start m h = Some hs /\ drm_mm_hole_node_end m h = Some he /\
    drm_mm_hole_node_start m h' = Some hs' /\ drm_mm_hole_node_end m h' = Some he' /\
    he' - hs' < he - hs.
Proof.
  exists mgr2, 4096, 69632, 4096, 2%positive, 3%positive, 8192, 40960, 57344, 69632.
  split; [by apply inv_wf, mgr2_inv|]. split; [by vm_compute|].
  split; [vm_compute; set_solver|]. split_and!; by vm_compute.
Qed.

Definition adjacent_pair : drm_mm := put_in mgr1 3 16384 0 69632.

(** taking the blocks off a scan in the same order in which they were
    added corrupts the manager: two neighbours come back swapped. *)
Theorem scan_same_order_corrupts :
  exists m s e a b mk vs m', mm_wf m s e /\
    scan_until (scan_params m 65536 0 0 None) [a; b] [] = Some (true, [b; a], mk) /\
    scan_unwind mk [a; b] = Some (vs, m') /\ node_list m = [a; b] /\ node_list m' = [b; a] /\
    ~ mm_wf m' s e.
Proof.
  destruct (scan_until (scan_params adjacent_pair 65536 0 0 None) [2%positive; 3%positive] [])
    as [[[f u] mk]|] eqn:E1; [|by vm_compute in E1].
  destruct (scan_unwind mk [2%positive; 3%positive]) as [[vs m']|] eqn:E2.
  2: { vm_compute in E1. injection E1 as <- <- <-. by vm_compute in E2. }
  exists adjacent_pair, 4096, 69632, 2%positive, 3%positive, mk, vs, m'.
  assert (f = true /\ u = [3%positive; 2%positive] /\ node_list m' = [3%positive; 2%positive] /\
    block_end m' 3%positive = 24576 /\ block_start m' 2%positive = 4096) as (-> & -> & El & Ee & Es).
  { vm_compute in E1. injection E1 as <- <- <-. vm_compute in E2. injection E2 as <- <-. done. }
  split; [apply inv_wf, put_in_inv; [apply mgr1_inv|by vm_compute|lia..]|].
  split; [done|]. split; [done|]. split; [by vm_compute|]. split; [done|].
  intros Hwf. pose proof (ring_order m' 4096 69632 Hwf 3%positive 2%positive [] [] [] El). lia.
Qed.

(** ** The theorems at these managers *)

Lemma mgr3_sane r : match r with None => True | Some (lo, hi) => 0 <= lo < 2 ^ 20 /\ 0 <= hi < 2 ^ 20 end ->
  sane 69632 r 8192 4096.
Proof. intros Hr. apply sane_small; [lia|lia|done]. Qed.

Lemma mgr3_narrows : color_narrows mgr3.
Proof. apply color_none_narrows. apply mgr3_wf. Qed.

Lemma insert_node_sound_witness :
  (exists m', drm_mm_insert_node_generic mgr3 4%positive 8192 4096 7 = Some (0, m') /\
     inserted mgr3 4096 69632 None 4%positive 8192 4096 7 m') \/
  drm_mm_insert_node_generic mgr3 4%positive 8192 4096 7 = Some (- ENOSPC, mgr3).
Proof.
  exact (insert_node_sound mgr3 4096 69632 4%positive 8192 4096 7 (proj1 mgr3_wf) mgr3_narrows
    (proj2 (proj2 mgr3_wf)) (mgr3_sane None I)).
Defined.

Lemma insert_node_in_range_sound_witness :
  (exists m', drm_mm_insert_node_in_range_generic mgr3 4%positive 8192 4096 7 20000 60000 = Some (0, m') /\
     inserted mgr3 4096 69632 (Some (20000, 60000)) 4%positive 8192 4096 7 m') \/
  drm_mm_insert_node_in_range_generic mgr3 4%positive 8192 4096 7 20000 60000 = Some (- ENOSPC, mgr3).
Proof.
  apply (insert_node_in_range_sound mgr3 4096 69632 4%positive 8192 4096 7 20000 60000
    (proj1 mgr3_wf) mgr3_narrows (proj2 (proj2 mgr3_wf))).
  apply mgr3_sane. lia.
Defined.

Lemma insert_node_complete_witness : ~ free_interval mgr3 4096 69632 8192 40000.
Proof.
  apply (proj1 (insert_node_complete mgr3 4096 69632 4%positive 40000 0 0 (proj1 mgr3_wf)
    (proj1 (proj2 mgr3_wf)) (proj2 (proj2 mgr3_wf)))).
  - apply sane_small; [lia|lia|exact I].
  - vm_compute. reflexivity.
  - intros H. destruct (H eq_refl).
Defined.

Lemma mgr3_two : 2%positive ∈ node_list mgr3.
Proof. rewrite mgr3_list. by left. Qed.

Lemma remove_node_sound_witness : exists m',
  drm_mm_remove_node mgr3 2%positive = Some m' /\ spare m' 2%positive /\ mm_wf m' 4096 69632.
Proof.
  destruct (remove_node_sound mgr3 4096 69632 2%positive (proj1 mgr3_wf) mgr3_two)
    as (m' & H1 & H2 & H3 & _).
  exact (ex_intro _ m' (conj H1 (conj H3 H2))).
Defined.

Definition mgr4 : drm_mm :=
  from_option snd mgr3 (drm_mm_insert_node_generic mgr3 4%positive 8192 4096 7).

Lemma insert_remove_roundtrip_witness :
  exists m2, drm_mm_remove_node mgr4 4%positive = Some m2 /\ mm_wf m2 4096 69632.
Proof.
  assert (drm_mm_insert_node_generic mgr3 4%positive 8192 4096 7 = Some (0, mgr4)) as Hins
    by (vm_compute; reflexivity).
  destruct (insert_remove_roundtrip mgr3 4096 69632 4%positive 8192 4096 7 mgr4 (proj1 mgr3_wf)
    mgr3_narrows (proj2 (proj2 mgr3_wf)) (mgr3_sane None I) Hins) as (m2 & H1 & H2 & _).
  exact (ex_intro _ m2 (conj H1 H2)).
Defined.

Lemma mgr0_steps : rtc (mm_step 69632) mgr0 (supply (supply mgr0 5) 6).
Proof.
  eapply rtc_l; [apply (StepSupply _ mgr0 5%positive)|].
  - unfold live. by vm_compute; intros [? ?].
  - apply rtc_once. apply (StepSupply _ (supply mgr0 5) 6%positive).
    unfold live. by vm_compute; intros [? ?].
Qed.

Lemma mm_reachable_disjoint_witness : num_unused (supply (supply mgr0 5) 6) <= MM_UNUSED_TARGET.
Proof.
  refine (proj2 (proj2 (mm_reachable_disjoint blank 4096 65536 _ _ _ _ mgr0_steps))); lia.
Defined.

Lemma debug_table_total_witness : exists used free,
  drm_mm_debug_table (length (node_list mgr3)) mgr3 = Some (inr (HEAD, used, free)) /\
  0 <= used /\ 0 <= free /\ used + free = 69632 - 4096.
Proof. exact (debug_table_total mgr3 4096 69632 (proj1 mgr3_wf)). Defined.

Lemma debug_table_never_ends_witness : exists entry used free,
  drm_mm_debug_table 1000 mgr3 = Some (inr (entry, used, free)).
Proof. exact (debug_table_never_ends mgr3 4096 69632 (proj1 mgr3_wf) 1000). Defined.

Lemma drm_mm_clean_iff_witness : drm_mm_clean mgr3 = true <-> (length (node_list mgr3) <= 1)%nat.
Proof. exact (drm_mm_clean_iff mgr3 4096 69632 (proj1 mgr3_wf)). Defined.

Lemma two_three_nodup : NoDup [2%positive; 3%positive].
Proof. apply (bool_decide_unpack _). by vm_compute. Qed.

Lemma two_three_in n : n ∈ [2%positive; 3%positive] -> n ∈ node_list mgr3.
Proof. by rewrite mgr3_list. Qed.

Lemma scan_restores_witness : exists found unwind mk vs m',
  scan_until (scan_params mgr3 65536 0 0 None) [2%positive; 3%positive] [] = Some (found, unwind, mk) /\
  scan_unwind mk unwind = Some (vs, m') /\ mm_eqv mgr3 m'.
Proof.
  destruct (scan_restores mgr3 4096 69632 [2%positive; 3%positive] 65536 0 0 None (proj1 mgr3_wf)
    two_three_nodup two_three_in eq_refl) as (f & u & mk & vs & m' & H1 & H2 & H3 & _).
  exact (ex_intro _ f (ex_intro _ u (ex_intro _ mk (ex_intro _ vs (ex_intro _ m'
    (conj H1 (conj H2 H3))))))).
Defined.

Definition scanned : drm_mm :=
  from_option snd mgr3 (scan_until (scan_params mgr3 65536 0 0 None) [2%positive; 3%positive] []).

Lemma both_marked (n : nid) :
  n ∈ [2%positive; 3%positive] <-> (n, 1) ∈ [(3%positive, 1); (2%positive, 1)].
Proof. rewrite !elem_of_cons, !elem_of_nil. naive_solver. Qed.

Lemma scan_makes_room_witness : exists vs m1 m2 m3,
  scan_unwind scanned [3%positive; 2%positive] = Some (vs, m1) /\
  put_blocks m1 [2%positive; 3%positive] = Some m2 /\
  insert_any m2 4%positive 65536 0 0 None = Some (0, m3).
Proof.
  assert (scan_until (scan_params mgr3 65536 0 0 None) [2%positive; 3%positive] [] =
    Some (true, [3%positive; 2%positive], scanned)) as Hrun by (vm_compute; reflexivity).
  assert (sane 69632 None 65536 0) as Hs by (apply sane_small; [lia|lia|exact I]).
  destruct (scan_makes_room mgr3 4096 69632 [2%positive; 3%positive] 65536 0 0 None 4%positive
    [3%positive; 2%positive] scanned [2%positive; 3%positive] (proj1 mgr3_wf) (proj1 (proj2 mgr3_wf)) Hs
    (proj2 (proj2 mgr3_wf)) two_three_nodup two_three_in eq_refl Hrun) as (vs & m1 & Hu & Hroom).
  assert (vs = [(3%positive, 1); (2%positive, 1)]) as Hvs.
  { assert (fst <$> scan_unwind scanned [3%positive; 2%positive] =
      Some [(3%positive, 1); (2%positive, 1)]) as E by (vm_compute; reflexivity).
    rewrite Hu in E. by injection E. }
  destruct Hroom as (m2 & m3 & Hp & Hi & _).
  - exact two_three_nodup.
  - intros n. rewrite Hvs. apply both_marked.
  - exact (ex_intro _ vs (ex_intro _ m1 (ex_intro _ m2 (ex_intro _ m3 (conj Hu (conj Hp Hi)))))).
Defined.

Lemma fresh5 : fresh_kz mgr3 (Some 5%positive).
Proof. intros n [= <-]. unfold live. by vm_compute; intros [? ?]. Qed.

Lemma search_then_get_block_witness : exists res m',
  drm_mm_get_block mgr3 2%positive 8192 4096 (Some 5%positive) = Some (res, m').
Proof.
  assert (drm_mm_search_free mgr3 8192 4096 true = Some (Some 2%positive)) as Hs
    by (vm_compute; reflexivity).
  destruct (search_then_get_block mgr3 4096 69632 8192 4096 true 2%positive (Some 5%positive)
    (proj1 mgr3_wf) (proj1 (proj2 mgr3_wf)) (mgr3_sane None I) fresh5 Hs) as (res & m' & H & _).
  exact (ex_intro _ res (ex_intro _ m' H)).
Defined.

Lemma create_block_sound_witness : exists res m',
  drm_mm_create_block mgr3 12288 4096 (Some 5%positive) = Some (res, m').
Proof.
  destruct (create_block_sound mgr3 4096 69632 12288 4096 (Some 5%positive) (proj1 mgr3_wf) fresh5)
    as (res & m' & H & _); [lia..|].
  exact (ex_intro _ res (ex_intro _ m' H)).
Defined.

Lemma takedown_sound_witness : exists m', drm_mm_takedown mgr0 = Some m' /\ unused_nodes m' = [].
Proof.
  destruct (takedown_sound mgr0 4096 69632 (proj1 (inv_wf _ mgr0_inv))) as (m' & H & _ & H0).
  exact (ex_intro _ m' (conj H (proj1 (H0 eq_refl)))).
Defined.
