(* ===== verification/Rect.v ===== *)
(** * Rectangles: drm_rect.c and drm_rect.h

    Rectangles have C int coordinates; every arithmetic step wraps to 32 bits.
    The operations that update a rectangle in place return the new rectangle. *)

From S2P Require Import Prelude.

Record drm_rect := mk_rect { x1 : Z; y1 : Z; x2 : Z; y2 : Z }.

Definition INT_MAX : Z := 2 ^ 31 - 1.
Definition INT_MIN : Z := - 2 ^ 31.

(** ** The inline functions of drm_rect.h *)

Definition drm_rect_adjust_size (r : drm_rect) (dw dh : Z) : drm_rect :=
  mk_rect (s32 (x1 r - Z.shiftr dw 1)) (s32 (y1 r - Z.shiftr dh 1))
    (s32 (x2 r + Z.shiftr (s32 (dw + 1)) 1)) (s32 (y2 r + Z.shiftr (s32 (dh + 1)) 1)).

Definition drm_rect_translate (r : drm_rect) (dx dy : Z) : drm_rect :=
  mk_rect (s32 (x1 r + dx)) (s32 (y1 r + dy)) (s32 (x2 r + dx)) (s32 (y2 r + dy)).

(** A division by zero is a fault. *)
Definition drm_rect_downscale (r : drm_rect) (horz vert : Z) : option drm_rect :=
  _ ← BUG_ON ((horz =? 0) || (vert =? 0));
  Some (mk_rect (s32 (Z.quot (x1 r) horz)) (s32 (Z.quot (y1 r) vert))
    (s32 (Z.quot (x2 r) horz)) (s32 (Z.quot (y2 r) vert))).

Definition drm_rect_width (r : drm_rect) : Z := s32 (x2 r - x1 r).
Definition drm_rect_height (r : drm_rect) : Z := s32 (y2 r - y1 r).

Definition drm_rect_visible (r : drm_rect) : bool :=
  (drm_rect_width r >? 0) && (drm_rect_height r >? 0).

Definition drm_rect_equals (r1 r2 : drm_rect) : bool :=
  (x1 r1 =? x1 r2) && (x2 r1 =? x2 r2) && (y1 r1 =? y1 r2) && (y2 r1 =? y2 r2).

(** ** drm_rect.c *)

Definition cmax (a b : Z) : Z := if a >? b then a else b.
Definition cmin (a b : Z) : Z := if a <? b then a else b.

Definition drm_rect_intersect (r1 r2 : drm_rect) : bool * drm_rect :=
  let r := mk_rect (cmax (x1 r1) (x1 r2)) (cmax (y1 r1) (y1 r2))
             (cmin (x2 r1) (x2 r2)) (cmin (y2 r1) (y2 r2)) in
  (drm_rect_visible r, r).

(** [dest = clamp_int64_t(tmp);].  The macro is two statements,
    [tmp = min(INT_MAX, tmp); tmp = max(INT_MIN, tmp);], so [dest] gets the
    value of the first one, converted to int; the second only changes [tmp]. *)
Definition clamp_int64_t (tmp : Z) : Z := s32 (cmin INT_MAX tmp).

Definition drm_rect_clip_scaled (src dst clip : drm_rect) (hscale vscale : Z)
    : bool * drm_rect * drm_rect :=
  let diff := s32 (x1 clip - x1 dst) in
  let sx1 := if diff >? 0 then clamp_int64_t (x1 src + diff * hscale) else x1 src in
  let diff := s32 (y1 clip - y1 dst) in
  let sy1 := if diff >? 0 then clamp_int64_t (y1 src + diff * vscale) else y1 src in
  let diff := s32 (x2 dst - x2 clip) in
  let sx2 := if diff >? 0 then clamp_int64_t (x2 src - diff * hscale) else x2 src in
  let diff := s32 (y2 dst - y2 clip) in
  let sy2 := if diff >? 0 then clamp_int64_t (y2 src - diff * vscale) else y2 src in
  let '(visible, dst) := drm_rect_intersect dst clip in
  (visible, mk_rect sx1 sy1 sx2 sy2, dst).

Definition drm_calc_scale (src dst : Z) : Z :=
  if (src <? 0) || (dst <? 0) then - EINVAL
  else if dst =? 0 then 0
  else Z.quot src dst.

Definition drm_rect_calc_hscale (src dst : drm_rect) (min_hscale max_hscale : Z) : Z :=
  let src_w := drm_rect_width src in
  let dst_w := drm_rect_width dst in
  let hscale := drm_calc_scale src_w dst_w in
  if (hscale <? 0) || (dst_w =? 0) then hscale
  else if (hscale <? min_hscale) || (hscale >? max_hscale) then - ERANGE
  else hscale.

Definition drm_rect_calc_vscale (src dst : drm_rect) (min_vscale max_vscale : Z) : Z :=
  let src_h := drm_rect_height src in
  let dst_h := drm_rect_height dst in
  let vscale := drm_calc_scale src_h dst_h in
  if (vscale <? 0) || (dst_h =? 0) then vscale
  else if (vscale <? min_vscale) || (vscale >? max_vscale) then - ERANGE
  else vscale.

(** Division by a zero minimum is only reached with a negative scale, which has
    returned before. *)
Definition drm_rect_calc_hscale_relaxed (src dst : drm_rect) (min_hscale max_hscale : Z)
    : Z * drm_rect * drm_rect :=
  let src_w := drm_rect_width src in
  let dst_w := drm_rect_width dst in
  let hscale := drm_calc_scale src_w dst_w in
  if (hscale <? 0) || (dst_w =? 0) then (hscale, src, dst)
  else if hscale <? min_hscale then
    let max_dst_w := Z.quot src_w min_hscale in
    (min_hscale, src, drm_rect_adjust_size dst (s32 (max_dst_w - dst_w)) 0)
  else if hscale >? max_hscale then
    let max_src_w := s32 (dst_w * max_hscale) in
    (max_hscale, drm_rect_adjust_size src (s32 (max_src_w - src_w)) 0, dst)
  else (hscale, src, dst).

Definition drm_rect_calc_vscale_relaxed (src dst : drm_rect) (min_vscale max_vscale : Z)
    : Z * drm_rect * drm_rect :=
  let src_h := drm_rect_height src in
  let dst_h := drm_rect_height dst in
  let vscale := drm_calc_scale src_h dst_h in
  if (vscale <? 0) || (dst_h =? 0) then (vscale, src, dst)
  else if vscale <? min_vscale then
    let max_dst_h := Z.quot src_h min_vscale in
    (min_vscale, src, drm_rect_adjust_size dst 0 (s32 (max_dst_h - dst_h)))
  else if vscale >? max_vscale then
    let max_src_h := s32 (dst_h * max_vscale) in
    (max_vscale, drm_rect_adjust_size src 0 (s32 (max_src_h - src_h)), dst)
  else (vscale, src, dst).

(** ** Points *)

Definition in_rect (px py : Z) (r : drm_rect) : Prop :=
  x1 r <= px < x2 r /\ y1 r <= py < y2 r.

Definition is_int (z : Z) : Prop := INT_MIN <= z <= INT_MAX.

(** Coordinates between which differences fit an int. *)
Definition small_rect (r : drm_rect) : Prop :=
  Forall (fun z => - 2 ^ 30 <= z < 2 ^ 30) [x1 r; y1 r; x2 r; y2 r].

Lemma cmax_max a b : cmax a b = Z.max a b.
Proof. unfold cmax. destruct (a >? b) eqn:E; zbool; lia. Qed.
Lemma cmin_min a b : cmin a b = Z.min a b.
Proof. unfold cmin. destruct (a <? b) eqn:E; zbool; lia. Qed.

(** Decides [small_rect] of a concrete rectangle. *)
Ltac small_rect_tac := unfold small_rect; rewrite !Forall_cons, Forall_nil; simpl; lia.

Lemma small_rect_inv r : small_rect r ->
  - 2 ^ 30 <= x1 r < 2 ^ 30 /\ - 2 ^ 30 <= y1 r < 2 ^ 30 /\
  - 2 ^ 30 <= x2 r < 2 ^ 30 /\ - 2 ^ 30 <= y2 r < 2 ^ 30.
Proof. unfold small_rect. rewrite !Forall_cons. tauto. Qed.

Lemma width_small r : small_rect r -> drm_rect_width r = x2 r - x1 r.
Proof. intros H%small_rect_inv. apply s32_small. lia. Qed.
Lemma height_small r : small_rect r -> drm_rect_height r = y2 r - y1 r.
Proof. intros H%small_rect_inv. apply s32_small. lia. Qed.

#[export] Hint Rewrite cmax_max cmin_min : word.

Lemma intersect_small r1 r2 : small_rect r1 -> small_rect r2 ->
  small_rect (snd (drm_rect_intersect r1 r2)).
Proof.
  intros H1%small_rect_inv H2%small_rect_inv. unfold small_rect. simpl.
  rewrite !cmax_max, !cmin_min, !Forall_cons, Forall_nil. lia.
Qed.

(** [drm_rect_intersect] computes exactly the common points, and reports
    the result visible exactly when there are any. *)
Theorem intersect_points r1 r2 :
  small_rect r1 -> small_rect r2 ->
  (forall px py, in_rect px py (snd (drm_rect_intersect r1 r2)) <->
     in_rect px py r1 /\ in_rect px py r2) /\
  (fst (drm_rect_intersect r1 r2) = true <->
     exists px py, in_rect px py r1 /\ in_rect px py r2).
Proof.
  intros H1 H2. pose proof (intersect_small r1 r2 H1 H2) as H.
  assert (forall px py, in_rect px py (snd (drm_rect_intersect r1 r2)) <->
     in_rect px py r1 /\ in_rect px py r2) as Hp.
  { intros px py. unfold in_rect. simpl. rewrite !cmax_max, !cmin_min. lia. }
  split; [done|]. change (fst (drm_rect_intersect r1 r2)) with
    (drm_rect_visible (snd (drm_rect_intersect r1 r2))).
  unfold drm_rect_visible. rewrite width_small, height_small by done.
  rewrite andb_true_iff, !Z.gtb_lt.
  set (r := snd (drm_rect_intersect r1 r2)) in *. split.
  - intros [Hw Hh]. exists (x1 r), (y1 r). apply Hp. unfold in_rect. lia.
  - intros (px & py & Hin%Hp). unfold in_rect in Hin. lia.
Qed.

Lemma intersect_points_witness :
  fst (drm_rect_intersect (mk_rect 0 0 10 10) (mk_rect 5 5 20 20)) = true <->
  exists px py, in_rect px py (mk_rect 0 0 10 10) /\ in_rect px py (mk_rect 5 5 20 20).
Proof. apply intersect_points; small_rect_tac. Defined.

(** ** Scaled clipping *)

Lemma clamp_in_range z : is_int z -> clamp_int64_t z = z.
Proof.
  unfold is_int, INT_MIN, INT_MAX, clamp_int64_t. intros Hz. rewrite cmin_min.
  unfold INT_MAX. rewrite Z.min_r by lia. apply s32_small. lia.
Qed.

Lemma clamp_above z : INT_MAX <= z -> clamp_int64_t z = INT_MAX.
Proof.
  unfold INT_MAX, clamp_int64_t. intros Hz. rewrite cmin_min. unfold INT_MAX.
  rewrite Z.min_l by lia. apply s32_small. lia.
Qed.

(** [drm_rect_clip_scaled] keeps the scale.  When the source is exactly the
    destination times the scaling factors, and the clipped source stays within
    int, the same holds of the clipped rectangles, and the destination becomes
    the intersection with the clip rectangle. *)
Theorem clip_scaled_keeps_scale src dst clip hscale vscale :
  small_rect dst -> small_rect clip -> is_int hscale -> is_int vscale ->
  x2 src - x1 src = hscale * (x2 dst - x1 dst) ->
  y2 src - y1 src = vscale * (y2 dst - y1 dst) ->
  let '(visible, src', dst') := drm_rect_clip_scaled src dst clip hscale vscale in
  is_int (x1 src + Z.max 0 (x1 clip - x1 dst) * hscale) ->
  is_int (x2 src - Z.max 0 (x2 dst - x2 clip) * hscale) ->
  is_int (y1 src + Z.max 0 (y1 clip - y1 dst) * vscale) ->
  is_int (y2 src - Z.max 0 (y2 dst - y2 clip) * vscale) ->
  (visible, dst') = drm_rect_intersect dst clip /\
  x2 src' - x1 src' = hscale * (x2 dst' - x1 dst') /\
  y2 src' - y1 src' = vscale * (y2 dst' - y1 dst').
Proof.
  intros Hd Hc Hh Hv Hx Hy. unfold drm_rect_clip_scaled.
  destruct (drm_rect_intersect dst clip) as [visible dst'] eqn:E.
  unfold drm_rect_intersect in E. injection E as <- <-. simpl. rewrite !cmax_max, !cmin_min.
  apply small_rect_inv in Hd, Hc. rewrite !s32_small by lia.
  intros H1 H2 H3 H4. split; [done|].
  assert (forall a d s, is_int (a + Z.max 0 d * s) ->
    (if d >? 0 then clamp_int64_t (a + d * s) else a) = a + Z.max 0 d * s) as Hadd.
  { intros a d s Hi. destruct (d >? 0) eqn:Ed; zbool.
    - rewrite Z.max_r in * by lia. by apply clamp_in_range.
    - rewrite Z.max_l by lia. lia. }
  assert (forall a d s, is_int (a - Z.max 0 d * s) ->
    (if d >? 0 then clamp_int64_t (a - d * s) else a) = a - Z.max 0 d * s) as Hsub.
  { intros a d s Hi. replace (a - Z.max 0 d * s) with (a + Z.max 0 d * - s) in * by lia.
    rewrite <-Hadd by done. by replace (a + d * - s) with (a - d * s) by lia. }
  rewrite !Hadd, !Hsub by done.
  replace (Z.max (x1 dst) (x1 clip)) with (x1 dst + Z.max 0 (x1 clip - x1 dst)) by lia.
  replace (Z.max (y1 dst) (y1 clip)) with (y1 dst + Z.max 0 (y1 clip - y1 dst)) by lia.
  replace (Z.min (x2 dst) (x2 clip)) with (x2 dst - Z.max 0 (x2 dst - x2 clip)) by lia.
  replace (Z.min (y2 dst) (y2 clip)) with (y2 dst - Z.max 0 (y2 dst - y2 clip)) by lia.
  split; [rewrite !Z.mul_sub_distr_l, !Z.mul_add_distr_l in *; lia|].
  rewrite !Z.mul_sub_distr_l, !Z.mul_add_distr_l in *; lia.
Qed.

Lemma clip_scaled_keeps_scale_witness :
  let '(visible, src', dst') :=
    drm_rect_clip_scaled (mk_rect 0 0 400 300) (mk_rect 10 10 210 160) (mk_rect 0 0 100 100) 2 2 in
  x2 src' - x1 src' = 2 * (x2 dst' - x1 dst').
Proof.
  pose proof (clip_scaled_keeps_scale (mk_rect 0 0 400 300) (mk_rect 10 10 210 160)
    (mk_rect 0 0 100 100) 2 2) as H.
  destruct (drm_rect_clip_scaled _ _ _ 2 2) as [[v s] d].
  apply H; unfold is_int, INT_MAX, INT_MIN; try small_rect_tac; simpl; lia.
Defined.

(** the clamp has no lower side: a clipped source coordinate below INT_MIN
    is not clamped but wraps, here to the largest positive coordinate. *)
Theorem clip_scaled_wraps_below :
  exists src dst clip hscale,
    Forall is_int [x1 src; x2 src; x1 dst; x2 dst; x1 clip; x2 clip; hscale] /\
    x2 src - s32 (x2 dst - x2 clip) * hscale < INT_MIN /\
    x2 (snd (fst (drm_rect_clip_scaled src dst clip hscale hscale))) = INT_MAX.
Proof.
  exists (mk_rect (-65536) 0 (-1) 1), (mk_rect 0 0 40000 1), (mk_rect 0 0 7232 1), 65536.
  unfold is_int, INT_MAX, INT_MIN. simpl. rewrite !Forall_cons, Forall_nil. split; [lia|]. by vm_compute.
Qed.

(** ** Scaling factors *)

Lemma half_sum d : Z.shiftr d 1 + Z.shiftr (d + 1) 1 = d.
Proof. rewrite !Z.shiftr_div_pow2 by lia. change (2 ^ 1) with 2. Z.to_euclidean_division_equations; lia. Qed.

Lemma half_bound d : Z.min 0 d <= Z.shiftr d 1 <= Z.max 0 d.
Proof. rewrite !Z.shiftr_div_pow2 by lia. change (2 ^ 1) with 2. Z.to_euclidean_division_equations; lia. Qed.

Lemma adjust_width r d : small_rect r -> - 2 ^ 30 <= d < 2 ^ 30 ->
  drm_rect_width (drm_rect_adjust_size r d 0) = s32 (x2 r - x1 r + d).
Proof.
  intros Hr%small_rect_inv Hd. unfold drm_rect_width, drm_rect_adjust_size. simpl.
  pose proof (half_sum d). pose proof (half_bound d). pose proof (half_bound (d + 1)).
  rewrite (s32_small (d + 1)) by lia. rewrite (s32_small (x1 r - _)), (s32_small (x2 r + _)) by lia.
  f_equal. lia.
Qed.

Lemma adjust_height r d : small_rect r -> - 2 ^ 30 <= d < 2 ^ 30 ->
  drm_rect_height (drm_rect_adjust_size r 0 d) = s32 (y2 r - y1 r + d).
Proof.
  intros Hr%small_rect_inv Hd. unfold drm_rect_height, drm_rect_adjust_size. simpl.
  pose proof (half_sum d). pose proof (half_bound d). pose proof (half_bound (d + 1)).
  rewrite (s32_small (d + 1)) by lia. rewrite (s32_small (y1 r - _)), (s32_small (y2 r + _)) by lia.
  f_equal. lia.
Qed.

(** The two uses of [drm_rect_adjust_size]: it sets the size it is asked for. *)
Lemma adjust_to_width r w : small_rect r -> 0 <= w <= x2 r - x1 r -> x2 r - x1 r < 2 ^ 30 ->
  drm_rect_width (drm_rect_adjust_size r (s32 (w - (x2 r - x1 r))) 0) = w.
Proof. intros Hr Hw Hr2. rewrite (s32_small (w - _)), adjust_width, s32_small; done || lia. Qed.

Lemma adjust_to_height r h : small_rect r -> 0 <= h <= y2 r - y1 r -> y2 r - y1 r < 2 ^ 30 ->
  drm_rect_height (drm_rect_adjust_size r 0 (s32 (h - (y2 r - y1 r)))) = h.
Proof. intros Hr Hh Hr2. rewrite (s32_small (h - _)), adjust_height, s32_small; done || lia. Qed.

Lemma calc_scale_pos s d : 0 <= s -> 0 < d -> drm_calc_scale s d = s / d.
Proof.
  intros Hs Hd. unfold drm_calc_scale. destruct (Z.ltb_spec s 0); [lia|].
  destruct (Z.ltb_spec d 0); [lia|]. destruct (Z.eqb_spec d 0); [lia|]. simpl.
  by apply Z.quot_div_nonneg.
Qed.

(** The common content of the two relaxed functions: the sizes they leave, and
    the scale the strict functions then compute. *)
Lemma relaxed_sizes sw dw lo hi :
  0 <= sw < 2 ^ 30 -> 0 < dw < 2 ^ 30 -> 0 < lo -> 2 * lo - 1 <= hi ->
  let sc := drm_calc_scale sw dw in
  let sw' := if sc <? lo then sw else if sc >? hi then dw * hi else sw in
  let dw' := if sc <? lo then Z.quot sw lo else dw in
  0 <= sw' <= sw /\ 0 <= dw' <= dw /\
  (dw' = 0 \/ lo <= drm_calc_scale sw' dw' <= hi).
Proof.
  intros Hs Hd Hlo Hhi. cbn zeta. rewrite (calc_scale_pos sw dw) by lia.
  pose proof (Z.div_mod sw dw). pose proof (Z.mod_pos_bound sw dw).
  destruct (Z.ltb_spec (sw / dw) lo) as [Hl|Hl].
  - rewrite Z.quot_div_nonneg by lia.
    pose proof (Z.div_mod sw lo). pose proof (Z.mod_pos_bound sw lo).
    assert (0 <= sw / lo) by (apply Z.div_pos; lia).
    assert (sw / lo <= dw) by nia. split; [lia|]. split; [lia|].
    destruct (Z.eqb_spec (sw / lo) 0) as [?|Hn]; [by left|]. right.
    rewrite calc_scale_pos by lia. split.
    + apply Z.div_le_lower_bound; nia.
    + assert (sw / (sw / lo) < hi + 1); [|lia]. apply Z.div_lt_upper_bound; nia.
  - destruct (Z.gtb_spec (sw / dw) hi) as [Hg|Hg].
    + split; [nia|]. split; [lia|]. right. rewrite calc_scale_pos by nia.
      rewrite Z.mul_comm, Z.div_mul by lia. lia.
    + split; [lia|]. split; [lia|]. right. rewrite calc_scale_pos by lia. lia.
Qed.

Lemma strict_of_sizes sw dw lo hi : 0 <= sw -> 0 <= dw ->
  (dw = 0 \/ lo <= drm_calc_scale sw dw <= hi) ->
  let sc := drm_calc_scale sw dw in
  (if (sc <? 0) || (dw =? 0) then sc
   else if (sc <? lo) || (sc >? hi) then - ERANGE else sc) = sc /\ 0 <= sc.
Proof.
  intros Hs Hd Hsc. simpl.
  assert (0 <= drm_calc_scale sw dw) as H0.
  { destruct (decide (dw = 0)) as [->|Hn].
    - unfold drm_calc_scale. destruct (Z.ltb_spec sw 0); [lia|]. done.
    - rewrite calc_scale_pos by lia. apply Z.div_pos; lia. }
  split; [|done]. destruct (Z.ltb_spec (drm_calc_scale sw dw) 0); [done|].
  destruct (Z.eqb_spec dw 0); [done|]. simpl. destruct Hsc as [?|Hsc]; [done|].
  destruct (Z.ltb_spec (drm_calc_scale sw dw) lo); [lia|].
  destruct (Z.gtb_spec (drm_calc_scale sw dw) hi); [lia|done].
Qed.

(** after the relaxed functions have adjusted the rectangles the strict
    ones accept them, in both directions, provided the range of factors spans
    at least [min .. 2*min-1]; the rectangles only shrink. *)
Theorem relaxed_then_strict src dst lo hi :
  small_rect src -> small_rect dst -> 0 < lo -> 2 * lo - 1 <= hi ->
  0 <= x2 src - x1 src < 2 ^ 30 -> 0 < x2 dst - x1 dst < 2 ^ 30 ->
  0 <= y2 src - y1 src < 2 ^ 30 -> 0 < y2 dst - y1 dst < 2 ^ 30 ->
  (let '(_, src', dst') := drm_rect_calc_hscale_relaxed src dst lo hi in
   0 <= drm_rect_calc_hscale src' dst' lo hi /\
   drm_rect_width src' <= drm_rect_width src /\ drm_rect_width dst' <= drm_rect_width dst) /\
  (let '(_, src', dst') := drm_rect_calc_vscale_relaxed src dst lo hi in
   0 <= drm_rect_calc_vscale src' dst' lo hi /\
   drm_rect_height src' <= drm_rect_height src /\ drm_rect_height dst' <= drm_rect_height dst).
Proof.
  intros Hs Hd Hlo Hhi Hsw Hdw Hsh Hdh.
  assert (forall sw dw, 0 <= sw -> 0 < dw -> (drm_calc_scale sw dw <? 0) || (dw =? 0) = false) as Hpos.
  { intros sw dw ? ?. rewrite calc_scale_pos by lia. destruct (Z.eqb_spec dw 0); [lia|].
    rewrite orb_false_r. apply Z.ltb_ge. apply Z.div_pos; lia. }
  split.
  - pose proof (relaxed_sizes (x2 src - x1 src) (x2 dst - x1 dst) lo hi Hsw Hdw Hlo Hhi) as H.
    unfold drm_rect_calc_hscale_relaxed.
    rewrite (width_small src), (width_small dst), Hpos by (done || lia). cbn zeta in H |- *.
    destruct (_ <? lo) eqn:E1; [|destruct (_ >? hi) eqn:E2]; destruct H as (H1 & H2 & H3);
      destruct (strict_of_sizes _ _ lo hi (proj1 H1) (proj1 H2) H3) as [E ?];
      unfold drm_rect_calc_hscale; rewrite ?(s32_small (_ * hi)) by lia;
      rewrite ?adjust_to_width, ?(width_small src), ?(width_small dst) by (done || lia); cbn zeta; rewrite E; lia.
  - pose proof (relaxed_sizes (y2 src - y1 src) (y2 dst - y1 dst) lo hi Hsh Hdh Hlo Hhi) as H.
    unfold drm_rect_calc_vscale_relaxed.
    rewrite (height_small src), (height_small dst), Hpos by (done || lia). cbn zeta in H |- *.
    destruct (_ <? lo) eqn:E1; [|destruct (_ >? hi) eqn:E2]; destruct H as (H1 & H2 & H3);
      destruct (strict_of_sizes _ _ lo hi (proj1 H1) (proj1 H2) H3) as [E ?];
      unfold drm_rect_calc_vscale; rewrite ?(s32_small (_ * hi)) by lia;
      rewrite ?adjust_to_height, ?(height_small src), ?(height_small dst) by (done || lia); cbn zeta; rewrite E; lia.
Qed.

Lemma relaxed_then_strict_witness :
  let '(_, src', dst') := drm_rect_calc_hscale_relaxed (mk_rect 0 0 1000 10) (mk_rect 0 0 10 10) 1 16 in
  0 <= drm_rect_calc_hscale src' dst' 1 16 /\
  drm_rect_width src' <= 1000 /\ drm_rect_width dst' <= 10.
Proof.
  refine (proj1 (relaxed_then_strict (mk_rect 0 0 1000 10) (mk_rect 0 0 10 10) 1 16 _ _ _ _ _ _ _ _));
    try small_rect_tac; cbn [x1 x2 y1 y2]; lia.
Defined.
