(* ===== verification/Idr.v ===== *)
(** * Integer identifiers: the [struct idr] of drm_sun_idr.c

    Identifiers below [0x7fffffff] are handed out from a sorted list of ranges
    that covers them all; each range has a high-water mark and a stack of
    identifiers given back.  The AVL tree of the identifiers in use, keyed by
    identifier, is the finite map it implements ([avl_add] of a key that is
    present is a panic).  Whether a KM_NOSLEEP allocation succeeds is an
    argument. *)

From S2P Require Import Prelude.

Definition ID_MAX : Z := 0x7fffffff.

Record idr_free_id_range := mk_range {
  fr_start : Z;
  fr_end : Z;
  min_unused_id : Z;
  free_ids : list Z }.

Section Idr.
Context {A : Type}.

Record idr := mk_idr {
  used_ids : gmap Z A;
  free_id_ranges : list idr_free_id_range }.

(** ** Ranges *)

Definition fr_isfull (range : idr_free_id_range) : bool :=
  min_unused_id range >=? fr_end range.

Definition fr_new (start : Z) : idr_free_id_range := mk_range start ID_MAX start [].

(** The list from the range that starts at [start], and what is before it. *)
Fixpoint fr_get (l : list idr_free_id_range) (start : Z)
    : option (list idr_free_id_range * list idr_free_id_range) :=
  match l with
  | [] => None
  | entry :: l' =>
      if negb (fr_start entry =? start)
      then '(before, from) ← fr_get l' start; Some (entry :: before, from)
      else Some ([], entry :: l')
  end.

(** The new range split off [prev], which [next] follows. *)
Definition fr_link (prev : idr_free_id_range) (next : list idr_free_id_range) (start : Z)
    : idr_free_id_range * idr_free_id_range :=
  let n := fr_new start in
  let prev := mk_range (fr_start prev) start (min_unused_id prev) (free_ids prev) in
  let n := match next with
           | [] => n
           | nx :: _ => mk_range (fr_start n) (fr_start nx) (min_unused_id n) (free_ids n)
           end in
  if fr_isfull prev then
    let low := filter (fun id => id < start) (free_ids prev) in
    let high := filter (fun id => ~ id < start) (free_ids prev) in
    (mk_range (fr_start prev) (fr_end prev) start low,
     mk_range (fr_start n) (fr_end n) (min_unused_id prev) (rev high))
  else (prev, n).

(** An empty list of ranges is a NULL dereference. *)
Fixpoint fr_insert (l : list idr_free_id_range) (start : Z)
    : option (list idr_free_id_range * list idr_free_id_range) :=
  match l with
  | [] => None
  | prev :: next =>
      match next with
      | nx :: _ =>
          if fr_start nx <? start
          then '(before, from) ← fr_insert next start; Some (prev :: before, from)
          else let '(prev, n) := fr_link prev next start in Some ([prev], n :: next)
      | [] => let '(prev, n) := fr_link prev next start in Some ([prev], n :: next)
      end
  end.

Definition idr_get_free_id_in_range (range : idr_free_id_range) : Z * idr_free_id_range :=
  match free_ids range with
  | id :: rest => (id, mk_range (fr_start range) (fr_end range) (min_unused_id range) rest)
  | [] =>
      if negb (fr_isfull range)
      then (min_unused_id range,
            mk_range (fr_start range) (fr_end range) (u32 (min_unused_id range + 1)) [])
      else (-1, range)
  end.

(** The walk of [idr_get_new_above] over the ranges. *)
Fixpoint get_free_id (l : list idr_free_id_range) : option (Z * list idr_free_id_range) :=
  match l with
  | [] => None
  | range :: l' =>
      let '(id, range) := idr_get_free_id_in_range range in
      if id >=? 0 then Some (id, range :: l')
      else '(id, l') ← get_free_id l'; Some (id, range :: l')
  end.

(** ** Operations *)

Definition idr_init : idr := mk_idr ∅ [fr_new 0].

(** The return value, the identifier stored in [*newid], and the new state;
    [used_ok] is whether [kmem_alloc] of the used node succeeds. *)
Definition idr_get_new_above (i : idr) (obj : A) (start : Z) (used_ok : bool)
    : option (Z * option Z * idr) :=
  if start <? 0 then Some (- EINVAL, None, i) else
  '(before, range) ← (match fr_get (free_id_ranges i) start with
                      | Some r => Some r
                      | None => fr_insert (free_id_ranges i) start
                      end);
  match get_free_id range with
  | None => Some (-1, None, mk_idr (used_ids i) (before ++ range))
  | Some (id, range) =>
      if negb used_ok then Some (- ENOMEM, None, mk_idr (used_ids i) (before ++ range)) else
      _ ← BUG_ON (bool_decide (is_Some (used_ids i !! id)));
      Some (0, Some id, mk_idr (<[id := obj]> (used_ids i)) (before ++ range))
  end.

Definition idr_find (i : idr) (id : Z) : option A := used_ids i !! id.

(** The range whose end is above [id] gets it; walking off the list is a fault. *)
Fixpoint put_free_id (l : list idr_free_id_range) (id : Z) : option (list idr_free_id_range) :=
  match l with
  | [] => None
  | range :: l' =>
      if fr_end range <=? id then cons range <$> put_free_id l' id
      else Some (mk_range (fr_start range) (fr_end range) (min_unused_id range)
                   (id :: free_ids range) :: l')
  end.

Definition idr_remove (i : idr) (id : Z) (fid_ok : bool) : option (Z * idr) :=
  match used_ids i !! id with
  | None => Some (- EINVAL, i)
  | Some _ =>
      if negb fid_ok then Some (- ENOMEM, i) else
      l ← put_free_id (free_id_ranges i) id;
      Some (0, mk_idr (delete id (used_ids i)) l)
  end.

(** The old object, or none for [(void * )(-EINVAL)]. *)
Definition idr_replace (i : idr) (obj : A) (id : Z) : option A * idr :=
  match used_ids i !! id with
  | None => (None, i)
  | Some old => (Some old, mk_idr (<[id := obj]> (used_ids i)) (free_id_ranges i))
  end.

(** The state [idr_destroy] leaves. *)
Definition idr_destroy (i : idr) : idr := mk_idr ∅ [].

Definition idr_remove_all (i : idr) : idr := let _ := idr_destroy i in idr_init.

(** ** The invariant *)

(** A range is within its bounds, and what it can hand out is distinct. *)
Definition range_ok (r : idr_free_id_range) : Prop :=
  fr_start r <= min_unused_id r <= fr_end r /\ NoDup (free_ids r) /\
  forall id, id ∈ free_ids r -> fr_start r <= id < min_unused_id r.

(** The ranges from [s] to [e] follow each other without gaps; the starts after
    the first are strictly increasing. *)
Fixpoint cover (s e : Z) (l : list idr_free_id_range) : Prop :=
  match l with
  | [] => False
  | r :: l' =>
      fr_start r = s /\ range_ok r /\
      match l' with
      | [] => fr_end r = e
      | nx :: _ => s < fr_start nx /\ fr_end r = fr_start nx /\ cover (fr_start nx) e l'
      end
  end.

(** [id] is ready to be handed out: given back, or above a high-water mark. *)
Definition available (l : list idr_free_id_range) (id : Z) : Prop :=
  exists r, r ∈ l /\ (id ∈ free_ids r \/ min_unused_id r <= id < fr_end r).

Record idr_wf (i : idr) : Prop := {
  idr_cover : cover 0 ID_MAX (free_id_ranges i);
  idr_used_range : forall id, is_Some (used_ids i !! id) -> 0 <= id < ID_MAX;
  idr_used_off : forall id, is_Some (used_ids i !! id) -> ~ available (free_id_ranges i) id }.

(** No identifier is lost: one that is not in use can be handed out. *)
Definition idr_full (i : idr) : Prop :=
  forall id, 0 <= id < ID_MAX -> used_ids i !! id = None -> available (free_id_ranges i) id.
End Idr.
#[global] Arguments idr : clear implicits.

(** ** Lemmas on ranges *)

Lemma available_cons r l id : available (r :: l) id <->
  (id ∈ free_ids r \/ min_unused_id r <= id < fr_end r) \/ available l id.
Proof.
  unfold available. split.
  - intros (r' & [->|Hr]%elem_of_cons & H); [by left|right; eauto].
  - intros [H|(r' & Hr & H)]; [exists r; split; [by left|done]|].
    exists r'. split; [by right|done].
Qed.

Lemma available_nil id : ~ available [] id.
Proof. intros (r & Hr & _). by apply elem_of_nil in Hr. Qed.

Lemma available_app l1 l2 id : available (l1 ++ l2) id <-> available l1 id \/ available l2 id.
Proof.
  induction l1 as [|r l1 IH]; simpl.
  - pose proof (available_nil id). tauto.
  - rewrite !available_cons, IH. tauto.
Qed.

Lemma cover_le s e l : cover s e l -> s <= e.
Proof.
  revert s. induction l as [|r l IH]; intros s; [done|]. intros (<- & (Hr & _) & Hl).
  destruct l as [|nx l]; [lia|]. destruct Hl as (? & ? & Hl). specialize (IH _ Hl). lia.
Qed.

Lemma cover_available s e l id : cover s e l -> available l id -> s <= id < e.
Proof.
  revert s. induction l as [|r l IH]; intros s; [done|].
  intros (<- & (Hr & _ & Hf) & Hl) [Hid|Hid]%available_cons.
  - assert (fr_start r <= id < fr_end r) as Hb by (destruct Hid as [Hid%Hf|]; lia).
    destruct l as [|nx l]; [lia|]. destruct Hl as (? & ? & Hl). pose proof (cover_le _ _ _ Hl). lia.
  - destruct l as [|nx l]; [by apply available_nil in Hid|].
    destruct Hl as (? & ? & Hl). specialize (IH _ Hl Hid). lia.
Qed.

(** Splitting a cover between two ranges. *)
Lemma cover_app s e l1 nx l2 : l1 <> [] ->
  cover s e (l1 ++ nx :: l2) <->
  cover s (fr_start nx) l1 /\ (forall r, r ∈ l1 -> fr_start r < fr_start nx) /\
  cover (fr_start nx) e (nx :: l2).
Proof.
  revert s. induction l1 as [|r l1 IH]; [done|]. intros s _.
  destruct l1 as [|r2 l1].
  - cbn [app cover]. split.
    + intros (<- & Hr & ? & ? & Hc). split; [done|]. split; [|done]. intros r' ->%list_elem_of_singleton. lia.
    + intros ((<- & Hr & ?) & Hlt & Hc). do 2 (split; [done|]). split; [|done]. apply Hlt. by left.
  - change ((r :: r2 :: l1) ++ nx :: l2) with (r :: (r2 :: l1) ++ nx :: l2).
    assert (cover s e (r :: (r2 :: l1) ++ nx :: l2) <-> fr_start r = s /\ range_ok r /\
      s < fr_start r2 /\ fr_end r = fr_start r2 /\ cover (fr_start r2) e ((r2 :: l1) ++ nx :: l2)) as -> by done.
    rewrite IH by done.
    assert (cover s (fr_start nx) (r :: r2 :: l1) <-> fr_start r = s /\ range_ok r /\
      s < fr_start r2 /\ fr_end r = fr_start r2 /\ cover (fr_start r2) (fr_start nx) (r2 :: l1)) as -> by done.
    split.
    + intros (<- & ? & ? & ? & ? & Hlt & ?). split; [done|]. split; [|done].
      intros r' [->|Hr']%elem_of_cons; [|by apply Hlt].
      assert (fr_start r2 < fr_start nx) by (apply Hlt; by left). lia.
    + intros ((<- & ? & ? & ? & ?) & Hlt & ?). do 5 (split; [done|]). split; [|done].
      intros r' Hr'. apply Hlt. by right.
Qed.

Lemma cover_start s e l : cover s e l -> exists r l', l = r :: l' /\ fr_start r = s.
Proof. destruct l as [|r l]; [done|]. intros [? _]. eauto. Qed.

Lemma fr_get_Some l start b f : fr_get l start = Some (b, f) ->
  l = b ++ f /\ exists r f', f = r :: f' /\ fr_start r = start.
Proof.
  revert b f. induction l as [|a l IH]; intros b f; simpl; [done|].
  destruct (Z.eqb_spec (fr_start a) start) as [E|E]; simpl.
  - intros [= <- <-]. split; [done|]. eauto.
  - destruct (fr_get l start) as [[b' f']|]; [|done]. simpl. intros [= <- <-].
    destruct (IH b' f' eq_refl) as (-> & r & f'' & -> & ?). split; [done|]. eauto.
Qed.

Lemma fr_get_None l start r : fr_get l start = None -> r ∈ l -> fr_start r <> start.
Proof.
  induction l as [|a l IH]; simpl; [by intros _ ?%elem_of_nil|].
  destruct (Z.eqb_spec (fr_start a) start) as [E|E]; [done|]. simpl.
  destruct (fr_get l start) as [[b' f']|]; [done|]. intros _ [->|Hr]%elem_of_cons; [done|]. by apply IH.
Qed.

(** ** Splitting a range *)

Lemma fr_link_spec s e prev next start p n :
  cover s e (prev :: next) -> s < start <= e -> e = ID_MAX ->
  match next with [] => True | nx :: _ => start < fr_start nx end ->
  fr_link prev next start = (p, n) ->
  cover s e (p :: n :: next) /\ fr_start n = start /\
  forall id, available (p :: n :: next) id <-> available (prev :: next) id.
Proof.
  intros (Hs & (Hb & Hnd & Hf) & Hnext) Hst -> Hlt Hlink.
  set (nend := match next with [] => ID_MAX | nx :: _ => fr_start nx end).
  assert (fr_end prev = nend /\ start <= nend /\
    (forall p n, fr_start p = s -> range_ok p -> fr_end p = start -> fr_start n = start -> range_ok n ->
      fr_end n = nend -> cover s ID_MAX (p :: n :: next))) as (Hend & Hle & Hcov).
  { unfold nend. destruct next as [|nx next'].
    - split; [done|]. split; [lia|]. intros p0 n0 Hp1 Hp2 Hp3 Hn1 Hn2 Hn3.
      cbn [cover]. rewrite Hn1. split_and!; done || lia.
    - destruct Hnext as (Hn1 & Hn2 & Hc). split; [done|]. split; [lia|].
      intros p0 n0 Hp1 Hp2 Hp3 Hn3 Hn4 Hn5.
      change (fr_start p0 = s /\ range_ok p0 /\ s < fr_start n0 /\ fr_end p0 = fr_start n0 /\
        (fr_start n0 = fr_start n0 /\ range_ok n0 /\ fr_start n0 < fr_start nx /\
         fr_end n0 = fr_start nx /\ cover (fr_start nx) ID_MAX (nx :: next'))).
      rewrite Hn3. split_and!; done || lia. }
  clear Hnext.
  assert (match next with [] => fr_new start | nx :: _ =>
    mk_range (fr_start (fr_new start)) (fr_start nx) (min_unused_id (fr_new start)) (free_ids (fr_new start)) end
    = mk_range start nend start []) as En by (unfold nend; by destruct next).
  unfold fr_link in Hlink. rewrite En in Hlink. clear En. unfold fr_isfull in Hlink. simpl in Hlink.
  destruct (min_unused_id prev >=? start) eqn:Hfull; injection Hlink as <- <-.
  - zbool. split; [|split; [done|]].
    + apply Hcov; try done; unfold range_ok; simpl.
      * split; [lia|]. split; [by apply NoDup_filter|]. intros id [Hid Hin%Hf]%list_elem_of_filter. lia.
      * split; [lia|]. split; [by apply NoDup_ListNoDup, List.NoDup_rev, NoDup_ListNoDup, NoDup_filter|].
        intros id Hid. rewrite list_elem_of_In, <-in_rev, <-list_elem_of_In in Hid.
        apply list_elem_of_filter in Hid as [Hid Hin%Hf]. lia.
    + intros id. rewrite !available_cons. simpl.
      rewrite (list_elem_of_In (rev _)), <-in_rev, <-list_elem_of_In, !list_elem_of_filter, Hend.
      destruct (decide (id < start)); intuition lia.
  - zbool. split; [|split; [done|]].
    + apply Hcov; try done; unfold range_ok; simpl.
      * split; [lia|]. split; [done|]. intros id Hin%Hf. lia.
      * split; [lia|]. split; [constructor|]. by intros id ?%elem_of_nil.
    + intros id. rewrite !available_cons. simpl. rewrite elem_of_nil, Hend. intuition lia.
Qed.

Lemma fr_insert_spec s l start :
  cover s ID_MAX l -> s < start <= ID_MAX -> (forall r, r ∈ l -> fr_start r <> start) ->
  exists b f, fr_insert l start = Some (b, f) /\ b <> [] /\ cover s ID_MAX (b ++ f) /\
    (exists r f', f = r :: f' /\ fr_start r = start) /\
    forall id, available (b ++ f) id <-> available l id.
Proof.
  revert s. induction l as [|prev next IH]; intros s Hc Hst Hne; [done|].
  assert (forall p n, match next with [] => True | nx :: _ => start < fr_start nx end ->
    fr_link prev next start = (p, n) ->
    exists b f, Some ([p], n :: next) = Some (b, f) /\ b <> [] /\ cover s ID_MAX (b ++ f) /\
    (exists r f', f = r :: f' /\ fr_start r = start) /\
    forall id, available (b ++ f) id <-> available (prev :: next) id) as Hlink.
  { intros p n Hlt Hl. destruct (fr_link_spec s ID_MAX prev next start p n Hc Hst eq_refl Hlt Hl) as (? & ? & ?).
    exists [p], (n :: next). do 3 (split; [done|]). split; [by exists n, next|done]. }
  cbn [fr_insert]. destruct next as [|nx next'].
  - destruct (fr_link prev [] start) as [p n] eqn:El. by apply Hlink.
  - destruct (Z.ltb_spec (fr_start nx) start) as [Hlt|Hge].
    + clear Hlink. destruct Hc as (Hs & Hr & Hsn & He & Hc).
      destruct (IH (fr_start nx) Hc) as (b & f & -> & Hb & Hc' & Hf & Hav); [lia| |].
      { intros r Hr'. apply Hne. by right. }
      exists (prev :: b), f. split; [done|]. split; [done|]. split; [|split; [done|]].
      * destruct (cover_start _ _ _ Hc') as (r & l' & El & Er). cbn [app]. rewrite El in *.
        split; [done|]. split; [done|]. rewrite Er. done.
      * intros id. cbn [app]. by rewrite !available_cons, Hav, !available_cons.
    + destruct (fr_link prev (nx :: next') start) as [p n] eqn:El. apply Hlink; [|done].
      assert (fr_start nx <> start) by (apply Hne; right; by left). lia.
Qed.

(** ** Taking and giving back an identifier *)

Lemma cover_tail s e r l : cover s e (r :: l) ->
  (l = [] /\ fr_end r = e) \/ (cover (fr_end r) e l /\ s < fr_end r).
Proof.
  destruct l as [|nx l]; [intros (_ & _ & ?); by left|]. intros (_ & _ & ? & E & ?). right. by rewrite E.
Qed.

(** Replacing the head range by one with the same bounds. *)
Lemma cover_head s e r r' l : cover s e (r :: l) -> fr_start r' = fr_start r -> fr_end r' = fr_end r ->
  range_ok r' -> cover s e (r' :: l).
Proof. destruct l as [|nx l]; intros (? & ? & Hl) Es Ee Hr; (split; [congruence|split; [done|]]); rewrite Ee; done. Qed.

Lemma cover_cons s e r l l' : cover s e (r :: l) -> l <> [] -> cover (fr_end r) e l' ->
  cover s e (r :: l').
Proof.
  intros Hc Hne Hl'. destruct l as [|nx l]; [done|]. destruct Hc as (? & ? & Hs & He & _).
  destruct (cover_start _ _ _ Hl') as (r2 & l2 & -> & E). split; [done|]. split; [done|].
  rewrite E. split; [lia|]. split; [done|]. done.
Qed.

Lemma get_free_id_spec s e l : cover s e l -> 0 <= s -> e <= ID_MAX ->
  match get_free_id l with
  | None => forall x, ~ available l x
  | Some (id, l') => cover s e l' /\ available l id /\
      forall x, available l' x <-> available l x /\ x <> id
  end.
Proof.
  revert s. induction l as [|r l IH]; intros s Hc Hs He; [done|].
  pose proof Hc as (Hsr & (Hb & Hnd & Hf) & _).
  assert (forall x, available l x -> fr_end r <= x) as Htail.
  { intros x Hx. destruct (cover_tail _ _ _ _ Hc) as [[-> _]|[Hc' _]]; [by apply available_nil in Hx|].
    by apply (cover_available _ _ _ x Hc'). }
  assert (fr_end r <= e) as Hre.
  { destruct (cover_tail _ _ _ _ Hc) as [[_ ?]|[Hc' _]]; [lia|]. by apply cover_le in Hc'. }
  cbn [get_free_id]. unfold idr_get_free_id_in_range.
  destruct (free_ids r) as [|id rest] eqn:Ef.
  - unfold fr_isfull. destruct (min_unused_id r >=? fr_end r) eqn:Hfull; zbool; cbn [negb].
    + change (-1 >=? 0) with false. cbn iota.
      assert (forall x, available (r :: l) x <-> available l x) as Hav.
      { intros x. rewrite available_cons, Ef, elem_of_nil. intuition lia. }
      destruct (cover_tail _ _ _ _ Hc) as [[-> Hee]|[Hc' Hse]].
      { simpl. intros x. rewrite Hav. apply available_nil. }
      specialize (IH _ Hc'). destruct (get_free_id l) as [[id l']|]; cbn [mbind option_bind].
      * destruct IH as (Hcl & Hin & Hiff); [lia|done|]. split; [|split].
        -- apply (cover_cons s e r l l' Hc); [|done]. intros ->. by destruct Hc'.
        -- by rewrite Hav.
        -- intros x. rewrite Hav, <-Hiff, available_cons, Ef, elem_of_nil. intuition lia.
      * intros x. rewrite Hav. apply IH; [lia|done].
    + assert ((min_unused_id r >=? 0) = true) as -> by (rewrite Z.geb_leb; apply Z.leb_le; lia).
      assert (min_unused_id r < ID_MAX) by lia. unfold ID_MAX in *.
      rewrite u32_small by lia. split; [|split].
      * apply (cover_head s e r); try done. unfold range_ok. simpl. split; [lia|].
        split; [constructor|]. by intros x ?%elem_of_nil.
      * rewrite available_cons. left. right. lia.
      * intros x. rewrite !available_cons, Ef. simpl. rewrite elem_of_nil.
        split; [intros [?|Hx]; [intuition lia|]|intuition lia].
        split; [by right|]. specialize (Htail x Hx). lia.
  - assert (id ∈ free_ids r) as Hid by (rewrite Ef; by left). rewrite <-Ef in Hf.
    specialize (Hf id Hid) as Hidb. apply NoDup_cons in Hnd as [Hni Hnd].
    assert ((id >=? 0) = true) as -> by (rewrite Z.geb_leb; apply Z.leb_le; lia).
    split; [|split].
    + apply (cover_head s e r); try done. unfold range_ok. simpl. split; [lia|]. split; [done|].
      intros x Hx. apply Hf. rewrite Ef. by right.
    + rewrite available_cons. left. by left.
    + intros x. rewrite !available_cons, Ef. simpl. rewrite elem_of_cons.
      assert (x ∈ rest -> x <> id) by (intros ? ->; done).
      assert (available l x -> x <> id) by (intros Hx ->; specialize (Htail id Hx); lia).
      intuition lia.
Qed.

Lemma put_free_id_spec s e l id : cover s e l -> s <= id < e -> ~ available l id ->
  exists l', put_free_id l id = Some l' /\ cover s e l' /\
    forall x, available l' x <-> available l x \/ x = id.
Proof.
  revert s. induction l as [|r l IH]; intros s Hc Hid Hno; [done|].
  pose proof Hc as (Hsr & (Hb & Hnd & Hf) & _). rewrite available_cons in Hno.
  cbn [put_free_id]. destruct (Z.leb_spec (fr_end r) id) as [Hle|Hgt].
  - destruct (cover_tail _ _ _ _ Hc) as [[_ ?]|[Hc' Hse]]; [lia|].
    destruct (IH _ Hc') as (l' & -> & Hcl & Hav); [lia|tauto|].
    exists (r :: l'). split; [done|]. split.
    + apply (cover_cons s e r l l' Hc); [|done]. intros ->. by destruct Hc'.
    + intros x. rewrite !available_cons, Hav. tauto.
  - eexists. split; [done|]. split.
    + apply (cover_head s e r); try done. unfold range_ok. simpl. split; [lia|]. split.
      * apply NoDup_cons. tauto.
      * intros x [->|Hx]%elem_of_cons; [|by apply Hf]. lia.
    + intros x. rewrite !available_cons. simpl. rewrite elem_of_cons. tauto.
Qed.

(** ** The operations *)

Section Operations.
Context {A : Type}.
Implicit Types (i : idr A).

Lemma idr_init_wf : idr_wf (@idr_init A) /\ idr_full (@idr_init A).
Proof.
  split.
  - split; simpl.
    + unfold range_ok, fr_new, ID_MAX. simpl. split_and!; try done; try lia; [constructor|].
      by intros id ?%elem_of_nil.
    + intros id [? Hx]. by rewrite lookup_empty in Hx.
    + intros id [? Hx]. by rewrite lookup_empty in Hx.
  - intros id Hid _. exists (fr_new 0). split; [by left|]. right. done.
Qed.

Lemma cover_split s e b f r f' : cover s e (b ++ f) -> f = r :: f' -> cover (fr_start r) e f.
Proof.
  intros Hc ->. destruct b as [|r0 b].
  - simpl in Hc. pose proof Hc as [-> _]. done.
  - by apply cover_app in Hc as (_ & _ & ?).
Qed.

Lemma cover_replace s e b f f' r t : cover s e (b ++ f) -> f = r :: t -> cover (fr_start r) e f' ->
  cover s e (b ++ f').
Proof.
  intros Hc -> Hf'. destruct b as [|r0 b].
  - simpl in *. pose proof Hc as [E _]. by rewrite <-E.
  - apply cover_app in Hc as (Hb & Hlt & _); [|done].
    destruct (cover_start _ _ _ Hf') as (r2 & l2 & -> & E). apply cover_app; [done|]. by rewrite E.
Qed.

(** Where [idr_get_new_above] starts looking. *)
Lemma locate_range i start : idr_wf i -> 0 <= start <= ID_MAX ->
  exists b f r f', (match fr_get (free_id_ranges i) start with
      | Some r => Some r | None => fr_insert (free_id_ranges i) start end) = Some (b, f) /\
    f = r :: f' /\ fr_start r = start /\ cover 0 ID_MAX (b ++ f) /\
    (forall id, available (b ++ f) id <-> available (free_id_ranges i) id).
Proof.
  intros Hwf Hst. pose proof (idr_cover _ Hwf) as Hc.
  destruct (fr_get (free_id_ranges i) start) as [[b f]|] eqn:E.
  - destruct (fr_get_Some _ _ _ _ E) as (El & r & f' & -> & Er).
    exists b, (r :: f'), r, f'. rewrite <-El. done.
  - assert (0 < start).
    { destruct (cover_start _ _ _ Hc) as (r & l & El & Er).
      assert (fr_start r <> start); [|lia]. apply (fr_get_None _ _ r E). rewrite El. by left. }
    destruct (fr_insert_spec 0 (free_id_ranges i) start Hc) as (b & f & -> & _ & Hc' & (r & f' & -> & Er) & Hav).
    { lia. }
    { intros r Hr. by apply (fr_get_None _ _ r E). }
    exists b, (r :: f'), r, f'. done.
Qed.

(** Taking [id] out of what is available, whether or not it is then used. *)
Lemma wf_take i i' id : idr_wf i -> 0 <= id < ID_MAX -> cover 0 ID_MAX (free_id_ranges i') ->
  (forall x, available (free_id_ranges i') x <-> available (free_id_ranges i) x /\ x <> id) ->
  (used_ids i' = used_ids i \/ exists obj, used_ids i' = <[id := obj]> (used_ids i)) -> idr_wf i'.
Proof.
  intros Hwf Hid Hc Hav Hu. split; [done| |].
  - intros x Hx. destruct Hu as [E|[obj E]]; rewrite E in Hx; [by apply (idr_used_range _ Hwf)|].
    apply lookup_insert_is_Some' in Hx as [<-|Hx]; [done|]. by apply (idr_used_range _ Hwf).
  - intros x Hx Hx'. apply Hav in Hx' as [Hx' Hne].
    destruct Hu as [E|[obj E]]; rewrite E in Hx; [by apply (idr_used_off _ Hwf x)|].
    apply lookup_insert_is_Some' in Hx as [<-|Hx]; [done|]. by apply (idr_used_off _ Hwf x).
Qed.

(** The outcome of [idr_get_new_above]. *)
Inductive new_outcome i (obj : A) (start : Z) (ok : bool) : Z -> option Z -> idr A -> Prop :=
| NewOk id i' : start <= id < ID_MAX -> used_ids i !! id = None -> available (free_id_ranges i) id ->
    used_ids i' = <[id := obj]> (used_ids i) ->
    (forall x, available (free_id_ranges i') x <-> available (free_id_ranges i) x /\ x <> id) ->
    new_outcome i obj start ok 0 (Some id) i'
| NewInval : start < 0 -> new_outcome i obj start ok (- EINVAL) None i
| NewNomem id i' : ok = false -> start <= id < ID_MAX -> available (free_id_ranges i) id ->
    used_ids i' = used_ids i ->
    (forall x, available (free_id_ranges i') x <-> available (free_id_ranges i) x /\ x <> id) ->
    new_outcome i obj start ok (- ENOMEM) None i'
| NewFull i' : used_ids i' = used_ids i ->
    (forall x, available (free_id_ranges i') x <-> available (free_id_ranges i) x) ->
    (forall x, start <= x < ID_MAX -> ~ available (free_id_ranges i) x) ->
    new_outcome i obj start ok (-1) None i'.

Lemma idr_get_new_above_run i obj start ok : idr_wf i -> start <= ID_MAX ->
  exists ret nid i', idr_get_new_above i obj start ok = Some (ret, nid, i') /\
    idr_wf i' /\ new_outcome i obj start ok ret nid i'.
Proof.
  intros Hwf Hst. unfold idr_get_new_above. destruct (Z.ltb_spec start 0) as [Hneg|Hpos].
  { exists (- EINVAL), None, i. split; [done|]. split; [done|]. by constructor. }
  destruct (locate_range i start Hwf) as (b & f & r & f' & -> & Ef & Er & Hc & Hav); [lia|].
  cbn [mbind option_bind]. pose proof (cover_split _ _ _ _ _ _ Hc Ef) as Hcf. rewrite Er in Hcf.
  pose proof (get_free_id_spec start ID_MAX f Hcf Hpos) as Hget.
  destruct (get_free_id f) as [[id g]|].
  - destruct Hget as (Hcg & Hin & Hiff); [done|].
    pose proof (cover_available _ _ _ _ Hcf Hin) as Hid.
    assert (available (free_id_ranges i) id) as Hin' by (apply Hav, available_app; by right).
    assert (used_ids i !! id = None) as Hun.
    { destruct (used_ids i !! id) eqn:E; [|done].
      destruct (idr_used_off _ Hwf id); [by rewrite E|done]. }
    assert (cover 0 ID_MAX (b ++ g)) as Hcg'
      by (apply (cover_replace _ _ b f g r f' Hc Ef); by rewrite Er).
    assert (forall x, available (b ++ g) x <-> available (free_id_ranges i) x /\ x <> id) as Hav'.
    { intros x. rewrite <-Hav, !available_app, Hiff. split; [|tauto].
      intros [Hx|[? ?]]; [|tauto]. split; [by left|]. intros ->.
      destruct b as [|r0 b]; [by apply available_nil in Hx|]. rewrite Ef in Hc.
      apply cover_app in Hc as (Hcb & _); [|done].
      pose proof (cover_available _ _ _ _ Hcb Hx). lia. }
    destruct ok; cbn [negb].
    + unfold BUG_ON. rewrite bool_decide_eq_false_2 by (rewrite Hun; by intros [? ?]).
      cbn [mbind option_bind]. eexists 0, (Some id), _. split; [done|]. split.
      * apply (wf_take i _ id Hwf); [lia|done|done|]. right. by exists obj.
      * by apply NewOk.
    + eexists (- ENOMEM), None, _. split; [done|]. split.
      * apply (wf_take i _ id Hwf); [lia|done|done|by left].
      * by apply (NewNomem _ _ _ _ id).
  - eexists (-1), None, _. split; [done|]. split.
    + split; simpl; [done|apply Hwf|]. intros x Hx. rewrite Hav. by apply (idr_used_off _ Hwf).
    + apply NewFull; [done|done|]. intros x Hx Hax. apply Hav in Hax.
      apply available_app in Hax as [Hax|Hax]; [|by apply (Hget ltac:(done) x)].
      destruct b as [|r0 b]; [by apply available_nil in Hax|]. rewrite Ef in Hc.
      apply cover_app in Hc as (Hcb & _); [|done].
      pose proof (cover_available _ _ _ _ Hcb Hax). lia.
Qed.

(** C24: [idr_get_new_above] never fails on a well-formed state: it hands out an
    identifier that is not in use, at or above the one asked for and below
    INT_MAX; or it reports bad input, lack of memory or, when every identifier
    from [start] on is in use, -1, and no identifier changes its object. *)
Theorem idr_get_new_above_sound i obj start ok :
  idr_wf i -> idr_full i -> start <= ID_MAX ->
  exists ret nid i', idr_get_new_above i obj start ok = Some (ret, nid, i') /\ idr_wf i' /\
    ((ret = 0 /\ exists id, nid = Some id /\ 0 <= start /\ start <= id < ID_MAX /\
        used_ids i !! id = None /\ used_ids i' = <[id := obj]> (used_ids i) /\ idr_full i') \/
     (nid = None /\ used_ids i' = used_ids i /\
        ((ret = - EINVAL /\ start < 0) \/ (ret = - ENOMEM /\ ok = false) \/
         (ret = -1 /\ 0 <= start /\ forall id, start <= id < ID_MAX -> is_Some (used_ids i !! id))))).
Proof.
  intros Hwf Hfull Hst. destruct (idr_get_new_above_run i obj start ok Hwf Hst) as (ret & nid & i' & Hr & Hwf' & Ho).
  exists ret, nid, i'. split; [done|]. split; [done|].
  destruct Ho as [id i' Hid Hun Hin Hu Hav|Hneg|id i' Hok Hid Hin Hu Hav|i' Hu Hav Hno].
  - left. split; [done|]. exists id. split; [done|].
    assert (0 <= start) by (destruct (Z.lt_ge_cases start 0); [|done]; unfold idr_get_new_above in Hr;
      rewrite (proj2 (Z.ltb_lt _ _)) in Hr by done; by injection Hr).
    split; [lia|]. split; [lia|]. split; [done|]. split; [done|]. intros x Hx Hxn. apply Hav.
    rewrite Hu, lookup_insert_None in Hxn. destruct Hxn. split; [by apply Hfull|done].
  - right. split; [done|]. split; [done|]. by left.
  - right. split; [done|]. split; [done|]. right. by left.
  - right. split; [done|]. split; [done|]. right. right. split; [done|].
    assert (0 <= start) by (destruct (Z.lt_ge_cases start 0); [|done]; unfold idr_get_new_above in Hr;
      rewrite (proj2 (Z.ltb_lt _ _)) in Hr by done; by injection Hr).
    split; [done|]. intros id Hid.
    destruct (used_ids i !! id) eqn:E; [by eexists|]. destruct (Hno id); [lia|]. apply Hfull; [lia|done].
Qed.

Lemma idr_remove_run i id ok : idr_wf i ->
  exists ret i', idr_remove i id ok = Some (ret, i') /\ idr_wf i' /\ (idr_full i -> idr_full i') /\
    match used_ids i !! id with
    | None => ret = - EINVAL /\ i' = i
    | Some _ => if ok then ret = 0 /\ used_ids i' = delete id (used_ids i)
                else ret = - ENOMEM /\ i' = i
    end.
Proof.
  intros Hwf. unfold idr_remove. destruct (used_ids i !! id) as [obj|] eqn:E.
  2: { exists (- EINVAL), i. done. }
  destruct ok; cbn [negb]; [|by exists (- ENOMEM), i].
  assert (0 <= id < ID_MAX) as Hid by (apply (idr_used_range _ Hwf); by rewrite E).
  destruct (put_free_id_spec 0 ID_MAX (free_id_ranges i) id (idr_cover _ Hwf) Hid) as (l & -> & Hc & Hav).
  { apply (idr_used_off _ Hwf). by rewrite E. }
  cbn [mbind option_bind]. eexists 0, _. split; [done|]. split; [|split; [|done]].
  - split; simpl; [done| |].
    + intros x [_ Hx]%lookup_delete_is_Some. by apply (idr_used_range _ Hwf).
    + intros x [Hne Hx]%lookup_delete_is_Some [Hx'| ->]%Hav; [by apply (idr_used_off _ Hwf x)|done].
  - intros Hfull x Hx Hxn. simpl in *. apply Hav. destruct (decide (x = id)) as [->|Hne]; [by right|].
    rewrite lookup_delete_ne in Hxn by done. left. by apply Hfull.
Qed.

(** removal of an identifier in use always finds the range to give it back
    to, and makes exactly that identifier unused; [idr_find] and [idr_replace]
    read and write the object of an identifier. *)
Theorem idr_remove_sound i id ok : idr_wf i ->
  (exists ret i', idr_remove i id ok = Some (ret, i') /\ idr_wf i' /\ (idr_full i -> idr_full i') /\
     (is_Some (idr_find i id) -> ok = true ->
        ret = 0 /\ forall x, idr_find i' x = if decide (x = id) then None else idr_find i x) /\
     (ret <> 0 -> i' = i)) /\
  (forall obj, let '(old, i') := idr_replace i obj id in old = idr_find i id /\ idr_wf i' /\
     forall x, idr_find i' x = if decide (x = id) then (fun _ => obj) <$> old else idr_find i x).
Proof.
  intros Hwf. split.
  - destruct (idr_remove_run i id ok Hwf) as (ret & i' & Hr & Hwf' & Hf & Hm).
    exists ret, i'. split; [done|]. split; [done|]. split; [done|]. unfold idr_find.
    destruct (used_ids i !! id) as [obj|].
    + destruct ok; destruct Hm as [-> E].
      * split; [|done]. intros _ _. split; [done|]. intros x. rewrite E. case_decide as Hx.
        -- rewrite Hx. apply lookup_delete_eq.
        -- by apply lookup_delete_ne.
      * by split.
    + destruct Hm as [_ ->]. split; [by intros [? ?]|done].
  - intros obj. unfold idr_replace, idr_find. destruct (used_ids i !! id) as [old|] eqn:E.
    + split; [done|]. split.
      * split; simpl; [apply Hwf| |].
        -- intros x [<-|Hx]%lookup_insert_is_Some'; apply (idr_used_range _ Hwf); [by rewrite E|done].
        -- intros x [<-|Hx]%lookup_insert_is_Some'; apply (idr_used_off _ Hwf); [by rewrite E|done].
      * intros x. simpl. case_decide as Hx; [rewrite Hx; apply lookup_insert_eq|by apply lookup_insert_ne].
    + split; [done|]. split; [done|]. intros x. simpl. case_decide as Hx; [by rewrite Hx|done].
Qed.

(** an allocation failure loses an identifier: [idr_get_new_above] has taken
    one when it finds that there is no memory, and does not give it back. *)
Theorem idr_enomem_leaks i obj start : idr_wf i -> 0 <= start <= ID_MAX ->
  (exists x, start <= x < ID_MAX /\ available (free_id_ranges i) x) ->
  exists id i', idr_get_new_above i obj start false = Some (- ENOMEM, None, i') /\
    idr_find i' id = None /\ start <= id < ID_MAX /\ ~ available (free_id_ranges i') id /\ ~ idr_full i'.
Proof.
  intros Hwf Hst (x & Hx & Hax).
  destruct (idr_get_new_above_run i obj start false Hwf) as (ret & nid & i' & Hr & Hwf' & Ho); [lia|].
  destruct Ho as [id i' Hid Hun Hin Hu Hav|Hneg|id i' Hok Hid Hin Hu Hav|i' Hu Hav Hno].
  - exfalso. unfold idr_get_new_above in Hr. destruct (Z.ltb_spec start 0); [lia|].
    destruct (match fr_get _ start with Some r => Some r | None => _ end) as [[b f]|]; [|done].
    cbn [mbind option_bind] in Hr. destruct (get_free_id f) as [[id' g]|]; by injection Hr.
  - lia.
  - exists id, i'. split; [done|].
    assert (idr_find i' id = None) as Hn.
    { unfold idr_find. rewrite Hu. destruct (used_ids i !! id) eqn:E; [|done].
      destruct (idr_used_off _ Hwf id); [by rewrite E|done]. }
    assert (~ available (free_id_ranges i') id) as Hna by (rewrite Hav; tauto).
    split; [done|]. split; [done|]. split; [done|]. intros Hf. apply Hna, Hf; [lia|done].
  - by destruct (Hno x Hx).
Qed.
End Operations.

(** ** At a concrete state *)


Lemma idr_get_new_above_sound_witness : exists ret nid i',
  idr_get_new_above (@idr_init Z) 7 5 true = Some (ret, nid, i') /\ idr_wf i'.
Proof.
  destruct (idr_get_new_above_sound (@idr_init Z) 7 5 true (proj1 idr_init_wf) (proj2 idr_init_wf))
    as (r & n & i' & H1 & H2 & _); [unfold ID_MAX; lia|].
  exact (ex_intro _ r (ex_intro _ n (ex_intro _ i' (conj H1 H2)))).
Defined.

Lemma idr_remove_sound_witness : exists ret i',
  idr_remove (@idr_init Z) 7 true = Some (ret, i') /\ idr_wf i'.
Proof.
  destruct (proj1 (idr_remove_sound (@idr_init Z) 7 true (proj1 idr_init_wf))) as (r & i' & H1 & H2 & _).
  exact (ex_intro _ r (ex_intro _ i' (conj H1 H2))).
Defined.

Lemma idr_enomem_leaks_witness : exists id i',
  idr_get_new_above (@idr_init Z) 7 5 false = Some (- ENOMEM, None, i') /\ idr_find i' id = None.
Proof.
  destruct (idr_enomem_leaks (@idr_init Z) 7 5 (proj1 idr_init_wf)) as (id & i' & H1 & H2 & _).
  - unfold ID_MAX. lia.
  - exists 9. split; [unfold ID_MAX; lia|]. exists (fr_new 0). split; [by left|]. right. unfold fr_new, ID_MAX. simpl. lia.
  - exact (ex_intro _ id (ex_intro _ i' (conj H1 H2))).
Defined.
