(* ===== verification/HandleTable.v ===== *)
(** * The interface of a table of integer handles

    What the clients of the identifier tables rely on.  [G] is state shared by
    all the tables of a kind (counters), [T] one table, [A] what handles stand
    for.  Errors are negative return values; [None] is a fault.  IdrList gives
    the instance the GEM objects use, Context the one the contexts use. *)

From S2P Require Import Prelude.

(** The operations. *)
Class HandleTable (G T A : Type) := {
  ht_find : T -> Z -> option (option A);
  ht_new : G -> T -> A -> bool -> option (Z * option Z * G * T);
  ht_remove : T -> Z -> bool -> option (Z * T) }.

(** The laws: a table is a finite map from handles; a new handle is not in use
    and positive; no operation on one table invalidates another. *)
Class HandleTableLaws (G T A : Type) `{!HandleTable G T A} := {
  ht_ok : nat -> G -> Prop;        (* the counters allow that many allocations *)
  ht_ok_le n m g : (m <= n)%nat -> ht_ok n g -> ht_ok m g;
  ht_inv : G -> T -> Prop;
  ht_map : T -> gmap Z A;
  ht_capacity : Z;
  ht_find_spec g t id : ht_inv g t -> 0 <= id < 2 ^ 32 -> ht_find t id = Some (ht_map t !! id);
  ht_range g t id : ht_inv g t -> is_Some (ht_map t !! id) -> 0 < id < 2 ^ 31;
  ht_new_spec n g t a ok : ht_ok (S n) g -> ht_inv g t ->
    exists ret nid g' t', ht_new g t a ok = Some (ret, nid, g', t') /\ ht_inv g' t' /\ ht_ok n g' /\
      (forall t2, ht_inv g t2 -> ht_inv g' t2) /\
      ((exists id, ret = 0 /\ nid = Some id /\ 0 < id < 2 ^ 31 /\ ht_map t !! id = None /\
          ht_map t' = <[id := a]> (ht_map t)) \/
       (ret < 0 /\ nid = None /\ t' = t));
  ht_new_again g t a ok g' t' nid : ht_ok 2 g -> ht_inv g t ->
    ht_new g t a ok = Some (- EAGAIN, nid, g', t') -> Z.of_nat (size (ht_map t)) < ht_capacity ->
    forall ret nid' g2 t2, ht_new g' t a ok = Some (ret, nid', g2, t2) -> ret <> - EAGAIN;
  ht_remove_spec g t id ok : ht_inv g t -> 0 <= id < 2 ^ 32 ->
    exists ret t', ht_remove t id ok = Some (ret, t') /\ ht_inv g t' /\
      ((ret = 0 /\ is_Some (ht_map t !! id) /\ ht_map t' = delete id (ht_map t)) \/
       (ret < 0 /\ t' = t /\ (ht_map t !! id = None \/ ok = false))) }.
