(* ===== verification/IdrList.v ===== *)
(** * Handle tables: the [struct idr_list] of drm_sun_idr.c

    A hash table of 1024 circular lists; an entry is put right after the head
    of its list.  The handles come from counters shared by all tables: [fr_id]
    runs through the handles once without looking, and after that looks for the
    next one that is free in the table. *)

From S2P Require Import Prelude HandleTable.

Definition DRM_GEM_OBJIDR_HASHNODE : Z := 1024.
Definition HANDLE_MAX : Z := 0x7fffffff.

(** The global variables. *)
Record ids := mk_ids { fr_id : Z; fr_time : Z }.

Section IdrList.
Context {A : Type}.

(** Each list from the entry after its head; no lists at all when the array has
    been freed. *)
Abbreviation idr_list := (list (list (Z * A))).

Definition hash_key (name : Z) : nat := Z.to_nat (name mod DRM_GEM_OBJIDR_HASHNODE).

Definition idr_list_init : idr_list := replicate (Z.to_nat DRM_GEM_OBJIDR_HASHNODE) [].

(** [list_for_each], up to the entry with the handle. *)
Fixpoint find_entry (l : list (Z * A)) (name : Z) : option A :=
  match l with
  | [] => None
  | (handle, obj) :: l => if handle =? name then Some obj else find_entry l name
  end.

Fixpoint del_entry (l : list (Z * A)) (name : Z) : option (list (Z * A)) :=
  match l with
  | [] => None
  | (handle, obj) :: l =>
      if handle =? name then Some l else cons (handle, obj) <$> del_entry l name
  end.

Definition idr_list_find (head : idr_list) (name : Z) : option (option A) :=
  l ← head !! hash_key name; Some (find_entry l name).

(** The [do ... while] loop that looks for a handle that is not in use. *)
Fixpoint find_available (fuel : nat) (head : idr_list) (id : Z) : option Z :=
  match fuel with
  | O => None
  | S fuel =>
      obj_temp ← idr_list_find head id;
      match obj_temp with
      | None => Some id
      | Some _ => if id + 1 <? HANDLE_MAX then find_available fuel head (id + 1) else Some (id + 1)
      end
  end.

(** Enough steps: every step but the last meets a different entry. *)
Definition find_fuel (head : idr_list) : nat := S (length (concat head)).

(** The return value, [*handlep] if it was set, the counters and the table;
    [alloc_ok] is whether kmem_zalloc succeeds. *)
Definition idr_list_get_new_above (g : ids) (head : idr_list) (obj : A) (alloc_ok : bool)
    : option (Z * option Z * ids * idr_list) :=
  _ ← BUG_ON (negb (fr_id g <=? HANDLE_MAX));
  let g := mk_ids (u32 (fr_id g + 1)) (fr_time g) in
  let g := if fr_id g =? HANDLE_MAX then mk_ids 1 (u32 (fr_time g + 1)) else g in
  '(ret, id, g) ← (
    if negb (fr_time g =? 0) then
      id ← find_available (find_fuel head) head (fr_id g);
      if id <? HANDLE_MAX then Some (0, id, mk_ids id (fr_time g))
      else Some (- EAGAIN, id, mk_ids 0 (fr_time g))
    else Some (0, fr_id g, g));
  if negb (ret =? 0) then Some (ret, None, g, head) else
  if negb alloc_ok then Some (-1, None, g, head) else
  _ ← BUG_ON (negb (id <=? HANDLE_MAX));
  l ← head !! hash_key id;
  Some (0, Some id, g, <[hash_key id := (id, obj) :: l]> head).

Definition idr_list_remove (head : idr_list) (name : Z) : option (Z * idr_list) :=
  l ← head !! hash_key name;
  match del_entry l name with
  | Some l => Some (0, <[hash_key name := l]> head)
  | None => Some (-1, head)
  end.

(** The array is freed with every entry. *)
Definition idr_list_free (head : idr_list) : idr_list := [].

(** [list_empty] of each list in turn; the value is that of the first list that
    is not empty. *)
Definition idr_list_empty (head : idr_list) : Z :=
  if forallb (fun l => match l with [] => true | _ => false end) head then 1 else 0.

(** ** The map a table stands for *)

Definition handles (t : idr_list) : gmap Z A := list_to_map (concat t).

Record idr_list_wf (g : ids) (t : idr_list) : Prop := {
  il_length : length t = Z.to_nat DRM_GEM_OBJIDR_HASHNODE;
  il_hash : forall k l id obj, t !! k = Some l -> (id, obj) ∈ l -> hash_key id = k;
  il_nodup : NoDup (concat t).*1;
  il_range : forall id obj, (id, obj) ∈ concat t -> 0 < id < HANDLE_MAX;
  il_fr_id : 0 <= fr_id g < HANDLE_MAX;
  il_fr_time : 0 <= fr_time g;
  il_first : fr_time g = 0 -> forall id obj, (id, obj) ∈ concat t -> id <= fr_id g }.

Lemma hash_key_lt name : (hash_key name < Z.to_nat DRM_GEM_OBJIDR_HASHNODE)%nat.
Proof.
  unfold hash_key, DRM_GEM_OBJIDR_HASHNODE.
  pose proof (Z.mod_pos_bound name 1024). lia.
Qed.

Lemma bucket_is_Some g t name : idr_list_wf g t -> exists l, t !! hash_key name = Some l.
Proof.
  intros Hwf. destruct (t !! hash_key name) as [l|] eqn:E; [by exists l|].
  apply lookup_ge_None in E. rewrite (il_length _ _ Hwf) in E. pose proof (hash_key_lt name). lia.
Qed.

Lemma elem_of_concat (t : idr_list) x : x ∈ concat t <-> exists k l, t !! k = Some l /\ x ∈ l.
Proof.
  rewrite list_elem_of_In, in_concat. split.
  - intros (l & Hl & Hx). apply list_elem_of_In in Hl, Hx.
    apply list_elem_of_lookup in Hl as [k Hk]. eauto.
  - intros (k & l & Hk & Hx). exists l. rewrite <-!list_elem_of_In.
    split; [by eapply list_elem_of_lookup_2|done].
Qed.

Lemma in_bucket g t id obj l : idr_list_wf g t -> t !! hash_key id = Some l ->
  (id, obj) ∈ concat t <-> (id, obj) ∈ l.
Proof.
  intros Hwf Hl. rewrite elem_of_concat. split; [|by eauto].
  intros (k & l' & Hk & Hx). pose proof (il_hash _ _ Hwf k l' id obj Hk Hx) as <-. congruence.
Qed.

Lemma handles_lookup g t id obj : idr_list_wf g t ->
  handles t !! id = Some obj <-> (id, obj) ∈ concat t.
Proof. intros Hwf. symmetry. apply elem_of_list_to_map, (il_nodup _ _ Hwf). Qed.

Lemma find_entry_elem l id obj : find_entry l id = Some obj -> (id, obj) ∈ l.
Proof.
  induction l as [|[h o] l IH]; simpl; [done|]. destruct (Z.eqb_spec h id) as [->|Hne].
  - intros [= ->]. by left.
  - intros H. right. by apply IH.
Qed.

Lemma find_entry_None l id obj : find_entry l id = None -> ~ (id, obj) ∈ l.
Proof.
  induction l as [|[h o] l IH]; simpl; [by intros _ ?%elem_of_nil|].
  destruct (Z.eqb_spec h id) as [->|Hne]; [done|]. intros H [[= -> ->]|Hx]%elem_of_cons; [done|].
  by apply IH.
Qed.

Lemma find_spec g t id : idr_list_wf g t -> idr_list_find t id = Some (handles t !! id).
Proof.
  intros Hwf. unfold idr_list_find. destruct (bucket_is_Some g t id Hwf) as [l Hl]. rewrite Hl.
  cbn [mbind option_bind]. f_equal. destruct (find_entry l id) as [obj|] eqn:E.
  - symmetry. apply (handles_lookup g t id obj Hwf), (in_bucket g t id obj l Hwf Hl).
    by apply find_entry_elem.
  - symmetry. destruct (handles t !! id) as [obj|] eqn:E'; [|done].
    apply (handles_lookup g t id obj Hwf), (in_bucket g t id obj l Hwf Hl) in E'.
    by destruct (find_entry_None l id obj E).
Qed.

(** Changing one list of the table. *)
Lemma concat_split (t : idr_list) k l : t !! k = Some l ->
  concat t = concat (take k t) ++ l ++ concat (drop (S k) t).
Proof. intros Hk. rewrite <-(take_drop_middle t k l Hk) at 1. by rewrite concat_app. Qed.

Lemma concat_insert (t : idr_list) k l l' : t !! k = Some l ->
  concat (<[k := l']> t) = concat (take k t) ++ l' ++ concat (drop (S k) t).
Proof.
  intros Hk. apply lookup_lt_Some in Hk as Hlt. rewrite (insert_take_drop t k l' Hlt). by rewrite concat_app.
Qed.

Lemma concat_insert_perm (t : idr_list) k l x : t !! k = Some l ->
  concat (<[k := x :: l]> t) ≡ₚ x :: concat t.
Proof.
  intros Hk. rewrite (concat_insert t k l _ Hk), (concat_split t k l Hk). simpl.
  symmetry. apply Permutation_middle.
Qed.

Lemma concat_delete_perm (t : idr_list) k l l' x : t !! k = Some l -> l ≡ₚ x :: l' ->
  concat t ≡ₚ x :: concat (<[k := l']> t).
Proof.
  intros Hk Hl. rewrite (concat_insert t k l _ Hk), (concat_split t k l Hk), Hl. simpl.
  symmetry. apply Permutation_middle.
Qed.

Lemma del_entry_perm l id l' : del_entry l id = Some l' -> exists obj, l ≡ₚ (id, obj) :: l'.
Proof.
  revert l'. induction l as [|[h o] l IH]; intros l'; simpl; [done|].
  destruct (Z.eqb_spec h id) as [->|Hne].
  - intros [= <-]. by exists o.
  - intros (l2 & Hl2 & ->)%fmap_Some. destruct (IH l2 Hl2) as (obj & E).
    exists obj. rewrite E. apply perm_swap.
Qed.

Lemma del_entry_None l id obj : del_entry l id = None -> ~ (id, obj) ∈ l.
Proof.
  induction l as [|[h o] l IH]; simpl; [by intros _ ?%elem_of_nil|].
  destruct (Z.eqb_spec h id) as [->|Hne]; [done|]. intros H%fmap_None [[= -> ->]|Hx]%elem_of_cons; [done|].
  by apply IH.
Qed.

(** ** The loop ends *)

Lemma handles_size g t : idr_list_wf g t -> size (handles t) = length (concat t).
Proof. intros Hwf. unfold handles. rewrite map_size_list_to_map; [done|apply Hwf]. Qed.

(** Consecutive handles in use are as many entries. *)
Lemma used_run_size (m : gmap Z A) id n :
  (forall x, id <= x < id + Z.of_nat n -> is_Some (m !! x)) -> (n <= size m)%nat.
Proof.
  revert m id. induction n as [|n IH]; intros m id Hu; [lia|].
  destruct (Hu id) as [obj Hobj]; [lia|].
  assert (n <= size (delete id m))%nat.
  { apply (IH _ (id + 1)). intros x Hx. rewrite lookup_delete_ne by lia. apply Hu. lia. }
  rewrite <-(insert_delete_id m id obj Hobj), map_size_insert_None by apply lookup_delete_eq. lia.
Qed.

Lemma find_available_spec g t id n : idr_list_wf g t -> 0 < id < HANDLE_MAX ->
  (length (concat t) < n)%nat ->
  exists r, find_available n t id = Some r /\ id <= r <= HANDLE_MAX /\
    (forall x, id <= x < r -> is_Some (handles t !! x)) /\
    (r < HANDLE_MAX -> handles t !! r = None).
Proof.
  intros Hwf.
  assert (forall n k id, (forall x, id - Z.of_nat k <= x < id -> is_Some (handles t !! x)) ->
    (length (concat t) < n + k)%nat -> 0 < id < HANDLE_MAX ->
    exists r, find_available n t id = Some r /\ id <= r <= HANDLE_MAX /\
      (forall x, id <= x < r -> is_Some (handles t !! x)) /\
      (r < HANDLE_MAX -> handles t !! r = None)) as Hgen.
  { clear id n. induction n as [|n IH]; intros k id Hk Hn Hid.
    - pose proof (used_run_size (handles t) (id - Z.of_nat k) k) as Hle.
      rewrite (handles_size g t Hwf) in Hle.
      assert (k <= length (concat t))%nat; [|lia]. apply Hle. intros x Hx. apply Hk. lia.
    - cbn [find_available]. rewrite (find_spec g t id Hwf). cbn [mbind option_bind].
      destruct (handles t !! id) as [obj|] eqn:E.
      + destruct (Z.ltb_spec (id + 1) HANDLE_MAX) as [Hlt|Hge].
        * destruct (IH (S k) (id + 1)) as (r & -> & Hr & Hu & Hf).
          { intros x Hx. destruct (decide (x = id)) as [->|]; [by exists obj|]. apply Hk. lia. }
          { lia. } { lia. }
          exists r. split; [done|]. split; [lia|]. split; [|done]. intros x Hx.
          destruct (decide (x = id)) as [->|]; [by exists obj|]. apply Hu. lia.
        * exists (id + 1). split; [done|]. split; [lia|]. split; [|lia].
          intros x Hx. assert (x = id) as -> by lia. by exists obj.
      + exists id. split; [done|]. split; [lia|]. split; [lia|done]. }
  intros Hid Hn. apply (Hgen n 0%nat); [lia|lia|done].
Qed.

(** ** The operations *)

Lemma init_wf g : 0 <= fr_id g < HANDLE_MAX -> 0 <= fr_time g -> idr_list_wf g idr_list_init.
Proof.
  intros Hg Ht. assert (concat idr_list_init = []) as E.
  { unfold idr_list_init. induction (Z.to_nat DRM_GEM_OBJIDR_HASHNODE); simpl; done. }
  split.
  - apply length_replicate.
  - intros k l id obj [-> _]%lookup_replicate Hx. by apply elem_of_nil in Hx.
  - rewrite E. constructor.
  - rewrite E. by intros id obj ?%elem_of_nil.
  - done.
  - done.
  - rewrite E. by intros _ id obj ?%elem_of_nil.
Qed.

(** The counters only move forward, so that other tables stay well formed. *)
Definition ids_le (g g' : ids) : Prop :=
  0 <= fr_id g' < HANDLE_MAX /\ 0 <= fr_time g' <= fr_time g + 1 /\
  (fr_time g' = 0 -> fr_time g = 0 /\ fr_id g <= fr_id g').

Lemma wf_ids_le g g' t : idr_list_wf g t -> ids_le g g' -> idr_list_wf g' t.
Proof.
  intros Hwf (Hi & [Ht _] & Hle). destruct Hwf. split; try done.
  intros H0 id obj Hx. destruct (Hle H0) as [H1 H2]. specialize (il_first0 H1 id obj Hx). lia.
Qed.

Lemma add_wf g t id obj l : idr_list_wf g t -> t !! hash_key id = Some l ->
  handles t !! id = None -> 0 < id < HANDLE_MAX -> (fr_time g = 0 -> id <= fr_id g) ->
  idr_list_wf g (<[hash_key id := (id, obj) :: l]> t) /\
  handles (<[hash_key id := (id, obj) :: l]> t) = <[id := obj]> (handles t).
Proof.
  intros Hwf Hl Hn Hid Hfirst. pose proof (concat_insert_perm t (hash_key id) l (id, obj) Hl) as Hp.
  assert (NoDup (id :: (concat t).*1)) as Hnd.
  { apply NoDup_cons. split; [|apply Hwf]. intros ([id' o] & Heq & Hx)%list_elem_of_fmap.
    simpl in Heq. subst id'. apply (handles_lookup g t id o Hwf) in Hx. congruence. }
  assert (NoDup (concat (<[hash_key id := (id, obj) :: l]> t)).*1) as Hnd' by by rewrite Hp.
  split.
  - split.
    + rewrite length_insert. apply Hwf.
    + intros k l' id' o Hk Hx. destruct (decide (k = hash_key id)) as [->|Hne].
      * rewrite list_lookup_insert_eq in Hk by by eapply lookup_lt_Some. injection Hk as <-.
        apply elem_of_cons in Hx as [[= -> ->]|Hx]; [done|]. by apply (il_hash _ _ Hwf _ l id' o).
      * rewrite list_lookup_insert_ne in Hk by done. by apply (il_hash _ _ Hwf k l' id' o).
    + done.
    + intros id' o. rewrite Hp. intros [[= -> ->]|Hx]%elem_of_cons; [done|]. by apply (il_range _ _ Hwf id' o).
    + apply Hwf.
    + apply Hwf.
    + intros H0 id' o. rewrite Hp. intros [[= -> ->]|Hx]%elem_of_cons; [by apply Hfirst|].
      by apply (il_first _ _ Hwf H0 id' o).
  - unfold handles. rewrite (list_to_map_proper _ _ Hnd' Hp). done.
Qed.

(** The counter before the search for a free handle. *)
Definition next_id (g : ids) : Z := if fr_id g + 1 =? HANDLE_MAX then 1 else fr_id g + 1.

Definition ids_ok (g : ids) : Prop := fr_time g + 1 < 2 ^ 32.

Inductive new_outcome (g : ids) (t : idr_list) (obj : A) (ok : bool)
    : Z -> option Z -> ids -> idr_list -> Prop :=
| NewHandle id g' t' : 0 < id < HANDLE_MAX -> handles t !! id = None ->
    handles t' = <[id := obj]> (handles t) -> new_outcome g t obj ok 0 (Some id) g' t'
| NewNomem g' : ok = false -> new_outcome g t obj ok (-1) None g' t
| NewAgain g' : fr_id g' = 0 -> fr_time g' <> 0 ->
    (forall id, next_id g <= id < HANDLE_MAX -> is_Some (handles t !! id)) ->
    new_outcome g t obj ok (- EAGAIN) None g' t.

Lemma store_run g t obj ok id : idr_list_wf g t -> handles t !! id = None -> 0 < id < HANDLE_MAX ->
  (fr_time g = 0 -> id <= fr_id g) ->
  exists ret nid t', (if negb ok then Some (-1, None, g, t) else
    _ ← BUG_ON (negb (id <=? HANDLE_MAX));
    l ← t !! hash_key id;
    Some (0, Some id, g, <[hash_key id := (id, obj) :: l]> t)) = Some (ret, nid, g, t') /\
    idr_list_wf g t' /\
    ((ret = 0 /\ nid = Some id /\ handles t' = <[id := obj]> (handles t)) \/
     (ret = -1 /\ nid = None /\ t' = t /\ ok = false)).
Proof.
  intros Hwf Hn Hid Hf. destruct ok; cbn [negb].
  - assert ((id <=? HANDLE_MAX) = true) as -> by (apply Z.leb_le; lia). cbn [negb BUG_ON mbind option_bind].
    destruct (bucket_is_Some g t id Hwf) as [l Hl]. rewrite Hl. cbn [mbind option_bind].
    destruct (add_wf g t id obj l Hwf Hl Hn Hid Hf) as [Hwf' Hh].
    exists 0, (Some id), (<[hash_key id := (id, obj) :: l]> t). split; [done|]. split; [done|]. by left.
  - exists (-1), None, t. split; [done|]. split; [done|]. by right.
Qed.

Lemma get_new_above_run g t obj ok : idr_list_wf g t -> ids_ok g ->
  exists ret nid g' t', idr_list_get_new_above g t obj ok = Some (ret, nid, g', t') /\
    idr_list_wf g' t' /\ ids_le g g' /\ new_outcome g t obj ok ret nid g' t'.
Proof.
  intros Hwf Hok. unfold ids_ok in Hok. pose proof (il_fr_id _ _ Hwf) as Hid. pose proof (il_fr_time _ _ Hwf) as Ht.
  unfold idr_list_get_new_above.
  assert ((fr_id g <=? HANDLE_MAX) = true) as -> by (apply Z.leb_le; lia).
  cbn [negb BUG_ON mbind option_bind fr_id fr_time]. unfold HANDLE_MAX in Hid. rewrite !u32_small by lia.
  set (g1 := if fr_id g + 1 =? HANDLE_MAX then mk_ids 1 (fr_time g + 1) else mk_ids (fr_id g + 1) (fr_time g)).
  assert (fr_id g1 = next_id g /\ 0 < fr_id g1 < HANDLE_MAX /\ ids_le g g1 /\
    (fr_time g1 = 0 -> fr_id g1 = fr_id g + 1)) as (En & Hr1 & Hle1 & Hone).
  { unfold g1, next_id, ids_le, HANDLE_MAX. destruct (Z.eqb_spec (fr_id g + 1) 0x7fffffff); simpl; lia. }
  clearbody g1. pose proof (wf_ids_le g g1 t Hwf Hle1) as Hwf1.
  destruct (Z.eqb_spec (fr_time g1) 0) as [Hz|Hz]; cbn [negb].
  - cbn [mbind option_bind]. change (0 =? 0) with true. cbn [negb].
    assert (handles t !! fr_id g1 = None) as Hn.
    { destruct (handles t !! fr_id g1) as [o|] eqn:E; [|done]. exfalso.
      apply (handles_lookup g t _ o Hwf) in E. destruct Hle1 as (_ & _ & Hl). destruct (Hl Hz) as [H0 _].
      pose proof (il_first _ _ Hwf H0 _ o E). rewrite (Hone Hz) in *. lia. }
    destruct (store_run g1 t obj ok (fr_id g1) Hwf1 Hn Hr1) as (ret & nid & t' & -> & Hwf' & Hout); [lia|].
    exists ret, nid, g1, t'. split; [done|]. split; [done|]. split; [done|].
    destruct Hout as [(-> & -> & ?)|(-> & -> & -> & ?)]; by constructor.
  - destruct (find_available_spec g1 t (fr_id g1) (find_fuel t) Hwf1 Hr1) as (r & -> & Hr & Hu & Hf).
    { unfold find_fuel. lia. }
    cbn [mbind option_bind]. destruct (Z.ltb_spec r HANDLE_MAX) as [Hlt|Hge]; cbn [mbind option_bind].
    + change (0 =? 0) with true. cbn [negb].
      assert (ids_le g (mk_ids r (fr_time g1))) as Hle2.
      { destruct Hle1 as (? & ? & ?). unfold ids_le. simpl. lia. }
      assert (idr_list_wf (mk_ids r (fr_time g1)) t) as Hwf2 by by apply (wf_ids_le g).
      destruct (store_run (mk_ids r (fr_time g1)) t obj ok r Hwf2) as (ret & nid & t' & -> & Hwf' & Hout);
        [by apply Hf|lia|done|].
      exists ret, nid, (mk_ids r (fr_time g1)), t'. split; [done|]. split; [done|]. split; [done|].
      destruct Hout as [(-> & -> & ?)|(-> & -> & -> & ?)]; constructor; try done; [lia|by apply Hf].
    + change (- EAGAIN =? 0) with false. cbn [negb].
      assert (ids_le g (mk_ids 0 (fr_time g1))) as Hle2.
      { destruct Hle1 as (? & ? & ?). unfold ids_le, HANDLE_MAX. simpl. lia. }
      exists (- EAGAIN), None, (mk_ids 0 (fr_time g1)), t. split; [done|]. split; [by apply (wf_ids_le g)|].
      split; [done|]. apply NewAgain; [done|done|]. rewrite <-En. intros x Hx. apply Hu. lia.
Qed.

Lemma list_remove_run g t id : idr_list_wf g t ->
  exists ret t', idr_list_remove t id = Some (ret, t') /\ idr_list_wf g t' /\
    ((ret = 0 /\ is_Some (handles t !! id) /\ handles t' = delete id (handles t)) \/
     (ret = -1 /\ t' = t /\ handles t !! id = None)).
Proof.
  intros Hwf. unfold idr_list_remove. destruct (bucket_is_Some g t id Hwf) as [l Hl]. rewrite Hl.
  cbn [mbind option_bind]. destruct (del_entry l id) as [l'|] eqn:E.
  - destruct (del_entry_perm l id l' E) as [obj Hp].
    pose proof (concat_delete_perm t (hash_key id) l l' (id, obj) Hl Hp) as Hc.
    assert (NoDup ((id, obj) :: concat (<[hash_key id := l']> t)).*1) as Hnd.
    { pose proof (il_nodup _ _ Hwf) as H. by rewrite Hc in H. }
    simpl in Hnd. pose proof Hnd as [Hni Hnd']%NoDup_cons.
    assert (handles t = <[id := obj]> (handles (<[hash_key id := l']> t))) as Hh.
    { unfold handles. by rewrite (list_to_map_proper _ _ (il_nodup _ _ Hwf) Hc). }
    assert (handles (<[hash_key id := l']> t) !! id = None) as Hn
      by (apply not_elem_of_list_to_map; done).
    eexists 0, _. split; [done|]. split.
    + split.
      * rewrite length_insert. apply Hwf.
      * intros k l2 id' o Hk Hx. destruct (decide (k = hash_key id)) as [->|Hne].
        -- rewrite list_lookup_insert_eq in Hk by by eapply lookup_lt_Some. injection Hk as <-.
           apply (il_hash _ _ Hwf _ l id' o Hl). rewrite Hp. by right.
        -- rewrite list_lookup_insert_ne in Hk by done. by apply (il_hash _ _ Hwf k l2 id' o).
      * done.
      * intros id' o Hx. apply (il_range _ _ Hwf id' o). rewrite Hc. by right.
      * apply Hwf.
      * apply Hwf.
      * intros H0 id' o Hx. apply (il_first _ _ Hwf H0 id' o). rewrite Hc. by right.
    + left. split; [done|]. rewrite Hh. split; [by rewrite lookup_insert_eq|].
      by rewrite delete_insert_id.
  - exists (-1), t. split; [done|]. split; [done|]. right. split; [done|]. split; [done|].
    destruct (handles t !! id) as [obj|] eqn:Ex; [|done].
    apply (handles_lookup g t id obj Hwf), (in_bucket g t id obj l Hwf Hl) in Ex.
    by destruct (del_entry_None l id obj E).
Qed.

(** ** The table as an instance of the interface *)

#[export] Instance idr_list_table : HandleTable ids idr_list A := {
  ht_find := idr_list_find;
  ht_new := idr_list_get_new_above;
  ht_remove t id _ := idr_list_remove t id }.

(** After -EAGAIN the search starts again from the first handle. *)
Lemma not_again_twice g t obj ok ret nid g' t' : idr_list_wf g t -> ids_ok g ->
  fr_id g = 0 -> Z.of_nat (size (handles t)) < HANDLE_MAX - 1 ->
  idr_list_get_new_above g t obj ok = Some (ret, nid, g', t') -> ret <> - EAGAIN.
Proof.
  intros Hwf Hok H0 Hsz Hr. destruct (get_new_above_run g t obj ok Hwf Hok) as (ret2 & nid2 & g2 & t2 & Hr2 & _ & _ & Ho).
  rewrite Hr in Hr2. injection Hr2 as <- <- <- <-.
  destruct Ho as [| |g' Hz Ht Hu]; [unfold EAGAIN; lia..|]. exfalso.
  pose proof (used_run_size (handles t) 1 (Z.to_nat (HANDLE_MAX - 1))) as Hle.
  assert (Z.to_nat (HANDLE_MAX - 1) <= size (handles t))%nat; [|unfold HANDLE_MAX in *; lia].
  apply Hle. intros x Hx. apply Hu. unfold next_id. rewrite H0. unfold HANDLE_MAX in *. simpl. lia.
Qed.

#[export] Program Instance idr_list_laws : HandleTableLaws ids idr_list A := {|
  ht_ok n g := fr_time g + Z.of_nat n < 2 ^ 32;
  ht_inv := idr_list_wf;
  ht_map := handles;
  ht_capacity := HANDLE_MAX - 1 |}.
Next Obligation. simpl. lia. Qed.
Next Obligation. intros g t id Hwf _. by apply (find_spec g). Qed.
Next Obligation.
  intros g t id Hwf [obj Hx]. apply (handles_lookup g t id obj Hwf), (il_range _ _ Hwf) in Hx.
  unfold HANDLE_MAX in Hx. lia.
Qed.
Next Obligation.
  intros n g t a ok Hok Hwf. cbv beta in Hok.
  destruct (get_new_above_run g t a ok Hwf) as (ret & nid & g' & t' & Hr & Hwf' & Hle & Ho); [unfold ids_ok; lia|].
  exists ret, nid, g', t'. split; [done|]. split; [done|]. split; [destruct Hle as (_ & [_ ?] & _); lia|]. split; [intros t2 H2; by apply (wf_ids_le g)|].
  destruct Ho as [id g' t' Hid Hn Hh|g' Hok'|g' Hz Ht Hu].
  - left. exists id. unfold HANDLE_MAX in Hid. split_and!; try done; lia.
  - right. split; [lia|done].
  - right. unfold EAGAIN. split; [lia|done].
Qed.
Next Obligation.
  intros g t a ok g' t' nid Hok Hwf Hr Hsz ret nid' g2 t2 Hr2. cbv beta in Hok.
  change (idr_list_get_new_above g t a ok = Some (- EAGAIN, nid, g', t')) in Hr.
  change (idr_list_get_new_above g' t a ok = Some (ret, nid', g2, t2)) in Hr2.
  destruct (get_new_above_run g t a ok Hwf) as (r3 & n3 & g3 & t3 & Hr3 & Hwf' & Hle & Ho); [unfold ids_ok; lia|].
  rewrite Hr in Hr3. injection Hr3 as <- <- <- <-.
  inversion Ho; try (unfold EAGAIN in *; lia).
  subst. destruct Hle as (_ & [_ Hle] & _).
  eapply (not_again_twice _ _ a ok ret nid' g2 t2); try done. unfold ids_ok. lia.
Qed.
Next Obligation.
  intros g t id ok Hwf Hid. destruct (list_remove_run g t id Hwf) as (ret & t' & Hr & Hwf' & Ho).
  exists ret, t'. split; [done|]. split; [done|]. destruct Ho as [?|(-> & -> & ?)]; [by left|].
  right. split; [lia|]. split; [done|by left].
Qed.

(** C23: [idr_list_get_new_above] never fails on a well-formed table: it returns
    a positive handle that was not in use and under which alone the object is
    then found, or an error, leaving the table as it is; -EAGAIN means that
    every handle from the counter on is in use.  The other tables that share the
    counters stay well formed. *)
Theorem idr_list_get_new_above_sound g t obj ok : idr_list_wf g t -> ids_ok g ->
  exists ret nid g' t', idr_list_get_new_above g t obj ok = Some (ret, nid, g', t') /\
    idr_list_wf g' t' /\ (forall t2, idr_list_wf g t2 -> idr_list_wf g' t2) /\
    ((exists id, ret = 0 /\ nid = Some id /\ 0 < id < HANDLE_MAX /\
        idr_list_find t id = Some None /\ idr_list_find t' id = Some (Some obj) /\
        forall id', id' <> id -> idr_list_find t' id' = idr_list_find t id') \/
     (nid = None /\ t' = t /\
        ((ret = -1 /\ ok = false) \/
         (ret = - EAGAIN /\ forall id, next_id g <= id < HANDLE_MAX ->
            exists o, idr_list_find t id = Some (Some o))))).
Proof.
  intros Hwf Hok. destruct (get_new_above_run g t obj ok Hwf Hok) as (ret & nid & g' & t' & Hr & Hwf' & Hle & Ho).
  exists ret, nid, g', t'. split; [done|]. split; [done|]. split; [intros t2 H2; by apply (wf_ids_le g)|].
  destruct Ho as [id g' t' Hid Hn Hh|g' Hok'|g' Hz Ht Hu].
  - left. exists id. do 3 (split; [done|]). rewrite !(find_spec _ _ _ Hwf), !(find_spec _ _ _ Hwf'), Hn, Hh.
    split; [done|]. split; [by rewrite lookup_insert_eq|]. intros id' Hne.
    rewrite (find_spec _ _ _ Hwf), (find_spec _ _ _ Hwf'), Hh. by rewrite lookup_insert_ne.
  - right. split; [done|]. split; [done|]. by left.
  - right. split; [done|]. split; [done|]. right. split; [done|]. intros id Hid.
    destruct (Hu id Hid) as [o Ho]. exists o. by rewrite (find_spec _ _ _ Hwf), Ho.
Qed.
End IdrList.

Lemma idr_list_get_new_above_sound_witness : exists ret nid g' t',
  idr_list_get_new_above (mk_ids 5 1) (idr_list_init (A := Z)) 7 true = Some (ret, nid, g', t').
Proof.
  destruct (idr_list_get_new_above_sound (mk_ids 5 1) (idr_list_init (A := Z)) 7 true)
    as (r & n & g' & t' & H & _).
  - apply init_wf; unfold HANDLE_MAX; simpl; lia.
  - unfold ids_ok. simpl. lia.
  - exact (ex_intro _ r (ex_intro _ n (ex_intro _ g' (ex_intro _ t' H)))).
Defined.
