(* ===== verification/Gem.v ===== *)
(** * GEM objects: references, handles and names (drm_gem.c, drm_drv.c)

    An object is counted once for every handle, once for its global name and
    once for every caller that holds a reference; it is freed when the count
    reaches zero.  The handle tables are used through the interface of
    HandleTable.  Accesses to an object that has been freed are faults.  The
    callbacks [gem_open_object] and [gem_close_object] are not set by any driver
    of the repository and are not called. *)

From S2P Require Import Prelude HandleTable.

(** Addresses of [struct drm_gem_object] and [struct drm_file]. *)
Abbreviation oid := positive.
Abbreviation fid := positive.

Record drm_gem_object := mk_obj {
  refcount : Z;
  handle_count : Z;
  obj_name : Z;
  obj_size : Z }.

Section Gem.
Context {G T : Type} `{HandleTableLaws G T oid}.

(** The counters of the handle tables, [object_name_idr] of the device, the
    objects that have not been freed and [object_idr] of each open file. *)
Record gem := mk_gem {
  counters : G;
  object_name_idr : T;
  objects : gmap oid drm_gem_object;
  object_idrs : gmap fid T }.

Definition set_objects (os : gmap oid drm_gem_object) (s : gem) : gem :=
  mk_gem (counters s) (object_name_idr s) os (object_idrs s).
Definition set_names (t : T) (s : gem) : gem :=
  mk_gem (counters s) t (objects s) (object_idrs s).
Definition set_file (f : fid) (t : T) (s : gem) : gem :=
  mk_gem (counters s) (object_name_idr s) (objects s) (<[f := t]> (object_idrs s)).
Definition set_counters (g : G) (s : gem) : gem :=
  mk_gem g (object_name_idr s) (objects s) (object_idrs s).

Definition upd_obj (o : oid) (f : drm_gem_object -> drm_gem_object) (s : gem) : option gem :=
  ob ← objects s !! o; Some (set_objects (<[o := f ob]> (objects s)) s).

Definition set_refcount (r : Z) (ob : drm_gem_object) : drm_gem_object :=
  mk_obj r (handle_count ob) (obj_name ob) (obj_size ob).
Definition set_handle_count (c : Z) (ob : drm_gem_object) : drm_gem_object :=
  mk_obj (refcount ob) c (obj_name ob) (obj_size ob).
Definition set_name (n : Z) (ob : drm_gem_object) : drm_gem_object :=
  mk_obj (refcount ob) (handle_count ob) n (obj_size ob).

(** ** Reference counts *)

(** An object initialised by [drm_gem_object_init]: one reference, no handle. *)
Definition drm_gem_object_init (o : oid) (size : Z) (s : gem) : gem :=
  set_objects (<[o := mk_obj 1 0 0 size]> (objects s)) s.

Definition kref_get (o : oid) (s : gem) : option gem :=
  upd_obj o (fun ob => set_refcount (u32 (refcount ob + 1)) ob) s.

Definition kref_put (o : oid) (release : gem -> option gem) (s : gem) : option gem :=
  s ← upd_obj o (fun ob => set_refcount (u32 (refcount ob - 1)) ob) s;
  ob ← objects s !! o;
  if refcount ob =? 0 then release s else Some s.

(** The driver's [gem_free_object] ends with the memory of the object freed. *)
Definition drm_gem_object_free (o : oid) (s : gem) : option gem :=
  Some (set_objects (delete o (objects s)) s).

Definition drm_gem_object_ref_bug (s : gem) : option gem := _ ← BUG_ON true; Some s.

Definition drm_gem_object_reference (o : oid) (s : gem) : option gem := kref_get o s.

Definition drm_gem_object_unreference (o : oid) (s : gem) : option gem :=
  kref_put o (drm_gem_object_free o) s.

(** The same under struct_mutex; [obj->dev] is read first. *)
Definition drm_gem_object_unreference_unlocked (o : oid) (s : gem) : option gem :=
  _ ← objects s !! o; kref_put o (drm_gem_object_free o) s.

Definition drm_gem_object_handle_reference (o : oid) (s : gem) : option gem :=
  s ← drm_gem_object_reference o s;
  upd_obj o (fun ob => set_handle_count (u32 (handle_count ob + 1)) ob) s.

Definition drm_gem_object_handle_free (o : oid) (s : gem) : option gem :=
  ob ← objects s !! o;
  if negb (obj_name ob =? 0) then
    '(_, names) ← ht_remove (object_name_idr s) (obj_name ob) true;
    s ← upd_obj o (set_name 0) (set_names names s);
    kref_put o drm_gem_object_ref_bug s
  else Some s.

Definition drm_gem_object_handle_unreference_unlocked (o : oid) (s : gem) : option gem :=
  ob ← objects s !! o;
  if handle_count ob =? 0 then Some s else
  s ← upd_obj o (fun ob => set_handle_count (u32 (handle_count ob - 1)) ob) s;
  ob ← objects s !! o;
  s ← (if handle_count ob =? 0 then drm_gem_object_handle_free o s else Some s);
  drm_gem_object_unreference_unlocked o s.

(** ** Handles *)

Definition drm_gem_handle_delete (filp : fid) (handle : Z) (s : gem) : option (Z * gem) :=
  t ← object_idrs s !! filp;
  obj ← ht_find t handle;
  match obj with
  | None => Some (- EINVAL, s)
  | Some o =>
      _ ← objects s !! o;
      '(_, t) ← ht_remove t handle true;
      s ← drm_gem_object_handle_unreference_unlocked o (set_file filp t s);
      Some (0, s)
  end.

(** The value, [*handlep] when it was set, and the state.  [fuel] bounds the
    [goto again]; [alloc_ok] is whether the table gets memory. *)
Fixpoint drm_gem_handle_create (fuel : nat) (filp : fid) (o : oid) (alloc_ok : bool) (s : gem)
    : option (Z * option Z * gem) :=
  match fuel with
  | O => None
  | S fuel =>
      _ ← objects s !! o;
      t ← object_idrs s !! filp;
      '(ret, handle, g, t) ← ht_new (counters s) t o alloc_ok;
      let s := set_counters g (set_file filp t s) in
      if ret =? - EAGAIN then drm_gem_handle_create fuel filp o alloc_ok s else
      if negb (ret =? 0) then Some (ret, None, s) else
      s ← drm_gem_object_handle_reference o s;
      Some (0, handle, s)
  end.

(** The object, with a reference for the caller. *)
Definition drm_gem_object_lookup (filp : fid) (handle : Z) (s : gem)
    : option (option oid * gem) :=
  t ← object_idrs s !! filp;
  obj ← ht_find t handle;
  match obj with
  | None => Some (None, s)
  | Some o => s ← drm_gem_object_reference o s; Some (Some o, s)
  end.

Definition drm_gem_close_ioctl (has_gem : bool) (filp : fid) (handle : Z) (s : gem)
    : option (Z * gem) :=
  if negb has_gem then Some (- ENODEV, s) else drm_gem_handle_delete filp handle s.

(** ** Names *)

(** From the label [again] of [drm_gem_flink_ioctl] to [err]. *)
Fixpoint flink_again (fuel : nat) (o : oid) (alloc_ok : bool) (s : gem)
    : option (Z * Z * gem) :=
  match fuel with
  | O => None
  | S fuel =>
      ob ← objects s !! o;
      if obj_name ob =? 0 then
        '(ret, name, g, names) ← ht_new (counters s) (object_name_idr s) o alloc_ok;
        let s := set_counters g (set_names names s) in
        s ← (match name with Some n => upd_obj o (set_name n) s | None => Some s end);
        ob ← objects s !! o;
        if ret =? - EAGAIN then flink_again fuel o alloc_ok s else
        if negb (ret =? 0) then Some (ret, obj_name ob, s) else
        s ← drm_gem_object_reference o s;
        Some (0, obj_name ob, s)
      else Some (0, obj_name ob, s)
  end.

(** The value and [args->name]. *)
Definition drm_gem_flink_ioctl (fuel : nat) (has_gem : bool) (filp : fid) (handle : Z)
    (alloc_ok : bool) (s : gem) : option (Z * option Z * gem) :=
  if negb has_gem then Some (- ENODEV, None, s) else
  '(obj, s) ← drm_gem_object_lookup filp handle s;
  match obj with
  | None => Some (- ENOENT, None, s)
  | Some o =>
      '(ret, name, s) ← flink_again fuel o alloc_ok s;
      s ← drm_gem_object_unreference_unlocked o s;
      Some (ret, Some name, s)
  end.

(** The value, and [args->handle] and [args->size] when they are set. *)
Definition drm_gem_open_ioctl (fuel : nat) (has_gem : bool) (filp : fid) (name : Z)
    (alloc_ok : bool) (s : gem) : option (Z * option (Z * Z) * gem) :=
  if negb has_gem then Some (- ENODEV, None, s) else
  obj ← ht_find (object_name_idr s) name;
  match obj with
  | None => Some (- ENOENT, None, s)
  | Some o =>
      s ← drm_gem_object_reference o s;
      '(ret, handle, s) ← drm_gem_handle_create fuel filp o alloc_ok s;
      s ← drm_gem_object_unreference_unlocked o s;
      if negb (ret =? 0) then Some (ret, None, s) else
      h ← handle;
      ob ← objects s !! o;
      Some (0, Some (h, obj_size ob), s)
  end.

(** ** Files *)

Definition drm_gem_open (filp : fid) (empty : T) (s : gem) : gem := set_file filp empty s.

Definition drm_gem_object_release_handle (o : oid) (s : gem) : option gem :=
  _ ← objects s !! o; drm_gem_object_handle_unreference_unlocked o s.

(** The loop of [drm_gem_release] over the entries of the table, [objs] in the
    order of the hash lists. *)
Fixpoint release_handles (objs : list oid) (s : gem) : option gem :=
  match objs with
  | [] => Some s
  | o :: objs => s ← drm_gem_object_release_handle o s; release_handles objs s
  end.

Definition drm_gem_release (filp : fid) (objs : list oid) (s : gem) : option gem :=
  s ← release_handles objs s;
  Some (mk_gem (counters s) (object_name_idr s) (objects s) (delete filp (object_idrs s))).

(** ** The invariant *)

(** Every handle of every file. *)
Definition all_handles (s : gem) : gmap (fid * Z) oid := map_uncurry (ht_map <$> object_idrs s).

(** How many handles there are to an object. *)
Definition nhandles (o : oid) (m : gmap (fid * Z) oid) : nat := size (filter (fun kv => kv.2 = o) m).

Definition name_ref (ob : drm_gem_object) : Z := if obj_name ob =? 0 then 0 else 1.

Lemma name_ref_range ob : 0 <= name_ref ob <= 1.
Proof. unfold name_ref. destruct (Z.eqb_spec (obj_name ob) 0); lia. Qed.

(** [ext o] is how many references to [o] are held by callers.  [pend o] is by
    how much [handle_count] is ahead of the handles in the tables: it is zero
    between operations, and one for each table entry that is being deleted. *)
Record gem_inv (ext pend : oid -> Z) (s : gem) : Prop := {
  gi_names : ht_inv (counters s) (object_name_idr s);
  gi_files : forall f t, object_idrs s !! f = Some t -> ht_inv (counters s) t;
  gi_live : forall k o, all_handles s !! k = Some o -> is_Some (objects s !! o);
  gi_name : forall n o, ht_map (object_name_idr s) !! n = Some o <->
    exists ob, objects s !! o = Some ob /\ obj_name ob = n /\ n <> 0;
  gi_count : forall o ob, objects s !! o = Some ob ->
    handle_count ob = Z.of_nat (nhandles o (all_handles s)) + pend o /\ 0 <= handle_count ob /\
    refcount ob = handle_count ob + name_ref ob + ext o /\ 0 < refcount ob < 2 ^ 32;
  gi_ext : forall o, 0 <= ext o;
  gi_gone : forall o, objects s !! o = None -> ext o = 0 /\ pend o = 0 }.

(** A name only exists while there is a handle. *)
Definition named_ok (s : gem) : Prop :=
  forall o ob, objects s !! o = Some ob -> obj_name ob <> 0 -> 0 < handle_count ob.

(** The nhandles of one more reference fits. *)
Definition room (s : gem) : Prop := forall o ob, objects s !! o = Some ob -> refcount ob + 2 < 2 ^ 32.

Definition bump (f : oid -> Z) (o : oid) (d : Z) : oid -> Z :=
  fun x => if decide (x = o) then f x + d else f x.

Lemma bump_eq f o d : bump f o d o = f o + d.
Proof. unfold bump. by rewrite decide_True. Qed.
Lemma bump_ne f o d x : x <> o -> bump f o d x = f x.
Proof. intros. unfold bump. by rewrite decide_False. Qed.

(** ** Counting handles *)

Lemma count_insert o m k o' : m !! k = None ->
  nhandles o (<[k := o']> m) = (nhandles o m + if decide (o' = o) then 1 else 0)%nat.
Proof.
  intros Hk. unfold nhandles. rewrite map_filter_insert. simpl. case_decide as Ho.
  - rewrite map_size_insert_None; [lia|]. apply map_lookup_filter_None. by left.
  - rewrite delete_id by done. lia.
Qed.

Lemma count_delete o m k o' : m !! k = Some o' ->
  nhandles o m = (nhandles o (delete k m) + if decide (o' = o) then 1 else 0)%nat.
Proof.
  intros Hk. rewrite <-(insert_delete_id m k o' Hk) at 1. apply count_insert, lookup_delete_eq.
Qed.

Lemma count_zero o m k : nhandles o m = 0%nat -> m !! k <> Some o.
Proof.
  unfold nhandles. intros Hz%map_size_empty_inv Hk.
  assert (filter (fun kv : (fid * Z) * oid => kv.2 = o) m !! k = Some o) as E
    by by apply map_lookup_filter_Some.
  rewrite Hz in E. by rewrite lookup_empty in E.
Qed.

Lemma nhandles_none o m : (forall k, m !! k <> Some o) -> nhandles o m = 0%nat.
Proof.
  intros Hno. unfold nhandles. apply map_size_empty_iff, map_empty. intros k.
  apply map_lookup_filter_None. right. intros x Hk Hx. simpl in Hx. subst x. by apply (Hno k).
Qed.

Lemma all_handles_lookup s f h :
  all_handles s !! (f, h) = t ← object_idrs s !! f; ht_map t !! h.
Proof.
  unfold all_handles. rewrite lookup_map_uncurry, lookup_fmap.
  by destruct (object_idrs s !! f).
Qed.

Lemma all_handles_file (s : gem) (f : fid) (t t' : T) (u : gmap Z oid -> gmap Z oid) (v : gmap (fid * Z) oid -> gmap (fid * Z) oid) :
  object_idrs s !! f = Some t -> ht_map t' = u (ht_map t) ->
  (forall h, v (all_handles s) !! (f, h) = u (ht_map t) !! h) ->
  (forall f' h, f' <> f -> v (all_handles s) !! (f', h) = all_handles s !! (f', h)) ->
  all_handles (set_file f t' s) = v (all_handles s).
Proof.
  intros Hf Hu Hv1 Hv2. apply map_eq. intros [f' h]. rewrite all_handles_lookup. simpl.
  destruct (decide (f' = f)) as [->|Hne].
  - rewrite lookup_insert_eq. simpl. by rewrite Hv1, Hu.
  - rewrite lookup_insert_ne, Hv2, all_handles_lookup by done. done.
Qed.

Lemma all_handles_insert (s : gem) (f : fid) (t t' : T) h o : object_idrs s !! f = Some t ->
  ht_map t' = <[h := o]> (ht_map t) ->
  all_handles (set_file f t' s) = <[(f, h) := o]> (all_handles s).
Proof.
  intros Hf Hm. apply (all_handles_file s f t t' (insert h o) (insert (f, h) o)); try done.
  - intros h'. destruct (decide (h' = h)) as [->|Hne].
    + by rewrite !lookup_insert_eq.
    + rewrite !lookup_insert_ne, all_handles_lookup, Hf by congruence. done.
  - intros f' h' Hne. by rewrite lookup_insert_ne by congruence.
Qed.

Lemma all_handles_delete (s : gem) (f : fid) (t t' : T) h : object_idrs s !! f = Some t ->
  ht_map t' = delete h (ht_map t) ->
  all_handles (set_file f t' s) = delete (f, h) (all_handles s).
Proof.
  intros Hf Hm. apply (all_handles_file s f t t' (delete h) (delete (f, h))); try done.
  - intros h'. destruct (decide (h' = h)) as [->|Hne].
    + by rewrite !lookup_delete_eq.
    + rewrite !lookup_delete_ne, all_handles_lookup, Hf by congruence. done.
  - intros f' h' Hne. by rewrite lookup_delete_ne by congruence.
Qed.

(** ** Changing the counts of one object *)

Lemma inv_obj ext pend s o ob ob' ext' pend' :
  gem_inv ext pend s -> objects s !! o = Some ob -> obj_name ob' = obj_name ob ->
  handle_count ob' - handle_count ob = pend' o - pend o ->
  refcount ob' - refcount ob = pend' o - pend o + (ext' o - ext o) ->
  0 <= handle_count ob' -> 0 < refcount ob' < 2 ^ 32 -> 0 <= ext' o ->
  (forall x, x <> o -> ext' x = ext x /\ pend' x = pend x) ->
  gem_inv ext' pend' (set_objects (<[o := ob']> (objects s)) s).
Proof.
  intros Hinv Ho Hn Hh Hr Hh0 Hr0 He0 Hoth. destruct Hinv as [I2 I3 I4 I5 I6 I7 I8].
  split; simpl; try done.
  - intros k x Hk. apply lookup_insert_is_Some'. right. by apply (I4 k).
  - intros n x. rewrite I5. destruct (decide (x = o)) as [->|Hne].
    + rewrite lookup_insert_eq, Ho. split; intros (ob2 & [= <-] & ? & ?); eexists; (split; [done|]); split; congruence.
    + by rewrite lookup_insert_ne.
  - intros x obx. destruct (decide (x = o)) as [->|Hne].
    + rewrite lookup_insert_eq. intros [= <-]. destruct (I6 o ob Ho) as (E1 & E2 & E3 & E4).
      unfold name_ref in *. rewrite Hn. change (all_handles (set_objects _ s)) with (all_handles s). lia.
    + rewrite lookup_insert_ne by done. intros Hx. destruct (Hoth x Hne) as [-> ->]. by apply I6.
  - intros x. destruct (decide (x = o)) as [->|Hne]; [done|]. destruct (Hoth x Hne) as [-> _]. apply I7.
  - intros x. destruct (decide (x = o)) as [->|Hne]; [by rewrite lookup_insert_eq|].
    rewrite lookup_insert_ne by done. destruct (Hoth x Hne) as [-> ->]. apply I8.
Qed.

Lemma reference_run ext pend s o ob : gem_inv ext pend s -> objects s !! o = Some ob ->
  refcount ob + 1 < 2 ^ 32 ->
  exists s', drm_gem_object_reference o s = Some s' /\ gem_inv (bump ext o 1) pend s' /\
    s' = set_objects (<[o := set_refcount (refcount ob + 1) ob]> (objects s)) s.
Proof.
  intros Hinv Ho Hr. destruct (gi_count _ _ _ Hinv o ob Ho) as (_ & Hh & _ & Hr0).
  unfold drm_gem_object_reference, kref_get, upd_obj. rewrite Ho. cbn [mbind option_bind].
  rewrite u32_small by lia. eexists. split; [done|]. split; [|done].
  pose proof (gi_ext _ _ _ Hinv o).
  apply (inv_obj ext pend s o ob); try done; rewrite ?bump_eq; simpl; try lia.
  intros x Hx. by rewrite bump_ne.
Qed.

(** Dropping a caller's reference: the object is gone exactly when it was the last. *)
Lemma unreference_run ext pend s o : gem_inv ext pend s -> named_ok s -> 0 < ext o -> 0 <= pend o ->
  exists s', drm_gem_object_unreference_unlocked o s = Some s' /\
    gem_inv (bump ext o (-1)) pend s' /\ named_ok s' /\ counters s' = counters s /\
    object_name_idr s' = object_name_idr s /\ object_idrs s' = object_idrs s /\
    (forall x, x <> o -> objects s' !! x = objects s !! x) /\
    exists ob, objects s !! o = Some ob /\
      objects s' !! o = if refcount ob =? 1 then None else Some (set_refcount (refcount ob - 1) ob).
Proof.
  intros Hinv Hnm Hext Hpend. destruct (objects s !! o) as [ob|] eqn:Ho.
  2: { apply (gi_gone _ _ _ Hinv) in Ho. lia. }
  destruct (gi_count _ _ _ Hinv o ob Ho) as (Hc & Hh & Hr & Hr0).
  pose proof (name_ref_range ob).
  unfold drm_gem_object_unreference_unlocked, kref_put, upd_obj. rewrite Ho. cbn [mbind option_bind].
  rewrite u32_small by lia. simpl. rewrite lookup_insert_eq. cbn [mbind option_bind refcount set_refcount].
  destruct (Z.eqb_spec (refcount ob) 1) as [H1|H1].
  - assert (refcount ob - 1 = 0) as -> by lia. change (0 =? 0) with true.
    unfold drm_gem_object_free. simpl. rewrite delete_insert_eq.
    assert (name_ref ob = 0 /\ nhandles o (all_handles s) = 0%nat /\ pend o = 0 /\ ext o = 1) as (Hn & Hcz & Hp & He) by lia.
    eexists. split; [done|]. split; [|split; [|split; [done|split; [done|split; [done|split]]]]].
    + destruct Hinv as [I2 I3 I4 I5 I6 I7 I8]. split; simpl; try done.
      * intros k x Hk. rewrite lookup_delete_is_Some. split; [|by apply (I4 k)].
        intros <-. by apply (count_zero o (all_handles s) k).
      * intros n x. rewrite I5. destruct (decide (x = o)) as [->|Hne].
        -- rewrite lookup_delete_eq, Ho. split; [|by intros (? & ? & _)].
           intros (ob2 & [= <-] & Hn2 & Hn0). unfold name_ref in Hn. rewrite Hn2 in Hn.
           destruct (Z.eqb_spec n 0); [done|lia].
        -- by rewrite lookup_delete_ne.
      * intros x obx [Hne Hx]%lookup_delete_Some. rewrite bump_ne by done. by apply I6.
      * intros x. destruct (decide (x = o)) as [->|Hne]; [rewrite bump_eq; lia|rewrite bump_ne; done].
      * intros x. destruct (decide (x = o)) as [->|Hne].
        -- rewrite bump_eq. intros _. lia.
        -- rewrite lookup_delete_ne, bump_ne by done. apply I8.
    + intros x obx. simpl. intros [_ Hx]%lookup_delete_Some. by apply (Hnm x obx).
    + intros x Hne. simpl. by rewrite lookup_delete_ne.
    + exists ob. split; [done|]. simpl. rewrite lookup_delete_eq. by destruct (Z.eqb_spec (refcount ob) 1).
  - assert ((refcount ob - 1 =? 0) = false) as -> by (apply Z.eqb_neq; lia).
    eexists. split; [done|]. split; [|split; [|split; [done|split; [done|split; [done|split]]]]].
    + apply (inv_obj ext pend s o ob); try done; rewrite ?bump_eq; simpl; try lia.
      intros x Hx. by rewrite bump_ne.
    + intros x obx. simpl. destruct (decide (x = o)) as [->|Hne].
      * rewrite lookup_insert_eq. intros [= <-]. simpl. by apply (Hnm o ob).
      * rewrite lookup_insert_ne by done. apply Hnm.
    + intros x Hne. simpl. by rewrite lookup_insert_ne.
    + exists ob. split; [done|]. simpl. rewrite lookup_insert_eq. by destruct (Z.eqb_spec (refcount ob) 1).
Qed.

(** The last handle of an object takes its name with it. *)
Lemma handle_free_run ext pend s o ob : gem_inv ext pend s -> objects s !! o = Some ob ->
  handle_count ob = 0 -> 0 < ext o ->
  (forall x obx, x <> o -> objects s !! x = Some obx -> obj_name obx <> 0 -> 0 < handle_count obx) ->
  exists s', drm_gem_object_handle_free o s = Some s' /\ gem_inv ext pend s' /\ named_ok s' /\
    counters s' = counters s /\ object_idrs s' = object_idrs s /\
    (forall x, x <> o -> objects s' !! x = objects s !! x) /\
    objects s' !! o = Some (set_name 0 (set_refcount (refcount ob - name_ref ob) ob)).
Proof.
  intros Hinv Ho Hh0 He Hnm. unfold drm_gem_object_handle_free. rewrite Ho. cbn [mbind option_bind].
  destruct (gi_count _ _ _ Hinv o ob Ho) as (Hc & _ & Hr & Hr0). unfold name_ref in *.
  destruct (Z.eqb_spec (obj_name ob) 0) as [Hz|Hz]; cbn [negb].
  - exists s. split; [done|]. split; [done|]. split; [|split; [done|split; [done|split; [done|]]]].
    + intros x obx Hx Hn. destruct (decide (x = o)) as [->|Hne]; [|by apply (Hnm x obx)].
      assert (obx = ob) as -> by congruence. done.
    + rewrite Ho. f_equal. destruct ob as [r hc n sz]. simpl in *. unfold set_name, set_refcount. simpl. f_equal; lia.
  - set (n := obj_name ob) in *.
    assert (ht_map (object_name_idr s) !! n = Some o) as Hn by (apply (gi_name _ _ _ Hinv); by exists ob).
    assert (0 < n < 2 ^ 31) as Hnr.
    { apply (ht_range (counters s) (object_name_idr s)); [apply Hinv|by exists o]. }
    destruct (ht_remove_spec (counters s) (object_name_idr s) n true (gi_names _ _ _ Hinv))
      as (ret & names & -> & Hinv' & Hret); [lia|].
    assert (ht_map names = delete n (ht_map (object_name_idr s))) as Hm.
    { destruct Hret as [(_ & _ & ?)|(_ & _ & [E|?])]; [done|congruence|done]. }
    cbn [mbind option_bind]. unfold upd_obj, kref_put, upd_obj. simpl. rewrite Ho. cbn [mbind option_bind].
    simpl. rewrite lookup_insert_eq. cbn [mbind option_bind]. simpl. rewrite !insert_insert_eq, lookup_insert_eq.
    cbn [mbind option_bind]. simpl. rewrite u32_small by lia.
    assert ((refcount ob - 1 =? 0) = false) as -> by (apply Z.eqb_neq; lia).
    eexists. split; [done|]. split; [|split; [|split; [done|split; [done|split]]]].
    + destruct Hinv as [I2 I3 I4 I5 I6 I7 I8]. split; simpl; try done.
      * intros k x Hk. apply lookup_insert_is_Some'. right. by apply (I4 k).
      * intros n' x. rewrite Hm, lookup_delete_Some, I5. destruct (decide (x = o)) as [->|Hne].
        -- rewrite lookup_insert_eq, Ho. split.
           ++ intros (Hne & ob2 & [= <-] & Hn' & _). by destruct Hne.
           ++ intros (ob2 & [= <-] & Hn' & Hn0). simpl in Hn'. by destruct Hn0.
        -- rewrite lookup_insert_ne by done. split; [by intros (_ & ?)|]. intros (obx & Hx & Hn' & Hn0).
           split; [|by exists obx]. intros <-. assert (ht_map (object_name_idr s) !! n = Some x) as Hx'
             by (apply I5; by exists obx). congruence.
      * intros x obx. destruct (decide (x = o)) as [->|Hne].
        -- rewrite lookup_insert_eq. intros [= <-]. unfold name_ref. simpl.
           change (all_handles (set_objects _ _)) with (all_handles s). lia.
        -- rewrite lookup_insert_ne by done. apply I6.
      * intros x. destruct (decide (x = o)) as [->|Hne]; [by rewrite lookup_insert_eq|].
        rewrite lookup_insert_ne by done. apply I8.
    + intros x obx. simpl. destruct (decide (x = o)) as [->|Hne].
      * rewrite lookup_insert_eq. by intros [= <-].
      * rewrite lookup_insert_ne by done. by apply Hnm.
    + intros x Hne. simpl. by rewrite lookup_insert_ne.
    + simpl. by rewrite lookup_insert_eq.
Qed.

(** The effect on an object of dropping one of its handles. *)
Definition handle_dropped (ob : drm_gem_object) : option drm_gem_object :=
  let r := refcount ob - 1 - (if handle_count ob =? 1 then name_ref ob else 0) in
  if r =? 0 then None
  else Some (mk_obj r (handle_count ob - 1) (if handle_count ob =? 1 then 0 else obj_name ob) (obj_size ob)).

Lemma handle_unreference_run ext pend s o : gem_inv ext pend s -> named_ok s -> 0 < pend o ->
  exists s', drm_gem_object_handle_unreference_unlocked o s = Some s' /\
    gem_inv ext (bump pend o (-1)) s' /\ named_ok s' /\
    counters s' = counters s /\ object_idrs s' = object_idrs s /\
    (forall x, x <> o -> objects s' !! x = objects s !! x) /\
    exists ob, objects s !! o = Some ob /\ objects s' !! o = handle_dropped ob.
Proof.
  intros Hinv Hnm Hp. destruct (objects s !! o) as [ob|] eqn:Ho.
  2: { apply (gi_gone _ _ _ Hinv) in Ho. lia. }
  destruct (gi_count _ _ _ Hinv o ob Ho) as (Hc & Hh & Hr & Hr0). pose proof (gi_ext _ _ _ Hinv o) as He.
  pose proof (name_ref_range ob) as Hnr.
  unfold drm_gem_object_handle_unreference_unlocked. rewrite Ho. cbn [mbind option_bind].
  destruct (Z.eqb_spec (handle_count ob) 0) as [Hz|Hz]; [lia|].
  unfold upd_obj. rewrite Ho. cbn [mbind option_bind]. rewrite u32_small by lia.
  set (s1 := set_objects _ s). set (ob1 := set_handle_count (handle_count ob - 1) ob).
  assert (objects s1 !! o = Some ob1) as Ho1 by apply lookup_insert_eq. rewrite Ho1. cbn [mbind option_bind].
  assert (gem_inv (bump ext o 1) (bump pend o (-1)) s1) as Hinv1.
  { apply (inv_obj ext pend s o ob); try done; rewrite ?bump_eq; simpl; try lia.
    intros x Hx. by rewrite !bump_ne. }
  assert (forall x, x <> o -> objects s1 !! x = objects s !! x) as Hoth1
    by (intros x Hx; simpl; by rewrite lookup_insert_ne).
  assert (exists s2, (if handle_count ob1 =? 0 then drm_gem_object_handle_free o s1 else Some s1) = Some s2 /\
    gem_inv (bump ext o 1) (bump pend o (-1)) s2 /\ named_ok s2 /\
    counters s2 = counters s /\ object_idrs s2 = object_idrs s /\
    (forall x, x <> o -> objects s2 !! x = objects s !! x) /\
    objects s2 !! o = Some (mk_obj (refcount ob - if handle_count ob =? 1 then name_ref ob else 0)
      (handle_count ob - 1) (if handle_count ob =? 1 then 0 else obj_name ob) (obj_size ob)))
    as (s2 & -> & Hinv2 & Hnm2 & C2 & F2 & Hoth2 & Ho2).
  { assert ((handle_count ob1 =? 0) = (handle_count ob =? 1)) as ->.
    { simpl. destruct (Z.eqb_spec (handle_count ob - 1) 0), (Z.eqb_spec (handle_count ob) 1); done || lia. }
    destruct (Z.eqb_spec (handle_count ob) 1) as [H1|H1].
    - destruct (handle_free_run _ _ s1 o ob1 Hinv1 Ho1) as (s2 & -> & ? & ? & ? & ? & Hoth & E).
      + simpl. lia.
      + rewrite bump_eq. lia.
      + intros x obx Hx. rewrite Hoth1 by done. by apply Hnm.
      + exists s2. repeat (split; [done|]). split; [intros x Hx; by rewrite Hoth, Hoth1|]. rewrite E. done.
    - exists s1. split; [done|]. split; [done|]. split; [|split; [done|split; [done|split; [done|]]]].
      + intros x obx Hx Hn. destruct (decide (x = o)) as [->|Hne].
        * rewrite Ho1 in Hx. injection Hx as <-. simpl. lia.
        * rewrite Hoth1 in Hx by done. by apply (Hnm x obx).
      + rewrite Ho1. unfold ob1, set_handle_count. f_equal. by rewrite Z.sub_0_r. }
  cbn [mbind option_bind].
  destruct (unreference_run _ _ s2 o Hinv2 Hnm2) as (s3 & Hs3 & Hinv3 & Hnm3 & C3 & _ & F3 & Hoth3 & ob2 & Eob2 & Ho3).
  { rewrite bump_eq. lia. }
  { rewrite bump_eq. lia. }
  exists s3. split; [done|]. split; [|split; [done|split; [congruence|split; [congruence|split]]]].
  - destruct Hinv3 as [I2 I3 I4 I5 I6 I7 I8].
    assert (forall x, bump (bump ext o 1) o (-1) x = ext x) as Hb.
    { intros x. destruct (decide (x = o)) as [->|]; [rewrite !bump_eq; lia|by rewrite !bump_ne]. }
    split; try done.
    + intros x obx Hx. rewrite <-(Hb x). by apply I6.
    + intros x. rewrite <-(Hb x). apply I7.
    + intros x Hx. rewrite <-(Hb x). by apply I8.
  - intros x Hx. by rewrite Hoth3, Hoth2.
  - exists ob. split; [done|]. rewrite Ho3. rewrite Ho2 in Eob2. injection Eob2 as <-.
    unfold handle_dropped. cbn [refcount].
    set (d := if handle_count ob =? 1 then name_ref ob else 0).
    destruct (Z.eqb_spec (refcount ob - d) 1), (Z.eqb_spec (refcount ob - 1 - d) 0); try lia; [done|].
    unfold set_refcount. simpl. f_equal. f_equal. lia.
Qed.

(** ** Handles come and go *)

(** A table changed to [t'], and with it the handles to [all']. *)
Lemma inv_table ext pend s f t' g' all' pend' :
  gem_inv ext pend s -> ht_inv g' t' -> (forall t2, ht_inv (counters s) t2 -> ht_inv g' t2) ->
  all_handles (set_file f t' s) = all' ->
  (forall k o, all' !! k = Some o -> is_Some (objects s !! o)) ->
  (forall o, Z.of_nat (nhandles o all') + pend' o = Z.of_nat (nhandles o (all_handles s)) + pend o) ->
  (forall o, objects s !! o = None -> pend' o = pend o) ->
  gem_inv ext pend' (set_counters g' (set_file f t' s)).
Proof.
  intros Hinv Ht Hg Hall Hlive Hc Hp. destruct Hinv as [I2 I3 I4 I5 I6 I7 I8].
  assert (all_handles (set_counters g' (set_file f t' s)) = all') as E by done.
  split; simpl; try done.
  - by apply Hg.
  - intros f' t2 [[<- <-]|[Hne Hf']]%lookup_insert_Some; [done|]. by apply Hg, (I3 f').
  - intros k o. rewrite E. apply Hlive.
  - intros o ob Ho. rewrite E, Hc. by apply I6.
  - intros o Ho. rewrite Hp by done. by apply I8.
Qed.

Lemma named_objects s s' : objects s' = objects s -> named_ok s -> named_ok s'.
Proof. unfold named_ok. by intros ->. Qed.

Lemma handle_lookup ext pend s f t h : gem_inv ext pend s -> object_idrs s !! f = Some t ->
  0 <= h < 2 ^ 32 -> ht_find t h = Some (all_handles s !! (f, h)).
Proof.
  intros Hinv Hf Hh. rewrite all_handles_lookup, Hf. cbn [mbind option_bind].
  apply (ht_find_spec (counters s)); [by apply (gi_files _ _ _ Hinv f)|done].
Qed.

(** Taking a handle out of its table and dropping its reference. *)
Lemma drop_handle_run ext pend s f t h o : gem_inv ext pend s -> named_ok s -> (forall o, 0 <= pend o) ->
  object_idrs s !! f = Some t -> 0 <= h < 2 ^ 32 -> ht_map t !! h = Some o ->
  exists ret t' s', ht_remove t h true = Some (ret, t') /\ ht_map t' = delete h (ht_map t) /\
    drm_gem_object_handle_unreference_unlocked o (set_file f t' s) = Some s' /\
    gem_inv ext pend s' /\ named_ok s' /\ counters s' = counters s /\
    object_idrs s' = <[f := t']> (object_idrs s) /\
    all_handles s' = delete (f, h) (all_handles s) /\
    (forall x, x <> o -> objects s' !! x = objects s !! x) /\
    exists ob, objects s !! o = Some ob /\ objects s' !! o = handle_dropped ob.
Proof.
  intros Hinv Hnm Hp Hf Hh Hth.
  assert (all_handles s !! (f, h) = Some o) as Ho by by rewrite all_handles_lookup, Hf.
  pose proof (gi_files _ _ _ Hinv f t Hf) as Hti.
  destruct (ht_remove_spec (counters s) t h true Hti Hh) as (r & t' & Hrm & Hti' & Hret).
  assert (ht_map t' = delete h (ht_map t)) as Hm.
  { destruct Hret as [(_ & _ & ?)|(_ & _ & [E|?])]; [done|congruence|done]. }
  set (s1 := set_file f t' s).
  pose proof (all_handles_delete s f t t' h Hf Hm) as Hall.
  assert (gem_inv ext (bump pend o 1) s1) as Hinv1.
  { apply (inv_table ext pend s f t' (counters s) (delete (f, h) (all_handles s))); try done.
    - intros k x Hk. apply lookup_delete_Some in Hk as [_ Hk]. by apply (gi_live _ _ _ Hinv k).
    - intros x. rewrite (count_delete x (all_handles s) (f, h) o Ho). unfold bump.
      repeat case_decide; subst; try congruence; lia.
    - intros x Hx. rewrite bump_ne; [done|]. intros ->.
      destruct (gi_live _ _ _ Hinv _ _ Ho) as [ob Hob]. congruence. }
  destruct (handle_unreference_run ext _ s1 o Hinv1) as (s2 & Hs2 & Hinv2 & Hnm2 & C2 & F2 & Hoth & Hd).
  { by apply (named_objects s). }
  { rewrite bump_eq. specialize (Hp o). lia. }
  exists r, t', s2. do 3 (split; [done|]). split; [|split; [done|split; [done|split; [done|]]]].
  - destruct Hinv2 as [I2 I3 I4 I5 I6 I7 I8].
    assert (forall x, bump (bump pend o 1) o (-1) x = pend x) as Hb.
    { intros x. destruct (decide (x = o)) as [->|]; [rewrite !bump_eq; lia|by rewrite !bump_ne]. }
    split; try done.
    + intros x obx Hx. rewrite <-(Hb x). by apply I6.
    + intros x Hx. rewrite <-(Hb x). by apply I8.
  - split; [|exact (conj Hoth Hd)]. rewrite <-Hall. unfold all_handles. by rewrite F2.
Qed.

Lemma handle_delete_run ext pend s f t h : gem_inv ext pend s -> named_ok s -> (forall o, 0 <= pend o) ->
  object_idrs s !! f = Some t -> 0 <= h < 2 ^ 32 ->
  exists ret s', drm_gem_handle_delete f h s = Some (ret, s') /\ gem_inv ext pend s' /\ named_ok s' /\
    counters s' = counters s /\
    match all_handles s !! (f, h) with
    | None => ret = - EINVAL /\ s' = s
    | Some o => ret = 0 /\ all_handles s' = delete (f, h) (all_handles s) /\
        (forall x, x <> o -> objects s' !! x = objects s !! x) /\
        exists ob, objects s !! o = Some ob /\ objects s' !! o = handle_dropped ob
    end.
Proof.
  intros Hinv Hnm Hp Hf Hh. unfold drm_gem_handle_delete. rewrite Hf. cbn [mbind option_bind].
  rewrite (handle_lookup ext pend s f t h) by done. cbn [mbind option_bind].
  destruct (all_handles s !! (f, h)) as [o|] eqn:Ho.
  2: { exists (- EINVAL), s. done. }
  assert (is_Some (objects s !! o)) as [ob Hob] by by apply (gi_live _ _ _ Hinv _ _ Ho).
  assert (ht_map t !! h = Some o) as Hth by (rewrite all_handles_lookup, Hf in Ho; done).
  destruct (drop_handle_run ext pend s f t h o) as (r & t' & s' & Hrm & _ & Hun & Hinv' & Hnm' & C' & _ & Hall & Hoth & Hd); try done.
  assert (exists x, objects s !! o = Some x) as [x Hx] by by exists ob.
  rewrite Hx. cbn [mbind option_bind]. rewrite Hrm. cbn [mbind option_bind]. rewrite Hun. cbn [mbind option_bind].
  exists 0, s'. split; [done|]. split; [done|]. split; [done|]. split; [done|]. split; [done|].
  split; [done|]. rewrite <-Hx. exact (conj Hoth Hd).
Qed.

(** What [drm_gem_handle_create] leaves. *)
Definition created_handle (f : fid) (o : oid) (s : gem) (ret : Z) (nid : option Z) (s' : gem) : Prop :=
  object_name_idr s' = object_name_idr s /\
  ((exists h, ret = 0 /\ nid = Some h /\ 0 < h < 2 ^ 31 /\ all_handles s !! (f, h) = None /\
     all_handles s' = <[(f, h) := o]> (all_handles s) /\
     exists ob, objects s !! o = Some ob /\
       objects s' = <[o := set_handle_count (handle_count ob + 1) (set_refcount (refcount ob + 1) ob)]> (objects s)) \/
   (ret < 0 /\ nid = None /\ all_handles s' = all_handles s /\ objects s' = objects s)).

Lemma handle_reference_run ext pend s o : gem_inv ext (bump pend o (-1)) s -> named_ok s ->
  (forall o, 0 <= pend o) -> (forall ob, objects s !! o = Some ob -> refcount ob + 1 < 2 ^ 32) ->
  is_Some (objects s !! o) ->
  exists s' ob, drm_gem_object_handle_reference o s = Some s' /\ gem_inv ext pend s' /\ named_ok s' /\
    objects s !! o = Some ob /\
    s' = set_objects (<[o := set_handle_count (handle_count ob + 1) (set_refcount (refcount ob + 1) ob)]> (objects s)) s.
Proof.
  intros Hinv Hnm Hp Hroom [ob Ho]. specialize (Hroom ob Ho). specialize (Hp o).
  destruct (gi_count _ _ _ Hinv o ob Ho) as (Hc & Hh & Hr & Hr0). rewrite bump_eq in Hc.
  pose proof (gi_ext _ _ _ Hinv o).
  pose proof (name_ref_range ob).
  unfold drm_gem_object_handle_reference, drm_gem_object_reference, kref_get, upd_obj.
  rewrite Ho. cbn [mbind option_bind]. simpl. rewrite lookup_insert_eq. cbn [mbind option_bind]. simpl.
  rewrite insert_insert_eq, !u32_small by lia.
  eexists _, ob. split; [done|]. split; [|split; [|split; [done|]]].
  - apply (inv_obj ext (bump pend o (-1)) s o ob); try done; rewrite ?bump_eq; simpl; try lia.
    intros x Hx. by rewrite bump_ne.
  - intros x obx. simpl. destruct (decide (x = o)) as [->|Hne].
    + rewrite lookup_insert_eq. intros [= <-]. simpl. lia.
    + rewrite lookup_insert_ne by done. apply Hnm.
  - done.
Qed.

Lemma set_file_same s f t : object_idrs s !! f = Some t -> set_file f t s = s.
Proof. intros Hf. unfold set_file. rewrite insert_id by done. by destruct s. Qed.

(** One pass through [drm_gem_handle_create]. *)
Lemma handle_create_pass n fuel ext pend s f t o ok : gem_inv ext pend s -> named_ok s ->
  (forall o, 0 <= pend o) -> ht_ok (S n) (counters s) -> object_idrs s !! f = Some t ->
  (forall ob, objects s !! o = Some ob -> refcount ob + 1 < 2 ^ 32) -> is_Some (objects s !! o) ->
  exists ret nid g' t', ht_new (counters s) t o ok = Some (ret, nid, g', t') /\ ht_ok n g' /\
    (ret <> - EAGAIN -> exists s', drm_gem_handle_create (S fuel) f o ok s = Some (ret, nid, s') /\
       gem_inv ext pend s' /\ named_ok s' /\ counters s' = g' /\ created_handle f o s ret nid s') /\
    (ret = - EAGAIN -> t' = t /\ gem_inv ext pend (set_counters g' s) /\
       drm_gem_handle_create (S fuel) f o ok s = drm_gem_handle_create fuel f o ok (set_counters g' s)).
Proof.
  intros Hinv Hnm Hp Hok Hf Hroom Hlive. pose proof (gi_files _ _ _ Hinv f t Hf) as Hti.
  destruct (ht_new_spec n (counters s) t o ok Hok Hti) as (ret & nid & g' & t' & Hnew & Hti' & Hok' & Hg & Hout).
  exists ret, nid, g', t'. split; [done|]. split; [done|].
  assert (gem_inv ext pend (set_counters g' s)) as Hsame.
  { rewrite <-(set_file_same s f t Hf). apply (inv_table ext pend s f t g' (all_handles s)); try done.
    - by apply Hg.
    - by rewrite (set_file_same s f t Hf).
    - apply Hinv. }
  cbn [drm_gem_handle_create]. pose proof Hlive as [ob Ho]. rewrite Ho, Hf. cbn [mbind option_bind].
  rewrite Hnew. cbn [mbind option_bind].
  split.
  - intros Hna. assert ((ret =? - EAGAIN) = false) as -> by by apply Z.eqb_neq.
    destruct Hout as [(h & -> & -> & Hh & Hn & Hm)|(Hret & -> & ->)].
    + change (0 =? 0) with true. cbn [negb].
      assert (all_handles s !! (f, h) = None) as Hnone by by rewrite all_handles_lookup, Hf.
      pose proof (all_handles_insert s f t t' h o Hf Hm) as Hall.
      destruct (handle_reference_run ext pend (set_counters g' (set_file f t' s)) o) as (s' & ob' & -> & Hinv' & Hnm' & Ho' & Es').
      * apply (inv_table ext pend s f t' g' (<[(f, h) := o]> (all_handles s))); try done.
        -- intros k x [[_ <-]|[_ Hk]]%lookup_insert_Some; [done|]. by apply (gi_live _ _ _ Hinv k).
        -- intros x. rewrite count_insert by done. unfold bump. repeat case_decide; subst; try congruence; lia.
        -- intros x Hx. rewrite bump_ne; [done|]. congruence.
      * done.
      * done.
      * done.
      * done.
      * cbn [mbind option_bind]. exists s'. split; [done|]. split; [done|]. split; [done|]. split; [by rewrite Es'|].
        split; [by rewrite Es'|]. left. exists h. do 4 (split; [done|]). split; [by rewrite Es', <-Hall|].
        exists ob'. split; [done|]. by rewrite Es'.
    + assert ((ret =? 0) = false) as -> by (apply Z.eqb_neq; lia). cbn [negb].
      rewrite (set_file_same s f t Hf). exists (set_counters g' s). split; [done|]. split; [done|].
      split; [by apply (named_objects s)|]. split; [done|]. split; [done|]. by right.
  - intros ->. destruct Hout as [(h & Hbad & _)|(Hret & -> & ->)]; [by unfold EAGAIN in Hbad|].
    split; [done|]. split; [done|]. rewrite Z.eqb_refl. by rewrite (set_file_same s f t Hf).
Qed.

Lemma handle_create_run ext pend s f t o ok : gem_inv ext pend s -> named_ok s ->
  (forall o, 0 <= pend o) -> ht_ok 2 (counters s) -> object_idrs s !! f = Some t ->
  Z.of_nat (size (ht_map t)) < ht_capacity ->
  (forall ob, objects s !! o = Some ob -> refcount ob + 1 < 2 ^ 32) -> is_Some (objects s !! o) ->
  exists ret nid s', drm_gem_handle_create 2 f o ok s = Some (ret, nid, s') /\
    gem_inv ext pend s' /\ named_ok s' /\ ret <> - EAGAIN /\ created_handle f o s ret nid s'.
Proof.
  intros Hinv Hnm Hp Hok Hf Hcap Hroom Hlive.
  destruct (handle_create_pass 1 1 ext pend s f t o ok) as (ret & nid & g' & t' & Hnew & Hok' & Hgo & Hagain); try done.
  destruct (decide (ret = - EAGAIN)) as [->|Hna].
  - destruct (Hagain eq_refl) as (-> & Hinv1 & ->).
    destruct (handle_create_pass 0 0 ext pend (set_counters g' s) f t o ok) as (ret2 & nid2 & g2 & t2 & Hnew2 & _ & Hgo2 & _); try done.
    assert (ret2 <> - EAGAIN) as Hna2.
    { apply (ht_new_again (counters s) t o ok g' t nid Hok (gi_files _ _ _ Hinv f t Hf) Hnew Hcap _ _ _ _ Hnew2). }
    destruct (Hgo2 Hna2) as (s' & Hs' & ? & ? & _ & Hc). exists ret2, nid2, s'. done.
  - destruct (Hgo Hna) as (s' & Hs' & ? & ? & _ & Hc). exists ret, nid, s'. done.
Qed.

(** ** Lookup, names *)

Lemma lookup_run ext pend s f t h : gem_inv ext pend s -> named_ok s -> room s ->
  object_idrs s !! f = Some t -> 0 <= h < 2 ^ 32 ->
  exists obj s', drm_gem_object_lookup f h s = Some (obj, s') /\ obj = all_handles s !! (f, h) /\
    named_ok s' /\ gem_inv (match obj with Some o => bump ext o 1 | None => ext end) pend s' /\
    (obj = None -> s' = s) /\ counters s' = counters s /\ object_name_idr s' = object_name_idr s /\
    object_idrs s' = object_idrs s /\
    forall x ob', objects s' !! x = Some ob' -> exists ob, objects s !! x = Some ob /\
      refcount ob' <= refcount ob + 1 /\ handle_count ob' = handle_count ob /\ obj_name ob' = obj_name ob /\
      obj_size ob' = obj_size ob.
Proof.
  intros Hinv Hnm Hroom Hf Hh. unfold drm_gem_object_lookup. rewrite Hf. cbn [mbind option_bind].
  rewrite (handle_lookup ext pend s f t h) by done. cbn [mbind option_bind].
  destruct (all_handles s !! (f, h)) as [o|] eqn:Ho.
  2: { exists None, s. do 7 (split; [done|]). split; [done|]. intros x ob' Hx. exists ob'. split; [done|]. lia. }
  destruct (gi_live _ _ _ Hinv _ _ Ho) as [ob Hob].
  destruct (reference_run ext pend s o ob Hinv Hob) as (s' & -> & Hinv' & ->).
  { specialize (Hroom o ob Hob). lia. }
  cbn [mbind option_bind]. eexists (Some o), _. do 2 (split; [done|]). split; [|split; [done|]].
  - intros x obx. simpl. destruct (decide (x = o)) as [->|Hne].
    + rewrite lookup_insert_eq. intros [= <-]. by apply (Hnm o ob).
    + rewrite lookup_insert_ne by done. apply Hnm.
  - split; [done|]. do 3 (split; [done|]). intros x ob'. simpl. destruct (decide (x = o)) as [->|Hne].
    + rewrite lookup_insert_eq. intros [= <-]. exists ob. split; [done|]. simpl. lia.
    + rewrite lookup_insert_ne by done. intros Hx. exists ob'. split; [done|]. lia.
Qed.

(** An object given a name, with a reference for the name table. *)
Definition named (n : Z) (ob : drm_gem_object) : drm_gem_object :=
  set_refcount (refcount ob + 1) (set_name n ob).

Lemma inv_named ext pend s o ob n g' names' : gem_inv ext pend s -> objects s !! o = Some ob ->
  obj_name ob = 0 -> 0 < n -> ht_map (object_name_idr s) !! n = None ->
  ht_map names' = <[n := o]> (ht_map (object_name_idr s)) -> refcount ob + 1 < 2 ^ 32 ->
  ht_inv g' names' -> (forall t2, ht_inv (counters s) t2 -> ht_inv g' t2) ->
  gem_inv ext pend (mk_gem g' names' (<[o := named n ob]> (objects s)) (object_idrs s)).
Proof.
  intros Hinv Ho Hz Hn Hnone Hm Hr Hi Hg. destruct Hinv as [I2 I3 I4 I5 I6 I7 I8].
  split; simpl; try done.
  - intros f t Hf. by apply Hg, (I3 f).
  - intros k x Hk. apply lookup_insert_is_Some'. right. by apply (I4 k).
  - intros n' x. rewrite Hm. destruct (decide (n' = n)) as [->|Hnn].
    + rewrite lookup_insert_eq. split.
      * intros [= <-]. exists (named n ob). rewrite lookup_insert_eq. split_and!; [done|done|lia].
      * intros (obx & Hx & Hn' & _). destruct (decide (x = o)) as [->|Hne]; [done|].
        rewrite lookup_insert_ne in Hx by done.
        assert (ht_map (object_name_idr s) !! n = Some x) by (apply I5; exists obx; split_and!; [done|done|lia]). congruence.
    + rewrite lookup_insert_ne, I5 by done. destruct (decide (x = o)) as [->|Hne].
      * rewrite lookup_insert_eq, Ho. split.
        -- intros (ob2 & [= <-] & Hn2 & Hn0). congruence.
        -- intros (ob2 & [= <-] & Hn2 & Hn0). simpl in Hn2. congruence.
      * by rewrite lookup_insert_ne.
  - intros x obx. destruct (decide (x = o)) as [->|Hne].
    + rewrite lookup_insert_eq. intros [= <-]. destruct (I6 o ob Ho) as (E1 & E2 & E3 & E4).
      unfold name_ref in *. simpl. rewrite Hz in E3. change (0 =? 0) with true in E3. cbn iota in E3.
      destruct (Z.eqb_spec n 0); [lia|].
      change (all_handles (mk_gem _ _ _ (object_idrs s))) with (all_handles s). lia.
    + rewrite lookup_insert_ne by done. apply I6.
  - intros x. destruct (decide (x = o)) as [->|Hne]; [by rewrite lookup_insert_eq|].
    rewrite lookup_insert_ne by done. apply I8.
Qed.

(** One pass through the body of the flink ioctl for an object that has no name. *)
Lemma flink_pass n fuel ext pend s o ob ok : gem_inv ext pend s -> objects s !! o = Some ob ->
  obj_name ob = 0 -> 0 < handle_count ob -> named_ok s -> refcount ob + 1 < 2 ^ 32 -> ht_ok (S n) (counters s) ->
  exists ret nid g' names, ht_new (counters s) (object_name_idr s) o ok = Some (ret, nid, g', names) /\ ht_ok n g' /\
    (ret <> - EAGAIN -> exists name s', flink_again (S fuel) o ok s = Some (ret, name, s') /\
       gem_inv ext pend s' /\ named_ok s' /\ all_handles s' = all_handles s /\
       (forall x, x <> o -> objects s' !! x = objects s !! x) /\
       ((ret = 0 /\ 0 < name < 2 ^ 31 /\ objects s' !! o = Some (named name ob)) \/
        (ret < 0 /\ name = 0 /\ objects s' !! o = Some ob))) /\
    (ret = - EAGAIN -> names = object_name_idr s /\ gem_inv ext pend (set_counters g' s) /\
       flink_again (S fuel) o ok s = flink_again fuel o ok (set_counters g' s)).
Proof.
  intros Hinv Ho Hz Hhc Hnm Hr Hok. pose proof (gi_names _ _ _ Hinv) as Hti.
  destruct (ht_new_spec n (counters s) (object_name_idr s) o ok Hok Hti) as (ret & nid & g' & names & Hnew & Hti' & Hok' & Hg & Hout).
  exists ret, nid, g', names. split; [done|]. split; [done|].
  cbn [flink_again]. rewrite Ho. cbn [mbind option_bind]. rewrite Hz. change (0 =? 0) with true. cbn iota.
  rewrite Hnew. cbn [mbind option_bind].
  assert (gem_inv ext pend (set_counters g' s)) as Hsame.
  { destruct Hinv as [I2 I3 I4 I5 I6 I7 I8]. split; try done; [by apply Hg|]. intros f t Hf. by apply Hg, (I3 f). }
  assert (forall s0, set_names (object_name_idr s0) s0 = s0) as Hset by (intros []; done).
  split.
  - intros Hna. assert ((ret =? - EAGAIN) = false) as E by by apply Z.eqb_neq.
    destruct Hout as [(m & -> & -> & Hm & Hn & Hmap)|(Hret & -> & ->)].
    + unfold upd_obj. simpl. rewrite Ho. cbn [mbind option_bind]. simpl. rewrite lookup_insert_eq. cbn [mbind option_bind].
      change (0 =? - EAGAIN) with false. change (negb (0 =? 0)) with false. cbn iota.
      unfold drm_gem_object_reference, kref_get, upd_obj. simpl. rewrite lookup_insert_eq. cbn [mbind option_bind].
      simpl. rewrite insert_insert_eq, u32_small by (destruct (gi_count _ _ _ Hinv o ob Ho) as (_ & _ & _ & ?); lia).
      pose proof (inv_named ext pend s o ob m g' names Hinv Ho Hz (proj1 Hm) Hn Hmap Hr Hti' Hg) as Hinv'.
      exists m, (mk_gem g' names (<[o := named m ob]> (objects s)) (object_idrs s)).
      split; [done|]. split; [done|]. split; [|split; [done|split]].
      * intros x obx. simpl. destruct (decide (x = o)) as [->|Hne].
        -- rewrite lookup_insert_eq. by intros [= <-].
        -- rewrite lookup_insert_ne by done. apply Hnm.
      * intros x Hne. simpl. by rewrite lookup_insert_ne.
      * left. split; [done|]. split; [done|]. simpl. by rewrite lookup_insert_eq.
    + simpl. rewrite Ho. cbn [mbind option_bind]. rewrite E.
      assert ((ret =? 0) = false) as -> by (apply Z.eqb_neq; lia). cbn [negb].
      exists 0, (set_counters g' s). rewrite Hz. split; [done|]. split; [done|]. split; [done|].
      split; [done|]. split; [done|]. by right.
  - intros ->. destruct Hout as [(h & Hbad & _)|(Hret & -> & ->)]; [by unfold EAGAIN in Hbad|].
    split; [done|]. split; [done|]. simpl. rewrite Ho. done.
Qed.

Lemma flink_run ext pend s o ob ok : gem_inv ext pend s -> objects s !! o = Some ob ->
  0 < handle_count ob -> named_ok s -> refcount ob + 1 < 2 ^ 32 -> ht_ok 2 (counters s) ->
  Z.of_nat (size (ht_map (object_name_idr s))) < ht_capacity ->
  exists ret name s', flink_again 2 o ok s = Some (ret, name, s') /\ gem_inv ext pend s' /\ named_ok s' /\
    all_handles s' = all_handles s /\ (forall x, x <> o -> objects s' !! x = objects s !! x) /\
    exists ob', objects s' !! o = Some ob' /\ handle_count ob' = handle_count ob /\ obj_name ob' = name /\
      (ret = 0 -> name <> 0) /\ (ret <> 0 -> ret < 0 /\ name = 0) /\ (obj_name ob <> 0 -> ob' = ob /\ ret = 0).
Proof.
  intros Hinv Ho Hhc Hnm Hr Hok Hcap. destruct (Z.eqb_spec (obj_name ob) 0) as [Hz|Hz].
  2: { exists 0, (obj_name ob), s. cbn [flink_again]. rewrite Ho. cbn [mbind option_bind].
       destruct (Z.eqb_spec (obj_name ob) 0); [done|]. split; [done|]. split; [done|]. split; [done|].
       split; [done|]. split; [done|]. exists ob. split_and!; done. }
  assert (forall ret name s', gem_inv ext pend s' /\ named_ok s' /\ all_handles s' = all_handles s /\
       (forall x, x <> o -> objects s' !! x = objects s !! x) /\
       ((ret = 0 /\ 0 < name < 2 ^ 31 /\ objects s' !! o = Some (named name ob)) \/
        (ret < 0 /\ name = 0 /\ objects s' !! o = Some ob)) ->
    gem_inv ext pend s' /\ named_ok s' /\
    all_handles s' = all_handles s /\ (forall x, x <> o -> objects s' !! x = objects s !! x) /\
    exists ob', objects s' !! o = Some ob' /\ handle_count ob' = handle_count ob /\ obj_name ob' = name /\
      (ret = 0 -> name <> 0) /\ (ret <> 0 -> ret < 0 /\ name = 0) /\ (obj_name ob <> 0 -> ob' = ob /\ ret = 0)) as Hfin.
  { intros ret name s' (? & ? & ? & ? & Hcase). do 4 (split; [done|]).
    destruct Hcase as [(-> & Hn & ->)|(Hret & -> & ->)]; eexists; (split; [done|]); simpl; split_and!; done || lia. }
  destruct (flink_pass 1 1 ext pend s o ob ok) as (ret & nid & g' & names & Hnew & Hok' & Hgo & Hagain); try done.
  destruct (decide (ret = - EAGAIN)) as [->|Hna].
  - destruct (Hagain eq_refl) as (-> & Hinv1 & ->).
    destruct (flink_pass 0 0 ext pend (set_counters g' s) o ob ok) as (ret2 & nid2 & g2 & n2 & Hnew2 & _ & Hgo2 & _); try done.
    assert (ret2 <> - EAGAIN) as Hna2.
    { apply (ht_new_again (counters s) (object_name_idr s) o ok g' (object_name_idr s) nid Hok
        (gi_names _ _ _ Hinv) Hnew Hcap _ _ _ _ Hnew2). }
    destruct (Hgo2 Hna2) as (name & s' & Hs' & Hrest). exists ret2, name, s'. split; [done|]. by apply Hfin.
  - destruct (Hgo Hna) as (name & s' & Hs' & Hrest). exists ret, name, s'. split; [done|]. by apply Hfin.
Qed.

(** The caller's reference is back to what it was. *)
Lemma bump_back ext o d x : bump (bump ext o d) o (- d) x = ext x.
Proof. unfold bump. case_decide; lia. Qed.

Lemma inv_ext ext ext' pend s : (forall x, ext x = ext' x) -> gem_inv ext pend s -> gem_inv ext' pend s.
Proof.
  intros E [I2 I3 I4 I5 I6 I7 I8]. split; try done; intros x; [|rewrite <-E..]; try done.
  - intros ob Hx. rewrite <-E. by apply I6.
  - by apply I8.
Qed.

Lemma all_handles_idrs (s s' : gem) : object_idrs s' = object_idrs s -> all_handles s' = all_handles s.
Proof. unfold all_handles. by intros ->. Qed.

(** The whole flink ioctl on a file that is open. *)
Lemma flink_ioctl_run ext pend s f t h ok : gem_inv ext pend s -> named_ok s -> room s ->
  (forall o, pend o = 0) -> object_idrs s !! f = Some t -> 0 <= h < 2 ^ 32 -> ht_ok 2 (counters s) ->
  Z.of_nat (size (ht_map (object_name_idr s))) < ht_capacity ->
  exists ret name s', drm_gem_flink_ioctl 2 true f h ok s = Some (ret, name, s') /\
    gem_inv ext pend s' /\ named_ok s' /\ all_handles s' = all_handles s /\
    match all_handles s !! (f, h) with
    | None => ret = - ENOENT /\ name = None /\ s' = s
    | Some o => (forall x, x <> o -> objects s' !! x = objects s !! x) /\
        exists ob ob' n, objects s !! o = Some ob /\ objects s' !! o = Some ob' /\ name = Some n /\
          obj_name ob' = n /\ (ret = 0 -> n <> 0 /\ ht_map (object_name_idr s') !! n = Some o) /\
          (ret <> 0 -> ret < 0 /\ n = 0) /\ (obj_name ob <> 0 -> n = obj_name ob /\ ret = 0)
    end.
Proof.
  intros Hinv Hnm Hroom Hp Hf Hh Hok Hcap. unfold drm_gem_flink_ioctl. cbn [negb].
  unfold drm_gem_object_lookup. rewrite Hf. cbn [mbind option_bind].
  rewrite (handle_lookup ext pend s f t h) by done. cbn [mbind option_bind].
  destruct (all_handles s !! (f, h)) as [o|] eqn:Ho.
  2: { exists (- ENOENT), None, s. done. }
  destruct (gi_live _ _ _ Hinv _ _ Ho) as [ob Hob]. pose proof (Hroom o ob Hob) as Hr.
  destruct (reference_run ext pend s o ob Hinv Hob) as (s1 & -> & Hinv1 & Es1); [lia|].
  cbn [mbind option_bind].
  set (ob1 := set_refcount (refcount ob + 1) ob) in *.
  assert (objects s1 !! o = Some ob1) as Hob1 by (subst s1; apply lookup_insert_eq).
  assert (0 < handle_count ob) as Hhc.
  { destruct (gi_count _ _ _ Hinv o ob Hob) as (Hc & _). rewrite Hp in Hc.
    assert (nhandles o (all_handles s) <> 0%nat); [|lia]. intros Hz. by apply (count_zero o _ _ Hz Ho). }
  assert (named_ok s1) as Hnm1.
  { intros x obx Hx. subst s1. simpl in Hx. destruct (decide (x = o)) as [->|Hne].
    - rewrite lookup_insert_eq in Hx. injection Hx as <-. by apply (Hnm o ob).
    - rewrite lookup_insert_ne in Hx by done. by apply (Hnm x). }
  destruct (flink_run _ _ s1 o ob1 ok Hinv1 Hob1) as (ret & name & s2 & -> & Hinv2 & Hnm2 & Hall2 & Hoth2 &
    ob2 & Hob2 & Hhc2 & Hn2 & Hz2 & Hnz2 & Hold2); try done; try (subst s1; done).
  { simpl. lia. }
  cbn [mbind option_bind].
  destruct (unreference_run _ _ s2 o Hinv2 Hnm2) as (s3 & -> & Hinv3 & Hnm3 & C3 & N3 & F3 & Hoth3 & ob3 & Eob3 & Hob3).
  { rewrite bump_eq. pose proof (gi_ext _ _ _ Hinv o). lia. }
  { by rewrite Hp. }
  cbn [mbind option_bind]. rewrite Hob2 in Eob3. injection Eob3 as <-.
  exists ret, (Some name), s3. split; [done|].
  apply (inv_ext _ ext) in Hinv3 as Hinv4; [|apply (bump_back ext o 1)].
  split; [done|]. split; [done|]. rewrite (all_handles_idrs s2 s3 F3), Hall2. split; [by subst s1|].
  split; [intros x Hx; rewrite Hoth3, Hoth2 by done; subst s1; simpl; by rewrite lookup_insert_ne|].
  destruct (gi_count _ _ _ Hinv2 o ob2 Hob2) as (_ & _ & Hc2 & _). rewrite bump_eq in Hc2.
  pose proof (gi_ext _ _ _ Hinv o). pose proof (name_ref_range ob2).
  assert (handle_count ob1 = handle_count ob) as Hhc1 by done.
  destruct (Z.eqb_spec (refcount ob2) 1) as [?|Hr2]; [lia|].
  eexists ob, _, name. split; [done|]. split; [exact Hob3|]. split; [done|]. split; [done|]. split; [|split; [done|]].
  - intros Hret. split; [by apply Hz2|]. apply (gi_name _ _ _ Hinv4). eexists. split; [exact Hob3|].
    split; [done|by apply Hz2].
  - intros Hne. destruct (Hold2 Hne) as [-> ->]. done.
Qed.

Lemma open_ioctl_run ext pend s f t n ok : gem_inv ext pend s -> named_ok s -> room s ->
  (forall o, pend o = 0) -> object_idrs s !! f = Some t -> 0 <= n < 2 ^ 32 -> ht_ok 2 (counters s) ->
  Z.of_nat (size (ht_map t)) < ht_capacity ->
  exists ret hs s', drm_gem_open_ioctl 2 true f n ok s = Some (ret, hs, s') /\
    gem_inv ext pend s' /\ named_ok s' /\ object_name_idr s' = object_name_idr s /\
    match ht_map (object_name_idr s) !! n with
    | None => ret = - ENOENT /\ hs = None /\ s' = s
    | Some o => ret <> - EAGAIN /\ (forall x, x <> o -> objects s' !! x = objects s !! x) /\
        exists ob ob', objects s !! o = Some ob /\ objects s' !! o = Some ob' /\ obj_name ob' = obj_name ob /\
          obj_size ob' = obj_size ob /\
          ((exists h, ret = 0 /\ hs = Some (h, obj_size ob) /\ 0 < h < 2 ^ 31 /\ all_handles s !! (f, h) = None /\
              all_handles s' = <[(f, h) := o]> (all_handles s)) \/
           (ret < 0 /\ hs = None /\ all_handles s' = all_handles s))
    end.
Proof.
  intros Hinv Hnm Hroom Hp Hf Hn Hok Hcap. unfold drm_gem_open_ioctl. cbn [negb].
  rewrite (ht_find_spec (counters s) (object_name_idr s) n (gi_names _ _ _ Hinv) Hn). cbn [mbind option_bind].
  destruct (ht_map (object_name_idr s) !! n) as [o|] eqn:Ho.
  2: { exists (- ENOENT), None, s. done. }
  destruct (proj1 (gi_name _ _ _ Hinv n o) Ho) as (ob & Hob & Hname & Hn0).
  pose proof (Hroom o ob Hob) as Hr.
  destruct (reference_run ext pend s o ob Hinv Hob) as (s1 & -> & Hinv1 & Es1); [lia|].
  cbn [mbind option_bind].
  set (ob1 := set_refcount (refcount ob + 1) ob) in *.
  assert (objects s1 !! o = Some ob1) as Hob1 by (subst s1; apply lookup_insert_eq).
  assert (named_ok s1) as Hnm1.
  { intros x obx Hx. subst s1. simpl in Hx. destruct (decide (x = o)) as [->|Hne].
    - rewrite lookup_insert_eq in Hx. injection Hx as <-. by apply (Hnm o ob).
    - rewrite lookup_insert_ne in Hx by done. by apply (Hnm x). }
  destruct (handle_create_run _ _ s1 f t o ok Hinv1 Hnm1) as (ret & nid & s2 & -> & Hinv2 & Hnm2 & Hna & N2 & Hcr);
    try (subst s1; done).
  { intros x. rewrite Hp. lia. }
  { intros obx Hx. rewrite Hob1 in Hx. injection Hx as <-. simpl. lia. }
  cbn [mbind option_bind].
  destruct (unreference_run _ _ s2 o Hinv2 Hnm2) as (s3 & -> & Hinv3 & Hnm3 & C3 & N3 & F3 & Hoth3 & ob3 & Eob3 & Hob3).
  { rewrite bump_eq. pose proof (gi_ext _ _ _ Hinv o). lia. }
  { by rewrite Hp. }
  cbn [mbind option_bind].
  apply (inv_ext _ ext) in Hinv3 as Hinv4; [|apply (bump_back ext o 1)].
  assert (object_name_idr s3 = object_name_idr s) as Hns by (rewrite N3, N2; by subst s1).
  destruct (gi_count _ _ _ Hinv2 o ob3 Eob3) as (_ & Hh3 & Hc3 & Hr3). rewrite bump_eq in Hc3.
  pose proof (gi_ext _ _ _ Hinv o).
  assert (objects s1 = <[o := ob1]> (objects s) /\ all_handles s1 = all_handles s) as [Os1 As1] by by subst s1.
  destruct Hcr as [(h & -> & -> & Hh & Hnone & Hall & obx & Hobx & Hobs)|(Hret & -> & Hall & Hobs)].
  - cbn [negb Z.eqb]. rewrite Hob1 in Hobx. injection Hobx as <-.
    rewrite Hobs, lookup_insert_eq in Eob3. injection Eob3 as <-. simpl in Hob3.
    destruct (gi_count _ _ _ Hinv o ob Hob) as (_ & ? & Hc & Hr0).
    destruct (Z.eqb_spec (refcount ob + 1 + 1) 1) as [?|_]; [lia|]. rewrite Hob3. cbn [mbind option_bind].
    eexists 0, _, s3. split; [done|]. split; [done|]. split; [done|]. split; [done|]. split; [done|].
    split; [intros x Hx; rewrite Hoth3, Hobs, lookup_insert_ne, Os1, lookup_insert_ne by done; done|].
    eexists ob, _. split; [done|]. split; [exact Hob3|]. split; [done|]. split; [done|]. left.
    exists h. rewrite (all_handles_idrs s2 s3 F3), Hall, <-As1. done.
  - assert ((ret =? 0) = false) as -> by (apply Z.eqb_neq; lia). cbn [negb].
    rewrite Hobs, Hob1 in Eob3. injection Eob3 as <-. simpl in Hob3.
    destruct (gi_count _ _ _ Hinv o ob Hob) as (_ & ? & Hc & Hr0).
    destruct (Z.eqb_spec (refcount ob + 1) 1) as [?|_]; [lia|].
    exists ret, None, s3. split; [done|]. split; [done|]. split; [done|]. split; [done|]. split; [done|].
    split; [intros x Hx; rewrite Hoth3, Hobs, Os1, lookup_insert_ne by done; done|].
    eexists ob, _. split; [done|]. split; [exact Hob3|]. split; [done|]. split; [done|]. right.
    rewrite (all_handles_idrs s2 s3 F3), Hall. done.
Qed.
End Gem.
