(* ===== verification/GemSafe.v ===== *)
(** * GEM objects under any sequence of operations

    The release of a file, the creation of an object by the i915 driver, and the
    system as a step relation: the operations of Gem on a device with any number
    of files, and the references the drivers hold.  In every reachable state the
    reference counts are exact and no operation touches a freed object. *)

From S2P Require Import Prelude HandleTable Idr IdrList Gem.

Definition PAGE_SIZE : Z := 4096.

(** [roundup] on 64-bit sizes. *)
Definition roundup64 (x y : Z) : Z := u64 (u64 (u64 (x + (y - 1)) / y * y)).

Section GemSafe.
Context {G T : Type} `{HandleTableLaws G T oid}.
Abbreviation gem := (gem (G := G) (T := T)).

(** [obj] is what [i915_gem_alloc_object] returns: memory that is initialised by
    [drm_gem_object_init], or NULL.  The value and [*handle_p] when it is set. *)
Definition i915_gem_create (fuel : nat) (filp : fid) (size : Z) (obj : option oid) (alloc_ok : bool)
    (s : gem) : option (Z * option Z * gem) :=
  let size := roundup64 size PAGE_SIZE in
  if size =? 0 then Some (- EINVAL, None, s) else
  match obj with
  | None => Some (- ENOMEM, None, s)
  | Some o =>
      let s := drm_gem_object_init o size s in
      '(ret, handle, s) ← drm_gem_handle_create fuel filp o alloc_ok s;
      if negb (ret =? 0) then
        s ← drm_gem_object_free o s;
        Some (ret, None, s)
      else
      s ← drm_gem_object_unreference o s;
      Some (0, handle, s)
  end.

(** ** Operations *)

Inductive gem_op :=
| OpOpenFile (f : fid) (empty : T)
| OpCreate (f : fid) (size : Z) (obj : option oid) (alloc_ok : bool)
| OpClose (f : fid) (h : Z)
| OpLookup (f : fid) (h : Z)          (* a driver ioctl takes a reference ... *)
| OpUnref (o : oid)                   (* ... and drops it *)
| OpFlink (f : fid) (h : Z) (alloc_ok : bool)
| OpOpen (f : fid) (name : Z) (alloc_ok : bool)
| OpRelease (f : fid) (objs : list oid).

(** The state with the references held by drivers. *)
Definition gem_state : Type := (oid -> Z) * gem.

Definition gem_exec (op : gem_op) (es : gem_state) : option gem_state :=
  let '(ext, s) := es in
  match op with
  | OpOpenFile f t => Some (ext, drm_gem_open f t s)
  | OpCreate f size obj ok => '(_, _, s) ← i915_gem_create 2 f size obj ok s; Some (ext, s)
  | OpClose f h => '(_, s) ← drm_gem_close_ioctl true f h s; Some (ext, s)
  | OpLookup f h =>
      '(obj, s) ← drm_gem_object_lookup f h s;
      Some (match obj with Some o => bump ext o 1 | None => ext end, s)
  | OpUnref o => s ← drm_gem_object_unreference_unlocked o s; Some (bump ext o (-1), s)
  | OpFlink f h ok => '(_, _, s) ← drm_gem_flink_ioctl 2 true f h ok s; Some (ext, s)
  | OpOpen f n ok => '(_, _, s) ← drm_gem_open_ioctl 2 true f n ok s; Some (ext, s)
  | OpRelease f objs => s ← drm_gem_release f objs s; Some (ext, s)
  end.

(** A table of an open file with room for one more handle. *)
Definition open_file (f : fid) (s : gem) (P : T -> Prop) : Prop :=
  exists t, object_idrs s !! f = Some t /\ P t.

Definition has_room (t : T) : Prop := Z.of_nat (size (ht_map t)) < ht_capacity.

(** What the kernel guarantees of a call: the file is open, the objects in its
    table are visited once each on release, an allocation returns fresh memory,
    and only references that are held are dropped; and the bounds: the counters
    and the tables are not exhausted. *)
Definition allowed (op : gem_op) (es : gem_state) : Prop :=
  let '(ext, s) := es in
  match op with
  | OpOpenFile f t => object_idrs s !! f = None /\ ht_inv (counters s) t /\ ht_map t = ∅
  | OpCreate f size obj _ => open_file f s has_room /\ ht_ok 2 (counters s) /\
      forall o, obj = Some o -> objects s !! o = None
  | OpClose f h => open_file f s (fun _ => True) /\ 0 <= h < 2 ^ 32
  | OpLookup f h => open_file f s (fun _ => True) /\ 0 <= h < 2 ^ 32 /\ room s
  | OpUnref o => 0 < ext o
  | OpFlink f h _ => open_file f s (fun _ => True) /\ 0 <= h < 2 ^ 32 /\ room s /\
      ht_ok 2 (counters s) /\ has_room (object_name_idr s)
  | OpOpen f n _ => open_file f s has_room /\ 0 <= n < 2 ^ 32 /\ room s /\ ht_ok 2 (counters s)
  | OpRelease f objs => open_file f s (fun t => objs ≡ₚ (map_to_list (ht_map t)).*2)
  end.

Inductive gem_step : gem_state -> gem_state -> Prop :=
| gem_step_op op es es' : allowed op es -> gem_exec op es = Some es' -> gem_step es es'.

(** A device with no object and no open file. *)
Definition gem_initial (es : gem_state) : Prop :=
  exists g names, es = (fun _ => 0, mk_gem g names ∅ ∅) /\ ht_inv g names /\ ht_map names = ∅.

(** ** Creating an object *)

Definition no_pend : oid -> Z := fun _ => 0.

Definition gem_good (es : gem_state) : Prop := gem_inv es.1 no_pend es.2 /\ named_ok es.2.

Lemma init_inv ext pend s o size : gem_inv ext pend s -> named_ok s -> objects s !! o = None ->
  gem_inv (bump ext o 1) pend (drm_gem_object_init o size s) /\ named_ok (drm_gem_object_init o size s).
Proof.
  intros Hinv Hnm Ho. split.
  - destruct Hinv as [I2 I3 I4 I5 I6 I7 I8]. destruct (I8 o Ho) as [He Hp].
    assert (nhandles o (all_handles s) = 0%nat) as Hc.
    { apply nhandles_none. intros k Hk. destruct (I4 k o Hk). congruence. }
    split; simpl; try done.
    + intros k x Hk. apply lookup_insert_is_Some'. right. by apply (I4 k).
    + intros n x. rewrite I5. destruct (decide (x = o)) as [->|Hne].
      * rewrite lookup_insert_eq, Ho. split; [by intros (? & ? & _)|]. intros (ob & [= <-] & ? & ?). simpl in *. congruence.
      * by rewrite lookup_insert_ne.
    + intros x ob. destruct (decide (x = o)) as [->|Hne].
      * rewrite lookup_insert_eq, bump_eq. intros [= <-]. unfold name_ref. simpl.
        change (all_handles (drm_gem_object_init o size s)) with (all_handles s). lia.
      * rewrite lookup_insert_ne, bump_ne by done. apply I6.
    + intros x. destruct (decide (x = o)) as [->|Hne]; [rewrite bump_eq; lia|by rewrite bump_ne].
    + intros x. destruct (decide (x = o)) as [->|Hne]; [by rewrite lookup_insert_eq|].
      rewrite lookup_insert_ne, bump_ne by done. apply I8.
  - intros x ob. simpl. destruct (decide (x = o)) as [->|Hne].
    + rewrite lookup_insert_eq. by intros [= <-].
    + rewrite lookup_insert_ne by done. apply Hnm.
Qed.

Lemma unlocked_same o (s : gem) : is_Some (objects s !! o) ->
  drm_gem_object_unreference_unlocked o s = drm_gem_object_unreference o s.
Proof. unfold drm_gem_object_unreference_unlocked. by intros [ob ->]. Qed.

Lemma free_last ext s o ob : gem_inv ext no_pend s -> named_ok s -> objects s !! o = Some ob ->
  refcount ob = 1 -> 0 < ext o ->
  gem_inv (bump ext o (-1)) no_pend (set_objects (delete o (objects s)) s) /\
  named_ok (set_objects (delete o (objects s)) s).
Proof.
  intros Hinv Hnm Ho Hr He.
  destruct (unreference_run ext no_pend s o Hinv Hnm He) as (s' & Hs' & Hinv' & Hnm' & C & N & F & Hoth & ob' & Ho' & Hd); [done|].
  assert (ob' = ob) as -> by congruence. rewrite Hr in Hd. simpl in Hd.
  assert (set_objects (delete o (objects s)) s = s') as ->; [|done].
  destruct s' as [c' n' os' fs']. unfold set_objects. simpl in *. subst. f_equal. apply map_eq. intros x.
  destruct (decide (x = o)) as [->|Hne]; [by rewrite lookup_delete_eq|]. by rewrite lookup_delete_ne, Hoth.
Qed.

(** What creation leaves. *)
Definition created (f : fid) (size : Z) (s : gem) (ret : Z) (h : option Z) (obj : option oid) (s' : gem) : Prop :=
  (exists hd o, ret = 0 /\ h = Some hd /\ 0 < hd < 2 ^ 31 /\ obj = Some o /\ all_handles s !! (f, hd) = None /\
     all_handles s' = <[(f, hd) := o]> (all_handles s) /\
     objects s' = <[o := mk_obj 1 1 0 (roundup64 size PAGE_SIZE)]> (objects s)) \/
  (ret < 0 /\ h = None /\ all_handles s' = all_handles s /\ objects s' = objects s).

Lemma create_run ext s f t size obj ok : gem_inv ext no_pend s -> named_ok s ->
  ht_ok 2 (counters s) -> object_idrs s !! f = Some t -> has_room t ->
  (forall o, obj = Some o -> objects s !! o = None) ->
  exists ret h s', i915_gem_create 2 f size obj ok s = Some (ret, h, s') /\
    gem_inv ext no_pend s' /\ named_ok s' /\ created f size s ret h obj s'.
Proof.
  intros Hinv Hnm Hok Hf Hroom Hfresh. unfold i915_gem_create.
  set (sz := roundup64 size PAGE_SIZE).
  destruct (Z.eqb_spec sz 0) as [_|Hz].
  { exists (- EINVAL), None, s. do 3 (split; [done|]). by right. }
  destruct obj as [o|].
  2: { exists (- ENOMEM), None, s. do 3 (split; [done|]). by right. }
  specialize (Hfresh o eq_refl).
  destruct (init_inv ext no_pend s o sz Hinv Hnm Hfresh) as [Hinv1 Hnm1].
  set (s1 := drm_gem_object_init o sz s) in *.
  assert (objects s1 !! o = Some (mk_obj 1 0 0 sz)) as Ho1 by apply lookup_insert_eq.
  destruct (handle_create_run _ _ s1 f t o ok Hinv1 Hnm1) as (ret & nid & s2 & -> & Hinv2 & Hnm2 & Hna & N2 & Hcr);
    try done.
  { intros obx. rewrite Ho1. by intros [= <-]. }
  cbn [mbind option_bind].
  assert (0 < bump ext o 1 o) as He by (rewrite bump_eq; pose proof (gi_ext _ _ _ Hinv o); lia).
  destruct Hcr as [(h & -> & -> & Hh & Hnone & Hall & obx & Hobx & Hobs)|(Hret & -> & Hall & Hobs)].
  - cbn [negb Z.eqb]. rewrite Ho1 in Hobx. injection Hobx as <-.
    destruct (unreference_run _ _ s2 o Hinv2 Hnm2 He) as (s3 & Hs3 & Hinv3 & Hnm3 & C3 & N3 & F3 & Hoth3 & ob3 & Eob3 & Hob3); [done|].
    rewrite unlocked_same in Hs3 by done. rewrite Hs3. cbn [mbind option_bind].
    exists 0, (Some h), s3. split; [done|].
    split; [apply (inv_ext _ ext) in Hinv3; [done|apply (bump_back ext o 1)]|]. split; [done|].
    left. exists h, o. do 5 (split; [done|]). split; [by rewrite (all_handles_idrs s2 s3 F3), Hall|].
    rewrite Hobs, lookup_insert_eq in Eob3. injection Eob3 as <-. simpl in Hob3.
    apply map_eq. intros x. destruct (decide (x = o)) as [->|Hne]; [by rewrite Hob3, lookup_insert_eq|].
    rewrite Hoth3, Hobs by done. simpl. by rewrite !lookup_insert_ne.
  - assert ((ret =? 0) = false) as -> by (apply Z.eqb_neq; lia). cbn [negb].
    unfold drm_gem_object_free. cbn [mbind option_bind].
    destruct (free_last _ s2 o (mk_obj 1 0 0 sz) Hinv2 Hnm2) as [Hinv3 Hnm3]; [by rewrite Hobs|done|done|].
    eexists ret, None, _. split; [done|].
    split; [apply (inv_ext _ ext) in Hinv3; [done|apply (bump_back ext o 1)]|]. split; [done|].
    right. split; [done|]. split; [done|]. split; [done|]. simpl. rewrite Hobs. simpl. by apply delete_insert_id.
Qed.

(** ** Releasing a file *)

(** The same state with other tables. *)
Definition with_files (fs : gmap fid T) (s : gem) : gem :=
  mk_gem (counters s) (object_name_idr s) (objects s) fs.

Lemma upd_obj_frame o u fs (s : gem) : upd_obj o u (with_files fs s) = with_files fs <$> upd_obj o u s.
Proof. unfold upd_obj. simpl. by destruct (objects s !! o). Qed.

Lemma kref_put_frame o r fs (s : gem) : (forall s, r (with_files fs s) = with_files fs <$> r s) ->
  kref_put o r (with_files fs s) = with_files fs <$> kref_put o r s.
Proof.
  intros Hr. unfold kref_put. rewrite upd_obj_frame.
  destruct (upd_obj o _ s) as [s1|]; [|done]. cbn [fmap option_fmap option_map mbind option_bind].
  change (objects (with_files fs s1)) with (objects s1). destruct (objects s1 !! o) as [ob|]; [|done].
  cbn [mbind option_bind]. destruct (refcount ob =? 0); [apply Hr|done].
Qed.

Lemma handle_free_frame o fs (s : gem) :
  drm_gem_object_handle_free o (with_files fs s) = with_files fs <$> drm_gem_object_handle_free o s.
Proof.
  unfold drm_gem_object_handle_free. simpl. destruct (objects s !! o) as [ob|]; [|done].
  cbn [mbind option_bind]. destruct (negb (obj_name ob =? 0)); [|done].
  destruct (ht_remove (object_name_idr s) (obj_name ob) true) as [[r names]|]; [|done]. cbn [mbind option_bind].
  change (set_names names (with_files fs s)) with (with_files fs (set_names names s)).
  rewrite upd_obj_frame. destruct (upd_obj o (set_name 0) (set_names names s)) as [s1|]; [|done].
  cbn [fmap option_fmap option_map mbind option_bind]. by apply kref_put_frame.
Qed.

Lemma handle_unref_frame o fs (s : gem) :
  drm_gem_object_handle_unreference_unlocked o (with_files fs s) =
  with_files fs <$> drm_gem_object_handle_unreference_unlocked o s.
Proof.
  unfold drm_gem_object_handle_unreference_unlocked. simpl. destruct (objects s !! o) as [ob|]; [|done].
  cbn [mbind option_bind]. destruct (handle_count ob =? 0); [done|]. rewrite upd_obj_frame.
  destruct (upd_obj o _ s) as [s1|]; [|done]. cbn [fmap option_fmap option_map mbind option_bind].
  change (objects (with_files fs s1)) with (objects s1). destruct (objects s1 !! o) as [ob1|]; [|done].
  cbn [mbind option_bind].
  assert (forall s2 : gem, drm_gem_object_unreference_unlocked o (with_files fs s2) =
    with_files fs <$> drm_gem_object_unreference_unlocked o s2) as Hun.
  { intros s2. unfold drm_gem_object_unreference_unlocked. simpl. destruct (objects s2 !! o); [|done].
    cbn [mbind option_bind]. by apply kref_put_frame. }
  destruct (handle_count ob1 =? 0); [|apply Hun].
  rewrite handle_free_frame. destruct (drm_gem_object_handle_free o s1) as [s2|]; [|done].
  cbn [fmap option_fmap option_map mbind option_bind]. apply Hun.
Qed.

(** How often an object occurs in the tables being freed. *)
Definition occ (objs : list oid) (o : oid) : Z := Z.of_nat (length (filter (fun x => x = o) objs)).

Lemma occ_cons x objs o : occ (x :: objs) o = occ objs o + if decide (x = o) then 1 else 0.
Proof. unfold occ. rewrite filter_cons. case_decide; simpl; lia. Qed.

Lemma occ_perm l l' o : l ≡ₚ l' -> occ l o = occ l' o.
Proof. intros Hp. unfold occ. f_equal. by rewrite Hp. Qed.

(** The state after dropping one handle of each member of [objs]. *)
Lemma release_run ext objs : forall s fs, gem_inv ext (occ objs) s -> named_ok s ->
  exists s', release_handles objs (with_files fs s) = Some (with_files fs s') /\
    gem_inv ext no_pend s' /\ named_ok s' /\ object_idrs s' = object_idrs s /\ counters s' = counters s /\
    (forall o, occ objs o = 0 -> objects s' !! o = objects s !! o).
Proof.
  induction objs as [|o objs IH]; intros s fs Hinv Hnm.
  - exists s. done.
  - pose proof (occ_cons o objs o) as Hocc. rewrite decide_True in Hocc by done.
    assert (0 <= occ objs o) by (unfold occ; lia).
    destruct (handle_unreference_run ext _ s o Hinv Hnm) as (s1 & Hs1 & Hinv1 & Hnm1 & C1 & F1 & Hoth1 & ob & Ho & Hd); [lia|].
    cbn [release_handles]. unfold drm_gem_object_release_handle. simpl. rewrite Ho. cbn [mbind option_bind].
    rewrite handle_unref_frame, Hs1. cbn [fmap option_fmap option_map mbind option_bind].
    destruct (IH s1 fs) as (s2 & -> & Hinv2 & Hnm2 & F2 & C2 & Hoth2); [|done|].
    { destruct Hinv1 as [I2 I3 I4 I5 I6 I7 I8].
      assert (forall x, bump (occ (o :: objs)) o (-1) x = occ objs x) as Hb.
      { intros x. unfold bump. rewrite occ_cons. repeat case_decide; subst; try done; lia. }
      split; try done.
      - intros x obx Hx. rewrite <-(Hb x). by apply I6.
      - intros x Hx. rewrite <-(Hb x). by apply I8. }
    exists s2. split; [done|]. split; [done|]. split; [done|]. split; [congruence|]. split; [congruence|].
    intros x Hx. rewrite occ_cons in Hx. case_decide; [unfold occ in *; lia|].
    rewrite Hoth2, Hoth1 by (done || lia). done.
Qed.

(** The handles of one file. *)
Definition file_handles (f : fid) (m : gmap Z oid) : gmap (fid * Z) oid := kmap (pair f) m.

Lemma file_handles_split (s : gem) f t : object_idrs s !! f = Some t ->
  let s' := with_files (delete f (object_idrs s)) s in
  all_handles s = file_handles f (ht_map t) ∪ all_handles s' /\ file_handles f (ht_map t) ##ₘ all_handles s'.
Proof.
  intros Hf s'. assert (file_handles f (ht_map t) ##ₘ all_handles s') as Hd.
  { apply map_disjoint_spec. intros [f' h] x y Hx Hy. unfold file_handles in Hx.
    rewrite lookup_kmap_Some in Hx by apply _. destruct Hx as (h' & [= -> ->] & _).
    rewrite all_handles_lookup in Hy. simpl in Hy. by rewrite lookup_delete_eq in Hy. }
  split; [|done]. apply map_eq. intros [f' h]. destruct (decide (f' = f)) as [->|Hne].
  - rewrite all_handles_lookup, Hf. cbn [mbind option_bind].
    rewrite lookup_union_l.
    + unfold file_handles. by rewrite (lookup_kmap (pair f)).
    + rewrite all_handles_lookup. simpl. by rewrite lookup_delete_eq.
  - rewrite lookup_union_r.
    + rewrite !all_handles_lookup. simpl. by rewrite lookup_delete_ne.
    + unfold file_handles. apply lookup_kmap_None; [apply _|]. intros h' [= -> ->]. done.
Qed.

Lemma count_union (o : oid) (m1 m2 : gmap (fid * Z) oid) : m1 ##ₘ m2 -> nhandles o (m1 ∪ m2) = (nhandles o m1 + nhandles o m2)%nat.
Proof.
  intros Hd. unfold nhandles. rewrite map_filter_union by done. apply map_size_disj_union.
  by apply map_disjoint_filter.
Qed.

Lemma count_file (o : oid) (f : fid) (m : gmap Z oid) : Z.of_nat (nhandles o (file_handles f m)) = occ (map_to_list m).*2 o.
Proof.
  induction m as [|h x m Hm Hfst IH] using map_first_key_ind.
  - unfold file_handles. rewrite kmap_empty. unfold nhandles, occ. by rewrite map_to_list_empty.
  - unfold file_handles. rewrite kmap_insert by apply _. rewrite count_insert.
    + rewrite (occ_perm _ ((h, x) :: map_to_list m).*2) by (by rewrite map_to_list_insert).
      cbn [fmap list_fmap snd]. rewrite occ_cons, <-IH. fold (file_handles f m). case_decide; lia.
    + apply lookup_kmap_None; [apply _|]. intros h' [= <-]. done.
Qed.

Lemma release_file_run ext s f t objs : gem_inv ext no_pend s -> named_ok s -> object_idrs s !! f = Some t ->
  objs ≡ₚ (map_to_list (ht_map t)).*2 ->
  exists s', drm_gem_release f objs s = Some s' /\ gem_inv ext no_pend s' /\ named_ok s' /\
    object_idrs s' = delete f (object_idrs s) /\
    (forall o, ~ o ∈ objs -> objects s' !! o = objects s !! o).
Proof.
  intros Hinv Hnm Hf Hperm. set (s0 := with_files (delete f (object_idrs s)) s).
  destruct (file_handles_split s f t Hf) as [Hsplit Hdisj]. fold s0 in Hsplit, Hdisj.
  assert (forall o, Z.of_nat (nhandles o (all_handles s)) = Z.of_nat (nhandles o (all_handles s0)) + occ objs o) as Hc.
  { intros o. rewrite Hsplit, count_union, (occ_perm objs _ o Hperm), <-(count_file o f) by done. lia. }
  assert (gem_inv ext (occ objs) s0) as Hinv0.
  { destruct Hinv as [I2 I3 I4 I5 I6 I7 I8]. split; try done.
    - intros f' t' Hf'. simpl in Hf'. apply lookup_delete_Some in Hf' as [_ Hf']. by apply (I3 f').
    - intros k o Hk. apply (I4 k). rewrite Hsplit. apply lookup_union_Some; [done|by right].
    - intros o ob Ho. destruct (I6 o ob Ho) as (E1 & E2 & E3 & E4). unfold no_pend in E1. specialize (Hc o). lia.
    - intros o Ho. destruct (I8 o Ho) as [E _]. split; [done|].
      assert (nhandles o (all_handles s) = 0%nat) as Hz; [|specialize (Hc o); unfold occ in *; lia].
      apply nhandles_none. intros k Hk. destruct (I4 k o Hk) as [ob Hob]. simpl in Ho. congruence. }
  destruct (release_run ext objs s0 (object_idrs s) Hinv0) as (s1 & Hr & Hinv1 & Hnm1 & F1 & C1 & Hoth); [done|].
  unfold drm_gem_release. assert (with_files (object_idrs s) s0 = s) as E by (by destruct s). rewrite E in Hr.
  rewrite Hr. cbn [mbind option_bind]. eexists. split; [done|].
  assert (mk_gem (counters (with_files (object_idrs s) s1)) (object_name_idr (with_files (object_idrs s) s1))
    (objects (with_files (object_idrs s) s1)) (delete f (object_idrs (with_files (object_idrs s) s1))) = s1) as ->.
  { simpl. destruct s1. simpl in *. by subst. }
  do 2 (split; [done|]). split; [done|]. intros o Ho. apply Hoth.
  unfold occ. assert (filter (fun x => x = o) objs = []) as ->; [|done].
  destruct (filter (fun x => x = o) objs) as [|y l] eqn:El; [done|]. exfalso. apply Ho.
  assert (y ∈ filter (fun x => x = o) objs) as Hy by (rewrite El; left).
  apply list_elem_of_filter in Hy as [-> Hy]. done.
Qed.

(** ** Every operation, in any order *)

Lemma open_inv ext s f t : gem_inv ext no_pend s -> object_idrs s !! f = None ->
  ht_inv (counters s) t -> ht_map t = ∅ -> gem_inv ext no_pend (drm_gem_open f t s).
Proof.
  intros [I2 I3 I4 I5 I6 I7 I8] Hf Ht Hm.
  assert (all_handles (drm_gem_open f t s) = all_handles s) as Hall.
  { apply map_eq. intros [f' h]. rewrite !all_handles_lookup. simpl. destruct (decide (f' = f)) as [->|Hne].
    - rewrite lookup_insert_eq, Hf. cbn [mbind option_bind]. by rewrite Hm, lookup_empty.
    - by rewrite lookup_insert_ne. }
  split; try done.
  - intros f' t'. simpl. intros [[<- <-]|[Hne Hf']]%lookup_insert_Some; [done|]. by apply (I3 f').
  - intros k o. rewrite Hall. apply I4.
  - intros o ob. rewrite Hall. apply I6.
Qed.

Lemma exec_good op es : gem_good es -> allowed op es -> exists es', gem_exec op es = Some es' /\ gem_good es'.
Proof.
  destruct es as [ext s]. intros [Hinv Hnm] Hal. simpl in Hinv, Hnm.
  destruct op as [f t|f size obj ok|f h|f h|o|f h ok|f n ok|f objs]; cbn [allowed] in Hal; cbn [gem_exec].
  - destruct Hal as (Hf & Ht & Hm). eexists. split; [done|]. split; [by apply open_inv|done].
  - destruct Hal as ((t & Hf & Hr) & Hok & Hfresh).
    destruct (create_run ext s f t size obj ok) as (r & h & s' & -> & ? & ? & _); try done. by eexists.
  - destruct Hal as ((t & Hf & _) & Hh). unfold drm_gem_close_ioctl. cbn [negb].
    destruct (handle_delete_run ext no_pend s f t h) as (r & s' & -> & ? & ? & _); try done. by eexists.
  - destruct Hal as ((t & Hf & _) & Hh & Hr).
    destruct (lookup_run ext no_pend s f t h) as (obj & s' & -> & -> & ? & ? & _); try done. by eexists.
  - destruct (unreference_run ext no_pend s o) as (s' & -> & ? & ? & _); try done. by eexists.
  - destruct Hal as ((t & Hf & _) & Hh & Hr & Hok & Hcap).
    destruct (flink_ioctl_run ext no_pend s f t h ok) as (r & n & s' & -> & ? & ? & _); try done. by eexists.
  - destruct Hal as ((t & Hf & Hcap) & Hn & Hr & Hok).
    destruct (open_ioctl_run ext no_pend s f t n ok) as (r & hs & s' & -> & ? & ? & _); try done. by eexists.
  - destruct Hal as (t & Hf & Hperm).
    destruct (release_file_run ext s f t objs) as (s' & -> & ? & ? & _); try done. by eexists.
Qed.

Lemma initial_good es : gem_initial es -> gem_good es.
Proof.
  intros (g & names & -> & Hi & Hm). split; [|by intros o ob Ho].
  assert (all_handles (mk_gem g names ∅ ∅) = ∅) as Hall
    by (apply map_eq; intros [f h]; by rewrite all_handles_lookup).
  split; simpl; try done.
  intros n o. rewrite Hm. split; [done|]. by intros (ob & ? & _).
Qed.

Lemma reachable_good es0 es : gem_initial es0 -> rtc gem_step es0 es -> gem_good es.
Proof.
  intros Hi Hr. apply initial_good in Hi. induction Hr as [|x y z Hst _ IH]; [done|].
  apply IH. destruct Hst as [op x y Hal He]. destruct (exec_good op x Hi Hal) as (y' & He' & Hg).
  rewrite He in He'. by injection He' as <-.
Qed.

(** What happens to the object of a closed handle: [handle_dropped] spelled out. *)
Lemma dropped_cases ext (s s' : gem) o ob : gem_inv ext no_pend s -> gem_inv ext no_pend s' -> named_ok s' ->
  objects s !! o = Some ob -> 0 < handle_count ob -> objects s' !! o = handle_dropped ob ->
  if handle_count ob =? 1
  then (forall n, ht_map (object_name_idr s') !! n <> Some o) /\ (is_Some (objects s' !! o) <-> 0 < ext o)
  else objects s' !! o = Some (mk_obj (refcount ob - 1) (handle_count ob - 1) (obj_name ob) (obj_size ob)).
Proof.
  intros Hinv Hinv' Hnm' Ho Hc Hd. destruct (gi_count _ _ _ Hinv o ob Ho) as (_ & _ & Hr & Hr0).
  pose proof (gi_ext _ _ _ Hinv o). pose proof (name_ref_range ob). unfold handle_dropped in Hd.
  destruct (Z.eqb_spec (handle_count ob) 1) as [Hlast|Hlast].
  - destruct (Z.eqb_spec (refcount ob - 1 - name_ref ob) 0) as [Hz|Hz].
    + split; [|rewrite Hd; split; [by intros []|lia]].
      intros n (obx & Hx & _)%(gi_name _ _ _ Hinv'). congruence.
    + split; [|rewrite Hd; split; [lia|done]].
      intros n (obx & Hx & Hn & Hn0)%(gi_name _ _ _ Hinv'). rewrite Hd in Hx. injection Hx as <-. simpl in Hn. congruence.
  - destruct (Z.eqb_spec (refcount ob - 1 - 0) 0) as [Hz|Hz]; [lia|]. rewrite Hd. do 2 f_equal. lia.
Qed.

(** A state that operations can lead to. *)
Definition reachable (es : gem_state) : Prop := exists es0, gem_initial es0 /\ rtc gem_step es0 es.

Lemma reachable_inv ext s : reachable (ext, s) -> gem_inv ext no_pend s /\ named_ok s.
Proof. intros (es0 & Hi & Hr). exact (reachable_good es0 (ext, s) Hi Hr). Qed.

(** An object with no handle and no driver reference does not exist. *)
Lemma no_leak ext (s : gem) o : gem_inv ext no_pend s -> named_ok s ->
  (forall k, all_handles s !! k <> Some o) -> ext o = 0 -> objects s !! o = None.
Proof.
  intros Hinv Hnm Hk He. destruct (objects s !! o) as [ob|] eqn:Ho; [|done]. exfalso.
  destruct (gi_count _ _ _ Hinv o ob Ho) as (Hc & _ & Hr & Hr0).
  rewrite nhandles_none in Hc by done. unfold no_pend, name_ref in *.
  destruct (Z.eqb_spec (obj_name ob) 0) as [|Hne]; [lia|]. specialize (Hnm o ob Ho Hne). lia.
Qed.

(** C22: From a device without objects, after any sequence of opening and
    releasing files and of creating, closing, looking up, naming and opening
    objects: the count of every object is the number of its handles, one for its
    name and the references drivers hold, and is positive; the objects that do
    not exist are exactly those with no handle, no name and no such reference;
    and no operation that is allowed next touches a freed object or reaches a
    BUG. *)
Theorem gem_reachable_safe ext s : reachable (ext, s) ->
  (forall o ob, objects s !! o = Some ob ->
     handle_count ob = Z.of_nat (nhandles o (all_handles s)) /\
     refcount ob = handle_count ob + (if obj_name ob =? 0 then 0 else 1) + ext o /\ 0 < refcount ob) /\
  (forall o, objects s !! o = None <->
     (forall k, all_handles s !! k <> Some o) /\ (forall n, ht_map (object_name_idr s) !! n <> Some o) /\ ext o = 0) /\
  (forall op, allowed op (ext, s) -> is_Some (gem_exec op (ext, s))).
Proof.
  intros Hr. destruct (reachable_inv ext s Hr) as [Hinv Hnm]. split; [|split].
  - intros o ob Ho. destruct (gi_count _ _ _ Hinv o ob Ho) as (E1 & E2 & E3 & E4).
    unfold no_pend, name_ref in *. lia.
  - intros o. split; [|intros (Hk & _ & He); by apply (no_leak ext)]. intros Ho. split; [|split].
    + intros k Hk. destruct (gi_live _ _ _ Hinv k o Hk). congruence.
    + intros n Hn. apply (gi_name _ _ _ Hinv) in Hn as (ob & ? & _). congruence.
    + by apply (gi_gone _ _ _ Hinv).
  - intros op Hal. by destruct (exec_good op (ext, s) (conj Hinv Hnm) Hal) as (es' & -> & _).
Qed.

(** Closing a handle never faults.  An unknown handle is refused and
    nothing changes.  Otherwise that handle alone goes away and the other objects
    are untouched; when it was the last handle of its object the name goes with
    it, and the object is freed exactly when no driver holds a reference; else
    the object only loses one reference. *)
Theorem close_handle_effect ext s f h : reachable (ext, s) -> allowed (OpClose f h) (ext, s) ->
  exists ret s', drm_gem_close_ioctl true f h s = Some (ret, s') /\
  match all_handles s !! (f, h) with
  | None => ret = - EINVAL /\ s' = s
  | Some o => ret = 0 /\ all_handles s' = delete (f, h) (all_handles s) /\
      (forall x, x <> o -> objects s' !! x = objects s !! x) /\
      exists ob, objects s !! o = Some ob /\
        if handle_count ob =? 1
        then (forall n, ht_map (object_name_idr s') !! n <> Some o) /\ (is_Some (objects s' !! o) <-> 0 < ext o)
        else objects s' !! o = Some (mk_obj (refcount ob - 1) (handle_count ob - 1) (obj_name ob) (obj_size ob))
  end.
Proof.
  intros Hr ((t & Hf & _) & Hh). destruct (reachable_inv ext s Hr) as [Hinv Hnm].
  unfold drm_gem_close_ioctl. cbn [negb].
  destruct (handle_delete_run ext no_pend s f t h) as (ret & s' & -> & Hinv' & Hnm' & _ & Hm); try done.
  exists ret, s'. split; [done|]. destruct (all_handles s !! (f, h)) as [o|] eqn:Ho; [|done].
  destruct Hm as (-> & Hall & Hoth & ob & Hob & Hd). split; [done|]. split; [done|]. split; [done|].
  exists ob. split; [done|]. apply (dropped_cases ext s s'); try done.
  destruct (gi_count _ _ _ Hinv o ob Hob) as (Hc & _). unfold no_pend in Hc.
  assert (nhandles o (all_handles s) <> 0%nat); [|lia]. intros Hz. by apply (count_zero o _ _ Hz Ho).
Qed.

(** Sharing an object: a name given by the flink ioctl leads another file
    to the same object, with its size, under a handle that was free there, or
    the open fails and the handles are as before; the name given is not zero, and
    it is kept when the object had one. *)
Theorem flink_open_roundtrip ext s f h o ok n s1 f2 ok2 : reachable (ext, s) ->
  allowed (OpFlink f h ok) (ext, s) -> all_handles s !! (f, h) = Some o ->
  drm_gem_flink_ioctl 2 true f h ok s = Some (0, Some n, s1) -> allowed (OpOpen f2 n ok2) (ext, s1) ->
  n <> 0 /\ (forall ob, objects s !! o = Some ob -> obj_name ob <> 0 -> n = obj_name ob) /\
  exists ret hs s2, drm_gem_open_ioctl 2 true f2 n ok2 s1 = Some (ret, hs, s2) /\
    ((ret = 0 /\ exists h2 ob, hs = Some (h2, obj_size ob) /\ objects s2 !! o = Some ob /\
        all_handles s !! (f2, h2) = None /\ all_handles s2 = <[(f2, h2) := o]> (all_handles s)) \/
     (ret < 0 /\ hs = None /\ all_handles s2 = all_handles s)).
Proof.
  intros Hr Hal Ho Hrun Hal2. destruct (reachable_inv ext s Hr) as [Hinv Hnm].
  destruct Hal as ((t & Hf & _) & Hh & Hroom & Hok & Hcap).
  destruct (flink_ioctl_run ext no_pend s f t h ok) as (r & nm & s1' & Hrun' & Hinv1 & Hnm1 & Hall1 & Hm); try done.
  rewrite Hrun in Hrun'. injection Hrun' as <- <- <-. rewrite Ho in Hm.
  destruct Hm as (Hoth & ob & ob1 & n' & Hob & Hob1 & [= <-] & Hn & Hz & _ & Hold).
  destruct (Hz eq_refl) as [Hn0 Hname]. split; [done|]. split.
  { intros ob' Hob'. assert (ob' = ob) as -> by congruence. intros Hne. by destruct (Hold Hne). }
  destruct Hal2 as ((t2 & Hf2 & Hcap2) & Hn2 & Hroom2 & Hok2).
  destruct (open_ioctl_run ext no_pend s1 f2 t2 n ok2) as (r2 & hs & s2 & Hrun2 & Hinv2 & Hnm2 & Hns & Hm2); try done.
  rewrite Hname in Hm2. exists r2, hs, s2. split; [done|].
  destruct Hm2 as (_ & _ & ob1' & ob2 & Hob1' & Hob2 & _ & Hsz & Hcase).
  destruct Hcase as [(h2 & -> & -> & _ & Hnone & Hall2)|(Hret & -> & Hall2)].
  - left. split; [done|]. exists h2, ob2. rewrite Hsz, <-Hall1. done.
  - right. rewrite <-Hall1. done.
Qed.

(** Releasing a file takes away its handles and no others; an object is
    freed exactly when no handle of another file and no driver reference is left,
    and objects the file has no handle to are untouched. *)
Theorem release_file_effect ext s f objs : reachable (ext, s) -> allowed (OpRelease f objs) (ext, s) ->
  exists s', drm_gem_release f objs s = Some s' /\ object_idrs s' !! f = None /\
    (forall f' h, f' <> f -> all_handles s' !! (f', h) = all_handles s !! (f', h)) /\
    (forall o, ~ o ∈ objs -> objects s' !! o = objects s !! o) /\
    (forall o, o ∈ objs -> (objects s' !! o = None <->
       (forall f' h, f' <> f -> all_handles s !! (f', h) <> Some o) /\ ext o = 0)).
Proof.
  intros Hr (t & Hf & Hperm). destruct (reachable_inv ext s Hr) as [Hinv Hnm].
  destruct (release_file_run ext s f t objs) as (s' & Hs' & Hinv' & Hnm' & Hfs & Hoth); try done.
  assert (forall f' h, f' <> f -> all_handles s' !! (f', h) = all_handles s !! (f', h)) as Hall.
  { intros f' h Hne. rewrite !all_handles_lookup, Hfs. by rewrite lookup_delete_ne. }
  exists s'. split; [done|]. split; [by rewrite Hfs, lookup_delete_eq|]. split; [done|]. split; [done|].
  intros o Ho. split.
  - intros Hnone. split; [|by apply (gi_gone _ _ _ Hinv')]. intros f' h Hne Hk.
    rewrite <-Hall in Hk by done. destruct (gi_live _ _ _ Hinv' _ _ Hk). congruence.
  - intros [Hk He]. apply (no_leak ext); try done. intros [f' h].
    destruct (decide (f' = f)) as [->|Hne]; [|rewrite Hall by done; by apply Hk].
    rewrite all_handles_lookup, Hfs. by rewrite lookup_delete_eq.
Qed.
End GemSafe.

(** ** A device with its tables from IdrList *)

Abbreviation tables := (list (list (Z * oid))).
Abbreviation dev := (gem_state (G := ids) (T := tables)).

Definition dev0 : dev := (fun _ => 0, mk_gem (mk_ids 5 1) idr_list_init ∅ ∅).

(** Two files are open and file 1 creates object 7. *)
Definition script : list (gem_op (T := tables)) :=
  [OpOpenFile 1%positive idr_list_init; OpOpenFile 2%positive idr_list_init;
   OpCreate 1%positive 100 (Some 7%positive) true].

Fixpoint run_ops (ops : list (gem_op (T := tables))) (es : dev) : dev :=
  match ops with
  | [] => es
  | op :: ops => match gem_exec op es with Some es' => run_ops ops es' | None => es end
  end.

Fixpoint all_allowed (ops : list (gem_op (T := tables))) (es : dev) : Prop :=
  match ops with
  | [] => True
  | op :: ops => allowed op es /\ exists es', gem_exec op es = Some es' /\ all_allowed ops es'
  end.

Lemma run_rtc ops : forall es, all_allowed ops es -> rtc gem_step es (run_ops ops es).
Proof.
  induction ops as [|op ops IH]; intros es; [by constructor|].
  intros [Hal (es' & He & Hrest)]. simpl. rewrite He.
  apply (rtc_l _ es es'); [by apply (gem_step_op op)|by apply IH].
Qed.

Definition ext1 : oid -> Z := (run_ops script dev0).1.
Definition dev1 := (run_ops script dev0).2.

Lemma empty_table g : 0 <= fr_id g < HANDLE_MAX -> 0 <= fr_time g ->
  idr_list_wf g (idr_list_init (A := oid)) /\ handles (idr_list_init (A := oid)) = ∅.
Proof. intros. split; [by apply init_wf|by vm_compute]. Qed.

Lemma dev1_reachable : reachable (ext1, dev1).
Proof.
  assert ((ext1, dev1) = run_ops script dev0) as -> by (unfold ext1, dev1; by destruct (run_ops script dev0)).
  exists dev0. split.
  - exists (mk_ids 5 1), idr_list_init. split; [done|]. apply empty_table; done.
  - apply run_rtc. cbn [all_allowed script]. split.
    { split; [done|]. by apply empty_table. }
    eexists. split; [reflexivity|]. split.
    { split; [done|]. by apply empty_table. }
    eexists. split; [reflexivity|]. split.
    { split; [|split; [done|by intros o [= <-]]].
      exists idr_list_init. split; [done|]. by vm_compute. }
    eexists. split; [vm_compute; reflexivity|]. done.
Qed.

Lemma dev1_file1 : open_file 1%positive dev1 (fun _ => True).
Proof. eexists. split; [vm_compute; reflexivity|done]. Qed.

Lemma dev1_room : room dev1.
Proof.
  intros o ob. assert (objects dev1 = {[7%positive := mk_obj 1 1 0 4096]}) as -> by by vm_compute.
  intros [<- <-]%lookup_singleton_Some. done.
Qed.

Lemma gem_reachable_safe_witness : exists ob, objects dev1 !! 7%positive = Some ob /\ 0 < refcount ob.
Proof.
  destruct (gem_reachable_safe ext1 dev1 dev1_reachable) as [Hc _].
  eexists. split; [vm_compute; reflexivity|]. apply (Hc 7%positive). vm_compute. reflexivity.
Defined.

Lemma close_handle_effect_witness : exists ret s',
  drm_gem_close_ioctl true 1%positive 6 dev1 = Some (ret, s') /\ ret = 0.
Proof.
  destruct (close_handle_effect ext1 dev1 1%positive 6 dev1_reachable) as (ret & s' & Hr & Hm).
  { split; [exact dev1_file1|lia]. }
  exists ret, s'. split; [exact Hr|]. revert Hm.
  assert (all_handles dev1 !! (1%positive, 6) = Some 7%positive) as -> by (vm_compute; reflexivity).
  intros [Hz _]. exact Hz.
Defined.

(** Its state after the flink ioctl. *)
Definition dev2 : gem (G := ids) (T := tables) :=
  match drm_gem_flink_ioctl 2 true 1%positive 6 true dev1 with Some (_, _, s) => s | None => dev1 end.

Lemma dev2_room : room dev2.
Proof.
  intros o ob. assert (objects dev2 = {[7%positive := mk_obj 2 1 7 4096]}) as -> by by vm_compute.
  intros [<- <-]%lookup_singleton_Some. done.
Qed.

Lemma flink_open_roundtrip_witness : exists ret hs s2,
  drm_gem_open_ioctl 2 true 2%positive 7 true dev2 = Some (ret, hs, s2).
Proof.
  destruct (flink_open_roundtrip ext1 dev1 1%positive 6 7%positive true 7 dev2 2%positive true dev1_reachable)
    as (_ & _ & ret & hs & s2 & Hr & _).
  - split; [exact dev1_file1|]. split; [lia|]. split; [exact dev1_room|]. split; vm_compute; reflexivity.
  - vm_compute. reflexivity.
  - vm_compute. reflexivity.
  - split; [|split; [lia|split; [exact dev2_room|vm_compute; reflexivity]]].
    exists idr_list_init. split; [vm_compute; reflexivity|]. by vm_compute.
  - exists ret, hs, s2. exact Hr.
Defined.

Lemma release_file_effect_witness : exists s',
  drm_gem_release 1%positive [7%positive] dev1 = Some s' /\ objects s' !! 7%positive = None.
Proof.
  destruct (release_file_effect ext1 dev1 1%positive [7%positive] dev1_reachable) as (s' & Hr & _ & _ & _ & Hm).
  { eexists. split; [vm_compute; reflexivity|]. vm_compute. reflexivity. }
  exists s'. split; [exact Hr|]. apply Hm; [by left|].
  split; [|vm_compute; reflexivity]. intros f' h Hne.
  assert (all_handles dev1 = {[(1%positive, 6) := 7%positive]}) as -> by by vm_compute.
  intros [E _]%lookup_singleton_Some. congruence.
Defined.
