(* ===== verification/HwLock.v ===== *)
(** * The heavyweight hardware lock (drm_lock.c)

    The lock is a word in memory shared with user space: two flag bits and the
    context that holds or last held it.  User space changes it with compare and
    swap at any moment; the kernel's own updates hold [lock_mutex] and loop until
    their compare and swap succeeds.  [others] lists the values user space stores
    between the read and the compare and swap of each attempt. *)

From S2P Require Import Prelude.

Definition _DRM_LOCK_HELD : Z := 0x80000000.
Definition _DRM_LOCK_CONT : Z := 0x40000000.
Definition DRM_KERNEL_CONTEXT : Z := 0.
Definition _DRM_LOCK_QUIESCENT : Z := 0x02.

Definition _DRM_LOCK_IS_HELD (lock : Z) : bool := negb (Z.land lock _DRM_LOCK_HELD =? 0).
Definition _DRM_LOCKING_CONTEXT (lock : Z) : Z :=
  Z.land lock (Z.lxor 0xffffffff (Z.lor _DRM_LOCK_HELD _DRM_LOCK_CONT)).

(** [struct drm_lock_data]: [hw_lock] is the word, or NULL; [file_priv] is NULL
    for the kernel. *)
Record drm_lock_data := mk_lock {
  hw_lock : option Z;
  file_priv : option positive;
  user_waiters : Z;
  kernel_waiters : Z;
  idle_has_lock : bool }.

Definition set_word (w : Z) (l : drm_lock_data) : drm_lock_data :=
  mk_lock (Some w) (file_priv l) (user_waiters l) (kernel_waiters l) (idle_has_lock l).
Definition set_file_priv (f : option positive) (l : drm_lock_data) : drm_lock_data :=
  mk_lock (hw_lock l) f (user_waiters l) (kernel_waiters l) (idle_has_lock l).
Definition set_user_waiters (n : Z) (l : drm_lock_data) : drm_lock_data :=
  mk_lock (hw_lock l) (file_priv l) (u32 n) (kernel_waiters l) (idle_has_lock l).
Definition set_kernel_waiters (n : Z) (l : drm_lock_data) : drm_lock_data :=
  mk_lock (hw_lock l) (file_priv l) (user_waiters l) (u32 n) (idle_has_lock l).
Definition set_idle (b : bool) (l : drm_lock_data) : drm_lock_data :=
  mk_lock (hw_lock l) (file_priv l) (user_waiters l) (kernel_waiters l) b.

(** [do { old = *lock; new = f old; } while (!atomic_cmpset_int(lock, old, new))]:
    the last [old] and [new]; [new] is then in the word. *)
Fixpoint cas_loop (f : Z -> Z) (others : list Z) (w : Z) : Z * Z :=
  match others with
  | [] => (w, f w)
  | v :: others => if v =? w then (w, f w) else cas_loop f others v
  end.

(** ** Taking and freeing *)

Definition take_word (l : drm_lock_data) (context old : Z) : Z :=
  if _DRM_LOCK_IS_HELD old then Z.lor old _DRM_LOCK_CONT
  else Z.lor (Z.lor context _DRM_LOCK_HELD)
         (if u32 (user_waiters l + kernel_waiters l) >? 1 then _DRM_LOCK_CONT else 0).

Definition drm_lock_take (others : list Z) (lock_data : drm_lock_data) (context : Z)
    : option (Z * drm_lock_data) :=
  w ← hw_lock lock_data;
  let '(old, new) := cas_loop (take_word lock_data context) others w in
  let l := set_word new lock_data in
  if (_DRM_LOCKING_CONTEXT old =? context) && _DRM_LOCK_IS_HELD old then Some (0, l) else
  if (_DRM_LOCKING_CONTEXT new =? context) && _DRM_LOCK_IS_HELD new then Some (1, l) else
  Some (0, l).

Definition drm_lock_transfer (others : list Z) (lock_data : drm_lock_data) (context : Z)
    : option (Z * drm_lock_data) :=
  w ← hw_lock lock_data;
  let l := set_file_priv None lock_data in
  let '(_, new) := cas_loop (fun _ => Z.lor context _DRM_LOCK_HELD) others w in
  Some (1, set_word new l).

(** The value, whether the waiters are woken, and the state. *)
Definition drm_lock_free (others : list Z) (lock_data : drm_lock_data) (context : Z)
    : option (Z * bool * drm_lock_data) :=
  if negb (kernel_waiters lock_data =? 0) then
    '(_, l) ← drm_lock_transfer others lock_data 0;
    Some (1, false, set_idle true l)
  else
  w ← hw_lock lock_data;
  let '(old, new) := cas_loop _DRM_LOCKING_CONTEXT others w in
  let l := set_word new lock_data in
  if _DRM_LOCK_IS_HELD old && negb (_DRM_LOCKING_CONTEXT old =? context) then Some (1, false, l)
  else Some (0, true, l).

Definition drm_idlelock_take (others : list Z) (lock_data : drm_lock_data) : option drm_lock_data :=
  let l := set_kernel_waiters (kernel_waiters lock_data + 1) lock_data in
  if negb (idle_has_lock l) then
    '(ret, l) ← drm_lock_take others l DRM_KERNEL_CONTEXT;
    Some (if ret =? 1 then set_idle true l else l)
  else Some l.

Definition drm_idlelock_release (others : list Z) (lock_data : drm_lock_data) : option drm_lock_data :=
  let l := set_kernel_waiters (kernel_waiters lock_data - 1) lock_data in
  if (kernel_waiters l =? 0) && idle_has_lock l then
    w ← hw_lock l;
    let '(_, new) := cas_loop (fun _ => DRM_KERNEL_CONTEXT) others w in
    Some (set_idle false (set_word new l))
  else Some l.

(** ** The ioctls *)

(** [struct drm_lock], [file->lock_count] and the statistics counters. *)
Record drm_lock_req := mk_req { context : Z; lock_flags : Z }.
Record lock_env := mk_env { lock_count : Z; locks : Z; unlocks : Z; ldata : drm_lock_data }.

Definition set_ldata (l : drm_lock_data) (e : lock_env) : lock_env :=
  mk_env (lock_count e) (locks e) (unlocks e) l.

(** A return of [cv_wait_sig]: its value, the lock when the mutex is held again,
    and what user space does during the next attempt. *)
Record wakeup := mk_wake { cv_ret : Z; woken : drm_lock_data; wake_others : list Z }.

(** The [for] loop, from an attempt on: [None] is still asleep. *)
Fixpoint lock_loop (file : positive) (ctx : Z) (others : list Z) (wakes : list wakeup) (ret : Z)
    (e : lock_env) : option (option (Z * lock_env)) :=
  '(got, l) ← drm_lock_take others (ldata e) ctx;
  if negb (got =? 0) then
    Some (Some (ret, mk_env (lock_count e) (u32 (locks e + 1)) (unlocks e) (set_file_priv (Some file) l)))
  else
  match wakes with
  | [] => Some None
  | w :: wakes =>
      if cv_ret w =? 0 then Some (Some (- EINTR, set_ldata (woken w) e))
      else lock_loop file ctx (wake_others w) wakes (cv_ret w) (set_ldata (woken w) e)
  end.

(** [dma_queue] is the driver feature; [dma_quiescent] the driver's callback,
    when it has one, as the value it returns. *)
Definition drm_lock (dma_queue : bool) (dma_quiescent : option Z) (file : positive) (lock : drm_lock_req)
    (others : list Z) (wakes : list wakeup) (e : lock_env) : option (option (Z * lock_env)) :=
  let e := mk_env (lock_count e + 1) (locks e) (unlocks e) (ldata e) in
  if context lock =? DRM_KERNEL_CONTEXT then Some (Some (- EINVAL, e)) else
  match hw_lock (ldata e) with
  | None => Some (Some (- EINVAL, e))
  | Some _ =>
      if dma_queue && (context lock <? 0) then Some (Some (- EINVAL, e)) else
      let e := set_ldata (set_user_waiters (user_waiters (ldata e) + 1) (ldata e)) e in
      r ← lock_loop file (u32 (context lock)) others wakes 0 e;
      match r with
      | None => Some None
      | Some (ret, e) =>
          let e := set_ldata (set_user_waiters (user_waiters (ldata e) - 1) (ldata e)) e in
          if negb (ret =? 0) then Some (Some (ret, e)) else
          match dma_quiescent with
          | Some q =>
              if negb (Z.land (lock_flags lock) _DRM_LOCK_QUIESCENT =? 0) && negb (q =? 0)
              then Some (Some (- EBUSY, e)) else Some (Some (0, e))
          | None => Some (Some (0, e))
          end
      end
  end.

Definition drm_unlock (lock : drm_lock_req) (others : list Z) (e : lock_env) : option (Z * lock_env) :=
  if context lock =? DRM_KERNEL_CONTEXT then Some (- EINVAL, e) else
  let e := mk_env (lock_count e) (locks e) (u32 (unlocks e + 1)) (ldata e) in
  '(_, _, l) ← drm_lock_free others (ldata e) (u32 (context lock));
  Some (0, set_ldata l e).

Definition drm_i_have_hw_lock (file : positive) (e : lock_env) : bool :=
  negb (lock_count e =? 0) &&
  match hw_lock (ldata e) with
  | Some w => _DRM_LOCK_IS_HELD w && bool_decide (file_priv (ldata e) = Some file)
  | None => false
  end.

(** ** The word *)

(** The contexts user space may use: below the flag bits and not the kernel's. *)
Definition user_context (c : Z) : Prop := 0 < c < 2 ^ 30.

Lemma ctx_mask c : 0 <= c < 2 ^ 30 -> Z.land c (Z.ones 30) = c.
Proof. intros. rewrite Z.land_ones by lia. by apply Z.mod_small. Qed.

Lemma ctx_held c : 0 <= c < 2 ^ 30 -> Z.land c _DRM_LOCK_HELD = 0.
Proof.
  intros Hc. rewrite <-(ctx_mask c Hc), <-Z.land_assoc.
  change (Z.land (Z.ones 30) _DRM_LOCK_HELD) with 0. apply Z.land_0_r.
Qed.

Lemma locking_lor a b : _DRM_LOCKING_CONTEXT (Z.lor a b) =
  Z.lor (_DRM_LOCKING_CONTEXT a) (_DRM_LOCKING_CONTEXT b).
Proof. apply Z.land_lor_distr_l. Qed.

Lemma locking_ctx c : 0 <= c < 2 ^ 30 -> _DRM_LOCKING_CONTEXT c = c.
Proof. apply ctx_mask. Qed.

Lemma locking_range w : 0 <= _DRM_LOCKING_CONTEXT w < 2 ^ 30.
Proof.
  unfold _DRM_LOCKING_CONTEXT. change (Z.lxor _ _) with (Z.ones 30). rewrite Z.land_ones by lia.
  apply Z.mod_pos_bound. lia.
Qed.

Lemma held_ctx c : 0 <= c < 2 ^ 30 -> _DRM_LOCK_IS_HELD c = false.
Proof. intros Hc. unfold _DRM_LOCK_IS_HELD. by rewrite ctx_held. Qed.

(** The word while [c] holds the lock. *)
Lemma held_word c x : 0 <= c < 2 ^ 30 -> x = 0 \/ x = _DRM_LOCK_CONT ->
  _DRM_LOCKING_CONTEXT (Z.lor (Z.lor c _DRM_LOCK_HELD) x) = c /\
  _DRM_LOCK_IS_HELD (Z.lor (Z.lor c _DRM_LOCK_HELD) x) = true.
Proof.
  intros Hc Hx. split.
  - rewrite !locking_lor, locking_ctx by done. change (_DRM_LOCKING_CONTEXT _DRM_LOCK_HELD) with 0.
    destruct Hx as [-> | ->]; [change (_DRM_LOCKING_CONTEXT 0) with 0|change (_DRM_LOCKING_CONTEXT _DRM_LOCK_CONT) with 0];
      by rewrite !Z.lor_0_r.
  - unfold _DRM_LOCK_IS_HELD. rewrite !Z.land_lor_distr_l, ctx_held by done.
    by destruct Hx as [-> | ->].
Qed.

Lemma contended_word w : _DRM_LOCKING_CONTEXT (Z.lor w _DRM_LOCK_CONT) = _DRM_LOCKING_CONTEXT w /\
  _DRM_LOCK_IS_HELD (Z.lor w _DRM_LOCK_CONT) = _DRM_LOCK_IS_HELD w.
Proof.
  split.
  - rewrite locking_lor. change (_DRM_LOCKING_CONTEXT _DRM_LOCK_CONT) with 0. apply Z.lor_0_r.
  - unfold _DRM_LOCK_IS_HELD. rewrite Z.land_lor_distr_l.
    change (Z.land _DRM_LOCK_CONT _DRM_LOCK_HELD) with 0. by rewrite Z.lor_0_r.
Qed.

Lemma take_word_facts l c old : 0 <= c < 2 ^ 30 ->
  _DRM_LOCK_IS_HELD (take_word l c old) = true /\
  _DRM_LOCKING_CONTEXT (take_word l c old) = if _DRM_LOCK_IS_HELD old then _DRM_LOCKING_CONTEXT old else c.
Proof.
  intros Hc. unfold take_word. destruct (_DRM_LOCK_IS_HELD old) eqn:Hh.
  - destruct (contended_word old) as [E1 E2]. by rewrite E1, E2, Hh.
  - destruct (held_word c (if u32 (user_waiters l + kernel_waiters l) >? 1 then _DRM_LOCK_CONT else 0) Hc) as [E1 E2];
      [by destruct (_ >? _); auto|done].
Qed.

(** The word read by the attempt that succeeded, and what it stored. *)
Lemma cas_loop_new f others : forall w, cas_loop f others w =
  (fst (cas_loop f others w), f (fst (cas_loop f others w))).
Proof. induction others as [|v others IH]; intros w; simpl; [done|]. destruct (v =? w); [done|apply IH]. Qed.

Lemma cas_loop_old f others : forall w, fst (cas_loop f others w) ∈ w :: others.
Proof.
  induction others as [|v others IH]; intros w; simpl; [by left|].
  destruct (v =? w); [by left|]. right. apply IH.
Qed.

(** What the value of [drm_lock_take] means. *)
Lemma take_run others l w c : hw_lock l = Some w -> 0 <= c < 2 ^ 30 ->
  exists old new, old ∈ w :: others /\ _DRM_LOCK_IS_HELD new = true /\
    drm_lock_take others l c = Some (if _DRM_LOCK_IS_HELD old then 0 else 1, set_word new l) /\
    _DRM_LOCKING_CONTEXT new = if _DRM_LOCK_IS_HELD old then _DRM_LOCKING_CONTEXT old else c.
Proof.
  intros Hw Hc. unfold drm_lock_take. rewrite Hw. cbn [mbind option_bind].
  rewrite cas_loop_new. set (old := fst (cas_loop (take_word l c) others w)).
  destruct (take_word_facts l c old Hc) as [E1 E2]. exists old, (take_word l c old).
  split; [apply cas_loop_old|]. split; [done|]. split; [|done]. rewrite E1, E2.
  destruct (_DRM_LOCK_IS_HELD old); rewrite ?andb_true_r, ?andb_false_r, ?Z.eqb_refl; [|done].
  by destruct (_ =? c).
Qed.

(** ** The kernel and user space together *)

(** The lock with a ghost: who owns it, a context or the kernel (0).  A context becomes the
    owner when it takes the lock; [drm_lock_free] ends that, whoever calls it. *)
Record hw := mk_hw { data : drm_lock_data; owner : option Z }.

(** User space takes a lock it held last, and gives up an uncontended one, with
    a single compare and swap. *)
Inductive user_step : hw -> hw -> Prop :=
| user_lock l ow c : user_context c -> hw_lock l = Some c ->
    user_step (mk_hw l ow) (mk_hw (set_word (Z.lor c _DRM_LOCK_HELD) l) (Some c))
| user_unlock l c : user_context c -> hw_lock l = Some (Z.lor c _DRM_LOCK_HELD) ->
    user_step (mk_hw l (Some c)) (mk_hw (set_word c l) None).

(** What user space does during a compare and swap loop: [others] are the words
    that make an attempt fail. *)
Inductive interference : hw -> list Z -> hw -> Prop :=
| interference_last s s' : rtc user_step s s' -> hw_lock (data s') = hw_lock (data s) ->
    interference s [] s'
| interference_fail s s1 v others s' : rtc user_step s s1 -> hw_lock (data s1) = Some v ->
    hw_lock (data s) <> Some v -> interference s1 others s' -> interference s (v :: others) s'.

Inductive hw_step : hw -> hw -> Prop :=
| step_user s s' : user_step s s' -> hw_step s s'
| step_waiters s n : hw_step s (mk_hw (set_user_waiters n (data s)) (owner s))
| step_take s c others s1 r l : user_context c -> interference s others s1 ->
    drm_lock_take others (data s) c = Some (r, l) ->
    hw_step s (mk_hw l (if r =? 1 then Some c else owner s1))
| step_free s c others s1 r b l : interference s others s1 ->    (* anybody, for any context *)
    drm_lock_free others (data s) c = Some (r, b, l) ->
    hw_step s (mk_hw l (if kernel_waiters (data s) =? 0 then None else Some 0))
| step_idle_take s others s1 l : kernel_waiters (data s) + 1 < 2 ^ 32 -> interference s others s1 ->
    drm_idlelock_take others (data s) = Some l ->
    hw_step s (mk_hw l (if idle_has_lock l then Some 0 else owner s1))
| step_idle_release s others s1 l : 0 < kernel_waiters (data s) -> interference s others s1 ->
    (idle_has_lock (data s) = false -> s1 = s) ->    (* then there is no compare and swap *)
    drm_idlelock_release others (data s) = Some l ->
    hw_step s (mk_hw l (if idle_has_lock (data s) && negb (idle_has_lock l) then None else owner s1)).

(** The word of a free lock that [master->lock] starts with. *)
Definition hw_initial (s : hw) : Prop := s = mk_hw (mk_lock (Some 0) None 0 0 false) None.

(** The word says who owns the lock; the kernel only owns it while it waits. *)
Definition word_inv (l : drm_lock_data) (ow : option Z) : Prop :=
  exists w, hw_lock l = Some w /\ 0 <= kernel_waiters l < 2 ^ 32 /\
    (idle_has_lock l = true -> 0 < kernel_waiters l) /\ (idle_has_lock l = true <-> ow = Some 0) /\
    match ow with
    | Some c => _DRM_LOCK_IS_HELD w = true /\ _DRM_LOCKING_CONTEXT w = c
    | None => _DRM_LOCK_IS_HELD w = false
    end.

Definition hw_inv (s : hw) : Prop := word_inv (data s) (owner s).

Lemma user_step_inv s s' : user_step s s' -> hw_inv s -> hw_inv s' /\
  exists w, data s' = set_word w (data s).
Proof.
  intros Hst. unfold hw_inv. destruct Hst as [l ow c Hc Hw|l c Hc Hw]; simpl;
    intros (w & Hw' & Hk & Hik & Hi & Ho); rewrite Hw in Hw'; injection Hw' as <-.
  - split; [|by eexists]. exists (Z.lor c _DRM_LOCK_HELD). unfold user_context in Hc.
    destruct (held_word c 0) as [E1 E2]; [lia|auto|]. rewrite Z.lor_0_r in E1, E2.
    assert (ow = None) as ->.
    { destruct ow; [|done]. destruct Ho as [Hh _]. rewrite held_ctx in Hh by lia. done. }
    split; [done|]. split; [done|]. split; [done|]. split; [|done].
    rewrite Hi. split; [done|]. intros [= ->]. lia.
  - split; [|by eexists]. exists c. unfold user_context in Hc.
    split; [done|]. split; [done|]. split; [done|]. split; [|by apply held_ctx; lia].
    rewrite Hi. split; [intros [= ->]; lia|done].
Qed.

Lemma user_steps_inv s s' : rtc user_step s s' -> hw_inv s -> hw_inv s' /\
  (s' = s \/ exists w, data s' = set_word w (data s)).
Proof.
  induction 1 as [s|s s1 s' Hst _ IH]; [by auto|]. intros Hi.
  destruct (user_step_inv s s1 Hst Hi) as (Hi1 & w1 & E1). destruct (IH Hi1) as (Hi' & E').
  split; [done|]. right. destruct E' as [->|[w E']]; [by exists w1|]. exists w. by rewrite E', E1.
Qed.

(** The compare and swap that succeeds acts on the word user space left. *)
Lemma interference_run f s others s' : interference s others s' -> hw_inv s -> hw_inv s' /\
  exists w w', hw_lock (data s) = Some w /\ hw_lock (data s') = Some w' /\
    fst (cas_loop f others w) = w' /\ data s' = set_word w' (data s).
Proof.
  induction 1 as [s s' Hr Hw|s s1 v others s' Hr Hv Hne _ IH]; intros Hi.
  - destruct (user_steps_inv s s' Hr Hi) as (Hi' & E). split; [done|].
    pose proof Hi as (w & Hw0 & _). exists w, w. rewrite Hw, Hw0. split; [done|]. split; [done|]. split; [done|].
    destruct E as [->|[w2 E]]; [destruct (data s); simpl in *; by subst|].
    rewrite E in Hw. simpl in Hw. rewrite Hw0 in Hw. injection Hw as ->. done.
  - destruct (user_steps_inv s s1 Hr Hi) as (Hi1 & E). destruct (IH Hi1) as (Hi' & w1 & w' & Hw1 & Hw' & Hc & E').
    split; [done|]. pose proof Hi as (w & Hw0 & _). exists w, w'. rewrite Hv in Hw1. injection Hw1 as <-.
    split; [done|]. split; [done|]. split.
    + simpl. destruct (Z.eqb_spec v w) as [->|_]; [congruence|done].
    + destruct E as [->|[w2 E]]; [done|]. by rewrite E', E.
Qed.

(** Taking the lock after interference: it succeeds exactly when nobody owns it. *)
Lemma take_after s c others s1 : hw_inv s -> interference s others s1 -> 0 <= c < 2 ^ 30 ->
  exists new, drm_lock_take others (data s) c =
      Some (match owner s1 with None => 1 | Some _ => 0 end, set_word new (data s)) /\
    _DRM_LOCK_IS_HELD new = true /\
    _DRM_LOCKING_CONTEXT new = match owner s1 with None => c | Some c' => c' end.
Proof.
  intros Hi Hint Hc. destruct (interference_run (take_word (data s) c) s others s1 Hint Hi)
    as ((w1 & Hw1 & _ & _ & _ & Ho) & w & w' & Hw & Hw' & Hcas & E).
  rewrite Hw' in Hw1. injection Hw1 as <-.
  unfold drm_lock_take. rewrite Hw. cbn [mbind option_bind]. rewrite cas_loop_new, Hcas.
  destruct (take_word_facts (data s) c w' Hc) as [E1 E2]. exists (take_word (data s) c w').
  rewrite E1, E2. destruct (owner s1) as [c'|].
  - destruct Ho as [-> Hl]. rewrite !andb_true_r, Hl. split; [|done]. by destruct (c' =? c).
  - rewrite Ho, Z.eqb_refl, andb_false_r. done.
Qed.

Lemma take_inv l ow new c : word_inv l ow -> _DRM_LOCK_IS_HELD new = true -> c <> 0 ->
  _DRM_LOCKING_CONTEXT new = match ow with None => c | Some c' => c' end ->
  word_inv (set_word new l) (match ow with None => Some c | Some c' => Some c' end).
Proof.
  intros (w & Hw & Hk & Hik & Hi & Ho) Hh Hc Hl. exists new. split; [done|]. split; [done|]. split; [done|].
  simpl. rewrite Hi. destruct ow as [c'|]; [done|]. split; [|done]. split; [done|]. intros [= ->]. done.
Qed.

(** Somebody else than [c] owns the lock. *)
Definition foreign (s : hw) (c : Z) : bool := match owner s with Some c' => negb (c' =? c) | None => false end.

(** Freeing, by anybody: the lock goes to a waiting kernel, or becomes free; waiters are
    woken if nobody else owned it. *)
Lemma free_after s c others s1 : hw_inv s -> interference s others s1 ->
  exists r b l, drm_lock_free others (data s) c = Some (r, b, l) /\
    word_inv l (if kernel_waiters (data s) =? 0 then None else Some 0) /\
    b = (kernel_waiters (data s) =? 0) && negb (foreign s1 c) /\ r = (if b then 0 else 1).
Proof.
  intros Hi Hint.
  assert (exists w w', hw_lock (data s) = Some w /\ hw_lock (data s1) = Some w' /\
    fst (cas_loop _DRM_LOCKING_CONTEXT others w) = w' /\ data s1 = set_word w' (data s) /\ hw_inv s1)
    as (w & w' & Hw & Hw' & Hcas & E & Hi1).
  { destruct (interference_run _DRM_LOCKING_CONTEXT s others s1 Hint Hi) as (? & w & w' & ? & ? & ? & ?).
    by exists w, w'. }
  destruct Hi1 as (w1 & Hw1 & H1 & H2 & H3 & H4). rewrite Hw' in Hw1. injection Hw1 as <-.
  rewrite E in H1, H2, H3. simpl in H1, H2, H3.
  unfold drm_lock_free. destruct (Z.eqb_spec (kernel_waiters (data s)) 0) as [Hz|Hz]; cbn [negb andb].
  - rewrite Hw. cbn [mbind option_bind]. rewrite cas_loop_new, Hcas. cbn iota.
    assert (word_inv (set_word (_DRM_LOCKING_CONTEXT w') (data s)) None) as Hfree.
    { eexists. simpl. split; [done|]. split; [done|]. split; [done|]. split; [|apply held_ctx, locking_range].
      split; [intros Hidle; specialize (H2 Hidle); lia|done]. }
    assert (_DRM_LOCK_IS_HELD w' && negb (_DRM_LOCKING_CONTEXT w' =? c) = foreign s1 c) as ->.
    { unfold foreign. destruct (owner s1) as [c'|]; [destruct H4 as [-> ->]; done|by rewrite H4]. }
    destruct (foreign s1 c); eexists _, _, _; (split; [done|]); by split.
  - unfold drm_lock_transfer. rewrite Hw. cbn [mbind option_bind]. rewrite cas_loop_new. cbn [mbind option_bind].
    eexists _, _, _. split; [done|]. split; [|done]. eexists. simpl.
    split; [done|]. split; [done|]. split; [lia|]. done.
Qed.

Lemma idle_take_after s others s1 : hw_inv s -> interference s others s1 -> kernel_waiters (data s) + 1 < 2 ^ 32 ->
  exists l, drm_idlelock_take others (data s) = Some l /\
    word_inv l (if idle_has_lock l then Some 0 else owner s1) /\
    idle_has_lock l = match owner s1 with None => true | Some c => c =? 0 end.
Proof.
  intros Hi Hint Hk. unfold drm_idlelock_take, DRM_KERNEL_CONTEXT. set (l0 := set_kernel_waiters _ (data s)).
  destruct (interference_run (take_word l0 0) s others s1 Hint Hi)
    as ((w1 & Hw1 & H1 & H2 & H3 & H4) & w & w' & Hw & Hw' & Hcas & E).
  rewrite Hw' in Hw1. injection Hw1 as <-. rewrite E in H1, H2, H3. simpl in H1, H2, H3.
  change (idle_has_lock l0) with (idle_has_lock (data s)).
  destruct (idle_has_lock (data s)) eqn:Hidle; cbn [negb].
  - pose proof (proj1 H3 eq_refl) as Ho. exists l0. split; [done|].
    unfold l0. simpl. rewrite Hidle, Ho. split; [|done].
    destruct Hi as (w2 & G1 & G2 & G3 & G4 & G5). rewrite (proj1 G4 Hidle) in G5.
    exists w2. simpl. rewrite u32_small, Hidle by lia. split; [done|]. split; [lia|]. split; [lia|]. by split.
  - assert (owner s1 <> Some 0) as Ho by (intros Ho; apply H3 in Ho; done).
    unfold drm_lock_take. change (hw_lock l0) with (hw_lock (data s)). rewrite Hw. cbn [mbind option_bind].
    rewrite cas_loop_new, Hcas. destruct (take_word_facts l0 0 w') as [E1 E2]; [lia|].
    set (new := take_word l0 0 w') in *. rewrite E1, E2.
    destruct (owner s1) as [c|].
    + destruct H4 as [Hh Hl]. rewrite Hh, Hl. assert ((c =? 0) = false) as -> by (apply Z.eqb_neq; congruence).
      cbn [andb mbind option_bind]. change (0 =? 1) with false. cbn iota. eexists. split; [done|]. simpl. rewrite Hidle.
      split; [|done]. exists new. simpl. rewrite u32_small, Hidle, E1, E2, Hh by lia.
      split; [done|]. split; [lia|]. split; [done|]. split; [|done]. split; [done|]. intros [= ->]. done.
    + rewrite H4. rewrite andb_false_r. cbn [andb mbind option_bind]. change (0 =? 0) with true. cbn [andb].
      eexists. split; [done|]. simpl. split; [|done]. exists new. simpl. rewrite u32_small, E1, E2, H4 by lia.
      split; [done|]. split; [lia|]. split; [lia|]. by split.
Qed.

(** Nothing moves while the kernel owns the lock. *)
Lemma kernel_quiet s others s1 : hw_inv s -> owner s = Some 0 -> interference s others s1 -> s1 = s.
Proof.
  intros Hi Ho Hint.
  assert (forall s', user_step s s' -> False) as Hno.
  { intros s' Hst. destruct Hst as [l ow c Hc Hw|l c Hc Hw]; simpl in Ho.
    - subst ow. destruct Hi as (w & Hw' & _ & _ & _ & Hh & _). simpl in Hw'. rewrite Hw in Hw'. injection Hw' as <-.
      unfold user_context in Hc. rewrite held_ctx in Hh by lia. done.
    - injection Ho as ->. unfold user_context in Hc. lia. }
  assert (forall s', rtc user_step s s' -> s' = s) as Hrtc.
  { intros s' Hr. inversion Hr as [|? s2 ? Hst _]; subst; [done|]. by destruct (Hno s2). }
  destruct Hint as [s s' Hr Hw|s s1 v others s' Hr Hv Hne _]; [by apply Hrtc|].
  rewrite (Hrtc s1 Hr) in Hv. done.
Qed.

Lemma idle_release_after s others : hw_inv s -> 0 < kernel_waiters (data s) ->
  exists l, drm_idlelock_release others (data s) = Some l /\
    word_inv l (if idle_has_lock (data s) && negb (idle_has_lock l) then None else owner s) /\
    (kernel_waiters (data s) = 1 -> idle_has_lock l = false).
Proof.
  intros (w & Hw & H1 & H2 & H3 & H4) Hk. unfold drm_idlelock_release. set (l0 := set_kernel_waiters _ (data s)).
  change (idle_has_lock l0) with (idle_has_lock (data s)).
  assert (kernel_waiters l0 = kernel_waiters (data s) - 1) as Hk0 by (unfold l0; simpl; rewrite u32_small; lia).
  assert (kernel_waiters (data s) <> 1 \/ idle_has_lock (data s) = false -> word_inv l0 (owner s)) as Hsame.
  { intros Hne. exists w. rewrite Hk0. change (idle_has_lock l0) with (idle_has_lock (data s)).
    change (hw_lock l0) with (hw_lock (data s)). split; [done|]. split; [lia|]. split; [|done].
    intros Hidle. destruct Hne; [lia|congruence]. }
  rewrite Hk0. destruct (Z.eqb_spec (kernel_waiters (data s) - 1) 0) as [Hz|Hz]; cbn [andb].
  - destruct (idle_has_lock (data s)) eqn:Hidle.
    + change (hw_lock l0) with (hw_lock (data s)). rewrite Hw. cbn [mbind option_bind]. rewrite cas_loop_new.
      eexists. split; [done|]. split; [|done]. eexists. split; [done|]. split; [change (0 <= kernel_waiters l0 < 2 ^ 32); lia|]. done.
    + exists l0. split; [done|]. split; [by apply Hsame; right|]. done.
  - exists l0. split; [done|]. change (idle_has_lock l0) with (idle_has_lock (data s)).
    rewrite andb_negb_r. split; [apply Hsame; left; lia|lia].
Qed.

Lemma hw_step_inv s s' : hw_step s s' -> hw_inv s -> hw_inv s'.
Proof.
  intros Hst Hi. destruct Hst as [s s' Hu|s n|s c others s1 r l Hc Hint Hr|s c others s1 r b l Hint Hr
    |s others s1 l Hk Hint Hr|s others s1 l Hk Hint Hs1 Hr].
  - by destruct (user_step_inv s s' Hu Hi).
  - destruct Hi as (w & Hi). by exists w.
  - unfold user_context in Hc. destruct (take_after s c others s1 Hi Hint) as (new & Ht & Hh & Hl); [lia|].
    rewrite Ht in Hr. injection Hr as <- <-.
    destruct (interference_run id s others s1 Hint Hi) as (Hi1 & _ & w1 & _ & _ & _ & E).
    unfold hw_inv in Hi1. rewrite E in Hi1. unfold hw_inv. simpl.
    pose proof (take_inv _ _ new c Hi1 Hh ltac:(lia) Hl) as Hfin. by destruct (owner s1).
  - destruct (free_after s c others s1 Hi Hint) as (r' & b' & l' & Hr' & Hw & _).
    rewrite Hr in Hr'. injection Hr' as <- <- <-. done.
  - destruct (idle_take_after s others s1 Hi Hint Hk) as (l' & Hr' & Hw & _).
    rewrite Hr in Hr'. by injection Hr' as <-.
  - assert (s1 = s) as ->.
    { destruct (idle_has_lock (data s)) eqn:Hidle; [|by apply Hs1].
      apply (kernel_quiet s others); [done| |done]. destruct Hi as (w & _ & _ & _ & G4 & _). by apply G4. }
    destruct (idle_release_after s others Hi Hk) as (l' & Hr' & Hw & _).
    rewrite Hr in Hr'. by injection Hr' as <-.
Qed.

Lemma hw_reachable_inv s0 s : hw_initial s0 -> rtc hw_step s0 s -> hw_inv s.
Proof.
  intros -> Hr. assert (hw_inv (mk_hw (mk_lock (Some 0) None 0 0 false) None)) as Hi.
  { exists 0. split; [done|]. split; [simpl; lia|]. done. }
  induction Hr as [|x y z Hst _ IH]; [done|]. apply IH. by apply (hw_step_inv x).
Qed.

(** C25: User space changes the word only as the lock macros do (a context takes a lock it
    held last, and gives up its own uncontended one), and the contexts that are locked lie
    below the flag bits.  Then, in every order of takes, frees by anybody for any context,
    and idle locks, the word says who owns the lock, so that at most one context does: a
    context that takes the lock gets it exactly when nobody owns it at the compare and swap
    that succeeds.  The kernel takes it at once when nobody owns it.  [drm_lock_free] ends
    the ownership even of a context it is not called for: the kernel owns the lock next if
    it waits, and nobody otherwise; waiters are woken, and 0 returned, only when nobody
    else owned it.  The kernel lets go of it when it no longer waits. *)
Theorem hwlock_exclusive s : (exists s0, hw_initial s0 /\ rtc hw_step s0 s) ->
  (exists w, hw_lock (data s) = Some w /\ match owner s with
     | Some c => _DRM_LOCK_IS_HELD w = true /\ _DRM_LOCKING_CONTEXT w = c
     | None => _DRM_LOCK_IS_HELD w = false end) /\
  (forall c others s1, user_context c -> interference s others s1 -> exists l,
     drm_lock_take others (data s) c = Some (match owner s1 with None => 1 | Some _ => 0 end, l)) /\
  (forall others s1, interference s others s1 -> kernel_waiters (data s) + 1 < 2 ^ 32 -> owner s1 = None ->
     exists l, drm_idlelock_take others (data s) = Some l /\ idle_has_lock l = true) /\
  (forall c others s1, interference s others s1 -> exists r b l w,
     drm_lock_free others (data s) c = Some (r, b, l) /\ hw_lock l = Some w /\
     (idle_has_lock l = true <-> 0 < kernel_waiters (data s)) /\
     (if kernel_waiters (data s) =? 0 then _DRM_LOCK_IS_HELD w = false
      else _DRM_LOCK_IS_HELD w = true /\ _DRM_LOCKING_CONTEXT w = DRM_KERNEL_CONTEXT) /\
     b = (kernel_waiters (data s) =? 0) && negb (foreign s1 c) /\ r = (if b then 0 else 1)) /\
  (forall others, kernel_waiters (data s) = 1 -> exists l, drm_idlelock_release others (data s) = Some l /\
     idle_has_lock l = false) /\
  (owner s = Some 0 -> 0 < kernel_waiters (data s)).
Proof.
  intros (s0 & H0 & Hr). pose proof (hw_reachable_inv s0 s H0 Hr) as Hi.
  pose proof Hi as (w & Hw & Hk & Hik & Hidle & Ho).
  split; [by exists w|]. split; [|split; [|split; [|split]]].
  - intros c others s1 Hc Hint. unfold user_context in Hc.
    destruct (take_after s c others s1 Hi Hint) as (new & Ht & _); [lia|]. by eexists.
  - intros others s1 Hint Hk1 Ho1. destruct (idle_take_after s others s1 Hi Hint Hk1) as (l & Hl & _ & E).
    rewrite Ho1 in E. by exists l.
  - intros c others s1 Hint. destruct (free_after s c others s1 Hi Hint) as (r & b & l & Hl & (w2 & G1 & _ & _ & G & G2) & Hb & Hr2).
    exists r, b, l, w2. split; [done|]. split; [done|]. split; [|split; [|done]].
    + destruct (Z.eqb_spec (kernel_waiters (data s)) 0) as [Hz|Hz]; rewrite G; [split; [done|lia]|split; [lia|done]].
    + by destruct (kernel_waiters (data s) =? 0).
  - intros others Hk1. destruct (idle_release_after s others Hi) as (l & Hl & _ & E); [lia|].
    exists l. split; [done|by apply E].
  - intros Ho1. apply Hik, Hidle, Ho1.
Qed.

(** ** The ioctl *)

(** Sleeping as cv_wait_sig documents it: zero for a signal, positive otherwise. *)
Definition wakes_ok (wakes : list wakeup) : Prop :=
  Forall (fun w => 0 <= cv_ret w /\ is_Some (hw_lock (woken w))) wakes.

Lemma lock_loop_ret file ctx : forall wakes others ret e, 0 <= ctx < 2 ^ 30 -> 0 <= ret -> wakes_ok wakes ->
  is_Some (hw_lock (ldata e)) ->
  exists res, lock_loop file ctx others wakes ret e = Some res /\
    match res with
    | None => True
    | Some (r, e') => (r = - EINTR \/ exists w,
          hw_lock (ldata e') = Some w /\ _DRM_LOCK_IS_HELD w = true /\ _DRM_LOCKING_CONTEXT w = ctx /\
          file_priv (ldata e') = Some file /\
          (r = ret \/ 0 < r)) /\ lock_count e' = lock_count e
    end.
Proof.
  induction wakes as [|wk wakes IH]; intros others ret e Hc Hret Hwk [w Hw]; cbn [lock_loop].
  - destruct (take_run others (ldata e) w ctx Hw Hc) as (old & new & _ & Hh & -> & Hl). cbn [mbind option_bind].
    destruct (_DRM_LOCK_IS_HELD old); cbn [negb Z.eqb]; [by exists None|].
    eexists. split; [done|]. split; [|done]. right. exists new. simpl. split_and!; auto.
  - destruct (take_run others (ldata e) w ctx Hw Hc) as (old & new & _ & Hh & -> & Hl). cbn [mbind option_bind].
    apply Forall_cons in Hwk as [[Hcv Hw1] Hwk].
    destruct (_DRM_LOCK_IS_HELD old); cbn [negb Z.eqb].
    + destruct (Z.eqb_spec (cv_ret wk) 0) as [Hz|Hz].
      * eexists. split; [done|]. split; [by left|done].
      * destruct (IH (wake_others wk) (cv_ret wk) (set_ldata (woken wk) e)) as (res & -> & Hres); [done|done|done|done|].
        exists res. split; [done|]. destruct res as [[r e']|]; [|done]. destruct Hres as [Hres Hlc]. split; [|done].
        destruct Hres as [->|(w2 & ? & ? & ? & ? & Hr)]; [by left|right]. exists w2. do 4 (split; [done|]). right. lia.
    + eexists. split; [done|]. split; [|done]. right. exists new. simpl. split_and!; auto.
Qed.

(** The lock ioctl of a context user space may use, on a master with a lock
    word: when it returns it was interrupted by a signal, or the file holds the
    hardware lock for the context; it reports zero, the quiescence error of the
    driver, or a positive number. *)
Theorem drm_lock_result dmaq q file req others wakes e : user_context (context req) ->
  is_Some (hw_lock (ldata e)) -> wakes_ok wakes -> 0 <= lock_count e ->
  exists res, drm_lock dmaq q file req others wakes e = Some res /\
    match res with
    | None => True                      (* asleep *)
    | Some (ret, e') => ret = - EINTR \/
        (drm_i_have_hw_lock file e' = true /\ (ret = - EBUSY \/ 0 <= ret) /\
         exists w, hw_lock (ldata e') = Some w /\ _DRM_LOCKING_CONTEXT w = context req)
    end.
Proof.
  intros Hc Hw Hwk Hlc. unfold user_context in Hc. unfold drm_lock. cbn [ldata].
  assert ((context req =? DRM_KERNEL_CONTEXT) = false) as -> by (apply Z.eqb_neq; unfold DRM_KERNEL_CONTEXT; lia).
  destruct (hw_lock (ldata e)) as [w|] eqn:Hword; [|by destruct Hw].
  assert ((context req <? 0) = false) as -> by (apply Z.ltb_ge; lia). rewrite andb_false_r.
  rewrite u32_small by lia.
  set (e0 := set_ldata _ _).
  destruct (lock_loop_ret file (context req) wakes others 0 e0) as (res & -> & Hres); try done; try lia.
  cbn [mbind option_bind]. destruct res as [[r e']|]; [|by exists None].
  destruct Hres as [Hres Hlc']. destruct (Z.eqb_spec r 0) as [Hr0|Hr0]; cbn [negb].
  - destruct Hres as [Hr|(w' & Hw' & Hh & Hl & Hf & _)]; [unfold EINTR in Hr; lia|].
    assert (forall ret, ret = - EBUSY \/ 0 <= ret ->
      let e1 := set_ldata (set_user_waiters (user_waiters (ldata e') - 1) (ldata e')) e' in
      ret = - EINTR \/ (drm_i_have_hw_lock file e1 = true /\ (ret = - EBUSY \/ 0 <= ret) /\
         exists w, hw_lock (ldata e1) = Some w /\ _DRM_LOCKING_CONTEXT w = context req)) as Hfin.
    { intros ret Hret. right. split; [|split; [done|by exists w']]. unfold drm_i_have_hw_lock. simpl.
      rewrite Hw', Hh, Hf, Hlc'. simpl. rewrite bool_decide_true by done.
      destruct (Z.eqb_spec (lock_count e + 1) 0); [lia|done]. }
    destruct q as [qv|]; [destruct (_ && _)|]; eexists; (split; [done|]); apply Hfin; auto; right; lia.
  - eexists. split; [done|]. destruct Hres as [->|(w' & Hw' & Hh & Hl & Hf & Hr)]; [by left|]. right.
    split; [|split; [right; lia|by exists w']]. unfold drm_i_have_hw_lock. simpl.
    rewrite Hw', Hh, Hf, Hlc'. simpl. rewrite bool_decide_true by done.
    destruct (Z.eqb_spec (lock_count e + 1) 0); [lia|done].
Qed.

(** A lock ioctl that had to wait does not return zero when it gets the
    lock: [ret] still holds the positive value of cv_wait_sig. *)
Theorem contended_lock_not_zero dmaq q file req w l' w' r e : user_context (context req) ->
  hw_lock (ldata e) = Some w -> _DRM_LOCK_IS_HELD w = true -> 0 < r -> 0 <= lock_count e ->
  hw_lock l' = Some w' -> _DRM_LOCK_IS_HELD w' = false ->
  exists e', drm_lock dmaq q file req [] [mk_wake r l' []] e = Some (Some (r, e')) /\
    drm_i_have_hw_lock file e' = true.
Proof.
  intros Hc Hw Hh Hr Hlc Hw' Hh'. unfold user_context in Hc. unfold drm_lock. cbn [ldata].
  assert ((context req =? DRM_KERNEL_CONTEXT) = false) as -> by (apply Z.eqb_neq; unfold DRM_KERNEL_CONTEXT; lia).
  rewrite Hw. assert ((context req <? 0) = false) as -> by (apply Z.ltb_ge; lia). rewrite andb_false_r.
  rewrite u32_small by lia. cbn [lock_loop ldata set_ldata cv_ret woken wake_others].
  destruct (take_run [] (set_user_waiters (user_waiters (ldata e) + 1) (ldata e)) w (context req))
    as (old & new & Hold & _ & -> & _); [done|lia|].
  apply list_elem_of_singleton in Hold as ->. rewrite Hh. cbn [mbind option_bind negb Z.eqb].
  destruct (Z.eqb_spec r 0) as [|_]; [lia|].
  destruct (take_run [] l' w' (context req) Hw') as (old & new' & Hold & Hn & -> & _); [lia|].
  apply list_elem_of_singleton in Hold as ->. rewrite Hh'. cbn [mbind option_bind negb Z.eqb].
  destruct (Z.eqb_spec r 0) as [|_]; [lia|]. cbn [negb]. eexists. split; [done|].
  unfold drm_i_have_hw_lock. simpl. rewrite Hn, bool_decide_true by done.
  destruct (Z.eqb_spec (lock_count e + 1) 0); [lia|done].
Qed.

(** ** At concrete states *)

(** Context 5 takes the lock, the kernel waits for it, and a caller that owns nothing frees
    it for context 7: the kernel owns it now. *)
Definition waiting_hw : hw := mk_hw (mk_lock (Some (Z.lor (Z.lor 5 _DRM_LOCK_HELD) _DRM_LOCK_CONT)) None 0 1 false) (Some 5).

Lemma waiting_reachable : exists s0, hw_initial s0 /\ rtc hw_step s0 waiting_hw.
Proof.
  set (s0 := mk_hw (mk_lock (Some 0) None 0 0 false) None).
  set (s1 := mk_hw (mk_lock (Some (Z.lor 5 _DRM_LOCK_HELD)) None 0 0 false) (Some 5)).
  assert (forall s, interference s [] s) as Hnone by (intros s; by apply interference_last).
  exists s0. split; [done|]. apply (rtc_l _ _ s1).
  - refine (step_take s0 5 [] s0 1 (data s1) _ (Hnone s0) _); [unfold user_context; lia|reflexivity].
  - apply rtc_once. refine (step_idle_take s1 [] s1 (data waiting_hw) _ (Hnone s1) _); [simpl; lia|reflexivity].
Qed.

Lemma hwlock_exclusive_witness : exists w r b l, hw_lock (data waiting_hw) = Some w /\ _DRM_LOCKING_CONTEXT w = 5 /\
  drm_lock_free [] (data waiting_hw) 7 = Some (r, b, l) /\ idle_has_lock l = true.
Proof.
  destruct (hwlock_exclusive waiting_hw waiting_reachable) as ((w & Hw & _ & Hc) & _ & _ & Hfree & _).
  destruct (Hfree 7 [] waiting_hw) as (r & b & l & w2 & E & _ & Hi & _); [apply interference_last; done|].
  exists w, r, b, l. split; [exact Hw|]. split; [exact Hc|]. split; [exact E|]. apply Hi. reflexivity.
Defined.

(** Anybody may free the lock of context 5: the word is cleared, and the waiters sleep on. *)
Lemma foreign_free_frees :
  drm_unlock (mk_req 7 0) [] (mk_env 0 0 0 (mk_lock (Some (Z.lor 5 _DRM_LOCK_HELD)) (Some 1%positive) 1 0 false)) =
    Some (0, mk_env 0 0 1 (mk_lock (Some 5) (Some 1%positive) 1 0 false)) /\
  drm_lock_free [] (mk_lock (Some (Z.lor 5 _DRM_LOCK_HELD)) (Some 1%positive) 1 0 false) 7 =
    Some (1, false, mk_lock (Some 5) (Some 1%positive) 1 0 false).
Proof. by split; vm_compute. Qed.

(** A context with a flag bit, which [drm_lock] does not refuse: the lock becomes held and
    the caller is told that it is not its own. *)
Lemma flagged_context_locks_out : drm_lock_take [] (mk_lock (Some 0) None 1 0 false) (Z.lor 5 _DRM_LOCK_HELD) =
  Some (0, mk_lock (Some (Z.lor 5 _DRM_LOCK_HELD)) None 1 0 false).
Proof. by vm_compute. Qed.

Lemma drm_lock_result_witness : exists res,
  drm_lock false None 1%positive (mk_req 5 0) [] [] (mk_env 0 0 0 (mk_lock (Some 5) None 0 0 false)) = Some res.
Proof.
  destruct (drm_lock_result false None 1%positive (mk_req 5 0) [] []
    (mk_env 0 0 0 (mk_lock (Some 5) None 0 0 false))) as (res & Hr & _).
  - unfold user_context. simpl. lia.
  - by eexists.
  - constructor.
  - simpl. lia.
  - exists res. exact Hr.
Defined.

Lemma contended_lock_not_zero_witness : exists e',
  drm_lock false None 1%positive (mk_req 5 0) [] [mk_wake 1 (mk_lock (Some 3) None 1 0 false) []]
    (mk_env 0 0 0 (mk_lock (Some (Z.lor 3 _DRM_LOCK_HELD)) None 0 0 false)) = Some (Some (1, e')) /\
  drm_i_have_hw_lock 1%positive e' = true.
Proof.
  apply (contended_lock_not_zero false None 1%positive (mk_req 5 0) (Z.lor 3 _DRM_LOCK_HELD)
    (mk_lock (Some 3) None 1 0 false) 3); try reflexivity.
  unfold user_context. simpl. lia.
Defined.
