(* ===== verification/Auth.v ===== *)
(** * Authentication by magic numbers (drm_auth.c)

    A master has 16 singly linked lists of magics waiting for authentication,
    each with a head and a tail pointer.  The first part models the lists on a
    heap and refines them to lists; the second models [drm_getmagic] step by step
    so that two callers can be interleaved. *)

From S2P Require Import Prelude.

Definition DRM_HASH_SIZE : Z := 16.

(** Pointers to entries and to files. *)
Abbreviation loc := positive.
Abbreviation fid := positive.

Record drm_magic_entry := mk_entry { magic : Z; priv : fid; next : option loc }.
Record drm_magic_head := mk_head { head : option loc; tail : option loc }.

(** [master->magiclist] and the memory its entries are in. *)
Record magics := mk_magics { magiclist : list drm_magic_head; heap : gmap loc drm_magic_entry }.

Definition drm_hash_magic (m : Z) : Z := Z.land m (DRM_HASH_SIZE - 1).

Definition bucket (t : magics) (m : Z) : option drm_magic_head :=
  magiclist t !! Z.to_nat (drm_hash_magic m).

Definition set_bucket (m : Z) (h : drm_magic_head) (t : magics) : magics :=
  mk_magics (<[Z.to_nat (drm_hash_magic m) := h]> (magiclist t)) (heap t).

(** ** The operations *)

(** The loop of [drm_find_file]; [fuel] bounds its steps. *)
Fixpoint find_walk (fuel : nat) (h : gmap loc drm_magic_entry) (pt : option loc) (m : Z)
    : option (option fid) :=
  match fuel, pt with
  | _, None => Some None
  | O, Some _ => None
  | S fuel, Some p =>
      e ← h !! p;
      if magic e =? m then Some (Some (priv e)) else find_walk fuel h (next e) m
  end.

Definition drm_find_file (t : magics) (m : Z) : option (option fid) :=
  hd ← bucket t m; find_walk (size (heap t)) (heap t) (head hd) m.

(** [entry] is what drm_alloc returns. *)
Definition drm_add_magic (t : magics) (f : fid) (m : Z) (entry : option loc) : option (Z * magics) :=
  match entry with
  | None => Some (- ENOMEM, t)
  | Some p =>
      hd ← bucket t m;
      let h := <[p := mk_entry m f None]> (heap t) in
      match tail hd with
      | Some q =>
          e ← h !! q;
          let h := <[q := mk_entry (magic e) (priv e) (Some p)]> h in
          Some (0, set_bucket m (mk_head (head hd) (Some p)) (mk_magics (magiclist t) h))
      | None => Some (0, set_bucket m (mk_head (Some p) (Some p)) (mk_magics (magiclist t) h))
      end
  end.

(** What [drm_remove_magic] does with the entry [e] at [p] once it is found. *)
Definition unlink (t : magics) (prev : option loc) (p : loc) (e : drm_magic_entry) (m : Z)
    : option (Z * magics) :=
  hd ← bucket t m;
  let hd1 := if bool_decide (head hd = Some p) then mk_head (next e) (tail hd) else hd in
  let hd2 := if bool_decide (tail hd1 = Some p) then mk_head (head hd1) prev else hd1 in
  h ← match prev with
      | Some q => pe ← heap t !! q; Some (<[q := mk_entry (magic pe) (priv pe) (next e)]> (heap t))
      | None => Some (heap t)
      end;
  Some (0, set_bucket m hd2 (mk_magics (magiclist t) (delete p h))).

(** The loop of [drm_remove_magic]. *)
Fixpoint remove_walk (fuel : nat) (t : magics) (prev pt : option loc) (m : Z) : option (Z * magics) :=
  match fuel, pt with
  | _, None => Some (- EINVAL, t)
  | O, Some _ => None
  | S fuel, Some p =>
      e ← heap t !! p;
      if magic e =? m then unlink t prev p e m else remove_walk fuel t (Some p) (next e) m
  end.

Definition drm_remove_magic (t : magics) (m : Z) : option (Z * magics) :=
  hd ← bucket t m; remove_walk (size (heap t)) t None (head hd) m.

(** ** The ioctls *)

(** The static [sequence], the lists, [file->magic] (0 when unset) and the files
    with [file->authenticated] set. *)
Record auth_state := mk_auth {
  sequence : Z;
  table : magics;
  file_magic : gmap fid Z;
  authenticated : gset fid }.

(** Where a caller of [drm_getmagic] is: before the test of [file->magic], before
    the read of [sequence], before the compare and swap, before [drm_find_file],
    before [drm_add_magic], or done with [auth->magic]. *)
Inductive getmagic_pc :=
| AtStart | AtRead | AtCas (old : Z) | AtFind (m : Z) | AtAdd (m : Z) | AtEnd (m : Z).

(** One access to shared state; [entry] is the memory [drm_add_magic] gets.  A
    failed compare and swap goes to the condition of the loop as well. *)
Definition getmagic_step (file : fid) (entry : option loc) (pc : getmagic_pc) (s : auth_state)
    : option (getmagic_pc * auth_state) :=
  match pc with
  | AtStart =>
      let m := default 0 (file_magic s !! file) in
      Some (if negb (m =? 0) then AtEnd m else AtRead, s)
  | AtRead => Some (AtCas (s32 (sequence s)), s)
  | AtCas old =>
      let m := u32 (old + 1) in
      Some (AtFind m, if sequence s =? u32 old
                      then mk_auth m (table s) (file_magic s) (authenticated s) else s)
  | AtFind m =>
      found ← drm_find_file (table s) m;
      match found with
      | Some _ => Some (AtRead, s)
      | None => Some (AtAdd m, mk_auth (sequence s) (table s) (<[file := m]> (file_magic s)) (authenticated s))
      end
  | AtAdd m =>
      '(_, t) ← drm_add_magic (table s) file m entry;
      Some (AtEnd m, mk_auth (sequence s) t (file_magic s) (authenticated s))
  | AtEnd m => Some (AtEnd m, s)
  end.

(** The ioctl when nothing else runs: [auth->magic] and the state. *)
Fixpoint drm_getmagic (fuel : nat) (file : fid) (entry : option loc) (pc : getmagic_pc) (s : auth_state)
    : option (Z * auth_state) :=
  match fuel with
  | O => None
  | S fuel =>
      match pc with
      | AtEnd m => Some (m, s)
      | _ => '(pc, s) ← getmagic_step file entry pc s; drm_getmagic fuel file entry pc s
      end
  end.

(** Several callers: the schedule says who moves next. *)
Fixpoint run_callers (schedule : list (fid * option loc)) (pcs : gmap fid getmagic_pc) (s : auth_state)
    : option (gmap fid getmagic_pc * auth_state) :=
  match schedule with
  | [] => Some (pcs, s)
  | (file, entry) :: schedule =>
      pc ← pcs !! file;
      '(pc, s) ← getmagic_step file entry pc s;
      run_callers schedule (<[file := pc]> pcs) s
  end.

Definition drm_authmagic (m : Z) (s : auth_state) : option (Z * auth_state) :=
  found ← drm_find_file (table s) m;
  match found with
  | Some f =>
      '(_, t) ← drm_remove_magic (table s) m;
      Some (0, mk_auth (sequence s) t (file_magic s) (authenticated s ∪ {[f]}))
  | None => Some (- EINVAL, s)
  end.

(** ** The lists a table stands for *)

(** An entry with its address. *)
Abbreviation item := (loc * Z * fid)%type.

Definition first (l : list item) : option loc := (fun x => x.1.1) <$> hd_error l.
Definition final (l : list item) : option loc := (fun x => x.1.1) <$> last l.

(** The entries of [l], linked up to [nx]. *)
Fixpoint seg (h : gmap loc drm_magic_entry) (l : list item) (nx : option loc) : Prop :=
  match l with
  | [] => True
  | (p, m, f) :: l =>
      h !! p = Some (mk_entry m f (match first l with Some q => Some q | None => nx end)) /\ seg h l nx
  end.

(** [L] gives the entries of every list. *)
Record represents (t : magics) (L : nat -> list item) : Prop := {
  rep_length : length (magiclist t) = Z.to_nat DRM_HASH_SIZE;
  rep_head : forall k hd, magiclist t !! k = Some hd -> head hd = first (L k) /\ tail hd = final (L k);
  rep_seg : forall k, seg (heap t) (L k) None;
  rep_nodup : forall k, NoDup ((fun x => x.1.1) <$> L k);
  rep_disj : forall k1 k2 x1 x2, x1 ∈ L k1 -> x2 ∈ L k2 -> x1.1.1 = x2.1.1 -> k1 = k2;
  rep_hash : forall k x, x ∈ L k -> Z.to_nat (drm_hash_magic x.1.2) = k }.

(** The list operations. *)
Definition key (m : Z) : nat := Z.to_nat (drm_hash_magic m).

Fixpoint lookup_magic (l : list item) (m : Z) : option fid :=
  match l with
  | [] => None
  | x :: l => if x.1.2 =? m then Some x.2 else lookup_magic l m
  end.

Fixpoint drop_magic (l : list item) (m : Z) : list item :=
  match l with
  | [] => []
  | x :: l => if x.1.2 =? m then l else x :: drop_magic l m
  end.

Definition update (L : nat -> list item) (k : nat) (l : list item) : nat -> list item :=
  fun k' => if decide (k' = k) then l else L k'.

Lemma update_eq L k l : update L k l k = l.
Proof. unfold update. by rewrite decide_True. Qed.
Lemma update_ne L k l k' : k' <> k -> update L k l k' = L k'.
Proof. intros. unfold update. by rewrite decide_False. Qed.

Lemma represents_ext t L L' : (forall k, L' k = L k) -> represents t L -> represents t L'.
Proof.
  intros E [R1 R2 R3 R4 R5 R6]. split; try done.
  - intros k. rewrite E. apply R2.
  - intros k. rewrite E. apply R3.
  - intros k. rewrite E. apply R4.
  - intros k1 k2. rewrite !E. apply R5.
  - intros k. rewrite E. apply R6.
Qed.

(** ** Segments *)

Lemma seg_app h l1 l2 nx : seg h (l1 ++ l2) nx <->
  seg h l1 (match first l2 with Some q => Some q | None => nx end) /\ seg h l2 nx.
Proof.
  induction l1 as [|[[p m] f] l1 IH]; [simpl; tauto|].
  simpl. rewrite IH. destruct l1 as [|x l1]; simpl; [tauto|]. tauto.
Qed.

Lemma seg_frame h p e l nx : ~ p ∈ ((fun x : item => x.1.1) <$> l) -> seg h l nx -> seg (<[p := e]> h) l nx.
Proof.
  induction l as [|[[q m] f] l IH]; [done|]. simpl. rewrite not_elem_of_cons. intros [Hne Hni] [Hq Hs].
  split; [by rewrite lookup_insert_ne|by apply IH].
Qed.

Lemma seg_delete h p l nx : ~ p ∈ ((fun x : item => x.1.1) <$> l) -> seg h l nx -> seg (delete p h) l nx.
Proof.
  induction l as [|[[q m] f] l IH]; [done|]. simpl. rewrite not_elem_of_cons. intros [Hne Hni] [Hq Hs].
  split; [by rewrite lookup_delete_ne|by apply IH].
Qed.

Lemma seg_dom h l nx x : seg h l nx -> x ∈ l -> is_Some (h !! x.1.1).
Proof.
  induction l as [|[[q m] f] l IH]; simpl; [by intros _ ?%elem_of_nil|].
  intros [Hq Hs] [->|Hx]%elem_of_cons; [by eexists|by apply IH].
Qed.

(** The lists are no longer than the heap. *)
Lemma seg_length h l nx : seg h l nx -> NoDup ((fun x : item => x.1.1) <$> l) -> (length l <= size h)%nat.
Proof.
  revert h. induction l as [|[[p m] f] l IH]; intros h; [simpl; lia|]. simpl.
  intros [Hp Hs] [Hni Hnd]%NoDup_cons. rewrite <-(insert_delete_id h p _ Hp).
  rewrite map_size_insert_None by apply lookup_delete_eq.
  apply le_n_S, IH; [|done]. by apply seg_delete.
Qed.

Lemma seg_relink h l p m f nx nx' : seg h (l ++ [(p, m, f)]) nx ->
  NoDup ((fun x : item => x.1.1) <$> (l ++ [(p, m, f)])) ->
  seg (<[p := mk_entry m f nx']> h) (l ++ [(p, m, f)]) nx'.
Proof.
  rewrite !seg_app. intros [Hl Hp] Hnd. rewrite fmap_app in Hnd. apply NoDup_app in Hnd as (_ & Hd & _).
  split.
  - apply seg_frame; [|done]. intros Hx. apply (Hd p Hx). by left.
  - simpl. by rewrite lookup_insert_eq.
Qed.

(** ** The operations on a table *)

Lemma hash_lt m : (key m < Z.to_nat DRM_HASH_SIZE)%nat.
Proof.
  unfold key, drm_hash_magic, DRM_HASH_SIZE. change (16 - 1) with (Z.ones 4). rewrite Z.land_ones by lia.
  pose proof (Z.mod_pos_bound m (2 ^ 4)). lia.
Qed.

Lemma bucket_run t L m : represents t L ->
  bucket t m = Some (mk_head (first (L (key m))) (final (L (key m)))).
Proof.
  intros R. unfold bucket. fold (key m).
  destruct (lookup_lt_is_Some_2 (magiclist t) (key m)) as [[hh tt] Hh]; [rewrite (rep_length _ _ R); apply hash_lt|].
  destruct (rep_head _ _ R _ _ Hh) as [E1 E2]. simpl in *. by rewrite Hh, E1, E2.
Qed.

Lemma find_walk_spec h m : forall l fuel, seg h l None -> (length l <= fuel)%nat ->
  find_walk fuel h (first l) m = Some (lookup_magic l m).
Proof.
  induction l as [|[[p m'] f] l IH]; intros fuel; [by destruct fuel|].
  simpl. intros [Hp Hs] Hf. destruct fuel as [|fuel]; [lia|]. cbn [find_walk]. change (first ((p, m', f) :: l)) with (Some p).
  cbn iota. rewrite Hp. cbn [mbind option_bind magic priv next]. destruct (m' =? m); [done|].
  rewrite <-(IH fuel) by (done || lia). by destruct (first l).
Qed.

Lemma find_run t L m : represents t L -> drm_find_file t m = Some (lookup_magic (L (key m)) m).
Proof.
  intros R. unfold drm_find_file. rewrite (bucket_run t L m R). cbn [mbind option_bind head].
  apply find_walk_spec; [apply R|]. apply (seg_length _ _ None); apply R.
Qed.

(** Replacing one list by another whose entries are partly new. *)
Lemma rep_update t L k l hd h : represents t L -> (k < Z.to_nat DRM_HASH_SIZE)%nat ->
  hd = mk_head (first l) (final l) -> seg h l None -> NoDup ((fun x : item => x.1.1) <$> l) ->
  (forall k', k' <> k -> seg h (L k') None) ->
  (forall x, x ∈ l -> Z.to_nat (drm_hash_magic x.1.2) = k) ->
  (forall x k' x', k' <> k -> x ∈ l -> x' ∈ L k' -> x.1.1 <> x'.1.1) ->
  represents (mk_magics (<[k := hd]> (magiclist t)) h) (update L k l).
Proof.
  intros R Hk -> Hs Hnd Hoth Hh Hd. destruct R as [R1 R2 R3 R4 R5 R6]. split; simpl.
  - by rewrite length_insert.
  - intros k' hd'. destruct (decide (k' = k)) as [->|Hne].
    + rewrite list_lookup_insert_eq, update_eq by lia. by intros [= <-].
    + rewrite list_lookup_insert_ne, update_ne by done. apply R2.
  - intros k'. destruct (decide (k' = k)) as [->|Hne]; [by rewrite update_eq|]. rewrite update_ne by done. by apply Hoth.
  - intros k'. destruct (decide (k' = k)) as [->|Hne]; [by rewrite update_eq|]. by rewrite update_ne.
  - intros k1 k2 x1 x2. destruct (decide (k1 = k)) as [->|H1], (decide (k2 = k)) as [->|H2];
      rewrite ?update_eq, ?(update_ne _ _ _ k1), ?(update_ne _ _ _ k2) by done; [done| | |by apply R5].
    + intros Hx1 Hx2 E. by destruct (Hd x1 k2 x2 H2 Hx1 Hx2).
    + intros Hx1 Hx2 E. by destruct (Hd x2 k1 x1 H1 Hx2 Hx1).
  - intros k' x. destruct (decide (k' = k)) as [->|Hne]; [rewrite update_eq; apply Hh|]. rewrite update_ne by done. apply R6.
Qed.

Lemma final_snoc l p m f : final (l ++ [(p, m, f)]) = Some p.
Proof. unfold final. by rewrite last_snoc. Qed.

Lemma first_app l1 l2 : first (l1 ++ l2) = match first l1 with Some q => Some q | None => first l2 end.
Proof. by destruct l1. Qed.

Lemma add_run t L f m p : represents t L -> heap t !! p = None ->
  exists t', drm_add_magic t f m (Some p) = Some (0, t') /\
    represents t' (update L (key m) (L (key m) ++ [(p, m, f)])) /\
    (forall q, is_Some (heap t' !! q) <-> q = p \/ is_Some (heap t !! q)).
Proof.
  intros R Hp. pose proof (rep_seg _ _ R (key m)) as Hs. pose proof (rep_nodup _ _ R (key m)) as Hnd.
  assert (forall k x, x ∈ L k -> x.1.1 <> p) as Hfresh.
  { intros k x Hx E. destruct (seg_dom _ _ _ x (rep_seg _ _ R k) Hx) as [e He]. rewrite E in He. congruence. }
  assert (NoDup ((fun x : item => x.1.1) <$> (L (key m) ++ [(p, m, f)]))) as Hnd'.
  { rewrite fmap_app, NoDup_app. split; [done|]. split; [|apply NoDup_singleton].
    intros q Hq ->%list_elem_of_singleton. apply list_elem_of_fmap in Hq as (x & E & Hx). by apply (Hfresh _ x Hx). }
  assert (forall x k' x', k' <> key m -> x ∈ L (key m) ++ [(p, m, f)] -> x' ∈ L k' -> x.1.1 <> x'.1.1) as Hd.
  { intros x k' x' Hne Hx Hx' E. apply elem_of_app in Hx as [Hx| ->%list_elem_of_singleton].
    - by destruct Hne; apply (rep_disj _ _ R _ _ x' x).
    - by destruct (Hfresh k' x'). }
  assert (forall x, x ∈ L (key m) ++ [(p, m, f)] -> Z.to_nat (drm_hash_magic x.1.2) = key m) as Hh.
  { intros x [Hx| ->%list_elem_of_singleton]%elem_of_app; [by apply (rep_hash _ _ R)|done]. }
  unfold drm_add_magic. rewrite (bucket_run t L m R). cbn [mbind option_bind head tail].
  destruct (L (key m)) as [|x l _] eqn:EL using rev_ind.
  - eexists. split; [done|]. split; [|intros q; simpl; rewrite lookup_insert_is_Some'; naive_solver].
    apply (rep_update t L); try done; [apply hash_lt|by simpl; rewrite lookup_insert_eq|].
    intros k' Hne. apply seg_frame; [|apply R]. intros (x & E & Hx)%list_elem_of_fmap. by apply (Hfresh k' x).
  - destruct x as [[q mq] fq]. rewrite final_snoc.
    assert (heap t !! q = Some (mk_entry mq fq None)) as Hq by (apply seg_app in Hs as [_ Hs]; apply Hs).
    assert (q <> p) as Hqp by (intros ->; congruence).
    rewrite lookup_insert_ne, Hq by done. cbn [mbind option_bind magic priv].
    eexists. split; [done|]. split.
    2: { intros q'. simpl. rewrite !lookup_insert_is_Some'. split; [intros [<-|[<-|?]]; eauto|intros [->|?]; eauto]. }
    apply (rep_update t L); try done; [apply hash_lt| | |].
    + f_equal; [by rewrite !first_app; destruct (first l)|by rewrite final_snoc].
    + rewrite seg_app. split.
      * apply (seg_relink _ _ _ _ _ None); [|done]. apply seg_frame; [|done].
        intros (x & E & Hx)%list_elem_of_fmap. by apply (Hfresh (key m) x); [rewrite EL|].
      * simpl. by rewrite lookup_insert_ne, lookup_insert_eq.
    + intros k' Hne. apply seg_frame; [|apply seg_frame; [|apply R]].
      * intros (x & E & Hx)%list_elem_of_fmap. destruct Hne. apply (rep_disj _ _ R _ _ x (q, mq, fq)); [done| |done].
        rewrite EL. apply elem_of_app. right. by left.
      * intros (x & E & Hx)%list_elem_of_fmap. by apply (Hfresh k' x).
Qed.

Lemma final_app_cons l x l2 : final (l ++ x :: l2) = final (x :: l2).
Proof. unfold final. rewrite last_app_cons. done. Qed.

Lemma final_in l p : final l = Some p -> p ∈ ((fun x : item => x.1.1) <$> l).
Proof.
  unfold final. intros Hp. apply fmap_Some in Hp as (x & Hx & ->). apply list_elem_of_fmap.
  exists x. split; [done|]. by apply last_Some_elem_of.
Qed.

Lemma first_in l p : first l = Some p -> p ∈ ((fun x : item => x.1.1) <$> l).
Proof. destruct l as [|x l]; [done|]. unfold first. simpl. intros [= <-]. by left. Qed.

Lemma final_None l : final l = None -> l = [].
Proof. destruct l as [|x l] using rev_ind; [done|]. unfold final. by rewrite last_snoc. Qed.

(** The head and tail pointers after the entry at [p] is taken out. *)
Lemma unlink_ends l1 l2 p m f : NoDup ((fun x : item => x.1.1) <$> (l1 ++ (p, m, f) :: l2)) ->
  (let hd1 := if bool_decide (first (l1 ++ (p, m, f) :: l2) = Some p)
              then mk_head (first l2) (final (l1 ++ (p, m, f) :: l2))
              else mk_head (first (l1 ++ (p, m, f) :: l2)) (final (l1 ++ (p, m, f) :: l2)) in
   if bool_decide (tail hd1 = Some p) then mk_head (head hd1) (final l1) else hd1) =
  mk_head (first (l1 ++ l2)) (final (l1 ++ l2)).
Proof.
  rewrite fmap_app, fmap_cons. intros (Hnd1 & Hd & [Hp Hnd2]%NoDup_cons)%NoDup_app. simpl in Hp.
  assert (~ p ∈ ((fun x : item => x.1.1) <$> l1)) as Hp1 by (intros Hx; apply (Hd p Hx); by left).
  cbv zeta. set (hd1 := if bool_decide (first _ = Some p) then _ else _).
  assert (head hd1 = first (l1 ++ l2) /\ tail hd1 = final ((p, m, f) :: l2)) as [E1 E2].
  { unfold hd1. rewrite !first_app, final_app_cons. destruct (first l1) as [q|] eqn:E.
    - rewrite bool_decide_false; [done|]. intros [= ->]. by apply Hp1, first_in.
    - change (first ((p, m, f) :: l2)) with (Some p). by rewrite bool_decide_true. }
  destruct hd1 as [hh tt]. simpl in E1, E2. subst hh tt. simpl.
  destruct l2 as [|y l2].
  - rewrite app_nil_r. change (final [(p, m, f)]) with (Some p). by rewrite bool_decide_true.
  - rewrite bool_decide_false; [by rewrite final_app_cons|].
    change ((p, m, f) :: y :: l2) with ([(p, m, f)] ++ y :: l2). rewrite final_app_cons. by intros ?%final_in.
Qed.

Lemma unlink_run t L l1 l2 p m f : represents t L -> L (key m) = l1 ++ (p, m, f) :: l2 ->
  exists t', unlink t (final l1) p (mk_entry m f (first l2)) m = Some (0, t') /\
    represents t' (update L (key m) (l1 ++ l2)) /\
    (forall q, is_Some (heap t' !! q) <-> q <> p /\ is_Some (heap t !! q)).
Proof.
  intros R EL. pose proof (rep_seg _ _ R (key m)) as Hs. pose proof (rep_nodup _ _ R (key m)) as Hnd.
  pose proof (unlink_ends l1 l2 p m f) as Hends. rewrite EL in Hs, Hnd. specialize (Hends Hnd).
  rewrite fmap_app, fmap_cons in Hnd. simpl in Hnd.
  pose proof Hnd as (Hnd1 & Hd & [Hp2 Hnd2]%NoDup_cons)%NoDup_app.
  assert (~ p ∈ ((fun x : item => x.1.1) <$> l1)) as Hp1 by (intros Hx; apply (Hd p Hx); by left).
  apply seg_app in Hs as [Hs1 [Hsp Hs2]]. change (first ((p, m, f) :: l2)) with (Some p) in Hs1. cbn iota in Hs1.
  assert (exists h, (match final l1 with
      | Some q => pe ← heap t !! q; Some (<[q := mk_entry (magic pe) (priv pe) (first l2)]> (heap t))
      | None => Some (heap t) end) = Some h /\
    seg h l1 (first l2) /\ (forall q, is_Some (h !! q) <-> is_Some (heap t !! q)) /\
    (forall l nx, (forall q, final l1 = Some q -> ~ q ∈ ((fun x : item => x.1.1) <$> l)) -> seg (heap t) l nx -> seg h l nx))
    as (h & Hh & Hsh & Hdom & Hframe).
  { destruct l1 as [|[[q mq] fq] l1 _] using rev_ind.
    - exists (heap t). done.
    - rewrite final_snoc. pose proof Hs1 as [_ [Hq _]]%seg_app. simpl in Hq. rewrite Hq. cbn [mbind option_bind magic priv].
      eexists. split; [done|]. split; [|split].
      + by apply (seg_relink _ _ _ _ _ (Some p)).
      + intros q'. rewrite lookup_insert_is_Some'. split; [intros [<-|?]; [by rewrite Hq|done]|auto].
      + intros l nx Hl. apply seg_frame. by apply Hl. }
  unfold unlink. rewrite (bucket_run t L m R), EL. cbn [mbind option_bind head tail Auth.next].
  change (mk_entry m f (first l2)) with (mk_entry m f (first l2)). cbn zeta in Hends. cbn [Auth.next].
  rewrite Hh, Hends. cbn [mbind option_bind]. eexists. split; [done|]. split.
  2: { intros q. simpl. rewrite lookup_delete_is_Some, Hdom. split; intros [? ?]; split; auto. }
  assert (forall k' x, k' <> key m -> x ∈ L k' -> ~ x.1.1 ∈ ((fun x : item => x.1.1) <$> (l1 ++ (p, m, f) :: l2))) as Hother.
  { intros k' x Hne Hx (y & E & Hy)%list_elem_of_fmap. rewrite <-EL in Hy. destruct Hne. by apply (rep_disj _ _ R _ _ x y). }
  apply (rep_update t L); try done.
  - apply hash_lt.
  - apply seg_app. split.
    + apply seg_delete; [done|]. by destruct l2 as [|[[? ?] ?] ?].
    + apply seg_delete; [done|]. apply Hframe; [|done]. intros q Hq%final_in Hq2. apply (Hd q Hq). by right.
  - rewrite fmap_app. apply NoDup_app. split; [done|]. split; [|done]. intros q Hq Hq2. apply (Hd q Hq). by right.
  - intros k' Hne. apply seg_delete; [|apply Hframe; [|apply R]].
    + intros (x & E & Hx)%list_elem_of_fmap. apply (Hother k' x Hne Hx). rewrite <-E, fmap_app. apply elem_of_app. right. by left.
    + intros q Hq%final_in (x & E & Hx)%list_elem_of_fmap. apply (Hother k' x Hne Hx). rewrite <-E, fmap_app. apply elem_of_app. by left.
  - intros x Hx. apply (rep_hash _ _ R). rewrite EL. apply elem_of_app. apply elem_of_app in Hx as [?|?]; [by left|right; by right].
  - intros x k' x' Hne Hx Hx' E. apply (Hother k' x' Hne Hx'). rewrite <-E. apply list_elem_of_fmap. exists x. split; [done|].
    apply elem_of_app. apply elem_of_app in Hx as [?|?]; [by left|right; by right].
Qed.

(** The walk goes over the entries with other magics. *)
Lemma remove_walk_skip t m l2 : forall l1 fuel prev, seg (heap t) (l1 ++ l2) None -> (length (l1 ++ l2) <= fuel)%nat ->
  (forall x, x ∈ l1 -> x.1.2 <> m) -> exists fuel', (length l2 <= fuel')%nat /\
  remove_walk fuel t prev (first (l1 ++ l2)) m =
  remove_walk fuel' t (match final l1 with Some q => Some q | None => prev end) (first l2) m.
Proof.
  induction l1 as [|[[p m'] f] l1 IH]; intros fuel prev Hs Hf Hm.
  - exists fuel. done.
  - simpl in Hs, Hf. destruct Hs as [Hp Hs]. destruct fuel as [|fuel]; [lia|].
    destruct (IH fuel (Some p) Hs) as (fuel' & Hf' & E); [lia|intros x Hx; apply Hm; by right|].
    exists fuel'. split; [done|]. change (first (((p, m', f) :: l1) ++ l2)) with (Some p). cbn [remove_walk].
    rewrite Hp. cbn [mbind option_bind magic Auth.next]. destruct (Z.eqb_spec m' m) as [->|_]; [destruct (Hm (p, m, f)); [by left|done]|].
    assert ((match first (l1 ++ l2) with Some q => Some q | None => None end) = first (l1 ++ l2)) as -> by by destruct (first (l1 ++ l2)).
    rewrite E. f_equal. destruct l1 as [|x l1 _] using rev_ind; [done|].
    change ((p, m', f) :: l1 ++ [x]) with (((p, m', f) :: l1) ++ [x]). destruct x as [[? ?] ?]. by rewrite !final_snoc.
Qed.

Lemma drop_split l m : match lookup_magic l m with
  | None => drop_magic l m = l /\ forall x, x ∈ l -> x.1.2 <> m
  | Some f => exists l1 l2 p, l = l1 ++ (p, m, f) :: l2 /\ drop_magic l m = l1 ++ l2 /\ (forall x, x ∈ l1 -> x.1.2 <> m)
  end.
Proof.
  induction l as [|[[p m'] f] l IH]; simpl; [split; [done|by intros x ?%elem_of_nil]|].
  destruct (Z.eqb_spec m' m) as [->|Hne].
  - exists [], l, p. split; [done|]. split; [done|]. by intros x ?%elem_of_nil.
  - destruct (lookup_magic l m) as [f'|].
    + destruct IH as (l1 & l2 & p' & -> & -> & Hl). exists ((p, m', f) :: l1), l2, p'. split; [done|]. split; [done|].
      by intros x [->|Hx]%elem_of_cons; [|apply Hl].
    + destruct IH as [-> Hl]. split; [done|]. by intros x [->|Hx]%elem_of_cons; [|apply Hl].
Qed.

Lemma remove_run t L m : represents t L ->
  exists ret t', drm_remove_magic t m = Some (ret, t') /\
    represents t' (update L (key m) (drop_magic (L (key m)) m)) /\
    (forall q, is_Some (heap t' !! q) -> is_Some (heap t !! q)) /\
    match lookup_magic (L (key m)) m with None => ret = - EINVAL /\ t' = t | Some _ => ret = 0 end.
Proof.
  intros R. pose proof (rep_seg _ _ R (key m)) as Hs. pose proof (rep_nodup _ _ R (key m)) as Hnd.
  pose proof (seg_length _ _ _ Hs Hnd) as Hlen. unfold drm_remove_magic.
  rewrite (bucket_run t L m R). cbn [mbind option_bind head]. pose proof (drop_split (L (key m)) m) as Hsp.
  destruct (lookup_magic (L (key m)) m) as [f|].
  - destruct Hsp as (l1 & l2 & p & EL & -> & Hl1). rewrite EL in Hs, Hlen.
    destruct (remove_walk_skip t m ((p, m, f) :: l2) l1 (size (heap t)) None Hs Hlen Hl1) as (fuel' & Hf & E).
    rewrite <-EL in E. rewrite E. destruct fuel' as [|fuel']; [simpl in Hf; lia|].
    apply seg_app in Hs as [_ [Hp _]]. change (first ((p, m, f) :: l2)) with (Some p). cbn [remove_walk].
    assert (heap t !! p = Some (mk_entry m f (first l2))) as -> by (rewrite Hp; by destruct (first l2)).
    cbn [mbind option_bind magic]. rewrite Z.eqb_refl.
    destruct (unlink_run t L l1 l2 p m f R EL) as (t' & Hu & R' & Hdom).
    assert ((match final l1 with Some q => Some q | None => None end) = final l1) as -> by by destruct (final l1).
    rewrite Hu. exists 0, t'. split; [done|]. split; [done|]. split; [|done]. intros q Hq. by apply Hdom.
  - destruct Hsp as [-> Hl1]. assert (L (key m) ++ [] = L (key m)) as Eapp by apply app_nil_r.
    destruct (remove_walk_skip t m [] (L (key m)) (size (heap t)) None) as (fuel' & Hf & E); [by rewrite Eapp|by rewrite Eapp|done|].
    rewrite Eapp in E. rewrite E. exists (- EINVAL), t. split; [by destruct fuel'|].
    assert (forall k, update L (key m) (L (key m)) k = L k) as Hext.
    { intros k. unfold update. case_decide as Hk; [by rewrite Hk|done]. }
    split; [by apply (represents_ext t L)|done].
Qed.

(** C26: The lists of magics: on tables that represent lists, [drm_find_file]
    finds the first entry with the magic, [drm_add_magic] appends an entry to
    the list of the magic's hash and [drm_remove_magic] deletes the first entry
    with the magic or reports that there is none; no other list changes, and the
    head and tail pointers stay right. *)
Theorem magic_lists_refine t L : represents t L ->
  (forall m, drm_find_file t m = Some (lookup_magic (L (key m)) m)) /\
  (forall f m p, heap t !! p = None -> exists t', drm_add_magic t f m (Some p) = Some (0, t') /\
     represents t' (update L (key m) (L (key m) ++ [(p, m, f)]))) /\
  (forall f m, drm_add_magic t f m None = Some (- ENOMEM, t)) /\
  (forall m, exists ret t', drm_remove_magic t m = Some (ret, t') /\
     represents t' (update L (key m) (drop_magic (L (key m)) m)) /\
     (ret = 0 <-> is_Some (lookup_magic (L (key m)) m)) /\ (ret <> 0 -> ret = - EINVAL /\ t' = t)).
Proof.
  intros R. split; [intros m; by apply find_run|]. split; [|split].
  - intros f m p Hp. destruct (add_run t L f m p R Hp) as (t' & ? & ? & _). by exists t'.
  - done.
  - intros m. destruct (remove_run t L m R) as (ret & t' & Hr & R' & _ & Hm). exists ret, t'.
    split; [done|]. split; [done|]. destruct (lookup_magic (L (key m)) m).
    + subst ret. split; [|done]. by split.
    + destruct Hm as [-> ->]. split; [|done]. split; [done|by intros []].
Qed.

(** ** Getting a magic *)

(** The magic tried in pass [k] of the loop. *)
Definition nth_magic (sq : Z) (k : nat) : Z := u32 (sq + 1 + Z.of_nat k).

Lemma nth_magic_inj sq i j : Z.of_nat i < 2 ^ 32 -> Z.of_nat j < 2 ^ 32 ->
  nth_magic sq i = nth_magic sq j -> i = j.
Proof.
  intros Hi Hj E. unfold nth_magic, u32 in E.
  pose proof (Z.div_mod (sq + 1 + Z.of_nat i) (2 ^ 32)). pose proof (Z.div_mod (sq + 1 + Z.of_nat j) (2 ^ 32)). lia.
Qed.

Lemma lookup_magic_in l m f : lookup_magic l m = Some f -> exists x, x ∈ l /\ x.1.2 = m.
Proof.
  induction l as [|[[p m'] f'] l IH]; [done|]. simpl. destruct (Z.eqb_spec m' m) as [->|_].
  - intros _. exists (p, m, f'). split; [by left|done].
  - intros Hl. destruct (IH Hl) as (x & Hx & E). exists x. split; [by right|done].
Qed.

Lemma seg_lookup h l nx x : seg h l nx -> x ∈ l -> exists e, h !! x.1.1 = Some e /\ magic e = x.1.2.
Proof.
  induction l as [|[[q m] f] l IH]; simpl; [by intros _ ?%elem_of_nil|].
  intros [Hq Hs] [->|Hx]%elem_of_cons; [by eexists|by apply IH].
Qed.

Lemma size_list_to_set_le (l : list Z) : (size (list_to_set l : gset Z) <= length l)%nat.
Proof.
  induction l as [|x l IH]; [done|]. simpl. destruct (decide (x ∈ (list_to_set l : gset Z))) as [Hx|Hx].
  - replace ({[x]} ∪ list_to_set l : gset Z) with (list_to_set l : gset Z) by set_solver. lia.
  - rewrite size_union by set_solver. rewrite size_singleton. lia.
Qed.

(** As many different magics cannot all be waiting as there is memory for. *)
Lemma some_magic_free t L sq : represents t L -> Z.of_nat (S (size (heap t))) < 2 ^ 32 ->
  exists k, (k <= size (heap t))%nat /\ lookup_magic (L (key (nth_magic sq k))) (nth_magic sq k) = None /\
    forall i, (i < k)%nat -> is_Some (lookup_magic (L (key (nth_magic sq i))) (nth_magic sq i)).
Proof.
  intros R Hsz. set (P := fun k => lookup_magic (L (key (nth_magic sq k))) (nth_magic sq k)).
  assert (forall n, (exists k, (k < n)%nat /\ P k = None /\ forall i, (i < k)%nat -> is_Some (P i)) \/
    (forall i, (i < n)%nat -> is_Some (P i))) as Hor.
  { induction n as [|n [(k & Hk & ? & ?)|Hall]]; [right; lia|left; exists k; split; [lia|done]|].
    destruct (P n) as [f|] eqn:E; [right|left; exists n; split; [lia|done]].
    intros i Hi. destruct (decide (i = n)) as [->|]; [by rewrite E|apply Hall; lia]. }
  destruct (Hor (S (size (heap t)))) as [(k & Hk & Hn & Hall)|Hall]; [exists k; split; [lia|done]|]. exfalso.
  set (ms := list_to_set (C := gset Z) (nth_magic sq <$> seq 0 (S (size (heap t))))).
  assert (ms ⊆ list_to_set ((fun kv => magic kv.2) <$> map_to_list (heap t))) as Hsub.
  { intros m. unfold ms. rewrite !elem_of_list_to_set. intros (k & -> & Hk)%list_elem_of_fmap.
    apply elem_of_seq in Hk. destruct (Hall k) as [f Hf]; [lia|]. unfold P in Hf.
    apply lookup_magic_in in Hf as (x & Hx & E). destruct (seg_lookup _ _ _ x (rep_seg _ _ R _) Hx) as (e & He & Hm).
    apply list_elem_of_fmap. exists (x.1.1, e). split; [simpl; by rewrite Hm, E|]. by apply elem_of_map_to_list. }
  apply subseteq_size in Hsub. unfold ms in Hsub. rewrite size_list_to_set in Hsub.
  - rewrite length_fmap, length_seq in Hsub.
    pose proof (size_list_to_set_le ((fun kv => magic kv.2) <$> map_to_list (heap t))) as Hle.
    rewrite length_fmap, length_map_to_list in Hle. lia.
  - apply NoDup_fmap_2_strong; [|apply NoDup_seq]. intros i j Hi%elem_of_seq Hj%elem_of_seq.
    apply nth_magic_inj; lia.
Qed.

Lemma pass_run file entry s : is_u32 (sequence s) -> forall fuel,
  drm_getmagic (2 + fuel) file entry AtRead s =
  drm_getmagic fuel file entry (AtFind (nth_magic (sequence s) 0))
    (mk_auth (nth_magic (sequence s) 0) (table s) (file_magic s) (authenticated s)).
Proof.
  intros Hs fuel. unfold is_u32 in Hs. cbn [Nat.add drm_getmagic getmagic_step mbind option_bind].
  assert (u32 (s32 (sequence s)) = sequence s) as E1.
  { unfold u32, s32. rewrite Zminus_mod, Z.mod_mod, <-Zminus_mod by lia.
    replace (sequence s + 2 ^ 31 - 2 ^ 31) with (sequence s) by lia. by apply Z.mod_small. }
  assert (u32 (s32 (sequence s) + 1) = nth_magic (sequence s) 0) as ->.
  { unfold nth_magic. rewrite <-E1 at 2. unfold u32. rewrite Z.add_0_r, Zplus_mod_idemp_l. done. }
  by rewrite E1, Z.eqb_refl.
Qed.

Lemma next_magic sq k : nth_magic (nth_magic sq 0) k = nth_magic sq (S k).
Proof.
  unfold nth_magic, u32. rewrite <-Z.add_assoc, Zplus_mod_idemp_l. f_equal. lia.
Qed.

(** The loop leaves with the first magic that nobody waits for. *)
Lemma loop_run file entry L : forall k s fuel, represents (table s) L -> is_u32 (sequence s) ->
  lookup_magic (L (key (nth_magic (sequence s) k))) (nth_magic (sequence s) k) = None ->
  (forall i, (i < k)%nat -> is_Some (lookup_magic (L (key (nth_magic (sequence s) i))) (nth_magic (sequence s) i))) ->
  drm_getmagic (3 * k + 3 + fuel) file entry AtRead s =
  drm_getmagic fuel file entry (AtAdd (nth_magic (sequence s) k))
    (mk_auth (nth_magic (sequence s) k) (table s) (<[file := nth_magic (sequence s) k]> (file_magic s)) (authenticated s)).
Proof.
  induction k as [|k IH]; intros s fuel R Hs Hn Hall.
  - rewrite Nat.mul_0_r. change (0 + 3 + fuel)%nat with (2 + S fuel)%nat. rewrite pass_run by done.
    cbn [drm_getmagic getmagic_step table]. rewrite (find_run _ L), Hn by done. done.
  - replace (3 * S k + 3 + fuel)%nat with (2 + S (3 * k + 3 + fuel))%nat by lia. rewrite pass_run by done.
    destruct (Hall 0%nat) as [f Hf]; [lia|].
    cbn [drm_getmagic getmagic_step table]. rewrite (find_run _ L), Hf by done. cbn [mbind option_bind].
    rewrite (IH (mk_auth (nth_magic (sequence s) 0) (table s) (file_magic s) (authenticated s))); simpl.
    + by rewrite next_magic.
    + done.
    + apply u32_range.
    + by rewrite next_magic.
    + intros i Hi. rewrite next_magic. apply Hall. lia.
Qed.

(** When callers do not run at the same time, [drm_getmagic] terminates for
    a file without a magic and gives it one that no file waits with; presenting
    that magic then authenticates this file and no other, once: the magic is used
    up. *)
Theorem getmagic_then_auth s L file p fuel : represents (table s) L -> is_u32 (sequence s) ->
  default 0 (file_magic s !! file) = 0 -> heap (table s) !! p = None ->
  Z.of_nat (S (size (heap (table s)))) < 2 ^ 32 -> (3 * size (heap (table s)) + 6 <= fuel)%nat ->
  exists m s', drm_getmagic fuel file (Some p) AtStart s = Some (m, s') /\
    drm_find_file (table s) m = Some None /\ file_magic s' = <[file := m]> (file_magic s) /\
    authenticated s' = authenticated s /\
    (forall m', m' <> m -> drm_find_file (table s') m' = drm_find_file (table s) m') /\
    exists s2, drm_authmagic m s' = Some (0, s2) /\ authenticated s2 = authenticated s ∪ {[file]} /\
      drm_authmagic m s2 = Some (- EINVAL, s2) /\
      forall m', drm_find_file (table s2) m' = drm_find_file (table s) m'.
Proof.
  intros R Hs Hf Hp Hsz Hfuel.
  destruct (some_magic_free (table s) L (sequence s) R Hsz) as (k & Hk & Hn & Hall).
  set (m := nth_magic (sequence s) k) in *.
  destruct (add_run (table s) L file m p R Hp) as (t' & Hadd & R' & _).
  exists m, (mk_auth m t' (<[file := m]> (file_magic s)) (authenticated s)).
  assert (forall m', lookup_magic (update L (key m) (L (key m) ++ [(p, m, file)]) (key m')) m' =
    if decide (m' = m) then Some file else lookup_magic (L (key m')) m') as Hlk.
  { intros m'. assert (forall l, lookup_magic (l ++ [(p, m, file)]) m' =
      match lookup_magic l m' with Some f => Some f | None => if decide (m' = m) then Some file else None end) as Happ.
    { induction l as [|x l IH]; simpl.
      - case_decide as Hd; [by rewrite Hd, Z.eqb_refl|]. destruct (Z.eqb_spec m m'); [congruence|done].
      - destruct (x.1.2 =? m'); [done|apply IH]. }
    unfold update. destruct (decide (key m' = key m)) as [Hkey|Hkey].
    - rewrite Happ, <-Hkey. case_decide as Hd; [by rewrite Hd, Hn|]. by destruct (lookup_magic _ m').
    - case_decide as Hd; [by rewrite Hd in Hkey|done]. }
  split.
  { assert (exists fuel', fuel = S (3 * k + 3 + S (S fuel')))%nat as [fuel' ->] by (exists (fuel - 3 * k - 6)%nat; lia).
    cbn [drm_getmagic getmagic_step]. rewrite Hf. cbn [mbind option_bind negb Z.eqb].
    rewrite (loop_run file (Some p) L k s) by done. fold m. cbn [drm_getmagic getmagic_step table].
    by rewrite Hadd. }
  split; [by rewrite (find_run _ L), Hn|]. split; [done|]. split; [done|].
  split. { intros m' Hne. simpl. rewrite (find_run _ _ m' R'), (find_run _ L), Hlk by done. by rewrite decide_False. }
  destruct (remove_run t' _ m R') as (ret & t2 & Hrm & R2 & _ & _).
  pose proof (Hlk m) as Hm. rewrite decide_True in Hm by done.
  unfold drm_authmagic at 1. cbn [table]. rewrite (find_run t' _ m R'), Hm. cbn [mbind option_bind]. rewrite Hrm.
  cbn [mbind option_bind]. eexists. split; [done|]. split; [done|].
  assert (drop_magic (L (key m) ++ [(p, m, file)]) m = L (key m)) as Hdrop.
  { clear -Hn. induction (L (key m)) as [|x l IH]; simpl; [by rewrite Z.eqb_refl|]. simpl in Hn.
    destruct (x.1.2 =? m); [done|]. by rewrite IH. }
  assert (represents t2 L) as R2'.
  { refine (represents_ext t2 _ L _ R2). intros k'. unfold update at 1. case_decide as Hk'; [|by rewrite update_ne].
    by rewrite update_eq, Hdrop, Hk'. }
  split; [unfold drm_authmagic; cbn [table]; by rewrite (find_run t2 L), Hn|].
  intros m'. simpl. by rewrite !(find_run _ L).
Qed.

(** ** Two callers at once *)

Definition magics0 : magics := mk_magics (replicate 16 (mk_head None None)) ∅.
Definition auth0 : auth_state := mk_auth 0 magics0 ∅ ∅.
Definition callers : gmap fid getmagic_pc := <[1%positive := AtStart]> {[2%positive := AtStart]}.

(** Both read [sequence]; one compare and swap fails; both look the same magic up
    before either adds it. *)
Definition race : list (fid * option loc) :=
  let a := (1%positive, Some 10%positive) in let b := (2%positive, Some 20%positive) in
  [a; a; b; b; a; b; a; b; a; b].

(** Two files that ask at the same time can get the same magic.  The master
    then authenticates the file that was added first, whoever presented the
    magic; and when the other file is closed, its [drm_remove_magic] deletes the
    first file's entry, so that the magic leads to the closed file. *)
Theorem getmagic_race : exists pcs s m, run_callers race callers auth0 = Some (pcs, s) /\
  pcs !! 1%positive = Some (AtEnd m) /\ pcs !! 2%positive = Some (AtEnd m) /\ m <> 0 /\
  (exists s', drm_authmagic m s = Some (0, s') /\ authenticated s' = {[1%positive]}) /\
  (exists t, drm_remove_magic (table s) m = Some (0, t) /\ drm_find_file t m = Some (Some 2%positive)).
Proof.
  destruct (run_callers race callers auth0) as [[pcs s]|] eqn:E; [|by vm_compute in E].
  exists pcs, s, 1. split; [done|]. vm_compute in E. injection E as <- <-.
  split; [done|]. split; [done|]. split; [done|].
  split; eexists; (split; [vm_compute; reflexivity|by vm_compute]).
Qed.

(** ** At concrete states *)

Lemma magics0_represents : represents magics0 (fun _ => []).
Proof.
  split; try done.
  - intros k hd [-> _]%lookup_replicate. done.
  - intros k. constructor.
  - intros k1 k2 x1 x2 Hx. by apply elem_of_nil in Hx.
  - intros k x Hx. by apply elem_of_nil in Hx.
Qed.

Lemma magic_lists_refine_witness : drm_find_file magics0 5 = Some None.
Proof. destruct (magic_lists_refine magics0 _ magics0_represents) as [Hf _]. exact (Hf 5). Defined.

Lemma getmagic_then_auth_witness : exists m s',
  drm_getmagic 6 1%positive (Some 10%positive) AtStart auth0 = Some (m, s').
Proof.
  destruct (getmagic_then_auth auth0 _ 1%positive 10%positive 6 magics0_represents) as (m & s' & Hr & _).
  - unfold is_u32. simpl. lia.
  - reflexivity.
  - reflexivity.
  - by vm_compute.
  - vm_compute. lia.
  - exists m, s'. exact Hr.
Defined.
