(* ===== verification/Modes.v ===== *)
(** * Display modes (drm_modes.c)

    The mode record, the CVT and GTF generators, the rates and CRTC timings
    derived from a mode, equality, comparison and the checks over lists of modes.
    C [int] and [unsigned] arithmetic wraps at 32 bits; a division by zero is a
    fault. *)

From stdpp Require Import strings pretty.
From S2P Require Import Prelude.

Definition DRM_MODE_TYPE_BUILTIN : Z := 0x1.
Definition DRM_MODE_TYPE_CRTC_C : Z := 0x5.
Definition DRM_MODE_TYPE_PREFERRED : Z := 0x8.
Definition DRM_MODE_TYPE_DRIVER : Z := 0x40.
Definition DRM_MODE_FLAG_PHSYNC : Z := 0x1.
Definition DRM_MODE_FLAG_NHSYNC : Z := 0x2.
Definition DRM_MODE_FLAG_PVSYNC : Z := 0x4.
Definition DRM_MODE_FLAG_NVSYNC : Z := 0x8.
Definition DRM_MODE_FLAG_INTERLACE : Z := 0x10.
Definition DRM_MODE_FLAG_DBLSCAN : Z := 0x20.
Definition DRM_MODE_FLAG_DBLCLK : Z := 0x1000.
Definition CRTC_INTERLACE_HALVE_V : Z := 0x1.
Definition DRM_DISPLAY_MODE_LEN : nat := 32.

Inductive drm_mode_status :=
| MODE_OK | MODE_HSYNC | MODE_VSYNC | MODE_H_ILLEGAL | MODE_V_ILLEGAL | MODE_BAD_WIDTH | MODE_NOMODE
| MODE_NO_INTERLACE | MODE_NO_DBLESCAN | MODE_NO_VSCAN | MODE_MEM | MODE_VIRTUAL_X | MODE_VIRTUAL_Y
| MODE_MEM_VIRT | MODE_NOCLOCK | MODE_CLOCK_HIGH | MODE_CLOCK_LOW | MODE_CLOCK_RANGE | MODE_BAD_HVALUE
| MODE_BAD_VVALUE | MODE_BAD_VSCAN | MODE_HSYNC_NARROW | MODE_HSYNC_WIDE | MODE_HBLANK_NARROW
| MODE_HBLANK_WIDE | MODE_VSYNC_NARROW | MODE_VSYNC_WIDE | MODE_VBLANK_NARROW | MODE_VBLANK_WIDE
| MODE_PANEL | MODE_INTERLACE_WIDTH | MODE_ONE_WIDTH | MODE_ONE_HEIGHT | MODE_ONE_SIZE | MODE_NO_REDUCED
| MODE_UNVERIFIED | MODE_BAD | MODE_ERROR.

#[export] Instance drm_mode_status_eq_dec : EqDecision drm_mode_status.
Proof. solve_decision. Defined.

(** The timings given to the hardware. *)
Record crtc_timings := mk_crtc {
  crtc_hdisplay : Z; crtc_hblank_start : Z; crtc_hblank_end : Z; crtc_hsync_start : Z;
  crtc_hsync_end : Z; crtc_htotal : Z; crtc_hskew : Z; crtc_vdisplay : Z;
  crtc_vblank_start : Z; crtc_vblank_end : Z; crtc_vsync_start : Z; crtc_vsync_end : Z;
  crtc_vtotal : Z }.

Record drm_display_mode := mk_mode {
  name : string; status : drm_mode_status; type : Z; clock : Z;
  hdisplay : Z; hsync_start : Z; hsync_end : Z; htotal : Z; hskew : Z;
  vdisplay : Z; vsync_start : Z; vsync_end : Z; vtotal : Z; vscan : Z; flags : Z;
  width_mm : Z; height_mm : Z; crtc : crtc_timings; vrefresh : Z; hsync : Z }.

Definition crtc0 : crtc_timings := mk_crtc 0 0 0 0 0 0 0 0 0 0 0 0 0.

(** The macro [DRM_MODE]; the fields it does not name are zero. *)
Definition DRM_MODE (nm : string) (t c hd hss hse ht hsk vd vss vse vt vs f : Z) : drm_display_mode :=
  mk_mode nm MODE_OK t c hd hss hse ht hsk vd vss vse vt vs f 0 0 crtc0 0 0.

Definition set_status (st : drm_mode_status) (m : drm_display_mode) : drm_display_mode :=
  mk_mode (name m) st (type m) (clock m) (hdisplay m) (hsync_start m) (hsync_end m) (htotal m) (hskew m)
    (vdisplay m) (vsync_start m) (vsync_end m) (vtotal m) (vscan m) (flags m) (width_mm m) (height_mm m)
    (crtc m) (vrefresh m) (hsync m).
Definition set_type (t : Z) (m : drm_display_mode) : drm_display_mode :=
  mk_mode (name m) (status m) t (clock m) (hdisplay m) (hsync_start m) (hsync_end m) (htotal m) (hskew m)
    (vdisplay m) (vsync_start m) (vsync_end m) (vtotal m) (vscan m) (flags m) (width_mm m) (height_mm m)
    (crtc m) (vrefresh m) (hsync m).
Definition set_crtc (c : crtc_timings) (m : drm_display_mode) : drm_display_mode :=
  mk_mode (name m) (status m) (type m) (clock m) (hdisplay m) (hsync_start m) (hsync_end m) (htotal m) (hskew m)
    (vdisplay m) (vsync_start m) (vsync_end m) (vtotal m) (vscan m) (flags m) (width_mm m) (height_mm m)
    c (vrefresh m) (hsync m).

(** The initialiser [.vrefresh = r]. *)
Definition with_vrefresh (r : Z) (m : drm_display_mode) : drm_display_mode :=
  mk_mode (name m) (status m) (type m) (clock m) (hdisplay m) (hsync_start m) (hsync_end m) (htotal m) (hskew m)
    (vdisplay m) (vsync_start m) (vsync_end m) (vtotal m) (vscan m) (flags m) (width_mm m) (height_mm m)
    (crtc m) r (hsync m).

Definition has_flag (f m : Z) : bool := negb (Z.land f m =? 0).

(** [snprintf(name, 32, "%dx%d%s", ...)]. *)
Definition mode_name (hd vd f : Z) : string :=
  String.substring 0 (DRM_DISPLAY_MODE_LEN - 1)
    (pretty hd +:+ "x" +:+ pretty vd +:+ (if has_flag f DRM_MODE_FLAG_INTERLACE then "i" else EmptyString)).

Definition drm_mode_set_name (m : drm_display_mode) : drm_display_mode :=
  mk_mode (mode_name (hdisplay m) (vdisplay m) (flags m)) (status m) (type m) (clock m) (hdisplay m)
    (hsync_start m) (hsync_end m) (htotal m) (hskew m) (vdisplay m) (vsync_start m) (vsync_end m) (vtotal m)
    (vscan m) (flags m) (width_mm m) (height_mm m) (crtc m) (vrefresh m) (hsync m).

(** Unsigned and signed division. *)
Definition udiv (a b : Z) : option Z := if b =? 0 then None else Some (a / b).
Definition sdiv (a b : Z) : option Z := if b =? 0 then None else Some (s32 (Z.quot a b)).

(** ** CVT *)

Definition HV_FACTOR : Z := 1000.
Definition CVT_MARGIN_PERCENTAGE : Z := 18.
Definition CVT_H_GRANULARITY : Z := 8.
Definition CVT_MIN_V_PORCH : Z := 3.
Definition CVT_MIN_V_BPORCH : Z := 6.
Definition CVT_CLOCK_STEP : Z := 250.
Definition CVT_MIN_VSYNC_BP : Z := 550.
Definition CVT_HSYNC_PERCENTAGE : Z := 8.
Definition CVT_M_PRIME : Z := 600 * 128 / 256.
Definition CVT_C_PRIME : Z := (40 - 20) * 128 / 256 + 20.
Definition CVT_RB_MIN_VBLANK : Z := 460.
Definition CVT_RB_H_SYNC : Z := 32.
Definition CVT_RB_H_BLANK : Z := 160.
Definition CVT_RB_VFPORCH : Z := 3.

(** The width of the vertical sync from the aspect ratio. *)
Definition cvt_vsync (hd vd : Z) : Z :=
  if (Z.rem vd 3 =? 0) && (Z.quot (s32 (vd * 4)) 3 =? hd) then 4
  else if (Z.rem vd 9 =? 0) && (Z.quot (s32 (vd * 16)) 9 =? hd) then 5
  else if (Z.rem vd 10 =? 0) && (Z.quot (s32 (vd * 16)) 10 =? hd) then 6
  else if (Z.rem vd 4 =? 0) && (Z.quot (s32 (vd * 5)) 4 =? hd) then 7
  else if (Z.rem vd 9 =? 0) && (Z.quot (s32 (vd * 15)) 9 =? hd) then 7
  else 10.

(** The timings a branch computes: hperiod, vtotal, htotal, hsync_end,
    hsync_start, vsync_start. *)
Definition cvt_timings : Type := Z * Z * Z * Z * Z * Z.

(** The branch without reduced blanking. *)
Definition cvt_normal (hd vd vdisplay_rnd vmargin interlace vsync vfieldrate : Z) : option cvt_timings :=
  let tmp1 := s32 (u32 (HV_FACTOR * 1000000 - CVT_MIN_VSYNC_BP * HV_FACTOR * vfieldrate)) in
  let tmp2 := s32 ((vdisplay_rnd + 2 * vmargin + CVT_MIN_V_PORCH) * 2 + interlace) in
  hperiod ← udiv (u32 (s32 (tmp1 * 2))) (u32 (tmp2 * vfieldrate));
  t ← udiv (CVT_MIN_VSYNC_BP * HV_FACTOR) hperiod;
  let tmp1 := s32 (u32 (t + 1)) in
  let vsyncandback_porch := if tmp1 <? vsync + CVT_MIN_V_PORCH then vsync + CVT_MIN_V_PORCH else tmp1 in
  let vtotal := s32 (vdisplay_rnd + 2 * vmargin + vsyncandback_porch + CVT_MIN_V_PORCH) in
  let p := u32 (CVT_C_PRIME * HV_FACTOR - u32 (CVT_M_PRIME * hperiod) / 1000) in
  let hblank_percentage := if p <? 20 * HV_FACTOR then 20 * HV_FACTOR else p in
  b ← udiv (u32 (hd * hblank_percentage)) (u32 (100 * HV_FACTOR - hblank_percentage));
  let hblank := s32 b in
  let hblank := s32 (hblank - Z.rem hblank (2 * CVT_H_GRANULARITY)) in
  let htotal := s32 (hd + hblank) in
  let hsync_end := s32 (hd + Z.quot hblank 2) in
  let hsync_start := s32 (hsync_end - Z.quot (s32 (htotal * CVT_HSYNC_PERCENTAGE)) 100) in
  let hsync_start := s32 (hsync_start + (CVT_H_GRANULARITY - Z.rem hsync_start CVT_H_GRANULARITY)) in
  Some (hperiod, vtotal, htotal, hsync_end, hsync_start, s32 (vd + CVT_MIN_V_PORCH)).

(** The branch with reduced blanking. *)
Definition cvt_reduced (hd vd vdisplay_rnd vmargin vsync vfieldrate : Z) : option cvt_timings :=
  let tmp1 := s32 (u32 (HV_FACTOR * 1000000 - CVT_RB_MIN_VBLANK * HV_FACTOR * vfieldrate)) in
  let tmp2 := s32 (vdisplay_rnd + 2 * vmargin) in
  hperiod ← udiv (u32 tmp1) (u32 (tmp2 * vfieldrate));
  t ← udiv (CVT_RB_MIN_VBLANK * HV_FACTOR) hperiod;
  let vbilines := s32 (u32 (t + 1)) in
  let vbilines := if vbilines <? CVT_RB_VFPORCH + vsync + CVT_MIN_V_BPORCH
                  then CVT_RB_VFPORCH + vsync + CVT_MIN_V_BPORCH else vbilines in
  let vtotal := s32 (vdisplay_rnd + 2 * vmargin + vbilines) in
  let htotal := s32 (hd + CVT_RB_H_BLANK) in
  let hsync_end := s32 (hd + Z.quot CVT_RB_H_BLANK 2) in
  let hsync_start := s32 (hsync_end - CVT_RB_H_SYNC) in
  Some (hperiod, vtotal, htotal, hsync_end, hsync_start, s32 (vd + CVT_RB_VFPORCH)).

(** [alloc] is whether drm_mode_create gets a mode; the result is NULL otherwise.  The
    products of [htotal] are products of ints, which are converted to unsigned for the
    division; where they leave the range of an int they are taken to wrap, which C leaves
    undefined ([cvt_product_overflows] in ModesBounds.v). *)
Definition drm_cvt_mode (alloc : bool) (hd0 vd0 refresh : Z) (reduced interlaced margins : bool)
    : option (option drm_display_mode) :=
  if negb alloc then Some None else
  let refresh := if refresh =? 0 then 60 else refresh in
  let vfieldrate := u32 (if interlaced then s32 (refresh * 2) else refresh) in
  let hdisplay_rnd := s32 (hd0 - Z.rem hd0 CVT_H_GRANULARITY) in
  let hmargin := if margins then Z.quot (s32 (hdisplay_rnd * CVT_MARGIN_PERCENTAGE)) 1000 else 0 in
  let hmargin := s32 (hmargin - Z.rem hmargin CVT_H_GRANULARITY) in
  let hd := s32 (hdisplay_rnd + 2 * hmargin) in
  let vdisplay_rnd := if interlaced then Z.quot vd0 2 else vd0 in
  let vmargin := if margins then Z.quot (s32 (vdisplay_rnd * CVT_MARGIN_PERCENTAGE)) 1000 else 0 in
  let vd := s32 (vd0 + 2 * vmargin) in
  let interlace := if interlaced then 1 else 0 in
  let vsync := cvt_vsync hd0 vd0 in
  '(hperiod, vt, ht, hse, hss, vss) ←
    (if negb reduced then cvt_normal hd vd vdisplay_rnd vmargin interlace vsync vfieldrate
     else cvt_reduced hd vd vdisplay_rnd vmargin vsync vfieldrate);
  c ← udiv (u32 (s32 (s32 (ht * HV_FACTOR) * 1000))) hperiod;
  let c := s32 c in
  let c := s32 (c - Z.rem c CVT_CLOCK_STEP) in
  let vt := if interlaced then s32 (vt * 2) else vt in
  let fl := if interlaced then DRM_MODE_FLAG_INTERLACE else 0 in
  let nm := mode_name hd vd fl in
  let fl := Z.lor fl (if reduced then Z.lor DRM_MODE_FLAG_PHSYNC DRM_MODE_FLAG_NVSYNC
                      else Z.lor DRM_MODE_FLAG_PVSYNC DRM_MODE_FLAG_NHSYNC) in
  Some (Some (DRM_MODE nm 0 c hd hss hse ht 0 vd vss (s32 (vss + vsync)) vt 0 fl)).

(** ** GTF *)

Definition GTF_MARGIN_PERCENTAGE : Z := 18.
Definition GTF_CELL_GRAN : Z := 8.
Definition GTF_MIN_V_PORCH : Z := 1.
Definition V_SYNC_RQD : Z := 3.
Definition H_SYNC_PERCENT : Z := 8.
Definition MIN_VSYNC_PLUS_BP : Z := 550.

Definition gtf_c_prime (c2 k j2 : Z) : Z :=
  Z.quot (s32 (Z.quot (s32 (s32 (c2 - j2) * k)) 256 + j2)) 2.
Definition gtf_m_prime (m k : Z) : Z := Z.quot (s32 (k * m)) 256.

(** The estimated line frequency and the lines of a field. *)
Definition gtf_vertical (vdisplay_rnd vfieldrate top_margin interlace : Z) : option (Z * Z) :=
  let tmp1 := u32 (1000000 - MIN_VSYNC_PLUS_BP * vfieldrate) / 500 in
  let tmp2 := u32 ((vdisplay_rnd + 2 * top_margin + GTF_MIN_V_PORCH) * 2 + interlace) in
  hfreq_est ← udiv (u32 (tmp2 * 1000 * vfieldrate)) tmp1;
  let vsync_plus_bp := s32 (u32 (MIN_VSYNC_PLUS_BP * hfreq_est) / 1000) in
  let vsync_plus_bp := Z.quot (s32 (vsync_plus_bp + 500)) 1000 in
  let vtotal_lines := u32 (vdisplay_rnd + 2 * top_margin + vsync_plus_bp + GTF_MIN_V_PORCH) in
  _ ← udiv hfreq_est vtotal_lines;
  _ ← udiv 1000000 (u32 (vfieldrate * vtotal_lines));
  Some (hfreq_est, vtotal_lines).

(** The blanking pixels, the pixels of a line, the pixel frequency and the
    horizontal sync. *)
Definition gtf_horizontal (active hfreq_est cp mp : Z) : option (Z * Z * Z * Z) :=
  q ← udiv (u32 (mp * 1000000)) hfreq_est;
  let ideal_duty_cycle := u32 (cp * 1000 - q) in
  b ← udiv (u32 (active * ideal_duty_cycle)) (u32 (100000 - ideal_duty_cycle));
  let hblank := u32 (b + GTF_CELL_GRAN) / (2 * GTF_CELL_GRAN) in
  let hblank := u32 (hblank * 2 * GTF_CELL_GRAN) in
  let total_pixels := u32 (active + hblank) in
  let pixel_freq := u32 (total_pixels * hfreq_est) / 1000 in
  let hs := s32 (u32 (H_SYNC_PERCENT * total_pixels) / 100) in
  let hs := Z.quot (s32 (hs + Z.quot GTF_CELL_GRAN 2)) GTF_CELL_GRAN in
  Some (hblank, total_pixels, pixel_freq, s32 (hs * GTF_CELL_GRAN)).

Definition drm_gtf_mode_complex (alloc : bool) (hd0 vd0 refresh : Z) (interlaced : bool) (margins : Z)
    (gtf_m gtf_2c gtf_k gtf_2j : Z) : option (option drm_display_mode) :=
  if negb alloc then Some None else
  let hdisplay_rnd := u32 (Z.quot (s32 (hd0 + Z.quot GTF_CELL_GRAN 2)) GTF_CELL_GRAN) in
  let hdisplay_rnd := u32 (hdisplay_rnd * GTF_CELL_GRAN) in
  let vdisplay_rnd := u32 (if interlaced then Z.quot vd0 2 else vd0) in
  let vfieldrate_rqd := u32 (if interlaced then s32 (refresh * 2) else refresh) in
  let top_margin := if negb (margins =? 0)
                    then s32 (u32 (vdisplay_rnd * GTF_MARGIN_PERCENTAGE + 500) / 1000) else 0 in
  let interlace := if interlaced then 1 else 0 in
  '(hfreq_est, vtotal_lines) ← gtf_vertical vdisplay_rnd vfieldrate_rqd top_margin interlace;
  let left_margin := if negb (margins =? 0)
                     then s32 (u32 (hdisplay_rnd * GTF_MARGIN_PERCENTAGE + 500) / 1000) else 0 in
  let total_active_pixels := u32 (hdisplay_rnd + left_margin + left_margin) in
  '(hblank, total_pixels, pixel_freq, hs) ←
    gtf_horizontal total_active_pixels hfreq_est (gtf_c_prime gtf_2c gtf_k gtf_2j) (gtf_m_prime gtf_m gtf_k);
  let hfront_porch := s32 (hblank / 2 - hs) in
  let hd := s32 hdisplay_rnd in
  let hss := s32 (hdisplay_rnd + hfront_porch) in
  let vd := s32 vdisplay_rnd in
  let vss := s32 (vdisplay_rnd + GTF_MIN_V_PORCH) in
  let vt := if interlaced then s32 (s32 vtotal_lines * 2) else s32 vtotal_lines in
  let fl := if interlaced then DRM_MODE_FLAG_INTERLACE else 0 in
  let nm := mode_name hd vd fl in
  let fl := if (gtf_m =? 600) && (gtf_2c =? 80) && (gtf_k =? 128) && (gtf_2j =? 40)
            then Z.lor DRM_MODE_FLAG_NHSYNC DRM_MODE_FLAG_PVSYNC
            else Z.lor DRM_MODE_FLAG_PHSYNC DRM_MODE_FLAG_NVSYNC in
  Some (Some (DRM_MODE nm 0 (s32 pixel_freq) hd hss (s32 (hss + hs)) (s32 total_pixels) 0
    vd vss (s32 (vss + V_SYNC_RQD)) vt 0 fl)).

Definition drm_gtf_mode (alloc : bool) (hd0 vd0 refresh : Z) (lace : bool) (margins : Z)
    : option (option drm_display_mode) :=
  drm_gtf_mode_complex alloc hd0 vd0 refresh lace margins 600 (40 * 2) 128 (20 * 2).

(** [struct drm_cmdline_mode] as far as it is used. *)
Record drm_cmdline_mode := mk_cmdline {
  refresh_specified : bool; xres : Z; yres : Z; refresh : Z; rb : bool; interlace : bool; cvt : bool;
  margins : bool }.

(** ** Rates and CRTC timings *)

Definition drm_mode_width (m : drm_display_mode) : Z := hdisplay m.
Definition drm_mode_height (m : drm_display_mode) : Z := vdisplay m.

Definition drm_mode_hsync (m : drm_display_mode) : option Z :=
  if negb (hsync m =? 0) then Some (hsync m) else
  if htotal m <? 0 then Some 0 else
  calc_val ← sdiv (s32 (clock m * 1000)) (htotal m);
  Some (s32 (u32 (calc_val + 500) / 1000)).

Definition drm_mode_vrefresh (m : drm_display_mode) : Z :=
  if vrefresh m >? 0 then vrefresh m
  else if (htotal m >? 0) && (vtotal m >? 0) then
    let calc_val := u32 (clock m * 1000) / htotal m in
    let refresh := s32 (u32 (calc_val + Z.quot (vtotal m) 2) / vtotal m) in
    let refresh := if has_flag (flags m) DRM_MODE_FLAG_INTERLACE then s32 (refresh * 2) else refresh in
    let refresh := if has_flag (flags m) DRM_MODE_FLAG_DBLSCAN then Z.quot refresh 2 else refresh in
    if vscan m >? 1 then Z.quot refresh (vscan m) else refresh
  else 0.

(** Scale the vertical CRTC timings. *)
Definition map_vertical (f : Z -> Z) (c : crtc_timings) : crtc_timings :=
  mk_crtc (crtc_hdisplay c) (crtc_hblank_start c) (crtc_hblank_end c) (crtc_hsync_start c) (crtc_hsync_end c)
    (crtc_htotal c) (crtc_hskew c) (f (crtc_vdisplay c)) (crtc_vblank_start c) (crtc_vblank_end c)
    (f (crtc_vsync_start c)) (f (crtc_vsync_end c)) (f (crtc_vtotal c)).

Definition drm_mode_set_crtcinfo (p : drm_display_mode) (adjust_flags : Z) : drm_display_mode :=
  if Z.land (type p) DRM_MODE_TYPE_CRTC_C =? DRM_MODE_TYPE_BUILTIN then p else
  let c := mk_crtc (hdisplay p) 0 0 (hsync_start p) (hsync_end p) (htotal p) (hskew p)
             (vdisplay p) 0 0 (vsync_start p) (vsync_end p) (vtotal p) in
  let c := if has_flag (flags p) DRM_MODE_FLAG_INTERLACE && has_flag adjust_flags CRTC_INTERLACE_HALVE_V
           then map_vertical (fun v => Z.quot v 2) c else c in
  let c := if has_flag (flags p) DRM_MODE_FLAG_DBLSCAN then map_vertical (fun v => s32 (v * 2)) c else c in
  let c := if vscan p >? 1 then map_vertical (fun v => s32 (v * vscan p)) c else c in
  set_crtc (mk_crtc (crtc_hdisplay c) (Z.min (crtc_hsync_start c) (crtc_hdisplay c))
    (Z.max (crtc_hsync_end c) (crtc_htotal c)) (crtc_hsync_start c) (crtc_hsync_end c) (crtc_htotal c)
    (crtc_hskew c) (crtc_vdisplay c) (Z.min (crtc_vsync_start c) (crtc_vdisplay c))
    (Z.max (crtc_vsync_end c) (crtc_vtotal c)) (crtc_vsync_start c) (crtc_vsync_end c) (crtc_vtotal c)) p.

Definition drm_mode_create_from_cmdline_mode (alloc : bool) (cmd : drm_cmdline_mode)
    : option (option drm_display_mode) :=
  let r := if refresh_specified cmd then refresh cmd else 60 in
  mode ← (if cvt cmd then drm_cvt_mode alloc (xres cmd) (yres cmd) r (rb cmd) (interlace cmd) (margins cmd)
          else drm_gtf_mode alloc (xres cmd) (yres cmd) r (interlace cmd) (if margins cmd then 1 else 0));
  Some (option_map (fun m => drm_mode_set_crtcinfo m CRTC_INTERLACE_HALVE_V) mode).

(** ** Equality and comparison *)

Definition drm_mode_equal_no_clocks (mode1 mode2 : drm_display_mode) : bool :=
  (hdisplay mode1 =? hdisplay mode2) && (hsync_start mode1 =? hsync_start mode2) &&
  (hsync_end mode1 =? hsync_end mode2) && (htotal mode1 =? htotal mode2) && (hskew mode1 =? hskew mode2) &&
  (vdisplay mode1 =? vdisplay mode2) && (vsync_start mode1 =? vsync_start mode2) &&
  (vsync_end mode1 =? vsync_end mode2) && (vtotal mode1 =? vtotal mode2) && (vscan mode1 =? vscan mode2) &&
  (flags mode1 =? flags mode2).

(** The clock is an int that is converted to unsigned long. *)
Definition KHZ2PICOS (a : Z) : Z := 1000000000 / u64 a.

Definition drm_mode_equal (mode1 mode2 : drm_display_mode) : bool :=
  if negb (clock mode1 =? 0) && negb (clock mode2 =? 0) then
    if negb (KHZ2PICOS (clock mode1) =? KHZ2PICOS (clock mode2)) then false
    else drm_mode_equal_no_clocks mode1 mode2
  else if negb (clock mode1 =? clock mode2) then false
  else drm_mode_equal_no_clocks mode1 mode2.

Definition drm_mode_compare (a b : drm_display_mode) : Z :=
  let diff := (if has_flag (type b) DRM_MODE_TYPE_PREFERRED then 1 else 0) -
              (if has_flag (type a) DRM_MODE_TYPE_PREFERRED then 1 else 0) in
  if negb (diff =? 0) then diff else
  let diff := s32 (s32 (hdisplay b * vdisplay b) - s32 (hdisplay a * vdisplay a)) in
  if negb (diff =? 0) then diff else
  let diff := s32 (vrefresh b - vrefresh a) in
  if negb (diff =? 0) then diff else
  s32 (clock b - clock a).

(** ** Lists of modes *)

Definition drm_mode_list_concat (head new : list drm_display_mode) : list drm_display_mode :=
  new ++ head.

Definition validate_mode_size (maxX maxY maxPitch : Z) (m : drm_display_mode) : drm_display_mode :=
  let m := if (maxPitch >? 0) && (hdisplay m >? maxPitch) then set_status MODE_BAD_WIDTH m else m in
  let m := if (maxX >? 0) && (hdisplay m >? maxX) then set_status MODE_VIRTUAL_X m else m in
  if (maxY >? 0) && (vdisplay m >? maxY) then set_status MODE_VIRTUAL_Y m else m.

Definition drm_mode_validate_size (mode_list : list drm_display_mode) (maxX maxY maxPitch : Z)
    : list drm_display_mode :=
  map (validate_mode_size maxX maxY maxPitch) mode_list.

(** [ranges] are the arrays [min] and [max] together. *)
Definition drm_mode_validate_clocks (mode_list : list drm_display_mode) (ranges : list (Z * Z))
    : list drm_display_mode :=
  map (fun m => if existsb (fun r => (clock m >=? r.1) && (clock m <=? r.2)) ranges then m
                else set_status MODE_CLOCK_RANGE m) mode_list.

Definition drm_mode_prune_invalid (mode_list : list drm_display_mode) : list drm_display_mode :=
  List.filter (fun m => bool_decide (status m = MODE_OK)) mode_list.

(** The inner loop: the probed mode is merged into the first equal mode, if any. *)
Fixpoint merge_mode (pmode : drm_display_mode) (modes : list drm_display_mode)
    : option (list drm_display_mode) :=
  match modes with
  | [] => None
  | m :: modes =>
      if drm_mode_equal pmode m
      then Some (set_type (Z.lor (type m) (type pmode)) (set_status (status pmode) m) :: modes)
      else cons m <$> merge_mode pmode modes
  end.

(** The modes of the connector after the probed ones are moved there. *)
Fixpoint drm_mode_connector_list_update (probed modes : list drm_display_mode) : list drm_display_mode :=
  match probed with
  | [] => modes
  | pmode :: probed =>
      match merge_mode pmode modes with
      | Some modes => drm_mode_connector_list_update probed modes
      | None => drm_mode_connector_list_update probed (modes ++ [pmode])
      end
  end.
