(* ===== verification/ModesBounds.v ===== *)
(** * The CVT generator stays within its bounds

    For the sizes and rates of ordinary displays [drm_cvt_mode] divides by nothing that is
    zero and computes what the CVT formulas give in unbounded integers; the timings are in
    order.  One product leaves the range of an int on the way, from a total width of 2148
    on. *)

From S2P Require Import Prelude Modes.

(** ** Division *)

Lemma udiv_run a b lo hi : 0 < b -> lo * b <= a -> a < (hi + 1) * b ->
  exists q, udiv a b = Some q /\ lo <= q <= hi /\ q * b <= a < (q + 1) * b.
Proof.
  intros Hb Hlo Hhi. exists (a / b). unfold udiv. rewrite (proj2 (Z.eqb_neq b 0)) by lia.
  pose proof (Z.div_mod a b). pose proof (Z.mod_pos_bound a b Hb). split; [done|]. nia.
Qed.

Lemma udiv_div a b lo hi : 0 < b -> lo * b <= a -> a < (hi + 1) * b ->
  udiv a b = Some (a / b) /\ lo <= a / b <= hi /\ a / b * b <= a < (a / b + 1) * b.
Proof.
  intros Hb Hlo Hhi. destruct (udiv_run a b lo hi Hb Hlo Hhi) as (q & E & Hq). unfold udiv in *.
  rewrite (proj2 (Z.eqb_neq b 0)) in * by lia. injection E as <-. done.
Qed.

Lemma quot_run a b : 0 <= a -> 0 < b -> 0 <= Z.quot a b /\ Z.quot a b * b <= a < (Z.quot a b + 1) * b.
Proof.
  intros Ha Hb. rewrite Z.quot_div_nonneg by lia.
  pose proof (Z.div_mod a b). pose proof (Z.mod_pos_bound a b Hb). nia.
Qed.

Lemma rem_run a b : 0 <= a -> 0 < b -> 0 <= Z.rem a b < b /\ Z.rem a b <= a.
Proof.
  intros Ha Hb. rewrite Z.rem_mod_nonneg by lia. pose proof (Z.mod_pos_bound a b Hb).
  pose proof (Z.mod_le a b). lia.
Qed.

Lemma cvt_vsync_range hd vd : 4 <= cvt_vsync hd vd <= 10.
Proof. unfold cvt_vsync. repeat case_match; lia. Qed.

(** ** The formulas *)

(** The timings of the two variants of CVT in unbounded integers: the horizontal period in
    nanoseconds, the lines, the pixels of a line, the end and the start of the horizontal
    sync, the start of the vertical sync. *)
Definition ideal_normal (hd vd vsync r : Z) : cvt_timings :=
  let hperiod := (1000000000 - 550000 * r) * 2 / ((2 * vd + 6) * r) in
  let sync_bp := Z.max (550000 / hperiod + 1) (vsync + 3) in
  let blank_pct := Z.max 20000 (30000 - 300 * hperiod / 1000) in
  let b := hd * blank_pct / (100000 - blank_pct) in
  let hblank := b - b mod 16 in
  let htotal := hd + hblank in
  let hsync_end := hd + hblank / 2 in
  let s := hsync_end - htotal * 8 / 100 in
  (hperiod, vd + sync_bp + 3, htotal, hsync_end, s + (8 - s mod 8), vd + 3).

Definition ideal_reduced (hd vd vsync r : Z) : cvt_timings :=
  let hperiod := (1000000000 - 460000 * r) / (vd * r) in
  let vbi := Z.max (460000 / hperiod + 1) (vsync + 9) in
  (hperiod, vd + vbi, hd + 160, hd + 80, hd + 48, vd + 3).

Definition ideal_clock (hperiod htotal : Z) : Z :=
  let c := htotal * 1000 * 1000 / hperiod in c - c mod 250.

(** ** The two branches *)

(** Ordinary sizes and rates. *)
Definition cvt_sane (hd vd r : Z) : Prop := 320 <= hd <= 2800 /\ 200 <= vd <= 2100 /\ 50 <= r <= 85.

(** Timings in order, before the sync width is added. *)
Definition timings_ok (hd vd vsync : Z) (t : cvt_timings) : Prop :=
  let '(hperiod, vt, ht, hse, hss, vss) := t in
  5000 <= hperiod <= 100000 /\ hd < hss < hse /\ hse < ht <= 4000 /\ vd < vss /\ vss + vsync < vt <= 3000.

Lemma hsync_ok hd hblank : 320 <= hd <= 2800 -> hd <= 4 * hblank + 68 -> hblank * 5 <= hd * 2 -> 0 <= hblank ->
  let ht := hd + hblank in let hse := hd + Z.quot hblank 2 in
  let s := hse - Z.quot (ht * 8) 100 in let hss := s + (8 - Z.rem s 8) in
  hd < hss < hse /\ hse < ht <= 4000 /\ 0 <= s <= 4000.
Proof.
  intros Hhd Hlo Hhi H0 ht hse s hss.
  pose proof (quot_run hblank 2 H0 ltac:(lia)) as [Hq0 Hq].
  pose proof (quot_run (ht * 8) 100 ltac:(unfold ht; lia) ltac:(lia)) as [Hw0 Hw].
  assert (0 <= s) as Hs by (unfold s, hse, ht in *; lia).
  pose proof (rem_run s 8 Hs ltac:(lia)) as [Hr _]. unfold hss, s, hse, ht in *. lia.
Qed.

Lemma cvt_normal_run hd vd vsync r : cvt_sane hd vd r -> 4 <= vsync <= 10 ->
  cvt_normal hd vd vd 0 0 vsync r = Some (ideal_normal hd vd vsync r) /\
  timings_ok hd vd vsync (ideal_normal hd vd vsync r).
Proof.
  intros (Hhd & Hvd & Hr) Hvs. unfold cvt_normal, HV_FACTOR, CVT_MIN_VSYNC_BP, CVT_MIN_V_PORCH.
  assert (s32 (u32 (1000 * 1000000 - 550 * 1000 * r)) = 1000000000 - 550000 * r) as ->.
  { rewrite u32_small, s32_small by lia. lia. }
  assert (s32 ((vd + 2 * 0 + 3) * 2 + 0) = 2 * vd + 6) as -> by (rewrite s32_small; lia).
  rewrite (s32_small ((1000000000 - 550000 * r) * 2)), (u32_small ((1000000000 - 550000 * r) * 2)) by lia.
  assert (10000 <= (2 * vd + 6) * r <= 357510) as Hden by nia.
  rewrite (u32_small ((2 * vd + 6) * r)) by lia.
  unfold ideal_normal.
  destruct (udiv_div ((1000000000 - 550000 * r) * 2) ((2 * vd + 6) * r) 5000 96000) as (-> & Hhp & _); [lia|nia|nia|].
  cbn [mbind option_bind]. set (hp := _ / ((2 * vd + 6) * r)) in *. cbv zeta.
  destruct (udiv_div (550 * 1000) hp 0 110) as (-> & Ht & _); [lia..|]. cbn [mbind option_bind].
  change (550 * 1000) with 550000 in *. set (t := 550000 / hp) in *.
  rewrite (u32_small (t + 1)), (s32_small (t + 1)) by lia.
  replace (if t + 1 <? vsync + 3 then vsync + 3 else t + 1) with (Z.max (t + 1) (vsync + 3))
    by (destruct (Z.ltb_spec (t + 1) (vsync + 3)); lia). set (vsb := Z.max _ _).
  assert (vsync + 3 <= vsb <= 111) as Hvsb by lia.
  unfold CVT_C_PRIME, CVT_M_PRIME. change ((40 - 20) * 128 / 256 + 20) with 30. change (600 * 128 / 256) with 300.
  rewrite (u32_small (300 * hp)) by lia.
  assert (0 <= 300 * hp / 1000 <= 28800) as Hm.
  { split; [apply Z.div_pos; lia|apply Z.div_le_upper_bound; lia]. }
  rewrite (u32_small (30 * 1000 - 300 * hp / 1000)) by lia.
  assert (1500 <= 300 * hp / 1000) by (apply Z.div_le_lower_bound; lia).
  replace (if 30 * 1000 - 300 * hp / 1000 <? 20 * 1000 then 20 * 1000 else 30 * 1000 - 300 * hp / 1000)
    with (Z.max 20000 (30000 - 300 * hp / 1000))
    by (destruct (Z.ltb_spec (30 * 1000 - 300 * hp / 1000) (20 * 1000)); lia). set (p := Z.max _ _).
  assert (20000 <= p <= 28500) as Hp by lia.
  rewrite (u32_small (hd * p)), (u32_small (100 * 1000 - p)) by nia.
  change (100 * 1000) with 100000.
  destruct (udiv_div (hd * p) (100000 - p) 0 2000) as (-> & Hb & Hb2); [lia|nia|nia|]. cbn [mbind option_bind].
  set (b := hd * p / (100000 - p)) in *.
  unfold CVT_H_GRANULARITY, CVT_HSYNC_PERCENTAGE. change (2 * 8) with 16.
  rewrite (s32_small b) by lia. pose proof (rem_run b 16 ltac:(lia) ltac:(lia)) as [Hrem Hrem2].
  rewrite (s32_small (b - Z.rem b 16)) by lia. rewrite Z.rem_mod_nonneg in * by lia. set (hb := b - b mod 16).
  assert (hd <= 4 * hb + 68 /\ hb * 5 <= hd * 2 /\ 0 <= hb) as (Hb3 & Hb4 & Hb5) by (unfold hb; nia).
  destruct (hsync_ok hd hb Hhd Hb3 Hb4 Hb5) as (Hss & Hse & Hs). cbv zeta in Hss, Hse, Hs.
  rewrite (s32_small (hd + hb)), (s32_small (hd + Z.quot hb 2)), (s32_small ((hd + hb) * 8)) by lia.
  rewrite (s32_small (hd + Z.quot hb 2 - _)) by lia. rewrite !Z.rem_mod_nonneg, !Z.quot_div_nonneg in * by lia.
  rewrite s32_small by lia. rewrite s32_small by lia.
  rewrite s32_small by lia. split; [repeat f_equal; lia|]. unfold timings_ok. lia.
Qed.

Lemma cvt_reduced_run hd vd vsync r : cvt_sane hd vd r -> 4 <= vsync <= 10 ->
  cvt_reduced hd vd vd 0 vsync r = Some (ideal_reduced hd vd vsync r) /\
  timings_ok hd vd vsync (ideal_reduced hd vd vsync r).
Proof.
  intros (Hhd & Hvd & Hr) Hvs.
  unfold cvt_reduced, HV_FACTOR, CVT_RB_MIN_VBLANK, CVT_RB_VFPORCH, CVT_MIN_V_BPORCH, CVT_RB_H_BLANK, CVT_RB_H_SYNC.
  assert (s32 (u32 (1000 * 1000000 - 460 * 1000 * r)) = 1000000000 - 460000 * r) as ->.
  { rewrite u32_small, s32_small by lia. lia. }
  rewrite (u32_small (1000000000 - 460000 * r)) by lia.
  assert (s32 (vd + 2 * 0) = vd) as -> by (rewrite s32_small; lia).
  rewrite (u32_small (vd * r)) by nia.
  unfold ideal_reduced. destruct (udiv_div (1000000000 - 460000 * r) (vd * r) 5000 98000) as (-> & Hhp & _); [nia|nia|nia|].
  cbn [mbind option_bind]. set (hp := _ / (vd * r)) in *. cbv zeta.
  destruct (udiv_div (460 * 1000) hp 0 92) as (-> & Ht & _); [lia..|]. cbn [mbind option_bind].
  change (460 * 1000) with 460000 in *. set (t := 460000 / hp) in *.
  rewrite (u32_small (t + 1)), (s32_small (t + 1)) by lia.
  replace (if t + 1 <? 3 + vsync + 6 then 3 + vsync + 6 else t + 1) with (Z.max (t + 1) (vsync + 9))
    by (destruct (Z.ltb_spec (t + 1) (3 + vsync + 6)); lia). set (vbi := Z.max _ _).
  assert (vsync + 9 <= vbi <= 93) as Hvbi by lia.
  change (Z.quot 160 2) with 80. rewrite !s32_small by lia.
  split; [repeat f_equal; lia|]. unfold timings_ok. lia.
Qed.

Lemma u32_products x : u32 (s32 (s32 (x * 1000) * 1000)) = u32 (x * 1000 * 1000).
Proof.
  assert (forall y, exists k, s32 y = y + k * 2 ^ 32) as Hs.
  { intros y. exists (- ((y + 2 ^ 31) / 2 ^ 32)). unfold s32. rewrite Z.mod_eq by lia. lia. }
  destruct (Hs (x * 1000)) as [k ->]. destruct (Hs ((x * 1000 + k * 2 ^ 32) * 1000)) as [k' ->].
  unfold u32. replace ((x * 1000 + k * 2 ^ 32) * 1000 + k' * 2 ^ 32) with (x * 1000 * 1000 + (k * 1000 + k') * 2 ^ 32) by lia.
  by rewrite Z.mod_add.
Qed.

(** C27: For widths from 320 to 2800 (after rounding), heights from 200 to 2100 and refresh
    rates from 50 to 85, [drm_cvt_mode] does not divide by zero, and it makes the mode the
    formulas of CVT give in unbounded integers ([ideal_normal], [ideal_reduced],
    [ideal_clock]), of the height and of the width rounded down to a multiple of eight.
    Its sync pulses lie inside the blanking, and its clock is positive and a multiple of
    250 kHz.  On the way the product of ints of drm_modes.c:263 leaves their range exactly
    when the total width is 2148 or more: a signed overflow, which is undefined; the model
    takes it to wrap, and then the conversion to unsigned undoes it. *)
Theorem cvt_mode_bounds hd vd r (reduced : bool) : cvt_sane (hd - Z.rem hd 8) vd r -> 0 <= hd ->
  let vsync := cvt_vsync hd vd in
  exists m hperiod, drm_cvt_mode true hd vd r reduced false false = Some (Some m) /\
    (hperiod, vtotal m, htotal m, hsync_end m, hsync_start m, vsync_start m) =
      (if reduced then ideal_reduced else ideal_normal) (hd - Z.rem hd 8) vd vsync r /\
    clock m = ideal_clock hperiod (htotal m) /\ vsync_end m = vsync_start m + vsync /\
    hdisplay m = hd - Z.rem hd 8 /\ vdisplay m = vd /\
    hdisplay m < hsync_start m < hsync_end m /\ hsync_end m < htotal m <= 4000 /\
    vdisplay m < vsync_start m < vsync_end m /\ vsync_end m < vtotal m <= 3000 /\
    0 < clock m < 1000000 /\ clock m mod 250 = 0 /\
    (s32 (s32 (htotal m * HV_FACTOR) * 1000) = htotal m * HV_FACTOR * 1000 <-> htotal m < 2148).
Proof.
  intros Hsane Hhd0 vs. pose proof Hsane as (Hhd & Hvd & Hr). unfold drm_cvt_mode. cbn [negb]. cbv zeta.
  destruct (Z.eqb_spec r 0) as [|_]; [lia|]. rewrite (u32_small r) by lia.
  pose proof (rem_run hd 8 Hhd0 ltac:(lia)) as [Hrem _]. unfold CVT_H_GRANULARITY.
  rewrite (s32_small (hd - Z.rem hd 8)) by lia. set (h := hd - Z.rem hd 8) in *.
  change (s32 (0 - Z.rem 0 8)) with 0.
  assert (s32 (h + 2 * 0) = h) as -> by (rewrite s32_small; lia).
  assert (s32 (vd + 2 * 0) = vd) as -> by (rewrite s32_small; lia).
  pose proof (cvt_vsync_range hd vd) as Hvs. fold vs in Hvs |- *.
  set (branch := if negb reduced then _ else _). set (t := (if reduced then ideal_reduced else ideal_normal) h vd vs r).
  assert (branch = Some t /\ timings_ok h vd vs t) as (-> & Ht).
  { unfold branch, t. destruct reduced; [by apply cvt_reduced_run|by apply cvt_normal_run]. }
  destruct t as [[[[[hp vt] ht] hse] hss] vss]. unfold timings_ok in Ht. cbn [mbind option_bind].
  unfold HV_FACTOR. rewrite u32_products, (u32_small (ht * 1000 * 1000)) by lia.
  destruct (udiv_div (ht * 1000 * 1000) hp 3200 800000) as (-> & Hc & _); [lia|nia|nia|]. cbn [mbind option_bind].
  set (c := ht * 1000 * 1000 / hp) in *.
  rewrite (s32_small c) by lia. unfold CVT_CLOCK_STEP. pose proof (rem_run c 250 ltac:(lia) ltac:(lia)) as [Hc2 _].
  assert (0 < c - Z.rem c 250) as Hpos by lia. rewrite (s32_small (c - Z.rem c 250)) by lia.
  rewrite (s32_small (vss + vs)) by lia. eexists _, hp. split; [done|]. cbn. rewrite Z.rem_mod_nonneg in * by lia.
  do 5 (split; [done|]). do 5 (split; [lia|]). split.
  - pose proof (Z.div_mod c 250 ltac:(lia)). replace (c - c mod 250) with (c / 250 * 250) by lia. apply Z.mod_mul. lia.
  - rewrite (s32_small (ht * 1000)) by lia. split; [|intros Hlt; apply s32_small; lia].
    intros Es. pose proof (s32_range (ht * 1000 * 1000)). lia.
Qed.

(** An ordinary mode for which the product is out of the range of an int: 1920 by 1080 at
    60 Hz has 2576 pixels in a line. *)
Lemma cvt_product_overflows : exists m, drm_cvt_mode true 1920 1080 60 false false false = Some (Some m) /\
  htotal m = 2576 /\ htotal m * HV_FACTOR * 1000 > 2 ^ 31 - 1.
Proof. eexists. split; [vm_compute; reflexivity|]. by split. Qed.

(** Outside these bounds even the conversion is wrong: an unreduced mode of 3840 by 2160 at
    60 Hz needs 712.75 MHz, but the product does not fit in 32 bits. *)
Lemma cvt_clock_wraps : exists m, drm_cvt_mode true 3840 2160 60 false false false = Some (Some m) /\
  htotal m = 5312 /\ clock m < 140000.
Proof. eexists. split; [vm_compute; reflexivity|]. by split. Qed.

Lemma cvt_mode_bounds_witness : exists m, drm_cvt_mode true 1366 768 60 false false false = Some (Some m) /\
  hdisplay m = 1360.
Proof.
  destruct (cvt_mode_bounds 1366 768 60 false) as (m & hp & Hm & _ & _ & _ & Hd & _).
  - unfold cvt_sane. vm_compute. repeat split; intros E; discriminate E.
  - lia.
  - exists m. split; [exact Hm|]. rewrite Hd. reflexivity.
Defined.
