(* ===== verification/ModeSort.v ===== *)
(** * Sorting a mode list in place (drm_mode_sort)

    The insertion sort of drm_modes.c on the heap of ListHead: it relinks the
    nodes one at a time.  It is shown to do what insertion into a sorted list
    does, to terminate, and to leave the modes in order of favour. *)

From stdpp Require Import sorting strings.
From S2P Require Import Prelude ListHead Modes.

(** The modes by address; a node's [contain_ptr] leads to its mode. *)
Abbreviation mode_memory := (gmap Z drm_display_mode).

(** ** The code *)

Definition node_mode (modes : mode_memory) (h : heap) (nd : Z) : option drm_display_mode :=
  e ← list_entry nd h; modes !! e.

(** [drm_mode_compare] of two nodes. *)
Definition compare_nodes (modes : mode_memory) (h : heap) (lh_a lh_b : Z) : option Z :=
  a ← node_mode modes h lh_a; b ← node_mode modes h lh_b; Some (drm_mode_compare a b).

(** The loop that looks whether the list is already in order. *)
Fixpoint check_order (fuel : nat) (modes : mode_memory) (list temp mode_list : Z) (h : heap)
    : option bool :=
  match fuel with
  | O => None
  | S fuel =>
      if temp =? mode_list then Some true else
      d ← compare_nodes modes h list temp;
      if d >? 0 then Some false else
      n ← rd_next temp h; check_order fuel modes temp n mode_list h
  end.

(** How the inner loop ends: before which node to insert, past [end], or at the
    head of the list. *)
Inductive place := InsertBefore (list : Z) | ExtendEnd | NoPlace.

Fixpoint find_place (fuel : nat) (modes : mode_memory) (list temp mode_list end_ cur : Z) (h : heap)
    : option place :=
  match fuel with
  | O => None
  | S fuel =>
      if list =? mode_list then Some NoPlace else
      d ← compare_nodes modes h list cur;
      if d >? 0 then Some (InsertBefore list) else
      if list =? end_ then Some ExtendEnd else
      n ← rd_next temp h; find_place fuel modes temp n mode_list end_ cur h
  end.

Definition insert_before (cur list : Z) (h : heap) : option heap :=
  p_node ← rd_prev list h;
  h ← list_del cur h;
  h ← wr_next p_node cur h;
  h ← wr_prev list cur h;
  h ← wr_next cur list h;
  wr_prev cur p_node h.

(** [while (cur != mode_list)]. *)
Fixpoint sort_loop (fuel : nat) (modes : mode_memory) (cur end_ mode_list : Z) (h : heap)
    : option heap :=
  match fuel with
  | O => None
  | S fuel =>
      if cur =? mode_list then Some h else
      list ← rd_next mode_list h;
      temp ← rd_next list h;
      pl ← find_place (S fuel) modes list temp mode_list end_ cur h;
      match pl with
      | InsertBefore list =>
          h ← insert_before cur list h;
          cur ← rd_next end_ h;
          sort_loop fuel modes cur end_ mode_list h
      | ExtendEnd => n ← rd_next cur h; sort_loop fuel modes n cur mode_list h
      | NoPlace => sort_loop fuel modes cur end_ mode_list h
      end
  end.

Definition drm_mode_sort (fuel : nat) (modes : mode_memory) (mode_list : Z) (h : heap) : option heap :=
  e ← list_empty mode_list h;
  if (e : bool) then Some h else
  list ← rd_next mode_list h;
  temp ← rd_next list h;
  ordered ← check_order fuel modes list temp mode_list h;
  if (ordered : bool) then Some h else
  end_ ← rd_next mode_list h;
  cur ← rd_next end_ h;
  sort_loop fuel modes cur end_ mode_list h.

(** ** Insertion into a list *)

Section InsertionSort.
Context {A : Type} (cmp : A -> A -> Z).

Fixpoint insert_sorted (c : A) (l : list A) : list A :=
  match l with
  | [] => [c]
  | x :: l => if cmp x c >? 0 then c :: x :: l else x :: insert_sorted c l
  end.

Definition insertion_sort (l : list A) : list A := foldl (fun s c => insert_sorted c s) [] l.

Lemma insert_sorted_perm c l : insert_sorted c l ≡ₚ c :: l.
Proof.
  induction l as [|x l IH]; simpl; [done|]. destruct (_ >? _); [done|]. rewrite IH. apply perm_swap.
Qed.

Lemma foldl_insert_perm l : forall s, foldl (fun s c => insert_sorted c s) s l ≡ₚ s ++ l.
Proof.
  induction l as [|c l IH]; intros s; simpl; [by rewrite app_nil_r|].
  rewrite IH, insert_sorted_perm. simpl. by rewrite Permutation_middle.
Qed.

Lemma insertion_sort_perm l : insertion_sort l ≡ₚ l.
Proof. apply foldl_insert_perm. Qed.

(** On a comparison that is a total preorder the result is sorted. *)
Context (P : A -> Prop).
Hypothesis cmp_total : forall x y, P x -> P y -> cmp x y > 0 -> cmp y x <= 0.
Hypothesis cmp_trans : forall x y z, P x -> P y -> P z -> cmp x y <= 0 -> cmp y z <= 0 -> cmp x z <= 0.

Definition before (x y : A) : Prop := cmp x y <= 0.

Lemma insert_sorted_sorted c l : Forall P (c :: l) -> StronglySorted before l ->
  StronglySorted before (insert_sorted c l).
Proof.
  intros HP Hs. induction Hs as [|x l Hs IH Hx]; simpl.
  - constructor; constructor.
  - apply Forall_cons in HP as [Hc HP]. pose proof HP as [Hpx HPl]%Forall_cons.
    destruct (cmp x c >? 0) eqn:E; zbool.
    + constructor; [by constructor|]. assert (cmp c x <= 0) as Hcx by (apply cmp_total; [done|done|lia]).
      constructor; [done|]. rewrite Forall_forall in *. intros y Hy. apply (cmp_trans c x y); auto. by apply Hx.
    + constructor; [by apply IH; constructor|]. rewrite insert_sorted_perm. by constructor.
Qed.

Lemma foldl_insert_sorted l : forall s, Forall P (s ++ l) -> StronglySorted before s ->
  StronglySorted before (foldl (fun s c => insert_sorted c s) s l).
Proof.
  induction l as [|c l IH]; intros s HP Hs; simpl; [done|]. apply IH.
  - rewrite insert_sorted_perm. simpl. by rewrite Permutation_middle.
  - apply insert_sorted_sorted; [|done]. rewrite <-Permutation_middle in HP. apply Forall_cons in HP as [? HP].
    apply Forall_app in HP as [? _]. by constructor.
Qed.

Lemma insertion_sort_sorted l : Forall P l -> StronglySorted before (insertion_sort l).
Proof. intros HP. apply foldl_insert_sorted; [done|constructor]. Qed.

(** A list in which neighbours are in order is left alone. *)
Lemma insert_sorted_last c l : Forall (fun x => cmp x c <= 0) l -> insert_sorted c l = l ++ [c].
Proof.
  induction 1 as [|x l Hx _ IH]; simpl; [done|]. destruct (cmp x c >? 0) eqn:E; zbool; [lia|]. by rewrite IH.
Qed.

Lemma insertion_sort_id l : StronglySorted before l -> insertion_sort l = l.
Proof.
  intros Hs. unfold insertion_sort.
  assert (forall s, StronglySorted before (s ++ l) -> foldl (fun s c => insert_sorted c s) s l = s ++ l) as Hgen; [|by apply Hgen].
  clear Hs. induction l as [|c l IH]; intros s Hs; simpl; [by rewrite app_nil_r|].
  rewrite insert_sorted_last.
  - rewrite IH; [by rewrite <-app_assoc|by rewrite <-app_assoc].
  - rewrite Forall_forall. intros x Hx. apply (StronglySorted_app_1_elem_of before s (c :: l) x c Hs Hx). by left.
Qed.
End InsertionSort.

(** ** The heap *)

(** The order of two nodes, by the modes they belong to. *)
Definition node_cmp (modes : mode_memory) (h : heap) (a b : Z) : Z := default 0 (compare_nodes modes h a b).

(** Every node of the list leads to a mode. *)
Definition has_modes (modes : mode_memory) (h : heap) (l : list Z) : Prop :=
  forall a, a ∈ l -> is_Some (node_mode modes h a).

Lemma compare_run modes h l a b : has_modes modes h l -> a ∈ l -> b ∈ l ->
  compare_nodes modes h a b = Some (node_cmp modes h a b).
Proof.
  intros Hm Ha Hb. unfold node_cmp, compare_nodes. destruct (Hm a Ha) as [ma ->], (Hm b Hb) as [mb ->]. done.
Qed.

Lemma same_ptr_mode modes h h' : (forall a, rd_ptr a h' = rd_ptr a h) ->
  forall a, node_mode modes h' a = node_mode modes h a.
Proof. intros Hp a. unfold node_mode, list_entry. by rewrite Hp. Qed.

Lemma insert_before_spec h head l1 x l2 c l3 : is_list h head (l1 ++ x :: l2 ++ c :: l3) ->
  exists h', insert_before c x h = Some h' /\ is_list h' head (l1 ++ c :: x :: l2 ++ l3) /\
    forall a, rd_ptr a h' = rd_ptr a h.
Proof.
  intros Hl. destruct (last_cons' head l1) as (q & Hq & Hql).
  destruct (hd_snoc (l2 ++ c :: l3) head) as (n & Hn & _).
  destruct (is_list_links h head l1 x (l2 ++ c :: l3) q n Hq Hn Hl) as (Hqx & Hxq & _).
  assert (l1 ++ x :: l2 ++ c :: l3 = (l1 ++ x :: l2) ++ c :: l3) as E by by rewrite <-app_assoc.
  rewrite E in Hl. destruct (is_list_mid h head _ c l3 Hl) as [Hc Hnd].
  destruct (list_del_spec h head _ c l3 Hl) as (h1 & Hdel & Hl1 & Hp1 & Hlive & _).
  assert ((l1 ++ x :: l2) ++ l3 = l1 ++ x :: l2 ++ l3) as E2 by by rewrite <-app_assoc.
  rewrite E2 in Hl1, Hc. unfold insert_before. rewrite Hxq. cbn [mbind option_bind]. rewrite Hdel. cbn [mbind option_bind].
  assert (q ∈ head :: l1 ++ x :: l2 ++ l3 /\ x ∈ head :: l1 ++ x :: l2 ++ l3) as [Hqin Hxin] by set_solver.
  assert (q <> c /\ x <> c) as [Hqc Hxc] by set_solver.
  pose proof (is_list_live _ _ _ _ Hl1 Hqin) as Hq1. pose proof (is_list_live _ _ _ _ Hl1 Hxin) as Hx1.
  destruct (wr_next_shape h1 _ _ _ (shape_refl h1) q c Hq1) as (h2 & -> & S2). cbn [mbind option_bind].
  destruct (wr_prev_shape h2 _ _ _ S2 x c) as (h3 & -> & S3); [by apply upd_live|]. cbn [mbind option_bind].
  destruct (wr_next_shape h3 _ _ _ S3 c x) as (h4 & -> & S4); [by apply upd_live|]. cbn [mbind option_bind].
  destruct (wr_prev_shape h4 _ _ _ S4 c q) as (h5 & -> & S5); [by do 2 apply upd_live|].
  exists h5. split; [done|]. split.
  - apply (ring_shape _ _ _ _ _ _ S5).
    apply (ring_insert _ _ _ _ head l1 (x :: l2 ++ l3) c q x Hl1); try done;
      intros; rewrite ?upd_eq, ?upd_ne by done; try done.
    all: by rewrite ?upd_eq, ?upd_ne, ?upd_eq by done.
  - intros a. destruct S5 as (_ & _ & ->). apply Hp1.
Qed.

Lemma next_of h head l1 p l2 : is_list h head (l1 ++ p :: l2) -> rd_next p h = hd_error (l2 ++ [head]).
Proof.
  intros Hl. destruct (hd_snoc l2 head) as (n & Hn & _). destruct (last_cons' head l1) as (q & Hq & _).
  destruct (is_list_links h head l1 p l2 q n Hq Hn Hl) as (_ & _ & -> & _). by rewrite Hn.
Qed.

Lemma next_head h head l : is_list h head l -> rd_next head h = hd_error (l ++ [head]).
Proof.
  intros Hl. destruct (hd_snoc l head) as (n & Hn & _).
  assert (rd_next head h = Some n) as ->; [|done].
  destruct (proj1 (ring_seam _ _ head [] l head n eq_refl Hn) Hl) as (_ & _ & [? _] & _). done.
Qed.

(** The first element after which [c] must not come. *)
Fixpoint first_above {A} (cmp : A -> A -> Z) (c : A) (l : list A) : option (list A * A * list A) :=
  match l with
  | [] => None
  | x :: l => if cmp x c >? 0 then Some ([], x, l)
              else '(a, y, b) ← first_above cmp c l; Some (x :: a, y, b)
  end.

Lemma first_above_split {A} (cmp : A -> A -> Z) c l : match first_above cmp c l with
  | Some (a, y, b) => l = a ++ y :: b /\ insert_sorted cmp c l = a ++ c :: y :: b
  | None => insert_sorted cmp c l = l ++ [c]
  end.
Proof.
  induction l as [|x l IH]; simpl; [done|]. destruct (cmp x c >? 0); [done|].
  destruct (first_above cmp c l) as [[[a y] b]|]; cbn [mbind option_bind].
  - destruct IH as [-> ->]. done.
  - by rewrite IH.
Qed.

Section Loop.
Context (modes : mode_memory) (head : Z) (cmp : Z -> Z -> Z).

(** The nodes of [l] compare as [cmp] says in the heap [h]. *)
Definition compares (h : heap) (l : list Z) : Prop :=
  forall a b, a ∈ l -> b ∈ l -> compare_nodes modes h a b = Some (cmp a b).

Lemma compares_same h h' l l' : (forall a, rd_ptr a h' = rd_ptr a h) -> l ≡ₚ l' ->
  compares h l -> compares h' l'.
Proof.
  intros Hp Hl Hc a b Ha Hb. unfold compare_nodes. rewrite !(same_ptr_mode modes h h' Hp).
  apply Hc; by rewrite Hl.
Qed.

Lemma find_place_run h cur R e : forall S2 S1 x temp fuel, is_list h head (S1 ++ x :: S2 ++ cur :: R) ->
  compares h (S1 ++ x :: S2 ++ cur :: R) -> last (x :: S2) = Some e -> rd_next x h = Some temp ->
  (length (x :: S2) <= fuel)%nat ->
  find_place fuel modes x temp head e cur h = Some (match first_above cmp cur (x :: S2) with
    | Some (_, y, _) => InsertBefore y | None => ExtendEnd end).
Proof.
  induction S2 as [|y S2 IH]; intros S1 x temp fuel Hl Hc He Ht Hf; (destruct fuel as [|fuel]; [simpl in Hf; lia|]);
    cbn [find_place first_above].
  - destruct (is_list_mid h head S1 x ([] ++ cur :: R) Hl) as [Hx _]. simpl in He. injection He as <-.
    destruct (Z.eqb_spec x head) as [->|_]; [set_solver|]. rewrite Hc by set_solver. cbn [mbind option_bind].
    destruct (cmp x cur >? 0); [done|]. by rewrite Z.eqb_refl.
  - destruct (is_list_mid h head S1 x ((y :: S2) ++ cur :: R) Hl) as [Hx _].
    destruct (Z.eqb_spec x head) as [->|_]; [set_solver|]. rewrite Hc by set_solver. cbn [mbind option_bind].
    destruct (cmp x cur >? 0); [done|].
    rewrite last_cons_cons in He.
    destruct (Z.eqb_spec x e) as [->|_].
    { exfalso. apply last_Some in He as [l' He].
      assert (e ∈ y :: S2) by (rewrite He; set_solver). apply Hx. set_solver. }
    assert (temp = y) as ->.
    { rewrite (next_of h head S1 x ((y :: S2) ++ cur :: R) Hl) in Ht. simpl in Ht. by injection Ht. }
    assert (S1 ++ x :: (y :: S2) ++ cur :: R = (S1 ++ [x]) ++ y :: S2 ++ cur :: R) as E by by rewrite <-app_assoc.
    rewrite E in Hl, Hc. rewrite (next_of h head (S1 ++ [x]) y (S2 ++ cur :: R) Hl).
    destruct (hd_snoc (S2 ++ cur :: R) head) as (n & Hn & _). rewrite Hn. cbn [mbind option_bind].
    rewrite (IH (S1 ++ [x]) y n fuel); try done.
    + simpl. destruct (cmp y cur >? 0); [done|]. by destruct (first_above cmp cur S2) as [[[? ?] ?]|].
    + rewrite (next_of h head (S1 ++ [x]) y (S2 ++ cur :: R) Hl). done.
    + simpl in Hf |- *. lia.
Qed.

Lemma sort_loop_run : forall R S h cur e fuel, is_list h head (S ++ R) -> compares h (S ++ R) ->
  last S = Some e -> hd_error (R ++ [head]) = Some cur -> (length S + 2 * length R < fuel)%nat ->
  exists h', sort_loop fuel modes cur e head h = Some h' /\
    is_list h' head (foldl (fun s c => insert_sorted cmp c s) S R) /\ (forall a, rd_ptr a h' = rd_ptr a h).
Proof.
  induction R as [|c R IH]; intros S h cur e fuel Hl Hc He Hcur Hf; (destruct fuel as [|fuel]; [lia|]); cbn [sort_loop].
  - simpl in Hcur. injection Hcur as <-. rewrite Z.eqb_refl. exists h. rewrite app_nil_r in Hl. done.
  - simpl in Hcur. injection Hcur as <-.
    destruct (is_list_mid h head S c R Hl) as [Hcm _]. destruct (Z.eqb_spec c head) as [->|_]; [set_solver|].
    destruct S as [|x S2]; [done|].
    pose proof (next_head h head _ Hl) as Hx. simpl in Hx. rewrite Hx. cbn [mbind option_bind].
    pose proof (next_of h head [] x (S2 ++ c :: R) Hl) as Ht.
    destruct (hd_snoc (S2 ++ c :: R) head) as (temp & Htemp & _). rewrite Htemp in Ht. rewrite Ht. cbn [mbind option_bind].
    rewrite (find_place_run h c R e S2 [] x temp (Datatypes.S fuel)); try done; [|simpl in Hf |- *; lia].
    cbn [mbind option_bind]. pose proof (first_above_split cmp c (x :: S2)) as Hsp.
    destruct (first_above cmp c (x :: S2)) as [[[a y] b]|].
    + destruct Hsp as [ES Eins]. rewrite ES in Hl, Hc, He. rewrite <-app_assoc in Hl. simpl in Hl.
      destruct (insert_before_spec h head a y b c R Hl) as (h1 & -> & Hl1 & Hp1). cbn [mbind option_bind].
      assert (a ++ c :: y :: b ++ R = (a ++ c :: y :: b) ++ R) as E1 by by rewrite <-app_assoc.
      rewrite E1, <-Eins in Hl1.
      assert (last (insert_sorted cmp c (x :: S2)) = Some e) as He1.
      { rewrite Eins. rewrite last_app_cons in He. by rewrite last_app_cons, last_cons_cons. }
      pose proof He1 as [l' El']%last_Some.
      assert (rd_next e h1 = hd_error (R ++ [head])) as Hn.
      { apply (next_of h1 head l' e R). rewrite El' in Hl1. by rewrite <-app_assoc in Hl1. }
      destruct (hd_snoc R head) as (n & Hnn & _). rewrite Hn, Hnn. cbn [mbind option_bind].
      destruct (IH (insert_sorted cmp c (x :: S2)) h1 n e fuel) as (h2 & -> & Hl2 & Hp2); try done.
      * apply (compares_same h h1 ((a ++ y :: b) ++ c :: R)); [done| |done].
        rewrite insert_sorted_perm, ES. simpl. by rewrite Permutation_middle.
      * pose proof (insert_sorted_perm cmp c (x :: S2)) as Hperm. apply Permutation_length in Hperm. simpl in Hperm, Hf |- *. lia.
      * exists h2. split; [done|]. split; [done|]. intros a'. by rewrite Hp2, Hp1.
    + pose proof (next_of h head (x :: S2) c R Hl) as Hn. destruct (hd_snoc R head) as (n & Hnn & _).
      rewrite Hn, Hnn. cbn [mbind option_bind].
      assert ((x :: S2) ++ c :: R = ((x :: S2) ++ [c]) ++ R) as E1 by by rewrite <-app_assoc.
      rewrite E1 in Hl, Hc.
      destruct (IH ((x :: S2) ++ [c]) h n c fuel) as (h2 & -> & Hl2 & Hp2); try done.
      * apply last_snoc.
      * rewrite length_app. simpl in Hf |- *. lia.
      * exists h2. split; [done|]. split; [|done]. simpl in Hsp |- *. by rewrite Hsp.
Qed.

Lemma check_order_run h : forall l2 l1 a fuel temp, is_list h head (l1 ++ a :: l2) -> compares h (l1 ++ a :: l2) ->
  hd_error (l2 ++ [head]) = Some temp -> (length l2 < fuel)%nat ->
  exists b, check_order fuel modes a temp head h = Some b /\
    (b = true <-> Sorted (before cmp) (a :: l2)).
Proof.
  induction l2 as [|y l2 IH]; intros l1 a fuel temp Hl Hc Ht Hf; (destruct fuel as [|fuel]; [lia|]); cbn [check_order].
  - simpl in Ht. injection Ht as <-. rewrite Z.eqb_refl. exists true. split; [done|]. split; [|done].
    intros _. constructor; constructor.
  - simpl in Ht. injection Ht as <-.
    assert (l1 ++ a :: y :: l2 = (l1 ++ [a]) ++ y :: l2) as E by by rewrite <-app_assoc.
    pose proof Hl as Hl'. rewrite E in Hl'.
    destruct (is_list_mid h head (l1 ++ [a]) y l2 Hl') as [Hy _].
    destruct (Z.eqb_spec y head) as [->|_]; [set_solver|].
    rewrite Hc by set_solver. cbn [mbind option_bind]. destruct (cmp a y >? 0) eqn:Ed; zbool.
    + exists false. split; [done|]. split; [done|]. intros Hs. inversion Hs as [|? ? _ Hh]; subst.
      inversion Hh as [|? ? Hb]; subst. unfold before in Hb. lia.
    + rewrite (next_of h head (l1 ++ [a]) y l2 Hl'). destruct (hd_snoc l2 head) as (n & Hn & _). rewrite Hn. cbn [mbind option_bind].
      destruct (IH (l1 ++ [a]) y fuel n) as (b & -> & Hb); [done|by rewrite <-E|done|simpl in Hf; lia|].
      exists b. split; [done|]. rewrite Hb. split.
      * intros Hs. constructor; [done|]. constructor. unfold before. lia.
      * by inversion 1.
Qed.
End Loop.

(** ** The order *)

(** Sizes whose area fits in an int, and rates and clocks that are not negative. *)
Definition mode_sane (m : drm_display_mode) : Prop :=
  0 <= hdisplay m /\ 0 <= vdisplay m /\ hdisplay m * vdisplay m < 2 ^ 31 /\
  0 <= vrefresh m < 2 ^ 31 /\ 0 <= clock m < 2 ^ 31.

(** What [drm_mode_compare] orders by, the most favoured first. *)
Definition mode_key (m : drm_display_mode) : Z * Z * Z * Z :=
  (if has_flag (type m) DRM_MODE_TYPE_PREFERRED then 1 else 0, hdisplay m * vdisplay m, vrefresh m, clock m).

Definition key_ge (k1 k2 : Z * Z * Z * Z) : Prop :=
  let '(p1, a1, r1, c1) := k1 in let '(p2, a2, r2, c2) := k2 in
  p1 > p2 \/ (p1 = p2 /\ (a1 > a2 \/ (a1 = a2 /\ (r1 > r2 \/ (r1 = r2 /\ c1 >= c2))))).

Lemma compare_key a b : mode_sane a -> mode_sane b ->
  drm_mode_compare a b <= 0 <-> key_ge (mode_key a) (mode_key b).
Proof.
  intros (Ha1 & Ha2 & Ha3 & Ha4 & Ha5) (Hb1 & Hb2 & Hb3 & Hb4 & Hb5).
  unfold drm_mode_compare, mode_key, key_ge.
  assert (0 <= hdisplay a * vdisplay a /\ 0 <= hdisplay b * vdisplay b) as [Ha Hb] by nia.
  generalize dependent (hdisplay a * vdisplay a). intros xa Ha3 Ha.
  generalize dependent (hdisplay b * vdisplay b). intros xb Hb3 Hb.
  rewrite (s32_small xa), (s32_small xb) by lia. rewrite !s32_small by lia.
  set (pa := if has_flag (type a) _ then 1 else 0). set (pb := if has_flag (type b) _ then 1 else 0).
  destruct (Z.eqb_spec (pb - pa) 0), (Z.eqb_spec (xb - xa) 0), (Z.eqb_spec (vrefresh b - vrefresh a) 0);
    cbn [negb]; lia.
Qed.

Lemma key_ge_total k1 k2 : ~ key_ge k1 k2 -> key_ge k2 k1.
Proof. destruct k1 as [[[p1 a1] r1] c1], k2 as [[[p2 a2] r2] c2]. unfold key_ge. lia. Qed.

Lemma key_ge_trans k1 k2 k3 : key_ge k1 k2 -> key_ge k2 k3 -> key_ge k1 k3.
Proof.
  destruct k1 as [[[p1 a1] r1] c1], k2 as [[[p2 a2] r2] c2], k3 as [[[p3 a3] r3] c3]. unfold key_ge. lia.
Qed.

(** A node of a mode whose numbers are in range. *)
Definition sane_node (modes : mode_memory) (h : heap) (a : Z) : Prop :=
  exists m, node_mode modes h a = Some m /\ mode_sane m.

Lemma node_cmp_key modes h a b ma mb : node_mode modes h a = Some ma -> node_mode modes h b = Some mb ->
  mode_sane ma -> mode_sane mb -> node_cmp modes h a b <= 0 <-> key_ge (mode_key ma) (mode_key mb).
Proof.
  intros Ha Hb Hsa Hsb. unfold node_cmp, compare_nodes. rewrite Ha, Hb. cbn. by apply compare_key.
Qed.

Lemma node_cmp_total modes h a b : sane_node modes h a -> sane_node modes h b ->
  node_cmp modes h a b > 0 -> node_cmp modes h b a <= 0.
Proof.
  intros (ma & Ha & Hsa) (mb & Hb & Hsb) Hgt. apply (node_cmp_key modes h b a mb ma); try done.
  apply key_ge_total. rewrite <-(node_cmp_key modes h a b ma mb) by done. lia.
Qed.

Lemma node_cmp_trans modes h a b c : sane_node modes h a -> sane_node modes h b -> sane_node modes h c ->
  node_cmp modes h a b <= 0 -> node_cmp modes h b c <= 0 -> node_cmp modes h a c <= 0.
Proof.
  intros (ma & Ha & Hsa) (mb & Hb & Hsb) (mc & Hc & Hsc).
  rewrite (node_cmp_key modes h a b ma mb), (node_cmp_key modes h b c mb mc), (node_cmp_key modes h a c ma mc) by done.
  apply key_ge_trans.
Qed.

Lemma sorted_strongly modes h l : Forall (sane_node modes h) l ->
  Sorted (before (node_cmp modes h)) l -> StronglySorted (before (node_cmp modes h)) l.
Proof.
  induction l as [|a l IH]; intros HP Hs; [constructor|]. apply Forall_cons in HP as [Ha HP].
  inversion Hs as [|? ? Hs' Hh]; subst. pose proof (IH HP Hs') as Hss. constructor; [done|].
  destruct l as [|b l]; [constructor|]. inversion Hh as [|? ? Hab]; subst.
  apply Forall_cons in HP as [Hb HP]. inversion Hss as [|? ? _ Hbl]; subst. constructor; [done|].
  rewrite Forall_forall in *. intros x Hx. unfold before in *.
  apply (node_cmp_trans modes h a b x); auto.
Qed.

(** C28: [drm_mode_sort] terminates, relinks exactly the nodes of the list, and
    does what a textbook insertion sort does: afterwards the list runs from the
    most to the least favoured mode (preferred modes, then larger area, then
    higher refresh rate, then higher clock), modes that compare equal keeping
    their order. *)
Theorem mode_sort_is_insertion_sort modes h head l fuel : is_list h head l -> Forall (sane_node modes h) l ->
  (2 * length l + 1 < fuel)%nat ->
  exists h', drm_mode_sort fuel modes head h = Some h' /\
    is_list h' head (insertion_sort (node_cmp modes h) l) /\ (forall a, rd_ptr a h' = rd_ptr a h) /\
    insertion_sort (node_cmp modes h) l ≡ₚ l /\
    StronglySorted (fun a b => node_cmp modes h a b <= 0) (insertion_sort (node_cmp modes h) l).
Proof.
  intros Hl HP Hf. set (cmp := node_cmp modes h).
  assert (compares modes cmp h l) as Hc.
  { intros a b Ha Hb. apply (compare_run modes h l); try done. intros x Hx.
    destruct (proj1 (Forall_forall _ _) HP x Hx) as (m & Hm & _). by exists m. }
  assert (insertion_sort cmp l ≡ₚ l) as Hperm by apply insertion_sort_perm.
  assert (StronglySorted (before cmp) (insertion_sort cmp l)) as Hsort.
  { apply (insertion_sort_sorted cmp (sane_node modes h)); [|by intros; apply (node_cmp_trans modes h x y z)|done].
    intros x y Hx Hy Hgt. by apply (node_cmp_total modes h x y). }
  assert (forall h', drm_mode_sort fuel modes head h = Some h' -> is_list h' head (insertion_sort cmp l) ->
    (forall a, rd_ptr a h' = rd_ptr a h) ->
    exists h', drm_mode_sort fuel modes head h = Some h' /\
    is_list h' head (insertion_sort cmp l) /\ (forall a, rd_ptr a h' = rd_ptr a h) /\
    insertion_sort cmp l ≡ₚ l /\ StronglySorted (fun a b => cmp a b <= 0) (insertion_sort cmp l)) as Hfin.
  { intros h' ? ? ?. exists h'. split_and!; done. }
  unfold drm_mode_sort in *. rewrite (list_empty_spec h head l Hl) in *. cbn [mbind option_bind] in *.
  destruct l as [|x l]; [by apply (Hfin h)|].
  rewrite bool_decide_false in * by done.
  pose proof (next_head h head (x :: l) Hl) as Hx. cbn [app hd_error] in Hx. rewrite Hx in *. cbn [mbind option_bind] in *.
  pose proof (next_of h head [] x l Hl) as Ht. destruct (hd_snoc l head) as (temp & Htemp & _). rewrite Htemp in Ht.
  rewrite Ht in *. cbn [mbind option_bind] in *.
  destruct (check_order_run modes head cmp h l [] x fuel temp) as (b & Eb & Hb); [done|done|done|simpl in Hf; lia|].
  rewrite Eb in *. cbn [mbind option_bind] in *. destruct b.
  - apply (Hfin h); [done| |done]. rewrite (insertion_sort_id cmp); [done|].
    apply (sorted_strongly modes h); [done|]. by apply Hb.
  - destruct (sort_loop_run modes head cmp l [x] h temp x fuel) as (h' & E & Hl' & Hp'); [done|done|done|done|simpl in Hf |- *; lia|].
    by apply (Hfin h').
Qed.

(** ** At a concrete list *)

Definition mode_of (hd vd r : Z) : drm_display_mode :=
  DRM_MODE String.EmptyString DRM_MODE_TYPE_DRIVER (hd * vd) hd 0 0 0 0 vd 0 0 r 0 0.

Definition sort_modes : mode_memory := {[16 := mode_of 640 480 1; 32 := mode_of 1024 768 1]}.

Lemma mode_sort_is_insertion_sort_witness : exists h',
  drm_mode_sort 6 sort_modes 8 demo_heap = Some h' /\ is_list h' 8 [33; 17].
Proof.
  destruct (mode_sort_is_insertion_sort sort_modes demo_heap 8 [17; 33] 6) as (h' & Hs & Hl & _).
  - exact (proj1 demo_carries).
  - repeat constructor; eexists; (split; [vm_compute; reflexivity|]); unfold mode_sane; vm_compute; repeat split;
      intros E; discriminate E.
  - simpl. lia.
  - exists h'. split; [exact Hs|].
    assert (insertion_sort (node_cmp sort_modes demo_heap) [17; 33] = [33; 17]) as <- by (vm_compute; reflexivity).
    exact Hl.
Defined.
