(* ===== verification/EdidTables.v ===== *)
(** * The mode tables of drm_edid.c

    The DMT, established and CEA modes as the C tables give them, the sizes of the
    established timings III and of the inferred modes, and the quirk list. *)

From stdpp Require Import strings.
From S2P Require Import Prelude Modes.

Open Scope string_scope.
Open Scope Z_scope.

(** ** The tables *)

Definition EDID_QUIRK_PREFER_LARGE_60 : Z := 0x1.
Definition EDID_QUIRK_135_CLOCK_TOO_HIGH : Z := 0x2.
Definition EDID_QUIRK_PREFER_LARGE_75 : Z := 0x4.
Definition EDID_QUIRK_DETAILED_IN_CM : Z := 0x8.
Definition EDID_QUIRK_DETAILED_USE_MAXIMUM_SIZE : Z := 0x10.
Definition EDID_QUIRK_FIRST_DETAILED_PREFERRED : Z := 0x20.
Definition EDID_QUIRK_DETAILED_SYNC_PP : Z := 0x40.
Definition EDID_QUIRK_FORCE_REDUCED_BLANKING : Z := 0x80.

Record edid_quirk := mk_quirk { quirk_vendor : string; product_id : Z; quirks : Z }.

Definition edid_quirk_list : list edid_quirk :=
  [ mk_quirk "ACR" 44358 EDID_QUIRK_PREFER_LARGE_60;
    mk_quirk "API" 0x7602 EDID_QUIRK_PREFER_LARGE_60;
    mk_quirk "ACR" 2423 EDID_QUIRK_FIRST_DETAILED_PREFERRED;
    mk_quirk "MAX" 1516 EDID_QUIRK_PREFER_LARGE_60;
    mk_quirk "MAX" 0x77e EDID_QUIRK_PREFER_LARGE_60;
    mk_quirk "EPI" 59264 EDID_QUIRK_135_CLOCK_TOO_HIGH;
    mk_quirk "EPI" 8232 EDID_QUIRK_PREFER_LARGE_60;
    mk_quirk "FCM" 13600 (Z.lor EDID_QUIRK_PREFER_LARGE_75 EDID_QUIRK_DETAILED_IN_CM);
    mk_quirk "LPL" 0 EDID_QUIRK_DETAILED_USE_MAXIMUM_SIZE;
    mk_quirk "LPL" 0x2a00 EDID_QUIRK_DETAILED_USE_MAXIMUM_SIZE;
    mk_quirk "PHL" 57364 EDID_QUIRK_FIRST_DETAILED_PREFERRED;
    mk_quirk "PTS" 765 EDID_QUIRK_FIRST_DETAILED_PREFERRED;
    mk_quirk "SAM" 541 EDID_QUIRK_DETAILED_SYNC_PP;
    mk_quirk "SAM" 596 EDID_QUIRK_PREFER_LARGE_60;
    mk_quirk "SAM" 638 EDID_QUIRK_PREFER_LARGE_60;
    mk_quirk "VSC" 5020 EDID_QUIRK_FORCE_REDUCED_BLANKING ].

Definition drm_dmt_modes_1 : list drm_display_mode :=
  [ DRM_MODE "640x350" DRM_MODE_TYPE_DRIVER 31500 640 672 736 832 0 350 382 385 445 0 (Z.lor DRM_MODE_FLAG_PHSYNC DRM_MODE_FLAG_NVSYNC);
    DRM_MODE "640x400" DRM_MODE_TYPE_DRIVER 31500 640 672 736 832 0 400 401 404 445 0 (Z.lor DRM_MODE_FLAG_NHSYNC DRM_MODE_FLAG_PVSYNC);
    DRM_MODE "720x400" DRM_MODE_TYPE_DRIVER 35500 720 756 828 936 0 400 401 404 446 0 (Z.lor DRM_MODE_FLAG_NHSYNC DRM_MODE_FLAG_PVSYNC);
    DRM_MODE "640x480" DRM_MODE_TYPE_DRIVER 25175 640 656 752 800 0 480 489 492 525 0 (Z.lor DRM_MODE_FLAG_NHSYNC DRM_MODE_FLAG_NVSYNC);
    DRM_MODE "640x480" DRM_MODE_TYPE_DRIVER 31500 640 664 704 832 0 480 489 492 520 0 (Z.lor DRM_MODE_FLAG_NHSYNC DRM_MODE_FLAG_NVSYNC);
    DRM_MODE "640x480" DRM_MODE_TYPE_DRIVER 31500 640 656 720 840 0 480 481 484 500 0 (Z.lor DRM_MODE_FLAG_NHSYNC DRM_MODE_FLAG_NVSYNC);
    DRM_MODE "640x480" DRM_MODE_TYPE_DRIVER 36000 640 696 752 832 0 480 481 484 509 0 (Z.lor DRM_MODE_FLAG_NHSYNC DRM_MODE_FLAG_NVSYNC);
    DRM_MODE "800x600" DRM_MODE_TYPE_DRIVER 36000 800 824 896 1024 0 600 601 603 625 0 (Z.lor DRM_MODE_FLAG_PHSYNC DRM_MODE_FLAG_PVSYNC);
    DRM_MODE "800x600" DRM_MODE_TYPE_DRIVER 40000 800 840 968 1056 0 600 601 605 628 0 (Z.lor DRM_MODE_FLAG_PHSYNC DRM_MODE_FLAG_PVSYNC);
    DRM_MODE "800x600" DRM_MODE_TYPE_DRIVER 50000 800 856 976 1040 0 600 637 643 666 0 (Z.lor DRM_MODE_FLAG_PHSYNC DRM_MODE_FLAG_PVSYNC);
    DRM_MODE "800x600" DRM_MODE_TYPE_DRIVER 49500 800 816 896 1056 0 600 601 604 625 0 (Z.lor DRM_MODE_FLAG_PHSYNC DRM_MODE_FLAG_PVSYNC);
    DRM_MODE "800x600" DRM_MODE_TYPE_DRIVER 56250 800 832 896 1048 0 600 601 604 631 0 (Z.lor DRM_MODE_FLAG_PHSYNC DRM_MODE_FLAG_PVSYNC);
    DRM_MODE "800x600" DRM_MODE_TYPE_DRIVER 73250 800 848 880 960 0 600 603 607 636 0 (Z.lor DRM_MODE_FLAG_PHSYNC DRM_MODE_FLAG_NVSYNC);
    DRM_MODE "848x480" DRM_MODE_TYPE_DRIVER 33750 848 864 976 1088 0 480 486 494 517 0 (Z.lor DRM_MODE_FLAG_PHSYNC DRM_MODE_FLAG_PVSYNC);
    DRM_MODE "1024x768i" DRM_MODE_TYPE_DRIVER 44900 1024 1032 1208 1264 0 768 768 772 817 0 (Z.lor (Z.lor DRM_MODE_FLAG_PHSYNC DRM_MODE_FLAG_PVSYNC) DRM_MODE_FLAG_INTERLACE);
    DRM_MODE "1024x768" DRM_MODE_TYPE_DRIVER 65000 1024 1048 1184 1344 0 768 771 777 806 0 (Z.lor DRM_MODE_FLAG_NHSYNC DRM_MODE_FLAG_NVSYNC);
    DRM_MODE "1024x768" DRM_MODE_TYPE_DRIVER 75000 1024 1048 1184 1328 0 768 771 777 806 0 (Z.lor DRM_MODE_FLAG_NHSYNC DRM_MODE_FLAG_NVSYNC);
    DRM_MODE "1024x768" DRM_MODE_TYPE_DRIVER 78750 1024 1040 1136 1312 0 768 769 772 800 0 (Z.lor DRM_MODE_FLAG_PHSYNC DRM_MODE_FLAG_PVSYNC);
    DRM_MODE "1024x768" DRM_MODE_TYPE_DRIVER 94500 1024 1072 1168 1376 0 768 769 772 808 0 (Z.lor DRM_MODE_FLAG_PHSYNC DRM_MODE_FLAG_PVSYNC);
    DRM_MODE "1024x768" DRM_MODE_TYPE_DRIVER 115500 1024 1072 1104 1184 0 768 771 775 813 0 (Z.lor DRM_MODE_FLAG_PHSYNC DRM_MODE_FLAG_NVSYNC);
    DRM_MODE "1152x864" DRM_MODE_TYPE_DRIVER 108000 1152 1216 1344 1600 0 864 865 868 900 0 (Z.lor DRM_MODE_FLAG_PHSYNC DRM_MODE_FLAG_PVSYNC);
    DRM_MODE "1280x768" DRM_MODE_TYPE_DRIVER 68250 1280 1328 1360 1440 0 768 771 778 790 0 (Z.lor DRM_MODE_FLAG_PHSYNC DRM_MODE_FLAG_NVSYNC);
    DRM_MODE "1280x768" DRM_MODE_TYPE_DRIVER 79500 1280 1344 1472 1664 0 768 771 778 798 0 (Z.lor DRM_MODE_FLAG_NHSYNC DRM_MODE_FLAG_PVSYNC);
    DRM_MODE "1280x768" DRM_MODE_TYPE_DRIVER 102250 1280 1360 1488 1696 0 768 771 778 805 0 (Z.lor DRM_MODE_FLAG_PHSYNC DRM_MODE_FLAG_NVSYNC);
    DRM_MODE "1280x768" DRM_MODE_TYPE_DRIVER 117500 1280 1360 1496 1712 0 768 771 778 809 0 (Z.lor DRM_MODE_FLAG_NHSYNC DRM_MODE_FLAG_PVSYNC);
    DRM_MODE "1280x768" DRM_MODE_TYPE_DRIVER 140250 1280 1328 1360 1440 0 768 771 778 813 0 (Z.lor DRM_MODE_FLAG_PHSYNC DRM_MODE_FLAG_NVSYNC);
    DRM_MODE "1280x800" DRM_MODE_TYPE_DRIVER 71000 1280 1328 1360 1440 0 800 803 809 823 0 (Z.lor DRM_MODE_FLAG_PHSYNC DRM_MODE_FLAG_NVSYNC);
    DRM_MODE "1280x800" DRM_MODE_TYPE_DRIVER 83500 1280 1352 1480 1680 0 800 803 809 831 0 (Z.lor DRM_MODE_FLAG_PHSYNC DRM_MODE_FLAG_NVSYNC);
    DRM_MODE "1280x800" DRM_MODE_TYPE_DRIVER 106500 1280 1360 1488 1696 0 800 803 809 838 0 (Z.lor DRM_MODE_FLAG_NHSYNC DRM_MODE_FLAG_PVSYNC);
    DRM_MODE "1280x800" DRM_MODE_TYPE_DRIVER 122500 1280 1360 1496 1712 0 800 803 809 843 0 (Z.lor DRM_MODE_FLAG_NHSYNC DRM_MODE_FLAG_PVSYNC);
    DRM_MODE "1280x800" DRM_MODE_TYPE_DRIVER 146250 1280 1328 1360 1440 0 800 803 809 847 0 (Z.lor DRM_MODE_FLAG_PHSYNC DRM_MODE_FLAG_NVSYNC);
    DRM_MODE "1280x960" DRM_MODE_TYPE_DRIVER 108000 1280 1376 1488 1800 0 960 961 964 1000 0 (Z.lor DRM_MODE_FLAG_PHSYNC DRM_MODE_FLAG_PVSYNC);
    DRM_MODE "1280x960" DRM_MODE_TYPE_DRIVER 148500 1280 1344 1504 1728 0 960 961 964 1011 0 (Z.lor DRM_MODE_FLAG_PHSYNC DRM_MODE_FLAG_PVSYNC);
    DRM_MODE "1280x960" DRM_MODE_TYPE_DRIVER 175500 1280 1328 1360 1440 0 960 963 967 1017 0 (Z.lor DRM_MODE_FLAG_PHSYNC DRM_MODE_FLAG_NVSYNC);
    DRM_MODE "1280x1024" DRM_MODE_TYPE_DRIVER 108000 1280 1328 1440 1688 0 1024 1025 1028 1066 0 (Z.lor DRM_MODE_FLAG_PHSYNC DRM_MODE_FLAG_PVSYNC);
    DRM_MODE "1280x1024" DRM_MODE_TYPE_DRIVER 135000 1280 1296 1440 1688 0 1024 1025 1028 1066 0 (Z.lor DRM_MODE_FLAG_PHSYNC DRM_MODE_FLAG_PVSYNC) ].

Definition drm_dmt_modes_2 : list drm_display_mode :=
  [ DRM_MODE "1280x1024" DRM_MODE_TYPE_DRIVER 157500 1280 1344 1504 1728 0 1024 1025 1028 1072 0 (Z.lor DRM_MODE_FLAG_PHSYNC DRM_MODE_FLAG_PVSYNC);
    DRM_MODE "1280x1024" DRM_MODE_TYPE_DRIVER 187250 1280 1328 1360 1440 0 1024 1027 1034 1084 0 (Z.lor DRM_MODE_FLAG_PHSYNC DRM_MODE_FLAG_NVSYNC);
    DRM_MODE "1360x768" DRM_MODE_TYPE_DRIVER 85500 1360 1424 1536 1792 0 768 771 777 795 0 (Z.lor DRM_MODE_FLAG_PHSYNC DRM_MODE_FLAG_PVSYNC);
    DRM_MODE "1360x768" DRM_MODE_TYPE_DRIVER 148250 1360 1408 1440 1520 0 768 771 776 813 0 (Z.lor DRM_MODE_FLAG_PHSYNC DRM_MODE_FLAG_NVSYNC);
    DRM_MODE "1400x1050" DRM_MODE_TYPE_DRIVER 101000 1400 1448 1480 1560 0 1050 1053 1057 1080 0 (Z.lor DRM_MODE_FLAG_PHSYNC DRM_MODE_FLAG_NVSYNC);
    DRM_MODE "1400x1050" DRM_MODE_TYPE_DRIVER 121750 1400 1488 1632 1864 0 1050 1053 1057 1089 0 (Z.lor DRM_MODE_FLAG_NHSYNC DRM_MODE_FLAG_PVSYNC);
    DRM_MODE "1400x1050" DRM_MODE_TYPE_DRIVER 156000 1400 1504 1648 1896 0 1050 1053 1057 1099 0 (Z.lor DRM_MODE_FLAG_NHSYNC DRM_MODE_FLAG_PVSYNC);
    DRM_MODE "1400x1050" DRM_MODE_TYPE_DRIVER 179500 1400 1504 1656 1912 0 1050 1053 1057 1105 0 (Z.lor DRM_MODE_FLAG_NHSYNC DRM_MODE_FLAG_PVSYNC);
    DRM_MODE "1400x1050" DRM_MODE_TYPE_DRIVER 208000 1400 1448 1480 1560 0 1050 1053 1057 1112 0 (Z.lor DRM_MODE_FLAG_PHSYNC DRM_MODE_FLAG_NVSYNC);
    DRM_MODE "1440x900" DRM_MODE_TYPE_DRIVER 88750 1440 1488 1520 1600 0 900 903 909 926 0 (Z.lor DRM_MODE_FLAG_PHSYNC DRM_MODE_FLAG_NVSYNC);
    DRM_MODE "1440x900" DRM_MODE_TYPE_DRIVER 106500 1440 1520 1672 1904 0 900 903 909 934 0 (Z.lor DRM_MODE_FLAG_NHSYNC DRM_MODE_FLAG_PVSYNC);
    DRM_MODE "1440x900" DRM_MODE_TYPE_DRIVER 136750 1440 1536 1688 1936 0 900 903 909 942 0 (Z.lor DRM_MODE_FLAG_NHSYNC DRM_MODE_FLAG_PVSYNC);
    DRM_MODE "1440x900" DRM_MODE_TYPE_DRIVER 157000 1440 1544 1696 1952 0 900 903 909 948 0 (Z.lor DRM_MODE_FLAG_NHSYNC DRM_MODE_FLAG_PVSYNC);
    DRM_MODE "1440x900" DRM_MODE_TYPE_DRIVER 182750 1440 1488 1520 1600 0 900 903 909 953 0 (Z.lor DRM_MODE_FLAG_PHSYNC DRM_MODE_FLAG_NVSYNC);
    DRM_MODE "1600x1200" DRM_MODE_TYPE_DRIVER 162000 1600 1664 1856 2160 0 1200 1201 1204 1250 0 (Z.lor DRM_MODE_FLAG_PHSYNC DRM_MODE_FLAG_PVSYNC);
    DRM_MODE "1600x1200" DRM_MODE_TYPE_DRIVER 175500 1600 1664 1856 2160 0 1200 1201 1204 1250 0 (Z.lor DRM_MODE_FLAG_PHSYNC DRM_MODE_FLAG_PVSYNC);
    DRM_MODE "1600x1200" DRM_MODE_TYPE_DRIVER 189000 1600 1664 1856 2160 0 1200 1201 1204 1250 0 (Z.lor DRM_MODE_FLAG_PHSYNC DRM_MODE_FLAG_PVSYNC);
    DRM_MODE "1600x1200" DRM_MODE_TYPE_DRIVER 202500 1600 1664 1856 2160 0 1200 1201 1204 1250 0 (Z.lor DRM_MODE_FLAG_PHSYNC DRM_MODE_FLAG_PVSYNC);
    DRM_MODE "1600x1200" DRM_MODE_TYPE_DRIVER 229500 1600 1664 1856 2160 0 1200 1201 1204 1250 0 (Z.lor DRM_MODE_FLAG_PHSYNC DRM_MODE_FLAG_PVSYNC);
    DRM_MODE "1600x1200" DRM_MODE_TYPE_DRIVER 268250 1600 1648 1680 1760 0 1200 1203 1207 1271 0 (Z.lor DRM_MODE_FLAG_PHSYNC DRM_MODE_FLAG_NVSYNC);
    DRM_MODE "1680x1050" DRM_MODE_TYPE_DRIVER 119000 1680 1728 1760 1840 0 1050 1053 1059 1080 0 (Z.lor DRM_MODE_FLAG_PHSYNC DRM_MODE_FLAG_NVSYNC);
    DRM_MODE "1680x1050" DRM_MODE_TYPE_DRIVER 146250 1680 1784 1960 2240 0 1050 1053 1059 1089 0 (Z.lor DRM_MODE_FLAG_NHSYNC DRM_MODE_FLAG_PVSYNC);
    DRM_MODE "1680x1050" DRM_MODE_TYPE_DRIVER 187000 1680 1800 1976 2272 0 1050 1053 1059 1099 0 (Z.lor DRM_MODE_FLAG_NHSYNC DRM_MODE_FLAG_PVSYNC);
    DRM_MODE "1680x1050" DRM_MODE_TYPE_DRIVER 214750 1680 1808 1984 2288 0 1050 1053 1059 1105 0 (Z.lor DRM_MODE_FLAG_NHSYNC DRM_MODE_FLAG_PVSYNC);
    DRM_MODE "1680x1050" DRM_MODE_TYPE_DRIVER 245500 1680 1728 1760 1840 0 1050 1053 1059 1112 0 (Z.lor DRM_MODE_FLAG_PHSYNC DRM_MODE_FLAG_NVSYNC);
    DRM_MODE "1792x1344" DRM_MODE_TYPE_DRIVER 204750 1792 1920 2120 2448 0 1344 1345 1348 1394 0 (Z.lor DRM_MODE_FLAG_NHSYNC DRM_MODE_FLAG_PVSYNC);
    DRM_MODE "1792x1344" DRM_MODE_TYPE_DRIVER 261000 1792 1888 2104 2456 0 1344 1345 1348 1417 0 (Z.lor DRM_MODE_FLAG_NHSYNC DRM_MODE_FLAG_PVSYNC);
    DRM_MODE "1792x1344" DRM_MODE_TYPE_DRIVER 333250 1792 1840 1872 1952 0 1344 1347 1351 1423 0 (Z.lor DRM_MODE_FLAG_PHSYNC DRM_MODE_FLAG_NVSYNC);
    DRM_MODE "1856x1392" DRM_MODE_TYPE_DRIVER 218250 1856 1952 2176 2528 0 1392 1393 1396 1439 0 (Z.lor DRM_MODE_FLAG_NHSYNC DRM_MODE_FLAG_PVSYNC);
    DRM_MODE "1856x1392" DRM_MODE_TYPE_DRIVER 288000 1856 1984 2208 2560 0 1392 1395 1399 1500 0 (Z.lor DRM_MODE_FLAG_NHSYNC DRM_MODE_FLAG_PVSYNC);
    DRM_MODE "1856x1392" DRM_MODE_TYPE_DRIVER 356500 1856 1904 1936 2016 0 1392 1395 1399 1474 0 (Z.lor DRM_MODE_FLAG_PHSYNC DRM_MODE_FLAG_NVSYNC);
    DRM_MODE "1920x1200" DRM_MODE_TYPE_DRIVER 154000 1920 1968 2000 2080 0 1200 1203 1209 1235 0 (Z.lor DRM_MODE_FLAG_PHSYNC DRM_MODE_FLAG_NVSYNC);
    DRM_MODE "1920x1200" DRM_MODE_TYPE_DRIVER 193250 1920 2056 2256 2592 0 1200 1203 1209 1245 0 (Z.lor DRM_MODE_FLAG_NHSYNC DRM_MODE_FLAG_PVSYNC);
    DRM_MODE "1920x1200" DRM_MODE_TYPE_DRIVER 245250 1920 2056 2264 2608 0 1200 1203 1209 1255 0 (Z.lor DRM_MODE_FLAG_NHSYNC DRM_MODE_FLAG_PVSYNC);
    DRM_MODE "1920x1200" DRM_MODE_TYPE_DRIVER 281250 1920 2064 2272 2624 0 1200 1203 1209 1262 0 (Z.lor DRM_MODE_FLAG_NHSYNC DRM_MODE_FLAG_PVSYNC);
    DRM_MODE "1920x1200" DRM_MODE_TYPE_DRIVER 317000 1920 1968 2000 2080 0 1200 1203 1209 1271 0 (Z.lor DRM_MODE_FLAG_PHSYNC DRM_MODE_FLAG_NVSYNC) ].

Definition drm_dmt_modes_3 : list drm_display_mode :=
  [ DRM_MODE "1920x1440" DRM_MODE_TYPE_DRIVER 234000 1920 2048 2256 2600 0 1440 1441 1444 1500 0 (Z.lor DRM_MODE_FLAG_NHSYNC DRM_MODE_FLAG_PVSYNC);
    DRM_MODE "1920x1440" DRM_MODE_TYPE_DRIVER 297000 1920 2064 2288 2640 0 1440 1441 1444 1500 0 (Z.lor DRM_MODE_FLAG_NHSYNC DRM_MODE_FLAG_PVSYNC);
    DRM_MODE "1920x1440" DRM_MODE_TYPE_DRIVER 380500 1920 1968 2000 2080 0 1440 1443 1447 1525 0 (Z.lor DRM_MODE_FLAG_PHSYNC DRM_MODE_FLAG_NVSYNC);
    DRM_MODE "2560x1600" DRM_MODE_TYPE_DRIVER 268500 2560 2608 2640 2720 0 1600 1603 1609 1646 0 (Z.lor DRM_MODE_FLAG_PHSYNC DRM_MODE_FLAG_NVSYNC);
    DRM_MODE "2560x1600" DRM_MODE_TYPE_DRIVER 348500 2560 2752 3032 3504 0 1600 1603 1609 1658 0 (Z.lor DRM_MODE_FLAG_NHSYNC DRM_MODE_FLAG_PVSYNC);
    DRM_MODE "2560x1600" DRM_MODE_TYPE_DRIVER 443250 2560 2768 3048 3536 0 1600 1603 1609 1672 0 (Z.lor DRM_MODE_FLAG_NHSYNC DRM_MODE_FLAG_PVSYNC);
    DRM_MODE "2560x1600" DRM_MODE_TYPE_DRIVER 505250 2560 2768 3048 3536 0 1600 1603 1609 1682 0 (Z.lor DRM_MODE_FLAG_NHSYNC DRM_MODE_FLAG_PVSYNC);
    DRM_MODE "2560x1600" DRM_MODE_TYPE_DRIVER 552750 2560 2608 2640 2720 0 1600 1603 1609 1694 0 (Z.lor DRM_MODE_FLAG_PHSYNC DRM_MODE_FLAG_NVSYNC) ].

Definition drm_dmt_modes : list drm_display_mode := drm_dmt_modes_1 ++ drm_dmt_modes_2 ++ drm_dmt_modes_3.

Definition edid_est_modes : list drm_display_mode :=
  [ DRM_MODE "800x600" DRM_MODE_TYPE_DRIVER 40000 800 840 968 1056 0 600 601 605 628 0 (Z.lor DRM_MODE_FLAG_PHSYNC DRM_MODE_FLAG_PVSYNC);
    DRM_MODE "800x600" DRM_MODE_TYPE_DRIVER 36000 800 824 896 1024 0 600 601 603 625 0 (Z.lor DRM_MODE_FLAG_PHSYNC DRM_MODE_FLAG_PVSYNC);
    DRM_MODE "640x480" DRM_MODE_TYPE_DRIVER 31500 640 656 720 840 0 480 481 484 500 0 (Z.lor DRM_MODE_FLAG_NHSYNC DRM_MODE_FLAG_NVSYNC);
    DRM_MODE "640x480" DRM_MODE_TYPE_DRIVER 31500 640 664 704 832 0 480 489 491 520 0 (Z.lor DRM_MODE_FLAG_NHSYNC DRM_MODE_FLAG_NVSYNC);
    DRM_MODE "640x480" DRM_MODE_TYPE_DRIVER 30240 640 704 768 864 0 480 483 486 525 0 (Z.lor DRM_MODE_FLAG_NHSYNC DRM_MODE_FLAG_NVSYNC);
    DRM_MODE "640x480" DRM_MODE_TYPE_DRIVER 25200 640 656 752 800 0 480 490 492 525 0 (Z.lor DRM_MODE_FLAG_NHSYNC DRM_MODE_FLAG_NVSYNC);
    DRM_MODE "720x400" DRM_MODE_TYPE_DRIVER 35500 720 738 846 900 0 400 421 423 449 0 (Z.lor DRM_MODE_FLAG_NHSYNC DRM_MODE_FLAG_NVSYNC);
    DRM_MODE "720x400" DRM_MODE_TYPE_DRIVER 28320 720 738 846 900 0 400 412 414 449 0 (Z.lor DRM_MODE_FLAG_NHSYNC DRM_MODE_FLAG_PVSYNC);
    DRM_MODE "1280x1024" DRM_MODE_TYPE_DRIVER 135000 1280 1296 1440 1688 0 1024 1025 1028 1066 0 (Z.lor DRM_MODE_FLAG_PHSYNC DRM_MODE_FLAG_PVSYNC);
    DRM_MODE "1024x768" DRM_MODE_TYPE_DRIVER 78800 1024 1040 1136 1312 0 768 769 772 800 0 (Z.lor DRM_MODE_FLAG_PHSYNC DRM_MODE_FLAG_PVSYNC);
    DRM_MODE "1024x768" DRM_MODE_TYPE_DRIVER 75000 1024 1048 1184 1328 0 768 771 777 806 0 (Z.lor DRM_MODE_FLAG_NHSYNC DRM_MODE_FLAG_NVSYNC);
    DRM_MODE "1024x768" DRM_MODE_TYPE_DRIVER 65000 1024 1048 1184 1344 0 768 771 777 806 0 (Z.lor DRM_MODE_FLAG_NHSYNC DRM_MODE_FLAG_NVSYNC);
    DRM_MODE "1024x768i" DRM_MODE_TYPE_DRIVER 44900 1024 1032 1208 1264 0 768 768 776 817 0 (Z.lor (Z.lor DRM_MODE_FLAG_PHSYNC DRM_MODE_FLAG_PVSYNC) DRM_MODE_FLAG_INTERLACE);
    DRM_MODE "832x624" DRM_MODE_TYPE_DRIVER 57284 832 864 928 1152 0 624 625 628 667 0 (Z.lor DRM_MODE_FLAG_NHSYNC DRM_MODE_FLAG_NVSYNC);
    DRM_MODE "800x600" DRM_MODE_TYPE_DRIVER 49500 800 816 896 1056 0 600 601 604 625 0 (Z.lor DRM_MODE_FLAG_PHSYNC DRM_MODE_FLAG_PVSYNC);
    DRM_MODE "800x600" DRM_MODE_TYPE_DRIVER 50000 800 856 976 1040 0 600 637 643 666 0 (Z.lor DRM_MODE_FLAG_PHSYNC DRM_MODE_FLAG_PVSYNC);
    DRM_MODE "1152x864" DRM_MODE_TYPE_DRIVER 108000 1152 1216 1344 1600 0 864 865 868 900 0 (Z.lor DRM_MODE_FLAG_PHSYNC DRM_MODE_FLAG_PVSYNC) ].

Definition edid_cea_modes_1 : list drm_display_mode :=
  [ with_vrefresh 60 (DRM_MODE "640x480" DRM_MODE_TYPE_DRIVER 25175 640 656 752 800 0 480 490 492 525 0 (Z.lor DRM_MODE_FLAG_NHSYNC DRM_MODE_FLAG_NVSYNC));
    with_vrefresh 60 (DRM_MODE "720x480" DRM_MODE_TYPE_DRIVER 27000 720 736 798 858 0 480 489 495 525 0 (Z.lor DRM_MODE_FLAG_NHSYNC DRM_MODE_FLAG_NVSYNC));
    with_vrefresh 60 (DRM_MODE "720x480" DRM_MODE_TYPE_DRIVER 27000 720 736 798 858 0 480 489 495 525 0 (Z.lor DRM_MODE_FLAG_NHSYNC DRM_MODE_FLAG_NVSYNC));
    with_vrefresh 60 (DRM_MODE "1280x720" DRM_MODE_TYPE_DRIVER 74250 1280 1390 1430 1650 0 720 725 730 750 0 (Z.lor DRM_MODE_FLAG_PHSYNC DRM_MODE_FLAG_PVSYNC));
    with_vrefresh 60 (DRM_MODE "1920x1080i" DRM_MODE_TYPE_DRIVER 74250 1920 2008 2052 2200 0 1080 1084 1094 1125 0 (Z.lor (Z.lor DRM_MODE_FLAG_PHSYNC DRM_MODE_FLAG_PVSYNC) DRM_MODE_FLAG_INTERLACE));
    with_vrefresh 60 (DRM_MODE "1440x480i" DRM_MODE_TYPE_DRIVER 27000 1440 1478 1602 1716 0 480 488 494 525 0 (Z.lor (Z.lor (Z.lor DRM_MODE_FLAG_NHSYNC DRM_MODE_FLAG_NVSYNC) DRM_MODE_FLAG_INTERLACE) DRM_MODE_FLAG_DBLCLK));
    with_vrefresh 60 (DRM_MODE "1440x480i" DRM_MODE_TYPE_DRIVER 27000 1440 1478 1602 1716 0 480 488 494 525 0 (Z.lor (Z.lor (Z.lor DRM_MODE_FLAG_NHSYNC DRM_MODE_FLAG_NVSYNC) DRM_MODE_FLAG_INTERLACE) DRM_MODE_FLAG_DBLCLK));
    with_vrefresh 60 (DRM_MODE "1440x240" DRM_MODE_TYPE_DRIVER 27000 1440 1478 1602 1716 0 240 244 247 262 0 (Z.lor (Z.lor DRM_MODE_FLAG_NHSYNC DRM_MODE_FLAG_NVSYNC) DRM_MODE_FLAG_DBLCLK));
    with_vrefresh 60 (DRM_MODE "1440x240" DRM_MODE_TYPE_DRIVER 27000 1440 1478 1602 1716 0 240 244 247 262 0 (Z.lor (Z.lor DRM_MODE_FLAG_NHSYNC DRM_MODE_FLAG_NVSYNC) DRM_MODE_FLAG_DBLCLK));
    with_vrefresh 60 (DRM_MODE "2880x480i" DRM_MODE_TYPE_DRIVER 54000 2880 2956 3204 3432 0 480 488 494 525 0 (Z.lor (Z.lor DRM_MODE_FLAG_NHSYNC DRM_MODE_FLAG_NVSYNC) DRM_MODE_FLAG_INTERLACE));
    with_vrefresh 60 (DRM_MODE "2880x480i" DRM_MODE_TYPE_DRIVER 54000 2880 2956 3204 3432 0 480 488 494 525 0 (Z.lor (Z.lor DRM_MODE_FLAG_NHSYNC DRM_MODE_FLAG_NVSYNC) DRM_MODE_FLAG_INTERLACE));
    with_vrefresh 60 (DRM_MODE "2880x240" DRM_MODE_TYPE_DRIVER 54000 2880 2956 3204 3432 0 240 244 247 262 0 (Z.lor DRM_MODE_FLAG_NHSYNC DRM_MODE_FLAG_NVSYNC));
    with_vrefresh 60 (DRM_MODE "2880x240" DRM_MODE_TYPE_DRIVER 54000 2880 2956 3204 3432 0 240 244 247 262 0 (Z.lor DRM_MODE_FLAG_NHSYNC DRM_MODE_FLAG_NVSYNC));
    with_vrefresh 60 (DRM_MODE "1440x480" DRM_MODE_TYPE_DRIVER 54000 1440 1472 1596 1716 0 480 489 495 525 0 (Z.lor DRM_MODE_FLAG_NHSYNC DRM_MODE_FLAG_NVSYNC));
    with_vrefresh 60 (DRM_MODE "1440x480" DRM_MODE_TYPE_DRIVER 54000 1440 1472 1596 1716 0 480 489 495 525 0 (Z.lor DRM_MODE_FLAG_NHSYNC DRM_MODE_FLAG_NVSYNC));
    with_vrefresh 60 (DRM_MODE "1920x1080" DRM_MODE_TYPE_DRIVER 148500 1920 2008 2052 2200 0 1080 1084 1089 1125 0 (Z.lor DRM_MODE_FLAG_PHSYNC DRM_MODE_FLAG_PVSYNC));
    with_vrefresh 50 (DRM_MODE "720x576" DRM_MODE_TYPE_DRIVER 27000 720 732 796 864 0 576 581 586 625 0 (Z.lor DRM_MODE_FLAG_NHSYNC DRM_MODE_FLAG_NVSYNC));
    with_vrefresh 50 (DRM_MODE "720x576" DRM_MODE_TYPE_DRIVER 27000 720 732 796 864 0 576 581 586 625 0 (Z.lor DRM_MODE_FLAG_NHSYNC DRM_MODE_FLAG_NVSYNC));
    with_vrefresh 50 (DRM_MODE "1280x720" DRM_MODE_TYPE_DRIVER 74250 1280 1720 1760 1980 0 720 725 730 750 0 (Z.lor DRM_MODE_FLAG_PHSYNC DRM_MODE_FLAG_PVSYNC));
    with_vrefresh 50 (DRM_MODE "1920x1080i" DRM_MODE_TYPE_DRIVER 74250 1920 2448 2492 2640 0 1080 1084 1094 1125 0 (Z.lor (Z.lor DRM_MODE_FLAG_PHSYNC DRM_MODE_FLAG_PVSYNC) DRM_MODE_FLAG_INTERLACE));
    with_vrefresh 50 (DRM_MODE "1440x576i" DRM_MODE_TYPE_DRIVER 27000 1440 1464 1590 1728 0 576 580 586 625 0 (Z.lor (Z.lor (Z.lor DRM_MODE_FLAG_NHSYNC DRM_MODE_FLAG_NVSYNC) DRM_MODE_FLAG_INTERLACE) DRM_MODE_FLAG_DBLCLK));
    with_vrefresh 50 (DRM_MODE "1440x576i" DRM_MODE_TYPE_DRIVER 27000 1440 1464 1590 1728 0 576 580 586 625 0 (Z.lor (Z.lor (Z.lor DRM_MODE_FLAG_NHSYNC DRM_MODE_FLAG_NVSYNC) DRM_MODE_FLAG_INTERLACE) DRM_MODE_FLAG_DBLCLK));
    with_vrefresh 50 (DRM_MODE "1440x288" DRM_MODE_TYPE_DRIVER 27000 1440 1464 1590 1728 0 288 290 293 312 0 (Z.lor (Z.lor DRM_MODE_FLAG_NHSYNC DRM_MODE_FLAG_NVSYNC) DRM_MODE_FLAG_DBLCLK));
    with_vrefresh 50 (DRM_MODE "1440x288" DRM_MODE_TYPE_DRIVER 27000 1440 1464 1590 1728 0 288 290 293 312 0 (Z.lor (Z.lor DRM_MODE_FLAG_NHSYNC DRM_MODE_FLAG_NVSYNC) DRM_MODE_FLAG_DBLCLK));
    with_vrefresh 50 (DRM_MODE "2880x576i" DRM_MODE_TYPE_DRIVER 54000 2880 2928 3180 3456 0 576 580 586 625 0 (Z.lor (Z.lor DRM_MODE_FLAG_NHSYNC DRM_MODE_FLAG_NVSYNC) DRM_MODE_FLAG_INTERLACE));
    with_vrefresh 50 (DRM_MODE "2880x576i" DRM_MODE_TYPE_DRIVER 54000 2880 2928 3180 3456 0 576 580 586 625 0 (Z.lor (Z.lor DRM_MODE_FLAG_NHSYNC DRM_MODE_FLAG_NVSYNC) DRM_MODE_FLAG_INTERLACE));
    with_vrefresh 50 (DRM_MODE "2880x288" DRM_MODE_TYPE_DRIVER 54000 2880 2928 3180 3456 0 288 290 293 312 0 (Z.lor DRM_MODE_FLAG_NHSYNC DRM_MODE_FLAG_NVSYNC));
    with_vrefresh 50 (DRM_MODE "2880x288" DRM_MODE_TYPE_DRIVER 54000 2880 2928 3180 3456 0 288 290 293 312 0 (Z.lor DRM_MODE_FLAG_NHSYNC DRM_MODE_FLAG_NVSYNC));
    with_vrefresh 50 (DRM_MODE "1440x576" DRM_MODE_TYPE_DRIVER 54000 1440 1464 1592 1728 0 576 581 586 625 0 (Z.lor DRM_MODE_FLAG_NHSYNC DRM_MODE_FLAG_NVSYNC));
    with_vrefresh 50 (DRM_MODE "1440x576" DRM_MODE_TYPE_DRIVER 54000 1440 1464 1592 1728 0 576 581 586 625 0 (Z.lor DRM_MODE_FLAG_NHSYNC DRM_MODE_FLAG_NVSYNC));
    with_vrefresh 50 (DRM_MODE "1920x1080" DRM_MODE_TYPE_DRIVER 148500 1920 2448 2492 2640 0 1080 1084 1089 1125 0 (Z.lor DRM_MODE_FLAG_PHSYNC DRM_MODE_FLAG_PVSYNC));
    with_vrefresh 50 (DRM_MODE "1920x1080" DRM_MODE_TYPE_DRIVER 74250 1920 2558 2602 2750 0 1080 1084 1089 1125 0 (Z.lor DRM_MODE_FLAG_PHSYNC DRM_MODE_FLAG_PVSYNC)) ].

Definition edid_cea_modes_2 : list drm_display_mode :=
  [ with_vrefresh 25 (DRM_MODE "1920x1080" DRM_MODE_TYPE_DRIVER 74250 1920 2448 2492 2640 0 1080 1084 1089 1125 0 (Z.lor DRM_MODE_FLAG_PHSYNC DRM_MODE_FLAG_PVSYNC));
    with_vrefresh 30 (DRM_MODE "1920x1080" DRM_MODE_TYPE_DRIVER 74250 1920 2008 2052 2200 0 1080 1084 1089 1125 0 (Z.lor DRM_MODE_FLAG_PHSYNC DRM_MODE_FLAG_PVSYNC));
    with_vrefresh 60 (DRM_MODE "2880x480" DRM_MODE_TYPE_DRIVER 108000 2880 2944 3192 3432 0 480 489 495 525 0 (Z.lor DRM_MODE_FLAG_NHSYNC DRM_MODE_FLAG_NVSYNC));
    with_vrefresh 60 (DRM_MODE "2880x480" DRM_MODE_TYPE_DRIVER 108000 2880 2944 3192 3432 0 480 489 495 525 0 (Z.lor DRM_MODE_FLAG_NHSYNC DRM_MODE_FLAG_NVSYNC));
    with_vrefresh 50 (DRM_MODE "2880x576" DRM_MODE_TYPE_DRIVER 108000 2880 2928 3184 3456 0 576 581 586 625 0 (Z.lor DRM_MODE_FLAG_NHSYNC DRM_MODE_FLAG_NVSYNC));
    with_vrefresh 50 (DRM_MODE "2880x576" DRM_MODE_TYPE_DRIVER 108000 2880 2928 3184 3456 0 576 581 586 625 0 (Z.lor DRM_MODE_FLAG_NHSYNC DRM_MODE_FLAG_NVSYNC));
    with_vrefresh 50 (DRM_MODE "1920x1080i" DRM_MODE_TYPE_DRIVER 72000 1920 1952 2120 2304 0 1080 1126 1136 1250 0 (Z.lor (Z.lor DRM_MODE_FLAG_PHSYNC DRM_MODE_FLAG_NVSYNC) DRM_MODE_FLAG_INTERLACE));
    with_vrefresh 100 (DRM_MODE "1920x1080i" DRM_MODE_TYPE_DRIVER 148500 1920 2448 2492 2640 0 1080 1084 1094 1125 0 (Z.lor (Z.lor DRM_MODE_FLAG_PHSYNC DRM_MODE_FLAG_PVSYNC) DRM_MODE_FLAG_INTERLACE));
    with_vrefresh 100 (DRM_MODE "1280x720" DRM_MODE_TYPE_DRIVER 148500 1280 1720 1760 1980 0 720 725 730 750 0 (Z.lor DRM_MODE_FLAG_PHSYNC DRM_MODE_FLAG_PVSYNC));
    with_vrefresh 100 (DRM_MODE "720x576" DRM_MODE_TYPE_DRIVER 54000 720 732 796 864 0 576 581 586 625 0 (Z.lor DRM_MODE_FLAG_NHSYNC DRM_MODE_FLAG_NVSYNC));
    with_vrefresh 100 (DRM_MODE "720x576" DRM_MODE_TYPE_DRIVER 54000 720 732 796 864 0 576 581 586 625 0 (Z.lor DRM_MODE_FLAG_NHSYNC DRM_MODE_FLAG_NVSYNC));
    with_vrefresh 100 (DRM_MODE "1440x576" DRM_MODE_TYPE_DRIVER 54000 1440 1464 1590 1728 0 576 580 586 625 0 (Z.lor (Z.lor DRM_MODE_FLAG_NHSYNC DRM_MODE_FLAG_NVSYNC) DRM_MODE_FLAG_DBLCLK));
    with_vrefresh 100 (DRM_MODE "1440x576" DRM_MODE_TYPE_DRIVER 54000 1440 1464 1590 1728 0 576 580 586 625 0 (Z.lor (Z.lor DRM_MODE_FLAG_NHSYNC DRM_MODE_FLAG_NVSYNC) DRM_MODE_FLAG_DBLCLK));
    with_vrefresh 120 (DRM_MODE "1920x1080i" DRM_MODE_TYPE_DRIVER 148500 1920 2008 2052 2200 0 1080 1084 1094 1125 0 (Z.lor (Z.lor DRM_MODE_FLAG_PHSYNC DRM_MODE_FLAG_PVSYNC) DRM_MODE_FLAG_INTERLACE));
    with_vrefresh 120 (DRM_MODE "1280x720" DRM_MODE_TYPE_DRIVER 148500 1280 1390 1430 1650 0 720 725 730 750 0 (Z.lor DRM_MODE_FLAG_PHSYNC DRM_MODE_FLAG_PVSYNC));
    with_vrefresh 120 (DRM_MODE "720x480" DRM_MODE_TYPE_DRIVER 54000 720 736 798 858 0 480 489 495 525 0 (Z.lor DRM_MODE_FLAG_NHSYNC DRM_MODE_FLAG_NVSYNC));
    with_vrefresh 120 (DRM_MODE "720x480" DRM_MODE_TYPE_DRIVER 54000 720 736 798 858 0 480 489 495 525 0 (Z.lor DRM_MODE_FLAG_NHSYNC DRM_MODE_FLAG_NVSYNC));
    with_vrefresh 120 (DRM_MODE "1440x480i" DRM_MODE_TYPE_DRIVER 54000 1440 1478 1602 1716 0 480 488 494 525 0 (Z.lor (Z.lor (Z.lor DRM_MODE_FLAG_NHSYNC DRM_MODE_FLAG_NVSYNC) DRM_MODE_FLAG_INTERLACE) DRM_MODE_FLAG_DBLCLK));
    with_vrefresh 120 (DRM_MODE "1440x480i" DRM_MODE_TYPE_DRIVER 54000 1440 1478 1602 1716 0 480 488 494 525 0 (Z.lor (Z.lor (Z.lor DRM_MODE_FLAG_NHSYNC DRM_MODE_FLAG_NVSYNC) DRM_MODE_FLAG_INTERLACE) DRM_MODE_FLAG_DBLCLK));
    with_vrefresh 200 (DRM_MODE "720x576" DRM_MODE_TYPE_DRIVER 108000 720 732 796 864 0 576 581 586 625 0 (Z.lor DRM_MODE_FLAG_NHSYNC DRM_MODE_FLAG_NVSYNC));
    with_vrefresh 200 (DRM_MODE "720x576" DRM_MODE_TYPE_DRIVER 108000 720 732 796 864 0 576 581 586 625 0 (Z.lor DRM_MODE_FLAG_NHSYNC DRM_MODE_FLAG_NVSYNC));
    with_vrefresh 200 (DRM_MODE "1440x576i" DRM_MODE_TYPE_DRIVER 108000 1440 1464 1590 1728 0 576 580 586 625 0 (Z.lor (Z.lor (Z.lor DRM_MODE_FLAG_NHSYNC DRM_MODE_FLAG_NVSYNC) DRM_MODE_FLAG_INTERLACE) DRM_MODE_FLAG_DBLCLK));
    with_vrefresh 200 (DRM_MODE "1440x576i" DRM_MODE_TYPE_DRIVER 108000 1440 1464 1590 1728 0 576 580 586 625 0 (Z.lor (Z.lor (Z.lor DRM_MODE_FLAG_NHSYNC DRM_MODE_FLAG_NVSYNC) DRM_MODE_FLAG_INTERLACE) DRM_MODE_FLAG_DBLCLK));
    with_vrefresh 240 (DRM_MODE "720x480" DRM_MODE_TYPE_DRIVER 108000 720 736 798 858 0 480 489 495 525 0 (Z.lor DRM_MODE_FLAG_NHSYNC DRM_MODE_FLAG_NVSYNC));
    with_vrefresh 240 (DRM_MODE "720x480" DRM_MODE_TYPE_DRIVER 108000 720 736 798 858 0 480 489 495 525 0 (Z.lor DRM_MODE_FLAG_NHSYNC DRM_MODE_FLAG_NVSYNC));
    with_vrefresh 240 (DRM_MODE "1440x480i" DRM_MODE_TYPE_DRIVER 108000 1440 1478 1602 1716 0 480 488 494 525 0 (Z.lor (Z.lor (Z.lor DRM_MODE_FLAG_NHSYNC DRM_MODE_FLAG_NVSYNC) DRM_MODE_FLAG_INTERLACE) DRM_MODE_FLAG_DBLCLK));
    with_vrefresh 240 (DRM_MODE "1440x480i" DRM_MODE_TYPE_DRIVER 108000 1440 1478 1602 1716 0 480 488 494 525 0 (Z.lor (Z.lor (Z.lor DRM_MODE_FLAG_NHSYNC DRM_MODE_FLAG_NVSYNC) DRM_MODE_FLAG_INTERLACE) DRM_MODE_FLAG_DBLCLK));
    with_vrefresh 24 (DRM_MODE "1280x720" DRM_MODE_TYPE_DRIVER 59400 1280 3040 3080 3300 0 720 725 730 750 0 (Z.lor DRM_MODE_FLAG_PHSYNC DRM_MODE_FLAG_PVSYNC));
    with_vrefresh 25 (DRM_MODE "1280x720" DRM_MODE_TYPE_DRIVER 74250 1280 3700 3740 3960 0 720 725 730 750 0 (Z.lor DRM_MODE_FLAG_PHSYNC DRM_MODE_FLAG_PVSYNC));
    with_vrefresh 30 (DRM_MODE "1280x720" DRM_MODE_TYPE_DRIVER 74250 1280 3040 3080 3300 0 720 725 730 750 0 (Z.lor DRM_MODE_FLAG_PHSYNC DRM_MODE_FLAG_PVSYNC));
    with_vrefresh 120 (DRM_MODE "1920x1080" DRM_MODE_TYPE_DRIVER 297000 1920 2008 2052 2200 0 1080 1084 1089 1125 0 (Z.lor DRM_MODE_FLAG_PHSYNC DRM_MODE_FLAG_PVSYNC));
    with_vrefresh 100 (DRM_MODE "1920x1080" DRM_MODE_TYPE_DRIVER 297000 1920 2448 2492 2640 0 1080 1084 1094 1125 0 (Z.lor DRM_MODE_FLAG_PHSYNC DRM_MODE_FLAG_PVSYNC)) ].

Definition edid_cea_modes : list drm_display_mode := edid_cea_modes_1 ++ edid_cea_modes_2.

Record minimode := mk_minimode { mini_w : Z; mini_h : Z; mini_r : Z; mini_rb : bool }.

Definition est3_modes : list minimode :=
  [ mk_minimode 640 350 85 false; mk_minimode 640 400 85 false; mk_minimode 720 400 85 false;
    mk_minimode 640 480 85 false; mk_minimode 848 480 60 false; mk_minimode 800 600 85 false;
    mk_minimode 1024 768 85 false; mk_minimode 1152 864 75 false; mk_minimode 1280 768 60 true;
    mk_minimode 1280 768 60 false; mk_minimode 1280 768 75 false; mk_minimode 1280 768 85 false;
    mk_minimode 1280 960 60 false; mk_minimode 1280 960 85 false; mk_minimode 1280 1024 60 false;
    mk_minimode 1280 1024 85 false; mk_minimode 1360 768 60 false; mk_minimode 1440 900 60 true;
    mk_minimode 1440 900 60 false; mk_minimode 1440 900 75 false; mk_minimode 1440 900 85 false;
    mk_minimode 1400 1050 60 true; mk_minimode 1400 1050 60 false; mk_minimode 1400 1050 75 false;
    mk_minimode 1400 1050 85 false; mk_minimode 1680 1050 60 true; mk_minimode 1680 1050 60 false;
    mk_minimode 1680 1050 75 false; mk_minimode 1680 1050 85 false; mk_minimode 1600 1200 60 false;
    mk_minimode 1600 1200 65 false; mk_minimode 1600 1200 70 false; mk_minimode 1600 1200 75 false;
    mk_minimode 1600 1200 85 false; mk_minimode 1792 1344 60 false; mk_minimode 1792 1344 85 false;
    mk_minimode 1856 1392 60 false; mk_minimode 1856 1392 75 false; mk_minimode 1920 1200 60 true;
    mk_minimode 1920 1200 60 false; mk_minimode 1920 1200 75 false; mk_minimode 1920 1200 85 false;
    mk_minimode 1920 1440 60 false; mk_minimode 1920 1440 75 false ].

Definition extra_modes : list minimode :=
  [ mk_minimode 1024 576 60 false; mk_minimode 1366 768 60 false; mk_minimode 1600 900 60 false;
    mk_minimode 1680 945 60 false; mk_minimode 1920 1080 60 false; mk_minimode 2048 1152 60 false;
    mk_minimode 2048 1536 60 false ].

(** ** What the tables satisfy *)

(** The sync pulses are inside the blanking. *)
Definition timings_ordered (m : drm_display_mode) : bool :=
  (0 <? clock m) && (0 <? hdisplay m) && (hdisplay m <? hsync_start m) && (hsync_start m <? hsync_end m) &&
  (hsync_end m <=? htotal m) && (0 <? vdisplay m) && (vdisplay m <=? vsync_start m) &&
  (vsync_start m <? vsync_end m) && (vsync_end m <=? vtotal m).

(** The refresh rate computed from the timings, whatever the field says. *)
Definition computed_vrefresh (m : drm_display_mode) : Z := drm_mode_vrefresh (with_vrefresh 0 m).

