(* ===== verification/EdidBase.v ===== *)
(** * EDID memory and the state of mode probing (drm_edid.c)

    An EDID is an array of bytes that the code reads and, for quirky monitors,
    writes.  The state of probing is that array, the probed modes of the connector
    and the outcomes of the allocations to come.  Reading or writing outside the
    array, and dividing by zero, are faults ([None]). *)

From stdpp Require Import strings.
From S2P Require Import Prelude Modes EdidTables.

Record scan := mk_scan { raw : list Z; probed : list drm_display_mode; mem : list bool }.

(** ** Programs over that state *)

Definition M (A : Type) : Type := scan -> option (A * scan).

#[export] Instance M_ret : MRet M := fun _ a s => Some (a, s).
#[export] Instance M_bind : MBind M := fun _ _ k m s =>
  match m s with Some (a, s') => k a s' | None => None end.

Definition fault {A} : M A := fun _ => None.
Definition lift {A} (o : option A) : M A := fun s => match o with Some a => Some (a, s) | None => None end.
Definition get_probed : M (list drm_display_mode) := fun s => Some (probed s, s).
Definition set_probed (l : list drm_display_mode) : M unit := fun s => Some (tt, mk_scan (raw s) l (mem s)).

Definition byte_at (l : list Z) (i : Z) : option Z := if i <? 0 then None else l !! Z.to_nat i.

(** Reading and writing a byte of the EDID. *)
Definition rd (i : Z) : M Z := fun s => match byte_at (raw s) i with Some b => Some (b, s) | None => None end.
Definition wr (i v : Z) : M unit := fun s =>
  match byte_at (raw s) i with
  | Some _ => Some (tt, mk_scan (<[Z.to_nat i := v]> (raw s)) (probed s) (mem s))
  | None => None
  end.

(** Whether the next allocation succeeds; when nothing is said about it, it does. *)
Definition alloc : M bool := fun s =>
  match mem s with [] => Some (true, s) | b :: mem => Some (b, mk_scan (raw s) (probed s) mem) end.

Definition u8 (z : Z) : Z := z mod 256.

(** ** Modes *)

Definition drm_mode_create : M (option drm_display_mode) :=
  a ← alloc;
  mret (if (a : bool) then Some (DRM_MODE EmptyString 0 0 0 0 0 0 0 0 0 0 0 0 0) else None).

Definition drm_mode_copy (dst src : drm_display_mode) : drm_display_mode := src.

Definition drm_mode_duplicate (mode : drm_display_mode) : M (option drm_display_mode) :=
  nmode ← drm_mode_create;
  match nmode with None => mret None | Some nmode => mret (Some (drm_mode_copy nmode mode)) end.

Definition drm_mode_probed_add (mode : drm_display_mode) : M unit :=
  l ← get_probed; set_probed (l ++ [mode]).

(** The generators of drm_modes.c, on the next allocation. *)
Definition cvt_mode (hd vd refresh : Z) (reduced interlaced margins : bool) : M (option drm_display_mode) :=
  a ← alloc; lift (drm_cvt_mode a hd vd refresh reduced interlaced margins).
Definition gtf_mode (hd vd refresh : Z) (lace : bool) (margins : Z) : M (option drm_display_mode) :=
  a ← alloc; lift (drm_gtf_mode a hd vd refresh lace margins).
Definition gtf_mode_complex (hd vd refresh : Z) (lace : bool) (margins m c2 k j2 : Z)
    : M (option drm_display_mode) :=
  a ← alloc; lift (drm_gtf_mode_complex a hd vd refresh lace margins m c2 k j2).

(** [for (i = from; i < from + n; i++) c = f(i, c);] *)
Fixpoint for_loop {C} (n : nat) (i : Z) (f : Z -> C -> M C) (c : C) : M C :=
  match n with O => mret c | S n => c ← f i c; for_loop n (i + 1) f c end.

(** ** The layout of struct edid and of the descriptors in it *)

Definition EDID_LENGTH : Z := 128.
Definition EDID_EST_TIMINGS : Z := 16.
Definition EDID_STD_TIMINGS : Z := 8.
Definition EDID_DETAILED_TIMINGS : Z := 4.
Definition DRM_MAX_EDID_EXT_NUM : Z := 4.
Definition CEA_EXT : Z := 0x02.
Definition VTB_EXT : Z := 0x10.
Definition EDID_TIMING_ASPECT_SHIFT : Z := 6.
Definition EDID_TIMING_ASPECT_MASK : Z := 0xc0.
Definition EDID_TIMING_VFREQ_SHIFT : Z := 0.
Definition EDID_TIMING_VFREQ_MASK : Z := 0x3f.
Definition DRM_EDID_PT_HSYNC_POSITIVE : Z := 0x2.
Definition DRM_EDID_PT_VSYNC_POSITIVE : Z := 0x4.
Definition DRM_EDID_PT_SEPARATE_SYNC : Z := 0x18.
Definition DRM_EDID_PT_STEREO : Z := 0x20.
Definition DRM_EDID_PT_INTERLACED : Z := 0x80.
Definition EDID_DETAIL_EST_TIMINGS : Z := 0xf7.
Definition EDID_DETAIL_CVT_3BYTE : Z := 0xf8.
Definition EDID_DETAIL_STD_MODES : Z := 0xfa.
Definition EDID_DETAIL_MONITOR_NAME : Z := 0xfc.
Definition EDID_DETAIL_MONITOR_RANGE : Z := 0xfd.
Definition DRM_EDID_INPUT_DIGITAL : Z := 0x80.
Definition DRM_EDID_FEATURE_DEFAULT_GTF : Z := 0x1.
Definition DRM_EDID_FEATURE_PREFERRED_TIMING : Z := 0x2.

(** Offsets in [struct edid]. *)
Definition edid_mfg_id : Z := 8.
Definition edid_prod_code : Z := 10.
Definition edid_version : Z := 18.
Definition edid_revision : Z := 19.
Definition edid_input : Z := 20.
Definition edid_width_cm : Z := 21.
Definition edid_height_cm : Z := 22.
Definition edid_features : Z := 24.
Definition edid_established_timings : Z := 35.
Definition edid_standard_timings : Z := 38.
Definition edid_detailed_timings : Z := 54.
Definition edid_extensions : Z := 126.

Definition version_greater (maj min : Z) : M bool :=
  v ← rd edid_version; r ← rd edid_revision; mret ((v >? maj) || ((v =? maj) && (r >? min))).

(** [struct detailed_pixel_timing] at address [pt], two bytes into a
    [struct detailed_timing]. *)
Definition hactive_lo : Z := 0.
Definition hblank_lo : Z := 1.
Definition hactive_hblank_hi : Z := 2.
Definition vactive_lo : Z := 3.
Definition vblank_lo : Z := 4.
Definition vactive_vblank_hi : Z := 5.
Definition hsync_offset_lo : Z := 6.
Definition hsync_pulse_width_lo : Z := 7.
Definition vsync_offset_pulse_width_lo : Z := 8.
Definition hsync_vsync_offset_pulse_width_hi : Z := 9.
Definition width_mm_lo : Z := 10.
Definition height_mm_lo : Z := 11.
Definition width_height_mm_hi : Z := 12.
Definition misc : Z := 15.
(** [data.other_data.type] and [data.other_data.data] in a [struct detailed_timing]. *)
Definition other_type : Z := 3.
Definition other_data : Z := 5.
Definition range_flags : Z := 10.
