(* ===== verification/EdidBlock.v ===== *)
(** * EDID blocks: validation and the fetch over DDC (drm_edid.c)

    The check of a block, which repairs a damaged header, and the read of a whole
    EDID over an I2C bus.  The bus is an argument: [i2c_transfer] takes the messages
    and gives the number of messages sent (or an error) and the bytes that were
    read.  A store outside the buffer is a fault. *)

From S2P Require Import Prelude Modes EdidTables EdidBase.

(** ** Blocks *)

Definition edid_header : list Z := [0x00; 0xff; 0xff; 0xff; 0xff; 0xff; 0xff; 0x00].
Definition edid_fixup : Z := 6.

Definition slice (l : list Z) (i n : Z) : option (list Z) :=
  if (0 <=? i) && (0 <=? n) && (i + n <=? Z.of_nat (length l))
  then Some (take (Z.to_nat n) (drop (Z.to_nat i) l)) else None.

Definition store (l : list Z) (i : Z) (data : list Z) : option (list Z) :=
  if (0 <=? i) && (i + Z.of_nat (length data) <=? Z.of_nat (length l))
  then Some (take (Z.to_nat i) l ++ data ++ drop (Z.to_nat i + length data) l) else None.

(** How many bytes of the header are right. *)
Fixpoint header_score (b header : list Z) : Z :=
  match b, header with
  | x :: b, y :: header => (if x =? y then 1 else 0) + header_score b header
  | _, _ => 0
  end.

Definition drm_edid_header_is_valid (raw_edid : list Z) : Z := header_score raw_edid edid_header.

Definition csum (b : list Z) : Z := foldl (fun c x => u8 (c + x)) 0 b.

(** [drm_edid_block_valid] of the block at [off]: the verdict and the memory, in
    which the header of block 0 may have been repaired. *)
Definition drm_edid_block_valid (l : list Z) (off block : Z) : option (bool * list Z) :=
  raw_edid ← slice l off EDID_LENGTH;
  let score := drm_edid_header_is_valid raw_edid in
  if (block =? 0) && (score <? edid_fixup) then Some (false, l) else
  l ← (if (block =? 0) && negb (score =? 8) then store l off edid_header else Some l);
  raw_edid ← slice l off EDID_LENGTH;
  tag ← byte_at l off;
  version ← byte_at l (off + edid_version);
  if negb (csum raw_edid =? 0) && negb (tag =? 0x02) then Some (false, l) else
  if (tag =? 0) && negb (version =? 1) then Some (false, l) else
  Some (true, l).

(** [for (i = 0; i <= edid->extensions; i++)]. *)
Fixpoint valid_loop (fuel : nat) (i : Z) (l : list Z) : option (bool * list Z) :=
  match fuel with
  | O => None
  | S fuel =>
      n ← byte_at l edid_extensions;
      if i <=? n then
        '(v, l) ← drm_edid_block_valid l (i * EDID_LENGTH) i;
        if (v : bool) then valid_loop fuel (i + 1) l else Some (false, l)
      else Some (true, l)
  end.

Definition drm_edid_is_valid (l : list Z) : option (bool * list Z) := valid_loop 257 0 l.

(** ** The fetch *)

Record i2c_msg := mk_msg { addr : Z; is_read : bool; len : Z; buf : list Z }.

Definition DDC_ADDR : Z := 0x50.
Definition DDC_SEGMENT_ADDR : Z := 0x30.
Definition ENXIO : Z := 6.

Section Fetch.
Context {bus : Type} (i2c_transfer : bus -> list i2c_msg -> Z * list Z * bus).

(** The messages that ask for [len] bytes of a block; the first is left out for
    segment 0. *)
Definition ddc_msgs (block len : Z) : list i2c_msg :=
  let start := u8 (block * EDID_LENGTH) in
  let segment := u8 (Z.shiftr block 1) in
  (if segment =? 0 then [] else [mk_msg DDC_SEGMENT_ADDR false 1 [segment]]) ++
  [mk_msg DDC_ADDR false 1 [start]; mk_msg DDC_ADDR true len []].

(** The loop with [retries] left; the bytes read are stored at [at_]. *)
Fixpoint probe_loop (retries : nat) (b : bus) (l : list Z) (at_ block len : Z)
    : option (Z * list Z * bus) :=
  match retries with
  | O => None
  | S retries =>
      let msgs := ddc_msgs block len in
      let xfers := Z.of_nat (length msgs) in
      let '(ret, data, b) := i2c_transfer b msgs in
      l ← store l at_ data;
      if ret =? - ENXIO then Some (-1, l, b) else
      if ret =? xfers then Some (0, l, b) else
      match retries with O => Some (-1, l, b) | S _ => probe_loop retries b l at_ block len end
  end.

Definition drm_do_probe_ddc_edid (b : bus) (l : list Z) (at_ block len : Z) : option (Z * list Z * bus) :=
  probe_loop 5 b l at_ block len.

Definition drm_edid_is_zero (l : list Z) (length : Z) : bool :=
  forallb (Z.eqb 0) (take (Z.to_nat (4 * (length / 4))) l).

(** The counters of the connector. *)
Record counters := mk_counters { null_edid_counter : Z; bad_edid_counter : Z }.

Inductive base_end := BaseValid | BaseOut | BaseZero | BaseTried.

(** The four attempts at the base block, from attempt [4 - tries]. *)
Fixpoint base_loop (tries : nat) (i : Z) (b : bus) (l : list Z) : option (base_end * list Z * bus) :=
  match tries with
  | O => Some (BaseTried, l, b)
  | S tries =>
      '(ret, l, b) ← drm_do_probe_ddc_edid b l 0 0 EDID_LENGTH;
      if negb (ret =? 0) then Some (BaseOut, l, b) else
      '(v, l) ← drm_edid_block_valid l 0 0;
      if (v : bool) then Some (BaseValid, l, b) else
      if (i =? 0) && drm_edid_is_zero l EDID_LENGTH then Some (BaseZero, l, b) else
      base_loop tries (i + 1) b l
  end.

(** The four attempts at extension block [j]: whether it could be read at all, and
    whether it was valid. *)
Fixpoint block_loop (tries : nat) (j valid_extensions : Z) (b : bus) (l : list Z)
    : option (bool * bool * list Z * bus) :=
  match tries with
  | O => Some (true, false, l, b)
  | S tries =>
      let off := (valid_extensions + 1) * EDID_LENGTH in
      '(ret, l, b) ← drm_do_probe_ddc_edid b l off j EDID_LENGTH;
      if negb (ret =? 0) then Some (false, false, l, b) else
      '(v, l) ← drm_edid_block_valid l off j;
      if (v : bool) then Some (true, true, l, b) else block_loop tries j valid_extensions b l
  end.

(** [for (j = 1; j <= block[0x7e]; j++)]; [None] is the jump to [out]. *)
Fixpoint extensions_loop (fuel : nat) (j valid_extensions : Z) (b : bus) (l : list Z)
    : option (option Z * list Z * bus) :=
  match fuel with
  | O => None
  | S fuel =>
      n ← byte_at l edid_extensions;
      if j <=? n then
        '(readable, valid, l, b) ← block_loop 4 j valid_extensions b l;
        if negb readable then Some (None, l, b) else
        extensions_loop fuel (j + 1) (if (valid : bool) then u8 (valid_extensions + 1) else valid_extensions) b l
      else Some (Some valid_extensions, l, b)
  end.

(** The end of the fetch: the number of extensions and the checksum are corrected. *)
Definition correct_extensions (l : list Z) (valid_extensions : Z) : option (list Z) :=
  n ← byte_at l edid_extensions;
  if valid_extensions =? n then Some l else
  c ← byte_at l (EDID_LENGTH - 1);
  l ← store l (EDID_LENGTH - 1) [u8 (c + (n - valid_extensions))];
  store l edid_extensions [valid_extensions].

(** [block] is the memory kmalloc gives, if any. *)
Definition drm_do_get_edid (b : bus) (c : counters) (block : option (list Z))
    : option (option (list Z) * counters * bus) :=
  match block with
  | None => Some (None, c, b)
  | Some l =>
      '(r, l, b) ← base_loop 4 0 b l;
      let bad := mk_counters (null_edid_counter c) (u32 (bad_edid_counter c + 1)) in
      match r with
      | BaseOut => Some (None, c, b)
      | BaseZero => Some (None, mk_counters (s32 (null_edid_counter c + 1)) (bad_edid_counter bad), b)
      | BaseTried => Some (None, bad, b)
      | BaseValid =>
          n ← byte_at l edid_extensions;
          if n =? 0 then Some (Some l, c, b) else
          '(valid, l, b) ← extensions_loop 256 1 0 b l;
          match valid with
          | None => Some (None, c, b)
          | Some valid_extensions => l ← correct_extensions l valid_extensions; Some (Some l, c, b)
          end
      end
  end.

Definition drm_probe_ddc (b : bus) (out : Z) : option (bool * bus) :=
  '(ret, _, b) ← drm_do_probe_ddc_edid b [out] 0 0 1; Some (ret =? 0, b).

(** [out] is the byte on the stack that the probe reads into. *)
Definition drm_get_edid (b : bus) (c : counters) (out : Z) (block : option (list Z))
    : option (option (list Z) * counters * bus) :=
  '(p, b) ← drm_probe_ddc b out;
  if (p : bool) then drm_do_get_edid b c block else Some (None, c, b).
End Fetch.
