(* ===== verification/EdidModes.v ===== *)
(** * Modes from the base block and its descriptors (drm_edid.c)

    The detailed, standard, established, CVT and inferred timings of an EDID, as
    programs over the probing state of EdidBase. *)

From stdpp Require Import strings.
From S2P Require Import Prelude Modes EdidTables EdidBase.

Open Scope string_scope.
Open Scope Z_scope.

(** ** Quirks *)

(** The three letters packed in the vendor field. *)
Definition vendor_letters (m0 m1 : Z) : list Z :=
  [ Z.shiftr (Z.land m0 0x7c) 2 + 64;
    Z.lor (Z.shiftl (Z.land m0 0x3) 3) (Z.shiftr (Z.land m1 0xe0) 5) + 64;
    Z.land m1 0x1f + 64 ].

Definition char_codes (s : string) : list Z :=
  map (fun c => Z.of_N (Ascii.N_of_ascii c)) (String.list_ascii_of_string s).

Definition edid_vendor (vendor : string) : M bool :=
  m0 ← rd edid_mfg_id; m1 ← rd (edid_mfg_id + 1);
  mret (bool_decide (vendor_letters m0 m1 = char_codes vendor)).

Definition EDID_PRODUCT_ID : M Z :=
  p0 ← rd edid_prod_code; p1 ← rd (edid_prod_code + 1); mret (Z.lor p0 (Z.shiftl p1 8)).

Fixpoint find_quirks (l : list edid_quirk) : M Z :=
  match l with
  | [] => mret 0
  | quirk :: l =>
      v ← edid_vendor (quirk_vendor quirk);
      p ← EDID_PRODUCT_ID;
      if v && (p =? product_id quirk) then mret (quirks quirk) else find_quirks l
  end.

Definition edid_get_quirks : M Z := find_quirks edid_quirk_list.

Definition MODE_SIZE (m : drm_display_mode) : Z := s32 (hdisplay m * vdisplay m).
Definition MODE_REFRESH_DIFF (m : drm_display_mode) (target_refresh : Z) : Z :=
  Z.abs (s32 (vrefresh m - target_refresh)).

(** The walk over the modes after the first: the mode preferred so far and its
    position. *)
Fixpoint choose_preferred (target_refresh : Z) (l : list drm_display_mode) (i : nat)
    (pos : nat) (preferred : drm_display_mode) : nat :=
  match l with
  | [] => pos
  | cur :: l =>
      let '(pos, preferred) := if MODE_SIZE cur >? MODE_SIZE preferred then (i, cur) else (pos, preferred) in
      let '(pos, preferred) :=
        if (MODE_SIZE cur =? MODE_SIZE preferred) &&
           (MODE_REFRESH_DIFF cur target_refresh <? MODE_REFRESH_DIFF preferred target_refresh)
        then (i, cur) else (pos, preferred) in
      choose_preferred target_refresh l (S i) pos preferred
  end.

Definition fixup_preferred (qs : Z) (l : list drm_display_mode) : list drm_display_mode :=
  match l with
  | [] => []
  | m :: rest =>
      let target_refresh := if has_flag qs EDID_QUIRK_PREFER_LARGE_60 then 60 else 0 in
      let target_refresh := if has_flag qs EDID_QUIRK_PREFER_LARGE_75 then 75 else target_refresh in
      let pos := choose_preferred target_refresh rest 1 0 m in
      alter (fun m => set_type (Z.lor (type m) DRM_MODE_TYPE_PREFERRED) m) pos
        (map (fun m => set_type (Z.ldiff (type m) DRM_MODE_TYPE_PREFERRED) m) l)
  end.

Definition edid_fixup_preferred (qs : Z) : M unit := l ← get_probed; set_probed (fixup_preferred qs l).

(** ** Looking up DMT modes *)

Definition mode_is_rb (m : drm_display_mode) : bool :=
  (htotal m - hdisplay m =? 160) && (hsync_end m - hdisplay m =? 80) &&
  (hsync_end m - hsync_start m =? 32) && (vsync_start m - vdisplay m =? 3).

Definition dmt_matches (hsize vsize fresh : Z) (rb : bool) (m : drm_display_mode) : bool :=
  (hsize =? hdisplay m) && (vsize =? vdisplay m) && (fresh =? drm_mode_vrefresh m) &&
  Bool.eqb rb (mode_is_rb m).

Definition drm_mode_find_dmt (hsize vsize fresh : Z) (rb : bool) : M (option drm_display_mode) :=
  match List.find (dmt_matches hsize vsize fresh rb) drm_dmt_modes with
  | Some ptr => drm_mode_duplicate ptr
  | None => mret None
  end.

(** ** The walk over the detailed blocks *)

Section Walk.
Context {C : Type} (cb : Z -> C -> M C).

Definition cea_for_each_detailed_block (ext : Z) (c : C) : M C :=
  d ← rd (ext + 2);
  let n := Z.quot (127 - d) 18 in
  for_loop (Z.to_nat n) 0 (fun i c => cb (ext + d + 18 * i) c) c.

Definition vtb_for_each_detailed_block (ext : Z) (c : C) : M C :=
  e2 ← rd (ext + 2);
  let n := Z.min e2 6 in
  v ← rd (ext + 1);
  if negb (v =? 1) then mret c else
  for_loop (Z.to_nat n) 0 (fun i c => cb (ext + 5 + 18 * i) c) c.

(** [for (i = 1; i <= raw_edid[0x7e]; i++)]. *)
Fixpoint ext_loop (fuel : nat) (i : Z) (c : C) : M C :=
  match fuel with
  | O => fault
  | S fuel =>
      n ← rd edid_extensions;
      if i <=? n then
        let ext := i * EDID_LENGTH in
        tag ← rd ext;
        c ← (if tag =? CEA_EXT then cea_for_each_detailed_block ext c
             else if tag =? VTB_EXT then vtb_for_each_detailed_block ext c
             else mret c);
        ext_loop fuel (i + 1) c
      else mret c
  end.

Definition drm_for_each_detailed_block (c : C) : M C :=
  c ← for_loop (Z.to_nat EDID_DETAILED_TIMINGS) 0 (fun i c => cb (edid_detailed_timings + 18 * i) c) c;
  ext_loop 256 1 c.
End Walk.

Definition is_rb (t : Z) (data : bool) : M bool :=
  r3 ← rd (t + 3);
  if r3 =? EDID_DETAIL_MONITOR_RANGE then
    r15 ← rd (t + 15); mret (if has_flag r15 0x10 then true else data)
  else mret data.

Definition drm_monitor_supports_rb : M bool :=
  revision ← rd edid_revision;
  if revision >=? 4 then drm_for_each_detailed_block is_rb false else
  input ← rd edid_input; mret (has_flag input DRM_EDID_INPUT_DIGITAL).

(** The pointer [*(u8 ** )data]. *)
Definition find_gtf2 (t : Z) (data : option Z) : M (option Z) :=
  r3 ← rd (t + 3);
  if r3 =? EDID_DETAIL_MONITOR_RANGE then
    r10 ← rd (t + 10); mret (if r10 =? 0x02 then Some t else data)
  else mret data.

Definition drm_gtf2_hbreak : M Z :=
  r ← drm_for_each_detailed_block find_gtf2 None;
  match r with Some r => r12 ← rd (r + 12); mret (r12 * 2) | None => mret 0 end.
Definition drm_gtf2_2c : M Z :=
  r ← drm_for_each_detailed_block find_gtf2 None;
  match r with Some r => rd (r + 13) | None => mret 0 end.
Definition drm_gtf2_m : M Z :=
  r ← drm_for_each_detailed_block find_gtf2 None;
  match r with
  | Some r => r15 ← rd (r + 15); r14 ← rd (r + 14); mret (Z.shiftl r15 8 + r14) | None => mret 0 end.
Definition drm_gtf2_k : M Z :=
  r ← drm_for_each_detailed_block find_gtf2 None;
  match r with Some r => rd (r + 16) | None => mret 0 end.
Definition drm_gtf2_2j : M Z :=
  r ← drm_for_each_detailed_block find_gtf2 None;
  match r with Some r => rd (r + 17) | None => mret 0 end.

(** ** Standard timings *)

Inductive timing_level := LEVEL_DMT | LEVEL_GTF | LEVEL_GTF2 | LEVEL_CVT.

Definition standard_timing_level : M timing_level :=
  revision ← rd edid_revision;
  if revision >=? 2 then
    features ← rd edid_features;
    if (revision >=? 4) && has_flag features DRM_EDID_FEATURE_DEFAULT_GTF then mret LEVEL_CVT else
    hbreak ← drm_gtf2_hbreak;
    if negb (hbreak =? 0) then mret LEVEL_GTF2 else mret LEVEL_GTF
  else mret LEVEL_DMT.

Definition bad_std_timing (a b : Z) : bool :=
  ((a =? 0x00) && (b =? 0x00)) || ((a =? 0x01) && (b =? 0x01)) || ((a =? 0x20) && (b =? 0x20)).

(** The size a standard timing stands for. *)
Definition std_size (t_hsize vfreq_aspect revision : Z) : Z * Z * Z :=
  let aspect_ratio := Z.shiftr (Z.land vfreq_aspect EDID_TIMING_ASPECT_MASK) EDID_TIMING_ASPECT_SHIFT in
  let vfreq := Z.shiftr (Z.land vfreq_aspect EDID_TIMING_VFREQ_MASK) EDID_TIMING_VFREQ_SHIFT in
  let hsize := t_hsize * 8 + 248 in
  let vrefresh_rate := vfreq + 60 in
  let vsize :=
    if aspect_ratio =? 0 then if revision <? 3 then hsize else Z.quot (hsize * 10) 16
    else if aspect_ratio =? 1 then Z.quot (hsize * 3) 4
    else if aspect_ratio =? 2 then Z.quot (hsize * 4) 5
    else Z.quot (hsize * 9) 16 in
  if (vrefresh_rate =? 60) && (((hsize =? 1360) && (vsize =? 765)) || ((hsize =? 1368) && (vsize =? 769)))
  then (1366, 768, vrefresh_rate) else (hsize, vsize, vrefresh_rate).

(** The HDTV mode: [hdisplay] and the horizontal sync of the CVT mode are moved. *)
Definition shift_1366 (m : drm_display_mode) : drm_display_mode :=
  mk_mode (name m) (status m) (type m) (clock m) 1366 (s32 (hsync_start m - 1)) (s32 (hsync_end m - 1))
    (htotal m) (hskew m) (vdisplay m) (vsync_start m) (vsync_end m) (vtotal m) (vscan m) (flags m)
    (width_mm m) (height_mm m) (crtc m) (vrefresh m) (hsync m).

(** The mode generated for a standard timing that no table has. *)
Definition std_generate (timing_level : timing_level) (hsize vsize vrefresh_rate : Z)
    : M (option drm_display_mode) :=
  match timing_level with
  | LEVEL_DMT => mret None
  | LEVEL_GTF => gtf_mode hsize vsize vrefresh_rate false 0
  | LEVEL_GTF2 =>
      mode ← gtf_mode hsize vsize vrefresh_rate false 0;
      match mode with
      | None => mret None
      | Some mode =>
          hs ← lift (drm_mode_hsync mode);
          hbreak ← drm_gtf2_hbreak;
          if hs >? hbreak then
            m ← drm_gtf2_m; c2 ← drm_gtf2_2c; k ← drm_gtf2_k; j2 ← drm_gtf2_2j;
            gtf_mode_complex hsize vsize vrefresh_rate false 0 m c2 k j2
          else mret (Some mode)
      end
  | LEVEL_CVT => cvt_mode hsize vsize vrefresh_rate false false false
  end.

Definition drm_mode_std (t revision : Z) : M (option drm_display_mode) :=
  timing_level ← standard_timing_level;
  t_hsize ← rd t;
  vfreq_aspect ← rd (t + 1);
  if bad_std_timing t_hsize vfreq_aspect then mret None else
  let '(hsize, vsize, vrefresh_rate) := std_size t_hsize vfreq_aspect revision in
  l ← get_probed;
  if existsb (fun m => (hdisplay m =? hsize) && (vdisplay m =? vsize) &&
                       (drm_mode_vrefresh m =? vrefresh_rate)) l then mret None else
  if (hsize =? 1366) && (vsize =? 768) && (vrefresh_rate =? 60) then
    mode ← cvt_mode 1366 768 vrefresh_rate false false false;
    mret (option_map shift_1366 mode)
  else
  rb ← drm_monitor_supports_rb;
  mode ← (if (rb : bool) then drm_mode_find_dmt hsize vsize vrefresh_rate true else mret None);
  match mode with
  | Some mode => mret (Some mode)
  | None =>
      mode ← drm_mode_find_dmt hsize vsize vrefresh_rate false;
      match mode with
      | Some mode => mret (Some mode)
      | None => std_generate timing_level hsize vsize vrefresh_rate
      end
  end.

(** ** Detailed timings *)

Definition cea_interlaced : list (Z * Z) :=
  [(1920, 1080); (720, 480); (1440, 480); (2880, 480); (720, 576); (1440, 576); (2880, 576)].

(** The vertical timings of a field become those of a frame. *)
Definition double_vertical (m : drm_display_mode) : drm_display_mode :=
  mk_mode (name m) (status m) (type m) (clock m) (hdisplay m) (hsync_start m) (hsync_end m) (htotal m) (hskew m)
    (vdisplay m * 2) (vsync_start m * 2) (vsync_end m * 2) (Z.lor (vtotal m * 2) 1) (vscan m) (flags m)
    (width_mm m) (height_mm m) (crtc m) (vrefresh m) (hsync m).

Definition set_flags (f : Z) (m : drm_display_mode) : drm_display_mode :=
  mk_mode (name m) (status m) (type m) (clock m) (hdisplay m) (hsync_start m) (hsync_end m) (htotal m) (hskew m)
    (vdisplay m) (vsync_start m) (vsync_end m) (vtotal m) (vscan m) f (width_mm m) (height_mm m)
    (crtc m) (vrefresh m) (hsync m).

Definition drm_mode_do_interlace_quirk (pt_misc : Z) (mode : drm_display_mode) : drm_display_mode :=
  if negb (has_flag pt_misc DRM_EDID_PT_INTERLACED) then mode else
  let mode := foldl (fun mode '(w, h) =>
    if (hdisplay mode =? w) && (vdisplay mode =? Z.quot h 2) then double_vertical mode else mode)
    mode cea_interlaced in
  set_flags (Z.lor (flags mode) DRM_MODE_FLAG_INTERLACE) mode.

(** The numbers of a detailed timing. *)
Record pixel_timing := mk_pixel_timing {
  pt_hactive : Z; pt_vactive : Z; pt_hblank : Z; pt_vblank : Z; pt_hsync_offset : Z;
  pt_hsync_pulse_width : Z; pt_vsync_offset : Z; pt_vsync_pulse_width : Z }.

Definition decode_pixel_timing (pt : Z) : M pixel_timing :=
  ha ← rd (pt + hactive_lo); hb ← rd (pt + hblank_lo); hh ← rd (pt + hactive_hblank_hi);
  va ← rd (pt + vactive_lo); vb ← rd (pt + vblank_lo); vh ← rd (pt + vactive_vblank_hi);
  hso ← rd (pt + hsync_offset_lo); hpw ← rd (pt + hsync_pulse_width_lo);
  vlo ← rd (pt + vsync_offset_pulse_width_lo); hi ← rd (pt + hsync_vsync_offset_pulse_width_hi);
  mret (mk_pixel_timing
    (Z.lor (Z.shiftl (Z.land hh 0xf0) 4) ha)
    (Z.lor (Z.shiftl (Z.land vh 0xf0) 4) va)
    (Z.lor (Z.shiftl (Z.land hh 0xf) 8) hb)
    (Z.lor (Z.shiftl (Z.land vh 0xf) 8) vb)
    (Z.lor (Z.shiftl (Z.land hi 0xc0) 2) hso)
    (Z.lor (Z.shiftl (Z.land hi 0x30) 4) hpw)
    (Z.lor (Z.shiftr (Z.land hi 0xc) 2) (Z.shiftr vlo 4))
    (Z.lor (Z.shiftl (Z.land hi 0x3) 4) (Z.land vlo 0xf))).

(** The mode of a timing, before the interlace quirk. *)
Definition mode_of_timing (p : pixel_timing) (pixel_clock : Z) : drm_display_mode :=
  let hss := pt_hactive p + pt_hsync_offset p in
  let hse := hss + pt_hsync_pulse_width p in
  let ht := pt_hactive p + pt_hblank p in
  let vss := pt_vactive p + pt_vsync_offset p in
  let vse := vss + pt_vsync_pulse_width p in
  let vt := pt_vactive p + pt_vblank p in
  DRM_MODE EmptyString 0 (pixel_clock * 10)
    (pt_hactive p) hss hse (if hse >? ht then hse + 1 else ht) 0
    (pt_vactive p) vss vse (if vse >? vt then vse + 1 else vt) 0 0.

Definition set_size_type (w h : Z) (m : drm_display_mode) : drm_display_mode :=
  mk_mode (name m) (status m) DRM_MODE_TYPE_DRIVER (clock m) (hdisplay m) (hsync_start m) (hsync_end m)
    (htotal m) (hskew m) (vdisplay m) (vsync_start m) (vsync_end m) (vtotal m) (vscan m) (flags m) w h
    (crtc m) (vrefresh m) (hsync m).

(** The code from the label [set_size]. *)
Definition detailed_set_size (pt qs : Z) (mode : drm_display_mode) : M drm_display_mode :=
  wlo ← rd (pt + width_mm_lo); hlo ← rd (pt + height_mm_lo); whi ← rd (pt + width_height_mm_hi);
  let w := Z.lor wlo (Z.shiftl (Z.land whi 0xf0) 4) in
  let h := Z.lor hlo (Z.shiftl (Z.land whi 0xf) 8) in
  let cm := has_flag qs EDID_QUIRK_DETAILED_IN_CM in
  let '(w, h) := if cm then (w * 10, h * 10) else (w, h) in
  '(w, h) ← (if has_flag qs EDID_QUIRK_DETAILED_USE_MAXIMUM_SIZE then
               wc ← rd edid_width_cm; hc ← rd edid_height_cm; mret (wc * 10, hc * 10)
             else mret (w, h));
  mret (drm_mode_set_name (set_size_type w h mode)).

(** [drm_mode_detailed]; it writes to the EDID for two of the quirks. *)
Definition drm_mode_detailed (timing qs : Z) : M (option drm_display_mode) :=
  let pt := timing + 2 in
  p ← decode_pixel_timing pt;
  if (pt_hactive p <? 64) || (pt_vactive p <? 64) then mret None else
  pt_misc ← rd (pt + misc);
  if has_flag pt_misc DRM_EDID_PT_STEREO then mret None else
  if (pt_hsync_pulse_width p =? 0) || (pt_vsync_pulse_width p =? 0) then mret None else
  if has_flag qs EDID_QUIRK_FORCE_REDUCED_BLANKING then
    mode ← cvt_mode (pt_hactive p) (pt_vactive p) 60 true false false;
    match mode with
    | None => mret None
    | Some mode => mode ← detailed_set_size pt qs mode; mret (Some mode)
    end
  else
  mode ← drm_mode_create;
  match mode with
  | None => mret None
  | Some _ =>
      _ ← (if has_flag qs EDID_QUIRK_135_CLOCK_TOO_HIGH then
             _ ← wr timing (Z.land 1088 0xff); wr (timing + 1) (Z.shiftr 1088 8)
           else mret tt);
      c0 ← rd timing; c1 ← rd (timing + 1);
      let mode := mode_of_timing p (Z.lor c0 (Z.shiftl c1 8)) in
      let mode := drm_mode_do_interlace_quirk pt_misc mode in
      _ ← (if has_flag qs EDID_QUIRK_DETAILED_SYNC_PP then
             b ← rd (pt + misc); wr (pt + misc) (Z.lor b (Z.lor DRM_EDID_PT_HSYNC_POSITIVE DRM_EDID_PT_VSYNC_POSITIVE))
           else mret tt);
      pt_misc ← rd (pt + misc);
      let mode := set_flags (Z.lor (flags mode)
        (if has_flag pt_misc DRM_EDID_PT_HSYNC_POSITIVE then DRM_MODE_FLAG_PHSYNC else DRM_MODE_FLAG_NHSYNC))
        mode in
      let mode := set_flags (Z.lor (flags mode)
        (if has_flag pt_misc DRM_EDID_PT_VSYNC_POSITIVE then DRM_MODE_FLAG_PVSYNC else DRM_MODE_FLAG_NVSYNC))
        mode in
      mode ← detailed_set_size pt qs mode;
      mret (Some mode)
  end.

(** ** Modes inferred from the monitor's ranges *)

Definition mode_in_hsync_range (mode : drm_display_mode) (t : Z) : M bool :=
  hmin ← rd (t + 7);
  revision ← rd edid_revision;
  t4 ← rd (t + 4);
  let hmin := if revision >=? 4 then hmin + (if has_flag t4 0x04 then 255 else 0) else hmin in
  hmax ← rd (t + 8);
  let hmax := if revision >=? 4 then hmax + (if has_flag t4 0x08 then 255 else 0) else hmax in
  hsync ← lift (drm_mode_hsync mode);
  mret ((hsync <=? hmax) && (hsync >=? hmin)).

Definition mode_in_vsync_range (mode : drm_display_mode) (t : Z) : M bool :=
  vmin ← rd (t + 5);
  revision ← rd edid_revision;
  t4 ← rd (t + 4);
  let vmin := if revision >=? 4 then vmin + (if has_flag t4 0x01 then 255 else 0) else vmin in
  vmax ← rd (t + 6);
  let vmax := if revision >=? 4 then vmax + (if has_flag t4 0x02 then 255 else 0) else vmax in
  let vsync := drm_mode_vrefresh mode in
  mret ((vsync <=? vmax) && (vsync >=? vmin)).

Definition range_pixel_clock (t : Z) : M Z :=
  t9 ← rd (t + 9);
  if (t9 =? 0) || (t9 =? 255) then mret 0 else
  revision ← rd edid_revision;
  t10 ← rd (t + 10);
  t12 ← rd (t + 12);
  if (revision >=? 4) && (t10 =? 0x04) then mret (u32 (t9 * 10000 - Z.shiftr t12 2 * 250))
  else mret (u32 (t9 * 10000 + 5001)).

Definition mode_in_range (mode : drm_display_mode) (t : Z) : M bool :=
  h ← mode_in_hsync_range mode t;
  if negb h then mret false else
  v ← mode_in_vsync_range mode t;
  if negb v then mret false else
  max_clock ← range_pixel_clock t;
  if negb (max_clock =? 0) && (u32 (clock mode) >? max_clock) then mret false else
  revision ← rd edid_revision;
  t10 ← rd (t + 10);
  t12 ← rd (t + 12);
  t13 ← rd (t + 13);
  if (revision >=? 4) && (t10 =? 0x04) && negb (t13 =? 0) &&
     (hdisplay mode >? 8 * (t13 + 256 * Z.land t12 0x3)) then mret false else
  if mode_is_rb mode then drm_monitor_supports_rb else mret true.

Fixpoint valid_inferred_loop (mode : drm_display_mode) (l : list drm_display_mode) (ok : bool) : bool :=
  match l with
  | [] => ok
  | m :: l =>
      if (hdisplay mode =? hdisplay m) && (vdisplay mode =? vdisplay m) &&
         (drm_mode_vrefresh mode =? drm_mode_vrefresh m) then false
      else valid_inferred_loop mode l
             (if (hdisplay mode <=? hdisplay m) && (vdisplay mode <=? vdisplay m) then true else ok)
  end.

Definition valid_inferred_mode (mode : drm_display_mode) : M bool :=
  l ← get_probed; mret (valid_inferred_loop mode l false).

Fixpoint dmt_range_loop (l : list drm_display_mode) (timing modes : Z) : M Z :=
  match l with
  | [] => mret modes
  | m :: l =>
      inr ← mode_in_range m timing;
      valid ← (if (inr : bool) then valid_inferred_mode m else mret false);
      if (valid : bool) then
        newmode ← drm_mode_duplicate m;
        match newmode with
        | Some newmode => _ ← drm_mode_probed_add newmode; dmt_range_loop l timing (modes + 1)
        | None => dmt_range_loop l timing modes
        end
      else dmt_range_loop l timing modes
  end.

Definition drm_dmt_modes_for_range (timing : Z) : M Z := dmt_range_loop drm_dmt_modes timing 0.

Definition fixup_mode_1366x768 (mode : drm_display_mode) : drm_display_mode :=
  if (hdisplay mode =? 1368) && (vdisplay mode =? 768) then drm_mode_set_name (shift_1366 mode) else mode.

(** The loop the two functions for GTF and CVT share, with the generator of each. *)
Fixpoint extra_range_loop (gen : minimode -> M (option drm_display_mode)) (l : list minimode)
    (timing modes : Z) : M Z :=
  match l with
  | [] => mret modes
  | m :: l =>
      newmode ← gen m;
      match newmode with
      | None => mret modes
      | Some newmode =>
          let newmode := fixup_mode_1366x768 newmode in
          inr ← mode_in_range newmode timing;
          valid ← (if (inr : bool) then valid_inferred_mode newmode else mret false);
          if (valid : bool) then
            _ ← drm_mode_probed_add newmode; extra_range_loop gen l timing (modes + 1)
          else extra_range_loop gen l timing modes
      end
  end.

Definition drm_gtf_modes_for_range (timing : Z) : M Z :=
  extra_range_loop (fun m => gtf_mode (mini_w m) (mini_h m) (mini_r m) false 0) extra_modes timing 0.

Definition drm_cvt_modes_for_range (timing : Z) : M Z :=
  rb ← drm_monitor_supports_rb;
  extra_range_loop (fun m => cvt_mode (mini_w m) (mini_h m) (mini_r m) rb false false) extra_modes timing 0.

(** [struct detailed_mode_closure] without the connector and the EDID, which are the
    state. *)
Record detailed_mode_closure := mk_closure { preferred : bool; closure_quirks : Z; modes : Z }.

Definition add_modes (c : detailed_mode_closure) (n : Z) : detailed_mode_closure :=
  mk_closure (preferred c) (closure_quirks c) (modes c + n).

Definition do_inferred_modes (timing : Z) (c : detailed_mode_closure) : M detailed_mode_closure :=
  ty ← rd (timing + other_type);
  if negb (ty =? EDID_DETAIL_MONITOR_RANGE) then mret c else
  n ← drm_dmt_modes_for_range timing;
  let c := add_modes c n in
  v ← version_greater 1 1;
  if negb v then mret c else
  fl ← rd (timing + range_flags);
  if (fl =? 0x02) || (fl =? 0x00) then n ← drm_gtf_modes_for_range timing; mret (add_modes c n)
  else if fl =? 0x04 then
    v ← version_greater 1 3;
    if negb v then mret c else n ← drm_cvt_modes_for_range timing; mret (add_modes c n)
  else mret c.

Definition add_inferred_modes : M Z :=
  v ← version_greater 1 0;
  c ← (if (v : bool) then drm_for_each_detailed_block do_inferred_modes (mk_closure false 0 0)
       else mret (mk_closure false 0 0));
  mret (modes c).

(** ** Established timings *)

(** The inner loop over the bits of a byte, from bit [j] down to bit 1. *)
Fixpoint est3_bits (timing i : Z) (j : nat) (n : Z) : M Z :=
  match j with
  | O => mret n
  | S j' =>
      match est3_modes !! Z.to_nat (i * 8 + (7 - Z.of_nat j)) with
      | None => mret n
      | Some mm =>
          b ← rd (timing + 5 + i);
          if Z.testbit b (Z.of_nat j) then
            mode ← drm_mode_find_dmt (mini_w mm) (mini_h mm) (mini_r mm) (mini_rb mm);
            match mode with
            | Some mode => _ ← drm_mode_probed_add mode; est3_bits timing i j' (n + 1)
            | None => est3_bits timing i j' n
            end
          else est3_bits timing i j' n
      end
  end.

Definition drm_est3_modes (timing : Z) : M Z := for_loop 6 0 (fun i n => est3_bits timing i 7 n) 0.

Definition do_established_modes (timing : Z) (c : detailed_mode_closure) : M detailed_mode_closure :=
  ty ← rd (timing + other_type);
  if ty =? EDID_DETAIL_EST_TIMINGS then n ← drm_est3_modes timing; mret (add_modes c n) else mret c.

Definition add_established_modes : M Z :=
  t1 ← rd edid_established_timings;
  t2 ← rd (edid_established_timings + 1);
  mfg_rsvd ← rd (edid_established_timings + 2);
  let est_bits := Z.lor (Z.lor t1 (Z.shiftl t2 8)) (Z.shiftl (Z.land mfg_rsvd 0x80) 9) in
  n ← for_loop (Z.to_nat (EDID_EST_TIMINGS + 1)) 0 (fun i n =>
    if Z.testbit est_bits i then
      m ← lift (edid_est_modes !! Z.to_nat i);
      newmode ← drm_mode_duplicate m;
      match newmode with
      | Some newmode => _ ← drm_mode_probed_add newmode; mret (n + 1)
      | None => mret n
      end
    else mret n) 0;
  v ← version_greater 1 0;
  c ← (if (v : bool) then drm_for_each_detailed_block do_established_modes (mk_closure false 0 0)
       else mret (mk_closure false 0 0));
  mret (n + modes c).

(** ** Standard, CVT and detailed modes *)

(** Add the mode of one standard timing. *)
Definition add_std (t : Z) (n : Z) : M Z :=
  revision ← rd edid_revision;
  newmode ← drm_mode_std t revision;
  match newmode with
  | Some newmode => _ ← drm_mode_probed_add newmode; mret (n + 1)
  | None => mret n
  end.

Definition do_standard_modes (timing : Z) (c : detailed_mode_closure) : M detailed_mode_closure :=
  ty ← rd (timing + other_type);
  if ty =? EDID_DETAIL_STD_MODES then
    n ← for_loop 6 0 (fun i n => add_std (timing + other_data + 2 * i) n) (modes c);
    mret (mk_closure (preferred c) (closure_quirks c) n)
  else mret c.

Definition add_standard_modes : M Z :=
  n ← for_loop (Z.to_nat EDID_STD_TIMINGS) 0 (fun i n => add_std (edid_standard_timings + 2 * i) n) 0;
  v ← version_greater 1 0;
  c ← (if (v : bool) then drm_for_each_detailed_block do_standard_modes (mk_closure false 0 0)
       else mret (mk_closure false 0 0));
  mret (n + modes c).

Definition cvt_rates : list Z := [60; 85; 75; 60; 50].

(** The size of a three byte code. *)
Definition cvt_code_size (code0 code1 : Z) : Z * Z :=
  let height := (code0 + Z.shiftl (Z.land code1 0xf0) 4 + 1) * 2 in
  let a := Z.land code1 0x0c in
  let width :=
    if a =? 0x04 then Z.quot (height * 16) 9
    else if a =? 0x08 then Z.quot (height * 16) 10
    else if a =? 0x0c then Z.quot (height * 15) 9
    else Z.quot (height * 4) 3 in
  (width, height).

Definition cvt_code_modes (code : Z) (n : Z) : M Z :=
  code0 ← rd code; code1 ← rd (code + 1); code2 ← rd (code + 2);
  if (code0 =? 0) && (code1 =? 0) && (code2 =? 0) then mret n else
  let '(width, height) := cvt_code_size code0 code1 in
  for_loop 4 1 (fun j n =>
    if Z.testbit code2 j then
      rate ← lift (cvt_rates !! Z.to_nat j);
      newmode ← cvt_mode width height rate (j =? 0) false false;
      match newmode with
      | Some newmode => _ ← drm_mode_probed_add newmode; mret (n + 1)
      | None => mret n
      end
    else mret n) n.

Definition drm_cvt_modes (timing : Z) : M Z :=
  for_loop 4 0 (fun i n => cvt_code_modes (timing + other_data + 3 * i) n) 0.

Definition do_cvt_mode (timing : Z) (c : detailed_mode_closure) : M detailed_mode_closure :=
  ty ← rd (timing + other_type);
  if ty =? EDID_DETAIL_CVT_3BYTE then n ← drm_cvt_modes timing; mret (add_modes c n) else mret c.

Definition add_cvt_modes : M Z :=
  v ← version_greater 1 2;
  c ← (if (v : bool) then drm_for_each_detailed_block do_cvt_mode (mk_closure false 0 0)
       else mret (mk_closure false 0 0));
  mret (modes c).

Definition do_detailed_mode (timing : Z) (c : detailed_mode_closure) : M detailed_mode_closure :=
  c0 ← rd timing; c1 ← rd (timing + 1);
  if negb (Z.lor c0 (Z.shiftl c1 8) =? 0) then
    newmode ← drm_mode_detailed timing (closure_quirks c);
    match newmode with
    | None => mret c
    | Some newmode =>
        let newmode := if preferred c then set_type (Z.lor (type newmode) DRM_MODE_TYPE_PREFERRED) newmode
                       else newmode in
        _ ← drm_mode_probed_add newmode;
        mret (mk_closure false (closure_quirks c) (modes c + 1))
    end
  else mret c.

Definition add_detailed_modes (qs : Z) : M Z :=
  v ← version_greater 1 3;
  features ← rd edid_features;
  let pref := if negb v then has_flag features DRM_EDID_FEATURE_PREFERRED_TIMING else true in
  c ← drm_for_each_detailed_block do_detailed_mode (mk_closure pref qs 0);
  mret (modes c).
