(* ===== verification/EdidCea.v ===== *)
(** * The CEA extension block (drm_edid.c)

    CEA modes and their alternate clocks, the data blocks of the extension, audio
    descriptors, latencies, HDMI and colour information, and drm_add_edid_modes,
    which puts the parts together. *)

From S2P Require Import Prelude Modes EdidTables EdidBase EdidBlock EdidModes.

Open Scope Z_scope.

Definition HDMI_IDENTIFIER : Z := 0x000C03.
Definition AUDIO_BLOCK : Z := 0x01.
Definition VIDEO_BLOCK : Z := 0x02.
Definition VENDOR_BLOCK : Z := 0x03.
Definition SPEAKER_BLOCK : Z := 0x04.
Definition VIDEO_CAPABILITY_BLOCK : Z := 0x07.
Definition EDID_BASIC_AUDIO : Z := 0x40.
Definition EDID_CEA_YCRCB444 : Z := 0x20.
Definition EDID_CEA_YCRCB422 : Z := 0x10.
Definition EDID_CEA_VCDB_QS : Z := 0x40.
Definition ENOTSUP : Z := 48.
Definition EPROTO : Z := 71.

(** ** The extension and its data blocks *)

Fixpoint find_cea_loop (fuel : nat) (i : Z) : M (option Z) :=
  match fuel with
  | O => fault
  | S fuel =>
      n ← rd edid_extensions;
      if i <? n then
        let edid_ext := EDID_LENGTH * (i + 1) in
        tag ← rd edid_ext;
        if tag =? CEA_EXT then mret (Some edid_ext) else find_cea_loop fuel (i + 1)
      else mret None
  end.

(** The address of the extension. *)
Definition drm_find_cea_extension : M (option Z) :=
  n ← rd edid_extensions;
  if n =? 0 then mret None else find_cea_loop 256 0.

Definition cea_db_payload_len (db : Z) : M Z := b ← rd db; mret (Z.land b 0x1f).
Definition cea_db_tag (db : Z) : M Z := b ← rd db; mret (Z.shiftr b 5).
Definition cea_revision (cea : Z) : M Z := rd (cea + 1).

(** Where the data blocks start and end; [None] is the error -ERANGE. *)
Definition cea_db_offsets (cea : Z) : M (option (Z * Z)) :=
  end_ ← rd (cea + 2);
  let end_ := if end_ =? 0 then 127 else end_ in
  mret (if (end_ <? 4) || (end_ >? 127) then None else Some (4, end_)).

(** The macro [for_each_cea_db]: [body] gets the address of a data block and says
    whether the walk goes on. *)
Fixpoint for_each_cea_db {C} (fuel : nat) (cea i end_ : Z) (body : Z -> C -> M (bool * C)) (c : C) : M C :=
  match fuel with
  | O => fault
  | S fuel =>
      if i <? end_ then
        n ← cea_db_payload_len (cea + i);
        if i + n <? end_ then
          '(go, c) ← body (cea + i) c;
          if (go : bool) then for_each_cea_db fuel cea (i + n + 1) end_ body c else mret c
        else mret c
      else mret c
  end.

Definition CEA_DB_FUEL : nat := 128.

(** ** CEA modes *)

Definition DIV_ROUND_UP (n d : Z) : Z := (n + d - 1) / d.

Definition cea_mode_alternate_clock (cea_mode : drm_display_mode) : Z :=
  let clock := u32 (clock cea_mode) in
  if negb (Z.rem (vrefresh cea_mode) 6 =? 0) then clock else
  if (vdisplay cea_mode =? 240) || (vdisplay cea_mode =? 480) then u32 (clock * 1001) / 1000
  else u32 (u32 (clock * 1000) + 1001 - 1) / 1001.

Definition cea_matches (to_match cea_mode : drm_display_mode) : bool :=
  let clock1 := u32 (clock cea_mode) in
  let clock2 := cea_mode_alternate_clock cea_mode in
  ((KHZ2PICOS (clock to_match) =? KHZ2PICOS clock1) || (KHZ2PICOS (clock to_match) =? KHZ2PICOS clock2)) &&
  drm_mode_equal_no_clocks to_match cea_mode.

Fixpoint match_cea_loop (to_match : drm_display_mode) (l : list drm_display_mode) (mode : Z) : Z :=
  match l with
  | [] => 0
  | cea_mode :: l => if cea_matches to_match cea_mode then mode + 1 else match_cea_loop to_match l (mode + 1)
  end.

Definition drm_match_cea_mode (to_match : drm_display_mode) : Z :=
  if clock to_match =? 0 then 0 else match_cea_loop to_match edid_cea_modes 0.

Definition set_clock (c : Z) (m : drm_display_mode) : drm_display_mode :=
  mk_mode (name m) (status m) (type m) c (hdisplay m) (hsync_start m) (hsync_end m) (htotal m) (hskew m)
    (vdisplay m) (vsync_start m) (vsync_end m) (vtotal m) (vscan m) (flags m) (width_mm m) (height_mm m)
    (crtc m) (vrefresh m) (hsync m).

(** The clock of the other variant of a CEA mode, when the mode is one of the two. *)
Definition other_clock (mode cea_mode : drm_display_mode) : option Z :=
  let clock1 := u32 (clock cea_mode) in
  let clock2 := cea_mode_alternate_clock cea_mode in
  if clock1 =? clock2 then None else
  if negb (u32 (clock mode) =? clock1) && negb (u32 (clock mode) =? clock2) then None else
  Some (if negb (u32 (clock mode) =? clock1) then clock1 else clock2).

(** The walk over the probed modes; [new] is the private list of new modes. *)
Fixpoint alternate_loop (l new : list drm_display_mode) : M (list drm_display_mode) :=
  match l with
  | [] => mret new
  | mode :: l =>
      match edid_cea_modes !! Z.to_nat (u8 (drm_match_cea_mode mode - 1)) with
      | None => alternate_loop l new
      | Some cea_mode =>
          match other_clock mode cea_mode with
          | None => alternate_loop l new
          | Some c =>
              newmode ← drm_mode_duplicate cea_mode;
              match newmode with
              | None => alternate_loop l new
              | Some newmode => alternate_loop l (new ++ [set_clock (s32 c) newmode])
              end
          end
      end
  end.

Fixpoint probed_add_all (l : list drm_display_mode) (modes : Z) : M Z :=
  match l with [] => mret modes | m :: l => _ ← drm_mode_probed_add m; probed_add_all l (modes + 1) end.

Definition add_alternate_cea_modes : M Z :=
  cea ← drm_find_cea_extension;
  match cea with
  | None => mret 0
  | Some _ => l ← get_probed; new ← alternate_loop l []; probed_add_all new 0
  end.

(** The loop over the short video descriptors. *)
Definition do_cea_modes (db len : Z) : M Z :=
  for_loop (Z.to_nat len) 0 (fun i modes =>
    b ← rd (db + i);
    match edid_cea_modes !! Z.to_nat (u8 (Z.land b 127 - 1)) with
    | None => mret modes
    | Some cea_mode =>
        newmode ← drm_mode_duplicate cea_mode;
        match newmode with
        | Some newmode => _ ← drm_mode_probed_add (with_vrefresh 0 newmode); mret (modes + 1)
        | None => mret modes
        end
    end) 0.

Definition add_cea_modes : M Z :=
  cea ← drm_find_cea_extension;
  match cea with
  | None => mret 0
  | Some cea =>
      rev ← cea_revision cea;
      if negb (rev >=? 3) then mret 0 else
      o ← cea_db_offsets cea;
      match o with
      | None => mret 0
      | Some (start, end_) =>
          for_each_cea_db CEA_DB_FUEL cea start end_ (fun db modes =>
            dbl ← cea_db_payload_len db;
            tag ← cea_db_tag db;
            if tag =? VIDEO_BLOCK then n ← do_cea_modes (db + 1) dbl; mret (true, modes + n)
            else mret (true, modes)) 0
      end
  end.

(** ** Audio, latency and HDMI data *)

(** The fields of the connector these functions fill in. *)
Record sink := mk_sink {
  eld : list Z; dvi_dual : bool; max_tmds_clock : Z; latency_present : bool * bool;
  video_latency : Z * Z; audio_latency : Z * Z }.

Definition MAX_ELD_BYTES : nat := 128.

Definition set_eld (l : list Z) (k : sink) : sink :=
  mk_sink l (dvi_dual k) (max_tmds_clock k) (latency_present k) (video_latency k) (audio_latency k).

(** [eld[i] = v], [eld[i] |= v] and a copy into [eld]. *)
Definition eld_set (i v : Z) (k : sink) : option sink :=
  l ← store (eld k) i [u8 v]; Some (set_eld l k).
Definition eld_or (i v : Z) (k : sink) : option sink :=
  b ← byte_at (eld k) i; eld_set i (Z.lor b v) k.
Definition eld_copy (i : Z) (data : list Z) (k : sink) : option sink :=
  l ← store (eld k) i data; Some (set_eld l k).

(** The bytes [from .. from + n - 1]. *)
Fixpoint rd_bytes (n : nat) (from : Z) : M (list Z) :=
  match n with O => mret [] | S n => b ← rd from; l ← rd_bytes n (from + 1); mret (b :: l) end.

Definition parse_hdmi_vsdb (db : Z) (k : sink) : M sink :=
  len ← cea_db_payload_len db;
  k ← (if len >=? 6 then
         b ← rd (db + 6);
         k ← lift (eld_or 5 (Z.shiftl (Z.shiftr b 7) 1) k);
         mret (mk_sink (eld k) (negb (Z.land b 1 =? 0)) (max_tmds_clock k) (latency_present k)
                 (video_latency k) (audio_latency k))
       else mret k);
  k ← (if len >=? 7 then
         b ← rd (db + 7);
         mret (mk_sink (eld k) (dvi_dual k) (b * 5) (latency_present k) (video_latency k) (audio_latency k))
       else mret k);
  k ← (if len >=? 8 then
         b ← rd (db + 8);
         mret (mk_sink (eld k) (dvi_dual k) (max_tmds_clock k)
                 (negb (Z.shiftr b 7 =? 0), negb (Z.land (Z.shiftr b 6) 1 =? 0))
                 (video_latency k) (audio_latency k))
       else mret k);
  k ← (if len >=? 9 then
         b ← rd (db + 9);
         mret (mk_sink (eld k) (dvi_dual k) (max_tmds_clock k) (latency_present k)
                 (b, (video_latency k).2) (audio_latency k))
       else mret k);
  k ← (if len >=? 10 then
         b ← rd (db + 10);
         mret (mk_sink (eld k) (dvi_dual k) (max_tmds_clock k) (latency_present k)
                 (video_latency k) (b, (audio_latency k).2))
       else mret k);
  k ← (if len >=? 11 then
         b ← rd (db + 11);
         mret (mk_sink (eld k) (dvi_dual k) (max_tmds_clock k) (latency_present k)
                 ((video_latency k).1, b) (audio_latency k))
       else mret k);
  if len >=? 12 then
    b ← rd (db + 12);
    mret (mk_sink (eld k) (dvi_dual k) (max_tmds_clock k) (latency_present k)
            (video_latency k) ((audio_latency k).1, b))
  else mret k.

Definition monitor_name (t : Z) (data : option Z) : M (option Z) :=
  ty ← rd (t + other_type); mret (if ty =? EDID_DETAIL_MONITOR_NAME then Some (t + other_data) else data).

Definition cea_db_is_hdmi_vsdb (db : Z) : M bool :=
  tag ← cea_db_tag db;
  if negb (tag =? VENDOR_BLOCK) then mret false else
  len ← cea_db_payload_len db;
  if len <? 5 then mret false else
  b1 ← rd (db + 1); b2 ← rd (db + 2); b3 ← rd (db + 3);
  mret (Z.lor (Z.lor b1 (Z.shiftl b2 8)) (Z.shiftl b3 16) =? HDMI_IDENTIFIER).

(** The loop that copies the monitor name; [n] bytes are left. *)
Fixpoint copy_name (n : nat) (name mnl : Z) (k : sink) : M (Z * sink) :=
  match n with
  | O => mret (mnl, k)
  | S n =>
      b ← rd (name + mnl);
      if b =? 0x0a then mret (mnl, k) else
      k ← lift (eld_set (20 + mnl) b k); copy_name n name (mnl + 1) k
  end.

(** One data block of [drm_edid_to_eld]. *)
Definition eld_block (mnl db : Z) (c : Z * sink) : M (bool * (Z * sink)) :=
  let '(sad_count, k) := c in
  dbl ← cea_db_payload_len db;
  tag ← cea_db_tag db;
  if tag =? AUDIO_BLOCK then
    k ← (if dbl >=? 1 then data ← rd_bytes (Z.to_nat dbl) (db + 1); lift (eld_copy (20 + mnl) data k)
         else mret k);
    mret (true, (Z.quot dbl 3, k))
  else if tag =? SPEAKER_BLOCK then
    k ← (if dbl >=? 1 then b ← rd (db + 1); lift (eld_set 7 b k) else mret k);
    mret (true, (sad_count, k))
  else if tag =? VENDOR_BLOCK then
    hdmi ← cea_db_is_hdmi_vsdb db;
    k ← (if (hdmi : bool) then parse_hdmi_vsdb db k else mret k);
    mret (true, (sad_count, k))
  else mret (true, (sad_count, k)).

Definition drm_edid_to_eld (k : sink) : M sink :=
  let k := set_eld (replicate MAX_ELD_BYTES 0) k in
  cea ← drm_find_cea_extension;
  match cea with
  | None => mret k
  | Some cea =>
      name ← drm_for_each_detailed_block monitor_name None;
      '(mnl, k) ← (match name with Some name => copy_name 13 name 0 k | None => mret (0, k) end);
      c1 ← rd (cea + 1);
      k ← lift (eld_set 4 (Z.lor (Z.shiftl c1 5) mnl) k);
      k ← lift (eld_set 0 (Z.shiftl 2 3) k);
      m0 ← rd edid_mfg_id; k ← lift (eld_set 16 m0 k);
      m1 ← rd (edid_mfg_id + 1); k ← lift (eld_set 17 m1 k);
      p0 ← rd edid_prod_code; k ← lift (eld_set 18 p0 k);
      p1 ← rd (edid_prod_code + 1); k ← lift (eld_set 19 p1 k);
      rev ← cea_revision cea;
      '(sad_count, k) ←
        (if rev >=? 3 then
           o ← cea_db_offsets cea;
           let '(start, end_) := match o with Some p => p | None => (0, 0) end in
           for_each_cea_db CEA_DB_FUEL cea start end_ (eld_block mnl) (0, k)
         else mret (0, k));
      k ← lift (eld_or 5 (Z.shiftl sad_count 4) k);
      lift (eld_set 2 (Z.quot (20 + mnl + sad_count * 3 + 3) 4) k)
  end.

(** [struct cea_sad]. *)
Record cea_sad := mk_sad { format : Z; channels : Z; freq : Z; byte2 : Z }.

Definition decode_sad (sad : Z) : M cea_sad :=
  s0 ← rd sad; s1 ← rd (sad + 1); s2 ← rd (sad + 2);
  mret (mk_sad (Z.shiftr (Z.land s0 0x78) 3) (Z.land s0 0x7) (Z.land s1 0x7F) s2).

(** The count or the negative error, and the descriptors. *)
Definition drm_edid_to_sad : M (Z * list cea_sad) :=
  cea ← drm_find_cea_extension;
  match cea with
  | None => mret (- ENOENT, [])
  | Some cea =>
      rev ← cea_revision cea;
      if rev <? 3 then mret (- ENOTSUP, []) else
      o ← cea_db_offsets cea;
      match o with
      | None => mret (- EPROTO, [])
      | Some (start, end_) =>
          for_each_cea_db CEA_DB_FUEL cea start end_ (fun db c =>
            tag ← cea_db_tag db;
            if tag =? AUDIO_BLOCK then
              dbl ← cea_db_payload_len db;
              let count := Z.quot dbl 3 in
              a ← alloc;
              if negb (a : bool) then mret (false, (- ENOMEM, [])) else
              l ← for_loop (Z.to_nat count) 0 (fun j l => d ← decode_sad (db + (1 + j * 3)); mret (l ++ [d])) [];
              mret (false, (count, l))
            else mret (true, c)) (0, [])
      end
  end.

Definition drm_av_sync_delay (k : sink) (mode : drm_display_mode) : Z :=
  let i := has_flag (flags mode) DRM_MODE_FLAG_INTERLACE in
  if negb (latency_present k).1 then 0 else
  let i := if negb (latency_present k).2 then false else i in
  let a := if i then (audio_latency k).2 else (audio_latency k).1 in
  let v := if i then (video_latency k).2 else (video_latency k).1 in
  if (a =? 255) || (v =? 255) then 0 else
  let a := if negb (a =? 0) then Z.min (2 * (a - 1)) 500 else a in
  let v := if negb (v =? 0) then Z.min (2 * (v - 1)) 500 else v in
  Z.max (v - a) 0.

(** The walks that stop at the first data block for which [test] holds. *)
Definition any_cea_db (cea start end_ : Z) (test : Z -> M bool) : M bool :=
  for_each_cea_db CEA_DB_FUEL cea start end_ (fun db c =>
    t ← test db; mret (if (t : bool) then (false, true) else (true, c))) false.

Definition drm_detect_hdmi_monitor : M bool :=
  edid_ext ← drm_find_cea_extension;
  match edid_ext with
  | None => mret false
  | Some edid_ext =>
      o ← cea_db_offsets edid_ext;
      match o with
      | None => mret false
      | Some (start, end_) => any_cea_db edid_ext start end_ cea_db_is_hdmi_vsdb
      end
  end.

Definition drm_detect_monitor_audio : M bool :=
  edid_ext ← drm_find_cea_extension;
  match edid_ext with
  | None => mret false
  | Some edid_ext =>
      b3 ← rd (edid_ext + 3);
      if has_flag b3 EDID_BASIC_AUDIO then mret true else
      o ← cea_db_offsets edid_ext;
      match o with
      | None => mret false
      | Some (start, end_) =>
          any_cea_db edid_ext start end_ (fun db => tag ← cea_db_tag db; mret (tag =? AUDIO_BLOCK))
      end
  end.

(** The first capability block of two bytes decides. *)
Definition drm_rgb_quant_range_selectable : M bool :=
  edid_ext ← drm_find_cea_extension;
  match edid_ext with
  | None => mret false
  | Some edid_ext =>
      o ← cea_db_offsets edid_ext;
      match o with
      | None => mret false
      | Some (start, end_) =>
          for_each_cea_db CEA_DB_FUEL edid_ext start end_ (fun db c =>
            tag ← cea_db_tag db;
            len ← cea_db_payload_len db;
            if (tag =? VIDEO_CAPABILITY_BLOCK) && (len =? 2) then
              b ← rd (db + 2); mret (false, has_flag b EDID_CEA_VCDB_QS)
            else mret (true, c)) false
      end
  end.

(** ** Display information *)

Record drm_display_info := mk_info {
  info_width_mm : Z; info_height_mm : Z; bpc : Z; color_formats : Z; cea_rev : Z }.

Definition DRM_COLOR_FORMAT_RGB444 : Z := 0x1.
Definition DRM_COLOR_FORMAT_YCRCB444 : Z := 0x2.
Definition DRM_COLOR_FORMAT_YCRCB422 : Z := 0x4.
Definition DRM_EDID_DIGITAL_DEPTH_MASK : Z := 0x70.
Definition DRM_EDID_FEATURE_RGB_YCRCB444 : Z := 0x8.
Definition DRM_EDID_FEATURE_RGB_YCRCB422 : Z := 0x10.

(** The depths 6, 8, ... 16 are coded 1 to 6. *)
Definition depth_of_input (input : Z) : Z :=
  let d := Z.land input DRM_EDID_DIGITAL_DEPTH_MASK in
  if d =? Z.shiftl 1 4 then 6
  else if d =? Z.shiftl 2 4 then 8
  else if d =? Z.shiftl 3 4 then 10
  else if d =? Z.shiftl 4 4 then 12
  else if d =? Z.shiftl 5 4 then 14
  else if d =? Z.shiftl 6 4 then 16
  else 0.

Definition or_if (b : bool) (v f : Z) : Z := if b then Z.lor f v else f.

Definition drm_add_display_info (info : drm_display_info) : M drm_display_info :=
  wc ← rd edid_width_cm; hc ← rd edid_height_cm;
  let info := mk_info (wc * 10) (hc * 10) 0 0 (cea_rev info) in
  revision ← rd edid_revision;
  if revision <? 3 then mret info else
  input ← rd edid_input;
  if negb (has_flag input DRM_EDID_INPUT_DIGITAL) then mret info else
  edid_ext ← drm_find_cea_extension;
  info ← (match edid_ext with
          | None => mret info
          | Some edid_ext =>
              b1 ← rd (edid_ext + 1);
              b3 ← rd (edid_ext + 3);
              let f := DRM_COLOR_FORMAT_RGB444 in
              let f := or_if (has_flag b3 EDID_CEA_YCRCB444) DRM_COLOR_FORMAT_YCRCB444 f in
              let f := or_if (has_flag b3 EDID_CEA_YCRCB422) DRM_COLOR_FORMAT_YCRCB422 f in
              mret (mk_info (info_width_mm info) (info_height_mm info) (bpc info) f b1)
          end);
  if revision <? 4 then mret info else
  features ← rd edid_features;
  let f := Z.lor (color_formats info) DRM_COLOR_FORMAT_RGB444 in
  let f := or_if (has_flag features DRM_EDID_FEATURE_RGB_YCRCB444) DRM_COLOR_FORMAT_YCRCB444 f in
  let f := or_if (has_flag features DRM_EDID_FEATURE_RGB_YCRCB422) DRM_COLOR_FORMAT_YCRCB422 f in
  mret (mk_info (info_width_mm info) (info_height_mm info) (depth_of_input input) f (cea_rev info)).

(** ** All modes of an EDID *)

(** A check of the EDID as part of probing. *)
Definition edid_is_valid : M bool := fun s =>
  match drm_edid_is_valid (raw s) with
  | Some (v, l) => Some (v, mk_scan l (probed s) (mem s))
  | None => None
  end.

Definition drm_add_edid_modes (info : drm_display_info) : M (Z * drm_display_info) :=
  v ← edid_is_valid;
  if negb v then mret (0, info) else
  qs ← edid_get_quirks;
  n1 ← add_detailed_modes qs;
  n2 ← add_cvt_modes;
  n3 ← add_standard_modes;
  n4 ← add_established_modes;
  features ← rd edid_features;
  n5 ← (if has_flag features DRM_EDID_FEATURE_DEFAULT_GTF then add_inferred_modes else mret 0);
  n6 ← add_cea_modes;
  n7 ← add_alternate_cea_modes;
  _ ← (if has_flag qs (Z.lor EDID_QUIRK_PREFER_LARGE_60 EDID_QUIRK_PREFER_LARGE_75)
       then edid_fixup_preferred qs else mret tt);
  info ← drm_add_display_info info;
  mret (n1 + n2 + n3 + n4 + n5 + n6 + n7, info).

(** The modes of a connector whose monitor gives no EDID. *)
Fixpoint noedid_loop (l : list drm_display_mode) (hdisplay0 vdisplay0 n : Z) : M Z :=
  match l with
  | [] => mret n
  | ptr :: l =>
      if negb (hdisplay0 =? 0) && negb (vdisplay0 =? 0) &&
         ((hdisplay ptr >? hdisplay0) || (vdisplay ptr >? vdisplay0)) then noedid_loop l hdisplay0 vdisplay0 n else
      if drm_mode_vrefresh ptr >? 61 then noedid_loop l hdisplay0 vdisplay0 n else
      mode ← drm_mode_duplicate ptr;
      match mode with
      | Some mode => _ ← drm_mode_probed_add mode; noedid_loop l hdisplay0 vdisplay0 (n + 1)
      | None => noedid_loop l hdisplay0 vdisplay0 n
      end
  end.

Definition drm_add_modes_noedid (hdisplay0 vdisplay0 : Z) : M Z :=
  let hdisplay0 := if hdisplay0 <? 0 then 0 else hdisplay0 in
  let vdisplay0 := if vdisplay0 <? 0 then 0 else vdisplay0 in
  noedid_loop drm_dmt_modes hdisplay0 vdisplay0 0.
