(* ===== verification/EdidRun.v ===== *)
(** * Runs of EDID programs

    When a program of EdidBase runs without a fault from a state, and what it
    leaves behind; the invariant of the EDID bytes; and the walk over the detailed
    blocks, all of which lie inside the EDID. *)

From S2P Require Import Prelude Modes EdidTables EdidBase EdidModes.

Open Scope Z_scope.

(** [m] runs from [s] without a fault and what it ends with satisfies [Q]. *)
Definition runs {A} (m : M A) (s : scan) (Q : A -> scan -> Prop) : Prop :=
  match m s with Some (a, s') => Q a s' | None => False end.

Lemma runs_ret {A} (a : A) s (Q : A -> scan -> Prop) : Q a s -> runs (mret a) s Q.
Proof. done. Qed.

Lemma runs_bind {A B} (m : M A) (k : A -> M B) s (Q : B -> scan -> Prop) :
  runs m s (fun a s' => runs (k a) s' Q) -> runs (m ≫= k) s Q.
Proof. unfold runs, mbind, M_bind. by destruct (m s) as [[a s']|]. Qed.

Lemma runs_mono {A} (m : M A) s (Q Q' : A -> scan -> Prop) :
  runs m s Q -> (forall a s', Q a s' -> Q' a s') -> runs m s Q'.
Proof. unfold runs. destruct (m s) as [[a s']|]; [|done]. intros HQ H. by apply H. Qed.

Lemma runs_lift {A} (o : option A) s (Q : A -> scan -> Prop) a : o = Some a -> Q a s -> runs (lift o) s Q.
Proof. intros -> H. exact H. Qed.

Lemma runs_some {A} (m : M A) s (Q : A -> scan -> Prop) : runs m s Q <-> exists a s', m s = Some (a, s') /\ Q a s'.
Proof.
  unfold runs. destruct (m s) as [[a s']|]; split.
  - intros H. by exists a, s'.
  - intros (a' & s'' & [= <- <-] & H). done.
  - done.
  - intros (? & ? & ? & _). done.
Qed.

(** ** The invariant *)

Definition is_byte (b : Z) : Prop := 0 <= b < 256.
Definition len (s : scan) : Z := Z.of_nat (length (raw s)).

(** A monitor range descriptor with a secondary GTF curve, wherever it is, has an
    offset under 100 percent. *)
Definition gtf2_bounded (l : list Z) : Prop := forall t c2 j2, 0 <= t ->
  byte_at l (t + 3) = Some EDID_DETAIL_MONITOR_RANGE -> byte_at l (t + 10) = Some 2 ->
  byte_at l (t + 13) = Some c2 -> byte_at l (t + 17) = Some j2 -> c2 < 200 /\ j2 < 200.

(** The array has all the blocks it announces. *)
Definition has_blocks (l : list Z) : Prop :=
  exists n, byte_at l edid_extensions = Some n /\ 128 * (n + 1) <= Z.of_nat (length l).

Definition edid_ok (l : list Z) : Prop := Forall is_byte l /\ gtf2_bounded l /\ has_blocks l.
Definition ok (s : scan) : Prop := edid_ok (raw s).

Lemma byte_at_Some l i b : byte_at l i = Some b <-> 0 <= i /\ l !! Z.to_nat i = Some b.
Proof. unfold byte_at. destruct (Z.ltb_spec i 0); split; [done|lia|intros; by split|by intros [_ ?]]. Qed.

Lemma byte_at_in l i : Forall is_byte l -> 0 <= i < Z.of_nat (length l) ->
  exists b, byte_at l i = Some b /\ is_byte b.
Proof.
  intros Hb Hi. destruct (lookup_lt_is_Some_2 l (Z.to_nat i)) as [b E]; [lia|].
  exists b. split; [by apply byte_at_Some; split; [lia|]|]. by apply (Forall_lookup_1 _ _ _ _ Hb E).
Qed.

Lemma ok_len s : ok s -> 128 <= len s.
Proof.
  intros (Hb & _ & n & Hn & Hl). apply byte_at_Some in Hn as [_ Hn].
  pose proof (Forall_lookup_1 _ _ _ _ Hb Hn) as Hr. unfold is_byte in Hr. unfold len. lia.
Qed.

Lemma runs_rd {B} i (k : Z -> M B) s (Q : B -> scan -> Prop) : ok s -> 0 <= i < len s ->
  (forall b, byte_at (raw s) i = Some b -> is_byte b -> runs (k b) s Q) -> runs (rd i ≫= k) s Q.
Proof.
  intros (Hb & _) Hi Hk. destruct (byte_at_in (raw s) i Hb Hi) as (b & E & Hbb).
  apply runs_bind. unfold runs at 1, rd. rewrite E. by apply Hk.
Qed.

Lemma runs_rd_tail i s (Q : Z -> scan -> Prop) : ok s -> 0 <= i < len s ->
  (forall b, is_byte b -> Q b s) -> runs (rd i) s Q.
Proof.
  intros (Hb & _) Hi Hk. destruct (byte_at_in (raw s) i Hb Hi) as (b & E & Hbb).
  unfold runs, rd. rewrite E. by apply Hk.
Qed.

(** Read the next byte; the goal that the address is inside is left to [lia]. *)
Ltac rd_step :=
  match goal with
  | |- runs (rd _ ≫= _) _ _ => apply runs_rd; [assumption|lia|intros ? ? ?]
  | |- runs (rd _) _ _ => apply runs_rd_tail; [assumption|lia|intros ? ?]
  end.

Lemma runs_if {A} (b : bool) (m1 m2 : M A) s (Q : A -> scan -> Prop) :
  (b = true -> runs m1 s Q) -> (b = false -> runs m2 s Q) -> runs (if b then m1 else m2) s Q.
Proof. destruct b; auto. Qed.

(** ** Programs that only read *)

Definition reads {A} (m : M A) (s : scan) (P : A -> Prop) : Prop := runs m s (fun a s' => s' = s /\ P a).

Lemma reads_bind {A B} (m : M A) (k : A -> M B) s (P : A -> Prop) (Q : B -> scan -> Prop) :
  reads m s P -> (forall a, P a -> runs (k a) s Q) -> runs (m ≫= k) s Q.
Proof. intros Hm Hk. apply runs_bind. eapply runs_mono; [exact Hm|]. intros a s' [-> Ha]. by apply Hk. Qed.

(** ** Programs that add modes *)

(** [n] modes were added at the end; the EDID may have been written to. *)
Definition adds (n : Z) (s s' : scan) : Prop :=
  ok s' /\ len s' = len s /\ exists new, probed s' = probed s ++ new /\ n = Z.of_nat (length new).

Lemma adds_refl s : ok s -> adds 0 s s.
Proof. intros Hs. split; [done|]. split; [done|]. exists []. by rewrite app_nil_r. Qed.

Lemma adds_trans n m s s' s'' : adds n s s' -> adds m s' s'' -> adds (n + m) s s''.
Proof.
  intros (_ & Hl & new & Hp & ->) (Hok & Hl' & new' & Hp' & ->). split; [done|]. split; [congruence|].
  exists (new ++ new'). split; [by rewrite Hp', Hp, <-app_assoc|]. rewrite length_app. lia.
Qed.

Lemma adds_ok n s s' : adds n s s' -> ok s'.
Proof. by intros [? _]. Qed.
Lemma adds_len n s s' : adds n s s' -> len s' = len s.
Proof. by intros (_ & ? & _). Qed.

(** Counting from [n0]. *)
Definition counts (n0 : Z) (s : scan) (n : Z) (s' : scan) : Prop := adds (n - n0) s s'.

Lemma counts_ret n s : ok s -> counts n s n s.
Proof. intros Hs. unfold counts. rewrite Z.sub_diag. by apply adds_refl. Qed.

Lemma counts_trans n0 n1 n2 s s' s'' : counts n0 s n1 s' -> counts n1 s' n2 s'' -> counts n0 s n2 s''.
Proof. intros H1 H2. unfold counts in *. replace (n2 - n0) with ((n1 - n0) + (n2 - n1)) by lia. by eapply adds_trans. Qed.

Lemma runs_probed_add m s : ok s -> runs (drm_mode_probed_add m) s (fun _ s' => adds 1 s s').
Proof.
  intros Hs. unfold runs, drm_mode_probed_add, mbind, M_bind. cbn. split; [exact Hs|]. split; [done|]. by exists [m].
Qed.

(** A probed mode is added and counted. *)
Lemma runs_add_then {B} m s n0 n (k : unit -> M B) (Q : B -> scan -> Prop) s0 : ok s -> counts n0 s0 n s ->
  (forall s', counts n0 s0 (n + 1) s' -> ok s' -> len s' = len s -> runs (k tt) s' Q) ->
  runs (drm_mode_probed_add m ≫= k) s Q.
Proof.
  intros Hs Hc Hk. apply runs_bind. eapply runs_mono; [by apply runs_probed_add|].
  intros [] s' Ha. apply Hk; [|by eapply adds_ok|by eapply adds_len].
  eapply counts_trans; [exact Hc|]. unfold counts. by replace (n + 1 - n) with 1 by lia.
Qed.

(** An allocation leaves everything but its own outcome. *)
Lemma runs_alloc s (Q : bool -> scan -> Prop) : ok s ->
  (forall a s', adds 0 s s' -> raw s' = raw s -> probed s' = probed s -> Q a s') -> runs alloc s Q.
Proof.
  intros Hs HQ. unfold runs, alloc. destruct (mem s) as [|a mem].
  - apply HQ; [by apply adds_refl|done|done].
  - apply HQ; [|done|done]. split; [exact Hs|]. split; [done|]. exists []. by rewrite app_nil_r.
Qed.

Lemma runs_create s (Q : option drm_display_mode -> scan -> Prop) : ok s ->
  (forall a s', adds 0 s s' -> raw s' = raw s -> probed s' = probed s -> Q a s') -> runs drm_mode_create s Q.
Proof. intros Hs HQ. apply runs_bind, runs_alloc; [done|]. intros a s' ? ? ?. apply runs_ret. by apply HQ. Qed.

Lemma runs_duplicate m s (Q : option drm_display_mode -> scan -> Prop) : ok s ->
  (forall a s', adds 0 s s' -> (a = None \/ a = Some m) -> Q a s') -> runs (drm_mode_duplicate m) s Q.
Proof.
  intros Hs HQ. apply runs_bind, runs_create; [done|]. intros [a|] s' Ha _ _; apply runs_ret, HQ; auto.
Qed.

Lemma counts_adds0 n0 n s s' s'' : counts n0 s n s' -> adds 0 s' s'' -> counts n0 s n s''.
Proof. intros Hc Ha. unfold counts in *. replace (n - n0) with ((n - n0) + 0) by lia. by eapply adds_trans. Qed.

(** ** Loops *)

Lemma runs_for_loop {C} (I : Z -> C -> scan -> Prop) (f : Z -> C -> M C) n : forall i c s,
  I i c s ->
  (forall j c s, i <= j < i + Z.of_nat n -> I j c s -> runs (f j c) s (fun c' s' => I (j + 1) c' s')) ->
  runs (for_loop n i f c) s (fun c' s' => I (i + Z.of_nat n) c' s').
Proof.
  induction n as [|n IH]; intros i c s HI Hf; cbn [for_loop].
  - apply runs_ret. by rewrite Z.add_0_r.
  - apply runs_bind. eapply runs_mono; [apply Hf; [lia|done]|]. intros c' s' HI'.
    replace (i + Z.of_nat (S n)) with (i + 1 + Z.of_nat n) by lia. apply IH; [done|].
    intros j c'' s'' Hj. apply Hf. lia.
Qed.

(** A loop whose body counts the modes it adds. *)
Lemma runs_for_counts (f : Z -> Z -> M Z) n i c s : ok s ->
  (forall j c' s', i <= j < i + Z.of_nat n -> ok s' -> len s' = len s -> runs (f j c') s' (counts c' s')) ->
  runs (for_loop n i f c) s (counts c s).
Proof.
  intros Hs Hf. apply (runs_for_loop (fun _ c' s' => counts c s c' s')); [by apply counts_ret|].
  intros j c' s' Hj Hc. eapply runs_mono.
  - apply Hf; [done|by eapply adds_ok|by eapply adds_len].
  - intros c'' s'' H. by eapply counts_trans.
Qed.

(** ** The walk over the detailed blocks *)

(** Eighteen bytes that are in the EDID and do not touch its extension count. *)
Definition at_timing (t : Z) (s : scan) : Prop := 0 <= t /\ t + 18 <= len s /\ (t + 18 <= 126 \/ 128 <= t).

Section Walk.
Context {C : Type} (cb : Z -> C -> M C) (R : C -> scan -> C -> scan -> Prop).
Hypothesis R_refl : forall c s, ok s -> R c s c s.
Hypothesis R_trans : forall c s c' s' c'' s'', R c s c' s' -> R c' s' c'' s'' -> R c s c'' s''.
Hypothesis R_ok : forall c s c' s', R c s c' s' -> ok s' /\ len s' = len s.
Hypothesis cb_runs : forall t c s, ok s -> at_timing t s -> runs (cb t c) s (R c s).

Lemma blocks_run n base : forall c s i, ok s -> 128 <= base \/ base + 18 * (i + Z.of_nat n) <= 126 ->
  0 <= base -> 0 <= i -> ((0 < n)%nat -> base + 18 * (i + Z.of_nat n) <= len s) ->
  runs (for_loop n i (fun i c => cb (base + 18 * i) c) c) s (R c s).
Proof.
  intros c s i Hs Hb1 Hb2 Hi Hb3.
  apply (runs_for_loop (fun _ c' s' => R c s c' s')); [by apply R_refl|].
  intros j c' s' Hj HR. pose proof (R_ok _ _ _ _ HR) as [Hok Hlen].
  eapply runs_mono; [apply cb_runs; [done|]|intros; by eapply R_trans].
  unfold at_timing. rewrite Hlen. specialize (Hb3 ltac:(lia)). destruct Hb1; lia.
Qed.

Lemma cea_blocks_run ext c s : ok s -> 128 <= ext -> ext + 128 <= len s ->
  runs (cea_for_each_detailed_block cb ext c) s (R c s).
Proof.
  intros Hs He Hl. unfold cea_for_each_detailed_block. rd_step. rename b into d. unfold is_byte in *.
  pose proof (Z.quot_div (127 - d) 18 ltac:(lia)) as Hq.
  assert (d + 18 * Z.quot (127 - d) 18 <= 127 \/ Z.quot (127 - d) 18 <= 0) as Hn.
  { destruct (Z.le_gt_cases d 127); [left|right].
    - rewrite Z.quot_div_nonneg by lia. pose proof (Z.mul_div_le (127 - d) 18 ltac:(lia)). lia.
    - apply Z.quot_le_upper_bound; lia. }
  apply blocks_run; [done|lia|lia|lia|]. lia.
Qed.

Lemma vtb_blocks_run ext c s : ok s -> 128 <= ext -> ext + 128 <= len s ->
  runs (vtb_for_each_detailed_block cb ext c) s (R c s).
Proof.
  intros Hs He Hl. unfold vtb_for_each_detailed_block. rd_step. rd_step. unfold is_byte in *.
  apply runs_if; intros _; [by apply runs_ret, R_refl|]. apply blocks_run; [done|lia..].
Qed.

Lemma ext_loop_run fuel : forall i c s, ok s -> 1 <= i -> 257 <= i + Z.of_nat fuel -> (0 < fuel)%nat ->
  runs (ext_loop cb fuel i c) s (R c s).
Proof.
  induction fuel as [|fuel IH]; intros i c s Hs Hi Hf Hf0; [lia|]. cbn [ext_loop]. pose proof (ok_len s Hs) as Hl.
  destruct Hs as (Hb & Hg & n & Hn & Hn2). assert (ok s) as Hs by (split; [done|]; split; [done|]; by exists n).
  apply runs_rd; [done|unfold edid_extensions; lia|]. intros n' Hn' Hbn. rewrite Hn in Hn'. injection Hn' as <-.
  apply runs_if; intros Hin; [|by apply runs_ret, R_refl]. zbool.
  unfold EDID_LENGTH. change (Z.of_nat (length (raw s))) with (len s) in Hn2. apply runs_rd; [done|lia|]. intros tag _ _. apply runs_bind.
  apply (runs_mono _ _ (R c s)).
  { apply runs_if; intros _; [by apply cea_blocks_run; [done|lia..]|].
    apply runs_if; intros _; [by apply vtb_blocks_run; [done|lia..]|]. by apply runs_ret, R_refl. }
  intros c' s' HR. pose proof (R_ok _ _ _ _ HR) as [Hok _].
  eapply runs_mono; [apply IH; [done|lia|lia|unfold is_byte in *; lia]|intros; by eapply R_trans].
Qed.

Lemma detailed_blocks_run c s : ok s -> runs (drm_for_each_detailed_block cb c) s (R c s).
Proof.
  intros Hs. pose proof (ok_len s Hs) as Hl. apply runs_bind.
  eapply runs_mono; [apply blocks_run; [done|unfold edid_detailed_timings, EDID_DETAILED_TIMINGS; lia..]|].
  intros c' s' HR. pose proof (R_ok _ _ _ _ HR) as [Hok _].
  eapply runs_mono; [apply ext_loop_run; [done|lia..]|intros; by eapply R_trans].
Qed.
End Walk.
