(* ===== verification/EdidGen.v ===== *)
(** * The generators do not divide by zero on what an EDID can ask for

    The sizes and rates of standard timings, three byte CVT codes and inferred
    modes are a bounded range, on which drm_cvt_mode and drm_gtf_mode always give a
    mode; the GTF generator with the parameters of a secondary curve does when the
    offset of the curve is under 100 percent. *)

From S2P Require Import Prelude Modes ModesBounds EdidTables.

Lemma udiv_ok a b : b <> 0 -> exists q, udiv a b = Some q /\ q = a / b.
Proof. intros Hb. unfold udiv. rewrite (proj2 (Z.eqb_neq b 0)) by done. by eexists. Qed.

Lemma u32_sub_wrap q : 0 <= q < 2 ^ 32 - 70000 -> u32 (100000 - u32 (30000 - q)) = 70000 + q.
Proof.
  intros Hq. unfold u32. rewrite Zminus_mod_idemp_r. replace (100000 - (30000 - q)) with (70000 + q) by lia.
  apply Z.mod_small. lia.
Qed.

(** ** CVT *)

Lemma cvt_normal_total hd vd vsync r : 1 <= vd <= 8192 -> 50 <= r <= 123 ->
  exists t, cvt_normal hd vd vd 0 0 vsync r = Some t /\ 0 < t.1.1.1.1.1.
Proof.
  intros Hvd Hr. unfold cvt_normal, HV_FACTOR, CVT_MIN_VSYNC_BP, CVT_MIN_V_PORCH.
  assert (s32 (u32 (1000 * 1000000 - 550 * 1000 * r)) = 1000000000 - 550000 * r) as ->.
  { rewrite u32_small, s32_small by lia. lia. }
  assert (s32 ((vd + 2 * 0 + 3) * 2 + 0) = 2 * vd + 6) as -> by (rewrite s32_small; lia).
  rewrite (s32_small ((1000000000 - 550000 * r) * 2)), (u32_small ((1000000000 - 550000 * r) * 2)) by lia.
  assert (1 <= (2 * vd + 6) * r <= 2100000) as Hden by nia.
  rewrite (u32_small ((2 * vd + 6) * r)) by lia.
  destruct (udiv_run ((1000000000 - 550000 * r) * 2) ((2 * vd + 6) * r) 800 2000000000) as (hp & -> & Hhp & _); [lia|nia|nia|].
  cbn [mbind option_bind].
  destruct (udiv_ok (550 * 1000) hp) as (t & -> & _); [lia|]. cbn [mbind option_bind].
  unfold CVT_C_PRIME, CVT_M_PRIME. change ((40 - 20) * 128 / 256 + 20) with 30. change (600 * 128 / 256) with 300.
  pose proof (u32_range (300 * hp)) as Hw. set (w := u32 (300 * hp)) in *.
  assert (0 <= w / 1000 <= 4294968) as Hq by (split; [apply Z.div_pos; lia|apply Z.div_le_upper_bound; lia]).
  set (q := w / 1000) in *.
  set (p := if u32 (30 * 1000 - q) <? 20 * 1000 then 20 * 1000 else u32 (30 * 1000 - q)).
  assert (u32 (100 * 1000 - p) <> 0) as Hp.
  { unfold p. case_match; [unfold u32; discriminate|]. change (100 * 1000) with 100000. change (30 * 1000) with 30000.
    rewrite u32_sub_wrap by lia. lia. }
  destruct (udiv_ok (u32 (hd * p)) _ Hp) as (b & -> & _). cbn [mbind option_bind].
  eexists. split; [done|]. cbn. lia.
Qed.

Lemma cvt_reduced_total hd vd vsync r : 1 <= vd <= 8192 -> 50 <= r <= 123 ->
  exists t, cvt_reduced hd vd vd 0 vsync r = Some t /\ 0 < t.1.1.1.1.1.
Proof.
  intros Hvd Hr. unfold cvt_reduced, HV_FACTOR, CVT_RB_MIN_VBLANK.
  assert (s32 (u32 (1000 * 1000000 - 460 * 1000 * r)) = 1000000000 - 460000 * r) as ->.
  { rewrite u32_small, s32_small by lia. lia. }
  assert (s32 (vd + 2 * 0) = vd) as -> by (rewrite s32_small; lia).
  rewrite (u32_small (1000000000 - 460000 * r)) by lia.
  assert (1 <= vd * r <= 1100000) as Hden by nia. rewrite (u32_small (vd * r)) by lia.
  destruct (udiv_run (1000000000 - 460000 * r) (vd * r) 800 1000000000) as (hp & -> & Hhp & _); [lia|nia|nia|].
  cbn [mbind option_bind].
  destruct (udiv_ok (460 * 1000) hp) as (t & -> & _); [lia|]. cbn [mbind option_bind].
  eexists. split; [done|]. cbn. lia.
Qed.

Lemma cvt_total a hd vd r reduced : 1 <= vd <= 8192 -> 50 <= r <= 123 ->
  exists m, drm_cvt_mode a hd vd r reduced false false = Some m.
Proof.
  intros Hvd Hr. unfold drm_cvt_mode. destruct a; cbn [negb]; [|by eexists]. cbv zeta.
  destruct (Z.eqb_spec r 0); [lia|]. rewrite (u32_small r) by lia.
  set (h1 := s32 (hd - Z.rem hd CVT_H_GRANULARITY)). set (hm := s32 (0 - Z.rem 0 CVT_H_GRANULARITY)).
  assert (s32 (vd + 2 * 0) = vd) as -> by (rewrite s32_small; lia).
  set (branch := if negb reduced then _ else _).
  assert (exists t, branch = Some t /\ 0 < t.1.1.1.1.1) as (t & -> & Ht).
  { unfold branch. destruct reduced; [by apply cvt_reduced_total|by apply cvt_normal_total]. }
  destruct t as [[[[[hp vt] ht] hse] hss] vss]. cbn in Ht. cbn [mbind option_bind].
  destruct (udiv_ok (u32 (s32 (s32 (ht * HV_FACTOR) * 1000))) hp) as (c & -> & _); [lia|]. by eexists.
Qed.

(** ** GTF *)

Lemma gtf_vertical_total vd r : 1 <= vd <= 2400 -> 60 <= r <= 123 ->
  exists h v, gtf_vertical vd r 0 0 = Some (h, v) /\ 60 * (vd + 1) <= h <= 400000 /\ 0 < v.
Proof.
  intros Hvd Hr. unfold gtf_vertical, MIN_VSYNC_PLUS_BP, GTF_MIN_V_PORCH.
  rewrite (u32_small (1000000 - 550 * r)) by lia.
  assert (1864 <= (1000000 - 550 * r) / 500 <= 1940) as Ht1.
  { split; [apply Z.div_le_lower_bound; lia|apply Z.div_le_upper_bound; lia]. }
  set (t1 := (1000000 - 550 * r) / 500) in *.
  assert (u32 ((vd + 2 * 0 + 1) * 2 + 0) = 2 * vd + 2) as -> by (rewrite u32_small; lia).
  assert (0 <= (2 * vd + 2) * 1000 * r <= 600000000) as Ht2 by nia.
  rewrite (u32_small ((2 * vd + 2) * 1000 * r)) by lia.
  destruct (udiv_run ((2 * vd + 2) * 1000 * r) t1 (60 * (vd + 1)) 400000) as (h & -> & Hh & _); [lia|nia|nia|].
  cbn [mbind option_bind].
  rewrite (u32_small (550 * h)) by lia.
  assert (0 <= 550 * h / 1000 <= 220000) as Hb.
  { split; [apply Z.div_pos; lia|apply Z.div_le_upper_bound; lia]. }
  rewrite (s32_small (550 * h / 1000)) by lia. set (bp := 550 * h / 1000) in *. rewrite (s32_small (bp + 500)) by lia.
  pose proof (quot_run (bp + 500) 1000 ltac:(lia) ltac:(lia)) as [Hq1 Hq2]. set (q := Z.quot (bp + 500) 1000) in *.
  rewrite (u32_small (vd + 2 * 0 + q + 1)) by lia.
  destruct (udiv_ok h (vd + 2 * 0 + q + 1)) as (x & -> & _); [lia|]. cbn [mbind option_bind].
  assert (0 < r * (vd + 2 * 0 + q + 1) < 1000000) as Hv by nia.
  rewrite (u32_small (r * (vd + 2 * 0 + q + 1))) by lia.
  destruct (udiv_ok 1000000 (r * (vd + 2 * 0 + q + 1))) as (y & -> & _); [lia|]. cbn [mbind option_bind].
  eexists _, _. split; [done|]. lia.
Qed.

(** The blanking never takes the whole line when the offset is under 100. *)
Lemma gtf_horizontal_total active h cp mp : 0 <= active <= 10000 -> 4000 <= h -> 0 <= cp < 100 ->
  exists hb tp pf hs, gtf_horizontal active h cp mp = Some (hb, tp, pf, hs) /\
    (cp = 30 -> 1 <= active -> 0 < tp < 2 ^ 31).
Proof.
  intros Ha Hh Hcp. unfold gtf_horizontal, GTF_CELL_GRAN, H_SYNC_PERCENT.
  pose proof (u32_range (mp * 1000000)) as Hw. set (w := u32 (mp * 1000000)) in *.
  destruct (udiv_ok w h) as (q & -> & ->); [lia|]. cbn [mbind option_bind].
  assert (0 <= w / h <= 1100000) as Hq.
  { split; [apply Z.div_pos; lia|]. apply Z.div_le_upper_bound; [lia|]. nia. }
  set (q := w / h) in *.
  assert (u32 (100000 - u32 (cp * 1000 - q)) = 100000 - cp * 1000 + q) as ->.
  { unfold u32. rewrite Zminus_mod_idemp_r. rewrite Z.mod_small; lia. }
  pose proof (u32_range (active * u32 (cp * 1000 - q))) as Hx. set (x := u32 (active * u32 (cp * 1000 - q))) in *.
  destruct (udiv_ok x (100000 - cp * 1000 + q)) as (b & -> & ->); [lia|]. cbn [mbind option_bind].
  eexists _, _, _, _. split; [done|]. intros -> Ha1.
  assert (0 <= x / (100000 - 30 * 1000 + q) <= 70000) as Hb.
  { split; [apply Z.div_pos; lia|]. apply Z.div_le_upper_bound; [lia|]. nia. }
  set (b := x / (100000 - 30 * 1000 + q)) in *. change (2 * 8) with 16.
  rewrite (u32_small (b + 8)) by lia.
  assert (0 <= (b + 8) / 16 <= 5000) as Hb2 by (split; [apply Z.div_pos; lia|apply Z.div_le_upper_bound; lia]).
  rewrite (u32_small ((b + 8) / 16 * 2 * 8)) by lia. rewrite u32_small by lia. lia.
Qed.

Lemma gtf_c_prime_range c2 k j2 : 0 <= c2 < 200 -> 0 <= k < 256 -> 0 <= j2 < 200 ->
  0 <= gtf_c_prime c2 k j2 < 100.
Proof.
  intros Hc Hk Hj. unfold gtf_c_prime. rewrite (s32_small (c2 - j2)) by lia.
  assert (- 199 * 255 <= (c2 - j2) * k <= 199 * 255) as Hp by nia. rewrite (s32_small ((c2 - j2) * k)) by lia.
  assert (- j2 <= Z.quot ((c2 - j2) * k) 256 <= 199 - j2) as Hq.
  { destruct (Z.le_gt_cases j2 c2).
    - pose proof (quot_run ((c2 - j2) * k) 256 ltac:(nia) ltac:(lia)). nia.
    - replace ((c2 - j2) * k) with (- ((j2 - c2) * k)) by lia. rewrite Z.quot_opp_l by lia.
      pose proof (quot_run ((j2 - c2) * k) 256 ltac:(nia) ltac:(lia)). nia. }
  rewrite s32_small by lia. pose proof (quot_run (Z.quot ((c2 - j2) * k) 256 + j2) 2 ltac:(lia) ltac:(lia)). lia.
Qed.

(** Sizes GTF modes are made for. *)
Definition gtf_size (hd vd r : Z) : Prop := 100 <= hd <= 4000 /\ 100 <= vd <= 2400 /\ 60 <= r <= 123.

Lemma gtf_complex_total a hd vd r m c2 k j2 : gtf_size hd vd r -> 0 <= gtf_c_prime c2 k j2 < 100 ->
  exists o, drm_gtf_mode_complex a hd vd r false 0 m c2 k j2 = Some o /\
    (gtf_c_prime c2 k j2 = 30 -> forall md, o = Some md -> 0 < htotal md).
Proof.
  intros (Hhd & Hvd & Hr) Hc. unfold drm_gtf_mode_complex. destruct a; cbn [negb].
  2:{ eexists. split; [done|]. intros _ md E. discriminate E. }
  cbv zeta. cbn [Z.eqb negb]. unfold GTF_CELL_GRAN. change (Z.quot 8 2) with 4. rewrite (s32_small (hd + 4)) by lia.
  pose proof (quot_run (hd + 4) 8 ltac:(lia) ltac:(lia)) as Hq. set (q := Z.quot (hd + 4) 8) in *.
  rewrite (u32_small q), (u32_small (q * 8)), (u32_small vd), (u32_small r) by lia.
  destruct (gtf_vertical_total vd r) as (h & v & -> & Hh & Hv); [lia|lia|]. cbn [mbind option_bind].
  rewrite (u32_small (q * 8 + 0 + 0)) by lia.
  destruct (gtf_horizontal_total (q * 8 + 0 + 0) h (gtf_c_prime c2 k j2) (gtf_m_prime m k)) as
    (hb & tp & pf & hs & -> & Htp); [lia|lia|done|]. cbn [mbind option_bind].
  eexists. split; [done|]. intros E md [= <-]. cbn. specialize (Htp E ltac:(lia)). rewrite s32_small; lia.
Qed.

Lemma gtf_total a hd vd r : gtf_size hd vd r ->
  exists o, drm_gtf_mode a hd vd r false 0 = Some o /\ forall md, o = Some md -> 0 < htotal md.
Proof.
  intros Hs. unfold drm_gtf_mode. assert (gtf_c_prime (40 * 2) 128 (20 * 2) = 30) as E by reflexivity.
  destruct (gtf_complex_total a hd vd r 600 (40 * 2) 128 (20 * 2) Hs) as (o & -> & Ho); [rewrite E; lia|].
  exists o. split; [done|]. intros md. by apply Ho.
Qed.

Lemma hsync_total m : 0 < htotal m -> exists h, drm_mode_hsync m = Some h.
Proof.
  intros Hm. unfold drm_mode_hsync. case_match; [by eexists|]. case_match; [by eexists|].
  unfold sdiv. rewrite (proj2 (Z.eqb_neq (htotal m) 0)) by lia. by eexists.
Qed.
