(* ===== verification/EdidSafe.v ===== *)
(** * Probing the modes of an EDID never faults and counts what it adds

    For every array of bytes that has the blocks it announces, whatever the bytes
    are and whichever allocations fail, no function of EdidModes reads outside the
    array or divides by zero; the numbers they return are the numbers of modes they
    add.  The one condition is the offset of a secondary GTF curve. *)

From S2P Require Import Prelude Modes ModesBounds EdidTables EdidBase EdidModes EdidRun EdidGen.

Open Scope Z_scope.

(** ** Writes *)

(** The values the quirks write cannot make up a GTF curve that is out of bounds. *)
Definition harmless (old v : Z) : Prop :=
  is_byte v /\ v <> EDID_DETAIL_MONITOR_RANGE /\ v <> 2 /\ (old < 200 -> v < 200).

Lemma byte_at_insert l i v j : 0 <= i < Z.of_nat (length l) ->
  byte_at (<[Z.to_nat i := v]> l) j = if j =? i then Some v else byte_at l j.
Proof.
  intros Hi. unfold byte_at. destruct (Z.ltb_spec j 0) as [Hj|Hj]; [by destruct (Z.eqb_spec j i); [lia|]|].
  destruct (Z.eqb_spec j i) as [->|Hji]; [apply list_lookup_insert_eq; lia|].
  apply list_lookup_insert_ne. lia.
Qed.

Lemma edid_ok_insert l i old v : edid_ok l -> 0 <= i -> byte_at l i = Some old -> i <> edid_extensions ->
  harmless old v -> edid_ok (<[Z.to_nat i := v]> l).
Proof.
  intros (Hb & Hg & n & Hn & Hl) Hi Ho Hne (Hv & Hv1 & Hv2 & Hv3).
  assert (0 <= i < Z.of_nat (length l)) as Hin.
  { pose proof Ho as [_ Ho']%byte_at_Some. apply lookup_lt_Some in Ho'. lia. }
  split; [|split].
  - by apply Forall_insert.
  - intros t c2 j2 Ht. rewrite !byte_at_insert by done. intros H3 H10 H13 H17.
    destruct (Z.eqb_spec (t + 3) i); [by injection H3 as ->|]. destruct (Z.eqb_spec (t + 10) i); [by injection H10 as ->|].
    assert (forall k x, byte_at l (t + k) = Some x -> 0 <= k -> forall y, (if t + k =? i then Some v else byte_at l (t + k)) = Some y ->
      y = x \/ (x = old /\ y = v)) as Hcase.
    { intros k x Hx _ y. destruct (Z.eqb_spec (t + k) i) as [E|_]; intros Hy; [|left; congruence].
      right. rewrite E in Hx. rewrite Hx in Ho. by injection Ho as ->; injection Hy as <-. }
    destruct (byte_at l (t + 13)) as [c|] eqn:E13; [|destruct (Z.eqb_spec (t + 13) i); [subst; congruence|discriminate]].
    destruct (byte_at l (t + 17)) as [j|] eqn:E17; [|destruct (Z.eqb_spec (t + 17) i); [subst; congruence|discriminate]].
    destruct (Hg t c j Ht H3 H10 E13 E17) as [Hc Hj].
    assert (c2 = c \/ (c = old /\ c2 = v)) as Hc2 by (apply (Hcase 13); [done|lia|by rewrite E13]).
    assert (j2 = j \/ (j = old /\ j2 = v)) as Hj2 by (apply (Hcase 17); [done|lia|by rewrite E17]).
    destruct Hc2 as [->|[-> ->]], Hj2 as [->|[-> ->]]; auto.
  - exists n. rewrite byte_at_insert, length_insert by done. destruct (Z.eqb_spec edid_extensions i); [congruence|]. done.
Qed.

Lemma runs_wr i v s (Q : unit -> scan -> Prop) : ok s -> 0 <= i < len s -> i <> edid_extensions ->
  (forall old, byte_at (raw s) i = Some old -> is_byte old -> harmless old v) ->
  (forall s', adds 0 s s' -> probed s' = probed s -> Q tt s') -> runs (wr i v) s Q.
Proof.
  intros Hs Hi Hne Hv HQ. pose proof Hs as (Hb & _).
  destruct (byte_at_in (raw s) i Hb Hi) as (old & E & Hold).
  unfold runs, wr. rewrite E. apply HQ; [|done]. split; [|split].
  - apply (edid_ok_insert (raw s) i old); auto. lia.
  - unfold len. cbn. by rewrite length_insert.
  - exists []. by rewrite app_nil_r.
Qed.

Lemma harmless_const old v : v = 64 \/ v = 4 -> harmless old v.
Proof. intros [-> | ->]; (split; [by unfold is_byte|]); (split; [done|]); (split; [done|]); lia. Qed.

Lemma harmless_or6 old : is_byte old -> harmless old (Z.lor old 6).
Proof.
  intros Hb.
  assert (forallb (fun b => let v := Z.lor b 6 in (0 <=? v) && (v <? 256) && negb (v =? 253) && negb (v =? 2) &&
    (negb (b <? 200) || (v <? 200))) (seqZ 0 256) = true) as Hall by reflexivity.
  rewrite forallb_forall in Hall. specialize (Hall old). cbv zeta in Hall.
  assert (In old (seqZ 0 256)) as Hin by (apply list_elem_of_In, elem_of_seqZ; unfold is_byte in Hb; lia).
  specialize (Hall Hin). zbool. unfold harmless, is_byte, EDID_DETAIL_MONITOR_RANGE.
  destruct (old <? 200) eqn:E; cbn [negb orb] in *; zbool; lia.
Qed.

(** ** What is read *)

Section Readers.
Context {C : Type} (cb : Z -> C -> M C) (P : scan -> Z -> C -> Prop).
Hypothesis cb_reads : forall t c s, ok s -> at_timing t s -> reads (cb t c) s (fun c' => c' = c \/ P s t c').

(** A callback that only looks leaves what it found in the last block that says so. *)
Lemma walk_reads c s : ok s ->
  reads (drm_for_each_detailed_block cb c) s (fun c' => c' = c \/ exists t, at_timing t s /\ P s t c').
Proof.
  intros Hs. eapply runs_mono.
  - apply (detailed_blocks_run cb (fun c0 s0 c' s' => s' = s0 /\ ok s0 /\ (c' = c0 \/ exists t, at_timing t s0 /\ P s0 t c'))); [| | | |exact Hs].
    + intros c0 s0 Hs0. auto.
    + intros c0 s0 c1 s1 c2 s2 (-> & Hok & H1) (-> & _ & H2). split; [done|]. split; [done|].
      destruct H2 as [-> |H2]; auto.
    + intros c0 s0 c1 s1 (-> & Hok & _). done.
    + intros t c0 s0 Hs0 Ht. eapply runs_mono; [by apply cb_reads|]. intros c' s' [-> [-> |HP]]; [auto|].
      split; [done|]. split; [done|]. right. by exists t.
  - intros c' s' (-> & _ & Hc). done.
Qed.
End Readers.

Lemma timing_in t s k : at_timing t s -> 0 <= k < 18 -> 0 <= t + k < len s.
Proof. intros (H1 & H2 & _) Hk. lia. Qed.

(** Reads of a timing and of the base block are inside. *)
Ltac in_range :=
  match goal with
  | Ht : at_timing ?t ?s |- 0 <= ?t + _ < len ?s => apply timing_in; [exact Ht|lia]
  | Ht : at_timing ?t ?s |- 0 <= ?t < len ?s => destruct Ht as (? & ? & _); lia
  | Hs : ok ?s |- 0 <= _ < len ?s => pose proof (ok_len s Hs);
      unfold edid_revision, edid_features, edid_input, edid_version, edid_mfg_id, edid_prod_code, edid_width_cm,
        edid_height_cm, edid_established_timings in *; lia
  end.
Ltac rd_in := first [apply runs_rd; [assumption|in_range|intros ? ? ?]
                    |apply runs_rd_tail; [assumption|in_range|intros ? ?]].

Lemma is_rb_reads t c s : ok s -> at_timing t s -> reads (is_rb t c) s (fun _ => True).
Proof. intros Hs Ht. unfold reads, is_rb. rd_in. apply runs_if; intros _; [rd_in|]; by apply runs_ret. Qed.

Lemma supports_rb_reads s : ok s -> reads drm_monitor_supports_rb s (fun _ => True).
Proof.
  intros Hs. unfold reads, drm_monitor_supports_rb. rd_in. apply runs_if; intros _.
  - eapply runs_mono; [apply (walk_reads is_rb (fun _ _ _ => True)); [|done]|by intros ? ? [-> _]].
    intros t c s0 Hs0 Ht. eapply runs_mono; [by apply is_rb_reads|]. intros ? ? [-> _]. auto.
  - rd_in. by apply runs_ret.
Qed.

(** Where a secondary curve was found. *)
Definition gtf2_at (s : scan) (t : Z) : Prop := at_timing t s /\ byte_at (raw s) (t + 3) = Some EDID_DETAIL_MONITOR_RANGE /\ byte_at (raw s) (t + 10) = Some 2.

Lemma find_gtf2_walk s : ok s -> reads (drm_for_each_detailed_block find_gtf2 None) s
  (fun r => r = None \/ exists t, r = Some t /\ gtf2_at s t).
Proof.
  intros Hs. eapply runs_mono.
  - apply (walk_reads find_gtf2 (fun s t r => r = Some t /\ gtf2_at s t)); [|done].
    intros t c s0 Hs0 Ht. unfold reads, find_gtf2. rd_in. apply runs_if; intros H3; [|by apply runs_ret; split; auto].
    rd_in. apply runs_ret. split; [done|]. case_match; [|auto]. zbool. subst. right. split; [done|]. unfold gtf2_at. auto.
  - intros r s' [-> [-> |(t & _ & Hr)]]; split; eauto.
Qed.

(** Each parameter of the curve is read without a fault, and its offset is bounded. *)
Ltac gtf2_read Hs := eapply reads_bind; [by apply find_gtf2_walk|];
  let r := fresh "r" in intros r [-> |(? & -> & Ht & ? & ?)]; [apply runs_ret; done|].

Lemma gtf2_hbreak_reads s : ok s -> reads drm_gtf2_hbreak s (fun _ => True).
Proof. intros Hs. gtf2_read Hs. rd_in. by apply runs_ret. Qed.
Lemma gtf2_m_reads s : ok s -> reads drm_gtf2_m s (fun _ => True).
Proof. intros Hs. gtf2_read Hs. do 2 rd_in. by apply runs_ret. Qed.
Lemma gtf2_k_reads s : ok s -> reads drm_gtf2_k s is_byte.
Proof. intros Hs. gtf2_read Hs. rd_in. done. Qed.
Lemma gtf2_2c_reads s : ok s -> reads drm_gtf2_2c s (fun c2 => 0 <= c2 < 200).
Proof.
  intros Hs. gtf2_read Hs. pose proof Hs as (Hb & Hg & _). pose proof Ht as (Ht0 & _).
  destruct (byte_at_in (raw s) (x + 13) Hb) as (c2 & E13 & Hc2); [by apply timing_in; [|lia]|].
  destruct (byte_at_in (raw s) (x + 17) Hb) as (j2 & E17 & Hj2); [by apply timing_in; [|lia]|].
  destruct (Hg x c2 j2 Ht0) as [? _]; try done. unfold runs, rd. rewrite E13. unfold is_byte in *. split; [done|lia].
Qed.
Lemma gtf2_2j_reads s : ok s -> reads drm_gtf2_2j s (fun j2 => 0 <= j2 < 200).
Proof.
  intros Hs. gtf2_read Hs. pose proof Hs as (Hb & Hg & _). pose proof Ht as (Ht0 & _).
  destruct (byte_at_in (raw s) (x + 13) Hb) as (c2 & E13 & Hc2); [by apply timing_in; [|lia]|].
  destruct (byte_at_in (raw s) (x + 17) Hb) as (j2 & E17 & Hj2); [by apply timing_in; [|lia]|].
  destruct (Hg x c2 j2 Ht0) as [_ ?]; try done. unfold runs, rd. rewrite E17. unfold is_byte in *. split; [done|lia].
Qed.

Lemma timing_level_reads s : ok s -> reads standard_timing_level s (fun _ => True).
Proof.
  intros Hs. unfold reads, standard_timing_level. rd_in. apply runs_if; intros _; [|by apply runs_ret].
  rd_in. apply runs_if; intros _; [by apply runs_ret|].
  eapply reads_bind; [by apply gtf2_hbreak_reads|]. intros h _. apply runs_if; intros _; by apply runs_ret.
Qed.

(** ** Making modes: nothing is added yet *)

Definition makes {A} (m : M A) (s : scan) (P : A -> Prop) : Prop := runs m s (fun a s' => adds 0 s s' /\ P a).

Lemma makes_reads {A} (m : M A) s P : ok s -> reads m s P -> makes m s P.
Proof. intros Hs Hm. eapply runs_mono; [exact Hm|]. intros a s' [-> ?]. split; [by apply adds_refl|done]. Qed.

Lemma makes_ret {A} (a : A) s (P : A -> Prop) : ok s -> P a -> makes (mret a) s P.
Proof. intros Hs HP. apply runs_ret. split; [by apply adds_refl|done]. Qed.

Lemma makes_mono {A} (m : M A) s (P P' : A -> Prop) : makes m s P -> (forall a, P a -> P' a) -> makes m s P'.
Proof. intros Hm HP. eapply runs_mono; [exact Hm|]. intros a s' [? ?]. auto. Qed.

Lemma makes_bind {A B} (m : M A) (k : A -> M B) s (P : A -> Prop) (P' : B -> Prop) : makes m s P ->
  (forall a s', ok s' -> len s' = len s -> P a -> makes (k a) s' P') -> makes (m ≫= k) s P'.
Proof.
  intros Hm Hk. apply runs_bind. eapply runs_mono; [exact Hm|]. intros a s' [Ha HP].
  eapply runs_mono; [apply Hk; [by eapply adds_ok|by eapply adds_len|done]|].
  intros b s'' [Hb ?]. split; [|done]. by apply (adds_trans 0 0 s s' s'').
Qed.

Lemma makes_if {A} (b : bool) (m1 m2 : M A) s P :
  (b = true -> makes m1 s P) -> (b = false -> makes m2 s P) -> makes (if b then m1 else m2) s P.
Proof. destruct b; auto. Qed.

Lemma makes_alloc_lift {A} (f : bool -> option A) s (P : A -> Prop) : ok s ->
  (forall a, exists o, f a = Some o /\ P o) -> makes (a ← alloc; lift (f a)) s P.
Proof.
  intros Hs Hf. apply runs_bind, runs_alloc; [done|]. intros a s' Ha _ _. destruct (Hf a) as (o & E & HP).
  by apply (runs_lift _ _ _ o E).
Qed.

Lemma cvt_mode_makes hd vd r reduced s : ok s -> 1 <= vd <= 8192 -> 50 <= r <= 123 ->
  makes (cvt_mode hd vd r reduced false false) s (fun _ => True).
Proof.
  intros Hs Hvd Hr. apply makes_alloc_lift; [done|]. intros a. destruct (cvt_total a hd vd r reduced Hvd Hr) as [m ->]. by eexists.
Qed.

Lemma gtf_mode_makes hd vd r s : ok s -> gtf_size hd vd r ->
  makes (gtf_mode hd vd r false 0) s (fun o => forall m, o = Some m -> 0 < htotal m).
Proof. intros Hs Hz. apply makes_alloc_lift; [done|]. intros a. by apply gtf_total. Qed.

Lemma gtf_complex_makes hd vd r m c2 k j2 s : ok s -> gtf_size hd vd r -> 0 <= gtf_c_prime c2 k j2 < 100 ->
  makes (gtf_mode_complex hd vd r false 0 m c2 k j2) s (fun _ => True).
Proof.
  intros Hs Hz Hc. apply makes_alloc_lift; [done|]. intros a.
  destruct (gtf_complex_total a hd vd r m c2 k j2 Hz Hc) as (o & -> & _). by eexists.
Qed.

Lemma duplicate_makes m s : ok s -> makes (drm_mode_duplicate m) s (fun o => o = None \/ o = Some m).
Proof. intros Hs. apply runs_duplicate; [done|]. auto. Qed.

Lemma find_dmt_makes h v f rb s : ok s -> makes (drm_mode_find_dmt h v f rb) s (fun _ => True).
Proof.
  intros Hs. unfold drm_mode_find_dmt. destruct (List.find _ _) as [m|].
  - eapply makes_mono; [by apply duplicate_makes|done].
  - by apply makes_ret.
Qed.

(** ** Standard timings *)

Lemma quot_bounds a b lo hi : 0 <= a -> 0 < b -> lo * b <= a -> a < (hi + 1) * b -> lo <= Z.quot a b <= hi.
Proof. intros Ha Hb Hlo Hhi. pose proof (quot_run a b Ha Hb). nia. Qed.

Lemma std_size_range t_hsize va rev : is_byte t_hsize -> is_byte va ->
  let '(h, v, r) := std_size t_hsize va rev in gtf_size h v r.
Proof.
  unfold is_byte. intros Hh Hv. unfold std_size, gtf_size, EDID_TIMING_VFREQ_SHIFT, EDID_TIMING_VFREQ_MASK. cbv zeta.
  rewrite Z.shiftr_0_r. set (ar := Z.shiftr _ EDID_TIMING_ASPECT_SHIFT).
  assert (0 <= Z.land va 0x3f < 64) as Hf.
  { change 0x3f with (Z.ones 6). rewrite Z.land_ones by lia. apply Z.mod_pos_bound. lia. }
  set (f := Z.land va 0x3f) in *. set (h := t_hsize * 8 + 248).
  assert (248 <= h <= 2288) as Hh2 by (unfold h; lia).
  set (v := if ar =? 0 then _ else _).
  assert (139 <= v <= 2288) as Hv2.
  { unfold v. repeat case_match; [lia|apply quot_bounds; lia|apply quot_bounds; lia|apply quot_bounds; lia|apply quot_bounds; lia]. }
  destruct (_ && _); lia.
Qed.

Lemma std_generate_makes lv h v r s : ok s -> gtf_size h v r -> makes (std_generate lv h v r) s (fun _ => True).
Proof.
  intros Hs Hz. destruct lv; cbn [std_generate].
  - by apply makes_ret.
  - eapply makes_mono; [by apply gtf_mode_makes|done].
  - eapply makes_bind; [by apply gtf_mode_makes|]. intros [m|] s1 Hs1 _ Hm; [|by apply makes_ret].
    destruct (hsync_total m (Hm m eq_refl)) as [hs E].
    apply runs_bind, (runs_lift _ _ _ hs E).
    eapply makes_bind; [apply makes_reads, gtf2_hbreak_reads; done|]. intros hb s2 Hs2 _ _.
    apply makes_if; intros _; [|by apply makes_ret].
    eapply makes_bind; [apply makes_reads, gtf2_m_reads; done|]. intros gm s3 Hs3 _ _.
    eapply makes_bind; [apply makes_reads, gtf2_2c_reads; done|]. intros c2 s4 Hs4 _ Hc2.
    eapply makes_bind; [apply makes_reads, gtf2_k_reads; done|]. intros k s5 Hs5 _ Hk.
    eapply makes_bind; [apply makes_reads, gtf2_2j_reads; done|]. intros j2 s6 Hs6 _ Hj2.
    apply gtf_complex_makes; [done|done|]. by apply gtf_c_prime_range.
  - destruct Hz as (_ & Hv & Hr). apply cvt_mode_makes; [done|lia|lia].
Qed.

Lemma mode_std_makes t rev s : ok s -> 0 <= t -> t + 2 <= len s -> makes (drm_mode_std t rev) s (fun _ => True).
Proof.
  intros Hs Ht Hl. unfold drm_mode_std.
  eapply makes_bind; [apply makes_reads, timing_level_reads; done|]. intros lv s1 Hs1 Hl1 _.
  apply runs_rd; [done|lia|]. intros th _ Hth. apply runs_rd; [done|lia|]. intros va _ Hva.
  apply makes_if; intros _; [by apply makes_ret|].
  pose proof (std_size_range th va rev Hth Hva) as Hz. destruct (std_size th va rev) as [[h v] r].
  apply runs_bind. change (makes (if existsb (fun m => (hdisplay m =? h) && (vdisplay m =? v) && (drm_mode_vrefresh m =? r)) (probed s1)
    then mret None else if (h =? 1366) && (v =? 768) && (r =? 60)
    then mode ← cvt_mode 1366 768 r false false false; mret (option_map shift_1366 mode)
    else rb ← drm_monitor_supports_rb;
      mode ← (if (rb : bool) then drm_mode_find_dmt h v r true else mret None);
      match mode with Some mode => mret (Some mode)
      | None => mode ← drm_mode_find_dmt h v r false;
        match mode with Some mode => mret (Some mode) | None => std_generate lv h v r end end) s1 (fun _ => True)).
  apply makes_if; intros _; [by apply makes_ret|]. apply makes_if; intros _.
  { eapply makes_bind; [apply cvt_mode_makes; [done|lia|unfold gtf_size in Hz; lia]|]. intros m s2 Hs2 _ _. by apply makes_ret. }
  eapply makes_bind; [apply makes_reads, supports_rb_reads; done|]. intros rb s2 Hs2 _ _.
  eapply (makes_bind _ _ _ (fun _ => True)).
  { destruct rb; [by apply find_dmt_makes|by apply makes_ret]. }
  intros [m|] s3 Hs3 _ _; [by apply makes_ret|].
  eapply makes_bind; [by apply find_dmt_makes|]. intros [m|] s4 Hs4 _ _; [by apply makes_ret|].
  by apply std_generate_makes.
Qed.

Lemma add_std_counts t n s : ok s -> 0 <= t -> t + 2 <= len s -> runs (add_std t n) s (counts n s).
Proof.
  intros Hs Ht Hl. unfold add_std. rd_in. apply runs_bind. eapply runs_mono; [by apply mode_std_makes|].
  intros o s1 [Ha _]. pose proof (counts_adds0 n n s s s1 (counts_ret n s Hs) Ha) as Hc.
  destruct o as [m|]; [|by apply runs_ret].
  eapply runs_add_then; [by eapply adds_ok|exact Hc|]. intros s2 Hc2 _ _. by apply runs_ret.
Qed.

(** Reading one byte, and going on. *)
Lemma makes_rd {B} i (k : Z -> M B) s P : ok s -> 0 <= i < len s ->
  (forall b, is_byte b -> makes (k b) s P) -> makes (rd i ≫= k) s P.
Proof. intros Hs Hi Hk. apply runs_rd; [done|done|]. intros b _ Hb. by apply Hk. Qed.

Ltac mk_rd := apply makes_rd; [assumption|in_range|intros ? ?].

(** ** Detailed timings *)

(** A number put together from [m] low bits and at most [n] high ones. *)
Lemma lor_range a b n : 0 <= n -> 0 <= a < 2 ^ n -> 0 <= b < 2 ^ n -> 0 <= Z.lor a b < 2 ^ n.
Proof.
  intros Hn Ha Hb. split; [apply Z.lor_nonneg; lia|].
  destruct (Z.eq_dec (Z.lor a b) 0) as [->|Hz]; [lia|].
  pose proof (proj2 (Z.lor_nonneg a b) (conj (proj1 Ha) (proj1 Hb))).
  apply Z.log2_lt_pow2; [lia|]. rewrite Z.log2_lor by lia.
  destruct (Z.eq_dec a 0) as [->|Ha0], (Z.eq_dec b 0) as [->|Hb0]; [done| | |].
  - apply Z.max_lub_lt; [|apply Z.log2_lt_pow2; lia]. cbn. pose proof (Z.log2_nonneg b).
    pose proof (proj1 (Z.log2_lt_pow2 b n ltac:(lia)) ltac:(lia)). lia.
  - apply Z.max_lub_lt; [apply Z.log2_lt_pow2; lia|]. cbn. pose proof (Z.log2_nonneg a).
    pose proof (proj1 (Z.log2_lt_pow2 a n ltac:(lia)) ltac:(lia)). lia.
  - apply Z.max_lub_lt; apply Z.log2_lt_pow2; lia.
Qed.

Lemma land_le b m : 0 <= m -> 0 <= b -> 0 <= Z.land b m <= m.
Proof.
  intros Hm Hb. split; [by apply Z.land_nonneg; left|]. apply Z.ldiff_le; [done|].
  apply Z.bits_inj'. intros i Hi. rewrite Z.ldiff_spec, Z.land_spec, Z.bits_0.
  by destruct (Z.testbit m i), (Z.testbit b i).
Qed.

Lemma shiftl_land_le b m k : 0 <= k -> 0 <= m -> 0 <= b -> 0 <= Z.shiftl (Z.land b m) k <= m * 2 ^ k.
Proof.
  intros Hk Hm Hb. rewrite Z.shiftl_mul_pow2 by done. pose proof (land_le b m Hm Hb).
  assert (0 < 2 ^ k) by (apply Z.pow_pos_nonneg; lia). nia.
Qed.

Lemma high_low_range b m k lo n : 0 <= k -> k <= n -> 0 <= m -> m * 2 ^ k < 2 ^ n -> 0 <= b ->
  0 <= lo < 2 ^ n -> 0 <= Z.lor (Z.shiftl (Z.land b m) k) lo < 2 ^ n.
Proof. intros. apply lor_range; [lia| |done]. pose proof (shiftl_land_le b m k). lia. Qed.

Lemma decode_makes pt s : ok s -> 0 <= pt -> pt + 10 <= len s ->
  makes (decode_pixel_timing pt) s (fun p => 0 <= pt_vactive p < 4096 /\ 0 <= pt_hactive p < 4096).
Proof.
  intros Hs Hp Hl. unfold decode_pixel_timing, hactive_lo, hblank_lo, hactive_hblank_hi, vactive_lo, vblank_lo,
    vactive_vblank_hi, hsync_offset_lo, hsync_pulse_width_lo, vsync_offset_pulse_width_lo,
    hsync_vsync_offset_pulse_width_hi.
  do 10 (apply makes_rd; [done|lia|intros ? ?]). unfold is_byte in *.
  apply makes_ret; [done|]. cbn. split; apply (high_low_range _ 0xf0 4 _ 12); lia.
Qed.

Lemma set_size_makes pt qs m s : ok s -> 0 <= pt -> pt + 16 <= len s -> makes (detailed_set_size pt qs m) s (fun _ => True).
Proof.
  intros Hs Hp Hl. unfold detailed_set_size, width_mm_lo, height_mm_lo, width_height_mm_hi.
  do 3 (apply makes_rd; [done|lia|intros ? ?]). case_match.
  eapply (makes_bind _ _ _ (fun _ => True)).
  - apply makes_if; intros _; [|by apply makes_ret]. do 2 mk_rd. by apply makes_ret.
  - intros [w h] s1 Hs1 _ _. by apply makes_ret.
Qed.

Lemma mode_detailed_makes t qs s : ok s -> at_timing t s -> makes (drm_mode_detailed t qs) s (fun _ => True).
Proof.
  intros Hs Ht. pose proof Ht as (Ht1 & Ht2 & Ht3). unfold drm_mode_detailed.
  eapply makes_bind; [apply decode_makes; [done|lia|lia]|]. intros p s1 Hs1 Hl1 [Hva Hha].
  apply makes_if; intros Hsmall; [by apply makes_ret|]. zbool. unfold misc.
  apply runs_rd; [done|lia|]. intros pm _ Hpm.
  apply makes_if; intros _; [by apply makes_ret|]. apply makes_if; intros _; [by apply makes_ret|].
  apply makes_if; intros _.
  { eapply makes_bind; [apply cvt_mode_makes; [done|lia|lia]|]. intros [m|] s2 Hs2 Hl2 _; [|by apply makes_ret].
    eapply makes_bind; [apply set_size_makes; [done|lia|lia]|]. intros m' s3 Hs3 _ _. by apply makes_ret. }
  eapply (makes_bind _ _ _ (fun _ => True)).
  { apply runs_create; [done|]. auto. }
  intros [m|] s2 Hs2 Hl2 _; [|by apply makes_ret].
  eapply (makes_bind _ _ _ (fun _ => True)).
  { apply makes_if; intros _; [|by apply makes_ret].
    eapply (makes_bind _ _ _ (fun _ => True)).
    - apply runs_wr; [done|lia|unfold edid_extensions; lia| |auto]. intros. by apply harmless_const; left.
    - intros [] s3 Hs3 Hl3 _. apply runs_wr; [done|lia|unfold edid_extensions; lia| |auto]. intros. by apply harmless_const; right. }
  intros [] s3 Hs3 Hl3 _. apply makes_rd; [done|lia|]. intros c0 _. apply makes_rd; [done|lia|]. intros c1 _.
  eapply (makes_bind _ _ _ (fun _ => True)).
  { apply makes_if; intros _; [|by apply makes_ret]. apply runs_rd; [done|lia|]. intros b Eb _.
    apply runs_wr; [done|lia|unfold edid_extensions; lia| |auto].
    intros old Eo Hold. rewrite Eb in Eo. injection Eo as <-. by apply harmless_or6. }
  intros [] s4 Hs4 Hl4 _. apply makes_rd; [done|lia|]. intros pm2 _.
  eapply makes_bind; [apply set_size_makes; [done|lia|lia]|]. intros m' s5 Hs5 _ _. by apply makes_ret.
Qed.

(** ** Adding modes *)

Definition cl_counts (c : detailed_mode_closure) (s : scan) (c' : detailed_mode_closure) (s' : scan) : Prop :=
  counts (modes c) s (modes c') s'.

Lemma closure_walk cb c s : ok s ->
  (forall t c s, ok s -> at_timing t s -> runs (cb t c) s (cl_counts c s)) ->
  runs (drm_for_each_detailed_block cb c) s (cl_counts c s).
Proof.
  intros Hs Hcb. apply detailed_blocks_run; [| | |done|done].
  - intros c0 s0 Hs0. by apply counts_ret.
  - intros c0 s0 c1 s1 c2 s2. apply counts_trans.
  - intros c0 s0 c1 s1 Hc. split; [by eapply adds_ok|by eapply adds_len].
Qed.

Lemma version_reads maj min s : ok s -> reads (version_greater maj min) s (fun _ => True).
Proof. intros Hs. unfold reads, version_greater. do 2 rd_in. by apply runs_ret. Qed.

Lemma in_vsync_reads m t s : ok s -> at_timing t s -> reads (mode_in_vsync_range m t) s (fun _ => True).
Proof. intros Hs Ht. unfold reads, mode_in_vsync_range. do 4 rd_in. by apply runs_ret. Qed.

Lemma pixel_clock_reads t s : ok s -> at_timing t s -> reads (range_pixel_clock t) s (fun _ => True).
Proof.
  intros Hs Ht. unfold reads, range_pixel_clock. rd_in. apply runs_if; intros _; [by apply runs_ret|].
  do 3 rd_in. apply runs_if; intros _; by apply runs_ret.
Qed.

(** The walk happens only for new enough EDIDs. *)
Lemma versioned_walk cb maj min s : ok s ->
  (forall t c s, ok s -> at_timing t s -> runs (cb t c) s (cl_counts c s)) ->
  runs (v ← version_greater maj min;
        c ← (if (v : bool) then drm_for_each_detailed_block cb (mk_closure false 0 0)
             else mret (mk_closure false 0 0));
        mret (modes c)) s (counts 0 s).
Proof.
  intros Hs Hcb. eapply reads_bind; [by apply version_reads|].
  intros v _. apply runs_bind. apply (runs_mono _ _ (cl_counts (mk_closure false 0 0) s)).
  - destruct v; [by apply closure_walk|apply runs_ret; by apply counts_ret].
  - intros c s' Hc. apply runs_ret. exact Hc.
Qed.

(** [makes] followed by the addition of the mode that was made, if any. *)
Lemma add_made_counts {C} (m : M (option drm_display_mode)) (f : drm_display_mode -> drm_display_mode)
    (yes no : C) (cnt : C -> Z) s P : ok s -> makes m s P -> cnt yes = cnt no + 1 ->
  runs (o ← m; match o with
               | Some x => _ ← drm_mode_probed_add (f x); mret yes
               | None => mret no
               end) s (fun c s' => counts (cnt no) s (cnt c) s').
Proof.
  intros Hs Hm Hy. apply runs_bind. eapply runs_mono; [exact Hm|]. intros o s1 [Ha _].
  pose proof (counts_adds0 (cnt no) (cnt no) s s s1 (counts_ret _ s Hs) Ha) as Hc.
  destruct o as [x|]; [|by apply runs_ret].
  eapply runs_add_then; [by eapply adds_ok|exact Hc|]. intros s2 Hc2 _ _. apply runs_ret. by rewrite Hy.
Qed.

Lemma do_detailed_mode_counts t c s : ok s -> at_timing t s -> runs (do_detailed_mode t c) s (cl_counts c s).
Proof.
  intros Hs Ht. unfold do_detailed_mode. do 2 rd_in. apply runs_if; intros _; [|apply runs_ret; by apply counts_ret].
  apply runs_bind. eapply runs_mono; [by apply mode_detailed_makes|]. intros o s1 [Ha _].
  pose proof (counts_adds0 (modes c) (modes c) s s s1 (counts_ret _ s Hs) Ha) as Hc.
  destruct o as [x|]; [|by apply runs_ret].
  eapply runs_add_then; [by eapply adds_ok|exact Hc|]. intros s2 Hc2 _ _. by apply runs_ret.
Qed.

Lemma add_detailed_counts qs s : ok s -> runs (add_detailed_modes qs) s (counts 0 s).
Proof.
  intros Hs. unfold add_detailed_modes. eapply reads_bind; [by apply version_reads|].
  intros v _. rd_in. apply runs_bind. eapply runs_mono.
  - apply closure_walk; [done|]. apply do_detailed_mode_counts.
  - intros c s' Hc. apply runs_ret. exact Hc.
Qed.

Lemma cvt_code_modes_counts code n s : ok s -> 0 <= code -> code + 3 <= len s ->
  runs (cvt_code_modes code n) s (counts n s).
Proof.
  intros Hs Hc Hl. unfold cvt_code_modes. do 3 (apply runs_rd; [done|lia|intros ? ? ?]). unfold is_byte in *.
  apply runs_if; intros _; [by apply runs_ret, counts_ret|].
  pose proof (shiftl_land_le b0 0xf0 4 ltac:(lia) ltac:(lia) ltac:(lia)) as Hh.
  unfold cvt_code_size. cbv zeta. apply runs_for_counts; [done|]. intros j n' s' Hj Hs' _. cbn beta.
  apply runs_if; intros _; [|by apply runs_ret, counts_ret].
  assert (exists r, cvt_rates !! Z.to_nat j = Some r /\ 50 <= r <= 123) as (r & Er & Hr).
  { assert (j = 1 \/ j = 2 \/ j = 3 \/ j = 4) as [-> |[-> |[-> | ->]]] by lia; eexists; (split; [reflexivity|lia]). }
  apply runs_bind, (runs_lift _ _ _ r Er).
  apply (add_made_counts _ (fun x => x) (n' + 1) n' (fun n => n) s' (fun _ => True)); [done| |done].
  apply cvt_mode_makes; [done|lia|done].
Qed.

Lemma do_cvt_mode_counts t c s : ok s -> at_timing t s -> runs (do_cvt_mode t c) s (cl_counts c s).
Proof.
  intros Hs Ht. pose proof Ht as (Ht1 & Ht2 & _). unfold do_cvt_mode, other_type. rd_in.
  apply runs_if; intros _; [|apply runs_ret; by apply counts_ret].
  apply runs_bind. unfold drm_cvt_modes, other_data. eapply runs_mono.
  - apply runs_for_counts; [done|]. intros j n s' Hj Hs' Hl. apply cvt_code_modes_counts; [done|lia|lia].
  - intros n s' Hn. apply runs_ret. unfold cl_counts. cbn. unfold counts in *. by replace (modes c + n - modes c) with (n - 0) by lia.
Qed.

Lemma add_cvt_counts s : ok s -> runs add_cvt_modes s (counts 0 s).
Proof. intros Hs. apply versioned_walk; [done|]. apply do_cvt_mode_counts. Qed.

Lemma do_standard_counts t c s : ok s -> at_timing t s -> runs (do_standard_modes t c) s (cl_counts c s).
Proof.
  intros Hs Ht. pose proof Ht as (Ht1 & Ht2 & _). unfold do_standard_modes, other_type, other_data. rd_in.
  apply runs_if; intros _; [|apply runs_ret; by apply counts_ret].
  apply runs_bind. eapply runs_mono.
  - apply runs_for_counts; [done|]. intros j n s' Hj Hs' Hl. apply add_std_counts; [done|lia|lia].
  - intros n s' Hn. by apply runs_ret.
Qed.

(** Two counts in a row. *)
Lemma counts_plus n m s s' s'' : counts 0 s n s' -> counts 0 s' m s'' -> counts 0 s (n + m) s''.
Proof.
  intros H1 H2. unfold counts in *. rewrite !Z.sub_0_r in *. by eapply adds_trans.
Qed.

(** A count of a first part, and then that of a walk. *)
Lemma then_versioned_walk (m : M Z) cb s : ok s -> runs m s (counts 0 s) ->
  (forall t c s, ok s -> at_timing t s -> runs (cb t c) s (cl_counts c s)) ->
  runs (n ← m; v ← version_greater 1 0;
        c ← (if (v : bool) then drm_for_each_detailed_block cb (mk_closure false 0 0)
             else mret (mk_closure false 0 0));
        mret (n + modes c)) s (counts 0 s).
Proof.
  intros Hs Hm Hcb. apply runs_bind. eapply runs_mono; [exact Hm|]. intros n s1 Hn.
  pose proof (adds_ok _ _ _ Hn) as Hs1. eapply reads_bind; [by apply version_reads|].
  intros v _. apply runs_bind. apply (runs_mono _ _ (cl_counts (mk_closure false 0 0) s1)).
  - destruct v; [by apply closure_walk|apply runs_ret; by apply counts_ret].
  - intros c s' Hc. apply runs_ret. by apply (counts_plus n (modes c) s s1 s').
Qed.

Lemma add_standard_counts s : ok s -> runs add_standard_modes s (counts 0 s).
Proof.
  intros Hs. pose proof (ok_len s Hs). apply then_versioned_walk; [done| |apply do_standard_counts].
  apply runs_for_counts; [done|]. unfold EDID_STD_TIMINGS, edid_standard_timings.
  intros j n s' Hj Hs' Hl. apply add_std_counts; [done|lia|lia].
Qed.

(** ** Established timings *)

Lemma est3_bits_counts t i j : forall n s, ok s -> at_timing t s -> 0 <= i < 6 -> runs (est3_bits t i j n) s (counts n s).
Proof.
  induction j as [|j IH]; intros n s Hs Ht Hi; cbn [est3_bits]; [by apply runs_ret, counts_ret|].
  destruct (est3_modes !! _) as [mm|]; [|by apply runs_ret, counts_ret].
  pose proof Ht as (Ht1 & Ht2 & Ht3). apply runs_rd; [done|lia|]. intros b _ _.
  apply runs_if; intros _; [|by apply IH].
  apply runs_bind. eapply runs_mono; [by apply find_dmt_makes|]. intros o s1 [Ha _].
  pose proof (counts_adds0 n n s s s1 (counts_ret _ s Hs) Ha) as Hc.
  pose proof (adds_ok _ _ _ Ha) as Hs1. pose proof (adds_len _ _ _ Ha) as Hl1.
  assert (at_timing t s1) as Ht' by (unfold at_timing; rewrite Hl1; exact Ht).
  destruct o as [m|].
  - eapply runs_add_then; [done|exact Hc|]. intros s2 Hc2 Hs2 Hl2.
    eapply runs_mono; [apply IH; [done|unfold at_timing; rewrite Hl2; exact Ht'|done]|].
    intros n' s3 H3. by eapply counts_trans.
  - eapply runs_mono; [by apply IH|]. intros n' s3 H3. by eapply counts_trans.
Qed.

Lemma do_established_counts t c s : ok s -> at_timing t s -> runs (do_established_modes t c) s (cl_counts c s).
Proof.
  intros Hs Ht. unfold do_established_modes, other_type. rd_in.
  apply runs_if; intros _; [|apply runs_ret; by apply counts_ret].
  apply runs_bind. eapply runs_mono.
  - apply runs_for_counts; [done|]. intros j n s' Hj Hs' Hl. apply est3_bits_counts; [done| |lia].
    unfold at_timing. rewrite Hl. exact Ht.
  - intros n s' Hn. apply runs_ret. unfold cl_counts. cbn. unfold counts in *. by replace (modes c + n - modes c) with (n - 0) by lia.
Qed.

Lemma add_established_counts s : ok s -> runs add_established_modes s (counts 0 s).
Proof.
  intros Hs. unfold add_established_modes. do 3 rd_in. apply then_versioned_walk; [done| |apply do_established_counts].
  apply runs_for_counts; [done|]. unfold EDID_EST_TIMINGS. intros j n s' Hj Hs' _. cbn beta.
  apply runs_if; intros _; [|by apply runs_ret, counts_ret].
  destruct (lookup_lt_is_Some_2 edid_est_modes (Z.to_nat j)) as [m Em].
  { change (length edid_est_modes) with 17%nat. lia. }
  apply runs_bind, (runs_lift _ _ _ m Em).
  apply (add_made_counts _ (fun x => x) (n + 1) n (fun n => n) s' (fun o => o = None \/ o = Some m)); [done| |done].
  by apply duplicate_makes.
Qed.

(** ** Inferred modes *)

Lemma in_hsync_reads m t s : ok s -> at_timing t s -> 0 < htotal m -> reads (mode_in_hsync_range m t) s (fun _ => True).
Proof.
  intros Hs Ht Hm. unfold reads, mode_in_hsync_range. do 4 rd_in. destruct (hsync_total m Hm) as [h E].
  apply runs_bind, (runs_lift _ _ _ h E). by apply runs_ret.
Qed.

Lemma in_range_reads m t s : ok s -> at_timing t s -> 0 < htotal m -> reads (mode_in_range m t) s (fun _ => True).
Proof.
  intros Hs Ht Hm. unfold reads, mode_in_range. eapply reads_bind; [by apply in_hsync_reads|]. intros h _.
  apply runs_if; intros _; [by apply runs_ret|]. eapply reads_bind; [by apply in_vsync_reads|].
  intros v _. apply runs_if; intros _; [by apply runs_ret|]. eapply reads_bind; [by apply pixel_clock_reads|].
  intros c _. apply runs_if; intros _; [by apply runs_ret|]. do 4 rd_in. apply runs_if; intros _; [by apply runs_ret|].
  apply runs_if; intros _; [by apply supports_rb_reads|by apply runs_ret].
Qed.

Lemma valid_inferred_reads (b : bool) m s :
  reads (if b then valid_inferred_mode m else mret false) s (fun _ => True).
Proof. by destruct b. Qed.

Lemma dmt_range_counts l t : Forall (fun m => 0 < htotal m) l -> forall n s, ok s -> at_timing t s ->
  runs (dmt_range_loop l t n) s (counts n s).
Proof.
  induction 1 as [|m l Hm _ IH]; intros n s Hs Ht; cbn [dmt_range_loop]; [by apply runs_ret, counts_ret|].
  eapply reads_bind; [by apply in_range_reads|]. intros b _. eapply reads_bind; [apply valid_inferred_reads|]. intros v _.
  apply runs_if; intros _; [|by apply IH].
  apply runs_bind. eapply runs_mono; [by apply duplicate_makes|]. intros o s1 [Ha _].
  pose proof (counts_adds0 n n s s s1 (counts_ret _ s Hs) Ha) as Hc.
  pose proof (adds_ok _ _ _ Ha) as Hs1. pose proof (adds_len _ _ _ Ha) as Hl1.
  assert (at_timing t s1) as Ht' by (unfold at_timing; rewrite Hl1; exact Ht).
  destruct o as [x|].
  - eapply runs_add_then; [done|exact Hc|]. intros s2 Hc2 Hs2 Hl2.
    eapply runs_mono; [apply IH; [done|unfold at_timing; rewrite Hl2; exact Ht']|].
    intros n' s3 H3. by eapply counts_trans.
  - eapply runs_mono; [by apply IH|]. intros n' s3 H3. by eapply counts_trans.
Qed.

Lemma fixup_1366_htotal m : htotal (fixup_mode_1366x768 m) = htotal m.
Proof. unfold fixup_mode_1366x768. by case_match. Qed.

Lemma extra_range_counts gen l t : 
  (forall m s, m ∈ l -> ok s -> makes (gen m) s (fun o => forall x, o = Some x -> 0 < htotal x)) ->
  forall n s, ok s -> at_timing t s -> runs (extra_range_loop gen l t n) s (counts n s).
Proof.
  induction l as [|m l IH]; intros Hg n s Hs Ht; cbn [extra_range_loop]; [by apply runs_ret, counts_ret|].
  apply runs_bind. eapply runs_mono; [apply Hg; [by left|done]|]. intros o s1 [Ha Ho].
  pose proof (counts_adds0 n n s s s1 (counts_ret _ s Hs) Ha) as Hc.
  pose proof (adds_ok _ _ _ Ha) as Hs1. pose proof (adds_len _ _ _ Ha) as Hl1.
  assert (at_timing t s1) as Ht' by (unfold at_timing; rewrite Hl1; exact Ht).
  destruct o as [x|]; [|by apply runs_ret].
  eapply reads_bind; [apply in_range_reads; [done|done|rewrite fixup_1366_htotal; by apply Ho]|]. intros b _.
  eapply reads_bind; [apply valid_inferred_reads|]. intros v _. apply runs_if; intros _.
  - eapply runs_add_then; [done|exact Hc|]. intros s2 Hc2 Hs2 Hl2.
    eapply runs_mono; [apply IH; [intros; apply Hg; [by right|done]|done|unfold at_timing; rewrite Hl2; exact Ht']|].
    intros n' s3 H3. by eapply counts_trans.
  - eapply runs_mono; [apply IH; [intros; apply Hg; [by right|done]|done|done]|].
    intros n' s3 H3. by eapply counts_trans.
Qed.

Lemma dmt_htotal : Forall (fun m => 0 < htotal m) drm_dmt_modes.
Proof.
  apply Forall_forall. intros m Hm. apply list_elem_of_In in Hm.
  assert (forallb (fun m => 0 <? htotal m) drm_dmt_modes = true) as H by (vm_compute; reflexivity).
  rewrite forallb_forall in H. specialize (H m Hm). zbool. done.
Qed.

Lemma extra_sizes m : m ∈ extra_modes -> gtf_size (mini_w m) (mini_h m) (mini_r m).
Proof.
  intros Hm. apply list_elem_of_In in Hm. unfold gtf_size.
  repeat (destruct Hm as [<-|Hm]; [cbn; lia|]). destruct Hm.
Qed.

Lemma gtf_range_counts t s : ok s -> at_timing t s -> runs (drm_gtf_modes_for_range t) s (counts 0 s).
Proof. intros Hs Ht. apply extra_range_counts; [|done|done]. intros m s' Hm Hs'. by apply gtf_mode_makes, extra_sizes. Qed.

Lemma extra_cvt_htotal (rb : bool) m : m ∈ extra_modes -> forall a, exists o,
  drm_cvt_mode a (mini_w m) (mini_h m) (mini_r m) rb false false = Some o /\ forall x, o = Some x -> 0 < htotal x.
Proof.
  intros Hm a. destruct a; [|by exists None]. apply list_elem_of_In in Hm.
  assert (forallb (fun m => match drm_cvt_mode true (mini_w m) (mini_h m) (mini_r m) rb false false with
    | Some (Some x) => 0 <? htotal x | _ => false end) extra_modes = true) as H by (destruct rb; vm_compute; reflexivity).
  rewrite forallb_forall in H. specialize (H m Hm). destruct (drm_cvt_mode _ _ _ _ _ _ _) as [[x|]|]; [|done..].
  zbool. eexists. split; [done|]. by intros ? [= <-].
Qed.

Lemma cvt_range_counts t s : ok s -> at_timing t s -> runs (drm_cvt_modes_for_range t) s (counts 0 s).
Proof.
  intros Hs Ht. unfold drm_cvt_modes_for_range. eapply reads_bind; [by apply supports_rb_reads|]. intros rb _.
  apply extra_range_counts; [|done|done]. intros m s' Hm Hs'. apply makes_alloc_lift; [done|].
  by apply extra_cvt_htotal.
Qed.

(** A function that counts from zero, added to a closure. *)
Lemma add_modes_counts (m : M Z) c s s0 : ok s -> runs m s (counts 0 s) -> cl_counts s0.1 s0.2 c s ->
  runs (n ← m; mret (add_modes c n)) s (cl_counts s0.1 s0.2).
Proof.
  intros Hs Hm Hc. apply runs_bind. eapply runs_mono; [exact Hm|]. intros n s' Hn. apply runs_ret.
  eapply counts_trans; [exact Hc|]. cbn. unfold counts in *. by replace (modes c + n - modes c) with (n - 0) by lia.
Qed.

Lemma do_inferred_counts t c s : ok s -> at_timing t s -> runs (do_inferred_modes t c) s (cl_counts c s).
Proof.
  intros Hs Ht. unfold do_inferred_modes, other_type, range_flags. rd_in.
  pose proof (counts_ret (modes c) s Hs) as Hc0.
  apply runs_if; intros _; [by apply runs_ret|].
  apply runs_bind. eapply runs_mono; [by apply dmt_range_counts; [apply dmt_htotal|..]|]. intros n s1 Hn.
  pose proof (adds_ok _ _ _ Hn) as Hs1. pose proof (adds_len _ _ _ Hn) as Hl1.
  assert (at_timing t s1) as Ht1 by (unfold at_timing; rewrite Hl1; exact Ht).
  assert (cl_counts c s (add_modes c n) s1) as Hc1.
  { unfold cl_counts, counts in *. cbn. by replace (modes c + n - modes c) with (n - 0) by lia. }
  eapply reads_bind; [by apply version_reads|]. intros v _.
  apply runs_if; intros _; [by apply runs_ret|]. rd_in.
  apply runs_if; intros _.
  { apply (add_modes_counts _ _ _ (c, s)); [done|by apply gtf_range_counts|done]. }
  apply runs_if; intros _; [|by apply runs_ret].
  eapply reads_bind; [by apply version_reads|]. intros v' _. apply runs_if; intros _; [by apply runs_ret|].
  apply (add_modes_counts _ _ _ (c, s)); [done|by apply cvt_range_counts|done].
Qed.

Lemma add_inferred_counts s : ok s -> runs add_inferred_modes s (counts 0 s).
Proof. intros Hs. apply versioned_walk; [done|]. apply do_inferred_counts. Qed.
