(* ===== verification/EdidCeaSafe.v ===== *)
(** * The CEA extension: nothing is read outside it, and drm_add_edid_modes as a whole

    The data blocks of a CEA extension are walked inside the extension; with the
    functions of EdidSafe this gives the theorem on drm_add_edid_modes. *)

From S2P Require Import Prelude Modes EdidTables EdidBase EdidBlock EdidModes EdidCea EdidRun EdidGen EdidSafe.

Open Scope Z_scope.

(** ** The walk over data blocks *)

(** An extension block of the EDID. *)
Definition at_ext (e : Z) (s : scan) : Prop := 128 <= e /\ e + 128 <= len s.

Lemma find_cea_reads s : ok s -> reads drm_find_cea_extension s
  (fun r => match r with None => True | Some e => at_ext e s end).
Proof.
  intros Hs. pose proof (ok_len s Hs) as Hl. unfold reads, drm_find_cea_extension.
  pose proof Hs as (Hb & Hg & n & Hn & Hn2). unfold edid_extensions in *. apply runs_rd; [done|lia|].
  intros n' Hn' Hb'. rewrite Hn in Hn'. injection Hn' as <-. apply runs_if; intros _; [by apply runs_ret|].
  assert (forall fuel i, 0 <= i -> 256 <= i + Z.of_nat fuel -> (0 < fuel)%nat ->
    reads (find_cea_loop fuel i) s (fun r => match r with None => True | Some e => at_ext e s end)) as H.
  { induction fuel as [|fuel IH]; intros i Hi Hf Hf0; [lia|]. unfold reads. cbn [find_cea_loop].
    apply runs_rd; [done|unfold edid_extensions; lia|]. intros m Hm _. unfold edid_extensions in Hm.
    rewrite Hn in Hm. injection Hm as <-. unfold is_byte in *.
    change (Z.of_nat (length (raw s))) with (len s) in Hn2. unfold EDID_LENGTH.
    apply runs_if; intros Hin; [|by apply runs_ret]. zbool. apply runs_rd; [done|lia|]. intros tag _ _.
    apply runs_if; intros _; [apply runs_ret; split; [done|unfold at_ext; lia]|]. apply IH; lia. }
  apply H; lia.
Qed.

Lemma payload_reads a s : ok s -> 0 <= a < len s -> reads (cea_db_payload_len a) s (fun n => 0 <= n <= 31).
Proof.
  intros Hs Ha. unfold reads, cea_db_payload_len. apply runs_rd; [done|done|]. intros b _ Hb. apply runs_ret.
  split; [done|]. unfold is_byte in Hb. apply land_le; lia.
Qed.

Lemma tag_reads a s : ok s -> 0 <= a < len s -> reads (cea_db_tag a) s (fun _ => True).
Proof. intros Hs Ha. unfold reads, cea_db_tag. apply runs_rd; [done|done|]. intros b _ Hb. by apply runs_ret. Qed.

Lemma offsets_reads e s : ok s -> at_ext e s -> reads (cea_db_offsets e) s
  (fun o => match o with None => True | Some (st, en) => st = 4 /\ 4 <= en <= 127 end).
Proof.
  intros Hs [He1 He2]. unfold reads, cea_db_offsets. apply runs_rd; [done|lia|]. intros b _ Hb. cbv zeta. apply runs_ret.
  split; [done|]. destruct (_ || _) eqn:E; [done|]. apply orb_false_elim in E as [E1 E2]. zbool. lia.
Qed.

(** A data block at [db] with a payload of [n] bytes, inside the EDID. *)
Definition at_db (db : Z) (s : scan) : Prop :=
  exists b, byte_at (raw s) db = Some b /\ 0 <= db /\ db + Z.land b 0x1f < len s.

Lemma at_db_payload db s : ok s -> at_db db s ->
  reads (cea_db_payload_len db) s (fun n => 0 <= n <= 31 /\ 0 <= db /\ db + n < len s).
Proof.
  intros Hs (b & Eb & H0 & Hl). unfold reads, cea_db_payload_len. pose proof Hs as (Hb & _).
  assert (is_byte b) as Hbb by (apply byte_at_Some in Eb as [_ Eb]; by apply (Forall_lookup_1 _ _ _ _ Hb Eb)).
  unfold is_byte in Hbb. pose proof (land_le b 0x1f ltac:(lia) ltac:(lia)).
  apply runs_rd; [done|lia|]. intros b' Eb' _. rewrite Eb in Eb'. injection Eb' as <-. by apply runs_ret.
Qed.

Section DataBlocks.
Context {C : Type} (body : Z -> C -> M (bool * C)) (R : C -> scan -> C -> scan -> Prop).
Hypothesis R_refl : forall c s, ok s -> R c s c s.
Hypothesis R_trans : forall c s c' s' c'' s'', R c s c' s' -> R c' s' c'' s'' -> R c s c'' s''.
Hypothesis R_ok : forall c s c' s', R c s c' s' -> ok s' /\ len s' = len s.
Hypothesis body_runs : forall db c s, ok s -> at_db db s -> runs (body db c) s (fun r s' => R c s r.2 s').

(** The walk ends within its fuel: every block is at least one byte. *)
Lemma data_blocks_run e en fuel : forall i c s, ok s -> at_ext e s -> 0 <= i <= en -> en <= 127 ->
  en - i < Z.of_nat fuel -> runs (for_each_cea_db fuel e i en body c) s (R c s).
Proof.
  induction fuel as [|fuel IH]; intros i c s Hs He Hi Hen Hf; [lia|]. cbn [for_each_cea_db].
  apply runs_if; intros Hin; [|by apply runs_ret, R_refl]. zbool. pose proof He as [He1 He2].
  pose proof Hs as (Hb & _). destruct (byte_at_in (raw s) (e + i) Hb) as (b & Eb & Hbb); [unfold len in *; lia|].
  unfold is_byte in Hbb. pose proof (land_le b 0x1f ltac:(lia) ltac:(lia)) as Hn.
  unfold cea_db_payload_len. apply runs_bind. apply runs_rd; [done|lia|]. intros b' Eb' _.
  rewrite Eb in Eb'. injection Eb' as <-. apply runs_ret.
  apply runs_if; intros Hin2; [|by apply runs_ret, R_refl]. zbool.
  apply runs_bind. eapply runs_mono; [apply body_runs; [done|exists b; split; [done|lia]]|].
  intros [go c'] s' HR. cbn in HR. pose proof (R_ok _ _ _ _ HR) as [Hok Hlen].
  apply runs_if; intros _; [|by apply runs_ret].
  eapply runs_mono; [apply IH; [done|unfold at_ext; lia|lia|lia|lia]|intros; by eapply R_trans].
Qed.
End DataBlocks.

(** ** CEA modes *)

Lemma do_cea_counts db n s : ok s -> 0 <= db -> 0 <= n -> db + n <= len s -> runs (do_cea_modes db n) s (counts 0 s).
Proof.
  intros Hs Hd Hn Hl. apply runs_for_counts; [done|]. intros j c s' Hj Hs' Hl'.
  apply runs_rd; [done|lia|]. intros b _ _. destruct (edid_cea_modes !! _) as [m|]; [|by apply runs_ret, counts_ret].
  apply (add_made_counts _ (with_vrefresh 0) (c + 1) c (fun n => n) s' (fun o => o = None \/ o = Some m)); [done| |done].
  by apply duplicate_makes.
Qed.

Lemma add_cea_counts s : ok s -> runs add_cea_modes s (counts 0 s).
Proof.
  intros Hs. unfold add_cea_modes. eapply reads_bind; [by apply find_cea_reads|].
  intros [e|] He; [|by apply runs_ret, counts_ret]. pose proof He as [He1 He2].
  unfold cea_revision. apply runs_rd; [done|lia|]. intros rev _ _. apply runs_if; intros _; [by apply runs_ret, counts_ret|].
  eapply reads_bind; [by apply offsets_reads|]. intros [[st en]|] Ho; [|by apply runs_ret, counts_ret].
  destruct Ho as [-> Hen].
  apply (data_blocks_run _ counts); [|intros *; apply counts_trans| | |done|done|lia|lia|unfold CEA_DB_FUEL; lia].
  - intros c s0 Hs0. by apply counts_ret.
  - intros c s0 c' s' Hc. split; [by eapply adds_ok|by eapply adds_len].
  - intros db c s0 Hs0 Hdb. eapply reads_bind; [by apply at_db_payload|]. intros n (Hn & Hd0 & Hdn).
    eapply reads_bind; [apply tag_reads; [done|lia]|]. intros tag _. apply runs_if; intros _; [|by apply runs_ret, counts_ret].
    apply runs_bind. eapply runs_mono; [apply do_cea_counts; [done|lia|lia|lia]|]. intros k s' Hk. apply runs_ret.
    unfold counts in *. cbn. by replace (c + k - c) with (k - 0) by lia.
Qed.

Lemma alternate_makes l : forall new s, ok s -> makes (alternate_loop l new) s (fun _ => True).
Proof.
  induction l as [|m l IH]; intros new s Hs; cbn [alternate_loop]; [by apply makes_ret|].
  destruct (edid_cea_modes !! _) as [c|]; [|by apply IH]. destruct (other_clock m c) as [k|]; [|by apply IH].
  eapply makes_bind; [by apply duplicate_makes|]. intros [x|] s' Hs' _ _; by apply IH.
Qed.

Lemma probed_add_all_counts l : forall n s, ok s -> runs (probed_add_all l n) s (counts n s).
Proof.
  induction l as [|m l IH]; intros n s Hs; cbn [probed_add_all]; [by apply runs_ret, counts_ret|].
  eapply runs_add_then; [done|by apply counts_ret|]. intros s' Hc Hs' _.
  eapply runs_mono; [by apply IH|]. intros n' s'' Hn. by eapply counts_trans.
Qed.

Lemma add_alternate_counts s : ok s -> runs add_alternate_cea_modes s (counts 0 s).
Proof.
  intros Hs. unfold add_alternate_cea_modes. eapply reads_bind; [by apply find_cea_reads|].
  intros [e|] _; [|by apply runs_ret, counts_ret].
  apply (runs_bind get_probed). unfold runs at 1. cbn [get_probed].
  apply runs_bind. eapply runs_mono; [by apply alternate_makes|]. intros new s' [Ha _].
  eapply runs_mono; [apply probed_add_all_counts; by eapply adds_ok|]. intros n s'' Hn.
  eapply counts_trans; [|exact Hn]. by eapply (counts_adds0 0 0 s s s'); [apply counts_ret|].
Qed.

(** ** The quirks and the display information *)

Lemma find_quirks_reads l s : ok s -> reads (find_quirks l) s (fun _ => True).
Proof.
  intros Hs. induction l as [|q l IH]; cbn [find_quirks]; [by apply runs_ret|]. unfold reads.
  eapply (reads_bind _ _ _ (fun _ => True)).
  { unfold reads, edid_vendor. do 2 rd_in. by apply runs_ret. }
  intros v _. eapply (reads_bind _ _ _ (fun _ => True)).
  { unfold reads, EDID_PRODUCT_ID. do 2 rd_in. by apply runs_ret. }
  intros p _. apply runs_if; intros _; [by apply runs_ret|exact IH].
Qed.

Lemma display_info_reads i s : ok s -> reads (drm_add_display_info i) s (fun _ => True).
Proof.
  intros Hs. unfold reads, drm_add_display_info. do 3 rd_in. apply runs_if; intros _; [by apply runs_ret|].
  rd_in. apply runs_if; intros _; [by apply runs_ret|]. eapply reads_bind; [by apply find_cea_reads|]. intros o Ho.
  eapply (reads_bind _ _ _ (fun _ => True)).
  { destruct o as [e|]; [|by apply runs_ret]. destruct Ho as [He1 He2].
    unfold reads. apply runs_rd; [done|lia|]. intros ? _ _. apply runs_rd; [done|lia|]. intros ? _ _. by apply runs_ret. }
  intros i' _. apply runs_if; intros _; [by apply runs_ret|]. rd_in. by apply runs_ret.
Qed.

(** ** The check of the blocks *)

Lemma slice_in l i n : 0 <= i -> 0 <= n -> i + n <= Z.of_nat (length l) ->
  slice l i n = Some (take (Z.to_nat n) (drop (Z.to_nat i) l)).
Proof. intros. unfold slice. by rewrite !(proj2 (Z.leb_le _ _)) by lia. Qed.

Lemma store_in l i data : 0 <= i -> i + Z.of_nat (length data) <= Z.of_nat (length l) ->
  exists l', store l i data = Some l' /\ length l' = length l /\
    forall j, byte_at l' j = if (i <=? j) && (j <? i + Z.of_nat (length data)) then byte_at data (j - i) else byte_at l j.
Proof.
  intros Hi Hl. unfold store. rewrite !(proj2 (Z.leb_le _ _)) by lia. eexists. split; [done|]. split.
  - rewrite !length_app, length_take, length_drop. lia.
  - intros j. unfold byte_at. destruct (Z.ltb_spec j 0) as [Hj|Hj].
    { destruct (Z.leb_spec i j); [lia|done]. }
    destruct (Z.leb_spec i j) as [Hij|Hij].
    + rewrite lookup_app_r by (rewrite length_take; lia). rewrite length_take.
      destruct (Z.ltb_spec (j - i) 0); [lia|]. destruct (Z.ltb_spec j (i + Z.of_nat (length data))) as [Hj8|Hj8]; cbn [andb].
      * rewrite lookup_app_l by lia. f_equal. lia.
      * rewrite lookup_app_r by lia. rewrite lookup_drop. f_equal. lia.
    + rewrite lookup_app_l by (rewrite length_take; lia). rewrite lookup_take_lt by lia. done.
Qed.

Lemma header_bytes j b : byte_at edid_header j = Some b -> 0 <= j < 8 /\ (b = 0 \/ b = 255).
Proof.
  intros H. apply byte_at_Some in H as [Hj Hb]. pose proof (lookup_lt_Some _ _ _ Hb) as Hlt. change (length edid_header) with 8%nat in Hlt.
  split; [lia|]. assert (Forall (fun b => b = 0 \/ b = 255) edid_header) as HF by (repeat constructor; auto).
  by apply (Forall_lookup_1 _ _ _ _ HF Hb).
Qed.

Lemma edid_ok_header l : edid_ok l -> exists l', store l 0 edid_header = Some l' /\ edid_ok l' /\ length l' = length l /\
  byte_at l' edid_extensions = byte_at l edid_extensions.
Proof.
  intros Hok. pose proof (ok_len (mk_scan l [] []) Hok) as H128. unfold len in H128. cbn in H128.
  destruct Hok as (Hb & Hg & n & Hn & Hl).
  destruct (store_in l 0 edid_header) as (l' & E & Hlen & Hat); [lia|change (length edid_header) with 8%nat; lia|].
  change (Z.of_nat (length edid_header)) with 8 in Hat. exists l'. split; [done|].
  assert (byte_at l' edid_extensions = byte_at l edid_extensions) as He by apply Hat.
  split; [|done]. split; [|split].
  - apply Forall_lookup. intros k b Hk. specialize (Hat (Z.of_nat k)). unfold byte_at at 1 in Hat.
    rewrite (proj2 (Z.ltb_ge _ _)), Nat2Z.id, Hk in Hat by lia.
    destruct (_ && _) in Hat.
    + symmetry in Hat. apply header_bytes in Hat. unfold is_byte. lia.
    + symmetry in Hat. apply byte_at_Some in Hat as [_ Hat]. rewrite Nat2Z.id in Hat. by apply (Forall_lookup_1 _ _ _ _ Hb Hat).
  - intros t c2 j2 Ht. rewrite !Hat. rewrite !(andb_comm (0 <=? _)).
    rewrite (proj2 (Z.ltb_ge (t + 10) (0 + 8))), (proj2 (Z.ltb_ge (t + 13) (0 + 8))), (proj2 (Z.ltb_ge (t + 17) (0 + 8))) by lia.
    cbn [andb]. destruct (_ && _); [|by apply Hg].
    intros H3. apply header_bytes in H3. unfold EDID_DETAIL_MONITOR_RANGE in H3. lia.
  - exists n. rewrite He, Hlen. done.
Qed.

Lemma block_valid_run l i : edid_ok l -> 0 <= i -> (i + 1) * 128 <= Z.of_nat (length l) ->
  exists v l', drm_edid_block_valid l (i * EDID_LENGTH) i = Some (v, l') /\ edid_ok l' /\ length l' = length l /\
    byte_at l' edid_extensions = byte_at l edid_extensions.
Proof.
  intros Hok Hi Hl. unfold drm_edid_block_valid, EDID_LENGTH. rewrite slice_in by lia. cbn [mbind option_bind].
  set (score := drm_edid_header_is_valid _). case_match; [by exists false, l|].
  assert (exists l', (if (i =? 0) && negb (score =? 8) then store l (i * 128) edid_header else Some l) = Some l' /\
    edid_ok l' /\ length l' = length l /\ byte_at l' edid_extensions = byte_at l edid_extensions) as (l' & -> & Hok' & Hlen & He).
  { case_match; [|by exists l]. zbool. subst i. by apply edid_ok_header. }
  cbn [mbind option_bind]. rewrite slice_in by lia. cbn [mbind option_bind]. pose proof Hok' as (Hb & _).
  destruct (byte_at_in l' (i * 128) Hb) as (tag & -> & _); [lia|]. cbn [mbind option_bind].
  destruct (byte_at_in l' (i * 128 + edid_version) Hb) as (ver & -> & _); [unfold edid_version; lia|]. cbn [mbind option_bind].
  case_match; [by exists false, l'|]. case_match; [by exists false, l'|]. by exists true, l'.
Qed.

Lemma is_valid_run l : edid_ok l -> exists v l', drm_edid_is_valid l = Some (v, l') /\ edid_ok l' /\ length l' = length l.
Proof.
  intros Hok. unfold drm_edid_is_valid.
  assert (forall fuel i l, edid_ok l -> 0 <= i -> 257 <= i + Z.of_nat fuel -> (0 < fuel)%nat ->
    exists v l', valid_loop fuel i l = Some (v, l') /\ edid_ok l' /\ length l' = length l) as H; [|by apply H; [|lia..]].
  clear. induction fuel as [|fuel IH]; intros i l Hok Hi Hf Hf0; [lia|]. cbn [valid_loop].
  pose proof Hok as (Hb & _ & n & Hn & Hn2). rewrite Hn. cbn [mbind option_bind].
  assert (is_byte n) as Hbn by (apply byte_at_Some in Hn as [_ Hn]; by apply (Forall_lookup_1 _ _ _ _ Hb Hn)).
  unfold is_byte in Hbn. destruct (Z.leb_spec i n) as [Hin|Hin]; [|by exists true, l].
  destruct (block_valid_run l i Hok Hi) as (v & l' & -> & Hok' & Hlen & _); [lia|]. cbn [mbind option_bind].
  destruct v; [|by exists false, l'].
  destruct (IH (i + 1) l' Hok') as (v & l'' & -> & Hok'' & Hlen'); [lia..|].
  exists v, l''. split; [done|]. split; [done|]. congruence.
Qed.

(** ** drm_add_edid_modes *)

(** Modes without their type bits. *)
Definition untyped (l : list drm_display_mode) : list drm_display_mode := map (set_type 0) l.

Lemma untyped_alter f pos l : (forall m, set_type 0 (f m) = set_type 0 m) -> untyped (alter f pos l) = untyped l.
Proof.
  intros Hf. revert pos. induction l as [|m l IH]; intros [|pos]; cbn; [done|done|by rewrite Hf|by rewrite IH].
Qed.

Lemma fixup_untyped qs l : untyped (fixup_preferred qs l) = untyped l.
Proof.
  destruct l as [|m l]; [done|]. unfold fixup_preferred. rewrite untyped_alter by done.
  unfold untyped. rewrite map_map. by apply map_ext.
Qed.

(** C29: On every array of bytes that has the blocks it announces, whichever
    allocations fail, [drm_add_edid_modes] ends without reading or writing outside
    the array and without dividing by zero, provided a secondary GTF curve has an
    offset under 100 percent; the number it returns is the number of modes it added
    at the end of the probed modes, and of the modes that were there before nothing
    but the type changes. *)
Theorem add_edid_modes_safe l old allocs info : edid_ok l ->
  exists n info' s' new, drm_add_edid_modes info (mk_scan l old allocs) = Some ((n, info'), s') /\
    n = Z.of_nat (length new) /\ untyped (probed s') = untyped (old ++ new) /\
    edid_ok (raw s') /\ length (raw s') = length l.
Proof.
  intros Hok. set (s := mk_scan l old allocs).
  assert (runs (drm_add_edid_modes info) s (fun r s' => exists new, r.1 = Z.of_nat (length new) /\
    untyped (probed s') = untyped (old ++ new) /\ edid_ok (raw s') /\ length (raw s') = length l)) as H.
  2:{ apply runs_some in H as ([n info'] & s' & E & new & Hn & Hp & Hr & Hl). exists n, info', s', new. done. }
  unfold drm_add_edid_modes. destruct (is_valid_run l Hok) as (v & l' & Ev & Hok' & Hlen).
  apply runs_bind. unfold runs at 1, edid_is_valid. unfold s; cbn [raw]. rewrite Ev. cbn [probed mem].
  set (s0 := mk_scan l' old allocs). assert (ok s0) as Hs0 by exact Hok'.
  apply runs_if; intros _.
  { apply runs_ret. exists []. rewrite app_nil_r. done. }
  eapply reads_bind; [by apply find_quirks_reads|]. intros qs _.
  apply runs_bind. eapply runs_mono; [by apply add_detailed_counts|]. intros n1 s1 C1.
  apply runs_bind. eapply runs_mono; [apply add_cvt_counts; by eapply adds_ok|]. intros n2 s2 C2.
  apply runs_bind. eapply runs_mono; [apply add_standard_counts; by eapply adds_ok|]. intros n3 s3 C3.
  apply runs_bind. eapply runs_mono; [apply add_established_counts; by eapply adds_ok|]. intros n4 s4 C4.
  pose proof (adds_ok _ _ _ C4) as Hs4. rd_in.
  apply runs_bind. apply (runs_mono _ _ (counts 0 s4)).
  { apply runs_if; intros _; [by apply add_inferred_counts|by apply runs_ret, counts_ret]. }
  intros n5 s5 C5.
  apply runs_bind. eapply runs_mono; [apply add_cea_counts; by eapply adds_ok|]. intros n6 s6 C6.
  apply runs_bind. eapply runs_mono; [apply add_alternate_counts; by eapply adds_ok|]. intros n7 s7 C7.
  pose proof (counts_plus _ _ _ _ _ (counts_plus _ _ _ _ _ (counts_plus _ _ _ _ _ (counts_plus _ _ _ _ _
    (counts_plus _ _ _ _ _ (counts_plus _ _ _ _ _ C1 C2) C3) C4) C5) C6) C7) as C.
  unfold counts in C. rewrite Z.sub_0_r in C. destruct C as (Hs7 & Hl7 & new & Hp & Hn).
  apply runs_bind. apply (runs_mono _ _ (fun _ s8 => raw s8 = raw s7 /\ untyped (probed s8) = untyped (probed s7))).
  { apply runs_if; intros _; [|by apply runs_ret]. unfold runs. cbn. split; [done|]. apply fixup_untyped. }
  intros [] s8 [Hr8 Hp8]. assert (ok s8) as Hs8 by (unfold ok; by rewrite Hr8).
  eapply reads_bind; [by apply display_info_reads|]. intros info' _. apply runs_ret.
  exists new. split; [done|]. split; [rewrite Hp8, Hp; done|]. rewrite Hr8. split; [exact Hs7|].
  unfold len in Hl7. cbn in Hl7. lia.
Qed.
