(* ===== verification/EdidDetail.v ===== *)
(** * Detailed timing descriptors, encoded and decoded

    The eighteen bytes VESA's EDID standard gives for a timing, and what
    drm_mode_detailed makes of them. *)

From S2P Require Import Prelude Modes EdidTables EdidBase EdidModes EdidRun EdidSafe.

Open Scope Z_scope.

(** ** The encoding of the standard *)

Record descriptor := mk_descriptor {
  d_clock : Z; d_timing : pixel_timing; d_width : Z; d_height : Z; d_hborder : Z; d_vborder : Z; d_misc : Z }.

Definition timing_bytes (d : descriptor) : list Z :=
  let p := d_timing d in
  [ d_clock d mod 256; d_clock d / 256;
    pt_hactive p mod 256; pt_hblank p mod 256; pt_hactive p / 256 * 16 + pt_hblank p / 256;
    pt_vactive p mod 256; pt_vblank p mod 256; pt_vactive p / 256 * 16 + pt_vblank p / 256;
    pt_hsync_offset p mod 256; pt_hsync_pulse_width p mod 256;
    pt_vsync_offset p mod 16 * 16 + pt_vsync_pulse_width p mod 16;
    pt_hsync_offset p / 256 * 64 + pt_hsync_pulse_width p / 256 * 16 +
      pt_vsync_offset p / 16 * 4 + pt_vsync_pulse_width p / 16;
    d_width d mod 256; d_height d mod 256; d_width d / 256 * 16 + d_height d / 256;
    d_hborder d; d_vborder d; d_misc d ].

Definition timing_fits (p : pixel_timing) : Prop :=
  0 <= pt_hactive p < 4096 /\ 0 <= pt_vactive p < 4096 /\ 0 <= pt_hblank p < 4096 /\ 0 <= pt_vblank p < 4096 /\
  0 <= pt_hsync_offset p < 1024 /\ 0 <= pt_hsync_pulse_width p < 1024 /\
  0 <= pt_vsync_offset p < 64 /\ 0 <= pt_vsync_pulse_width p < 64.

Definition descriptor_fits (d : descriptor) : Prop :=
  0 <= d_clock d < 65536 /\ timing_fits (d_timing d) /\ 0 <= d_width d < 4096 /\ 0 <= d_height d < 4096 /\
  is_byte (d_misc d).

(** ** Bit fields *)

Lemma byte_fields b : 0 <= b < 256 ->
  Z.land b 0xf0 = b / 16 * 16 /\ Z.land b 0xf = b mod 16 /\ Z.land b 0xc0 = b / 64 * 64 /\
  Z.land b 0x30 = b / 16 mod 4 * 16 /\ Z.land b 0xc = b / 4 mod 4 * 4 /\ Z.land b 0x3 = b mod 4.
Proof.
  intros Hb.
  assert (forallb (fun b => (Z.land b 0xf0 =? b / 16 * 16) && (Z.land b 0xf =? b mod 16) &&
    (Z.land b 0xc0 =? b / 64 * 64) && (Z.land b 0x30 =? b / 16 mod 4 * 16) &&
    (Z.land b 0xc =? b / 4 mod 4 * 4) && (Z.land b 0x3 =? b mod 4)) (seqZ 0 256) = true) as H by (vm_compute; reflexivity).
  rewrite forallb_forall in H. specialize (H b ltac:(apply list_elem_of_In, elem_of_seqZ; lia)). zbool. done.
Qed.

Lemma lor_add a b k : 0 <= k -> 0 <= b < 2 ^ k -> Z.lor (a * 2 ^ k) b = a * 2 ^ k + b.
Proof.
  intros Hk Hb. rewrite <-Z.add_lor_land.
  assert (Z.land (a * 2 ^ k) b = 0) as ->; [|lia].
  apply Z.bits_inj'. intros i Hi. rewrite Z.land_spec, Z.bits_0. destruct (Z.lt_ge_cases i k) as [H|H].
  - by rewrite Z.mul_pow2_bits_low.
  - destruct (Z.eq_dec b 0) as [->|Hb0]; [by rewrite Z.bits_0, andb_false_r|].
    rewrite (Z.bits_above_log2 b) by (try (apply Z.log2_lt_pow2 in Hb as ?; lia); pose proof (proj1 (Z.log2_lt_pow2 b k ltac:(lia)) ltac:(lia)); lia).
    apply andb_false_r.
Qed.

(** A number from a high field, shifted into place, and its low bits. *)
Lemma join_split f k w v : 0 <= k -> 0 <= w -> f * 2 ^ k = v / 2 ^ w * 2 ^ w ->
  Z.lor (Z.shiftl f k) (v mod 2 ^ w) = v.
Proof.
  intros Hk Hw E. assert (0 < 2 ^ w) as Hp by (apply Z.pow_pos_nonneg; lia).
  rewrite Z.shiftl_mul_pow2, E by done. rewrite lor_add by (try done; by apply Z.mod_pos_bound).
  rewrite (Z.mul_comm (v / 2 ^ w)). symmetry. apply Z.div_mod. lia.
Qed.

(** [lia] with quotients and remainders. *)
Ltac dlia := Z.to_euclidean_division_equations; lia.

(** ** Reading a descriptor *)

Definition descriptor_at (l : list Z) (t : Z) (d : descriptor) : Prop :=
  forall k, 0 <= k < 18 -> byte_at l (t + k) = byte_at (timing_bytes d) k.

Lemma rd_eq {B} i b (k : Z -> M B) s : byte_at (raw s) i = Some b -> (rd i ≫= k) s = k b s.
Proof. intros E. unfold mbind, M_bind, rd. by rewrite E. Qed.

Lemma bind_eq {A B} (m : M A) (k : A -> M B) s a s' : m s = Some (a, s') -> (m ≫= k) s = k a s'.
Proof. intros E. unfold mbind, M_bind. by rewrite E. Qed.

(** What the code reads as the vertical sync offset: its two high bits end up in
    the two low ones. *)
Definition read_vsync_offset (v : Z) : Z := Z.lor (v / 16) (v mod 16).

Definition with_vsync_offset (v : Z) (p : pixel_timing) : pixel_timing :=
  mk_pixel_timing (pt_hactive p) (pt_vactive p) (pt_hblank p) (pt_vblank p) (pt_hsync_offset p)
    (pt_hsync_pulse_width p) v (pt_vsync_pulse_width p).

Ltac rd_descriptor Hd k :=
  rewrite (rd_eq _ _ _ _ (Hd k ltac:(lia))).

Lemma decode_encoded t d s : descriptor_fits d -> descriptor_at (raw s) t d ->
  decode_pixel_timing (t + 2) s = Some (with_vsync_offset (read_vsync_offset (pt_vsync_offset (d_timing d))) (d_timing d), s).
Proof.
  intros (_ & Hp & _) Hd. destruct (d_timing d) as [ha va hb vb hso hpw vso vpw] eqn:Ep.
  unfold timing_fits in Hp. cbn in Hp. destruct Hp as (Hha & Hva & Hhb & Hvb & Hhso & Hhpw & Hvso & Hvpw).
  assert (forall k j, t + 2 + j = t + k -> 0 <= k < 18 -> byte_at (raw s) (t + 2 + j) = byte_at (timing_bytes d) k) as Hr.
  { intros k j -> Hk. by apply Hd. }
  unfold decode_pixel_timing, hactive_lo, hblank_lo, hactive_hblank_hi, vactive_lo, vblank_lo,
    vactive_vblank_hi, hsync_offset_lo, hsync_pulse_width_lo, vsync_offset_pulse_width_lo,
    hsync_vsync_offset_pulse_width_hi.
  erewrite (rd_eq (t + 2 + 0)) by (rewrite (Hr 2) by lia; reflexivity).
  erewrite (rd_eq (t + 2 + 1)) by (rewrite (Hr 3) by lia; reflexivity).
  erewrite (rd_eq (t + 2 + 2)) by (rewrite (Hr 4) by lia; reflexivity).
  erewrite (rd_eq (t + 2 + 3)) by (rewrite (Hr 5) by lia; reflexivity).
  erewrite (rd_eq (t + 2 + 4)) by (rewrite (Hr 6) by lia; reflexivity).
  erewrite (rd_eq (t + 2 + 5)) by (rewrite (Hr 7) by lia; reflexivity).
  erewrite (rd_eq (t + 2 + 6)) by (rewrite (Hr 8) by lia; reflexivity).
  erewrite (rd_eq (t + 2 + 7)) by (rewrite (Hr 9) by lia; reflexivity).
  erewrite (rd_eq (t + 2 + 8)) by (rewrite (Hr 10) by lia; reflexivity).
  erewrite (rd_eq (t + 2 + 9)) by (rewrite (Hr 11) by lia; reflexivity).
  rewrite Ep. cbn [pt_hactive pt_vactive pt_hblank pt_vblank pt_hsync_offset pt_hsync_pulse_width pt_vsync_offset pt_vsync_pulse_width].
  pose proof (byte_fields (ha / 256 * 16 + hb / 256) ltac:(dlia)) as (-> & -> & _).
  pose proof (byte_fields (va / 256 * 16 + vb / 256) ltac:(dlia)) as (-> & -> & _).
  pose proof (byte_fields (hso / 256 * 64 + hpw / 256 * 16 + vso / 16 * 4 + vpw / 16) ltac:(dlia)) as (_ & _ & -> & -> & -> & ->).
  pose proof (byte_fields (vso mod 16 * 16 + vpw mod 16) ltac:(dlia)) as (_ & -> & _).
  unfold with_vsync_offset, read_vsync_offset. cbn. unfold mret, M_ret. do 3 f_equal.
  - apply (join_split _ 4 8); dlia.
  - apply (join_split _ 4 8); dlia.
  - apply (join_split _ 8 8); dlia.
  - apply (join_split _ 8 8); dlia.
  - apply (join_split _ 2 8); dlia.
  - apply (join_split _ 4 8); dlia.
  - rewrite !Z.shiftr_div_pow2 by lia. f_equal; dlia.
  - replace ((vso mod 16 * 16 + vpw mod 16) mod 16) with (vpw mod 2 ^ 4) by dlia. apply join_split; dlia.
Qed.

(** ** The mode of a descriptor *)

Lemma read_vsync_offset_exact v : 0 <= v < 64 -> read_vsync_offset v = v <-> v < 16.
Proof.
  intros Hv.
  assert (forallb (fun v => Bool.eqb (read_vsync_offset v =? v) (v <? 16)) (seqZ 0 64) = true) as H by (vm_compute; reflexivity).
  rewrite forallb_forall in H. specialize (H v ltac:(apply list_elem_of_In, elem_of_seqZ; lia)).
  apply eqb_prop in H. rewrite <-Z.eqb_eq, <-Z.ltb_lt. by rewrite H.
Qed.

Lemma set_size_exact t d s m : descriptor_fits d -> descriptor_at (raw s) t d ->
  detailed_set_size (t + 2) 0 m s = Some (drm_mode_set_name (set_size_type (d_width d) (d_height d) m), s).
Proof.
  intros (_ & _ & Hw & Hh & _) Hd.
  assert (forall k j, t + 2 + j = t + k -> 0 <= k < 18 -> byte_at (raw s) (t + 2 + j) = byte_at (timing_bytes d) k) as Hr.
  { intros k j -> Hk. by apply Hd. }
  unfold detailed_set_size, width_mm_lo, height_mm_lo, width_height_mm_hi.
  erewrite (rd_eq (t + 2 + 10)) by (rewrite (Hr 12) by lia; reflexivity).
  erewrite (rd_eq (t + 2 + 11)) by (rewrite (Hr 13) by lia; reflexivity).
  erewrite (rd_eq (t + 2 + 12)) by (rewrite (Hr 14) by lia; reflexivity).
  pose proof (byte_fields (d_width d / 256 * 16 + d_height d / 256) ltac:(dlia)) as (-> & -> & _).
  rewrite !(Z.lor_comm (_ mod 256)).
  rewrite (join_split _ 4 8 (d_width d)), (join_split _ 8 8 (d_height d)) by dlia. reflexivity.
Qed.

(** Timings in order, as far as they go: the sync pulse is not empty and ends inside
    the total. *)
Definition sync_inside (m : drm_display_mode) : Prop :=
  hdisplay m <= hsync_start m < hsync_end m /\ hsync_end m <= htotal m /\
  vdisplay m <= vsync_start m < vsync_end m /\ vsync_end m <= vtotal m.

Definition positive_sync (d : descriptor) : Z :=
  Z.lor (if has_flag (d_misc d) DRM_EDID_PT_HSYNC_POSITIVE then DRM_MODE_FLAG_PHSYNC else DRM_MODE_FLAG_NHSYNC)
        (if has_flag (d_misc d) DRM_EDID_PT_VSYNC_POSITIVE then DRM_MODE_FLAG_PVSYNC else DRM_MODE_FLAG_NVSYNC).

(** C31: [drm_mode_detailed] inverts the encoding of a progressive detailed timing:
    when memory is left and no quirk applies, the mode has exactly the clock, the
    horizontal and vertical sizes, sync positions, polarities and physical size that
    were encoded and its sync pulses lie inside its totals; the EDID is not changed.
    The exception is the vertical sync offset, which comes back exactly when it is
    less than 16. *)
Theorem detailed_timing_roundtrip t d s : let p := d_timing d in
  descriptor_fits d -> descriptor_at (raw s) t d -> mem s = [] ->
  64 <= pt_hactive p -> 64 <= pt_vactive p -> pt_hsync_pulse_width p <> 0 -> pt_vsync_pulse_width p <> 0 ->
  has_flag (d_misc d) DRM_EDID_PT_STEREO = false -> has_flag (d_misc d) DRM_EDID_PT_INTERLACED = false ->
  exists m v, drm_mode_detailed t 0 s = Some (Some m, s) /\ sync_inside m /\
    clock m = 10 * d_clock d /\ hdisplay m = pt_hactive p /\ vdisplay m = pt_vactive p /\
    hsync_start m = pt_hactive p + pt_hsync_offset p /\
    hsync_end m = hsync_start m + pt_hsync_pulse_width p /\
    htotal m = (if hsync_end m >? pt_hactive p + pt_hblank p then hsync_end m + 1 else pt_hactive p + pt_hblank p) /\
    vsync_start m = pt_vactive p + v /\ vsync_end m = vsync_start m + pt_vsync_pulse_width p /\
    vtotal m = (if vsync_end m >? pt_vactive p + pt_vblank p then vsync_end m + 1 else pt_vactive p + pt_vblank p) /\
    (v = pt_vsync_offset p <-> pt_vsync_offset p < 16) /\
    flags m = positive_sync d /\ width_mm m = d_width d /\ height_mm m = d_height d /\ type m = DRM_MODE_TYPE_DRIVER.
Proof.
  intros p Hfit Hd Hmem Hha Hva Hhp Hvp Hst Hil. pose proof Hfit as (Hc & Hp & _).
  pose proof (decode_encoded t d s Hfit Hd) as Hdec. fold p in Hdec.
  assert (byte_at (raw s) (t + 2 + misc) = Some (d_misc d)) as Hmisc.
  { unfold misc. replace (t + 2 + 15) with (t + 17) by lia. rewrite (Hd 17) by lia. reflexivity. }
  assert (byte_at (raw s) t = Some (d_clock d mod 256)) as Hc0.
  { replace t with (t + 0) by lia. rewrite (Hd 0) by lia. reflexivity. }
  assert (byte_at (raw s) (t + 1) = Some (d_clock d / 256)) as Hc1.
  { rewrite (Hd 1) by lia. reflexivity. }
  unfold drm_mode_detailed. rewrite (bind_eq _ _ _ _ _ Hdec). cbn [with_vsync_offset pt_hactive pt_vactive pt_hsync_pulse_width pt_vsync_pulse_width].
  rewrite !(proj2 (Z.ltb_ge _ _)) by lia. cbn [orb]. rewrite (rd_eq _ _ _ _ Hmisc), Hst.
  rewrite !(proj2 (Z.eqb_neq _ _)) by done. cbn [orb]. change (has_flag 0 _) with false. cbn iota.
  assert (drm_mode_create s = Some (Some (DRM_MODE String.EmptyString 0 0 0 0 0 0 0 0 0 0 0 0 0), s)) as Hcr.
  { unfold drm_mode_create, mbind, M_bind, alloc. by rewrite Hmem. }
  rewrite (bind_eq _ _ _ _ _ Hcr). rewrite (bind_eq _ _ s tt s) by done.
  rewrite (rd_eq _ _ _ _ Hc0), (rd_eq _ _ _ _ Hc1). rewrite (bind_eq _ _ s tt s) by done.
  rewrite (rd_eq _ _ _ _ Hmisc). rewrite (bind_eq _ _ _ _ _ (set_size_exact t d s _ Hfit Hd)).
  set (v := read_vsync_offset (pt_vsync_offset p)) in *.
  assert (0 <= v) as Hv0.
  { unfold v, read_vsync_offset. destruct Hp as (_ & _ & _ & _ & _ & _ & Hp & _). fold p in Hp. apply Z.lor_nonneg. dlia. }
  unfold drm_mode_do_interlace_quirk. rewrite Hil. cbn [negb].
  set (hp := if has_flag (d_misc d) DRM_EDID_PT_HSYNC_POSITIVE then _ else _).
  set (vp := if has_flag (d_misc d) DRM_EDID_PT_VSYNC_POSITIVE then _ else _).
  set (clk := Z.lor (d_clock d mod 256) (Z.shiftl (d_clock d / 256) 8)).
  assert (clk = d_clock d) as Hclk.
  { unfold clk. rewrite Z.lor_comm. apply (join_split (d_clock d / 256) 8 8); dlia. }
  set (q := with_vsync_offset v p). set (m0 := mode_of_timing q clk).
  match goal with |- exists _ _, mret ?o s = _ /\ _ => set (om := o) end.
  destruct om as [m|] eqn:Em; [|discriminate Em]. unfold om in Em. injection Em as Em.
  assert (clock m = clock m0 /\ hdisplay m = hdisplay m0 /\ hsync_start m = hsync_start m0 /\
    hsync_end m = hsync_end m0 /\ htotal m = htotal m0 /\ vdisplay m = vdisplay m0) as (F1 & F2 & F3 & F4 & F5 & F6).
  { rewrite <-Em. split_and!; reflexivity. }
  assert (vsync_start m = vsync_start m0 /\ vsync_end m = vsync_end m0 /\ vtotal m = vtotal m0 /\
    flags m = Z.lor hp vp /\ width_mm m = d_width d /\ height_mm m = d_height d /\ type m = DRM_MODE_TYPE_DRIVER)
    as (F7 & F8 & F9 & F10 & F11 & F12 & F13).
  { rewrite <-Em. split_and!; reflexivity. }
  clear Em. exists m, v. split; [reflexivity|]. unfold sync_inside.
  rewrite F1, F2, F3, F4, F5, F6, F7, F8, F9, F10, F11, F12, F13. unfold m0, mode_of_timing, DRM_MODE, q, with_vsync_offset.
  cbn [clock hdisplay hsync_start hsync_end htotal vdisplay vsync_start vsync_end vtotal
    pt_hactive pt_vactive pt_hblank pt_vblank pt_hsync_offset pt_hsync_pulse_width pt_vsync_pulse_width pt_vsync_offset].
  unfold timing_fits in Hp. fold p in Hp.
  split_and!; try done; try lia; try (destruct (_ >? _) eqn:E; zbool; lia).
  apply read_vsync_offset_exact. lia.
Qed.
