(* ===== verification/EdidFetch.v ===== *)
(** * What the fetch over DDC gives

    When a monitor announces at most four extensions, drm_get_edid ends without
    storing outside its buffer, and an EDID it returns passes drm_edid_is_valid with
    exactly the extension blocks that could be read.  With more extensions it stores
    past the end of the buffer. *)

From S2P Require Import Prelude Modes EdidTables EdidBase EdidBlock EdidRun EdidCeaSafe.

Open Scope Z_scope.

(** ** Blocks *)

Definition block_at (l : list Z) (k : Z) : list Z := take 128 (drop (Z.to_nat (k * 128)) l).

(** What the code accepts of a block that is not the first. *)
Definition good_block (b : list Z) : Prop := exists tag ver,
  byte_at b 0 = Some tag /\ byte_at b 18 = Some ver /\ (csum b = 0 \/ tag = 2) /\ (tag = 0 -> ver = 1).

(** And of the first. *)
Definition good_base (b : list Z) : Prop :=
  header_score b edid_header = 8 /\ csum b = 0 /\ byte_at b 0 = Some 0 /\ byte_at b 18 = Some 1.

Lemma byte_at_block l k j : 0 <= k -> 0 <= j < 128 -> byte_at (block_at l k) j = byte_at l (k * 128 + j).
Proof.
  intros Hk Hj. unfold byte_at, block_at. rewrite !(proj2 (Z.ltb_ge _ 0)) by lia.
  rewrite lookup_take_lt by lia. rewrite lookup_drop. f_equal. lia.
Qed.

Lemma score_le b : forall h, header_score b h <= Z.of_nat (length h).
Proof.
  induction b as [|x b IH]; intros [|y h]; cbn [header_score length]; try lia. specialize (IH h). destruct (x =? y); lia.
Qed.

Lemma score_full b : forall h, header_score b h = Z.of_nat (length h) -> take (length h) b = h.
Proof.
  induction b as [|x b IH]; intros [|y h]; cbn [header_score length take]; try done.
  intros H. pose proof (score_le b h). destruct (Z.eqb_spec x y) as [->|]; [|lia]. f_equal. apply IH. lia.
Qed.

(** The verdict on block [k >= 1]: the memory is not touched. *)
Lemma block_valid_ext l k j : 1 <= k -> 1 <= j -> (k + 1) * 128 <= Z.of_nat (length l) ->
  exists v, drm_edid_block_valid l (k * EDID_LENGTH) j = Some (v, l) /\ (v = true <-> good_block (block_at l k)).
Proof.
  intros Hk Hj Hl. unfold drm_edid_block_valid, EDID_LENGTH. rewrite slice_in by lia. cbn [mbind option_bind].
  rewrite (proj2 (Z.eqb_neq j 0)) by lia. cbn [andb mbind option_bind]. rewrite slice_in by lia. cbn [mbind option_bind].
  change (Z.to_nat 128) with 128%nat. change (take 128 (drop (Z.to_nat (k * 128)) l)) with (block_at l k).
  destruct (lookup_lt_is_Some_2 l (Z.to_nat (k * 128))) as [tag Ht]; [lia|].
  destruct (lookup_lt_is_Some_2 l (Z.to_nat (k * 128 + 18))) as [ver Hv]; [lia|].
  assert (byte_at l (k * 128) = Some tag) as Et by (apply byte_at_Some; split; [lia|done]).
  assert (byte_at l (k * 128 + edid_version) = Some ver) as Ev by (apply byte_at_Some; split; [unfold edid_version; lia|done]).
  rewrite Et, Ev. cbn [mbind option_bind].
  assert (byte_at (block_at l k) 0 = Some tag) as Et'.
  { rewrite byte_at_block by lia. by rewrite Z.add_0_r. }
  assert (byte_at (block_at l k) 18 = Some ver) as Ev' by (rewrite byte_at_block by lia; exact Ev).
  set (b := block_at l k) in *. unfold good_block.
  destruct (Z.eqb_spec (csum b) 0), (Z.eqb_spec tag 2), (Z.eqb_spec tag 0), (Z.eqb_spec ver 1); cbn [negb andb];
    eexists; (split; [done|]); (split; [intros H; try discriminate H; exists tag, ver; split_and!; auto; congruence|
      intros (tag' & ver' & H0' & H18 & H1' & H2'); rewrite Et' in H0'; rewrite Ev' in H18; injection H0' as <-; injection H18 as <-;
      try done; try (destruct H1'; congruence); try (specialize (H2' ltac:(assumption)); congruence)]).
Qed.

(** The sum of the bytes, in which the checksum of a base block is seen. *)
Lemma csum_sum b : csum b = u8 (foldr Z.add 0 b).
Proof.
  unfold csum. assert (forall c, foldl (fun c x => u8 (c + x)) (u8 c) b = u8 (c + foldr Z.add 0 b)) as H.
  { induction b as [|x b IH]; intros c; cbn [foldl foldr]; [by rewrite Z.add_0_r|].
    assert (u8 (u8 c + x) = u8 (c + x)) as -> by (unfold u8; by rewrite Zplus_mod_idemp_l).
    rewrite IH. f_equal. lia. }
  apply (H 0).
Qed.

Lemma sum_insert b i x v : b !! i = Some x -> foldr Z.add 0 (<[i := v]> b) = foldr Z.add 0 b + (v - x).
Proof.
  revert i. induction b as [|y b IH]; intros [|i] H; [done|done| |].
  - injection H as ->. cbn. lia.
  - change (y + foldr Z.add 0 (<[i := v]> b) = y + foldr Z.add 0 b + (v - x)). rewrite (IH i H). lia.
Qed.

(** [store] of one byte. *)
Lemma store_one l i v : 0 <= i < Z.of_nat (length l) -> store l i [v] = Some (<[Z.to_nat i := v]> l).
Proof.
  intros Hi. unfold store. cbn [length]. rewrite !(proj2 (Z.leb_le _ _)) by lia. cbn [andb]. f_equal.
  rewrite insert_take_drop by lia. f_equal. cbn. do 2 f_equal. lia.
Qed.

Lemma block_at_insert l i v k : (i < 128)%nat -> (128 <= length l)%nat -> 0 <= k ->
  block_at (<[i := v]> l) k = if k =? 0 then <[i := v]> (block_at l 0) else block_at l k.
Proof.
  intros Hi Hl Hk. unfold block_at. destruct (Z.eqb_spec k 0) as [->|Hk0].
  - cbn [Z.mul Z.to_nat]. rewrite !drop_0. by rewrite take_insert_lt.
  - f_equal. apply drop_insert_lt. lia.
Qed.

(** A store behind a block leaves it alone, and makes the block it stores. *)
Lemma block_at_store l i data l' k : store l (i * 128) data = Some l' -> 0 <= k -> 0 <= i ->
  (Z.of_nat (length data) <= 128) -> k < i -> block_at l' k = block_at l k.
Proof.
  intros Hs Hk Hi Hd Hki. unfold store in Hs. case_match; [|done]. injection Hs as <-. zbool.
  unfold block_at. apply list_eq. intros j. destruct (Nat.lt_ge_cases j 128) as [Hj|Hj].
  - rewrite !lookup_take_lt, !lookup_drop by done. rewrite lookup_app_l by (rewrite length_take; lia).
    rewrite lookup_take_lt by lia. done.
  - rewrite !lookup_ge_None_2; [done| |]; rewrite length_take; lia.
Qed.

(** ** The first block *)

Lemma header_ok_bytes b j : header_score b edid_header = 8 -> 0 <= j < 8 -> byte_at b j = byte_at edid_header j.
Proof.
  intros H Hj. apply (score_full b edid_header) in H. change (length edid_header) with 8%nat in H.
  rewrite <-H. unfold byte_at. rewrite (proj2 (Z.ltb_ge j 0)) by lia. by rewrite lookup_take_lt by lia.
Qed.

Lemma score_header b : (8 <= length b)%nat -> (forall j, 0 <= j < 8 -> byte_at b j = byte_at edid_header j) -> header_score b edid_header = 8.
Proof.
  intros Hlen Hj.
  assert (forall j, (j < 8)%nat -> b !! j = edid_header !! j) as H.
  { intros j Hj'. specialize (Hj (Z.of_nat j) ltac:(lia)). unfold byte_at in Hj.
    rewrite (proj2 (Z.ltb_ge _ 0)), Nat2Z.id in Hj by lia. done. }
  do 8 (destruct b as [|? b]; [cbn in Hlen; lia|]).
  pose proof (H 0%nat ltac:(lia)) as E0. pose proof (H 1%nat ltac:(lia)) as E1. pose proof (H 2%nat ltac:(lia)) as E2.
  pose proof (H 3%nat ltac:(lia)) as E3. pose proof (H 4%nat ltac:(lia)) as E4. pose proof (H 5%nat ltac:(lia)) as E5.
  pose proof (H 6%nat ltac:(lia)) as E6. pose proof (H 7%nat ltac:(lia)) as E7. cbn in *. simplify_eq. by destruct b.
Qed.

Lemma block_valid_base l : 128 <= Z.of_nat (length l) -> exists v l', drm_edid_block_valid l 0 0 = Some (v, l') /\
  length l' = length l /\ (forall j, 8 <= j -> byte_at l' j = byte_at l j) /\
  (v = true -> good_base (block_at l' 0)).
Proof.
  intros Hl. unfold drm_edid_block_valid, EDID_LENGTH. rewrite slice_in by lia. cbn [mbind option_bind Z.eqb andb].
  change (take (Z.to_nat 128) (drop (Z.to_nat 0) l)) with (block_at l 0).
  set (score := drm_edid_header_is_valid (block_at l 0)). destruct (score <? edid_fixup); [by exists false, l|].
  assert (exists l', (if negb (score =? 8) then store l 0 edid_header else Some l) = Some l' /\ length l' = length l /\
    (forall j, 8 <= j -> byte_at l' j = byte_at l j) /\ header_score (block_at l' 0) edid_header = 8) as (l' & -> & Hlen & Hat & Hsc).
  { destruct (Z.eqb_spec score 8) as [E|_]; cbn [negb]; [by exists l|].
    destruct (store_in l 0 edid_header) as (l' & -> & Hlen & Hat); [lia|change (length edid_header) with 8%nat; lia|].
    change (Z.of_nat (length edid_header)) with 8 in Hat. exists l'. split; [done|]. split; [done|]. split.
    - intros j Hj. rewrite Hat. rewrite (proj2 (Z.ltb_ge j (0 + 8))) by lia. by rewrite andb_false_r.
    - apply score_header.
      + unfold block_at. rewrite length_take, length_drop. lia.
      + intros j Hj. rewrite byte_at_block by lia. rewrite Hat. rewrite (proj2 (Z.leb_le _ _)), (proj2 (Z.ltb_lt _ _)) by lia.
        cbn [andb]. f_equal. lia. }
  cbn [mbind option_bind]. rewrite slice_in by lia. cbn [mbind option_bind].
  change (take (Z.to_nat 128) (drop (Z.to_nat 0) l')) with (block_at l' 0).
  assert (byte_at (block_at l' 0) 0 = Some 0) as Htag by (rewrite header_ok_bytes by (done || lia); reflexivity).
  assert (byte_at l' 0 = Some 0) as Htag' by (rewrite byte_at_block in Htag by lia; exact Htag).
  rewrite Htag'. cbn [mbind option_bind].
  destruct (lookup_lt_is_Some_2 l' 18) as [ver Hv]; [lia|].
  assert (byte_at l' (0 + edid_version) = Some ver) as Ev by exact Hv. rewrite Ev. cbn [mbind option_bind].
  destruct (Z.eqb_spec (csum (block_at l' 0)) 0); cbn [negb andb]; [|by exists false, l'].
  destruct (Z.eqb_spec ver 1) as [->|]; cbn [negb]; [|by exists false, l'].
  exists true, l'. split; [done|]. split; [done|]. split; [done|]. intros _. split_and!; try done.
  rewrite byte_at_block by lia. exact Ev.
Qed.

(** A good base block is accepted as it is. *)
Lemma good_base_valid l : 128 <= Z.of_nat (length l) -> good_base (block_at l 0) -> drm_edid_block_valid l 0 0 = Some (true, l).
Proof.
  intros Hl (Hsc & Hcs & H0 & H18). unfold drm_edid_block_valid, EDID_LENGTH. rewrite slice_in by lia. cbn [mbind option_bind].
  change (take (Z.to_nat 128) (drop (Z.to_nat 0) l)) with (block_at l 0). unfold drm_edid_header_is_valid. rewrite Hsc.
  change (8 <? edid_fixup) with false. cbn [Z.eqb andb negb Pos.eqb mbind option_bind]. rewrite slice_in by lia. cbn [mbind option_bind].
  change (take (Z.to_nat 128) (drop (Z.to_nat 0) l)) with (block_at l 0). rewrite Hcs.
  rewrite byte_at_block in H0, H18 by lia. change (0 * 128 + 0) with 0 in H0. change (0 * 128 + 18) with (0 + edid_version) in H18.
  rewrite H0, H18. done.
Qed.

(** ** The fetch *)

Lemma block_at_same l l' k : 0 <= k -> length l' = length l ->
  (forall j, k * 128 <= j < k * 128 + 128 -> byte_at l' j = byte_at l j) -> block_at l' k = block_at l k.
Proof.
  intros Hk Hl Hj. apply list_eq. intros i. unfold block_at. destruct (Nat.lt_ge_cases i 128) as [Hi|Hi].
  - rewrite !lookup_take_lt, !lookup_drop by done. specialize (Hj (k * 128 + Z.of_nat i) ltac:(lia)). unfold byte_at in Hj.
    rewrite (proj2 (Z.ltb_ge _ 0)) in Hj by lia. replace (Z.to_nat (k * 128 + Z.of_nat i)) with (Z.to_nat (k * 128) + i)%nat in Hj by lia. done.
  - rewrite !lookup_ge_None_2; [done| |]; rewrite length_take; lia.
Qed.

(** The buffer [drm_do_get_edid] allocates: the base block and four extensions. *)
Definition buffer_size : Z := EDID_LENGTH * (DRM_MAX_EDID_EXT_NUM + 1).

Section Fetch.
Context {bus : Type} (i2c_transfer : bus -> list i2c_msg -> Z * list Z * bus).

(** A transfer reads bytes, no more than were asked for, and all of them when every
    message was sent. *)
Hypothesis transfer_fits : forall b block len ret data b', 0 <= len <= 128 ->
  i2c_transfer b (ddc_msgs block len) = (ret, data, b') ->
  Forall is_byte data /\ Z.of_nat (length data) <= len /\
  (ret = Z.of_nat (length (ddc_msgs block len)) -> Z.of_nat (length data) = len).

(** The monitor announces at most four extensions. *)
Hypothesis few_extensions : forall b ret data b' n,
  i2c_transfer b (ddc_msgs 0 128) = (ret, data, b') -> byte_at data 126 = Some n -> n <= 4.

Lemma probe_run retries : forall b l at_ block n, (0 < retries)%nat -> 0 <= at_ -> 0 <= n <= 128 -> at_ + n <= Z.of_nat (length l) ->
  exists ret l' b', probe_loop i2c_transfer retries b l at_ block n = Some (ret, l', b') /\ length l' = length l /\
    (forall j, j < at_ \/ at_ + n <= j -> byte_at l' j = byte_at l j) /\
    (ret = 0 -> exists b0 r0 data b1, i2c_transfer b0 (ddc_msgs block n) = (r0, data, b1) /\ Forall is_byte data /\
       forall j, 0 <= j < n -> byte_at l' (at_ + j) = byte_at data j).
Proof.
  induction retries as [|retries IH]; intros b l a block n Hr Ha Hn Hl; [lia|]. cbn [probe_loop].
  destruct (i2c_transfer b (ddc_msgs block n)) as [[ret data] b1] eqn:E.
  destruct (transfer_fits b block n ret data b1 Hn E) as (Hb & Hlen & Hfull).
  destruct (store_in l a data) as (l1 & -> & Hl1 & Hat); [done|lia|]. cbn [mbind option_bind].
  assert (forall j, j < a \/ a + n <= j -> byte_at l1 j = byte_at l j) as Hout.
  { intros j Hj. rewrite Hat. destruct (Z.leb_spec a j), (Z.ltb_spec j (a + Z.of_nat (length data))); cbn [andb]; try done. lia. }
  destruct (Z.eqb_spec ret (- ENXIO)); [by exists (-1), l1, b1|].
  destruct (Z.eqb_spec ret (Z.of_nat (length (ddc_msgs block n)))) as [Er|].
  { exists 0, l1, b1. split; [done|]. split; [done|]. split; [done|]. intros _. exists b, ret, data, b1.
    split; [done|]. split; [done|]. intros j Hj. rewrite Hat, (Hfull Er).
    rewrite (proj2 (Z.leb_le _ _)), (proj2 (Z.ltb_lt _ _)) by lia. cbn [andb]. f_equal. lia. }
  destruct retries as [|retries]; [by exists (-1), l1, b1|].
  destruct (IH b1 l1 a block n) as (ret' & l2 & b2 & -> & Hl2 & Hout2 & Hd); [lia|done|done|lia|].
  exists ret', l2, b2. split; [done|]. split; [congruence|]. split; [|done].
  intros j Hj. by rewrite Hout2, Hout.
Qed.

Lemma base_run tries : forall i b l, Z.of_nat (length l) = buffer_size ->
  exists r l' b', base_loop i2c_transfer tries i b l = Some (r, l', b') /\ length l' = length l /\
    (r = BaseValid -> good_base (block_at l' 0) /\ exists n, byte_at l' 126 = Some n /\ 0 <= n <= 4).
Proof.
  induction tries as [|tries IH]; intros i b l Hl; cbn [base_loop].
  { exists BaseTried, l, b. split; [done|]. split; [done|]. intros H. discriminate H. }
  unfold buffer_size, EDID_LENGTH, DRM_MAX_EDID_EXT_NUM in Hl.
  destruct (probe_run 5 b l 0 0 EDID_LENGTH) as (ret & l1 & b1 & E & Hl1 & _ & Hd); [lia|lia|unfold EDID_LENGTH; lia..|].
  unfold drm_do_probe_ddc_edid. rewrite E. cbn [mbind option_bind].
  destruct (Z.eqb_spec ret 0) as [->|]; cbn [negb].
  2:{ exists BaseOut, l1, b1. split; [done|]. split; [done|]. intros H. discriminate H. }
  destruct (Hd eq_refl) as (b0 & r0 & data & b2 & E2 & Hb & Hdata).
  destruct (block_valid_base l1) as (v & l2 & -> & Hl2 & Hat & Hv); [lia|]. cbn [mbind option_bind].
  destruct v.
  - exists BaseValid, l2, b1. split; [done|]. split; [congruence|]. intros _. split; [by apply Hv|].
    rewrite (Hat 126) by lia. specialize (Hdata 126 ltac:(unfold EDID_LENGTH; lia)). change (0 + 126) with 126 in Hdata.
    destruct (lookup_lt_is_Some_2 l1 126) as [n En]; [lia|].
    assert (byte_at l1 126 = Some n) as En' by exact En. exists n. split; [done|]. rewrite Hdata in En'.
    pose proof (few_extensions _ _ _ _ _ E2 En') as Hn4. apply byte_at_Some in En' as [_ En'].
    pose proof (Forall_lookup_1 _ _ _ _ Hb En') as Hnb. unfold is_byte in Hnb. lia.
  - destruct (_ && _).
    + exists BaseZero, l2, b1. split; [done|]. split; [congruence|]. intros H. discriminate H.
    + destruct (IH (i + 1) b1 l2) as (r & l3 & b3 & -> & Hl3 & Hr); [unfold buffer_size, EDID_LENGTH, DRM_MAX_EDID_EXT_NUM; lia|].
      exists r, l3, b3. split; [done|]. split; [congruence|done].
Qed.

Lemma block_run tries : forall j v b l, 1 <= j -> 0 <= v -> (v + 2) * 128 <= Z.of_nat (length l) ->
  exists readable valid l' b', block_loop i2c_transfer tries j v b l = Some (readable, valid, l', b') /\
    length l' = length l /\ (forall i, i < (v + 1) * 128 -> byte_at l' i = byte_at l i) /\
    (valid = true -> good_block (block_at l' (v + 1))).
Proof.
  induction tries as [|tries IH]; intros j v b l Hj Hv Hl; cbn [block_loop]; [by exists true, false, l, b|].
  destruct (probe_run 5 b l ((v + 1) * EDID_LENGTH) j EDID_LENGTH) as (ret & l1 & b1 & E & Hl1 & Hout & _);
    [lia|unfold EDID_LENGTH; lia..|].
  unfold drm_do_probe_ddc_edid. rewrite E. cbn [mbind option_bind].
  assert (forall i, i < (v + 1) * 128 -> byte_at l1 i = byte_at l i) as Hlow by (intros i Hi; apply Hout; unfold EDID_LENGTH; lia).
  destruct (Z.eqb_spec ret 0); cbn [negb]; [|by exists false, false, l1, b1].
  destruct (block_valid_ext l1 (v + 1) j) as (va & -> & Hva); [lia|lia|lia|]. cbn [mbind option_bind]. destruct va.
  - exists true, true, l1, b1. split; [done|]. split; [done|]. split; [done|]. intros _. by apply Hva.
  - destruct (IH j v b1 l1) as (rd & va & l2 & b2 & -> & Hl2 & Hlow2 & Hva2); [done|done|lia|].
    exists rd, va, l2, b2. split; [done|]. split; [congruence|]. split; [|done]. intros i Hi. by rewrite Hlow2, Hlow.
Qed.

(** The first [v] extension blocks of the buffer are good. *)
Definition good_upto (l : list Z) (v : Z) : Prop := forall k, 1 <= k <= v -> good_block (block_at l k).

Lemma extensions_run fuel : forall j v n b l, Z.of_nat (length l) = buffer_size -> byte_at l 126 = Some n -> n <= 4 ->
  1 <= j <= n + 1 -> 0 <= v < j -> good_upto l v -> n + 1 - j < Z.of_nat fuel ->
  exists r l' b', extensions_loop i2c_transfer fuel j v b l = Some (r, l', b') /\ length l' = length l /\
    (forall i, i < 128 -> byte_at l' i = byte_at l i) /\
    forall v', r = Some v' -> 0 <= v' <= n /\ good_upto l' v'.
Proof.
  induction fuel as [|fuel IH]; intros j v n b l Hl Hn Hn4 Hj Hv Hg Hf; [lia|]. cbn [extensions_loop].
  unfold edid_extensions. rewrite Hn. cbn [mbind option_bind].
  destruct (Z.leb_spec j n) as [Hjn|Hjn].
  2:{ exists (Some v), l, b. split; [done|]. split; [done|]. split; [done|]. intros v' [= <-]. split; [lia|done]. }
  pose proof Hl as Hl'. unfold buffer_size, EDID_LENGTH, DRM_MAX_EDID_EXT_NUM in Hl'.
  destruct (block_run 4 j v b l) as (rd & va & l1 & b1 & -> & Hl1 & Hlow & Hva); [lia|lia|lia|]. cbn [mbind option_bind].
  assert (forall i, i < 128 -> byte_at l1 i = byte_at l i) as H128 by (intros i Hi; apply Hlow; lia).
  destruct rd; cbn [negb].
  2:{ exists None, l1, b1. split; [done|]. split; [done|]. split; [done|]. intros v' E. discriminate E. }
  assert (good_upto l1 v) as Hg1.
  { intros k Hk. rewrite (block_at_same l l1 k); [by apply Hg|lia|done|]. intros i Hi. apply Hlow. lia. }
  assert (exists v', (if va then u8 (v + 1) else v) = v' /\ 0 <= v' < j + 1 /\ good_upto l1 v') as (v' & -> & Hv' & Hg').
  { destruct va; [|exists v; split; [done|]; split; [lia|done]]. exists (v + 1). unfold u8. rewrite Z.mod_small by lia.
    split; [done|]. split; [lia|]. intros k Hk. destruct (Z.eq_dec k (v + 1)) as [->|]; [by apply Hva|apply Hg1; lia]. }
  destruct (IH (j + 1) v' n b1 l1) as (r & l2 & b2 & -> & Hl2 & H2 & Hr); [lia|rewrite H128 by lia; done|done|lia|lia|done|lia|].
  exists r, l2, b2. split; [done|]. split; [congruence|]. split; [|done]. intros i Hi. by rewrite H2, H128.
Qed.

(** The corrected checksum is right for the corrected count. *)
Lemma correct_run l v n : Z.of_nat (length l) = buffer_size -> good_base (block_at l 0) -> byte_at l 126 = Some n ->
  0 <= v <= n -> good_upto l v ->
  exists l', correct_extensions l v = Some l' /\ length l' = length l /\ good_base (block_at l' 0) /\
    byte_at l' 126 = Some v /\ good_upto l' v.
Proof.
  intros Hl (Hsc & Hcs & H0 & H18) Hn Hv Hg. unfold buffer_size, EDID_LENGTH, DRM_MAX_EDID_EXT_NUM in Hl.
  unfold correct_extensions, EDID_LENGTH, edid_extensions. rewrite Hn. cbn [mbind option_bind].
  destruct (Z.eqb_spec v n) as [->|Hne]; [by exists l|].
  destruct (lookup_lt_is_Some_2 l 127) as [c Ec]; [lia|]. assert (byte_at l (128 - 1) = Some c) as Ec' by exact Ec.
  rewrite Ec'. cbn [mbind option_bind]. rewrite store_one by lia. cbn [mbind option_bind].
  rewrite store_one by (rewrite length_insert; lia). eexists. split; [done|].
  change (Z.to_nat (128 - 1)) with 127%nat. change (Z.to_nat 126) with 126%nat.
  set (c' := u8 (c + (n - v))).
  assert (forall k, 0 <= k -> block_at (<[126%nat := v]> (<[127%nat := c']> l)) k =
    if k =? 0 then <[126%nat := v]> (<[127%nat := c']> (block_at l 0)) else block_at l k) as Hblk.
  { intros k Hk. rewrite block_at_insert by (rewrite ?length_insert; lia).
    rewrite !block_at_insert by lia. by destruct (k =? 0). }
  assert (block_at l 0 !! 126%nat = Some n /\ block_at l 0 !! 127%nat = Some c) as [Bn Bc].
  { unfold block_at. rewrite !lookup_take_lt, !lookup_drop by lia. apply byte_at_Some in Hn as [_ Hn]. done. }
  split; [by rewrite !length_insert|]. split; [|split].
  - rewrite Hblk by lia. cbn [Z.eqb]. set (b := block_at l 0) in *.
    assert (forall j, 0 <= j < 126 -> byte_at (<[126%nat := v]> (<[127%nat := c']> b)) j = byte_at b j) as Hsame.
    { intros j Hj. unfold byte_at. rewrite !(proj2 (Z.ltb_ge j 0)) by lia. by rewrite !list_lookup_insert_ne by lia. }
    split_and!.
    + apply score_header.
      * rewrite !length_insert. apply lookup_lt_Some in Bn. lia.
      * intros j Hj. rewrite Hsame by lia. by apply header_ok_bytes.
    + rewrite csum_sum in Hcs |- *. rewrite (sum_insert _ 126 n) by (rewrite list_lookup_insert_ne by lia; done).
      rewrite (sum_insert _ 127 c) by done. unfold c', u8 in *.
      set (x := foldr Z.add 0 b) in *. rewrite <-Hcs.
      replace (x + ((c + (n - v)) mod 256 - c) + (v - n)) with ((x - c + v - n) + (c + (n - v)) mod 256) by lia.
      rewrite Zplus_mod_idemp_r. f_equal. lia.
    + by rewrite Hsame.
    + by rewrite Hsame.
  - unfold byte_at. cbn [Z.ltb Z.compare]. change (Z.to_nat 126) with 126%nat. apply list_lookup_insert_eq. rewrite length_insert. lia.
  - intros k Hk. rewrite Hblk by lia. rewrite (proj2 (Z.eqb_neq k 0)) by lia. by apply Hg.
Qed.

Lemma valid_from fuel : forall i l v, Z.of_nat (length l) = buffer_size -> good_base (block_at l 0) ->
  byte_at l 126 = Some v -> 0 <= v <= 4 -> good_upto l v -> 0 <= i <= v + 1 -> v + 1 - i < Z.of_nat fuel ->
  valid_loop fuel i l = Some (true, l).
Proof.
  induction fuel as [|fuel IH]; intros i l v Hl Hb Hn Hv Hg Hi Hf; [lia|]. cbn [valid_loop].
  pose proof Hl as Hl'. unfold buffer_size, EDID_LENGTH, DRM_MAX_EDID_EXT_NUM in Hl'.
  unfold edid_extensions. rewrite Hn. cbn [mbind option_bind]. destruct (Z.leb_spec i v); [|done].
  destruct (Z.eq_dec i 0) as [->|Hi0].
  - change (0 * EDID_LENGTH) with 0. rewrite (good_base_valid l) by (done || lia). cbn [mbind option_bind].
    apply (IH _ _ v); try done; lia.
  - destruct (block_valid_ext l i i) as (b & -> & Hb'); [lia|lia|lia|].
    rewrite (proj2 Hb') by (apply Hg; lia). cbn [mbind option_bind]. apply (IH _ _ v); try done; lia.
Qed.

(** C30: When the monitor announces at most four extensions, [drm_get_edid] ends
    whatever the transfers on the bus give and however often they fail, without
    storing outside the buffer of five blocks; an EDID it returns passes
    [drm_edid_is_valid] unchanged, and its extension count is the number of
    extension blocks, at most four, that were read and found good. *)
Theorem get_edid_valid b c out buf : Z.of_nat (length buf) = buffer_size ->
  exists r c' b', drm_get_edid i2c_transfer b c out (Some buf) = Some (r, c', b') /\
    match r with
    | None => True
    | Some l => length l = length buf /\ drm_edid_is_valid l = Some (true, l) /\
                exists v, byte_at l 126 = Some v /\ 0 <= v <= 4 /\ good_upto l v
    end.
Proof.
  intros Hl. unfold drm_get_edid, drm_probe_ddc, drm_do_probe_ddc_edid.
  destruct (probe_run 5 b [out] 0 0 1) as (ret & l0 & b0 & -> & _); [lia|lia|lia|cbn; lia|]. cbn [mbind option_bind].
  destruct (ret =? 0); [|by exists None, c, b0]. unfold drm_do_get_edid.
  destruct (base_run 4 0 b0 buf Hl) as (r & l & b1 & -> & Hlen & Hr). cbn [mbind option_bind].
  destruct r; [|by exists None, c, b1|by eexists None, _, b1|by eexists None, _, b1].
  destruct (Hr eq_refl) as (Hb & n & Hn & Hn4). unfold edid_extensions. rewrite Hn. cbn [mbind option_bind].
  destruct (Z.eqb_spec n 0) as [->|Hn0].
  { exists (Some l), c, b1. split; [done|]. split; [done|]. assert (good_upto l 0) as Hg by (intros k Hk; lia). split.
    - apply (valid_from 257 0 l 0); [congruence|done|done|lia|done|lia|lia].
    - exists 0. split; [done|]. split; [lia|done]. }
  destruct (extensions_run 256 1 0 n b1 l) as (r & l2 & b2 & -> & Hl2 & H128 & Hr2);
    [congruence|done|lia|lia|lia|intros k Hk; lia|lia|]. cbn [mbind option_bind].
  destruct r as [v|]; [|by exists None, c, b2]. destruct (Hr2 v eq_refl) as [Hv Hg].
  destruct (correct_run l2 v n) as (l3 & -> & Hl3 & Hb3 & Hv3 & Hg3); [congruence| |by rewrite H128|done|done|].
  { rewrite (block_at_same l l2 0); [done|lia|done|]. intros j Hj. apply H128. lia. }
  cbn [mbind option_bind]. exists (Some l3), c, b2. split; [done|]. split; [congruence|]. split.
  - apply (valid_from 257 0 l3 v); [congruence|done|done|lia|done|lia|lia].
  - exists v. split; [done|]. split; [lia|done].
Qed.
End Fetch.
