(* ===== verification/EdidFacts.v ===== *)
(** * EDID: the CEA mode table, concrete EDIDs and what goes wrong

    Which CEA modes are found and in which variants; EDIDs on which the theorems
    apply, and EDIDs on which the code misbehaves. *)

From S2P Require Import Prelude Modes EdidTables EdidBase EdidBlock EdidModes EdidCea EdidRun EdidSafe EdidCeaSafe.
From S2P Require Import EdidDetail EdidFetch.

Open Scope Z_scope.

(** ** Concrete EDIDs *)

Definition demo_base : list Z :=
  [ 0; 255; 255; 255; 255; 255; 255; 0; 16; 172; 1; 2; 1; 2; 3; 4; 10; 20;
    1; 3; 128; 52; 29; 120; 10; 0; 0; 0; 0; 0; 0; 0; 0; 0; 0; 33;
    8; 0; 209; 192; 129; 128; 129; 64; 1; 1; 1; 1; 1; 1; 1; 1; 1; 1;
    2; 58; 128; 24; 113; 56; 45; 64; 88; 44; 69; 0; 8; 34; 33; 0; 0; 30;
    0; 0; 0; 253; 0; 56; 76; 30; 83; 17; 0; 10; 32; 32; 32; 32; 32; 32;
    0; 0; 0; 252; 0; 68; 69; 77; 79; 10; 32; 32; 32; 32; 32; 32; 32; 32;
    0; 0; 0; 16; 0; 0; 0; 0; 0; 0; 0; 0; 0; 0; 0; 0; 0; 0;
    1; 29 ].

Definition demo_ext : list Z :=
  [ 2; 3; 13; 64; 68; 144; 4; 3; 31; 35; 9; 7; 7; 0; 0; 0; 0; 0;
    0; 0; 0; 0; 0; 0; 0; 0; 0; 0; 0; 0; 0; 0; 0; 0; 0; 0;
    0; 0; 0; 0; 0; 0; 0; 0; 0; 0; 0; 0; 0; 0; 0; 0; 0; 0;
    0; 0; 0; 0; 0; 0; 0; 0; 0; 0; 0; 0; 0; 0; 0; 0; 0; 0;
    0; 0; 0; 0; 0; 0; 0; 0; 0; 0; 0; 0; 0; 0; 0; 0; 0; 0;
    0; 0; 0; 0; 0; 0; 0; 0; 0; 0; 0; 0; 0; 0; 0; 0; 0; 0;
    0; 0; 0; 0; 0; 0; 0; 0; 0; 0; 0; 0; 0; 0; 0; 0; 0; 0;
    0; 122 ].

Definition greedy_base : list Z :=
  [ 0; 255; 255; 255; 255; 255; 255; 0; 16; 172; 1; 2; 1; 2; 3; 4; 10; 20;
    1; 3; 128; 52; 29; 120; 10; 0; 0; 0; 0; 0; 0; 0; 0; 0; 0; 33;
    8; 0; 209; 192; 1; 1; 1; 1; 1; 1; 1; 1; 1; 1; 1; 1; 1; 1;
    2; 58; 128; 24; 113; 56; 45; 64; 88; 44; 69; 0; 8; 34; 33; 0; 0; 30;
    0; 0; 0; 253; 0; 56; 76; 30; 83; 17; 0; 10; 32; 32; 32; 32; 32; 32;
    0; 0; 0; 252; 0; 68; 69; 77; 79; 10; 32; 32; 32; 32; 32; 32; 32; 32;
    0; 0; 0; 16; 0; 0; 0; 0; 0; 0; 0; 0; 0; 0; 0; 0; 0; 0;
    5; 215 ].

Definition gtf2_base : list Z :=
  [ 0; 255; 255; 255; 255; 255; 255; 0; 16; 172; 1; 2; 1; 2; 3; 4; 10; 20;
    1; 3; 128; 52; 29; 120; 10; 0; 0; 0; 0; 0; 0; 0; 0; 0; 0; 0;
    0; 0; 100; 64; 1; 1; 1; 1; 1; 1; 1; 1; 1; 1; 1; 1; 1; 1;
    0; 0; 0; 253; 0; 56; 76; 30; 83; 17; 2; 0; 1; 200; 0; 0; 0; 200;
    0; 0; 0; 16; 0; 0; 0; 0; 0; 0; 0; 0; 0; 0; 0; 0; 0; 0;
    0; 0; 0; 252; 0; 68; 69; 77; 79; 10; 32; 32; 32; 32; 32; 32; 32; 32;
    0; 0; 0; 16; 0; 0; 0; 0; 0; 0; 0; 0; 0; 0; 0; 0; 0; 0;
    0; 53 ].

(** A decision procedure for [edid_ok]. *)
Definition gtf2_bounded_at (l : list Z) (t : Z) : bool :=
  match byte_at l (t + 3), byte_at l (t + 10), byte_at l (t + 13), byte_at l (t + 17) with
  | Some r3, Some r10, Some c2, Some j2 =>
      negb ((r3 =? EDID_DETAIL_MONITOR_RANGE) && (r10 =? 2)) || ((c2 <? 200) && (j2 <? 200))
  | _, _, _, _ => true
  end.

Definition edid_okb (l : list Z) : bool :=
  forallb (fun b => (0 <=? b) && (b <? 256)) l &&
  forallb (gtf2_bounded_at l) (seqZ 0 (Z.of_nat (length l))) &&
  match byte_at l edid_extensions with Some n => 128 * (n + 1) <=? Z.of_nat (length l) | None => false end.

Lemma edid_okb_ok l : edid_okb l = true -> edid_ok l.
Proof.
  unfold edid_okb. intros H. zbool. rename H into Hb, H1 into Hg, H0 into Hn. split; [|split].
  - apply Forall_forall. intros b Hin. apply list_elem_of_In in Hin. rewrite forallb_forall in Hb.
    specialize (Hb b Hin). zbool. unfold is_byte. lia.
  - intros t c2 j2 Ht H3 H10 H13 H17. rewrite forallb_forall in Hg.
    pose proof H17 as [_ Hl]%byte_at_Some. apply lookup_lt_Some in Hl.
    specialize (Hg t ltac:(apply list_elem_of_In, elem_of_seqZ; lia)). unfold gtf2_bounded_at in Hg.
    rewrite H3, H10, H13, H17 in Hg. cbn in Hg. zbool. lia.
  - destruct (byte_at l edid_extensions) as [n|] eqn:E; [|done]. exists n. zbool. split; [done|lia].
Qed.

Definition demo_edid : list Z := demo_base ++ demo_ext.
Definition no_info : drm_display_info := mk_info 0 0 0 0 0.

Lemma add_edid_modes_safe_witness : edid_okb demo_edid = true /\
  exists n info' s' new, drm_add_edid_modes no_info (mk_scan demo_edid [] []) = Some ((n, info'), s') /\
    n = Z.of_nat (length new) /\ untyped (probed s') = untyped ([] ++ new) /\
    edid_ok (raw s') /\ length (raw s') = length demo_edid.
Proof.
  split; [vm_compute; reflexivity|].
  apply (add_edid_modes_safe demo_edid [] [] no_info). apply edid_okb_ok. vm_compute. reflexivity.
Defined.

(** The demo EDID gives fifteen modes: the preferred one, three standard ones, two
    established ones, four CEA modes and the other variants of five. *)
Lemma demo_modes : exists info s, drm_add_edid_modes no_info (mk_scan demo_edid [] []) = Some ((15, info), s) /\
  map (fun m => (hdisplay m, clock m)) (probed s) =
    [(1920, 148500); (1280, 108000); (1280, 108000); (800, 40000); (640, 25200); (1024, 65000);
     (1920, 148500); (1280, 74250); (720, 27000); (1920, 148500); (1920, 148352); (640, 25175);
     (1920, 148352); (1280, 74176); (720, 27027)].
Proof. eexists _, _. split; vm_compute; reflexivity. Qed.

(** ** A bus that serves an EDID *)

(** The block a message list asks for: the segment and the start give its number. *)
Definition asked_block (msgs : list i2c_msg) : Z :=
  match msgs with
  | [m0; m1; _] => 2 * default 0 (head (buf m0)) + default 0 (head (buf m1)) / 128
  | m0 :: _ => default 0 (head (buf m0)) / 128
  | [] => 0
  end.

Definition asked_len (msgs : list i2c_msg) : Z := match last msgs with Some m => EdidBlock.len m | None => 0 end.

(** Block 0 is [base]; every other block is [ext]. *)
Definition serve (base ext : list Z) (b : unit) (msgs : list i2c_msg) : Z * list Z * unit :=
  (Z.of_nat (length msgs), take (Z.to_nat (asked_len msgs)) (if asked_block msgs =? 0 then base else ext), tt).

Lemma serve_fits base ext b block n ret data b' : Forall is_byte base -> Forall is_byte ext ->
  length base = 128%nat -> length ext = 128%nat -> 0 <= n <= 128 ->
  serve base ext b (ddc_msgs block n) = (ret, data, b') ->
  Forall is_byte data /\ Z.of_nat (length data) = n.
Proof.
  intros Hb He Hlb Hle Hn. unfold serve. set (o := asked_block (ddc_msgs block n)).
  assert (asked_len (ddc_msgs block n) = n) as -> by (unfold ddc_msgs; by case_match).
  intros [= <- <- <-]. split.
  - apply Forall_take. by case_match.
  - rewrite length_take. case_match; lia.
Qed.

Lemma serve_announces base ext b ret data b' n : nth 126 base 0 <= 4 ->
  serve base ext b (ddc_msgs 0 128) = (ret, data, b') -> byte_at data 126 = Some n -> n <= 4.
Proof.
  intros Hn [= <- <- <-] H. change (asked_block (ddc_msgs 0 128)) with 0 in H. cbn [Z.eqb] in H.
  change (Z.to_nat (asked_len (ddc_msgs 0 128))) with 128%nat in H. apply byte_at_Some in H as [_ H].
  rewrite lookup_take_lt in H by lia. change (Z.to_nat 126) with 126%nat in H.
  by rewrite (nth_lookup_Some _ _ 0 _ H) in Hn.
Qed.

Lemma bytes_ok l : forallb (fun b => (0 <=? b) && (b <? 256)) l = true -> Forall is_byte l.
Proof.
  intros H. apply Forall_forall. intros b Hin. apply list_elem_of_In in Hin. rewrite forallb_forall in H.
  specialize (H b Hin). zbool. unfold is_byte. lia.
Qed.

Definition fresh_buffer : list Z := replicate 640 170.

Lemma get_edid_valid_witness : Z.of_nat (length fresh_buffer) = buffer_size /\
  exists l, drm_edid_is_valid l = Some (true, l) /\ take 256 l = demo_edid.
Proof.
  split; [reflexivity|].
  assert (exists r c' b', drm_get_edid (serve demo_base demo_ext) tt (mk_counters 0 0) 0 (Some fresh_buffer) = Some (r, c', b') /\
    match r with
    | None => True
    | Some l => length l = length fresh_buffer /\ drm_edid_is_valid l = Some (true, l) /\
                exists v, byte_at l 126 = Some v /\ 0 <= v <= 4 /\ good_upto l v
    end) as (r & c' & b' & E & H).
  { apply (get_edid_valid (serve demo_base demo_ext)).
    - intros b block len ret data b' Hlen E.
      destruct (serve_fits demo_base demo_ext b block len ret data b') as [Hd Hl]; [| | | |exact Hlen|exact E|].
      + apply bytes_ok. reflexivity.
      + apply bytes_ok. reflexivity.
      + reflexivity.
      + reflexivity.
      + split; [exact Hd|]. split; [lia|]. intros _. exact Hl.
    - intros b ret data b' n. apply serve_announces. vm_compute. intros E. discriminate E.
    - reflexivity. }
  vm_compute in E. injection E as <- _ _. exists (demo_edid ++ replicate 384 170).
  destruct H as (_ & H & _). split; [|reflexivity].
  vm_compute in H. vm_compute. exact H.
Defined.

(** A monitor that announces five extensions, all of them good: the fifth is stored
    behind the buffer. *)
Lemma five_extensions_overflow : drm_get_edid (serve greedy_base demo_ext) tt (mk_counters 0 0) 0 (Some fresh_buffer) = None.
Proof. vm_compute. reflexivity. Qed.

(** A secondary GTF curve with an offset of 100 percent, on a valid EDID: the
    division of the blanking has a divisor of zero. *)
Lemma gtf2_divides_by_zero : drm_edid_is_valid gtf2_base = Some (true, gtf2_base) /\
  drm_add_edid_modes no_info (mk_scan gtf2_base [] []) = None.
Proof. split; vm_compute; reflexivity. Qed.

(** ** Detailed timings *)

Definition demo_descriptor : descriptor :=
  mk_descriptor 14850 (mk_pixel_timing 1920 1080 280 45 88 44 4 5) 520 290 0 0 0x1e.

Lemma detailed_timing_roundtrip_witness : exists m v,
  drm_mode_detailed 54 0 (mk_scan demo_edid [] []) = Some (Some m, mk_scan demo_edid [] []) /\
  (clock m = 148500 /\ vsync_start m = 1080 + v /\ (v = 4 <-> 4 < 16)).
Proof.
  destruct (detailed_timing_roundtrip 54 demo_descriptor (mk_scan demo_edid [] [])) as (m & v & E & H).
  - unfold descriptor_fits, timing_fits, is_byte. cbn. lia.
  - intros k Hk. assert (k ∈ seqZ 0 18) as Hin by (apply elem_of_seqZ; lia).
    assert (Forall (fun k => byte_at demo_edid (54 + k) = byte_at (timing_bytes demo_descriptor) k) (seqZ 0 18)) as HF
      by (vm_compute; repeat constructor).
    exact (proj1 (Forall_forall _ _) HF k Hin).
  - reflexivity.
  - cbn. lia.
  - cbn. lia.
  - cbn. lia.
  - cbn. lia.
  - reflexivity.
  - reflexivity.
  - exists m, v. split; [exact E|]. cbn in H. split_and!; tauto || lia.
Defined.

(** ** CEA modes *)

(** A mode is found in the table where it is listed first. *)
Definition cea_index (m : drm_display_mode) (i : nat) : Prop :=
  exists c, edid_cea_modes !! i = Some c /\ cea_matches m c = true.

(** [drm_match_cea_mode] gives the number of the first CEA mode with the same
    timings and the clock of one of its two variants, a number from 1 to 64; it
    gives zero exactly when there is none, or the mode has no clock. *)
Theorem match_cea_first m : clock m <> 0 ->
  (drm_match_cea_mode m = 0 /\ forall i, ~ cea_index m i) \/
  (exists i, drm_match_cea_mode m = Z.of_nat i + 1 /\ (i < 64)%nat /\ cea_index m i /\ forall j, (j < i)%nat -> ~ cea_index m j).
Proof.
  intros Hc. unfold drm_match_cea_mode. rewrite (proj2 (Z.eqb_neq _ _) Hc). unfold cea_index.
  change 64%nat with (length edid_cea_modes). generalize edid_cea_modes. intros l.
  assert (forall n, 0 <= n ->
    (match_cea_loop m l n = 0 /\ forall i, ~ exists c, l !! i = Some c /\ cea_matches m c = true) \/
    (exists i, match_cea_loop m l n = n + Z.of_nat i + 1 /\ (i < length l)%nat /\ (exists c, l !! i = Some c /\ cea_matches m c = true) /\
       forall j, (j < i)%nat -> ~ exists c, l !! j = Some c /\ cea_matches m c = true)) as H.
  { induction l as [|x l IH]; intros n Hn; cbn [match_cea_loop].
    - left. split; [done|]. intros i (c & E & _). discriminate E.
    - destruct (cea_matches m x) eqn:Ex.
      + right. exists 0%nat. split; [lia|]. split; [cbn; lia|]. split; [by exists x|]. intros j Hj. lia.
      + destruct (IH (n + 1) ltac:(lia)) as [[-> Hno]|(i & -> & Hi & Hm & Hmin)]; [left|right].
        * split; [done|]. intros [|i] (c & E & Hc'); [injection E as <-; congruence|]. apply (Hno i). by exists c.
        * exists (S i). split; [lia|]. split; [cbn; lia|]. split; [exact Hm|].
          intros [|j] Hj (c & E & Hc'); [injection E as <-; congruence|]. apply (Hmin j); [lia|]. by exists c. }
  destruct (H 0 ltac:(lia)) as [[-> Hno]|(i & -> & Hi & Hm & Hmin)]; [by left|right].
  exists i. split; [lia|]. split; [done|]. by split.
Qed.

Lemma match_cea_first_witness : clock (DRM_MODE String.EmptyString 0 148350 1920 2008 2052 2200 0 1080 1084 1089 1125 0 5) <> 0 /\
  drm_match_cea_mode (DRM_MODE String.EmptyString 0 148350 1920 2008 2052 2200 0 1080 1084 1089 1125 0 5) = 16.
Proof.
  assert (clock (DRM_MODE String.EmptyString 0 148350 1920 2008 2052 2200 0 1080 1084 1089 1125 0 5) <> 0) as Hc
    by (intros E; discriminate E).
  split; [exact Hc|]. destruct (match_cea_first _ Hc) as [[E _]|(i & E & _)].
  - vm_compute in E. discriminate E.
  - vm_compute. reflexivity.
Defined.

(** The clock add_alternate_cea_modes gives the mode it adds for [m]. *)
Definition alternate_clock (m : drm_display_mode) : option Z :=
  match edid_cea_modes !! Z.to_nat (u8 (drm_match_cea_mode m - 1)) with
  | None => None
  | Some c => other_clock m c
  end.

(** Two clocks a thousandth apart, up to rounding. *)
Definition thousandth (a b : Z) : Prop := Z.abs (1001 * Z.min a b - 1000 * Z.max a b) <= 1001.

(** Whether a mode of the table comes in two variants. *)
Definition has_variants (i : nat) (c : drm_display_mode) : bool :=
  (Z.rem (computed_vrefresh c) 6 =? 0) && negb (i =? 31)%nat.

Definition variants_ok (i : nat) (c : drm_display_mode) : bool :=
  let m := with_vrefresh 0 c in
  let v := drm_match_cea_mode m in
  (1 <=? v) && (v <=? Z.of_nat i + 1) &&
  match alternate_clock m with
  | None => negb (has_variants i c)
  | Some k => has_variants i c && negb (k =? clock c) && (Z.abs (1001 * Z.min k (clock c) - 1000 * Z.max k (clock c)) <=? 1001) &&
              bool_decide (alternate_clock (set_clock k m) = Some (clock c))
  end.

Lemma table_variants : forallb (fun p => variants_ok p.1 p.2) (zip (seq 0 64) edid_cea_modes) = true.
Proof. vm_compute. reflexivity. Qed.

(** Every mode of the CEA table, as do_cea_modes adds it, is found again in the
    table; when its refresh rate is a multiple of six, with the one exception of
    number 32, add_alternate_cea_modes adds a second variant whose clock is a
    thousandth away, and from that variant it would get back to the clock of the
    table; the other modes have no second variant. *)
Theorem cea_variants i c : edid_cea_modes !! i = Some c ->
  let m := with_vrefresh 0 c in
  1 <= drm_match_cea_mode m <= Z.of_nat i + 1 /\
  if has_variants i c
  then exists k, alternate_clock m = Some k /\ k <> clock c /\ thousandth k (clock c) /\
                 alternate_clock (set_clock k m) = Some (clock c)
  else alternate_clock m = None.
Proof.
  intros Hi m. pose proof table_variants as H. rewrite forallb_forall in H.
  pose proof (lookup_lt_Some _ _ _ Hi) as Hlt. change (length edid_cea_modes) with 64%nat in Hlt.
  assert (In (i, c) (zip (seq 0 64) edid_cea_modes)) as Hin.
  { apply list_elem_of_In, list_elem_of_lookup. exists i. apply lookup_zip_Some. split; [|done]. rewrite lookup_seq. split; [lia|done]. }
  specialize (H (i, c) Hin). unfold variants_ok in H. cbn [fst snd] in H. fold m in H.
  apply andb_prop in H as [H Hv]. zbool. split; [lia|].
  destruct (alternate_clock m) as [k|], (has_variants i c); try discriminate Hv; [|done].
  cbn [andb] in Hv. exists k. zbool. split; [done|]. split; [done|]. split; [done|]. by apply bool_decide_eq_true in H2.
Qed.

Lemma cea_variants_witness : exists c, edid_cea_modes !! 15%nat = Some c /\
  1 <= drm_match_cea_mode (with_vrefresh 0 c) <= 16.
Proof.
  eexists. split; [reflexivity|]. exact (proj1 (cea_variants 15 _ eq_refl)).
Defined.

(** ** What goes wrong *)

(** The table gives CEA mode 32, 24 frames a second, a refresh rate of 50, and so it
    is never offered in its other variant. *)
Lemma cea_32_refresh : exists c, edid_cea_modes !! 31%nat = Some c /\ vrefresh c = 50 /\ computed_vrefresh c = 24 /\
  alternate_clock (with_vrefresh 0 c) = None.
Proof. eexists. split; [reflexivity|]. vm_compute. auto. Qed.

(** The lowest bit of every byte of the established timings III is never looked at:
    the walk over a byte that has only this bit adds nothing. *)
Lemma est3_last_bit t i n s b : byte_at (raw s) (t + 5 + i) = Some b -> (forall j, 1 <= j -> Z.testbit b j = false) ->
  est3_bits t i 7 n s = Some (n, s).
Proof.
  intros Hb Hbits.
  assert (forall j, est3_bits t i j n s = Some (n, s)) as H; [|apply H].
  induction j as [|j IH]; cbn [est3_bits]; [done|]. destruct (est3_modes !! _) as [mm|]; [|done].
  rewrite (rd_eq _ _ _ _ Hb). by rewrite Hbits by lia.
Qed.

(** No three byte code gives a mode with reduced blanking: [j == 0] is tested in a
    loop that starts at one, so the bit for it is not looked at either. *)
Lemma cvt_code_reduced_ignored code n s c0 c1 : byte_at (raw s) code = Some c0 -> byte_at (raw s) (code + 1) = Some c1 ->
  byte_at (raw s) (code + 2) = Some 1 -> cvt_code_modes code n s = Some (n, s).
Proof.
  intros H0 H1 H2. unfold cvt_code_modes. rewrite (rd_eq _ _ _ _ H0), (rd_eq _ _ _ _ H1), (rd_eq _ _ _ _ H2).
  cbn [Z.eqb]. rewrite andb_false_r. by destruct (cvt_code_size c0 c1).
Qed.

(** An extension without detailed timings says so with an offset of zero, and is then
    read as timings from its first byte. *)
Definition no_timings_ext : list Z := [2; 3; 0; 64] ++ replicate 123 0 ++ [187].

Lemma empty_extension_is_parsed :
  option_map fst (cea_for_each_detailed_block do_detailed_mode 128 (mk_closure false 0 0)
    (mk_scan (demo_base ++ no_timings_ext) [] [])) = Some (mk_closure false 0 0) /\
  option_map fst (cea_for_each_detailed_block (fun t l => mret (t :: l)) 128 []
    (mk_scan (demo_base ++ no_timings_ext) [] [])) = Some [236; 218; 200; 182; 164; 146; 128].
Proof. split; vm_compute; reflexivity. Qed.
