(* ===== verification/I2c.v ===== *)
(** * The bit banged I2C bus (drm_sun_i2c.c)

    The adapter is a class of four pin operations and a clock, as the driver's
    callbacks are.  Every function is a program over the state of the bus that
    returns what the C function returns; delays have no effect on that state.  The
    waits for the clock line run on fuel. *)

From S2P Require Import Prelude.

Open Scope Z_scope.

(** The callbacks of [struct i2c_adapter], its timeout and retries, and the time. *)
Class Adapter (bus : Type) := {
  setscl : bool -> bus -> bus;
  getscl : bus -> bool;
  setsda : bool -> bus -> bus;
  getsda : bus -> bool;
  lbolt : bus -> Z * bus;
  timeout : Z;
  retries : Z }.

Record i2c_msg := mk_msg { addr : Z; is_read : bool; nostart : bool; len : Z; buf : list Z }.

Definition ETIMEDOUT : Z := 145.
Definition ENXIO : Z := 6.
Definition ENOTSUP : Z := 48.

(** Programs on the bus; [None] is the end of the fuel. *)
Definition B (bus A : Type) : Type := bus -> option (A * bus).

#[export] Instance B_ret bus : MRet (B bus) := fun _ a b => Some (a, b).
#[export] Instance B_bind bus : MBind (B bus) := fun _ _ k m b =>
  match m b with Some (a, b') => k a b' | None => None end.

Section I2c.
Context {bus : Type} `{Adapter bus}.

Definition get_ {A} (f : bus -> A) : B bus A := fun b => Some (f b, b).
Definition do_ (f : bus -> bus) : B bus unit := fun b => Some (tt, f b).
Definition now : B bus Z := fun b => Some (lbolt b).


Definition i2c_getsda : B bus bool := get_ getsda.
Definition i2c_getscl : B bus bool := get_ getscl.
Definition i2c_setsda : B bus unit := do_ (setsda true).
Definition i2c_clrsda : B bus unit := do_ (setsda false).
Definition i2c_clrscl : B bus unit := do_ (setscl false).

(** [while (!i2c_getscl(adap))]. *)
Fixpoint wait_scl (fuel : nat) (start : Z) : B bus Z :=
  match fuel with
  | O => fun _ => None
  | S fuel =>
      scl ← i2c_getscl;
      if (scl : bool) then mret 0 else
      t ← now;
      if t - start >? timeout then mret (- ETIMEDOUT) else wait_scl fuel start
  end.

Context (fuel : nat).

Definition i2c_setscl : B bus Z := _ ← do_ (setscl true); start ← now; wait_scl fuel start.

(** The macro [I2C_HI_CLOCK]; what is not zero is returned by its user. *)
Definition I2C_HI_CLOCK : B bus Z :=
  ret ← i2c_setscl; if ret =? 0 then mret 0 else _ ← i2c_setsda; mret ret.

Definition i2c_start : B bus Z :=
  _ ← i2c_setsda;
  ret ← i2c_setscl;
  if negb (ret =? 0) then mret ret else
  sda ← i2c_getsda;
  if negb sda then mret (- EBUSY) else
  _ ← i2c_clrsda; _ ← i2c_clrscl; mret 0.

Definition i2c_stop : B bus Z :=
  scl ← i2c_getscl;
  if (scl : bool) then mret (- ENOTSUP) else
  _ ← i2c_clrsda;
  ret ← I2C_HI_CLOCK;
  if negb (ret =? 0) then mret ret else
  _ ← i2c_setsda;
  sda ← i2c_getsda;
  if negb sda then mret (- EBUSY) else mret 0.

(** The loop over the bits [i-1 .. 0] of [c]. *)
Fixpoint write_bits (i : nat) (c : Z) : B bus Z :=
  match i with
  | O => mret 0
  | S i =>
      let needARB := Z.testbit c (Z.of_nat i) in
      _ ← do_ (setsda needARB);
      ret ← I2C_HI_CLOCK;
      if negb (ret =? 0) then mret ret else
      sda ← i2c_getsda;
      if needARB && negb sda then mret (- EBUSY) else
      sda ← i2c_getsda;
      if needARB && negb sda then mret (- EBUSY) else
      _ ← i2c_clrscl; write_bits i c
  end.

Definition i2c_write_byte (c : Z) : B bus Z :=
  scl ← i2c_getscl; if (scl : bool) then mret (- ENOTSUP) else write_bits 8 c.

(** The loop that reads the bits [i-1 .. 0] into [cp]. *)
Fixpoint read_bits (i : nat) (cp : Z) : B bus (Z * Z) :=
  match i with
  | O => mret (0, cp)
  | S i =>
      ret ← I2C_HI_CLOCK;
      if negb (ret =? 0) then mret (ret, cp) else
      r ← i2c_getsda;
      r' ← i2c_getsda;
      if negb (Bool.eqb r r') then mret (- EBUSY, cp) else
      _ ← i2c_clrscl; read_bits i (if (r : bool) then Z.lor cp (Z.shiftl 1 (Z.of_nat i)) else cp)
  end.

Definition i2c_read_byte : B bus (Z * Z) :=
  scl ← i2c_getscl; if (scl : bool) then mret (- ENOTSUP, 0) else _ ← i2c_setsda; read_bits 8 0.

Definition i2c_ack : B bus Z :=
  scl ← i2c_getscl;
  if (scl : bool) then mret (- ENOTSUP) else
  _ ← i2c_clrsda;
  ret ← I2C_HI_CLOCK;
  if negb (ret =? 0) then mret ret else _ ← i2c_clrscl; mret 0.

Definition i2c_no_ack : B bus Z :=
  scl ← i2c_getscl;
  if (scl : bool) then mret (- ENOTSUP) else
  _ ← i2c_setsda;
  ret ← I2C_HI_CLOCK;
  if negb (ret =? 0) then mret ret else
  sda ← i2c_getsda;
  if negb sda then mret (- EBUSY) else
  sda ← i2c_getsda;
  if negb sda then mret (- EBUSY) else _ ← i2c_clrscl; mret 0.

(** One when the line was pulled low. *)
Definition i2c_wait_ack : B bus Z :=
  scl ← i2c_getscl;
  if (scl : bool) then mret (- ENOTSUP) else
  _ ← i2c_setsda;
  ret ← I2C_HI_CLOCK;
  if negb (ret =? 0) then mret ret else
  sda ← i2c_getsda;
  _ ← i2c_clrscl; mret (if (sda : bool) then 0 else 1).

Fixpoint i2c_write_msg (bytes : list Z) : B bus Z :=
  match bytes with
  | [] => mret 0
  | c :: bytes =>
      ret ← i2c_write_byte c;
      if negb (ret =? 0) then mret ret else
      ret ← i2c_wait_ack;
      if ret =? 1 then i2c_write_msg bytes else if ret =? 0 then mret (- ENXIO) else mret ret
  end.

(** [n] bytes are left to read; the bytes read so far come back with the result. *)
Fixpoint i2c_read_msg (n : nat) : B bus (Z * list Z) :=
  match n with
  | O => mret (0, [])
  | S n =>
      r ← i2c_read_byte;
      let '(ret, c) := r in
      if negb (ret =? 0) then mret (ret, []) else
      ret ← (match n with O => i2c_no_ack | S _ => i2c_ack end);
      if negb (ret =? 0) then mret (ret, [c]) else
      r ← i2c_read_msg n;
      mret (r.1, c :: r.2)
  end.

Definition i2c_address (msg : i2c_msg) : B bus Z :=
  let a := Z.land (Z.shiftl (addr msg) 1) 0xff in
  let a := if is_read msg then Z.lor a 1 else a in
  ret ← i2c_write_byte a;
  if negb (ret =? 0) then mret ret else
  ret ← i2c_wait_ack;
  if ret =? 1 then mret 0 else if ret =? 0 then mret (- ENXIO) else mret ret.

(** The messages from index [i]; the data of the read messages comes back. *)
Fixpoint transfer_msgs (i : Z) (msgs : list i2c_msg) : B bus (Z * list (list Z)) :=
  match msgs with
  | [] => mret (0, [])
  | msg :: msgs =>
      ret ← (if (i =? 0) || negb (nostart msg) then
                 ret ← i2c_start;
                 if negb (ret =? 0) then mret ret else i2c_address msg
               else mret 0);
      if negb (ret =? 0) then mret (ret, []) else
      r ← (if is_read msg then i2c_read_msg (Z.to_nat (len msg))
             else ret ← i2c_write_msg (take (Z.to_nat (len msg)) (buf msg)); mret (ret, []));
      if negb (r.1 =? 0) then mret (r.1, [r.2]) else
      q ← transfer_msgs (i + 1) msgs;
      mret (q.1, r.2 :: q.2)
  end.

Definition i2c_do_transfer (msgs : list i2c_msg) : B bus (Z * list (list Z)) :=
  r ← transfer_msgs 0 msgs;
  if negb (r.1 =? 0) then mret r else
  ret ← i2c_stop;
  if negb (ret =? 0) then mret (ret, r.2) else mret (Z.of_nat (length msgs), r.2).

(** The attempts from [i = retries + 1 - n] on; [master_xfer] is the algorithm's. *)
Fixpoint transfer_loop (master_xfer : B bus (Z * list (list Z))) (n : nat) (start : Z) (last : Z * list (list Z))
    : B bus (Z * list (list Z)) :=
  match n with
  | O => mret last
  | S n =>
      r ← master_xfer;
      if (r.1 =? 0) || (r.1 =? ETIMEDOUT) then mret r else
      t ← now;
      if t - start >? timeout then mret r else transfer_loop master_xfer n start r
  end.

Definition i2c_transfer (msgs : list i2c_msg) : B bus (Z * list (list Z)) :=
  start ← now;
  transfer_loop (i2c_do_transfer msgs) (Z.to_nat (retries + 1)) start (0, []).
End I2c.
