(* ===== verification/I2cSlave.v ===== *)
(** * Reading a memory over the bit banged bus

    An open drain bus with one slave: the memory of a monitor's EDID, which takes an
    offset in a write and sends bytes from there in a read.  The code of I2c, run
    against it, reads exactly the bytes of the memory. *)

From S2P Require Import Prelude I2c.

Open Scope Z_scope.

(** ** The slave *)

(** What a byte the slave receives is for. *)
Inductive incoming := Address | Offset.

Inductive phase :=
| Idle
| Recv (what : incoming) (n : nat) (sh : Z)   (** [n] bits received, as the number [sh] *)
| Ack (what : incoming) (sh : Z)              (** pulling the data line low for a byte *)
| Send (n : nat)                              (** driving bit [n] of the byte at the offset *)
| WaitAck                                     (** the master's turn to acknowledge *)
| Next.                                       (** it did *)

Record slave := mk_slave { cur : phase; ptr : Z }.

(** The data line as the slave leaves it: released, or pulled low. *)
Definition drive (mem : Z -> Z) (s : slave) : bool :=
  match cur s with
  | Ack _ _ => false
  | Send n => Z.testbit (mem (ptr s)) (Z.of_nat n)
  | _ => true
  end.

(** The clock goes up; the slave samples the data line. *)
Definition rise (b : bool) (s : slave) : slave :=
  match cur s with
  | Recv w n sh => mk_slave (Recv w (S n) (2 * sh + Z.b2z b)) (ptr s)
  | WaitAck => mk_slave (if b then Idle else Next) (ptr s)
  | _ => s
  end.

(** The clock goes down; the slave changes what it drives. *)
Definition fall (s : slave) : slave :=
  match cur s with
  | Recv w 8 sh =>
      match w with
      | Address => if sh / 2 =? 0x50 then mk_slave (Ack w sh) (ptr s) else mk_slave Idle (ptr s)
      | Offset => mk_slave (Ack w sh) (ptr s)
      end
  | Ack Address sh => if Z.odd sh then mk_slave (Send 7) (ptr s) else mk_slave (Recv Offset 0 0) (ptr s)
  | Ack Offset sh => mk_slave (Recv Offset 0 0) sh
  | Send (S n) => mk_slave (Send n) (ptr s)
  | Send O => mk_slave WaitAck ((ptr s + 1) mod 256)
  | Next => mk_slave (Send 7) (ptr s)
  | _ => s
  end.

(** ** The wires *)

Record wire := mk_wire { m_scl : bool; m_sda : bool; sl : slave }.

Section Bus.
Context (mem : Z -> Z).

Definition line (w : wire) : bool := m_sda w && drive mem (sl w).

Definition wire_setscl (v : bool) (w : wire) : wire :=
  match v, m_scl w with
  | true, false => mk_wire true (m_sda w) (rise (line w) (sl w))
  | false, true => mk_wire false (m_sda w) (fall (sl w))
  | _, _ => w
  end.

(** A change of the data line while the clock is high starts or stops a transfer. *)
Definition wire_setsda (v : bool) (w : wire) : wire :=
  let w' := mk_wire (m_scl w) v (sl w) in
  if m_scl w then
    match line w, line w' with
    | true, false => mk_wire true v (mk_slave (Recv Address 0 0) (ptr (sl w)))
    | false, true => mk_wire true v (mk_slave Idle (ptr (sl w)))
    | _, _ => w'
    end
  else w'.

(** The slave never stretches the clock. *)
#[local] Instance wire_adapter : Adapter wire := {
  setscl := wire_setscl; getscl := m_scl; setsda := wire_setsda; getsda := line;
  lbolt := fun w => (0, w); timeout := 100; retries := 3 }.

Context (f : nat).
Abbreviation fuel := (S f).

Lemma bind_run {A C} (m : B wire A) (k : A -> B wire C) b a b' : m b = Some (a, b') -> (m ≫= k) b = k a b'.
Proof. intros E. unfold mbind, B_bind. by rewrite E. Qed.

(** ** Bits and bytes *)

Lemma HI_CLOCK_run x s : I2C_HI_CLOCK fuel (mk_wire false x s) = Some (0, mk_wire true x (rise (x && drive mem s) s)).
Proof. reflexivity. Qed.

(** One bit to a slave that receives. *)
Lemma write_bit_run i c x w n sh p : (n < 7)%nat ->
  write_bits fuel (S i) c (mk_wire false x (mk_slave (Recv w n sh) p)) =
  write_bits fuel i c (mk_wire false (Z.testbit c (Z.of_nat i))
    (mk_slave (Recv w (S n) (2 * sh + Z.b2z (Z.testbit c (Z.of_nat i)))) p)).
Proof.
  intros Hn. cbn [write_bits]. destruct (Z.testbit c (Z.of_nat i));
    destruct n as [|[|[|[|[|[|[|n]]]]]]]; try lia; reflexivity.
Qed.

Lemma write_last_run c x w sh p :
  write_bits fuel 1 c (mk_wire false x (mk_slave (Recv w 7 sh) p)) =
  Some (0, mk_wire false (Z.testbit c 0) (fall (mk_slave (Recv w 8 (2 * sh + Z.b2z (Z.testbit c 0))) p))).
Proof. cbn [write_bits]. change (Z.of_nat 0) with 0. by destruct (Z.testbit c 0). Qed.

Lemma bit_step c k : 0 <= k -> 2 * (c / 2 ^ (k + 1)) + Z.b2z (Z.testbit c k) = c / 2 ^ k.
Proof.
  intros Hk. rewrite <-Z.shiftr_div_pow2, <-Z.shiftr_div_pow2 by lia.
  assert (Z.testbit c k = Z.odd (Z.shiftr c k)) as ->.
  { rewrite <-Z.bit0_odd, Z.shiftr_spec by lia. done. }
  replace (Z.shiftr c (k + 1)) with (Z.shiftr (Z.shiftr c k) 1) by (rewrite Z.shiftr_shiftr by lia; f_equal; lia).
  rewrite (Z.shiftr_div_pow2 _ 1) by lia. change (2 ^ 1) with 2.
  pose proof (Z.div2_odd (Z.shiftr c k)) as E. rewrite Z.div2_div in E. lia.
Qed.

(** A whole byte: the slave has it, and falls into what comes after. *)
Lemma write_byte_run c x w p : 0 <= c < 256 ->
  i2c_write_byte fuel c (mk_wire false x (mk_slave (Recv w 0 0) p)) =
  Some (0, mk_wire false (Z.testbit c 0) (fall (mk_slave (Recv w 8 c) p))).
Proof.
  intros Hc. unfold i2c_write_byte.
  change (write_bits fuel 8 c (mk_wire false x (mk_slave (Recv w 0 0) p)) =
    Some (0, mk_wire false (Z.testbit c 0) (fall (mk_slave (Recv w 8 c) p)))).
  assert (forall k, (k <= 7)%nat -> forall x n, (n + S k = 8)%nat ->
    write_bits fuel (S k) c (mk_wire false x (mk_slave (Recv w n (c / 2 ^ (Z.of_nat k + 1))) p)) =
    Some (0, mk_wire false (Z.testbit c 0) (fall (mk_slave (Recv w 8 c) p)))) as H.
  { induction k as [|k IH]; intros Hk y n Hn.
    - replace n with 7%nat by lia. rewrite write_last_run. change (Z.of_nat 0 + 1) with (0 + 1). rewrite bit_step by lia.
      by rewrite Z.div_1_r.
    - rewrite write_bit_run by lia. rewrite bit_step by lia. replace (Z.of_nat (S k)) with (Z.of_nat k + 1) by lia.
      apply IH; lia. }
  specialize (H 7%nat ltac:(lia) x 0%nat ltac:(lia)). rewrite Z.div_small in H by (cbn; lia). exact H.
Qed.

(** The acknowledgement of a byte, and the one of a slave that was not meant. *)
Lemma wait_ack_run x w sh p : i2c_wait_ack fuel (mk_wire false x (mk_slave (Ack w sh) p)) =
  Some (1, mk_wire false true (fall (mk_slave (Ack w sh) p))).
Proof. destruct w; reflexivity. Qed.

(** One bit from a slave that sends. *)
Lemma read_bit_run i cp n p : read_bits fuel (S i) cp (mk_wire false true (mk_slave (Send n) p)) =
  read_bits fuel i (if Z.testbit (mem p) (Z.of_nat n) then Z.lor cp (Z.shiftl 1 (Z.of_nat i)) else cp)
    (mk_wire false true (fall (mk_slave (Send n) p))).
Proof.
  cbn [read_bits]. unfold mbind at 1, B_bind at 1. rewrite HI_CLOCK_run. cbn [rise cur negb Z.eqb].
  unfold mbind at 1 2, B_bind at 1 2, i2c_getsda, get_. cbn [getsda wire_adapter].
  unfold line. cbn [m_sda sl drive cur ptr andb].
  destruct (Z.testbit (mem p) (Z.of_nat n)); reflexivity.
Qed.

(** The bits of a byte put together. *)
Definition assemble (c : Z) : Z :=
  fold_left (fun cp i => if Z.testbit c (Z.of_nat i) then Z.lor cp (Z.shiftl 1 (Z.of_nat i)) else cp)
    [7; 6; 5; 4; 3; 2; 1; 0]%nat 0.

Lemma assemble_id c : 0 <= c < 256 -> assemble c = c.
Proof.
  intros Hc. assert (forallb (fun c => assemble c =? c) (seqZ 0 256) = true) as H by (vm_compute; reflexivity).
  rewrite forallb_forall in H. specialize (H c ltac:(apply list_elem_of_In, elem_of_seqZ; lia)). by apply Z.eqb_eq in H.
Qed.

Lemma read_byte_run x p : 0 <= mem p < 256 ->
  i2c_read_byte fuel (mk_wire false x (mk_slave (Send 7) p)) =
  Some (0, mem p, mk_wire false true (mk_slave WaitAck ((p + 1) mod 256))).
Proof.
  intros Hc. unfold i2c_read_byte.
  change (read_bits fuel 8 0 (mk_wire false true (mk_slave (Send 7) p)) =
    Some (0, mem p, mk_wire false true (mk_slave WaitAck ((p + 1) mod 256)))).
  do 8 (rewrite read_bit_run; cbn [fall cur ptr]). cbn [read_bits]. unfold mret, B_ret.
  do 3 f_equal. exact (assemble_id (mem p) Hc).
Qed.

Lemma ack_run p : i2c_ack fuel (mk_wire false true (mk_slave WaitAck p)) =
  Some (0, mk_wire false false (mk_slave (Send 7) p)).
Proof. reflexivity. Qed.

Lemma no_ack_run p : i2c_no_ack fuel (mk_wire false true (mk_slave WaitAck p)) =
  Some (0, mk_wire false true (mk_slave Idle p)).
Proof. reflexivity. Qed.

(** ** Messages *)

Hypothesis mem_bytes : forall a, 0 <= mem a < 256.

Definition contents (p : Z) (n : nat) : list Z := map (fun k => mem ((p + k) mod 256)) (seqZ 0 (Z.of_nat n)).

Lemma contents_cons p n : 0 <= p < 256 -> contents p (S n) = mem p :: contents ((p + 1) mod 256) n.
Proof.
  intros Hp. unfold contents. rewrite seqZ_cons by lia. cbn [map]. f_equal.
  - f_equal. rewrite Z.mod_small; lia.
  - replace (Z.pred (Z.of_nat (S n))) with (Z.of_nat n) by lia. change (Z.succ 0) with (1 + 0). rewrite <-(fmap_add_seqZ 1 0 (Z.of_nat n)).
    unfold fmap. rewrite <-list_fmap_compose. apply map_ext. intros k. cbn [compose].
    f_equal. rewrite Zplus_mod_idemp_l. f_equal. lia.
Qed.

Lemma read_msg_run n : forall x p, 0 <= p < 256 ->
  i2c_read_msg fuel (S n) (mk_wire false x (mk_slave (Send 7) p)) =
  Some (0, contents p (S n), mk_wire false true (mk_slave Idle ((p + Z.of_nat (S n)) mod 256))).
Proof.
  induction n as [|n IH]; intros x p Hp; rewrite contents_cons by done; cbn [i2c_read_msg]; unfold mbind at 1, B_bind at 1;
    rewrite read_byte_run by done; cbn [negb Z.eqb].
  - unfold mbind at 1, B_bind at 1. rewrite no_ack_run. reflexivity.
  - unfold mbind at 1, B_bind at 1. rewrite ack_run. cbn [negb Z.eqb]. unfold mbind at 1, B_bind at 1.
    specialize (IH false ((p + 1) mod 256) (Z.mod_pos_bound (p + 1) 256 eq_refl)). cbn [i2c_read_msg] in IH. rewrite IH.
    unfold mret, B_ret. cbn [fst snd]. rewrite Zplus_mod_idemp_l. replace (p + 1 + Z.of_nat (S n)) with (p + Z.of_nat (S (S n))) by lia. reflexivity.
Qed.

Lemma start_idle p : i2c_start fuel (mk_wire true true (mk_slave Idle p)) =
  Some (0, mk_wire false false (mk_slave (Recv Address 0 0) p)).
Proof. reflexivity. Qed.

Lemma start_again p : i2c_start fuel (mk_wire false true (mk_slave (Recv Offset 0 0) p)) =
  Some (0, mk_wire false false (mk_slave (Recv Address 0 0) p)).
Proof. reflexivity. Qed.

Lemma stop_run p : i2c_stop fuel (mk_wire false true (mk_slave Idle p)) =
  Some (0, mk_wire true true (mk_slave Idle p)).
Proof. reflexivity. Qed.

(** The two messages of a read of [n] bytes from an offset. *)
Definition read_at (offset n : Z) : list i2c_msg :=
  [mk_msg 0x50 false false 1 [offset]; mk_msg 0x50 true false n []].

Lemma address_run (rd : bool) n l x p : i2c_address fuel (mk_msg 0x50 rd false n l) (mk_wire false x (mk_slave (Recv Address 0 0) p)) =
  Some (0, mk_wire false true (if rd then mk_slave (Send 7) p else mk_slave (Recv Offset 0 0) p)).
Proof.
  unfold i2c_address. cbn [addr is_read].
  set (a := if rd then _ else _). assert (0 <= a < 256) as Ha by (unfold a; destruct rd; vm_compute; split; congruence || reflexivity).
  unfold mbind at 1, B_bind at 1. rewrite write_byte_run by done. cbn [negb Z.eqb].
  assert (fall (mk_slave (Recv Address 8 a) p) = mk_slave (Ack Address a) p) as -> by (unfold a; by destruct rd).
  unfold mbind at 1, B_bind at 1. rewrite wait_ack_run. unfold a. by destruct rd.
Qed.

Lemma write_offset_run offset x p : 0 <= offset < 256 ->
  i2c_write_msg fuel [offset] (mk_wire false x (mk_slave (Recv Offset 0 0) p)) =
  Some (0, mk_wire false true (mk_slave (Recv Offset 0 0) offset)).
Proof.
  intros Ho. cbn [i2c_write_msg]. erewrite bind_run by (by apply write_byte_run). cbn [negb Z.eqb fall cur ptr].
  erewrite bind_run by apply wait_ack_run. reflexivity.
Qed.

Lemma do_transfer_run offset n p : 0 <= offset < 256 -> 0 < n ->
  i2c_do_transfer fuel (read_at offset n) (mk_wire true true (mk_slave Idle p)) =
  Some (2, [[]; contents offset (Z.to_nat n)], mk_wire true true (mk_slave Idle ((offset + n) mod 256))).
Proof.
  intros Ho Hn. unfold i2c_do_transfer, read_at. destruct (Z.to_nat n) as [|k] eqn:Ek; [lia|].
  cbn [transfer_msgs is_read nostart len buf]. rewrite Ek. cbn [Z.eqb orb negb].
  erewrite bind_run; cycle 1.
  { erewrite bind_run by (erewrite bind_run by apply start_idle; apply address_run). cbn [negb Z.eqb].
    erewrite bind_run by (erewrite bind_run by (by apply write_offset_run); reflexivity). cbn [fst snd negb Z.eqb].
    erewrite bind_run; [reflexivity|].
    change (0 + 1 =? 0) with false. cbn [orb negb].
    erewrite bind_run by (erewrite bind_run by apply start_again; apply address_run). cbn [negb Z.eqb].
    erewrite bind_run by (by apply read_msg_run). cbn [fst snd negb Z.eqb].
    reflexivity. }
  cbn [fst snd negb Z.eqb]. erewrite bind_run by apply stop_run.
  replace (Z.of_nat (S k)) with n by lia. reflexivity.
Qed.
End Bus.
