(* ===== verification/Ddc.v ===== *)
(** * The fetch of an EDID block over the bit banged bus

    [drm_do_probe_ddc_edid] of EdidBlock takes the transfer as an argument; here it
    gets [i2c_transfer] of I2c, on the wire of I2cSlave, whose slave is the memory of
    a monitor.  The pins of the bus end up with the bytes of that memory in the
    buffer of the caller. *)

From S2P Require Import Prelude Modes EdidTables EdidBase EdidBlock EdidCeaSafe.
From S2P Require Import I2c I2cSlave.

Open Scope Z_scope.

Definition bus_msg (m : EdidBlock.i2c_msg) : I2c.i2c_msg :=
  I2c.mk_msg (EdidBlock.addr m) (EdidBlock.is_read m) false (EdidBlock.len m) (EdidBlock.buf m).

Section Ddc.
Context (mem : Z -> Z) (f : nat).
Hypothesis mem_bytes : forall a, 0 <= mem a < 256.

#[local] Abbreviation do_transfer := (@i2c_do_transfer wire (wire_adapter mem) (S f)).
#[local] Abbreviation loop := (@transfer_loop wire (wire_adapter mem)).
#[local] Abbreviation transfer := (@i2c_transfer wire (wire_adapter mem) (S f)).

(** The transfer as the EDID code calls it; a wait that does not end is an error. *)
Definition bit_transfer (b : wire) (msgs : list EdidBlock.i2c_msg) : Z * list Z * wire :=
  match transfer (map bus_msg msgs) b with
  | Some (r, b) => (r.1, concat r.2, b)
  | None => (-1, [], b)
  end.

(** The bus at rest, with the slave's pointer at [p]. *)
Definition idle (p : Z) : wire := mk_wire true true (mk_slave Idle p).

(** No attempt is the last one: the loop does not take the number of messages for a
    success. *)
Lemma transfer_again offset n p k r : 0 <= offset < 256 -> 0 < n ->
  loop (do_transfer (read_at offset n)) (S k) 0 r (idle p) =
  loop (do_transfer (read_at offset n)) k 0
    (2, [[]; contents mem offset (Z.to_nat n)]) (idle ((offset + n) mod 256)).
Proof. intros Ho Hn. cbn [transfer_loop]. unfold idle at 1. erewrite bind_run by (by apply do_transfer_run). reflexivity. Qed.

Lemma transfer_run offset n p : 0 <= offset < 256 -> 0 < n ->
  transfer (read_at offset n) (idle p) = Some (2, [[]; contents mem offset (Z.to_nat n)], idle ((offset + n) mod 256)).
Proof.
  intros Ho Hn.
  change (loop (do_transfer (read_at offset n)) 4 0 (0, []) (idle p) =
    Some (2, [[]; contents mem offset (Z.to_nat n)], idle ((offset + n) mod 256))).
  by do 4 rewrite transfer_again by done.
Qed.

Lemma contents_length p n : length (contents mem p n) = n.
Proof. unfold contents. rewrite length_map, length_seqZ. lia. Qed.

Lemma contents_at p n k : 0 <= k < Z.of_nat n -> byte_at (contents mem p n) k = Some (mem ((p + k) mod 256)).
Proof.
  intros Hk. unfold byte_at. destruct (Z.ltb_spec k 0); [lia|]. unfold contents.
  change (map ?g ?l) with (g <$> l). rewrite list_lookup_fmap, lookup_seqZ_lt by lia. cbn. do 3 f_equal. lia.
Qed.

(** C32: [drm_do_probe_ddc_edid] over the bit banged bus, with a monitor's 256 byte
    memory as the slave: from a bus at rest it returns 0, stores exactly the [n] bytes
    of the memory from the start of the block on at [at_], and leaves the bus at rest. *)
Theorem ddc_reads_memory p l at_ block n : 0 <= block <= 1 -> 0 < n <= 128 ->
  0 <= at_ -> at_ + n <= Z.of_nat (length l) ->
  exists l', drm_do_probe_ddc_edid bit_transfer (idle p) l at_ block n =
      Some (0, l', idle ((block * 128 + n) mod 256)) /\
    length l' = length l /\
    (forall k, 0 <= k < n -> byte_at l' (at_ + k) = Some (mem (block * 128 + k))) /\
    (forall k, k < at_ \/ at_ + n <= k -> byte_at l' k = byte_at l k).
Proof.
  intros Hb Hn Ha Hl.
  assert (map bus_msg (ddc_msgs block n) = read_at (block * 128) n) as Em.
  { assert (block = 0 \/ block = 1) as [-> | ->] by lia; reflexivity. }
  assert (length (ddc_msgs block n) = 2%nat) as E2 by (by rewrite <-(length_map bus_msg), Em).
  destruct (store_in l at_ (contents mem (block * 128) (Z.to_nat n))) as (l' & Es & Hl' & Hat);
    [done|rewrite contents_length; lia|].
  rewrite contents_length, Z2Nat.id in Hat by lia.
  exists l'. split; [|split; [done|split]].
  - unfold drm_do_probe_ddc_edid. cbn [probe_loop]. unfold bit_transfer at 1. rewrite Em, transfer_run by lia.
    cbn [fst snd concat app]. rewrite app_nil_r, Es. cbn [mbind option_bind]. by rewrite E2.
  - intros k Hk. rewrite Hat. destruct (Z.leb_spec at_ (at_ + k)), (Z.ltb_spec (at_ + k) (at_ + n)); try lia. cbn [andb].
    rewrite contents_at by lia. do 2 f_equal. rewrite Z.mod_small by lia. lia.
  - intros k Hk. rewrite Hat. destruct (Z.leb_spec at_ k), (Z.ltb_spec k (at_ + n)); try lia; done.
Qed.
End Ddc.

Lemma ddc_reads_memory_witness :
  exists l', drm_do_probe_ddc_edid (bit_transfer (fun a => (3 * a) mod 256) 0) (idle 77) (repeat 9 200) 5 1 128 =
      Some (0, l', idle 0) /\ byte_at l' 15 = Some 158.
Proof.
  destruct (ddc_reads_memory (fun a => (3 * a) mod 256) 0 (fun a => Z.mod_pos_bound (3 * a) 256 eq_refl)
    77 (repeat 9 200) 5 1 128) as (l' & E & _ & Hin & _);
    [split; discriminate|split; [reflexivity|discriminate]|discriminate|discriminate|].
  exists l'. split; [exact E|]. change (byte_at l' (5 + 10) = Some 158). rewrite (Hin 10); [reflexivity|split; [discriminate|reflexivity]].
Defined.
