(* ===== verification/CrtcHelper.v ===== *)
(** * The CRTC helpers (drm_crtc_helper.c)

    The routing of connectors to encoders to CRTCs and the functions that change it:
    the set of a mode, the set of a configuration with its way back, the disabling of
    what is not used and the DPMS levels.  The driver is a type class over its own
    state, which its callbacks change; they read the routing and leave it alone. *)

From S2P Require Import Prelude Modes.

Open Scope Z_scope.

(** ** The objects *)

Definition DRM_MODE_DPMS_ON : Z := 0.
Definition DRM_MODE_DPMS_OFF : Z := 3.
Definition DRM_MODE_CONNECTOR_LVDS : Z := 7.
Definition DRM_MODE_CONNECTOR_eDP : Z := 14.

(** Two framebuffers are the same when their addresses are. *)
Record drm_framebuffer := mk_fb { fb_addr : Z; pixel_format : Z }.

Record drm_crtc := Crtc {
  fb : option drm_framebuffer; enabled : bool; mode : drm_display_mode; hwmode : drm_display_mode;
  x : Z; y : Z; framedur_ns : Z; linedur_ns : Z; pixeldur_ns : Z }.

Record drm_encoder := Encoder { enc_crtc : option Z; possible_crtcs : Z }.

Inductive drm_connector_status :=
| connector_status_connected | connector_status_disconnected | connector_status_unknown.

#[export] Instance drm_connector_status_eq_dec : EqDecision drm_connector_status.
Proof. solve_decision. Defined.

Record drm_connector := Connector {
  connector_type : Z; con_status : drm_connector_status; encoder : option Z; dpms : Z }.

(** [dev->mode_config]: the three lists, in their order, and the objects on them. *)
Record config := mk_config {
  crtc_list : list Z; encoder_list : list Z; connector_list : list Z;
  crtcs : gmap Z drm_crtc; encoders : gmap Z drm_encoder; connectors : gmap Z drm_connector }.

Definition mode0 : drm_display_mode := DRM_MODE String.EmptyString 0 0 0 0 0 0 0 0 0 0 0 0 0.

#[export] Instance crtc_inhabited : Inhabited drm_crtc := populate (Crtc None false mode0 mode0 0 0 0 0 0).
#[export] Instance encoder_inhabited : Inhabited drm_encoder := populate (Encoder None 0).
#[export] Instance connector_inhabited : Inhabited drm_connector :=
  populate (Connector 0 connector_status_unknown None 0).

(** The stores to the fields. *)
Definition with_enabled (b : bool) (c : drm_crtc) : drm_crtc :=
  Crtc (fb c) b (mode c) (hwmode c) (x c) (y c) (framedur_ns c) (linedur_ns c) (pixeldur_ns c).
Definition with_fb (f : option drm_framebuffer) (c : drm_crtc) : drm_crtc :=
  Crtc f (enabled c) (mode c) (hwmode c) (x c) (y c) (framedur_ns c) (linedur_ns c) (pixeldur_ns c).
Definition with_mode (m : drm_display_mode) (c : drm_crtc) : drm_crtc :=
  Crtc (fb c) (enabled c) m (hwmode c) (x c) (y c) (framedur_ns c) (linedur_ns c) (pixeldur_ns c).
Definition with_hwmode (m : drm_display_mode) (c : drm_crtc) : drm_crtc :=
  Crtc (fb c) (enabled c) (mode c) m (x c) (y c) (framedur_ns c) (linedur_ns c) (pixeldur_ns c).
Definition with_xy (x' y' : Z) (c : drm_crtc) : drm_crtc :=
  Crtc (fb c) (enabled c) (mode c) (hwmode c) x' y' (framedur_ns c) (linedur_ns c) (pixeldur_ns c).
Definition with_durations (f l p : Z) (c : drm_crtc) : drm_crtc :=
  Crtc (fb c) (enabled c) (mode c) (hwmode c) (x c) (y c) f l p.
Definition with_crtc (i : option Z) (e : drm_encoder) : drm_encoder := Encoder i (possible_crtcs e).
Definition with_encoder (i : option Z) (c : drm_connector) : drm_connector :=
  Connector (connector_type c) (con_status c) i (dpms c).
Definition with_dpms (m : Z) (c : drm_connector) : drm_connector :=
  Connector (connector_type c) (con_status c) (encoder c) m.

(** ** The driver *)

(** The callbacks of the helper functions.  The [has_] fields say which optional ones
    are there; a driver without [disable] has [dpms], as the code relies on. *)
Class Driver (hw : Type) := {
  alloc : hw -> bool * hw;
  enc_has_disable : Z -> bool;
  enc_disable : Z -> config -> hw -> hw;
  enc_has_dpms : Z -> bool;
  enc_dpms : Z -> Z -> config -> hw -> hw;
  enc_mode_fixup : Z -> drm_display_mode -> drm_display_mode -> config -> hw -> bool * drm_display_mode * hw;
  enc_prepare : Z -> config -> hw -> hw;
  enc_mode_set : Z -> drm_display_mode -> drm_display_mode -> config -> hw -> hw;
  enc_commit : Z -> config -> hw -> hw;
  enc_has_get_crtc : Z -> bool;
  enc_get_crtc : Z -> config -> hw -> option Z * hw;
  crtc_has_disable : Z -> bool;
  crtc_disable : Z -> config -> hw -> hw;
  crtc_has_dpms : Z -> bool;
  crtc_dpms : Z -> Z -> config -> hw -> hw;
  crtc_mode_fixup : Z -> drm_display_mode -> drm_display_mode -> config -> hw -> bool * drm_display_mode * hw;
  crtc_prepare : Z -> config -> hw -> hw;
  crtc_mode_set : Z -> drm_display_mode -> drm_display_mode -> Z -> Z -> option drm_framebuffer -> config -> hw -> Z * hw;
  crtc_commit : Z -> config -> hw -> hw;
  crtc_has_mode_set_base : Z -> bool;
  crtc_mode_set_base : Z -> Z -> Z -> option drm_framebuffer -> config -> hw -> Z * hw;
  best_encoder : Z -> config -> hw -> option Z * hw }.

(** ** Programs over the configuration and the driver's state *)

Definition P (hw A : Type) : Type := config * hw -> A * (config * hw).

#[export] Instance P_ret hw : MRet (P hw) := fun _ a s => (a, s).
#[export] Instance P_bind hw : MBind (P hw) := fun _ _ k m s => let '(a, s) := m s in k a s.

Section Helper.
Context {hw : Type} `{Driver hw}.

Definition get {A} (f : config -> A) : P hw A := fun s => (f s.1, s).
Definition put (f : config -> config) : P hw unit := fun s => (tt, (f s.1, s.2)).
(** A callback: it sees the configuration and changes the driver's state. *)
Definition call (f : config -> hw -> hw) : P hw unit := fun s => (tt, (s.1, f s.1 s.2)).
Definition call_ret {A} (f : config -> hw -> A * hw) : P hw A :=
  fun s => let '(a, h) := f s.1 s.2 in (a, (s.1, h)).

Fixpoint for_ (l : list Z) (k : Z -> P hw unit) : P hw unit :=
  match l with
  | [] => mret tt
  | i :: l => _ ← k i; for_ l k
  end.

Definition when (b : bool) (m : P hw unit) : P hw unit := if b then m else mret tt.

Definition upd_crtc (i : Z) (f : drm_crtc -> drm_crtc) (d : config) : config :=
  mk_config (crtc_list d) (encoder_list d) (connector_list d) (<[i := f (crtcs d !!! i)]> (crtcs d))
    (encoders d) (connectors d).
Definition upd_encoder (i : Z) (f : drm_encoder -> drm_encoder) (d : config) : config :=
  mk_config (crtc_list d) (encoder_list d) (connector_list d) (crtcs d)
    (<[i := f (encoders d !!! i)]> (encoders d)) (connectors d).
Definition upd_connector (i : Z) (f : drm_connector -> drm_connector) (d : config) : config :=
  mk_config (crtc_list d) (encoder_list d) (connector_list d) (crtcs d) (encoders d)
    (<[i := f (connectors d !!! i)]> (connectors d)).

(** ** What is in use *)

Definition drm_helper_encoder_in_use (e : Z) (d : config) : bool :=
  existsb (fun c => bool_decide (encoder (connectors d !!! c) = Some e)) (connector_list d).

Definition drm_helper_crtc_in_use (c : Z) (d : config) : bool :=
  existsb (fun e => bool_decide (enc_crtc (encoders d !!! e) = Some c) && drm_helper_encoder_in_use e d)
    (encoder_list d).

Definition drm_encoder_disable (e : Z) : P hw unit :=
  if enc_has_disable e then call (enc_disable e) else call (enc_dpms e DRM_MODE_DPMS_OFF).

Definition drop_disconnected (c : Z) : P hw unit :=
  con ← get (fun d => connectors d !!! c);
  match encoder con with
  | None => mret tt
  | Some _ =>
      when (bool_decide (con_status con = connector_status_disconnected)) (put (upd_connector c (with_encoder None)))
  end.

Definition disable_unused_encoder (e : Z) : P hw unit :=
  used ← get (drm_helper_encoder_in_use e);
  if (used : bool) then mret tt else
  _ ← drm_encoder_disable e; put (upd_encoder e (with_crtc None)).

Definition disable_unused_crtc (c : Z) : P hw unit :=
  used ← get (drm_helper_crtc_in_use c);
  _ ← put (upd_crtc c (with_enabled used));
  if (used : bool) then mret tt else
  _ ← (if crtc_has_disable c then call (crtc_disable c) else call (crtc_dpms c DRM_MODE_DPMS_OFF));
  put (upd_crtc c (with_fb None)).

Definition drm_helper_disable_unused_functions : P hw unit :=
  cs ← get connector_list; _ ← for_ cs drop_disconnected;
  es ← get encoder_list; _ ← for_ es disable_unused_encoder;
  rs ← get crtc_list; for_ rs disable_unused_crtc.

(** The mask is an int that is shifted once per CRTC before this one. *)
Fixpoint crtc_mask (mask : Z) (l : list Z) (c : Z) : Z :=
  match l with
  | [] => mask
  | i :: l => if i =? c then mask else crtc_mask (s32 (Z.shiftl mask 1)) l c
  end.

Definition drm_encoder_crtc_ok (e c : Z) (d : config) : bool :=
  negb (Z.land (possible_crtcs (encoders d !!! e)) (u32 (crtc_mask 1 (crtc_list d) c)) =? 0).

(** ** The set of a mode *)

Definition prepare_encoder (e : Z) : P hw unit :=
  enc ← get (fun d => encoders d !!! e);
  _ ← when (bool_decide (enc_crtc enc = None)) (drm_encoder_disable e);
  if enc_has_get_crtc e then
    c ← call_ret (enc_get_crtc e);
    when (bool_decide (enc_crtc enc <> c)) (drm_encoder_disable e)
  else mret tt.

Definition drm_crtc_prepare_encoders : P hw unit := es ← get encoder_list; for_ es prepare_encoder.

(** The loop over the encoders of a CRTC. *)
Definition for_encoders_of (c : Z) (k : Z -> P hw unit) : P hw unit :=
  es ← get encoder_list;
  for_ es (fun e => on ← get (fun d => bool_decide (enc_crtc (encoders d !!! e) = Some c)); when on (k e)).

Fixpoint fixup_loop (c : Z) (l : list Z) (m adjusted : drm_display_mode) : P hw (bool * drm_display_mode) :=
  match l with
  | [] => mret (true, adjusted)
  | e :: l =>
      on ← get (fun d => bool_decide (enc_crtc (encoders d !!! e) = Some c));
      if negb on then fixup_loop c l m adjusted else
      r ← call_ret (enc_mode_fixup e m adjusted);
      if negb r.1 then mret (false, r.2) else fixup_loop c l m r.2
  end.

Definition drm_mode_duplicate (m : drm_display_mode) : P hw (option drm_display_mode) :=
  ok ← call_ret (fun _ h => alloc h); mret (if (ok : bool) then Some m else None).

Definition drm_calc_timestamping_constants (c : drm_crtc) : drm_crtc :=
  let dotclock := u64 (u64 (clock (hwmode c)) * 1000) in
  let dotclock := if has_flag (flags (hwmode c)) DRM_MODE_FLAG_INTERLACE then u64 (dotclock * 2) else dotclock in
  if dotclock >? 0 then
    let t := Modes.crtc (hwmode c) in
    let frame_size := s32 (crtc_htotal t * crtc_vtotal t) in
    with_durations (u64 (u64 frame_size * 1000000000) / dotclock) (u64 (u64 (crtc_htotal t) * 1000000000) / dotclock)
      (1000000000 / dotclock) c
  else with_durations 0 0 0 c.

(** From the fixups to [done]: the result and the adjusted mode. *)
Definition set_mode_steps (c : Z) (m adjusted : drm_display_mode) (x' y' : Z) (old_fb : option drm_framebuffer)
    : P hw bool :=
  es ← get encoder_list;
  r ← fixup_loop c es m adjusted;
  if negb r.1 then mret false else
  r ← call_ret (crtc_mode_fixup c m r.2);
  if negb r.1 then mret false else
  let adjusted := r.2 in
  _ ← for_encoders_of c (fun e => call (enc_prepare e));
  _ ← drm_crtc_prepare_encoders;
  _ ← call (crtc_prepare c);
  ret ← call_ret (crtc_mode_set c m adjusted x' y' old_fb);
  if negb (ret =? 0) then mret false else
  _ ← for_encoders_of c (fun e => call (enc_mode_set e m adjusted));
  _ ← call (crtc_commit c);
  _ ← for_encoders_of c (fun e => call (enc_commit e));
  _ ← put (upd_crtc c (fun r => drm_calc_timestamping_constants (with_hwmode adjusted r)));
  mret true.

Definition drm_crtc_helper_set_mode (c : Z) (m : drm_display_mode) (x' y' : Z) (old_fb : option drm_framebuffer)
    : P hw bool :=
  used ← get (drm_helper_crtc_in_use c);
  _ ← put (upd_crtc c (with_enabled used));
  if negb used then mret true else
  adjusted ← drm_mode_duplicate m;
  match adjusted with
  | None => mret false
  | Some adjusted =>
      saved ← get (fun d => crtcs d !!! c);
      _ ← put (upd_crtc c (fun r => with_xy x' y' (with_mode m r)));
      ret ← set_mode_steps c m adjusted x' y' old_fb;
      _ ← when (negb ret) (put (upd_crtc c (fun r =>
            with_xy (x saved) (y saved) (with_mode (mode saved) (with_hwmode (hwmode saved) r)))));
      mret ret
  end.

(** ** The set of a configuration *)

Definition decouple (c e : Z) : P hw unit :=
  on ← get (fun d => bool_decide (enc_crtc (encoders d !!! e) = Some c));
  if negb on then mret tt else
  cs ← get connector_list;
  for_ cs (fun k =>
    mine ← get (fun d => bool_decide (encoder (connectors d !!! k) = Some e));
    when mine (put (upd_connector k (with_encoder None)))).

Definition drm_crtc_helper_disable (c : Z) : P hw Z :=
  es ← get encoder_list; _ ← for_ es (decouple c);
  _ ← drm_helper_disable_unused_functions; mret 0.

Record drm_mode_set := mk_set {
  set_fb : option drm_framebuffer; set_crtc : Z; set_mode : option drm_display_mode; set_x : Z; set_y : Z;
  set_connectors : list Z }.

(** What [set] changes: whether a full mode set is needed, and whether a flip is. *)
Definition what_changes (set : drm_mode_set) (r : drm_crtc) : bool * bool :=
  let '(mode_changed, fb_changed) :=
    if bool_decide (option_map fb_addr (fb r) = option_map fb_addr (set_fb set)) then (false, false) else
    match fb r, set_fb set with
    | None, _ | _, None => (true, false)
    | Some old, Some new => if negb (pixel_format new =? pixel_format old) then (true, false) else (false, true)
    end in
  let fb_changed := fb_changed || negb (set_x set =? u32 (x r)) || negb (set_y set =? u32 (y r)) in
  let mode_changed := mode_changed ||
    match set_mode set with Some m => negb (drm_mode_equal m (mode r)) | None => false end in
  (mode_changed, fb_changed).

(** a) the encoders of the connectors of the set: whether the mode is to be set, and
    whether a connector found no encoder. *)
Fixpoint pick_encoders (set : drm_mode_set) (l : list Z) (mode_changed fail : bool) : P hw (bool * bool) :=
  match l with
  | [] => mret (mode_changed, fail)
  | k :: l =>
      old ← get (fun d => encoder (connectors d !!! k));
      new ← (if bool_decide (k ∈ set_connectors set) then call_ret (best_encoder k) else mret old);
      let fail := fail || bool_decide (k ∈ set_connectors set) && bool_decide (new = None) in
      if bool_decide (new = old) then pick_encoders set l mode_changed fail else
      _ ← match old with Some e => put (upd_encoder e (with_crtc None)) | None => mret tt end;
      _ ← put (upd_connector k (with_encoder new));
      pick_encoders set l true fail
  end.

(** b) the CRTCs of the encoders; no result when an encoder can not drive its CRTC. *)
Fixpoint pick_crtcs (set : drm_mode_set) (l : list Z) (mode_changed : bool) : P hw (bool * bool) :=
  match l with
  | [] => mret (true, mode_changed)
  | k :: l =>
      enc ← get (fun d => encoder (connectors d !!! k));
      match enc with
      | None => pick_crtcs set l mode_changed
      | Some e =>
          old ← get (fun d => enc_crtc (encoders d !!! e));
          let new := if bool_decide (k ∈ set_connectors set) then Some (set_crtc set)
                     else if bool_decide (old = Some (set_crtc set)) then None else old in
          ok ← get (fun d => match new with Some c => drm_encoder_crtc_ok e c d | None => true end);
          if negb ok then mret (false, mode_changed) else
          if bool_decide (new = old) then pick_crtcs set l mode_changed else
          _ ← put (upd_encoder e (with_crtc new)); pick_crtcs set l true
      end
  end.

(** The copies of the objects, and the way back to them. *)
Record saved := mk_saved {
  save_crtcs : list drm_crtc; save_encoders : list drm_encoder; save_connectors : list drm_connector }.

Definition save_config (d : config) : saved :=
  mk_saved (map (fun i => crtcs d !!! i) (crtc_list d)) (map (fun i => encoders d !!! i) (encoder_list d))
    (map (fun i => connectors d !!! i) (connector_list d)).

Definition store_list {A} (l : list Z) (v : list A) (m : gmap Z A) : gmap Z A :=
  foldl (fun m p => <[p.1 := p.2]> m) m (zip l v).

Definition restore_config (s : saved) (d : config) : config :=
  mk_config (crtc_list d) (encoder_list d) (connector_list d) (store_list (crtc_list d) (save_crtcs s) (crtcs d))
    (store_list (encoder_list d) (save_encoders s) (encoders d))
    (store_list (connector_list d) (save_connectors s) (connectors d)).

(** The callback [dpms] of the connectors. *)
Context (connector_dpms : Z -> Z -> P hw unit).

(** The outcome of the attempt: the result, and whether a mode set was under way. *)
Definition apply_set (set : drm_mode_set) (mode : drm_display_mode) (mode_changed fb_changed : bool) : P hw (Z * bool) :=
  let c := set_crtc set in
  let mode_changed := mode_changed || fb_changed && negb (crtc_has_mode_set_base c) in
  if mode_changed then
    used ← get (drm_helper_crtc_in_use c);
    _ ← put (upd_crtc c (with_enabled used));
    ok ← (if (used : bool) then
            old_fb ← get (fun d => fb (crtcs d !!! c));
            _ ← put (upd_crtc c (with_fb (set_fb set)));
            ok ← drm_crtc_helper_set_mode c mode (s32 (set_x set)) (s32 (set_y set)) old_fb;
            if negb ok then _ ← put (upd_crtc c (with_fb old_fb)); mret false else
            _ ← for_ (set_connectors set) (fun k => connector_dpms k DRM_MODE_DPMS_ON); mret true
          else mret true);
    if negb ok then mret (- EINVAL, true) else
    _ ← drm_helper_disable_unused_functions; mret (0, true)
  else if fb_changed then
    _ ← put (upd_crtc c (with_xy (s32 (set_x set)) (s32 (set_y set))));
    old_fb ← get (fun d => fb (crtcs d !!! c));
    _ ← put (upd_crtc c (with_fb (set_fb set)));
    ret ← call_ret (crtc_mode_set_base c (s32 (set_x set)) (s32 (set_y set)) old_fb);
    if negb (ret =? 0) then _ ← put (upd_crtc c (with_fb old_fb)); mret (ret, false) else mret (0, false)
  else mret (0, false).

Definition try_set (set : drm_mode_set) (mode : drm_display_mode) : P hw (Z * bool) :=
  r ← get (fun d => crtcs d !!! set_crtc set);
  let '(mode_changed, fb_changed) := what_changes set r in
  cs ← get connector_list;
  r ← pick_encoders set cs mode_changed false;
  if (r.2 : bool) then mret (- EINVAL, r.1) else
  r ← pick_crtcs set cs r.1;
  if negb r.1 then mret (- EINVAL, r.2) else
  apply_set set mode r.2 fb_changed.

(** The body, once there are a mode and a framebuffer. *)
Definition set_config (set : drm_mode_set) (mode' : drm_display_mode) : P hw Z :=
  ok ← call_ret (fun _ h => alloc h);
  if negb ok then mret (- ENOMEM) else
  ok ← call_ret (fun _ h => alloc h);
  if negb ok then mret (- ENOMEM) else
  ok ← call_ret (fun _ h => alloc h);
  if negb ok then mret (- ENOMEM) else
  sv ← get save_config;
  old ← get (fun d => crtcs d !!! set_crtc set);
  r ← try_set set mode';
  if r.1 =? 0 then mret 0 else
  _ ← put (restore_config sv);
  _ ← when r.2 (m ← get (fun d => mode (crtcs d !!! set_crtc set));
                _ ← drm_crtc_helper_set_mode (set_crtc set) m (x old) (y old) (fb old); mret tt);
  mret r.1.

(** [None] is a failed [BUG_ON]. *)
Definition drm_crtc_helper_set_config (set : drm_mode_set) : option (P hw Z) :=
  _ ← BUG_ON (bool_decide (set_mode set = None) && negb (bool_decide (set_fb set = None)));
  _ ← BUG_ON (negb (bool_decide (set_fb set = None)) && (length (set_connectors set) =? 0)%nat);
  Some (match set_mode set, set_fb set with
        | Some m, Some _ => set_config set m
        | _, _ => drm_crtc_helper_disable (set_crtc set)
        end).

(** ** DPMS *)

Definition lowest (init : Z) (l : list Z) : Z := foldl (fun d v => if v <? d then v else d) init l.

Definition drm_helper_choose_encoder_dpms (e : Z) (d : config) : Z :=
  lowest DRM_MODE_DPMS_OFF (map (fun k => dpms (connectors d !!! k))
    (List.filter (fun k => bool_decide (encoder (connectors d !!! k) = Some e)) (connector_list d))).

Definition on_crtc (c k : Z) (d : config) : bool :=
  match encoder (connectors d !!! k) with
  | Some e => bool_decide (enc_crtc (encoders d !!! e) = Some c)
  | None => false
  end.

Definition drm_helper_choose_crtc_dpms (c : Z) (d : config) : Z :=
  lowest DRM_MODE_DPMS_OFF (map (fun k => dpms (connectors d !!! k))
    (List.filter (fun k => on_crtc c k d) (connector_list d))).

Definition crtc_to_dpms (c : option Z) : P hw unit :=
  match c with
  | Some c => when (crtc_has_dpms c) (call (fun d => crtc_dpms c (drm_helper_choose_crtc_dpms c d) d))
  | None => mret tt
  end.

Definition encoder_to_dpms (e : option Z) : P hw unit :=
  match e with
  | Some e => when (enc_has_dpms e) (call (fun d => enc_dpms e (drm_helper_choose_encoder_dpms e d) d))
  | None => mret tt
  end.

Definition drm_helper_connector_dpms (k m : Z) : P hw unit :=
  con ← get (fun d => connectors d !!! k);
  c ← get (fun d => match encoder con with Some e => enc_crtc (encoders d !!! e) | None => None end);
  if m =? dpms con then mret tt else
  _ ← put (upd_connector k (with_dpms m));
  if m <? dpms con then _ ← crtc_to_dpms c; encoder_to_dpms (encoder con)
  else _ ← encoder_to_dpms (encoder con); crtc_to_dpms c.

(** ** Resume *)

Definition resume_crtc (c : Z) : P hw unit :=
  r ← get (fun d => crtcs d !!! c);
  if negb (enabled r) then mret tt else
  _ ← drm_crtc_helper_set_mode c (mode r) (x r) (y r) (fb r);
  level ← get (drm_helper_choose_crtc_dpms c);
  if level =? 0 then mret tt else
  _ ← for_encoders_of c (fun e => encoder_to_dpms (Some e));
  crtc_to_dpms (Some c).

Definition drm_helper_resume_force_mode : P hw unit :=
  cs ← get crtc_list; _ ← for_ cs resume_crtc; drm_helper_disable_unused_functions.

(** ** The order of the connectors *)

Definition is_panel (d : config) (k : Z) : bool :=
  let t := connector_type (connectors d !!! k) in
  (t =? DRM_MODE_CONNECTOR_LVDS) || (t =? DRM_MODE_CONNECTOR_eDP).

(** The walk over the connectors [l]: the list of the panels, and of the others. *)
Fixpoint move_panels (d : config) (l panel_list rest : list Z) : list Z * list Z :=
  match l with
  | [] => (panel_list, rest)
  | k :: l =>
      if is_panel d k then move_panels d l (panel_list ++ [k]) (List.filter (fun j => negb (j =? k)) rest)
      else move_panels d l panel_list rest
  end.

Definition drm_helper_move_panel_connectors_to_head : P hw unit :=
  put (fun d =>
    let '(panel_list, rest) := move_panels d (connector_list d) [] (connector_list d) in
    mk_config (crtc_list d) (encoder_list d) (panel_list ++ rest) (crtcs d) (encoders d) (connectors d)).
End Helper.
