(* ===== verification/CrtcHelperFacts.v ===== *)
(** * What the CRTC helpers guarantee

    The frames of the functions of CrtcHelper, the set of a mode, and the set of a
    configuration: what it establishes when it returns 0, and that it restores the
    routing when it does not. *)

From S2P Require Import Prelude Modes CrtcHelper.

Open Scope Z_scope.

(** ** Frames: how a program may change the configuration *)

Section Frames.
Context {hw : Type} `{Driver hw}.
Implicit Types (d : config) (c e k : Z).

Definition frames {A} (R : config -> config -> Prop) (m : P hw A) : Prop := forall s, R s.1 (m s).2.1.

Section Rel.
Context (R : config -> config -> Prop) `{!PreOrder R}.

Lemma frames_ret {A} (a : A) : frames R (mret a).
Proof. intros s. reflexivity. Qed.
Lemma frames_bind {A B} (m : P hw A) (f : A -> P hw B) : frames R m -> (forall a, frames R (f a)) -> frames R (m ≫= f).
Proof.
  intros Hm Hf s. unfold mbind, P_bind. specialize (Hm s). destruct (m s) as [a s']. etrans; [exact Hm|]. apply Hf.
Qed.
Lemma frames_get {A} (f : config -> A) : frames R (get f).
Proof. intros s. reflexivity. Qed.
Lemma frames_call f : frames R (call f).
Proof. intros s. reflexivity. Qed.
Lemma frames_call_ret {A} (f : config -> hw -> A * hw) : frames R (call_ret f).
Proof. intros s. unfold call_ret. destruct (f s.1 s.2). reflexivity. Qed.
Lemma frames_put f : (forall d, R d (f d)) -> frames R (put f).
Proof. intros Hf s. apply Hf. Qed.
Lemma frames_when b m : frames R m -> frames R (when b m).
Proof. intros Hm. destruct b; [exact Hm|apply frames_ret]. Qed.
Lemma frames_for l (body : Z -> P hw unit) : (forall i, i ∈ l -> frames R (body i)) -> frames R (for_ l body).
Proof.
  induction l as [|i l IH]; intros Hk; [apply frames_ret|]. apply frames_bind; [apply Hk; left|].
  intros _. apply IH. intros j Hj. apply Hk. by right.
Qed.
End Rel.

(** The configuration is left alone, or only one CRTC is changed. *)
Definition only_crtc c d d' : Prop :=
  crtc_list d' = crtc_list d /\ encoder_list d' = encoder_list d /\ connector_list d' = connector_list d /\
  encoders d' = encoders d /\ connectors d' = connectors d /\ forall i, i <> c -> crtcs d' !!! i = crtcs d !!! i.

#[export] Instance only_crtc_pre c : PreOrder (only_crtc c).
Proof.
  split; [by intros d|]. intros d1 d2 d3 (A1 & A2 & A3 & A4 & A5 & A6) (B1 & B2 & B3 & B4 & B5 & B6).
  repeat split; try congruence. intros i Hi. by rewrite B6, A6.
Qed.

Lemma crtc_eq c f d : crtcs (upd_crtc c f d) !!! c = f (crtcs d !!! c).
Proof. cbn. by rewrite lookup_total_insert_eq. Qed.
Lemma crtc_ne c f d i : i <> c -> crtcs (upd_crtc c f d) !!! i = crtcs d !!! i.
Proof. intros Hi. cbn. by rewrite lookup_total_insert_ne. Qed.
Lemma encoder_eq e f d : encoders (upd_encoder e f d) !!! e = f (encoders d !!! e).
Proof. cbn. by rewrite lookup_total_insert_eq. Qed.
Lemma encoder_ne e f d i : i <> e -> encoders (upd_encoder e f d) !!! i = encoders d !!! i.
Proof. intros Hi. cbn. by rewrite lookup_total_insert_ne. Qed.
Lemma connector_eq k f d : connectors (upd_connector k f d) !!! k = f (connectors d !!! k).
Proof. cbn. by rewrite lookup_total_insert_eq. Qed.
Lemma connector_ne k f d i : i <> k -> connectors (upd_connector k f d) !!! i = connectors d !!! i.
Proof. intros Hi. cbn. by rewrite lookup_total_insert_ne. Qed.

Lemma only_crtc_upd c f d : only_crtc c d (upd_crtc c f d).
Proof. repeat split. intros i Hi. by apply crtc_ne. Qed.

Lemma crtc_in_use_only c i d d' : only_crtc i d d' -> drm_helper_crtc_in_use c d' = drm_helper_crtc_in_use c d.
Proof.
  intros (_ & E1 & E2 & E3 & E4 & _). unfold drm_helper_crtc_in_use, drm_helper_encoder_in_use. by rewrite E1, E2, E3, E4.
Qed.
Lemma run_same {A} (m : P hw A) d h : frames eq m -> exists a h', m (d, h) = (a, (d, h')).
Proof. intros Hm. specialize (Hm (d, h)). destruct (m (d, h)) as [a [d' h']]. cbn in Hm. subst. by exists a, h'. Qed.

Lemma bind_same {A B} (m : P hw A) (f : A -> P hw B) d h : frames eq m -> exists a h', m (d, h) = (a, (d, h')) /\ (m ≫= f) (d, h) = f a (d, h').
Proof. intros Hm. destruct (run_same m d h Hm) as (a & h' & E). exists a, h'. split; [done|]. unfold mbind, P_bind. by rewrite E. Qed.

Lemma bind_step {A B} (m : P hw A) (f : A -> P hw B) s a s' : m s = (a, s') -> (m ≫= f) s = f a s'.
Proof. intros E. unfold mbind, P_bind. by rewrite E. Qed.

End Frames.

Ltac same_step a h' :=
  match goal with |- context [(?m ≫= ?f) (?d, ?h)] =>
    let E := fresh in destruct (bind_same m f d h) as (a & h' & E & ->); [|clear E] end.

Create HintDb frames.
#[export] Hint Resolve frames_ret frames_get frames_call frames_call_ret only_crtc_upd : frames.
#[export] Hint Extern 1 (PreOrder _) => typeclasses eauto : frames.

(** Walk through a program. *)
Ltac frames_step :=
  lazymatch goal with
  | |- frames _ (_ ≫= _) => apply frames_bind; [typeclasses eauto| |intros ?]
  | |- frames _ (when _ _) => apply frames_when; [typeclasses eauto|]
  | |- frames _ (for_ _ _) => apply frames_for; [typeclasses eauto|intros ? ?]
  | |- frames _ (put _) => apply frames_put; intros ?; try apply only_crtc_upd
  | |- frames _ (if ?b then _ else _) => destruct b
  | |- frames _ (match ?o with Some _ => _ | None => _ end) => destruct o
  | |- frames _ (let '(_, _) := ?p in _) => destruct p
  | |- frames _ (mret _) => apply frames_ret; typeclasses eauto
  | |- frames _ (get _) => apply frames_get; typeclasses eauto
  | |- frames _ (call _) => apply frames_call; typeclasses eauto
  | |- frames _ (call_ret _) => apply frames_call_ret; typeclasses eauto
  end.
Ltac frames_tac := repeat frames_step.

(** ** The set of a mode *)

Section Mode.
Context {hw : Type} `{Driver hw}.
Implicit Types (d : config) (h : hw) (c e k : Z).

(** Callbacks alone change nothing. *)
Lemma disable_same e : frames eq (drm_encoder_disable e).
Proof. unfold drm_encoder_disable. frames_tac. Qed.

Lemma for_encoders_same c (f : Z -> P hw unit) : (forall e, frames eq (f e)) -> frames eq (for_encoders_of c f).
Proof. intros Hf. unfold for_encoders_of. frames_tac. apply Hf. Qed.

Lemma prepare_encoders_same : frames eq drm_crtc_prepare_encoders.
Proof. unfold drm_crtc_prepare_encoders, prepare_encoder. frames_tac; apply disable_same. Qed.

Lemma fixup_same c l m a : frames eq (fixup_loop c l m a).
Proof. revert a. induction l as [|e l IH]; intros a; cbn [fixup_loop]; frames_tac; apply IH. Qed.

(** The steps: nothing before the last store, which keeps the mode and the rest. *)
Lemma set_mode_steps_run c m a x' y' old d h : exists ok d' h', set_mode_steps c m a x' y' old (d, h) = (ok, (d', h')) /\
  if (ok : bool) then exists adjusted, d' = upd_crtc c (fun r => drm_calc_timestamping_constants (with_hwmode adjusted r)) d
  else d' = d.
Proof.
  unfold set_mode_steps. erewrite bind_step by reflexivity.
  same_step rh1 h1; [apply fixup_same|]. destruct rh1 as [ok adj]. cbn [fst snd].
  destruct ok; cbn [negb]; [|by exists false, d, h1].
  same_step rh2 h2; [frames_tac|]. destruct rh2 as [ok adj']. cbn [fst snd].
  destruct ok; cbn [negb]; [|by exists false, d, h2].
  same_step uh3 h3; [apply for_encoders_same; intros; frames_tac|].
  same_step uh4 h4; [apply prepare_encoders_same|].
  same_step uh5 h5; [frames_tac|].
  same_step ret h6; [frames_tac|].
  destruct (negb (ret =? 0)); [by exists false, d, h6|].
  same_step uh7 h7; [apply for_encoders_same; intros; frames_tac|].
  same_step uh8 h8; [frames_tac|].
  same_step uh9 h9; [apply for_encoders_same; intros; frames_tac|].
  eexists true, _, h9. split; [reflexivity|]. by eexists.
Qed.

(** What [drm_crtc_helper_set_mode] does to the configuration. *)
Definition mode_is_set c (m : drm_display_mode) (x' y' : Z) d d' : Prop :=
  mode (crtcs d' !!! c) = m /\ x (crtcs d' !!! c) = x' /\ y (crtcs d' !!! c) = y' /\
  fb (crtcs d' !!! c) = fb (crtcs d !!! c) /\
  crtcs d' !!! c = drm_calc_timestamping_constants (crtcs d' !!! c).

Definition mode_kept c d d' : Prop :=
  crtcs d' !!! c = with_enabled (enabled (crtcs d' !!! c)) (crtcs d !!! c).

Lemma calc_fields r : let r' := drm_calc_timestamping_constants r in
  fb r' = fb r /\ enabled r' = enabled r /\ mode r' = mode r /\ x r' = x r /\ y r' = y r /\
  r' = drm_calc_timestamping_constants r'.
Proof.
  unfold drm_calc_timestamping_constants. destruct r as [f1 f2 f3 f4 f5 f6 f7 f8 f9]. cbn [hwmode with_durations fb enabled mode x y].
  destruct (has_flag _ _) eqn:F; (destruct (_ >? 0) eqn:E; cbn [hwmode with_durations fb enabled mode x y]; rewrite ?F, ?E;
    repeat split; reflexivity).
Qed.

Lemma set_mode_run c m x' y' old d h : exists ok d' h', drm_crtc_helper_set_mode c m x' y' old (d, h) = (ok, (d', h')) /\
  only_crtc c d d' /\ enabled (crtcs d' !!! c) = drm_helper_crtc_in_use c d /\
  if ok && drm_helper_crtc_in_use c d then mode_is_set c m x' y' d d' else mode_kept c d d'.
Proof.
  unfold drm_crtc_helper_set_mode. erewrite bind_step by reflexivity. cbn [fst].
  set (used := drm_helper_crtc_in_use c d). set (d1 := upd_crtc c (with_enabled used) d).
  erewrite bind_step by reflexivity. cbn [fst snd]. fold d1.
  assert (only_crtc c d d1) as O1 by apply only_crtc_upd.
  assert (crtcs d1 !!! c = with_enabled used (crtcs d !!! c)) as E1 by apply crtc_eq.
  destruct used eqn:U; cbn [negb].
  2: { exists true, d1, h. split; [done|]. split; [done|]. unfold mode_kept. rewrite E1. done. }
  unfold drm_mode_duplicate.
  same_step adj h1; [frames_tac|].
  destruct adj as [adj|].
  2: { exists false, d1, h1. split; [done|]. split; [done|]. unfold mode_kept. rewrite E1. done. }
  erewrite bind_step by reflexivity. cbn [fst]. erewrite bind_step by reflexivity. cbn [fst snd].
  set (d2 := upd_crtc c _ d1).
  assert (only_crtc c d d2) as O2 by (etrans; [exact O1|apply only_crtc_upd]).
  assert (crtcs d2 !!! c = with_xy x' y' (with_mode m (crtcs d1 !!! c))) as E2 by apply crtc_eq.
  destruct (set_mode_steps_run c m adj x' y' old d2 h1) as (ok & d3 & h3 & E & Hok).
  erewrite bind_step by exact E. destruct ok; cbn [negb when].
  - destruct Hok as [adjusted ->]. erewrite bind_step by reflexivity.
    eexists true, _, h3. split; [reflexivity|]. split; [etrans; [exact O2|apply only_crtc_upd]|].
    cbn [andb]. unfold mode_is_set. rewrite crtc_eq, E2, E1.
    destruct (calc_fields (with_hwmode adjusted (with_xy x' y' (with_mode m (with_enabled true (crtcs d !!! c))))))
      as (-> & -> & -> & -> & -> & E'). done.
  - subst d3. erewrite bind_step by reflexivity. cbn [fst snd].
    eexists false, _, h3. split; [reflexivity|]. split; [etrans; [exact O2|apply only_crtc_upd]|].
    cbn [andb]. unfold mode_kept. rewrite crtc_eq, E2, E1. split; [done|]. by destruct (crtcs d !!! c).
Qed.

(** ** The disabling of what is not used *)

Lemma for_run (body : Z -> P hw unit) (step : Z -> config -> config) l :
  (forall i d h, exists h', body i (d, h) = (tt, (step i d, h'))) ->
  forall d h, exists h', for_ l body (d, h) = (tt, (foldl (fun d i => step i d) d l, h')).
Proof.
  intros Hb. induction l as [|i l IH]; intros d h; [by exists h|]. cbn [for_ foldl].
  destruct (Hb i d h) as [h1 E]. destruct (IH (step i d) h1) as [h2 E2]. exists h2. by rewrite (bind_step _ _ _ _ _ E).
Qed.

Definition dropped (con : drm_connector) : drm_connector :=
  if bool_decide (con_status con = connector_status_disconnected) then with_encoder None con else con.

Definition drop_step k d : config :=
  let con := connectors d !!! k in
  if bool_decide (encoder con <> None /\ con_status con = connector_status_disconnected)
  then upd_connector k (with_encoder None) d else d.
Definition encoder_step e d : config :=
  if drm_helper_encoder_in_use e d then d else upd_encoder e (with_crtc None) d.
Definition crtc_step c d : config :=
  let used := drm_helper_crtc_in_use c d in
  let d := upd_crtc c (with_enabled used) d in if used then d else upd_crtc c (with_fb None) d.

(** What the helpers leave alone. *)
Definition same_lists d d' : Prop :=
  crtc_list d' = crtc_list d /\ encoder_list d' = encoder_list d /\ connector_list d' = connector_list d.

Lemma drop_fold l : forall d, let d' := foldl (fun d k => drop_step k d) d l in
  same_lists d d' /\ crtcs d' = crtcs d /\ encoders d' = encoders d /\
  forall k, connectors d' !!! k = if bool_decide (k ∈ l) then dropped (connectors d !!! k) else connectors d !!! k.
Proof.
  induction l as [|k l IH]; intros d; [done|]. cbn [foldl].
  assert (same_lists d (drop_step k d) /\ crtcs (drop_step k d) = crtcs d /\ encoders (drop_step k d) = encoders d /\
    forall j, connectors (drop_step k d) !!! j = if bool_decide (j = k) then dropped (connectors d !!! j) else connectors d !!! j)
    as ((A1 & A2 & A3) & A4 & A5 & A6).
  { unfold drop_step. repeat split; try (by case_bool_decide). intros j. case_bool_decide as B.
    - destruct B as [B1 B2]. case_bool_decide as J; [subst j; rewrite connector_eq|by rewrite connector_ne].
      unfold dropped. by rewrite bool_decide_eq_true_2.
    - case_bool_decide as J; [subst j|done]. unfold dropped. case_bool_decide as S; [|done].
      destruct (connectors d !!! k) as [t st en dp]. cbn in *. destruct en; [naive_solver|done]. }
  destruct (IH (drop_step k d)) as ((B1 & B2 & B3) & B4 & B5 & B6).
  repeat split; try congruence. intros j. rewrite B6, A6.
  assert (dropped (dropped (connectors d !!! j)) = dropped (connectors d !!! j)) as Hd.
  { unfold dropped. destruct (bool_decide (con_status (connectors d !!! j) = _)) eqn:E; cbn; by rewrite E. }
  destruct (bool_decide_reflect (j = k)) as [->|Hne].
  - rewrite (bool_decide_eq_true_2 (k ∈ k :: l)) by left. by case_bool_decide.
  - by rewrite (bool_decide_ext (j ∈ k :: l) (j ∈ l)) by set_solver.
Qed.

Lemma encoder_in_use_only e d d' : connector_list d' = connector_list d ->
  (forall k, encoder (connectors d' !!! k) = encoder (connectors d !!! k)) ->
  drm_helper_encoder_in_use e d' = drm_helper_encoder_in_use e d.
Proof.
  intros E1 E2. unfold drm_helper_encoder_in_use. rewrite E1. clear E1. induction (connector_list d) as [|k l IH]; [done|].
  cbn [existsb]. by rewrite E2, IH.
Qed.

Lemma crtc_in_use_ext c d d' : encoder_list d' = encoder_list d ->
  (forall e, enc_crtc (encoders d' !!! e) = enc_crtc (encoders d !!! e)) ->
  (forall e, drm_helper_encoder_in_use e d' = drm_helper_encoder_in_use e d) ->
  drm_helper_crtc_in_use c d' = drm_helper_crtc_in_use c d.
Proof.
  intros E1 E2 E3. unfold drm_helper_crtc_in_use. rewrite E1. clear E1. induction (encoder_list d) as [|k l IH]; [done|].
  cbn [existsb]. by rewrite E2, E3, IH.
Qed.

Lemma encoder_fold l : forall d, let d' := foldl (fun d e => encoder_step e d) d l in
  same_lists d d' /\ crtcs d' = crtcs d /\ connectors d' = connectors d /\
  forall e, encoders d' !!! e = if bool_decide (e ∈ l) && negb (drm_helper_encoder_in_use e d)
                                then with_crtc None (encoders d !!! e) else encoders d !!! e.
Proof.
  induction l as [|e l IH]; intros d; [done|]. cbn [foldl].
  assert (same_lists d (encoder_step e d) /\ crtcs (encoder_step e d) = crtcs d /\ connectors (encoder_step e d) = connectors d /\
    forall j, encoders (encoder_step e d) !!! j =
      if bool_decide (j = e) && negb (drm_helper_encoder_in_use e d) then with_crtc None (encoders d !!! j) else encoders d !!! j)
    as ((A1 & A2 & A3) & A4 & A5 & A6).
  { unfold encoder_step. repeat split; try (by destruct (drm_helper_encoder_in_use _ _)). intros j.
    destruct (drm_helper_encoder_in_use e d); cbn [negb]; rewrite ?andb_false_r, ?andb_true_r; [done|].
    case_bool_decide as J; [subst j; by rewrite encoder_eq|by rewrite encoder_ne]. }
  destruct (IH (encoder_step e d)) as ((B1 & B2 & B3) & B4 & B5 & B6).
  repeat split; try congruence. intros j. rewrite B6, A6.
  rewrite (encoder_in_use_only j d (encoder_step e d)) by (congruence || (intros; by rewrite A5)).
  destruct (bool_decide_reflect (j = e)) as [->|Hne]; cbn [andb].
  - rewrite (bool_decide_eq_true_2 (e ∈ e :: l)) by left. cbn [andb].
    destruct (negb (drm_helper_encoder_in_use e d)); rewrite ?andb_false_r; [|done]. by case_bool_decide.
  - rewrite (bool_decide_ext (j ∈ e :: l) (j ∈ l)) by set_solver. done.
Qed.

Definition after_use c d : drm_crtc :=
  let used := drm_helper_crtc_in_use c d in
  let r := with_enabled used (crtcs d !!! c) in if used then r else with_fb None r.

Lemma crtc_fold l : forall d, let d' := foldl (fun d c => crtc_step c d) d l in
  same_lists d d' /\ encoders d' = encoders d /\ connectors d' = connectors d /\
  forall c, crtcs d' !!! c = if bool_decide (c ∈ l) then after_use c d else crtcs d !!! c.
Proof.
  induction l as [|c l IH]; intros d; [done|]. cbn [foldl].
  assert (same_lists d (crtc_step c d) /\ encoders (crtc_step c d) = encoders d /\ connectors (crtc_step c d) = connectors d /\
    forall j, crtcs (crtc_step c d) !!! j = if bool_decide (j = c) then after_use j d else crtcs d !!! j)
    as ((A1 & A2 & A3) & A4 & A5 & A6).
  { unfold crtc_step. repeat split; try (by destruct (drm_helper_crtc_in_use _ _)). intros j.
    case_bool_decide as J; [subst j|]; unfold after_use; destruct (drm_helper_crtc_in_use c d); rewrite ?crtc_eq, ?crtc_ne; done. }
  destruct (IH (crtc_step c d)) as ((B1 & B2 & B3) & B4 & B5 & B6).
  repeat split; try congruence. intros j. rewrite B6, A6.
  assert (drm_helper_crtc_in_use j (crtc_step c d) = drm_helper_crtc_in_use j d) as U.
  { apply crtc_in_use_ext; [done|intros; by rewrite A4|]. intros e. apply encoder_in_use_only; [done|]. intros. by rewrite A5. }
  unfold after_use at 1. rewrite U, A6.
  destruct (bool_decide_reflect (j = c)) as [->|Hne].
  - rewrite (bool_decide_eq_true_2 (c ∈ c :: l)) by left. unfold after_use. destruct (drm_helper_crtc_in_use c d); by case_bool_decide.
  - rewrite (bool_decide_ext (j ∈ c :: l) (j ∈ l)) by set_solver. unfold after_use. done.
Qed.

Lemma drop_run k d h : exists h', drop_disconnected k (d, h) = (tt, (drop_step k d, h')).
Proof.
  unfold drop_disconnected, drop_step. erewrite bind_step by reflexivity. cbn [fst].
  destruct (encoder (connectors d !!! k)) as [e|] eqn:E.
  - exists h. destruct (bool_decide_reflect (con_status (connectors d !!! k) = connector_status_disconnected)) as [C|C].
    + rewrite bool_decide_eq_true_2 by done. done.
    + rewrite bool_decide_eq_false_2 by tauto. done.
  - exists h. rewrite bool_decide_eq_false_2 by tauto. done.
Qed.

Lemma unused_encoder_run e d h : exists h', disable_unused_encoder e (d, h) = (tt, (encoder_step e d, h')).
Proof.
  unfold disable_unused_encoder, encoder_step. erewrite bind_step by reflexivity. cbn [fst].
  destruct (drm_helper_encoder_in_use e d); [by exists h|]. same_step u h1; [apply disable_same|]. by exists h1.
Qed.

Lemma unused_crtc_run c d h : exists h', disable_unused_crtc c (d, h) = (tt, (crtc_step c d, h')).
Proof.
  unfold disable_unused_crtc, crtc_step. erewrite bind_step by reflexivity. cbn [fst].
  erewrite bind_step by reflexivity. cbn [fst snd].
  destruct (drm_helper_crtc_in_use c d); [by exists h|]. same_step u h1; [frames_tac|]. by exists h1.
Qed.

Definition unused_disabled d d' : Prop :=
  same_lists d d' /\
  (forall k, connectors d' !!! k = if bool_decide (k ∈ connector_list d) then dropped (connectors d !!! k) else connectors d !!! k) /\
  (forall e, encoders d' !!! e = if bool_decide (e ∈ encoder_list d) && negb (drm_helper_encoder_in_use e d')
                                then with_crtc None (encoders d !!! e) else encoders d !!! e) /\
  (forall c, crtcs d' !!! c = if bool_decide (c ∈ crtc_list d) then
       let r := with_enabled (drm_helper_crtc_in_use c d') (crtcs d !!! c) in
       if drm_helper_crtc_in_use c d' then r else with_fb None r
     else crtcs d !!! c).

Lemma disable_unused_run d h : exists d' h', drm_helper_disable_unused_functions (d, h) = (tt, (d', h')) /\ unused_disabled d d'.
Proof.
  unfold drm_helper_disable_unused_functions. erewrite bind_step by reflexivity. cbn [fst].
  destruct (for_run drop_disconnected drop_step (connector_list d) drop_run d h) as [h1 E1].
  erewrite bind_step by exact E1. destruct (drop_fold (connector_list d) d) as ((A1 & A2 & A3) & A4 & A5 & A6).
  set (d1 := foldl _ d (connector_list d)) in *. clearbody d1. clear E1.
  erewrite bind_step by reflexivity. cbn [fst].
  destruct (for_run disable_unused_encoder encoder_step (encoder_list d1) unused_encoder_run d1 h1) as [h2 E2].
  erewrite bind_step by exact E2. destruct (encoder_fold (encoder_list d1) d1) as ((B1 & B2 & B3) & B4 & B5 & B6).
  set (d2 := foldl _ d1 (encoder_list d1)) in *. clearbody d2. clear E2.
  erewrite bind_step by reflexivity. cbn [fst].
  destruct (for_run disable_unused_crtc crtc_step (crtc_list d2) unused_crtc_run d2 h2) as [h3 E3].
  destruct (crtc_fold (crtc_list d2) d2) as ((C1 & C2 & C3) & C4 & C5 & C6).
  set (d3 := foldl _ d2 (crtc_list d2)) in *. clearbody d3. exists d3, h3. split; [exact E3|]. clear E3.
  split; [split; [|split]; congruence|]. split; [|split].
  - intros k. by rewrite C5, B5, A6.
  - intros e. rewrite C4, B6, A2, A5. rewrite (encoder_in_use_only e d1 d3); [done|congruence|intros; by rewrite C5, B5].
  - intros c. rewrite C6. replace (crtc_list d2) with (crtc_list d) by congruence.
    assert (drm_helper_crtc_in_use c d3 = drm_helper_crtc_in_use c d2) as ->.
    { apply crtc_in_use_ext; [congruence|intros; by rewrite C4|]. intros e. apply encoder_in_use_only; [congruence|]. intros. by rewrite C5. }
    unfold after_use. by rewrite B4, A4.
Qed.

(** ** Turning a CRTC off *)

(** The connector is routed to the CRTC through one of the encoders. *)
Definition routed c (es : list Z) k d : bool :=
  match encoder (connectors d !!! k) with
  | Some e => bool_decide (e ∈ es) && bool_decide (enc_crtc (encoders d !!! e) = Some c)
  | None => false
  end.

Definition detach_step e k d : config :=
  if bool_decide (encoder (connectors d !!! k) = Some e) then upd_connector k (with_encoder None) d else d.
Definition decouple_step c e d : config :=
  if bool_decide (enc_crtc (encoders d !!! e) = Some c) then foldl (fun d k => detach_step e k d) d (connector_list d) else d.

Lemma detach_fold e l : forall d, let d' := foldl (fun d k => detach_step e k d) d l in
  same_lists d d' /\ crtcs d' = crtcs d /\ encoders d' = encoders d /\
  forall k, connectors d' !!! k = if bool_decide (k ∈ l) && bool_decide (encoder (connectors d !!! k) = Some e)
                                  then with_encoder None (connectors d !!! k) else connectors d !!! k.
Proof.
  induction l as [|k l IH]; intros d; [done|]. cbn [foldl].
  assert (same_lists d (detach_step e k d) /\ crtcs (detach_step e k d) = crtcs d /\ encoders (detach_step e k d) = encoders d /\
    forall j, connectors (detach_step e k d) !!! j =
      if bool_decide (j = k) && bool_decide (encoder (connectors d !!! j) = Some e) then with_encoder None (connectors d !!! j)
      else connectors d !!! j) as ((A1 & A2 & A3) & A4 & A5 & A6).
  { unfold detach_step. repeat split; try (by case_bool_decide). intros j.
    destruct (bool_decide_reflect (j = k)) as [->|Hne]; cbn [andb].
    - case_bool_decide; [by rewrite connector_eq|done].
    - case_bool_decide; [by rewrite connector_ne|done]. }
  destruct (IH (detach_step e k d)) as ((B1 & B2 & B3) & B4 & B5 & B6).
  repeat split; try congruence. intros j. rewrite B6, A6.
  destruct (bool_decide_reflect (j = k)) as [->|Hne]; cbn [andb].
  - rewrite (bool_decide_eq_true_2 (k ∈ k :: l)) by left. cbn [andb].
    destruct (bool_decide_reflect (encoder (connectors d !!! k) = Some e)) as [E|E].
    + cbn [encoder with_encoder]. rewrite (bool_decide_eq_false_2 (None = Some e)) by done. by rewrite andb_false_r.
    + rewrite (bool_decide_eq_false_2 _ E). by rewrite andb_false_r.
  - by rewrite (bool_decide_ext (j ∈ k :: l) (j ∈ l)) by set_solver.
Qed.

Lemma decouple_run c e d h : exists h', decouple c e (d, h) = (tt, (decouple_step c e d, h')).
Proof.
  unfold decouple, decouple_step. erewrite bind_step by reflexivity. cbn [fst].
  case_bool_decide; cbn [negb]; [|by exists h]. erewrite bind_step by reflexivity. cbn [fst].
  apply (for_run _ (detach_step e)). intros k d1 h1. exists h1. erewrite bind_step by reflexivity. cbn [fst].
  unfold detach_step. by case_bool_decide.
Qed.

Lemma decouple_fold c l : forall d, let d' := foldl (fun d e => decouple_step c e d) d l in
  same_lists d d' /\ crtcs d' = crtcs d /\ encoders d' = encoders d /\
  forall k, connectors d' !!! k = if bool_decide (k ∈ connector_list d) && routed c l k d
                                  then with_encoder None (connectors d !!! k) else connectors d !!! k.
Proof.
  induction l as [|e l IH]; intros d.
  { repeat split. intros k. unfold routed. destruct (encoder _); by rewrite ?andb_false_r. }
  cbn [foldl].
  assert (same_lists d (decouple_step c e d) /\ crtcs (decouple_step c e d) = crtcs d /\ encoders (decouple_step c e d) = encoders d /\
    forall k, connectors (decouple_step c e d) !!! k =
      if bool_decide (k ∈ connector_list d) && routed c [e] k d then with_encoder None (connectors d !!! k)
      else connectors d !!! k) as ((A1 & A2 & A3) & A4 & A5 & A6).
  { unfold decouple_step. destruct (bool_decide_reflect (enc_crtc (encoders d !!! e) = Some c)) as [E|E].
    - destruct (detach_fold e (connector_list d) d) as (C1 & C2 & C3 & C4). repeat split; try apply C1; try done.
      intros k. rewrite C4. unfold routed. destruct (encoder (connectors d !!! k)) as [e'|]; [|by rewrite ?andb_false_r].
      destruct (decide (e' = e)) as [->|Hne].
      + rewrite (bool_decide_eq_true_2 (e ∈ [e])) by set_solver.
        by rewrite (bool_decide_eq_true_2 _ E), (bool_decide_eq_true_2 (Some e = Some e)) by done.
      + rewrite (bool_decide_eq_false_2 (e' ∈ [e])) by set_solver. rewrite (bool_decide_eq_false_2 (Some e' = Some e)) by congruence. done.
    - repeat split. intros k. unfold routed. destruct (encoder (connectors d !!! k)) as [e'|]; [|by rewrite ?andb_false_r].
      destruct (decide (e' = e)) as [->|Hne].
      + by rewrite (bool_decide_eq_false_2 _ E), ?andb_false_r.
      + rewrite (bool_decide_eq_false_2 (e' ∈ [e])) by set_solver. by rewrite ?andb_false_r. }
  destruct (IH (decouple_step c e d)) as ((B1 & B2 & B3) & B4 & B5 & B6).
  repeat split; try congruence. intros k. rewrite B6, A6, A3. unfold routed. rewrite A6, A5. unfold routed.
  destruct (bool_decide (k ∈ connector_list d)); cbn [andb]; [|done].
  destruct (encoder (connectors d !!! k)) as [e'|] eqn:Ek; [|by rewrite Ek].
  destruct (decide (e' = e)) as [->|Hne].
  - rewrite (bool_decide_eq_true_2 (e ∈ [e])), (bool_decide_eq_true_2 (e ∈ e :: l)) by set_solver. cbn [andb].
    destruct (bool_decide_reflect (enc_crtc (encoders d !!! e) = Some c)) as [Ec|Ec]; cbn [encoder with_encoder]; [done|].
    rewrite Ek. by rewrite (bool_decide_eq_false_2 _ Ec), andb_false_r.
  - rewrite (bool_decide_eq_false_2 (e' ∈ [e])) by set_solver. cbn [andb]. rewrite Ek.
    by rewrite (bool_decide_ext (e' ∈ e :: l) (e' ∈ l)) by set_solver.
Qed.
End Mode.
