(* ===== verification/SetConfig.v ===== *)
(** * The set of a configuration: success and failure

    [drm_crtc_helper_set_config] either establishes the configuration it was given or
    puts the routing and the CRTC back; with no mode it turns the CRTC off and leaves
    the other pipelines alone. *)

From S2P Require Import Prelude Modes CrtcHelper CrtcHelperFacts.

Open Scope Z_scope.

Section SetConfig.
Context {hw : Type} `{Driver hw}.
Implicit Types (d : config) (h : hw) (c e k : Z) (set : drm_mode_set).

(** [drm_crtc_helper_disable] turns the CRTC off: no connector on it keeps its
    encoder, no encoder in use stays routed to it, it is not enabled and has no
    framebuffer.  The pipeline of a connector that is not disconnected and is on
    another CRTC is left as it was. *)
Theorem crtc_disable_spec c d h : c ∈ crtc_list d ->
  exists d' h', drm_crtc_helper_disable c (d, h) = (0, (d', h')) /\
    drm_helper_crtc_in_use c d' = false /\ enabled (crtcs d' !!! c) = false /\ fb (crtcs d' !!! c) = None /\
    (forall k, k ∈ connector_list d -> routed c (encoder_list d) k d = true -> encoder (connectors d' !!! k) = None) /\
    (forall k e c', k ∈ connector_list d -> con_status (connectors d !!! k) <> connector_status_disconnected ->
       encoder (connectors d !!! k) = Some e -> e ∈ encoder_list d -> enc_crtc (encoders d !!! e) = Some c' -> c' <> c ->
       connectors d' !!! k = connectors d !!! k /\ encoders d' !!! e = encoders d !!! e /\
       (c' ∈ crtc_list d -> crtcs d' !!! c' = with_enabled true (crtcs d !!! c'))).
Proof.
  intros Hc. unfold drm_crtc_helper_disable. erewrite bind_step by reflexivity. cbn [fst].
  destruct (for_run (decouple c) (decouple_step c) (encoder_list d) (decouple_run c) d h) as [h1 E1].
  erewrite bind_step by exact E1. destruct (decouple_fold c (encoder_list d) d) as ((A1 & A2 & A3) & A4 & A5 & A6).
  set (d1 := foldl _ d (encoder_list d)) in *. clearbody d1. clear E1.
  destruct (disable_unused_run d1 h1) as (d2 & h2 & E2 & (B1 & B2 & B3) & B4 & B5 & B6).
  erewrite bind_step by exact E2. exists d2, h2. split; [done|]. clear E2.
  assert (forall k, encoder (connectors d2 !!! k) <> None -> k ∈ connector_list d ->
    connectors d2 !!! k = connectors d !!! k /\ routed c (encoder_list d) k d = false) as Hk.
  { intros k Hn Hin. rewrite B4, A3, bool_decide_eq_true_2 in Hn |- * by done. rewrite A6, bool_decide_eq_true_2 in Hn |- * by done.
    cbn [andb] in *. destruct (routed c (encoder_list d) k d).
    { unfold dropped in Hn. cbn in Hn. by case_bool_decide. }
    split; [|done]. unfold dropped in *. by case_bool_decide. }
  assert (drm_helper_crtc_in_use c d2 = false) as Hu.
  { unfold drm_helper_crtc_in_use. apply not_true_iff_false. rewrite existsb_exists. intros (e & He & Hb).
    apply andb_prop in Hb as [Hb1 Hb2]. apply bool_decide_eq_true_1 in Hb1. unfold drm_helper_encoder_in_use in Hb2.
    rewrite existsb_exists in Hb2. destruct Hb2 as (k & Hkin & Hke). apply bool_decide_eq_true_1 in Hke.
    rewrite <-list_elem_of_In in He, Hkin. rewrite B3, A3 in Hkin. rewrite B2, A2 in He.
    destruct (Hk k) as [Ek Er]; [congruence|done|]. rewrite Ek in Hke. unfold routed in Er. rewrite Hke in Er.
    rewrite (bool_decide_eq_true_2 (e ∈ encoder_list d)) in Er by done. cbn [andb] in Er. apply bool_decide_eq_false_1 in Er.
    apply Er. rewrite B5, A5 in Hb1. destruct (_ && _); [done|exact Hb1]. }
  split; [done|]. specialize (B6 c) as Bc. rewrite A1, bool_decide_eq_true_2, Hu in Bc by done. cbn in Bc.
  split; [by rewrite Bc|]. split; [by rewrite Bc|]. split.
  - intros k Hin Hr. destruct (encoder (connectors d2 !!! k)) eqn:E; [|done].
    destruct (Hk k) as [_ Hr']; congruence.
  - intros k e c' Hin Hst Hke He Hc' Hne.
    assert (connectors d2 !!! k = connectors d !!! k) as Ek.
    { rewrite B4, A3, bool_decide_eq_true_2 by done. rewrite A6. unfold routed. rewrite Hke, Hc'.
      rewrite (bool_decide_eq_false_2 (Some c' = Some c)) by congruence. rewrite !andb_false_r.
      unfold dropped. by rewrite bool_decide_eq_false_2. }
    assert (drm_helper_encoder_in_use e d2 = true) as Ue.
    { unfold drm_helper_encoder_in_use. rewrite existsb_exists. exists k. rewrite <-list_elem_of_In, B3, A3. split; [done|].
      apply bool_decide_eq_true_2. by rewrite Ek. }
    assert (encoders d2 !!! e = encoders d !!! e) as Ee by (by rewrite B5, Ue, andb_false_r, A5).
    split; [done|]. split; [done|]. intros Hcl. rewrite B6, A1, bool_decide_eq_true_2, A4 by done.
    assert (drm_helper_crtc_in_use c' d2 = true) as ->; [|done].
    unfold drm_helper_crtc_in_use. rewrite existsb_exists. exists e. rewrite <-list_elem_of_In, B2, A2. split; [done|].
    rewrite Ue, Ee, Hc', bool_decide_eq_true_2 by done. done.
Qed.

(** ** The parts of the attempt *)

(** The encoders the connectors have are on the list of encoders. *)
Definition pointers_ok d : Prop :=
  forall k e, k ∈ connector_list d -> encoder (connectors d !!! k) = Some e -> e ∈ encoder_list d.

Hypothesis best_ok : forall k d h e, (best_encoder k d h).1 = Some e -> e ∈ encoder_list d.

(** What the choice of encoders and CRTCs may change. *)
Definition reroutes d d' : Prop :=
  same_lists d d' /\ crtcs d' = crtcs d /\
  (forall k, k ∉ connector_list d -> connectors d' !!! k = connectors d !!! k) /\
  (forall e, e ∉ encoder_list d -> encoders d' !!! e = encoders d !!! e) /\
  (forall k, with_encoder None (connectors d' !!! k) = with_encoder None (connectors d !!! k)) /\
  (pointers_ok d -> pointers_ok d').

Lemma reroutes_refl d : reroutes d d.
Proof. by repeat split. Qed.

Lemma reroutes_trans d1 d2 d3 : reroutes d1 d2 -> reroutes d2 d3 -> reroutes d1 d3.
Proof.
  intros ((A1 & A2 & A3) & A4 & A5 & A6 & A7 & A8) ((B1 & B2 & B3) & B4 & B5 & B6 & B7 & B8).
  unfold reroutes, same_lists. split; [split_and!; congruence|]. split; [congruence|]. split_and!; [| | |by auto].
  - intros k Hk. rewrite B5, A5 by congruence. done.
  - intros e He. rewrite B6, A6 by congruence. done.
  - intros k. by rewrite B7, A7.
Qed.

Lemma reroutes_encoder e i d : e ∈ encoder_list d -> reroutes d (upd_encoder e (with_crtc i) d).
Proof. intros He. repeat split; [|done]. intros j Hj. apply encoder_ne. set_solver. Qed.

Lemma reroutes_connector k o d : k ∈ connector_list d -> (forall e, o = Some e -> e ∈ encoder_list d) ->
  reroutes d (upd_connector k (with_encoder o) d).
Proof.
  intros Hk Ho. unfold reroutes, same_lists. split_and!; try done.
  - intros j Hj. apply connector_ne. set_solver.
  - intros j. destruct (decide (j = k)) as [->|Hn]; [by rewrite connector_eq|by rewrite connector_ne].
  - intros Hp j e Hj. destruct (decide (j = k)) as [->|Hn]; [rewrite connector_eq; apply Ho|rewrite connector_ne by done; by apply Hp].
Qed.

(** a) the choice of encoders. *)
Definition picked set (l : list Z) d d' : Prop :=
  forall k, (k ∉ l \/ k ∉ set_connectors set -> encoder (connectors d' !!! k) = encoder (connectors d !!! k)) /\
    (k ∈ l -> k ∈ set_connectors set -> encoder (connectors d' !!! k) <> None).

Lemma pick_encoders_run set l : forall mc fl d h, (forall k, k ∈ l -> k ∈ connector_list d) -> pointers_ok d ->
  exists mc' fl' d' h', pick_encoders set l mc fl (d, h) = ((mc', fl'), (d', h')) /\ reroutes d d' /\
    (mc' = false -> mc = false /\ d' = d) /\ (fl' = false -> fl = false /\ picked set l d d').
Proof.
  induction l as [|k l IH]; intros mc fl d h Hl Hp.
  { exists mc, fl, d, h. split; [done|]. split; [apply reroutes_refl|]. split; [done|]. intros Hf. split; [done|]. intros k.
    split; [done|set_solver]. }
  cbn [pick_encoders]. erewrite bind_step by reflexivity. cbn [fst].
  set (old := encoder (connectors d !!! k)).
  assert (exists new h1, (if bool_decide (k ∈ set_connectors set) then call_ret (best_encoder k) else mret old) (d, h) = (new, (d, h1)) /\
    (forall e, new = Some e -> e ∈ encoder_list d) /\ (k ∉ set_connectors set -> new = old)) as (new & h1 & E & Hnew & Hold).
  { case_bool_decide as S.
    - pose proof (best_ok k d h) as Hb. unfold call_ret. cbn [fst snd]. destruct (best_encoder k d h) as [o h1].
      exists o, h1. split; [done|]. split; [exact Hb|done].
    - exists old, h. split; [done|]. split; [|done]. intros e He. apply (Hp k); [apply Hl; left|done]. }
  erewrite bind_step by exact E. clear E.
  set (fl1 := fl || bool_decide (k ∈ set_connectors set) && bool_decide (new = None)).
  assert (fl1 = false -> fl = false /\ (k ∈ set_connectors set -> new <> None)) as Hfl.
  { unfold fl1. intros Hf. apply orb_false_elim in Hf as [? Hf]. split; [done|]. intros Hs Hn.
    rewrite !bool_decide_eq_true_2 in Hf by done. done. }
  case_bool_decide as Eo.
  - destruct (IH mc fl1 d h1) as (mc' & fl' & d' & h' & E & R & Hmc & Hf); [intros; apply Hl; by right|done|].
    exists mc', fl', d', h'. split; [done|]. split; [done|]. split; [done|]. intros Hf'. destruct (Hf Hf') as [Hf1 Hpk].
    destruct (Hfl Hf1) as [? Hne]. split; [done|]. intros j. destruct (Hpk j) as [P1 P2]. split.
    { intros [?|?]; apply P1; [left; set_solver|by right]. }
    intros Hj Hs. destruct (decide (j ∈ l)) as [?|Hnl]; [by apply P2|]. assert (j = k) as -> by set_solver.
    rewrite P1 by (by left). fold old. rewrite <-Eo. by apply Hne.
  - assert (exists d1, (match old with Some e => put (upd_encoder e (with_crtc None)) | None => mret tt end) (d, h1) = (tt, (d1, h1)) /\
      reroutes d d1 /\ connectors d1 = connectors d) as (d1 & E & R1 & C1).
    { destruct old as [e|] eqn:Eold; [|exists d; split; [done|split; [apply reroutes_refl|done]]].
      eexists. split; [reflexivity|]. split; [|done]. apply reroutes_encoder. apply (Hp k); [apply Hl; left|done]. }
    erewrite bind_step by exact E. clear E. erewrite bind_step by reflexivity. cbn [fst snd].
    set (d2 := upd_connector k (with_encoder new) d1).
    assert (reroutes d d2) as R2.
    { apply (reroutes_trans d d1 d2 R1). destruct R1 as ((L1 & L2 & L3) & _).
      apply reroutes_connector; [rewrite L3; apply Hl; left|]. intros e He. rewrite L2. by apply Hnew. }
    destruct (IH true fl1 d2 h1) as (mc' & fl' & d' & h' & E & R & Hmc & Hf).
    { intros j Hj. destruct R2 as ((_ & _ & ->) & _). apply Hl. by right. }
    { by apply R2. }
    exists mc', fl', d', h'. split; [done|]. split; [by apply (reroutes_trans d d2 d')|]. split; [intros Hm; by destruct (Hmc Hm)|].
    intros Hf'. destruct (Hf Hf') as [Hf1 Hpk]. destruct (Hfl Hf1) as [? Hne]. split; [done|].
    assert (encoder (connectors d2 !!! k) = new) as E2 by (unfold d2; by rewrite connector_eq).
    assert (forall j, j <> k -> connectors d2 !!! j = connectors d !!! j) as N2.
    { intros j Hj. unfold d2. rewrite connector_ne by done. by rewrite C1. }
    intros j. destruct (Hpk j) as [P1 P2]. destruct (decide (j = k)) as [->|Hjk].
    + split; [intros [?|?]; [set_solver|by rewrite Hold in Eo]|]. intros _ Hs.
      destruct (decide (k ∈ l)); [by apply P2|]. rewrite P1 by (by left). rewrite E2. by apply Hne.
    + rewrite <-N2 by done. split; [intros [?|?]; apply P1; [left; set_solver|by right]|]. intros Hj. apply P2. set_solver.
Qed.

(** b) the choice of CRTCs: an encoder that only connectors of the set have is routed
    to the CRTC of the set. *)
Definition exclusive set d (l : list Z) e : Prop :=
  forall k, k ∈ l -> k ∉ set_connectors set -> encoder (connectors d !!! k) <> Some e.

Lemma pick_crtcs_run set l : forall mc d h, (forall k, k ∈ l -> k ∈ connector_list d) -> pointers_ok d ->
  exists ok mc' d', pick_crtcs set l mc (d, h) = ((ok, mc'), (d', h)) /\ reroutes d d' /\ connectors d' = connectors d /\
  (mc' = false -> mc = false /\ d' = d) /\
  (ok = true -> forall e, exclusive set d l e ->
     enc_crtc (encoders d !!! e) = Some (set_crtc set) \/ (exists k, k ∈ l /\ encoder (connectors d !!! k) = Some e) ->
     enc_crtc (encoders d' !!! e) = Some (set_crtc set)).
Proof.
  induction l as [|k l IH]; intros mc d h Hl Hp.
  { exists true, mc, d. split; [done|]. split; [apply reroutes_refl|]. split; [done|]. split; [done|].
    intros _ e _ [?|(k & Hk & _)]; [done|set_solver]. }
  cbn [pick_crtcs]. erewrite bind_step by reflexivity. cbn [fst].
  destruct (encoder (connectors d !!! k)) as [e|] eqn:Ek.
  2: { destruct (IH mc d h) as (ok & mc' & d' & E & R & C & Hmc & Hr); [intros; apply Hl; by right|done|].
    exists ok, mc', d'. split; [done|]. split; [done|]. split; [done|]. split; [done|]. intros Hok e Hx Hin. apply (Hr Hok).
    - intros j Hj. apply Hx. by right.
    - destruct Hin as [?|(j & Hj & He)]; [by left|right]. exists j. split; [|done]. apply elem_of_cons in Hj as [->|?]; congruence. }
  erewrite bind_step by reflexivity. cbn [fst]. set (old := enc_crtc (encoders d !!! e)).
  set (new := if bool_decide (k ∈ set_connectors set) then _ else _).
  erewrite bind_step by reflexivity. cbn [fst].
  destruct (match new with Some c => drm_encoder_crtc_ok e c d | None => true end); cbn [negb].
  2: { exists false, mc, d. split; [done|]. split; [apply reroutes_refl|]. by split. }
  set (d1 := if bool_decide (new = old) then d else upd_encoder e (with_crtc new) d).
  assert (connectors d1 = connectors d) as C1 by (unfold d1; by case_bool_decide).
  assert (forall i, enc_crtc (encoders d1 !!! i) = if bool_decide (i = e) then new else enc_crtc (encoders d !!! i)) as N1.
  { intros i. unfold d1. case_bool_decide as Eo; case_bool_decide as Ei; subst; rewrite ?encoder_eq, ?encoder_ne; done. }
  assert (reroutes d d1) as R1.
  { unfold d1. case_bool_decide; [apply reroutes_refl|]. apply reroutes_encoder. apply (Hp k); [apply Hl; left|done]. }
  destruct (IH (mc || negb (bool_decide (new = old))) d1 h) as (ok & mc' & d' & E & R & C & Hmc & Hr).
  { intros j Hj. destruct R1 as ((_ & _ & ->) & _). apply Hl. by right. }
  { by apply R1. }
  exists ok, mc', d'. split.
  { rewrite <-E. unfold d1. case_bool_decide; cbn [negb]; [by rewrite orb_false_r|]. by rewrite orb_true_r. }
  split; [by apply (reroutes_trans d d1 d')|]. split; [congruence|]. split.
  { intros Hm. destruct (Hmc Hm) as [Hm1 ->]. apply orb_false_elim in Hm1 as [-> Hm1]. apply negb_false_iff in Hm1.
    split; [done|]. unfold d1. by rewrite Hm1. }
  intros Hok e' Hx Hin. apply (Hr Hok).
  { intros j Hj Hs. rewrite C1. apply Hx; [by right|done]. }
  destruct (decide (e' = e)) as [->|Hne].
  - left. rewrite N1, bool_decide_eq_true_2 by done. unfold new. destruct (bool_decide_reflect (k ∈ set_connectors set)) as [?|Hs]; [done|].
    exfalso. apply (Hx k); [left|done|done].
  - destruct Hin as [Hin|(j & Hj & He)].
    + left. by rewrite N1, bool_decide_eq_false_2.
    + right. exists j. rewrite C1. split; [|done]. apply elem_of_cons in Hj as [->|?]; congruence.
Qed.

(** ** The way back *)

Lemma store_list_spec {A} `{Inhabited A} (m m' : gmap Z A) l i :
  store_list l (map (fun i => m !!! i) l) m' !!! i = if bool_decide (i ∈ l) then m !!! i else m' !!! i.
Proof.
  unfold store_list. revert m'. induction l as [|j l IH]; intros m'; [done|]. cbn [map zip_with foldl zip]. cbn [fst snd]. rewrite IH.
  destruct (decide (i = j)) as [->|Hne].
  - rewrite (bool_decide_eq_true_2 (j ∈ j :: l)) by left. rewrite lookup_total_insert_eq. by case_bool_decide.
  - rewrite (bool_decide_ext (i ∈ j :: l) (i ∈ l)) by set_solver. by rewrite lookup_total_insert_ne.
Qed.

(** Two configurations with the same objects on the same lists. *)
Definition same_config d d' : Prop :=
  same_lists d d' /\ (forall c, crtcs d' !!! c = crtcs d !!! c) /\ (forall e, encoders d' !!! e = encoders d !!! e) /\
  (forall k, connectors d' !!! k = connectors d !!! k).

Lemma restore_spec d d1 : same_lists d d1 -> (forall c, c ∉ crtc_list d -> crtcs d1 !!! c = crtcs d !!! c) ->
  (forall e, e ∉ encoder_list d -> encoders d1 !!! e = encoders d !!! e) ->
  (forall k, k ∉ connector_list d -> connectors d1 !!! k = connectors d !!! k) ->
  same_config d (restore_config (save_config d) d1).
Proof.
  intros (L1 & L2 & L3) Hc He Hk. unfold restore_config, save_config, same_config, same_lists. cbn.
  rewrite L1, L2, L3. split; [done|]. split_and!; intros i; rewrite store_list_spec; case_bool_decide; auto.
Qed.

(** ** The attempt *)

(** The callback of the connectors changes DPMS levels at most. *)
Definition dpms_rel d d' : Prop :=
  same_lists d d' /\ crtcs d' = crtcs d /\ encoders d' = encoders d /\
  forall k, with_dpms 0 (connectors d' !!! k) = with_dpms 0 (connectors d !!! k).

#[export] Instance dpms_pre : PreOrder dpms_rel.
Proof.
  split; [by intros d|]. intros d1 d2 d3 ((A1 & A2 & A3) & A4 & A5 & A6) ((B1 & B2 & B3) & B4 & B5 & B6).
  unfold dpms_rel, same_lists. split; [split_and!; congruence|]. split; [congruence|]. split; [congruence|]. intros k. by rewrite B6, A6.
Qed.

Context (connector_dpms : Z -> Z -> P hw unit).
Hypothesis dpms_ok : forall k m, frames dpms_rel (connector_dpms k m).

(** The CRTC shows what the set asks for. *)
Definition shows set (m : drm_display_mode) (r : drm_crtc) : Prop :=
  option_map fb_addr (fb r) = option_map fb_addr (set_fb set) /\
  u32 (x r) = u32 (set_x set) /\ u32 (y r) = u32 (set_y set) /\
  (mode r = m \/ drm_mode_equal m (mode r) = true).

Lemma u32_s32 z : u32 (s32 z) = u32 z.
Proof. unfold u32, s32. rewrite Zminus_mod_idemp_l. f_equal. lia. Qed.

Lemma in_use_unused c d d' : unused_disabled d d' -> drm_helper_crtc_in_use c d' = true -> drm_helper_crtc_in_use c d = true.
Proof.
  intros ((L1 & L2 & L3) & Hk & He & _) Hu. unfold drm_helper_crtc_in_use in *. rewrite existsb_exists in Hu |- *.
  destruct Hu as (e & Hin & Hb). exists e. rewrite L2 in Hin. split; [done|]. apply andb_prop in Hb as [Hb1 Hb2].
  apply bool_decide_eq_true_1 in Hb1. unfold drm_helper_encoder_in_use in *. rewrite existsb_exists in Hb2.
  destruct Hb2 as (k & Hkin & Hb2). rewrite L3 in Hkin. apply bool_decide_eq_true_1 in Hb2. apply andb_true_intro. split.
  - apply bool_decide_eq_true_2. rewrite <-Hb1, He. destruct (_ && _) eqn:B; [|done]. exfalso.
    rewrite He, B in Hb1. done.
  - rewrite existsb_exists. exists k. split; [done|]. apply bool_decide_eq_true_2. rewrite <-Hb2, Hk.
    case_bool_decide; [|done]. unfold dropped. case_bool_decide as D; [|done]. exfalso. rewrite Hk in Hb2.
    rewrite bool_decide_eq_true_2 in Hb2 by done. unfold dropped in Hb2. by rewrite bool_decide_eq_true_2 in Hb2.
Qed.

(** Disabling what is unused leaves a CRTC in use as it was. *)
Lemma shows_unused set m d d' : unused_disabled d d' -> shows set m (crtcs d !!! set_crtc set) ->
  drm_helper_crtc_in_use (set_crtc set) d' = true -> shows set m (crtcs d' !!! set_crtc set).
Proof. intros (_ & _ & _ & Hc) Hs Hu. rewrite Hc, Hu. by case_bool_decide. Qed.

(** The encoder of a connector that is not disconnected stays where it is. *)
Lemma route_unused d d' k e : unused_disabled d d' -> k ∈ connector_list d ->
  con_status (connectors d !!! k) <> connector_status_disconnected -> encoder (connectors d !!! k) = Some e ->
  encoder (connectors d' !!! k) = Some e /\ encoders d' !!! e = encoders d !!! e.
Proof.
  intros ((L1 & L2 & L3) & Hk & He & _) Hin Hs Hke.
  assert (connectors d' !!! k = connectors d !!! k) as Ek.
  { rewrite Hk, bool_decide_eq_true_2 by done. unfold dropped. by rewrite bool_decide_eq_false_2. }
  split; [by rewrite Ek|]. rewrite He. assert (drm_helper_encoder_in_use e d' = true) as ->; [|by rewrite andb_false_r].
  unfold drm_helper_encoder_in_use. rewrite existsb_exists. exists k. rewrite <-list_elem_of_In, L3. split; [done|].
  apply bool_decide_eq_true_2. by rewrite Ek.
Qed.

(** What a successful attempt leaves, from the configuration it is given. *)
Definition applied set m d d' : Prop :=
  (exists d1, unused_disabled d1 d' /\ same_lists d d1 /\ encoders d1 = encoders d /\
     (forall k, with_dpms 0 (connectors d1 !!! k) = with_dpms 0 (connectors d !!! k)) /\
     (drm_helper_crtc_in_use (set_crtc set) d = true -> shows set m (crtcs d1 !!! set_crtc set))) \/
  (same_lists d d' /\ encoders d' = encoders d /\ connectors d' = connectors d /\ shows set m (crtcs d' !!! set_crtc set)).

Lemma apply_set_run set m mc fc d h : (mc = false -> fc = false -> shows set m (crtcs d !!! set_crtc set)) ->
  (mc = false -> shows set m (with_fb (set_fb set) (with_xy (s32 (set_x set)) (s32 (set_y set)) (crtcs d !!! set_crtc set)))) ->
  exists r b d' h', apply_set connector_dpms set m mc fc (d, h) = ((r, b), (d', h')) /\
    (r <> 0 -> only_crtc (set_crtc set) d d') /\ (r = 0 -> applied set m d d').
Proof.
  intros Hsame Hflip. unfold apply_set. set (c := set_crtc set) in *.
  destruct (mc || fc && negb (crtc_has_mode_set_base c)) eqn:Emc.
  - erewrite bind_step by reflexivity. cbn [fst]. erewrite bind_step by reflexivity. cbn [fst snd].
    set (used := drm_helper_crtc_in_use c d). set (d1 := upd_crtc c (with_enabled used) d).
    assert (only_crtc c d d1) as O1 by apply only_crtc_upd.
    destruct used eqn:U.
    2: { erewrite bind_step by reflexivity. cbn [negb]. destruct (disable_unused_run d1 h) as (d2 & h2 & E & Hd).
      erewrite bind_step by exact E. eexists 0, true, d2, h2. split; [reflexivity|]. split; [done|]. intros _. left.
      exists d1. split; [done|]. unfold used in U. subst c. split_and!; try done. by rewrite U. }
    set (d2 := upd_crtc c (with_fb (set_fb set)) d1).
    assert (only_crtc c d d2) as O2 by (etrans; [exact O1|apply only_crtc_upd]).
    assert (fb (crtcs d2 !!! c) = set_fb set) as F2 by (unfold d2; by rewrite crtc_eq).
    destruct (set_mode_run c m (s32 (set_x set)) (s32 (set_y set)) (fb (crtcs d1 !!! c)) d2 h) as (ok & d3 & h3 & E3 & O3 & _ & Hok).
    rewrite (crtc_in_use_only c c d d2 O2) in Hok. fold used in Hok. rewrite U, andb_true_r in Hok.
    assert (only_crtc c d d3) as O13 by (etrans; [exact O2|exact O3]).
    destruct ok.
    + assert (shows set m (crtcs d3 !!! c)) as S3.
      { destruct Hok as (M1 & M2 & M3 & M4 & _). unfold shows. rewrite M1, M2, M3, M4, F2, !u32_s32. auto. }
      pose proof (frames_for dpms_rel (set_connectors set) (fun k => connector_dpms k DRM_MODE_DPMS_ON)
        ltac:(intros; apply dpms_ok) (d3, h3)) as Hd.
      destruct (for_ (set_connectors set) (fun k => connector_dpms k DRM_MODE_DPMS_ON) (d3, h3)) as [[] [d4 h4]] eqn:E4.
      destruct Hd as ((L1 & L2 & L3) & D2 & D3 & D4). cbn [fst snd] in *.
      destruct (disable_unused_run d4 h4) as (d5 & h5 & E5 & Hd5).
      eexists 0, true, d5, h5. split.
      { erewrite bind_step.
        2: { erewrite bind_step by reflexivity. cbn [fst]. erewrite bind_step by reflexivity. cbn [fst snd]. fold d2.
             erewrite bind_step by exact E3. cbn [negb]. erewrite bind_step by exact E4. reflexivity. }
        cbn [negb]. erewrite bind_step by exact E5. reflexivity. }
      split; [done|]. intros _. left. exists d4. split; [done|].
      destruct O13 as (A1 & A2 & A3 & A4 & A5 & _). split; [split_and!; congruence|]. split; [congruence|].
      split; [intros k; by rewrite D4, A5|]. intros _. fold c. by rewrite D2.
    + eexists (- EINVAL), true, _, h3. split.
      { erewrite bind_step.
        2: { erewrite bind_step by reflexivity. cbn [fst]. erewrite bind_step by reflexivity. cbn [fst snd]. fold d2.
             erewrite bind_step by exact E3. cbn [negb]. erewrite bind_step by reflexivity. reflexivity. }
        reflexivity. }
      split; [|done]. intros _. etrans; [exact O13|apply only_crtc_upd].
  - apply orb_false_elim in Emc as [-> Emc]. destruct fc.
    + erewrite bind_step by reflexivity. cbn [fst snd]. erewrite bind_step by reflexivity. cbn [fst].
      erewrite bind_step by reflexivity. cbn [fst snd].
      set (d1 := upd_crtc c (with_fb (set_fb set)) _).
      assert (only_crtc c d d1) as O1 by (etrans; apply only_crtc_upd).
      assert (shows set m (crtcs d1 !!! c)) as S1 by (unfold d1; rewrite !crtc_eq; by apply Hflip).
      same_step ret h1; [frames_tac|]. destruct (Z.eqb_spec ret 0) as [->|Hr]; cbn [negb].
      * eexists 0, false, d1, h1. split; [reflexivity|]. split; [done|]. intros _. right. by split_and!.
      * erewrite bind_step by reflexivity. eexists ret, false, _, h1. split; [reflexivity|]. split; [|done].
        intros _. etrans; [exact O1|apply only_crtc_upd].
    + eexists 0, false, d, h. split; [reflexivity|]. split; [done|]. intros _. right. split_and!; try done. by apply Hsame.
Qed.

Lemma what_changes_shows set m r mc fc : what_changes set r = (mc, fc) -> set_mode set = Some m -> mc = false ->
  (fc = false -> shows set m r) /\
  shows set m (with_fb (set_fb set) (with_xy (s32 (set_x set)) (s32 (set_y set)) r)).
Proof.
  unfold what_changes. intros E Em ->. rewrite Em in E.
  set (p := if bool_decide _ then _ else _) in E.
  assert (p.2 = false -> p.1 = false -> option_map fb_addr (fb r) = option_map fb_addr (set_fb set)) as Hp.
  { unfold p. case_bool_decide; [done|]. destruct (fb r), (set_fb set); try done. by destruct (negb _). }
  destruct p as [p1 p2]. injection E as E1 E2. apply orb_false_elim in E1 as [E1 Em']. apply negb_false_iff in Em'.
  split; [|unfold shows; cbn; rewrite !u32_s32; auto].
  intros Hf. rewrite Hf in E2. apply orb_false_elim in E2 as [E2 Ey]. apply orb_false_elim in E2 as [E2 Ex].
  apply negb_false_iff in Ex, Ey. apply Z.eqb_eq in Ex, Ey. cbn in Hp.
  unfold shows. rewrite Ex, Ey, Hp by done. unfold u32. rewrite !Zmod_mod. auto.
Qed.

(** The connectors of the set that are not disconnected get their encoders, those not
    in the set keep theirs, and an encoder only the set has is routed to the CRTC. *)
Definition established set (m : drm_display_mode) d d' : Prop :=
  (drm_helper_crtc_in_use (set_crtc set) d' = true -> shows set m (crtcs d' !!! set_crtc set)) /\
  forall k, k ∈ connector_list d -> con_status (connectors d !!! k) <> connector_status_disconnected ->
    (k ∉ set_connectors set -> encoder (connectors d' !!! k) = encoder (connectors d !!! k)) /\
    (k ∈ set_connectors set -> exists e, encoder (connectors d' !!! k) = Some e /\
       (exclusive set d (connector_list d) e -> enc_crtc (encoders d' !!! e) = Some (set_crtc set))).

Definition put_back set d d' : Prop :=
  same_lists d d' /\ (forall e, encoders d' !!! e = encoders d !!! e) /\ (forall k, connectors d' !!! k = connectors d !!! k) /\
  (forall c, c <> set_crtc set -> crtcs d' !!! c = crtcs d !!! c) /\
  let old := crtcs d !!! set_crtc set in let new := crtcs d' !!! set_crtc set in
  fb new = fb old /\ mode new = mode old /\ x new = x old /\ y new = y old.

Lemma with_encoder_inj r1 r2 : with_encoder None r1 = with_encoder None r2 ->
  con_status r1 = con_status r2 /\ (encoder r1 = encoder r2 -> r1 = r2).
Proof. destruct r1, r2. cbn. intros E. injection E as -> -> ->. split; [done|]. by intros ->. Qed.

Lemma with_dpms_inj r1 r2 : with_dpms 0 r1 = with_dpms 0 r2 -> con_status r1 = con_status r2 /\ encoder r1 = encoder r2.
Proof. destruct r1, r2. cbn. intros E. by injection E as -> -> ->. Qed.

(** From the routes after the choices to the routes at the end. *)
Lemma established_end set m d d1 d' : reroutes d d1 -> picked set (connector_list d) d d1 ->
  (forall e, exclusive set d (connector_list d) e -> (exists k, k ∈ connector_list d /\ encoder (connectors d1 !!! k) = Some e) ->
     enc_crtc (encoders d1 !!! e) = Some (set_crtc set)) ->
  applied set m d1 d' -> established set m d d'.
Proof.
  intros ((L1 & L2 & L3) & _ & _ & _ & Hst & _) Hp Hx Ha. split.
  { destruct Ha as [(d2 & Hu & (M1 & M2 & M3) & He & Hk & Hs)|(_ & _ & _ & Hs)]; [|done].
    intros Huse. apply (shows_unused set m d2 d' Hu); [|done]. apply Hs.
    rewrite <-(crtc_in_use_ext _ d1 d2); [by apply (in_use_unused _ d2 d')|done|by rewrite He|].
    intros e. apply encoder_in_use_only; [done|]. intros k. by destruct (with_dpms_inj _ _ (Hk k)). }
  intros k Hin Hs. destruct (Hp k) as [P1 P2]. destruct (with_encoder_inj _ _ (Hst k)) as [S1 _].
  assert (forall e, encoder (connectors d1 !!! k) = Some e ->
    encoder (connectors d' !!! k) = Some e /\ encoders d' !!! e = encoders d1 !!! e) as Hkeep.
  { intros e Hke. destruct Ha as [(d2 & Hu & (M1 & M2 & M3) & He & Hk & _)|(_ & -> & -> & _)]; [|done].
    destruct (with_dpms_inj _ _ (Hk k)) as [K1 K2]. rewrite <-He. apply (route_unused d2 d' k e Hu); congruence. }
  split.
  - intros Hns. rewrite <-P1 by (by right). destruct (encoder (connectors d1 !!! k)) as [e|] eqn:E; [by apply Hkeep|].
    destruct Ha as [(d2 & Hu & (M1 & M2 & M3) & He & Hk & _)|(_ & _ & -> & _)]; [|done].
    destruct (with_dpms_inj _ _ (Hk k)) as [K1 K2]. destruct Hu as (_ & Hu & _). rewrite Hu.
    case_bool_decide; [|congruence]. unfold dropped. case_bool_decide; [done|congruence].
  - intros Hins. destruct (encoder (connectors d1 !!! k)) as [e|] eqn:E; [|by destruct (P2 Hin Hins)].
    destruct (Hkeep e eq_refl) as [K1 K2]. exists e. split; [done|]. intros Hex. rewrite K2. apply Hx; [done|]. by exists k.
Qed.

Definition within set d d' : Prop :=
  same_lists d d' /\ (forall c, c <> set_crtc set -> crtcs d' !!! c = crtcs d !!! c) /\
  (forall e, e ∉ encoder_list d -> encoders d' !!! e = encoders d !!! e) /\
  (forall k, k ∉ connector_list d -> connectors d' !!! k = connectors d !!! k).

Lemma try_set_run set m d h : set_mode set = Some m -> pointers_ok d ->
  exists r b d' h', try_set connector_dpms set m (d, h) = ((r, b), (d', h')) /\
    (r <> 0 -> within set d d') /\ (r = 0 -> established set m d d').
Proof.
  intros Hm Hp. unfold try_set. erewrite bind_step by reflexivity. cbn [fst].
  destruct (what_changes set (crtcs d !!! set_crtc set)) as [mc fc] eqn:W.
  pose proof (what_changes_shows set m _ mc fc W Hm) as Hw. clear W.
  erewrite bind_step by reflexivity. cbn [fst].
  destruct (pick_encoders_run set (connector_list d) mc false d h) as (mc1 & fl & d1 & h1 & E1 & R1 & M1 & F1); [done|done|].
  erewrite bind_step by exact E1. cbn [fst snd]. clear E1.
  assert (forall d2, reroutes d d2 -> within set d d2) as Hin.
  { intros d2 (A1 & A2 & A3 & A4 & _). split; [done|]. split; [by rewrite A2|]. by split. }
  destruct fl; [eexists (- EINVAL), mc1, d1, h1; split; [reflexivity|]; split; [intros _; by apply Hin|done]|].
  destruct (F1 eq_refl) as [_ Hpk].
  destruct (pick_crtcs_run set (connector_list d) mc1 d1 h1) as (ok & mc2 & d2 & E2 & R2 & C2 & M2 & X2).
  { intros k Hk. by destruct R1 as ((_ & _ & ->) & _). }
  { by apply R1. }
  erewrite bind_step by exact E2. cbn [fst snd]. clear E2.
  assert (reroutes d d2) as R by by apply (reroutes_trans d d1 d2).
  destruct ok; cbn [negb]; [|eexists (- EINVAL), mc2, d2, h1; split; [reflexivity|]; split; [intros _; by apply Hin|done]].
  assert (crtcs d2 = crtcs d) as Ec by apply R.
  destruct (apply_set_run set m mc2 fc d2 h1) as (r & b & d3 & h3 & E3 & O3 & A3).
  { intros Hmc Hfc. rewrite Ec. destruct (M2 Hmc) as [Hmc1 _]. destruct (M1 Hmc1) as [Hmc0 _]. by apply Hw. }
  { intros Hmc. rewrite Ec. destruct (M2 Hmc) as [Hmc1 _]. destruct (M1 Hmc1) as [Hmc0 _]. by apply Hw. }
  exists r, b, d3, h3. split; [done|]. split.
  - intros Hr. destruct (O3 Hr) as (B1 & B2 & B3 & B4 & B5 & B6). destruct (Hin d2 R) as ((I1 & I2 & I3) & I4 & I5 & I6).
    split; [split_and!; congruence|]. split; [intros c Hc; by rewrite B6, I4|]. rewrite B4, B5. by split.
  - intros Hr. apply (established_end set m d d2 d3 R); [| |by apply A3].
    + intros k. rewrite C2. apply Hpk.
    + intros e Hex Hk. apply X2; [done| |right; by rewrite <-C2].
      intros j Hj Hs. destruct (Hpk j) as [-> _]; [by apply Hex|by right].
Qed.

Lemma set_config_run set m d h : set_mode set = Some m -> pointers_ok d -> set_crtc set ∈ crtc_list d ->
  exists r d' h', set_config connector_dpms set m (d, h) = (r, (d', h')) /\
    (r <> 0 -> put_back set d d') /\ (r = 0 -> established set m d d').
Proof.
  intros Hm Hp Hc. unfold set_config. set (c := set_crtc set) in *.
  assert (forall r, - r <> 0 -> (- r <> 0 -> put_back set d d) /\ (- r = 0 -> established set m d d)) as H0.
  { intros r Hr. split; [|done]. intros _. repeat split. }
  same_step ok1 h1; [frames_tac|]. destruct ok1; [|eexists _, d, h1; split; [reflexivity|by apply H0]]. cbn [negb].
  same_step ok2 h2; [frames_tac|]. destruct ok2; [|eexists _, d, h2; split; [reflexivity|by apply H0]]. cbn [negb].
  same_step ok3 h3; [frames_tac|]. destruct ok3; [|eexists _, d, h3; split; [reflexivity|by apply H0]]. cbn [negb].
  erewrite bind_step by reflexivity. cbn [fst]. erewrite bind_step by reflexivity. cbn [fst].
  destruct (try_set_run set m d h3 Hm Hp) as (r & b & d1 & h4 & E & Hf & Hs). erewrite bind_step by exact E. cbn [fst snd]. clear E.
  destruct (Z.eqb_spec r 0) as [->|Hr].
  { exists 0, d1, h4. split; [reflexivity|]. split; [done|]. by intros _; apply Hs. }
  erewrite bind_step by reflexivity. cbn [fst snd].
  destruct (Hf Hr) as (W1 & W2 & W3 & W4).
  assert (same_config d (restore_config (save_config d) d1)) as (S1 & S2 & S3 & S4).
  { apply restore_spec; [done| |done|done]. intros i Hi. apply W2. intros ->. done. }
  set (d2 := restore_config (save_config d) d1) in *. clearbody d2.
  destruct b; cbn [when].
  2: { erewrite bind_step by reflexivity. exists r, d2, h4. split; [reflexivity|]. split; [|done]. intros _.
       split; [done|]. split; [done|]. split; [done|]. split; [intros; by rewrite S2|]. fold c. cbn zeta. by rewrite S2. }
  destruct (set_mode_run c (mode (crtcs d2 !!! c)) (x (crtcs d !!! c)) (y (crtcs d !!! c)) (fb (crtcs d !!! c)) d2 h4)
    as (ok & d3 & h5 & E3 & (O1 & O2 & O3 & O4 & O5 & O6) & _ & Hok).
  exists r, d3, h5. split.
  { erewrite bind_step; [reflexivity|]. erewrite bind_step by reflexivity. cbn [fst]. erewrite bind_step by exact E3. reflexivity. }
  split; [|done]. intros _. destruct S1 as (T1 & T2 & T3). unfold put_back, same_lists. rewrite O1, O2, O3, O4, O5.
  split; [done|]. split; [done|]. split; [done|]. split; [intros i Hi; by rewrite O6, S2|]. fold c.
  destruct (ok && drm_helper_crtc_in_use c d2).
  - destruct Hok as (M1 & M2 & M3 & M4 & _). rewrite M1, M2, M3, M4, S2. done.
  - unfold mode_kept in Hok. rewrite Hok, S2. done.
Qed.

(** C33: when [drm_crtc_helper_set_config] does not return 0, on whatever path it fails,
    every encoder and connector, every other CRTC, and the framebuffer, mode and
    position of the CRTC are what they were before the call. *)
Theorem set_config_fails_back set m f d h : set_mode set = Some m -> set_fb set = Some f -> set_connectors set <> [] ->
  pointers_ok d -> set_crtc set ∈ crtc_list d ->
  exists p r d' h', drm_crtc_helper_set_config connector_dpms set = Some p /\ p (d, h) = (r, (d', h')) /\
    (r <> 0 -> put_back set d d').
Proof.
  intros Hm Hf Hn Hp Hc. destruct (set_config_run set m d h Hm Hp Hc) as (r & d' & h' & E & Hback & _).
  exists (set_config connector_dpms set m), r, d', h'. split; [|done].
  unfold drm_crtc_helper_set_config. rewrite Hm, Hf. cbn. by destruct (set_connectors set).
Qed.

(** C34: when [drm_crtc_helper_set_config] returns 0, the CRTC, if it is in use, has the
    framebuffer, the position and the mode of the set; every connector of the set that is
    not disconnected has an encoder, which is routed to the CRTC unless a connector
    outside the set has it too; and the other connectors keep their encoders. *)
Theorem set_config_establishes set m f d h : set_mode set = Some m -> set_fb set = Some f -> set_connectors set <> [] ->
  pointers_ok d -> set_crtc set ∈ crtc_list d ->
  exists p r d' h', drm_crtc_helper_set_config connector_dpms set = Some p /\ p (d, h) = (r, (d', h')) /\
    (r = 0 -> established set m d d').
Proof.
  intros Hm Hf Hn Hp Hc. destruct (set_config_run set m d h Hm Hp Hc) as (r & d' & h' & E & _ & Hs).
  exists (set_config connector_dpms set m), r, d', h'. split; [|done].
  unfold drm_crtc_helper_set_config. rewrite Hm, Hf. cbn. by destruct (set_connectors set).
Qed.
End SetConfig.

(** ** The helper for DPMS is such a callback *)

Lemma connector_dpms_frames {hw} `{Driver hw} k m : frames dpms_rel (drm_helper_connector_dpms k m).
Proof.
  unfold drm_helper_connector_dpms, crtc_to_dpms, encoder_to_dpms. frames_tac; split; try done; split; try done; split; try done;
    (intros j; destruct (decide (j = k)) as [->|Hn]; [by rewrite connector_eq|by rewrite connector_ne]).
Qed.

(** ** A driver and a configuration *)

(** The CRTC refuses modes of 640 pixels; the state counts the callbacks. *)
#[local] Instance demo_driver : Driver nat := {
  alloc := fun n => (true, n);
  enc_has_disable := fun _ => false; enc_disable := fun _ _ n => n;
  enc_has_dpms := fun _ => true; enc_dpms := fun _ _ _ n => S n;
  enc_mode_fixup := fun _ _ a _ n => (true, a, S n);
  enc_prepare := fun _ _ n => S n; enc_mode_set := fun _ _ _ _ n => S n; enc_commit := fun _ _ n => S n;
  enc_has_get_crtc := fun _ => false; enc_get_crtc := fun _ _ n => (None, n);
  crtc_has_disable := fun _ => true; crtc_disable := fun _ _ n => S n;
  crtc_has_dpms := fun _ => true; crtc_dpms := fun _ _ _ n => S n;
  crtc_mode_fixup := fun _ _ a _ n => (true, a, S n);
  crtc_prepare := fun _ _ n => S n;
  crtc_mode_set := fun _ m _ _ _ _ _ n => (if hdisplay m =? 640 then - EINVAL else 0, S n);
  crtc_commit := fun _ _ n => S n;
  crtc_has_mode_set_base := fun _ => true; crtc_mode_set_base := fun _ _ _ _ _ n => (0, S n);
  best_encoder := fun k d n => (if bool_decide (k - 100 ∈ encoder_list d) then Some (k - 100) else None, n) }.

Definition demo_mode (h v : Z) : drm_display_mode := DRM_MODE String.EmptyString 0 65000 h h h h 0 v v v v 0 0.

(** Connector 201 shows mode 1024x768 on CRTC 1 through encoder 101; connector 202 and
    encoder 102 are free. *)
Definition demo_config : config :=
  mk_config [1; 2] [101; 102] [201; 202]
    {[ 1 := Crtc (Some (mk_fb 7 0)) true (demo_mode 1024 768) (demo_mode 1024 768) 0 0 0 0 0;
       2 := Crtc None false mode0 mode0 0 0 0 0 0 ]}
    {[ 101 := Encoder (Some 1) 3; 102 := Encoder None 3 ]}
    {[ 201 := Connector 7 connector_status_connected (Some 101) 0;
       202 := Connector 11 connector_status_connected None 3 ]}.

Definition demo_set (h v : Z) : drm_mode_set := mk_set (Some (mk_fb 8 0)) 1 (Some (demo_mode h v)) 0 0 [202].

Lemma demo_best k d (h : nat) e : (best_encoder k d h).1 = Some e -> e ∈ encoder_list d.
Proof. cbn. case_bool_decide; [|done]. by intros [= <-]. Qed.

Lemma demo_pointers : pointers_ok demo_config.
Proof.
  intros k e Hk. change (connector_list demo_config) with [201; 202] in Hk.
  apply elem_of_cons in Hk as [->|Hk]; [intros [= <-]; set_solver|]. apply elem_of_cons in Hk as [->|Hk]; [by intros [=]|set_solver].
Qed.

Lemma crtc_disable_spec_witness : exists d' h', drm_crtc_helper_disable 1 (demo_config, 0%nat) = (0, (d', h')) /\
  enabled (crtcs d' !!! 1) = false /\ encoder (connectors d' !!! 201) = None.
Proof.
  destruct (crtc_disable_spec 1 demo_config 0%nat) as (d' & h' & E & _ & He & _ & Hk & _); [left|].
  exists d', h'. split; [exact E|]. split; [exact He|]. apply Hk; [left|reflexivity].
Defined.

Lemma set_config_fails_back_witness : exists p r d' h',
  drm_crtc_helper_set_config drm_helper_connector_dpms (demo_set 640 480) = Some p /\ p (demo_config, 0%nat) = (r, (d', h')) /\
  r = - EINVAL /\ put_back (demo_set 640 480) demo_config d'.
Proof.
  destruct (set_config_fails_back demo_best drm_helper_connector_dpms connector_dpms_frames (demo_set 640 480) (demo_mode 640 480)
    (mk_fb 8 0) demo_config 0%nat eq_refl eq_refl ltac:(discriminate) demo_pointers ltac:(left))
    as (p & r & d' & h' & Ep & Er & Hb).
  exists p, r, d', h'. split; [exact Ep|]. split; [exact Er|].
  assert (r = - EINVAL) as Hr.
  { change r with (fst (r, (d', h'))). rewrite <-Er. injection Ep as <-. vm_compute. reflexivity. }
  split; [exact Hr|]. apply Hb. rewrite Hr. discriminate.
Defined.

Lemma set_config_establishes_witness : exists p r d' h',
  drm_crtc_helper_set_config drm_helper_connector_dpms (demo_set 800 600) = Some p /\ p (demo_config, 0%nat) = (r, (d', h')) /\
  r = 0 /\ established (demo_set 800 600) (demo_mode 800 600) demo_config d'.
Proof.
  destruct (set_config_establishes demo_best drm_helper_connector_dpms connector_dpms_frames (demo_set 800 600) (demo_mode 800 600)
    (mk_fb 8 0) demo_config 0%nat eq_refl eq_refl ltac:(discriminate) demo_pointers ltac:(left))
    as (p & r & d' & h' & Ep & Er & Hb).
  exists p, r, d', h'. split; [exact Ep|]. split; [exact Er|].
  assert (r = 0) as Hr.
  { change r with (fst (r, (d', h'))). rewrite <-Er. injection Ep as <-. vm_compute. reflexivity. }
  split; [exact Hr|]. apply Hb. exact Hr.
Defined.
