(* ===== verification/Poll.v ===== *)
(** * Timers and output polling (drm_sun_timer.c, drm_crtc_helper.c)

    A timer is a callout of the kernel and the time it is due.  The kernel's callout
    table is an interface: [timeout] adds a callout and names it, [untimeout] takes it
    away.  The polling of the connectors runs on such a timer. *)

From S2P Require Import Prelude CrtcHelper.

Open Scope Z_scope.

(** ** The callout table *)

Class Callouts (C : Type) := {
  timeout : Z -> C -> Z * C;
  untimeout : Z -> C -> C;
  pending : C -> gset Z }.

Class CalloutsOk (C : Type) `{Callouts C} := {
  timeout_fresh : forall d t, (timeout d t).1 ∉ pending t;
  timeout_pending : forall d t, pending (timeout d t).2 = {[ (timeout d t).1 ]} ∪ pending t;
  untimeout_pending : forall i t, pending (untimeout i t) = pending t ∖ {[ i ]} }.

Definition s64 (z : Z) : Z := (z + 2 ^ 63) mod 2 ^ 64 - 2 ^ 63.

Definition time_after (a b : Z) : bool := s64 (s64 b - s64 a) <? 0.

Record timer_list := mk_timer { expires : Z; expired_time : Z; timer_id : Z }.

Section Timer.
Context {C : Type} `{Callouts C}.

Definition setup_timer (t : timer_list) : timer_list := mk_timer (expires t) 0 (timer_id t).

(** Each reading of [jiffies] is an argument. *)
Definition test_set_timer (now : Z * Z) (d : Z) (t : timer_list) (c : C) : timer_list * C :=
  if time_after now.1 (expired_time t) then
    let e := u64 (now.2 + d) in let '(i, c) := timeout d c in (mk_timer (expires t) e i, c)
  else (t, c).

Definition del_timer (t : timer_list) (c : C) : C := untimeout (timer_id t) c.

(** The first part of [mod_timer], under the lock: whether this caller does the work. *)
Definition mod_timer_claim (t : timer_list) : bool * timer_list :=
  if expires t =? -1 then (false, t) else (true, mk_timer (-1) (expired_time t) (timer_id t)).

Definition mod_timer_set (now d : Z) (t : timer_list) (c : C) : timer_list * C :=
  let c := untimeout (timer_id t) c in
  let e := u64 (now + d) in let '(i, c) := timeout d c in (mk_timer (expires t) e i, c).

Definition mod_timer_release (t : timer_list) : timer_list := mk_timer 0 (expired_time t) (timer_id t).

Definition mod_timer (now d : Z) (t : timer_list) (c : C) : timer_list * C :=
  let '(mine, t) := mod_timer_claim t in
  if mine then let '(t, c) := mod_timer_set now d t c in (mod_timer_release t, c) else (t, c).
End Timer.

(** ** The connectors as the probe and the polling see them *)

Inductive drm_connector_force := DRM_FORCE_UNSPECIFIED | DRM_FORCE_OFF | DRM_FORCE_ON | DRM_FORCE_ON_DIGITAL.

#[export] Instance drm_connector_force_eq_dec : EqDecision drm_connector_force.
Proof. solve_decision. Defined.

Definition DRM_CONNECTOR_POLL_HPD : Z := 1.
Definition DRM_CONNECTOR_POLL_DISCONNECT : Z := 4.

Record poll_connector := mk_poll_connector {
  pstatus : drm_connector_status; force : drm_connector_force; polled : Z }.

Definition with_pstatus (s : drm_connector_status) (c : poll_connector) : poll_connector :=
  mk_poll_connector s (force c) (polled c).

Definition drm_kms_helper_poll : bool := true.

Section Poll.
Context {C : Type} `{Callouts C} (DRM_HZ : Z).
Context {hw : Type} (detect : nat -> bool -> hw -> drm_connector_status * hw).

Definition DRM_OUTPUT_POLL_PERIOD : Z := 10 * DRM_HZ.

Record poll_dev := mk_dev {
  poll_enabled : bool; poll_running : bool; output_poll_timer : timer_list; callouts : C }.

Definition with_timer (tc : timer_list * C) (d : poll_dev) : poll_dev :=
  mk_dev (poll_enabled d) (poll_running d) tc.1 tc.2.

Definition arm (now : Z * Z) (delay : Z) (d : poll_dev) : poll_dev :=
  with_timer (test_set_timer now delay (output_poll_timer d) (callouts d)) d.

(** The walk over the connectors; the [i]-th is the first of [l]. *)
Fixpoint poll_loop (i : nat) (l : list poll_connector) (repoll changed : bool) (h : hw)
    : list poll_connector * bool * bool * hw :=
  match l with
  | [] => ([], repoll, changed, h)
  | c :: l =>
      let skip r := let '(l, r, ch, h) := poll_loop (S i) l r changed h in (c :: l, r, ch, h) in
      if negb (bool_decide (force c = DRM_FORCE_UNSPECIFIED)) then skip repoll else
      if (polled c =? 0) || (polled c =? DRM_CONNECTOR_POLL_HPD) then skip repoll else
      let old_status := pstatus c in
      if bool_decide (old_status = connector_status_connected) &&
         (Z.land (polled c) DRM_CONNECTOR_POLL_DISCONNECT =? 0) then skip true else
      let '(new, h) := detect i false h in
      let '(l, r, ch, h) := poll_loop (S i) l true (changed || bool_decide (old_status <> new)) h in
      (with_pstatus new c :: l, r, ch, h)
  end.

(** The work of the poll; the last result says whether the hotplug event is sent. *)
Definition output_poll_execute (now : Z * Z) (l : list poll_connector) (d : poll_dev) (h : hw)
    : list poll_connector * poll_dev * hw * bool :=
  if negb drm_kms_helper_poll then (l, d, h, false) else
  let '(l, repoll, changed, h) := poll_loop 0 l false false h in
  (l, if repoll then arm now DRM_OUTPUT_POLL_PERIOD d else d, h, changed).

Definition drm_kms_helper_poll_disable (d : poll_dev) : poll_dev :=
  if negb (poll_enabled d) then d else
  with_timer (output_poll_timer d, del_timer (output_poll_timer d) (callouts d)) d.

Definition drm_kms_helper_poll_enable (now : Z * Z) (l : list poll_connector) (d : poll_dev) : poll_dev :=
  if negb (poll_enabled d) || negb drm_kms_helper_poll then d else
  if existsb (fun c => negb (polled c =? 0)) l then arm now DRM_OUTPUT_POLL_PERIOD d else d.

(** What the probe of a connector does for the polling. *)
Definition probe_polling (now : Z * Z) (l : list poll_connector) (d : poll_dev) : poll_dev :=
  let d := if negb (Bool.eqb drm_kms_helper_poll (poll_running d)) then drm_kms_helper_poll_enable now l d else d in
  mk_dev (poll_enabled d) drm_kms_helper_poll (output_poll_timer d) (callouts d).

Definition drm_kms_helper_poll_init (now : Z * Z) (l : list poll_connector) (d : poll_dev) : poll_dev :=
  drm_kms_helper_poll_enable now l
    (mk_dev true (poll_running d) (setup_timer (output_poll_timer d)) (callouts d)).

Definition drm_kms_helper_poll_fini (d : poll_dev) : poll_dev := drm_kms_helper_poll_disable d.

Definition drm_helper_hpd_irq_event (now : Z * Z) (d : poll_dev) : poll_dev :=
  if negb (poll_enabled d) then d else
  let d := with_timer (output_poll_timer d, del_timer (output_poll_timer d) (callouts d)) d in
  if drm_kms_helper_poll then arm now 0 d else d.
End Poll.

Arguments poll_dev C : clear implicits.

(** ** What the timer guarantees *)

Section Facts.
Context {C : Type} `{CalloutsOk C}.

(** [mod_timer] leaves exactly one callout of the timer pending, unless another caller
    is in the middle of it. *)
Lemma mod_timer_one now d t (c : C) : expires t <> -1 ->
  let '(t', c') := mod_timer now d t c in
  timer_id t' ∈ pending c' /\ pending c' = {[ timer_id t' ]} ∪ (pending c ∖ {[ timer_id t ]}) /\
  expired_time t' = u64 (now + d) /\ expires t' = 0.
Proof.
  intros He. unfold mod_timer, mod_timer_claim. rewrite (proj2 (Z.eqb_neq _ _)) by done. unfold mod_timer_set.
  pose proof (timeout_pending d (untimeout (timer_id t) c)) as Hp. cbn [timer_id expires expired_time].
  destruct (timeout d (untimeout (timer_id t) c)) as [i c']. cbn [fst snd] in Hp. rewrite untimeout_pending in Hp.
  cbn. rewrite Hp. set_solver.
Qed.

(** [test_set_timer] sets nothing until the time of the last setting is past, whether
    that callout is still pending or not. *)
Lemma test_set_timer_not_due now d t (c : C) : time_after now.1 (expired_time t) = false ->
  test_set_timer now d t c = (t, c).
Proof. intros E. unfold test_set_timer. by rewrite E. Qed.

(** a hotplug interrupt that comes while a poll is pending loses it: the callout is
    taken away and, as the timer still holds the time it was due, none is set in its
    place, so no poll is pending afterwards. *)
Theorem hpd_irq_loses_poll now (d : poll_dev C) :
  poll_enabled d = true -> time_after now.1 (expired_time (output_poll_timer d)) = false ->
  let d' := drm_helper_hpd_irq_event now d in
  (timer_id (output_poll_timer d') ∉ pending (callouts d')) /\
  pending (callouts d') = (pending (callouts d) ∖ {[ timer_id (output_poll_timer d) ]}).
Proof.
  intros He Ht. unfold drm_helper_hpd_irq_event. rewrite He. cbn [negb drm_kms_helper_poll]. unfold arm.
  rewrite test_set_timer_not_due by exact Ht. cbn. unfold del_timer. rewrite untimeout_pending. set_solver.
Qed.

(** What the loop does to one connector. *)
Definition polls (c : poll_connector) : bool :=
  bool_decide (force c = DRM_FORCE_UNSPECIFIED) && negb ((polled c =? 0) || (polled c =? DRM_CONNECTOR_POLL_HPD)).

(** The event is sent exactly when the status of a connector changed, and the poll goes
    on exactly when there is a connector to poll. *)
Lemma poll_loop_spec {hw} (detect : nat -> bool -> hw -> drm_connector_status * hw) l : forall i r ch h,
  let '(l', r', ch', _) := poll_loop detect i l r ch h in
  ch' = ch || bool_decide (map pstatus l' <> map pstatus l) /\ map polled l' = map polled l /\ map force l' = map force l /\
  r' = r || existsb polls l.
Proof.
  assert (forall b (s : drm_connector_status) l1 l2, b || bool_decide (l1 <> l2) = b || bool_decide (s :: l1 <> s :: l2)) as Hsame.
  { intros b s l1 l2. f_equal. apply bool_decide_ext. split; intros Hn; contradict Hn; congruence. }
  induction l as [|c l IH]; intros i r ch h.
  { cbn. rewrite bool_decide_eq_false_2 by tauto. by rewrite !orb_false_r. }
  cbn [poll_loop existsb map].
  assert (forall r0, r0 = r || polls c ->
    let '(l', r', ch', _) := let '(l', r', ch', h') := poll_loop detect (S i) l r0 ch h in (c :: l', r', ch', h') in
    ch' = ch || bool_decide (map pstatus l' <> pstatus c :: map pstatus l) /\ map polled l' = polled c :: map polled l /\
    map force l' = force c :: map force l /\ r' = r || (polls c || existsb polls l)) as Hskip.
  { intros r0 ->. specialize (IH (S i) (r || polls c) ch h). destruct (poll_loop detect (S i) l _ ch h) as [[[l' r'] ch'] h'].
    destruct IH as (-> & E2 & E3 & ->). cbn [map]. rewrite E2, E3, <-(Hsame ch (pstatus c)). split_and!; try done. by rewrite orb_assoc. }
  assert (polls c = bool_decide (force c = DRM_FORCE_UNSPECIFIED) && negb ((polled c =? 0) || (polled c =? DRM_CONNECTOR_POLL_HPD)))
    as Ep by done.
  destruct (bool_decide (force c = DRM_FORCE_UNSPECIFIED)); cbn [negb andb] in *; [|apply Hskip; by rewrite Ep, orb_false_r].
  destruct ((polled c =? 0) || (polled c =? DRM_CONNECTOR_POLL_HPD)); cbn [negb] in *; [apply Hskip; by rewrite Ep, orb_false_r|].
  destruct (_ && _); [apply Hskip; by rewrite Ep, orb_true_r|]. clear Hskip.
  destruct (detect i false h) as [new h1]. specialize (IH (S i) true (ch || bool_decide (pstatus c <> new)) h1).
  destruct (poll_loop detect (S i) l _ _ h1) as [[[l' r'] ch'] h']. destruct IH as (-> & E2 & E3 & ->).
  cbn [map pstatus polled force with_pstatus]. rewrite E2, E3, Ep, orb_true_r. split_and!; try done.
  rewrite <-orb_assoc. f_equal. destruct (decide (pstatus c = new)) as [<-|Hn].
  - rewrite (bool_decide_eq_false_2 (pstatus c <> pstatus c)) by tauto. exact (Hsame false _ _ _).
  - rewrite (bool_decide_eq_true_2 (pstatus c <> new)) by done. symmetry. apply bool_decide_eq_true_2. congruence.
Qed.
End Facts.

(** ** A callout table *)

#[local] Instance set_callouts : Callouts (gset Z) := {
  timeout := fun _ t => (fresh t, {[ fresh t ]} ∪ t); untimeout := fun i t => t ∖ {[ i ]}; pending := fun t => t }.

#[local] Instance set_callouts_ok : CalloutsOk (gset Z).
Proof. split; cbn; intros; [apply is_fresh|done|done]. Qed.

(** A poll is due at time 1000; the interrupt comes at 500. *)
Lemma hpd_irq_loses_poll_witness :
  pending (callouts (drm_helper_hpd_irq_event (500, 500) (mk_dev true true (mk_timer 0 1000 7) ({[ 7 ]} : gset Z)))) = ({[ 7 ]} : gset Z) ∖ {[ 7 ]}.
Proof.
  destruct (hpd_irq_loses_poll (500, 500) (mk_dev true true (mk_timer 0 1000 7) ({[ 7 ]} : gset Z))) as [_ E];
    [reflexivity|vm_compute; reflexivity|]. exact E.
Defined.
