(* ===== verification/Probe.v ===== *)
(** * Probing the modes of a connector (drm_crtc_helper.c)

    [drm_helper_probe_single_connector_modes] as the composition of its parts: the
    status, the modes the driver finds (or the fallback without an EDID), the merge
    with the old modes, the checks, the pruning, the sort.  The sort of the list is
    [insertion_sort], which ModeSort shows [drm_mode_sort] to be on the heap. *)

From stdpp Require Import sorting.
From S2P Require Import Prelude Modes EdidTables EdidBase EdidCea ModeSort CrtcHelper Poll.

Open Scope Z_scope.

Section Probe.
Context {hw C : Type} `{Callouts C} (DRM_HZ : Z).
(** The callbacks of the connector. *)
Context (force_hook : option (hw -> hw)) (detect_hook : bool -> hw -> drm_connector_status * hw)
  (get_modes : hw -> Z * list drm_display_mode * hw) (mode_valid : drm_display_mode -> drm_mode_status).

(** [struct drm_connector], as the probe uses it. *)
Record connector := mk_connector {
  con : poll_connector; interlace_allowed : bool; doublescan_allowed : bool;
  modes : list drm_display_mode; probed_modes : list drm_display_mode; has_edid : bool }.

Definition with_modes (l : list drm_display_mode) (c : connector) : connector :=
  mk_connector (con c) (interlace_allowed c) (doublescan_allowed c) l (probed_modes c) (has_edid c).
Definition with_probed (l : list drm_display_mode) (c : connector) : connector :=
  mk_connector (con c) (interlace_allowed c) (doublescan_allowed c) (modes c) l (has_edid c).
Definition with_status (s : drm_connector_status) (c : connector) : connector :=
  mk_connector (with_pstatus s (con c)) (interlace_allowed c) (doublescan_allowed c) (modes c) (probed_modes c) (has_edid c).
Definition without_edid (c : connector) : connector :=
  mk_connector (con c) (interlace_allowed c) (doublescan_allowed c) (modes c) (probed_modes c) false.

Definition validate_mode_flag (fl : Z) (m : drm_display_mode) : drm_display_mode :=
  let m := if has_flag (flags m) DRM_MODE_FLAG_INTERLACE && negb (has_flag fl DRM_MODE_FLAG_INTERLACE)
           then set_status MODE_NO_INTERLACE m else m in
  if has_flag (flags m) DRM_MODE_FLAG_DBLSCAN && negb (has_flag fl DRM_MODE_FLAG_DBLSCAN)
  then set_status MODE_NO_DBLESCAN m else m.

Definition drm_mode_validate_flag (l : list drm_display_mode) (fl : Z) : list drm_display_mode :=
  if fl =? Z.lor DRM_MODE_FLAG_DBLSCAN DRM_MODE_FLAG_INTERLACE then l else map (validate_mode_flag fl) l.

(** The status, forced or detected. *)
Definition probe_status (c : connector) (h : hw) : drm_connector_status * hw :=
  match force (con c) with
  | DRM_FORCE_UNSPECIFIED => detect_hook true h
  | f => (if bool_decide (f = DRM_FORCE_ON) then connector_status_connected else connector_status_disconnected,
          match force_hook with Some f => f h | None => h end)
  end.

(** The modes found: the driver's, or the fallback; [mem] are the allocations to come. *)
Definition probe_modes (c : connector) (mem : list bool) (h : hw) : option (Z * connector * hw) :=
  let '(count, found, h) := get_modes h in
  let c := with_probed (probed_modes c ++ found) c in
  if (count =? 0) && bool_decide (pstatus (con c) = connector_status_connected) then
    '(count, s) ← drm_add_modes_noedid 1024 768 (mk_scan [] (probed_modes c) mem);
    Some (count, with_probed (probed s) c, h)
  else Some (count, c, h).

Definition mode_flags (c : connector) : Z :=
  let fl := if interlace_allowed c then Z.lor 0 DRM_MODE_FLAG_INTERLACE else 0 in
  if doublescan_allowed c then Z.lor fl DRM_MODE_FLAG_DBLSCAN else fl.

Definition driver_valid (m : drm_display_mode) : drm_display_mode :=
  if bool_decide (status m = MODE_OK) then set_status (mode_valid m) m else m.

(** The merge and the checks. *)
Definition validate_modes (c : connector) (maxX maxY : Z) : list drm_display_mode :=
  let l := drm_mode_connector_list_update (probed_modes c) (modes c) in
  let l := if negb (maxX =? 0) && negb (maxY =? 0) then drm_mode_validate_size l (s32 maxX) (s32 maxY) 0 else l in
  let l := drm_mode_validate_flag l (mode_flags c) in
  map driver_valid l.

(** From [prune] on. *)
Definition finish_probe (l : list drm_display_mode) (count : Z) : list drm_display_mode * Z :=
  let l := drm_mode_prune_invalid l in
  match l with
  | [] => ([], 0)
  | _ =>
      let l := map (fun m => with_vrefresh (drm_mode_vrefresh m) m) l in
      let l := insertion_sort drm_mode_compare l in
      (map (fun m => drm_mode_set_crtcinfo m CRTC_INTERLACE_HALVE_V) l, count)
  end.

(** [now] and [others] are the time and the connectors of the device, for the polling. *)
Definition drm_helper_probe_single_connector_modes (c : connector) (maxX maxY : Z) (mem : list bool) (now : Z * Z)
    (others : list poll_connector) (dev : poll_dev C) (h : hw) : option (connector * Z * poll_dev C * hw) :=
  let c := with_modes (map (set_status MODE_UNVERIFIED) (modes c)) c in
  let '(st, h) := probe_status c h in
  let c := with_status st c in
  let dev := probe_polling DRM_HZ now others dev in
  if bool_decide (st = connector_status_disconnected) then
    let '(l, n) := finish_probe (modes c) 0 in Some (with_modes l (without_edid c), n, dev, h)
  else
    '(count, c, h) ← probe_modes c mem h;
    if count =? 0 then let '(l, n) := finish_probe (modes c) 0 in Some (with_modes l c, n, dev, h) else
    let '(l, n) := finish_probe (validate_modes c maxX maxY) count in
    Some (with_modes l (with_probed [] c), n, dev, h).
End Probe.

(** ** What it finds *)

Lemma equal_fields p m : drm_mode_equal p m = true -> hdisplay p = hdisplay m /\ vdisplay p = vdisplay m /\ flags p = flags m.
Proof.
  unfold drm_mode_equal. assert (drm_mode_equal_no_clocks p m = true ->
    hdisplay p = hdisplay m /\ vdisplay p = vdisplay m /\ flags p = flags m).
  { unfold drm_mode_equal_no_clocks. intros E. zbool. done. }
  destruct (_ && _); [destruct (negb _); [done|auto]|destruct (negb _); [done|auto]].
Qed.

Lemma equal_refl p : drm_mode_equal p p = true.
Proof.
  assert (drm_mode_equal_no_clocks p p = true) by (unfold drm_mode_equal_no_clocks; by rewrite !Z.eqb_refl).
  unfold drm_mode_equal. rewrite !Z.eqb_refl. cbn [negb]. by destruct (_ && _).
Qed.

(** Two modes that differ in nothing [drm_mode_equal] looks at. *)
Definition alike (m m' : drm_display_mode) : Prop := forall p, drm_mode_equal p m' = drm_mode_equal p m.

(** The merge: every mode of the list was unverified all along or is equal to a probed
    one, and every probed mode is on the list. *)
Lemma merge_mode_spec p l : status p = MODE_OK ->
  match merge_mode p l with
  | Some l' => (forall m', m' ∈ l' -> m' ∈ l \/ (drm_mode_equal p m' = true /\ status m' = MODE_OK)) /\
               (forall q m, m ∈ l -> drm_mode_equal q m = true -> exists m', m' ∈ l' /\ drm_mode_equal q m' = true /\
                  (status m = MODE_OK -> status m' = MODE_OK)) /\
               (exists m', m' ∈ l' /\ drm_mode_equal p m' = true /\ status m' = MODE_OK)
  | None => True
  end.
Proof.
  intros Hp. induction l as [|m l IH]; [done|]. cbn [merge_mode].
  destruct (drm_mode_equal p m) eqn:E.
  - set (m1 := set_type _ _). assert (alike m m1) as Ha by done. assert (status m1 = MODE_OK) as Hs by done. split_and!.
    + intros m' Hm. apply elem_of_cons in Hm as [->|Hm]; [right; by rewrite Ha|left; by right].
    + intros q x Hx Hq. apply elem_of_cons in Hx as [->|Hx].
      * exists m1. split; [left|]. by rewrite Ha.
      * exists x. split; [by right|done].
    + exists m1. split; [left|]. by rewrite Ha.
  - destruct (merge_mode p l) as [l'|]; [|done]. cbn. destruct IH as (I1 & I2 & (m0 & I3 & I4)). split_and!.
    + intros m' Hm. apply elem_of_cons in Hm as [->|Hm]; [left; left|]. destruct (I1 m' Hm); [left; by right|by right].
    + intros q x Hx Hq. apply elem_of_cons in Hx as [->|Hx]; [exists m; split; [left|done]|].
      destruct (I2 q x Hx Hq) as (m' & ? & ?). exists m'. split; [by right|done].
    + exists m0. split; [by right|done].
Qed.

Lemma list_update_spec P : forall l, Forall (fun p => status p = MODE_OK) P ->
  let l' := drm_mode_connector_list_update P l in
  (forall m', m' ∈ l' -> m' ∈ l \/ (status m' = MODE_OK /\ exists p, p ∈ P /\ drm_mode_equal p m' = true)) /\
  (forall q m, m ∈ l -> drm_mode_equal q m = true -> exists m', m' ∈ l' /\ drm_mode_equal q m' = true /\
     (status m = MODE_OK -> status m' = MODE_OK)) /\
  (forall p, p ∈ P -> exists m', m' ∈ l' /\ drm_mode_equal p m' = true /\ status m' = MODE_OK).
Proof.
  induction P as [|p P IH]; intros l HP.
  { split_and!; [by left| |set_solver]. intros q m Hm Hq. by exists m. }
  apply Forall_cons in HP as [Hp HP]. cbn [drm_mode_connector_list_update]. pose proof (merge_mode_spec p l Hp) as Hm.
  assert (exists l1, drm_mode_connector_list_update (p :: P) l = drm_mode_connector_list_update P l1 /\
    (forall m', m' ∈ l1 -> m' ∈ l \/ (drm_mode_equal p m' = true /\ status m' = MODE_OK)) /\
    (forall q m, m ∈ l -> drm_mode_equal q m = true -> exists m', m' ∈ l1 /\ drm_mode_equal q m' = true /\
       (status m = MODE_OK -> status m' = MODE_OK)) /\
    (exists m', m' ∈ l1 /\ drm_mode_equal p m' = true /\ status m' = MODE_OK)) as (l1 & E & M1 & M2 & (m0 & M3 & M4 & M5)).
  { cbn [drm_mode_connector_list_update]. destruct (merge_mode p l) as [l1|]; [by exists l1|]. exists (l ++ [p]). split; [done|].
    split_and!.
    - intros m' Hx. apply elem_of_app in Hx as [Hx|Hx]; [by left|right]. apply list_elem_of_singleton in Hx as ->.
      by rewrite equal_refl.
    - intros q m Hx Hq. exists m. split; [apply elem_of_app; by left|done].
    - exists p. split; [apply elem_of_app; right; left|]. by rewrite equal_refl. }
  cbn [drm_mode_connector_list_update] in E. rewrite E. destruct (IH l1 HP) as (I1 & I2 & I3). split_and!.
  - intros m' Hx. destruct (I1 m' Hx) as [Hx1|(? & q & ? & ?)].
    + destruct (M1 m' Hx1) as [?|[? ?]]; [by left|right]. split; [done|]. exists p. split; [left|done].
    + right. split; [done|]. exists q. split; [by right|done].
  - intros q m Hx Hq. destruct (M2 q m Hx Hq) as (m1 & ? & ? & ?). destruct (I2 q m1) as (m2 & ? & ? & ?); [done|done|].
    exists m2. auto.
  - intros q Hq. apply elem_of_cons in Hq as [->|Hq]; [|by apply I3].
    destruct (I2 p m0) as (m2 & ? & ? & ?); [done|done|]. exists m2. auto.
Qed.

(** ** The checks *)

Definition fits (maxX maxY : Z) (m : drm_display_mode) : Prop :=
  maxX <> 0 -> maxY <> 0 -> (0 < s32 maxX -> hdisplay m <= s32 maxX) /\ (0 < s32 maxY -> vdisplay m <= s32 maxY).

Definition flags_allowed (c : connector) (m : drm_display_mode) : Prop :=
  (has_flag (flags m) DRM_MODE_FLAG_INTERLACE = true -> interlace_allowed c = true) /\
  (has_flag (flags m) DRM_MODE_FLAG_DBLSCAN = true -> doublescan_allowed c = true).

Section Checks.
Context (mode_valid : drm_display_mode -> drm_mode_status) (c : connector) (maxX maxY : Z).

Definition accepted (m : drm_display_mode) : Prop :=
  status m = MODE_OK /\ fits maxX maxY m /\ flags_allowed c m /\ mode_valid m = MODE_OK.

(** What the checks make of one mode. *)
Definition checked (m : drm_display_mode) : drm_display_mode :=
  let m := if negb (maxX =? 0) && negb (maxY =? 0) then validate_mode_size (s32 maxX) (s32 maxY) 0 m else m in
  let m := if mode_flags c =? Z.lor DRM_MODE_FLAG_DBLSCAN DRM_MODE_FLAG_INTERLACE then m
           else validate_mode_flag (mode_flags c) m in
  driver_valid mode_valid m.

Lemma validate_modes_map : validate_modes mode_valid c maxX maxY =
  map checked (drm_mode_connector_list_update (probed_modes c) (modes c)).
Proof.
  unfold validate_modes, drm_mode_validate_flag, drm_mode_validate_size, checked.
  destruct (_ && _), (_ =? _); rewrite ?map_map; done.
Qed.

Lemma size_status m : status (validate_mode_size (s32 maxX) (s32 maxY) 0 m) = MODE_OK ->
  validate_mode_size (s32 maxX) (s32 maxY) 0 m = m /\
  (0 < s32 maxX -> hdisplay m <= s32 maxX) /\ (0 < s32 maxY -> vdisplay m <= s32 maxY).
Proof.
  unfold validate_mode_size. cbn [Z.gtb Z.compare andb].
  destruct (Z.gtb_spec (s32 maxX) 0), (Z.gtb_spec (hdisplay m) (s32 maxX)); cbn [andb];
    destruct (Z.gtb_spec (s32 maxY) 0); cbn [andb vdisplay set_status];
    destruct (Z.gtb_spec (vdisplay m) (s32 maxY)); cbn [andb status set_status]; try done; split; done || lia.
Qed.

Lemma flag_status fl m : status (validate_mode_flag fl m) = MODE_OK -> validate_mode_flag fl m = m /\
  (has_flag (flags m) DRM_MODE_FLAG_INTERLACE = true -> has_flag fl DRM_MODE_FLAG_INTERLACE = true) /\
  (has_flag (flags m) DRM_MODE_FLAG_DBLSCAN = true -> has_flag fl DRM_MODE_FLAG_DBLSCAN = true).
Proof.
  unfold validate_mode_flag. destruct (has_flag (flags m) DRM_MODE_FLAG_INTERLACE) eqn:E1, (has_flag fl DRM_MODE_FLAG_INTERLACE);
    cbn [andb negb flags set_status]; destruct (has_flag (flags m) DRM_MODE_FLAG_DBLSCAN) eqn:E2, (has_flag fl DRM_MODE_FLAG_DBLSCAN);
    cbn [andb negb status set_status]; done.
Qed.

Lemma mode_flags_has : has_flag (mode_flags c) DRM_MODE_FLAG_INTERLACE = interlace_allowed c /\
  has_flag (mode_flags c) DRM_MODE_FLAG_DBLSCAN = doublescan_allowed c.
Proof. unfold mode_flags. by destruct (interlace_allowed c), (doublescan_allowed c). Qed.

Lemma checked_accepted m : status (checked m) = MODE_OK -> checked m = m /\ accepted m.
Proof.
  unfold checked. set (m1 := if negb (maxX =? 0) && negb (maxY =? 0) then _ else m).
  set (m2 := if mode_flags c =? _ then m1 else _). unfold driver_valid. case_bool_decide as E2; [|done].
  cbn [status set_status]. intros Ev.
  assert (m2 = m1 /\ flags_allowed c m1) as [Em2 Hf].
  { unfold m2, flags_allowed in *. destruct mode_flags_has as [<- <-]. destruct (Z.eqb_spec (mode_flags c) (Z.lor DRM_MODE_FLAG_DBLSCAN DRM_MODE_FLAG_INTERLACE)) as [Ef|Ef].
    - split; [done|]. by rewrite Ef.
    - destruct (flag_status _ _ E2) as (E & ? & ?). by split. }
  rewrite Em2 in *. assert (m1 = m /\ fits maxX maxY m) as [Em1 Hs].
  { unfold m1 in *. destruct (Z.eqb_spec maxX 0), (Z.eqb_spec maxY 0); cbn [negb andb] in *; try (split; [done|]; intros ? ?; lia).
    destruct (size_status m E2) as (? & ? & ?). split; [done|]. by intros _ _. }
  rewrite Em1 in *. split; [|split; [done|]; split; [done|]; by split]. rewrite Ev, <-E2. by destruct m.
Qed.

Lemma accepted_checked m : accepted m -> checked m = m.
Proof.
  intros (Hs & Hfit & (Hi & Hd) & Hv). unfold checked.
  assert ((if negb (maxX =? 0) && negb (maxY =? 0) then validate_mode_size (s32 maxX) (s32 maxY) 0 m else m) = m) as ->.
  { destruct (Z.eqb_spec maxX 0), (Z.eqb_spec maxY 0); cbn [negb andb]; try done. destruct (Hfit ltac:(done) ltac:(done)) as [F1 F2].
    unfold validate_mode_size. cbn [Z.gtb Z.compare andb].
    destruct (Z.gtb_spec (s32 maxX) 0), (Z.gtb_spec (hdisplay m) (s32 maxX)); cbn [andb]; try lia;
      destruct (Z.gtb_spec (s32 maxY) 0), (Z.gtb_spec (vdisplay m) (s32 maxY)); cbn [andb]; lia || done. }
  assert (validate_mode_flag (mode_flags c) m = m) as ->.
  { unfold validate_mode_flag. destruct mode_flags_has as [-> ->].
    destruct (has_flag (flags m) DRM_MODE_FLAG_INTERLACE); [rewrite Hi by done|]; cbn [andb negb];
      (destruct (has_flag (flags m) DRM_MODE_FLAG_DBLSCAN); [rewrite Hd by done|]; done). }
  assert ((if mode_flags c =? Z.lor DRM_MODE_FLAG_DBLSCAN DRM_MODE_FLAG_INTERLACE then m else m) = m) as -> by (by destruct (_ =? _)).
  unfold driver_valid. rewrite Hs, bool_decide_eq_true_2, Hv by done. rewrite <-Hs. by destruct m.
Qed.
End Checks.

(** ** The end of the probe *)

(** A mode as the connector lists it. *)
Definition shown (m : drm_display_mode) : drm_display_mode :=
  drm_mode_set_crtcinfo (with_vrefresh (drm_mode_vrefresh m) m) CRTC_INTERLACE_HALVE_V.

Lemma crtcinfo_same m fl : exists ct, drm_mode_set_crtcinfo m fl = Modes.set_crtc ct m.
Proof. unfold drm_mode_set_crtcinfo. destruct (_ =? _); [exists (crtc m); by destruct m|]. by eexists. Qed.

Lemma shown_alike m : alike m (shown m).
Proof. unfold shown. destruct (crtcinfo_same (with_vrefresh (drm_mode_vrefresh m) m) CRTC_INTERLACE_HALVE_V) as [ct ->]. done. Qed.

Definition compares_before (a b : drm_display_mode) : Prop := drm_mode_compare a b <= 0.

Lemma sort_modes_sorted l : Forall mode_sane l -> StronglySorted compares_before (insertion_sort drm_mode_compare l).
Proof.
  apply (insertion_sort_sorted drm_mode_compare mode_sane).
  - intros a b Ha Hb Hgt. apply compare_key; [done|done|]. apply key_ge_total. rewrite <-compare_key by done. lia.
  - intros a b e Ha Hb He. rewrite !compare_key by done. apply key_ge_trans.
Qed.

Lemma crtcinfo_sorted l : StronglySorted compares_before l ->
  StronglySorted compares_before (map (fun m => drm_mode_set_crtcinfo m CRTC_INTERLACE_HALVE_V) l).
Proof.
  induction 1 as [|m l Hl IH Hm]; [constructor|]. constructor; [exact IH|].
  apply List.Forall_map. eapply Forall_impl; [exact Hm|]. intros b Hb. unfold compares_before in *.
  destruct (crtcinfo_same m CRTC_INTERLACE_HALVE_V) as [c1 ->], (crtcinfo_same b CRTC_INTERLACE_HALVE_V) as [c2 ->]. exact Hb.
Qed.

Lemma finish_probe_spec mode_valid c maxX maxY L count :
  let r := finish_probe (map (checked mode_valid c maxX maxY) L) count in
  (forall m', m' ∈ r.1 <-> exists m, m ∈ L /\ accepted mode_valid c maxX maxY m /\ m' = shown m) /\
  (Forall mode_sane r.1 -> StronglySorted compares_before r.1) /\
  r.2 = (match r.1 with [] => 0 | _ => count end).
Proof.
  unfold finish_probe. set (l := drm_mode_prune_invalid _).
  assert (forall m, m ∈ l <-> m ∈ L /\ accepted mode_valid c maxX maxY m) as Hl.
  { intros m. unfold l, drm_mode_prune_invalid. rewrite list_elem_of_In, filter_In, in_map_iff. split.
    - intros [(m0 & <- & Hin) Hs]. apply bool_decide_eq_true_1 in Hs. destruct (checked_accepted _ _ _ _ _ Hs) as [E Ha].
      rewrite E. by rewrite list_elem_of_In.
    - intros [Hin Ha]. split; [exists m; split; [by apply accepted_checked|by apply list_elem_of_In]|].
      apply bool_decide_eq_true_2. apply Ha. }
  destruct l as [|m0 l0] eqn:El.
  { cbn. split; [|split; [constructor|done]]. intros m'. split; [set_solver|]. intros (m & Hm & Ha & _).
    assert (m ∈ []) as Hn by (by apply Hl). set_solver. }
  rewrite <-El in Hl |- *. cbn [fst snd]. set (s := insertion_sort _ _).
  assert (forall m', m' ∈ map (fun m => drm_mode_set_crtcinfo m CRTC_INTERLACE_HALVE_V) s <->
    exists m, m ∈ L /\ accepted mode_valid c maxX maxY m /\ m' = shown m) as Hs.
  { intros m'. rewrite list_elem_of_In, in_map_iff. split.
    - intros (m1 & <- & Hin). apply list_elem_of_In in Hin. unfold s in Hin. rewrite insertion_sort_perm in Hin.
      apply list_elem_of_In, in_map_iff in Hin as (m & <- & Hin). apply list_elem_of_In, Hl in Hin as [? ?]. by exists m.
    - intros (m & Hin & Ha & ->). eexists. split; [reflexivity|]. apply list_elem_of_In. unfold s. rewrite insertion_sort_perm.
      apply list_elem_of_In, in_map_iff. exists m. split; [done|]. apply list_elem_of_In, Hl. done. }
  split; [exact Hs|]. split.
  - intros HP. apply crtcinfo_sorted, sort_modes_sorted.
    assert (s ≡ₚ map (fun m => with_vrefresh (drm_mode_vrefresh m) m) l) as Hp by apply insertion_sort_perm.
    rewrite <-Hp. rewrite List.Forall_map in HP. eapply Forall_impl; [exact HP|].
    intros m. cbn beta. destruct (crtcinfo_same m CRTC_INTERLACE_HALVE_V) as [ct ->]. done.
  - destruct s eqn:Es; [|done]. exfalso.
    assert (length s = length l) as Hlen by (unfold s; by rewrite insertion_sort_perm, length_map). by rewrite Es, El in Hlen.
Qed.

(** ** The whole probe *)

Definition fallback_mode (p : drm_display_mode) : Prop :=
  p ∈ drm_dmt_modes /\ hdisplay p <= 1024 /\ vdisplay p <= 768 /\ drm_mode_vrefresh p <= 61.

Lemma noedid_run l : forall n s, (forall p, p ∈ l -> p ∈ drm_dmt_modes) ->
  exists found s', noedid_loop l 1024 768 n s = Some (n + Z.of_nat (length found), s') /\ probed s' = probed s ++ found /\
    Forall fallback_mode found.
Proof.
  induction l as [|p l IH]; intros n s Hl.
  { exists [], s. rewrite Z.add_0_r, app_nil_r. by repeat constructor. }
  assert (forall q, q ∈ l -> q ∈ drm_dmt_modes) as Hl' by (intros; apply Hl; by right).
  cbn [noedid_loop]. change (1024 =? 0) with false. change (768 =? 0) with false. cbn [negb andb].
  destruct (Z.gtb_spec (hdisplay p) 1024), (Z.gtb_spec (vdisplay p) 768); cbn [orb]; try (by apply IH).
  destruct (Z.gtb_spec (drm_mode_vrefresh p) 61); [by apply IH|].
  unfold EdidBase.drm_mode_duplicate, drm_mode_create, EdidBase.alloc. unfold mbind, M_bind.
  assert (exists b s1, probed s1 = probed s /\ match mem s with [] => Some (true, s) | b :: mem => Some (b, mk_scan (raw s) (probed s) mem) end
    = Some (b, s1)) as (b & s1 & Es & ->).
  { destruct (mem s) as [|b m]; [by exists true, s|by exists b, (mk_scan (raw s) (probed s) m)]. }
  destruct b; cbn.
  - destruct (IH (n + 1) (mk_scan (raw s1) (probed s1 ++ [p]) (mem s1)) Hl') as (found & s' & E & Ep & Hf).
    exists (p :: found), s'. split; [etrans; [exact E|]; do 2 f_equal; cbn [length]; lia|]. split.
    + rewrite Ep. cbn [probed]. rewrite Es, <-app_assoc. done.
    + constructor; [|done]. split; [apply Hl; left|]. lia.
  - destruct (IH n s1 Hl') as (found & s' & E & Ep & Hf). exists found, s'. rewrite E, Ep, Es. done.
Qed.

Lemma dmt_ok : Forall (fun p => status p = MODE_OK) drm_dmt_modes.
Proof.
  apply Forall_forall. intros p Hp. assert (forallb (fun p => bool_decide (status p = MODE_OK)) drm_dmt_modes = true) as H by (vm_compute; reflexivity).
  rewrite forallb_forall in H. specialize (H p ltac:(by apply list_elem_of_In)). by apply bool_decide_eq_true_1 in H.
Qed.

Section Whole.
Context {hw C : Type} `{Callouts C} (DRM_HZ : Z) (force_hook : option (hw -> hw))
  (detect_hook : bool -> hw -> drm_connector_status * hw) (get_modes : hw -> Z * list drm_display_mode * hw)
  (mode_valid : drm_display_mode -> drm_mode_status).

(** The driver counts the modes it adds, and adds them with the status of a good mode. *)
Hypothesis get_modes_ok : forall h, let '(n, found, _) := get_modes h in
  n = Z.of_nat (length found) /\ Forall (fun p => status p = MODE_OK) found.

(** C35: the probe of a connector always returns.  A disconnected connector loses its
    modes and its EDID.  Otherwise there are probed modes [P], the driver's or, when it
    finds none, standard modes of at most 1024x768 at 61 Hz, such that the list has
    exactly modes equal to one of [P] that fit the size and the flags and that the driver
    accepts; every mode of [P] all of whose equals are so accepted has an equal on the
    list; the list is in the order of favour; and the count is zero when it is empty. *)
Theorem probe_lists_valid_modes c maxX maxY mem now others dev h : probed_modes c = [] ->
  exists c' n dev' h' P, drm_helper_probe_single_connector_modes DRM_HZ force_hook detect_hook get_modes mode_valid
      c maxX maxY mem now others dev h = Some (c', n, dev', h') /\
    (pstatus (con c') = connector_status_disconnected -> modes c' = [] /\ n = 0 /\ has_edid c' = false) /\
    ((exists h1, P = (get_modes h1).1.2) \/ Forall fallback_mode P \/ P = []) /\
    (forall m', m' ∈ modes c' -> (exists p, p ∈ P /\ drm_mode_equal p m' = true) /\ fits maxX maxY m' /\ flags_allowed c m' /\
       exists m, mode_valid m = MODE_OK /\ m' = shown m) /\
    (pstatus (con c') <> connector_status_disconnected -> forall p, p ∈ P -> fits maxX maxY p -> flags_allowed c p ->
       (forall m, drm_mode_equal p m = true -> mode_valid m = MODE_OK) -> exists m', m' ∈ modes c' /\ drm_mode_equal p m' = true) /\
    (Forall mode_sane (modes c') -> StronglySorted compares_before (modes c')) /\
    (modes c' = [] -> n = 0).
Proof.
  intros Hprobed. unfold drm_helper_probe_single_connector_modes.
  set (c0 := with_modes (map (set_status MODE_UNVERIFIED) (modes c)) c).
  destruct (probe_status force_hook detect_hook c0 h) as [st h1]. set (c1 := with_status st c0).
  set (dev' := probe_polling _ _ _ dev).
  assert (forall m, m ∈ modes c0 -> status m = MODE_UNVERIFIED) as Hun.
  { intros m Hm. apply list_elem_of_In, in_map_iff in Hm as (m0 & <- & _). done. }
  assert (finish_probe (modes c0) 0 = ([], 0)) as Hnone.
  { unfold finish_probe. assert (drm_mode_prune_invalid (modes c0) = []) as ->; [|done].
    unfold drm_mode_prune_invalid. clear -Hun. induction (modes c0) as [|m l IH]; [done|]. cbn [List.filter].
    rewrite (Hun m) by left. cbn. apply IH. intros m' Hm. apply Hun. by right. }
  case_bool_decide as Hst.
  { change (modes c1) with (modes c0). rewrite Hnone. exists (with_modes [] (without_edid c1)), 0, dev', h1, []. split; [done|].
    split; [done|]. split; [auto|]. split; [set_solver|]. split; [set_solver|]. split; [constructor|done]. }
  unfold probe_modes. pose proof (get_modes_ok h1) as Hg. destruct (get_modes h1) as [[count found] h2] eqn:Eg. destruct Hg as [-> Hfound].
  change (probed_modes c1) with (probed_modes c). rewrite Hprobed. cbn [app].
  (* the modes found *)
  set (c2 := with_probed found c1).
  assert (exists n P, (if (Z.of_nat (length found) =? 0) && bool_decide (pstatus (con c2) = connector_status_connected)
      then '(count, s) ← drm_add_modes_noedid 1024 768 (mk_scan [] (probed_modes c2) mem);
           Some (count, with_probed (probed s) c2, h2)
      else Some (Z.of_nat (length found), c2, h2)) = Some (n, with_probed P c1, h2) /\ n = Z.of_nat (length P) /\
    ((exists h1, P = (get_modes h1).1.2) \/ Forall fallback_mode P \/ P = []) /\ Forall (fun p => status p = MODE_OK) P)
    as (n & P & -> & Hn & HP & HPok).
  { destruct (Z.eqb_spec (Z.of_nat (length found)) 0) as [E0|E0]; cbn [andb].
    2: { eexists _, found. split; [reflexivity|]. split; [done|]. split; [left; exists h1; by rewrite Eg|done]. }
    destruct found; [|done]. case_bool_decide as Ec; [|eexists _, []; split; [reflexivity|]; auto].
    unfold drm_add_modes_noedid. change (1024 <? 0) with false. change (768 <? 0) with false. cbn iota.
    destruct (noedid_run drm_dmt_modes 0 (mk_scan [] (probed_modes c2) mem)) as (P & s & -> & Ep & Hf); [done|].
    cbn [mbind option_bind]. eexists _, P. rewrite Ep. cbn [probed]. split; [reflexivity|]. split; [lia|]. split; [auto|].
    pose proof (proj1 (Forall_forall _ _) dmt_ok) as Hd. eapply Forall_impl; [exact Hf|]. intros p (Hp & _). by apply Hd. }
  cbn [mbind option_bind]. clear Eg Hfound. destruct (Z.eqb_spec n 0) as [En|En].
  { change (modes (with_probed P c1)) with (modes c0). rewrite Hnone. assert (P = []) as -> by (destruct P; [done|cbn in Hn; lia]).
    eexists (with_modes [] (with_probed [] c1)), 0, dev', h2, []. split; [done|]. split; [by intros|]. split; [done|].
    split; [set_solver|]. split; [set_solver|]. split; [constructor|done]. }
  rewrite validate_modes_map. cbn [probed_modes with_probed modes].
  pose proof (finish_probe_spec mode_valid (with_probed P c1) maxX maxY (drm_mode_connector_list_update P (modes c1)) n) as (F1 & F2 & F3).
  destruct (finish_probe _ n) as [l k]. cbn [fst snd] in *.
  destruct (list_update_spec P (modes c1) HPok) as (U1 & _ & U3).
  assert (forall m, flags_allowed (with_probed P c1) m <-> flags_allowed c m) as Hfl by done.
  eexists (with_modes l (with_probed [] (with_probed P c1))), k, dev', h2, P. split; [reflexivity|].
  split; [by intros|]. split; [done|]. cbn [modes with_modes]. split_and!; [| |done|by intros ->].
  - intros m' Hm. apply F1 in Hm as (m & Hm & (Ha1 & Ha2 & Ha3 & Ha4) & ->).
    pose proof (shown_alike m) as Hal. destruct (equal_fields m (shown m)) as (G1 & G2 & G3); [rewrite Hal; apply equal_refl|].
    split.
    + destruct (U1 m Hm) as [Hm'|(_ & p & Hp & He)]; [apply Hun in Hm'; congruence|]. exists p. by rewrite Hal.
    + split; [unfold fits in *; by rewrite <-G1, <-G2|]. split; [unfold flags_allowed in *; by rewrite <-G3|]. by exists m.
  - intros _ p Hp Hfit Hflag Hv. destruct (U3 p Hp) as (m & Hm & He & Hs). destruct (equal_fields p m He) as (G1 & G2 & G3).
    exists (shown m). rewrite shown_alike. split; [|done]. apply F1. exists m. split; [done|]. split; [|done].
    split; [done|]. split; [unfold fits in *; by rewrite <-G1, <-G2|]. split; [unfold flags_allowed in *; by rewrite <-G3|]. by apply Hv.
Qed.
End Whole.

(** ** A connector *)

#[local] Existing Instance set_callouts.

Definition demo_mode (h v : Z) : drm_display_mode := DRM_MODE String.EmptyString 0 65000 h h h h 0 v v v v 0 0.

Definition demo_get_modes (h : unit) : Z * list drm_display_mode * unit := (2, [demo_mode 640 480; demo_mode 1024 768], h).

Lemma demo_get_modes_ok h : let '(n, found, _) := demo_get_modes h in
  n = Z.of_nat (length found) /\ Forall (fun p => status p = MODE_OK) found.
Proof. split; [reflexivity|]. repeat constructor. Qed.

Definition demo_connector : connector :=
  mk_connector (mk_poll_connector connector_status_unknown DRM_FORCE_UNSPECIFIED 0) true false [demo_mode 800 600] [] true.

Definition demo_probe : option (connector * Z * poll_dev (gset Z) * unit) :=
  drm_helper_probe_single_connector_modes 100 None (fun _ h => (connector_status_connected, h)) demo_get_modes (fun _ => MODE_OK)
    demo_connector 2048 2048 [] (5, 5) [] (mk_dev true true (mk_timer 0 0 0) ∅) tt.

Lemma probe_lists_valid_modes_witness : exists c' n dev' h', demo_probe = Some (c', n, dev', h') /\
  (modes c' = [] -> n = 0) /\ (Forall mode_sane (modes c') -> StronglySorted compares_before (modes c')).
Proof.
  destruct (probe_lists_valid_modes 100 None (fun _ h => (connector_status_connected, h)) demo_get_modes (fun _ => MODE_OK)
    demo_get_modes_ok demo_connector 2048 2048 [] (5, 5) [] (mk_dev true true (mk_timer 0 0 0) ∅) tt eq_refl)
    as (c' & n & dev' & h' & P & E & _ & _ & _ & _ & Hs & Hn).
  exists c', n, dev', h'. split; [exact E|]. split; [exact Hn|exact Hs].
Defined.

(** The old mode is gone, the larger new one comes first. *)
Example demo_probe_modes : option_map (fun r => map (fun m => (hdisplay m, vdisplay m)) (modes r.1.1.1)) demo_probe =
  Some [(1024, 768); (640, 480)].
Proof. vm_compute. reflexivity. Qed.
