(* ===== verification/FbHelper.v ===== *)
(** * The initial configuration of the console (drm_fb_helper.c)

    Which connectors are enabled, the mode of each, and the assignment of CRTCs to
    connectors, which [drm_pick_crtcs] finds by trying all of them.  Arrays that the
    code indexes by connector are lists; the result of an allocation is taken from a
    list, and is a success when the list is empty. *)

From S2P Require Import Prelude Modes EdidTables EdidBase EdidModes CrtcHelper.

Open Scope Z_scope.

(** [struct drm_fb_helper_connector] with what is read of its connector. *)
Record fb_connector := mk_fb_connector {
  fc_status : drm_connector_status; fc_modes : list drm_display_mode;
  specified : bool; bpp_specified : bool; bpp : Z; cmdline : drm_cmdline_mode }.

(** [struct drm_fb_helper_crtc]: the mode set of a CRTC, with its connectors by index. *)
Record fb_crtc := mk_fb_crtc {
  fbs_connectors : list nat; fbs_mode : option drm_display_mode; fbs_fb : option Z;
  desired_mode : option drm_display_mode; gamma_size : Z }.

Definition with_fc_modes (l : list drm_display_mode) (f : fb_connector) : fb_connector :=
  mk_fb_connector (fc_status f) l (specified f) (bpp_specified f) (bpp f) (cmdline f).

(** Whether the next allocation succeeds, and the rest. *)
Definition next_alloc (mem : list bool) : bool * list bool :=
  match mem with [] => (true, []) | b :: mem => (b, mem) end.

(** ** Modes of a connector *)

Definition drm_has_preferred_mode (f : fb_connector) (width height : Z) : option drm_display_mode :=
  List.find (fun m => negb ((drm_mode_width m >? width) || (drm_mode_height m >? height)) &&
                      has_flag (type m) DRM_MODE_TYPE_PREFERRED) (fc_modes f).

Definition drm_has_cmdline_mode (f : fb_connector) : bool := specified f.

(** The test of the loop in [drm_pick_cmdline_mode]. *)
Definition matches_cmdline (c : drm_cmdline_mode) (m : drm_display_mode) : bool :=
  (hdisplay m =? xres c) && (vdisplay m =? yres c) &&
  (negb (refresh_specified c) || (vrefresh m =? refresh c)) &&
  (negb (interlace c) || has_flag (flags m) DRM_MODE_FLAG_INTERLACE).

(** The mode and the connector, to whose list a new mode is added. *)
Definition drm_pick_cmdline_mode (f : fb_connector) (mem : list bool)
    : option (option drm_display_mode * fb_connector * list bool) :=
  if negb (specified f) then Some (None, f, mem) else
  match (if rb (cmdline f) || margins (cmdline f) then None else List.find (matches_cmdline (cmdline f)) (fc_modes f)) with
  | Some m => Some (Some m, f, mem)
  | None =>
      let '(ok, mem) := next_alloc mem in
      mode ← drm_mode_create_from_cmdline_mode ok (cmdline f);
      match mode with
      | Some m => Some (Some m, with_fc_modes (m :: fc_modes f) f, mem)
      | None => Some (None, f, mem)
      end
  end.

(** ** Enabled connectors and target modes *)

Definition drm_connector_enabled (f : fb_connector) (strict : bool) : bool :=
  if strict then bool_decide (fc_status f = connector_status_connected)
  else negb (bool_decide (fc_status f = connector_status_disconnected)).

Definition drm_enable_connectors (l : list fb_connector) : list bool :=
  let enabled := map (fun f => drm_connector_enabled f true) l in
  if existsb id enabled then enabled else map (fun f => drm_connector_enabled f false) l.

(** The modes of the connectors, one by one; the walk stops at the first enabled
    connector without one. *)
Fixpoint cmdline_modes (l : list fb_connector) (enabled : list bool) (done : list (bool * option drm_display_mode))
    (can_clone : bool) (mem : list bool) : option (bool * list (option drm_display_mode) * list fb_connector * list bool) :=
  match l, enabled with
  | f :: l, e :: enabled =>
      if negb e then
        '(ok, modes, l, mem) ← cmdline_modes l enabled (done ++ [(false, None)]) can_clone mem;
        Some (ok, None :: modes, f :: l, mem)
      else
        '(m, f, mem) ← drm_pick_cmdline_mode f mem;
        match m with
        | None => Some (false, None :: map (fun _ => None) l, f :: l, mem)
        | Some m =>
            let same := forallb (fun p => negb p.1 || match p.2 with Some m' => drm_mode_equal m' m | None => false end) done in
            '(ok, modes, l, mem) ← cmdline_modes l enabled (done ++ [(true, Some m)]) (can_clone && same) mem;
            Some (ok, Some m :: modes, f :: l, mem)
        end
  | _, _ => Some (can_clone, map (fun _ => None) l, l, mem)
  end.

(** The last mode of a connector that is the standard one; otherwise what was there. *)
Definition dmt_mode_of (dmt_mode : drm_display_mode) (f : fb_connector) (was : option drm_display_mode) : option drm_display_mode :=
  fold_left (fun r m => if drm_mode_equal m dmt_mode then Some m else r) (fc_modes f) was.

Definition drm_target_cloned (crtc_count : Z) (l : list fb_connector) (enabled : list bool) (mem : list bool)
    : option (bool * list (option drm_display_mode) * list fb_connector * list bool) :=
  let none := map (fun _ => None) l in
  if crtc_count >? 1 then Some (false, none, l, mem) else
  if Z.of_nat (length (List.filter id enabled)) <=? 1 then Some (false, none, l, mem) else
  '(can_clone, modes, l, mem) ← cmdline_modes l enabled [] true mem;
  if (can_clone : bool) then Some (true, modes, l, mem) else
  '(dmt, s) ← drm_mode_find_dmt 1024 768 60 false (mk_scan [] [] mem);
  let mem := EdidBase.mem s in
  match dmt with
  | None => (* the comparison with a null pointer, when there is a mode to compare *)
      if existsb (fun p => p.1 && negb (length (fc_modes p.2) =? 0)%nat) (zip enabled l) then None
      else Some (forallb (fun p => negb p.1 || bool_decide (p.2 <> None)) (zip enabled modes), modes, l, mem)
  | Some dmt_mode =>
      let modes := map (fun p => if p.1.1 : bool then dmt_mode_of dmt_mode p.1.2 p.2 else p.2) (zip (zip enabled l) modes) in
      Some (forallb (fun p => negb p.1 || bool_decide (p.2 <> None)) (zip enabled modes), modes, l, mem)
  end.

(** [modes] as [drm_target_cloned] left them. *)
Fixpoint drm_target_preferred (l : list fb_connector) (enabled : list bool) (modes : list (option drm_display_mode))
    (width height : Z) (mem : list bool) : option (list (option drm_display_mode) * list fb_connector * list bool) :=
  match l, enabled, modes with
  | f :: l, e :: enabled, m :: modes =>
      if negb e then
        '(modes, l, mem) ← drm_target_preferred l enabled modes width height mem; Some (m :: modes, f :: l, mem)
      else
        '(m, f, mem) ← drm_pick_cmdline_mode f mem;
        let m := match m with Some m => Some m | None => drm_has_preferred_mode f width height end in
        let m := match m with Some m => Some m | None => hd_error (fc_modes f) end in
        '(modes, l, mem) ← drm_target_preferred l enabled modes width height mem; Some (m :: modes, f :: l, mem)
  | _, _, _ => Some (modes, l, mem)
  end.

(** ** The assignment of CRTCs *)

Section Pick.
(** The encoder the driver gives for a connector: the mask of the CRTCs it can be on. *)
Context (crtc_count : nat) (best_encoder : nat -> option Z) (num_connector : nat).
Context (modes : list (option drm_display_mode)) (width height : Z).

Definition my_score (f : fb_connector) : Z :=
  1 + (if bool_decide (fc_status f = connector_status_connected) then 1 else 0) +
  (if drm_has_cmdline_mode f then 1 else 0) +
  (match drm_has_preferred_mode f width height with Some _ => 1 | None => 0 end).

(** The first connector before [n] that has the CRTC. *)
Definition first_on (best : list (option nat)) (n c : nat) : option nat :=
  List.find (fun o => bool_decide (best !! o = Some (Some c))) (seq 0 n).

Definition mode_of (n : nat) : option drm_display_mode := match modes !! n with Some m => m | None => None end.

(** May connector [n] be on the CRTC? *)
Definition crtc_allowed (best : list (option nat)) (n c : nat) (mask : Z) : bool :=
  if negb (Z.testbit mask (Z.of_nat c)) then false else
  match first_on best n c with
  | None => true
  | Some o =>
      if (1 <? crtc_count)%nat then false
      else match mode_of o, mode_of n with Some a, Some b => drm_mode_equal a b | _, _ => false end
  end.

Fixpoint drm_pick_crtcs (rest : list fb_connector) (n : nat) (best_crtcs : list (option nat)) (mem : list bool)
    : Z * list (option nat) * list bool :=
  match rest with
  | [] => (0, best_crtcs, mem)
  | f :: rest =>
      let '(best_score, best_crtcs, mem) := drm_pick_crtcs rest (S n) (<[n := None]> best_crtcs) mem in
      match mode_of n with
      | None => (best_score, best_crtcs, mem)
      | Some _ =>
          let '(ok, mem) := next_alloc mem in
          if negb ok then (best_score, best_crtcs, mem) else
          match best_encoder n with
          | None => (best_score, best_crtcs, mem)
          | Some mask =>
              let '(best_score, best_crtcs, _, mem) :=
                fold_left (fun st c =>
                  let '(best_score, best_crtcs, crtcs, mem) := st in
                  if negb (crtc_allowed best_crtcs n c mask) then (best_score, best_crtcs, crtcs, mem) else
                  let crtcs := take n best_crtcs ++ Some c :: drop (S n) crtcs in
                  let '(score, crtcs, mem) := drm_pick_crtcs rest (S n) crtcs mem in
                  let score := my_score f + score in
                  if score >? best_score then (score, crtcs, crtcs, mem) else (best_score, best_crtcs, crtcs, mem))
                  (seq 0 crtc_count) (best_score, best_crtcs, replicate num_connector None, mem) in
              (best_score, best_crtcs, mem)
          end
      end
  end.
End Pick.

(** ** The mode sets *)

Definition clear_crtc (r : fb_crtc) : fb_crtc := mk_fb_crtc [] (fbs_mode r) None (desired_mode r) (gamma_size r).

(** A connector joins the mode set of its CRTC; a store past the array of [max_conn]
    connectors is a fault. *)
Definition join_crtc (max_conn : nat) (fb : option Z) (i : nat) (m : drm_display_mode) (mem : list bool) (r : fb_crtc)
    : option (fb_crtc * list bool) :=
  let '(ok, mem) := next_alloc mem in
  if (length (fbs_connectors r) <? max_conn)%nat then
    Some (mk_fb_crtc (fbs_connectors r ++ [i]) (if (ok : bool) then Some m else None) fb (Some m) (gamma_size r), mem)
  else None.

Fixpoint fill_modesets (max_conn : nat) (fb : option Z) (i : nat) (modes : list (option drm_display_mode))
    (crtcs : list (option nat)) (mem : list bool) (info : list fb_crtc) : option (list fb_crtc * list bool) :=
  match modes, crtcs with
  | m :: modes, c :: crtcs =>
      '(info, mem) ← match m, c with
                     | Some m, Some c =>
                         r ← info !! c; '(r, mem) ← join_crtc max_conn fb i m mem r; Some (<[c := r]> info, mem)
                     | _, _ => Some (info, mem)
                     end;
      fill_modesets max_conn fb (S i) modes crtcs mem info
  | _, _ => Some (info, mem)
  end.

Definition clear_old_mode (r : fb_crtc) : fb_crtc :=
  if (length (fbs_connectors r) =? 0)%nat then mk_fb_crtc [] None (fbs_fb r) (desired_mode r) (gamma_size r) else r.

Record fb_helper := mk_fb_helper {
  helper_fb : option Z; connector_info : list fb_connector; crtc_info : list fb_crtc; delayed_hotplug : bool }.

Section Setup.
Context (best_encoder : nat -> option Z) (num_connector max_conn : nat).
(** The optional callback of the driver. *)
Context (initial_config : option (list bool -> option (list (option nat) * list (option drm_display_mode)))).

Definition pick_modes (h : fb_helper) (enabled : list bool) (width height : Z) (mem : list bool)
    : option (list (option nat) * list (option drm_display_mode) * list fb_connector * list bool) :=
  let crtc_count := length (crtc_info h) in
  '(cloned, modes, l, mem) ← drm_target_cloned (Z.of_nat crtc_count) (connector_info h) enabled mem;
  '(modes, l, mem) ← (if (cloned : bool) then Some (modes, l, mem)
                      else drm_target_preferred l enabled modes width height mem);
  let '(_, crtcs, mem) := drm_pick_crtcs crtc_count best_encoder num_connector modes width height l 0
                            (replicate num_connector None) mem in
  Some (crtcs, modes, l, mem).

Definition drm_setup_crtcs (h : fb_helper) (width height : Z) (mem : list bool) : option (fb_helper * list bool) :=
  let '(ok, mem) := next_alloc mem in
  if negb ok then Some (h, mem) else
  let '(ok, mem) := next_alloc mem in
  if negb ok then Some (h, mem) else
  let '(ok, mem) := next_alloc mem in
  if negb ok then Some (h, mem) else
  let enabled := drm_enable_connectors (connector_info h) in
  '(crtcs, modes, l, mem) ← match (f ← initial_config; f enabled) with
                            | Some (crtcs, modes) => Some (crtcs, modes, connector_info h, mem)
                            | None => pick_modes h enabled width height mem
                            end;
  '(info, mem) ← fill_modesets max_conn (helper_fb h) 0 modes crtcs mem (map clear_crtc (crtc_info h));
  Some (mk_fb_helper (helper_fb h) l (map clear_old_mode info) (delayed_hotplug h), mem).
End Setup.

(** ** The size of the console *)

Record surface_size := mk_sizes {
  fb_width : Z; fb_height : Z; surface_width : Z; surface_height : Z; surface_bpp : Z; surface_depth : Z }.

Definition bpp_of (b : Z) (s : Z * Z) : Z * Z :=
  if b =? 8 then (8, 8) else if b =? 15 then (16, 15) else if b =? 16 then (16, 16)
  else if b =? 24 then (24, 24) else if b =? 32 then (32, 24) else s.

(** Bits per pixel and depth: the first connector that says anything decides. *)
Definition choose_bpp (l : list fb_connector) (preferred_bpp : Z) : Z * Z :=
  let s := if negb (u32 preferred_bpp =? 32) then (u32 preferred_bpp, u32 preferred_bpp) else (32, 24) in
  match List.find bpp_specified l with Some f => bpp_of (bpp f) s | None => s end.

Definition grow_sizes (s : surface_size) (m : drm_display_mode) : surface_size :=
  let w := u32 (hdisplay m) in let h := u32 (vdisplay m) in
  mk_sizes (if w <? fb_width s then w else fb_width s) (if h <? fb_height s then h else fb_height s)
    (if w >? surface_width s then w else surface_width s) (if h >? surface_height s then h else surface_height s)
    (surface_bpp s) (surface_depth s).

Definition fb_sizes (h : fb_helper) (preferred_bpp : Z) : surface_size :=
  let '(b, d) := choose_bpp (connector_info h) preferred_bpp in
  let desired := omap desired_mode (crtc_info h) in
  let s := fold_left grow_sizes desired (mk_sizes (2 ^ 32 - 1) (2 ^ 32 - 1) 0 0 b d) in
  if (Z.of_nat (length desired) =? 0) || (fb_width s =? 2 ^ 32 - 1) || (fb_height s =? 2 ^ 32 - 1)
  then mk_sizes 1024 768 1024 768 b d else s.

Definition set_modeset_fb (fb : option Z) (r : fb_crtc) : fb_crtc :=
  if (length (fbs_connectors r) =? 0)%nat then r
  else mk_fb_crtc (fbs_connectors r) (fbs_mode r) fb (desired_mode r) (gamma_size r).

(** [fb_probe] is the driver's; it may replace the framebuffer of the helper. *)
Definition drm_fb_helper_single_fb_probe (fb_probe : surface_size -> option Z -> Z * option Z) (h : fb_helper) (preferred_bpp : Z)
    : Z * fb_helper :=
  let '(ret, fb) := fb_probe (fb_sizes h preferred_bpp) (helper_fb h) in
  if ret <? 0 then (ret, mk_fb_helper fb (connector_info h) (crtc_info h) (delayed_hotplug h))
  else (0, mk_fb_helper fb (connector_info h) (map (set_modeset_fb fb) (crtc_info h)) (delayed_hotplug h)).

(** The framebuffers of the CRTCs, against the one of the console. *)
Definition drm_fb_helper_is_bound (h : fb_helper) (crtc_fbs : list (option Z)) : bool :=
  let bound := length (List.filter (fun f => bool_decide (f = helper_fb h)) crtc_fbs) in
  let crtcs_bound := length (List.filter (fun f => bool_decide (f <> None)) crtc_fbs) in
  negb (bound <? crtcs_bound)%nat.
