(* ===== verification/FbHelperFacts.v ===== *)
(** * The assignment of CRTCs is the best there is

    [drm_pick_crtcs] of FbHelper returns an assignment that is allowed, and when no
    allocation fails no allowed assignment scores higher. *)

From S2P Require Import Prelude Modes EdidTables EdidBase CrtcHelper FbHelper.

Open Scope Z_scope.

Section Pick.
Context (crtc_count : nat) (best_encoder : nat -> option Z) (num_connector : nat).
Context (modes : list (option drm_display_mode)) (width height : Z).
Implicit Types (a b best : list (option nat)) (rest : list fb_connector) (n c : nat).

#[local] Abbreviation pick := (drm_pick_crtcs crtc_count best_encoder num_connector modes width height).
#[local] Abbreviation crtc_allowed := (crtc_allowed crtc_count modes).
#[local] Abbreviation my_score := (my_score width height).

(** What connector [n] has in an assignment is allowed. *)
Definition ok_at n a : Prop :=
  match a !! n with
  | Some (Some c) => (c < crtc_count)%nat /\ mode_of modes n <> None /\
                     exists mask, best_encoder n = Some mask /\ crtc_allowed a n c mask = true
  | Some None => True
  | None => False
  end.

Fixpoint valid rest n a : Prop :=
  match rest with [] => True | _ :: rest => ok_at n a /\ valid rest (S n) a end.

Fixpoint score rest n a : Z :=
  match rest with
  | [] => 0
  | f :: rest => (match a !! n with Some (Some _) => my_score f | _ => 0 end) + score rest (S n) a
  end.

Lemma prefix_le {A} (a b : list A) n m : (n <= m)%nat -> take m a = take m b -> take n a = take n b.
Proof. intros Hn E. rewrite <-(Nat.min_l n m) by done. by rewrite <-!take_take, E. Qed.

Lemma prefix_at {A} (a b : list A) n : take (S n) a = take (S n) b -> a !! n = b !! n.
Proof. intros E. rewrite <-(lookup_take_lt a (S n) n), <-(lookup_take_lt b (S n) n), E by lia. done. Qed.

Lemma prefix_S {A} (a b : list A) n : take n a = take n b -> a !! n = b !! n -> take (S n) a = take (S n) b.
Proof.
  intros E En. destruct (b !! n) as [x|] eqn:Eb.
  - by rewrite (take_S_r a n x), (take_S_r b n x), E.
  - apply lookup_ge_None in En, Eb. rewrite !take_ge in E by lia. rewrite !take_ge by lia. done.
Qed.

Lemma first_on_prefix a b n c : take n a = take n b -> first_on a n c = first_on b n c.
Proof.
  intros E. unfold first_on. assert (forall o, (o < n)%nat -> a !! o = b !! o) as Ho.
  { intros o Ho. rewrite <-(lookup_take_lt a n o), <-(lookup_take_lt b n o), E by done. done. }
  assert (forall l, (forall o, In o l -> (o < n)%nat) ->
    List.find (fun o => bool_decide (a !! o = Some (Some c))) l = List.find (fun o => bool_decide (b !! o = Some (Some c))) l) as Hl.
  { induction l as [|o l IH]; intros Hin; [done|]. cbn [List.find]. rewrite Ho by (apply Hin; by left). rewrite IH; [done|].
    intros o' Ho'. apply Hin. by right. }
  apply Hl. intros o Hin. apply in_seq in Hin. lia.
Qed.

Lemma allowed_prefix a b n c mask : take n a = take n b -> crtc_allowed a n c mask = crtc_allowed b n c mask.
Proof. intros E. unfold FbHelper.crtc_allowed. by rewrite (first_on_prefix a b n c E). Qed.

Lemma ok_at_prefix a b n : take (S n) a = take (S n) b -> ok_at n a -> ok_at n b.
Proof.
  intros E. pose proof (prefix_le a b n (S n) ltac:(lia) E) as E'. pose proof (prefix_at a b n E) as En.
  unfold ok_at. rewrite En. destruct (b !! n) as [[c|]|]; [|done|done]. intros (H1 & H2 & mask & H3 & H4).
  split; [done|]. split; [done|]. exists mask. split; [done|]. by rewrite <-(allowed_prefix a b n c mask E').
Qed.

(** The result of a search from connector [n] on. *)
Definition found rest n best (s : Z) a : Prop :=
  length a = length best /\ take n a = take n best /\ valid rest n a /\ score rest n a = s.

Definition optimal rest n best (s : Z) : Prop :=
  forall a, length a = length best -> take n a = take n best -> valid rest n a -> score rest n a <= s.

(** The loop over the CRTCs, for connector [n]. *)
Definition crtc_step f rest n mask (st : Z * list (option nat) * list (option nat) * list bool) (c : nat) :=
  let '(best_score, best_crtcs, crtcs, mem) := st in
  if negb (crtc_allowed best_crtcs n c mask) then (best_score, best_crtcs, crtcs, mem) else
  let crtcs := take n best_crtcs ++ Some c :: drop (S n) crtcs in
  let '(score, crtcs, mem) := pick rest (S n) crtcs mem in
  let score := my_score f + score in
  if score >? best_score then (score, crtcs, crtcs, mem) else (best_score, best_crtcs, crtcs, mem).

Definition searched rest n : Prop := forall best mem, length best = num_connector -> (n + length rest <= num_connector)%nat ->
  let '(s, a, mem') := pick rest n best mem in found rest n best s a /\ (mem = [] -> mem' = [] /\ optimal rest n best s).

(** The assignments the loop has been through. *)
Definition tried (cs : list nat) n a : Prop := match a !! n with Some (Some c) => c ∈ cs | _ => True end.

Lemma step_array best n c crtcs : (n < length best)%nat -> length crtcs = length best ->
  let a := take n best ++ Some c :: drop (S n) crtcs in
  length a = length best /\ take n a = take n best /\ a !! n = Some (Some c).
Proof.
  intros Hn Hl a. assert (length (take n best) = n) as Ht by (rewrite length_take; lia). unfold a. split_and!.
  - rewrite length_app, Ht. cbn [length]. rewrite length_drop. lia.
  - rewrite take_app_le by lia. apply take_ge. lia.
  - rewrite lookup_app_r by lia. by rewrite Ht, Nat.sub_diag.
Qed.

(** What holds before each round of the loop, with the CRTCs [cs] done. *)
Definition loop_inv f rest n best (full : Prop) (cs : list nat) (st : Z * list (option nat) * list (option nat) * list bool) : Prop :=
  let '(bs, b, crtcs, mem) := st in
  found (f :: rest) n best bs b /\ length crtcs = length best /\
  (full -> mem = [] /\ forall a, length a = length best -> take n a = take n best -> valid (f :: rest) n a -> tried cs n a ->
     score (f :: rest) n a <= bs).

Lemma crtc_step_inv f rest n mask best full cs st c : searched rest (S n) ->
  length best = num_connector -> (n + length (f :: rest) <= num_connector)%nat ->
  mode_of modes n <> None -> best_encoder n = Some mask -> (c < crtc_count)%nat ->
  loop_inv f rest n best full cs st -> loop_inv f rest n best full (cs ++ [c]) (crtc_step f rest n mask st c).
Proof.
  intros IH Hbest Hn Hm He Hc. cbn [length] in Hn. destruct st as [[[bs b] crtcs] mem].
  intros ((Hl & Ht & Hv & Hs) & Hlc & Hopt). unfold crtc_step.
  assert (forall a, tried (cs ++ [c]) n a -> tried cs n a \/ a !! n = Some (Some c)) as Htry.
  { intros a. unfold tried. destruct (a !! n) as [[c'|]|]; [|by left|by left]. rewrite elem_of_app, list_elem_of_singleton.
    intros [?| ->]; [by left|by right]. }
  destruct (crtc_allowed b n c mask) eqn:Ea; cbn [negb].
  2: { split; [done|]. split; [done|]. intros Hf. destruct (Hopt Hf) as [-> Ho]. split; [done|]. intros a Hla Hta Hva Htr.
       destruct (Htry a Htr) as [?|En]; [by apply Ho|]. exfalso. destruct Hva as [Hok _]. unfold ok_at in Hok. rewrite En in Hok.
       destruct Hok as (_ & _ & mask' & He' & Ha'). rewrite He in He'. injection He' as <-.
       rewrite (allowed_prefix a b) in Ha' by congruence. congruence. }
  destruct (step_array b n c crtcs) as (L1 & T1 & E1); [lia|congruence|].
  set (x := take n b ++ Some c :: drop (S n) crtcs) in *.
  specialize (IH x mem ltac:(congruence) ltac:(lia)).
  destruct (pick rest (S n) x mem) as [[s a1] mem1]. destruct IH as ((L2 & T2 & V2 & S2) & O2).
  pose proof (prefix_le a1 x n (S n) ltac:(lia) T2) as T2'. pose proof (prefix_at a1 x n T2) as E2. rewrite E1 in E2.
  assert (found (f :: rest) n best (my_score f + s) a1) as Hnew.
  { split; [congruence|]. split; [congruence|]. split.
    - split; [|done]. unfold ok_at. rewrite E2. split; [done|]. split; [done|]. exists mask. split; [done|].
      rewrite (allowed_prefix a1 b) by congruence. done.
    - cbn [score]. by rewrite E2, S2. }
  assert (full -> mem1 = [] /\ forall a, length a = length best -> take n a = take n best -> valid (f :: rest) n a ->
    a !! n = Some (Some c) -> score (f :: rest) n a <= my_score f + s) as Hbound.
  { intros Hf. destruct (Hopt Hf) as [-> _]. destruct (O2 eq_refl) as [-> Ho]. split; [done|]. intros a Hla Hta Hva En.
    cbn [score]. rewrite En. apply Zplus_le_compat_l. apply Ho; [congruence| |by apply Hva].
    apply prefix_S; [congruence|]. by rewrite En, E1. }
  destruct (Z.gtb_spec (my_score f + s) bs) as [Hgt|Hle].
  - split; [done|]. split; [congruence|]. intros Hf. destruct (Hbound Hf) as [-> Hb]. split; [done|]. intros a ? ? ? Htr.
    destruct (Htry a Htr) as [?|En]; [|by apply Hb]. destruct (Hopt Hf) as [_ Ho]. etrans; [by apply Ho|lia].
  - split; [done|]. split; [congruence|]. intros Hf. destruct (Hbound Hf) as [-> Hb]. split; [done|]. intros a ? ? ? Htr.
    destruct (Htry a Htr) as [?|En]; [by destruct (Hopt Hf) as [_ Ho]; apply Ho|]. etrans; [by apply Hb|lia].
Qed.

Lemma crtc_loop_inv f rest n mask best full : searched rest (S n) ->
  length best = num_connector -> (n + length (f :: rest) <= num_connector)%nat ->
  mode_of modes n <> None -> best_encoder n = Some mask -> forall l cs st, (forall c, c ∈ l -> (c < crtc_count)%nat) ->
  loop_inv f rest n best full cs st -> loop_inv f rest n best full (cs ++ l) (fold_left (crtc_step f rest n mask) l st).
Proof.
  intros IH Hb Hn Hm He. induction l as [|c l IHl]; intros cs st Hl Hi; [by rewrite app_nil_r|]. cbn [fold_left].
  replace (cs ++ c :: l) with ((cs ++ [c]) ++ l) by (by rewrite <-app_assoc). apply IHl; [intros; apply Hl; by right|].
  apply crtc_step_inv; try done. apply Hl. left.
Qed.

Lemma search_run rest : forall n, searched rest n.
Proof.
  induction rest as [|f rest IH]; intros n best mem Hl Hn.
  { cbn. split; [done|]. intros ->. split; [done|]. intros a _ _ _. done. }
  cbn [length] in Hn. cbn [drm_pick_crtcs].
  assert (length (<[n := None]> best) = num_connector) as Hl1 by (by rewrite length_insert).
  pose proof (IH (S n) (<[n := None]> best) mem Hl1 ltac:(lia)) as H1.
  destruct (pick rest (S n) (<[n := None]> best) mem) as [[s0 a0] mem0]. destruct H1 as ((L0 & T0 & V0 & S0) & O0).
  assert (a0 !! n = Some None) as E0.
  { rewrite (prefix_at _ _ _ T0). apply list_lookup_insert_eq. lia. }
  assert (take n a0 = take n best) as T0'.
  { rewrite (prefix_le _ _ n (S n) ltac:(lia) T0). apply take_insert_ge; lia. }
  assert (found (f :: rest) n best s0 a0) as F0.
  { split; [congruence|]. split; [done|]. split; [split; [by unfold ok_at; rewrite E0|done]|]. cbn [score]. by rewrite E0, S0. }
  assert (mem = [] -> forall a, length a = length best -> take n a = take n best -> valid (f :: rest) n a ->
    (forall c, a !! n <> Some (Some c)) -> score (f :: rest) n a <= s0) as B0.
  { intros Hmem a Hla Hta [Hok Hva] Hno. destruct (O0 Hmem) as [_ Ho]. unfold ok_at in Hok. cbn [score].
    destruct (a !! n) as [[c|]|] eqn:En; [by destruct (Hno c)| |done]. apply Ho; [congruence| |done].
    apply prefix_S; [|rewrite En; symmetry; apply list_lookup_insert_eq; lia]. rewrite Hta. symmetry. apply take_insert_ge; lia. }
  assert (forall a, valid (f :: rest) n a -> mode_of modes n = None \/ best_encoder n = None -> forall c, a !! n <> Some (Some c)) as Hnone.
  { intros a [Hok _] Hor c Ec. unfold ok_at in Hok. rewrite Ec in Hok. destruct Hok as (_ & ? & mask & ? & _). destruct Hor; congruence. }
  assert (mem = [] -> mem0 = []) as Hmem0 by (intros E; by destruct (O0 E)).
  destruct (mode_of modes n) as [m|] eqn:Em.
  2: { split; [done|]. intros Hmem. split; [auto|]. intros a ? ? Hva. apply B0; try done. by apply Hnone; [|left]. }
  destruct (next_alloc mem0) as [ok mem1] eqn:Ealloc.
  assert (mem = [] -> ok = true /\ mem1 = []) as Hok.
  { intros E. rewrite (Hmem0 E) in Ealloc. by injection Ealloc as <- <-. }
  destruct ok; cbn [negb]; [|split; [done|]; intros E; by destruct (Hok E)].
  destruct (best_encoder n) as [mask|] eqn:Ee.
  2: { split; [done|]. intros Hmem. split; [by destruct (Hok Hmem)|]. intros a ? ? Hva. apply B0; try done. by apply Hnone; [|right]. }
  change (fold_left _ (seq 0 crtc_count) ?st) with (fold_left (crtc_step f rest n mask) (seq 0 crtc_count) st).
  pose proof (crtc_loop_inv f rest n mask best (mem = []) (IH (S n)) Hl ltac:(cbn; lia) ltac:(congruence) Ee (seq 0 crtc_count) []
    (s0, a0, replicate num_connector None, mem1)) as Hloop.
  destruct (fold_left (crtc_step f rest n mask) (seq 0 crtc_count) _) as [[[s1 a1] crtcs] mem2]. cbn [app] in Hloop.
  destruct Hloop as (F1 & _ & O1).
  { intros c Hc. apply list_elem_of_In, in_seq in Hc. lia. }
  { split; [done|]. split; [by rewrite length_replicate|]. intros Hmem. split; [by destruct (Hok Hmem)|]. intros a ? ? Hva Htr.
    apply B0; try done. intros c Ec. unfold tried in Htr. rewrite Ec in Htr. set_solver. }
  split; [done|]. intros Hmem. destruct (O1 Hmem) as [-> Ho]. split; [done|]. intros a Hla Hta Hva. apply Ho; try done.
  unfold tried. destruct (a !! n) as [[c|]|] eqn:En; [|done|done]. destruct Hva as [Hoka _]. unfold ok_at in Hoka. rewrite En in Hoka.
  apply list_elem_of_In, in_seq. lia.
Qed.

(** C36: [drm_pick_crtcs], from the first connector on, gives every connector no CRTC or
    one that exists, that its encoder can be on, that has a mode to show, and that no
    earlier connector is on (but for clones with the same mode when there is a single
    CRTC); it returns the score of that assignment; and when no allocation fails, no
    other allowed assignment has a higher score. *)
Theorem pick_crtcs_best l best mem : length best = num_connector -> (length l <= num_connector)%nat ->
  let '(s, a, _) := pick l 0 best mem in
  length a = num_connector /\ valid l 0 a /\ score l 0 a = s /\
  (mem = [] -> forall a', length a' = num_connector -> valid l 0 a' -> score l 0 a' <= s).
Proof.
  intros Hb Hl. pose proof (search_run l 0 best mem Hb Hl) as Hs. destruct (pick l 0 best mem) as [[s a] mem'].
  destruct Hs as ((H1 & _ & H3 & H4) & H5). split; [congruence|]. split; [done|]. split; [done|].
  intros Hmem a' Ha' Hv. destruct (H5 Hmem) as [_ Ho]. apply Ho; [congruence|done|done].
Qed.

(** With more than one CRTC nothing is cloned. *)
Lemma valid_no_clone l : forall n a i j c, valid l n a -> (1 < crtc_count)%nat -> (i < j)%nat -> (n <= j < n + length l)%nat ->
  a !! i = Some (Some c) -> a !! j = Some (Some c) -> False.
Proof.
  induction l as [|f l IH]; intros n a i j c Hv Hc Hij Hj Ei Ej; [cbn in Hj; lia|]. destruct Hv as [Hok Hv]. cbn [length] in Hj.
  destruct (decide (j = n)) as [->|Hne]; [|apply (IH (S n) a i j c); try done; lia].
  unfold ok_at in Hok. rewrite Ej in Hok. destruct Hok as (_ & _ & mask & _ & Ha). unfold FbHelper.crtc_allowed in Ha.
  destruct (Z.testbit mask (Z.of_nat c)); cbn [negb] in Ha; [|done]. rewrite (proj2 (Nat.ltb_lt _ _) Hc) in Ha.
  destruct (first_on a n c) as [o|] eqn:Eo; [done|]. unfold first_on in Eo.
  pose proof (List.find_none _ _ Eo i ltac:(apply in_seq; lia)) as Hi. apply bool_decide_eq_false_1 in Hi. congruence.
Qed.

Lemma valid_at l : forall n a i c, valid l n a -> (n <= i < n + length l)%nat -> a !! i = Some (Some c) -> ok_at i a.
Proof.
  induction l as [|f l IH]; intros n a i c Hv Hi Ei; [cbn in Hi; lia|]. destruct Hv as [Hok Hv]. cbn [length] in Hi.
  destruct (decide (i = n)) as [->|Hne]; [done|]. apply (IH (S n) a i c); try done. lia.
Qed.
End Pick.

(** ** The mode sets *)

Section Fill.
Context (max_conn : nat) (fb : option Z).
Implicit Types (info : list fb_crtc) (c : nat).

(** The connectors from [i] on that join CRTC [c]. *)
Fixpoint joined (i : nat) (modes : list (option drm_display_mode)) (crtcs : list (option nat)) c : list nat :=
  match modes, crtcs with
  | m :: modes, k :: crtcs =>
      (match m, k with Some _, Some k => if decide (k = c) then [i] else [] | _, _ => [] end) ++ joined (S i) modes crtcs c
  | _, _ => []
  end.

Lemma joined_elem modes : forall i crtcs c x, x ∈ joined i modes crtcs c ->
  (i <= x < i + length modes)%nat /\ crtcs !! (x - i)%nat = Some (Some c) /\ exists m, modes !! (x - i)%nat = Some (Some m).
Proof.
  induction modes as [|m modes IH]; intros i [|k crtcs] c x Hx; cbn [joined] in Hx; try (by apply not_elem_of_nil in Hx).
  apply elem_of_app in Hx as [Hx|Hx].
  - destruct m as [m|]; [|by apply not_elem_of_nil in Hx]. destruct k as [k|]; [|by apply not_elem_of_nil in Hx].
    case_decide as E; [|by apply not_elem_of_nil in Hx]. apply list_elem_of_singleton in Hx as ->. subst k.
    cbn [length]. rewrite Nat.sub_diag. split; [lia|]. split; [done|]. by exists m.
  - apply IH in Hx as (? & Hk & m' & Hm). cbn [length]. replace (x - i)%nat with (S (x - S i)) by lia.
    split; [lia|]. split; [done|]. by exists m'.
Qed.

Lemma joined_increasing modes : forall i crtcs c x y l, joined i modes crtcs c = x :: y :: l -> (x < y)%nat.
Proof.
  induction modes as [|m modes IH]; intros i [|k crtcs] c x y l E; cbn [joined] in E; try done.
  destruct m as [m|]; [|by apply (IH (S i) crtcs c x y l)]. destruct k as [k|]; [|by apply (IH (S i) crtcs c x y l)].
  case_decide; [|by apply (IH (S i) crtcs c x y l)]. cbn [app] in E. injection E as <- E.
  assert (y ∈ joined (S i) modes crtcs c) as Hy by (rewrite E; left). apply joined_elem in Hy. lia.
Qed.

Lemma joined_length modes : forall i crtcs c, (length (joined i modes crtcs c) <= length modes)%nat.
Proof.
  induction modes as [|m modes IH]; intros i [|k crtcs] c; cbn [joined length]; try lia. rewrite length_app.
  specialize (IH (S i) crtcs c). destruct m; [|cbn; lia]. destruct k; [|cbn; lia]. case_decide; cbn; lia.
Qed.

(** What joining makes of a mode set. *)
Definition filled (js : list nat) (r r' : fb_crtc) : Prop :=
  fbs_connectors r' = fbs_connectors r ++ js /\ (js = [] -> r' = r) /\ gamma_size r' = gamma_size r.

Lemma fill_run modes : forall i crtcs mem info,
  (forall j c, (j < length modes)%nat -> crtcs !! j = Some (Some c) -> (c < length info)%nat) ->
  (forall c r, info !! c = Some r -> (length (fbs_connectors r) + length (joined i modes crtcs c) <= max_conn)%nat) ->
  exists info' mem', fill_modesets max_conn fb i modes crtcs mem info = Some (info', mem') /\ length info' = length info /\
    forall c r, info !! c = Some r -> exists r', info' !! c = Some r' /\ filled (joined i modes crtcs c) r r'.
Proof.
  induction modes as [|m modes IH]; intros i crtcs mem info Hin Hmax.
  { exists info, mem. split; [done|]. split; [done|]. intros c r Hr. exists r. split; [done|]. by split; [rewrite app_nil_r|]. }
  destruct crtcs as [|k crtcs].
  { exists info, mem. split; [done|]. split; [done|]. intros c r Hr. exists r. split; [done|]. by split; [rewrite app_nil_r|]. }
  assert (forall j c, (j < length modes)%nat -> crtcs !! j = Some (Some c) -> (c < length info)%nat) as Hin'.
  { intros j c Hj. apply (Hin (S j)). cbn. lia. }
  cbn [fill_modesets]. destruct m as [m|]; [destruct k as [k|]|]; [|apply (IH (S i) crtcs mem info Hin' Hmax)|].
  2: { cbn [mbind option_bind]. destruct (IH (S i) crtcs mem info Hin' Hmax) as (info' & mem' & E & Hl & Hr). by exists info', mem'. }
  destruct (lookup_lt_is_Some_2 info k (Hin 0%nat k ltac:(cbn; lia) eq_refl)) as [r Er]. rewrite Er. cbn [mbind option_bind].
  pose proof (Hmax k r Er) as Hk. cbn [joined] in Hk. rewrite decide_True in Hk by done. cbn [app length] in Hk.
  unfold join_crtc. destruct (next_alloc mem) as [ok mem1]. destruct (Nat.ltb_spec (length (fbs_connectors r)) max_conn); [|lia].
  cbn [mbind option_bind]. set (r1 := mk_fb_crtc _ _ _ _ _).
  destruct (IH (S i) crtcs mem1 (<[k := r1]> info)) as (info' & mem' & E & Hl & Hr).
  { intros j c Hj. rewrite length_insert. by apply (Hin' j). }
  { intros c r0 Hc. destruct (decide (c = k)) as [->|Hne].
    - rewrite list_lookup_insert_eq in Hc by (by apply lookup_lt_Some in Er). injection Hc as <-. cbn. rewrite length_app. cbn. lia.
    - rewrite list_lookup_insert_ne in Hc by done. pose proof (Hmax c r0 Hc) as Hc'. cbn [joined] in Hc'.
      rewrite decide_False in Hc' by done. done. }
  exists info', mem'. split; [done|]. split; [by rewrite Hl, length_insert|]. intros c r0 Hc. cbn [joined].
  destruct (decide (k = c)) as [->|Hne].
  - rewrite Er in Hc. injection Hc as <-. destruct (Hr c r1) as (r' & Hr' & F1 & F2 & F3).
    { rewrite list_lookup_insert_eq; [done|]. by apply lookup_lt_Some in Er. }
    exists r'. split; [done|]. split; [rewrite F1; cbn; by rewrite <-app_assoc|]. split; [done|]. by rewrite F3.
  - cbn [app]. apply Hr. by rewrite list_lookup_insert_ne.
Qed.
End Fill.

(** ** The setup *)

Lemma cmdline_modes_length l : forall enabled done cc mem ok modes l' mem',
  cmdline_modes l enabled done cc mem = Some (ok, modes, l', mem') -> length modes = length l /\ length l' = length l.
Proof.
  induction l as [|f l IH]; intros [|e enabled] d cc mem ok modes l' mem' E; cbn [cmdline_modes] in E;
    try (injection E as <- <- <- <-; cbn; by rewrite ?length_map).
  destruct e; cbn [negb] in E.
  - apply bind_Some in E as ([[m f'] mem1] & _ & E). destruct m as [m|].
    + apply bind_Some in E as ([[[ok1 modes1] l1] mem2] & E1 & E). injection E as <- <- <- <-. apply IH in E1 as [E1 E2]. cbn. lia.
    + injection E as <- <- <- <-. cbn. by rewrite length_map.
  - apply bind_Some in E as ([[[ok1 modes1] l1] mem2] & E1 & E). injection E as <- <- <- <-. apply IH in E1 as [E1 E2]. cbn. lia.
Qed.

Lemma target_preferred_length l : forall enabled modes w h mem modes' l' mem',
  drm_target_preferred l enabled modes w h mem = Some (modes', l', mem') -> length modes' = length modes /\ length l' = length l.
Proof.
  induction l as [|f l IH]; intros [|e enabled] [|m modes] w h mem modes' l' mem' E; cbn [drm_target_preferred] in E;
    try (by injection E as <- <- <-).
  destruct e; cbn [negb] in E.
  - apply bind_Some in E as ([[m1 f'] mem1] & _ & E). apply bind_Some in E as ([[modes1 l1] mem2] & E1 & E).
    injection E as <- <- <-. apply IH in E1 as [E1 E2]. cbn. lia.
  - apply bind_Some in E as ([[modes1 l1] mem2] & E1 & E). injection E as <- <- <-. apply IH in E1 as [E1 E2]. cbn. lia.
Qed.

Lemma target_cloned_length n l enabled mem ok modes l' mem' : length enabled = length l ->
  drm_target_cloned n l enabled mem = Some (ok, modes, l', mem') -> length modes = length l /\ length l' = length l.
Proof.
  intros He E. unfold drm_target_cloned in E. destruct (n >? 1); [injection E as <- <- <- <-; by rewrite length_map|].
  destruct (_ <=? 1); [injection E as <- <- <- <-; by rewrite length_map|].
  apply bind_Some in E as ([[[cc modes1] l1] mem1] & E1 & E). apply cmdline_modes_length in E1 as [L1 L2].
  destruct cc; [by injection E as <- <- <- <-|]. apply bind_Some in E as ([dmt s] & _ & E). destruct dmt as [dmt|].
  - injection E as <- <- <- <-. rewrite length_map, !length_zip. lia.
  - destruct (existsb _ _); [done|]. by injection E as <- <- <- <-.
Qed.

Lemma enable_length l : length (drm_enable_connectors l) = length l.
Proof. unfold drm_enable_connectors. destruct (existsb _ _); by rewrite length_map. Qed.

(** C37: the setup of the console, for a driver without [initial_config] and when no
    allocation fails: once the modes are picked it does not store outside the connector
    array of any mode set when there are two CRTCs or more, or room for every connector
    (with one CRTC and more clones than room it does: drm_fb_helper.c:808); a connector is only put on a CRTC its encoder can be on, and not two on
    one when there are more; and a CRTC without connectors has neither mode nor
    framebuffer, but keeps the mode desired before. *)
Theorem setup_crtcs_safe best_encoder num_connector max_conn h width height crtcs modes l mem1 :
  (length (connector_info h) <= num_connector)%nat ->
  ((1 < length (crtc_info h))%nat /\ (0 < max_conn)%nat) \/ (length (connector_info h) <= max_conn)%nat ->
  pick_modes best_encoder num_connector h (drm_enable_connectors (connector_info h)) width height [] = Some (crtcs, modes, l, mem1) ->
  exists h' mem', drm_setup_crtcs best_encoder num_connector max_conn None h width height [] = Some (h', mem') /\
    forall c r', crtc_info h' !! c = Some r' -> exists r, crtc_info h !! c = Some r /\
      (forall i, i ∈ fbs_connectors r' -> mode_of modes i <> None /\
         exists mask, best_encoder i = Some mask /\ Z.testbit mask (Z.of_nat c) = true) /\
      ((1 < length (crtc_info h))%nat -> (length (fbs_connectors r') <= 1)%nat) /\
      (fbs_connectors r' = [] -> fbs_mode r' = None /\ fbs_fb r' = None /\ desired_mode r' = desired_mode r).
Proof.
  intros Hn Hroom E. pose proof E as Ep. unfold pick_modes in Ep.
  apply bind_Some in Ep as ([[[cloned modes1] l1] mem2] & E1 & Ep).
  apply target_cloned_length in E1 as [L1 L2]; [|by rewrite enable_length].
  apply bind_Some in Ep as ([[modes2 l2] mem3] & E2 & Ep).
  assert (length modes2 = length (connector_info h) /\ length l2 = length (connector_info h)) as [L3 L4].
  { destruct cloned; [injection E2 as <- <- <-; lia|]. apply target_preferred_length in E2 as [-> ->]. lia. }
  clear E2 L1 L2 modes1 l1.
  pose proof (search_run (length (crtc_info h)) best_encoder num_connector modes2 width height l2 0 (replicate num_connector None) mem3
    ltac:(by rewrite length_replicate) ltac:(lia)) as Hs.
  destruct (drm_pick_crtcs _ _ _ _ _ _ _ _ _ _) as [[s a] mem4]. injection Ep as -> -> -> ->.
  destruct Hs as ((La & _ & Hv & _) & _). rewrite length_replicate in La.
  set (info0 := map clear_crtc (crtc_info h)).
  assert (length info0 = length (crtc_info h)) as Li by apply length_map.
  assert (forall x c, x ∈ joined 0 modes crtcs c -> ok_at (length (crtc_info h)) best_encoder modes x crtcs /\ crtcs !! x = Some (Some c)) as Hj.
  { intros x c Hx. apply joined_elem in Hx as (Hx & Hc & _). rewrite Nat.sub_0_r in Hc. split; [|done].
    apply (valid_at (length (crtc_info h)) best_encoder modes l 0 crtcs x c); [done|lia|done]. }
  assert ((1 < length (crtc_info h))%nat -> forall c, (length (joined 0 modes crtcs c) <= 1)%nat) as Hone.
  { intros Hc c. destruct (joined 0 modes crtcs c) as [|x [|y js]] eqn:Ej; [cbn; lia|cbn; lia|].
    pose proof (joined_increasing modes 0 crtcs c x y js Ej) as Hlt.
    assert (x ∈ joined 0 modes crtcs c) as Hx by (rewrite Ej; left).
    assert (y ∈ joined 0 modes crtcs c) as Hy by (rewrite Ej; right; left).
    destruct (Hj x c Hx) as [_ Ex]. destruct (Hj y c Hy) as [_ Ey]. apply joined_elem in Hy as (Hy & _).
    exfalso. apply (valid_no_clone (length (crtc_info h)) best_encoder modes l 0 crtcs x y c Hv Hc Hlt); [lia|done|done]. }
  destruct (fill_run max_conn (helper_fb h) modes 0 crtcs mem1 info0) as (info' & mem' & Ef & Lf & Hf).
  { intros j c Hjl Hc. rewrite Li.
    pose proof (valid_at (length (crtc_info h)) best_encoder modes l 0 crtcs j c Hv ltac:(lia) Hc) as Hok.
    unfold ok_at in Hok. rewrite Hc in Hok. by destruct Hok. }
  { intros c r Hr. apply list_lookup_fmap_Some_1 in Hr as (r0 & -> & _). cbn [clear_crtc fbs_connectors length].
    pose proof (joined_length modes 0 crtcs c). destruct Hroom as [[Hc Hm]|Hm]; [specialize (Hone Hc c)|]; lia. }
  eexists _, mem'. split.
  { unfold drm_setup_crtcs. cbn [next_alloc negb mbind option_bind]. rewrite E. cbn [mbind option_bind]. fold info0.
    rewrite Ef. reflexivity. }
  intros c r' Hr'. cbn [crtc_info] in Hr'. apply list_lookup_fmap_Some_1 in Hr' as (r2 & -> & Hr2).
  assert (c < length info0)%nat as Hc by (rewrite <-Lf; by apply lookup_lt_Some in Hr2).
  destruct (lookup_lt_is_Some_2 info0 c Hc) as [r1 Hr1]. destruct (Hf c r1 Hr1) as (r2' & Hr2' & F1 & F2 & F3).
  rewrite Hr2 in Hr2'. injection Hr2' as <-. apply list_lookup_fmap_Some_1 in Hr1 as (r0 & -> & Hr0).
  cbn [clear_crtc fbs_connectors app] in F1. exists r0. split; [done|].
  assert (fbs_connectors (clear_old_mode r2) = joined 0 modes crtcs c) as ->.
  { unfold clear_old_mode. rewrite <-F1. destruct (fbs_connectors r2) eqn:E2; cbn; by rewrite ?E2. }
  split; [|split; [by intros; apply Hone|]].
  - intros i Hi. destruct (Hj i c Hi) as [Hok Ei]. unfold ok_at in Hok. rewrite Ei in Hok.
    destruct Hok as (_ & Hm & mask & Hb & Ha). split; [done|]. exists mask. split; [done|]. unfold crtc_allowed in Ha.
    by destruct (Z.testbit mask (Z.of_nat c)).
  - intros Hnil. rewrite (F2 Hnil). done.
Qed.

(** ** Two connectors *)

Definition demo_mode (h v c : Z) : drm_display_mode := DRM_MODE String.EmptyString 0 c h h h h 0 v v v v 0 0.

Definition demo_cmdline (r : bool) : drm_cmdline_mode := mk_cmdline r 1024 768 60 false false false false.

Definition demo_connector (spec : bool) (l : list drm_display_mode) : fb_connector :=
  mk_fb_connector connector_status_connected l spec false 0 (demo_cmdline false).

(** The first connector's encoder can be on either CRTC, the second's on the first only. *)
Definition demo_encoder (i : nat) : option Z := if (i =? 0)%nat then Some 3 else Some 1.

Definition demo_conns : list fb_connector :=
  [demo_connector false [demo_mode 1024 768 65000]; demo_connector false [demo_mode 800 600 40000]].

Definition demo_modes : list (option drm_display_mode) := [Some (demo_mode 1024 768 65000); Some (demo_mode 800 600 40000)].

Lemma pick_crtcs_best_witness :
  drm_pick_crtcs 2 demo_encoder 2 demo_modes 2048 2048 demo_conns 0 [None; None] [] = (4, [Some 1%nat; Some 0%nat], []) /\
  (forall a', length a' = 2%nat -> valid 2 demo_encoder demo_modes demo_conns 0 a' -> score 2048 2048 demo_conns 0 a' <= 4).
Proof.
  pose proof (pick_crtcs_best 2 demo_encoder 2 demo_modes 2048 2048 demo_conns [None; None] [] eq_refl (Nat.le_refl 2)) as Hp.
  assert (drm_pick_crtcs 2 demo_encoder 2 demo_modes 2048 2048 demo_conns 0 [None; None] [] = (4, [Some 1%nat; Some 0%nat], [])) as E
    by (vm_compute; reflexivity).
  rewrite E in Hp. destruct Hp as (_ & _ & _ & Ho). split; [exact E|]. apply Ho. reflexivity.
Defined.

Definition demo_helper : fb_helper :=
  mk_fb_helper None demo_conns [mk_fb_crtc [] None None None 256; mk_fb_crtc [] None None None 256] false.

Lemma setup_crtcs_safe_witness : exists h' mem', drm_setup_crtcs demo_encoder 2 1 None demo_helper 2048 2048 [] = Some (h', mem') /\
  forall c r', crtc_info h' !! c = Some r' -> (length (fbs_connectors r') <= 1)%nat.
Proof.
  destruct (setup_crtcs_safe demo_encoder 2 1 demo_helper 2048 2048 [Some 1%nat; Some 0%nat] demo_modes demo_conns [])
    as (h' & mem' & E & Hc); [vm_compute; lia|left; vm_compute; lia|vm_compute; reflexivity|].
  exists h', mem'. split; [exact E|]. intros c r' Hr. destruct (Hc c r' Hr) as (_ & _ & _ & Hone & _). apply Hone. vm_compute. lia.
Defined.

(** With one CRTC and two connectors whose modes on the command line differ, neither of
    which is the standard mode, cloning is said to be possible. *)
Example cloned_with_different_modes :
  let a := demo_mode 1024 768 65000 in let b := demo_mode 1024 768 63500 in
  drm_mode_equal a b = false /\
  option_map (fun r => (r.1.1.1, r.1.1.2)) (drm_target_cloned 1 [demo_connector true [a]; demo_connector true [b]] [true; true] []) =
    Some (true, [Some a; Some b]).
Proof. split; vm_compute; reflexivity. Qed.
