(* ===== verification/Vblank.v ===== *)
(** * Vertical blanking: counters, references and events (drm_irq.c, drm_fops.c)

    Every CRTC has a count of vertical blanks, a count of those that need the interrupt
    on, and a ring of two timestamps.  A client waits for a count, or asks for an event
    that is queued on its file when the count is reached.  The driver's callbacks and the
    clock are a class over the state of the hardware.  A reference dropped below zero, an
    event for a file that is gone and a CRTC that does not exist are faults. *)

From S2P Require Import Prelude.

Open Scope Z_scope.

Record timeval := mk_timeval { tv_sec : Z; tv_usec : Z }.

(** The callbacks of [struct drm_driver], the kernel's clock and its conversion of times
    ([timeval_to_ns] goes through the kernel's clock ticks), and the hooks around the
    interrupt handler. *)
Class VblankDriver (D : Type) := {
  get_vblank_counter : nat -> D -> Z * D;
  enable_vblank : nat -> D -> Z * D;
  disable_vblank : nat -> D -> D;
  get_vblank_timestamp : option (nat -> Z -> Z -> D -> Z * timeval * D);
  do_gettimeofday : D -> timeval * D;
  timeval_to_ns : timeval -> Z;
  DRM_HZ : Z;
  irq_preinstall : D -> D;
  install_irq_handler : D -> bool * D;
  irq_postinstall : D -> Z * D;
  irq_uninstall : D -> D }.

(** The fields of [struct drm_device] that are arrays over the CRTCs; the ring of
    timestamps has [DRM_VBLANKTIME_RBSIZE] = 2 slots. *)
Record vblank_crtc := mk_crtc {
  vblank_count : Z; vblank_time : timeval * timeval; vblank_refcount : Z; last_vblank : Z;
  vblank_enabled : bool; vblank_inmodeset : Z; last_vblank_wait : Z }.

(** [struct drm_pending_vblank_event], with [struct drm_event_vblank]. *)
Record pending_event := mk_event {
  ev_pipe : nat; ev_file : nat; ev_type : Z; user_data : Z;
  ev_sequence : Z; ev_sec : Z; ev_usec : Z }.

(** What [struct drm_file] has for events. *)
Record file_events := mk_file { event_space : Z; event_list : list pending_event }.

(** [disable_timer] is the delay the timer was last set to; Poll has the timers. *)
Record vblank_device (D : Type) := mk_dev {
  crtcs : list vblank_crtc; vblank_event_list : list pending_event; files : gmap nat file_events;
  vblank_disable_allowed : bool; irq_enabled : bool; max_vblank_count : Z;
  disable_timer : option Z; driver : D }.
Arguments mk_dev {_}. Arguments crtcs {_}. Arguments vblank_event_list {_}. Arguments files {_}.
Arguments vblank_disable_allowed {_}. Arguments irq_enabled {_}. Arguments max_vblank_count {_}.
Arguments disable_timer {_}. Arguments driver {_}.

Definition DRM_TIMESTAMP_MAXRETRIES : nat := 3.
Definition DRM_REDUNDANT_VBLIRQ_THRESH_NS : Z := 1000000.
Definition DRM_CALLED_FROM_VBLIRQ : Z := 1.
Definition DRM_EVENT_VBLANK : Z := 1.
Definition DRM_EVENT_FLIP_COMPLETE : Z := 2.
Definition drm_vblank_offdelay : Z := 5000.
Definition drm_timestamp_precision : Z := 20.
(** [sizeof (struct drm_event_vblank)]. *)
Definition event_size : Z := 32.

Definition _DRM_VBLANK_RELATIVE : Z := 0x1.
Definition _DRM_VBLANK_HIGH_CRTC_MASK : Z := 0x3e.
Definition _DRM_VBLANK_EVENT : Z := 0x4000000.
Definition _DRM_VBLANK_NEXTONMISS : Z := 0x10000000.
Definition _DRM_VBLANK_SECONDARY : Z := 0x20000000.
Definition _DRM_VBLANK_SIGNAL : Z := 0x40000000.
Definition _DRM_VBLANK_HIGH_CRTC_SHIFT : Z := 1.
Definition _DRM_VBLANK_TYPES_MASK : Z := 1.
Definition _DRM_VBLANK_FLAGS_MASK : Z :=
  Z.lor (Z.lor _DRM_VBLANK_EVENT _DRM_VBLANK_SIGNAL) (Z.lor _DRM_VBLANK_SECONDARY _DRM_VBLANK_NEXTONMISS).

(** [(a - b) <= (1 << 23)] on unsigned 32 bit counts: [a] has reached [b]. *)
Definition reached (a b : Z) : bool := u32 (a - b) <=? 2 ^ 23.

Definition with_count (n : Z) (r : vblank_crtc) : vblank_crtc :=
  mk_crtc n (vblank_time r) (vblank_refcount r) (last_vblank r) (vblank_enabled r) (vblank_inmodeset r) (last_vblank_wait r).
Definition with_time (t : timeval * timeval) (r : vblank_crtc) : vblank_crtc :=
  mk_crtc (vblank_count r) t (vblank_refcount r) (last_vblank r) (vblank_enabled r) (vblank_inmodeset r) (last_vblank_wait r).
Definition with_refcount (n : Z) (r : vblank_crtc) : vblank_crtc :=
  mk_crtc (vblank_count r) (vblank_time r) n (last_vblank r) (vblank_enabled r) (vblank_inmodeset r) (last_vblank_wait r).
Definition with_last (n : Z) (r : vblank_crtc) : vblank_crtc :=
  mk_crtc (vblank_count r) (vblank_time r) (vblank_refcount r) n (vblank_enabled r) (vblank_inmodeset r) (last_vblank_wait r).
Definition with_enabled (b : bool) (r : vblank_crtc) : vblank_crtc :=
  mk_crtc (vblank_count r) (vblank_time r) (vblank_refcount r) (last_vblank r) b (vblank_inmodeset r) (last_vblank_wait r).
Definition with_inmodeset (n : Z) (r : vblank_crtc) : vblank_crtc :=
  mk_crtc (vblank_count r) (vblank_time r) (vblank_refcount r) (last_vblank r) (vblank_enabled r) n (last_vblank_wait r).
Definition with_last_wait (n : Z) (r : vblank_crtc) : vblank_crtc :=
  mk_crtc (vblank_count r) (vblank_time r) (vblank_refcount r) (last_vblank r) (vblank_enabled r) (vblank_inmodeset r) n.

(** The slot of the ring for a count. *)
Definition vblanktimestamp (r : vblank_crtc) (count : Z) : timeval :=
  if count mod 2 =? 0 then (vblank_time r).1 else (vblank_time r).2.
Definition set_vblanktimestamp (count : Z) (t : timeval) (r : vblank_crtc) : vblank_crtc :=
  with_time (if count mod 2 =? 0 then (t, (vblank_time r).2) else ((vblank_time r).1, t)) r.

(** ** Programs over the device *)

Definition V (D A : Type) : Type := Prog (vblank_device D) A.

Section Vblank.
Context {D : Type} `{VblankDriver D}.
Implicit Types s : vblank_device D.

Definition upd_crtcs (f : list vblank_crtc -> list vblank_crtc) : V D unit := modify (fun s =>
  mk_dev (f (crtcs s)) (vblank_event_list s) (files s) (vblank_disable_allowed s) (irq_enabled s) (max_vblank_count s)
    (disable_timer s) (driver s)).
Definition set_events (l : list pending_event) : V D unit := modify (fun s =>
  mk_dev (crtcs s) l (files s) (vblank_disable_allowed s) (irq_enabled s) (max_vblank_count s) (disable_timer s) (driver s)).
Definition set_files (l : gmap nat file_events) : V D unit := modify (fun s =>
  mk_dev (crtcs s) (vblank_event_list s) l (vblank_disable_allowed s) (irq_enabled s) (max_vblank_count s)
    (disable_timer s) (driver s)).
Definition set_disable_allowed (b : bool) : V D unit := modify (fun s =>
  mk_dev (crtcs s) (vblank_event_list s) (files s) b (irq_enabled s) (max_vblank_count s) (disable_timer s) (driver s)).
Definition set_irq_enabled (b : bool) : V D unit := modify (fun s =>
  mk_dev (crtcs s) (vblank_event_list s) (files s) (vblank_disable_allowed s) b (max_vblank_count s) (disable_timer s) (driver s)).
Definition set_timer (t : Z) : V D unit := modify (fun s =>
  mk_dev (crtcs s) (vblank_event_list s) (files s) (vblank_disable_allowed s) (irq_enabled s) (max_vblank_count s)
    (Some t) (driver s)).

(** A call into the driver or the kernel. *)
Definition call {A} (f : D -> A * D) : V D A := fun s =>
  let '(a, d) := f (driver s) in
  Some (a, mk_dev (crtcs s) (vblank_event_list s) (files s) (vblank_disable_allowed s) (irq_enabled s)
              (max_vblank_count s) (disable_timer s) d).
Definition call_ (f : D -> D) : V D unit := call (fun d => (tt, f d)).

Definition get_crtc (i : nat) : V D vblank_crtc := fun s => r ← crtcs s !! i; Some (r, s).
Definition upd_crtc (i : nat) (f : vblank_crtc -> vblank_crtc) : V D unit :=
  _ ← get_crtc i; upd_crtcs (alter f i).

Definition get_file (f : nat) : V D file_events := fun s => p ← files s !! f; Some (p, s).
Definition upd_file (f : nat) (g : file_events -> file_events) : V D unit :=
  _ ← get_file f; fs ← gets files; set_files (alter g f fs).

(** ** Counters and timestamps *)

Definition drm_get_last_vbltimestamp (crtc : nat) (flags : Z) : V D (Z * timeval) :=
  let max_error := s32 (s32 drm_timestamp_precision * 1000) in
  let fallback := t ← call do_gettimeofday; mret (0, t) in
  match get_vblank_timestamp with
  | Some get =>
      if max_error >? 0 then
        '(ret, t) ← call (get crtc max_error flags);
        if ret >? 0 then mret (u32 ret, t) else fallback
      else fallback
  | None => fallback
  end.

Definition drm_vblank_count (crtc : nat) : V D Z := r ← get_crtc crtc; mret (vblank_count r).

(** The count cannot change under the lock of the callers: one pass of the loop. *)
Definition drm_vblank_count_and_time (crtc : nat) : V D (Z * timeval) :=
  r ← get_crtc crtc; mret (vblank_count r, vblanktimestamp r (vblank_count r)).

(** [memset] with -1. *)
Definition clear_vblank_timestamps (crtc : nat) : V D unit :=
  upd_crtc crtc (with_time (mk_timeval (-1) (-1), mk_timeval (-1) (-1))).

(** The loop of [vblank_disable_and_save], with [count] passes left. *)
Fixpoint save_loop (count : nat) (crtc : nat) : V D (Z * timeval) :=
  c ← call (get_vblank_counter crtc);
  _ ← upd_crtc crtc (with_last c);
  '(vblrc, t) ← drm_get_last_vbltimestamp crtc 0;
  c' ← call (get_vblank_counter crtc);
  if c =? c' then mret (vblrc, t) else
  match count with
  | S (S _ as count) => if negb (vblrc =? 0) then save_loop count crtc else mret (vblrc, t)
  | _ => mret (0, t)
  end.

(** Differences of times fit in 64 bits. *)
Definition vblank_disable_and_save (crtc : nat) : V D unit :=
  _ ← call_ (disable_vblank crtc);
  _ ← upd_crtc crtc (with_enabled false);
  '(vblrc, tvblank) ← save_loop DRM_TIMESTAMP_MAXRETRIES crtc;
  r ← get_crtc crtc;
  let diff_ns := timeval_to_ns tvblank - timeval_to_ns (vblanktimestamp r (vblank_count r)) in
  _ ← (if (vblrc >? 0) && (Z.abs diff_ns >? 1000000)
       then upd_crtc crtc (fun r => with_count (u32 (vblank_count r + 1)) r) else mret tt);
  clear_vblank_timestamps crtc.

(** The loop over the CRTCs. *)
Fixpoint disable_loop (l : list nat) : V D unit :=
  match l with
  | [] => mret tt
  | i :: l =>
      r ← get_crtc i;
      _ ← (if (vblank_refcount r =? 0) && vblank_enabled r then vblank_disable_and_save i else mret tt);
      disable_loop l
  end.

Definition vblank_disable_fn : V D unit :=
  ok ← gets vblank_disable_allowed;
  if negb ok then mret tt else
  n ← gets (fun s => length (crtcs s));
  disable_loop (seq 0 n).

(** The loop of [drm_update_vblank_count] ends when two reads of the counter agree. *)
Fixpoint settle_loop (fuel : nat) (crtc : nat) : V D (Z * Z * timeval) :=
  match fuel with
  | O => fun _ => None
  | S fuel =>
      cur_vblank ← call (get_vblank_counter crtc);
      '(rc, t) ← drm_get_last_vbltimestamp crtc 0;
      c' ← call (get_vblank_counter crtc);
      if cur_vblank =? c' then mret (cur_vblank, rc, t) else settle_loop fuel crtc
  end.

(** How many blanks the counter says were missed. *)
Definition missed (max cur_vblank last : Z) : Z :=
  let diff := u32 (cur_vblank - last) in
  if cur_vblank <? last then u32 (diff + max) else diff.

Context (fuel : nat).

Definition drm_update_vblank_count (crtc : nat) : V D unit :=
  '(cur_vblank, rc, t_vblank) ← settle_loop fuel crtc;
  r ← get_crtc crtc;
  max ← gets max_vblank_count;
  let diff := missed max cur_vblank (last_vblank r) in
  _ ← (if negb (rc =? 0) then upd_crtc crtc (set_vblanktimestamp (u32 (vblank_count r + diff)) t_vblank) else mret tt);
  upd_crtc crtc (fun r => with_count (u32 (vblank_count r + diff)) r).

(** ** References *)

Definition drm_vblank_get (crtc : nat) : V D Z :=
  r ← get_crtc crtc;
  _ ← upd_crtc crtc (with_refcount (vblank_refcount r + 1));
  if vblank_refcount r + 1 =? 1 then
    if negb (vblank_enabled r) then
      ret ← call (enable_vblank crtc);
      if negb (ret =? 0) then
        _ ← upd_crtc crtc (fun r => with_refcount (vblank_refcount r - 1) r);
        mret ret
      else
        _ ← upd_crtc crtc (with_enabled true);
        _ ← drm_update_vblank_count crtc;
        mret 0
    else mret 0
  else if negb (vblank_enabled r) then
    _ ← upd_crtc crtc (fun r => with_refcount (vblank_refcount r - 1) r);
    mret (- EINVAL)
  else mret 0.

Definition drm_vblank_put (crtc : nat) : V D unit :=
  r ← get_crtc crtc;
  _ ← (if vblank_refcount r =? 0 then fail else mret tt);
  _ ← upd_crtc crtc (with_refcount (vblank_refcount r - 1));
  if (vblank_refcount r - 1 =? 0) && (drm_vblank_offdelay >? 0)
  then set_timer (drm_vblank_offdelay * DRM_HZ / 1000) else mret tt.

Definition drm_vblank_pre_modeset (crtc : nat) : V D unit :=
  n ← gets (fun s => length (crtcs s));
  if (n =? 0)%nat then mret tt else
  r ← get_crtc crtc;
  if negb (vblank_inmodeset r =? 0) then mret tt else
  _ ← upd_crtc crtc (with_inmodeset 1);
  ret ← drm_vblank_get crtc;
  if ret =? 0 then upd_crtc crtc (fun r => with_inmodeset (Z.lor (vblank_inmodeset r) 2) r) else mret tt.

Definition drm_vblank_post_modeset (crtc : nat) : V D unit :=
  n ← gets (fun s => length (crtcs s));
  if (n =? 0)%nat then mret tt else
  r ← get_crtc crtc;
  if vblank_inmodeset r =? 0 then mret tt else
  _ ← set_disable_allowed true;
  _ ← (if negb (Z.land (vblank_inmodeset r) 2 =? 0) then drm_vblank_put crtc else mret tt);
  upd_crtc crtc (with_inmodeset 0).

(** [modeset] is DRIVER_MODESET; the command 1 is before, 2 is after. *)
Definition drm_modeset_ctl (modeset : bool) (crtc cmd : Z) : V D Z :=
  n ← gets (fun s => length (crtcs s));
  if (n =? 0)%nat then mret 0 else
  if modeset then mret 0 else
  if crtc >=? Z.of_nat n then mret (- EINVAL) else
  if cmd =? 1 then _ ← drm_vblank_pre_modeset (Z.to_nat crtc); mret 0
  else if cmd =? 2 then _ ← drm_vblank_post_modeset (Z.to_nat crtc); mret 0
  else mret (- EINVAL).

(** ** Events *)

Definition with_event_time (sq : Z) (now : timeval) (e : pending_event) : pending_event :=
  mk_event (ev_pipe e) (ev_file e) (ev_type e) (user_data e) (u32 sq) (u32 (tv_sec now)) (u32 (tv_usec now)).

Definition send_vblank_event (e : pending_event) (sq : Z) (now : timeval) : V D unit :=
  upd_file (ev_file e) (fun p => mk_file (event_space p) (event_list p ++ [with_event_time sq now e])).

(** [crtc] is -1 when the flip was not on a CRTC that counts. *)
Definition drm_send_vblank_event (crtc : Z) (e : pending_event) : V D unit :=
  '(sq, now) ← (if crtc >=? 0 then drm_vblank_count_and_time (Z.to_nat crtc)
                else now ← call do_gettimeofday; mret (0, now));
  send_vblank_event (mk_event (Z.to_nat crtc) (ev_file e) (ev_type e) (user_data e) (ev_sequence e) (ev_sec e) (ev_usec e)) sq now.

(** The walk over the pending events: those that [due] picks lose their reference and
    are sent; the others stay. *)
Fixpoint send_loop (due : pending_event -> bool) (sq : Z) (now : timeval) (l : list pending_event) : V D (list pending_event) :=
  match l with
  | [] => mret []
  | e :: l =>
      if due e then
        _ ← drm_vblank_put (ev_pipe e);
        _ ← send_vblank_event e sq now;
        send_loop due sq now l
      else
        l ← send_loop due sq now l;
        mret (e :: l)
  end.

Definition drm_vblank_off (crtc : nat) : V D unit :=
  _ ← vblank_disable_and_save crtc;
  '(sq, now) ← drm_vblank_count_and_time crtc;
  l ← gets vblank_event_list;
  l ← send_loop (fun e => ev_pipe e =? crtc)%nat sq now l;
  set_events l.

Definition drm_handle_vblank_events (crtc : nat) : V D unit :=
  '(sq, now) ← drm_vblank_count_and_time crtc;
  l ← gets vblank_event_list;
  l ← send_loop (fun e => (ev_pipe e =? crtc)%nat && reached sq (ev_sequence e)) sq now l;
  set_events l.

Definition drm_handle_vblank (crtc : nat) : V D bool :=
  n ← gets (fun s => length (crtcs s));
  if (n =? 0)%nat then mret false else
  r ← get_crtc crtc;
  if negb (vblank_enabled r) then mret false else
  let vblcount := vblank_count r in
  '(_, tvblank) ← drm_get_last_vbltimestamp crtc DRM_CALLED_FROM_VBLIRQ;
  let diff_ns := timeval_to_ns tvblank - timeval_to_ns (vblanktimestamp r vblcount) in
  _ ← (if Z.abs diff_ns >? DRM_REDUNDANT_VBLIRQ_THRESH_NS then
         _ ← upd_crtc crtc (set_vblanktimestamp (u32 (vblcount + 1)) tvblank);
         upd_crtc crtc (fun r => with_count (u32 (vblank_count r + 1)) r)
       else mret tt);
  _ ← drm_handle_vblank_events crtc;
  mret true.

(** [union drm_wait_vblank]: the request and the reply share their first fields, and the
    signal of the one is the seconds of the other. *)
Record wait_vblank := mk_wait { w_type : Z; w_sequence : Z; w_signal : Z; w_usec : Z }.

Definition with_sequence (n : Z) (w : wait_vblank) : wait_vblank := mk_wait (w_type w) n (w_signal w) (w_usec w).

(** [alloc_ok] says whether the event can be allocated. *)
Definition drm_queue_vblank_event (pipe : nat) (w : wait_vblank) (file_priv : nat) (alloc_ok : bool) : V D (Z * wait_vblank) :=
  if negb alloc_ok then _ ← drm_vblank_put pipe; mret (- ENOMEM, w) else
  p ← get_file file_priv;
  if event_space p <? event_size then _ ← drm_vblank_put pipe; mret (- EBUSY, w) else
  _ ← upd_file file_priv (fun p => mk_file (event_space p - event_size) (event_list p));
  '(sq, now) ← drm_vblank_count_and_time pipe;
  let w := if negb (Z.land (w_type w) _DRM_VBLANK_NEXTONMISS =? 0) && reached sq (w_sequence w)
           then with_sequence (u32 (sq + 1)) w else w in
  let e := mk_event pipe file_priv DRM_EVENT_VBLANK (w_signal w) (w_sequence w) 0 0 in
  if reached sq (w_sequence w) then
    _ ← drm_vblank_put pipe;
    _ ← send_vblank_event e sq now;
    mret (0, with_sequence sq w)
  else
    l ← gets vblank_event_list;
    _ ← set_events (l ++ [e]);
    mret (0, w).

(** What [drm_wait_vblank] does after it has got its reference: return, queue an event,
    or wait for a count. *)
Inductive wait_next : Type :=
  | WaitDone (ret : Z)
  | WaitEvent (crtc : nat) (w : wait_vblank)
  | WaitFor (crtc : nat) (w : wait_vblank).

Definition wait_vblank_start (irq : Z) (w : wait_vblank) : V D wait_next :=
  on ← gets irq_enabled;
  if (irq =? 0) || negb on then mret (WaitDone (- EINVAL)) else
  if negb (Z.land (w_type w) _DRM_VBLANK_SIGNAL =? 0) then mret (WaitDone (- EINVAL)) else
  if negb (Z.ldiff (w_type w) (Z.lor (Z.lor _DRM_VBLANK_TYPES_MASK _DRM_VBLANK_FLAGS_MASK) _DRM_VBLANK_HIGH_CRTC_MASK) =? 0)
  then mret (WaitDone (- EINVAL)) else
  let flags := Z.land (w_type w) _DRM_VBLANK_FLAGS_MASK in
  let high_crtc := Z.land (w_type w) _DRM_VBLANK_HIGH_CRTC_MASK in
  let crtc := if negb (high_crtc =? 0) then Z.shiftr high_crtc _DRM_VBLANK_HIGH_CRTC_SHIFT
              else if negb (Z.land flags _DRM_VBLANK_SECONDARY =? 0) then 1 else 0 in
  n ← gets (fun s => length (crtcs s));
  if crtc >=? Z.of_nat n then mret (WaitDone (- EINVAL)) else
  let crtc := Z.to_nat crtc in
  ret ← drm_vblank_get crtc;
  if negb (ret =? 0) then mret (WaitDone ret) else
  sq ← drm_vblank_count crtc;
  let w := if Z.land (w_type w) _DRM_VBLANK_TYPES_MASK =? _DRM_VBLANK_RELATIVE
           then mk_wait (Z.ldiff (w_type w) _DRM_VBLANK_RELATIVE) (u32 (w_sequence w + sq)) (w_signal w) (w_usec w) else w in
  if negb (Z.land flags _DRM_VBLANK_EVENT =? 0) then mret (WaitEvent crtc w) else
  let w := if negb (Z.land flags _DRM_VBLANK_NEXTONMISS =? 0) && reached sq (w_sequence w)
           then with_sequence (u32 (sq + 1)) w else w in
  _ ← upd_crtc crtc (with_last_wait (w_sequence w));
  mret (WaitFor crtc w).

(** The condition the wait is for. *)
Definition wait_over (crtc : nat) (w : wait_vblank) (s : vblank_device D) : bool :=
  match crtcs s !! crtc with
  | Some r => reached (vblank_count r) (w_sequence w) || negb (irq_enabled s)
  | None => false
  end.

(** After the wait, which gave [ret]. *)
Definition wait_vblank_end (crtc : nat) (w : wait_vblank) (ret : Z) : V D (Z * wait_vblank) :=
  w ← (if negb (ret =? - EINTR) then
         '(sq, now) ← drm_vblank_count_and_time crtc;
         mret (mk_wait (w_type w) sq (tv_sec now) (tv_usec now))
       else mret w);
  _ ← drm_vblank_put crtc;
  mret (ret, w).

(** [DRM_WAIT_ON]: [sleep] is what [cv_reltimedwait_sig] returns each time, with what the
    rest of the system does in the meantime. *)
Fixpoint DRM_WAIT_ON (condition : vblank_device D -> bool) (sleep : list (V D Z)) : V D Z :=
  over ← gets condition;
  if (over : bool) then mret 0 else
  match sleep with
  | [] => fail
  | cv_wait :: sleep =>
      ret ← cv_wait;
      if ret =? -1 then mret EBUSY else
      if ret =? 0 then mret EINTR else DRM_WAIT_ON condition sleep
  end.

Definition drm_wait_vblank (irq : Z) (w : wait_vblank) (file : nat) (alloc_ok : bool) (sleep : list (V D Z)) : V D (Z * wait_vblank) :=
  next ← wait_vblank_start irq w;
  match next with
  | WaitDone ret => mret (ret, w)
  | WaitEvent crtc w => drm_queue_vblank_event crtc w file alloc_ok
  | WaitFor crtc w =>
      ret ← DRM_WAIT_ON (wait_over crtc w) sleep;
      wait_vblank_end crtc w ret
  end.

(** ** Files (drm_fops.c) *)

(** What [drm_open_helper] sets up, and the number of bytes set aside. *)
Definition open_events (f : nat) : V D unit :=
  fs ← gets files; set_files (<[f := mk_file 4096 []]> fs).

Fixpoint release_loop (f : nat) (l : list pending_event) : V D (list pending_event) :=
  match l with
  | [] => mret []
  | e :: l =>
      if (ev_file e =? f)%nat then _ ← drm_vblank_put (ev_pipe e); release_loop f l
      else l ← release_loop f l; mret (e :: l)
  end.

(** The file is freed by its caller, [drm_release]. *)
Definition drm_events_release (f : nat) : V D unit :=
  l ← gets vblank_event_list;
  l ← release_loop f l;
  _ ← set_events l;
  fs ← gets files;
  set_files (delete f fs).

Definition drm_dequeue_event (f : nat) (total max : Z) : V D (option pending_event) :=
  p ← get_file f;
  match event_list p with
  | [] => mret None
  | e :: l =>
      if event_size + total >? max then mret None else
      _ ← upd_file f (fun p => mk_file (event_space p + event_size) l);
      mret (Some e)
  end.

(** The loop of [drm_read]; [copy] says whether each event can be copied to the user's
    memory.  [n] bounds the events there are. *)
Fixpoint read_loop (n : nat) (f : nat) (total max : Z) (copy : list bool) (got : list pending_event)
    : V D (Z * list pending_event) :=
  match n with
  | O => mret (total, got)
  | S n =>
      e ← drm_dequeue_event f total max;
      match e with
      | None => mret (total, got)
      | Some e =>
          if hd true copy then read_loop n f (total + event_size) max (tl copy) (got ++ [e]) else mret (0, got)
      end
  end.

(** After the wait for an event, which never fails: [DRM_WAIT] gives positive errors.
    Returns the number of bytes and what was copied. *)
Definition drm_read (f : nat) (max : Z) (copy : list bool) : V D (Z * list pending_event) :=
  p ← get_file f;
  read_loop (S (length (event_list p))) f 0 max copy [].

(** ** Page flips (drm_crtc.c and intel_display.c) *)

(** The event of [drm_mode_page_flip_ioctl]: its space in the file is taken at once. *)
Definition page_flip_event (file : nat) (data : Z) (alloc_ok : bool) : V D (option pending_event) :=
  p ← get_file file;
  if event_space p <? event_size then mret None else
  _ ← upd_file file (fun p => mk_file (event_space p - event_size) (event_list p));
  if negb alloc_ok then
    _ ← upd_file file (fun p => mk_file (event_space p + event_size) (event_list p));
    mret None
  else mret (Some (mk_event 0 file DRM_EVENT_FLIP_COMPLETE data 0 0 0)).

(** The references of [intel_crtc_page_flip]; [busy] is a flip that has not completed,
    [queue_flip] what the generation's callback returns. *)
Definition intel_crtc_page_flip (pipe : nat) (work_ok busy : bool) (queue_flip : Z) : V D Z :=
  if negb work_ok then mret (- ENOMEM) else
  ret ← drm_vblank_get pipe;
  if negb (ret =? 0) then mret ret else
  if busy then _ ← drm_vblank_put pipe; mret (- EBUSY) else
  if negb (queue_flip =? 0) then _ ← drm_vblank_put pipe; mret queue_flip else mret 0.

(** The end of [drm_mode_page_flip_ioctl], with an event: what it returns, and the event
    that the driver has from then on. *)
Definition page_flip_with_event (pipe file : nat) (data : Z) (alloc_ok : bool) (page_flip : V D Z)
    : V D (Z * option pending_event) :=
  e ← page_flip_event file data alloc_ok;
  match e with
  | None => mret (- ENOMEM, None)
  | Some e =>
      ret ← page_flip;
      if negb (ret =? 0) then
        _ ← upd_file file (fun p => mk_file (event_space p + event_size) (event_list p));
        mret (ret, None)
      else mret (0, Some e)
  end.

(** A flip that has completed. *)
Definition do_intel_finish_page_flip (pipe : nat) (event : option pending_event) : V D unit :=
  _ ← match event with
      | Some e => drm_send_vblank_event (Z.of_nat pipe) e
      | None => mret tt
      end;
  drm_vblank_put pipe.

(** ** The interrupt *)

(** The timer is deleted first; the arrays are freed after the interrupts are off. *)
Definition drm_vblank_cleanup : V D unit :=
  n ← gets (fun s => length (crtcs s));
  if (n =? 0)%nat then mret tt else
  _ ← vblank_disable_fn;
  upd_crtcs (fun _ => []).

(** [alloc] has the outcomes of the eight allocations; on a failure the number of CRTCs
    goes back to zero, and [vblank_disable_fn], if it is allowed to, reads arrays that
    are not all there. *)
Definition drm_vblank_init (num_crtcs : nat) (alloc : list bool) : V D Z :=
  let zero := mk_timeval 0 0 in
  if forallb id (take 8 alloc) then
    _ ← upd_crtcs (fun _ => replicate num_crtcs (mk_crtc 0 (zero, zero) 0 0 false 0 0));
    _ ← set_disable_allowed false;
    mret 0
  else
    ok ← gets vblank_disable_allowed;
    if (ok && negb (num_crtcs =? 0)%nat) : bool then fail else
    _ ← upd_crtcs (fun _ => []);
    mret (- ENOMEM).

(** [irq] and [dev_private] of the device, DRIVER_HAVE_IRQ of the driver. *)
Definition drm_irq_install (have_irq : bool) (irq : Z) (dev_private : bool) : V D Z :=
  if negb have_irq then mret (- EINVAL) else
  if irq =? 0 then mret (- EINVAL) else
  if negb dev_private then mret (- EINVAL) else
  on ← gets irq_enabled;
  if (on : bool) then mret (- EBUSY) else
  _ ← set_irq_enabled true;
  _ ← call_ irq_preinstall;
  ok ← call install_irq_handler;
  if negb (ok : bool) then _ ← set_irq_enabled false; mret (- EFAULT) else
  ret ← call irq_postinstall;
  if ret <? 0 then _ ← set_irq_enabled false; mret ret else mret 0.

Fixpoint uninstall_loop (l : list nat) : V D unit :=
  match l with
  | [] => mret tt
  | i :: l =>
      _ ← upd_crtc i (with_enabled false);
      c ← call (get_vblank_counter i);
      _ ← upd_crtc i (with_last c);
      uninstall_loop l
  end.

Definition drm_irq_uninstall (have_irq : bool) : V D Z :=
  if negb have_irq then mret (- EINVAL) else
  on ← gets irq_enabled;
  _ ← set_irq_enabled false;
  n ← gets (fun s => length (crtcs s));
  _ ← uninstall_loop (seq 0 n);
  if negb (on : bool) then mret (- EINVAL) else
  _ ← call_ irq_uninstall;
  mret 0.

(** [func] 2 installs and 3 uninstalls; [if_version] is below 1.2 when [old]. *)
Definition drm_control (func irq pdev_irq : Z) (have_irq modeset old dev_private : bool) : V D Z :=
  if func =? 2 then
    if negb have_irq then mret 0 else
    if modeset then mret 0 else
    if old && negb (irq =? pdev_irq) then mret (- EINVAL) else
    drm_irq_install have_irq pdev_irq dev_private
  else if func =? 3 then
    if negb have_irq then mret 0 else
    if modeset then mret 0 else
    drm_irq_uninstall have_irq
  else mret (- EINVAL).
End Vblank.
