(* ===== verification/VblankFacts.v ===== *)
(** * What the vertical blank code guarantees

    In every reachable state the references of a CRTC are exactly those of pending
    events, mode sets and callers, and the event space of a file is what its events leave
    of 4096 bytes; no operation faults.  An interrupt delivers exactly the events that are
    due.  The count follows the hardware counter over the time interrupts are off, but for
    one blank when the counter wraps. *)

From S2P Require Import Prelude Vblank.

Open Scope Z_scope.

(** How many elements satisfy [p]. *)
Definition count {A} (p : A -> bool) (l : list A) : Z := Z.of_nat (length (List.filter p l)).

Lemma count_app {A} (p : A -> bool) l l' : count p (l ++ l') = count p l + count p l'.
Proof. unfold count. rewrite List.filter_app, length_app. lia. Qed.

Lemma count_cons {A} (p : A -> bool) a l : count p (a :: l) = (if p a then 1 else 0) + count p l.
Proof. unfold count. cbn. destruct (p a); cbn; lia. Qed.

Lemma count_nil {A} (p : A -> bool) : count p [] = 0.
Proof. done. Qed.

Lemma count_nonneg {A} (p : A -> bool) l : 0 <= count p l.
Proof. unfold count. lia. Qed.

Definition add_ref (h : nat -> Z) (i : nat) (d : Z) : nat -> Z := fun j => if (j =? i)%nat then h j + d else h j.

Definition on (i : nat) (e : pending_event) : bool := (ev_pipe e =? i)%nat.
Definition by_file (f : nat) (e : pending_event) : bool := (ev_file e =? f)%nat.

(** The reference a mode set holds. *)
Definition modeset_ref (r : vblank_crtc) : Z := if Z.land (vblank_inmodeset r) 2 =? 0 then 0 else 1.

Section Facts.
Context {D : Type} `{VblankDriver D}.
Implicit Types s : vblank_device D.

(** [evs] are the pending events, [h] the references of callers, [fl] the events of flips
    that are under way. *)
Record inv_with (evs : list pending_event) (h : nat -> Z) (fl : list pending_event) s : Prop := {
  inv_refs : forall i r, crtcs s !! i = Some r -> vblank_refcount r = count (on i) evs + h i + modeset_ref r;
  inv_range : forall i, h i <> 0 -> (i < length (crtcs s))%nat;
  inv_pipes : forall e, e ∈ evs -> (ev_pipe e < length (crtcs s))%nat;
  inv_files : forall e, e ∈ evs ++ fl -> is_Some (files s !! ev_file e);
  inv_space : forall f p, files s !! f = Some p -> 0 <= event_space p /\
    event_space p + event_size * (Z.of_nat (length (event_list p)) + count (by_file f) evs + count (by_file f) fl) = 4096 }.

Definition inv h fl s : Prop := inv_with (vblank_event_list s) h fl s.

(** ** Programs that leave references, events and files alone *)

Definition same_users (r r' : vblank_crtc) : Prop :=
  vblank_refcount r' = vblank_refcount r /\ vblank_inmodeset r' = vblank_inmodeset r.

Definition quiet_rel s s' : Prop :=
  Forall2 same_users (crtcs s) (crtcs s') /\ vblank_event_list s' = vblank_event_list s /\ files s' = files s.

Definition quiet {A} (i : nat) (m : V D A) : Prop := forall s, (i < length (crtcs s))%nat -> wp m (fun _ s' => quiet_rel s s') s.

Lemma same_refl l : Forall2 same_users l l.
Proof. apply Forall_Forall2_diag, Forall_forall. intros. by split. Qed.

Lemma same_trans l1 l2 l3 : Forall2 same_users l1 l2 -> Forall2 same_users l2 l3 -> Forall2 same_users l1 l3.
Proof.
  intros H1. revert l3. induction H1 as [|x y l l' Hxy H1 IH]; intros l3 H2; inversion H2 as [|? z ? l'' Hyz]; subst; constructor.
  - unfold same_users in *. intuition congruence.
  - by apply IH.
Qed.

Lemma quiet_refl s : quiet_rel s s.
Proof. split; [apply same_refl|done]. Qed.

Lemma quiet_trans s1 s2 s3 : quiet_rel s1 s2 -> quiet_rel s2 s3 -> quiet_rel s1 s3.
Proof. intros (A1 & B1 & C1) (A2 & B2 & C2). split; [by eapply same_trans|]. split; congruence. Qed.

Lemma quiet_length s s' : quiet_rel s s' -> length (crtcs s') = length (crtcs s).
Proof. intros (A & _). symmetry. by eapply Forall2_length. Qed.

Lemma quiet_bind {A B} i (m : V D A) (k : A -> V D B) : quiet i m -> (forall a, quiet i (k a)) -> quiet i (m ≫= k).
Proof.
  intros Hm Hk s Hi. apply wp_bind. eapply wp_mono; [by apply Hm|]. intros a s' Hq.
  eapply wp_mono; [apply Hk; by rewrite (quiet_length s s' Hq)|]. intros ? s2 Hq2. exact (quiet_trans s s' s2 Hq Hq2).
Qed.

Lemma quiet_ret {A} i (a : A) : quiet i (mret a).
Proof. intros s _. exact (quiet_refl s). Qed.

Lemma quiet_gets {A} i (f : vblank_device D -> A) : quiet i (gets f).
Proof. intros s _. exact (quiet_refl s). Qed.

Lemma quiet_call {A} i (f : D -> A * D) : quiet i (call f).
Proof. intros s _. unfold wp, call. destruct (f (driver s)). split; [apply same_refl|done]. Qed.

Lemma quiet_get i : quiet i (get_crtc i).
Proof. intros s [r Hr]%lookup_lt_is_Some_2. unfold wp, get_crtc. rewrite Hr. apply quiet_refl. Qed.

Lemma wp_get_crtc i Q s r : crtcs s !! i = Some r -> Q r s -> wp (get_crtc i) Q s.
Proof. intros Hr HQ. unfold wp, get_crtc. by rewrite Hr. Qed.

Lemma wp_upd_crtc i f Q s r : crtcs s !! i = Some r ->
  Q tt (mk_dev (alter f i (crtcs s)) (vblank_event_list s) (files s) (vblank_disable_allowed s) (irq_enabled s)
          (max_vblank_count s) (disable_timer s) (driver s)) -> wp (upd_crtc i f) Q s.
Proof. intros Hr HQ. unfold upd_crtc. apply wp_bind. by apply (wp_get_crtc i _ s r). Qed.

Lemma quiet_upd i f : (forall r, same_users r (f r)) -> quiet i (upd_crtc i f).
Proof.
  intros Hf s [r Hr]%lookup_lt_is_Some_2. apply (wp_upd_crtc i f _ s r Hr). split; [|done]. cbn.
  apply Forall2_same_length_lookup_2; [by rewrite length_alter|]. intros j x y Hx Hy. destruct (decide (j = i)) as [->|Hne].
  - rewrite list_lookup_alter_eq, Hx in Hy. injection Hy as <-. apply Hf.
  - rewrite list_lookup_alter_ne in Hy by done. rewrite Hx in Hy. injection Hy as <-. by split.
Qed.

Lemma quiet_allowed i b : quiet i (set_disable_allowed b).
Proof. intros s _. split; [apply same_refl|done]. Qed.

Lemma quiet_irq i b : quiet i (set_irq_enabled b).
Proof. intros s _. split; [apply same_refl|done]. Qed.

Lemma quiet_timer i t : quiet i (set_timer t).
Proof. intros s _. split; [apply same_refl|done]. Qed.
End Facts.

Create HintDb vblank.
#[export] Hint Resolve quiet_ret quiet_gets quiet_call quiet_get quiet_allowed quiet_irq quiet_timer : vblank.
#[export] Hint Extern 1 (quiet _ (upd_crtc _ _)) => apply quiet_upd; intros; by split : vblank.
#[export] Hint Extern 2 (quiet _ (_ ≫= _)) => apply quiet_bind; [|intros] : vblank.
#[export] Hint Extern 2 (quiet _ (let '(_, _) := ?p in _)) => destruct p : vblank.
#[export] Hint Extern 2 (quiet _ (if ?b then _ else _)) => destruct b : vblank.
#[export] Hint Extern 2 (quiet _ (match ?o with Some _ => _ | None => _ end)) => destruct o : vblank.

Section Quiet.
Context {D : Type} `{VblankDriver D}.
Implicit Types s : vblank_device D.

Lemma quiet_time i fl : quiet (D:=D) i (drm_get_last_vbltimestamp i fl).
Proof. unfold drm_get_last_vbltimestamp. cbv zeta. eauto 20 with vblank. Qed.
#[local] Hint Resolve quiet_time : vblank.

Lemma quiet_count_and_time i : quiet (D:=D) i (drm_vblank_count_and_time i).
Proof. unfold drm_vblank_count_and_time. eauto 20 with vblank. Qed.

Lemma quiet_clear i : quiet (D:=D) i (clear_vblank_timestamps i).
Proof. unfold clear_vblank_timestamps. eauto 20 with vblank. Qed.
#[local] Hint Resolve quiet_clear : vblank.

Lemma quiet_save i n : quiet (D:=D) i (save_loop n i).
Proof.
  induction n as [|n IH]; cbn [save_loop]; [eauto 20 with vblank|]. destruct n; eauto 20 with vblank.
Qed.
#[local] Hint Resolve quiet_save : vblank.

Lemma quiet_disable i : quiet (D:=D) i (vblank_disable_and_save i).
Proof. unfold vblank_disable_and_save, call_. eauto 20 with vblank. Qed.
End Quiet.

(** ** The references *)

Section Refs.
Context {D : Type} `{VblankDriver D}.
Implicit Types s : vblank_device D.
Implicit Types h : nat -> Z.

Lemma add_ref_eq h i d : add_ref h i d i = h i + d.
Proof. unfold add_ref. by rewrite Nat.eqb_refl. Qed.

Lemma add_ref_ne h i d j : j <> i -> add_ref h i d j = h j.
Proof. unfold add_ref. intros. by destruct (Nat.eqb_spec j i). Qed.

Lemma add_ref_twice h i a b j : add_ref (add_ref h i a) i b j = add_ref h i (a + b) j.
Proof. unfold add_ref. destruct (j =? i)%nat; lia. Qed.

Lemma add_ref_0 h i j : add_ref h i 0 j = h j.
Proof. unfold add_ref. destruct (j =? i)%nat; lia. Qed.

Lemma inv_refs_ext evs h h' fl s : (forall i, h' i = h i) -> inv_with evs h fl s -> inv_with evs h' fl s.
Proof. intros He [I1 I2 I3 I4 I5]. split; try done; intros i; rewrite He; [apply I1|apply I2]. Qed.

Lemma inv_quiet evs h fl s s' : quiet_rel s s' -> inv_with evs h fl s -> inv_with evs h fl s'.
Proof.
  intros Hq [I1 I2 I3 I4 I5]. pose proof (quiet_length _ _ Hq) as Hl. destruct Hq as (Q1 & Q2 & Q3).
  split; rewrite ?Q3, ?Hl; try done. intros i r' Hr'.
  destruct (Forall2_lookup_r _ _ _ _ _ Q1 Hr') as (r & Hr & Hu1 & Hu2).
  rewrite Hu1, (I1 i r Hr). unfold modeset_ref. by rewrite Hu2.
Qed.

(** A change of one CRTC. *)
Lemma inv_alter evs h h' fl s i f r (d : Z) : inv_with evs h fl s -> crtcs s !! i = Some r ->
  (forall j, h' j = add_ref h i d j) -> vblank_refcount (f r) - modeset_ref (f r) = vblank_refcount r - modeset_ref r + d ->
  inv_with evs h' fl (mk_dev (alter f i (crtcs s)) (vblank_event_list s) (files s) (vblank_disable_allowed s)
                        (irq_enabled s) (max_vblank_count s) (disable_timer s) (driver s)).
Proof.
  intros [I1 I2 I3 I4 I5] Hr Hh Hd. split; cbn; rewrite ?length_alter; try done.
  - intros j r' Hr'. rewrite Hh. destruct (decide (j = i)) as [->|Hne].
    + rewrite list_lookup_alter_eq, Hr in Hr'. injection Hr' as <-. specialize (I1 i r Hr). rewrite add_ref_eq. lia.
    + rewrite list_lookup_alter_ne in Hr' by done. rewrite add_ref_ne by done. by apply I1.
  - intros j Hj. rewrite Hh in Hj. destruct (decide (j = i)) as [->|Hne]; [by apply lookup_lt_Some in Hr|].
    rewrite add_ref_ne in Hj by done. by apply I2.
Qed.

Lemma inv_timer evs h fl s t : inv_with evs h fl s ->
  inv_with evs h fl (mk_dev (crtcs s) (vblank_event_list s) (files s) (vblank_disable_allowed s)
                       (irq_enabled s) (max_vblank_count s) t (driver s)).
Proof. intros [I1 I2 I3 I4 I5]. by split. Qed.

(** What dropping and taking references leaves alone. *)
Definition same_but_refs s s' : Prop :=
  Forall2 (fun r r' => exists n, r' = with_refcount n r) (crtcs s) (crtcs s') /\
  vblank_event_list s' = vblank_event_list s /\ files s' = files s /\ driver s' = driver s.

Lemma alter_forall2 {A} (R : A -> A -> Prop) f i (l : list A) : (forall x, R x x) -> (forall x, R x (f x)) -> Forall2 R l (alter f i l).
Proof.
  intros Hr Hf. apply Forall2_same_length_lookup_2; [by rewrite length_alter|]. intros j x y Hx Hy. destruct (decide (j = i)) as [->|Hne].
  - rewrite list_lookup_alter_eq, Hx in Hy. injection Hy as <-. apply Hf.
  - rewrite list_lookup_alter_ne in Hy by done. rewrite Hx in Hy. by injection Hy as <-.
Qed.

Lemma with_refcount_refl r : r = with_refcount (vblank_refcount r) r.
Proof. by destruct r. Qed.

Lemma same_but_refs_refl s : same_but_refs s s.
Proof. split; [|done]. apply Forall_Forall2_diag, Forall_forall. intros r _. eexists. apply with_refcount_refl. Qed.

Lemma put_run evs h fl s i r : inv_with evs h fl s -> crtcs s !! i = Some r -> 0 < vblank_refcount r ->
  wp (drm_vblank_put i) (fun _ s' => inv_with evs (add_ref h i (-1)) fl s' /\ same_but_refs s s') s.
Proof.
  intros Hinv Hr Hpos. unfold drm_vblank_put. apply wp_bind, (wp_get_crtc i _ s r Hr), wp_bind.
  destruct (Z.eqb_spec (vblank_refcount r) 0) as [?|_]; [lia|]. apply wp_ret, wp_bind, (wp_upd_crtc i _ _ s r Hr).
  assert (inv_with evs (add_ref h i (-1)) fl (mk_dev (alter (with_refcount (vblank_refcount r - 1)) i (crtcs s)) (vblank_event_list s)
    (files s) (vblank_disable_allowed s) (irq_enabled s) (max_vblank_count s) (disable_timer s) (driver s))) as Hi.
  { apply (inv_alter evs h _ fl s i _ r (-1)); [done|done|done|]. unfold modeset_ref. cbn. lia. }
  assert (Forall2 (fun r r' => exists n, r' = with_refcount n r) (crtcs s) (alter (with_refcount (vblank_refcount r - 1)) i (crtcs s))) as Hs.
  { apply alter_forall2; intros x; eexists; [apply with_refcount_refl|done]. }
  destruct (_ && _); (split; [|split; [exact Hs|done]]); [exact (inv_timer _ _ _ _ _ Hi)|exact Hi].
Qed.

(** A pending event gives up its reference: it is then like a flip. *)
Lemma inv_take evs k e l h fl s : inv_with evs h fl s -> evs = k ++ e :: l ->
  inv_with (k ++ l) (add_ref h (ev_pipe e) 1) (e :: fl) s.
Proof.
  intros [I1 I2 I3 I4 I5] ->. split.
  - intros i r Hr. rewrite (I1 i r Hr), !count_app, count_cons. unfold add_ref, on at 2. rewrite (Nat.eqb_sym i).
    destruct (ev_pipe e =? i)%nat; lia.
  - intros i Hi. destruct (decide (i = ev_pipe e)) as [->|Hne]; [apply I3; set_solver|]. rewrite add_ref_ne in Hi by done. by apply I2.
  - intros x Hx. apply I3. set_solver.
  - intros x Hx. apply I4. set_solver.
  - intros f p Hp. destruct (I5 f p Hp) as [? Hs]. split; [done|]. rewrite <-Hs, !count_app, !count_cons. lia.
Qed.

(** The converse, at the end. *)
Lemma inv_queue evs e h fl s : inv_with evs h (e :: fl) s -> (ev_pipe e < length (crtcs s))%nat ->
  inv_with (evs ++ [e]) (add_ref h (ev_pipe e) (-1)) fl s.
Proof.
  intros [I1 I2 I3 I4 I5] He. split.
  - intros i r Hr. rewrite (I1 i r Hr), !count_app, count_cons, count_nil. unfold add_ref, on at 3. rewrite (Nat.eqb_sym i).
    destruct (ev_pipe e =? i)%nat; lia.
  - intros i Hi. destruct (decide (i = ev_pipe e)) as [->|Hne]; [done|]. rewrite add_ref_ne in Hi by done. by apply I2.
  - intros x Hx. rewrite elem_of_app, list_elem_of_singleton in Hx. destruct Hx as [Hx| ->]; [by apply I3|done].
  - intros x Hx. apply I4. set_solver.
  - intros f p Hp. destruct (I5 f p Hp) as [? Hs]. split; [done|]. rewrite <-Hs, !count_app, !count_cons, count_nil. lia.
Qed.

Lemma wp_upd_file f g Q s p : files s !! f = Some p ->
  Q tt (mk_dev (crtcs s) (vblank_event_list s) (alter g f (files s)) (vblank_disable_allowed s) (irq_enabled s)
          (max_vblank_count s) (disable_timer s) (driver s)) -> wp (upd_file f g) Q s.
Proof. intros Hp HQ. unfold upd_file. apply wp_bind. unfold wp, get_file. by rewrite Hp. Qed.

(** A change of the events of one file. *)
Lemma inv_file evs h fl fl' s f g p : inv_with evs h fl s -> files s !! f = Some p ->
  (forall e, e ∈ fl' -> e ∈ fl \/ ev_file e = f) -> (forall f', f' <> f -> count (by_file f') fl' = count (by_file f') fl) ->
  0 <= event_space (g p) ->
  event_space (g p) + event_size * (Z.of_nat (length (event_list (g p))) + count (by_file f) fl') =
    event_space p + event_size * (Z.of_nat (length (event_list p)) + count (by_file f) fl) ->
  inv_with evs h fl' (mk_dev (crtcs s) (vblank_event_list s) (alter g f (files s)) (vblank_disable_allowed s)
                        (irq_enabled s) (max_vblank_count s) (disable_timer s) (driver s)).
Proof.
  intros [I1 I2 I3 I4 I5] Hp Hfl Hc Hpos Hsp. split; try done; cbn.
  - intros e He. rewrite lookup_alter_is_Some. apply elem_of_app in He as [He|He]; [apply I4; set_solver|].
    destruct (Hfl e He) as [He' | ->]; [apply I4; set_solver|eauto].
  - intros f' p' Hp'. destruct (decide (f' = f)) as [->|Hne].
    + rewrite lookup_alter_eq, Hp in Hp'. injection Hp' as <-. destruct (I5 f p Hp). split; [done|]. lia.
    + rewrite lookup_alter_ne in Hp' by done. rewrite Hc by done. by apply I5.
Qed.
End Refs.

(** ** Taking references, and the walk over the events *)

Section Walk.
Context {D : Type} `{VblankDriver D}.
Implicit Types s : vblank_device D.
Implicit Types h : nat -> Z.

(** What everything but the walks leaves alone. *)
Definition frame s s' : Prop :=
  map vblank_inmodeset (crtcs s') = map vblank_inmodeset (crtcs s) /\
  vblank_event_list s' = vblank_event_list s /\ files s' = files s.

Lemma frame_refl s : frame s s.
Proof. done. Qed.

Lemma frame_trans s1 s2 s3 : frame s1 s2 -> frame s2 s3 -> frame s1 s3.
Proof. intros (? & ? & ?) (? & ? & ?). split; [congruence|]. split; congruence. Qed.

Lemma frame_quiet s s' : quiet_rel s s' -> frame s s'.
Proof.
  intros (Hq & He & Hf). split; [|done]. induction Hq as [|r r' l l' [_ Hm] Hq IH]; [done|]. cbn. by rewrite Hm, IH.
Qed.

Lemma frame_refs s s' : same_but_refs s s' -> frame s s'.
Proof.
  intros (Hq & He & Hf & _). split; [|done]. induction Hq as [|r r' l l' [n ->] Hq IH]; [done|]. cbn. by rewrite IH.
Qed.

Lemma frame_length s s' : frame s s' -> length (crtcs s') = length (crtcs s).
Proof. intros (Hm & _). apply (f_equal length) in Hm. by rewrite !length_map in Hm. Qed.

Lemma frame_lookup s s' i : frame s s' -> vblank_inmodeset <$> (crtcs s' !! i) = vblank_inmodeset <$> (crtcs s !! i).
Proof. intros (Hm & _). rewrite <-!list_lookup_fmap. by apply (f_equal (fun l => l !! i)) in Hm. Qed.

Lemma frame_alter s i f : (forall r, vblank_inmodeset (f r) = vblank_inmodeset r) ->
  frame s (mk_dev (alter f i (crtcs s)) (vblank_event_list s) (files s) (vblank_disable_allowed s) (irq_enabled s)
             (max_vblank_count s) (disable_timer s) (driver s)).
Proof.
  intros Hf. split; [|done]. cbn. apply list_eq. intros j. rewrite <-!list_fmap_map_eq || idtac.
  change (map ?f ?l) with (f <$> l). rewrite !list_lookup_fmap. destruct (decide (j = i)) as [->|Hne].
  - rewrite list_lookup_alter_eq. destruct (crtcs s !! i); cbn; [by rewrite Hf|done].
  - by rewrite list_lookup_alter_ne.
Qed.

Context (fuel : nat).
(** The hardware counter does not change for ever between two reads around a timestamp. *)
Definition counter_settles : Prop := forall i s, is_Some (settle_loop fuel i s).

Lemma settle_quiet n i : forall s a s', settle_loop n i s = Some (a, s') -> (i < length (crtcs s))%nat -> quiet_rel s s'.
Proof.
  induction n as [|n IH]; intros s a s' E Hi; [done|]. cbn [settle_loop] in E.
  assert (wp (c ← call (get_vblank_counter i); '(rc, t) ← drm_get_last_vbltimestamp i 0;
              c' ← call (get_vblank_counter i); mret (c, rc, t, c')) (fun _ s' => quiet_rel s s') s) as Hw.
  { apply (quiet_bind i); [apply quiet_call| |done]. intros c. apply quiet_bind; [apply quiet_time|]. intros [rc t].
    apply quiet_bind; [apply quiet_call|]. intros c'. apply quiet_ret. }
  unfold wp, mbind, Prog_bind, mret, Prog_ret in Hw, E.
  destruct (call (get_vblank_counter i) s) as [[c s1]|]; [|done].
  destruct (drm_get_last_vbltimestamp i 0 s1) as [[[rc t] s2]|]; [|done].
  destruct (call (get_vblank_counter i) s2) as [[c' s3]|]; [|done].
  destruct (c =? c'); [by injection E as _ <-|].
  apply (quiet_trans s s3 s'); [done|]. apply (IH s3 a s' E). by rewrite (quiet_length s s3).
Qed.

Lemma quiet_update i : counter_settles -> quiet (D:=D) i (drm_update_vblank_count fuel i).
Proof.
  intros Hset. unfold drm_update_vblank_count. apply quiet_bind.
  - intros s Hi. destruct (Hset i s) as [[a s'] E]. unfold wp. rewrite E. by apply (settle_quiet fuel i s a).
  - intros [[cur rc] t]. eauto 20 with vblank.
Qed.

Lemma get_run evs h fl s i : counter_settles -> inv_with evs h fl s -> (i < length (crtcs s))%nat ->
  wp (drm_vblank_get fuel i) (fun ret s' => inv_with evs (if ret =? 0 then add_ref h i 1 else h) fl s' /\ frame s s') s.
Proof.
  intros Hset Hinv [r Hr]%lookup_lt_is_Some_2. unfold drm_vblank_get. apply wp_bind, (wp_get_crtc i _ s r Hr), wp_bind.
  apply (wp_upd_crtc i _ _ s r Hr). set (s1 := mk_dev _ _ _ _ _ _ _ _).
  assert (inv_with evs (add_ref h i 1) fl s1) as I1.
  { apply (inv_alter evs h _ fl s i _ r 1); [done|done|done|]. unfold modeset_ref. cbn. lia. }
  assert (frame s s1) as F1 by by apply frame_alter.
  assert (crtcs s1 !! i = Some (with_refcount (vblank_refcount r + 1) r)) as Hr1 by (cbn; by rewrite list_lookup_alter_eq, Hr).
  assert (forall ret s2 r2, ret <> 0 -> inv_with evs (add_ref h i 1) fl s2 -> frame s s2 -> crtcs s2 !! i = Some r2 ->
    wp (_ ← upd_crtc i (fun r => with_refcount (vblank_refcount r - 1) r); mret ret)
      (fun ret s' => inv_with evs (if ret =? 0 then add_ref h i 1 else h) fl s' /\ frame s s') s2) as Hback.
  { intros ret s2 r2 Hne I2 F2 Hr2. apply wp_bind, (wp_upd_crtc i _ _ s2 r2 Hr2), wp_ret.
    destruct (Z.eqb_spec ret 0); [done|]. split; [|apply (frame_trans s s2); [done|by apply frame_alter]].
    apply (inv_alter evs (add_ref h i 1) _ fl s2 i _ r2 (-1)); [done|done| |unfold modeset_ref; cbn; lia].
    intros j. by rewrite add_ref_twice, add_ref_0. }
  destruct (Z.eqb_spec (vblank_refcount r + 1) 1) as [E|E]; destruct (vblank_enabled r); cbn [negb].
  - by apply wp_ret.
  - apply wp_bind. eapply wp_mono; [apply (quiet_call i (enable_vblank i) s1), (lookup_lt_Some _ _ _ Hr1)|]. intros ret s2 Q2.
    pose proof (inv_quiet _ _ _ _ _ Q2 I1) as I2. pose proof (frame_trans _ _ _ F1 (frame_quiet _ _ Q2)) as F2.
    assert (i < length (crtcs s2))%nat as Hi2 by (rewrite (quiet_length _ _ Q2); apply (lookup_lt_Some _ _ _ Hr1)).
    destruct (Z.eqb_spec ret 0) as [->|Hne]; cbn [negb].
    + assert (quiet (D:=D) i (_ ← upd_crtc i (with_enabled true); _ ← drm_update_vblank_count fuel i; mret 0)) as Hq.
      { apply quiet_bind; [apply quiet_upd; intros; by split|]. intros _. apply quiet_bind; [by apply quiet_update|]. intros. apply quiet_ret. }
      specialize (Hq s2 Hi2). unfold wp, mbind, Prog_bind, mret, Prog_ret in Hq |- *.
      destruct (upd_crtc i (with_enabled true) s2) as [[[] s3]|]; [|done].
      destruct (drm_update_vblank_count fuel i s3) as [[[] s4]|]; [|done]. cbn. split; [by apply (inv_quiet _ _ _ s2)|].
      apply (frame_trans s s2); [done|by apply frame_quiet].
    + destruct (lookup_lt_is_Some_2 _ _ Hi2) as [r2 Hr2]. by apply (Hback ret s2 r2).
  - by apply wp_ret.
  - by apply (Hback (- EINVAL) s1 (with_refcount (vblank_refcount r + 1) r)).
Qed.

Lemma send_run evs h fl s e sq now : inv_with evs h (e :: fl) s ->
  exists p, files s !! ev_file e = Some p /\
  send_vblank_event e sq now s = Some (tt, mk_dev (crtcs s) (vblank_event_list s)
    (<[ev_file e := mk_file (event_space p) (event_list p ++ [with_event_time sq now e])]> (files s)) (vblank_disable_allowed s)
    (irq_enabled s) (max_vblank_count s) (disable_timer s) (driver s)) /\
  inv_with evs h fl (mk_dev (crtcs s) (vblank_event_list s)
    (<[ev_file e := mk_file (event_space p) (event_list p ++ [with_event_time sq now e])]> (files s)) (vblank_disable_allowed s)
    (irq_enabled s) (max_vblank_count s) (disable_timer s) (driver s)).
Proof.
  intros Hinv. destruct (inv_files _ _ _ _ Hinv e) as [p Hp]; [set_solver|]. exists p. split; [done|].
  assert (forall g, alter g (ev_file e) (files s) = <[ev_file e := g p]> (files s)) as Ha.
  { intros g. apply map_eq. intros j. destruct (decide (j = ev_file e)) as [->|Hne].
    - by rewrite lookup_alter_eq, lookup_insert_eq, Hp.
    - by rewrite lookup_alter_ne, lookup_insert_ne. }
  rewrite <-(Ha (fun p => mk_file (event_space p) (event_list p ++ [with_event_time sq now e]))). split.
  - unfold send_vblank_event, upd_file, get_file, mbind, Prog_bind. rewrite Hp. done.
  - apply (inv_file evs h (e :: fl) fl s _ _ p); [done|done|intros ? ?; left; by right| | |].
    + intros f' Hne. rewrite count_cons. unfold by_file at 2. by destruct (Nat.eqb_spec (ev_file e) f'); [subst|lia].
    + apply (inv_space _ _ _ _ Hinv _ p Hp).
    + cbn. rewrite length_app, count_cons. unfold by_file at 2. rewrite Nat.eqb_refl. cbn. lia.
Qed.
End Walk.

Section Deliver.
Context {D : Type} `{VblankDriver D}.
Implicit Types s : vblank_device D.
Implicit Types h : nat -> Z.

(** The counts, the ring, the driver are as before. *)
Definition only_refs s s' : Prop :=
  Forall2 (fun r r' => exists n, r' = with_refcount n r) (crtcs s) (crtcs s') /\
  vblank_event_list s' = vblank_event_list s /\ driver s' = driver s.

Lemma only_refs_trans s1 s2 s3 : only_refs s1 s2 -> only_refs s2 s3 -> only_refs s1 s3.
Proof.
  intros (A1 & B1 & C1) (A2 & B2 & C2). split; [|split; congruence].
  revert A2. generalize (crtcs s3). induction A1 as [|r r' l l' [n ->] A1 IH]; intros l3 A2; inversion A2 as [|? r3 ? l3' [n' ->]]; subst; constructor.
  - by exists n'.
  - by apply IH.
Qed.

Lemma only_refs_crtcs s s' : crtcs s' = crtcs s -> vblank_event_list s' = vblank_event_list s -> driver s' = driver s -> only_refs s s'.
Proof.
  intros Hc He Hd. split; [|done]. rewrite Hc. apply Forall_Forall2_diag, Forall_forall. intros r _. eexists. apply with_refcount_refl.
Qed.

Lemma only_refs_modeset s s' : only_refs s s' -> map vblank_inmodeset (crtcs s') = map vblank_inmodeset (crtcs s).
Proof. intros (Hq & _). induction Hq as [|r r' l l' [n ->] Hq IH]; [done|]. cbn. by rewrite IH. Qed.

(** A file after the events that [due] picks from [l] were sent to it. *)
Definition deliver (due : pending_event -> bool) (sq : Z) (now : timeval) (l : list pending_event) (f : nat) (p : file_events) : file_events :=
  mk_file (event_space p) (event_list p ++ map (with_event_time sq now) (List.filter (fun e => due e && by_file f e) l)).

Lemma deliver_nil due sq now f p : deliver due sq now [] f p = p.
Proof. unfold deliver. cbn. rewrite app_nil_r. by destruct p. Qed.

Lemma pending_ref evs k e l h fl s r : inv_with evs h fl s -> evs = k ++ e :: l -> 0 <= h (ev_pipe e) ->
  crtcs s !! ev_pipe e = Some r -> 0 < vblank_refcount r.
Proof.
  intros Hinv -> Hh Hr. rewrite (inv_refs _ _ _ _ Hinv _ r Hr), count_app, count_cons. unfold on at 2. rewrite Nat.eqb_refl.
  pose proof (count_nonneg (on (ev_pipe e)) k). pose proof (count_nonneg (on (ev_pipe e)) l). unfold modeset_ref.
  destruct (_ =? 0); lia.
Qed.

(** The reference of a pending event is dropped; the event is like that of a flip. *)
Lemma put_event_run k e l h fl s : inv_with (k ++ e :: l) h fl s -> 0 <= h (ev_pipe e) ->
  wp (drm_vblank_put (ev_pipe e)) (fun _ s' => inv_with (k ++ l) h (e :: fl) s' /\ only_refs s s' /\ files s' = files s) s.
Proof.
  intros Hinv Hh. destruct (lookup_lt_is_Some_2 (crtcs s) (ev_pipe e)) as [r Hr]; [apply (inv_pipes _ _ _ _ Hinv); set_solver|].
  pose proof (pending_ref _ k e l h fl s r Hinv eq_refl Hh Hr) as Hpos.
  eapply wp_mono; [apply (put_run _ _ _ s _ r (inv_take _ k e l h fl s Hinv eq_refl) Hr Hpos)|].
  intros _ s' [Hi (A1 & A2 & A3 & A4)]. split; [|done]. eapply inv_refs_ext; [|exact Hi]. intros j. by rewrite add_ref_twice, add_ref_0.
Qed.

Lemma send_loop_run due sq now h fl : (forall i, 0 <= h i) -> forall l k s, inv_with (k ++ l) h fl s ->
  wp (send_loop due sq now l) (fun l' s' => l' = List.filter (fun e => negb (due e)) l /\ inv_with (k ++ l') h fl s' /\
    only_refs s s' /\ forall f, files s' !! f = deliver due sq now l f <$> (files s !! f)) s.
Proof.
  intros Hh. induction l as [|e l IH]; intros k s Hinv.
  - apply wp_ret. split; [done|]. split; [done|]. split.
    + by apply only_refs_crtcs.
    + intros f. destruct (files s !! f); cbn; [by rewrite deliver_nil|done].
  - cbn [send_loop List.filter]. destruct (due e) eqn:Ed; cbn [negb].
    + apply wp_bind. eapply wp_mono; [by apply (put_event_run k e l h fl s)|]. intros [] s1 (I1 & O1 & F1).
      destruct (send_run (k ++ l) h fl s1 e sq now I1) as (p & Hp & Es & I2). apply wp_bind. unfold wp at 1. rewrite Es.
      set (s2 := mk_dev _ _ _ _ _ _ _ _) in *. eapply wp_mono; [by apply (IH k s2)|]. intros l' s' (-> & I3 & O3 & F3).
      split; [done|]. split; [done|]. split.
      { apply (only_refs_trans s s1 s'); [done|]. apply (only_refs_trans s1 s2 s'); [by apply only_refs_crtcs|done]. }
      intros f. rewrite F3. cbn. rewrite <-F1. unfold deliver. cbn [List.filter]. rewrite Ed. unfold by_file at 2.
      destruct (Nat.eqb_spec (ev_file e) f) as [<-|Hne]; cbn [andb].
      * rewrite lookup_insert_eq, Hp. cbn. by rewrite <-app_assoc.
      * by rewrite lookup_insert_ne.
    + apply wp_bind. eapply wp_mono; [apply (IH (k ++ [e]) s)|].
      { rewrite <-app_assoc. exact Hinv. }
      intros l' s' (-> & I3 & O3 & F3). apply wp_ret. split; [done|]. rewrite <-app_assoc in I3. split; [exact I3|]. split; [done|].
      intros f. rewrite F3. unfold deliver. cbn [List.filter]. by rewrite Ed.
Qed.

(** The walk of a file that is closed: its events are dropped, and what was reserved for
    them goes with the file. *)
Lemma release_loop_run f h fl : (forall i, 0 <= h i) -> forall l k s, inv_with (k ++ l) h fl s ->
  wp (release_loop f l) (fun l' s' => l' = List.filter (fun e => negb (by_file f e)) l /\
    inv_with (k ++ l') h (List.filter (by_file f) l ++ fl) s' /\ only_refs s s' /\ files s' = files s) s.
Proof.
  intros Hh. revert fl. intros fl l. revert fl. induction l as [|e l IH]; intros fl k s Hinv.
  - apply wp_ret. split; [done|]. split; [done|]. split; [|done].
    by apply only_refs_crtcs.
  - cbn [release_loop List.filter]. change (ev_file e =? f)%nat with (by_file f e). destruct (by_file f e) eqn:Ed; cbn [negb].
    + apply wp_bind. eapply wp_mono; [by apply (put_event_run k e l h fl s)|]. intros [] s1 (I1 & O1 & F1).
      eapply wp_mono; [by apply (IH (e :: fl) k s1)|]. intros l' s' (-> & I2 & O2 & F2). split; [done|]. split.
      * destruct I2 as [J1 J2 J3 J4 J5]. split; try done.
        -- intros x Hx. apply J4. rewrite <-app_comm_cons, !elem_of_app, elem_of_cons, elem_of_app in Hx. rewrite !elem_of_app, elem_of_cons. tauto.
        -- intros f' p Hp. destruct (J5 f' p Hp) as [? Hs]. split; [done|]. rewrite <-Hs, <-app_comm_cons, !count_app, !count_cons, !count_app. lia.
      * split; [by apply (only_refs_trans s s1 s')|congruence].
    + apply wp_bind. eapply wp_mono; [apply (IH fl (k ++ [e]) s)|].
      { rewrite <-app_assoc. exact Hinv. }
      intros l' s' (-> & I3 & O3 & F3). apply wp_ret. split; [done|]. rewrite <-app_assoc in I3. done.
Qed.
End Deliver.
