(* ===== verification/VblankSafe.v ===== *)
(** * Vertical blanking under any sequence of operations

    The operations of Vblank as a transition system: clients that open, close, read, wait
    and ask for events, drivers that flip pages and change modes, and interrupts, on a
    device with any number of CRTCs. *)

From S2P Require Import Prelude Vblank VblankFacts.

Open Scope Z_scope.

#[export] Instance pending_event_eq_dec : EqDecision pending_event.
Proof. solve_decision. Defined.

Section Ops.
Context {D : Type} `{VblankDriver D}.
Implicit Types s : vblank_device D.
Implicit Types h : nat -> Z.
Context (fuel : nat).

Definition nonneg h : Prop := forall i, 0 <= h i.

Lemma nonneg_up h i : nonneg h -> nonneg (add_ref h i 1).
Proof. intros Hh j. unfold add_ref. specialize (Hh j). destruct (_ =? _)%nat; lia. Qed.

Lemma nonneg_down h i : nonneg h -> 0 < h i -> nonneg (add_ref h i (-1)).
Proof. intros Hh Hi j. unfold add_ref. destruct (Nat.eqb_spec j i) as [->|]; [lia|apply Hh]. Qed.

Lemma nonneg_if h i (b : bool) : nonneg h -> nonneg (if b then add_ref h i 1 else h).
Proof. destruct b; [apply nonneg_up|done]. Qed.

Lemma set_events_inv l h fl s : inv_with l h fl s -> wp (set_events l) (fun _ s' => inv h fl s') s.
Proof. intros [I1 I2 I3 I4 I5]. by split. Qed.

Lemma inv_frame h fl s s' : frame s s' -> inv_with (vblank_event_list s) h fl s' -> inv h fl s'.
Proof. intros (_ & He & _) Hi. unfold inv. by rewrite He. Qed.

Lemma quiet_inv {A} i (m : V D A) h fl s : quiet i m -> (i < length (crtcs s))%nat -> inv h fl s ->
  wp m (fun _ s' => inv h fl s' /\ quiet_rel s s') s.
Proof.
  intros Hq Hi Hinv. eapply wp_mono; [by apply (Hq s Hi)|]. intros a s' Hr. split; [|done].
  apply (inv_frame h fl s s'); [by apply frame_quiet|]. by apply (inv_quiet _ _ _ s).
Qed.

(** ** The interrupt and the timer *)

Lemma disable_loop_run l : forall s, Forall (fun i => (i < length (crtcs s))%nat) l -> wp (disable_loop l) (fun _ s' => quiet_rel s s') s.
Proof.
  induction l as [|i l IH]; intros s Hl; [apply quiet_refl|]. inversion Hl as [|? ? Hi Hl']; subst. cbn [disable_loop].
  destruct (lookup_lt_is_Some_2 _ _ Hi) as [r Hr]. apply wp_bind, (wp_get_crtc i _ s r Hr), wp_bind.
  assert (quiet (D:=D) i (if (vblank_refcount r =? 0) && vblank_enabled r then vblank_disable_and_save i else mret tt)) as Hq.
  { destruct (_ && _); [apply quiet_disable|apply quiet_ret]. }
  eapply wp_mono; [by apply (Hq s Hi)|]. intros ? s1 Q1. eapply wp_mono; [apply IH; by rewrite (quiet_length s s1 Q1)|].
  intros ? s2 Q2. exact (quiet_trans s s1 s2 Q1 Q2).
Qed.

Lemma disable_fn_run h fl s : inv h fl s -> wp vblank_disable_fn (fun _ s' => inv h fl s') s.
Proof.
  intros Hinv. unfold vblank_disable_fn. apply wp_bind, wp_gets. destruct (vblank_disable_allowed s); [|by apply wp_ret].
  cbn [negb]. apply wp_bind, wp_gets. eapply wp_mono; [apply disable_loop_run|].
  { apply Forall_forall. intros i Hi%list_elem_of_In%in_seq. lia. }
  intros ? s' Q. apply (inv_frame h fl s s'); [by apply frame_quiet|]. by apply (inv_quiet _ _ _ s).
Qed.

Lemma count_and_time_run i h fl s : (i < length (crtcs s))%nat -> inv h fl s ->
  wp (drm_vblank_count_and_time i) (fun _ s' => inv h fl s' /\ s' = s) s.
Proof.
  intros [r Hr]%lookup_lt_is_Some_2 Hinv. unfold drm_vblank_count_and_time. by apply wp_bind, (wp_get_crtc i _ s r Hr).
Qed.

(** Sending what is due, from the list in the device. *)
Lemma send_due_run due sq now h fl s : nonneg h -> inv h fl s ->
  wp (l ← gets vblank_event_list; l ← send_loop due sq now l; set_events l) (fun _ s' => inv h fl s' /\
    length (crtcs s') = length (crtcs s)) s.
Proof.
  intros Hh Hinv. apply wp_bind, wp_gets, wp_bind.
  eapply wp_mono; [by apply (send_loop_run due sq now h fl Hh (vblank_event_list s) [] s)|].
  intros l s1 (-> & I1 & O1 & _). apply wp_and; [by apply set_events_inv|]. destruct O1 as [O1 _].
  symmetry. cbn. by eapply Forall2_length.
Qed.

Lemma handle_events_run i h fl s : (i < length (crtcs s))%nat -> nonneg h -> inv h fl s ->
  wp (drm_handle_vblank_events i) (fun _ s' => inv h fl s') s.
Proof.
  intros Hi Hh Hinv. unfold drm_handle_vblank_events. apply wp_bind. eapply wp_mono; [by apply (count_and_time_run i h fl s)|].
  intros [sq now] s' [_ ->]. eapply wp_mono; [by apply send_due_run|]. by intros ? s' [].
Qed.

Lemma off_run i h fl s : (i < length (crtcs s))%nat -> nonneg h -> inv h fl s ->
  wp (drm_vblank_off i) (fun _ s' => inv h fl s') s.
Proof.
  intros Hi Hh Hinv. unfold drm_vblank_off. apply wp_bind. eapply wp_mono; [by apply (quiet_inv i _ h fl s (quiet_disable i))|].
  intros ? s1 [I1 Q1]. apply wp_bind. eapply wp_mono; [apply (count_and_time_run i h fl s1); [by rewrite (quiet_length s s1)|done]|].
  intros [sq now] s' [_ ->]. eapply wp_mono; [by apply send_due_run|]. by intros ? s' [].
Qed.

Lemma handle_run i h fl s : (i < length (crtcs s))%nat -> nonneg h -> inv h fl s ->
  wp (drm_handle_vblank i) (fun _ s' => inv h fl s') s.
Proof.
  intros Hi Hh Hinv. unfold drm_handle_vblank. apply wp_bind, wp_gets. destruct (length (crtcs s) =? 0)%nat; [by apply wp_ret|].
  destruct (lookup_lt_is_Some_2 _ _ Hi) as [r Hr]. apply wp_bind, (wp_get_crtc i _ s r Hr).
  destruct (vblank_enabled r); cbn [negb]; [|by apply wp_ret].
  apply wp_bind. eapply wp_mono; [by apply (quiet_inv i _ h fl s (quiet_time i _))|]. intros [rc t] s1 [I1 Q1].
  assert (i < length (crtcs s1))%nat as Hi1 by by rewrite (quiet_length s s1).
  apply wp_bind. eapply wp_mono; [apply (quiet_inv i _ h fl s1); [|done|done]|].
  { cbv zeta. destruct (_ >? _); [|apply quiet_ret]. apply quiet_bind; [apply quiet_upd; by intros|]. intros _. apply quiet_upd. by intros. }
  intros ? s2 [I2 Q2]. apply wp_bind. eapply wp_mono; [apply (handle_events_run i h fl s2); [by rewrite (quiet_length s1 s2)|done|done]|].
  intros ? s3 I3. by apply wp_ret.
Qed.

(** ** References *)

Lemma get_inv i h fl s : counter_settles (D:=D) fuel -> (i < length (crtcs s))%nat -> inv h fl s ->
  wp (drm_vblank_get fuel i) (fun ret s' => inv (if ret =? 0 then add_ref h i 1 else h) fl s' /\ frame s s') s.
Proof.
  intros Hset Hi Hinv. eapply wp_mono; [by apply (get_run fuel (vblank_event_list s) h fl s i)|]. intros ret s' [Hi' F].
  split; [|done]. by apply (inv_frame _ fl s s').
Qed.

Lemma held_ref i h fl s r : inv h fl s -> nonneg h -> crtcs s !! i = Some r -> 0 < h i + modeset_ref r -> 0 < vblank_refcount r.
Proof.
  intros Hinv Hh Hr Hp. rewrite (inv_refs _ _ _ _ Hinv i r Hr). pose proof (count_nonneg (on i) (vblank_event_list s)). lia.
Qed.

Lemma put_inv i h fl s r : inv h fl s -> nonneg h -> crtcs s !! i = Some r -> 0 < h i + modeset_ref r ->
  wp (drm_vblank_put i) (fun _ s' => inv (add_ref h i (-1)) fl s' /\ frame s s') s.
Proof.
  intros Hinv Hh Hr Hp. eapply wp_mono; [apply (put_run (vblank_event_list s) h fl s i r Hinv Hr); by apply (held_ref i h fl s)|].
  intros ? s' [Hi' F%frame_refs]. split; [|done]. by apply (inv_frame _ fl s s').
Qed.

Lemma put_held_inv i h fl s : inv h fl s -> nonneg h -> 0 < h i ->
  wp (drm_vblank_put i) (fun _ s' => inv (add_ref h i (-1)) fl s' /\ frame s s') s.
Proof.
  intros Hinv Hh Hp. destruct (lookup_lt_is_Some_2 (crtcs s) i) as [r Hr]; [apply (inv_range _ _ _ _ Hinv); lia|].
  apply (put_inv i h fl s r); [done|done|done|]. unfold modeset_ref. destruct (_ =? 0); lia.
Qed.

(** A change of the state of the mode set. *)
Lemma set_modeset_inv i f h fl s r (d : Z) h' : inv h fl s -> crtcs s !! i = Some r ->
  vblank_refcount (f r) = vblank_refcount r -> modeset_ref (f r) = modeset_ref r - d -> (forall j, h' j = add_ref h i d j) ->
  wp (upd_crtc i f) (fun _ s' => inv h' fl s') s.
Proof.
  intros Hinv Hr Hrc Hm Hh. apply (wp_upd_crtc i f _ s r Hr). apply (inv_alter _ h h' fl s i f r d); [exact Hinv|done|done|lia].
Qed.

Lemma pre_modeset_run i h fl s : counter_settles (D:=D) fuel -> (i < length (crtcs s))%nat -> inv h fl s ->
  wp (drm_vblank_pre_modeset fuel i) (fun _ s' => inv h fl s') s.
Proof.
  intros Hset Hi Hinv. unfold drm_vblank_pre_modeset. apply wp_bind, wp_gets. destruct (length (crtcs s) =? 0)%nat; [by apply wp_ret|].
  destruct (lookup_lt_is_Some_2 _ _ Hi) as [r Hr]. apply wp_bind, (wp_get_crtc i _ s r Hr).
  destruct (Z.eqb_spec (vblank_inmodeset r) 0) as [Hm|_]; cbn [negb]; [|by apply wp_ret].
  apply wp_bind, (wp_upd_crtc i _ _ s r Hr). set (s1 := mk_dev _ _ _ _ _ _ _ _).
  assert (crtcs s1 !! i = Some (with_inmodeset 1 r)) as Hr1 by (cbn; by rewrite list_lookup_alter_eq, Hr).
  assert (inv h fl s1) as I1.
  { apply (inv_alter _ h h fl s i _ r 0); [done|done|intros j; by rewrite add_ref_0|]. unfold modeset_ref. cbn. rewrite Hm. change (Z.land 1 2) with 0. change (Z.land 0 2) with 0. lia. }
  apply wp_bind. eapply wp_mono; [apply (get_inv i h fl s1 Hset); [by apply lookup_lt_Some in Hr1|done]|]. intros ret s2 [I2 F2].
  destruct (ret =? 0); [|by apply wp_ret].
  pose proof (frame_lookup s1 s2 i F2) as Hl. rewrite Hr1 in Hl. destruct (crtcs s2 !! i) as [r2|] eqn:Hr2; [|done].
  injection Hl as Hl. apply (set_modeset_inv i _ (add_ref h i 1) fl s2 r2 (-1)); [done|done|done| |].
  - unfold modeset_ref. cbn. rewrite Hl. reflexivity.
  - intros j. by rewrite add_ref_twice, add_ref_0.
Qed.

Lemma post_modeset_run i h fl s : (i < length (crtcs s))%nat -> nonneg h -> inv h fl s ->
  wp (drm_vblank_post_modeset i) (fun _ s' => inv h fl s') s.
Proof.
  intros Hi Hh Hinv. unfold drm_vblank_post_modeset. apply wp_bind, wp_gets. destruct (length (crtcs s) =? 0)%nat; [by apply wp_ret|].
  destruct (lookup_lt_is_Some_2 _ _ Hi) as [r Hr]. apply wp_bind, (wp_get_crtc i _ s r Hr).
  destruct (Z.eqb_spec (vblank_inmodeset r) 0) as [Hm|_]; [by apply wp_ret|].
  apply wp_bind. eapply wp_mono; [apply (quiet_inv i _ h fl s (quiet_allowed i true) Hi Hinv)|]. intros ? s1 [I1 Q1].
  assert (wp (if negb (Z.land (vblank_inmodeset r) 2 =? 0) then drm_vblank_put i else mret tt)
    (fun _ s2 => inv (if Z.land (vblank_inmodeset r) 2 =? 0 then h else add_ref h i (-1)) fl s2 /\ frame s s2) s1) as Hput.
  { pose proof (frame_lookup s s1 i (frame_quiet _ _ Q1)) as Hl. rewrite Hr in Hl.
    destruct (crtcs s1 !! i) as [r1|] eqn:Hr1; [|done]. injection Hl as Hl.
    destruct (Z.land (vblank_inmodeset r) 2 =? 0) eqn:E; cbn [negb]; [apply wp_ret; split; [done|by apply frame_quiet]|].
    eapply wp_mono; [apply (put_inv i h fl s1 r1 I1 Hh Hr1)|].
    - unfold modeset_ref. rewrite Hl, E. specialize (Hh i). lia.
    - intros ? s2 [I2 F2]. split; [done|]. apply (frame_trans s s1 s2); [by apply frame_quiet|done]. }
  apply wp_bind. eapply wp_mono; [exact Hput|]. intros ? s2 [I2 F2].
  pose proof (frame_lookup s s2 i F2) as Hl. rewrite Hr in Hl. destruct (crtcs s2 !! i) as [r2|] eqn:Hr2; [|done]. injection Hl as Hl.
  apply (set_modeset_inv i _ (if Z.land (vblank_inmodeset r) 2 =? 0 then h else add_ref h i (-1)) fl s2 r2
    (if Z.land (vblank_inmodeset r) 2 =? 0 then 0 else 1) h); [exact I2|done|done| |].
  - unfold modeset_ref. cbn. rewrite Hl. change (Z.land 0 2) with 0. destruct (Z.land _ 2 =? 0); cbn; lia.
  - intros j. destruct (Z.land _ 2 =? 0); rewrite ?add_ref_twice; by rewrite add_ref_0.
Qed.
End Ops.

(** ** Clients *)

Section Clients.
Context {D : Type} `{VblankDriver D}.
Implicit Types s : vblank_device D.
Implicit Types h : nat -> Z.
Context (fuel : nat).

Definition opened (f : nat) s : Prop := is_Some (files s !! f).

(** Space for an event is set aside: the event is like that of a flip. *)
Lemma reserve_run e h fl s p : inv h fl s -> files s !! ev_file e = Some p -> event_size <= event_space p ->
  wp (upd_file (ev_file e) (fun p => mk_file (event_space p - event_size) (event_list p)))
    (fun _ s' => inv h (e :: fl) s' /\ crtcs s' = crtcs s /\ opened (ev_file e) s') s.
Proof.
  intros Hinv Hp Hsp. apply (wp_upd_file _ _ _ s p Hp). split; [|split; [done|unfold opened; cbn; rewrite lookup_alter_eq, Hp; eauto]].
  apply (inv_file _ h fl (e :: fl) s _ _ p); [exact Hinv|done| | | |].
  - intros x Hx. apply elem_of_cons in Hx as [->|Hx]; [by right|by left].
  - intros f' Hne. rewrite count_cons. unfold by_file at 1. by destruct (Nat.eqb_spec (ev_file e) f') as [?|?]; [congruence|].
  - cbn. lia.
  - cbn. rewrite count_cons. unfold by_file at 1. rewrite Nat.eqb_refl. lia.
Qed.

(** And given back. *)
Lemma unreserve_run e h fl s : inv h (e :: fl) s ->
  wp (upd_file (ev_file e) (fun p => mk_file (event_space p + event_size) (event_list p)))
    (fun _ s' => inv h fl s' /\ crtcs s' = crtcs s) s.
Proof.
  intros Hinv. destruct (inv_files _ _ _ _ Hinv e) as [p Hp]; [set_solver|]. apply (wp_upd_file _ _ _ s p Hp). split; [|done].
  apply (inv_file _ h (e :: fl) fl s _ _ p); [exact Hinv|done| | | |].
  - intros x Hx. left. by right.
  - intros f' Hne. rewrite count_cons. unfold by_file at 2. by destruct (Nat.eqb_spec (ev_file e) f') as [?|?]; [congruence|].
  - destruct (inv_space _ _ _ _ Hinv _ p Hp). cbn. unfold event_size. lia.
  - cbn. rewrite count_cons. unfold by_file at 2. rewrite Nat.eqb_refl. lia.
Qed.

Lemma send_inv e sq now h fl s : inv h (e :: fl) s -> wp (send_vblank_event e sq now) (fun _ s' => inv h fl s' /\ crtcs s' = crtcs s) s.
Proof. intros Hinv. destruct (send_run _ h fl s e sq now Hinv) as (p & _ & E & Hi). unfold wp. rewrite E. by split. Qed.

Lemma inv_pointwise h h' fl s : (forall i, h' i = h i) -> inv h fl s -> inv h' fl s.
Proof. apply inv_refs_ext. Qed.

(** A reserved event only matters by its file. *)
Lemma inv_swap e e' h fl s : ev_file e' = ev_file e -> inv h (e :: fl) s -> inv h (e' :: fl) s.
Proof.
  intros Hf [I1 I2 I3 I4 I5]. split; try done.
  - intros x Hx. apply elem_of_app in Hx as [Hx|Hx]; [apply I4; set_solver|].
    apply elem_of_cons in Hx as [->|Hx]; [rewrite Hf|]; apply I4; set_solver.
  - intros f p Hp. destruct (I5 f p Hp) as [? Hs]. split; [done|]. rewrite <-Hs, !count_cons. unfold by_file at 2 4. by rewrite Hf.
Qed.

Lemma get_file_run f Q s p : files s !! f = Some p -> Q p s -> wp (get_file f) Q s.
Proof. intros Hp HQ. unfold wp, get_file. by rewrite Hp. Qed.

(** The caller's reference goes to the event, or is dropped. *)
Lemma queue_run i w f ok h fl s : inv h fl s -> nonneg h -> 0 < h i -> opened f s ->
  wp (drm_queue_vblank_event i w f ok) (fun _ s' => inv (add_ref h i (-1)) fl s') s.
Proof.
  intros Hinv Hh Hi [p Hp]. pose proof (inv_range _ _ _ _ Hinv i ltac:(lia)) as Hlt. unfold drm_queue_vblank_event.
  assert (forall (r : Z) s1, inv h fl s1 -> wp (_ ← drm_vblank_put i; mret (r, w)) (fun _ s' => inv (add_ref h i (-1)) fl s') s1) as Hput.
  { intros r s1 I1. apply wp_bind. eapply wp_mono; [by apply (put_held_inv i h fl s1)|]. intros ? s2 [I2 _]. by apply wp_ret. }
  destruct ok; cbn [negb]; [|by apply Hput]. apply wp_bind, (get_file_run f _ s p Hp).
  destruct (Z.ltb_spec (event_space p) event_size) as [?|Hsp]; [by apply Hput|].
  apply wp_bind. eapply wp_mono; [apply (reserve_run (mk_event i f 0 0 0 0 0) h fl s p Hinv Hp Hsp)|]. intros ? s1 (I1 & C1 & _).
  apply wp_bind. eapply wp_mono; [apply (count_and_time_run i h (mk_event i f 0 0 0 0 0 :: fl) s1); [by rewrite C1|done]|]. intros [sq now] s' [_ ->]. cbv zeta.
  set (w' := if _ && _ then _ else _).
  apply (inv_swap _ (mk_event i f DRM_EVENT_VBLANK (w_signal w') (w_sequence w') 0 0)) in I1; [|done].
  destruct (reached sq (w_sequence w')).
  - apply wp_bind. eapply wp_mono; [exact (put_held_inv i h _ s1 I1 Hh Hi)|]. intros ? s2 [I2 _].
    apply wp_bind. eapply wp_mono; [exact (send_inv _ sq now _ _ s2 I2)|]. intros ? s3 [I3 _]. by apply wp_ret.
  - apply wp_bind, wp_gets, wp_bind. eapply wp_mono; [apply set_events_inv, (inv_queue _ _ h fl s1 I1); cbn; by rewrite C1|].
    intros ? s2 I2. by apply wp_ret.
Qed.

(** Which reference the first part of the wait leaves with its caller. *)
Definition wait_held h (next : wait_next) : nat -> Z :=
  match next with WaitDone _ => h | WaitEvent c _ | WaitFor c _ => add_ref h c 1 end.

Lemma wait_start_run irq w h fl s : counter_settles (D:=D) fuel -> inv h fl s ->
  wp (wait_vblank_start fuel irq w) (fun next s' => inv (wait_held h next) fl s') s.
Proof.
  intros Hset Hinv. unfold wait_vblank_start. apply wp_bind, wp_gets. cbv zeta.
  destruct (_ || _); [by apply wp_ret|]. destruct (negb _); [by apply wp_ret|]. destruct (negb _); [by apply wp_ret|].
  apply wp_bind, wp_gets. set (c := if negb _ then _ else _).
  destruct (c >=? Z.of_nat (length (crtcs s))) eqn:Ec; [by apply wp_ret|]. rewrite Z.geb_leb in Ec. apply Z.leb_gt in Ec.
  assert (0 <= c) as Hc.
  { unfold c. destruct (negb _); [|destruct (negb _); lia]. apply Z.shiftr_nonneg, Z.land_nonneg. right. vm_compute. discriminate. }
  apply wp_bind. eapply wp_mono; [apply (get_inv fuel (Z.to_nat c) h fl s Hset); [lia|done]|]. intros ret s1 [I1 F1].
  destruct (ret =? 0); cbn [negb]; [|by apply wp_ret].
  assert (Z.to_nat c < length (crtcs s1))%nat as Hc1 by (rewrite (frame_length s s1 F1); lia).
  destruct (lookup_lt_is_Some_2 _ _ Hc1) as [r Hr]. apply wp_bind.
  unfold drm_vblank_count. apply wp_bind, (wp_get_crtc _ _ s1 r Hr), wp_ret.
  wp_if; [by apply wp_ret|]. apply wp_bind.
  eapply wp_mono; [apply (quiet_inv _ _ _ fl s1 (quiet_upd (Z.to_nat c) (with_last_wait _) ltac:(by intros)) Hc1 I1)|].
  intros ? s2 [I2 _]. by apply wp_ret.
Qed.

Lemma wait_end_run i w ret h fl s : inv h fl s -> nonneg h -> 0 < h i ->
  wp (wait_vblank_end i w ret) (fun _ s' => inv (add_ref h i (-1)) fl s') s.
Proof.
  intros Hinv Hh Hi. pose proof (inv_range _ _ _ _ Hinv i ltac:(lia)) as Hlt. unfold wait_vblank_end. apply wp_bind.
  eapply wp_mono with (Q := fun _ s' => inv h fl s').
  - destruct (negb _); [|by apply wp_ret]. apply wp_bind. eapply wp_mono; [by apply (count_and_time_run i h fl s)|].
    intros [sq now] s' [I1 _]. by apply wp_ret.
  - intros w' s1 I1. apply wp_bind. eapply wp_mono; [by apply (put_held_inv i h fl s1)|]. intros ? s2 [I2 _]. by apply wp_ret.
Qed.

Lemma open_run f h fl s : inv h fl s -> files s !! f = None -> wp (open_events f) (fun _ s' => inv h fl s') s.
Proof.
  intros [I1 I2 I3 I4 I5] Hf. unfold open_events. apply wp_bind, wp_gets, wp_modify. split; try done; cbn.
  - intros e He. apply lookup_insert_is_Some'. right. by apply I4.
  - assert (forall l, (forall e, e ∈ l -> is_Some (files s !! ev_file e)) -> count (by_file f) l = 0) as Hz.
    { intros l Hl. unfold count. destruct (List.filter (by_file f) l) as [|e l'] eqn:E; [done|].
      assert (In e (List.filter (by_file f) l)) as [Hin Hb]%filter_In by (rewrite E; by left).
      unfold by_file in Hb. apply Nat.eqb_eq in Hb. destruct (Hl e) as [p Hp]; [by apply list_elem_of_In|]. congruence. }
    intros f' p Hp. destruct (decide (f' = f)) as [->|Hne].
    + rewrite lookup_insert_eq in Hp. injection Hp as <-. cbn.
      rewrite (Hz (vblank_event_list s)), (Hz fl) by (intros; apply I4; set_solver). unfold event_size. lia.
    + rewrite lookup_insert_ne in Hp by done. by apply I5.
Qed.

Lemma count_none {A} (p : A -> bool) l : (forall a, a ∈ l -> p a = false) -> count p l = 0.
Proof.
  intros Hl. induction l as [|a l IH]; [done|]. rewrite count_cons, Hl, IH; [lia| |by left]. intros b Hb. apply Hl. by right.
Qed.

Lemma release_events_run f h fl s : inv h fl s -> nonneg h -> (forall e, e ∈ fl -> ev_file e <> f) ->
  wp (drm_events_release f) (fun _ s' => inv h fl s') s.
Proof.
  intros Hinv Hh Hfl. unfold drm_events_release. apply wp_bind, wp_gets, wp_bind.
  eapply wp_mono; [by apply (release_loop_run f h fl Hh (vblank_event_list s) [] s)|]. intros l s1 (-> & I1 & _ & F1).
  apply wp_bind, wp_modify, wp_bind, wp_gets, wp_modify. destruct I1 as [J1 J2 J3 J4 J5]. cbn in J1, J2, J3, J4, J5.
  split; cbn; try done.
  - intros e He. rewrite lookup_delete_ne.
    + apply J4. apply elem_of_app in He as [He|He]; apply elem_of_app; [by left|right; apply elem_of_app; by right].
    + apply elem_of_app in He as [He|He]; [|intros Hef; by apply (Hfl e He)].
      apply list_elem_of_In, filter_In in He as [_ Hn]. unfold by_file in Hn. intros Hef. by rewrite <-Hef, Nat.eqb_refl in Hn.
  - intros f' p Hp. assert (f' <> f) as Hne by (intros ->; by rewrite lookup_delete_eq in Hp).
    rewrite lookup_delete_ne in Hp by done. destruct (J5 f' p Hp) as [? Hs]. split; [done|]. rewrite <-Hs, count_app.
    rewrite (count_none (by_file f') (List.filter (by_file f) _)); [lia|].
    intros e He. apply list_elem_of_In, filter_In in He as [_ Hb]. unfold by_file in *. apply Nat.eqb_eq in Hb as ->.
    by apply Nat.eqb_neq.
Qed.

Lemma dequeue_run f total max h fl s : inv h fl s -> opened f s ->
  wp (drm_dequeue_event f total max) (fun _ s' => inv h fl s' /\ opened f s') s.
Proof.
  intros Hinv [p Hp]. unfold drm_dequeue_event. apply wp_bind, (get_file_run f _ s p Hp).
  destruct (event_list p) as [|e l] eqn:El; [apply wp_ret; by split; [|exists p]|].
  destruct (_ >? _); [apply wp_ret; by split; [|exists p]|].
  apply wp_bind, (wp_upd_file _ _ _ s p Hp), wp_ret. split; [|unfold opened; cbn; rewrite lookup_alter_eq, Hp; eauto].
  destruct (inv_space _ _ _ _ Hinv f p Hp) as [Hpos _].
  apply (inv_file _ h fl fl s f _ p); [exact Hinv|done|by left|done|cbn; unfold event_size; lia|]. rewrite El. cbn. unfold event_size. lia.
Qed.

Lemma read_run f max copy h fl s : inv h fl s -> opened f s -> wp (drm_read f max copy) (fun _ s' => inv h fl s') s.
Proof.
  intros Hinv [p Hp]. unfold drm_read. apply wp_bind, (get_file_run f _ s p Hp).
  assert (opened f s) as Ho by by exists p. clear Hp. revert s Hinv Ho.
  generalize (S (length (event_list p))), 0, copy, (@nil pending_event). intros n. induction n as [|n IH]; intros total cp got s Hinv Ho; [by apply wp_ret|].
  cbn [read_loop]. apply wp_bind. eapply wp_mono; [by apply (dequeue_run f total max h fl s)|]. intros [e|] s1 [I1 O1]; [|by apply wp_ret].
  destruct (hd true cp); [|by apply wp_ret]. by apply IH.
Qed.
End Clients.

(** ** Page flips and the interrupt handler *)

Section Flips.
Context {D : Type} `{VblankDriver D}.
Implicit Types s : vblank_device D.
Implicit Types h : nat -> Z.
Context (fuel : nat).

Lemma page_flip_event_run f data ok h fl s : inv h fl s -> opened f s ->
  wp (page_flip_event f data ok) (fun r s' => match r with Some e => ev_file e = f /\ inv h (e :: fl) s' | None => inv h fl s' end /\
    crtcs s' = crtcs s) s.
Proof.
  intros Hinv [p Hp]. unfold page_flip_event. apply wp_bind, (get_file_run f _ s p Hp).
  destruct (Z.ltb_spec (event_space p) event_size) as [?|Hsp]; [by apply wp_ret|].
  set (e := mk_event 0 f DRM_EVENT_FLIP_COMPLETE data 0 0 0).
  apply wp_bind. eapply wp_mono; [exact (reserve_run e h fl s p Hinv Hp Hsp)|]. intros ? s1 (I1 & C1 & _).
  destruct ok; cbn [negb]; [by apply wp_ret|].
  apply wp_bind. eapply wp_mono; [exact (unreserve_run e h fl s1 I1)|]. intros ? s2 [I2 C2]. apply wp_ret. split; [done|]. by rewrite C2.
Qed.

Lemma intel_flip_run i work busy q h fl s : counter_settles (D:=D) fuel -> (i < length (crtcs s))%nat -> nonneg h -> inv h fl s ->
  wp (intel_crtc_page_flip fuel i work busy q) (fun ret s' => inv (if ret =? 0 then add_ref h i 1 else h) fl s') s.
Proof.
  intros Hset Hi Hh Hinv. unfold intel_crtc_page_flip. destruct work; cbn [negb]; [|by apply wp_ret].
  apply wp_bind. eapply wp_mono; [exact (get_inv fuel i h fl s Hset Hi Hinv)|]. intros ret s1 [I1 _].
  destruct (ret =? 0) eqn:Er; cbn [negb]; [|apply wp_ret; by rewrite Er].
  assert (forall (r : Z), (r =? 0) = false -> wp (_ ← drm_vblank_put i; mret r) (fun ret s' => inv (if ret =? 0 then add_ref h i 1 else h) fl s') s1) as Hput.
  { intros r Hr. apply wp_bind. eapply wp_mono; [apply (put_held_inv i _ fl s1 I1 (nonneg_up h i Hh))|].
    - rewrite add_ref_eq. specialize (Hh i). lia.
    - intros ? s2 [I2 _]. apply wp_ret. rewrite Hr. eapply inv_pointwise; [|exact I2]. intros j. by rewrite add_ref_twice, add_ref_0. }
  destruct busy; [by apply Hput|]. destruct (q =? 0) eqn:Eq; cbn [negb]; [by apply wp_ret|by apply Hput].
Qed.

(** What a flip leaves with the driver. *)
Definition flip_refs h i (e : option pending_event) : nat -> Z := match e with Some _ => add_ref h i 1 | None => h end.
Definition flip_events (e : option pending_event) (fl : list pending_event) : list pending_event :=
  match e with Some e => e :: fl | None => fl end.

Lemma flip_run i f data ok work busy q h fl s : counter_settles (D:=D) fuel -> (i < length (crtcs s))%nat -> nonneg h -> inv h fl s ->
  opened f s ->
  wp (page_flip_with_event i f data ok (intel_crtc_page_flip fuel i work busy q))
    (fun r s' => inv (flip_refs h i r.2) (flip_events r.2 fl) s') s.
Proof.
  intros Hset Hi Hh Hinv Ho. unfold page_flip_with_event. apply wp_bind. eapply wp_mono; [by apply (page_flip_event_run f data ok h fl s)|].
  intros [e|] s1 [I1 C1]; [|by apply wp_ret]. destruct I1 as [Ef I1].
  apply wp_bind. eapply wp_mono; [apply (intel_flip_run i work busy q h (e :: fl) s1 Hset); [by rewrite C1|done|done]|]. intros ret s2 I2.
  cbv beta in I2. destruct (ret =? 0); cbn [negb]; [by apply wp_ret|]. rewrite <-Ef.
  apply wp_bind. eapply wp_mono; [exact (unreserve_run e h fl s2 I2)|]. intros ? s3 [I3 _]. by apply wp_ret.
Qed.

Lemma inv_perm h fl fl' s : fl ≡ₚ fl' -> inv h fl s -> inv h fl' s.
Proof.
  intros Hp [I1 I2 I3 I4 I5]. split; try done.
  - intros e He. apply I4. apply elem_of_app in He as [He|He]; apply elem_of_app; [by left|right; by rewrite Hp].
  - intros f p Hf. destruct (I5 f p Hf) as [? Hs]. split; [done|]. rewrite <-Hs.
    assert (count (by_file f) fl' = count (by_file f) fl) as ->; [|done]. unfold count. f_equal.
    clear - Hp. induction Hp; cbn; repeat (destruct (by_file f _); cbn); congruence.
Qed.

(** A flip that completes: the driver's event is one of those it holds. *)
Lemma finish_run i e h fl fl' s : inv h fl s -> nonneg h -> 0 < h i -> fl ≡ₚ e :: fl' ->
  wp (do_intel_finish_page_flip i (Some e)) (fun _ s' => inv (add_ref h i (-1)) fl' s') s.
Proof.
  intros Hinv Hh Hi Hp. apply (inv_perm _ _ _ _ Hp) in Hinv. pose proof (inv_range _ _ _ _ Hinv i ltac:(lia)) as Hlt.
  unfold do_intel_finish_page_flip, drm_send_vblank_event. apply wp_bind, wp_bind.
  destruct (Z.geb_spec (Z.of_nat i) 0); [|lia]. rewrite !Nat2Z.id.
  eapply wp_mono; [exact (count_and_time_run i h (e :: fl') s Hlt Hinv)|]. intros [sq now] s' [_ ->].
  set (e' := mk_event _ _ _ _ _ _ _). assert (inv h (e' :: fl') s) as I1 by by apply (inv_swap e e').
  eapply wp_mono; [exact (send_inv e' sq now h fl' s I1)|]. intros ? s1 [I2 _].
  eapply wp_mono; [exact (put_held_inv i h fl' s1 I2 Hh Hi)|]. by intros ? s2 [I3 _].
Qed.

Lemma quiet_inv' {A} (m : V D A) h fl s : wp m (fun _ s' => quiet_rel s s') s -> inv h fl s -> wp m (fun _ s' => inv h fl s') s.
Proof.
  intros Hq Hinv. eapply wp_mono; [exact Hq|]. intros ? s' Q. apply (inv_frame h fl s s'); [by apply frame_quiet|].
  by apply (inv_quiet _ _ _ s).
Qed.

Lemma uninstall_loop_run l : forall s, Forall (fun i => (i < length (crtcs s))%nat) l -> wp (uninstall_loop l) (fun _ s' => quiet_rel s s') s.
Proof.
  induction l as [|i l IH]; intros s Hl; [apply quiet_refl|]. inversion Hl as [|? ? Hi Hl']; subst. cbn [uninstall_loop].
  assert (forall s1, quiet_rel s s1 -> (i < length (crtcs s1))%nat) as Hlen by (intros s1 Q; by rewrite (quiet_length s s1 Q)).
  apply wp_bind. eapply wp_mono; [apply (quiet_upd i (with_enabled false)); [by intros|done]|]. intros ? s1 Q1.
  apply wp_bind. eapply wp_mono; [apply (quiet_call i); by apply Hlen|]. intros c s2 Q2. pose proof (quiet_trans _ _ _ Q1 Q2) as Q12.
  apply wp_bind. eapply wp_mono; [apply (quiet_upd i (with_last c)); [by intros|by apply Hlen]|]. intros ? s3 Q3.
  pose proof (quiet_trans _ _ _ Q12 Q3) as Q13. eapply wp_mono; [apply IH; by rewrite (quiet_length s s3 Q13)|].
  intros ? s4 Q4. exact (quiet_trans _ _ _ Q13 Q4).
Qed.

Lemma uninstall_run have h fl s : inv h fl s -> wp (drm_irq_uninstall have) (fun _ s' => inv h fl s') s.
Proof.
  intros Hinv. unfold drm_irq_uninstall. destruct have; cbn [negb]; [|by apply wp_ret]. apply wp_bind, wp_gets, wp_bind.
  eapply wp_mono; [apply (quiet_inv' (set_irq_enabled false) h fl s); [split; [apply same_refl|done]|done]|].
  intros ? s1 I1. apply wp_bind, wp_gets, wp_bind. eapply wp_mono; [apply (quiet_inv' _ h fl s1); [|done]|].
  { apply uninstall_loop_run, Forall_forall. intros i Hi%list_elem_of_In%in_seq. lia. }
  intros ? s2 I2. destruct (irq_enabled s); cbn [negb]; [|by apply wp_ret]. apply wp_bind.
  eapply wp_mono; [apply (quiet_inv' _ h fl s2); [|done]|].
  { split; [apply same_refl|done]. }
  intros ? s3 I3. by apply wp_ret.
Qed.

Lemma modeset_ctl_run ms c cmd h fl s : counter_settles (D:=D) fuel -> 0 <= c -> nonneg h -> inv h fl s ->
  wp (drm_modeset_ctl fuel ms c cmd) (fun _ s' => inv h fl s') s.
Proof.
  intros Hset Hc Hh Hinv. unfold drm_modeset_ctl. apply wp_bind, wp_gets. wp_if; [by apply wp_ret|].
  destruct ms; [by apply wp_ret|]. wp_if; [by apply wp_ret|]. zbool.
  destruct (cmd =? 1).
  - apply wp_bind. eapply wp_mono; [apply (pre_modeset_run fuel _ h fl s Hset); [lia|done]|]. intros ? s1 I1. by apply wp_ret.
  - destruct (cmd =? 2); [|by apply wp_ret]. apply wp_bind.
    eapply wp_mono; [apply (post_modeset_run _ h fl s); [lia|done|done]|]. intros ? s1 I1. by apply wp_ret.
Qed.
End Flips.

(** ** The system *)

Section System.
Context {D : Type} `{VblankDriver D}.
Implicit Types s : vblank_device D.
Implicit Types h : nat -> Z.
Context (fuel : nat).

Inductive vop : Type :=
| OpOpen (f : nat)
| OpClose (f : nat)
| OpRead (f : nat) (max : Z) (copy : list bool)
| OpWait (irq : Z) (w : wait_vblank)                (* a client begins to wait ... *)
| OpWaitEnd (i : nat) (w : wait_vblank) (ret : Z)   (* ... and ends, *)
| OpQueue (i : nat) (w : wait_vblank) (f : nat) (ok : bool)   (* or asks for an event *)
| OpGet (i : nat)
| OpPut (i : nat)
| OpFlip (i f : nat) (data : Z) (ok work busy : bool) (queue_flip : Z)
| OpFlipDone (i : nat) (e : pending_event)
| OpModeset (ms : bool) (crtc cmd : Z)
| OpOff (i : nat)
| OpVblank (i : nat)
| OpTimer
| OpUninstall (have_irq : bool).

(** What an operation does to the references and the flips that are under way. *)
Definition vrun (op : vop) h (fl : list pending_event) : V D ((nat -> Z) * list pending_event) :=
  match op with
  | OpOpen f => _ ← open_events f; mret (h, fl)
  | OpClose f => _ ← drm_events_release f; mret (h, fl)
  | OpRead f max copy => _ ← drm_read f max copy; mret (h, fl)
  | OpWait irq w => next ← wait_vblank_start fuel irq w; mret (wait_held h next, fl)
  | OpWaitEnd i w ret => _ ← wait_vblank_end i w ret; mret (add_ref h i (-1), fl)
  | OpQueue i w f ok => _ ← drm_queue_vblank_event i w f ok; mret (add_ref h i (-1), fl)
  | OpGet i => ret ← drm_vblank_get fuel i; mret (if ret =? 0 then add_ref h i 1 else h, fl)
  | OpPut i => _ ← drm_vblank_put i; mret (add_ref h i (-1), fl)
  | OpFlip i f data ok work busy q =>
      r ← page_flip_with_event i f data ok (intel_crtc_page_flip fuel i work busy q);
      mret (flip_refs h i r.2, flip_events r.2 fl)
  | OpFlipDone i e => _ ← do_intel_finish_page_flip i (Some e); mret (add_ref h i (-1), default fl (take_out fl e))
  | OpModeset ms crtc cmd => _ ← drm_modeset_ctl fuel ms crtc cmd; mret (h, fl)
  | OpOff i => _ ← drm_vblank_off i; mret (h, fl)
  | OpVblank i => _ ← drm_handle_vblank i; mret (h, fl)
  | OpTimer => _ ← vblank_disable_fn; mret (h, fl)
  | OpUninstall have => _ ← drm_irq_uninstall have; mret (h, fl)
  end.

(** What the callers see to: files are open, CRTCs exist, a reference is dropped by one
    who holds it, and a file is not closed while a flip of it is under way. *)
Definition vallowed (op : vop) h (fl : list pending_event) s : Prop :=
  match op with
  | OpOpen f => files s !! f = None
  | OpClose f => forall e, e ∈ fl -> ev_file e <> f
  | OpRead f _ _ => opened f s
  | OpWait _ _ | OpTimer | OpUninstall _ => True
  | OpWaitEnd i _ _ | OpPut i => 0 < h i
  | OpQueue i _ f _ => 0 < h i /\ opened f s
  | OpGet i | OpOff i | OpVblank i => (i < length (crtcs s))%nat
  | OpFlip i f _ _ _ _ _ => (i < length (crtcs s))%nat /\ opened f s
  | OpFlipDone i e => 0 < h i /\ e ∈ fl
  | OpModeset _ crtc _ => 0 <= crtc
  end.

Definition vstate : Type := (nat -> Z) * list pending_event * vblank_device D.

Inductive vstep : vstate -> vstate -> Prop :=
| do_vop op h fl s h' fl' s' : vallowed op h fl s -> vrun op h fl s = Some (h', fl', s') -> vstep (h, fl, s) (h', fl', s').

(** A device whose CRTCs have just been set up, with no file and no event. *)
Definition vinitial (st : vstate) : Prop :=
  st.1.1 = (fun _ => 0) /\ st.1.2 = [] /\
  exists n s0, vblank_event_list s0 = [] /\ files s0 = ∅ /\ drm_vblank_init n [] s0 = Some (0, st.2).

Definition vreachable (st : vstate) : Prop := exists st0, vinitial st0 /\ rtc vstep st0 st.

Lemma wp_then {A B} (m : V D A) (k : A -> B) (Q : B -> vblank_device D -> Prop) s :
  wp m (fun a s' => Q (k a) s') s -> wp (a ← m; mret (k a)) Q s.
Proof. intros Hm. apply wp_bind. exact Hm. Qed.

Lemma vrun_ok op h fl s : counter_settles (D:=D) fuel -> inv h fl s -> nonneg h -> vallowed op h fl s ->
  wp (vrun op h fl) (fun r s' => inv r.1 r.2 s' /\ nonneg r.1) s.
Proof.
  intros Hset Hinv Hh Ha.
  assert (forall i, 0 < h i -> nonneg (add_ref h i (-1))) as Hdown by (intros; by apply nonneg_down).
  destruct op as [f|f|f max copy|irq w|i w ret|i w f ok|i|i|i f data ok work busy q|i e|ms c cmd|i|i| |have]; cbn [vrun vallowed] in *; apply wp_then.
  - eapply wp_mono; [exact (open_run f h fl s Hinv Ha)|]. by intros.
  - eapply wp_mono; [exact (release_events_run f h fl s Hinv Hh Ha)|]. by intros.
  - eapply wp_mono; [exact (read_run f max copy h fl s Hinv Ha)|]. by intros.
  - eapply wp_mono; [exact (wait_start_run fuel irq w h fl s Hset Hinv)|]. intros next s' Hi. split; [done|]. destruct next; [exact Hh|by apply nonneg_up|by apply nonneg_up].
  - eapply wp_mono; [exact (wait_end_run i w ret h fl s Hinv Hh Ha)|]. intros ? s' Hi. split; [done|by apply Hdown].
  - destruct Ha as [Hi Ho]. eapply wp_mono; [exact (queue_run i w f ok h fl s Hinv Hh Hi Ho)|]. intros ? s' I'. split; [done|by apply Hdown].
  - eapply wp_mono; [exact (get_inv fuel i h fl s Hset Ha Hinv)|]. intros ret s' [I' _]. split; [done|]. cbn. by apply nonneg_if.
  - eapply wp_mono; [exact (put_held_inv i h fl s Hinv Hh Ha)|]. intros ? s' [I' _]. split; [done|by apply Hdown].
  - destruct Ha as [Hi Ho]. eapply wp_mono; [exact (flip_run fuel i f data ok work busy q h fl s Hset Hi Hh Hinv Ho)|].
    intros [ret r] s' I'. split; [done|]. destruct r; [by apply nonneg_up|exact Hh].
  - destruct Ha as [Hi [fl' Hf]%take_out_is_Some]. rewrite Hf. cbn [default]. pose proof Hf as (l1 & l2 & Hl & -> & _)%take_out_Some.
    eapply wp_mono; [apply (finish_run i e h fl (l1 ++ l2) s Hinv Hh Hi)|].
    + subst fl. symmetry. apply Permutation_middle.
    + intros ? s' I'. split; [done|by apply Hdown].
  - eapply wp_mono; [exact (modeset_ctl_run fuel ms c cmd h fl s Hset Ha Hh Hinv)|]. by intros.
  - eapply wp_mono; [exact (off_run i h fl s Ha Hh Hinv)|]. by intros.
  - eapply wp_mono; [exact (handle_run i h fl s Ha Hh Hinv)|]. by intros.
  - eapply wp_mono; [exact (disable_fn_run h fl s Hinv)|]. by intros.
  - eapply wp_mono; [exact (uninstall_run have h fl s Hinv)|]. by intros.
Qed.

Lemma vinitial_inv h fl s : vinitial (h, fl, s) -> inv h fl s /\ nonneg h.
Proof.
  intros (E1 & E2 & n & s0 & He & Hf & Hi). cbn in E1, E2, Hi. subst h fl. injection Hi as <-. split; [|by intros ?].
  split; cbn; rewrite ?He, ?Hf.
  - intros i r Hr. apply lookup_replicate in Hr as [-> _]. reflexivity.
  - done.
  - intros e He'. by apply elem_of_nil in He'.
  - intros e He'. by apply elem_of_nil in He'.
  - intros f p Hp. by rewrite lookup_empty in Hp.
Qed.

Lemma vreachable_inv h fl s : counter_settles (D:=D) fuel -> vreachable (h, fl, s) -> inv h fl s /\ nonneg h.
Proof.
  intros Hset ([[h0 fl0] s0] & H0 & Hr). apply vinitial_inv in H0.
  assert (forall st st', rtc vstep st st' -> inv st.1.1 st.1.2 st.2 /\ nonneg st.1.1 -> inv st'.1.1 st'.1.2 st'.2 /\ nonneg st'.1.1) as Hind.
  { clear Hr. intros st st' Hr. induction Hr as [|st1 st2 st3 Hs _ IH]; [done|]. intros [Hi Hh]. apply IH.
    destruct Hs as [op h1 fl1 s1 h' fl' s' Ha Hrun]. pose proof (vrun_ok op h1 fl1 s1 Hset Hi Hh Ha) as Hw. unfold wp in Hw.
    rewrite Hrun in Hw. exact Hw. }
  exact (Hind _ _ Hr H0).
Qed.

(** C38: in every state that clients, drivers and interrupts can reach, the references of a
    CRTC are those of its pending events, of a mode set and of the callers in between;
    every pending event has an open file; the event space of a file and the events it
    has, pending or unread, make up 4096 bytes; and no operation that its caller may
    call faults: no reference is dropped twice, no event is sent to a closed file. *)
Theorem vblank_reachable_safe h fl s : counter_settles (D:=D) fuel -> vreachable (h, fl, s) ->
  (forall i r, crtcs s !! i = Some r -> vblank_refcount r = count (on i) (vblank_event_list s) + h i + modeset_ref r) /\
  (forall e, e ∈ vblank_event_list s -> opened (ev_file e) s) /\
  (forall f p, files s !! f = Some p -> 0 <= event_space p /\
    event_space p + event_size * (Z.of_nat (length (event_list p)) + count (by_file f) (vblank_event_list s) + count (by_file f) fl) = 4096) /\
  (forall op, vallowed op h fl s -> is_Some (vrun op h fl s)).
Proof.
  intros Hset Hr. destruct (vreachable_inv h fl s Hset Hr) as [Hinv Hh]. destruct Hinv as [I1 I2 I3 I4 I5].
  split; [exact I1|]. split; [intros e He; apply I4; set_solver|]. split; [exact I5|].
  intros op Ha. assert (inv h fl s) as Hinv by by split. pose proof (vrun_ok op h fl s Hset Hinv Hh Ha) as (r & s' & -> & _)%wp_run. eauto.
Qed.
End System.
