(* ===== verification/VblankRuns.v ===== *)
(** * Vertical blanking: what an interrupt delivers, and the counts across a gap

    The effect of an interrupt on the pending events and of turning the interrupt on again
    on the count; a device on which the theorems apply; and runs in which the code does
    not do what it means to. *)

From S2P Require Import Prelude Vblank VblankFacts VblankSafe.

Open Scope Z_scope.

Section Deliveries.
Context {D : Type} `{VblankDriver D}.
Implicit Types s : vblank_device D.
Implicit Types h : nat -> Z.

Lemma gettime_frame i fl s a s' : drm_get_last_vbltimestamp i fl s = Some (a, s') -> (i < length (crtcs s))%nat ->
  crtcs s' = crtcs s /\ vblank_event_list s' = vblank_event_list s /\ files s' = files s.
Proof.
  intros E Hi. assert (forall A (f : D -> A * D) s1 a1 s2, call f s1 = Some (a1, s2) ->
    crtcs s2 = crtcs s1 /\ vblank_event_list s2 = vblank_event_list s1 /\ files s2 = files s1) as Hcall.
  { intros A f s1 a1 s2 E1. unfold call in E1. destruct (f (driver s1)). by injection E1 as _ <-. }
  assert (forall s1 a1 s2, (t ← call do_gettimeofday; mret (0, t)) s1 = Some (a1, s2) ->
    crtcs s2 = crtcs s1 /\ vblank_event_list s2 = vblank_event_list s1 /\ files s2 = files s1) as Hfall.
  { intros s1 a1 s2 E1. unfold mbind, Prog_bind in E1. destruct (call do_gettimeofday s1) as [[t s3]|] eqn:E3; [|done].
    apply Hcall in E3. by injection E1 as _ <-. }
  unfold drm_get_last_vbltimestamp in E. cbv zeta in E. destruct get_vblank_timestamp as [g|]; [|by apply Hfall in E].
  destruct (_ >? 0); [|by apply Hfall in E]. unfold mbind at 1, Prog_bind at 1 in E.
  destruct (call _ s) as [[[ret t] s1]|] eqn:E1; [|done]. apply Hcall in E1 as (C1 & C2 & C3).
  destruct (ret >? 0); [by injection E as _ <-|]. apply Hfall in E as (F1 & F2 & F3). split; [congruence|]. split; congruence.
Qed.

Lemma gettime_total i fl s : (i < length (crtcs s))%nat -> exists rc t s', drm_get_last_vbltimestamp i fl s = Some ((rc, t), s').
Proof. intros Hi. destruct (proj1 (wp_run _ _ _) (quiet_time i fl s Hi)) as ([rc t] & s' & E & _). eauto. Qed.

(** Whether an interrupt counts, and the count and the time after it. *)
Definition counts (r : vblank_crtc) (t : timeval) : bool :=
  Z.abs (timeval_to_ns t - timeval_to_ns (vblanktimestamp r (vblank_count r))) >? DRM_REDUNDANT_VBLIRQ_THRESH_NS.
Definition next_count r (t : timeval) : Z := if counts r t then u32 (vblank_count r + 1) else vblank_count r.
Definition next_time r (t : timeval) : timeval := if counts r t then t else vblanktimestamp r (vblank_count r).

Lemma set_get_timestamp n t r : vblanktimestamp (set_vblanktimestamp n t r) n = t.
Proof. unfold vblanktimestamp, set_vblanktimestamp. cbn. by destruct (n mod 2 =? 0). Qed.

(** C39: an interrupt on a CRTC that is enabled counts one blank, unless the time it is
    given is within a millisecond of the last one; it then delivers exactly the pending
    events of that CRTC whose count is reached, in the order in which they were asked
    for, with the new count and its time, to the end of the queues of their files, and
    leaves the others pending. *)
Theorem handle_vblank_delivers h fl s i r rc t s1 : inv h fl s -> nonneg h -> crtcs s !! i = Some r -> vblank_enabled r = true ->
  drm_get_last_vbltimestamp i DRM_CALLED_FROM_VBLIRQ s = Some ((rc, t), s1) ->
  let due e := on i e && reached (next_count r t) (ev_sequence e) in
  exists s' r', drm_handle_vblank i s = Some (true, s') /\ crtcs s' !! i = Some r' /\
    vblank_count r' = next_count r t /\ vblanktimestamp r' (next_count r t) = next_time r t /\
    vblank_event_list s' = List.filter (fun e => negb (due e)) (vblank_event_list s) /\
    forall f, files s' !! f = deliver due (next_count r t) (next_time r t) (vblank_event_list s) f <$> (files s !! f).
Proof.
  intros Hinv Hh Hr He E due. pose proof (lookup_lt_Some _ _ _ Hr) as Hi.
  pose proof (quiet_time i DRM_CALLED_FROM_VBLIRQ s Hi) as Q1. unfold wp in Q1. rewrite E in Q1. cbn in Q1.
  destruct (gettime_frame _ _ _ _ _ E Hi) as (C1 & C2 & C3).
  assert (crtcs s1 !! i = Some r) as Hr1 by by rewrite C1.
  assert (wp (drm_handle_vblank i) (fun b s' => b = true /\ exists r', crtcs s' !! i = Some r' /\
    vblank_count r' = next_count r t /\ vblanktimestamp r' (next_count r t) = next_time r t /\
    vblank_event_list s' = List.filter (fun e => negb (due e)) (vblank_event_list s) /\
    forall f, files s' !! f = deliver due (next_count r t) (next_time r t) (vblank_event_list s) f <$> (files s !! f)) s) as Hw.
  2:{ apply wp_run in Hw as (b & s' & Es & -> & r' & Hw). by exists s', r'. }
  unfold drm_handle_vblank. apply wp_bind, wp_gets. destruct (Nat.eqb_spec (length (crtcs s)) 0); [lia|].
  apply wp_bind, (wp_get_crtc i _ s r Hr). rewrite He. cbn [negb]. apply wp_bind. unfold wp at 1. rewrite E. cbv zeta.
  apply wp_bind. fold (counts r t).
  eapply wp_mono with (Q := fun _ s2 => inv h fl s2 /\ vblank_event_list s2 = vblank_event_list s /\ files s2 = files s /\
    exists r2, crtcs s2 !! i = Some r2 /\ vblank_count r2 = next_count r t /\ vblanktimestamp r2 (next_count r t) = next_time r t).
  - assert (inv h fl s1) as I1.
    { apply (inv_frame h fl s s1); [by apply frame_quiet|]. by apply (inv_quiet _ _ _ s). }
    unfold next_count, next_time. destruct (counts r t).
    + set (m := _ ≫= _). assert (quiet (D:=D) i m) as Hq.
      { apply quiet_bind; [apply quiet_upd; by intros|]. intros _. apply quiet_upd. by intros. }
      eapply wp_mono; [apply (wp_and m _ (fun _ s2 => exists r2, crtcs s2 !! i = Some r2 /\ vblank_count r2 = u32 (vblank_count r + 1) /\
        vblanktimestamp r2 (u32 (vblank_count r + 1)) = t) s1 (quiet_inv i m h fl s1 Hq (lookup_lt_Some _ _ _ Hr1) I1))|].
      * unfold m. apply wp_bind, (wp_upd_crtc i _ _ s1 r Hr1). eapply wp_upd_crtc; [cbn; by rewrite list_lookup_alter_eq, Hr1|].
        cbn. rewrite list_lookup_alter_eq, list_lookup_alter_eq, Hr1. eexists. split; [reflexivity|]. split; [reflexivity|].
        apply (set_get_timestamp _ t r).
      * intros ? s2 [[I2 (_ & Q2 & Q3)] Hr2]. split; [done|]. rewrite Q2, Q3. done.
    + apply wp_ret. split; [done|]. split; [done|]. split; [done|]. by exists r.
  - intros ? s2 (I2 & E2 & F2 & r2 & Hr2 & Hc & Ht). apply wp_bind.
    unfold drm_handle_vblank_events. apply wp_bind. unfold drm_vblank_count_and_time at 1. apply wp_bind, (wp_get_crtc i _ s2 r2 Hr2), wp_ret.
    rewrite Hc, Ht. apply wp_bind, wp_gets, wp_bind. rewrite E2.
    eapply wp_mono; [apply (send_loop_run due (next_count r t) (next_time r t) h fl Hh (vblank_event_list s) [] s2)|].
    { unfold inv in I2. by rewrite E2 in I2. }
    intros l s3 (-> & I3 & (O1 & _) & F3). apply wp_modify, wp_ret. split; [done|]. cbn.
    destruct (Forall2_lookup_l _ _ _ _ _ O1 Hr2) as (r3 & Hr3 & n3 & ->). exists (with_refcount n3 r2). rewrite <-F2. done.
Qed.
End Deliveries.

(** ** The count over the time interrupts are off *)

(** The frames [n0] and [n1] as a counter that goes up to [max] shows them. *)
Lemma missed_spec max n0 n1 : 0 <= max < 2 ^ 32 -> 0 <= n1 - n0 <= max ->
  missed max (n1 mod (max + 1)) (n0 mod (max + 1)) =
    n1 - n0 - (if n1 mod (max + 1) <? n0 mod (max + 1) then 1 else 0).
Proof.
  intros Hm Hd. unfold missed.
  pose proof (Z.mod_pos_bound n1 (max + 1) ltac:(lia)) as B1. pose proof (Z.mod_pos_bound n0 (max + 1) ltac:(lia)) as B0.
  pose proof (Z.div_mod n1 (max + 1) ltac:(lia)) as E1. pose proof (Z.div_mod n0 (max + 1) ltac:(lia)) as E0.
  set (a := n1 mod (max + 1)) in *. set (b := n0 mod (max + 1)) in *.
  set (q1 := n1 / (max + 1)) in *. set (q0 := n0 / (max + 1)) in *.
  destruct (Z.ltb_spec a b).
  - assert (q1 = q0 + 1) as -> by nia. unfold u32. rewrite Zplus_mod_idemp_l. rewrite Z.mod_small by nia. nia.
  - assert (q1 = q0) as -> by nia. rewrite u32_small by lia. nia.
Qed.

Section Gap.
Context {D : Type} `{VblankDriver D}.
Implicit Types s : vblank_device D.
Context (fuel : nat).

Lemma settle_frame n i : forall s a s', settle_loop n i s = Some (a, s') -> (i < length (crtcs s))%nat ->
  crtcs s' = crtcs s /\ max_vblank_count s' = max_vblank_count s.
Proof.
  assert (forall A (f : D -> A * D) s1 a1 s2, call f s1 = Some (a1, s2) ->
    crtcs s2 = crtcs s1 /\ max_vblank_count s2 = max_vblank_count s1) as Hcall.
  { intros A f s1 a1 s2 E1. unfold call in E1. destruct (f (driver s1)). by injection E1 as _ <-. }
  assert (forall s1 a1 s2, drm_get_last_vbltimestamp i 0 s1 = Some (a1, s2) -> max_vblank_count s2 = max_vblank_count s1) as Htime.
  { intros s1 a1 s2 E. unfold drm_get_last_vbltimestamp in E. cbv zeta in E.
    assert (forall s3 s4, (t ← call do_gettimeofday; mret (0, t)) s3 = Some (a1, s4) -> max_vblank_count s4 = max_vblank_count s3) as Hfall.
    { intros s3 s4 E1. unfold mbind, Prog_bind in E1. destruct (call do_gettimeofday s3) as [[t s5]|] eqn:E3; [|done].
      apply Hcall in E3 as [_ <-]. by injection E1 as _ <-. }
    destruct get_vblank_timestamp as [g|]; [|by apply Hfall]. destruct (_ >? 0); [|by apply Hfall].
    unfold mbind at 1, Prog_bind at 1 in E. destruct (call _ s1) as [[[ret t] s3]|] eqn:E1; [|done]. apply Hcall in E1 as [_ <-].
    destruct (ret >? 0); [by injection E as _ <-|by apply Hfall]. }
  induction n as [|n IH]; intros s a s' E Hi; [done|]. cbn [settle_loop] in E. unfold mbind, Prog_bind in E.
  destruct (call (get_vblank_counter i) s) as [[c s1]|] eqn:E1; [|done]. apply Hcall in E1 as [A1 B1].
  destruct (drm_get_last_vbltimestamp i 0 s1) as [[[rc t] s2]|] eqn:E2; [|done].
  pose proof (Htime _ _ _ E2) as B2. apply gettime_frame in E2 as (A2 & _); [|by rewrite A1].
  destruct (call (get_vblank_counter i) s2) as [[c' s3]|] eqn:E3; [|done]. apply Hcall in E3 as [A3 B3].
  destruct (c =? c'); [injection E as _ <-; split; congruence|]. apply IH in E as [A4 B4]; [split; congruence|].
  by rewrite A3, A2, A1.
Qed.

(** the first user of a CRTC turns its interrupt on, and the count catches up with
    the hardware: it grows by the number of blanks there have been since the interrupt
    was turned off, as long as these are no more than the counter can count, less one
    when the counter has wrapped around in between (the code adds the largest value of
    the counter where the number of its values is meant). *)
Theorem vblank_get_catches_up s i r n0 n1 d1 : crtcs s !! i = Some r -> vblank_refcount r = 0 -> vblank_enabled r = false ->
  0 <= max_vblank_count s < 2 ^ 32 -> last_vblank r = n0 mod (max_vblank_count s + 1) -> 0 <= n1 - n0 <= max_vblank_count s ->
  enable_vblank i (driver s) = (0, d1) ->
  (forall s1, driver s1 = d1 -> exists rc t s2, settle_loop fuel i s1 = Some (n1 mod (max_vblank_count s + 1), rc, t, s2)) ->
  exists s' r', drm_vblank_get fuel i s = Some (0, s') /\ crtcs s' !! i = Some r' /\ vblank_refcount r' = 1 /\
    vblank_enabled r' = true /\ vblank_count r' = u32 (vblank_count r + (n1 - n0) -
      (if n1 mod (max_vblank_count s + 1) <? n0 mod (max_vblank_count s + 1) then 1 else 0)).
Proof.
  intros Hr Hrc Hen Hmax Hlast Hd Hon Hset.
  assert (wp (drm_vblank_get fuel i) (fun ret s' => ret = 0 /\ exists r', crtcs s' !! i = Some r' /\ vblank_refcount r' = 1 /\
    vblank_enabled r' = true /\ vblank_count r' = u32 (vblank_count r + missed (max_vblank_count s) (n1 mod (max_vblank_count s + 1)) (last_vblank r))) s) as Hw.
  2:{ apply wp_run in Hw as (ret & s' & E & -> & r' & Hr' & H1 & H2 & H3). exists s', r'. rewrite Hlast, missed_spec in H3 by lia.
      do 4 (split; [done|]). by rewrite H3, Z.add_sub_assoc. }
  unfold drm_vblank_get. apply wp_bind, (wp_get_crtc i _ s r Hr). rewrite Hrc, Hen. cbn [Z.add Z.eqb Pos.eqb negb].
  apply wp_bind, (wp_upd_crtc i _ _ s r Hr). apply wp_bind. unfold wp at 1, call. cbn [driver]. rewrite Hon. cbn [Z.eqb negb].
  apply wp_bind. eapply wp_upd_crtc; [cbn; by rewrite list_lookup_alter_eq, Hr|].
  apply wp_bind. unfold drm_update_vblank_count. apply wp_bind. set (s2 := mk_dev _ _ _ _ _ _ _ _).
  destruct (Hset s2 eq_refl) as (rc & t & s3 & E). unfold wp at 1. rewrite E.
  assert (crtcs s2 !! i = Some (with_enabled true (with_refcount 1 r))) as Hr2 by (cbn; by rewrite !list_lookup_alter_eq, Hr).
  apply settle_frame in E as [C3 M3]; [|by apply lookup_lt_Some in Hr2].
  assert (crtcs s3 !! i = Some (with_enabled true (with_refcount 1 r))) as Hr3 by by rewrite C3.
  apply wp_bind, (wp_get_crtc i _ s3 _ Hr3), wp_bind, wp_gets. rewrite M3. cbn [max_vblank_count s2].
  set (diff := missed _ _ _). apply wp_bind.
  eapply wp_mono with (Q := fun _ s4 => exists r4, crtcs s4 !! i = Some r4 /\ vblank_refcount r4 = 1 /\ vblank_enabled r4 = true /\ vblank_count r4 = vblank_count r).
  - destruct (rc =? 0); cbn [negb]; [apply wp_ret; by eexists|]. apply (wp_upd_crtc i _ _ s3 _ Hr3). cbn. rewrite list_lookup_alter_eq, Hr3. by eexists.
  - intros ? s4 (r4 & Hr4 & R4 & E4 & N4). apply (wp_upd_crtc i _ _ s4 r4 Hr4), wp_ret. split; [done|]. cbn. rewrite list_lookup_alter_eq, Hr4.
    eexists. split; [reflexivity|]. split; [done|]. split; [done|]. cbn. by rewrite N4.
Qed.
End Gap.

(** ** A device *)

(** The hardware is the number of the frame; its counter goes up to [2 ^ 24 - 1], and
    frames are 16 ms apart, or [gap] microseconds for [demo_driver gap]. *)
Definition demo_driver (gap tick : Z) : VblankDriver Z := {|
  get_vblank_counter _ n := (n mod 2 ^ 24, n);
  enable_vblank _ n := (0, n);
  disable_vblank _ n := n;
  get_vblank_timestamp := None;
  do_gettimeofday n := (mk_timeval (n * gap / 1000000) (n * gap mod 1000000), n);
  timeval_to_ns t := (tv_sec t * 1000000 + tv_usec t) / tick * tick * 1000;
  DRM_HZ := 100;
  irq_preinstall n := n;
  install_irq_handler n := (true, n);
  irq_postinstall n := (0, n);
  irq_uninstall n := n |}.

Lemma demo_settles gap tick : counter_settles (D:=Z) (H:=demo_driver gap tick) 1.
Proof.
  intros i s. unfold settle_loop, drm_get_last_vbltimestamp, mbind, Prog_bind, call, mret, Prog_ret.
  cbn [demo_driver get_vblank_counter get_vblank_timestamp do_gettimeofday driver]. rewrite Z.eqb_refl. by eexists.
Qed.

Definition demo_off (n0 max : Z) : vblank_device Z :=
  mk_dev [mk_crtc 100 (mk_timeval 0 0, mk_timeval 0 0) 0 (n0 mod 2 ^ 24) false 0 0] [] ∅ true true max None (n0 + 10).

(** Ten frames, of which one is lost when the counter wraps. *)
Lemma vblank_get_catches_up_witness :
  (exists s' r', drm_vblank_get (H:=demo_driver 16000 1) 1 0 (demo_off 5 (2 ^ 24 - 1)) = Some (0, s') /\
    crtcs s' !! 0%nat = Some r' /\ vblank_count r' = 110) /\
  (exists s' r', drm_vblank_get (H:=demo_driver 16000 1) 1 0 (demo_off (2 ^ 24 - 5) (2 ^ 24 - 1)) = Some (0, s') /\
    crtcs s' !! 0%nat = Some r' /\ vblank_count r' = 109).
Proof.
  split.
  - destruct (vblank_get_catches_up (H:=demo_driver 16000 1) 1 (demo_off 5 (2 ^ 24 - 1)) 0 _ 5 15 15 eq_refl eq_refl eq_refl)
      as (s' & r' & E & Hr & _ & _ & Hc); [vm_compute; split; discriminate || reflexivity|reflexivity|vm_compute; split; discriminate|reflexivity| |].
    + intros s1 Hd. unfold settle_loop, drm_get_last_vbltimestamp, mbind, Prog_bind, call, mret, Prog_ret.
      cbn [demo_driver get_vblank_counter get_vblank_timestamp do_gettimeofday driver]. rewrite Z.eqb_refl, Hd. by eexists _, _, _.
    + exists s', r'. split; [exact E|]. split; [exact Hr|]. rewrite Hc. reflexivity.
  - destruct (vblank_get_catches_up (H:=demo_driver 16000 1) 1 (demo_off (2 ^ 24 - 5) (2 ^ 24 - 1)) 0 _ (2 ^ 24 - 5) (2 ^ 24 + 5) (2 ^ 24 + 5) eq_refl eq_refl eq_refl)
      as (s' & r' & E & Hr & _ & _ & Hc); [vm_compute; split; discriminate || reflexivity|reflexivity|vm_compute; split; discriminate|reflexivity| |].
    + intros s1 Hd. unfold settle_loop, drm_get_last_vbltimestamp, mbind, Prog_bind, call, mret, Prog_ret.
      cbn [demo_driver get_vblank_counter get_vblank_timestamp do_gettimeofday driver]. rewrite Z.eqb_refl, Hd. by eexists _, _, _.
    + exists s', r'. split; [exact E|]. split; [exact Hr|]. rewrite Hc. reflexivity.
Defined.

(** A client opens a file and asks for an event at the next blank. *)
Section Demo.
#[local] Instance demo : VblankDriver Z := demo_driver 16000 1.

Definition after (op : vop) (st : vstate (D:=Z)) : vstate (D:=Z) :=
  match vrun 1 op st.1.1 st.1.2 st.2 with Some (h, fl, s) => (h, fl, s) | None => st end.

Lemma after_step op (st : vstate (D:=Z)) : vallowed op st.1.1 st.1.2 st.2 -> is_Some (vrun 1 op st.1.1 st.1.2 st.2) -> vstep 1 st (after op st).
Proof. destruct st as [[h fl] s]. intros Ha [[[h' fl'] s'] E]. cbn in Ha, E. unfold after. cbn. rewrite E. by apply (do_vop 1 op). Qed.

Definition demo_start : vstate (D:=Z) :=
  (fun _ => 0, [], mk_dev [mk_crtc 0 (mk_timeval 0 0, mk_timeval 0 0) 0 0 false 0 0] [] ∅ false true (2 ^ 24 - 1) None 10).

Definition demo_request : wait_vblank := mk_wait (Z.lor _DRM_VBLANK_RELATIVE _DRM_VBLANK_EVENT) 1 77 0.

Definition demo_waiting : vstate (D:=Z) := after (OpWait 11 demo_request) (after (OpOpen 7) demo_start).

(** The count is 10 when the interrupt comes on, so the event is for 11. *)
Definition demo_pending : vstate (D:=Z) := after (OpQueue 0 (mk_wait _DRM_VBLANK_EVENT 11 77 0) 7 true) demo_waiting.

Lemma demo_reachable : vreachable 1 demo_pending.
Proof.
  exists demo_start. split.
  - split; [reflexivity|]. split; [reflexivity|].
    exists 1%nat, (mk_dev [] [] ∅ false true (2 ^ 24 - 1) None 10). done.
  - eapply rtc_l; [apply (after_step (OpOpen 7)); [reflexivity|vm_compute; by eexists]|].
    eapply rtc_l; [apply (after_step (OpWait 11 demo_request)); [exact I|vm_compute; by eexists]|].
    eapply rtc_l; [apply (after_step (OpQueue 0 (mk_wait _DRM_VBLANK_EVENT 11 77 0) 7 true))|apply rtc_refl].
    + split; [vm_compute; reflexivity|vm_compute; by eexists].
    + vm_compute. by eexists.
Qed.

Lemma reachable_parts (st : vstate (D:=Z)) : vreachable 1 st -> vreachable 1 (st.1.1, st.1.2, st.2).
Proof. by destruct st as [[h fl] s]. Qed.

Definition demo_dev : vblank_device Z := demo_pending.2.

Definition demo_crtc : vblank_crtc := mk_crtc 10 (mk_timeval 0 0, mk_timeval 0 0) 1 0 true 0 0.

Lemma vblank_reachable_safe_witness :
  (exists r, crtcs demo_dev !! 0%nat = Some r /\ vblank_refcount r = 1) /\
  (exists p, files demo_dev !! 7%nat = Some p /\ event_space p = 4064) /\
  is_Some (vrun 1 (OpClose 7) demo_pending.1.1 demo_pending.1.2 demo_dev).
Proof.
  destruct (vblank_reachable_safe 1 demo_pending.1.1 demo_pending.1.2 demo_dev (demo_settles 16000 1) (reachable_parts _ demo_reachable))
    as (Hrefs & _ & Hspace & Hops).
  split; [|split].
  - eexists. split; [vm_compute; reflexivity|]. rewrite (Hrefs 0%nat _ ltac:(vm_compute; reflexivity)). vm_compute. reflexivity.
  - eexists. split; [vm_compute; reflexivity|]. edestruct (Hspace 7%nat) as [_ Hs]; [vm_compute; reflexivity|].
    vm_compute in Hs |- *. reflexivity.
  - apply (Hops (OpClose 7)). intros e He. vm_compute in He. by apply elem_of_nil in He.
Defined.

Lemma handle_vblank_delivers_witness : exists s', drm_handle_vblank 0 demo_dev = Some (true, s') /\ vblank_event_list s' = [] /\
  files s' !! 7%nat = Some (mk_file 4064 [mk_event 0 7 DRM_EVENT_VBLANK 77 11 0 160000]).
Proof.
  destruct (vreachable_inv 1 demo_pending.1.1 demo_pending.1.2 demo_dev (demo_settles 16000 1) (reachable_parts _ demo_reachable)) as [Hinv Hh].
  destruct (handle_vblank_delivers demo_pending.1.1 demo_pending.1.2 demo_dev 0 demo_crtc 0 (mk_timeval 0 160000) demo_dev Hinv Hh)
    as (s' & r' & E & _ & _ & _ & Hl & Hf); [vm_compute; reflexivity|reflexivity|vm_compute; reflexivity|].
  exists s'. split; [exact E|]. split; [rewrite Hl; vm_compute; reflexivity|]. rewrite (Hf 7%nat). vm_compute. reflexivity.
Defined.

(** ** What goes wrong *)

(** A flip is under way when its file is closed: its event is sent to a file that has
    been freed. *)
Example flip_after_close :
  let st := after (OpClose 7) (after (OpFlip 0 7 77 true true false 0) (after (OpOpen 7) demo_start)) in
  exists e, st.1.2 = [e] /\ do_intel_finish_page_flip 0 (Some e) st.2 = None.
Proof. eexists. split; vm_compute; reflexivity. Qed.

(** A wait that a signal interrupts returns a positive error, which is not the one that
    is tested for, and gives the count as if it had been reached. *)
Example interrupted_wait_looks_done :
  let st := after (OpOpen 7) demo_start in
  let signal : V Z Z := mret 0 in
  option_map (fun r => (r.1.1, w_sequence r.1.2)) (drm_wait_vblank 1 11 (mk_wait _DRM_VBLANK_RELATIVE 5 0 0) 7 true [signal] st.2) =
    Some (EINTR, 10).
Proof. vm_compute. reflexivity. Qed.
End Demo.

(** With a clock tick of 10 ms, of two interrupts 8 ms apart in the same tick the second
    is taken for redundant. *)
Example second_blank_in_tick_lost :
  let H := demo_driver 8000 10000 in
  let dev (n : Z) := mk_dev [mk_crtc 7 (mk_timeval 0 0, mk_timeval 0 80000) 1 0 true 0 0] [] ∅ true true (2 ^ 24 - 1) None n in
  option_map (fun r => vblank_count <$> (crtcs r.2 !! 0%nat)) (drm_handle_vblank (H:=H) 0 (dev 11)) = Some (Some 7).
Proof. vm_compute. reflexivity. Qed.
