(* ===== verification/Tiling.v ===== *)
(** * Tiling of buffer objects: sizes, pitches, fence registers, bit 6 swizzling
    (i915_gem_tiling.c, i915_gem.c, i915_drv.h, i915_reg.h)

    What a tiled object needs of its place in the aperture on each generation of the
    chip, how the place, pitch and tiling are put into a fence register, and the swapping
    of 64-byte halves that compensates for the memory controller's use of address bit 17.
    The state the registers live in is in Fence.v. *)

From S2P Require Import Prelude.

Open Scope Z_scope.

(** What the code asks of [INTEL_INFO(dev)] and of the PCI identifier. *)
Record chip := mk_chip {
  gen : Z; is_g33 : bool; is_i915g : bool; is_i915gm : bool; is_mobile : bool;
  is_valleyview : bool; has_llc : bool }.

Definition I915_TILING_NONE : Z := 0.
Definition I915_TILING_X : Z := 1.
Definition I915_TILING_Y : Z := 2.

Definition I915_BIT_6_SWIZZLE_NONE : Z := 0.
Definition I915_BIT_6_SWIZZLE_9 : Z := 1.
Definition I915_BIT_6_SWIZZLE_9_10 : Z := 2.
Definition I915_BIT_6_SWIZZLE_9_11 : Z := 3.
Definition I915_BIT_6_SWIZZLE_9_10_11 : Z := 4.
Definition I915_BIT_6_SWIZZLE_UNKNOWN : Z := 5.
Definition I915_BIT_6_SWIZZLE_9_17 : Z := 6.
Definition I915_BIT_6_SWIZZLE_9_10_17 : Z := 7.

Definition HAS_128_BYTE_Y_TILING (c : chip) : bool :=
  negb (gen c =? 2) && negb (is_i915g c || is_i915gm c).

(** ** Size and alignment *)

(** [while (gtt_size < size) gtt_size <<= 1] on 32 bits; [None] when the fuel runs out. *)
Fixpoint grow_gtt_size (fuel : nat) (gtt_size size : Z) : option Z :=
  if gtt_size <? size
  then match fuel with
       | O => None
       | S fuel => grow_gtt_size fuel (u32 (Z.shiftl gtt_size 1)) size
       end
  else Some gtt_size.

(** Twelve doublings take 512K to 2^31, and the next one to 0. *)
Definition i915_gem_get_gtt_size (c : chip) (size tiling_mode : Z) : option Z :=
  if (4 <=? gen c) || (tiling_mode =? I915_TILING_NONE) then Some size
  else grow_gtt_size 12 (if gen c =? 3 then 1024 * 1024 else 512 * 1024) size.

Definition i915_gem_get_gtt_alignment (c : chip) (size tiling_mode : Z) (fenced : bool) : option Z :=
  if (4 <=? gen c) || (negb fenced && is_g33 c) || (tiling_mode =? I915_TILING_NONE) then Some 4096
  else i915_gem_get_gtt_size c size tiling_mode.

(** ** Pitch and place *)

Definition GEN7_FENCE_MAX_PITCH_VAL : Z := 0x0800.
Definition I965_FENCE_MAX_PITCH_VAL : Z := 0x0400.
Definition I830_FENCE_MAX_SIZE_VAL : Z := Z.shiftl 1 8.
Definition I830_FENCE_START_MASK : Z := 0x07f80000.
Definition I915_FENCE_START_MASK : Z := 0x0ff00000.

(** [stride] and [size] are [int] parameters: the callers' [u32] stride and [size_t] size
    are cut to 32 bits.  C's division rounds towards zero. *)
Definition i915_tiling_ok (c : chip) (stride size tiling_mode : Z) : bool :=
  let stride := s32 stride in
  let size := s32 size in
  if tiling_mode =? I915_TILING_NONE then true else
  let tile_width :=
    if (gen c =? 2) || ((tiling_mode =? I915_TILING_Y) && HAS_128_BYTE_Y_TILING c) then 128 else 512 in
  if (if 7 <=? gen c then GEN7_FENCE_MAX_PITCH_VAL <? Z.quot stride 128
      else if 4 <=? gen c then I965_FENCE_MAX_PITCH_VAL <? Z.quot stride 128
      else (8192 <? stride) ||
           (if gen c =? 3 then Z.shiftl I830_FENCE_MAX_SIZE_VAL 20 <? size
            else Z.shiftl I830_FENCE_MAX_SIZE_VAL 19 <? size)) then false
  else if stride <? tile_width then false
  else if 4 <=? gen c then Z.land stride (tile_width - 1) =? 0
  else Z.land stride (stride - 1) =? 0.

(** The object is at [gtt_offset] in a node of [space_size] bytes; [base_size] is its own size. *)
Definition i915_gem_object_fence_ok (c : chip) (gtt_offset space_size base_size tiling_mode : Z) : option bool :=
  if tiling_mode =? I915_TILING_NONE then Some true
  else if 4 <=? gen c then Some true
  else if negb (Z.land gtt_offset (Z.lnot (if gen c =? 3 then I915_FENCE_START_MASK else I830_FENCE_START_MASK)) =? 0)
  then Some false
  else size ← i915_gem_get_gtt_size c (u32 base_size) tiling_mode;
       Some (if negb (space_size =? size) then false
             else Z.land gtt_offset (u32 (size - 1)) =? 0).

(** ** Fence registers *)

Definition FENCE_REG_830_0 : Z := 0x2000.
Definition FENCE_REG_945_8 : Z := 0x3000.
Definition I830_FENCE_TILING_Y_SHIFT : Z := 12.
Definition I830_FENCE_PITCH_SHIFT : Z := 4.
Definition I830_FENCE_REG_VALID : Z := Z.shiftl 1 0.
Definition FENCE_REG_965_0 : Z := 0x03000.
Definition I965_FENCE_PITCH_SHIFT : Z := 2.
Definition I965_FENCE_TILING_Y_SHIFT : Z := 1.
Definition I965_FENCE_REG_VALID : Z := Z.shiftl 1 0.
Definition FENCE_REG_SANDYBRIDGE_0 : Z := 0x100000.
Definition SANDYBRIDGE_FENCE_PITCH_SHIFT : Z := 32.

(** C's [ffs]: one more than the index of the lowest bit set, 0 for 0. *)
Definition ffs (z : Z) : Z := if z =? 0 then 0 else Z.log2 (Z.land z (- z)) + 1.

Definition I830_FENCE_SIZE_BITS (size : Z) : Z := Z.shiftl (ffs (Z.shiftr size 19) - 1) 8.
Definition I915_FENCE_SIZE_BITS (size : Z) : Z := Z.shiftl (ffs (Z.shiftr size 20) - 1) 8.

(** What of an object goes into a fence register: its place in the aperture, the size of
    its node, its stride and its tiling mode. *)
Record fenced := mk_fenced { f_offset : Z; f_size : Z; f_stride : Z; f_tiling : Z }.

(** The registers are written with [I915_WRITE], 32 bits at a time: an address and a value. *)
Definition i965_fence_val (c : chip) (o : fenced) : Z :=
  let fence_pitch_shift := if 6 <=? gen c then SANDYBRIDGE_FENCE_PITCH_SHIFT else I965_FENCE_PITCH_SHIFT in
  let val := Z.shiftl (Z.land (u32 (f_offset o + f_size o - 4096)) 0xfffff000) 32 in
  let val := Z.lor val (Z.land (f_offset o) 0xfffff000) in
  let val := Z.lor val (Z.shiftl (u32 (f_stride o / 128 - 1)) fence_pitch_shift) in
  let val := if f_tiling o =? I915_TILING_Y then Z.lor val (Z.shiftl 1 I965_FENCE_TILING_Y_SHIFT) else val in
  Z.lor val I965_FENCE_REG_VALID.

Definition i965_fence_reg (c : chip) (reg : Z) : Z :=
  (if 6 <=? gen c then FENCE_REG_SANDYBRIDGE_0 else FENCE_REG_965_0) + reg * 8.

Definition i965_write_fence_reg (c : chip) (reg : Z) (obj : option fenced) : list (Z * Z) :=
  let fence_reg := i965_fence_reg c reg in
  (fence_reg, 0) ::
  match obj with
  | Some o => let val := i965_fence_val c o in
      [(fence_reg + 4, u32 (Z.shiftr val 32)); (fence_reg, u32 val)]
  | None => [(fence_reg + 4, 0)]
  end.

Definition i915_fence_val (c : chip) (o : fenced) : Z :=
  let tile_width := if (f_tiling o =? I915_TILING_Y) && HAS_128_BYTE_Y_TILING c then 128 else 512 in
  let pitch_val := ffs (f_stride o / tile_width) - 1 in
  let val := f_offset o in
  let val := if f_tiling o =? I915_TILING_Y then Z.lor val (Z.shiftl 1 I830_FENCE_TILING_Y_SHIFT) else val in
  let val := Z.lor val (u32 (I915_FENCE_SIZE_BITS (f_size o))) in
  let val := Z.lor val (u32 (Z.shiftl pitch_val I830_FENCE_PITCH_SHIFT)) in
  Z.lor val I830_FENCE_REG_VALID.

Definition i915_fence_reg (reg : Z) : Z :=
  if reg <? 8 then FENCE_REG_830_0 + reg * 4 else FENCE_REG_945_8 + (reg - 8) * 4.

Definition i915_write_fence_reg (c : chip) (reg : Z) (obj : option fenced) : list (Z * Z) :=
  [(i915_fence_reg reg, match obj with Some o => i915_fence_val c o | None => 0 end)].

Definition i830_fence_val (o : fenced) : Z :=
  let pitch_val := u32 (ffs (f_stride o / 128) - 1) in
  let val := f_offset o in
  let val := if f_tiling o =? I915_TILING_Y then Z.lor val (Z.shiftl 1 I830_FENCE_TILING_Y_SHIFT) else val in
  let val := Z.lor val (u32 (I830_FENCE_SIZE_BITS (f_size o))) in
  let val := Z.lor val (u32 (Z.shiftl pitch_val I830_FENCE_PITCH_SHIFT)) in
  Z.lor val I830_FENCE_REG_VALID.

Definition i830_write_fence_reg (reg : Z) (obj : option fenced) : list (Z * Z) :=
  [(FENCE_REG_830_0 + reg * 4, match obj with Some o => i830_fence_val o | None => 0 end)].

(** [i915_gem_write_fence] by generation; [BUG()] on one it does not know. *)
Definition fence_writes (c : chip) (reg : Z) (obj : option fenced) : option (list (Z * Z)) :=
  if (4 <=? gen c) && (gen c <=? 7) then Some (i965_write_fence_reg c reg obj)
  else if gen c =? 3 then Some (i915_write_fence_reg c reg obj)
  else if gen c =? 2 then Some (i830_write_fence_reg reg obj)
  else None.

(** The registers after some writes. *)
Definition apply_writes (ws : list (Z * Z)) (mmio : gmap Z Z) : gmap Z Z :=
  foldl (fun m '(reg, val) => <[reg := val]> m) mmio ws.

(** ** Detection of the swizzling *)

Definition MAD_DIMM_A_SIZE_MASK : Z := Z.shiftl 0xff 0.
Definition MAD_DIMM_B_SIZE_MASK : Z := Z.shiftl 0xff 8.
Definition DCC_ADDRESSING_MODE_MASK : Z := 3.
Definition DCC_ADDRESSING_MODE_DUAL_CHANNEL_INTERLEAVED : Z := 2.
Definition DCC_CHANNEL_XOR_DISABLE : Z := Z.shiftl 1 10.
Definition DCC_CHANNEL_XOR_BIT_17 : Z := Z.shiftl 1 9.

(** The registers the detection reads. *)
Record dram_regs := mk_dram { MAD_DIMM_C0 : Z; MAD_DIMM_C1 : Z; DCC : Z; C0DRB3 : Z; C1DRB3 : Z }.

(** The switch over the addressing modes; the fourth value has no case. *)
Definition dcc_swizzle (dcc : Z) : Z * Z :=
  let unknown := (I915_BIT_6_SWIZZLE_UNKNOWN, I915_BIT_6_SWIZZLE_UNKNOWN) in
  if dcc =? 0xffffffff then unknown else
  let mode := Z.land dcc DCC_ADDRESSING_MODE_MASK in
  if (mode =? 0) || (mode =? 1) then (I915_BIT_6_SWIZZLE_NONE, I915_BIT_6_SWIZZLE_NONE)
  else if mode =? DCC_ADDRESSING_MODE_DUAL_CHANNEL_INTERLEAVED then
    if negb (Z.land dcc DCC_CHANNEL_XOR_DISABLE =? 0) then (I915_BIT_6_SWIZZLE_9_10, I915_BIT_6_SWIZZLE_9)
    else if Z.land dcc DCC_CHANNEL_XOR_BIT_17 =? 0 then (I915_BIT_6_SWIZZLE_9_10_11, I915_BIT_6_SWIZZLE_9_11)
    else (I915_BIT_6_SWIZZLE_9_10_17, I915_BIT_6_SWIZZLE_9_17)
  else unknown.

Definition i915_gem_detect_bit_6_swizzle (c : chip) (r : dram_regs) : Z * Z :=
  let none := (I915_BIT_6_SWIZZLE_NONE, I915_BIT_6_SWIZZLE_NONE) in
  let some := (I915_BIT_6_SWIZZLE_9_10, I915_BIT_6_SWIZZLE_9) in
  if is_valleyview c then none
  else if 6 <=? gen c then
    let mask := Z.lor MAD_DIMM_A_SIZE_MASK MAD_DIMM_B_SIZE_MASK in
    if Z.land (MAD_DIMM_C0 r) mask =? Z.land (MAD_DIMM_C1 r) mask then some else none
  else if gen c =? 5 then some
  else if gen c =? 2 then none
  else if is_mobile c || ((gen c =? 3) && negb (is_g33 c)) then dcc_swizzle (DCC r)
  else if C0DRB3 r =? C1DRB3 r then some else none.

(** ** Swapping pages *)

Definition PAGE_SIZE : nat := 4096.

(** [memcpy (&dst[off], src, 64)] on the bytes of a page. *)
Definition put_bytes {A} (off : nat) (src page : list A) : list A :=
  take off page ++ src ++ drop (off + length src) page.

(** One round of the loop: the two halves of the 128 bytes at [i] change places. *)
Definition swap_halves {A} (i : nat) (va : list A) : list A :=
  let temp := take 64 (drop i va) in
  let va := put_bytes i (take 64 (drop (i + 64) va)) va in
  put_bytes (i + 64) temp va.

Definition i915_gem_swizzle_page {A} (va : list A) : list A :=
  foldl (fun va k => swap_halves (128 * k) va) va (seq 0 (PAGE_SIZE / 128)).

(** A page of an object: the physical address it is at, and its bytes as the CPU sees them. *)
Record page (A : Type) := mk_page { phys : Z; bytes : list A }.
Arguments mk_page {_}. Arguments phys {_}. Arguments bytes {_}.

(** [page_to_phys(page) & (1 << 17)] of every page, as the bits of [bit_17]; the result is
    [None] when there is no record and the allocation of one fails. *)
Definition i915_gem_object_save_bit_17_swizzle {A} (page_list : list (page A)) (bit_17 : option (list bool))
    (kmalloc_ok : bool) : option (list bool) :=
  match bit_17 with
  | None => if kmalloc_ok then Some (map (fun p => Z.testbit (phys p) 17) page_list) else None
  | Some _ => Some (map (fun p => Z.testbit (phys p) 17) page_list)
  end.

(** [(char)(page_to_phys(page) >> 17) & 1] against the bit recorded. *)
Definition i915_gem_object_do_bit_17_swizzle {A} (page_list : list (page A)) (bit_17 : option (list bool))
    : list (page A) :=
  match bit_17 with
  | None => page_list
  | Some bits => zip_with (fun p old =>
      let new_bit_17 := Z.land (Z.shiftr (phys p) 17) 0x1 in
      if Bool.eqb (new_bit_17 =? 1) old then p else mk_page (phys p) (i915_gem_swizzle_page (bytes p)))
      page_list bits
  end.

Definition i915_gem_object_needs_bit17_swizzle (bit_6_swizzle_x tiling_mode : Z) : bool :=
  (bit_6_swizzle_x =? I915_BIT_6_SWIZZLE_9_10_17) && negb (tiling_mode =? I915_TILING_NONE).
