(* ===== verification/TilingFacts.v ===== *)
(** * Tiling of buffer objects: properties

    Fence sizes are the least powers of two that hold the object; what is written to a
    fence register decodes to the object's place, pitch and tiling; a register is never
    valid while it is being rewritten; swapping a page compensates exactly for a change
    of its address bit 17. *)

From S2P Require Import Prelude Tiling.

Open Scope Z_scope.

(** ** Powers of two *)

Lemma grow_pow2 size k fuel : 0 <= k -> (Z.to_nat (31 - k) <= fuel)%nat -> k <= 31 -> size <= 2 ^ 31 ->
  exists j, grow_gtt_size fuel (2 ^ k) size = Some (2 ^ j) /\ k <= j <= 31 /\ size <= 2 ^ j /\
    (j = k \/ 2 ^ (j - 1) < size).
Proof.
  revert k. induction fuel as [|fuel IH]; intros k Hk Hf Hk31 Hs; simpl; destruct (Z.ltb_spec (2 ^ k) size) as [Hlt|Hge].
  - assert (k = 31) as -> by lia. lia.
  - exists k. split; [done|]. lia.
  - assert (k < 31) by (destruct (decide (k = 31)) as [->|]; lia).
    assert (u32 (Z.shiftl (2 ^ k) 1) = 2 ^ (k + 1)) as ->.
    { rewrite Z.shiftl_mul_pow2, <-Z.pow_add_r by lia. apply u32_small. split; [lia|]. apply Z.pow_lt_mono_r; lia. }
    destruct (IH (k + 1)) as (j & -> & Hj & Hsj & Hmin); [lia..|].
    exists j. split; [done|]. split; [lia|]. split; [done|]. right.
    destruct Hmin as [->|]; [|done]. by replace (k + 1 - 1) with k by lia.
  - exists k. split; [done|]. lia.
Qed.

Lemma s32_pos z : 0 <= z < 2 ^ 32 -> 0 < s32 z -> s32 z = z.
Proof.
  intros Hz Hs. destruct (Z.lt_ge_cases z (2 ^ 31)); [apply s32_small; lia|].
  unfold s32 in Hs. replace (z + 2 ^ 31) with (z - 2 ^ 31 + 1 * 2 ^ 32) in Hs by lia.
  rewrite Z.mod_add, Z.mod_small in Hs by lia. lia.
Qed.

Lemma pow2_of_land x : 0 < x -> Z.land x (x - 1) = 0 -> x = 2 ^ Z.log2 x.
Proof.
  intros Hx Hl. destruct (Z.log2_spec x Hx) as [H1 H2]. pose proof (Z.pow_pos_nonneg 2 (Z.log2 x) ltac:(lia) (Z.log2_nonneg x)).
  destruct (decide (x = 2 ^ Z.log2 x)) as [|Hne]; [done|exfalso].
  assert (Z.testbit (Z.land x (x - 1)) (Z.log2 x) = true) as Hb; [|by rewrite Hl, Z.bits_0 in Hb].
  rewrite Z.land_spec, Z.bit_log2 by done.
  replace (Z.log2 x) with (Z.log2 (x - 1)); [rewrite Z.bit_log2; [done|lia]|].
  apply Z.log2_unique; [apply Z.log2_nonneg|lia].
Qed.

Lemma land_pow2_pred x k : 0 <= k -> Z.land x (2 ^ k - 1) = x mod 2 ^ k.
Proof. intros. by rewrite <-Z.land_ones, Z.ones_equiv, <-Z.sub_1_r by done. Qed.

Lemma ffs_pow2 k : 0 <= k -> ffs (2 ^ k) = k + 1.
Proof.
  intros Hk. unfold ffs. assert (0 < 2 ^ k) by (apply Z.pow_pos_nonneg; lia). destruct (Z.eqb_spec (2 ^ k) 0) as [|_]; [lia|].
  assert (Z.land (2 ^ k) (- 2 ^ k) = 2 ^ k) as ->; [|by rewrite Z.log2_pow2].
  replace (- 2 ^ k) with (Z.lnot (Z.ones k)) by (rewrite Z.ones_equiv; unfold Z.lnot; lia).
  rewrite <-Z.ldiff_land, Z.ldiff_ones_r, Z.shiftr_div_pow2, Z.div_same, Z.shiftl_1_l by lia. done.
Qed.

(** Two fields that do not overlap add. *)
Lemma lor_low n a b : 0 <= n -> (2 ^ n | a) -> 0 <= b < 2 ^ n -> Z.lor a b = a + b.
Proof.
  intros Hn [q ->] Hb. rewrite <-Z.lxor_lor, Z.add_nocarry_lxor; [done|..];
    (apply Z.bits_inj'; intros i Hi; rewrite Z.land_spec, Z.bits_0; destruct (Z.ltb_spec i n);
     [rewrite Z.mul_pow2_bits_low by lia; done|]);
    rewrite <-(Z.mod_small b (2 ^ n)), Z.mod_pow2_bits_high by lia; apply andb_false_r.
Qed.

(** ** Sizes *)

(** on the chips that need it, the aperture a tiled object of at most 2 GB takes is
    the least power of two, not below the chip's smallest fence, that holds the object;
    the loop that computes it ends.  For a larger object there is no such 32 bit
    number, and the loop does not end. *)
Theorem gtt_size_least_power c size tiling : gen c < 4 -> tiling <> I915_TILING_NONE -> 0 <= size ->
  let k := (if gen c =? 3 then 20 else 19) in
  (size <= 2 ^ 31 -> exists j, i915_gem_get_gtt_size c size tiling = Some (2 ^ j) /\ k <= j <= 31 /\ size <= 2 ^ j /\
     forall j', k <= j' -> size <= 2 ^ j' -> j <= j') /\
  (2 ^ 31 < size -> forall fuel, grow_gtt_size fuel (2 ^ k) size = None).
Proof.
  intros Hg Ht Hs k. assert (k = 19 \/ k = 20) as Hk by (unfold k; destruct (gen c =? 3); lia). split.
  - intros Hsz. unfold i915_gem_get_gtt_size.
    rewrite (proj2 (Z.leb_gt 4 (gen c))), (proj2 (Z.eqb_neq _ _) Ht) by done. cbn [orb].
    replace (if gen c =? 3 then 1024 * 1024 else 512 * 1024) with (2 ^ k) by (unfold k; by destruct (gen c =? 3)).
    destruct (grow_pow2 size k 12) as (j & -> & Hj & Hsj & Hmin); [lia..|].
    exists j. split_and!; try done; try lia. intros j' Hj' Hs'. destruct Hmin as [->|Hmin]; [done|].
    destruct (Z.le_gt_cases j j') as [|Hlt]; [done|]. pose proof (Z.pow_le_mono_r 2 j' (j - 1)). lia.
  - intros Hsz fuel. assert (forall fuel i, (0 <= i <= 31 \/ i = -1) ->
        grow_gtt_size fuel (if i =? -1 then 0 else 2 ^ i) size = None) as Hgrow.
    { clear fuel. induction fuel as [|fuel IH]; intros i Hi; simpl.
      - destruct (Z.ltb_spec (if i =? -1 then 0 else 2 ^ i) size) as [|Hge]; [done|].
        destruct (Z.eqb_spec i (-1)); [lia|]. pose proof (Z.pow_le_mono_r 2 i 31). lia.
      - destruct (Z.ltb_spec (if i =? -1 then 0 else 2 ^ i) size) as [|Hge].
        2: { destruct (Z.eqb_spec i (-1)); [lia|]. pose proof (Z.pow_le_mono_r 2 i 31). lia. }
        destruct (Z.eqb_spec i (-1)) as [->|Hne]; [apply (IH (-1)); lia|].
        destruct (decide (i = 31)) as [->|Hne']; [apply (IH (-1)); lia|].
        assert (u32 (Z.shiftl (2 ^ i) 1) = 2 ^ (i + 1)) as ->.
        { rewrite Z.shiftl_mul_pow2, <-Z.pow_add_r by lia. apply u32_small. split; [lia|]. apply Z.pow_lt_mono_r; lia. }
        specialize (IH (i + 1)). destruct (Z.eqb_spec (i + 1) (-1)); [lia|]. apply IH. lia. }
    specialize (Hgrow fuel k). destruct (Z.eqb_spec k (-1)); [lia|]. apply Hgrow. lia.
Qed.

(** ** What a fence register says *)

(** The region a register covers: its bounds, the pitch of the surface, the tiling. *)
Record region := mk_region { r_start : Z; r_end : Z; r_stride : Z; r_y : bool }.

(** The bits from [lo] on, [w] of them. *)
Definition field (lo w v : Z) : Z := (v / 2 ^ lo) mod 2 ^ w.

(** The layout of the registers: a 32 bit register with the start, a size class and the
    pitch as powers of two before the 965, a 64 bit one with the last page and the pitch
    in units of 128 bytes from the 965 on. *)
Definition decode_fence (c : chip) (v : Z) : option region :=
  if negb (Z.odd v) then None else Some
  (if 6 <=? gen c then mk_region (field 12 20 v * 4096) (field 44 20 v * 4096 + 4096) ((field 32 12 v + 1) * 128) (Z.testbit v 1)
   else if 4 <=? gen c then mk_region (field 12 20 v * 4096) (field 44 20 v * 4096 + 4096) ((field 2 10 v + 1) * 128) (Z.testbit v 1)
   else if gen c =? 3 then
     let tile := if Z.testbit v 12 && HAS_128_BYTE_Y_TILING c then 128 else 512 in
     mk_region (field 20 8 v * 2 ^ 20) (field 20 8 v * 2 ^ 20 + 2 ^ (20 + field 8 4 v)) (tile * 2 ^ field 4 4 v) (Z.testbit v 12)
   else mk_region (field 19 8 v * 2 ^ 19) (field 19 8 v * 2 ^ 19 + 2 ^ (19 + field 8 4 v)) (128 * 2 ^ field 4 4 v) (Z.testbit v 12)).

(** What the register [reg] holds. *)
Definition fence_hw (c : chip) (reg : Z) (mmio : gmap Z Z) : Z :=
  if 4 <=? gen c then default 0 (mmio !! i965_fence_reg c reg) + 2 ^ 32 * default 0 (mmio !! (i965_fence_reg c reg + 4))
  else default 0 (mmio !! (if gen c =? 3 then i915_fence_reg reg else FENCE_REG_830_0 + reg * 4)).

(** An object the driver can fence: tiled, its pitch accepted, and its place
    accepted by [i915_gem_object_fence_ok] or, on the 965 and later, made of pages. *)
Record fenceable (c : chip) (o : fenced) (base_size : Z) : Prop := {
  fe_gen : 2 <= gen c <= 7;
  fe_tiling : f_tiling o <> I915_TILING_NONE;
  fe_stride : 0 <= f_stride o < 2 ^ 32;
  fe_place : 0 <= f_offset o /\ f_offset o + f_size o <= 2 ^ 32 /\ 0 < f_size o;
  fe_base : gen c < 4 -> 0 <= base_size < 2 ^ 31;
  fe_pages : (4096 | f_offset o) /\ (4096 | f_size o);
  fe_tiling_ok : i915_tiling_ok c (f_stride o) base_size (f_tiling o) = true;
  fe_fence_ok : i915_gem_object_fence_ok c (f_offset o) (f_size o) base_size (f_tiling o) = Some true }.

Definition region_of (o : fenced) : region :=
  mk_region (f_offset o) (f_offset o + f_size o) (f_stride o) (f_tiling o =? I915_TILING_Y).

Lemma land_mask x lo w m : 0 <= lo -> 0 <= w -> m = Z.shiftl (Z.ones w) lo -> Z.land x m = field lo w x * 2 ^ lo.
Proof.
  intros Hlo Hw ->. unfold field. rewrite <-Z.shiftr_div_pow2, <-Z.land_ones, <-Z.shiftl_mul_pow2 by done.
  rewrite Z.shiftl_land. apply Z.bits_inj'. intros i Hi. rewrite !Z.land_spec, !Z.shiftl_spec by done.
  destruct (Z.ltb_spec i lo) as [Hlt|Hge]; [|rewrite Z.shiftr_spec by lia; f_equal; f_equal; lia].
  rewrite (Z.testbit_neg_r (Z.ones w)) by lia. by rewrite !andb_false_r.
Qed.

Lemma land_outside x m : Z.land x (Z.lnot m) = 0 -> Z.land x m = x.
Proof.
  intros Hx. assert (x = Z.lor (Z.land x m) (Z.land x (Z.lnot m))) as E.
  { rewrite <-Z.land_lor_distr_r, Z.lor_lnot_diag. by rewrite Z.land_m1_r. }
  by rewrite Hx, Z.lor_0_r in E.
Qed.

Lemma pow2_factor j k : 0 <= k <= j -> 2 ^ j = 2 ^ (j - k) * 2 ^ k.
Proof. intros. rewrite <-Z.pow_add_r by lia. f_equal. lia. Qed.

(** Before the 965: powers of two all the way. *)
Lemma fenceable_old c o base : fenceable c o base -> gen c < 4 ->
  let k := (if gen c =? 3 then 20 else 19) in
  let w := (if (gen c =? 2) || ((f_tiling o =? I915_TILING_Y) && HAS_128_BYTE_Y_TILING c) then 7 else 9) in
  exists q j p, f_offset o = q * 2 ^ k /\ (0 <= q < 2 ^ 8) /\ f_size o = 2 ^ j /\ (k <= j <= k + 8) /\
    f_stride o = 2 ^ p /\ (w <= p <= 13).
Proof.
  intros [Hg Ht Hs Hp Hb _ Hok Hf] Hg4 k w. specialize (Hb Hg4).
  assert ((f_tiling o =? I915_TILING_NONE) = false) as Htn by by apply Z.eqb_neq.
  unfold i915_gem_object_fence_ok in Hf. rewrite Htn, (proj2 (Z.leb_gt 4 (gen c))) in Hf by done. cbn [orb] in Hf.
  destruct (Z.eqb_spec (Z.land (f_offset o) (Z.lnot (if gen c =? 3 then I915_FENCE_START_MASK else I830_FENCE_START_MASK))) 0)
    as [Hoff|]; [|done]. cbn [negb] in Hf.
  rewrite u32_small in Hf by lia.
  destruct (i915_gem_get_gtt_size c base (f_tiling o)) as [sz|] eqn:Hsz; [|done]. simpl in Hf.
  destruct (Z.eqb_spec (f_size o) sz) as [<-|]; [|done]. simpl in Hf.
  assert (7 <= w <= 9) as Hw by (unfold w; destruct ((gen c =? 2) || _); split; discriminate).
  unfold i915_tiling_ok in Hok. rewrite Htn in Hok. rewrite (s32_small base) in Hok by lia.
  rewrite (proj2 (Z.leb_gt 7 (gen c))), (proj2 (Z.leb_gt 4 (gen c))) in Hok by lia.
  replace (if (gen c =? 2) || (f_tiling o =? I915_TILING_Y) && HAS_128_BYTE_Y_TILING c then 128 else 512) with (2 ^ w) in Hok
    by (unfold w; by destruct ((gen c =? 2) || _)).
  destruct ((8192 <? s32 (f_stride o)) || _) eqn:Hmax; [done|]. apply orb_false_iff in Hmax as [Hmax%Z.ltb_ge Hbig].
  destruct (Z.ltb_spec (s32 (f_stride o)) (2 ^ w)) as [|Hmin]; [done|].
  assert (s32 (f_stride o) = f_stride o) as Es.
  { apply s32_pos; [done|]. pose proof (Z.pow_pos_nonneg 2 w ltac:(lia) ltac:(lia)). lia. }
  rewrite Es in *. apply Z.eqb_eq in Hok.
  assert (0 < f_stride o) as Hpos by (pose proof (Z.pow_pos_nonneg 2 w); lia).
  pose proof (pow2_of_land _ Hpos Hok) as Hpow.
  unfold i915_gem_get_gtt_size in Hsz. rewrite Htn, (proj2 (Z.leb_gt 4 (gen c))) in Hsz by done. cbn [orb] in Hsz.
  replace (if gen c =? 3 then 1024 * 1024 else 512 * 1024) with (2 ^ k) in Hsz by (unfold k; by destruct (gen c =? 3)).
  assert (19 <= k <= 20) as Hk by (unfold k; destruct (gen c =? 3); lia).
  destruct (grow_pow2 base k 12) as (j & Hj & Hjk & Hsj & Hmn); [lia..|]. rewrite Hj in Hsz. injection Hsz as Hsz.
  exists (field k 8 (f_offset o)), j, (Z.log2 (f_stride o)). split_and!.
  - rewrite <-(land_mask (f_offset o) k 8 (if gen c =? 3 then I915_FENCE_START_MASK else I830_FENCE_START_MASK)); [|lia|lia|].
    + symmetry. by apply land_outside.
    + unfold k. by destruct (gen c =? 3).
  - apply Z.mod_pos_bound. lia.
  - apply Z.mod_pos_bound. lia.
  - done.
  - lia.
  - destruct Hmn as [->|Hmn]; [lia|].
    assert (base <= 2 ^ (k + 8)) as Hbase.
    { unfold k. destruct (gen c =? 3); apply Z.ltb_ge in Hbig; exact Hbig. }
    assert (j - 1 < k + 8); [|lia]. apply (Z.pow_lt_mono_r_iff 2); lia.
  - done.
  - apply Z.log2_le_pow2; lia.
  - apply Z.log2_le_mono in Hmax. exact Hmax.
Qed.

(** From the 965 on: the pitch fits its field. *)
Lemma fenceable_new c o base : fenceable c o base -> 4 <= gen c ->
  exists p, f_stride o = (p + 1) * 128 /\ (0 <= p < if 6 <=? gen c then 2 ^ 11 else 2 ^ 10).
Proof.
  intros [Hg Ht Hs Hp Hb _ Hok Hf] Hg4.
  assert ((f_tiling o =? I915_TILING_NONE) = false) as Htn by by apply Z.eqb_neq.
  unfold i915_tiling_ok in Hok. rewrite Htn, (proj2 (Z.leb_le 4 (gen c)) Hg4) in Hok.
  set (w := if (gen c =? 2) || (f_tiling o =? I915_TILING_Y) && HAS_128_BYTE_Y_TILING c then 128 else 512) in Hok.
  destruct (if 7 <=? gen c then _ else _) eqn:Hmax; [done|].
  destruct (Z.ltb_spec (s32 (f_stride o)) w) as [|Hmin]; [done|]. apply Z.eqb_eq in Hok.
  assert (exists u, (u = 7 \/ u = 9) /\ w = 2 ^ u) as (u & Hu & Hw).
  { unfold w. destruct ((gen c =? 2) || _); [by exists 7; auto|by exists 9; auto]. }
  clearbody w. rewrite Hw, land_pow2_pred in Hok by lia.
  assert (s32 (f_stride o) = f_stride o) as Es by (apply s32_pos; [done|]; destruct Hu as [-> | ->]; lia).
  rewrite Es in *.
  assert (f_stride o / 128 <= if 6 <=? gen c then 2 ^ 11 else 2 ^ 10) as Hle.
  { unfold GEN7_FENCE_MAX_PITCH_VAL, I965_FENCE_MAX_PITCH_VAL in Hmax.
    rewrite Z.quot_div_nonneg in Hmax by lia.
    destruct (Z.leb_spec 7 (gen c)), (Z.leb_spec 6 (gen c)); apply Z.ltb_ge in Hmax; lia. }
  assert (f_stride o mod 128 = 0) as Hm.
  { destruct Hu as [-> | ->]; [done|]. change (2 ^ 9) with 512 in Hok. Z.div_mod_to_equations. lia. }
  exists (f_stride o / 128 - 1). split; [Z.div_mod_to_equations; lia|].
  assert (128 <= f_stride o) by (destruct Hu as [-> | ->]; subst w; lia).
  assert (1 <= f_stride o / 128) by (apply Z.div_le_lower_bound; lia).
  destruct (6 <=? gen c); lia.
Qed.

(** ** Encoding and decoding *)

Lemma testbit_div v n b : 0 <= n -> (v / 2 ^ n) mod 2 = Z.b2z b -> Z.testbit v n = b.
Proof. intros Hn Hv. apply Z.b2z_inj. by rewrite Z.testbit_spec'. Qed.

Lemma old_fields k q y se pe v : k = 19 \/ k = 20 -> 0 <= q < 2 ^ 8 -> 0 <= se < 2 ^ 4 -> 0 <= pe < 2 ^ 4 ->
  v = q * 2 ^ k + Z.b2z y * 2 ^ 12 + se * 2 ^ 8 + pe * 2 ^ 4 + 1 ->
  Z.odd v = true /\ field k 8 v = q /\ field 8 4 v = se /\ field 4 4 v = pe /\ Z.testbit v 12 = y.
Proof.
  intros Hk Hq Hs Hp ->. assert (0 <= Z.b2z y <= 1) as Hy by (destruct y; simpl; lia).
  unfold field. split_and!.
  - apply Z.odd_spec. destruct Hk as [-> | ->].
    + exists (q * 2 ^ 18 + Z.b2z y * 2 ^ 11 + se * 2 ^ 7 + pe * 2 ^ 3). lia.
    + exists (q * 2 ^ 19 + Z.b2z y * 2 ^ 11 + se * 2 ^ 7 + pe * 2 ^ 3). lia.
  - destruct Hk as [-> | ->]; Z.div_mod_to_equations; lia.
  - destruct Hk as [-> | ->]; Z.div_mod_to_equations; lia.
  - destruct Hk as [-> | ->]; Z.div_mod_to_equations; lia.
  - apply testbit_div; [lia|]. destruct Hk as [-> | ->]; Z.div_mod_to_equations; lia.
Qed.

Lemma old_val k q (y : bool) se pe : k = 19 \/ k = 20 -> 0 <= q < 2 ^ 8 -> 0 <= se < 2 ^ 4 -> 0 <= pe < 2 ^ 4 ->
  Z.lor (Z.lor (Z.lor (if y then Z.lor (q * 2 ^ k) (Z.shiftl 1 I830_FENCE_TILING_Y_SHIFT) else q * 2 ^ k)
    (u32 (Z.shiftl se 8))) (u32 (Z.shiftl pe I830_FENCE_PITCH_SHIFT))) I830_FENCE_REG_VALID =
  q * 2 ^ k + Z.b2z y * 2 ^ 12 + se * 2 ^ 8 + pe * 2 ^ 4 + 1.
Proof.
  intros Hk Hq Hs Hp. unfold I830_FENCE_TILING_Y_SHIFT, I830_FENCE_PITCH_SHIFT, I830_FENCE_REG_VALID.
  rewrite !Z.shiftl_mul_pow2, !u32_small by lia.
  assert ((if y then Z.lor (q * 2 ^ k) (1 * 2 ^ 12) else q * 2 ^ k) = q * 2 ^ k + Z.b2z y * 2 ^ 12) as ->.
  { destruct y; [|simpl; lia]. apply (lor_low k); [lia|by eexists|]. destruct Hk as [-> | ->]; split; vm_compute; congruence. }
  assert (0 <= Z.b2z y <= 1) as Hy by (destruct y; simpl; lia).
  change (1 * 2 ^ 0) with 1.
  rewrite (lor_low 12 _ (se * 2 ^ 8)), (lor_low 8 _ (pe * 2 ^ 4)), (lor_low 4 _ 1); [done|lia| |lia|lia| |lia|lia| |lia].
  - destruct Hk as [-> | ->].
    + exists (q * 2 ^ 15 + Z.b2z y * 2 ^ 8 + se * 2 ^ 4 + pe); lia.
    + exists (q * 2 ^ 16 + Z.b2z y * 2 ^ 8 + se * 2 ^ 4 + pe); lia.
  - destruct Hk as [-> | ->].
    + exists (q * 2 ^ 11 + Z.b2z y * 2 ^ 4 + se); lia.
    + exists (q * 2 ^ 12 + Z.b2z y * 2 ^ 4 + se); lia.
  - destruct Hk as [-> | ->].
    + exists (q * 2 ^ 7 + Z.b2z y); lia.
    + exists (q * 2 ^ 8 + Z.b2z y); lia.
Qed.

Lemma new_val (snb : bool) e p s (y : bool) : 0 <= e < 2 ^ 20 -> 0 <= s < 2 ^ 20 ->
  0 <= p < (if snb then 2 ^ 11 else 2 ^ 10) ->
  let val := Z.lor (Z.lor (Z.shiftl (e * 2 ^ 12) 32) (s * 2 ^ 12))
               (Z.shiftl p (if snb then SANDYBRIDGE_FENCE_PITCH_SHIFT else I965_FENCE_PITCH_SHIFT)) in
  Z.lor (if y then Z.lor val (Z.shiftl 1 I965_FENCE_TILING_Y_SHIFT) else val) I965_FENCE_REG_VALID =
  e * 2 ^ 44 + s * 2 ^ 12 + p * 2 ^ (if snb then 32 else 2) + Z.b2z y * 2 + 1.
Proof.
  intros He Hs Hp val.
  assert (val = e * 2 ^ 44 + s * 2 ^ 12 + p * 2 ^ (if snb then 32 else 2)) as ->.
  { subst val. unfold SANDYBRIDGE_FENCE_PITCH_SHIFT, I965_FENCE_PITCH_SHIFT.
    rewrite !Z.shiftl_mul_pow2 by (destruct snb; lia). destruct snb.
    - rewrite <-Z.lor_assoc, (Z.lor_comm (s * 2 ^ 12)), Z.lor_assoc.
      rewrite (lor_low 44 _ (p * 2 ^ 32)), (lor_low 32 _ (s * 2 ^ 12)); [lia|lia| |lia|lia| |lia].
      + exists (e * 2 ^ 12 + p). lia.
      + exists e. lia.
    - rewrite (lor_low 32 _ (s * 2 ^ 12)), (lor_low 12 _ (p * 2 ^ 2)); [lia|lia| |lia|lia| |lia].
      + exists (e * 2 ^ 32 + s). lia.
      + exists (e * 2 ^ 12). lia. }
  unfold I965_FENCE_TILING_Y_SHIFT, I965_FENCE_REG_VALID. rewrite !Z.shiftl_mul_pow2 by lia.
  change (1 * 2 ^ 0) with 1. change (1 * 2 ^ 1) with 2.
  assert (exists t, e * 2 ^ 44 + s * 2 ^ 12 + p * 2 ^ (if snb then 32 else 2) = t * 2 ^ 2) as [t ->].
  { destruct snb; [exists (e * 2 ^ 42 + s * 2 ^ 10 + p * 2 ^ 30)|exists (e * 2 ^ 42 + s * 2 ^ 10 + p)]; lia. }
  destruct y; simpl Z.b2z.
  - rewrite (lor_low 2 _ 2), (lor_low 1 _ 1); [lia|lia| |lia|lia| |lia]; [exists (t * 2 + 1)|exists t]; lia.
  - rewrite (lor_low 1 _ 1); [lia|lia| |lia]; exists (t * 2); lia.
Qed.

Lemma new_fields (snb : bool) e p s (y : bool) v : 0 <= e < 2 ^ 20 -> 0 <= s < 2 ^ 20 ->
  0 <= p < (if snb then 2 ^ 11 else 2 ^ 10) ->
  v = e * 2 ^ 44 + s * 2 ^ 12 + p * 2 ^ (if snb then 32 else 2) + Z.b2z y * 2 + 1 ->
  Z.odd v = true /\ field 12 20 v = s /\ field 44 20 v = e /\
  (if snb then field 32 12 v else field 2 10 v) = p /\ Z.testbit v 1 = y.
Proof.
  intros He Hs Hp ->. assert (0 <= Z.b2z y <= 1) as Hy by (destruct y; simpl; lia).
  unfold field. destruct snb; split_and!; try (apply testbit_div; [lia|]); try (Z.div_mod_to_equations; lia);
    apply Z.odd_spec.
  - exists (e * 2 ^ 43 + s * 2 ^ 11 + p * 2 ^ 31 + Z.b2z y). lia.
  - exists (e * 2 ^ 43 + s * 2 ^ 11 + p * 2 + Z.b2z y). lia.
Qed.

(** The value [fence_writes] puts into the register for an object. *)
Definition fence_val (c : chip) (o : fenced) : Z :=
  if 4 <=? gen c then i965_fence_val c o else if gen c =? 3 then i915_fence_val c o else i830_fence_val o.

Lemma decode_old c o base : fenceable c o base -> gen c < 4 -> decode_fence c (fence_val c o) = Some (region_of o).
Proof.
  intros Hfe Hg. destruct (fenceable_old c o base Hfe Hg) as (q & j & p & Ho & Hq & Hsz & Hj & Hst & Hp).
  pose proof (fe_gen _ _ _ Hfe) as Hg'. unfold fence_val, decode_fence, region_of.
  rewrite (proj2 (Z.leb_gt 4 (gen c))), (proj2 (Z.leb_gt 6 (gen c))) by lia.
  set (y := f_tiling o =? I915_TILING_Y) in *. unfold i915_fence_val, i830_fence_val. fold y.
  destruct (Z.eqb_spec (gen c) 3) as [E|E].
  - set (w := if (gen c =? 2) || y && HAS_128_BYTE_Y_TILING c then 7 else 9) in *.
    assert (7 <= w <= 9) as Hw by (unfold w; destruct ((gen c =? 2) || _); split; discriminate).
    assert ((if y && HAS_128_BYTE_Y_TILING c then 128 else 512) = 2 ^ w) as Htw.
    { unfold w. rewrite E. simpl. by destruct (y && _). }
    unfold I915_FENCE_SIZE_BITS. rewrite Htw, Ho, Hsz, Hst, Z.shiftr_div_pow2 by lia.
    rewrite <-!Z.pow_sub_r, !ffs_pow2 by lia.
    replace (j - 20 + 1 - 1) with (j - 20) by lia. replace (p - w + 1 - 1) with (p - w) by lia.
    rewrite old_val by lia.
    destruct (old_fields 20 q y (j - 20) (p - w) _ ltac:(by right) Hq ltac:(lia) ltac:(lia) eq_refl) as (-> & -> & -> & -> & ->).
    cbn [negb]. rewrite Htw, <-Z.pow_add_r by lia. do 3 f_equal; f_equal; lia.
  - assert (gen c = 2) as E2 by lia. rewrite E2 in *. cbn [orb] in Hp. change (2 =? 2) with true in Hp. cbn [orb] in Hp.
    unfold I830_FENCE_SIZE_BITS. rewrite Ho, Hsz, Hst, Z.shiftr_div_pow2 by lia. change 128 with (2 ^ 7).
    rewrite <-!Z.pow_sub_r, !ffs_pow2 by lia.
    replace (j - 19 + 1 - 1) with (j - 19) by lia. replace (p - 7 + 1 - 1) with (p - 7) by lia.
    rewrite (u32_small (p - 7)) by lia. rewrite old_val by lia.
    destruct (old_fields 19 q y (j - 19) (p - 7) _ ltac:(by left) Hq ltac:(lia) ltac:(lia) eq_refl) as (-> & -> & -> & -> & ->).
    cbn [negb]. rewrite <-Z.pow_add_r by lia. do 3 f_equal; f_equal; lia.
Qed.

Lemma field_mul lo w k : 0 <= lo -> 0 <= k < 2 ^ w -> field lo w (k * 2 ^ lo) = k.
Proof. intros. unfold field. rewrite Z.div_mul, Z.mod_small; [done|lia|]. pose proof (Z.pow_pos_nonneg 2 lo). lia. Qed.

Lemma decode_new c o base : fenceable c o base -> 4 <= gen c ->
  0 <= fence_val c o < 2 ^ 64 /\ Z.odd (fence_val c o) = true /\ decode_fence c (fence_val c o) = Some (region_of o).
Proof.
  intros Hfe Hg. destruct (fenceable_new c o base Hfe Hg) as (p & Hst & Hp).
  destruct Hfe as [Hg' _ _ (Ho & He & Hpos) _ ([s Hs] & [z Hz]) _ _]. change 4096 with (2 ^ 12) in Hs, Hz.
  unfold fence_val, i965_fence_val, decode_fence, region_of.
  rewrite (proj2 (Z.leb_le 4 (gen c)) Hg). set (y := f_tiling o =? I915_TILING_Y).
  set (snb := 6 <=? gen c) in *.
  rewrite u32_small, !(land_mask _ 12 20) by (done || lia). rewrite Hst, Z.div_mul by lia.
  replace (p + 1 - 1) with p by lia. rewrite (u32_small p) by (destruct snb; lia).
  assert (field 12 20 (f_offset o + f_size o - 4096) = s + z - 1) as ->.
  { replace (f_offset o + f_size o - 4096) with ((s + z - 1) * 2 ^ 12) by lia. apply field_mul; lia. }
  assert (field 12 20 (f_offset o) = s) as -> by (rewrite Hs; apply field_mul; lia).
  assert (0 <= Z.b2z y <= 1) as Hy by (destruct y; simpl; lia).
  rewrite new_val by lia.
  destruct (new_fields snb (s + z - 1) p s y _ ltac:(lia) ltac:(lia) Hp eq_refl) as (-> & -> & -> & Hpf & ->).
  split; [destruct snb; lia|]. split; [done|]. cbn [negb]. rewrite Hs, Hz. destruct snb; rewrite Hpf; do 2 f_equal; lia.
Qed.

(** ** Writing a register *)

Lemma odd_split lo hi : Z.odd (lo + 2 ^ 32 * hi) = Z.odd lo.
Proof. rewrite Z.odd_add, Z.odd_mul. change (Z.odd (2 ^ 32)) with false. by rewrite xorb_false_r. Qed.

Lemma decode_invalid c v : Z.odd v = false -> decode_fence c v = None.
Proof. intros Hv. unfold decode_fence. by rewrite Hv. Qed.

Lemma split_val v : 0 <= v < 2 ^ 64 -> u32 v + 2 ^ 32 * u32 (Z.shiftr v 32) = v.
Proof.
  intros Hv. rewrite Z.shiftr_div_pow2 by lia. unfold u32. rewrite (Z.mod_small (v / 2 ^ 32)); Z.div_mod_to_equations; lia.
Qed.

(** The writes for a generation that has fences. *)
Lemma fence_writes_new c reg o : 4 <= gen c <= 7 -> fence_writes c reg o = Some (i965_write_fence_reg c reg o).
Proof. intros. unfold fence_writes. by rewrite (proj2 (Z.leb_le 4 (gen c))), (proj2 (Z.leb_le (gen c) 7)) by lia. Qed.

Lemma fence_writes_old c reg o : 2 <= gen c < 4 ->
  fence_writes c reg o = Some [(if gen c =? 3 then i915_fence_reg reg else FENCE_REG_830_0 + reg * 4,
    match o with Some o => fence_val c o | None => 0 end)].
Proof.
  intros. unfold fence_writes, fence_val. rewrite (proj2 (Z.leb_gt 4 (gen c))) by lia. simpl.
  destruct (Z.eqb_spec (gen c) 3); [done|]. by rewrite (proj2 (Z.eqb_eq (gen c) 2)) by lia.
Qed.

Lemma fence_hw_new c reg mmio : 4 <= gen c -> fence_hw c reg mmio =
  default 0 (mmio !! i965_fence_reg c reg) + 2 ^ 32 * default 0 (mmio !! (i965_fence_reg c reg + 4)).
Proof. intros. unfold fence_hw. by rewrite (proj2 (Z.leb_le 4 (gen c))). Qed.

Lemma i965_written c reg o mmio : 4 <= gen c <= 7 ->
  fence_hw c reg (apply_writes (i965_write_fence_reg c reg (Some o)) mmio) =
  u32 (i965_fence_val c o) + 2 ^ 32 * u32 (Z.shiftr (i965_fence_val c o) 32).
Proof.
  intros Hg. rewrite fence_hw_new by lia. unfold apply_writes, i965_write_fence_reg. cbn [foldl].
  rewrite lookup_insert_eq, lookup_insert_ne, lookup_insert_eq by lia. done.
Qed.

Lemma fence_writes_total c reg o : 2 <= gen c <= 7 -> is_Some (fence_writes c reg o).
Proof.
  intros. destruct (Z.lt_ge_cases (gen c) 4); [rewrite fence_writes_old by lia|rewrite fence_writes_new by lia]; eauto.
Qed.

Lemma writes_elsewhere c reg reg' o ws mmio : 2 <= gen c <= 7 -> 0 <= reg < 32 -> 0 <= reg' < 32 -> reg' <> reg ->
  fence_writes c reg o = Some ws -> fence_hw c reg' (apply_writes ws mmio) = fence_hw c reg' mmio.
Proof.
  intros Hg Hr Hr' Hne Hw. destruct (Z.lt_ge_cases (gen c) 4) as [Hold|Hnew].
  - rewrite fence_writes_old in Hw by lia. injection Hw as <-. unfold fence_hw.
    rewrite (proj2 (Z.leb_gt 4 (gen c))) by lia. unfold apply_writes. cbn [foldl].
    rewrite !lookup_insert_ne; [done|..].
    destruct (gen c =? 3); [|lia]. unfold i915_fence_reg, FENCE_REG_830_0, FENCE_REG_945_8.
    destruct (Z.ltb_spec reg 8), (Z.ltb_spec reg' 8); lia.
  - rewrite fence_writes_new in Hw by lia. injection Hw as <-. rewrite !fence_hw_new by lia.
    unfold apply_writes, i965_write_fence_reg, i965_fence_reg.
    destruct o; cbn [foldl]; rewrite !lookup_insert_ne by (destruct (6 <=? gen c); lia); done.
Qed.

Lemma writes_cleared c reg ws mmio : 2 <= gen c <= 7 -> fence_writes c reg None = Some ws ->
  decode_fence c (fence_hw c reg (apply_writes ws mmio)) = None.
Proof.
  intros Hg Hw. destruct (Z.lt_ge_cases (gen c) 4) as [Hold|Hnew].
  - rewrite fence_writes_old in Hw by lia. injection Hw as <-. unfold fence_hw.
    rewrite (proj2 (Z.leb_gt 4 (gen c))) by lia. unfold apply_writes. cbn [foldl]. by rewrite lookup_insert_eq.
  - rewrite fence_writes_new in Hw by lia. injection Hw as <-. rewrite fence_hw_new by lia.
    unfold apply_writes, i965_write_fence_reg. cbn [foldl].
    by rewrite lookup_insert_eq, lookup_insert_ne, lookup_insert_eq by lia.
Qed.

Lemma writes_set c reg o base ws mmio : fenceable c o base -> fence_writes c reg (Some o) = Some ws ->
  decode_fence c (fence_hw c reg (apply_writes ws mmio)) = Some (region_of o).
Proof.
  intros Hfe Hw. pose proof (fe_gen _ _ _ Hfe) as Hg. destruct (Z.lt_ge_cases (gen c) 4) as [Hold|Hnew].
  - rewrite fence_writes_old in Hw by lia. injection Hw as <-. unfold fence_hw.
    rewrite (proj2 (Z.leb_gt 4 (gen c))) by lia. unfold apply_writes. cbn [foldl].
    rewrite lookup_insert_eq. by apply (decode_old c o base).
  - rewrite fence_writes_new in Hw by lia. injection Hw as <-.
    destruct (decode_new c o base Hfe Hnew) as (Hr & _ & Hdec). rewrite i965_written by lia.
    unfold fence_val in Hr, Hdec. rewrite (proj2 (Z.leb_le 4 (gen c)) Hnew) in Hr, Hdec. by rewrite split_val.
Qed.

(** C16: what the driver writes for an object it may fence, on every generation of the
    chip: the register then decodes to exactly the object's place, its size, its pitch
    and its tiling; with no object it is not valid; and no other register changes. *)
Theorem fence_register_roundtrip c reg o base mmio : fenceable c o base -> 0 <= reg < 32 ->
  exists ws ws0, fence_writes c reg (Some o) = Some ws /\ fence_writes c reg None = Some ws0 /\
    decode_fence c (fence_hw c reg (apply_writes ws mmio)) = Some (region_of o) /\
    decode_fence c (fence_hw c reg (apply_writes ws0 mmio)) = None /\
    forall reg', 0 <= reg' < 32 -> reg' <> reg ->
      fence_hw c reg' (apply_writes ws mmio) = fence_hw c reg' mmio /\
      fence_hw c reg' (apply_writes ws0 mmio) = fence_hw c reg' mmio.
Proof.
  intros Hfe Hreg. pose proof (fe_gen _ _ _ Hfe) as Hg.
  destruct (fence_writes_total c reg (Some o) Hg) as [ws Hws], (fence_writes_total c reg None Hg) as [ws0 Hws0].
  exists ws, ws0. split_and!; try done.
  - by apply (writes_set c reg o base).
  - by apply (writes_cleared c reg).
  - intros reg' Hr' Hne. split; by eapply (writes_elsewhere c reg reg').
Qed.

(** C40: while a 64 bit register is rewritten in two halves it is never valid with a mix
    of the two: after any prefix of the writes it holds what it held before, is not
    valid, or holds the new fence. *)
Theorem fence_never_partial c reg o mmio ws prefix rest :
  4 <= gen c <= 7 -> fence_writes c reg o = Some ws -> ws = prefix ++ rest ->
  prefix = [] \/ rest = [] \/ decode_fence c (fence_hw c reg (apply_writes prefix mmio)) = None.
Proof.
  intros Hg Hw Hs. rewrite fence_writes_new in Hw by done. injection Hw as <-.
  destruct prefix as [|w1 p1]; [by left|right].
  destruct o as [o|]; simpl in Hs; injection Hs as <- Hs.
  - destruct p1 as [|w2 p2]; [right|injection Hs as <- Hs; destruct p2 as [|w3 p3]; [right|]].
    + apply decode_invalid. rewrite fence_hw_new by lia. unfold apply_writes. cbn [foldl].
      by rewrite odd_split, lookup_insert_eq.
    + apply decode_invalid. rewrite fence_hw_new by lia. unfold apply_writes. cbn [foldl].
      by rewrite odd_split, lookup_insert_ne, lookup_insert_eq by lia.
    + left. injection Hs as <- Hs. by apply eq_sym, app_eq_nil in Hs as [_ ->].
  - right. destruct p1 as [|w2 p2]; apply decode_invalid; rewrite fence_hw_new by lia; unfold apply_writes; cbn [foldl].
    + by rewrite odd_split, lookup_insert_eq.
    + injection Hs as <- Hs. apply eq_sym, app_eq_nil in Hs as [-> _]. cbn [foldl].
      by rewrite odd_split, lookup_insert_ne, lookup_insert_eq by lia.
Qed.

(** ** Pages *)

(** The byte whose bit 6 of the address is the other one. *)
Definition flip6 (j : nat) : nat := if (j mod 128 <? 64)%nat then j + 64 else j - 64.

Lemma flip6_lxor j : (j < PAGE_SIZE)%nat -> flip6 j = N.to_nat (N.lxor (N.of_nat j) 64).
Proof.
  intros Hj. assert (forallb (fun k => N.eqb (N.lxor k 64) (if N.ltb (k mod 128) 64 then k + 64 else k - 64))%N
    (map N.of_nat (seq 0 PAGE_SIZE)) = true) as Hall by by vm_compute.
  rewrite forallb_forall in Hall. specialize (Hall (N.of_nat j)). rewrite N.eqb_eq in Hall.
  rewrite Hall by (apply in_map, in_seq; lia). unfold flip6.
  assert ((N.of_nat j mod 128)%N = N.of_nat (j mod 128)) as -> by (by rewrite Nat2N.inj_mod).
  destruct (Nat.ltb_spec (j mod 128) 64), (N.ltb_spec (N.of_nat (j mod 128)) 64); lia.
Qed.

Lemma flip6_block j : (flip6 j / 128 = j / 128)%nat /\ flip6 (flip6 j) = j.
Proof.
  pose proof (Nat.div_mod_eq j 128). pose proof (Nat.mod_upper_bound j 128 ltac:(lia)).
  assert (exists r, flip6 j = 128 * (j / 128) + r /\ r < 128 /\ r = if j mod 128 <? 64 then j mod 128 + 64 else j mod 128 - 64)%nat
    as (r & -> & Hr & Hre).
  { unfold flip6. destruct (Nat.ltb_spec (j mod 128) 64); eexists; (split; [|split; [|done]]); lia. }
  replace (128 * (j / 128) + r)%nat with (r + j / 128 * 128)%nat by lia. split.
  - rewrite Nat.div_add by lia. rewrite (Nat.div_small r) by lia. done.
  - unfold flip6. rewrite Nat.Div0.mod_add, (Nat.mod_small r) by lia.
    destruct (Nat.ltb_spec (j mod 128) 64), (Nat.ltb_spec r 64); lia.
Qed.

Lemma put_bytes_lookup {A} off (src p : list A) j : (off + length src <= length p)%nat ->
  put_bytes off src p !! j = if decide (off <= j < off + length src)%nat then src !! (j - off)%nat else p !! j.
Proof.
  intros Hl. unfold put_bytes. case_decide as Hd.
  - rewrite lookup_app_r by (rewrite length_take; lia). rewrite length_take, Nat.min_l by lia.
    by rewrite lookup_app_l by lia.
  - destruct (decide (j < off)%nat).
    + rewrite lookup_app_l by (rewrite length_take; lia). by rewrite lookup_take_lt.
    + rewrite !lookup_app_r; rewrite ?length_take, ?Nat.min_l by lia; try lia.
      rewrite lookup_drop. f_equal. lia.
Qed.

Lemma put_bytes_length {A} off (src p : list A) : (off + length src <= length p)%nat ->
  length (put_bytes off src p) = length p.
Proof. intros. unfold put_bytes. rewrite !length_app, length_take, length_drop. lia. Qed.

Lemma swap_halves_spec {A} i (va : list A) : (i + 128 <= length va)%nat ->
  length (swap_halves i va) = length va /\
  forall j, swap_halves i va !! j =
    if decide (i <= j < i + 64)%nat then va !! (j + 64)%nat
    else if decide (i + 64 <= j < i + 128)%nat then va !! (j - 64)%nat else va !! j.
Proof.
  intros Hl. unfold swap_halves.
  assert (length (take 64 (drop (i + 64) va)) = 64%nat) as L1 by (rewrite length_take, length_drop; lia).
  assert (length (take 64 (drop i va)) = 64%nat) as L2 by (rewrite length_take, length_drop; lia).
  assert (length (put_bytes i (take 64 (drop (i + 64) va)) va) = length va) as L3 by (apply put_bytes_length; lia).
  split; [rewrite put_bytes_length; lia|]. intros j. rewrite put_bytes_lookup, L2 by lia.
  repeat case_decide; try lia.
  - rewrite lookup_take_lt, lookup_drop by lia. f_equal. lia.
  - rewrite put_bytes_lookup, L1, decide_True by lia. rewrite lookup_take_lt, lookup_drop by lia. f_equal. lia.
  - rewrite put_bytes_lookup, L1, decide_False by lia. done.
Qed.

(** After [n] rounds the first [n] blocks are swapped. *)
Lemma swizzle_rounds {A} n (va : list A) : (128 * n <= length va)%nat ->
  let va' := foldl (fun va k => swap_halves (128 * k) va) va (seq 0 n) in
  length va' = length va /\
  forall j, va' !! j = if decide (j < 128 * n)%nat then va !! flip6 j else va !! j.
Proof.
  induction n as [|n IH]; intros Hl; [by split|].
  rewrite seq_S, foldl_snoc. cbn zeta. destruct IH as [IHl IH]; [lia|]. cbn zeta in IH, IHl.
  rewrite Nat.add_0_l. set (va1 := foldl _ _ _) in *.
  destruct (swap_halves_spec (128 * n) va1) as [Hl' Hs]; [lia|]. split; [lia|].
  intros j. rewrite Hs. destruct (flip6_block j) as [Hb _]. unfold flip6 in *.
  repeat case_decide; rewrite ?IH; try lia.
  - rewrite decide_False by lia. assert ((j / 128 = n)%nat) as E by (symmetry; apply (Nat.div_unique _ _ _ (j - 128 * n)); lia).
    pose proof (Nat.div_mod_eq j 128). destruct (Nat.ltb_spec (j mod 128) 64); [done|lia].
  - rewrite decide_False by lia. assert ((j / 128 = n)%nat) as E by (symmetry; apply (Nat.div_unique _ _ _ (j - 128 * n)); lia).
    pose proof (Nat.div_mod_eq j 128). destruct (Nat.ltb_spec (j mod 128) 64); [lia|done].
  - rewrite decide_True by lia. done.
  - rewrite decide_False by lia. done.
Qed.

Lemma swizzle_page_spec {A} (va : list A) : length va = PAGE_SIZE ->
  length (i915_gem_swizzle_page va) = PAGE_SIZE /\
  forall j, (j < PAGE_SIZE)%nat -> i915_gem_swizzle_page va !! j = va !! N.to_nat (N.lxor (N.of_nat j) 64).
Proof.
  intros Hl. unfold i915_gem_swizzle_page. change (PAGE_SIZE / 128)%nat with 32%nat.
  destruct (swizzle_rounds 32 va) as [Hl' Hs]; [rewrite Hl; unfold PAGE_SIZE; lia|]. cbn zeta in *.
  split; [lia|]. intros j Hj. rewrite Hs, decide_True by (unfold PAGE_SIZE in Hj; lia). by rewrite <-flip6_lxor.
Qed.

(** What the GPU reads at [j] of a page when the memory controller flips bit 6 of the
    address for the bit 17 of the page. *)
Definition gpu_view {A} (p : page A) (j : nat) : option A :=
  bytes p !! (if Z.testbit (phys p) 17 then N.to_nat (N.lxor (N.of_nat j) 64) else j).

Lemma lxor64_lt j : (j < PAGE_SIZE)%nat -> (N.to_nat (N.lxor (N.of_nat j) 64) < PAGE_SIZE)%nat.
Proof.
  intros Hj. rewrite <-flip6_lxor by done. destruct (flip6_block j) as [Hb _]. unfold PAGE_SIZE in *.
  pose proof (Nat.div_mod_eq j 128). pose proof (Nat.div_mod_eq (flip6 j) 128).
  pose proof (Nat.mod_upper_bound (flip6 j) 128 ltac:(lia)). assert (j / 128 < 32)%nat by (apply Nat.Div0.div_lt_upper_bound; lia). lia.
Qed.

Lemma bit17_land z : (Z.land (Z.shiftr z 17) 1 =? 1) = Z.testbit z 17.
Proof.
  change 1 with (Z.ones 1) at 1. rewrite Z.land_ones, Z.shiftr_div_pow2, <-Z.testbit_spec' by lia.
  by destruct (Z.testbit z 17).
Qed.

(** pages written out with their bit 17 recorded, and read back at other physical
    addresses with the bytes the CPU saw, look the same to the GPU after
    [i915_gem_object_do_bit_17_swizzle] as they did before. *)
Theorem bit_17_roundtrip {A} (olds news : list (page A)) bits j i p q :
  i915_gem_object_save_bit_17_swizzle olds bits true = Some (map (fun p => Z.testbit (phys p) 17) olds) /\
  (Forall2 (fun p q => bytes p = bytes q /\ length (bytes p) = PAGE_SIZE) olds news ->
   olds !! i = Some p ->
   i915_gem_object_do_bit_17_swizzle news (i915_gem_object_save_bit_17_swizzle olds bits true) !! i = Some q ->
   (j < PAGE_SIZE)%nat -> gpu_view q j = gpu_view p j).
Proof.
  assert (i915_gem_object_save_bit_17_swizzle olds bits true = Some (map (fun p => Z.testbit (phys p) 17) olds)) as E
    by by destruct bits.
  split; [done|]. rewrite E. intros Hall Hp Hq Hj. unfold i915_gem_object_do_bit_17_swizzle in Hq.
  rewrite lookup_zip_with in Hq. apply bind_Some in Hq as (n & Hn & Hq). apply bind_Some in Hq as (b & Hb & Hq).
  rewrite list_lookup_fmap, Hp in Hb. apply fmap_Some in Hb as (p' & [= <-] & ->). apply (inj Some) in Hq. subst q. cbv beta.
  destruct (Forall2_lookup_lr _ _ _ _ _ _ Hall Hp Hn) as [Eb Hl]. rewrite bit17_land. unfold gpu_view.
  pose proof (swizzle_page_spec (bytes n) ltac:(congruence)) as [_ Hs].
  destruct (Z.testbit (phys n) 17) eqn:En, (Z.testbit (phys p) 17) eqn:Ep; cbn [Bool.eqb phys bytes];
    rewrite ?En, ?Eb; cbv iota; try done.
  - rewrite Hs by by apply lxor64_lt. rewrite N2Nat.id, N.lxor_assoc, N.lxor_nilpotent, N.lxor_0_r. by rewrite Nat2N.id.
  - by rewrite Hs.
Qed.
