(* ===== verification/Fence.v ===== *)
(** * Fence registers and the state of the memory manager (i915_gem.c, i915_drv.h)

    The state the aperture code shares: buffer objects, the range allocator of the
    aperture, the lists of objects, the fence registers with the objects that own them,
    and the registers of the chip.  Fence registers are handed out from the free ones, or
    taken from the object that used one least recently.  A dereference of a NULL pointer
    and a failed [BUG_ON] are faults. *)

From S2P Require Import Prelude MM Tiling.

Open Scope Z_scope.

Abbreviation oid := positive (only parsing).

Definition EDEADLK : Z := 45.

(** [struct drm_i915_gem_object], with the fields of its [base] that matter here.
    [fence_reg] is [None] for [I915_FENCE_REG_NONE], [has_pages] tells whether there is a
    page list and [gtt_mmap] whether the object is mapped through the aperture. *)
Record bo := mk_bo {
  base_size : Z; tiling_mode : Z; stride : Z; gtt_space : option nid; gtt_offset : Z;
  map_and_fenceable : bool; pin_count : Z; pin_mappable : bool; user_pin_count : Z;
  pin_filp : option nat; fence_reg : option nat; fence_dirty : bool; fenced_gpu_access : bool;
  last_fenced_seqno : Z; last_read_seqno : Z; active : bool; read_domains : Z; write_domain : Z;
  cache_level : Z; has_pages : bool; pages_pin_count : Z; gtt_mmap : bool; has_global_gtt_mapping : bool }.

(** [struct drm_i915_fence_reg]; the list node is in [fence_list] of the state. *)
Record fence := mk_fence { reg_obj : option oid; reg_pin_count : Z }.

(** [struct drm_i915_private]: [num_fence_regs] is the length of [fence_regs].
    [answers] are what the waits on the chip will return, each with the objects whose
    rendering has finished when a wait succeeds. *)
Record i915 := mk_i915 {
  info : chip; mappable_end : Z; gtt_total : Z; bit_6_swizzle : Z * Z; mm : drm_mm; objs : gmap oid bo;
  inactive_list : list oid; active_list : list oid; bound_list : list oid; unbound_list : list oid;
  fence_regs : list fence; fence_list : list nat; fence_reg_start : nat; mmio : gmap Z Z;
  answers : list (Z * list oid) }.

(** ** Field updates *)

Definition set_tiling_mode (v : Z) (b : bo) : bo :=
  mk_bo (base_size b) v (stride b) (gtt_space b) (gtt_offset b) (map_and_fenceable b) (pin_count b)
    (pin_mappable b) (user_pin_count b) (pin_filp b) (fence_reg b) (fence_dirty b) (fenced_gpu_access b)
    (last_fenced_seqno b) (last_read_seqno b) (active b) (read_domains b) (write_domain b) (cache_level b)
    (has_pages b) (pages_pin_count b) (gtt_mmap b) (has_global_gtt_mapping b).
Definition set_stride (v : Z) (b : bo) : bo :=
  mk_bo (base_size b) (tiling_mode b) v (gtt_space b) (gtt_offset b) (map_and_fenceable b) (pin_count b)
    (pin_mappable b) (user_pin_count b) (pin_filp b) (fence_reg b) (fence_dirty b) (fenced_gpu_access b)
    (last_fenced_seqno b) (last_read_seqno b) (active b) (read_domains b) (write_domain b) (cache_level b)
    (has_pages b) (pages_pin_count b) (gtt_mmap b) (has_global_gtt_mapping b).
Definition set_gtt_space (v : option nid) (b : bo) : bo :=
  mk_bo (base_size b) (tiling_mode b) (stride b) v (gtt_offset b) (map_and_fenceable b) (pin_count b)
    (pin_mappable b) (user_pin_count b) (pin_filp b) (fence_reg b) (fence_dirty b) (fenced_gpu_access b)
    (last_fenced_seqno b) (last_read_seqno b) (active b) (read_domains b) (write_domain b) (cache_level b)
    (has_pages b) (pages_pin_count b) (gtt_mmap b) (has_global_gtt_mapping b).
Definition set_gtt_offset (v : Z) (b : bo) : bo :=
  mk_bo (base_size b) (tiling_mode b) (stride b) (gtt_space b) v (map_and_fenceable b) (pin_count b)
    (pin_mappable b) (user_pin_count b) (pin_filp b) (fence_reg b) (fence_dirty b) (fenced_gpu_access b)
    (last_fenced_seqno b) (last_read_seqno b) (active b) (read_domains b) (write_domain b) (cache_level b)
    (has_pages b) (pages_pin_count b) (gtt_mmap b) (has_global_gtt_mapping b).
Definition set_map_and_fenceable (v : bool) (b : bo) : bo :=
  mk_bo (base_size b) (tiling_mode b) (stride b) (gtt_space b) (gtt_offset b) v (pin_count b)
    (pin_mappable b) (user_pin_count b) (pin_filp b) (fence_reg b) (fence_dirty b) (fenced_gpu_access b)
    (last_fenced_seqno b) (last_read_seqno b) (active b) (read_domains b) (write_domain b) (cache_level b)
    (has_pages b) (pages_pin_count b) (gtt_mmap b) (has_global_gtt_mapping b).
Definition set_pin_count (v : Z) (b : bo) : bo :=
  mk_bo (base_size b) (tiling_mode b) (stride b) (gtt_space b) (gtt_offset b) (map_and_fenceable b) v
    (pin_mappable b) (user_pin_count b) (pin_filp b) (fence_reg b) (fence_dirty b) (fenced_gpu_access b)
    (last_fenced_seqno b) (last_read_seqno b) (active b) (read_domains b) (write_domain b) (cache_level b)
    (has_pages b) (pages_pin_count b) (gtt_mmap b) (has_global_gtt_mapping b).
Definition set_pin_mappable (v : bool) (b : bo) : bo :=
  mk_bo (base_size b) (tiling_mode b) (stride b) (gtt_space b) (gtt_offset b) (map_and_fenceable b)
    (pin_count b) v (user_pin_count b) (pin_filp b) (fence_reg b) (fence_dirty b) (fenced_gpu_access b)
    (last_fenced_seqno b) (last_read_seqno b) (active b) (read_domains b) (write_domain b) (cache_level b)
    (has_pages b) (pages_pin_count b) (gtt_mmap b) (has_global_gtt_mapping b).
Definition set_user_pin_count (v : Z) (b : bo) : bo :=
  mk_bo (base_size b) (tiling_mode b) (stride b) (gtt_space b) (gtt_offset b) (map_and_fenceable b)
    (pin_count b) (pin_mappable b) v (pin_filp b) (fence_reg b) (fence_dirty b) (fenced_gpu_access b)
    (last_fenced_seqno b) (last_read_seqno b) (active b) (read_domains b) (write_domain b) (cache_level b)
    (has_pages b) (pages_pin_count b) (gtt_mmap b) (has_global_gtt_mapping b).
Definition set_pin_filp (v : option nat) (b : bo) : bo :=
  mk_bo (base_size b) (tiling_mode b) (stride b) (gtt_space b) (gtt_offset b) (map_and_fenceable b)
    (pin_count b) (pin_mappable b) (user_pin_count b) v (fence_reg b) (fence_dirty b) (fenced_gpu_access b)
    (last_fenced_seqno b) (last_read_seqno b) (active b) (read_domains b) (write_domain b) (cache_level b)
    (has_pages b) (pages_pin_count b) (gtt_mmap b) (has_global_gtt_mapping b).
Definition set_fence_reg (v : option nat) (b : bo) : bo :=
  mk_bo (base_size b) (tiling_mode b) (stride b) (gtt_space b) (gtt_offset b) (map_and_fenceable b)
    (pin_count b) (pin_mappable b) (user_pin_count b) (pin_filp b) v (fence_dirty b) (fenced_gpu_access b)
    (last_fenced_seqno b) (last_read_seqno b) (active b) (read_domains b) (write_domain b) (cache_level b)
    (has_pages b) (pages_pin_count b) (gtt_mmap b) (has_global_gtt_mapping b).
Definition set_fence_dirty (v : bool) (b : bo) : bo :=
  mk_bo (base_size b) (tiling_mode b) (stride b) (gtt_space b) (gtt_offset b) (map_and_fenceable b)
    (pin_count b) (pin_mappable b) (user_pin_count b) (pin_filp b) (fence_reg b) v (fenced_gpu_access b)
    (last_fenced_seqno b) (last_read_seqno b) (active b) (read_domains b) (write_domain b) (cache_level b)
    (has_pages b) (pages_pin_count b) (gtt_mmap b) (has_global_gtt_mapping b).
Definition set_fenced_gpu_access (v : bool) (b : bo) : bo :=
  mk_bo (base_size b) (tiling_mode b) (stride b) (gtt_space b) (gtt_offset b) (map_and_fenceable b)
    (pin_count b) (pin_mappable b) (user_pin_count b) (pin_filp b) (fence_reg b) (fence_dirty b) v
    (last_fenced_seqno b) (last_read_seqno b) (active b) (read_domains b) (write_domain b) (cache_level b)
    (has_pages b) (pages_pin_count b) (gtt_mmap b) (has_global_gtt_mapping b).
Definition set_last_fenced_seqno (v : Z) (b : bo) : bo :=
  mk_bo (base_size b) (tiling_mode b) (stride b) (gtt_space b) (gtt_offset b) (map_and_fenceable b)
    (pin_count b) (pin_mappable b) (user_pin_count b) (pin_filp b) (fence_reg b) (fence_dirty b)
    (fenced_gpu_access b) v (last_read_seqno b) (active b) (read_domains b) (write_domain b) (cache_level b)
    (has_pages b) (pages_pin_count b) (gtt_mmap b) (has_global_gtt_mapping b).
Definition set_last_read_seqno (v : Z) (b : bo) : bo :=
  mk_bo (base_size b) (tiling_mode b) (stride b) (gtt_space b) (gtt_offset b) (map_and_fenceable b)
    (pin_count b) (pin_mappable b) (user_pin_count b) (pin_filp b) (fence_reg b) (fence_dirty b)
    (fenced_gpu_access b) (last_fenced_seqno b) v (active b) (read_domains b) (write_domain b)
    (cache_level b) (has_pages b) (pages_pin_count b) (gtt_mmap b) (has_global_gtt_mapping b).
Definition set_active (v : bool) (b : bo) : bo :=
  mk_bo (base_size b) (tiling_mode b) (stride b) (gtt_space b) (gtt_offset b) (map_and_fenceable b)
    (pin_count b) (pin_mappable b) (user_pin_count b) (pin_filp b) (fence_reg b) (fence_dirty b)
    (fenced_gpu_access b) (last_fenced_seqno b) (last_read_seqno b) v (read_domains b) (write_domain b)
    (cache_level b) (has_pages b) (pages_pin_count b) (gtt_mmap b) (has_global_gtt_mapping b).
Definition set_read_domains (v : Z) (b : bo) : bo :=
  mk_bo (base_size b) (tiling_mode b) (stride b) (gtt_space b) (gtt_offset b) (map_and_fenceable b)
    (pin_count b) (pin_mappable b) (user_pin_count b) (pin_filp b) (fence_reg b) (fence_dirty b)
    (fenced_gpu_access b) (last_fenced_seqno b) (last_read_seqno b) (active b) v (write_domain b)
    (cache_level b) (has_pages b) (pages_pin_count b) (gtt_mmap b) (has_global_gtt_mapping b).
Definition set_write_domain (v : Z) (b : bo) : bo :=
  mk_bo (base_size b) (tiling_mode b) (stride b) (gtt_space b) (gtt_offset b) (map_and_fenceable b)
    (pin_count b) (pin_mappable b) (user_pin_count b) (pin_filp b) (fence_reg b) (fence_dirty b)
    (fenced_gpu_access b) (last_fenced_seqno b) (last_read_seqno b) (active b) (read_domains b) v
    (cache_level b) (has_pages b) (pages_pin_count b) (gtt_mmap b) (has_global_gtt_mapping b).
Definition set_cache_level (v : Z) (b : bo) : bo :=
  mk_bo (base_size b) (tiling_mode b) (stride b) (gtt_space b) (gtt_offset b) (map_and_fenceable b)
    (pin_count b) (pin_mappable b) (user_pin_count b) (pin_filp b) (fence_reg b) (fence_dirty b)
    (fenced_gpu_access b) (last_fenced_seqno b) (last_read_seqno b) (active b) (read_domains b)
    (write_domain b) v (has_pages b) (pages_pin_count b) (gtt_mmap b) (has_global_gtt_mapping b).
Definition set_has_pages (v : bool) (b : bo) : bo :=
  mk_bo (base_size b) (tiling_mode b) (stride b) (gtt_space b) (gtt_offset b) (map_and_fenceable b)
    (pin_count b) (pin_mappable b) (user_pin_count b) (pin_filp b) (fence_reg b) (fence_dirty b)
    (fenced_gpu_access b) (last_fenced_seqno b) (last_read_seqno b) (active b) (read_domains b)
    (write_domain b) (cache_level b) v (pages_pin_count b) (gtt_mmap b) (has_global_gtt_mapping b).
Definition set_pages_pin_count (v : Z) (b : bo) : bo :=
  mk_bo (base_size b) (tiling_mode b) (stride b) (gtt_space b) (gtt_offset b) (map_and_fenceable b)
    (pin_count b) (pin_mappable b) (user_pin_count b) (pin_filp b) (fence_reg b) (fence_dirty b)
    (fenced_gpu_access b) (last_fenced_seqno b) (last_read_seqno b) (active b) (read_domains b)
    (write_domain b) (cache_level b) (has_pages b) v (gtt_mmap b) (has_global_gtt_mapping b).
Definition set_gtt_mmap (v : bool) (b : bo) : bo :=
  mk_bo (base_size b) (tiling_mode b) (stride b) (gtt_space b) (gtt_offset b) (map_and_fenceable b)
    (pin_count b) (pin_mappable b) (user_pin_count b) (pin_filp b) (fence_reg b) (fence_dirty b)
    (fenced_gpu_access b) (last_fenced_seqno b) (last_read_seqno b) (active b) (read_domains b)
    (write_domain b) (cache_level b) (has_pages b) (pages_pin_count b) v (has_global_gtt_mapping b).
Definition set_has_global_gtt_mapping (v : bool) (b : bo) : bo :=
  mk_bo (base_size b) (tiling_mode b) (stride b) (gtt_space b) (gtt_offset b) (map_and_fenceable b)
    (pin_count b) (pin_mappable b) (user_pin_count b) (pin_filp b) (fence_reg b) (fence_dirty b)
    (fenced_gpu_access b) (last_fenced_seqno b) (last_read_seqno b) (active b) (read_domains b)
    (write_domain b) (cache_level b) (has_pages b) (pages_pin_count b) (gtt_mmap b) v.

Definition set_mm (v : drm_mm) (s : i915) : i915 :=
  mk_i915 (info s) (mappable_end s) (gtt_total s) (bit_6_swizzle s) v (objs s) (inactive_list s)
    (active_list s) (bound_list s) (unbound_list s) (fence_regs s) (fence_list s) (fence_reg_start s)
    (mmio s) (answers s).
Definition set_objs (v : gmap oid bo) (s : i915) : i915 :=
  mk_i915 (info s) (mappable_end s) (gtt_total s) (bit_6_swizzle s) (mm s) v (inactive_list s)
    (active_list s) (bound_list s) (unbound_list s) (fence_regs s) (fence_list s) (fence_reg_start s)
    (mmio s) (answers s).
Definition set_inactive_list (v : list oid) (s : i915) : i915 :=
  mk_i915 (info s) (mappable_end s) (gtt_total s) (bit_6_swizzle s) (mm s) (objs s) v (active_list s)
    (bound_list s) (unbound_list s) (fence_regs s) (fence_list s) (fence_reg_start s) (mmio s) (answers s).
Definition set_active_list (v : list oid) (s : i915) : i915 :=
  mk_i915 (info s) (mappable_end s) (gtt_total s) (bit_6_swizzle s) (mm s) (objs s) (inactive_list s) v
    (bound_list s) (unbound_list s) (fence_regs s) (fence_list s) (fence_reg_start s) (mmio s) (answers s).
Definition set_bound_list (v : list oid) (s : i915) : i915 :=
  mk_i915 (info s) (mappable_end s) (gtt_total s) (bit_6_swizzle s) (mm s) (objs s) (inactive_list s)
    (active_list s) v (unbound_list s) (fence_regs s) (fence_list s) (fence_reg_start s) (mmio s) (answers s).
Definition set_unbound_list (v : list oid) (s : i915) : i915 :=
  mk_i915 (info s) (mappable_end s) (gtt_total s) (bit_6_swizzle s) (mm s) (objs s) (inactive_list s)
    (active_list s) (bound_list s) v (fence_regs s) (fence_list s) (fence_reg_start s) (mmio s) (answers s).
Definition set_fence_regs (v : list fence) (s : i915) : i915 :=
  mk_i915 (info s) (mappable_end s) (gtt_total s) (bit_6_swizzle s) (mm s) (objs s) (inactive_list s)
    (active_list s) (bound_list s) (unbound_list s) v (fence_list s) (fence_reg_start s) (mmio s) (answers s).
Definition set_fence_list (v : list nat) (s : i915) : i915 :=
  mk_i915 (info s) (mappable_end s) (gtt_total s) (bit_6_swizzle s) (mm s) (objs s) (inactive_list s)
    (active_list s) (bound_list s) (unbound_list s) (fence_regs s) v (fence_reg_start s) (mmio s) (answers s).
Definition set_fence_reg_start (v : nat) (s : i915) : i915 :=
  mk_i915 (info s) (mappable_end s) (gtt_total s) (bit_6_swizzle s) (mm s) (objs s) (inactive_list s)
    (active_list s) (bound_list s) (unbound_list s) (fence_regs s) (fence_list s) v (mmio s) (answers s).
Definition set_mmio (v : gmap Z Z) (s : i915) : i915 :=
  mk_i915 (info s) (mappable_end s) (gtt_total s) (bit_6_swizzle s) (mm s) (objs s) (inactive_list s)
    (active_list s) (bound_list s) (unbound_list s) (fence_regs s) (fence_list s) (fence_reg_start s) v
    (answers s).
Definition set_answers (v : list (Z * list oid)) (s : i915) : i915 :=
  mk_i915 (info s) (mappable_end s) (gtt_total s) (bit_6_swizzle s) (mm s) (objs s) (inactive_list s)
    (active_list s) (bound_list s) (unbound_list s) (fence_regs s) (fence_list s) (fence_reg_start s)
    (mmio s) v.

(** ** Programs over the state *)

Definition F (A : Type) : Type := Prog i915 A.

Definition lift {A} (r : option A) : F A := fun s => a ← r; Some (a, s).
Definition get_bo (o : oid) : F bo := s ← gets objs; lift (s !! o).
Definition upd_bo (o : oid) (f : bo -> bo) : F unit := _ ← get_bo o; modify (fun s => set_objs (alter f o (objs s)) s).

(** What a wait on the chip returns; it succeeds once the answers are used up. *)
Definition next_answer : F (Z * list oid) := fun s =>
  match answers s with [] => Some ((0, []), s) | a :: l => Some (a, set_answers l s) end.

(** [list_move_tail] and [list_del_init]; a node that is on no list is linked to itself. *)
Definition list_del {A} `{EqDecision A} (x : A) (l : list A) : list A := filter (fun y => y <> x) l.
Definition move_tail {A} `{EqDecision A} (x : A) (l : list A) : list A := list_del x l ++ [x].

(** The seg_list that [devmap_unload] walks is not modelled. *)
Definition i915_gem_release_mmap (o : oid) : F unit := upd_bo o (set_gtt_mmap false).

Definition i915_gem_object_fence_lost (o : oid) : F unit :=
  b ← get_bo o;
  _ ← (if negb (tiling_mode b =? 0) then i915_gem_release_mmap o else mret tt);
  upd_bo o (fun b => set_fence_reg None (set_fence_dirty false b)).

Definition get_space (b : bo) : F drm_mm_node := m ← gets mm; lift (n ← gtt_space b; nodes m !! n).

(** What the writers of fence registers read of an object. *)
Definition to_fenced (b : bo) (nd : drm_mm_node) : fenced :=
  mk_fenced (gtt_offset b) (u32 (node_size nd)) (stride b) (tiling_mode b).

(** The barriers around the write order accesses, and have no counterpart here. *)
Definition i915_gem_write_fence (reg : nat) (obj : option oid) : F unit :=
  regs ← gets fence_regs;
  _ ← lift (regs !! reg);
  f ← (match obj with
       | None => mret None
       | Some o => b ← get_bo o; nd ← get_space b; mret (Some (to_fenced b nd))
       end);
  c ← gets info;
  ws ← lift (fence_writes c (Z.of_nat reg) f);
  modify (fun s => set_mmio (apply_writes ws (mmio s)) s).

Definition upd_fence (reg : nat) (f : fence -> fence) : F unit :=
  regs ← gets fence_regs;
  _ ← lift (regs !! reg);
  modify (fun s => set_fence_regs (alter f reg (fence_regs s)) s).

Definition i915_gem_object_update_fence (o : oid) (reg : nat) (enable : bool) : F unit :=
  _ ← i915_gem_write_fence reg (if enable then Some o else None);
  _ ← (if enable then
         _ ← upd_bo o (set_fence_reg (Some reg));
         _ ← upd_fence reg (fun r => mk_fence (Some o) (reg_pin_count r));
         modify (fun s => set_fence_list (move_tail reg (fence_list s)) s)
       else
         _ ← upd_bo o (set_fence_reg None);
         _ ← upd_fence reg (fun r => mk_fence None (reg_pin_count r));
         modify (fun s => set_fence_list (list_del reg (fence_list s)) s));
  upd_bo o (set_fence_dirty false).

(** [i915_wait_seqno] returns the next answer. *)
Definition i915_gem_object_wait_fence (o : oid) : F Z :=
  b ← get_bo o;
  ret ← (if negb (last_fenced_seqno b =? 0) then
           a ← next_answer;
           if negb (a.1 =? 0) then mret a.1
           else _ ← upd_bo o (set_last_fenced_seqno 0); mret 0
         else mret 0);
  if negb (ret =? 0) then mret ret
  else _ ← upd_bo o (set_fenced_gpu_access false); mret 0.

Definition i915_gem_object_put_fence (o : oid) : F Z :=
  ret ← i915_gem_object_wait_fence o;
  if negb (ret =? 0) then mret ret else
  b ← get_bo o;
  match fence_reg b with
  | None => mret 0
  | Some reg =>
      _ ← i915_gem_object_fence_lost o;
      _ ← i915_gem_object_update_fence o reg false;
      mret 0
  end.

(** The loop over the registers from [i] on, with [avail != NULL]. *)
Fixpoint find_free (regs : list fence) (i : nat) (avail : bool) : nat + bool :=
  match regs with
  | [] => inr avail
  | r :: regs =>
      match reg_obj r with
      | None => inl i
      | Some _ => find_free regs (S i) (avail || (reg_pin_count r =? 0))
      end
  end.

(** The loop over the registers in use, least recently used first. *)
Fixpoint find_lru (regs : list fence) (l : list nat) : option nat :=
  match l with
  | [] => None
  | i :: l =>
      match regs !! i with
      | Some r => if reg_pin_count r =? 0 then Some i else find_lru regs l
      | None => find_lru regs l
      end
  end.

Definition i915_find_fence_reg (s : i915) : option nat :=
  match find_free (drop (fence_reg_start s) (fence_regs s)) (fence_reg_start s) false with
  | inl reg => Some reg
  | inr false => None
  | inr true => find_lru (fence_regs s) (fence_list s)
  end.

(** The tail of [i915_gem_object_get_fence] after the register is chosen. *)
Definition take_fence (o : oid) (reg : nat) (enable : bool) : F Z :=
  _ ← i915_gem_object_update_fence o reg enable; mret 0.

Definition i915_gem_object_get_fence (o : oid) : F Z :=
  b ← get_bo o;
  let enable := negb (tiling_mode b =? I915_TILING_NONE) in
  let dirty := fence_dirty b in
  ret ← (if dirty then i915_gem_object_wait_fence o else mret 0);
  if negb (ret =? 0) then mret ret else
  match fence_reg b with
  | Some reg =>
      if negb dirty then
        _ ← modify (fun s => set_fence_list (move_tail reg (fence_list s)) s);
        mret 0
      else take_fence o reg enable
  | None =>
      if enable then
        found ← gets i915_find_fence_reg;
        match found with
        | None => mret (- EDEADLK)
        | Some reg =>
            regs ← gets fence_regs;
            r ← lift (regs !! reg);
            match reg_obj r with
            | Some old =>
                ret ← i915_gem_object_wait_fence old;
                if negb (ret =? 0) then mret ret else
                _ ← i915_gem_object_fence_lost old;
                take_fence o reg enable
            | None => take_fence o reg enable
            end
        end
      else mret 0
  end.

Definition i915_gem_object_pin_fence (o : oid) : F bool :=
  b ← get_bo o;
  match fence_reg b with
  | Some reg => _ ← upd_fence reg (fun r => mk_fence (reg_obj r) (reg_pin_count r + 1)); mret true
  | None => mret false
  end.

Definition i915_gem_object_unpin_fence (o : oid) : F unit :=
  b ← get_bo o;
  match fence_reg b with
  | Some reg => upd_fence reg (fun r => mk_fence (reg_obj r) (reg_pin_count r - 1))
  | None => mret tt
  end.

(** One round of the loop of [i915_gem_restore_fences]: a delayed change of tiling is
    committed, or a register without an object cleared. *)
Definition restore_one (i : nat) : F unit :=
  regs ← gets fence_regs;
  r ← lift (regs !! i);
  match reg_obj r with
  | Some o => b ← get_bo o; i915_gem_object_update_fence o i (negb (tiling_mode b =? 0))
  | None => i915_gem_write_fence i None
  end.

Fixpoint restore_loop (l : list nat) : F unit :=
  match l with [] => mret tt | i :: l => _ ← restore_one i; restore_loop l end.

Definition i915_gem_restore_fences : F unit :=
  n ← gets (fun s => length (fence_regs s));
  restore_loop (seq 0 n).

(** [I915_SETPARAM_NUM_USED_FENCES]: user space takes the first [value] registers. *)
Definition set_num_used_fences (value : Z) : F Z :=
  n ← gets (fun s => Z.of_nat (length (fence_regs s)));
  if (value >? n) || (value <? 0) then mret (- EINVAL)
  else _ ← modify (set_fence_reg_start (Z.to_nat value)); mret 0.
