(* ===== verification/Gtt.v ===== *)
(** * Binding of buffer objects to the aperture (i915_gem.c, i915_gem_evict.c,
    i915_gem_tiling.c, i915_gem_gtt.c)

    An object gets its place in the aperture from the range allocator; when there is no
    room, idle and then busy objects are evicted until the scan of the allocator says
    that the room is enough, and the allocation is tried again.  Objects are pinned where
    they are, and moved when their tiling changes.  The store of page table entries, the
    domains of CPU caches and the reference counts are not modelled. *)

From S2P Require Import Prelude MM Tiling Fence.

Open Scope Z_scope.

Definition E2BIG : Z := 7.

Definition I915_GEM_DOMAIN_GTT : Z := 0x40.
Definition I915_GEM_GPU_DOMAINS : Z := 0x3e.
Definition DRM_I915_GEM_OBJECT_MAX_PIN_COUNT : Z := 0xf.
Definition PAGE : Z := 4096.

(** A failed [BUG_ON] stops the machine. *)
Definition bug_on (b : bool) : F unit := if b then fail else mret tt.

(** A step of the range allocator of the aperture. *)
Definition on_mm {A} (f : drm_mm -> option (A * drm_mm)) : F A := fun s =>
  '(a, m) ← f (mm s); Some (a, set_mm m s).
Definition on_mm_ (f : drm_mm -> option drm_mm) : F unit := on_mm (fun m => m ← f m; Some (tt, m)).

(** ** Set-up *)

Definition i915_gtt_color_adjust : color_fn := fun look next node color r =>
  match look node with
  | Some nd =>
      let start := if negb (node_color nd =? color) then r.1 + 4096 else r.1 in
      match next node with
      | Some other =>
          match look other with
          | Some od => (start, if allocated od && negb (node_color od =? color) then r.2 - 4096 else r.2)
          | None => (start, r.2)
          end
      | None => (start, r.2)
      end
  | None => r
  end.

(** The allocator is set up over the aperture less a page; objects placed before, which
    [create_block] reserves, are not modelled. *)
Definition i915_gem_setup_global_gtt (c : chip) (old : drm_mm) (start end_ : Z) : drm_mm :=
  let m := drm_mm_init old start (end_ - start - PAGE) in
  if negb (has_llc c) then
    mk_mm (nodes m) (node_list m) (hole_stack m) (unused_nodes m) (num_unused m) (scan_check_range m)
      (scan_alignment m) (scan_color m) (scan_size m) (scan_hit_start m) (scan_hit_end m) (scanned_blocks m)
      (scan_start m) (scan_end m) (prev_scanned_node m) (Some i915_gtt_color_adjust)
  else m.

(** ** Pages and rendering *)

(** [get_pages] of the object's operations returns the next answer. *)
Definition i915_gem_object_get_pages (o : oid) : F Z :=
  b ← get_bo o;
  if has_pages b then mret 0 else
  _ ← bug_on (negb (pages_pin_count b =? 0));
  a ← next_answer;
  if negb (a.1 =? 0) then mret a.1 else
  _ ← upd_bo o (set_has_pages true);
  _ ← modify (fun s => set_unbound_list (unbound_list s ++ [o]) s);
  mret 0.

Definition i915_gem_object_pin_pages (o : oid) : F unit :=
  b ← get_bo o;
  _ ← bug_on (negb (has_pages b));
  upd_bo o (set_pages_pin_count (pages_pin_count b + 1)).

Definition i915_gem_object_unpin_pages (o : oid) : F unit :=
  b ← get_bo o;
  _ ← bug_on (pages_pin_count b =? 0);
  upd_bo o (set_pages_pin_count (pages_pin_count b - 1)).

Definition del_mm_list (o : oid) (s : i915) : i915 :=
  set_inactive_list (list_del o (inactive_list s)) (set_active_list (list_del o (active_list s)) s).

(** The sequence number is the ring's, never 0; the ring's own list and the reference the
    active list holds are not modelled. *)
Definition i915_gem_object_move_to_active (o : oid) (seqno : Z) : F unit :=
  _ ← upd_bo o (set_active true);
  _ ← modify (fun s => let s := del_mm_list o s in set_active_list (active_list s ++ [o]) s);
  _ ← upd_bo o (set_last_read_seqno seqno);
  b ← get_bo o;
  if fenced_gpu_access b then
    _ ← upd_bo o (set_last_fenced_seqno seqno);
    match fence_reg b with
    | Some reg => modify (fun s => set_fence_list (move_tail reg (fence_list s)) s)
    | None => mret tt
    end
  else mret tt.

Definition i915_gem_object_move_to_inactive (o : oid) : F unit :=
  b ← get_bo o;
  _ ← bug_on (negb (Z.land (write_domain b) (Z.lnot I915_GEM_GPU_DOMAINS) =? 0));
  _ ← bug_on (negb (active b));
  _ ← modify (fun s => let s := del_mm_list o s in set_inactive_list (inactive_list s ++ [o]) s);
  upd_bo o (fun b => set_active false (set_fenced_gpu_access false (set_last_fenced_seqno 0
    (set_write_domain 0 (set_last_read_seqno 0 b))))).

(** [i915_gem_retire_requests_ring]: the objects at hand that are still active. *)
Fixpoint retire (l : list oid) : F unit :=
  match l with
  | [] => mret tt
  | o :: l =>
      act ← gets active_list;
      _ ← (if bool_decide (o ∈ act) then i915_gem_object_move_to_inactive o else mret tt);
      retire l
  end.

(** A wait that succeeds has retired the object itself, and the others its answer tells. *)
Definition i915_gem_object_wait_rendering (o : oid) : F Z :=
  b ← get_bo o;
  if last_read_seqno b =? 0 then mret 0 else
  a ← next_answer;
  if negb (a.1 =? 0) then mret a.1 else
  _ ← retire (a.2 ++ [o]);
  _ ← upd_bo o (fun b => set_write_domain (Z.land (write_domain b) (Z.lnot I915_GEM_GPU_DOMAINS)) b);
  mret 0.

Definition i915_gem_object_finish_gpu (o : oid) : F Z :=
  b ← get_bo o;
  if Z.land (read_domains b) I915_GEM_GPU_DOMAINS =? 0 then mret 0 else
  ret ← i915_gem_object_wait_rendering o;
  if negb (ret =? 0) then mret ret else
  _ ← upd_bo o (fun b => set_read_domains (Z.land (read_domains b) (Z.lnot I915_GEM_GPU_DOMAINS)) b);
  mret 0.

Definition i915_gem_object_finish_gtt (o : oid) : F unit :=
  _ ← i915_gem_release_mmap o;
  b ← get_bo o;
  if Z.land (read_domains b) I915_GEM_DOMAIN_GTT =? 0 then mret tt else
  upd_bo o (fun b => set_read_domains (Z.land (read_domains b) (Z.lnot I915_GEM_DOMAIN_GTT))
    (set_write_domain (Z.land (write_domain b) (Z.lnot I915_GEM_DOMAIN_GTT)) b)).

(** ** Unbinding *)

Definition i915_gem_object_unbind (o : oid) : F Z :=
  b ← get_bo o;
  match gtt_space b with
  | None => mret 0
  | Some space =>
      if negb (pin_count b =? 0) then mret (- EBUSY) else
      _ ← bug_on (negb (has_pages b));
      ret ← i915_gem_object_finish_gpu o;
      if negb (ret =? 0) then mret ret else
      _ ← i915_gem_object_finish_gtt o;
      ret ← i915_gem_object_put_fence o;
      if negb (ret =? 0) then mret ret else
      b ← get_bo o;
      _ ← (if has_global_gtt_mapping b then upd_bo o (set_has_global_gtt_mapping false) else mret tt);
      _ ← i915_gem_object_unpin_pages o;
      _ ← modify (fun s => let s := del_mm_list o s in
        set_unbound_list (list_del o (unbound_list s) ++ [o]) (set_bound_list (list_del o (bound_list s)) s));
      _ ← upd_bo o (set_map_and_fenceable true);
      _ ← on_mm_ (fun m => drm_mm_put_block m space);
      _ ← upd_bo o (fun b => set_gtt_offset 0 (set_gtt_space None b));
      mret 0
  end.

(** ** Eviction *)

(** [mark_free]: the object is put at the head of the unwind list. *)
Definition mark_free (o : oid) (unwind : list oid) : F (bool * list oid) :=
  b ← get_bo o;
  if negb (pin_count b =? 0) then mret (false, unwind) else
  n ← lift (gtt_space b);
  r ← on_mm (fun m => drm_mm_scan_add_block m n);
  mret (negb (r =? 0), o :: unwind).

(** The two loops over the lists of objects. *)
Fixpoint mark_loop (l : list oid) (unwind : list oid) : F (bool * list oid) :=
  match l with
  | [] => mret (false, unwind)
  | o :: l => '(found, unwind) ← mark_free o unwind;
              if found : bool then mret (true, unwind) else mark_loop l unwind
  end.

(** First the idle objects, then the busy ones. *)
Definition mark_all (nonblocking : bool) : F (bool * list oid) :=
  l ← gets inactive_list;
  '(found, unwind) ← mark_loop l [];
  if found : bool then mret (true, unwind)
  else if nonblocking then mret (false, unwind)
  else l ← gets active_list; mark_loop l unwind.

(** Clean up after a scan that found nothing. *)
Fixpoint unwind_none (unwind : list oid) : F unit :=
  match unwind with
  | [] => mret tt
  | o :: unwind =>
      b ← get_bo o;
      n ← lift (gtt_space b);
      ret ← on_mm (fun m => drm_mm_scan_remove_block m n);
      _ ← bug_on (negb (ret =? 0));
      unwind_none unwind
  end.

(** Clean up after a scan that found room; the blocks to evict go to the head of the
    eviction list. *)
Fixpoint unwind_found (unwind eviction : list oid) : F (list oid) :=
  match unwind with
  | [] => mret eviction
  | o :: unwind =>
      b ← get_bo o;
      n ← lift (gtt_space b);
      ret ← on_mm (fun m => drm_mm_scan_remove_block m n);
      unwind_found unwind (if negb (ret =? 0) then o :: eviction else eviction)
  end.

Fixpoint evict_loop (eviction : list oid) (ret : Z) : F Z :=
  match eviction with
  | [] => mret ret
  | o :: eviction =>
      ret ← (if ret =? 0 then i915_gem_object_unbind o else mret ret);
      evict_loop eviction ret
  end.

Definition i915_gem_evict_something (min_size alignment cache_level : Z) (mappable nonblocking : bool) : F Z :=
  lim ← gets mappable_end;
  _ ← on_mm_ (fun m => Some (if mappable then drm_mm_init_scan_with_range m (u64 min_size) alignment cache_level 0 lim
                             else drm_mm_init_scan m (u64 min_size) alignment cache_level));
  '(found, unwind) ← mark_all nonblocking;
  if found : bool then
    eviction ← unwind_found unwind [];
    evict_loop eviction 0
  else
    _ ← unwind_none unwind;
    mret (- ENOSPC).

(** The walk of [list_for_each_entry_safe]; the node after the current one may leave the
    list while the current object is unbound, which the pins and the empty active list
    exclude in the callers. *)
Fixpoint unbind_all (l : list oid) : F unit :=
  match l with
  | [] => mret tt
  | o :: l =>
      b ← get_bo o;
      _ ← (if pin_count b =? 0 then i915_gem_object_unbind o else mret 0);
      unbind_all l
  end.

(** [i915_gpu_idle] returns the next answer; then everything has been rendered. *)
Definition i915_gem_evict_everything : F Z :=
  inact ← gets inactive_list;
  act ← gets active_list;
  if bool_decide (inact = [] /\ act = []) then mret (- ENOSPC) else
  a ← next_answer;
  if negb (a.1 =? 0) then mret a.1 else
  _ ← retire act;
  l ← gets inactive_list;
  _ ← unbind_all l;
  mret 0.

(** ** Binding *)

Definition i915_gem_valid_gtt_space (n : nid) (cache_level : Z) : F bool :=
  c ← gets info;
  if has_llc c then mret true else
  m ← gets mm;
  nd ← lift (nodes m !! n);
  prev ← lift (prev_node m n);
  pd ← lift (nodes m !! prev);
  if allocated pd && negb (hole_follows pd) && negb (node_color pd =? cache_level) then mret false else
  next ← lift (next_node m n);
  xd ← lift (nodes m !! next);
  mret (negb (allocated xd && negb (hole_follows nd) && negb (node_color xd =? cache_level))).

(** What [bind_to_gtt] asks of the allocator. *)
Record request := mk_request {
  rq_size : Z; rq_alignment : Z; rq_fence_size : Z; rq_fence_alignment : Z; rq_max : Z }.

(** The sizes and alignments, and the checks before the pages are taken: an error, or the
    request.  [None] when the size loop does not end. *)
Definition bind_request (c : chip) (lim total : Z) (b : bo) (alignment : Z) (map_and_fenceable : bool)
    : option (Z + request) :=
  let gtt_max := if map_and_fenceable then lim else total in
  fence_size ← i915_gem_get_gtt_size c (u32 (base_size b)) (tiling_mode b);
  fence_alignment ← i915_gem_get_gtt_alignment c (u32 (base_size b)) (tiling_mode b) true;
  unfenced_alignment ← i915_gem_get_gtt_alignment c (u32 (base_size b)) (tiling_mode b) false;
  let alignment :=
    if alignment =? 0 then (if map_and_fenceable then fence_alignment else unfenced_alignment) else alignment in
  if map_and_fenceable && negb (Z.land alignment (u32 (fence_alignment - 1)) =? 0) then Some (inl (- EINVAL)) else
  let size := if map_and_fenceable then fence_size else u32 (base_size b) in
  if base_size b >? gtt_max then Some (inl (- E2BIG)) else
  Some (inr (mk_request size alignment fence_size fence_alignment gtt_max)).

(** The loop at [search_free]: the node is allocated, or the eviction fails.  [None] when
    the fuel runs out. *)
Fixpoint search_free (fuel : nat) (node : nid) (rq : request) (cache_level : Z)
    (map_and_fenceable nonblocking : bool) : F Z :=
  ret ← on_mm (fun m => drm_mm_insert_node_in_range_generic m node (rq_size rq) (rq_alignment rq) cache_level 0 (rq_max rq));
  if ret =? 0 then mret 0 else
  ret ← i915_gem_evict_something (s32 (rq_size rq)) (rq_alignment rq) cache_level map_and_fenceable nonblocking;
  if ret =? 0 then
    match fuel with
    | O => fail
    | S fuel => search_free fuel node rq cache_level map_and_fenceable nonblocking
    end
  else mret ret.

(** [kz] is the node kzalloc returns. *)
Definition i915_gem_object_bind_to_gtt (fuel : nat) (o : oid) (alignment : Z) (map_and_fenceable nonblocking : bool)
    (kz : option nid) : F Z :=
  b ← get_bo o;
  c ← gets info;
  lim ← gets mappable_end;
  total ← gets gtt_total;
  rq ← lift (bind_request c lim total b alignment map_and_fenceable);
  match rq with
  | inl ret => mret ret
  | inr rq =>
      ret ← i915_gem_object_get_pages o;
      if negb (ret =? 0) then mret ret else
      _ ← i915_gem_object_pin_pages o;
      match kz with
      | None => _ ← i915_gem_object_unpin_pages o; mret (- ENOMEM)
      | Some node =>
          _ ← on_mm_ (fun m => Some (with_nodes (<[node := zero_node]> (nodes m)) m));
          ret ← search_free fuel node rq (cache_level b) map_and_fenceable nonblocking;
          if negb (ret =? 0) then
            _ ← i915_gem_object_unpin_pages o;
            _ ← on_mm_ (fun m => Some (with_nodes (delete node (nodes m)) m));
            mret ret
          else
          ok ← i915_gem_valid_gtt_space node (cache_level b);
          if negb ok then
            _ ← i915_gem_object_unpin_pages o;
            _ ← on_mm_ (fun m => drm_mm_put_block m node);
            mret (- EINVAL)
          else
          _ ← modify (fun s => set_bound_list (list_del o (bound_list s) ++ [o])
            (set_unbound_list (list_del o (unbound_list s)) s));
          _ ← modify (fun s => set_inactive_list (inactive_list s ++ [o]) s);
          m ← gets mm;
          nd ← lift (nodes m !! node);
          let fenceable := (node_size nd =? rq_fence_size rq) &&
            (Z.land (node_start nd) (u32 (rq_fence_alignment rq - 1)) =? 0) in
          let mappable := u32 (node_start nd) + base_size b <=? lim in
          _ ← upd_bo o (fun b => set_map_and_fenceable (mappable && fenceable)
            (set_gtt_offset (u32 (node_start nd)) (set_gtt_space (Some node) b)));
          mret 0
      end
  end.

(** ** Pinning *)

(** There is no aliasing page table here: a bound object is mapped in the aperture. *)
Definition i915_gem_object_pin (fuel : nat) (o : oid) (alignment : Z) (map_and_fenceable' nonblocking : bool)
    (kz : option nid) : F Z :=
  b ← get_bo o;
  if pin_count b =? DRM_I915_GEM_OBJECT_MAX_PIN_COUNT then mret (- EBUSY) else
  ret ← (match gtt_space b with
         | Some _ =>
             if (negb (alignment =? 0) && negb (Z.land (gtt_offset b) (u32 (alignment - 1)) =? 0)) ||
                (map_and_fenceable' && negb (map_and_fenceable b))
             then i915_gem_object_unbind o else mret 0
         | None => mret 0
         end);
  if negb (ret =? 0) then mret ret else
  b ← get_bo o;
  ret ← (match gtt_space b with
         | None =>
             ret ← i915_gem_object_bind_to_gtt fuel o alignment map_and_fenceable' nonblocking kz;
             if negb (ret =? 0) then mret ret
             else _ ← upd_bo o (set_has_global_gtt_mapping true); mret 0
         | Some _ => mret 0
         end);
  if negb (ret =? 0) then mret ret else
  b ← get_bo o;
  _ ← (if negb (has_global_gtt_mapping b) && map_and_fenceable' then upd_bo o (set_has_global_gtt_mapping true) else mret tt);
  _ ← upd_bo o (fun b => set_pin_mappable (pin_mappable b || map_and_fenceable') (set_pin_count (pin_count b + 1) b));
  mret 0.

Definition i915_gem_object_unpin (o : oid) : F unit :=
  b ← get_bo o;
  _ ← bug_on (pin_count b =? 0);
  _ ← bug_on (bool_decide (gtt_space b = None));
  _ ← upd_bo o (set_pin_count (pin_count b - 1));
  if pin_count b - 1 =? 0 then upd_bo o (set_pin_mappable false) else mret tt.

(** The ioctls, for the object the handle names; [file] is the caller.  The result has
    the offset that is reported. *)
Definition i915_gem_pin_ioctl (fuel : nat) (file : nat) (o : oid) (alignment : Z) (kz : option nid) : F (Z * option Z) :=
  b ← get_bo o;
  if (match pin_filp b with Some f => negb (f =? file)%nat | None => false end) then mret (- EINVAL, None) else
  let user := u32 (user_pin_count b + 1) in
  _ ← upd_bo o (fun b => set_pin_filp (Some file) (set_user_pin_count user b));
  ret ← (if user =? 1 then i915_gem_object_pin fuel o (u32 alignment) true false kz else mret 0);
  if negb (ret =? 0) then mret (ret, None) else
  b ← get_bo o;
  mret (0, Some (gtt_offset b)).

Definition i915_gem_unpin_ioctl (file : nat) (o : oid) : F Z :=
  b ← get_bo o;
  if bool_decide (pin_filp b <> Some file) then mret (- EINVAL) else
  let user := u32 (user_pin_count b - 1) in
  _ ← upd_bo o (set_user_pin_count user);
  if user =? 0 then
    _ ← upd_bo o (set_pin_filp None);
    _ ← i915_gem_object_unpin o;
    mret 0
  else mret 0.

(** ** Tiling *)

(** The mode, stride and swizzling asked for: bit 17 is hidden from the user, and an
    unknown swizzling makes the object untiled. *)
Definition tiling_request (swizzle : Z * Z) (tiling stride : Z) : Z * Z * Z :=
  if tiling =? I915_TILING_NONE then (tiling, 0, I915_BIT_6_SWIZZLE_NONE) else
  let swizzle_mode := if tiling =? I915_TILING_X then swizzle.1 else swizzle.2 in
  let swizzle_mode := if swizzle_mode =? I915_BIT_6_SWIZZLE_9_17 then I915_BIT_6_SWIZZLE_9 else swizzle_mode in
  let swizzle_mode := if swizzle_mode =? I915_BIT_6_SWIZZLE_9_10_17 then I915_BIT_6_SWIZZLE_9_10 else swizzle_mode in
  if swizzle_mode =? I915_BIT_6_SWIZZLE_UNKNOWN then (I915_TILING_NONE, 0, I915_BIT_6_SWIZZLE_NONE)
  else (tiling, stride, swizzle_mode).

(** The arguments and the result are 32 bits wide; the mode of the object has two bits.
    The record of bit 17 is in Tiling.v. *)
Definition i915_gem_set_tiling (o : oid) (tiling stride' : Z) : F (Z * (Z * Z * Z)) :=
  b ← get_bo o;
  c ← gets info;
  sw ← gets bit_6_swizzle;
  if negb (i915_tiling_ok c stride' (base_size b) tiling) then mret (- EINVAL, (tiling, stride', 0)) else
  if negb (pin_count b =? 0) then mret (- EBUSY, (tiling, stride', 0)) else
  let '(tiling, stride', swizzle_mode) := tiling_request sw tiling stride' in
  ret ← (if negb (tiling =? tiling_mode b) || negb (stride' =? stride b) then
           lim ← gets mappable_end;
           ok ← (match gtt_space b with
                 | None => mret true
                 | Some _ =>
                     if gtt_offset b + base_size b <=? lim then
                       nd ← get_space b;
                       lift (i915_gem_object_fence_ok c (gtt_offset b) (node_size nd) (base_size b) tiling)
                     else mret false
                 end);
           _ ← upd_bo o (set_map_and_fenceable ok);
           ret ← (if negb ok then
                    unfenced_alignment ← lift (i915_gem_get_gtt_alignment c (u32 (base_size b)) tiling false);
                    if negb (Z.land (gtt_offset b) (u32 (unfenced_alignment - 1)) =? 0)
                    then i915_gem_object_unbind o else mret 0
                  else mret 0);
           if ret =? 0 then
             _ ← upd_bo o (fun b => set_stride stride' (set_tiling_mode (Z.land tiling 3)
               (set_fence_dirty (fenced_gpu_access b || bool_decide (fence_reg b <> None)) b)));
             _ ← i915_gem_release_mmap o;
             mret 0
           else mret ret
         else mret 0);
  b ← get_bo o;
  mret (ret, (tiling_mode b, stride b, swizzle_mode)).

(** The swizzling for an unknown mode is what the caller passed. *)
Definition i915_gem_get_tiling (o : oid) (swizzle_in : Z) : F (Z * Z) :=
  b ← get_bo o;
  sw ← gets bit_6_swizzle;
  let swizzle_mode :=
    if tiling_mode b =? I915_TILING_X then sw.1
    else if tiling_mode b =? I915_TILING_Y then sw.2
    else if tiling_mode b =? I915_TILING_NONE then I915_BIT_6_SWIZZLE_NONE
    else swizzle_in in
  let swizzle_mode := if swizzle_mode =? I915_BIT_6_SWIZZLE_9_17 then I915_BIT_6_SWIZZLE_9 else swizzle_mode in
  let swizzle_mode := if swizzle_mode =? I915_BIT_6_SWIZZLE_9_10_17 then I915_BIT_6_SWIZZLE_9_10 else swizzle_mode in
  mret (tiling_mode b, swizzle_mode).

(** ** Life of the driver and of an object *)

Definition I915_GEM_DOMAIN_CPU : Z := 1.
Definition I915_CACHE_NONE : Z := 0.
Definition I915_CACHE_LLC : Z := 1.

(** How many fence registers there are; [i945] is [IS_I945G] or [IS_I945GM]. *)
Definition num_fence_regs (c : chip) (i945 : bool) : nat :=
  if (7 <=? gen c) && negb (is_valleyview c) then 32%nat
  else if (4 <=? gen c) || i945 || is_g33 c then 16%nat
  else 8%nat.

(** The lists and the fence registers; the work queues and timers are not modelled. *)
Definition i915_gem_load (modeset i945 : bool) : F unit :=
  c ← gets info;
  _ ← modify (fun s => set_active_list [] (set_inactive_list [] (set_unbound_list [] (set_bound_list []
    (set_fence_list [] s)))));
  _ ← (if negb modeset then modify (set_fence_reg_start 3) else mret tt);
  _ ← modify (set_fence_regs (repeat (mk_fence None 0) (num_fence_regs c i945)));
  i915_gem_restore_fences.

(** A new object: no pages, no place, in the CPU's domains. *)
Definition i915_gem_alloc_object (c : chip) (size : Z) : bo :=
  mk_bo size I915_TILING_NONE 0 None 0 true 0 false 0 None None false false 0 0 false
    I915_GEM_DOMAIN_CPU I915_GEM_DOMAIN_CPU (if has_llc c then I915_CACHE_LLC else I915_CACHE_NONE) false 0 false false.

(** One round of the loop of [i915_gem_execbuffer_move_to_active]: the domains the batch
    asks for, and the list of busy objects; the last write is not modelled. *)
Definition i915_gem_execbuffer_move_to_active (o : oid) (pending_read_domains pending_write_domain : Z)
    (pending_fenced_gpu_access : bool) (seqno : Z) : F unit :=
  _ ← upd_bo o (set_write_domain pending_write_domain);
  _ ← upd_bo o (fun b => set_read_domains
    (if pending_write_domain =? 0 then Z.lor pending_read_domains (read_domains b) else pending_read_domains) b);
  _ ← upd_bo o (set_fenced_gpu_access pending_fenced_gpu_access);
  i915_gem_object_move_to_active o seqno.
