(* ===== verification/GttInv.v ===== *)
(** * Aperture and fences: the invariant

    What holds between the operations of Fence.v and Gtt.v, and how it is kept by the
    updates they are made of: every bound object has its block of the range allocator, no
    two the same; a fence register and the object that owns it name each other; and what
    a register says in the hardware lies over the block of its owner. *)

From S2P Require Import Prelude MM MMInv MMAlloc MMFree MMBlocks Tiling TilingFacts Fence Gtt.

Open Scope Z_scope.

(** ** Programs *)

Definition put_bo (o : oid) (b : bo) (s : i915) : i915 := set_objs (<[o := b]> (objs s)) s.

Lemma wp_get_bo o b Q s : objs s !! o = Some b -> Q b s -> wp (get_bo o) Q s.
Proof. intros E HQ. unfold get_bo. rewrite wp_bind, wp_gets. unfold wp, lift. by rewrite E. Qed.

Lemma wp_upd_bo o b f Q s : objs s !! o = Some b -> Q tt (put_bo o (f b) s) -> wp (upd_bo o f) Q s.
Proof.
  intros E HQ. unfold upd_bo. rewrite wp_bind. apply (wp_get_bo o b); [done|]. rewrite wp_modify.
  unfold put_bo in HQ. assert (alter f o (objs s) = <[o := f b]> (objs s)) as ->; [|done].
  apply map_eq. intros k. destruct (decide (k = o)) as [->|Hk].
  - by rewrite lookup_alter_eq, E, lookup_insert_eq.
  - by rewrite lookup_alter_ne, lookup_insert_ne.
Qed.

Lemma wp_lift {A} (r : option A) Q s : wp (lift r) Q s <-> exists a, r = Some a /\ Q a s.
Proof. unfold wp, lift. destruct r; simpl; naive_solver. Qed.

Lemma wp_lift_some {A} (a : A) r Q s : r = Some a -> Q a s -> wp (lift r) Q s.
Proof. intros. apply wp_lift. eauto. Qed.

Lemma wp_on_mm {A} (f : drm_mm -> option (A * drm_mm)) Q s :
  wp (on_mm f) Q s <-> exists a m, f (mm s) = Some (a, m) /\ Q a (set_mm m s).
Proof.
  unfold wp, on_mm. destruct (f (mm s)) as [[a m]|]; simpl; [|naive_solver].
  split; [eauto|]. by intros (? & ? & [= -> ->] & ?).
Qed.

Lemma wp_on_mm_ f Q s : wp (on_mm_ f) Q s <-> exists m, f (mm s) = Some m /\ Q tt (set_mm m s).
Proof.
  unfold on_mm_. rewrite wp_on_mm. destruct (f (mm s)) as [m|]; simpl; [|naive_solver].
  split; [|by intros (? & [= ->] & ?); eauto]. intros (? & ? & [= <- <-] & ?). eauto.
Qed.

Lemma wp_bug_on b Q s : b = false -> Q tt s -> wp (bug_on b) Q s.
Proof. by intros ->. Qed.

Lemma wp_next_answer Q s :
  (forall a l, Q a (set_answers l s)) -> wp next_answer Q s.
Proof.
  intros HQ. unfold wp, next_answer. destruct (answers s) as [|a l] eqn:E; [|apply HQ].
  specialize (HQ (0, []) []). rewrite <-E in HQ. by destruct s.
Qed.

(** ** Objects *)

(** What the aperture and the lists know of an object, and what the fences know. *)
Record bo_like (b b' : bo) : Prop := {
  sm_size : base_size b' = base_size b;
  sm_tiling : tiling_mode b' = tiling_mode b /\ stride b' = stride b;
  sm_place : gtt_space b' = gtt_space b /\ gtt_offset b' = gtt_offset b;
  sm_maf : map_and_fenceable b' = map_and_fenceable b;
  sm_pin : pin_count b' = pin_count b;
  sm_pages : has_pages b' = has_pages b /\ pages_pin_count b' = pages_pin_count b;
  sm_active : active b' = active b;
  sm_wd : Z.land (write_domain b) (Z.lnot I915_GEM_GPU_DOMAINS) = 0 ->
    Z.land (write_domain b') (Z.lnot I915_GEM_GPU_DOMAINS) = 0;
  sm_gpu : active b = true -> last_read_seqno b' = last_read_seqno b /\
    Z.land (read_domains b') I915_GEM_GPU_DOMAINS = Z.land (read_domains b) I915_GEM_GPU_DOMAINS }.

Definition bo_same (b b' : bo) : Prop :=
  bo_like b b' /\ fence_reg b' = fence_reg b /\ fence_dirty b' = fence_dirty b.

#[global] Instance bo_like_preorder : PreOrder bo_like.
Proof.
  split; [by split|]. intros a b c [A1 [A2 A3] [A4 A5] A6 A7 [A8 A9] A10 A11 A12] [B1 [B2 B3] [B4 B5] B6 B7 [B8 B9] B10 B11 B12].
  split; try split; try congruence; auto; destruct (A12 H) as [? ?], B12 as [? ?]; congruence.
Qed.

#[global] Instance bo_same_preorder : PreOrder bo_same.
Proof.
  split; [by split|]. intros a b c (A & A1 & A2) (B & B1 & B2). split; [by transitivity b|]. split; congruence.
Qed.

(** The limits of the machine: the ranges of the aperture of the chips. *)
Record cfg := mk_cfg { c_chip : chip; c_lim : Z; c_total : Z; c_start : Z; c_end : Z }.
Record cfg_ok (g : cfg) : Prop := {
  cf_gen : 2 <= gen (c_chip g) <= 7;
  cf_range : 0 <= c_start g < c_end g /\ c_end g <= c_total g;
  cf_total : c_total g <= 2 ^ 31 /\ c_end g < 2 ^ 31;
  cf_lim : 0 <= c_lim g <= c_total g;
  cf_old : (gen (c_chip g) = 3 -> c_lim g <= 2 ^ 28) /\ (gen (c_chip g) = 2 -> c_lim g <= 2 ^ 27) }.

(** The place satisfies the chip's rules for a tiled object. *)
Definition fence_place (c : chip) (b : bo) (space_size : Z) : Prop :=
  i915_gem_object_fence_ok c (gtt_offset b) space_size (base_size b) I915_TILING_X = Some true.

(** A bound object and its block. *)
Record bound_ok (g : cfg) (m : drm_mm) (b : bo) (n : nid) : Prop := {
  bd_in : n ∈ node_list m;
  bd_offset : gtt_offset b = block_start m n;
  bd_size : base_size b <= node_size (get m n);
  bd_page : (4096 | gtt_offset b) /\ (4096 | node_size (get m n));
  bd_pages : has_pages b = true /\ 0 < pages_pin_count b;
  bd_maf : map_and_fenceable b = true -> tiling_mode b <> I915_TILING_NONE ->
    fence_place (c_chip g) b (node_size (get m n));
  bd_fence : fence_reg b <> None -> fence_place (c_chip g) b (node_size (get m n)) }.

Record bo_ok (g : cfg) (m : drm_mm) (b : bo) : Prop := {
  bk_size : 0 < base_size b <= 2 ^ 31 /\ (4096 | base_size b);
  bk_stride : 0 <= stride b < 2 ^ 32;
  bk_tiling : 0 <= tiling_mode b < 4 /\ (tiling_mode b <> I915_TILING_NONE ->
    i915_tiling_ok (c_chip g) (stride b) (base_size b) (tiling_mode b) = true);
  bk_pin : 0 <= pin_count b <= 15;
  bk_pages : 0 <= pages_pin_count b /\ (has_pages b = false -> pages_pin_count b = 0);
  bk_wd : active b = true -> Z.land (write_domain b) (Z.lnot I915_GEM_GPU_DOMAINS) = 0;
  bk_gpu : active b = true -> last_read_seqno b <> 0 /\ Z.land (read_domains b) I915_GEM_GPU_DOMAINS <> 0;
  bk_bound : forall n, gtt_space b = Some n -> bound_ok g m b n;
  bk_free : gtt_space b = None -> pin_count b = 0 /\ fence_reg b = None /\ active b = false }.

Lemma bo_ok_like g m b b' : bo_like b b' -> bo_ok g m b ->
  (gtt_space b = None -> fence_reg b' = None) ->
  (fence_reg b' <> None -> forall n, gtt_space b = Some n -> fence_place (c_chip g) b (node_size (get m n))) ->
  bo_ok g m b'.
Proof.
  intros [E1 [E2 E3] [E4 E5] E6 E7 [E10 E11] E12 E13 E14] [K1 K2 K3 K4 K5 K6 Kg K7 K8] Hfn Hfp.
  split; rewrite ?E1, ?E2, ?E3, ?E4, ?E5, ?E6, ?E7, ?E10, ?E11, ?E12; auto.
  - intros Ha. destruct (E14 Ha) as [-> ->]. auto.
  - intros n Hn. destruct (K7 n Hn) as [B1 B2 B3 B4 B5 B6 B7].
    split; unfold fence_place in *; rewrite ?E1, ?E2, ?E4, ?E5, ?E6, ?E10, ?E11; auto.
  - intros Hn. destruct (K8 Hn) as (? & ? & ?). auto.
Qed.

Lemma bo_ok_same g m b b' : bo_same b b' -> bo_ok g m b -> bo_ok g m b'.
Proof.
  intros (Hl & E & _) Hb. apply (bo_ok_like g m b); try done.
  - intros Hn. rewrite E. by destruct (bk_free _ _ _ Hb Hn) as (_ & ? & _).
  - intros Hf n Hn. apply (bd_fence _ _ _ _ (bk_bound _ _ _ Hb n Hn)). congruence.
Qed.

(** ** The state *)

(** The objects, their blocks and the lists they are on. *)
Record place_ok (g : cfg) (s : i915) : Prop := {
  p_cfg : cfg_ok g /\ info s = c_chip g /\ mappable_end s = c_lim g /\ gtt_total s = c_total g;
  p_mm : mm_wf (mm s) (c_start g) (c_end g) /\ color_narrows (mm s);
  p_bo : forall o b, objs s !! o = Some b -> bo_ok g (mm s) b;
  p_inj : forall o o' b b' n, objs s !! o = Some b -> objs s !! o' = Some b' ->
    gtt_space b = Some n -> gtt_space b' = Some n -> o = o';
  p_nodup : NoDup (inactive_list s ++ active_list s);
  p_lists : forall o, o ∈ inactive_list s ++ active_list s <->
    exists b, objs s !! o = Some b /\ gtt_space b <> None;
  p_active : forall o, o ∈ active_list s <-> exists b, objs s !! o = Some b /\ active b = true }.

(** The region a register shows in the hardware. *)
Definition fence_shows (s : i915) (r : nat) : option region :=
  decode_fence (info s) (fence_hw (info s) (Z.of_nat r) (mmio s)).

Definition shows_owner (s : i915) (b : bo) (rg : region) : Prop :=
  exists n, gtt_space b = Some n /\
    r_start rg = gtt_offset b /\ r_end rg = gtt_offset b + node_size (get (mm s) n) /\
    (fence_dirty b = false -> rg = region_of (to_fenced b (get (mm s) n))).

(** The fence registers and their owners. *)
Record fence_ok (s : i915) : Prop := {
  f_len : (length (fence_regs s) <= 32)%nat;
  f_own : forall r fr o, fence_regs s !! r = Some fr -> reg_obj fr = Some o ->
    exists b, objs s !! o = Some b /\ fence_reg b = Some r;
  f_has : forall o b r, objs s !! o = Some b -> fence_reg b = Some r ->
    exists fr, fence_regs s !! r = Some fr /\ reg_obj fr = Some o;
  f_list : NoDup (fence_list s) /\
    forall r, r ∈ fence_list s <-> exists fr, fence_regs s !! r = Some fr /\ reg_obj fr <> None;
  f_pin : forall r fr, fence_regs s !! r = Some fr -> 0 <= reg_pin_count fr }.

(** The hardware agrees, for the registers below [lo]. *)
Definition hw_ok (lo : nat) (s : i915) : Prop :=
  forall r fr, (r < lo)%nat -> fence_regs s !! r = Some fr ->
    match reg_obj fr with
    | None => fence_shows s r = None
    | Some o => forall b, objs s !! o = Some b -> exists rg, fence_shows s r = Some rg /\ shows_owner s b rg
    end.

(** The invariant; while the registers are being restored the hardware agrees below [lo]. *)
Record gtt_upto (lo : nat) (g : cfg) (s : i915) : Prop := {
  ok_place : place_ok g s;
  ok_fence : fence_ok s;
  ok_hw : hw_ok lo s }.
Arguments ok_place {lo}. Arguments ok_fence {lo}. Arguments ok_hw {lo}.

Abbreviation gtt_ok := (gtt_upto 32).

(** ** Updates of parts that matter to none of it *)

(** The parts the invariant looks at, other than the objects. *)
Definition same_rest (s s' : i915) : Prop :=
  info s' = info s /\ mappable_end s' = mappable_end s /\ gtt_total s' = gtt_total s /\ mm s' = mm s /\
  inactive_list s' = inactive_list s /\ active_list s' = active_list s /\
  fence_regs s' = fence_regs s /\ fence_list s' = fence_list s /\ mmio s' = mmio s.

Lemma gtt_ok_rest g s s' : same_rest s s' -> objs s' = objs s -> gtt_ok g s -> gtt_ok g s'.
Proof.
  intros (E1 & E2 & E3 & E4 & E5 & E6 & E7 & E8 & E9) Eo [[P1 P2 P3 P4 P5 P6 P7] [F1 F2 F3 F4 F5] H].
  split; [split|split|]; try (rewrite ?E1, ?E2, ?E3, ?E4, ?E5, ?E6, ?E7, ?E8, ?E9, ?Eo; done).
  unfold hw_ok, fence_shows, shows_owner in *. rewrite E1, E4, E7, E9, Eo. done.
Qed.

Lemma put_bo_objs o b s k : objs (put_bo o b s) !! k = if decide (k = o) then Some b else objs s !! k.
Proof. simpl. case_decide as E; [subst; apply lookup_insert_eq|by rewrite lookup_insert_ne]. Qed.

(** An object changed where it is: what its fence register says of it holds still, or the
    object says that it does not. *)
Lemma put_change g s o b b' : gtt_ok g s -> objs s !! o = Some b -> bo_ok g (mm s) b' ->
  gtt_space b' = gtt_space b -> gtt_offset b' = gtt_offset b -> active b' = active b -> fence_reg b' = fence_reg b ->
  (fence_reg b <> None -> fence_dirty b' = false -> fence_dirty b = false /\
     base_size b' = base_size b /\ tiling_mode b' = tiling_mode b /\ stride b' = stride b) ->
  gtt_ok g (put_bo o b' s).
Proof.
  intros [[P1 P2 P3 P4 P5 P6 P7] [F1 F2 F3 F4 F5] H] Eo Hb' Es Eof Ea Ef Ed.
  assert (forall k b0', objs (put_bo o b' s) !! k = Some b0' -> exists b0, objs s !! k = Some b0 /\
    gtt_space b0' = gtt_space b0 /\ active b0' = active b0 /\ fence_reg b0' = fence_reg b0 /\ (k <> o -> b0' = b0)) as Hback.
  { intros k b0'. rewrite put_bo_objs. case_decide as E; [intros [= <-]; subst; by exists b|intros E0; by exists b0']. }
  assert (forall k b0, objs s !! k = Some b0 -> exists b0', objs (put_bo o b' s) !! k = Some b0' /\
    gtt_space b0' = gtt_space b0 /\ active b0' = active b0 /\ fence_reg b0' = fence_reg b0) as Hfwd.
  { intros k b0 E0. rewrite put_bo_objs. case_decide as E; [subst; exists b'; split_and!; congruence|by exists b0]. }
  split; [split|split|]; try done.
  - intros k b0'. rewrite put_bo_objs. case_decide; [by intros [= <-]|apply P3].
  - intros k k' c c' n (c0 & E0 & S0 & _)%Hback (c0' & E0' & S0' & _)%Hback G G'.
    apply (P4 k k' c0 c0' n); try done; congruence.
  - intros k. change (inactive_list (put_bo o b' s) ++ active_list (put_bo o b' s)) with (inactive_list s ++ active_list s).
    rewrite P6. split; intros (c & E & G).
    + destruct (Hfwd k c E) as (c' & E' & S' & _). exists c'. split; congruence.
    + destruct (Hback k c E) as (c' & E' & S' & _). exists c'. split; congruence.
  - intros k. change (active_list (put_bo o b' s)) with (active_list s). rewrite P7. split; intros (c & E & G).
    + destruct (Hfwd k c E) as (c' & E' & _ & S' & _). exists c'. split; congruence.
    + destruct (Hback k c E) as (c' & E' & _ & S' & _). exists c'. split; congruence.
  - intros r fr k Hr Hk. destruct (F2 r fr k Hr Hk) as (c & E & G). destruct (Hfwd k c E) as (c' & E' & _ & _ & S').
    exists c'. split; congruence.
  - intros k c r (c0 & E0 & _ & _ & S0 & _)%Hback G. apply (F3 k c0 r E0). congruence.
  - intros r fr Hlo Hr. pose proof (H r fr Hlo Hr) as HH. destruct (reg_obj fr) as [k|] eqn:Hk; [|done].
    destruct (F2 r fr k Hr Hk) as (c0 & E0 & G0).
    intros c'. rewrite put_bo_objs. case_decide as Hko; [|apply HH].
    intros [= <-]. subst k. assert (c0 = b) as -> by congruence. destruct (HH b Eo) as (rg & Hsh & n & G1 & G2 & G3 & G4).
    exists rg. split; [done|]. exists n. change (mm (put_bo o b' s)) with (mm s). split_and!; try congruence.
    intros Hd. destruct Ed as (Hd0 & D1 & D2 & D3); [congruence|done|]. rewrite (G4 Hd0). unfold region_of, to_fenced. simpl. congruence.
Qed.

(** An object changed in fields the invariant does not know of. *)
Lemma put_same g s o b b' : gtt_ok g s -> objs s !! o = Some b -> bo_same b b' -> gtt_ok g (put_bo o b' s).
Proof.
  intros Hok Eo Hs. pose proof Hs as ([Z1 [Z2 Z3] [Z4 Z5] Z6 Z7 Z8 Z9 Z10 Z11] & Z12 & Z13).
  apply (put_change g s o b); try done; [|by rewrite Z13].
  apply (bo_ok_same g _ b); [done|]. apply (p_bo _ _ (ok_place _ _ Hok) o b Eo).
Qed.

(** ** Frames *)

(** Where a bound object is: its block, the offset and the size of that. *)
Definition place_in (m : drm_mm) (b : bo) : option (nid * Z * Z) :=
  n ← gtt_space b; Some (n, gtt_offset b, node_size (get m n)).

Lemma place_in_same m m' b b' : gtt_space b' = gtt_space b -> gtt_offset b' = gtt_offset b ->
  (forall n, gtt_space b = Some n -> node_size (get m' n) = node_size (get m n)) -> place_in m' b' = place_in m b.
Proof. unfold place_in. intros -> -> H. destruct (gtt_space b) as [n|]; [|done]. simpl. by rewrite (H n eq_refl). Qed.

(** What operations on other objects leave alone: the machine, the unbound objects, and
    the place of the pinned ones; and what is still bound has not moved. *)
Record keeps (s s' : i915) : Prop := {
  kp_cfg : info s' = info s /\ mappable_end s' = mappable_end s /\ gtt_total s' = gtt_total s /\
    bit_6_swizzle s' = bit_6_swizzle s /\ fence_reg_start s' = fence_reg_start s /\
    length (fence_regs s') = length (fence_regs s) /\ color_adjust (mm s') = color_adjust (mm s);
  kp_dom : forall o, is_Some (objs s' !! o) <-> is_Some (objs s !! o);
  kp_free : forall o b, objs s !! o = Some b -> gtt_space b = None -> objs s' !! o = Some b;
  kp_pinned : forall o b, objs s !! o = Some b -> pin_count b <> 0 ->
    exists b', objs s' !! o = Some b' /\ gtt_space b' = gtt_space b /\ gtt_offset b' = gtt_offset b /\
      pin_count b' = pin_count b /\ fence_reg b' = fence_reg b;
  kp_stays : forall o b', objs s' !! o = Some b' -> place_in (mm s') b' <> None ->
    exists b, objs s !! o = Some b /\ place_in (mm s') b' = place_in (mm s) b }.

#[global] Instance keeps_preorder : PreOrder keeps.
Proof.
  split.
  - intros s. split; [by split_and!|done|done| |]; intros o b E _; by exists b.
  - intros s1 s2 s3 [(C1&C2&C3&C4&C5&C6&C7) D1 F1 P1 S1] [(C1'&C2'&C3'&C4'&C5'&C6'&C7') D2 F2 P2 S2].
    split; [split_and!; congruence| | | |]; cycle 3.
    { intros o b E G. destruct (S2 o b E G) as (b2 & E2 & G2). destruct (S1 o b2 E2) as (b1 & E1 & G1); [congruence|].
      exists b1. split; [done|congruence]. }
    + intros o. by rewrite D2.
    + intros o b E G. auto.
    + intros o b E G. destruct (P1 o b E G) as (b' & E' & ? & ? & Hp & ?).
      destruct (P2 o b' E') as (b2 & E2 & ? & ? & ? & ?); [congruence|].
      exists b2. split_and!; congruence.
Qed.

(** The allocator has changed, but not the blocks of the objects. *)
Lemma mm_keeps s m' : color_adjust m' = color_adjust (mm s) ->
  (forall o b n, objs s !! o = Some b -> gtt_space b = Some n -> node_size (get m' n) = node_size (get (mm s) n)) ->
  keeps s (set_mm m' s).
Proof.
  intros HC Hg. split; [by split_and!|done|done| |]; intros o b E _; exists b; [done|]. split; [done|].
  apply place_in_same; try done. intros n. by apply (Hg o).
Qed.

(** How many objects are bound. *)
Definition bound_count (s : i915) : nat := length (inactive_list s ++ active_list s).

(** ** One object touched *)

(** Only the object [o] has changed, in fields the invariant does not know of. *)
Record touched (o : oid) (s s' : i915) : Prop := {
  t_rest : same_rest s s' /\ bit_6_swizzle s' = bit_6_swizzle s /\ fence_reg_start s' = fence_reg_start s;
  t_objs : forall k, k <> o -> objs s' !! k = objs s !! k;
  t_dom : objs s !! o = None -> objs s' !! o = None;
  t_self : forall b, objs s !! o = Some b -> exists b', objs s' !! o = Some b' /\ bo_same b b' }.

#[global] Instance touched_preorder o : PreOrder (touched o).
Proof.
  split.
  - intros s. split; [by split_and!|done|done|]. intros b E. by exists b.
  - intros s1 s2 s3 [((A1&A2&A3&A4&A5&A6&A7&A8&A9)&A10&A11) O1 D1 S1] [((B1&B2&B3&B4&B5&B6&B7&B8&B9)&B10&B11) O2 D2 S2].
    split; [unfold same_rest; split_and!; congruence| |auto|].
    + intros k Hk. by rewrite O2, O1.
    + intros b E. destruct (S1 b E) as (b' & E' & H1). destruct (S2 b' E') as (b2 & E2 & H2).
      exists b2. split; [done|]. by transitivity b'.
Qed.

Lemma touched_ok g o s s' : touched o s s' -> is_Some (objs s !! o) -> gtt_ok g s -> gtt_ok g s'.
Proof.
  intros [(HR & _) HO _ HS] [b E] Hok. destruct (HS b E) as (b' & E' & Hsame).
  apply (gtt_ok_rest g (put_bo o b' s)); [done| |by apply (put_same g s o b)].
  simpl. apply map_eq. intros k. destruct (decide (k = o)) as [->|Hk].
  - by rewrite lookup_insert_eq.
  - by rewrite lookup_insert_ne, HO.
Qed.

Lemma touched_keeps o s s' : touched o s s' ->
  (forall b, objs s !! o = Some b -> gtt_space b <> None) -> keeps s s'.
Proof.
  intros [((A1&A2&A3&A4&A5&A6&A7&A8&A9)&A10&A11) O1 D1 S1] Hb.
  split; [split_and!; congruence| | | |]; cycle 3.
  { intros k b' E' _. rewrite A4. destruct (decide (k = o)) as [->|Hk]; [|rewrite O1 in E' by done; by exists b'].
    destruct (objs s !! o) as [b|] eqn:E; [|by rewrite D1 in E']. destruct (S1 b eq_refl) as (b2 & E2 & [? ? [? ?] ? ? ? ? ? ?] & _).
    exists b. split; [done|]. apply place_in_same; congruence. }
  - intros k. destruct (decide (k = o)) as [->|Hk]; [|by rewrite O1].
    destruct (objs s !! o) as [b|] eqn:E.
    + destruct (S1 b eq_refl) as (b' & E' & _). rewrite E'. split; eauto.
    + by rewrite (D1 eq_refl).
  - intros k b E Hn. rewrite O1; [done|]. intros ->. by apply (Hb b E).
  - intros k b E Hp. destruct (decide (k = o)) as [->|Hk]; [|exists b; by rewrite O1].
    destruct (S1 b E) as (b' & E' & [? ? [? ?] ? ? ? ? ? ?] & ? & ?). exists b'. split_and!; congruence.
Qed.

(** The updates of fields the invariant does not know of. *)
Lemma touched_put o b b' s : objs s !! o = Some b -> bo_same b b' -> touched o s (put_bo o b' s).
Proof.
  intros E Hs. split; [by split_and!| | |].
  - intros k Hk. simpl. by rewrite lookup_insert_ne.
  - by rewrite E.
  - intros b0 E0. simplify_eq. exists b'. split; [|done]. simpl. by rewrite lookup_insert_eq.
Qed.

Lemma touched_answers o s l : touched o s (set_answers l s).
Proof. split; [by split_and!|done|done|]. intros b E. by exists b. Qed.

(** A program that only touches [o], and what it returns. *)
Definition touches (o : oid) {A} (Q : A -> bo -> Prop) (p : F A) : Prop :=
  forall s b, objs s !! o = Some b ->
    wp p (fun a s' => touched o s s' /\ exists b', objs s' !! o = Some b' /\ bo_same b b' /\ Q a b') s.

Lemma touches_upd o f : (forall b, bo_same b (f b)) -> touches o (fun _ _ => True) (upd_bo o f).
Proof.
  intros Hf s b E. apply (wp_upd_bo o b); [done|]. split; [by apply (touched_put o b)|].
  exists (f b). simpl. by rewrite lookup_insert_eq.
Qed.

Lemma wait_fence_touches o : touches o (fun _ _ => True) (i915_gem_object_wait_fence o).
Proof.
  intros s b E. unfold i915_gem_object_wait_fence. rewrite wp_bind. apply (wp_get_bo o b); [done|].
  assert (forall s1 b1, touched o s s1 -> objs s1 !! o = Some b1 -> bo_same b b1 ->
    wp (_ ← upd_bo o (set_fenced_gpu_access false); mret 0) (fun _ s' => touched o s s' /\
      exists b', objs s' !! o = Some b' /\ bo_same b b' /\ True) s1) as Hend.
  { intros s1 b1 Ht E1 Hs. rewrite wp_bind. apply (wp_upd_bo o b1); [done|]. rewrite wp_ret. split.
    - transitivity s1; [done|]. by apply (touched_put o b1).
    - eexists. split; [simpl; apply lookup_insert_eq|]. split; [|done]. transitivity b1; [done|]. by split. }
  rewrite wp_bind. wp_if; [|by apply (Hend s b)].
  rewrite wp_bind. apply wp_next_answer. intros a l. pose proof (touched_answers o s l) as Ht.
  assert (objs (set_answers l s) !! o = Some b) as E' by done.
  wp_if; [rewrite wp_ret; rewrite Heqb1; rewrite wp_ret; split; [done|]; by exists b|].
  rewrite wp_bind. apply (wp_upd_bo o b); [done|]. rewrite wp_ret.
  eapply Hend; [|simpl; apply lookup_insert_eq|by split].
  transitivity (set_answers l s); [done|]. by apply (touched_put o b).
Qed.
