(* ===== verification/GttFence.v ===== *)
(** * Fence registers: what their operations do

    Writing, dropping, taking and restoring a fence keep the invariant of GttInv.v; a
    register that is pinned is never taken from its owner, and the one that is taken is
    the least recently used. *)

From S2P Require Import Prelude MM MMInv Tiling TilingFacts Fence Gtt GttInv.

Open Scope Z_scope.

(** ** A register changes its owner *)

(** The register [r] of [s] goes to [new]; everything else stays. *)
Record assigned (r : nat) (fr : fence) (new : option oid) (s s' : i915) : Prop := {
  as_rest : info s' = info s /\ mappable_end s' = mappable_end s /\ gtt_total s' = gtt_total s /\ mm s' = mm s /\
    inactive_list s' = inactive_list s /\ active_list s' = active_list s /\
    bit_6_swizzle s' = bit_6_swizzle s /\ fence_reg_start s' = fence_reg_start s;
  as_regs : fence_regs s' = <[r := mk_fence new (reg_pin_count fr)]> (fence_regs s);
  as_list : NoDup (fence_list s') /\
    forall k, k ∈ fence_list s' <-> (k <> r /\ k ∈ fence_list s) \/ (k = r /\ new <> None);
  as_dom : forall k, objs s !! k = None -> objs s' !! k = None;
  as_objs : forall k b, objs s !! k = Some b -> exists b', objs s' !! k = Some b' /\ bo_like b b' /\
    fence_reg b' = (if decide (new = Some k) then Some r
                    else if decide (reg_obj fr = Some k) then None else fence_reg b) /\
    (new <> Some k -> reg_obj fr <> Some k -> fence_dirty b' = fence_dirty b);
  as_hw : forall k, (k < 32)%nat -> k <> r -> fence_shows s' k = fence_shows s k }.

(** What the new owner must be. *)
Definition owner_ok (g : cfg) (r : nat) (s s' : i915) (new : option oid) : Prop :=
  match new with
  | None => fence_shows s' r = None
  | Some o => exists b b' n, objs s !! o = Some b /\ objs s' !! o = Some b' /\ gtt_space b = Some n /\
      (fence_reg b = None \/ fence_reg b = Some r) /\
      fence_place (c_chip g) b (node_size (get (mm s) n)) /\
      (exists rg, fence_shows s' r = Some rg /\ shows_owner s' b' rg)
  end.

Lemma shows_like s s' b b' rg : bo_like b b' -> mm s' = mm s -> fence_dirty b' = fence_dirty b ->
  shows_owner s b rg -> shows_owner s' b' rg.
Proof.
  intros [? [? ?] [? ?] ? ? ? ? ? ?] Hm Hd (n & G1 & G2 & G3 & G4). exists n. rewrite Hm.
  split_and!; try congruence. intros Hd'. rewrite G4 by congruence. unfold region_of, to_fenced. simpl. congruence.
Qed.

Lemma assigned_ok lo g r fr new s s' : gtt_upto lo g s -> fence_regs s !! r = Some fr -> assigned r fr new s s' ->
  owner_ok g r s s' new -> gtt_upto lo g s' /\ (lo = r -> gtt_upto (S lo) g s').
Proof.
  intros [[P1 P2 P3 P4 P5 P6 P7] [F1 F2 F3 F4 F5] H] Hr [(E1&E2&E3&E4&E5&E6&E7&E8) ER [EL1 EL2] ED EO EH] Hown.
  assert (forall k b', objs s' !! k = Some b' -> exists b, objs s !! k = Some b /\ bo_like b b' /\
    fence_reg b' = (if decide (new = Some k) then Some r
                    else if decide (reg_obj fr = Some k) then None else fence_reg b) /\
    (new <> Some k -> reg_obj fr <> Some k -> fence_dirty b' = fence_dirty b)) as EB.
  { intros k b' E. destruct (objs s !! k) as [b|] eqn:E0; [|by rewrite ED in E].
    destruct (EO k b E0) as (b2 & E2' & ?). exists b. by simplify_eq. }
  assert (r < length (fence_regs s))%nat as Hlen by by eapply lookup_lt_Some.
  assert (forall k, fence_regs s' !! k = if decide (k = r) then Some (mk_fence new (reg_pin_count fr)) else fence_regs s !! k) as ER'.
  { intros k. rewrite ER. case_decide as Hk; [subst; by apply list_lookup_insert_eq|by rewrite list_lookup_insert_ne]. }
  assert (place_ok g s' /\ fence_ok s' /\ forall k fk, (k < lo \/ k = r)%nat -> fence_regs s' !! k = Some fk ->
    match reg_obj fk with
    | None => fence_shows s' k = None
    | Some o => forall b, objs s' !! o = Some b -> exists rg, fence_shows s' k = Some rg /\ shows_owner s' b rg
    end) as (HP & HF & HH).
  2: { split; [split; [done|done|]|intros ->; split; [done|done|]]; intros k fk Hk; apply HH; lia. }
  split; [split|split; [split|]].
  - by rewrite E1, E2, E3.
  - by rewrite E4.
  - intros k b' Hb'. rewrite E4. destruct (EB k b' Hb') as (b & Hb & Hl & Hf & _).
    apply (bo_ok_like g _ b); try done; [by apply (P3 k)| |].
    + intros Hn. rewrite Hf. case_decide as Hk.
      { subst new. destruct Hown as (b0 & _ & n & Hb0 & _ & Hn0 & _). congruence. }
      destruct (bk_free _ _ _ (P3 k b Hb) Hn) as (_ & -> & _). by case_decide.
    + rewrite Hf. intros Hnf n Hn. case_decide as Hk.
      * subst new. destruct Hown as (b0 & _ & n0 & Hb0 & _ & Hn0 & _ & Hp & _). by simplify_eq.
      * case_decide; [done|]. by apply (bd_fence _ _ _ _ (bk_bound _ _ _ (P3 k b Hb) n Hn)).
  - intros k k' c c' n Hc Hc' G G'. destruct (EB k c Hc) as (b & Hb & Hl & _), (EB k' c' Hc') as (b' & Hb' & Hl' & _).
    apply (P4 k k' b b' n); try done; [by rewrite <-(proj1 (sm_place _ _ Hl))|by rewrite <-(proj1 (sm_place _ _ Hl'))].
  - by rewrite E5, E6.
  - intros k. rewrite E5, E6, P6. split; intros (c & Hc & G).
    + destruct (EO k c Hc) as (c' & Hc' & Hl & _). exists c'. split; [done|]. by rewrite (proj1 (sm_place _ _ Hl)).
    + destruct (EB k c Hc) as (c' & Hc' & Hl & _). exists c'. split; [done|]. by rewrite <-(proj1 (sm_place _ _ Hl)).
  - intros k. rewrite E6, P7. split; intros (c & Hc & G).
    + destruct (EO k c Hc) as (c' & Hc' & Hl & _). exists c'. split; [done|]. by rewrite (sm_active _ _ Hl).
    + destruct (EB k c Hc) as (c' & Hc' & Hl & _). exists c'. split; [done|]. by rewrite <-(sm_active _ _ Hl).
  - by rewrite ER, length_insert.
  - intros k fk o. rewrite ER'. case_decide as Hk.
    + intros [= <-] [= ->]. subst k. destruct Hown as (b & b' & n & Hb & Hb' & _).
      exists b'. split; [done|]. destruct (EO o b Hb) as (b2 & Hb2 & _ & Hf & _).
      rewrite decide_True in Hf by done. congruence.
    + intros Hfk Ho. destruct (F2 k fk o Hfk Ho) as (b & Hb & Hf). destruct (EO o b Hb) as (b' & Hb' & _ & Hf' & _).
      exists b'. split; [done|]. rewrite Hf'. case_decide as Hn.
      { subst new. destruct Hown as (b0 & _ & n & Hb0 & _ & _ & [Hx|Hx] & _); congruence. }
      case_decide as Hold; [|done]. destruct (F2 r fr o Hr Hold) as (b2 & Hb2 & Hf2). congruence.
  - intros o b' k Hb' Hf. destruct (EB o b' Hb') as (b & Hb & _ & Hf' & _). rewrite ER'. rewrite Hf in Hf'.
    case_decide as Hn; [injection Hf' as ->; rewrite decide_True by done; by eexists|].
    case_decide as Hold; [done|]. symmetry in Hf'. destruct (F3 o b k Hb Hf') as (fk & Hfk & Ho).
    rewrite decide_False; [by eexists|]. intros ->. congruence.
  - split; [done|]. intros k. rewrite EL2, ER'. case_decide as Hk.
    + subst k. split; [intros [[? _]|[_ ?]]; [done|by eexists]|]. intros (fk & [= <-] & Hn). by right.
    + rewrite (proj2 F4 k). naive_solver.
  - intros k fk. rewrite ER'. case_decide; [intros [= <-]; exact (F5 r fr Hr)|exact (F5 k fk)].
  - intros k fk Hlo. rewrite ER'. case_decide as Hk.
    + intros [= <-]. subst k. cbn [reg_obj]. destruct new as [o|]; [|done].
      intros b Hb. destruct Hown as (b0 & b' & n & _ & Hb' & _ & _ & _ & rg & Hrg & Hs). exists rg. split; [done|]. by simplify_eq.
    + intros Hfk. assert (k < 32)%nat by (apply lookup_lt_Some in Hfk; lia). rewrite EH by done.
      specialize (H k fk ltac:(lia) Hfk). destruct (reg_obj fk) as [o|] eqn:Ho; [|done].
      intros b' Hb'. destruct (EB o b' Hb') as (b & Hb & Hl & Hf & Hd). destruct (H b Hb) as (rg & Hrg & Hs).
      exists rg. split; [done|]. destruct (F2 k fk o Hfk Ho) as (b2 & Hb2 & Hf2). simplify_eq.
      apply (shows_like s s' b b'); try done. apply Hd.
      * intros ->. destruct Hown as (b0 & _ & n & Hb0 & _ & _ & [Hx|Hx] & _); congruence.
      * intros Hold. destruct (F2 r fr o Hr Hold) as (b2 & Hb2 & Hf3). congruence.
Qed.

(** ** The operations *)

Lemma put_put o b b' s : put_bo o b' (put_bo o b s) = put_bo o b' s.
Proof. unfold put_bo. simpl. by rewrite insert_insert_eq. Qed.

Lemma put_here o b s : objs (put_bo o b s) !! o = Some b.
Proof. simpl. apply lookup_insert_eq. Qed.

Lemma fence_lost_run o b Q s : objs s !! o = Some b ->
  (forall b', bo_like b b' -> fence_reg b' = None -> fence_dirty b' = false -> Q tt (put_bo o b' s)) ->
  wp (i915_gem_object_fence_lost o) Q s.
Proof.
  intros E HQ. unfold i915_gem_object_fence_lost. rewrite wp_bind. apply (wp_get_bo o b); [done|].
  rewrite wp_bind. wp_if.
  - apply (wp_upd_bo o b); [done|]. apply (wp_upd_bo o (set_gtt_mmap false b)); [apply put_here|].
    rewrite put_put. apply HQ; [by split|done|done].
  - rewrite wp_ret. apply (wp_upd_bo o b); [done|]. apply HQ; [by split|done|done].
Qed.

Lemma write_fence_off r fr Q s : 2 <= gen (info s) <= 7 -> (r < 32)%nat -> fence_regs s !! r = Some fr ->
  (forall mm', (forall k, (k < 32)%nat -> k <> r -> fence_shows (set_mmio mm' s) k = fence_shows s k) ->
     fence_shows (set_mmio mm' s) r = None -> Q tt (set_mmio mm' s)) ->
  wp (i915_gem_write_fence r None) Q s.
Proof.
  intros Hg Hr32 Hr HQ. unfold i915_gem_write_fence. rewrite wp_bind, wp_gets, wp_bind. apply (wp_lift_some fr); [done|].
  rewrite wp_bind, wp_ret, wp_bind, wp_gets, wp_bind.
  destruct (fence_writes_total (info s) (Z.of_nat r) None Hg) as [ws Hws]. apply (wp_lift_some ws); [done|].
  rewrite wp_modify. apply HQ; unfold fence_shows; simpl.
  - intros k Hk Hne. f_equal. apply (writes_elsewhere _ (Z.of_nat r) _ None); try done; lia.
  - by apply (writes_cleared _ (Z.of_nat r)).
Qed.

Lemma write_fence_on r fr o b n nd Q s : 2 <= gen (info s) <= 7 -> (r < 32)%nat -> fence_regs s !! r = Some fr ->
  objs s !! o = Some b -> gtt_space b = Some n -> nodes (mm s) !! n = Some nd ->
  fenceable (info s) (to_fenced b nd) (base_size b) ->
  (forall mm', (forall k, (k < 32)%nat -> k <> r -> fence_shows (set_mmio mm' s) k = fence_shows s k) ->
     fence_shows (set_mmio mm' s) r = Some (region_of (to_fenced b nd)) -> Q tt (set_mmio mm' s)) ->
  wp (i915_gem_write_fence r (Some o)) Q s.
Proof.
  intros Hg Hr32 Hr Ho Hn Hnd Hfe HQ. unfold i915_gem_write_fence.
  rewrite wp_bind, wp_gets, wp_bind. apply (wp_lift_some fr); [done|].
  rewrite wp_bind, wp_bind. apply (wp_get_bo o b); [done|]. rewrite wp_bind. unfold get_space.
  rewrite wp_bind, wp_gets. apply (wp_lift_some nd); [by rewrite Hn|]. rewrite wp_ret, wp_bind, wp_gets, wp_bind.
  destruct (fence_writes_total (info s) (Z.of_nat r) (Some (to_fenced b nd)) Hg) as [ws Hws].
  apply (wp_lift_some ws); [done|]. rewrite wp_modify. apply HQ; unfold fence_shows; simpl.
  - intros k Hk Hne. f_equal. apply (writes_elsewhere _ (Z.of_nat r) _ (Some (to_fenced b nd))); try done; lia.
  - by apply (writes_set _ (Z.of_nat r) _ (base_size b)).
Qed.

Lemma wp_upd_fence r fr f Q s : fence_regs s !! r = Some fr ->
  Q tt (set_fence_regs (<[r := f fr]> (fence_regs s)) s) -> wp (upd_fence r f) Q s.
Proof.
  intros E HQ. unfold upd_fence. rewrite wp_bind, wp_gets, wp_bind. apply (wp_lift_some fr); [done|].
  rewrite wp_modify. assert (alter f r (fence_regs s) = <[r := f fr]> (fence_regs s)) as ->; [|done].
  apply list_eq. intros k. destruct (decide (k = r)) as [->|Hk].
  - rewrite list_lookup_alter_eq, E, list_lookup_insert_eq; [done|]. by eapply lookup_lt_Some.
  - by rewrite list_lookup_alter_ne, list_lookup_insert_ne.
Qed.

Lemma put_id o b s : objs s !! o = Some b -> put_bo o b s = s.
Proof. intros E. unfold put_bo. rewrite insert_id by done. by destruct s. Qed.

Lemma fence_ok_tiled c off size base t : t <> I915_TILING_NONE ->
  i915_gem_object_fence_ok c off size base t = i915_gem_object_fence_ok c off size base I915_TILING_X.
Proof.
  intros Ht. unfold i915_gem_object_fence_ok, i915_gem_get_gtt_size. by rewrite (proj2 (Z.eqb_neq _ _) Ht).
Qed.

Lemma block_facts g s n : place_ok g s -> n ∈ node_list (mm s) ->
  nodes (mm s) !! n = Some (get (mm s) n) /\ c_start g <= block_start (mm s) n /\
  0 < node_size (get (mm s) n) /\ block_start (mm s) n + node_size (get (mm s) n) <= c_end g.
Proof.
  intros Hp Hn. destruct (p_mm _ _ Hp) as [Hwf _]. split_and!.
  - apply live_get, (wf_live _ _ _ Hwf). by right.
  - by apply (ring_start_ge _ _ _ Hwf).
  - by destruct (wf_block _ _ _ Hwf n Hn) as (_&_&_&_&_&?&_).
  - by destruct (wf_block _ _ _ Hwf n Hn) as (_&_&_&_&_&_&?).
Qed.

Lemma fenceable_bound g s o b n : place_ok g s -> objs s !! o = Some b -> gtt_space b = Some n ->
  tiling_mode b <> I915_TILING_NONE -> fence_place (c_chip g) b (node_size (get (mm s) n)) ->
  fenceable (info s) (to_fenced b (get (mm s) n)) (base_size b).
Proof.
  intros Hp Ho Hn Ht Hpl. destruct (p_cfg _ _ Hp) as ([Hg Hr Htot Hl _] & Ei & _ & _).
  pose proof (p_bo _ _ Hp o b Ho) as Hb. pose proof (bk_bound _ _ _ Hb n Hn) as Hbd.
  destruct (block_facts g s n Hp (bd_in _ _ _ _ Hbd)) as (_ & Hs & Hpos & He).
  pose proof (bd_offset _ _ _ _ Hbd) as Eo. pose proof (bd_size _ _ _ _ Hbd).
  assert (u32 (node_size (get (mm s) n)) = node_size (get (mm s) n)) as Eu by (apply u32_small; lia).
  rewrite Ei. split; simpl; rewrite ?Eu.
  - done.
  - done.
  - apply (bk_stride _ _ _ Hb).
  - lia.
  - intros _. destruct (bk_size _ _ _ Hb) as [? _]. lia.
  - apply (bd_page _ _ _ _ Hbd).
  - by apply (proj2 (bk_tiling _ _ _ Hb)).
  - rewrite fence_ok_tiled by done. exact Hpl.
Qed.

Lemma elem_of_list_del {A} `{EqDecision A} (x y : A) l : y ∈ list_del x l <-> y <> x /\ y ∈ l.
Proof. unfold list_del. by rewrite list_elem_of_filter. Qed.

Lemma elem_of_move_tail {A} `{EqDecision A} (x y : A) l : y ∈ move_tail x l <-> (y <> x /\ y ∈ l) \/ y = x.
Proof. unfold move_tail. by rewrite elem_of_app, elem_of_list_del, list_elem_of_singleton. Qed.

Lemma NoDup_list_del {A} `{EqDecision A} (x : A) l : NoDup l -> NoDup (list_del x l).
Proof. apply NoDup_filter. Qed.

Lemma NoDup_move_tail {A} `{EqDecision A} (x : A) l : NoDup l -> NoDup (move_tail x l).
Proof.
  intros Hl. unfold move_tail. apply NoDup_app. split; [by apply NoDup_list_del|]. split; [|apply NoDup_singleton].
  intros y [? _]%elem_of_list_del. by rewrite list_elem_of_singleton.
Qed.

Section Update.
Context (lo : nat) (g : cfg) (s : i915) (Hok : gtt_upto lo g s).

Lemma gen_ok : 2 <= gen (info s) <= 7.
Proof. destruct (p_cfg _ _ (ok_place _ _ Hok)) as (Hc & -> & _). apply (cf_gen _ Hc). Qed.

Lemma reg_lt r fr : fence_regs s !! r = Some fr -> (r < 32)%nat.
Proof. intros E%lookup_lt_Some. pose proof (f_len _ (ok_fence _ _ Hok)). lia. Qed.

(** [o] loses the register [r] it owns; its record may have been cleared already. *)
Lemma update_off r fr o b b1 : objs s !! o = Some b -> fence_regs s !! r = Some fr -> reg_obj fr = Some o ->
  bo_like b b1 ->
  wp (i915_gem_object_update_fence o r false)
    (fun _ s' => assigned r fr None s s' /\ gtt_upto lo g s' /\ (lo = r -> gtt_upto (S lo) g s') /\
       exists b', objs s' = <[o := b']> (objs s) /\ bo_like b b' /\ fence_reg b' = None /\ fence_dirty b' = false)
    (put_bo o b1 s).
Proof.
  intros Eo Er Hfr Hl. unfold i915_gem_object_update_fence. rewrite wp_bind.
  apply (write_fence_off r fr); [apply gen_ok|by eapply reg_lt|done|]. intros mm' Hother Hr.
  rewrite wp_bind, wp_bind. apply (wp_upd_bo o b1); [apply put_here|].
  rewrite wp_bind. apply (wp_upd_fence r fr); [done|]. rewrite wp_modify.
  eapply wp_upd_bo; [apply put_here|].
  match goal with |- _ /\ gtt_upto lo g ?x /\ _ => set (s' := x) end.
  set (b' := set_fence_dirty false (set_fence_reg None b1)) in *.
  assert (objs s' = <[o := b']> (objs s)) as Eobjs by (subst s'; simpl; by rewrite !insert_insert_eq).
  assert (bo_like b b') as Hl' by (transitivity b1; [done|by split]).
  pose proof (ok_fence _ _ Hok) as [F1 F2 F3 [F4 F4'] F5].
  assert (assigned r fr None s s') as HA.
  { split; try done.
    - split; [by apply NoDup_list_del|]. intros k. subst s'. simpl. rewrite elem_of_list_del. naive_solver.
    - intros k. rewrite Eobjs. intros Hk. rewrite lookup_insert_ne; [done|]. intros ->. congruence.
    - intros k c Hc. rewrite Eobjs. rewrite decide_False by done. destruct (decide (k = o)) as [->|Hk].
      + exists b'. rewrite lookup_insert_eq. simplify_eq. split_and!; try done. by rewrite decide_True.
      + exists c. rewrite lookup_insert_ne by done. split_and!; try done. rewrite decide_False by congruence. done. }
  destruct (assigned_ok lo g r fr None s s') as [? ?]; try done. split_and!; try done. by exists b'.
Qed.

(** [o] takes the register [r], whose last owner has been cleared. *)
Lemma update_on r fr o b s1 b1 : objs s !! o = Some b -> fence_regs s !! r = Some fr ->
  (fence_reg b = None \/ fence_reg b = Some r) ->
  (exists n, gtt_space b = Some n /\ fence_place (c_chip g) b (node_size (get (mm s) n))) ->
  tiling_mode b <> I915_TILING_NONE ->
  bo_like b b1 -> objs s1 !! o = Some b1 -> same_rest s s1 ->
  (bit_6_swizzle s1 = bit_6_swizzle s /\ fence_reg_start s1 = fence_reg_start s) ->
  (forall k, objs s !! k = None -> objs s1 !! k = None) ->
  (forall k c, objs s !! k = Some c -> exists c', objs s1 !! k = Some c' /\ bo_like c c' /\
     (k = o \/ (fence_reg c' = (if decide (reg_obj fr = Some k) then None else fence_reg c) /\
                (reg_obj fr <> Some k -> fence_dirty c' = fence_dirty c)))) ->
  wp (i915_gem_object_update_fence o r true)
    (fun _ s' => assigned r fr (Some o) s s' /\ gtt_upto lo g s' /\ (lo = r -> gtt_upto (S lo) g s') /\
       exists b', objs s' = <[o := b']> (objs s1) /\ bo_like b1 b' /\ fence_reg b' = Some r /\ fence_dirty b' = false) s1.
Proof.
  intros Eo Er Hfb (n & Hn & Hpl) Ht Hl E1 (R1&R2&R3&R4&R5&R6&R7&R8&R9) (R10 & R11) Hdom Hobjs.
  pose proof (ok_place _ _ Hok) as Hp. pose proof (p_bo _ _ Hp o b Eo) as Hb.
  pose proof (bk_bound _ _ _ Hb n Hn) as Hbd. destruct (block_facts g s n Hp (bd_in _ _ _ _ Hbd)) as (Hnd & _).
  assert (to_fenced b1 (get (mm s) n) = to_fenced b (get (mm s) n) /\ base_size b1 = base_size b) as [Ef Eb].
  { destruct Hl as [? [? ?] [? ?] ? ? ? ? ? ?]. unfold to_fenced. split; [congruence|done]. }
  unfold i915_gem_object_update_fence. rewrite wp_bind.
  apply (write_fence_on r fr o b1 n (get (mm s) n)).
  { rewrite R1. apply gen_ok. }
  { by eapply reg_lt. }
  { by rewrite R7. }
  { done. }
  { by rewrite (proj1 (sm_place _ _ Hl)). }
  { by rewrite R4. }
  { rewrite Ef, Eb, R1. by apply (fenceable_bound g s o). }
  intros mm' Hother Hr. rewrite wp_bind, wp_bind. apply (wp_upd_bo o b1); [done|].
  rewrite wp_bind. apply (wp_upd_fence r fr); [simpl; by rewrite R7|]. rewrite wp_modify.
  eapply wp_upd_bo; [apply put_here|].
  match goal with |- _ /\ gtt_upto lo g ?x /\ _ => set (s' := x) end.
  set (b' := set_fence_dirty false (set_fence_reg (Some r) b1)) in *.
  assert (objs s' = <[o := b']> (objs s1)) as Eobjs by (subst s'; simpl; by rewrite insert_insert_eq).
  assert (bo_like b1 b') as Hl1 by by split.
  assert (forall k, fence_shows s' k = fence_shows (set_mmio mm' s1) k) as Esh by done.
  pose proof (ok_fence _ _ Hok) as [F1 F2 F3 [F4 F4'] F5].
  assert (assigned r fr (Some o) s s') as HA.
  { split; try done.
    - subst s'. simpl. by rewrite R7.
    - subst s'. simpl. rewrite R8. split; [by apply NoDup_move_tail|]. intros k. rewrite elem_of_move_tail. naive_solver.
    - intros k. rewrite Eobjs. intros Hk. rewrite lookup_insert_ne; [by apply Hdom|]. intros ->. congruence.
    - intros k c Hc. rewrite Eobjs. destruct (decide (k = o)) as [->|Hk].
      + exists b'. rewrite lookup_insert_eq, decide_True by done. simplify_eq. split; [done|]. split; [by transitivity b1|]. done.
      + destruct (Hobjs k c Hc) as (c' & Hc' & Hlc & [->|[Hf Hd]]); [done|]. exists c'.
        rewrite lookup_insert_ne, decide_False by (done || congruence). done.
    - intros k Hk Hne. rewrite Esh, Hother by done. unfold fence_shows. by rewrite R1, R9. }
  destruct (assigned_ok lo g r fr (Some o) s s') as [? ?]; try done; [|split_and!; try done; by exists b'].
  exists b, b', n. rewrite Eobjs, lookup_insert_eq. split_and!; try done.
  exists (region_of (to_fenced b1 (get (mm s) n))). split; [by rewrite Esh|].
  assert (mm s' = mm s) as Em by done.
  exists n. rewrite Em. destruct Hl as [? [? ?] [? ?] ? ? ? ? ? ?]. simpl. split_and!; try done; try congruence.
  f_equal. apply u32_small. destruct (p_cfg _ _ Hp) as (Hc & _). destruct (cf_range _ Hc), (cf_total _ Hc).
  destruct (block_facts g s n Hp (bd_in _ _ _ _ Hbd)) as (_ & ? & ? & ?). lia.
Qed.
End Update.

(** ** Dropping a fence *)

(** Only the object [o] and the fence registers have changed. *)
Record only (o : oid) (s s' : i915) : Prop := {
  on_rest : info s' = info s /\ mappable_end s' = mappable_end s /\ gtt_total s' = gtt_total s /\ mm s' = mm s /\
    inactive_list s' = inactive_list s /\ active_list s' = active_list s /\
    bit_6_swizzle s' = bit_6_swizzle s /\ fence_reg_start s' = fence_reg_start s /\
    length (fence_regs s') = length (fence_regs s);
  on_objs : forall k, k <> o -> objs s' !! k = objs s !! k;
  on_self : forall b, objs s !! o = Some b -> exists b', objs s' !! o = Some b' /\ bo_like b b' }.

Lemma touched_only o s s' : touched o s s' -> only o s s'.
Proof.
  intros [((A1&A2&A3&A4&A5&A6&A7&A8&A9)&A10&A11) O1 _ S1]. split; [split_and!; congruence|done|].
  intros b E. destruct (S1 b E) as (b' & ? & ? & _). by exists b'.
Qed.

#[global] Instance only_preorder o : PreOrder (only o).
Proof.
  split.
  - intros s. split; [by split_and!|done|]. intros b E. by exists b.
  - intros s1 s2 s3 [(A1&A2&A3&A4&A5&A6&A7&A8&A9) O1 S1] [(B1&B2&B3&B4&B5&B6&B7&B8&B9) O2 S2].
    split; [split_and!; congruence| |].
    + intros k Hk. by rewrite O2, O1.
    + intros b E. destruct (S1 b E) as (b' & E' & H1). destruct (S2 b' E') as (b2 & E2 & H2).
      exists b2. split; [done|]. by transitivity b'.
Qed.

Lemma only_keeps o s s' b : only o s s' -> objs s !! o = Some b -> gtt_space b <> None -> pin_count b = 0 ->
  keeps s s'.
Proof.
  intros [(A1&A2&A3&A4&A5&A6&A7&A8&A9) O1 S1] E Hb Hp.
  destruct (S1 b E) as (b' & E' & Hl). split; [by rewrite A4| | | |]; cycle 3.
  { intros k c Ec _. rewrite A4. destruct (decide (k = o)) as [->|Hk]; [|rewrite O1 in Ec by done; by exists c].
    exists b. split; [done|]. simplify_eq. by apply place_in_same; try apply (sm_place _ _ Hl). }
  - intros k. destruct (decide (k = o)) as [->|Hk]; [|by rewrite O1]. rewrite E, E'. split; eauto.
  - intros k c Ec Hn. rewrite O1; [done|]. intros ->. congruence.
  - intros k c Ec Hc. exists c. rewrite O1; [done|]. intros ->. congruence.
Qed.

Lemma put_fence_spec g s o b : gtt_ok g s -> objs s !! o = Some b ->
  wp (i915_gem_object_put_fence o) (fun ret s' => gtt_ok g s' /\ only o s s' /\
    exists b', objs s' !! o = Some b' /\ bo_like b b' /\ (ret = 0 -> fence_reg b' = None)) s.
Proof.
  intros Hok E. unfold i915_gem_object_put_fence. rewrite wp_bind.
  eapply wp_mono; [by apply (wait_fence_touches o s b)|]. intros ret s1 (Ht & b1 & E1 & Hs1 & _). cbv beta.
  assert (gtt_ok g s1) as Hok1 by (apply (touched_ok g o s); [done|by eexists|done]).
  destruct Hs1 as (Hl1 & Hf1 & _).
  wp_if.
  { rewrite wp_ret. split; [done|]. split; [by apply touched_only|]. exists b1. split_and!; try done. intros ->. done. }
  rewrite wp_bind. apply (wp_get_bo o b1); [done|]. destruct (fence_reg b1) as [r|] eqn:Hr.
  - rewrite wp_bind. apply (fence_lost_run o b1); [done|]. intros b2 Hl2 Hn2 Hd2. rewrite wp_bind.
    destruct (f_has _ (ok_fence _ _ Hok1) o b1 r E1 Hr) as (fr & Efr & Hfr).
    eapply wp_mono; [by apply (update_off 32 g s1 Hok1 r fr o b1 b2)|].
    intros ? s' (HA & Hok' & _ & b' & Eo' & Hl' & Hn' & Hd'). cbv beta. rewrite wp_ret. split; [done|]. split.
    + transitivity s1; [by apply touched_only|]. destruct HA as [(?&?&?&?&?&?&?&?) ER _ _ _ _].
      split; [split_and!; try done; by rewrite ER, length_insert| |].
      * intros k Hk. by rewrite Eo', lookup_insert_ne.
      * intros c Hc. simplify_eq. exists b'. by rewrite Eo', lookup_insert_eq.
    + exists b'. rewrite Eo', lookup_insert_eq. split_and!; try done. by transitivity b1.
  - rewrite wp_ret. split; [done|]. split; [by apply touched_only|]. by exists b1.
Qed.

(** ** Choosing a register *)

Lemma find_free_spec regs : forall i avail,
  match find_free regs i avail with
  | inl j => exists k fr, j = (i + k)%nat /\ regs !! k = Some fr /\ reg_obj fr = None
  | inr v => (forall k fr, regs !! k = Some fr -> reg_obj fr <> None) /\
      (v = true <-> avail = true \/ exists k fr, regs !! k = Some fr /\ reg_pin_count fr = 0)
  end.
Proof.
  induction regs as [|fr regs IH]; intros i avail; simpl.
  - split; [done|]. split; [by left|]. intros [?|(k & fr & Hk & _)]; [done|]. by rewrite lookup_nil in Hk.
  - destruct (reg_obj fr) as [o|] eqn:Ho.
    + specialize (IH (S i) (avail || (reg_pin_count fr =? 0))). destruct (find_free _ _ _) as [j|v].
      * destruct IH as (k & fr' & -> & Hk & Hn). exists (S k), fr'. split; [lia|done].
      * destruct IH as [Hall Hv]. split.
        { intros [|k] fr' Hk; [simpl in Hk; congruence|by apply (Hall k)]. }
        rewrite Hv, orb_true_iff, Z.eqb_eq. split.
        { intros [[?|?]|(k & fr' & ? & ?)]; [by left|right; by exists O, fr|right; by exists (S k), fr']. }
        { intros [?|([|k] & fr' & Hk & ?)]; [by left; left|left; right; simpl in Hk; congruence|right; by exists k, fr']. }
    + exists O, fr. split; [lia|done].
Qed.

Lemma find_lru_spec regs l : match find_lru regs l with
  | Some r => exists l1 l2 fr, l = l1 ++ r :: l2 /\ regs !! r = Some fr /\ reg_pin_count fr = 0 /\
      forall k fk, k ∈ l1 -> regs !! k = Some fk -> reg_pin_count fk <> 0
  | None => forall k fk, k ∈ l -> regs !! k = Some fk -> reg_pin_count fk <> 0
  end.
Proof.
  induction l as [|i l IH]; simpl; [by intros ? ? ?%elem_of_nil|].
  assert (forall P : Prop, (forall fk, regs !! i = Some fk -> reg_pin_count fk <> 0) ->
    match find_lru regs l with
    | Some r => exists l1 l2 fr, i :: l = l1 ++ r :: l2 /\ regs !! r = Some fr /\ reg_pin_count fr = 0 /\
        forall k fk, k ∈ l1 -> regs !! k = Some fk -> reg_pin_count fk <> 0
    | None => forall k fk, k ∈ i :: l -> regs !! k = Some fk -> reg_pin_count fk <> 0
    end) as Hskip.
  { intros _ Hi. destruct (find_lru regs l) as [r|].
    - destruct IH as (l1 & l2 & fr & -> & Hr & Hp & Hl). exists (i :: l1), l2, fr. split_and!; try done.
      intros k fk [->|Hk]%elem_of_cons Hfk; [by apply Hi|by apply (Hl k)].
    - intros k fk [->|Hk]%elem_of_cons Hfk; [by apply Hi|by apply (IH k)]. }
  destruct (regs !! i) as [fr|] eqn:Hi; [|apply (Hskip True); congruence].
  destruct (Z.eqb_spec (reg_pin_count fr) 0) as [Hz|Hz]; [|apply (Hskip True); congruence].
  exists [], l, fr. split_and!; try done. by intros ? ? ?%elem_of_nil.
Qed.

(** The register found is free, or, when none from [fence_reg_start] on is, the least
    recently used one that nobody pins; there is none exactly when all of them are pinned. *)
Lemma find_fence_reg_spec g s : gtt_ok g s ->
  match i915_find_fence_reg s with
  | Some r => exists fr, fence_regs s !! r = Some fr /\
      (reg_obj fr = None \/
       (reg_pin_count fr = 0 /\
        (forall k fk, (fence_reg_start s <= k)%nat -> fence_regs s !! k = Some fk -> reg_obj fk <> None) /\
        exists l1 l2, fence_list s = l1 ++ r :: l2 /\
          forall k fk, k ∈ l1 -> fence_regs s !! k = Some fk -> reg_pin_count fk <> 0))
  | None => forall k fk, (fence_reg_start s <= k)%nat -> fence_regs s !! k = Some fk ->
      reg_obj fk <> None /\ reg_pin_count fk <> 0
  end.
Proof.
  intros Hok. unfold i915_find_fence_reg.
  pose proof (find_free_spec (drop (fence_reg_start s) (fence_regs s)) (fence_reg_start s) false) as Hf.
  destruct (find_free _ _ _) as [r|v].
  - destruct Hf as (k & fr & -> & Hk & Hn). rewrite lookup_drop in Hk. exists fr. split; [done|]. by left.
  - destruct Hf as [Hall Hv].
    assert (forall k fk, (fence_reg_start s <= k)%nat -> fence_regs s !! k = Some fk -> reg_obj fk <> None) as Hall'.
    { intros k fk Hle Hk. apply (Hall (k - fence_reg_start s)%nat). rewrite lookup_drop, <-Hk. f_equal. lia. }
    destruct v.
    + pose proof (find_lru_spec (fence_regs s) (fence_list s)) as Hl. destruct (find_lru _ _) as [r|].
      * destruct Hl as (l1 & l2 & fr & El & Hr & Hp & Hpre). exists fr. split; [done|]. right.
        split; [done|]. split; [done|]. by exists l1, l2.
      * exfalso. destruct Hv as [Hv _]. destruct (Hv eq_refl) as [?|(k & fr & Hk & Hp)]; [done|].
        rewrite lookup_drop in Hk. refine (Hl (fence_reg_start s + k)%nat fr _ Hk Hp).
        apply (proj2 (f_list _ (ok_fence _ _ Hok))). exists fr. split; [done|]. apply (Hall' (fence_reg_start s + k)%nat); [lia|done].
    + intros k fk Hle Hk. split; [by apply (Hall' k)|]. intros Hp. assert (false = true); [|done]. apply Hv. right.
      exists (k - fence_reg_start s)%nat, fk. rewrite lookup_drop. split; [|done]. rewrite <-Hk. f_equal. lia.
Qed.

(** ** Getting a fence *)

Lemma lru_ok g s l : gtt_ok g s -> NoDup l -> (forall r, r ∈ l <-> r ∈ fence_list s) -> gtt_ok g (set_fence_list l s).
Proof.
  intros [[P1 P2 P3 P4 P5 P6 P7] [F1 F2 F3 [F4 F4'] F5] H] Hnd Hl. split; [by split|split; try done|done].
  split; [done|]. intros r. rewrite <-F4'. apply Hl.
Qed.

Lemma move_tail_ok g s r fr : gtt_ok g s -> fence_regs s !! r = Some fr -> reg_obj fr <> None ->
  gtt_ok g (set_fence_list (move_tail r (fence_list s)) s).
Proof.
  intros Hok Hr Hn. pose proof (f_list _ (ok_fence _ _ Hok)) as [Hnd Hl]. apply lru_ok; [done|by apply NoDup_move_tail|].
  intros k. rewrite elem_of_move_tail. destruct (decide (k = r)) as [->|]; [|naive_solver].
  split; [|naive_solver]. intros _. apply Hl. by exists fr.
Qed.

(** What a wait returns is 0 or the next answer, and answers are only used up. *)
Lemma wait_fence_ret o s b : objs s !! o = Some b ->
  wp (i915_gem_object_wait_fence o) (fun ret s' => (ret = 0 \/ ret ∈ (answers s).*1) /\
    forall a, a ∈ (answers s').*1 -> a ∈ (answers s).*1) s.
Proof.
  intros E. unfold i915_gem_object_wait_fence. rewrite wp_bind. apply (wp_get_bo o b); [done|]. rewrite wp_bind. wp_if.
  - rewrite wp_bind. unfold wp at 1, next_answer. destruct (answers s) as [|a l] eqn:Ea.
    + wp_if; [done|]. rewrite wp_bind. apply (wp_upd_bo o b); [done|]. rewrite wp_ret. wp_if; [done|].
      rewrite wp_bind. eapply wp_upd_bo; [apply put_here|]. rewrite wp_ret. simpl. rewrite Ea. auto.
    + assert (forall x, x ∈ l.*1 -> x ∈ (a :: l).*1) as Hl by (intros x Hx; by right).
      wp_if.
      * rewrite wp_ret. wp_if; [|done]. rewrite wp_ret. split; [right; by left|done].
      * rewrite wp_bind. apply (wp_upd_bo o b); [done|]. rewrite wp_ret. wp_if; [done|].
        rewrite wp_bind. eapply wp_upd_bo; [apply put_here|]. rewrite wp_ret. auto.
  - rewrite wp_ret. wp_if; [done|]. rewrite wp_bind. eapply wp_upd_bo; [done|]. rewrite wp_ret. auto.
Qed.

(** Every object is where it was, as pinned as it was; the fences may have changed. *)
Record likes (s s' : i915) : Prop := {
  lk_rest : info s' = info s /\ mappable_end s' = mappable_end s /\ gtt_total s' = gtt_total s /\ mm s' = mm s /\
    inactive_list s' = inactive_list s /\ active_list s' = active_list s /\
    bit_6_swizzle s' = bit_6_swizzle s /\ fence_reg_start s' = fence_reg_start s /\
    length (fence_regs s') = length (fence_regs s);
  lk_dom : forall k, objs s !! k = None -> objs s' !! k = None;
  lk_objs : forall k b, objs s !! k = Some b -> exists b', objs s' !! k = Some b' /\ bo_like b b' }.

#[global] Instance likes_preorder : PreOrder likes.
Proof.
  split.
  - intros s. split; [by split_and!|done|]. intros k b E. by exists b.
  - intros s1 s2 s3 [(A1&A2&A3&A4&A5&A6&A7&A8&A9) D1 O1] [(B1&B2&B3&B4&B5&B6&B7&B8&B9) D2 O2].
    split; [split_and!; congruence|auto|]. intros k b E. destruct (O1 k b E) as (b' & E' & H1).
    destruct (O2 k b' E') as (b2 & E2 & H2). exists b2. split; [done|]. by transitivity b'.
Qed.

Lemma touched_likes o s s' : touched o s s' -> likes s s'.
Proof.
  intros [((A1&A2&A3&A4&A5&A6&A7&A8&A9)&A10&A11) O1 D1 S1]. split; [by rewrite A7; split_and!| |].
  - intros k Hk. destruct (decide (k = o)) as [->|Hne]; [auto|]. by rewrite O1.
  - intros k b E. destruct (decide (k = o)) as [->|Hne]; [|exists b; by rewrite O1].
    destruct (S1 b E) as (b' & E' & Hs & _). by exists b'.
Qed.

Lemma assigned_likes r fr new s s' : assigned r fr new s s' -> likes s s'.
Proof.
  intros [(A1&A2&A3&A4&A5&A6&A7&A8) AR _ AD AO _]. split; [rewrite AR, length_insert; by split_and!|done|].
  intros k b E. destruct (AO k b E) as (b' & E' & Hl & _). by exists b'.
Qed.

Lemma lru_likes l s : likes s (set_fence_list l s).
Proof. split; [by split_and!|done|]. intros k b E. by exists b. Qed.

(** A register that is pinned stays with its owner. *)
Definition pins_kept (s s' : i915) : Prop :=
  forall r fr, fence_regs s !! r = Some fr -> reg_pin_count fr <> 0 -> reg_obj fr <> None ->
    exists fr', fence_regs s' !! r = Some fr' /\ reg_obj fr' = reg_obj fr /\ reg_pin_count fr' = reg_pin_count fr.

Definition all_pinned (s : i915) : Prop :=
  forall k fk, (fence_reg_start s <= k)%nat -> fence_regs s !! k = Some fk -> reg_obj fk <> None /\ reg_pin_count fk <> 0.

(** The object has a register, and the register shows what the object is. *)
Definition has_fence (s : i915) (o : oid) : Prop :=
  exists b r n, objs s !! o = Some b /\ fence_reg b = Some r /\ fence_dirty b = false /\ gtt_space b = Some n /\
    fence_shows s r = Some (region_of (to_fenced b (get (mm s) n))).

Lemma has_fence_ok g s o b r : gtt_ok g s -> objs s !! o = Some b -> fence_reg b = Some r -> fence_dirty b = false ->
  has_fence s o.
Proof.
  intros Hok Ho Hr Hd. destruct (f_has _ (ok_fence _ _ Hok) o b r Ho Hr) as (fr & Hfr & Hown).
  assert (r < 32)%nat as Hr32 by (apply lookup_lt_Some in Hfr; pose proof (f_len _ (ok_fence _ _ Hok)); lia).
  pose proof (ok_hw _ _ Hok r fr Hr32 Hfr) as H. rewrite Hown in H. destruct (H b Ho) as (rg & Hs & n & Hn & _ & _ & Hrg).
  exists b, r, n. split_and!; try done. by rewrite Hs, Hrg.
Qed.

Section GetFence.
Context (g : cfg) (o : oid).

(** What [get_fence] asks of an object that has no fence: its place is good for one. *)
Definition can_fence (s : i915) (b : bo) : Prop :=
  tiling_mode b <> I915_TILING_NONE -> fence_reg b = None ->
  exists n, gtt_space b = Some n /\ fence_place (c_chip g) b (node_size (get (mm s) n)).

Definition got_fence (s : i915) (b : bo) (ret : Z) (s' : i915) : Prop :=
  gtt_ok g s' /\ pins_kept s s' /\ (ret = 0 -> tiling_mode b <> I915_TILING_NONE -> has_fence s' o) /\
  (ret <> 0 -> (ret = - EDEADLK /\ all_pinned s) \/ ret ∈ (answers s).*1) /\ likes s s'.

Lemma pins_same s s' : fence_regs s' = fence_regs s -> pins_kept s s'.
Proof. intros E r fr Hr _ _. exists fr. by rewrite E. Qed.

Lemma pins_assigned r fr new s s' : fence_regs s !! r = Some fr -> assigned r fr new s s' ->
  (reg_pin_count fr = 0 \/ new = reg_obj fr \/ reg_obj fr = None) -> pins_kept s s'.
Proof.
  intros Hr HA Hn k fk Hk Hp Ho. rewrite (as_regs _ _ _ _ _ HA). destruct (decide (k = r)) as [->|Hne].
  - simplify_eq. rewrite list_lookup_insert_eq by by eapply lookup_lt_Some.
    destruct Hn as [?|[?|?]]; [done| |done]. eexists. by split_and!.
  - exists fk. by rewrite list_lookup_insert_ne.
Qed.

(** A register that is free or was given up goes to [o]. *)
Lemma take_on s0 s b0 b r fr s1 b1 : gtt_ok g s -> objs s !! o = Some b -> tiling_mode b0 <> I915_TILING_NONE -> bo_like b0 b ->
  fence_regs s !! r = Some fr -> (reg_pin_count fr = 0 \/ reg_obj fr = Some o \/ reg_obj fr = None) ->
  (fence_reg b = None \/ fence_reg b = Some r) ->
  (exists n, gtt_space b = Some n /\ fence_place (c_chip g) b (node_size (get (mm s) n))) ->
  fence_regs s = fence_regs s0 -> likes s0 s ->
  bo_like b b1 -> objs s1 !! o = Some b1 -> same_rest s s1 ->
  (bit_6_swizzle s1 = bit_6_swizzle s /\ fence_reg_start s1 = fence_reg_start s) ->
  (forall k, objs s !! k = None -> objs s1 !! k = None) ->
  (forall k c, objs s !! k = Some c -> exists c', objs s1 !! k = Some c' /\ bo_like c c' /\
     (k = o \/ (fence_reg c' = (if decide (reg_obj fr = Some k) then None else fence_reg c) /\
                (reg_obj fr <> Some k -> fence_dirty c' = fence_dirty c)))) ->
  wp (take_fence o r true) (got_fence s0 b0) s1.
Proof.
  intros Hok E Ht Hb0 Hr Hpin Hfb Hpl Hregs HL Hl E1 HR Hbits Hdom Hobjs. unfold take_fence. rewrite wp_bind.
  pose proof Hb0 as [_ [Etl _] _ _ _ _ _ _ _].
  eapply wp_mono; [apply (update_on 32 g s Hok r fr o b s1 b1); try done; congruence|].
  intros ? s' (HA & Hok' & _ & b' & Eo' & Hl' & Hr' & Hd'). cbv beta. rewrite wp_ret.
  split; [done|]. split; [|split; [|split; [done|]]].
  - intros k fk. rewrite <-Hregs. apply (pins_assigned r fr (Some o) s s' Hr HA).
    destruct Hpin as [?|[->|?]]; auto.
  - intros _ _. apply (has_fence_ok g s' o b' r); try done. by rewrite Eo', lookup_insert_eq.
  - transitivity s; [done|]. by apply assigned_likes in HA.
Qed.

(** The LRU list only: the object's own register is clean. *)
Lemma get_fence_again s0 s b0 b r : gtt_ok g s -> objs s !! o = Some b -> fence_reg b = Some r -> fence_dirty b = false ->
  fence_regs s = fence_regs s0 -> likes s0 s ->
  wp (_ ← modify (fun s => set_fence_list (move_tail r (fence_list s)) s); mret 0) (got_fence s0 b0) s.
Proof.
  intros Hok E Hr Hd Hregs HL. destruct (f_has _ (ok_fence _ _ Hok) o b r E Hr) as (fr & Hfr & Hown).
  rewrite wp_bind, wp_modify, wp_ret. assert (gtt_ok g (set_fence_list (move_tail r (fence_list s)) s)) as Hok'
    by (apply (move_tail_ok g s r fr); try done; by rewrite Hown).
  split; [done|]. split; [by apply pins_same|]. split; [intros _ _; by apply (has_fence_ok g _ o b r)|].
  split; [done|]. transitivity s; [done|]. apply lru_likes.
Qed.
End GetFence.

Lemma got_fence_from g o s s1 b ret s' : fence_regs s1 = fence_regs s -> fence_reg_start s1 = fence_reg_start s -> likes s s1 ->
  (ret <> 0 -> ret ∈ (answers s1).*1 -> ret ∈ (answers s).*1) ->
  got_fence g o s1 b ret s' -> got_fence g o s b ret s'.
Proof.
  intros Er Es HL Ha (G1 & G2 & G3 & G4 & G5). split; [done|]. unfold pins_kept, all_pinned in *. rewrite Er, Es in *.
  split; [done|]. split; [done|]. split; [|by transitivity s1]. intros Hn. destruct (G4 Hn) as [?|?]; [by left|right; auto].
Qed.

Lemma get_fence_none g o s b : gtt_ok g s -> objs s !! o = Some b -> fence_reg b = None ->
  tiling_mode b <> I915_TILING_NONE -> can_fence g s b ->
  wp (found ← gets i915_find_fence_reg;
      match found with
      | None => mret (- EDEADLK)
      | Some reg =>
          regs ← gets fence_regs;
          r ← lift (regs !! reg);
          match reg_obj r with
          | Some old =>
              ret ← i915_gem_object_wait_fence old;
              if negb (ret =? 0) then mret ret else
              _ ← i915_gem_object_fence_lost old;
              take_fence o reg true
          | None => take_fence o reg true
          end
      end) (got_fence g o s b) s.
Proof.
  intros Hok E Hn Ht Hcan. specialize (Hcan Ht Hn).
  rewrite wp_bind, wp_gets. pose proof (find_fence_reg_spec g s Hok) as Hfind.
  destruct (i915_find_fence_reg s) as [r|].
  2: { rewrite wp_ret. split; [done|]. split; [by apply pins_same|]. split; [done|]. split; [|done]. intros _. by left. }
  destruct Hfind as (fr & Hr & Hfind). rewrite wp_bind, wp_gets, wp_bind. apply (wp_lift_some fr); [done|].
  destruct (reg_obj fr) as [old|] eqn:Hold.
  2: { apply (take_on g o s s b b r fr s b); try done; auto.
       intros k c Hc. exists c. split; [done|]. split; [done|]. right. by rewrite Hold. }
  destruct Hfind as [?|(Hpin & _)]; [done|].
  destruct (f_own _ (ok_fence _ _ Hok) r fr old Hr Hold) as (bo_ & Eold & Hfo).
  assert (old <> o) as Hne by (intros ->; congruence).
  rewrite wp_bind. eapply wp_mono; [apply wp_and; [by apply (wait_fence_touches old s bo_)|by apply (wait_fence_ret old s bo_)]|].
  intros ret s1 [(Ht1 & b1 & E1 & Hs1 & _) [Hret _]]. cbv beta.
  assert (gtt_ok g s1) as Hok1 by (apply (touched_ok g old s); [done|by eexists|done]).
  pose proof (t_rest _ _ _ Ht1) as ((A1&A2&A3&A4&A5&A6&A7&A8&A9)&A10&A11).
  wp_if.
  { rewrite wp_ret. split; [done|]. split; [by apply pins_same|]. split; [by intros ->|].
    split; [|by apply (touched_likes old)]. intros Hnz. right. by destruct Hret. }
  rewrite wp_bind. apply (fence_lost_run old b1); [done|]. intros b2 Hl2 Hn2 Hd2.
  assert (objs s1 !! o = Some b) as E' by (rewrite (t_objs _ _ _ Ht1) by done; exact E).
  apply (take_on g o s s1 b b r fr (put_bo old b2 s1) b); try done; auto.
  - by rewrite A7.
  - destruct Hcan as (n & ? & ?). exists n. by rewrite A4.
  - by apply (touched_likes old).
  - simpl. by rewrite lookup_insert_ne.
  - intros k Hk. simpl. rewrite lookup_insert_ne; [done|]. intros ->. congruence.
  - intros k c Hc. rewrite put_bo_objs. case_decide as Hk.
    + subst k. exists b2. split; [done|]. simplify_eq. split; [done|]. right. split; [|congruence]. by rewrite decide_True.
    + exists c. split; [done|]. split; [done|]. right. split; [|done]. rewrite decide_False by congruence. done.
Qed.

Lemma get_fence_ok g s o b : gtt_ok g s -> objs s !! o = Some b -> can_fence g s b ->
  wp (i915_gem_object_get_fence o) (fun ret s' => gtt_ok g s' /\ likes s s' /\
    (forall r fr, fence_regs s !! r = Some fr -> reg_pin_count fr <> 0 -> reg_obj fr <> None -> reg_obj fr <> Some o ->
       exists fr', fence_regs s' !! r = Some fr' /\ reg_obj fr' = reg_obj fr) /\
    (ret = 0 -> tiling_mode b <> I915_TILING_NONE -> has_fence s' o) /\
    (ret <> 0 -> (ret = - EDEADLK /\ all_pinned s) \/ ret ∈ (answers s).*1)) s.
Proof.
  intros Hok E Hcan. unfold i915_gem_object_get_fence. rewrite wp_bind. apply (wp_get_bo o b); [done|].
  match goal with |- wp _ ?Q s => assert (forall ret s', got_fence g o s b ret s' -> Q ret s') as Hweak end.
  { intros ret s' (G1 & G2 & G3 & G4 & G5). split; [done|]. split; [done|]. split; [|done]. intros r fr H1 H2 H3 _.
    destruct (G2 r fr H1 H2 H3) as (fr' & ? & ? & _). by exists fr'. }
  cbv beta zeta. destruct (fence_dirty b) eqn:Hd.
  - rewrite wp_bind.
    eapply wp_mono; [apply wp_and; [by apply (wait_fence_touches o s b)|by apply (wait_fence_ret o s b)]|].
    intros ret s1 [(Ht1 & b1 & E1 & (Hl1 & Hf1 & Hd1) & _) [Hret Hsub]]. cbv beta.
    assert (gtt_ok g s1) as Hok1 by (apply (touched_ok g o s); [done|by eexists|done]).
    pose proof (t_rest _ _ _ Ht1) as ((A1&A2&A3&A4&A5&A6&A7&A8&A9)&A10&A11).
    wp_if.
    { rewrite wp_ret. apply Hweak. split; [done|]. split; [by apply pins_same|]. split; [by intros ->|].
      split; [|by apply (touched_likes o)]. intros Hnz. right. by destruct Hret. }
    destruct (fence_reg b) as [r|] eqn:Hr.
    + cbn [negb]. destruct (f_has _ (ok_fence _ _ Hok1) o b1 r E1 Hf1) as (fr & Hfr & Hown).
      pose proof (p_bo _ _ (ok_place _ _ Hok1) o b1 E1) as Hb1.
      destruct (gtt_space b1) as [n|] eqn:Hn; [|destruct (bk_free _ _ _ Hb1 Hn) as (_ & Hnf & _); congruence].
      destruct (Z.eqb_spec (tiling_mode b) I915_TILING_NONE) as [Htn|Htn]; cbn [negb].
      * unfold take_fence. rewrite wp_bind, <-(put_id o b1 s1 E1).
        eapply wp_mono; [by apply (update_off 32 g s1 Hok1 r fr o b1 b1)|].
        intros ? s' (HA & Hok' & _). cbv beta. rewrite wp_ret. split; [done|].
        split; [transitivity s1; [by apply (touched_likes o)|]; by apply assigned_likes in HA|].
        split; [|split; done].
        intros k fk. rewrite <-A7. intros Hk Hp Ho Hno. exists fk. rewrite (as_regs _ _ _ _ _ HA).
        rewrite list_lookup_insert_ne; [done|]. intros ->. congruence.
      * eapply wp_mono; [|exact Hweak]. assert (fence_reg b1 = Some r) as Hfr1 by congruence.
        refine (take_on g o s s1 b b1 r fr s1 b1 Hok1 E1 Htn Hl1 Hfr (or_intror (or_introl Hown)) (or_intror Hfr1)
          _ A7 (touched_likes o s s1 Ht1) (reflexivity b1) E1 _ (conj eq_refl eq_refl) (fun k Hk => Hk) _).
        { exists n. split; [done|]. apply (bd_fence _ _ _ _ (bk_bound _ _ _ Hb1 n Hn)). congruence. }
        { by split_and!. }
        { intros k c Hc. exists c. split; [done|]. split; [done|]. destruct (decide (k = o)); [by left|right].
          rewrite decide_False by congruence. done. }
    + destruct (Z.eqb_spec (tiling_mode b) I915_TILING_NONE) as [Htn|Htn]; cbn [negb].
      * rewrite wp_ret. apply Hweak. split; [done|]. split; [by apply pins_same|]. split; [done|]. split; [done|].
        by apply (touched_likes o).
      * eapply wp_mono; [|exact Hweak]. pose proof Hl1 as [_ [Et _] [Ep _] _ _ _ _ _ _].
        eapply wp_mono; [apply (get_fence_none g o s1 b1 Hok1 E1); [congruence|congruence|]|].
        { intros _ _. destruct (Hcan Htn Hr) as (n & Hn & Hpl). exists n. split; [congruence|].
          rewrite A4. destruct Hl1 as [? [? ?] [? ?] ? ? ? ? ? ?]. unfold fence_place in *. congruence. }
        intros ret' s' Hg. apply (got_fence_from g o s s1 b ret' s' A7 A11 (touched_likes o s s1 Ht1)).
        { auto. }
        destruct Hg as (G1 & G2 & G3 & G4 & G5). split; [done|]. split; [done|]. split; [|done]. intros H0 _. apply G3; congruence.
  - rewrite wp_bind, wp_ret. cbv beta. change (negb (0 =? 0)) with false. cbv iota. cbn [negb].
    destruct (fence_reg b) as [r|] eqn:Hr.
    + eapply wp_mono; [|exact Hweak]. by apply (get_fence_again g o s s b b r).
    + destruct (Z.eqb_spec (tiling_mode b) I915_TILING_NONE) as [Htn|Htn]; cbn [negb].
      * rewrite wp_ret. apply Hweak. split; [done|]. split; [by apply pins_same|]. split; done.
      * eapply wp_mono; [|exact Hweak]. by apply (get_fence_none g o s b).
Qed.

(** C4: an object that may have a fence gets one, or there is a reason.  When
    [get_fence] returns 0 for a tiled object, the object owns a register, and what the
    register says in the hardware is the object's place, size, pitch and tiling.  It
    fails only with -EDEADLK, when all registers are pinned, or with the error of a wait.
    Whatever happens, no register that is pinned changes its owner, unless it is the
    object's own, and every register still shows the object that owns it. *)
Theorem get_fence_sound g s o b : gtt_ok g s -> objs s !! o = Some b -> can_fence g s b ->
  wp (i915_gem_object_get_fence o) (fun ret s' => gtt_ok g s' /\
    (forall r fr, fence_regs s !! r = Some fr -> reg_pin_count fr <> 0 -> reg_obj fr <> None -> reg_obj fr <> Some o ->
       exists fr', fence_regs s' !! r = Some fr' /\ reg_obj fr' = reg_obj fr) /\
    (ret = 0 -> tiling_mode b <> I915_TILING_NONE -> has_fence s' o) /\
    (ret <> 0 -> (ret = - EDEADLK /\ all_pinned s) \/ ret ∈ (answers s).*1)) s.
Proof.
  intros Hok E Hcan. eapply wp_mono; [by apply (get_fence_ok g s o b)|]. by intros ret s' (? & _ & ?).
Qed.

(** ** Pins *)

Lemma set_pin_ok g s r fr p : gtt_ok g s -> fence_regs s !! r = Some fr -> 0 <= p ->
  gtt_ok g (set_fence_regs (<[r := mk_fence (reg_obj fr) p]> (fence_regs s)) s).
Proof.
  intros [[P1 P2 P3 P4 P5 P6 P7] [F1 F2 F3 [F4 F4'] F5] H] Hr Hp.
  set (regs' := <[r := mk_fence (reg_obj fr) p]> (fence_regs s)).
  assert (forall k fk, regs' !! k = Some fk -> exists fk0, fence_regs s !! k = Some fk0 /\ reg_obj fk = reg_obj fk0 /\
    (0 <= reg_pin_count fk)) as HB.
  { intros k fk. destruct (decide (k = r)) as [->|Hk].
    - unfold regs'. rewrite list_lookup_insert_eq by by eapply lookup_lt_Some. intros [= <-]. by exists fr.
    - unfold regs'. rewrite list_lookup_insert_ne by done. intros E. exists fk. split_and!; try done. exact (F5 k fk E). }
  assert (forall k fk0, fence_regs s !! k = Some fk0 -> exists fk, regs' !! k = Some fk /\ reg_obj fk = reg_obj fk0) as HF.
  { intros k fk0 E. destruct (decide (k = r)) as [->|Hk].
    - unfold regs'. rewrite list_lookup_insert_eq by by eapply lookup_lt_Some. eexists. split; [done|]. by simplify_eq.
    - exists fk0. unfold regs'. by rewrite list_lookup_insert_ne. }
  split; [by split|split|].
  - change (fence_regs _) with regs'. unfold regs'. by rewrite length_insert.
  - intros k fk o (fk0 & E & Eo & _)%HB Ho. apply (F2 k fk0); congruence.
  - intros o b k Hb Hk. destruct (F3 o b k Hb Hk) as (fk0 & E & Eo). destruct (HF k fk0 E) as (fk & E' & Eo').
    exists fk. split; [done|]. congruence.
  - split; [done|]. intros k. change (fence_list _) with (fence_list s). rewrite F4'. split.
    + intros (fk0 & E & Eo). destruct (HF k fk0 E) as (fk & E' & Eo'). exists fk. split; [done|]. congruence.
    + intros (fk & (fk0 & E & Eo & _)%HB & Hn). exists fk0. split; [done|]. congruence.
  - intros k fk (fk0 & _ & _ & ?)%HB. done.
  - intros k fk Hlo (fk0 & E & Eo & _)%HB. rewrite Eo. exact (H k fk0 Hlo E).
Qed.

Lemma pin_fence_ok g s o b : gtt_ok g s -> objs s !! o = Some b ->
  wp (i915_gem_object_pin_fence o) (fun v s' => gtt_ok g s' /\ v = bool_decide (fence_reg b <> None)) s.
Proof.
  intros Hok E. unfold i915_gem_object_pin_fence. rewrite wp_bind. apply (wp_get_bo o b); [done|].
  destruct (fence_reg b) as [r|] eqn:Hr; [|by rewrite wp_ret].
  destruct (f_has _ (ok_fence _ _ Hok) o b r E Hr) as (fr & Hfr & _). rewrite wp_bind. apply (wp_upd_fence r fr); [done|].
  rewrite wp_ret. split; [|done]. apply set_pin_ok; [done|done|]. pose proof (f_pin _ (ok_fence _ _ Hok) r fr Hfr). lia.
Qed.

(** Unpinning a fence that was pinned. *)
Lemma unpin_fence_ok g s o b : gtt_ok g s -> objs s !! o = Some b ->
  (forall r fr, fence_reg b = Some r -> fence_regs s !! r = Some fr -> 0 < reg_pin_count fr) ->
  wp (i915_gem_object_unpin_fence o) (fun _ s' => gtt_ok g s') s.
Proof.
  intros Hok E Hpin. unfold i915_gem_object_unpin_fence. rewrite wp_bind. apply (wp_get_bo o b); [done|].
  destruct (fence_reg b) as [r|] eqn:Hr; [|by rewrite wp_ret].
  destruct (f_has _ (ok_fence _ _ Hok) o b r E Hr) as (fr & Hfr & _). apply (wp_upd_fence r fr); [done|].
  apply set_pin_ok; [done|done|]. specialize (Hpin r fr eq_refl Hfr). lia.
Qed.

(** ** Restoring *)

Lemma restore_step g i s : gtt_upto i g s -> (i < length (fence_regs s))%nat ->
  wp (restore_one i) (fun _ s' => gtt_upto (S i) g s' /\ length (fence_regs s') = length (fence_regs s)) s.
Proof.
  unfold restore_one.
  intros Hok Hi. rewrite wp_bind, wp_gets, wp_bind.
  destruct (lookup_lt_is_Some_2 (fence_regs s) i Hi) as [fr Hr]. apply (wp_lift_some fr); [done|].
  destruct (reg_obj fr) as [o|] eqn:Ho.
  - destruct (f_own _ (ok_fence _ _ Hok) i fr o Hr Ho) as (b & Eb & Hf). rewrite wp_bind. apply (wp_get_bo o b); [done|].
    destruct (Z.eqb_spec (tiling_mode b) 0) as [Ht|Ht]; cbn [negb].
    + rewrite <-(put_id o b s Eb). eapply wp_mono; [by apply (update_off i g s Hok i fr o b b)|].
      intros ? s' (HA & _ & Hup & _). split; [by apply Hup|]. by rewrite (as_regs _ _ _ _ _ HA), length_insert, put_id.
    + pose proof (p_bo _ _ (ok_place _ _ Hok) o b Eb) as Hb.
      destruct (gtt_space b) as [n|] eqn:Hn; [|destruct (bk_free _ _ _ Hb Hn) as (_ & Hnf & _); congruence].
      eapply wp_mono; [refine (update_on i g s Hok i fr o b s b Eb Hr (or_intror Hf) _ Ht (reflexivity b) Eb _
        (conj eq_refl eq_refl) (fun k Hk => Hk) _)|].
      * exists n. split; [done|]. apply (bd_fence _ _ _ _ (bk_bound _ _ _ Hb n Hn)). congruence.
      * by split_and!.
      * intros k c Hc. exists c. split; [done|]. split; [done|]. destruct (decide (k = o)); [by left|right].
        rewrite decide_False by congruence. done.
      * intros ? s' (HA & _ & Hup & _). split; [by apply Hup|]. by rewrite (as_regs _ _ _ _ _ HA), length_insert.
  - destruct (p_cfg _ _ (ok_place _ _ Hok)) as (Hc & Ei & _). pose proof (f_len _ (ok_fence _ _ Hok)) as Hmax.
    apply (write_fence_off i fr); [rewrite Ei; apply (cf_gen _ Hc)|lia|done|]. intros mm' Hother Hcl. split; [|done].
    destruct Hok as [[P1 P2 P3 P4 P5 P6 P7] [F1 F2 F3 F4 F5] H]. split; [by split|by split|].
    intros k fk Hk Hfk. destruct (decide (k = i)) as [->|Hne].
    + change (fence_regs _) with (fence_regs s) in Hfk. simplify_eq. by rewrite Ho.
    + rewrite Hother by lia. refine (H k fk _ Hfk). lia.
Qed.

Lemma restore_loop_ok g n : forall i s, gtt_upto i g s -> length (fence_regs s) = (i + n)%nat ->
  wp (restore_loop (seq i n)) (fun _ s' => gtt_upto (i + n) g s' /\ length (fence_regs s') = (i + n)%nat) s.
Proof.
  induction n as [|n IH]; intros i s Hok Hlen; simpl; [rewrite wp_ret; by rewrite Nat.add_0_r in *|].
  rewrite wp_bind. eapply wp_mono; [apply (restore_step g i s Hok); lia|]. intros ? s1 [Hok1 Hl1]. cbv beta.
  eapply wp_mono; [apply (IH (S i) s1 Hok1); lia|]. intros ? s2 [Hok2 Hl2].
  by replace (i + S n)%nat with (S i + n)%nat by lia.
Qed.

Lemma restore_fences_ok g s : place_ok g s -> fence_ok s ->
  wp i915_gem_restore_fences (fun _ s' => gtt_ok g s' /\ length (fence_regs s') = length (fence_regs s)) s.
Proof.
  intros HP HF. unfold i915_gem_restore_fences. rewrite wp_bind, wp_gets.
  assert (gtt_upto 0 g s) as Hok by (split; [done|done|]; intros r fr Hr; lia).
  eapply wp_mono; [by apply (restore_loop_ok g (length (fence_regs s)) 0 s)|].
  intros ? s' [Hok' Hl]. split; [|done]. destruct Hok' as [P' F' H']. split; [done|done|].
  intros r fr _ Hr. refine (H' r fr _ Hr). apply lookup_lt_Some in Hr. simpl. lia.
Qed.

(** after a reset or a resume, whatever the registers hold, [i915_gem_restore_fences]
    makes each of them show the object that owns it, or nothing when no object does. *)
Theorem restore_fences_sound g s : place_ok g s -> fence_ok s ->
  wp i915_gem_restore_fences (fun _ s' => gtt_ok g s' /\ length (fence_regs s') = length (fence_regs s)) s.
Proof. apply restore_fences_ok. Qed.
