(* ===== verification/GttBind.v ===== *)
(** * Unbinding and eviction: what they do

    An object that is unbound gives back its block and its fence; a pinned object stays
    where it is.  Eviction returns 0 only when it has freed something, never fails a
    [BUG_ON], and on a machine without coloring what it frees is enough for the
    allocation it was called for. *)

From S2P Require Import Prelude MM MMInv MMAlloc MMFree MMScan Tiling TilingFacts Fence Gtt GttInv GttFence.

Open Scope Z_scope.

(** ** Retiring *)

Lemma list_del_out {A} `{EqDecision A} (x : A) l : x ∉ l -> list_del x l = l.
Proof.
  intros Hx. unfold list_del. induction l as [|y l IH]; [done|]. apply not_elem_of_cons in Hx as [Hxy Hx].
  rewrite filter_cons_True by congruence. by rewrite IH.
Qed.

Lemma list_del_perm {A} `{EqDecision A} (x : A) l : NoDup l -> x ∈ l -> x :: list_del x l ≡ₚ l.
Proof.
  intros Hl Hx. apply NoDup_Permutation; [|done|].
  - apply NoDup_cons. split; [|by apply NoDup_list_del]. by intros [? _]%elem_of_list_del.
  - intros y. rewrite elem_of_cons, elem_of_list_del. destruct (decide (y = x)) as [->|]; naive_solver.
Qed.

(** An object whose rendering may have finished; everything else is the same. *)
Record bo_quiet (b b' : bo) : Prop := {
  qt_like : base_size b' = base_size b /\ tiling_mode b' = tiling_mode b /\ stride b' = stride b /\
    gtt_space b' = gtt_space b /\ gtt_offset b' = gtt_offset b /\ map_and_fenceable b' = map_and_fenceable b /\
    pin_count b' = pin_count b /\ has_pages b' = has_pages b /\ pages_pin_count b' = pages_pin_count b /\
    fence_reg b' = fence_reg b /\ fence_dirty b' = fence_dirty b;
  qt_active : active b' = true -> active b = true }.

#[global] Instance bo_quiet_preorder : PreOrder bo_quiet.
Proof.
  split; [intros b; split; [by split_and!|done]|].
  intros a b c [(A1&A2&A3&A4&A5&A6&A7&A8&A9&A10&A11) A12] [(B1&B2&B3&B4&B5&B6&B7&B8&B9&B10&B11) B12].
  split; [split_and!; congruence|auto].
Qed.

Lemma bo_same_quiet b b' : bo_same b b' -> bo_quiet b b'.
Proof. intros ([? [? ?] [? ?] ? ? [? ?] ? ? ?] & ? & ?). split; [split_and!; congruence|congruence]. Qed.

(** Every object is where it was; some may have become idle. *)
Record quiet (s s' : i915) : Prop := {
  q_rest : info s' = info s /\ mappable_end s' = mappable_end s /\ gtt_total s' = gtt_total s /\ mm s' = mm s /\
    bit_6_swizzle s' = bit_6_swizzle s /\ fence_reg_start s' = fence_reg_start s /\
    fence_regs s' = fence_regs s;
  q_lists : inactive_list s' ++ active_list s' ≡ₚ inactive_list s ++ active_list s;
  q_act : forall k, k ∈ active_list s' -> k ∈ active_list s;
  q_dom : forall k, objs s !! k = None -> objs s' !! k = None;
  q_objs : forall k b, objs s !! k = Some b -> exists b', objs s' !! k = Some b' /\ bo_quiet b b' /\
    (gtt_space b = None -> b' = b) }.

#[global] Instance quiet_preorder : PreOrder quiet.
Proof.
  split.
  - intros s. split; [by split_and!|done|done|done|]. intros k b E. by exists b.
  - intros s1 s2 s3 [(A1&A2&A3&A4&A5&A6&A7) L1 C1 D1 O1] [(B1&B2&B3&B4&B5&B6&B7) L2 C2 D2 O2].
    split; [split_and!; congruence|by rewrite L2|auto|auto|].
    intros k b E. destruct (O1 k b E) as (b' & E' & Q1 & F1). destruct (O2 k b' E') as (b2 & E2 & Q2 & F2).
    exists b2. split; [done|]. split; [by transitivity b'|]. intros Hn. specialize (F1 Hn). subst b'. auto.
Qed.

Lemma quiet_keeps s s' : quiet s s' -> keeps s s'.
Proof.
  intros [(A1&A2&A3&A4&A5&A6&A7) L _ D O]. split; [by rewrite A4, A7| | | |]; cycle 3.
  { intros k c Ec _. destruct (objs s !! k) as [b|] eqn:E; [|by rewrite D in Ec].
    destruct (O k b E) as (b' & E' & [(?&?&?&?&?&?&?&?&?&?&?) _] & _). exists b. split; [done|]. rewrite A4.
    apply place_in_same; congruence. }
  - intros k. destruct (objs s !! k) as [b|] eqn:E.
    + destruct (O k b E) as (b' & -> & _). split; eauto.
    + rewrite (D k E). split; intros [? ?]; done.
  - intros k b E Hn. destruct (O k b E) as (b' & E' & _ & F). by rewrite E', F.
  - intros k b E _. destruct (O k b E) as (b' & E' & [(?&?&?&?&?&?&?&?&?&?&?) _] & _). exists b'. split_and!; congruence.
Qed.

Lemma quiet_count s s' : quiet s s' -> bound_count s' = bound_count s.
Proof. intros H. unfold bound_count. by rewrite (q_lists _ _ H). Qed.

Lemma touched_quiet o s s' : touched o s s' -> (forall b, objs s !! o = Some b -> gtt_space b <> None) -> quiet s s'.
Proof.
  intros [((A1&A2&A3&A4&A5&A6&A7&A8&A9)&A10&A11) O1 D1 S1] Hb. split; [split_and!; congruence|by rewrite A5, A6|by rewrite A6| |].
  - intros k Hk. destruct (decide (k = o)) as [->|Hne]; [auto|]. by rewrite O1.
  - intros k b E. destruct (decide (k = o)) as [->|Hne]; [|exists b; rewrite O1 by done; by split_and!].
    destruct (S1 b E) as (b' & E' & Hs). exists b'. split; [done|]. split; [by apply bo_same_quiet|]. intros Hn.
    by destruct (Hb b E).
Qed.

Lemma move_inactive_ok g s o : gtt_ok g s -> o ∈ active_list s ->
  wp (i915_gem_object_move_to_inactive o) (fun _ s' => gtt_ok g s' /\ quiet s s' /\ (o ∉ active_list s')) s.
Proof.
  intros Hok Ho. pose proof (ok_place _ _ Hok) as [P1 P2 P3 P4 P5 P6 P7].
  destruct (proj1 (P7 o) Ho) as (b & E & Ha). pose proof (P3 o b E) as Hb.
  unfold i915_gem_object_move_to_inactive. rewrite wp_bind. apply (wp_get_bo o b); [done|].
  rewrite wp_bind. apply wp_bug_on; [by rewrite (bk_wd _ _ _ Hb Ha)|].
  rewrite wp_bind. apply wp_bug_on; [by rewrite Ha|]. rewrite wp_bind, wp_modify.
  apply (wp_upd_bo o b); [done|]. match goal with |- gtt_ok g ?x /\ _ => set (s' := x) end.
  set (b' := set_active false _) in *.
  assert (gtt_space b <> None) as Hbd.
  { intros Hn. destruct (bk_free _ _ _ Hb Hn) as (_ & _ & ?). congruence. }
  pose proof P5 as (Hni & Hdis & Hna)%NoDup_app.
  assert (o ∉ inactive_list s) as Hoi by (intros Hx; by apply (Hdis o Hx)).
  assert (inactive_list s' = inactive_list s ++ [o] /\ active_list s' = list_del o (active_list s)) as [EI EA].
  { subst s'. simpl. by rewrite (list_del_out o (inactive_list s)). }
  assert (inactive_list s' ++ active_list s' ≡ₚ inactive_list s ++ active_list s) as HL.
  { rewrite EI, EA, <-app_assoc. simpl. by rewrite list_del_perm. }
  assert (bo_ok g (mm s) b') as Hb'.
  { destruct Hb as [K1 K2 K3 K4 K5 K6 Kg K7 K8]. split; try done. intros n Hn. destruct (K7 n Hn). by split. }
  assert (forall k, objs s' !! k = if decide (k = o) then Some b' else objs s !! k) as EO by (intros k; exact (put_bo_objs o b' _ k)).
  split.
  - split; [split|split|]; try done.
    + intros k c. rewrite EO. case_decide; [intros [= <-]; done|apply P3].
    + intros k k' c c' n. rewrite !EO. intros Hc Hc' Hn Hn'.
      assert (exists c0, objs s !! k = Some c0 /\ gtt_space c0 = Some n) as (c0 & H1 & H2)
        by (destruct (decide (k = o)) as [->|]; [injection Hc as <-; exists b; by split|by exists c]).
      assert (exists c0', objs s !! k' = Some c0' /\ gtt_space c0' = Some n) as (c0' & H1' & H2')
        by (destruct (decide (k' = o)) as [->|]; [injection Hc' as <-; exists b; by split|by exists c']).
      by apply (P4 k k' c0 c0' n).
    + by rewrite HL.
    + intros k. rewrite HL, P6. split; intros (c & Hc & Hn).
      * rewrite EO. destruct (decide (k = o)); [by exists b'|by exists c].
      * rewrite EO in Hc. destruct (decide (k = o)) as [->|]; [by exists b|by exists c].
    + intros k. rewrite EA, elem_of_list_del, P7. split.
      * intros (Hk & c & Hc & Hac). exists c. rewrite EO. by rewrite decide_False.
      * intros (c & Hc & Hac). rewrite EO in Hc. destruct (decide (k = o)) as [->|]; [injection Hc as <-; done|]. split; [done|by exists c].
    + apply (ok_fence _ _ Hok).
    + intros r fr k Hr Hk. destruct (f_own _ (ok_fence _ _ Hok) r fr k Hr Hk) as (c & Hc & Hf).
      rewrite EO. destruct (decide (k = o)) as [->|]; [exists b'; split; [done|]; by simplify_eq|by exists c].
    + intros k c r Hc Hf. rewrite EO in Hc. destruct (decide (k = o)) as [->|]; [injection Hc as <-; by apply (f_has _ (ok_fence _ _ Hok) o b)|].
      by apply (f_has _ (ok_fence _ _ Hok) k c).
    + apply (ok_fence _ _ Hok).
    + apply (ok_fence _ _ Hok).
    + intros r fr Hlo Hr. pose proof (ok_hw _ _ Hok r fr Hlo Hr) as H. destruct (reg_obj fr) as [k|]; [|done].
      intros c Hc. rewrite EO in Hc. destruct (decide (k = o)) as [->|]; [injection Hc as <-|by apply H].
      destruct (H b E) as (rg & Hsh & n & G1 & G2 & G3 & G4). exists rg. split; [done|]. by exists n.
  - split; [|rewrite EA; by intros [? _]%elem_of_list_del].
    split; [by split_and!|done|intros k; rewrite EA; by intros [_ ?]%elem_of_list_del| |].
    + intros k Hk. rewrite EO. destruct (decide (k = o)) as [->|]; [congruence|done].
    + intros k c Hc. rewrite EO. destruct (decide (k = o)) as [->|]; [|exists c; by split_and!].
      exists b'. assert (c = b) as -> by congruence. split; [done|]. split; [by split; [split_and!|]|done].
Qed.

Lemma retire_ok g l : forall s, gtt_ok g s ->
  wp (retire l) (fun _ s' => gtt_ok g s' /\ quiet s s' /\ forall o, o ∈ l -> o ∉ active_list s') s.
Proof.
  induction l as [|o l IH]; intros s Hok; simpl.
  { rewrite wp_ret. split; [done|]. split; [done|]. by intros ? ?%elem_of_nil. }
  rewrite wp_bind, wp_gets, wp_bind.
  eapply (wp_mono _ (fun _ s1 => gtt_ok g s1 /\ quiet s s1 /\ (o ∉ active_list s1))).
  - case_bool_decide as Ho; [by apply (move_inactive_ok g)|]. by rewrite wp_ret.
  - intros ? s1 (Hok1 & Hq1 & Ho1). cbv beta.
    eapply wp_mono; [by apply IH|]. intros ? s2 (Hok2 & Hq2 & Hl2). split; [done|]. split; [by transitivity s1|].
    intros k [->|Hk]%elem_of_cons; [|by apply Hl2]. intros Hx. by apply Ho1, (q_act _ _ Hq2).
Qed.

(** Updates of fields the invariant does not know of, on a bound object. *)
Lemma touched_only_upd g o s b f : gtt_ok g s -> objs s !! o = Some b -> gtt_space b <> None -> (forall b, bo_same b (f b)) ->
  wp (upd_bo o f) (fun _ s' => gtt_ok g s' /\ quiet s s') s.
Proof.
  intros Hok E Hn Hf. eapply wp_mono; [by apply (touches_upd o f Hf s b)|]. intros ? s' (Ht & _).
  split; [apply (touched_ok g o s); [done|by eexists|done]|]. apply (touched_quiet o); [done|]. intros c Ec. by simplify_eq.
Qed.

Lemma land_still w a m : Z.land w m = 0 -> Z.land (Z.land w a) m = 0.
Proof. intros Hw. by rewrite (Z.land_comm w), <-Z.land_assoc, Hw, Z.land_0_r. Qed.

Lemma answers_quiet s l : quiet s (set_answers l s).
Proof. split; [by split_and!|done|done|done|]. intros k b E. by exists b. Qed.

(** A bound object is still there. *)
Lemma quiet_bound s s' o b : quiet s s' -> objs s !! o = Some b -> gtt_space b <> None ->
  exists b', objs s' !! o = Some b' /\ bo_quiet b b' /\ gtt_space b' <> None.
Proof.
  intros Hq E Hn. destruct (q_objs _ _ Hq o b E) as (b1 & E1 & Hb & _). exists b1. split; [done|]. split; [done|].
  destruct Hb as [(?&?&?&Hs&_) _]. congruence.
Qed.

(** An object that is not waited for is idle. *)
Lemma idle_in g s o b : gtt_ok g s -> objs s !! o = Some b ->
  (last_read_seqno b = 0 \/ Z.land (read_domains b) I915_GEM_GPU_DOMAINS = 0) -> o ∉ active_list s.
Proof.
  intros Hok E Hi Ho. pose proof (ok_place _ _ Hok) as Hp. destruct (proj1 (p_active _ _ Hp o) Ho) as (c & Ec & Ha).
  simplify_eq. destruct (bk_gpu _ _ _ (p_bo _ _ Hp o b E) Ha). by destruct Hi.
Qed.

Lemma wait_rendering_ok g s o b : gtt_ok g s -> objs s !! o = Some b -> gtt_space b <> None ->
  wp (i915_gem_object_wait_rendering o)
    (fun ret s' => gtt_ok g s' /\ quiet s s' /\ (ret = 0 -> o ∉ active_list s')) s.
Proof.
  intros Hok E Hn. unfold i915_gem_object_wait_rendering. rewrite wp_bind. apply (wp_get_bo o b); [done|]. wp_if.
  { rewrite wp_ret. split; [done|]. split; [done|]. intros _. apply (idle_in g s o b); try done. left. by apply Z.eqb_eq. }
  rewrite wp_bind. apply wp_next_answer. intros a l. pose proof (answers_quiet s l) as Hq.
  assert (gtt_ok g (set_answers l s)) as Hok1 by (apply (gtt_ok_rest g s); [by split_and!|done|done]).
  wp_if; [rewrite wp_ret; split; [done|]; split; [done|]; intros Hz; exfalso; zbool; lia|].
  rewrite wp_bind. eapply wp_mono; [by apply (retire_ok g)|].
  intros ? s2 (Hok2 & Hq2 & Hl2). cbv beta. assert (quiet s s2) as Hqs by by transitivity (set_answers l s).
  destruct (quiet_bound s s2 o b Hqs E Hn) as (b2 & E2 & _ & Hn2). rewrite wp_bind.
  eapply wp_mono; [apply (touched_only_upd g o s2 b2); try done|].
  - intros c. split; [|done]. split; try done. intros Hw. by apply land_still.
  - intros ? s3 [Hok3 Hq3]. cbv beta. rewrite wp_ret. split; [done|]. split; [by transitivity s2|].
    intros _ Ho. apply (Hl2 o); [apply elem_of_app; right; by left|]. by apply (q_act _ _ Hq3).
Qed.

Lemma finish_gpu_ok g s o b : gtt_ok g s -> objs s !! o = Some b -> gtt_space b <> None ->
  wp (i915_gem_object_finish_gpu o) (fun ret s' => gtt_ok g s' /\ quiet s s' /\ (ret = 0 -> o ∉ active_list s')) s.
Proof.
  intros Hok E Hn. unfold i915_gem_object_finish_gpu. rewrite wp_bind. apply (wp_get_bo o b); [done|].
  wp_if.
  { rewrite wp_ret. split; [done|]. split; [done|]. intros _. apply (idle_in g s o b); try done. right. by apply Z.eqb_eq. }
  rewrite wp_bind. eapply wp_mono; [by apply (wait_rendering_ok g s o b)|]. intros ret s1 (Hok1 & Hq1 & Hi1). cbv beta.
  wp_if; [by rewrite wp_ret|]. destruct (quiet_bound s s1 o b Hq1 E Hn) as (b1 & E1 & _ & Hn1).
  assert (ret = 0) as -> by lia. specialize (Hi1 eq_refl).
  assert (active b1 = false) as Hb1.
  { destruct (active b1) eqn:Ha; [|done]. destruct Hi1. apply (p_active _ _ (ok_place _ _ Hok1)). by exists b1. }
  rewrite wp_bind. apply (wp_upd_bo o b1); [done|]. rewrite wp_ret.
  set (b2 := set_read_domains _ b1).
  assert (bo_same b1 b2) as Hs by (split; [split; try done; congruence|done]).
  pose proof (touched_put o b1 b2 s1 E1 Hs) as Ht. split; [by apply (touched_ok g o s1); [done|by eexists|]|].
  assert (quiet s1 (put_bo o b2 s1)) as Hq2 by (apply (touched_quiet o); [done|]; intros c Ec; by simplify_eq).
  split; [by transitivity s1|done].
Qed.

Lemma finish_gtt_ok g s o b : gtt_ok g s -> objs s !! o = Some b -> gtt_space b <> None ->
  wp (i915_gem_object_finish_gtt o) (fun _ s' => gtt_ok g s' /\ quiet s s') s.
Proof.
  intros Hok E Hn. unfold i915_gem_object_finish_gtt, i915_gem_release_mmap. rewrite wp_bind.
  eapply wp_mono; [by apply (touched_only_upd g o s b)|]. intros ? s1 [Hok1 Hq1]. cbv beta.
  destruct (q_objs _ _ Hq1 o b E) as (b1 & E1 & [(?&?&?&Hs&_) _] & _).
  rewrite wp_bind. apply (wp_get_bo o b1); [done|]. wp_if; [by rewrite wp_ret|].
  eapply wp_mono; [apply (touched_only_upd g o s1 b1); try done; [congruence|]|].
  - intros c. split; [|done]. split; try done; [intros Hw; by apply land_still|]. intros _. split; [done|].
    cbn. by rewrite <-Z.land_assoc.
  - intros ? s2 [Hok2 Hq2]. split; [done|]. by transitivity s1.
Qed.

(** ** Unbinding *)

(** The blocks that are still there have not moved, and nothing new is bound. *)
Record shrinks (s s' : i915) : Prop := {
  sk_keeps : keeps s s';
  sk_spare : forall x, spare (mm s) x -> spare (mm s') x;
  sk_live : forall x, live (mm s') x -> live (mm s) x;
  sk_blocks : forall k, k ∈ node_list (mm s') -> k ∈ node_list (mm s) /\
    block_start (mm s') k = block_start (mm s) k /\ node_size (get (mm s') k) = node_size (get (mm s) k);
  sk_bound : forall o b' n, objs s' !! o = Some b' -> gtt_space b' = Some n ->
    exists b, objs s !! o = Some b /\ gtt_space b = Some n;
  sk_count : (bound_count s' <= bound_count s)%nat }.

#[global] Instance shrinks_preorder : PreOrder shrinks.
Proof.
  split.
  - intros s. split; try done; eauto.
  - intros s1 s2 s3 [K1 S1 L1 B1 O1 C1] [K2 S2 L2 B2 O2 C2]. split.
    + by transitivity s2.
    + auto.
    + auto.
    + intros k Hk. destruct (B2 k Hk) as (Hk2 & -> & ->). by apply B1.
    + intros o b n E Hn. destruct (O2 o b n E Hn) as (b2 & E2 & Hn2). by apply (O1 o b2 n).
    + lia.
Qed.

Lemma quiet_shrinks s s' : quiet s s' -> shrinks s s'.
Proof.
  intros Hq. pose proof (quiet_keeps s s' Hq) as Hk. pose proof (quiet_count s s' Hq) as Hc.
  destruct Hq as [(A1&A2&A3&A4&A5&A6&A7) L _ D O]. split; try done; try by rewrite A4.
  - intros o b' n E Hn. destruct (objs s !! o) as [b|] eqn:E0; [|by rewrite D in E].
    destruct (O o b E0) as (b2 & E2 & [(?&?&?&Hs&_) _] & _). exists b. split; [done|]. congruence.
  - by rewrite Hc.
Qed.

Lemma only_shrinks o s s' b : only o s s' -> objs s !! o = Some b -> gtt_space b <> None -> pin_count b = 0 ->
  shrinks s s'.
Proof.
  intros Ho E Hn Hp. pose proof (only_keeps o s s' b Ho E Hn Hp) as Hk.
  destruct Ho as [(A1&A2&A3&A4&A5&A6&A7&A8&A9) O1 S1]. split; try done; try by rewrite A4.
  - intros k b' n E' Hn'. destruct (decide (k = o)) as [->|Hne]; [|rewrite O1 in E' by done; by exists b'].
    destruct (S1 b E) as (b2 & E2 & Hl). exists b. split; [done|]. rewrite <-(proj1 (sm_place _ _ Hl)). congruence.
  - unfold bound_count. by rewrite A5, A6.
Qed.

(** [o] is not bound any more; the others are as they were. *)
Definition freed (o : oid) (b : bo) (s s' : i915) : Prop :=
  (exists b', objs s' !! o = Some b' /\ gtt_space b' = None /\ base_size b' = base_size b /\
     tiling_mode b' = tiling_mode b /\ stride b' = stride b) /\
  (bound_count s' < bound_count s)%nat /\
  (forall n, gtt_space b = Some n -> n ∉ node_list (mm s')).

Lemma list_del_app {A} `{EqDecision A} (x : A) l l' : list_del x (l ++ l') = list_del x l ++ list_del x l'.
Proof. apply filter_app. Qed.

(** The last step: the block goes back, and the object forgets it. *)
Lemma release_ok g s s' o b b' n m' : gtt_ok g s -> objs s !! o = Some b -> gtt_space b = Some n ->
  pin_count b = 0 -> fence_reg b = None -> (o ∉ active_list s) ->
  drm_mm_put_block (mm s) n = Some m' ->
  objs s' = <[o := b']> (objs s) ->
  base_size b' = base_size b -> tiling_mode b' = tiling_mode b -> stride b' = stride b -> gtt_space b' = None ->
  pin_count b' = 0 -> fence_reg b' = None -> active b' = false ->
  0 <= pages_pin_count b' -> (has_pages b' = false -> pages_pin_count b' = 0) ->
  mm s' = m' -> info s' = info s -> mappable_end s' = mappable_end s -> gtt_total s' = gtt_total s ->
  bit_6_swizzle s' = bit_6_swizzle s -> fence_reg_start s' = fence_reg_start s ->
  inactive_list s' = list_del o (inactive_list s) -> active_list s' = list_del o (active_list s) ->
  fence_regs s' = fence_regs s -> fence_list s' = fence_list s -> mmio s' = mmio s ->
  gtt_ok g s' /\ shrinks s s' /\ freed o b s s'.
Proof.
  intros Hok E Hn Hp Hf Ha Hput EO Eb Et Est Hn' Hp' Hf' Ha' Hpg0 Hpg Em E1 E2 E3 E4 E5 EI EA ER EL EMM.
  destruct Hok as [[P1 P2 P3 P4 P5 P6 P7] [F1 F2 F3 F4 F5] H].
  pose proof (P3 o b E) as Hb. pose proof (bk_bound _ _ _ Hb n Hn) as Hbd.
  destruct P2 as [Hwf Hcol].
  destruct (put_block_keeps (mm s) _ _ n Hwf (bd_in _ _ _ _ Hbd)) as (m2 & Hput2 & Hwf' & Hca & Hsp & Hlist & Hext).
  assert (m2 = m') as -> by congruence.
  assert (forall k, objs s' !! k = if decide (k = o) then Some b' else objs s !! k) as EO'.
  { intros k. rewrite EO. case_decide as Hk; [subst; apply lookup_insert_eq|by rewrite lookup_insert_ne]. }
  assert (forall k c j, k <> o -> objs s !! k = Some c -> gtt_space c = Some j -> j ∈ node_list m') as Hstay.
  { intros k c j Hk Hc Hj. apply Hlist. split; [apply (bd_in _ _ _ _ (bk_bound _ _ _ (P3 k c Hc) j Hj))|].
    intros ->. apply Hk. by apply (P4 k o c b n). }
  assert (o ∈ inactive_list s ++ active_list s) as Hin by (apply P6; exists b; by rewrite Hn).
  assert (inactive_list s' ++ active_list s' = list_del o (inactive_list s ++ active_list s)) as ELs
    by by rewrite EI, EA, list_del_app.
  assert (bound_count s = S (bound_count s')) as Hcnt.
  { unfold bound_count. rewrite ELs. pose proof (Permutation_length (list_del_perm o _ P5 Hin)) as Hpl. simpl in Hpl. lia. }
  assert (gtt_ok g s') as Hok'.
  { split; [split|split|].
    - by rewrite E1, E2, E3.
    - rewrite Em. split; [done|]. intros f look nx h c x y Hc. apply (Hcol f look nx h c x y). congruence.
    - intros k c. rewrite EO', Em. case_decide as Hk.
      + intros [= <-]. destruct Hb as [K1 K2 K3 K4 K5 K6 Kg K7 K8].
        split; rewrite ?Eb, ?Et, ?Est; try done; try congruence; try lia.
      + intros Hc. pose proof (P3 k c Hc) as Kb. destruct Kb as [K1 K2 K3 K4 K5 K6 Kg K7 K8]. split; try done.
        intros j Hj. destruct (K7 j Hj) as [B1 B2 B3 B4 B5 B6 B7].
        assert (j ∈ node_list m') as Hj' by by apply (Hstay k c). destruct (Hext j Hj') as [X1 X2].
        split; rewrite ?X1, ?X2; done.
    - intros k k' c c' j. rewrite !EO'. repeat case_decide; intros Hc Hc' Hj Hj'; simplify_eq; try congruence.
      by apply (P4 k k' c c' j).
    - rewrite ELs. by apply NoDup_list_del.
    - intros k. rewrite ELs, elem_of_list_del, P6. split.
      + intros (Hk & c & Hc & Hnc). exists c. by rewrite EO', decide_False.
      + intros (c & Hc & Hnc). rewrite EO' in Hc. case_decide; [simplify_eq; done|]. split; [done|by exists c].
    - intros k. rewrite EA, elem_of_list_del, P7. split.
      + intros (Hk & c & Hc & Hac). exists c. by rewrite EO', decide_False.
      + intros (c & Hc & Hac). rewrite EO' in Hc. case_decide; [simplify_eq; congruence|]. split; [done|by exists c].
    - by rewrite ER.
    - intros r fr k. rewrite ER. intros Hr Hk. destruct (F2 r fr k Hr Hk) as (c & Hc & Hfc).
      exists c. rewrite EO', decide_False; [done|]. intros ->. congruence.
    - intros k c r Hc Hfc. rewrite ER. rewrite EO' in Hc. case_decide; [simplify_eq; congruence|]. by apply (F3 k c).
    - by rewrite EL, ER.
    - by rewrite ER.
    - intros r fr Hlo. rewrite ER. intros Hr. unfold fence_shows. rewrite E1, EMM. specialize (H r fr Hlo Hr).
      destruct (reg_obj fr) as [k|] eqn:Hk; [|done]. intros c Hc.
      assert (k <> o) as Hko by (intros ->; destruct (F2 r fr o Hr Hk) as (c0 & ? & ?); congruence).
      rewrite EO', decide_False in Hc by done. destruct (H c Hc) as (rg & Hsh & j & G1 & G2 & G3 & G4).
      exists rg. split; [done|]. exists j. rewrite Em. destruct (Hext j) as [X1 X2]; [by apply (Hstay k c)|].
      rewrite X2. split_and!; try done. intros Hd. rewrite (G4 Hd). unfold to_fenced. by rewrite X2. }
  split; [done|]. split.
  - split.
    + split; [split_and!; congruence| | | |]; cycle 3.
      { intros k c. rewrite EO', Em. case_decide; [intros [= <-]; unfold place_in; by rewrite Hn'|].
        intros Hc _. exists c. split; [done|]. apply place_in_same; try done. intros j Hj. by apply Hext, (Hstay k c). }
      * intros k. rewrite EO'. case_decide; [subst; rewrite E; split; eauto|done].
      * intros k c Hc Hnc. rewrite EO', decide_False; [done|]. intros ->. congruence.
      * intros k c Hc Hpc. exists c. rewrite EO', decide_False; [by split_and!|]. intros ->. congruence.
    + rewrite Em. apply Hsp.
    + rewrite Em. intros x. by apply (put_block_live (mm s) _ _ n m' x Hwf (bd_in _ _ _ _ Hbd)).
    + rewrite Em. intros k Hk. split; [by apply Hlist|by apply Hext].
    + intros k c j. rewrite EO'. case_decide; [intros [= <-]; congruence|intros ? ?; by exists c].
    + lia.
  - split; [exists b'; by rewrite EO', decide_True|]. split; [lia|]. intros j Hj. assert (j = n) as -> by congruence.
    rewrite Em, Hlist. by intros [_ ?].
Qed.

(** Unbinding keeps the invariant.  When it returns 0 the object is not bound; any other
    result leaves it bound. *)
Lemma unbind_ok g s o b : gtt_ok g s -> objs s !! o = Some b ->
  wp (i915_gem_object_unbind o) (fun ret s' => gtt_ok g s' /\ shrinks s s' /\
    (ret = 0 -> gtt_space b <> None -> pin_count b = 0 /\ freed o b s s') /\
    (gtt_space b = None -> s' = s) /\
    (pin_count b <> 0 -> gtt_space b <> None -> ret = - EBUSY) /\
    (forall k c, k <> o -> objs s !! k = Some c -> exists c', objs s' !! k = Some c' /\
       gtt_space c' = gtt_space c /\ pin_count c' = pin_count c) /\
    (exists b', objs s' !! o = Some b' /\ pin_count b' = pin_count b /\ base_size b' = base_size b /\
       tiling_mode b' = tiling_mode b /\ stride b' = stride b /\
       (ret <> 0 -> gtt_space b' = gtt_space b /\ gtt_offset b' = gtt_offset b /\ map_and_fenceable b' = map_and_fenceable b))) s.
Proof.
  intros Hok E. unfold i915_gem_object_unbind. rewrite wp_bind. apply (wp_get_bo o b); [done|].
  destruct (gtt_space b) as [n|] eqn:Hn.
  2: { rewrite wp_ret. split_and!; try done; [intros k c _ Hc; by exists c|by exists b]. }
  wp_if.
  { rewrite wp_ret. split_and!; try done; [intros k c _ Hc; by exists c|exists b; by rewrite Hn]. }
  zbool. pose proof (p_bo _ _ (ok_place _ _ Hok) o b E) as Hb. pose proof (bk_bound _ _ _ Hb n Hn) as Hbd.
  rewrite wp_bind. apply wp_bug_on; [by rewrite (proj1 (bd_pages _ _ _ _ Hbd))|].
  rewrite wp_bind. eapply wp_mono; [apply (finish_gpu_ok g s o b); [done|done|by rewrite Hn]|].
  intros ret s1 (Hok1 & Hq1 & Hi1). cbv beta.
  assert (forall s2, quiet s s2 -> forall k c, k <> o -> objs s !! k = Some c -> exists c', objs s2 !! k = Some c' /\
       gtt_space c' = gtt_space c /\ pin_count c' = pin_count c) as Hoth.
  { intros s2 Hq k c _ Hc. destruct (q_objs _ _ Hq k c Hc) as (c' & Ec & [(?&?&?&?&?&?&?&_) _] & _). by exists c'. }
  wp_if.
  { rewrite wp_ret. split; [done|]. split; [by apply quiet_shrinks|]. split; [intros ->; done|]. split_and!; [done|lia|by apply Hoth|].
    destruct (q_objs _ _ Hq1 o b E) as (b1 & E1 & [(?&?&?&?&?&?&?&_) _] & _). exists b1. split_and!; try congruence. intros _. split_and!; congruence. }
  assert (ret = 0) as -> by (zbool; done). specialize (Hi1 eq_refl).
  destruct (quiet_bound s s1 o b Hq1 E) as (b1 & E1 & Hb1 & Hn1); [by rewrite Hn|].
  rewrite wp_bind. eapply wp_mono; [by apply (finish_gtt_ok g s1 o b1)|]. intros ? s2 [Hok2 Hq2]. cbv beta.
  destruct (quiet_bound s1 s2 o b1 Hq2 E1 Hn1) as (b2 & E2 & Hb2 & Hn2).
  assert (quiet s s2) as Hq by by transitivity s1. assert (bo_quiet b b2) as Hbq by by transitivity b1.
  assert (o ∉ active_list s2) as Hi2 by (intros Hx; by apply Hi1, (q_act _ _ Hq2)).
  destruct Hbq as [(Q1&Q2&Q3&Q4&Q5&Q6&Q7&Q8&Q9&Q10&Q11) _].
  rewrite wp_bind. eapply wp_mono; [by apply (put_fence_spec g s2 o b2)|].
  intros ret s3 (Hok3 & Ho3 & b3 & E3 & Hl3 & Hf3). cbv beta.
  assert (shrinks s s3) as Hsk.
  { transitivity s2; [by apply quiet_shrinks|]. apply (only_shrinks o s2 s3 b2); try done. congruence. }
  assert (forall k c, k <> o -> objs s !! k = Some c -> exists c', objs s3 !! k = Some c' /\
       gtt_space c' = gtt_space c /\ pin_count c' = pin_count c) as Hoth3.
  { intros k c Hk Hc. destruct (Hoth s2 Hq k c Hk Hc) as (c' & ? & ? & ?). exists c'. by rewrite (on_objs _ _ _ Ho3). }
  wp_if.
  { rewrite wp_ret. split; [done|]. split; [done|]. split; [intros ->; done|]. split_and!; [done|lia|done|].
    destruct Hl3 as [? [? ?] [? ?] ? ? ? ? ? ?]. exists b3. split_and!; try congruence. intros _. split_and!; congruence. }
  assert (ret = 0) as -> by (zbool; done). specialize (Hf3 eq_refl).
  destruct (on_rest _ _ _ Ho3) as (R1&R2&R3&R4&R5&R6&R7&R8&R9).
  destruct Hl3 as [L1 [L2 L3] [L4 L5] L6 L7 [L8 L9] L10 L11 L12].
  pose proof (p_bo _ _ (ok_place _ _ Hok3) o b3 E3) as Hb3.
  assert (gtt_space b3 = Some n) as Hn3 by congruence. pose proof (bk_bound _ _ _ Hb3 n Hn3) as Hbd3.
  assert (o ∉ active_list s3) as Hi3 by by rewrite R6.
  assert (active b3 = false) as Ha3.
  { destruct (active b3) eqn:Ha; [|done]. destruct Hi3. apply (p_active _ _ (ok_place _ _ Hok3)). by exists b3. }
  destruct (bd_pages _ _ _ _ Hbd3) as [Hhp Hpc].
  rewrite wp_bind. apply (wp_get_bo o b3); [done|]. rewrite wp_bind.
  assert (forall b4 s4, objs s4 = <[o := b4]> (objs s3) -> same_rest s3 s4 -> bit_6_swizzle s4 = bit_6_swizzle s3 ->
    fence_reg_start s4 = fence_reg_start s3 -> bo_same b3 b4 ->
    wp (_ ← i915_gem_object_unpin_pages o;
        _ ← modify (fun s => let s := del_mm_list o s in
          set_unbound_list (list_del o (unbound_list s) ++ [o]) (set_bound_list (list_del o (bound_list s)) s));
        _ ← upd_bo o (set_map_and_fenceable true);
        _ ← on_mm_ (fun m => drm_mm_put_block m n);
        _ ← upd_bo o (fun b => set_gtt_offset 0 (set_gtt_space None b));
        mret 0) (fun ret s' => ret = 0 /\ gtt_ok g s' /\ shrinks s3 s' /\ freed o b3 s3 s' /\
          forall k, k <> o -> objs s' !! k = objs s3 !! k) s4) as Hend.
  { intros b4 s4 EO (S1&S2&S3&S4&S5&S6&S7&S8&S9) S10 S11 (Hl4 & Hf4 & Hd4).
    destruct Hl4 as [M1 [M2 M3] [M4 M5] M6 M7 [M8 M9] M10 M11 M12].
    unfold i915_gem_object_unpin_pages. rewrite wp_bind, wp_bind.
    apply (wp_get_bo o b4); [rewrite EO; apply lookup_insert_eq|]. rewrite wp_bind. apply wp_bug_on; [lia|].
    apply (wp_upd_bo o b4); [rewrite EO; apply lookup_insert_eq|].
    rewrite wp_bind, wp_modify, wp_bind. eapply wp_upd_bo; [simpl; apply lookup_insert_eq|].
    destruct (p_mm _ _ (ok_place _ _ Hok3)) as [Hwf _].
    destruct (put_block_keeps (mm s3) _ _ n Hwf (bd_in _ _ _ _ Hbd3)) as (m' & Hput & _).
    rewrite wp_bind, wp_on_mm_. exists m'. split; [simpl; by rewrite S4|].
    rewrite wp_bind. eapply wp_upd_bo; [simpl; apply lookup_insert_eq|]. rewrite wp_ret. split; [done|].
    match goal with |- gtt_ok g ?x /\ _ => set (s5 := x) end.
    match type of s5 with _ => set (b5 := set_gtt_offset 0 _) in s5 end.
    assert (objs s5 = <[o := b5]> (objs s3)) as EO5 by (subst s5; simpl; rewrite EO; by rewrite !insert_insert_eq).
    destruct (release_ok g s3 s5 o b3 b5 n m') as (G1 & G2 & G3); try done; try (subst b5; simpl; congruence).
    - subst b5. simpl. lia.
    - split_and!; try done. intros k Hk. by rewrite EO5, lookup_insert_ne. }
  assert (forall ret s', (ret = 0 /\ gtt_ok g s' /\ shrinks s3 s' /\ freed o b3 s3 s' /\
      forall k, k <> o -> objs s' !! k = objs s3 !! k) ->
    gtt_ok g s' /\ shrinks s s' /\ (ret = 0 -> Some n <> None -> pin_count b = 0 /\ freed o b s s') /\
    (Some n = None -> s' = s) /\ (pin_count b <> 0 -> Some n <> None -> ret = - EBUSY) /\
    (forall k c, k <> o -> objs s !! k = Some c -> exists c', objs s' !! k = Some c' /\
       gtt_space c' = gtt_space c /\ pin_count c' = pin_count c) /\
    (exists b', objs s' !! o = Some b' /\ pin_count b' = pin_count b /\ base_size b' = base_size b /\
       tiling_mode b' = tiling_mode b /\ stride b' = stride b /\
       (ret <> 0 -> gtt_space b' = Some n /\ gtt_offset b' = gtt_offset b /\ map_and_fenceable b' = map_and_fenceable b))) as Hfin.
  { intros ret s' (-> & G1 & G2 & (G3 & G4 & G5) & G6). split; [done|]. split; [by transitivity s3|].
    destruct G3 as (b' & X1 & X2 & X3 & X4 & X5).
    destruct (bk_free _ _ _ (p_bo _ _ (ok_place _ _ G1) o b' X1) X2) as (Xp & _).
    split; [|split; [done|]; split; [lia|]; split; [|exists b'; split_and!; congruence]].
    - intros _ _. split; [done|]. split; [|split].
      + exists b'. split_and!; try done; congruence.
      + pose proof (sk_count _ _ Hsk). lia.
      + intros j Hj. apply G5. congruence.
    - intros k c Hk Hc. rewrite G6 by done. by apply Hoth3. }
  destruct (has_global_gtt_mapping b3).
  - apply (wp_upd_bo o b3); [done|]. eapply wp_mono; [apply (Hend (set_has_global_gtt_mapping false b3))|exact Hfin]; done.
  - rewrite wp_ret. eapply wp_mono; [apply (Hend b3)|exact Hfin]; try done. by rewrite insert_id.
Qed.
