(* ===== verification/Evict.v ===== *)
(** * Eviction: what it does (i915_gem_evict.c)

    The loops of [i915_gem_evict_something] are a scan of the allocator over the blocks
    of the unpinned objects, in the order of the lists.  Whatever the scan finds, the
    allocator comes out of it as it was; what is then evicted is never pinned. *)

From S2P Require Import Prelude MM MMInv MMAlloc MMFree MMScan Tiling TilingFacts Fence Gtt GttInv GttFence GttBind.

Open Scope Z_scope.

(** ** A state whose allocator has been scanned *)

(** The allocator changed without touching the blocks that are bound. *)
Lemma gtt_ok_mm g s m' : gtt_ok g s -> mm_wf m' (c_start g) (c_end g) -> color_adjust m' = color_adjust (mm s) ->
  (forall o b n, objs s !! o = Some b -> gtt_space b = Some n -> n ∈ node_list m' /\
     block_start m' n = block_start (mm s) n /\ node_size (get m' n) = node_size (get (mm s) n)) ->
  gtt_ok g (set_mm m' s).
Proof.
  intros [[P1 P2 P3 P4 P5 P6 P7] F H] Hwf HC Hg. split; [split|by destruct F; split|]; try done.
  - change (mm (set_mm m' s)) with m'. destruct P2 as [_ Hcol]. split; [done|].
    intros f look nx h c a b Hc. apply (Hcol f look nx h c a b). by rewrite <-HC.
  - intros o b Ho. pose proof (P3 o b Ho) as [K1 K2 K3 K4 K5 K6 Kg K7 K8]. split; try done.
    change (mm (set_mm m' s)) with m'. intros n Hn. destruct (K7 n Hn) as [B1 B2 B3 B4 B5 B6 B7].
    destruct (Hg o b n Ho Hn) as (X0 & X1 & X2). split; rewrite ?X1, ?X2; done.
  - intros r fr Hlo Hr. specialize (H r fr Hlo Hr). destruct (reg_obj fr) as [o|]; [|done].
    intros b Hb. destruct (H b Hb) as (rg & Hsh & n & G1 & G2 & G3 & G4). exists rg. split; [done|].
    exists n. change (mm (set_mm m' s)) with m'. destruct (Hg o b n Hb G1) as (_ & X1 & X2). rewrite X2.
    split_and!; try done. intros Hd. rewrite (G4 Hd). unfold to_fenced. by rewrite X2.
Qed.

Lemma bound_in g s o b n : gtt_ok g s -> objs s !! o = Some b -> gtt_space b = Some n -> n ∈ node_list (mm s).
Proof. intros Hok E Hn. apply (bd_in _ _ _ _ (bk_bound _ _ _ (p_bo _ _ (ok_place _ _ Hok) o b E) n Hn)). Qed.

Lemma gtt_ok_eqv g s m' : gtt_ok g s -> mm_eqv (mm s) m' -> gtt_ok g (set_mm m' s).
Proof.
  intros Hok He. pose proof He as (HL & _ & _ & _ & _ & HC & _). apply gtt_ok_mm; try done.
  - rewrite <-He. apply (p_mm _ _ (ok_place _ _ Hok)).
  - intros o b n E Hn. rewrite <-HL. split; [by apply (bound_in g s o b)|].
    destruct (mm_eqv_get (mm s) m' n He) as (_&_&_&_&_&_&E1&E2&_). unfold block_start. by rewrite E1, E2.
Qed.

Lemma shrinks_eqv s m' : mm_eqv (mm s) m' -> shrinks s (set_mm m' s).
Proof.
  intros He. pose proof He as (HL & _ & _ & _ & _ & HC & _). split; try done.
  - apply mm_keeps; [done|]. intros o b n _ _. destruct (mm_eqv_get (mm s) m' n He) as (_&_&_&_&_&_&_&E2&_). by rewrite E2.
  - intros x. apply (spare_eqv _ _ _ He).
  - intros x. change (mm (set_mm m' s)) with m'. by rewrite (mm_eqv_live (mm s) m').
  - change (mm (set_mm m' s)) with m'. intros k Hk. split; [by rewrite HL|].
    destruct (mm_eqv_get (mm s) m' k He) as (_&_&_&_&_&_&E1&E2&_). unfold block_start. by rewrite E1, E2.
  - intros o b n E Hn. by exists b.
Qed.

(** ** The loops are a scan *)

(** The unpinned objects of a list, with their blocks. *)
Fixpoint unpinned (s : i915) (l : list oid) : list (oid * nid) :=
  match l with
  | [] => []
  | o :: l =>
      match objs s !! o with
      | Some b => match gtt_space b with
                  | Some n => if pin_count b =? 0 then (o, n) :: unpinned s l else unpinned s l
                  | None => unpinned s l
                  end
      | None => unpinned s l
      end
  end.

Definition all_bound (s : i915) (l : list oid) : Prop :=
  forall o, o ∈ l -> exists b n, objs s !! o = Some b /\ gtt_space b = Some n.

Lemma unpinned_in s l o n : (o, n) ∈ unpinned s l <->
  o ∈ l /\ exists b, objs s !! o = Some b /\ gtt_space b = Some n /\ pin_count b = 0.
Proof.
  induction l as [|x l IH]; simpl; [rewrite !elem_of_nil; naive_solver|]. rewrite elem_of_cons.
  destruct (objs s !! x) as [b|] eqn:E; [|rewrite IH; naive_solver].
  destruct (gtt_space b) as [j|] eqn:Hj; [|rewrite IH; naive_solver].
  destruct (Z.eqb_spec (pin_count b) 0) as [Hp|Hp]; [rewrite elem_of_cons|]; rewrite IH; naive_solver.
Qed.

Lemma unpinned_app s l l' : unpinned s (l ++ l') = unpinned s l ++ unpinned s l'.
Proof.
  induction l as [|o l IH]; simpl; [done|]. destruct (objs s !! o) as [b|]; [|done].
  destruct (gtt_space b); [|done]. destruct (_ =? 0); simpl; by rewrite IH.
Qed.

Lemma unpinned_nodup s l : NoDup l -> NoDup (unpinned s l).*1.
Proof.
  induction 1 as [|o l Ho Hl IH]; simpl; [constructor|].
  destruct (objs s !! o) as [b|]; [|done]. destruct (gtt_space b) as [n|]; [|done].
  destruct (pin_count b =? 0); [|done]. simpl. apply NoDup_cons. split; [|done].
  intros Hx. apply list_elem_of_fmap in Hx as ([o' n'] & -> & Hx). by apply unpinned_in in Hx as [Hx _].
Qed.

Lemma mark_loop_scan s l : forall m P, all_bound s l ->
  match scan_until m (unpinned s l).*2 P.*2 with
  | Some (found, us, mk) => exists P', mark_loop l P.*1 (set_mm m s) = Some ((found, P'.*1), set_mm mk s) /\
      P'.*2 = us /\ P' ⊆+ P ++ unpinned s l
  | None => True
  end.
Proof.
  induction l as [|o l IH]; intros m P Hb; simpl.
  - exists P. split; [done|]. split; [done|]. by rewrite app_nil_r.
  - destruct (Hb o) as (b & n & E & Hn); [by left|]. rewrite E, Hn.
    assert (all_bound s l) as Hb' by (intros k Hk; apply Hb; by right).
    unfold mark_free. unfold mbind at 1, Prog_bind at 1. unfold mbind at 1, Prog_bind at 1.
    unfold get_bo, mbind, Prog_bind, gets, lift. change (objs (set_mm m s)) with (objs s). rewrite E. cbn [option_bind mbind].
    destruct (Z.eqb_spec (pin_count b) 0) as [Hp|Hp]; cbn [negb].
    + rewrite Hn. cbn [option_bind mbind fmap list_fmap scan_until snd]. unfold on_mm. change (mm (set_mm m s)) with m.
      destruct (drm_mm_scan_add_block m n) as [[r m1]|]; [|done]. cbn [option_bind mbind].
      destruct (Z.eqb_spec r 0) as [->|Hr]; cbn [negb].
      * specialize (IH m1 ((o, n) :: P) Hb'). cbn [fmap list_fmap snd fst] in IH.
        destruct (scan_until m1 _ _) as [[[found us] mk]|]; [|done]. destruct IH as (P' & Hrun & Hus & HP).
        exists P'. split; [done|]. split; [done|]. etransitivity; [exact HP|]. simpl. by rewrite Permutation_middle.
      * exists ((o, n) :: P). split; [done|]. split; [done|]. rewrite <-Permutation_middle.
        apply submseteq_skip, submseteq_inserts_r. done.
    + apply (IH m P Hb').
Qed.

Lemma scan_until_app m ns1 ns2 u : scan_until m (ns1 ++ ns2) u =
  '(found, u1, m1) ← scan_until m ns1 u;
  if found : bool then Some (true, u1, m1) else scan_until m1 ns2 u1.
Proof.
  revert m u. induction ns1 as [|n ns1 IH]; intros m u; simpl; [done|].
  destruct (drm_mm_scan_add_block m n) as [[r m1]|]; [|done]. cbn [mbind option_bind].
  destruct (r =? 0); [apply IH|done].
Qed.

Lemma then_run {A B} (m : F A) (k : A -> F B) s a s' : m s = Some (a, s') -> (m ≫= k) s = k a s'.
Proof. intros E. unfold mbind, Prog_bind. by rewrite E. Qed.

Lemma get_bo_run o b s : objs s !! o = Some b -> get_bo o s = Some (b, s).
Proof. intros E. unfold get_bo, mbind, Prog_bind, gets, lift. by rewrite E. Qed.

Lemma lift_run {A} (r : option A) a s : r = Some a -> lift r s = Some (a, s).
Proof. by intros ->. Qed.

Lemma on_mm_run {A} (f : drm_mm -> option (A * drm_mm)) a m s : f (mm s) = Some (a, m) -> on_mm f s = Some (a, set_mm m s).
Proof. intros E. unfold on_mm. by rewrite E. Qed.

Definition node_of (s : i915) (on : oid * nid) : Prop := exists b, objs s !! on.1 = Some b /\ gtt_space b = Some on.2.

Lemma scan_remove_01 m n r m' : drm_mm_scan_remove_block m n = Some (r, m') -> r = 0 \/ r = 1.
Proof.
  unfold drm_mm_scan_remove_block. intros Hr. run_inv. destruct (_ && _); simpl; auto.
Qed.

Lemma unwind_none_run s P : forall mk vs m', (forall x, x ∈ P -> node_of s x) ->
  scan_unwind mk P.*2 = Some (vs, m') -> (forall nv, nv ∈ vs -> nv.2 = 0) ->
  unwind_none P.*1 (set_mm mk s) = Some (tt, set_mm m' s).
Proof.
  induction P as [|[o n] P IH]; intros mk vs m' HP; simpl; [by intros [= <- <-]|].
  intros Hrun Hz. apply bind_Some in Hrun as ([v m1] & Hrm & Hrun).
  apply bind_Some in Hrun as ([vs1 m2] & Hu & [= <- <-]).
  destruct (HP (o, n)) as (b & E & Hn); [by left|]. simpl in E, Hn.
  erewrite then_run by by apply get_bo_run. erewrite then_run by by apply lift_run.
  erewrite then_run by by apply on_mm_run. assert (v = 0) as -> by (apply (Hz (n, v)); by left).
  erewrite then_run by reflexivity.
  apply (IH m1 vs1 m2); [intros x Hx; apply HP; by right|done|]. intros nv Hnv. apply Hz. by right.
Qed.

Lemma unwind_found_run s P : forall mk vs m' ev, (forall x, x ∈ P -> node_of s x) ->
  scan_unwind mk P.*2 = Some (vs, m') ->
  exists E, unwind_found P.*1 ev (set_mm mk s) = Some (E ++ ev, set_mm m' s) /\
    (NoDup P.*1 -> NoDup E) /\
    (forall o, o ∈ E -> exists n, (o, n) ∈ P /\ (n, 1) ∈ vs) /\
    (forall n, (n, 1) ∈ vs -> exists o, o ∈ E /\ (o, n) ∈ P).
Proof.
  induction P as [|[o n] P IH]; intros mk vs m' ev HP; simpl.
  - intros [= <- <-]. exists []. split; [done|]. split; [by constructor|]. split; [by intros ? ?%elem_of_nil|].
    by intros ? ?%elem_of_nil.
  - intros Hrun. apply bind_Some in Hrun as ([v m1] & Hrm & Hrun).
    apply bind_Some in Hrun as ([vs1 m2] & Hu & [= <- <-]).
    destruct (HP (o, n)) as (b & E & Hn); [by left|]. simpl in E, Hn.
    assert (forall x, x ∈ P -> node_of s x) as HP' by (intros x Hx; apply HP; by right).
    destruct (IH m1 vs1 m2 (if negb (v =? 0) then o :: ev else ev) HP' Hu) as (E' & Hev & Hnd & H1 & H2).
    erewrite then_run by by apply get_bo_run. erewrite then_run by by apply lift_run.
    erewrite then_run by by apply on_mm_run.
    destruct (scan_remove_01 _ _ _ _ Hrm) as [-> | ->]; cbn [negb Z.eqb] in Hev |- *.
    + exists E'. split; [done|]. split; [intros [_ ?]%NoDup_cons; auto|]. split.
      * intros k (j & Hj & Hv)%H1. exists j. split; [by right|by right].
      * intros j [[=]|Hv]%elem_of_cons. destruct (H2 j Hv) as (k & ? & ?). exists k. split; [done|by right].
    + exists (E' ++ [o]). split; [rewrite <-app_assoc; done|]. split.
      * intros [Ho ?]%NoDup_cons. apply NoDup_app. split; [auto|]. split; [|apply NoDup_singleton].
        intros k Hk ->%list_elem_of_singleton. destruct (H1 o Hk) as (j & Hj & _). apply Ho.
        apply list_elem_of_fmap. by exists (o, j).
      * split.
        -- intros k [Hk| ->%list_elem_of_singleton]%elem_of_app.
           ++ destruct (H1 k Hk) as (j & ? & ?). exists j. split; by right.
           ++ exists n. split; by left.
        -- intros j [[= ->]|Hv]%elem_of_cons.
           ++ exists o. split; [apply elem_of_app; right; by left|by left].
           ++ destruct (H2 j Hv) as (k & ? & ?). exists k. split; [apply elem_of_app; by left|by right].
Qed.

(** ** Evicting *)

Lemma evict_loop_ok g E : forall s ret, gtt_ok g s -> NoDup E ->
  (forall o, o ∈ E -> exists b, objs s !! o = Some b /\ gtt_space b <> None) ->
  wp (evict_loop E ret) (fun r s' => gtt_ok g s' /\ shrinks s s' /\
    (r = 0 -> ret = 0 /\ (length E + bound_count s' <= bound_count s)%nat /\
       forall o b n, o ∈ E -> objs s !! o = Some b -> gtt_space b = Some n -> n ∉ node_list (mm s'))) s.
Proof.
  induction E as [|o E IH]; intros s ret Hok Hnd HE; simpl.
  - rewrite wp_ret. split; [done|]. split; [done|]. intros ->. split; [done|]. split; [lia|].
    by intros ? ? ? ?%elem_of_nil.
  - apply NoDup_cons in Hnd as [Ho Hnd]. destruct (HE o) as (b & Eb & Hn); [by left|].
    assert (forall k, k ∈ E -> exists c, objs s !! k = Some c /\ gtt_space c <> None) as HE'
      by (intros k Hk; apply HE; by right).
    rewrite wp_bind. wp_if.
    + eapply wp_mono; [by apply (unbind_ok g s o b)|]. intros r s1 (Hok1 & Hs1 & Hfr & _ & _ & Hoth & _). cbv beta.
      assert (forall k c, k ∈ E -> objs s !! k = Some c -> exists c', objs s1 !! k = Some c' /\ gtt_space c' = gtt_space c) as HE1.
      { intros k c Hk Hc. destruct (Hoth k c) as (c' & Ec' & Hsp & _); [by intros ->|done|]. by exists c'. }
      eapply wp_mono.
      * apply (IH s1 r Hok1 Hnd). intros k Hk. destruct (HE' k Hk) as (c & Ec & Hc).
        destruct (HE1 k c Hk Ec) as (c' & Ec' & Hsp). exists c'. split; [done|congruence].
      * intros r' s' (Hok' & Hs' & Hz). split; [done|]. split; [by transitivity s1|]. intros Hr'.
        destruct (Hz Hr') as (-> & Hcnt & Hgone). destruct (Hfr eq_refl Hn) as (_ & _ & Hlt & Hout).
        split; [lia|]. split; [lia|]. intros k c n [->|Hk]%elem_of_cons Hc Hcn.
        -- simplify_eq. intros Hx. apply (Hout n Hcn). by apply (sk_blocks _ _ Hs').
        -- destruct (HE1 k c Hk Hc) as (c' & Ec' & Hsp). apply (Hgone k c' n Hk Ec'). congruence.
    + rewrite wp_ret. eapply wp_mono; [by apply (IH s ret)|]. intros r s' (Hok' & Hs' & Hz). split; [done|]. split; [done|].
      intros Hr. destruct (Hz Hr) as (-> & _). done.
Qed.

(** There are fewer blocks than addresses. *)
Lemma chain_length m x l : Chain (adjacent m) (x :: l ++ [HEAD]) ->
  (forall n, n ∈ l -> block_start m n < block_end m n) -> block_end m x + Z.of_nat (length l) <= block_start m HEAD.
Proof.
  revert x. induction l as [|n l IH]; intros x HC Hpos; simpl in HC.
  - destruct HC as [[? _] _]. simpl. lia.
  - destruct HC as [[Hx _] HC]. assert (block_start m n < block_end m n) by (apply Hpos; by left).
    specialize (IH n HC). simpl length. assert (block_end m n + Z.of_nat (length l) <= block_start m HEAD); [|lia].
    apply IH. intros k Hk. apply Hpos. by right.
Qed.

Lemma blocks_bounded m s e : mm_wf m s e -> s + Z.of_nat (length (node_list m)) <= e.
Proof.
  intros Hwf. pose proof (wf_head_end m s e Hwf) as Es.
  assert (block_start m HEAD = e) as Ee by (unfold block_start; apply (wf_head _ _ _ Hwf)).
  enough (block_end m HEAD + Z.of_nat (length (node_list m)) <= block_start m HEAD) by lia.
  apply chain_length; [exact (wf_chain _ _ _ Hwf)|]. intros n Hn. rewrite (wf_block_end m s e Hwf n Hn).
  destruct (wf_block _ _ _ Hwf n Hn) as (_&_&_&_&_&?&_). lia.
Qed.

Lemma unpinned_nodes g s l : place_ok g s -> NoDup l ->
  NoDup (unpinned s l).*2 /\ (forall n, n ∈ (unpinned s l).*2 -> n ∈ node_list (mm s)) /\
  Z.of_nat (length (unpinned s l).*2) < 2 ^ 32.
Proof.
  intros Hp Hl. pose proof (unpinned_nodup s l Hl) as Hnd.
  assert (forall x, x ∈ unpinned s l -> node_of s x) as Hof.
  { intros [o n] (_ & b & E & Hn & _)%unpinned_in. by exists b. }
  assert (NoDup (unpinned s l).*2) as Hnd2.
  { revert Hof Hnd. clear Hl. generalize (unpinned s l). intros P. induction P as [|[o n] P IH]; intros Hof; simpl; [constructor|].
    intros [Ho Hnd]%NoDup_cons. apply NoDup_cons. split; [|apply IH; [intros x Hx; apply Hof; by right|done]].
    intros Hx. apply list_elem_of_fmap in Hx as ([o' n'] & En & Hx). simpl in En. subst n'.
    destruct (Hof (o, n)) as (b & E & Hn); [by left|]. destruct (Hof (o', n)) as (b' & E' & Hn'); [by right|]. simpl in *.
    assert (o = o') as <- by by apply (p_inj _ _ Hp o o' b b' n). apply Ho. apply list_elem_of_fmap. by exists (o, n). }
  assert (forall n, n ∈ (unpinned s l).*2 -> n ∈ node_list (mm s)) as Hin.
  { intros n Hn. apply list_elem_of_fmap in Hn as ([o j] & -> & Hx). destruct (Hof _ Hx) as (b & E & Hj).
    apply (bd_in _ _ _ _ (bk_bound _ _ _ (p_bo _ _ Hp o b E) j Hj)). }
  split; [done|]. split; [done|].
  assert (length (unpinned s l).*2 <= length (node_list (mm s)))%nat as Hlen
    by (apply submseteq_length, NoDup_submseteq; [done|exact Hin]).
  pose proof (blocks_bounded _ _ _ (proj1 (p_mm _ _ Hp))) as Hb. destruct (p_cfg _ _ Hp) as (Hc & _).
  destruct (cf_range _ Hc), (cf_total _ Hc). lia.
Qed.

(** The objects a scan looks at, in order. *)
Definition candidates (s : i915) (nonblocking : bool) : list (oid * nid) :=
  unpinned s (if nonblocking then inactive_list s else inactive_list s ++ active_list s).

Lemma mark_all_scan s m nonblocking found us mk : all_bound s (inactive_list s ++ active_list s) ->
  scan_until m (candidates s nonblocking).*2 [] = Some (found, us, mk) ->
  exists P, mark_all nonblocking (set_mm m s) = Some ((found, P.*1), set_mm mk s) /\ P.*2 = us /\
    P ⊆+ candidates s nonblocking.
Proof.
  intros Hb Hrun. assert (all_bound s (inactive_list s)) as Hb1 by (intros o Ho; apply Hb, elem_of_app; by left).
  assert (all_bound s (active_list s)) as Hb2 by (intros o Ho; apply Hb, elem_of_app; by right).
  pose proof (mark_loop_scan s (inactive_list s) m [] Hb1) as H1. change ([] : list (oid * nid)).*2 with ([] : list nid) in H1.
  unfold mark_all. erewrite then_run by reflexivity. change (inactive_list (set_mm m s)) with (inactive_list s).
  unfold candidates in *. destruct nonblocking.
  - rewrite Hrun in H1. destruct H1 as (P & Hm & HP & Hin). exists P.
    erewrite then_run by exact Hm. split; [by destruct found|]. by split.
  - rewrite unpinned_app, fmap_app, scan_until_app in Hrun. apply bind_Some in Hrun as ([[found1 us1] m1] & Hrun1 & Hrun).
    rewrite Hrun1 in H1. destruct H1 as (P & Hm & HP & Hin). erewrite then_run by exact Hm.
    simpl in Hin. rewrite unpinned_app. destruct found1.
    + injection Hrun as <- <- <-. exists P. split; [done|]. split; [done|]. by apply submseteq_inserts_r.
    + pose proof (mark_loop_scan s (active_list s) m1 P Hb2) as H2. rewrite HP, Hrun in H2.
      destruct H2 as (P' & Hm' & HP' & Hin2). exists P'. erewrite then_run by reflexivity.
      change (active_list (set_mm m1 s)) with (active_list s). split; [done|]. split; [done|].
      etransitivity; [exact Hin2|]. by apply submseteq_skips_r.
Qed.

Definition scan_for (g : cfg) (mappable : bool) : option (Z * Z) := if mappable then Some (0, c_lim g) else None.

(** The object a successful scan stopped at is one to evict. *)
Lemma scan_last_one m a e ns size al color r us mk : mm_wf m a e -> NoDup ns -> (forall n, n ∈ ns -> n ∈ node_list m) ->
  Z.of_nat (length ns) < 2 ^ 32 -> scan_until (scan_params m size al color r) ns [] = Some (true, us, mk) ->
  exists n m' us', us = n :: us' /\ drm_mm_scan_remove_block mk n = Some (1, m').
Proof.
  intros Hwf Hnd Hin Hlen Hrun. pose proof (scan_start_ok m a e size al color r Hwf) as Hok.
  assert (node_list (scan_params m size al color r) = node_list m /\ scanned_blocks (scan_params m size al color r) = 0) as [El Es]
    by by destruct r as [[? ?]|].
  assert (us <> []) as Hus.
  { intros ->. clear -Hrun. revert Hrun. generalize (scan_params m size al color r).
    enough (forall m' u u' mk', scan_until m' ns u = Some (true, u', mk') -> u' <> []) as H by (intros ? ?%H; done).
    induction ns as [|n ns IH]; intros m' u u' mk'; simpl; [done|].
    destruct (drm_mm_scan_add_block m' n) as [[r' m1]|]; [|done]. simpl. destruct (r' =? 0); [apply IH|by intros [= <- _]]. }
  destruct us as [|n us]; [done|].
  destruct (scan_marks_one m ns (scan_params m size al color r) [] n us mk) as (m' & Hrm); try done.
  - by rewrite El.
  - lia.
  - intros k Hk. rewrite (wf_block_end m a e Hwf k Hk). destruct (wf_block _ _ _ Hwf k Hk) as (_&_&_&_&_&?&_). lia.
  - by exists n, m', us.
Qed.

Section Evict.
Context (g : cfg) (s : i915) (Hok : gtt_ok g s).

Lemma lists_bound : all_bound s (inactive_list s ++ active_list s).
Proof.
  intros o Ho. destruct (proj1 (p_lists _ _ (ok_place _ _ Hok) o) Ho) as (b & E & Hn).
  destruct (gtt_space b) as [n|] eqn:Hs; [|done]. by exists b, n.
Qed.

Lemma candidates_facts nonblocking :
  NoDup (candidates s nonblocking).*1 /\ NoDup (candidates s nonblocking).*2 /\
  (forall n, n ∈ (candidates s nonblocking).*2 -> n ∈ node_list (mm s)) /\
  Z.of_nat (length (candidates s nonblocking).*2) < 2 ^ 32 /\
  (forall o n, (o, n) ∈ candidates s nonblocking -> exists b, objs s !! o = Some b /\ gtt_space b = Some n /\ pin_count b = 0).
Proof.
  pose proof (ok_place _ _ Hok) as Hp. pose proof (p_nodup _ _ Hp) as Hnd.
  assert (NoDup (if nonblocking then inactive_list s else inactive_list s ++ active_list s)) as Hl.
  { destruct nonblocking; [by apply NoDup_app in Hnd as (? & _)|done]. }
  unfold candidates. split; [by apply unpinned_nodup|].
  destruct (unpinned_nodes g s _ Hp Hl) as (H1 & H2 & H3). split; [done|]. split; [done|]. split; [done|].
  intros o n (_ & b & ? & ? & ?)%unpinned_in. by exists b.
Qed.

Lemma evict_something_ok size al color mappable nonblocking :
  wp (i915_gem_evict_something size al color mappable nonblocking)
    (fun ret s' => gtt_ok g s' /\ shrinks s s' /\
      (ret = 0 -> (bound_count s' < bound_count s)%nat) /\
      (ret = 0 -> color_adjust (mm s) = None -> sane (c_end g) (scan_for g mappable) (u64 size) al ->
         exists st, free_interval (mm s') (c_start g) (c_end g) st (u64 size) /\ (al <> 0 -> (al | st)) /\
           (mappable = true -> 0 <= st /\ st + u64 size <= c_lim g))) s.
Proof.
  pose proof (ok_place _ _ Hok) as Hp. destruct (p_mm _ _ Hp) as [Hwf Hcol].
  destruct (p_cfg _ _ Hp) as (_ & _ & Elim & _).
  destruct (candidates_facts nonblocking) as (Hnd1 & Hnd2 & Hin & Hlen & Hpin).
  set (m0 := scan_params (mm s) (u64 size) al color (scan_for g mappable)).
  destruct (scan_restores (mm s) _ _ (candidates s nonblocking).*2 (u64 size) al color (scan_for g mappable) Hwf Hnd2 Hin Hlen)
    as (found & us & mk & vs & m' & Hrun & Hun & Heqv & _ & Hfst & Hnone). fold m0 in Hrun.
  destruct (mark_all_scan s m0 nonblocking found us mk lists_bound Hrun) as (P & Hmark & HP2 & HPs).
  assert (forall x, x ∈ P -> x ∈ candidates s nonblocking) as HPin by (intros x Hx; by eapply elem_of_submseteq).
  assert (gtt_ok g (set_mm m' s) /\ shrinks s (set_mm m' s)) as [Hok1 Hs1]
    by (split; [by apply gtt_ok_eqv|by apply shrinks_eqv]).
  unfold i915_gem_evict_something. rewrite wp_bind, wp_gets, wp_bind, wp_on_mm_.
  exists m0. split; [rewrite Elim; unfold m0; by destruct mappable|].
  rewrite wp_bind. apply wp_run. exists (found, P.*1), (set_mm mk s). split; [done|]. cbv beta iota.
  assert (forall x, x ∈ P -> node_of s x) as HPn.
  { intros [o n] Hx. destruct (Hpin o n (HPin _ Hx)) as (b & ? & ? & _). by exists b. }
  rewrite <-HP2 in Hun. destruct found.
  - rewrite wp_bind. destruct (unwind_found_run s P mk vs m' [] HPn Hun) as (E & HE & HEnd & HE1 & HE2).
    rewrite app_nil_r in HE. apply wp_run. exists E, (set_mm m' s). split; [done|].
    assert (forall o n, (o, n) ∈ P -> exists b, objs s !! o = Some b /\ gtt_space b = Some n) as HPb.
    { intros o n Hx. destruct (HPn _ Hx) as (b & ? & ?). by exists b. }
    eapply wp_mono; [apply (evict_loop_ok g E (set_mm m' s) 0 Hok1)|].
    + apply HEnd. apply (fmap_submseteq fst) in HPs. apply submseteq_Permutation in HPs as (k & Hk).
      rewrite Hk in Hnd1. by apply NoDup_app in Hnd1 as (? & _).
    + intros o Ho. destruct (HE1 o Ho) as (n & Hx & _). destruct (HPb o n Hx) as (b & Eb & Hn). exists b. by rewrite Hn.
    + intros ret s' (Hok' & Hs' & Hz). split; [done|]. split; [by transitivity (set_mm m' s)|].
      assert (E <> []) as HEne.
      { intros ->. destruct (scan_last_one (mm s) _ _ (candidates s nonblocking).*2 (u64 size) al color (scan_for g mappable) us mk
          Hwf Hnd2 Hin Hlen Hrun) as (n & m1 & us' & -> & Hrm). rewrite HP2 in Hun. cbn [scan_unwind] in Hun.
        rewrite Hrm in Hun. cbn [mbind option_bind] in Hun. apply bind_Some in Hun as ([vs1 m2] & _ & [= <- _]).
        destruct (HE2 n) as (o & Ho & _); [by left|]. by apply elem_of_nil in Ho. }
      split.
      * intros Hr. destruct (Hz Hr) as (_ & Hcnt & _). change (bound_count (set_mm m' s)) with (bound_count s) in Hcnt.
        destruct E; [done|]. simpl in Hcnt. lia.
      * intros Hr Hnc Hsane. destruct (Hz Hr) as (_ & _ & Hgone).
        destruct (scan_frees (mm s) _ _ (candidates s nonblocking).*2 (u64 size) al color (scan_for g mappable) us mk
          Hwf Hnc Hsane Hnd2 Hin Hlen Hrun) as (vs' & m1' & st & Hun' & _ & _ & Hal & Hclip & Hfree).
        rewrite HP2 in Hun. assert (vs' = vs) as -> by congruence.
        exists st. split; [|split; [done|]; intros ->; exact Hclip].
        apply Hfree. intros k Hk. destruct (sk_blocks _ _ Hs' k Hk) as (Hk1 & X1 & X2).
        destruct (sk_blocks _ _ Hs1 k Hk1) as (Hk2 & Y1 & Y2). split; [done|]. split; [|split; congruence].
        intros Hv. destruct (HE2 k Hv) as (o & Ho & Hx). destruct (HPb o k Hx) as (b & Eb & Hn).
        by apply (Hgone o b k Ho Eb Hn).
  - rewrite wp_bind. pose proof (unwind_none_run s P mk vs m' HPn Hun (Hnone eq_refl)) as Hrun2.
    apply wp_run. exists tt, (set_mm m' s). split; [done|]. rewrite wp_ret. split; [done|]. split; [done|]. split; done.
Qed.
End Evict.

(** C3: eviction is sound.  [i915_gem_evict_something] runs to its end from every state
    the invariant allows, for any request: no [BUG_ON] fires and the allocator is as it
    was, less the blocks of the evicted objects.  It never moves or unbinds a pinned
    object, nor touches one that is not bound.  When it returns 0 at least one object has
    been evicted; and on a machine whose allocator is not colored a place for the request
    that was scanned for is free. *)
Theorem evict_something_sound g s size al color mappable nonblocking : gtt_ok g s ->
  wp (i915_gem_evict_something size al color mappable nonblocking)
    (fun ret s' => gtt_ok g s' /\ shrinks s s' /\
      (ret = 0 -> (bound_count s' < bound_count s)%nat) /\
      (ret = 0 -> color_adjust (mm s) = None -> sane (c_end g) (scan_for g mappable) (u64 size) al ->
         exists st, free_interval (mm s') (c_start g) (c_end g) st (u64 size) /\ (al <> 0 -> (al | st)) /\
           (mappable = true -> 0 <= st /\ st + u64 size <= c_lim g))) s.
Proof. intros Hok. by apply evict_something_ok. Qed.
