(* ===== verification/Bind.v ===== *)
(** * Binding an object to the aperture: what it does (i915_gem.c)

    [i915_gem_object_bind_to_gtt] asks the allocator for a block, evicts until there is
    one, and gives the object its place; or it returns an error and the object is not
    bound.  The loop ends: every round but the last evicts something, and on a machine
    whose allocator is not colored one eviction is enough. *)

From S2P Require Import Prelude MM MMInv MMAlloc MMFree MMScan MMBlocks Tiling TilingFacts Fence Gtt GttInv GttFence GttBind Evict.

Open Scope Z_scope.

(** ** Changes to one object and to the allocator *)

(** Everything but [o] is where it was as far as it is pinned or unbound, and also the rest
    that is still bound: it has not moved. *)
Record moves (o : oid) (s s' : i915) : Prop := {
  mv_cfg : info s' = info s /\ mappable_end s' = mappable_end s /\ gtt_total s' = gtt_total s /\
    bit_6_swizzle s' = bit_6_swizzle s /\ fence_reg_start s' = fence_reg_start s /\
    length (fence_regs s') = length (fence_regs s) /\ color_adjust (mm s') = color_adjust (mm s);
  mv_dom : forall k, is_Some (objs s' !! k) <-> is_Some (objs s !! k);
  mv_free : forall k b, k <> o -> objs s !! k = Some b -> gtt_space b = None -> objs s' !! k = Some b;
  mv_pinned : forall k b, k <> o -> objs s !! k = Some b -> pin_count b <> 0 ->
    exists b', objs s' !! k = Some b' /\ gtt_space b' = gtt_space b /\ gtt_offset b' = gtt_offset b /\
      pin_count b' = pin_count b /\ fence_reg b' = fence_reg b;
  mv_stays : forall k b', k <> o -> objs s' !! k = Some b' -> place_in (mm s') b' <> None ->
    exists b, objs s !! k = Some b /\ place_in (mm s') b' = place_in (mm s) b }.

#[global] Instance moves_preorder o : PreOrder (moves o).
Proof.
  split.
  - intros s. split; [by split_and!|done|done| |]; intros k b _ E _; by exists b.
  - intros s1 s2 s3 [(C1&C2&C3&C4&C5&C6&C7) D1 F1 P1 S1] [(C1'&C2'&C3'&C4'&C5'&C6'&C7') D2 F2 P2 S2].
    split; [split_and!; congruence| | | |]; cycle 3.
    { intros k b Hk E G. destruct (S2 k b Hk E G) as (b2 & E2 & G2). destruct (S1 k b2 Hk E2) as (b1 & E1 & G1); [congruence|].
      exists b1. split; [done|congruence]. }
    + intros k. by rewrite D2.
    + intros k b Hk E G. auto.
    + intros k b Hk E G. destruct (P1 k b Hk E G) as (b' & E' & ? & ? & Hp & ?).
      destruct (P2 k b' Hk E') as (b2 & E2 & ? & ? & ? & ?); [congruence|].
      exists b2. split_and!; congruence.
Qed.

Lemma keeps_moves o s s' : keeps s s' -> moves o s s'.
Proof. intros [C D F P S]. split; [done|done|by eauto| |]; intros k b _; [apply P|apply S]. Qed.

Lemma put_moves o b s : is_Some (objs s !! o) -> moves o s (put_bo o b s).
Proof.
  intros Ho. split; [by split_and!| | | |]; cycle 3.
  { intros k c Hk. rewrite put_bo_objs, decide_False by done. by exists c. }
  - intros k. rewrite put_bo_objs. case_decide; [subst; split; eauto|done].
  - intros k c Hk E _. by rewrite put_bo_objs, decide_False.
  - intros k c Hk E _. exists c. by rewrite put_bo_objs, decide_False.
Qed.

Lemma rest_moves o s s' : same_rest s s' -> objs s' = objs s -> bit_6_swizzle s' = bit_6_swizzle s ->
  fence_reg_start s' = fence_reg_start s -> moves o s s'.
Proof.
  intros (E1 & E2 & E3 & E4 & E5 & E6 & E7 & E8 & E9) Eo E10 E11.
  split; rewrite ?Eo, ?E4; [split_and!; congruence|done|done| |]; intros k b _ E _; by exists b.
Qed.

(** An unbound object, changed in any way that leaves it unbound; or a new one. *)
Lemma put_free g s o b' : gtt_ok g s -> (forall b, objs s !! o = Some b -> gtt_space b = None) ->
  bo_ok g (mm s) b' -> gtt_space b' = None -> gtt_ok g (put_bo o b' s).
Proof.
  intros [[P1 P2 P3 P4 P5 P6 P7] [F1 F2 F3 F4 F5] H] Ho Hb' Hn'.
  destruct (bk_free _ _ _ Hb' Hn') as (Hp' & Hf' & Ha').
  assert (forall b, objs s !! o = Some b -> fence_reg b = None /\ active b = false) as Ho'.
  { intros b E. destruct (bk_free _ _ _ (P3 o b E) (Ho b E)) as (_ & ? & ?). done. }
  split; [split|split|]; try done.
  - intros k c. rewrite put_bo_objs. case_decide; [by intros [= <-]|apply P3].
  - intros k k' c c' n. rewrite !put_bo_objs. repeat case_decide; intros Hc Hc' Hj Hj'; simplify_eq; try congruence.
    by apply (P4 k k' c c' n).
  - intros k. change (inactive_list (put_bo o b' s) ++ active_list (put_bo o b' s)) with (inactive_list s ++ active_list s).
    rewrite P6. split; intros (c & Hc & Hnc); exists c.
    + rewrite put_bo_objs, decide_False; [done|]. intros ->. by destruct Hnc, (Ho c).
    + rewrite put_bo_objs in Hc. case_decide; [by simplify_eq|done].
  - intros k. change (active_list (put_bo o b' s)) with (active_list s). rewrite P7. split; intros (c & Hc & Hac); exists c.
    + rewrite put_bo_objs, decide_False; [done|]. intros ->. destruct (Ho' c Hc); congruence.
    + rewrite put_bo_objs in Hc. case_decide; [simplify_eq; congruence|done].
  - intros r fr k Hr Hk. destruct (F2 r fr k Hr Hk) as (c & Hc & Hfc). exists c.
    rewrite put_bo_objs, decide_False; [done|]. intros ->. destruct (Ho' c Hc); congruence.
  - intros k c r Hc Hfc. rewrite put_bo_objs in Hc. case_decide; [simplify_eq; congruence|]. by apply (F3 k c).
  - intros r fr Hlo Hr. specialize (H r fr Hlo Hr). destruct (reg_obj fr) as [k|] eqn:Hk; [|done]. intros c Hc.
    assert (k <> o) as Hko by (intros ->; destruct (F2 r fr o Hr Hk) as (c0 & Hc0 & ?); destruct (Ho' c0 Hc0); congruence).
    rewrite put_bo_objs, decide_False in Hc by done. by apply H.
Qed.

(** The object gets the block [n], which no object has. *)
Lemma put_bound g s s' o b b' n : gtt_ok g s -> objs s !! o = Some b -> gtt_space b = None ->
  (forall k c, objs s !! k = Some c -> gtt_space c <> Some n) ->
  objs s' = <[o := b']> (objs s) -> gtt_space b' = Some n -> bo_ok g (mm s) b' -> fence_reg b' = None -> active b' = false ->
  info s' = info s -> mappable_end s' = mappable_end s -> gtt_total s' = gtt_total s -> mm s' = mm s ->
  inactive_list s' = inactive_list s ++ [o] -> active_list s' = active_list s ->
  fence_regs s' = fence_regs s -> fence_list s' = fence_list s -> mmio s' = mmio s -> gtt_ok g s'.
Proof.
  intros [[P1 P2 P3 P4 P5 P6 P7] [F1 F2 F3 F4 F5] H] E Hn Hnew EO Hn' Hb' Hf' Ha' E1 E2 E3 Em EI EA ER EL EMM.
  destruct (bk_free _ _ _ (P3 o b E) Hn) as (_ & Hf & Ha).
  assert (forall k, objs s' !! k = if decide (k = o) then Some b' else objs s !! k) as EO'.
  { intros k. rewrite EO. case_decide as Hk; [subst; apply lookup_insert_eq|by rewrite lookup_insert_ne]. }
  assert (o ∉ inactive_list s ++ active_list s) as Hout by (intros (c & Hc & Hnc)%P6; congruence).
  assert (inactive_list s' ++ active_list s' ≡ₚ o :: inactive_list s ++ active_list s) as HL.
  { rewrite EI, EA, <-app_assoc. simpl. by rewrite <-Permutation_middle. }
  split; [split|split|].
  - by rewrite E1, E2, E3.
  - by rewrite Em.
  - intros k c. rewrite EO', Em. case_decide; [by intros [= <-]|apply P3].
  - intros k k' c c' j. rewrite !EO'. repeat case_decide; intros Hc Hc' Hj Hj'; simplify_eq; try done.
    + by destruct (Hnew k' c').
    + by destruct (Hnew k c).
    + by apply (P4 k k' c c' j).
  - rewrite HL. by apply NoDup_cons.
  - intros k. rewrite HL, elem_of_cons, P6. split.
    + intros [->|(c & Hc & Hnc)]; [exists b'; rewrite EO', decide_True by done; by rewrite Hn'|].
      exists c. rewrite EO', decide_False; [done|]. intros ->. congruence.
    + intros (c & Hc & Hnc). rewrite EO' in Hc. case_decide; [by left|]. right. by exists c.
  - intros k. rewrite EA, P7. split; intros (c & Hc & Hac); exists c.
    + rewrite EO', decide_False; [done|]. intros ->. congruence.
    + rewrite EO' in Hc. case_decide; [simplify_eq; congruence|done].
  - by rewrite ER.
  - intros r fr k. rewrite ER. intros Hr Hk. destruct (F2 r fr k Hr Hk) as (c & Hc & Hfc).
    exists c. rewrite EO', decide_False; [done|]. intros ->. congruence.
  - intros k c r Hc Hfc. rewrite ER. rewrite EO' in Hc. case_decide; [simplify_eq; congruence|]. by apply (F3 k c).
  - by rewrite EL, ER.
  - by rewrite ER.
  - intros r fr Hlo. rewrite ER. intros Hr. unfold fence_shows. rewrite E1, EMM. specialize (H r fr Hlo Hr).
    destruct (reg_obj fr) as [k|] eqn:Hk; [|done]. intros c Hc.
    assert (k <> o) as Hko by (intros ->; destruct (F2 r fr o Hr Hk) as (c0 & ? & ?); congruence).
    rewrite EO', decide_False in Hc by done. destruct (H c Hc) as (rg & Hsh & j & Hj).
    exists rg. split; [done|]. exists j. by rewrite Em.
Qed.

(** ** The node *)

Definition with_zero_node (node : nid) (m : drm_mm) : drm_mm := with_nodes (<[node := zero_node]> (nodes m)) m.

(** kzalloc of a node. *)
Lemma zero_node_ok g s node : gtt_ok g s -> ~ live (mm s) node ->
  gtt_ok g (set_mm (with_zero_node node (mm s)) s) /\ keeps s (set_mm (with_zero_node node (mm s)) s) /\
  spare (with_zero_node node (mm s)) node.
Proof.
  intros Hok Hl. destruct (p_mm _ _ (ok_place _ _ Hok)) as [Hwf _].
  assert (fresh_kz (mm s) (Some node)) as Hf by (intros n [= <-]; done).
  pose proof (kmalloc_run (mm s) _ _ _ Hwf Hf) as HS. simpl in HS. fold (with_zero_node node (mm s)) in HS.
  assert (forall o b n, objs s !! o = Some b -> gtt_space b = Some n ->
    n ∈ node_list (mm s) /\ get (with_zero_node node (mm s)) n = get (mm s) n) as Hg.
  { intros o b n E Hn. pose proof (bound_in g s o b n Hok E Hn) as Hin. split; [done|]. apply (sup_get _ _ _ _ _ HS). by right. }
  split; [|split; [|apply (sup_spare _ _ _ _ _ HS)]].
  - apply gtt_ok_mm; try done; [apply (sup_wf _ _ _ _ _ HS)|]. intros o b n E Hn. rewrite (sup_list _ _ _ _ _ HS).
    unfold block_start. by destruct (Hg o b n E Hn) as [? ->].
  - apply mm_keeps; [done|]. intros o b n E Hn. by destruct (Hg o b n E Hn) as [_ ->].
Qed.

(** kfree of a node that was not used. *)
Lemma delete_node_ok g s node : gtt_ok g s -> spare (mm s) node ->
  gtt_ok g (set_mm (with_nodes (delete node (nodes (mm s))) (mm s)) s) /\
  keeps s (set_mm (with_nodes (delete node (nodes (mm s))) (mm s)) s).
Proof.
  intros Hok (Hl & Hout & Hun & _). destruct (p_mm _ _ (ok_place _ _ Hok)) as [Hwf _].
  set (m' := with_nodes _ (mm s)). assert (forall k, k <> node -> get m' k = get (mm s) k /\ (live (mm s) k -> live m' k)) as Hg.
  { intros k Hk. unfold get, live, m'. simpl. by rewrite lookup_total_delete_ne, lookup_delete_ne by done. }
  assert (forall o b n, objs s !! o = Some b -> gtt_space b = Some n -> n ∈ node_list (mm s) /\ get m' n = get (mm s) n) as Hb.
  { intros o b n E Hn. pose proof (bound_in g s o b n Hok E Hn) as Hin. split; [done|].
    apply Hg. intros ->. apply Hout. by right. }
  split; [apply gtt_ok_mm; try done|apply mm_keeps; [done|]; intros o b n E Hn; by destruct (Hb o b n E Hn) as [_ ->]].
  - apply (wf_frame (mm s)); try done.
    + intros k Hk. destruct (Hg k) as [G1 G2]; [by intros ->|]. split; [done|]. by apply G2, (wf_live _ _ _ Hwf).
    + apply Hwf.
    + intros k Hk. destruct (Hg k) as [-> G2]; [by intros ->|]. destruct (wf_unused_off _ _ _ Hwf k Hk) as (? & ?). split; auto.
  - intros o b n E Hn. unfold block_start. by destruct (Hb o b n E Hn) as [? ->].
Qed.

(** ** The loop *)

(** The node has got a block for the request, and no object has it. *)
Record got_block (s : i915) (node : nid) (rq : request) : Prop := {
  gb_in : node ∈ node_list (mm s);
  gb_size : node_size (get (mm s) node) = rq_size rq;
  gb_align : rq_alignment rq <> 0 -> (rq_alignment rq | block_start (mm s) node);
  gb_range : 0 <= block_start (mm s) node /\ block_start (mm s) node + rq_size rq <= rq_max rq;
  gb_new : forall k c, objs s !! k = Some c -> gtt_space c <> Some node }.

(** The request is one the allocator can be asked for. *)
Definition rq_sane (g : cfg) (rq : request) : Prop :=
  0 < rq_size rq <= 2 ^ 31 /\ 0 <= rq_alignment rq < 2 ^ 32 /\ 0 <= rq_max rq <= 2 ^ 31.

Lemma rq_sane_range g rq : cfg_ok g -> rq_sane g rq -> sane (c_end g) (Some (0, rq_max rq)) (rq_size rq) (rq_alignment rq).
Proof. intros Hg (? & ? & ?). destruct (cf_total _ Hg), (cf_range _ Hg). split_and!; lia. Qed.

(** There is a free place for it. *)
Definition room (g : cfg) (s : i915) (rq : request) (st : Z) : Prop :=
  free_interval (mm s) (c_start g) (c_end g) st (rq_size rq) /\ (rq_alignment rq <> 0 -> (rq_alignment rq | st)) /\
  0 <= st /\ st + rq_size rq <= rq_max rq.

Lemma insert_ok g s node rq cl : gtt_ok g s -> spare (mm s) node -> rq_sane g rq ->
  exists ret m', drm_mm_insert_node_in_range_generic (mm s) node (rq_size rq) (rq_alignment rq) cl 0 (rq_max rq) = Some (ret, m') /\
    gtt_ok g (set_mm m' s) /\ keeps s (set_mm m' s) /\
    (ret = 0 -> got_block (set_mm m' s) node rq) /\
    (ret <> 0 -> m' = mm s /\ (color_adjust (mm s) = None -> forall st, ~ room g s rq st)).
Proof.
  intros Hok Hsp Hrq. pose proof (ok_place _ _ Hok) as Hp. destruct (p_mm _ _ Hp) as [Hwf Hcol].
  pose proof (rq_sane_range g rq (proj1 (p_cfg _ _ Hp)) Hrq) as Hsane.
  pose proof (insert_node_in_range_outcome (mm s) _ _ Hwf Hcol node Hsp (rq_size rq) (rq_alignment rq) cl 0 (rq_max rq) Hsane) as Hout.
  destruct Hout as [(m' & Hrun & HI)|[Hrun Hno]].
  - exists 0, m'. split; [done|]. destruct (ins_params _ _ _ _ _ _ _ _ _ HI) as (_ & _ & _ & HC & _).
    assert (forall o b n, objs s !! o = Some b -> gtt_space b = Some n -> n ∈ node_list m' /\
      block_start m' n = block_start (mm s) n /\ node_size (get m' n) = node_size (get (mm s) n)) as Hoth.
    { intros o b n E Hn. apply (ins_others _ _ _ _ _ _ _ _ _ HI). by apply (bound_in g s o b). }
    split; [|split; [apply mm_keeps; [done|]; by apply Hoth|split; [|done]]].
    + apply gtt_ok_mm; [done|apply (ins_wf _ _ _ _ _ _ _ _ _ HI)|done|exact Hoth].
    + intros _. destruct (ins_clip _ _ _ _ _ _ _ _ _ HI) as [Hlo Hhi].
      split; [apply (ins_in _ _ _ _ _ _ _ _ _ HI)|apply (ins_size _ _ _ _ _ _ _ _ _ HI)|apply (ins_aligned _ _ _ _ _ _ _ _ _ HI)|done|].
      intros k c Hk Hc. destruct Hsp as (_ & Hx & _). apply Hx. right. by apply (bound_in g s k c).
  - exists (- ENOSPC), (mm s). split; [done|]. assert (set_mm (mm s) s = s) as -> by by destruct s.
    split; [done|]. split; [done|]. split; [done|]. intros _. split; [done|]. intros HC st (Hf & Hal & Hlo & Hhi).
    by apply (enospc_no_room (mm s) _ _ node (rq_size rq) (rq_alignment rq) cl (Some (0, rq_max rq)) _ st Hwf HC Hsane (or_intror (conj Hrun Hno)) Hrun).
Qed.

(** How many rounds are enough. *)
Definition enough (g : cfg) (s : i915) (rq : request) (mappable : bool) (fuel : nat) : Prop :=
  (bound_count s <= fuel)%nat \/
  color_adjust (mm s) = None /\ rq_size rq < 2 ^ 31 /\ rq_max rq = (if mappable then c_lim g else c_total g) /\
  ((0 < fuel)%nat \/ exists st, room g s rq st).

Lemma search_free_ok g fuel : forall s node rq cl mappable nonblocking,
  gtt_ok g s -> spare (mm s) node -> rq_sane g rq -> enough g s rq mappable fuel ->
  wp (search_free fuel node rq cl mappable nonblocking) (fun ret s' => gtt_ok g s' /\ keeps s s' /\
    (bound_count s' <= bound_count s)%nat /\ (ret = 0 -> got_block s' node rq) /\ (ret <> 0 -> spare (mm s') node)) s.
Proof.
  induction fuel as [|fuel IH]; intros s node rq cl mappable nonblocking Hok Hsp Hrq Hen; simpl; rewrite wp_bind;
    destruct (insert_ok g s node rq cl Hok Hsp Hrq) as (ret & m' & Hrun & Hok1 & Hk1 & Hz & Hnz);
    apply wp_on_mm; exists ret, m'; (split; [done|]); (wp_if; zbool; [rewrite wp_ret; split_and!; auto; done|]);
    (destruct Hnz as [-> Hno]; [done|]); (assert (set_mm (mm s) s = s) as -> by by destruct s); rewrite wp_bind;
    (eapply wp_mono; [by apply (evict_something_ok g s Hok)|]); intros ret2 s2 (Hok2 & Hs2 & Hcnt & Hroom); cbv beta;
    destruct (Z.eqb_spec ret2 0) as [->|Hr2].
  - destruct Hen as [Hen|(HC & _ & _ & [?|[st Hst]])]; [specialize (Hcnt eq_refl); lia|lia|]. by destruct (Hno HC st).
  - rewrite wp_ret. split; [done|]. split; [apply Hs2|]. split; [apply Hs2|]. split; [done|]. intros _. by apply (sk_spare _ _ Hs2).
  - specialize (Hcnt eq_refl). assert (enough g s2 rq mappable fuel) as Hen2.
    { destruct Hen as [Hen|(HC & Hsz & Hmax & _)]; [left; lia|]. right.
      pose proof (kp_cfg _ _ (sk_keeps _ _ Hs2)) as (_&_&_&_&_&_&HC2). rewrite HC2. split_and!; try done. right.
      assert (u64 (s32 (rq_size rq)) = rq_size rq) as Eu by (rewrite s32_small, u64_small; destruct Hrq; lia).
      destruct (p_cfg _ _ (ok_place _ _ Hok)) as (Hg & _). destruct (cf_total _ Hg), (cf_range _ Hg), (cf_lim _ Hg).
      destruct Hrq as (R1 & R2 & R3). destruct (Hroom eq_refl HC) as (st & Hf & Hal & Hclip).
      - rewrite Eu. unfold scan_for. destruct mappable; split_and!; lia.
      - rewrite Eu in *. exists st. split; [done|]. split; [done|]. destruct Hf as (? & ? & _).
        destruct mappable; [by rewrite Hmax; apply Hclip|lia]. }
    eapply wp_mono; [apply (IH s2); [done|by apply (sk_spare _ _ Hs2)|done|done]|].
    intros r s3 (Hok3 & Hk3 & Hc3 & H3 & H4). split; [done|]. split; [transitivity s2; [apply Hs2|done]|]. split; [lia|done].
  - rewrite wp_ret. split; [done|]. split; [apply Hs2|]. split; [apply Hs2|]. split; [done|]. intros _. by apply (sk_spare _ _ Hs2).
Qed.

(** ** The pages *)

(** An unbound object, with its record afterwards. *)
Definition unbound_step (g : cfg) (o : oid) (s s' : i915) (b' : bo) : Prop :=
  gtt_ok g s' /\ moves o s s' /\ mm s' = mm s /\ bound_count s' = bound_count s /\ objs s' !! o = Some b' /\
  forall k, k <> o -> objs s' !! k = objs s !! k.

Lemma unbound_trans g o s s1 s2 b1 b2 : unbound_step g o s s1 b1 -> unbound_step g o s1 s2 b2 -> unbound_step g o s s2 b2.
Proof.
  intros (_ & M1 & E1 & C1 & _ & O1) (? & M2 & E2 & C2 & ? & O2). split; [done|]. split; [by transitivity s1|].
  split; [congruence|]. split; [congruence|]. split; [done|]. intros k Hk. by rewrite O2, O1.
Qed.

Lemma unbound_put g o s b b' : gtt_ok g s -> objs s !! o = Some b -> gtt_space b = None -> bo_ok g (mm s) b' ->
  gtt_space b' = None -> unbound_step g o s (put_bo o b' s) b'.
Proof.
  intros Hok E Hn Hb' Hn'. split; [apply put_free; try done; intros c Ec; congruence|].
  split; [apply put_moves; by rewrite E|]. split; [done|]. split; [done|]. split; [by rewrite put_bo_objs, decide_True|].
  intros k Hk. by rewrite put_bo_objs, decide_False.
Qed.

Lemma unbound_rest g o s s' b : gtt_ok g s -> objs s !! o = Some b -> same_rest s s' -> objs s' = objs s ->
  bit_6_swizzle s' = bit_6_swizzle s -> fence_reg_start s' = fence_reg_start s -> unbound_step g o s s' b.
Proof.
  intros Hok E Hr Eo E1 E2. split; [by apply (gtt_ok_rest g s)|]. split; [by apply rest_moves|].
  destruct Hr as (?&?&?&?&?&?&?). split; [done|]. split; [unfold bound_count; congruence|]. by rewrite Eo.
Qed.

(** Fields of an unbound object the invariant hardly looks at. *)
Lemma bo_ok_pages g m b (h : bool) p : bo_ok g m b -> gtt_space b = None -> 0 <= p -> (h = false -> p = 0) ->
  bo_ok g m (set_pages_pin_count p (set_has_pages h b)).
Proof. intros [K1 K2 K3 K4 K5 K6 Kg K7 K8] Hn Hp Hh. split; try done. intros n Hx. simpl in Hx. congruence. Qed.

Lemma set_pages_id b h : has_pages b = h -> set_pages_pin_count (pages_pin_count b) (set_has_pages h b) = b.
Proof. intros <-. by destruct b. Qed.

Lemma set_pages_count b h p : has_pages b = h -> set_pages_pin_count p b = set_pages_pin_count p (set_has_pages h b).
Proof. intros <-. by destruct b. Qed.

Lemma get_pages_ok g s o b : gtt_ok g s -> objs s !! o = Some b -> gtt_space b = None ->
  wp (i915_gem_object_get_pages o) (fun ret s' =>
    unbound_step g o s s' (set_pages_pin_count (pages_pin_count b) (set_has_pages (has_pages b || (ret =? 0)) b))) s.
Proof.
  intros Hok E Hn. pose proof (p_bo _ _ (ok_place _ _ Hok) o b E) as Hb. destruct (bk_pages _ _ _ Hb) as [Hp0 Hp1].
  assert (unbound_step g o s s b) as Href by (split_and!; done).
  unfold i915_gem_object_get_pages. rewrite wp_bind. apply (wp_get_bo o b); [done|]. wp_if.
  { rewrite wp_ret. simpl. by rewrite set_pages_id. }
  specialize (Hp1 eq_refl). rewrite wp_bind. apply wp_bug_on; [by rewrite Hp1|].
  rewrite wp_bind. apply wp_next_answer. intros a l.
  assert (unbound_step g o s (set_answers l s) b) as H1 by (by apply unbound_rest; [| |split_and!|..]).
  wp_if.
  { rewrite wp_ret. destruct (Z.eqb_spec a.1 0); [by zbool|]. simpl. by rewrite set_pages_id. }
  rewrite wp_bind. apply (wp_upd_bo o b); [done|]. rewrite wp_bind, wp_modify, wp_ret. simpl.
  assert (set_has_pages true b = set_pages_pin_count (pages_pin_count b) (set_has_pages true b)) as Eb by done.
  eapply (unbound_trans g o s); [exact H1|]. eapply (unbound_trans g o).
  - apply (unbound_put g o (set_answers l s) b (set_pages_pin_count (pages_pin_count b) (set_has_pages true b))); try done; [apply H1|].
    by apply bo_ok_pages.
  - apply unbound_rest; try done; [|by rewrite put_bo_objs, decide_True].
    apply put_free; try done; [apply H1| |by apply bo_ok_pages].
    intros c Ec. simpl in Ec. congruence.
Qed.

Lemma pin_pages_ok g s o b : gtt_ok g s -> objs s !! o = Some b -> gtt_space b = None -> has_pages b = true ->
  wp (i915_gem_object_pin_pages o) (fun _ s' => unbound_step g o s s' (set_pages_pin_count (pages_pin_count b + 1) b)) s.
Proof.
  intros Hok E Hn Hh. pose proof (p_bo _ _ (ok_place _ _ Hok) o b E) as Hb. destruct (bk_pages _ _ _ Hb) as [Hp0 _].
  unfold i915_gem_object_pin_pages. rewrite wp_bind. apply (wp_get_bo o b); [done|].
  rewrite wp_bind. apply wp_bug_on; [by rewrite Hh|]. apply (wp_upd_bo o b); [done|].
  apply (unbound_put g o s b); try done. rewrite (set_pages_count b true) by done.
  apply bo_ok_pages; [done|done|lia|done].
Qed.

Lemma unpin_pages_ok g s o b : gtt_ok g s -> objs s !! o = Some b -> gtt_space b = None -> has_pages b = true ->
  0 < pages_pin_count b ->
  wp (i915_gem_object_unpin_pages o) (fun _ s' => unbound_step g o s s' (set_pages_pin_count (pages_pin_count b - 1) b)) s.
Proof.
  intros Hok E Hn Hh Hp. pose proof (p_bo _ _ (ok_place _ _ Hok) o b E) as Hb.
  unfold i915_gem_object_unpin_pages. rewrite wp_bind. apply (wp_get_bo o b); [done|].
  rewrite wp_bind. apply wp_bug_on; [lia|]. apply (wp_upd_bo o b); [done|].
  apply (unbound_put g o s b); try done.
  rewrite (set_pages_count b true) by done.
  apply bo_ok_pages; [done|done|lia|done].
Qed.

(** ** The request *)

Lemma gtt_size_pow2 c size t : gen c < 4 -> t <> I915_TILING_NONE -> 0 <= size <= 2 ^ 31 ->
  exists j, i915_gem_get_gtt_size c size t = Some (2 ^ j) /\ (if gen c =? 3 then 20 else 19) <= j <= 31 /\ size <= 2 ^ j /\
    (size <= 2 ^ 30 -> 2 ^ j <= 2 ^ 30).
Proof.
  intros Hg Ht Hs. unfold i915_gem_get_gtt_size.
  rewrite (proj2 (Z.leb_gt 4 (gen c))), (proj2 (Z.eqb_neq _ _) Ht) by done. cbn [orb].
  set (k := if gen c =? 3 then 20 else 19). assert (k = 19 \/ k = 20) as Hk by (unfold k; destruct (gen c =? 3); lia).
  replace (if gen c =? 3 then 1024 * 1024 else 512 * 1024) with (2 ^ k) by (unfold k; by destruct (gen c =? 3)).
  destruct (grow_pow2 size k 12) as (j & -> & Hj & Hsj & Hmin); [lia..|]. exists j. split_and!; try done; try lia.
  intros Hsmall. apply Z.pow_le_mono_r; [done|]. destruct Hmin as [->|Hmin]; [lia|].
  destruct (Z.le_gt_cases j 30) as [|Hlt]; [done|]. pose proof (Z.pow_le_mono_r 2 30 (j - 1)). lia.
Qed.

Lemma pow2_page j : 12 <= j -> (4096 | 2 ^ j).
Proof. intros Hj. exists (2 ^ (j - 12)). change 4096 with (2 ^ 12). rewrite <-Z.pow_add_r by lia. f_equal. lia. Qed.

(** The size of the fence and the alignments. *)
Record fence_need (c : chip) (b : bo) (fs fa ua : Z) : Prop := {
  fn_size : i915_gem_get_gtt_size c (u32 (base_size b)) (tiling_mode b) = Some fs;
  fn_fenced : i915_gem_get_gtt_alignment c (u32 (base_size b)) (tiling_mode b) true = Some fa;
  fn_unfenced : i915_gem_get_gtt_alignment c (u32 (base_size b)) (tiling_mode b) false = Some ua;
  fn_fits : base_size b <= fs <= 2 ^ 31 /\ (4096 | fs) /\ (base_size b <= 2 ^ 30 -> fs <= 2 ^ 30);
  fn_pow2 : exists j, fa = 2 ^ j /\ 12 <= j <= 31 /\ (gen c < 4 -> tiling_mode b <> I915_TILING_NONE ->
    (if gen c =? 3 then 20 else 19) <= j);
  fn_pow2' : exists j, ua = 2 ^ j /\ 12 <= j <= 31;
  fn_old : gen c < 4 -> tiling_mode b <> I915_TILING_NONE ->
    fa = fs /\ i915_gem_get_gtt_size c (u32 (base_size b)) I915_TILING_X = Some fs }.

Lemma fence_need_ok c b : 0 < base_size b <= 2 ^ 31 -> (4096 | base_size b) -> exists fs fa ua, fence_need c b fs fa ua.
Proof.
  intros Hs Hd. assert (u32 (base_size b) = base_size b) as Eu by (apply u32_small; lia).
  assert (4096 = 2 ^ 12) as E12 by done.
  destruct (Z.le_gt_cases 4 (gen c)) as [Hg|Hg]; [|destruct (decide (tiling_mode b = I915_TILING_NONE)) as [Ht|Ht]].
  - exists (base_size b), 4096, 4096. split; rewrite ?Eu; unfold i915_gem_get_gtt_alignment, i915_gem_get_gtt_size;
      rewrite ?(proj2 (Z.leb_le 4 (gen c)) Hg); try done; try lia;
      first [exists 12; split_and!; try done; lia|split_and!; done || lia].
  - exists (base_size b), 4096, 4096. split; rewrite ?Eu, ?Ht; unfold i915_gem_get_gtt_alignment, i915_gem_get_gtt_size;
      rewrite ?Z.eqb_refl, ?orb_true_r; try done;
      first [exists 12; split_and!; try done; lia|split_and!; done || lia].
  - destruct (gtt_size_pow2 c (base_size b) (tiling_mode b)) as (j & Hj & Hk & Hsj & Hsmall); [done|done|lia|].
    assert (i915_gem_get_gtt_alignment c (base_size b) (tiling_mode b) true = Some (2 ^ j)) as Ha.
    { unfold i915_gem_get_gtt_alignment. rewrite (proj2 (Z.leb_gt 4 (gen c))), (proj2 (Z.eqb_neq _ _) Ht) by done. exact Hj. }
    assert (12 <= j <= 31) as [H12 H31] by (destruct (gen c =? 3); lia).
    assert (2 ^ j <= 2 ^ 31) by (apply Z.pow_le_mono_r; lia).
    assert (exists ua, i915_gem_get_gtt_alignment c (base_size b) (tiling_mode b) false = Some ua /\ (ua = 4096 \/ ua = 2 ^ j)) as (ua & Hua & Hu).
    { unfold i915_gem_get_gtt_alignment. match goal with |- context [if ?q then Some 4096 else _] => destruct q end;
        [exists 4096; split; [done|by left]|exists (2 ^ j); split; [done|by right]]. }
    exists (2 ^ j), (2 ^ j), ua. split; rewrite ?Eu; try done.
    + split; [done|]. split; [|done]. by apply pow2_page.
    + exists j. split; [done|]. split; [done|]. intros _ _. apply Hk.
    + destruct Hu as [->| ->]; [exists 12; split; [done|lia]|exists j; split; [done|lia]].
    + intros _ _. split; [done|]. rewrite <-Hj. unfold i915_gem_get_gtt_size.
      by rewrite (proj2 (Z.eqb_neq _ _) Ht).
Qed.

(** A request for an object: sizes in pages, as aligned as was asked for. *)
Record rq_good (g : cfg) (b : bo) (alignment : Z) (maf : bool) (rq : request) : Prop := {
  rg_sane : rq_sane g rq;
  rg_max : rq_max rq = (if maf then c_lim g else c_total g);
  rg_size : base_size b <= rq_size rq /\ (4096 | rq_size rq) /\ (base_size b <= 2 ^ 30 -> rq_size rq <= 2 ^ 30);
  rg_align : rq_alignment rq <> 0 /\ (4096 | rq_alignment rq) /\ (alignment <> 0 -> rq_alignment rq = alignment);
  rg_fence : exists ua, fence_need (c_chip g) b (rq_fence_size rq) (rq_fence_alignment rq) ua;
  rg_maf : maf = true -> rq_size rq = rq_fence_size rq /\ (rq_fence_alignment rq | rq_alignment rq) }.

(** An alignment that is not in pages is refused when the object has to be mappable and
    fenceable, and only then. *)
Lemma bind_request_ok g b alignment maf : cfg_ok g -> 0 < base_size b <= 2 ^ 31 -> (4096 | base_size b) ->
  0 <= alignment < 2 ^ 32 -> maf = true \/ (4096 | alignment) ->
  exists r, bind_request (c_chip g) (c_lim g) (c_total g) b alignment maf = Some r /\
    match r with inl ret => ret <> 0 | inr rq => rq_good g b alignment maf rq end.
Proof.
  intros Hg Hs Hd Ha Had. destruct (fence_need_ok (c_chip g) b Hs Hd) as (fs & fa & ua & HF).
  unfold bind_request. rewrite (fn_size _ _ _ _ _ HF), (fn_fenced _ _ _ _ _ HF), (fn_unfenced _ _ _ _ _ HF). cbn [mbind option_bind].
  destruct (fn_fits _ _ _ _ _ HF) as (Hfs & Hfd & Hfsm), (fn_pow2 _ _ _ _ _ HF) as (j & Efa & Hj & _), (fn_pow2' _ _ _ _ _ HF) as (j' & Eua & Hj').
  destruct (cf_total _ Hg), (cf_lim _ Hg).
  assert (0 < fa < 2 ^ 32 /\ (4096 | fa)) as [Hfa Hfad].
  { rewrite Efa. split; [|apply pow2_page; lia]. pose proof (Z.pow_le_mono_r 2 j 31). lia. }
  assert (0 < ua < 2 ^ 32 /\ (4096 | ua)) as [Hua Huad].
  { rewrite Eua. split; [|apply pow2_page; lia]. pose proof (Z.pow_le_mono_r 2 j' 31). lia. }
  set (al := if alignment =? 0 then (if maf then fa else ua) else alignment).
  assert (al <> 0 /\ (alignment <> 0 -> al = alignment) /\ 0 <= al < 2 ^ 32) as (Al1 & Al3 & Al4).
  { unfold al. destruct (Z.eqb_spec alignment 0); [|done]. destruct maf; split_and!; done || lia. }
  destruct (maf && _) eqn:Hbad; [eexists; split; [done|]; by unfold EINVAL|].
  assert (maf = true -> (fa | al)) as Hmf.
  { intros ->. simpl in Hbad. apply negb_false_iff, Z.eqb_eq in Hbad.
    rewrite u32_small, Efa, land_pow2_pred in Hbad by lia. rewrite Efa. by apply Z.mod_divide; [lia|]. }
  assert (4096 | al) as Al2.
  { destruct Had as [Hm|Had]; [etransitivity; [exact Hfad|auto]|]. unfold al. destruct (alignment =? 0); [by destruct maf|done]. }
  destruct (Z.gtb_spec (base_size b) (if maf then c_lim g else c_total g)) as [Hbig|Hfit]; [eexists; split; [done|]; by unfold E2BIG|].
  eexists. split; [done|]. assert (u32 (base_size b) = base_size b) as Eu by (apply u32_small; lia). rewrite Eu.
  split; simpl.
  - split_and!; simpl; try lia; destruct maf; lia.
  - done.
  - destruct maf; (split; [lia|done]).
  - done.
  - by exists ua.
  - intros Hm. split; [by rewrite Hm|auto].
Qed.

(** ** The place *)

Lemma land_field x k w : 0 <= k -> 0 <= w -> (2 ^ k | x) -> 0 <= x < 2 ^ (k + w) ->
  Z.land x (Z.lnot (Z.shiftl (Z.ones w) k)) = 0.
Proof.
  intros Hk Hw [q ->] Hx. apply Z.bits_inj'. intros i Hi. rewrite Z.land_spec, Z.bits_0.
  rewrite Z.lnot_spec, Z.shiftl_spec by done. destruct (Z.lt_ge_cases i k) as [Hlt|Hge].
  { by rewrite Z.mul_pow2_bits_low. }
  rewrite Z.testbit_ones_nonneg by lia. destruct (Z.ltb_spec (i - k) w) as [|Hge']; [by rewrite andb_false_r|].
  destruct (Z.eq_dec (q * 2 ^ k) 0) as [->|Hnz]; [by rewrite Z.bits_0|].
  rewrite Z.bits_above_log2; [done|lia|]. apply Z.log2_lt_pow2; [lia|].
  pose proof (Z.pow_le_mono_r 2 (k + w) i). lia.
Qed.

(** A node of the fence's size and alignment in the mappable part can be fenced. *)
Lemma place_fenceable g b fs fa ua : cfg_ok g -> fence_need (c_chip g) b fs fa ua -> tiling_mode b <> I915_TILING_NONE ->
  0 <= gtt_offset b -> gtt_offset b + base_size b <= c_lim g -> 0 < base_size b ->
  Z.land (gtt_offset b) (u32 (fa - 1)) = 0 -> fence_place (c_chip g) b fs.
Proof.
  intros Hg HF Ht H0 Hlim Hs Hal. unfold fence_place, i915_gem_object_fence_ok. cbn [Z.eqb I915_TILING_X I915_TILING_NONE].
  destruct (Z.leb_spec 4 (gen (c_chip g))) as [|Hold]; [done|].
  destruct (fn_old _ _ _ _ _ HF Hold Ht) as [-> Hsz], (fn_pow2 _ _ _ _ _ HF) as (j & Efs & Hj & Hk). specialize (Hk Hold Ht).
  rewrite Hsz. cbn [mbind option_bind]. rewrite Z.eqb_refl, Hal, Z.eqb_refl.
  assert (2 ^ j <= 2 ^ 31) by (apply Z.pow_le_mono_r; lia).
  rewrite u32_small, Efs, land_pow2_pred in Hal by lia. apply Z.mod_divide in Hal; [|lia].
  destruct (cf_old _ Hg) as [Ho3 Ho2]. pose proof (cf_gen _ Hg).
  destruct (Z.eqb_spec (gen (c_chip g)) 3) as [E3|E3].
  - change I915_FENCE_START_MASK with (Z.shiftl (Z.ones 8) 20). rewrite land_field; [done|lia|lia| |specialize (Ho3 E3); lia].
    etransitivity; [|exact Hal]. exists (2 ^ (j - 20)). rewrite <-Z.pow_add_r by lia. f_equal. lia.
  - change I830_FENCE_START_MASK with (Z.shiftl (Z.ones 8) 19). rewrite land_field; [done|lia|lia| |].
    + etransitivity; [|exact Hal]. exists (2 ^ (j - 19)). rewrite <-Z.pow_add_r by lia. f_equal. lia.
    + specialize (Ho2 ltac:(lia)). lia.
Qed.

Lemma valid_space_run g s node cl Q : gtt_ok g s -> node ∈ node_list (mm s) -> (forall ok, Q ok s) ->
  wp (i915_gem_valid_gtt_space node cl) Q s.
Proof.
  intros Hok Hin HQ. destruct (p_mm _ _ (ok_place _ _ Hok)) as [Hwf _].
  unfold i915_gem_valid_gtt_space. rewrite wp_bind, wp_gets. wp_if; [rewrite wp_ret; auto|]. rewrite wp_bind, wp_gets.
  assert (forall k, k ∈ HEAD :: node_list (mm s) -> nodes (mm s) !! k = Some (get (mm s) k)) as Hl
    by (intros k Hk; by apply live_get, (wf_live _ _ _ Hwf)).
  destruct (prev_node_ok (mm s) _ _ Hwf node Hin) as (a & Ha & _ & Hain).
  destruct (next_node_ok (mm s) _ _ Hwf node) as (c & Hc & _ & Hcin); [by right|].
  rewrite wp_bind. eapply wp_lift_some; [apply Hl; by right|]. rewrite wp_bind. eapply wp_lift_some; [exact Ha|].
  rewrite wp_bind. eapply wp_lift_some; [by apply Hl|]. wp_if; [rewrite wp_ret; auto|].
  rewrite wp_bind. eapply wp_lift_some; [exact Hc|]. rewrite wp_bind. eapply wp_lift_some; [by apply Hl|].
  rewrite wp_ret. auto.
Qed.

(** The node goes back to the allocator: no object has it. *)
Lemma put_block_ok g s node : gtt_ok g s -> node ∈ node_list (mm s) ->
  (forall k c, objs s !! k = Some c -> gtt_space c <> Some node) ->
  exists m', drm_mm_put_block (mm s) node = Some m' /\ gtt_ok g (set_mm m' s) /\ keeps s (set_mm m' s).
Proof.
  intros Hok Hin Hnew. destruct (p_mm _ _ (ok_place _ _ Hok)) as [Hwf _].
  destruct (put_block_keeps (mm s) _ _ node Hwf Hin) as (m' & Hput & Hwf' & HC & _ & Hlist & Hext).
  assert (forall k c n, objs s !! k = Some c -> gtt_space c = Some n -> n ∈ node_list m') as Hb.
  { intros k c n E Hn. apply Hlist. split; [by apply (bound_in g s k c)|]. intros ->. by apply (Hnew k c). }
  exists m'. split; [done|]. split; [apply gtt_ok_mm|apply mm_keeps]; try done; intros k c n E Hn; pose proof (Hb k c n E Hn).
  - split; [done|by apply Hext].
  - by apply Hext.
Qed.

(** ** Binding *)

(** [o], whose record was [b], has a place, as aligned and as low as was asked for. *)
Definition bound_at (g : cfg) (s : i915) (o : oid) (b : bo) (alignment : Z) (maf : bool) : Prop :=
  exists b' n, objs s !! o = Some b' /\ gtt_space b' = Some n /\ pin_count b' = 0 /\
    base_size b' = base_size b /\ tiling_mode b' = tiling_mode b /\ stride b' = stride b /\
    (alignment <> 0 -> (alignment | gtt_offset b')) /\ (maf = true -> map_and_fenceable b' = true) /\
    gtt_offset b' + node_size (get (mm s) n) <= (if maf then c_lim g else c_total g).

Definition is_unbound (s : i915) (o : oid) (b : bo) : Prop := exists b', objs s !! o = Some b' /\ gtt_space b' = None /\
  base_size b' = base_size b /\ tiling_mode b' = tiling_mode b /\ stride b' = stride b.

(** Rounds that are enough for binding: one for every bound object; one where the
    allocator is not colored and the object has at most 1 GB. *)
Definition bind_fuel (s : i915) (b : bo) (fuel : nat) : Prop :=
  (bound_count s <= fuel)%nat \/ color_adjust (mm s) = None /\ base_size b <= 2 ^ 30 /\ (0 < fuel)%nat.

Section Place.
Context (g : cfg) (s : i915) (o : oid) (b b2 : bo) (node : nid) (rq : request) (alignment : Z) (maf : bool).
Context (Hok : gtt_ok g s) (E : objs s !! o = Some b2) (Hn : gtt_space b2 = None).
Context (Hpages : has_pages b2 = true /\ 0 < pages_pin_count b2).
Context (Hsame : base_size b2 = base_size b /\ tiling_mode b2 = tiling_mode b /\ stride b2 = stride b).
Context (Hrq : rq_good g b alignment maf rq) (Hgot : got_block s node rq).

(** What the last step of the code writes. *)
Definition placed_bo : bo :=
  set_map_and_fenceable ((u32 (node_start (get (mm s) node)) + base_size b <=? c_lim g) &&
      ((node_size (get (mm s) node) =? rq_fence_size rq) &&
       (Z.land (node_start (get (mm s) node)) (u32 (rq_fence_alignment rq - 1)) =? 0)))
    (set_gtt_offset (u32 (node_start (get (mm s) node))) (set_gtt_space (Some node) b2)).

Lemma start_small : u32 (node_start (get (mm s) node)) = block_start (mm s) node /\ 0 <= block_start (mm s) node /\
  block_start (mm s) node + rq_size rq <= rq_max rq.
Proof.
  destruct (gb_range _ _ _ Hgot), (rg_sane _ _ _ _ _ Hrq) as ((?&?)&?&?). split; [|done]. apply u32_small.
  fold (block_start (mm s) node). lia.
Qed.

Lemma placed_bound : bound_ok g (mm s) placed_bo node.
Proof.
  destruct start_small as (Es & H0 & Hmax), (rg_size _ _ _ _ _ Hrq) as (Hsz & Hszd & _), (rg_align _ _ _ _ _ Hrq) as (Hal0 & Hald & _).
  destruct Hsame as (S1 & S2 & S3). pose proof (p_bo _ _ (ok_place _ _ Hok) o b2 E) as Hb2.
  assert (fence_reg b2 = None) as Hf by apply (bk_free _ _ _ Hb2 Hn).
  split; unfold placed_bo; cbn; rewrite ?Es, ?(gb_size _ _ _ Hgot).
  - apply Hgot.
  - done.
  - lia.
  - split; [|done]. etransitivity; [exact Hald|by apply (gb_align _ _ _ Hgot)].
  - done.
  - intros [Hm [Hfs Hfa]%andb_true_iff]%andb_true_iff Ht. zbool. destruct (rg_fence _ _ _ _ _ Hrq) as (ua & HF).
    rewrite Hfs. destruct (bk_size _ _ _ Hb2) as [Hs0 _]. apply (place_fenceable g _ _ (rq_fence_alignment rq) ua).
    + apply (p_cfg _ _ (ok_place _ _ Hok)).
    + destruct HF as [F1 F2 F3 F4 F5 F6 F7]. split; cbn; rewrite ?S1, ?S2; done.
    + by cbn.
    + done.
    + cbn. lia.
    + cbn. lia.
    + done.
  - by rewrite Hf.
Qed.

Lemma placed_ok : bo_ok g (mm s) placed_bo.
Proof.
  pose proof (p_bo _ _ (ok_place _ _ Hok) o b2 E) as Hb2. pose proof placed_bound as Hbd.
  destruct (bk_free _ _ _ Hb2 Hn) as (_ & _ & Ha). destruct Hb2 as [K1 K2 K3 K4 K5 K6 Kg K7 K8]. split; try done.
  intros n [= <-]. exact Hbd.
Qed.

Lemma placed_where : forall s', objs s' !! o = Some placed_bo -> mm s' = mm s -> bound_at g s' o b alignment maf.
Proof.
  intros s' Eo Em. exists placed_bo, node. pose proof (p_bo _ _ (ok_place _ _ Hok) o b2 E) as Hb2.
  destruct (bk_free _ _ _ Hb2 Hn) as (Hp & _). destruct Hsame as (S1 & S2 & S3).
  destruct start_small as (Es & H0 & Hmax), (rg_align _ _ _ _ _ Hrq) as (Hal0 & _ & Hal).
  split; [done|]. split; [done|]. split; [done|]. split; [done|]. split; [done|]. split; [done|].
  unfold placed_bo; cbn. rewrite Em, Es, (gb_size _ _ _ Hgot). split; [|split].
  - intros Hz. rewrite <-(Hal Hz). by apply (gb_align _ _ _ Hgot).
  - intros Hm. destruct (rg_maf _ _ _ _ _ Hrq Hm) as [Efs Hfd]. pose proof (rg_max _ _ _ _ _ Hrq) as Hmx. rewrite Hm in Hmx.
    destruct (rg_size _ _ _ _ _ Hrq) as (Hsz & _). rewrite (proj2 (Z.leb_le _ _)) by lia. rewrite Efs, Z.eqb_refl. cbn.
    apply Z.eqb_eq. destruct (rg_fence _ _ _ _ _ Hrq) as (ua & HF). destruct (fn_pow2 _ _ _ _ _ HF) as (j & Ej & Hj & _).
    assert (2 ^ j <= 2 ^ 31) by (apply Z.pow_le_mono_r; lia). assert (0 < 2 ^ j) by (apply Z.pow_pos_nonneg; lia).
    rewrite u32_small by lia. fold (block_start (mm s) node). rewrite Ej, land_pow2_pred by lia. apply Z.mod_divide; [lia|].
    rewrite <-Ej. etransitivity; [exact Hfd|]. by apply (gb_align _ _ _ Hgot).
  - rewrite <-(rg_max _ _ _ _ _ Hrq). done.
Qed.
End Place.

Lemma fuel_enough g s rq b alignment maf fuel : rq_good g b alignment maf rq -> bind_fuel s b fuel -> enough g s rq maf fuel.
Proof.
  intros Hrq [?|(HC & Hsz & Hf)]; [by left|]. right. destruct (rg_size _ _ _ _ _ Hrq) as (_ & _ & Hs).
  split_and!; [done|specialize (Hs Hsz); lia|apply Hrq|by left].
Qed.

(** The outcome of binding. *)
Definition bind_post (g : cfg) (s : i915) (o : oid) (b : bo) (alignment : Z) (maf : bool) (ret : Z) (s' : i915) : Prop :=
  gtt_ok g s' /\ moves o s s' /\ (ret = 0 -> bound_at g s' o b alignment maf) /\ (ret <> 0 -> is_unbound s' o b).

Lemma bind_post_same g s o b alignment maf ret s' : unbound_step g o s s' b -> gtt_space b = None -> ret <> 0 ->
  bind_post g s o b alignment maf ret s'.
Proof. intros (H1 & H2 & _ & _ & H5 & _) Hn Hr. split; [done|]. split; [done|]. split; [done|]. intros _. by exists b. Qed.

(** With the pages pinned and a node at hand: the loop and what follows. *)
Lemma bind_tail_ok g s o b b2 node rq alignment maf nonblocking fuel :
  gtt_ok g s -> objs s !! o = Some b2 -> gtt_space b2 = None -> has_pages b2 = true -> 0 < pages_pin_count b2 ->
  base_size b2 = base_size b -> tiling_mode b2 = tiling_mode b -> stride b2 = stride b ->
  rq_good g b alignment maf rq -> spare (mm s) node -> enough g s rq maf fuel ->
  wp (ret ← search_free fuel node rq (cache_level b) maf nonblocking;
      if negb (ret =? 0) then
        _ ← i915_gem_object_unpin_pages o;
        _ ← on_mm_ (fun m => Some (with_nodes (delete node (nodes m)) m));
        mret ret
      else
      ok ← i915_gem_valid_gtt_space node (cache_level b);
      if negb ok then
        _ ← i915_gem_object_unpin_pages o;
        _ ← on_mm_ (fun m => drm_mm_put_block m node);
        mret (- EINVAL)
      else
      _ ← modify (fun s => set_bound_list (list_del o (bound_list s) ++ [o])
        (set_unbound_list (list_del o (unbound_list s)) s));
      _ ← modify (fun s => set_inactive_list (inactive_list s ++ [o]) s);
      m ← gets mm;
      nd ← lift (nodes m !! node);
      let fenceable := (node_size nd =? rq_fence_size rq) &&
        (Z.land (node_start nd) (u32 (rq_fence_alignment rq - 1)) =? 0) in
      let mappable := u32 (node_start nd) + base_size b <=? c_lim g in
      _ ← upd_bo o (fun b => set_map_and_fenceable (mappable && fenceable)
        (set_gtt_offset (u32 (node_start nd)) (set_gtt_space (Some node) b)));
      mret 0) (bind_post g s o b alignment maf) s.
Proof.
  intros Hok E Hn Hh Hp S1 S2 S3 Hrq Hsp Hen. rewrite wp_bind.
  eapply wp_mono; [apply (search_free_ok g fuel s node rq (cache_level b) maf nonblocking Hok Hsp (rg_sane _ _ _ _ _ Hrq) Hen)|].
  intros ret s1 (Hok1 & Hk1 & _ & Hgot & Hsp1). cbv beta. pose proof (kp_free _ _ Hk1 o b2 E Hn) as E1. wp_if; zbool.
  { rewrite wp_bind. eapply wp_mono; [by apply (unpin_pages_ok g s1 o b2)|]. intros ? s2 (Hok2 & Hm2 & Em2 & _ & E2 & O2). cbv beta.
    rewrite wp_bind, wp_on_mm_. eexists. split; [done|]. rewrite wp_ret.
    destruct (delete_node_ok g s2 node Hok2) as [Hok3 Hk3]; [rewrite Em2; auto|].
    split; [done|]. split; [|split; [done|]].
    - transitivity s1; [by apply keeps_moves|]. transitivity s2; [done|]. by apply keeps_moves.
    - intros _. eexists. by split_and!. }
  subst ret. specialize (Hgot eq_refl). rewrite wp_bind. apply (valid_space_run g); [done|apply Hgot|]. intros ok. wp_if.
  { rewrite wp_bind. eapply wp_mono; [by apply (unpin_pages_ok g s1 o b2)|]. intros ? s2 (Hok2 & Hm2 & Em2 & _ & E2 & O2). cbv beta.
    assert (node ∈ node_list (mm s2)) as Hin2 by (rewrite Em2; apply Hgot).
    destruct (put_block_ok g s2 node Hok2 Hin2) as (m' & Hput & Hok3 & Hk3).
    { intros k c Ec. destruct (decide (k = o)) as [->|Hk]; [rewrite E2 in Ec; injection Ec as <-; simpl; congruence|].
      rewrite O2 in Ec by done. by apply (gb_new _ _ _ Hgot k). }
    rewrite wp_bind, wp_on_mm_. exists m'. split; [done|]. rewrite wp_ret. split; [done|]. split; [|split; [done|]].
    - transitivity s1; [by apply keeps_moves|]. transitivity s2; [done|]. by apply keeps_moves.
    - intros _. eexists. by split_and!. }
  rewrite wp_bind, wp_modify, wp_bind, wp_modify, wp_bind, wp_gets, wp_bind.
  destruct (p_mm _ _ (ok_place _ _ Hok1)) as [Hwf1 _].
  eapply wp_lift_some; [apply live_get, (wf_live _ _ _ Hwf1); right; apply Hgot|]. rewrite wp_bind.
  apply (wp_upd_bo o b2); [done|]. rewrite wp_ret. change (mm (set_inactive_list _ _)) with (mm s1).
  fold (placed_bo g s1 b b2 node rq). match goal with |- bind_post _ _ _ _ _ _ _ ?x => set (s' := x) end.
  assert (base_size b2 = base_size b /\ tiling_mode b2 = tiling_mode b /\ stride b2 = stride b) as Hsame by done.
  pose proof (placed_ok g s1 o b b2 node rq alignment maf Hok1 E1 Hn (conj Hh Hp) Hsame Hrq Hgot) as Hpl.
  destruct (bk_free _ _ _ (p_bo _ _ (ok_place _ _ Hok1) o b2 E1) Hn) as (_ & Hf & Ha).
  split; [|split; [|split; [|done]]].
  - apply (put_bound g s1 s' o b2 (placed_bo g s1 b b2 node rq) node); try done. apply Hgot.
  - transitivity s1; [by apply keeps_moves|]. transitivity (put_bo o (placed_bo g s1 b b2 node rq) s1); [apply put_moves; by rewrite E1|].
    split; try done; intros k c Hk Ec _; by exists c.
  - intros _. apply (placed_where g s1 o b b2 node rq alignment maf Hok1 E1 Hn Hsame Hrq Hgot); [|done].
    apply lookup_insert_eq.
Qed.

Lemma bind_to_gtt_ok g s o b fuel alignment maf nonblocking kz :
  gtt_ok g s -> objs s !! o = Some b -> gtt_space b = None -> 0 <= alignment < 2 ^ 32 -> maf = true \/ (4096 | alignment) ->
  fresh_kz (mm s) kz -> bind_fuel s b fuel ->
  wp (i915_gem_object_bind_to_gtt fuel o alignment maf nonblocking kz) (bind_post g s o b alignment maf) s.
Proof.
  intros Hok E Hn Ha Had Hkz Hfuel. pose proof (ok_place _ _ Hok) as Hp. destruct (p_cfg _ _ Hp) as (Hg & E1 & E2 & E3).
  pose proof (p_bo _ _ Hp o b E) as Hb. destruct (bk_size _ _ _ Hb) as [Hs Hsd].
  assert (unbound_step g o s s b) as Href by by split_and!.
  unfold i915_gem_object_bind_to_gtt. rewrite wp_bind. apply (wp_get_bo o b); [done|].
  rewrite wp_bind, wp_gets, wp_bind, wp_gets, wp_bind, wp_gets, wp_bind, E1, E2, E3.
  destruct (bind_request_ok g b alignment maf Hg Hs Hsd Ha Had) as (r & Hr & Hrq). eapply wp_lift_some; [exact Hr|].
  destruct r as [ret|rq]; [rewrite wp_ret; by apply bind_post_same|]. rewrite wp_bind.
  eapply wp_mono; [by apply (get_pages_ok g s o b)|]. intros ret s1 H1. cbv beta. pose proof H1 as (Hok1 & Hm1 & Em1 & Hc1 & Eo1 & Oo1).
  wp_if; zbool.
  { rewrite wp_ret. split; [done|]. split; [done|]. split; [done|]. intros _. eexists. by split_and!. }
  subst ret. rewrite Z.eqb_refl, orb_true_r in Eo1. set (b1 := set_pages_pin_count _ _) in Eo1.
  rewrite wp_bind. eapply wp_mono; [by apply (pin_pages_ok g s1 o b1)|].
  intros ? s2 (Hok2 & Hm2 & Em2 & Hc2 & Eo2 & _). cbv beta. set (b2 := set_pages_pin_count _ b1) in Eo2.
  assert (0 <= pages_pin_count b) as Hpc by apply (bk_pages _ _ _ Hb).
  assert (moves o s s2) as Hm by by transitivity s1.
  destruct kz as [node|].
  2: { rewrite wp_bind. eapply wp_mono; [apply (unpin_pages_ok g s2 o b2); try done; cbn; lia|].
       intros ? s3 (Hok3 & Hm3 & _ & _ & Eo3 & _). cbv beta. rewrite wp_ret. split; [done|]. split; [by transitivity s2|].
       split; [done|]. intros _. eexists. by split_and!. }
  rewrite wp_bind, wp_on_mm_. eexists. split; [done|].
  assert (~ live (mm s2) node) as Hnl by (rewrite Em2, Em1; by apply Hkz).
  destruct (zero_node_ok g s2 node Hok2 Hnl) as (Hok3 & Hk3 & Hsp). rewrite <-E2.
  fold (with_zero_node node (mm s2)) in *. set (s3 := set_mm _ s2) in *.
  assert (moves o s s3) as Hm3 by (transitivity s2; [done|by apply keeps_moves]).
  eapply wp_mono; [rewrite E2; apply (bind_tail_ok g s3 o b b2 node rq alignment maf nonblocking fuel); try done; cbn; try lia|].
  - apply (fuel_enough g s3 rq b alignment maf fuel Hrq). destruct Hfuel as [?|(HC & ?)].
    + left. subst s3. unfold bound_count in *. simpl. lia.
    + right. split; [|done]. pose proof (mv_cfg _ _ _ Hm3) as (_&_&_&_&_&_&Hc). congruence.
  - intros ret s' (Q1 & Q2 & Q3). split; [done|]. split; [by transitivity s3|done].
Qed.

(** C2: binding is sound and ends.  From a state the invariant allows, for an unbound
    object, a fresh node, and an alignment in pages or, if the object is to be mappable and
    fenceable, any alignment, [i915_gem_object_bind_to_gtt] runs to its end: one round for
    every bound object is always enough, and a single eviction is on machines whose
    allocator is not colored.  It keeps the invariant.  Whatever other object is bound
    afterwards was bound before, to the same block, at the same offset and with the same
    size; the pinned ones are all still bound; the unbound ones are untouched.  If it
    returns 0 the object is bound to a block below the limit, as aligned as was asked for,
    and fenceable and mappable if that was asked for; any other result leaves it unbound.
    (Without the condition on the alignment it does not keep the invariant, and
    [i915_gem_execbuffer_reserve_object] does not see to it: [odd_alignment_breaks_fence]
    in GttWitness.v.) *)
Theorem bind_to_gtt_sound g s o b fuel alignment maf nonblocking kz :
  gtt_ok g s -> objs s !! o = Some b -> gtt_space b = None -> 0 <= alignment < 2 ^ 32 -> maf = true \/ (4096 | alignment) ->
  fresh_kz (mm s) kz ->
  (bound_count s <= fuel)%nat \/ color_adjust (mm s) = None /\ base_size b <= 2 ^ 30 /\ (0 < fuel)%nat ->
  wp (i915_gem_object_bind_to_gtt fuel o alignment maf nonblocking kz) (fun ret s' =>
    gtt_ok g s' /\ moves o s s' /\
    (ret = 0 -> exists b' n, objs s' !! o = Some b' /\ gtt_space b' = Some n /\ n ∈ node_list (mm s') /\
       gtt_offset b' = block_start (mm s') n /\ base_size b <= node_size (get (mm s') n) /\
       gtt_offset b' + node_size (get (mm s') n) <= (if maf then c_lim g else c_total g) /\
       (alignment <> 0 -> (alignment | gtt_offset b')) /\ (maf = true -> map_and_fenceable b' = true)) /\
    (ret <> 0 -> is_unbound s' o b)) s.
Proof.
  intros Hok E Hn Ha Had Hkz Hfuel. eapply wp_mono; [by apply (bind_to_gtt_ok g s o b)|].
  intros ret s' (Q1 & Q2 & Q3 & Q4). split; [done|]. split; [done|]. split; [|done]. intros Hr.
  destruct (Q3 Hr) as (b' & n & E' & Hn' & _ & Hs' & _ & _ & Hal & Hm & Hlim). exists b', n.
  destruct (bk_bound _ _ _ (p_bo _ _ (ok_place _ _ Q1) o b' E') n Hn') as [B1 B2 B3 _ _ _ _]. rewrite Hs' in B3. by split_and!.
Qed.
