(* ===== verification/Pin.v ===== *)
(** * Pinning and tiling: what they do (i915_gem.c, i915_gem_tiling.c)

    A pinned object has a place, and keeps it; [i915_gem_object_pin] gives an object the
    place that is asked for or leaves the pins as they were.  The tiling of an object that
    is not pinned can be changed, and then its place and its fence are right for the new
    tiling or are given up. *)

From S2P Require Import Prelude MM MMInv MMAlloc MMFree MMScan MMBlocks Tiling TilingFacts Fence Gtt GttInv GttFence GttBind Evict Bind.

Open Scope Z_scope.

(** ** Pinning *)

(** The alignments [i915_gem_object_pin] tests exactly are powers of two, of at least a
    page; 0 stands for the chip's own. *)
Definition al_ok (alignment : Z) : Prop := alignment = 0 \/ exists j, alignment = 2 ^ j /\ 12 <= j <= 31.

Lemma al_ok_range alignment : al_ok alignment -> 0 <= alignment < 2 ^ 32 /\ (4096 | alignment).
Proof.
  intros [->|(j & -> & Hj)]; [split; [lia|by exists 0]|]. split; [|apply pow2_page; lia].
  assert (2 ^ j <= 2 ^ 31) by (apply Z.pow_le_mono_r; lia). lia.
Qed.

Lemma al_ok_land alignment x : al_ok alignment -> alignment <> 0 -> (Z.land x (u32 (alignment - 1)) = 0 <-> (alignment | x)).
Proof.
  intros [->|(j & -> & Hj)]; [done|]. intros _. assert (2 ^ j <= 2 ^ 31) by (apply Z.pow_le_mono_r; lia).
  assert (0 < 2 ^ j) by (apply Z.pow_pos_nonneg; lia).
  rewrite u32_small, land_pow2_pred by lia. apply Z.mod_divide. lia.
Qed.

Definition same_object (b b' : bo) : Prop :=
  base_size b' = base_size b /\ tiling_mode b' = tiling_mode b /\ stride b' = stride b.

Definition same_place (b b' : bo) : Prop := gtt_space b' = gtt_space b /\ gtt_offset b' = gtt_offset b.

(** The place is what was asked for. *)
Definition well_placed (alignment : Z) (maf : bool) (b : bo) : Prop :=
  gtt_space b <> None /\ (al_ok alignment -> alignment <> 0 -> (alignment | gtt_offset b)) /\
  (maf = true -> map_and_fenceable b = true).

(** What a pin may be asked for without harm: an alignment in pages; or any, when the
    object has to be mappable and fenceable, because [bind_request] refuses the bad ones. *)
Definition al_pages (alignment : Z) (maf : bool) : Prop := 0 <= alignment < 2 ^ 32 /\ (maf = true \/ (4096 | alignment)).

Lemma al_ok_pages alignment maf : al_ok alignment -> al_pages alignment maf.
Proof. intros H. destruct (al_ok_range _ H). by split; [|right]. Qed.

(** One more pin on a place that is right; or an error and the pins as they were. *)
Definition pin_post (g : cfg) (s : i915) (o : oid) (b : bo) (alignment : Z) (maf : bool) (ret : Z) (s' : i915) : Prop :=
  gtt_ok g s' /\ moves o s s' /\ exists b', objs s' !! o = Some b' /\ same_object b b' /\
    (pin_count b <> 0 -> same_place b b') /\
    (ret = 0 -> well_placed alignment maf b' /\ pin_count b' = pin_count b + 1) /\
    (ret <> 0 -> pin_count b' = pin_count b).

Lemma bo_ok_pin g m b p pm : bo_ok g m b -> gtt_space b <> None -> 0 <= p <= 15 -> bo_ok g m (set_pin_mappable pm (set_pin_count p b)).
Proof. intros [K1 K2 K3 K4 K5 K6 Kg K7 K8] Hn Hp. split; try done. intros n Hx. destruct (K7 n Hx). by split. Qed.

(** A change of the pins of a bound object. *)
Lemma put_pin g s o b p pm : gtt_ok g s -> objs s !! o = Some b -> gtt_space b <> None -> 0 <= p <= 15 ->
  gtt_ok g (put_bo o (set_pin_mappable pm (set_pin_count p b)) s).
Proof.
  intros Hok E Hn Hp. apply (put_change g s o b); try done.
  apply bo_ok_pin; [by apply (p_bo _ _ (ok_place _ _ Hok) o)|done|done].
Qed.

Lemma bind_fuel_mono s s1 b b1 fuel : bind_fuel s b fuel -> (bound_count s1 <= bound_count s)%nat ->
  color_adjust (mm s1) = color_adjust (mm s) -> base_size b1 = base_size b -> bind_fuel s1 b1 fuel.
Proof. intros [?|(? & ? & ?)] Hc HC Hs; [left; lia|]. right. split_and!; [congruence|lia|done]. Qed.

(** The last steps: the mapping, and the pin. *)
Lemma pin_last_ok g s o b maf : gtt_ok g s -> objs s !! o = Some b -> gtt_space b <> None -> pin_count b <> 15 ->
  wp (b ← get_bo o;
      _ ← (if negb (has_global_gtt_mapping b) && maf then upd_bo o (set_has_global_gtt_mapping true) else mret tt);
      _ ← upd_bo o (fun b => set_pin_mappable (pin_mappable b || maf) (set_pin_count (pin_count b + 1) b));
      mret 0)
    (fun ret s' => ret = 0 /\ gtt_ok g s' /\ moves o s s' /\ exists b', objs s' !! o = Some b' /\ same_object b b' /\
       same_place b b' /\ map_and_fenceable b' = map_and_fenceable b /\ pin_count b' = pin_count b + 1) s.
Proof.
  intros Hok E Hn H15. rewrite wp_bind. apply (wp_get_bo o b); [done|]. rewrite wp_bind.
  pose proof (bk_pin _ _ _ (p_bo _ _ (ok_place _ _ Hok) o b E)) as Hp.
  assert (forall b1 s1, gtt_ok g s1 -> moves o s s1 -> objs s1 !! o = Some b1 -> bo_same b b1 ->
    wp (_ ← upd_bo o (fun b => set_pin_mappable (pin_mappable b || maf) (set_pin_count (pin_count b + 1) b)); mret 0)
      (fun ret s' => ret = 0 /\ gtt_ok g s' /\ moves o s s' /\ exists b', objs s' !! o = Some b' /\ same_object b b' /\
       same_place b b' /\ map_and_fenceable b' = map_and_fenceable b /\ pin_count b' = pin_count b + 1) s1) as Hend.
  { intros b1 s1 Hok1 Hm1 E1 ([Z1 [Z2 Z3] [Z4 Z5] Z6 Z7 Z8 Z9 Z10 Z11] & Z12 & Z13). rewrite wp_bind. apply (wp_upd_bo o b1); [done|].
    rewrite wp_ret. split; [done|]. split; [apply (put_pin g s1 o b1); try done; [congruence|lia]|].
    split; [transitivity s1; [done|]; apply put_moves; by rewrite E1|]. eexists. rewrite put_bo_objs, decide_True by done.
    split; [done|]. unfold same_object, same_place. cbn. split_and!; congruence. }
  wp_if; [|rewrite wp_ret; by apply (Hend b)]. apply (wp_upd_bo o b); [done|].
  apply (Hend (set_has_global_gtt_mapping true b)); [by apply (put_same g s o b)|apply put_moves; by rewrite E|apply put_here|by split].
Qed.

(** What is there after the first step of [pin]. *)
Definition fit_post (g : cfg) (s : i915) (o : oid) (b : bo) (alignment : Z) (maf : bool) (ret : Z) (s' : i915) : Prop :=
  gtt_ok g s' /\ shrinks s s' /\ exists b', objs s' !! o = Some b' /\ same_object b b' /\ pin_count b' = pin_count b /\
    (pin_count b <> 0 -> same_place b b') /\
    (ret = 0 -> gtt_space b' = None \/ well_placed alignment maf b').

(** An object whose place does not fit is unbound. *)
Lemma pin_fit_ok g s o b alignment maf : gtt_ok g s -> objs s !! o = Some b ->
  wp (match gtt_space b with
      | Some _ =>
          if (negb (alignment =? 0) && negb (Z.land (gtt_offset b) (u32 (alignment - 1)) =? 0)) ||
             (maf && negb (map_and_fenceable b))
          then i915_gem_object_unbind o else mret 0
      | None => mret 0
      end) (fit_post g s o b alignment maf) s.
Proof.
  intros Hok E. destruct (gtt_space b) as [n|] eqn:Hn.
  2: { rewrite wp_ret. split; [done|]. split; [done|]. exists b. split_and!; try done. intros _. by left. }
  wp_if.
  - eapply wp_mono; [by apply (unbind_ok g s o b)|]. intros ret s' (Hok' & Hs' & Hfr & _ & Hbusy & _ & b' & E' & Hp & H1 & H2 & H3 & Hpl).
    split; [done|]. split; [done|]. exists b'. split; [done|]. split; [done|]. split; [done|]. split.
    + intros Hz. destruct Hpl as (? & ? & _); [rewrite (Hbusy Hz) by congruence; by unfold EBUSY|]. by split.
    + intros Hr. left. destruct (Hfr Hr) as (_ & (b2 & E2 & Hn2 & _) & _); congruence.
  - rewrite wp_ret. split; [done|]. split; [done|]. exists b. split_and!; try done. intros _. right.
    apply orb_false_iff in Heqb0 as [H1 H2]. split; [congruence|]. split.
    + intros Hal Hz. rewrite (proj2 (Z.eqb_neq _ _) Hz) in H1. simpl in H1. apply negb_false_iff, Z.eqb_eq in H1. by apply al_ok_land.
    + intros ->. simpl in H2. by apply negb_false_iff in H2.
Qed.

(** An object without a place is bound, and mapped. *)
Lemma pin_bind_ok g s o b fuel alignment maf nonblocking kz : gtt_ok g s -> objs s !! o = Some b -> al_pages alignment maf ->
  fresh_kz (mm s) kz -> bind_fuel s b fuel -> (gtt_space b = None \/ well_placed alignment maf b) ->
  wp (match gtt_space b with
      | None =>
          ret ← i915_gem_object_bind_to_gtt fuel o alignment maf nonblocking kz;
          if negb (ret =? 0) then mret ret
          else _ ← upd_bo o (set_has_global_gtt_mapping true); mret 0
      | Some _ => mret 0
      end)
    (fun ret s' => gtt_ok g s' /\ moves o s s' /\ exists b', objs s' !! o = Some b' /\ same_object b b' /\
       pin_count b' = pin_count b /\ (gtt_space b <> None -> same_place b b') /\ (ret = 0 -> well_placed alignment maf b')) s.
Proof.
  intros Hok E [Ha Had] Hkz Hfuel Hpl.
  destruct (gtt_space b) as [n|] eqn:Hn.
  { rewrite wp_ret. split; [done|]. split; [done|]. exists b. destruct Hpl as [|Hpl]; [done|]. by split_and!. }
  destruct (bk_free _ _ _ (p_bo _ _ (ok_place _ _ Hok) o b E) Hn) as (Hp0 & _).
  rewrite wp_bind. eapply wp_mono; [by apply (bind_to_gtt_ok g s o b)|]. intros ret s1 (Hok1 & Hm1 & Hz & Hnz). cbv beta.
  wp_if; zbool.
  - rewrite wp_ret. split; [done|]. split; [done|]. destruct (Hnz Heqb0) as (b1 & E1 & Hn1 & S1).
    destruct (bk_free _ _ _ (p_bo _ _ (ok_place _ _ Hok1) o b1 E1) Hn1) as (Hp1 & _).
    exists b1. split_and!; try done; try apply S1. congruence.
  - subst ret. destruct (Hz eq_refl) as (b1 & n & E1 & Hn1 & Hp1 & S1 & S2 & S3 & Hal1 & Hm & _).
    rewrite wp_bind. apply (wp_upd_bo o b1); [done|]. rewrite wp_ret.
    split; [by apply (put_same g s1 o b1)|]. split; [transitivity s1; [done|]; apply put_moves; by rewrite E1|].
    eexists. split; [apply put_here|]. unfold same_object, same_place, well_placed. cbn. rewrite Hn1. split_and!; try done; congruence.
Qed.

Lemma pin_ok g s o b fuel alignment maf nonblocking kz : gtt_ok g s -> objs s !! o = Some b -> al_pages alignment maf ->
  fresh_kz (mm s) kz -> bind_fuel s b fuel ->
  wp (i915_gem_object_pin fuel o alignment maf nonblocking kz) (pin_post g s o b alignment maf) s.
Proof.
  intros Hok E Hal Hkz Hfuel. unfold i915_gem_object_pin. rewrite wp_bind. apply (wp_get_bo o b); [done|]. wp_if; zbool.
  { rewrite wp_ret. split; [done|]. split; [done|]. exists b. by split_and!. }
  rewrite wp_bind. eapply wp_mono; [by apply (pin_fit_ok g s o b alignment maf)|].
  intros ret s1 (Hok1 & Hs1 & b1 & E1 & HS1 & Hp1 & Hpl1 & Hz1). cbv beta.
  pose proof (keeps_moves o _ _ (sk_keeps _ _ Hs1)) as Hm1. pose proof HS1 as (Hb1 & _).
  wp_if; zbool.
  { rewrite wp_ret. split; [done|]. split; [done|]. exists b1. by split_and!. }
  subst ret. specialize (Hz1 eq_refl). rewrite wp_bind. apply (wp_get_bo o b1); [done|]. rewrite wp_bind.
  eapply wp_mono; [apply (pin_bind_ok g s1 o b1 fuel alignment maf nonblocking kz); try done|].
  { intros n Hn Hl. by apply (Hkz n Hn), (sk_live _ _ Hs1). }
  { apply (bind_fuel_mono s s1 b b1 fuel Hfuel); [apply Hs1| |done]. by destruct (kp_cfg _ _ (sk_keeps _ _ Hs1)) as (_&_&_&_&_&_&?). }
  intros ret s2 (Hok2 & Hm2 & b2 & E2 & HS2 & Hp2 & Hpl2 & Hz2). cbv beta.
  assert (same_object b b2) as HS by (destruct HS1 as (?&?&?), HS2 as (?&?&?); split_and!; congruence).
  assert (moves o s s2) as Hm by by transitivity s1.
  assert (pin_count b <> 0 -> same_place b b2) as Hpl.
  { intros Hz. destruct (Hpl1 Hz) as [X1 X2]. destruct (decide (gtt_space b1 = None)) as [Hn|Hn].
    - destruct (bk_free _ _ _ (p_bo _ _ (ok_place _ _ Hok1) o b1 E1) Hn) as (? & _). congruence.
    - destruct (Hpl2 Hn) as [Y1 Y2]. split; congruence. }
  wp_if; zbool.
  { rewrite wp_ret. split; [done|]. split; [done|]. exists b2. split_and!; try done. congruence. }
  subst ret. destruct (Hz2 eq_refl) as (W1 & W2 & W3).
  eapply wp_mono; [apply (pin_last_ok g s2 o b2); try done; unfold DRM_I915_GEM_OBJECT_MAX_PIN_COUNT in *; congruence|].
  intros ret s3 (-> & Hok3 & Hm3 & b3 & E3 & (HS3 & HS4 & HS5) & (HP1 & HP2) & Hmaf & Hpin).
  split; [done|]. split; [by transitivity s2|]. exists b3. destruct HS as (?&?&?). unfold same_object, same_place, well_placed in *.
  split; [done|]. split; [split_and!; congruence|]. split.
  { intros Hz. destruct (Hpl Hz) as [? ?]. split; congruence. }
  split; [|done]. intros _. rewrite HP1, HP2, Hmaf. split_and!; try done. congruence.
Qed.

(** Taking a pin back. *)
Lemma unpin_ok g s o b : gtt_ok g s -> objs s !! o = Some b -> pin_count b <> 0 ->
  wp (i915_gem_object_unpin o) (fun _ s' => gtt_ok g s' /\ moves o s s' /\
    exists b', objs s' !! o = Some b' /\ same_object b b' /\ same_place b b' /\ map_and_fenceable b' = map_and_fenceable b /\
      pin_count b' = pin_count b - 1) s.
Proof.
  intros Hok E Hp. pose proof (p_bo _ _ (ok_place _ _ Hok) o b E) as Hb. pose proof (bk_pin _ _ _ Hb) as Hp0.
  assert (gtt_space b <> None) as Hn by (intros Hn; destruct (bk_free _ _ _ Hb Hn) as (? & _); done).
  unfold i915_gem_object_unpin. rewrite wp_bind. apply (wp_get_bo o b); [done|].
  rewrite wp_bind. apply wp_bug_on; [lia|]. rewrite wp_bind. apply wp_bug_on; [by apply bool_decide_eq_false|].
  rewrite wp_bind. apply (wp_upd_bo o b); [done|].
  assert (forall pm, gtt_ok g (put_bo o (set_pin_mappable pm (set_pin_count (pin_count b - 1) b)) s)) as Hall
    by (intros pm; apply put_pin; try done; lia).
  assert (moves o s (put_bo o (set_pin_count (pin_count b - 1) b) s)) as Hm by (apply put_moves; by rewrite E).
  wp_if.
  - eapply wp_upd_bo; [apply put_here|]. rewrite put_put. split; [apply Hall|].
    split; [apply put_moves; by rewrite E|]. eexists. split; [apply put_here|]. by split_and!.
  - rewrite wp_ret. split; [replace (set_pin_count _ b) with (set_pin_mappable (pin_mappable b) (set_pin_count (pin_count b - 1) b)) by (by destruct b); apply Hall|].
    split; [done|]. eexists. split; [apply put_here|]. by split_and!.
Qed.

(** ** The ioctls *)

Lemma upd_bo_run o b f s : objs s !! o = Some b -> upd_bo o f s = Some (tt, put_bo o (f b) s).
Proof. intros E. by destruct (proj1 (wp_run _ (fun u s' => u = tt /\ s' = put_bo o (f b) s) s) (wp_upd_bo o b f _ s E (conj eq_refl eq_refl))) as (? & ? & ? & -> & ->). Qed.

(** a pin that failed is still counted.  When the ioctl is asked to pin an object that
    is too large for the mappable part of the aperture, it returns an error and changes no
    place; but the object is the caller's and counted as pinned by user space, so that the
    caller's unpin then fails a [BUG_ON] and stops the machine. *)
Theorem pin_error_unpin_stops g s o b fuel file alignment kz :
  gtt_ok g s -> objs s !! o = Some b -> gtt_space b = None -> pin_filp b = None -> user_pin_count b = 0 ->
  al_ok alignment -> c_lim g < base_size b ->
  exists ret s', i915_gem_pin_ioctl fuel file o alignment kz s = Some ((ret, None), s') /\ ret <> 0 /\
    i915_gem_unpin_ioctl file o s' = None.
Proof.
  intros Hok E Hn Hf Hu Hal Hbig. pose proof (ok_place _ _ Hok) as Hp. destruct (p_cfg _ _ Hp) as (Hg & E1 & E2 & E3).
  pose proof (p_bo _ _ Hp o b E) as Hb. destruct (bk_size _ _ _ Hb) as [Hs Hsd]. destruct (bk_free _ _ _ Hb Hn) as (Hp0 & _).
  destruct (al_ok_range _ Hal) as [Ha Had]. set (b1 := set_pin_filp (Some file) (set_user_pin_count 1 b)).
  assert (exists ret, bind_request (c_chip g) (c_lim g) (c_total g) b alignment true = Some (inl ret) /\ ret <> 0) as (ret & Hreq & Hret).
  { destruct (bind_request_ok g b alignment true Hg Hs Hsd Ha (or_introl eq_refl)) as ([ret|rq] & Hr & Hq); [by exists ret|].
    exfalso. unfold bind_request in Hr. destruct (fence_need_ok (c_chip g) b Hs Hsd) as (fs & fa & ua & HF).
    rewrite (fn_size _ _ _ _ _ HF), (fn_fenced _ _ _ _ _ HF), (fn_unfenced _ _ _ _ _ HF) in Hr. cbn [mbind option_bind] in Hr.
    destruct (_ && _); [done|]. destruct (Z.gtb_spec (base_size b) (c_lim g)); [done|lia]. }
  assert (wp (i915_gem_pin_ioctl fuel file o alignment kz) (fun r s' => r = (ret, None) /\ s' = put_bo o b1 s) s) as Hpin.
  { unfold i915_gem_pin_ioctl. rewrite wp_bind. apply (wp_get_bo o b); [done|]. rewrite Hf, Hu. cbn iota.
    change (u32 (0 + 1)) with 1. rewrite wp_bind. apply (wp_upd_bo o b); [done|]. fold b1. change (1 =? 1) with true. cbn iota.
    rewrite wp_bind, (u32_small alignment Ha). unfold i915_gem_object_pin. rewrite wp_bind. apply (wp_get_bo o b1); [apply put_here|].
    cbn [pin_count b1 set_pin_filp set_user_pin_count gtt_space]. rewrite Hp0, Hn. cbn [Z.eqb DRM_I915_GEM_OBJECT_MAX_PIN_COUNT].
    rewrite wp_bind, wp_ret. change (negb (0 =? 0)) with false. cbn iota. rewrite wp_bind. apply (wp_get_bo o b1); [apply put_here|].
    cbn [b1 set_pin_filp set_user_pin_count gtt_space]. rewrite Hn, wp_bind, wp_bind.
    unfold i915_gem_object_bind_to_gtt. rewrite wp_bind. apply (wp_get_bo o b1); [apply put_here|].
    rewrite wp_bind, wp_gets, wp_bind, wp_gets, wp_bind, wp_gets, wp_bind. cbn [info mappable_end gtt_total put_bo set_objs].
    rewrite E1, E2, E3. eapply wp_lift_some; [exact Hreq|]. rewrite wp_ret.
    rewrite (proj2 (Z.eqb_neq _ _) Hret). cbn [negb]. rewrite wp_ret, (proj2 (Z.eqb_neq _ _) Hret). cbn [negb].
    rewrite wp_ret, (proj2 (Z.eqb_neq _ _) Hret). cbn [negb]. by rewrite wp_ret. }
  apply wp_run in Hpin as (r & s' & Hrun & -> & ->). exists ret, (put_bo o b1 s). split; [done|]. split; [done|].
  unfold i915_gem_unpin_ioctl, i915_gem_object_unpin.
  erewrite then_run by (apply get_bo_run, put_here). rewrite bool_decide_eq_false_2 by (by intros Hx; apply Hx).
  cbn [user_pin_count b1 set_pin_filp set_user_pin_count]. change (u32 (1 - 1)) with 0. cbn [Z.eqb].
  erewrite then_run by (apply upd_bo_run, put_here). erewrite then_run by (apply upd_bo_run, put_here).
  unfold mbind at 1, Prog_bind at 1. erewrite then_run by (apply get_bo_run, put_here).
  cbn [pin_count set_user_pin_count set_pin_filp b1]. by rewrite Hp0.
Qed.
