(* ===== verification/SetTiling.v ===== *)
(** * Changing the tiling of an object: what it does (i915_gem_tiling.c) *)

From S2P Require Import Prelude MM MMInv MMAlloc MMFree MMScan MMBlocks Tiling TilingFacts Fence Gtt GttInv GttFence GttBind Evict Bind Pin.

Open Scope Z_scope.

(** ** The mode *)

(** Cutting the mode to two bits keeps a stride and size that were accepted. *)
Lemma tiling_ok_mask c st sz t : i915_tiling_ok c st sz t = true -> i915_tiling_ok c st sz (Z.land t 3) = true.
Proof.
  destruct (decide (Z.land t 3 = t)) as [->|Hne]; [done|]. unfold i915_tiling_ok.
  destruct (Z.eqb_spec (Z.land t 3) I915_TILING_NONE) as [|Hz]; [done|].
  assert (t <> I915_TILING_NONE /\ t <> I915_TILING_X /\ t <> I915_TILING_Y) as (H0 & H1 & H2)
    by (split_and!; intros ->; by apply Hne).
  rewrite (proj2 (Z.eqb_neq _ _) H0), (proj2 (Z.eqb_neq _ _) H2).
  destruct (if 7 <=? gen c then _ else _); [done|]. cbn [orb andb].
  destruct (gen c =? 2); cbn [orb]; [done|]. destruct ((Z.land t 3 =? I915_TILING_Y) && HAS_128_BYTE_Y_TILING c); [|done].
  destruct (Z.ltb_spec (s32 st) 512); [done|]. rewrite (proj2 (Z.ltb_ge _ _)) by lia.
  destruct (4 <=? gen c); [|done]. rewrite !Z.eqb_eq. intros Hl. change (128 - 1) with (2 ^ 7 - 1).
  change (512 - 1) with (2 ^ 9 - 1) in Hl. rewrite land_pow2_pred in Hl |- * by lia.
  apply Z.mod_divide in Hl; [|done]. apply Z.mod_divide; [done|]. etransitivity; [|exact Hl]. by exists 4.
Qed.

Lemma land3_range t : 0 <= Z.land t 3 < 4.
Proof. change 3 with (Z.ones 2). rewrite Z.land_ones by lia. by apply Z.mod_pos_bound. Qed.

(** What is stored of a request that was accepted. *)
Lemma request_ok c sw st sz t t' st' sw' : i915_tiling_ok c st sz t = true -> 0 <= st < 2 ^ 32 ->
  tiling_request sw t st = (t', st', sw') -> i915_tiling_ok c st' sz t' = true /\ 0 <= st' < 2 ^ 32 /\ (t' = t \/ t' = I915_TILING_NONE).
Proof.
  intros Hok Hst. unfold tiling_request. destruct (Z.eqb_spec t I915_TILING_NONE) as [->|Ht].
  { intros [= <- <- <-]. split; [done|]. split; [lia|by left]. }
  destruct (_ =? I915_BIT_6_SWIZZLE_UNKNOWN); intros [= <- <- <-]; (split; [done|]); (split; [lia|]); auto.
Qed.

(** ** The record *)

Definition retiled (b : bo) (m : bool) (t st : Z) : bo :=
  set_stride st (set_tiling_mode (Z.land t 3)
    (set_fence_dirty (fenced_gpu_access b || bool_decide (fence_reg b <> None)) (set_map_and_fenceable m b))).

Lemma retiled_ok g s o b m t st : gtt_ok g s -> objs s !! o = Some b ->
  i915_tiling_ok (c_chip g) st (base_size b) t = true -> 0 <= st < 2 ^ 32 ->
  (m = true -> t <> I915_TILING_NONE -> forall n, gtt_space b = Some n -> fence_place (c_chip g) b (node_size (get (mm s) n))) ->
  gtt_ok g (put_bo o (retiled b m t st) s).
Proof.
  intros Hok E Ht Hst Hm. pose proof (p_bo _ _ (ok_place _ _ Hok) o b E) as [K1 K2 K3 K4 K5 K6 Kg K7 K8].
  apply (put_change g s o b); try done.
  - split; try done; cbn.
    + split; [apply land3_range|]. intros _. by apply tiling_ok_mask.
    + intros n Hn. destruct (K7 n Hn) as [B1 B2 B3 B4 B5 B6 B7]. split; try done. cbn. intros Hmt Hnz.
      apply (Hm Hmt); [|done]. by intros ->.
  - cbn. intros Hf Hd. apply orb_false_iff in Hd as [_ Hd]. by apply bool_decide_eq_false in Hd.
Qed.

Lemma put_maf_ok g s o b : gtt_ok g s -> objs s !! o = Some b -> gtt_ok g (put_bo o (set_map_and_fenceable false b) s).
Proof.
  intros Hok E. pose proof (p_bo _ _ (ok_place _ _ Hok) o b E) as [K1 K2 K3 K4 K5 K6 Kg K7 K8].
  apply (put_change g s o b); try done. split; try done. intros n Hn. destruct (K7 n Hn). by split.
Qed.

(** The last steps, with the flag already written. *)
Lemma retile_ok g s o b m t st : gtt_ok g s -> objs s !! o = Some b ->
  i915_tiling_ok (c_chip g) st (base_size b) t = true -> 0 <= st < 2 ^ 32 ->
  (m = true -> t <> I915_TILING_NONE -> forall n, gtt_space b = Some n -> fence_place (c_chip g) b (node_size (get (mm s) n))) ->
  wp (_ ← upd_bo o (fun b => set_stride st (set_tiling_mode (Z.land t 3)
               (set_fence_dirty (fenced_gpu_access b || bool_decide (fence_reg b <> None)) b)));
      _ ← i915_gem_release_mmap o;
      mret 0)
    (fun ret s' => ret = 0 /\ gtt_ok g s' /\ moves o s s' /\ exists b', objs s' !! o = Some b' /\ base_size b' = base_size b /\
      pin_count b' = pin_count b /\ tiling_mode b' = Z.land t 3 /\ stride b' = st /\ gtt_mmap b' = false)
    (put_bo o (set_map_and_fenceable m b) s).
Proof.
  intros Hok E Ht Hst Hm. rewrite wp_bind. eapply wp_upd_bo; [apply put_here|]. rewrite put_put.
  change (set_stride st _) with (retiled b m t st). rewrite wp_bind. unfold i915_gem_release_mmap.
  eapply wp_upd_bo; [apply put_here|]. rewrite wp_ret. split; [done|]. split.
  - apply (put_same g _ o (retiled b m t st)); [by apply retiled_ok|apply put_here|by split].
  - split; [rewrite put_put; apply put_moves; by rewrite E|]. eexists. split; [apply put_here|]. by split_and!.
Qed.

Lemma gtt_size_some c size t : 0 <= size <= 2 ^ 31 -> is_Some (i915_gem_get_gtt_size c size t).
Proof.
  intros Hs. destruct (Z.le_gt_cases 4 (gen c)) as [Hg|Hg]; [|destruct (decide (t = I915_TILING_NONE)) as [->|Ht]].
  - unfold i915_gem_get_gtt_size. by rewrite (proj2 (Z.leb_le 4 (gen c)) Hg).
  - unfold i915_gem_get_gtt_size. by rewrite Z.eqb_refl, orb_true_r.
  - destruct (gtt_size_pow2 c size t Hg Ht Hs) as (j & -> & _). done.
Qed.

Lemma unfenced_some c size t : 0 <= size <= 2 ^ 31 -> exists ua, i915_gem_get_gtt_alignment c size t false = Some ua.
Proof. intros Hs. unfold i915_gem_get_gtt_alignment. destruct (_ || _); [by exists 4096|]. by apply gtt_size_some. Qed.

Lemma fence_ok_some c off ss size t : 0 <= size <= 2 ^ 31 -> exists ok, i915_gem_object_fence_ok c off ss size t = Some ok.
Proof.
  intros Hs. unfold i915_gem_object_fence_ok. destruct (t =? _); [by eexists|]. destruct (4 <=? gen c); [by eexists|].
  destruct (negb _); [by eexists|]. rewrite u32_small by lia. destruct (gtt_size_some c size t Hs) as [sz ->]. by eexists.
Qed.

(** ** The ioctl *)

Definition tiling_kept (b b' : bo) : Prop :=
  base_size b' = base_size b /\ pin_count b' = pin_count b /\ tiling_mode b' = tiling_mode b /\ stride b' = stride b.

Definition tiling_set (b b' : bo) (t st : Z) : Prop :=
  base_size b' = base_size b /\ pin_count b' = pin_count b /\ tiling_mode b' = Z.land t 3 /\ stride b' = st.

(** The place is looked at, and given up if it will not do. *)
Lemma retile_place_ok g s o b t st : gtt_ok g s -> objs s !! o = Some b ->
  i915_tiling_ok (c_chip g) st (base_size b) t = true -> 0 <= st < 2 ^ 32 ->
  wp (lim ← gets mappable_end;
      ok ← (match gtt_space b with
            | None => mret true
            | Some _ =>
                if gtt_offset b + base_size b <=? lim then
                  nd ← get_space b;
                  lift (i915_gem_object_fence_ok (c_chip g) (gtt_offset b) (node_size nd) (base_size b) t)
                else mret false
            end);
      _ ← upd_bo o (set_map_and_fenceable ok);
      ret ← (if negb ok then
               unfenced_alignment ← lift (i915_gem_get_gtt_alignment (c_chip g) (u32 (base_size b)) t false);
               if negb (Z.land (gtt_offset b) (u32 (unfenced_alignment - 1)) =? 0)
               then i915_gem_object_unbind o else mret 0
             else mret 0);
      if ret =? 0 then
        _ ← upd_bo o (fun b => set_stride st (set_tiling_mode (Z.land t 3)
          (set_fence_dirty (fenced_gpu_access b || bool_decide (fence_reg b <> None)) b)));
        _ ← i915_gem_release_mmap o;
        mret 0
      else mret ret)
    (fun ret s' => gtt_ok g s' /\ moves o s s' /\ exists b', objs s' !! o = Some b' /\
       (ret = 0 -> tiling_set b b' t st) /\ (ret <> 0 -> tiling_kept b b')) s.
Proof.
  intros Hok E Ht Hst. pose proof (p_bo _ _ (ok_place _ _ Hok) o b E) as Hb. destruct (bk_size _ _ _ Hb) as [Hs Hsd].
  assert (u32 (base_size b) = base_size b) as Eu by (apply u32_small; lia).
  set (Q := fun ret s' => gtt_ok g s' /\ moves o s s' /\ exists b', objs s' !! o = Some b' /\
    (ret = 0 -> tiling_set b b' t st) /\ (ret <> 0 -> tiling_kept b b')).
  assert (forall (ok : bool) s0 b0, gtt_ok g s0 -> moves o s s0 -> objs s0 !! o = Some b0 -> base_size b0 = base_size b -> pin_count b0 = pin_count b ->
    (ok = true -> t <> I915_TILING_NONE -> forall n, gtt_space b0 = Some n -> fence_place (c_chip g) b0 (node_size (get (mm s0) n))) ->
    wp (_ ← upd_bo o (fun b => set_stride st (set_tiling_mode (Z.land t 3)
          (set_fence_dirty (fenced_gpu_access b || bool_decide (fence_reg b <> None)) b)));
        _ ← i915_gem_release_mmap o; mret 0) Q (put_bo o (set_map_and_fenceable ok b0) s0)) as Hlast.
  { intros ok s0 b0 Hok0 Hm0 E0 Es Ep Hpl. eapply wp_mono; [apply (retile_ok g s0 o b0 ok t st Hok0 E0); [by rewrite Es|done|done]|].
    intros ret s' (-> & Hok' & Hm' & b' & E' & B1 & B2 & B3 & B4 & _). split; [done|]. split; [by transitivity s0|].
    exists b'. split; [done|]. split; [|done]. intros _. split_and!; congruence. }
  assert (forall ok : bool,
    (ok = true -> t <> I915_TILING_NONE -> forall n, gtt_space b = Some n -> fence_place (c_chip g) b (node_size (get (mm s) n))) ->
    wp (_ ← upd_bo o (set_map_and_fenceable ok);
        ret ← (if negb ok then
               unfenced_alignment ← lift (i915_gem_get_gtt_alignment (c_chip g) (u32 (base_size b)) t false);
               if negb (Z.land (gtt_offset b) (u32 (unfenced_alignment - 1)) =? 0)
               then i915_gem_object_unbind o else mret 0
             else mret 0);
        if ret =? 0 then
          _ ← upd_bo o (fun b => set_stride st (set_tiling_mode (Z.land t 3)
            (set_fence_dirty (fenced_gpu_access b || bool_decide (fence_reg b <> None)) b)));
          _ ← i915_gem_release_mmap o; mret 0
        else mret ret) Q s) as Hgo.
  { intros ok Hpl. rewrite wp_bind. apply (wp_upd_bo o b); [done|]. rewrite wp_bind. destruct ok; cbn [negb].
    { rewrite wp_ret. by apply (Hlast true s b). }
    destruct (unfenced_some (c_chip g) (base_size b) t) as (ua & Hua); [lia|]. rewrite Eu, wp_bind. eapply wp_lift_some; [exact Hua|].
    wp_if; [|rewrite wp_ret; by apply (Hlast false s b)].
    pose proof (put_maf_ok g s o b Hok E) as Hok1. set (s1 := put_bo o _ s) in *.
    assert (moves o s s1) as Hm1 by (apply put_moves; by rewrite E).
    eapply wp_mono; [apply (unbind_ok g s1 o (set_map_and_fenceable false b) Hok1); apply put_here|].
    intros ret s2 (Hok2 & Hs2 & Hfr & Hun & _ & _ & b2 & E2 & P1 & P2 & P3 & P4 & _). cbv beta.
    assert (moves o s s2) as Hm2 by (transitivity s1; [done|]; apply keeps_moves, Hs2). destruct (Z.eqb_spec ret 0) as [->|Hr].
    - replace s2 with (put_bo o (set_map_and_fenceable (map_and_fenceable b2) b2) s2) by
        (replace (set_map_and_fenceable _ b2) with b2 by (by destruct b2); by apply put_id).
      apply Hlast; try done. intros _ _ n Hn. destruct (gtt_space b) as [nb|] eqn:Hnb.
      + destruct Hfr as (_ & (b3 & E3 & Hn3 & _) & _); [done|by simpl; rewrite Hnb|]. congruence.
      + rewrite (Hun Hnb) in E2. unfold s1 in E2. rewrite put_here in E2. simplify_eq. simpl in Hn. congruence.
    - rewrite wp_ret. split; [done|]. split; [done|]. exists b2. split; [done|]. split; [done|]. intros _. by split_and!. }
  rewrite wp_bind, wp_gets, wp_bind. destruct (gtt_space b) as [n|] eqn:Hn.
  2: { rewrite wp_ret. apply Hgo. by intros _ _ n [=]. }
  destruct (block_facts g s n (ok_place _ _ Hok) (bound_in g s o b n Hok E Hn)) as (Hnd & _).
  wp_if; [|rewrite wp_ret; by apply (Hgo false)]. unfold get_space. rewrite wp_bind, wp_bind, wp_gets.
  eapply wp_lift_some; [rewrite Hn; exact Hnd|].
  destruct (fence_ok_some (c_chip g) (gtt_offset b) (node_size (get (mm s) n)) (base_size b) t) as (ok & Hfo); [lia|].
  eapply wp_lift_some; [exact Hfo|]. apply Hgo. intros -> Htn n' [= <-]. unfold fence_place. by rewrite <-(fence_ok_tiled _ _ _ _ t).
Qed.

Lemma land3_small t : 0 <= t < 4 -> Z.land t 3 = t.
Proof. intros Ht. change 3 with (Z.ones 2). rewrite Z.land_ones by lia. by apply Z.mod_small. Qed.

(** What is asked for, once bit 17 is hidden and unknown swizzling refused. *)
Definition asked (s : i915) (tiling stride' : Z) : Z * Z * Z := tiling_request (bit_6_swizzle s) tiling stride'.

Lemma set_tiling_ok g s o b tiling stride' : gtt_ok g s -> objs s !! o = Some b -> 0 <= stride' < 2 ^ 32 ->
  wp (i915_gem_set_tiling o tiling stride') (fun res s' => let '(ret, (t1, st1, sw1)) := res in
    gtt_ok g s' /\ moves o s s' /\
    (i915_tiling_ok (c_chip g) stride' (base_size b) tiling = false -> ret = - EINVAL) /\
    (pin_count b <> 0 -> ret <> 0 /\ s' = s) /\
    exists b', objs s' !! o = Some b' /\
      (ret = 0 -> tiling_set b b' (asked s tiling stride').1.1 (asked s tiling stride').1.2 /\
         t1 = tiling_mode b' /\ st1 = stride b' /\ sw1 = (asked s tiling stride').2) /\
      (ret <> 0 -> tiling_kept b b')) s.
Proof.
  intros Hok E Hst. pose proof (ok_place _ _ Hok) as Hp. destruct (p_cfg _ _ Hp) as (Hg & E1 & _).
  pose proof (p_bo _ _ Hp o b E) as Hb. unfold i915_gem_set_tiling, asked.
  rewrite wp_bind. apply (wp_get_bo o b); [done|]. rewrite wp_bind, wp_gets, wp_bind, wp_gets, E1.
  destruct (i915_tiling_ok (c_chip g) stride' (base_size b) tiling) eqn:Ht; cbn [negb].
  2: { rewrite wp_ret. split; [done|]. split; [done|]. split; [done|]. split; [done|]. exists b. by split_and!. }
  wp_if; zbool; [rewrite wp_ret; split_and!; try done; exists b; by split_and!|].
  destruct (tiling_request _ tiling stride') as [[t st] sw] eqn:Hreq.
  destruct (request_ok _ _ _ _ _ _ _ _ Ht Hst Hreq) as (Ht' & Hst' & _). cbn [fst snd].
  rewrite wp_bind. eapply (wp_mono _ (fun ret s' => gtt_ok g s' /\ moves o s s' /\ exists b', objs s' !! o = Some b' /\
       (ret = 0 -> tiling_set b b' t st) /\ (ret <> 0 -> tiling_kept b b'))).
  - wp_if; [by apply (retile_place_ok g s o b t st)|]. rename select (_ || _ = false) into Hsame.
    rewrite wp_ret. split; [done|]. split; [done|]. exists b.
    split; [done|]. split; [|done]. intros _. apply orb_false_iff in Hsame as [H1%negb_false_iff H2%negb_false_iff]. zbool.
    subst t st. split; [done|]. split; [done|]. split; [|done]. by rewrite land3_small by apply (bk_tiling _ _ _ Hb).
  - intros ret s' (Hok' & Hm' & b' & E' & Hz & Hnz). cbv beta. rewrite wp_bind. apply (wp_get_bo o b'); [done|]. rewrite wp_ret.
    split; [done|]. split; [done|]. split; [done|]. split; [done|]. exists b'. split; [done|]. split; [|done]. auto.
Qed.

(** C5: changing the tiling is sound.  [i915_gem_set_tiling] runs to its end from every
    state the invariant allows and keeps the invariant: the object's place is right for
    the new tiling, or it is not bound any more; and its fence register is marked if it
    does not say the new tiling.  A stride the chip cannot use is refused, a pinned object
    is left alone, and what is reported is the mode and stride that are stored: those
    asked for, less what a swizzling that is not known forbids. *)
Theorem set_tiling_sound g s o b tiling stride' : gtt_ok g s -> objs s !! o = Some b -> 0 <= stride' < 2 ^ 32 ->
  wp (i915_gem_set_tiling o tiling stride') (fun res s' => let '(ret, (t1, st1, sw1)) := res in
    gtt_ok g s' /\ moves o s s' /\
    (i915_tiling_ok (c_chip g) stride' (base_size b) tiling = false -> ret = - EINVAL) /\
    (pin_count b <> 0 -> ret <> 0 /\ s' = s) /\
    exists b', objs s' !! o = Some b' /\
      (ret = 0 -> tiling_set b b' (asked s tiling stride').1.1 (asked s tiling stride').1.2 /\
         t1 = tiling_mode b' /\ st1 = stride b' /\ sw1 = (asked s tiling stride').2) /\
      (ret <> 0 -> tiling_kept b b')) s.
Proof. apply set_tiling_ok. Qed.
