(* ===== verification/Active.v ===== *)
(** * Objects in use by the chip (i915_gem.c, i915_gem_execbuffer.c)

    An object a batch uses becomes active and is the last of its list; it stays bound and
    keeps its fence until it is retired. *)

From S2P Require Import Prelude MM MMInv MMAlloc MMFree MMScan MMBlocks Tiling TilingFacts Fence Gtt GttInv GttFence GttBind Evict Bind.

Open Scope Z_scope.

(** The object [o] goes to the tail of the active list, where it is. *)
Lemma put_active g s s' o b b' : gtt_ok g s -> objs s !! o = Some b -> gtt_space b <> None ->
  objs s' = <[o := b']> (objs s) -> bo_ok g (mm s) b' ->
  gtt_space b' = gtt_space b -> gtt_offset b' = gtt_offset b -> fence_reg b' = fence_reg b -> fence_dirty b' = fence_dirty b ->
  base_size b' = base_size b -> tiling_mode b' = tiling_mode b -> stride b' = stride b -> active b' = true ->
  info s' = info s -> mappable_end s' = mappable_end s -> gtt_total s' = gtt_total s -> mm s' = mm s ->
  inactive_list s' = list_del o (inactive_list s) -> active_list s' = list_del o (active_list s) ++ [o] ->
  fence_regs s' = fence_regs s -> fence_list s' = fence_list s -> mmio s' = mmio s -> gtt_ok g s'.
Proof.
  intros [[P1 P2 P3 P4 P5 P6 P7] [F1 F2 F3 F4 F5] H] E Hn EO Hb' Es Eof Ef Ed Eb Et Est Ha E1 E2 E3 Em EI EA ER EL EMM.
  assert (forall k, objs s' !! k = if decide (k = o) then Some b' else objs s !! k) as EO'.
  { intros k. rewrite EO. case_decide as Hk; [subst; apply lookup_insert_eq|by rewrite lookup_insert_ne]. }
  assert (forall k c', objs s' !! k = Some c' -> exists c, objs s !! k = Some c /\ gtt_space c' = gtt_space c /\
    fence_reg c' = fence_reg c /\ (k <> o -> c' = c)) as Hback.
  { intros k c'. rewrite EO'. case_decide as Hk; [intros [= <-]; subst; by exists b|intros Hc; by exists c']. }
  assert (forall k c, objs s !! k = Some c -> exists c', objs s' !! k = Some c' /\ gtt_space c' = gtt_space c /\
    fence_reg c' = fence_reg c /\ (k <> o -> c' = c)) as Hfwd.
  { intros k c Hc. rewrite EO'. case_decide as Hk; [subst; exists b'; split_and!; try congruence; done|by exists c]. }
  assert (o ∈ inactive_list s ++ active_list s) as Hin by (apply P6; by exists b).
  assert (inactive_list s' ++ active_list s' ≡ₚ inactive_list s ++ active_list s) as HL.
  { rewrite EI, EA, app_assoc, <-list_del_app, Permutation_app_comm. by apply list_del_perm. }
  split; [split|split|].
  - by rewrite E1, E2, E3.
  - by rewrite Em.
  - intros k c. rewrite EO', Em. case_decide; [by intros [= <-]|apply P3].
  - intros k k' c c' j (c0 & C0 & C1 & _)%Hback (c0' & C0' & C1' & _)%Hback Hj Hj'.
    apply (P4 k k' c0 c0' j); try done; congruence.
  - by rewrite HL.
  - intros k. rewrite HL, P6. split; intros (c & Hc & Hnc).
    + destruct (Hfwd k c Hc) as (c' & ? & ? & _). exists c'. split; congruence.
    + destruct (Hback k c Hc) as (c' & ? & ? & _). exists c'. split; congruence.
  - intros k. rewrite EA, elem_of_app, elem_of_list_del, list_elem_of_singleton, P7. split.
    + intros [(Hk & c & Hc & Hac)| ->]; [exists c; by rewrite EO', decide_False|exists b'; by rewrite EO', decide_True].
    + intros (c & Hc & Hac). rewrite EO' in Hc. case_decide; [by right|left]. split; [done|by exists c].
  - by rewrite ER.
  - intros r fr k. rewrite ER. intros Hr Hk. destruct (F2 r fr k Hr Hk) as (c & Hc & Hfc).
    destruct (Hfwd k c Hc) as (c' & ? & _ & ? & _). exists c'. split; congruence.
  - intros k c r (c0 & C0 & _ & C1 & _)%Hback Hfc. rewrite ER. apply (F3 k c0); congruence.
  - by rewrite EL, ER.
  - by rewrite ER.
  - intros r fr Hlo. rewrite ER. intros Hr. unfold fence_shows. rewrite E1, EMM. specialize (H r fr Hlo Hr).
    destruct (reg_obj fr) as [k|]; [|done]. intros c Hc. rewrite EO' in Hc.
    case_decide as Hk; [subst k; injection Hc as <-|].
    + destruct (H b E) as (rg & Hsh & j & G1 & G2 & G3 & G4). exists rg. split; [done|]. exists j. rewrite Em.
      split_and!; try congruence. intros Hd. rewrite G4 by congruence. unfold region_of, to_fenced. simpl. congruence.
    + destruct (H c Hc) as (rg & Hsh & j & Hj). exists rg. split; [done|]. exists j. by rewrite Em.
Qed.

Lemma lor_land_nz a b m : Z.land a m <> 0 -> Z.land (Z.lor a b) m <> 0.
Proof.
  intros Ha H0. apply Ha. apply Z.bits_inj'. intros i Hi. rewrite Z.bits_0.
  assert (Z.testbit (Z.land (Z.lor a b) m) i = false) as Hb by by rewrite H0, Z.bits_0.
  rewrite Z.land_spec, Z.lor_spec in Hb. rewrite Z.land_spec. by destruct (Z.testbit a i), (Z.testbit m i), (Z.testbit b i).
Qed.

(** A batch starts to use a bound object: with domains of the chip only. *)
Lemma exec_active_ok g s o b pr pw pf seqno : gtt_ok g s -> objs s !! o = Some b -> gtt_space b <> None ->
  Z.land pr I915_GEM_GPU_DOMAINS <> 0 -> Z.land pw (Z.lnot I915_GEM_GPU_DOMAINS) = 0 -> seqno <> 0 ->
  wp (i915_gem_execbuffer_move_to_active o pr pw pf seqno) (fun _ s' => gtt_ok g s' /\ o ∈ active_list s' /\
    (exists b', objs s' !! o = Some b' /\ gtt_space b' = gtt_space b /\ gtt_offset b' = gtt_offset b /\
       pin_count b' = pin_count b /\ fence_reg b' = fence_reg b) /\
    forall k, k <> o -> objs s' !! k = objs s !! k) s.
Proof.
  intros Hok E Hn Hpr Hpw Hsq. unfold i915_gem_execbuffer_move_to_active, i915_gem_object_move_to_active.
  rewrite wp_bind. apply (wp_upd_bo o b); [done|]. rewrite wp_bind. eapply wp_upd_bo; [apply put_here|]. rewrite put_put.
  rewrite wp_bind. eapply wp_upd_bo; [apply put_here|]. rewrite put_put.
  rewrite wp_bind. eapply wp_upd_bo; [apply put_here|]. rewrite put_put.
  rewrite wp_bind, wp_modify, wp_bind. eapply wp_upd_bo; [apply put_here|].
  match goal with |- context [set_last_read_seqno seqno ?x] => set (b1 := x) in * end.
  set (rd := if pw =? 0 then _ else _) in *.
  assert (Z.land rd I915_GEM_GPU_DOMAINS <> 0) as Hrd by (unfold rd; destruct (pw =? 0); [by apply lor_land_nz|done]).
  assert (forall q b4, objs q = <[o := b4]> (objs s) ->
    (b4 = set_last_read_seqno seqno b1 \/ b4 = set_last_fenced_seqno seqno (set_last_read_seqno seqno b1)) ->
    info q = info s -> mappable_end q = mappable_end s -> gtt_total q = gtt_total s -> mm q = mm s ->
    inactive_list q = list_del o (inactive_list s) -> active_list q = list_del o (active_list s) ++ [o] ->
    fence_regs q = fence_regs s -> fence_list q = fence_list s -> mmio q = mmio s -> gtt_ok g q) as Hput.
  { intros q b4 EO H4 E1 E2 E3 E4 E5 E6 E7 E8 E9.
    pose proof (p_bo _ _ (ok_place _ _ Hok) o b E) as [K1 K2 K3 K4 K5 K6 Kg K7 K8].
    apply (put_active g s q o b b4); try done; try (by destruct H4 as [-> | ->]).
    assert (bo_ok g (mm s) (set_last_read_seqno seqno b1)) as H1 by (split; try done; intros n Hx; destruct (K7 n Hx); by split).
    destruct H4 as [-> | ->]; [done|]. destruct H1 as [Z1 Z2 Z3 Z4 Z5 Z6 Zg Z7 Z8]. split; try done.
    intros n Hx. destruct (Z7 n Hx); by split. }
  assert (forall q b4, objs q = <[o := b4]> (objs s) -> active_list q = list_del o (active_list s) ++ [o] ->
    gtt_space b4 = gtt_space b -> gtt_offset b4 = gtt_offset b -> pin_count b4 = pin_count b -> fence_reg b4 = fence_reg b ->
    o ∈ active_list q /\ (exists b', objs q !! o = Some b' /\ gtt_space b' = gtt_space b /\ gtt_offset b' = gtt_offset b /\
       pin_count b' = pin_count b /\ fence_reg b' = fence_reg b) /\ forall k, k <> o -> objs q !! k = objs s !! k) as Hrest.
  { intros q b4 EO EA ? ? ? ?. split; [rewrite EA; apply elem_of_app; right; by left|].
    split; [exists b4; by rewrite EO, lookup_insert_eq|]. intros k Hk. by rewrite EO, lookup_insert_ne. }
  rewrite wp_bind. eapply wp_get_bo; [apply put_here|].
  match goal with |- wp _ _ ?x => set (s2 := x) in * end.
  assert (objs s2 = <[o := set_last_read_seqno seqno b1]> (objs s)) as EO2 by (subst s2; simpl; by rewrite insert_insert_eq).
  wp_if.
  - rewrite wp_bind. eapply wp_upd_bo; [apply put_here|].
    match goal with |- wp _ _ ?x => set (s3 := x) in * end. set (b3 := set_last_fenced_seqno _ _) in *.
    assert (objs s3 = <[o := b3]> (objs s)) as EO3 by (change (objs s3) with (<[o := b3]> (objs s2)); by rewrite EO2, insert_insert_eq).
    assert (gtt_ok g s3) as Hok3 by (apply (Hput s3 b3); try done; by right).
    destruct (fence_reg _) as [r|] eqn:Hr.
    + rewrite wp_modify. destruct (f_has _ (ok_fence _ _ Hok) o b r E Hr) as (fr & Hfr & Hown).
      split; [apply (move_tail_ok g s3 r fr); [done|done|congruence]|]. by apply (Hrest _ b3).
    + rewrite wp_ret. split; [done|]. by apply (Hrest _ b3).
  - rewrite wp_ret. split; [apply (Hput s2 (set_last_read_seqno seqno b1)); try done; by left|].
    by apply (Hrest _ (set_last_read_seqno seqno b1)).
Qed.
