(* ===== verification/Aperture.v ===== *)
(** * The aperture as a whole

    Everything the driver does to the aperture and its fences, in any order and with any
    replies of the chip, as steps of one system; what its callers may ask for is [allowed].
    In every state that can be reached no two objects overlap, a pinned object has a place,
    and each fence register that is on shows the place of the object that owns it; and from
    every such state every operation that is allowed runs to its end. *)

From S2P Require Import Prelude MM MMInv MMAlloc MMFree MMScan MMBlocks Tiling TilingFacts Fence Gtt GttInv GttFence GttBind Evict Bind Pin SetTiling Active.

Open Scope Z_scope.

(** ** The system *)

(** What happens: an operation with its arguments, replies of the chip to come, or a reset
    that leaves anything in the registers. *)
Inductive event : Type :=
| EvCreate (o : oid) (size : Z)
| EvPin (o : oid) (alignment : Z) (map_and_fenceable nonblocking : bool) (kz : option nid)
| EvUnpin (o : oid)
| EvUnbind (o : oid)
| EvGetFence (o : oid)
| EvPutFence (o : oid)
| EvSetTiling (o : oid) (tiling stride : Z)
| EvEvict (size alignment cache_level : Z) (mappable nonblocking : bool)
| EvEvictEverything
| EvExec (o : oid) (pending_read pending_write : Z) (pending_fenced : bool) (seqno : Z)
| EvRetire (l : list oid)
| EvNumUsedFences (value : Z)
| EvAnswers (l : list (Z * list oid))
| EvReset (registers : gmap Z Z).

Definition perform (e : event) : F unit :=
  match e with
  | EvCreate o size => c ← gets info; modify (put_bo o (i915_gem_alloc_object c size))
  | EvPin o al maf nb kz => n ← gets bound_count; _ ← i915_gem_object_pin n o al maf nb kz; mret tt
  | EvUnpin o => i915_gem_object_unpin o
  | EvUnbind o => _ ← i915_gem_object_unbind o; mret tt
  | EvGetFence o => _ ← i915_gem_object_get_fence o; mret tt
  | EvPutFence o => _ ← i915_gem_object_put_fence o; mret tt
  | EvSetTiling o t st => _ ← i915_gem_set_tiling o t st; mret tt
  | EvEvict size al color mappable nb => _ ← i915_gem_evict_something size al color mappable nb; mret tt
  | EvEvictEverything => _ ← i915_gem_evict_everything; mret tt
  | EvExec o pr pw pf seqno => i915_gem_execbuffer_move_to_active o pr pw pf seqno
  | EvRetire l => retire l
  | EvNumUsedFences v => _ ← set_num_used_fences v; mret tt
  | EvAnswers l => modify (set_answers l)
  | EvReset regs => _ ← modify (set_mmio regs); i915_gem_restore_fences
  end.

(** What has to be so of what the callers ask for.  The object exists; an object that is
    made has at most 2 GB, in pages; a pin is given back once; a fence is got only for an
    object whose place can have one; a batch uses bound objects with domains of the chip;
    kzalloc returns a node that is not in use.  The alignment of a pin is in pages, or the
    object has to be mappable and fenceable and then any will do.  The callers in the
    driver see to all of this with one exception: [i915_gem_execbuffer_reserve_object]
    passes on the alignment that user space gives, and asks for mappable and fenceable
    only for a batch that says so ([odd_alignment_breaks_fence] in GttWitness.v). *)
Definition allowed (g : cfg) (s : i915) (e : event) : Prop :=
  match e with
  | EvCreate o size => objs s !! o = None /\ 0 < size <= 2 ^ 31 /\ (4096 | size)
  | EvPin o al maf _ kz => is_Some (objs s !! o) /\ al_pages al maf /\ fresh_kz (mm s) kz
  | EvUnpin o => exists b, objs s !! o = Some b /\ pin_count b <> 0
  | EvUnbind o | EvPutFence o => is_Some (objs s !! o)
  | EvGetFence o => exists b, objs s !! o = Some b /\ can_fence g s b
  | EvSetTiling o _ st => is_Some (objs s !! o) /\ 0 <= st < 2 ^ 32
  | EvExec o pr pw _ seqno => exists b, objs s !! o = Some b /\ gtt_space b <> None /\
      Z.land pr I915_GEM_GPU_DOMAINS <> 0 /\ Z.land pw (Z.lnot I915_GEM_GPU_DOMAINS) = 0 /\ seqno <> 0
  | EvEvict _ _ _ _ _ | EvEvictEverything | EvRetire _ | EvNumUsedFences _ | EvAnswers _ | EvReset _ => True
  end.

(** The state before [i915_gem_load], with the allocator set up over [total] bytes; the
    two touch different parts of the state. *)
Definition cold_i915 (c : chip) (lim total : Z) (regs : gmap Z Z) (old : drm_mm) : i915 :=
  mk_i915 c lim total (0, 0) (i915_gem_setup_global_gtt c old 0 total) ∅ [] [] [] [] [] [] 0 regs [].

Definition boot_cfg (c : chip) (lim total : Z) : cfg := mk_cfg c lim total 0 (total - PAGE).

Inductive reachable (c : chip) (lim total : Z) : i915 -> Prop :=
| reach_load modeset i945 regs old s :
    i915_gem_load modeset i945 (cold_i915 c lim total regs old) = Some (tt, s) -> reachable c lim total s
| reach_step s e s' :
    reachable c lim total s -> allowed (boot_cfg c lim total) s e -> perform e s = Some (tt, s') -> reachable c lim total s'.

(** ** What is promised *)

(** The bytes of a bound object. *)
Definition extent (s : i915) (b : bo) : option (Z * Z) :=
  n ← gtt_space b; Some (gtt_offset b, gtt_offset b + node_size (get (mm s) n)).

Record safe (g : cfg) (s : i915) : Prop := {
  safe_apart : forall o o' b b' x y x' y', objs s !! o = Some b -> objs s !! o' = Some b' -> o <> o' ->
    extent s b = Some (x, y) -> extent s b' = Some (x', y') -> y <= x' \/ y' <= x;
  safe_inside : forall o b x y, objs s !! o = Some b -> extent s b = Some (x, y) ->
    c_start g <= x /\ x + base_size b <= y /\ y <= c_end g;
  safe_pinned : forall o b, objs s !! o = Some b -> 0 <= pin_count b <= 15 /\ (pin_count b <> 0 -> extent s b <> None);
  safe_fence : forall r fr, fence_regs s !! r = Some fr ->
    match fence_shows s r with
    | None => reg_obj fr = None
    | Some rg => exists o b, reg_obj fr = Some o /\ objs s !! o = Some b /\ extent s b = Some (r_start rg, r_end rg)
    end }.

(** ** The invariant holds *)

Lemma extent_some g s o b x y : gtt_ok g s -> objs s !! o = Some b -> extent s b = Some (x, y) ->
  exists n, gtt_space b = Some n /\ n ∈ node_list (mm s) /\ x = block_start (mm s) n /\ y = x + node_size (get (mm s) n) /\
    base_size b <= node_size (get (mm s) n).
Proof.
  intros Hok E Hx. unfold extent in Hx. destruct (gtt_space b) as [n|] eqn:Hn; [|done]. injection Hx as <- <-.
  pose proof (bk_bound _ _ _ (p_bo _ _ (ok_place _ _ Hok) o b E) n Hn) as [B1 B2 B3 _ _ _ _]. exists n. by split_and!.
Qed.

Lemma gtt_ok_safe g s : gtt_ok g s -> safe g s.
Proof.
  intros Hok. pose proof (ok_place _ _ Hok) as Hp. destruct (p_mm _ _ Hp) as [Hwf _]. split.
  - intros o o' b b' x y x' y' E E' Hne Hx Hx'.
    destruct (extent_some g s o b x y Hok E Hx) as (n & Hn & Hin & -> & -> & _).
    destruct (extent_some g s o' b' x' y' Hok E' Hx') as (n' & Hn' & Hin' & -> & -> & _).
    apply (ring_apart _ _ _ Hwf); try done. intros ->. by apply Hne, (p_inj _ _ Hp o o' b b' n').
  - intros o b x y E Hx. destruct (extent_some g s o b x y Hok E Hx) as (n & Hn & Hin & -> & -> & Hs).
    destruct (block_facts g s n Hp Hin) as (_ & ? & ? & ?). lia.
  - intros o b E. pose proof (p_bo _ _ Hp o b E) as Hb. split; [apply (bk_pin _ _ _ Hb)|]. intros Hz. unfold extent.
    destruct (gtt_space b) as [n|] eqn:Hn; [done|]. by destruct (bk_free _ _ _ Hb Hn) as (? & _).
  - intros r fr Hr. assert (r < 32)%nat as Hlt by (apply lookup_lt_Some in Hr; pose proof (f_len _ (ok_fence _ _ Hok)); lia).
    pose proof (ok_hw _ _ Hok r fr Hlt Hr) as Hhw. destruct (reg_obj fr) as [o|] eqn:Ho.
    + destruct (f_own _ (ok_fence _ _ Hok) r fr o Hr Ho) as (b & E & _). destruct (Hhw b E) as (rg & -> & n & Hn & -> & -> & _).
      exists o, b. split; [done|]. split; [done|]. unfold extent. by rewrite Hn.
    + by rewrite Hhw.
Qed.

Lemma setup_ok c old total : PAGE < total <= 2 ^ 31 ->
  mm_wf (i915_gem_setup_global_gtt c old 0 total) 0 (total - PAGE) /\ color_narrows (i915_gem_setup_global_gtt c old 0 total).
Proof.
  unfold PAGE. intros Ht. destruct (drm_mm_init_wf old 0 (total - 0 - 4096)) as [Hwf Hc]; [lia..|].
  replace (0 + (total - 0 - 4096)) with (total - 4096) in Hwf by lia.
  unfold i915_gem_setup_global_gtt, PAGE. destruct (has_llc c); cbn [negb]; [split; [done|by apply color_none_narrows]|].
  split.
  - by destruct Hwf; split.
  - intros f look nx h color a b [= <-]. unfold i915_gtt_color_adjust. destruct (look h) as [nd|]; [|simpl; lia].
    destruct (nx h) as [k|]; [|destruct (negb _); simpl; lia]. destruct (look k) as [od|]; [|destruct (negb _); simpl; lia].
    destruct (negb _), (allocated od && _); simpl; lia.
Qed.

Lemma load_ok c lim total modeset i945 regs old : cfg_ok (boot_cfg c lim total) -> PAGE < total ->
  wp (i915_gem_load modeset i945) (fun _ s => gtt_ok (boot_cfg c lim total) s) (cold_i915 c lim total regs old).
Proof.
  intros Hg Hpage. set (g := boot_cfg c lim total) in *. pose proof (cf_total _ Hg) as [Ht _]. simpl in Ht.
  destruct (setup_ok c old total) as [Hwf Hcol]; [lia|].
  unfold i915_gem_load. rewrite wp_bind, wp_gets, wp_bind, wp_modify, wp_bind.
  assert (forall start, let s := set_fence_reg_start start (cold_i915 c lim total regs old) in
    wp (_ ← modify (set_fence_regs (repeat (mk_fence None 0) (num_fence_regs c i945))); i915_gem_restore_fences)
      (fun _ s => gtt_ok g s) s) as Hgo.
  { intros start s. rewrite wp_bind, wp_modify. eapply wp_mono; [apply (restore_fences_ok g)|by intros ? ? [? _]].
    - split; try done; simpl.
      + constructor.
      + intros o. split; [by intros ?%elem_of_nil|]. by intros (b & [=] & _).
      + intros o. split; [by intros ?%elem_of_nil|]. by intros (b & [=] & _).
    - assert (forall r fr, repeat (mk_fence None 0) (num_fence_regs c i945) !! r = Some fr -> fr = mk_fence None 0) as Hrep.
      { intros r fr Hr. apply list_elem_of_lookup_2, list_elem_of_In, repeat_spec in Hr. done. }
      split; simpl.
      + rewrite repeat_length. unfold num_fence_regs. repeat case_match; lia.
      + intros r fr o Hr Ho. by rewrite (Hrep r fr Hr) in Ho.
      + done.
      + split; [constructor|]. intros r. split; [by intros ?%elem_of_nil|]. intros (fr & Hr & Ho). by rewrite (Hrep r fr Hr) in Ho.
      + intros r fr Hr. by rewrite (Hrep r fr Hr). }
  destruct modeset; cbn [negb]; [rewrite wp_ret; apply (Hgo 0%nat)|rewrite wp_modify; apply (Hgo 3%nat)].
Qed.

Lemma alloc_object_ok g c m size : 0 < size <= 2 ^ 31 -> (4096 | size) -> bo_ok g m (i915_gem_alloc_object c size).
Proof. intros Hs Hd. split; try done; simpl; lia. Qed.

(** Runs whose result does not matter. *)
Lemma wp_ignore {A} (p : F A) (Q : A -> i915 -> Prop) (R : i915 -> Prop) s :
  wp p Q s -> (forall a s', Q a s' -> R s') -> wp (_ ← p; mret tt) (fun _ s' => R s') s.
Proof. intros Hp HQ. rewrite wp_bind. eapply wp_mono; [exact Hp|]. intros a s' Ha. rewrite wp_ret. by apply (HQ a). Qed.

Lemma unbind_all_ok g l : forall s, gtt_ok g s -> (forall o, o ∈ l -> is_Some (objs s !! o)) ->
  wp (unbind_all l) (fun _ s' => gtt_ok g s' /\ shrinks s s') s.
Proof.
  induction l as [|o l IH]; intros s Hok Hl; simpl; [by rewrite wp_ret|].
  destruct (Hl o) as [b E]; [by left|]. rewrite wp_bind. apply (wp_get_bo o b); [done|]. rewrite wp_bind.
  apply (wp_mono _ (fun _ s1 => gtt_ok g s1 /\ shrinks s s1)).
  - wp_if; [|by rewrite wp_ret]. eapply wp_mono; [by apply (unbind_ok g s o b)|]. by intros ret s1 (? & ? & _).
  - intros ret s1 [Hok1 Hs1]. eapply wp_mono; [apply (IH s1 Hok1)|].
    + intros k Hk. apply (kp_dom _ _ (sk_keeps _ _ Hs1)), Hl. by right.
    + intros ? s2 [? ?]. split; [done|]. by transitivity s1.
Qed.

Lemma evict_everything_ok g s : gtt_ok g s ->
  wp i915_gem_evict_everything (fun ret s' => gtt_ok g s' /\ shrinks s s') s.
Proof.
  intros Hok. unfold i915_gem_evict_everything. rewrite wp_bind, wp_gets, wp_bind, wp_gets. wp_if; [by rewrite wp_ret|].
  rewrite wp_bind. apply wp_next_answer. intros a l. pose proof (answers_quiet s l) as Hq.
  assert (gtt_ok g (set_answers l s)) as Hok1 by (apply (gtt_ok_rest g s); [by split_and!|done|done]).
  wp_if; [rewrite wp_ret; split; [done|by apply quiet_shrinks]|].
  rewrite wp_bind. eapply wp_mono; [by apply (retire_ok g)|]. intros ? s1 (Hok2 & Hq2 & _). cbv beta.
  rewrite wp_bind, wp_gets, wp_bind. eapply wp_mono; [apply (unbind_all_ok g (inactive_list s1) s1 Hok2)|].
  - intros o Ho. destruct (proj1 (p_lists _ _ (ok_place _ _ Hok2) o)) as (b & E & _); [apply elem_of_app; by left|]. by exists b.
  - intros ? s2 [Hok3 Hs3]. rewrite wp_ret. split; [done|]. transitivity s1; [|done].
    transitivity (set_answers l s); by apply quiet_shrinks.
Qed.

Lemma perform_ok g s e : gtt_ok g s -> allowed g s e -> wp (perform e) (fun _ s' => gtt_ok g s') s.
Proof.
  intros Hok. destruct e as [o size|o al maf nb kz|o|o|o|o|o t st|size al color mappable nb| |o pr pw pf seqno|l|v|l|regs]; simpl.
  - intros (E & Hs & Hd). rewrite wp_bind, wp_gets, wp_modify.
    apply put_free; [done|intros b Eb; congruence|by apply alloc_object_ok|done].
  - intros ([b E] & Hal & Hkz). rewrite wp_bind, wp_gets.
    eapply wp_ignore; [apply (pin_ok g s o b); try done; by left|]. by intros ret s' (? & _).
  - intros (b & E & Hp). eapply wp_mono; [by apply (unpin_ok g s o b)|]. by intros ? s' (? & _).
  - intros [b E]. eapply wp_ignore; [by apply (unbind_ok g s o b)|]. by intros ret s' (? & _).
  - intros (b & E & Hc). eapply wp_ignore; [by apply (get_fence_ok g s o b)|]. by intros ret s' (? & _).
  - intros [b E]. eapply wp_ignore; [by apply (put_fence_spec g s o b)|]. by intros ret s' (? & _).
  - intros ([b E] & Hst). eapply wp_ignore; [by apply (set_tiling_ok g s o b)|]. by intros [ret [[? ?] ?]] s' (? & _).
  - intros _. eapply wp_ignore; [by apply (evict_something_ok g s)|]. by intros ret s' (? & _).
  - intros _. eapply wp_ignore; [by apply (evict_everything_ok g s)|]. by intros ret s' (? & _).
  - intros (b & E & Hn & H1 & H2 & H3). eapply wp_mono; [by apply (exec_active_ok g s o b)|]. by intros ? s' (? & _).
  - intros _. eapply wp_mono; [by apply (retire_ok g)|]. by intros ? s' (? & _).
  - intros _. unfold set_num_used_fences. apply (wp_ignore _ (fun _ s' => gtt_ok g s')); [|done].
    rewrite wp_bind, wp_gets. wp_if; [by rewrite wp_ret|]. rewrite wp_bind, wp_modify, wp_ret. by apply (gtt_ok_rest g s).
  - intros _. rewrite wp_modify. by apply (gtt_ok_rest g s).
  - intros _. rewrite wp_bind, wp_modify. eapply wp_mono; [apply (restore_fences_ok g (set_mmio regs s))|by intros ? s' [? _]].
    + destruct (ok_place _ _ Hok). by split.
    + destruct (ok_fence _ _ Hok). by split.
Qed.

Lemma reachable_ok c lim total s : cfg_ok (boot_cfg c lim total) -> PAGE < total -> reachable c lim total s ->
  gtt_ok (boot_cfg c lim total) s.
Proof.
  intros Hg Hpage. induction 1 as [modeset i945 regs old s Hrun|s e s' _ IH Hal Hrun].
  - pose proof (load_ok c lim total modeset i945 regs old Hg Hpage) as H. unfold wp in H. by rewrite Hrun in H.
  - pose proof (perform_ok _ s e IH Hal) as H. unfold wp in H. by rewrite Hrun in H.
Qed.

(** C1: the aperture is safe.  In every state that can be reached from the loading of the
    driver, by operations that are [allowed], in any order, with any replies of the chip and
    any loss of its registers: no two bound objects overlap and all lie in the range that is
    managed; a pinned object has a place and at most fifteen pins; and a fence register that
    is on shows exactly the place of the object that owns it, one that is off has no owner.
    And every operation that is [allowed] then runs to its end: no [BUG_ON] fires, nothing
    that is not there is read.  The condition that matters in [allowed] is that an object
    is pinned with an alignment in pages, or with any if it is to be mappable and fenceable;
    the driver does not see to it for batches, and without it the promise is broken
    ([odd_alignment_breaks_fence] in GttWitness.v). *)
Theorem aperture_safe c lim total s : cfg_ok (boot_cfg c lim total) -> PAGE < total -> reachable c lim total s ->
  safe (boot_cfg c lim total) s /\
  forall e, allowed (boot_cfg c lim total) s e -> exists s', perform e s = Some (tt, s') /\ reachable c lim total s'.
Proof.
  intros Hg Hpage Hr. pose proof (reachable_ok c lim total s Hg Hpage Hr) as Hok. split; [by apply gtt_ok_safe|].
  intros e He. pose proof (perform_ok _ s e Hok He) as H. apply wp_run in H as ([] & s' & Hrun & _).
  exists s'. split; [done|]. by apply (reach_step c lim total s e).
Qed.
