(* ===== verification/GttWitness.v ===== *)
(** * Aperture and fences: the theorems at work

    A 945 with an aperture of 256 MB is loaded; objects are made, tiled, pinned and given
    fences; and the theorems of the aperture are applied to the states that result. *)

From S2P Require Import Prelude MM MMInv MMAlloc MMFree MMScan MMBlocks Tiling TilingFacts Fence Gtt GttInv GttFence GttBind Evict Bind Pin SetTiling Active Aperture.

Open Scope Z_scope.

Definition i945g : chip := mk_chip 3 false false false false false false.
Definition snb : chip := mk_chip 6 false false false false false true.

Definition aperture945 : Z := 2 ^ 28.
Definition old_mm : drm_mm := mk_mm ∅ [] [] [] 0 false 0 0 0 0 0 0 0 0 None None.

(** A run of events from the loading of the driver. *)
Fixpoint run_events (es : list event) : F unit :=
  match es with [] => mret tt | e :: es => _ ← perform e; run_events es end.

Definition loaded (c : chip) (total : Z) : i915 :=
  default (cold_i915 c total total ∅ old_mm) (snd <$> i915_gem_load true true (cold_i915 c total total ∅ old_mm)).
Definition after (c : chip) (total : Z) (es : list event) : i915 :=
  default (loaded c total) (snd <$> run_events es (loaded c total)).

(** Two objects of 1 MB and 5 pages; the first is tiled, pinned and fenced. *)
Definition script : list event :=
  [EvCreate 1 (2 ^ 20); EvCreate 2 (5 * 4096); EvSetTiling 1 I915_TILING_X 512;
   EvPin 1 0 true false (Some 5%positive); EvGetFence 1].

(** The state after the first [k] events. *)
Definition at_step (k : nat) : i915 := after i945g aperture945 (firstn k script).

Lemma cfg945 : cfg_ok (boot_cfg i945g aperture945 aperture945).
Proof. split; simpl; unfold aperture945, PAGE; try lia. Qed.

Lemma cfg_snb : cfg_ok (boot_cfg snb (2 ^ 28) (2 ^ 31)).
Proof. split; simpl; unfold PAGE; try lia. Qed.

Lemma page945 : PAGE < aperture945.
Proof. reflexivity. Qed.
Lemma divides a b q : b = q * a -> (a | b).
Proof. intros ->. by exists q. Qed.

Lemma not_live m n : nodes m !! n = None -> ~ live m n.
Proof. unfold live. intros ->. by intros [? [=]]. Qed.

Lemma fresh_one m n : nodes m !! n = None -> fresh_kz m (Some n).
Proof. intros Hn k [= <-]. by apply not_live. Qed.

Lemma reach0 : reachable i945g aperture945 aperture945 (at_step 0).
Proof. apply (reach_load i945g aperture945 aperture945 true true ∅ old_mm). vm_compute. reflexivity. Qed.

Lemma reach1 : reachable i945g aperture945 aperture945 (at_step 1).
Proof.
  apply (reach_step _ _ _ _ (EvCreate 1 (2 ^ 20)) _ reach0); [|vm_compute; reflexivity].
  split; [by vm_compute|]. split; [lia|]. by apply (divides _ _ 256).
Qed.

Lemma reach2 : reachable i945g aperture945 aperture945 (at_step 2).
Proof.
  apply (reach_step _ _ _ _ (EvCreate 2 (5 * 4096)) _ reach1); [|vm_compute; reflexivity].
  split; [by vm_compute|]. split; [lia|]. by apply (divides _ _ 5).
Qed.

Lemma reach3 : reachable i945g aperture945 aperture945 (at_step 3).
Proof.
  apply (reach_step _ _ _ _ (EvSetTiling 1 I915_TILING_X 512) _ reach2); [|vm_compute; reflexivity].
  split; [by vm_compute; eexists|lia].
Qed.

Lemma reach4 : reachable i945g aperture945 aperture945 (at_step 4).
Proof.
  apply (reach_step _ _ _ _ (EvPin 1 0 true false (Some 5%positive)) _ reach3); [|vm_compute; reflexivity].
  split; [by vm_compute; eexists|]. split; [by apply al_ok_pages; left|]. apply fresh_one. by vm_compute.
Qed.

Definition bo_at (k : nat) (o : oid) : bo := default (i915_gem_alloc_object i945g 0) (objs (at_step k) !! o).

Lemma can_fence4 : can_fence (boot_cfg i945g aperture945 aperture945) (at_step 4) (bo_at 4 1).
Proof. intros _ _. exists 5%positive. split; by vm_compute. Qed.

Lemma reach5 : reachable i945g aperture945 aperture945 (at_step 5).
Proof.
  apply (reach_step _ _ _ _ (EvGetFence 1) _ reach4); [|vm_compute; reflexivity].
  exists (bo_at 4 1). split; [by vm_compute|]. apply can_fence4.
Qed.

Lemma ok_at k : reachable i945g aperture945 aperture945 (at_step k) ->
  gtt_ok (boot_cfg i945g aperture945 aperture945) (at_step k).
Proof. apply reachable_ok; [apply cfg945|apply page945]. Qed.

(** ** The theorems *)

(** The pinned object is at the start of the aperture, and the first register shows it. *)
Lemma aperture_safe_witness :
  fence_shows (at_step 5) 0 = Some (mk_region 0 (2 ^ 20) 512 false) /\
  extent (at_step 5) (bo_at 5 1) = Some (0, 2 ^ 20) /\
  safe (boot_cfg i945g aperture945 aperture945) (at_step 5).
Proof.
  split; [by vm_compute|]. split; [by vm_compute|].
  exact (proj1 (aperture_safe i945g aperture945 aperture945 (at_step 5) cfg945 page945 reach5)).
Defined.

Lemma get_fence_sound_witness :
  wp (i915_gem_object_get_fence 1) (fun ret s' => ret = 0 -> has_fence s' 1) (at_step 4).
Proof.
  eapply wp_mono; [apply (get_fence_sound (boot_cfg i945g aperture945 aperture945) (at_step 4) 1 (bo_at 4 1))|].
  - exact (ok_at 4 reach4).
  - vm_compute. reflexivity.
  - exact can_fence4.
  - intros ret s' (_ & _ & H & _) Hr. apply (H Hr). vm_compute. discriminate.
Defined.

Lemma bind_to_gtt_sound_witness :
  wp (i915_gem_object_bind_to_gtt 1 2 0 false false (Some 6%positive)) (fun ret s' => ret = 0 ->
    exists b' n, objs s' !! 2%positive = Some b' /\ gtt_space b' = Some n /\ gtt_offset b' = block_start (mm s') n) (at_step 4).
Proof.
  eapply wp_mono; [apply (bind_to_gtt_sound (boot_cfg i945g aperture945 aperture945) (at_step 4) 2 (bo_at 4 2))|].
  - exact (ok_at 4 reach4).
  - vm_compute. reflexivity.
  - vm_compute. reflexivity.
  - lia.
  - right. exists 0. reflexivity.
  - apply fresh_one. vm_compute. reflexivity.
  - left. vm_compute. lia.
  - intros ret s' (_ & _ & H & _) Hr. destruct (H Hr) as (b' & n & H1 & H2 & _ & H3 & _). exists b', n. split; [exact H1|]. split; [exact H2|exact H3].
Defined.

Lemma evict_something_sound_witness :
  wp (i915_gem_evict_something 4096 4096 0 true false)
    (fun ret s' => gtt_ok (boot_cfg i945g aperture945 aperture945) s') (at_step 4).
Proof.
  eapply wp_mono; [apply (evict_something_sound (boot_cfg i945g aperture945 aperture945) (at_step 4))|].
  - exact (ok_at 4 reach4).
  - intros ret s' (H & _). exact H.
Defined.

Lemma set_tiling_sound_witness :
  wp (i915_gem_set_tiling 2 I915_TILING_Y 512) (fun res s' => gtt_ok (boot_cfg i945g aperture945 aperture945) s') (at_step 4).
Proof.
  eapply wp_mono; [apply (set_tiling_sound (boot_cfg i945g aperture945 aperture945) (at_step 4) 2 (bo_at 4 2))|].
  - exact (ok_at 4 reach4).
  - vm_compute. reflexivity.
  - lia.
  - intros [ret [[t st] sw]] s' (H & _). exact H.
Defined.

Lemma restore_fences_sound_witness :
  wp i915_gem_restore_fences (fun _ s' => gtt_ok (boot_cfg i945g aperture945 aperture945) s') (at_step 5).
Proof.
  eapply wp_mono; [apply (restore_fences_sound (boot_cfg i945g aperture945 aperture945) (at_step 5))|].
  - exact (ok_place _ _ (ok_at 5 reach5)).
  - exact (ok_fence _ _ (ok_at 5 reach5)).
  - intros ? s' (H & _). exact H.
Defined.

(** The condition on alignments is needed.  On a Sandybridge a batch asks for an object of
    two pages with an alignment of 3 ([i915_gem_execbuffer_reserve_object] passes the
    number on); then the object is tiled, and is pinned and given a fence when the caller
    touches its mapping ([i915_gem_fault]). *)
Definition odd_alignment : list event :=
  [EvCreate 1 8192; EvPin 1 4096 false false (Some 5%positive);
   EvCreate 2 8192; EvPin 2 3 false false (Some 6%positive); EvUnpin 2;
   EvSetTiling 2 I915_TILING_X 512; EvPin 2 0 true false None; EvGetFence 2].

(** The object lies from byte 8193 on, and the fence that is on shows other bytes. *)
Lemma odd_alignment_breaks_fence :
  let s := after snb (2 ^ 28) odd_alignment in
  run_events odd_alignment (loaded snb (2 ^ 28)) = Some (tt, s) /\
  (match objs s !! 2%positive with Some b => extent s b | None => None end) = Some (8193, 8193 + 8192) /\
  fence_shows s 0 = Some (mk_region 8192 (8192 + 8192) 512 false) /\
  ~ safe (boot_cfg snb (2 ^ 28) (2 ^ 28)) s.
Proof.
  cbv zeta. split; [by vm_compute|]. split; [by vm_compute|]. split; [by vm_compute|]. intros Hs.
  pose proof (safe_fence _ _ Hs 0%nat) as H. vm_compute in H. destruct (H _ eq_refl) as (o & b & [= <-] & [= <-] & [=]).
Qed.

(** A surface of 8 MB at 16 MB on a Sandybridge. *)
Definition surface : fenced := mk_fenced (2 ^ 24) (2 ^ 23) 2048 I915_TILING_Y.

Lemma surface_fenceable : fenceable snb surface (2 ^ 23).
Proof.
  split; simpl; try done; try lia; try (by vm_compute).
  split; [by apply (divides _ _ 4096)|by apply (divides _ _ 2048)].
Qed.

Lemma fence_register_roundtrip_witness :
  exists ws, fence_writes snb 3 (Some surface) = Some ws /\
    decode_fence snb (fence_hw snb 3 (apply_writes ws ∅)) = Some (mk_region (2 ^ 24) (2 ^ 24 + 2 ^ 23) 2048 true).
Proof.
  destruct (fence_register_roundtrip snb 3 surface (2 ^ 23) ∅ surface_fenceable) as (ws & _ & H1 & _ & H2 & _).
  - lia.
  - exists ws. split; [exact H1|exact H2].
Defined.

Lemma fence_never_partial_witness :
  decode_fence snb (fence_hw snb 3 (apply_writes (firstn 2 (i965_write_fence_reg snb 3 (Some surface))) ∅)) = None.
Proof.
  destruct (fence_never_partial snb 3 (Some surface) ∅ (i965_write_fence_reg snb 3 (Some surface))
    (firstn 2 (i965_write_fence_reg snb 3 (Some surface))) (skipn 2 (i965_write_fence_reg snb 3 (Some surface)))) as [H|[H|H]].
  - simpl; lia.
  - reflexivity.
  - reflexivity.
  - discriminate H.
  - discriminate H.
  - exact H.
Defined.

(** A page that was written out from an address without bit 17 and came back at one with it. *)
Definition page_out : page nat := mk_page 0 (seq 0 4096).
Definition page_in : page nat := mk_page (2 ^ 17) (seq 0 4096).
Definition swapped_in : page nat := mk_page (2 ^ 17) (i915_gem_swizzle_page (seq 0 4096)).

Lemma bit_17_roundtrip_witness : bytes swapped_in !! 0%nat = Some 64%nat /\ gpu_view swapped_in 0 = gpu_view page_out 0.
Proof.
  split; [vm_compute; reflexivity|].
  apply (proj2 (bit_17_roundtrip [page_out] [page_in] None 0 0 page_out swapped_in)).
  - constructor; [split; [reflexivity|vm_compute; reflexivity]|constructor].
  - reflexivity.
  - vm_compute. reflexivity.
  - vm_compute. lia.
Defined.

(** An object of 512 MB on a machine that maps 256 MB. *)
Definition big_chip : i915 := default (cold_i915 snb (2 ^ 28) (2 ^ 31) ∅ old_mm)
  (snd <$> i915_gem_load true false (cold_i915 snb (2 ^ 28) (2 ^ 31) ∅ old_mm)).
Definition big : i915 := put_bo 1 (i915_gem_alloc_object snb (2 ^ 29)) big_chip.

Lemma big_ok : gtt_ok (boot_cfg snb (2 ^ 28) (2 ^ 31)) big.
Proof.
  apply put_free; [apply (reachable_ok snb (2 ^ 28) (2 ^ 31)); [apply cfg_snb|done|]|by intros b|apply alloc_object_ok; [lia|by apply (divides _ _ 131072)]|done].
  apply (reach_load snb (2 ^ 28) (2 ^ 31) true false ∅ old_mm). vm_compute. reflexivity.
Qed.

Lemma pin_error_unpin_stops_witness :
  exists ret s', i915_gem_pin_ioctl 0 7 1 0 None big = Some ((ret, None), s') /\ i915_gem_unpin_ioctl 7 1 s' = None.
Proof.
  destruct (pin_error_unpin_stops (boot_cfg snb (2 ^ 28) (2 ^ 31)) big 1 (i915_gem_alloc_object snb (2 ^ 29)) 0 7 0 None)
    as (ret & s' & H1 & _ & H2).
  - exact big_ok.
  - vm_compute. reflexivity.
  - reflexivity.
  - reflexivity.
  - reflexivity.
  - left. reflexivity.
  - vm_compute. reflexivity.
  - exists ret, s'. split; [exact H1|exact H2].
Defined.

Lemma gtt_size_least_power_witness :
  i915_gem_get_gtt_size i945g (3 * 2 ^ 20) I915_TILING_X = Some (2 ^ 22) /\
  exists j, i915_gem_get_gtt_size i945g (3 * 2 ^ 20) I915_TILING_X = Some (2 ^ j) /\ 20 <= j <= 31.
Proof.
  split; [reflexivity|].
  destruct (proj1 (gtt_size_least_power i945g (3 * 2 ^ 20) I915_TILING_X ltac:(simpl; lia) ltac:(discriminate) ltac:(lia))) as (j & H1 & H2 & _).
  - lia.
  - exists j. split; [exact H1|exact H2].
Defined.
