(* ===== verification/FbFormat.v ===== *)
(** * Pixel formats and the checks of a framebuffer (drm_crtc.c, intel_display.c)

    The codes of drm_fourcc.h with their bytes per pixel, planes and subsampling, and
    the checks a framebuffer passes before it is made.  What a framebuffer that passed
    [framebuffer_check] promises, for the formats whose size the code knows: every sample of
    every plane lies at a 32 bit offset inside the rows the plane was given, and no two
    samples of a plane share a byte; sizes and planes are those drm_fourcc.h documents. *)

From Stdlib Require Import Ascii.
From S2P Require Import Prelude Tiling.

Open Scope Z_scope.

(** ** The codes *)

Definition fourcc_code (a b c d : ascii) : Z :=
  let byte x := Z.of_nat (nat_of_ascii x) in
  Z.lor (Z.lor (byte a) (Z.shiftl (byte b) 8)) (Z.lor (Z.shiftl (byte c) 16) (Z.shiftl (byte d) 24)).

Definition DRM_FORMAT_BIG_ENDIAN : Z := Z.shiftl 1 31.

Definition DRM_FORMAT_C8 : Z := fourcc_code "C" "8" " " " ".
Definition DRM_FORMAT_RGB332 : Z := fourcc_code "R" "G" "B" "8".
Definition DRM_FORMAT_BGR233 : Z := fourcc_code "B" "G" "R" "8".
Definition DRM_FORMAT_XRGB4444 : Z := fourcc_code "X" "R" "1" "2".
Definition DRM_FORMAT_XBGR4444 : Z := fourcc_code "X" "B" "1" "2".
Definition DRM_FORMAT_RGBX4444 : Z := fourcc_code "R" "X" "1" "2".
Definition DRM_FORMAT_BGRX4444 : Z := fourcc_code "B" "X" "1" "2".
Definition DRM_FORMAT_ARGB4444 : Z := fourcc_code "A" "R" "1" "2".
Definition DRM_FORMAT_ABGR4444 : Z := fourcc_code "A" "B" "1" "2".
Definition DRM_FORMAT_RGBA4444 : Z := fourcc_code "R" "A" "1" "2".
Definition DRM_FORMAT_BGRA4444 : Z := fourcc_code "B" "A" "1" "2".
Definition DRM_FORMAT_XRGB1555 : Z := fourcc_code "X" "R" "1" "5".
Definition DRM_FORMAT_XBGR1555 : Z := fourcc_code "X" "B" "1" "5".
Definition DRM_FORMAT_RGBX5551 : Z := fourcc_code "R" "X" "1" "5".
Definition DRM_FORMAT_BGRX5551 : Z := fourcc_code "B" "X" "1" "5".
Definition DRM_FORMAT_ARGB1555 : Z := fourcc_code "A" "R" "1" "5".
Definition DRM_FORMAT_ABGR1555 : Z := fourcc_code "A" "B" "1" "5".
Definition DRM_FORMAT_RGBA5551 : Z := fourcc_code "R" "A" "1" "5".
Definition DRM_FORMAT_BGRA5551 : Z := fourcc_code "B" "A" "1" "5".
Definition DRM_FORMAT_RGB565 : Z := fourcc_code "R" "G" "1" "6".
Definition DRM_FORMAT_BGR565 : Z := fourcc_code "B" "G" "1" "6".
Definition DRM_FORMAT_RGB888 : Z := fourcc_code "R" "G" "2" "4".
Definition DRM_FORMAT_BGR888 : Z := fourcc_code "B" "G" "2" "4".
Definition DRM_FORMAT_XRGB8888 : Z := fourcc_code "X" "R" "2" "4".
Definition DRM_FORMAT_XBGR8888 : Z := fourcc_code "X" "B" "2" "4".
Definition DRM_FORMAT_RGBX8888 : Z := fourcc_code "R" "X" "2" "4".
Definition DRM_FORMAT_BGRX8888 : Z := fourcc_code "B" "X" "2" "4".
Definition DRM_FORMAT_ARGB8888 : Z := fourcc_code "A" "R" "2" "4".
Definition DRM_FORMAT_ABGR8888 : Z := fourcc_code "A" "B" "2" "4".
Definition DRM_FORMAT_RGBA8888 : Z := fourcc_code "R" "A" "2" "4".
Definition DRM_FORMAT_BGRA8888 : Z := fourcc_code "B" "A" "2" "4".
Definition DRM_FORMAT_XRGB2101010 : Z := fourcc_code "X" "R" "3" "0".
Definition DRM_FORMAT_XBGR2101010 : Z := fourcc_code "X" "B" "3" "0".
Definition DRM_FORMAT_RGBX1010102 : Z := fourcc_code "R" "X" "3" "0".
Definition DRM_FORMAT_BGRX1010102 : Z := fourcc_code "B" "X" "3" "0".
Definition DRM_FORMAT_ARGB2101010 : Z := fourcc_code "A" "R" "3" "0".
Definition DRM_FORMAT_ABGR2101010 : Z := fourcc_code "A" "B" "3" "0".
Definition DRM_FORMAT_RGBA1010102 : Z := fourcc_code "R" "A" "3" "0".
Definition DRM_FORMAT_BGRA1010102 : Z := fourcc_code "B" "A" "3" "0".
Definition DRM_FORMAT_YUYV : Z := fourcc_code "Y" "U" "Y" "V".
Definition DRM_FORMAT_YVYU : Z := fourcc_code "Y" "V" "Y" "U".
Definition DRM_FORMAT_UYVY : Z := fourcc_code "U" "Y" "V" "Y".
Definition DRM_FORMAT_VYUY : Z := fourcc_code "V" "Y" "U" "Y".
Definition DRM_FORMAT_AYUV : Z := fourcc_code "A" "Y" "U" "V".
Definition DRM_FORMAT_NV12 : Z := fourcc_code "N" "V" "1" "2".
Definition DRM_FORMAT_NV21 : Z := fourcc_code "N" "V" "2" "1".
Definition DRM_FORMAT_NV16 : Z := fourcc_code "N" "V" "1" "6".
Definition DRM_FORMAT_NV61 : Z := fourcc_code "N" "V" "6" "1".
Definition DRM_FORMAT_NV24 : Z := fourcc_code "N" "V" "2" "4".
Definition DRM_FORMAT_NV42 : Z := fourcc_code "N" "V" "4" "2".
Definition DRM_FORMAT_YUV410 : Z := fourcc_code "Y" "U" "V" "9".
Definition DRM_FORMAT_YVU410 : Z := fourcc_code "Y" "V" "U" "9".
Definition DRM_FORMAT_YUV411 : Z := fourcc_code "Y" "U" "1" "1".
Definition DRM_FORMAT_YVU411 : Z := fourcc_code "Y" "V" "1" "1".
Definition DRM_FORMAT_YUV420 : Z := fourcc_code "Y" "U" "1" "2".
Definition DRM_FORMAT_YVU420 : Z := fourcc_code "Y" "V" "1" "2".
Definition DRM_FORMAT_YUV422 : Z := fourcc_code "Y" "U" "1" "6".
Definition DRM_FORMAT_YVU422 : Z := fourcc_code "Y" "V" "1" "6".
Definition DRM_FORMAT_YUV444 : Z := fourcc_code "Y" "U" "2" "4".
Definition DRM_FORMAT_YVU444 : Z := fourcc_code "Y" "V" "2" "4".

(** A [switch] over codes: the cases that lead to the same branch. *)
Definition one_of (l : list Z) (format : Z) : bool := existsb (Z.eqb format) l.

(** What [format_check] knows. *)
Definition known_formats : list Z :=
  [DRM_FORMAT_C8; DRM_FORMAT_RGB332; DRM_FORMAT_BGR233; DRM_FORMAT_XRGB4444; DRM_FORMAT_XBGR4444;
   DRM_FORMAT_RGBX4444; DRM_FORMAT_BGRX4444; DRM_FORMAT_ARGB4444; DRM_FORMAT_ABGR4444; DRM_FORMAT_RGBA4444;
   DRM_FORMAT_BGRA4444; DRM_FORMAT_XRGB1555; DRM_FORMAT_XBGR1555; DRM_FORMAT_RGBX5551; DRM_FORMAT_BGRX5551;
   DRM_FORMAT_ARGB1555; DRM_FORMAT_ABGR1555; DRM_FORMAT_RGBA5551; DRM_FORMAT_BGRA5551; DRM_FORMAT_RGB565;
   DRM_FORMAT_BGR565; DRM_FORMAT_RGB888; DRM_FORMAT_BGR888; DRM_FORMAT_XRGB8888; DRM_FORMAT_XBGR8888;
   DRM_FORMAT_RGBX8888; DRM_FORMAT_BGRX8888; DRM_FORMAT_ARGB8888; DRM_FORMAT_ABGR8888; DRM_FORMAT_RGBA8888;
   DRM_FORMAT_BGRA8888; DRM_FORMAT_XRGB2101010; DRM_FORMAT_XBGR2101010; DRM_FORMAT_RGBX1010102;
   DRM_FORMAT_BGRX1010102; DRM_FORMAT_ARGB2101010; DRM_FORMAT_ABGR2101010; DRM_FORMAT_RGBA1010102;
   DRM_FORMAT_BGRA1010102; DRM_FORMAT_YUYV; DRM_FORMAT_YVYU; DRM_FORMAT_UYVY; DRM_FORMAT_VYUY;
   DRM_FORMAT_AYUV; DRM_FORMAT_NV12; DRM_FORMAT_NV21; DRM_FORMAT_NV16; DRM_FORMAT_NV61; DRM_FORMAT_NV24;
   DRM_FORMAT_NV42; DRM_FORMAT_YUV410; DRM_FORMAT_YVU410; DRM_FORMAT_YUV411; DRM_FORMAT_YVU411;
   DRM_FORMAT_YUV420; DRM_FORMAT_YVU420; DRM_FORMAT_YUV422; DRM_FORMAT_YVU422; DRM_FORMAT_YUV444;
   DRM_FORMAT_YVU444].

(** The depth and the bits of a pixel. *)
Definition drm_fb_get_bpp_depth (format : Z) : Z * Z :=
  if one_of [DRM_FORMAT_C8; DRM_FORMAT_RGB332; DRM_FORMAT_BGR233] format
  then (8, 8) else
  if one_of [DRM_FORMAT_XRGB1555; DRM_FORMAT_XBGR1555; DRM_FORMAT_RGBX5551; DRM_FORMAT_BGRX5551;
       DRM_FORMAT_ARGB1555; DRM_FORMAT_ABGR1555; DRM_FORMAT_RGBA5551; DRM_FORMAT_BGRA5551] format
  then (15, 16) else
  if one_of [DRM_FORMAT_RGB565; DRM_FORMAT_BGR565] format
  then (16, 16) else
  if one_of [DRM_FORMAT_RGB888; DRM_FORMAT_BGR888] format
  then (24, 24) else
  if one_of [DRM_FORMAT_XRGB8888; DRM_FORMAT_XBGR8888; DRM_FORMAT_RGBX8888; DRM_FORMAT_BGRX8888] format
  then (24, 32) else
  if one_of [DRM_FORMAT_XRGB2101010; DRM_FORMAT_XBGR2101010; DRM_FORMAT_RGBX1010102; DRM_FORMAT_BGRX1010102;
       DRM_FORMAT_ARGB2101010; DRM_FORMAT_ABGR2101010; DRM_FORMAT_RGBA1010102; DRM_FORMAT_BGRA1010102] format
  then (30, 32) else
  if one_of [DRM_FORMAT_ARGB8888; DRM_FORMAT_ABGR8888; DRM_FORMAT_RGBA8888; DRM_FORMAT_BGRA8888] format
  then (32, 32) else
  (0, 0).

Definition drm_format_num_planes (format : Z) : Z :=
  if one_of [DRM_FORMAT_YUV410; DRM_FORMAT_YVU410; DRM_FORMAT_YUV411; DRM_FORMAT_YVU411; DRM_FORMAT_YUV420;
       DRM_FORMAT_YVU420; DRM_FORMAT_YUV422; DRM_FORMAT_YVU422; DRM_FORMAT_YUV444; DRM_FORMAT_YVU444] format
  then 3 else
  if one_of [DRM_FORMAT_NV12; DRM_FORMAT_NV21; DRM_FORMAT_NV16; DRM_FORMAT_NV61; DRM_FORMAT_NV24; DRM_FORMAT_NV42] format
  then 2 else
  1.

Definition drm_format_plane_cpp (format plane : Z) : Z :=
  if plane >=? drm_format_num_planes format then 0 else
  if one_of [DRM_FORMAT_YUYV; DRM_FORMAT_YVYU; DRM_FORMAT_UYVY; DRM_FORMAT_VYUY] format
  then 2 else
  if one_of [DRM_FORMAT_NV12; DRM_FORMAT_NV21; DRM_FORMAT_NV16; DRM_FORMAT_NV61; DRM_FORMAT_NV24; DRM_FORMAT_NV42] format
  then (if negb (plane =? 0) then 2 else 1) else
  if one_of [DRM_FORMAT_YUV410; DRM_FORMAT_YVU410; DRM_FORMAT_YUV411; DRM_FORMAT_YVU411; DRM_FORMAT_YUV420;
       DRM_FORMAT_YVU420; DRM_FORMAT_YUV422; DRM_FORMAT_YVU422; DRM_FORMAT_YUV444; DRM_FORMAT_YVU444] format
  then 1 else
  Z.shiftr (drm_fb_get_bpp_depth format).2 3.

Definition drm_format_horz_chroma_subsampling (format : Z) : Z :=
  if one_of [DRM_FORMAT_YUV411; DRM_FORMAT_YVU411; DRM_FORMAT_YUV410; DRM_FORMAT_YVU410] format
  then 4 else
  if one_of [DRM_FORMAT_YUYV; DRM_FORMAT_YVYU; DRM_FORMAT_UYVY; DRM_FORMAT_VYUY; DRM_FORMAT_NV12; DRM_FORMAT_NV21;
       DRM_FORMAT_NV16; DRM_FORMAT_NV61; DRM_FORMAT_YUV422; DRM_FORMAT_YVU422; DRM_FORMAT_YUV420;
       DRM_FORMAT_YVU420] format
  then 2 else
  1.

Definition drm_format_vert_chroma_subsampling (format : Z) : Z :=
  if one_of [DRM_FORMAT_YUV410; DRM_FORMAT_YVU410] format
  then 4 else
  if one_of [DRM_FORMAT_YUV420; DRM_FORMAT_YVU420; DRM_FORMAT_NV12; DRM_FORMAT_NV21] format
  then 2 else
  1.

Definition drm_mode_legacy_fb_format (bpp depth : Z) : Z :=
  if bpp =? 8 then DRM_FORMAT_C8 else
  if bpp =? 16 then (if depth =? 15 then DRM_FORMAT_XRGB1555 else DRM_FORMAT_RGB565) else
  if bpp =? 24 then DRM_FORMAT_RGB888 else
  if bpp =? 32 then
    (if depth =? 24 then DRM_FORMAT_XRGB8888
     else if depth =? 30 then DRM_FORMAT_XRGB2101010 else DRM_FORMAT_ARGB8888)
  else DRM_FORMAT_XRGB8888.

(** ** The request *)

(** [struct drm_mode_fb_cmd2], with its three arrays of four. *)
Record drm_mode_fb_cmd2 := mk_cmd {
  width : Z; height : Z; pixel_format : Z; fb_flags : Z;
  handles : list Z; pitches : list Z; offsets : list Z }.

Definition nth4 (l : list Z) (i : Z) : Z := nth (Z.to_nat i) l 0.

Definition format_check (r : drm_mode_fb_cmd2) : Z :=
  let format := Z.land (pixel_format r) (Z.lxor DRM_FORMAT_BIG_ENDIAN (2 ^ 32 - 1)) in
  if one_of known_formats format then 0 else - EINVAL.

(** One round of the loop over the planes: 0, or the error that is returned. *)
Definition plane_check (r : drm_mode_fb_cmd2) (hsub vsub i : Z) : Z :=
  let width := width r / (if negb (i =? 0) then hsub else 1) in
  let height := height r / (if negb (i =? 0) then vsub else 1) in
  let cpp := drm_format_plane_cpp (pixel_format r) i in
  if nth4 (handles r) i =? 0 then - EINVAL else
  if u64 (width * cpp) >? 2 ^ 32 - 1 then - ERANGE else
  if u64 (u64 (height * nth4 (pitches r) i) + nth4 (offsets r) i) >? 2 ^ 32 - 1 then - ERANGE else
  if nth4 (pitches r) i <? u32 (width * cpp) then - EINVAL else 0.

Fixpoint planes_check (r : drm_mode_fb_cmd2) (hsub vsub : Z) (l : list Z) : Z :=
  match l with
  | [] => 0
  | i :: l => let ret := plane_check r hsub vsub i in
              if negb (ret =? 0) then ret else planes_check r hsub vsub l
  end.

Definition framebuffer_check (r : drm_mode_fb_cmd2) : Z :=
  let ret := format_check r in
  if negb (ret =? 0) then ret else
  let hsub := drm_format_horz_chroma_subsampling (pixel_format r) in
  let vsub := drm_format_vert_chroma_subsampling (pixel_format r) in
  let num_planes := drm_format_num_planes (pixel_format r) in
  if (width r =? 0) || negb (width r mod hsub =? 0) then - EINVAL else
  if (height r =? 0) || negb (height r mod vsub =? 0) then - EINVAL else
  planes_check r hsub vsub (seqZ 0 num_planes).

(** ** What the i915 accepts *)

Definition pitch_limit (c : chip) (tiling_mode : Z) : Z :=
  if (5 <=? gen c) && negb (is_valleyview c) then 32 * 1024
  else if 4 <=? gen c then (if negb (tiling_mode =? 0) then 16 * 1024 else 32 * 1024)
  else if 3 <=? gen c then (if negb (tiling_mode =? 0) then 8 * 1024 else 16 * 1024)
  else 8 * 1024.

(** The formats some plane of the chip supports. *)
Definition intel_format_ok (c : chip) (format : Z) : bool :=
  if one_of [DRM_FORMAT_C8; DRM_FORMAT_RGB565; DRM_FORMAT_XRGB8888; DRM_FORMAT_ARGB8888] format then true else
  if one_of [DRM_FORMAT_XRGB1555; DRM_FORMAT_ARGB1555] format then negb (gen c >? 3) else
  if one_of [DRM_FORMAT_XBGR8888; DRM_FORMAT_ABGR8888; DRM_FORMAT_XRGB2101010; DRM_FORMAT_ARGB2101010;
      DRM_FORMAT_XBGR2101010; DRM_FORMAT_ABGR2101010] format then negb (gen c <? 4) else
  if one_of [DRM_FORMAT_YUYV; DRM_FORMAT_UYVY; DRM_FORMAT_YVYU; DRM_FORMAT_VYUY] format then negb (gen c <? 5)
  else false.

(** The checks of [intel_framebuffer_init] on a request for an object with this tiling
    and stride. *)
Definition intel_fb_check (c : chip) (r : drm_mode_fb_cmd2) (tiling_mode stride : Z) : Z :=
  if tiling_mode =? I915_TILING_Y then - EINVAL else
  if negb (Z.land (nth4 (pitches r) 0) 63 =? 0) then - EINVAL else
  if nth4 (pitches r) 0 >? pitch_limit c tiling_mode then - EINVAL else
  if negb (tiling_mode =? I915_TILING_NONE) && negb (nth4 (pitches r) 0 =? stride) then - EINVAL else
  if negb (intel_format_ok c (pixel_format r)) then - EINVAL else
  if negb (nth4 (offsets r) 0 =? 0) then - EINVAL else 0.
(** ** What the checks promise *)

Lemma one_of_in l f : one_of l f = true <-> f ∈ l.
Proof. unfold one_of. rewrite existsb_exists. setoid_rewrite list_elem_of_In. setoid_rewrite Z.eqb_eq. naive_solver. Qed.

Lemma one_of_cases l f : one_of l f = true -> Exists (fun x => f = x) l.
Proof. rewrite one_of_in, Exists_exists. intros. by exists f. Qed.

(** The fields of a request are 32 bits wide, its arrays have four entries. *)
Record cmd_ok (r : drm_mode_fb_cmd2) : Prop := {
  cmd_width : is_u32 (width r); cmd_height : is_u32 (height r);
  cmd_pitches : Forall is_u32 (pitches r); cmd_offsets : Forall is_u32 (offsets r) }.

(** The size of a plane. *)
Definition plane_width (r : drm_mode_fb_cmd2) (i : Z) : Z :=
  width r / (if negb (i =? 0) then drm_format_horz_chroma_subsampling (pixel_format r) else 1).
Definition plane_height (r : drm_mode_fb_cmd2) (i : Z) : Z :=
  height r / (if negb (i =? 0) then drm_format_vert_chroma_subsampling (pixel_format r) else 1).
Lemma nth4_range l i : Forall is_u32 l -> is_u32 (nth4 l i).
Proof.
  intros Hl. unfold nth4. generalize (Z.to_nat i). intros n. revert n.
  induction Hl as [|x l Hx _ IH]; intros [|n]; simpl; try done; by unfold is_u32.
Qed.

Ltac fmt_switch := repeat match goal with |- context [if one_of ?l ?f then _ else _] => destruct (one_of l f) end.

Lemma planes_range f : 1 <= drm_format_num_planes f <= 3.
Proof. unfold drm_format_num_planes. fmt_switch; lia. Qed.

Lemma subsampling_range f : 1 <= drm_format_horz_chroma_subsampling f <= 4 /\ 1 <= drm_format_vert_chroma_subsampling f <= 4.
Proof. unfold drm_format_horz_chroma_subsampling, drm_format_vert_chroma_subsampling. split; fmt_switch; lia. Qed.

Lemma cpp_range f i : 0 <= drm_format_plane_cpp f i <= 4.
Proof.
  unfold drm_format_plane_cpp, drm_fb_get_bpp_depth. destruct (i >=? _); [lia|]. fmt_switch; try destruct (negb (i =? 0)); vm_compute; by split.
Qed.

Lemma planes_check_all r hsub vsub l i : planes_check r hsub vsub l = 0 -> i ∈ l -> plane_check r hsub vsub i = 0.
Proof.
  induction l as [|j l IH]; intros Hc Hi; [by apply elem_of_nil in Hi|]. simpl in Hc.
  destruct (Z.eqb_spec (plane_check r hsub vsub j) 0) as [Hj|Hj]; [|done]. simpl in Hc.
  apply elem_of_cons in Hi as [->|Hi]; auto.
Qed.

Lemma div_range a b m : 0 <= a < m -> 1 <= b -> 0 <= a / b < m.
Proof. intros. split; [apply Z.div_pos; lia|]. apply Z.div_lt_upper_bound; nia. Qed.

Lemma plane_check_ok r i : cmd_ok r -> 
  plane_check r (drm_format_horz_chroma_subsampling (pixel_format r)) (drm_format_vert_chroma_subsampling (pixel_format r)) i = 0 ->
  nth4 (handles r) i <> 0 /\ plane_width r i * drm_format_plane_cpp (pixel_format r) i <= nth4 (pitches r) i /\
  nth4 (offsets r) i + plane_height r i * nth4 (pitches r) i < 2 ^ 32.
Proof.
  intros [Hw Hh Hp Ho]. unfold plane_check. fold (plane_width r i) (plane_height r i).
  pose proof (cpp_range (pixel_format r) i) as Hc. set (cpp := drm_format_plane_cpp (pixel_format r) i) in *.
  pose proof (nth4_range _ i Hp) as Hpi. pose proof (nth4_range _ i Ho) as Hoi. unfold is_u32 in *.
  destruct (subsampling_range (pixel_format r)) as [Hhs Hvs].
  assert (0 <= plane_width r i < 2 ^ 32 /\ 0 <= plane_height r i < 2 ^ 32) as [Hpw Hph].
  { unfold plane_width, plane_height. split; apply div_range; destruct (negb (i =? 0)); lia. }
  generalize dependent (plane_width r i). generalize dependent (plane_height r i). intros h Hph w Hpw.
  generalize dependent (nth4 (pitches r) i). generalize dependent (nth4 (offsets r) i). intros o Hoi p Hpi.
  destruct (Z.eqb_spec (nth4 (handles r) i) 0); [done|].
  assert (0 <= w * cpp < 2 ^ 64) by (rewrite pow64_val, pow32_val in *; nia).
  assert (0 <= h * p < 2 ^ 64 - 2 ^ 32) by (rewrite pow64_val, pow32_val in *; nia).
  rewrite (u64_small (w * cpp)) by done. rewrite (u64_small (h * p)) by lia. rewrite (u64_small (h * p + o)) by lia.
  destruct (Z.gtb_spec (w * cpp) (2 ^ 32 - 1)) as [|Hr1]; [done|].
  destruct (Z.gtb_spec (h * p + o) (2 ^ 32 - 1)) as [|Hr2]; [done|].
  rewrite (u32_small (w * cpp)) by lia. destruct (Z.ltb_spec p (w * cpp)); [done|]. lia.
Qed.

Lemma framebuffer_check_planes r : cmd_ok r -> framebuffer_check r = 0 ->
  one_of known_formats (Z.land (pixel_format r) (2 ^ 31 - 1)) = true /\
  width r <> 0 /\ height r <> 0 /\
  (drm_format_horz_chroma_subsampling (pixel_format r) | width r) /\
  (drm_format_vert_chroma_subsampling (pixel_format r) | height r) /\
  forall i, 0 <= i < drm_format_num_planes (pixel_format r) ->
    plane_check r (drm_format_horz_chroma_subsampling (pixel_format r)) (drm_format_vert_chroma_subsampling (pixel_format r)) i = 0.
Proof.
  intros Hok. unfold framebuffer_check, format_check. change (Z.lxor DRM_FORMAT_BIG_ENDIAN (2 ^ 32 - 1)) with (2 ^ 31 - 1).
  destruct (one_of known_formats _) eqn:Hf; [|done]. simpl. destruct (subsampling_range (pixel_format r)) as [Hhs Hvs].
  destruct ((width r =? 0) || _) eqn:Hw; [done|]. destruct ((height r =? 0) || _) eqn:Hh; [done|]. intros Hc. zbool.
  split; [done|]. split; [done|]. split; [done|].
  split; [by apply Z.mod_divide; [lia|]|]. split; [by apply Z.mod_divide; [lia|]|].
  intros i Hi. apply (planes_check_all _ _ _ _ _ Hc), elem_of_seqZ. lia.
Qed.

Lemma intel_fb_check_ok c r tiling stride : intel_fb_check c r tiling stride = 0 ->
  intel_format_ok c (pixel_format r) = true /\ nth4 (offsets r) 0 = 0 /\ (64 | nth4 (pitches r) 0) /\
  nth4 (pitches r) 0 <= 32 * 1024 /\ (tiling <> I915_TILING_NONE -> nth4 (pitches r) 0 = stride).
Proof.
  unfold intel_fb_check. destruct (tiling =? I915_TILING_Y); [done|].
  destruct (Z.eqb_spec (Z.land (nth4 (pitches r) 0) 63) 0) as [Hp|]; [|done]. simpl.
  destruct (Z.gtb_spec (nth4 (pitches r) 0) (pitch_limit c tiling)) as [|Hlim]; [done|].
  destruct (negb (tiling =? I915_TILING_NONE) && _) eqn:Ht; [done|].
  destruct (intel_format_ok c (pixel_format r)); [|done]. simpl.
  destruct (Z.eqb_spec (nth4 (offsets r) 0) 0) as [Ho|]; [|done]. intros _. split_and!; try done.
  - change 63 with (Z.ones 6) in Hp. rewrite Z.land_ones in Hp by lia. by apply Z.mod_divide.
  - etrans; [done|]. unfold pitch_limit. repeat case_match; lia.
  - intros Hne. apply Z.eqb_neq in Hne. rewrite Hne in Ht. simpl in Ht. by apply negb_false_iff, Z.eqb_eq in Ht.
Qed.

(** ** The formats as drm_fourcc.h documents them *)

(** Of each plane the bytes of a sample, and how many columns and rows share a sample. *)
Definition layouts : list (list Z * list (Z * Z * Z)) :=
  [([DRM_FORMAT_C8; DRM_FORMAT_RGB332; DRM_FORMAT_BGR233], [(1, 1, 1)]);
   ([DRM_FORMAT_XRGB4444; DRM_FORMAT_XBGR4444; DRM_FORMAT_RGBX4444; DRM_FORMAT_BGRX4444;
     DRM_FORMAT_ARGB4444; DRM_FORMAT_ABGR4444; DRM_FORMAT_RGBA4444; DRM_FORMAT_BGRA4444;
     DRM_FORMAT_XRGB1555; DRM_FORMAT_XBGR1555; DRM_FORMAT_RGBX5551; DRM_FORMAT_BGRX5551;
     DRM_FORMAT_ARGB1555; DRM_FORMAT_ABGR1555; DRM_FORMAT_RGBA5551; DRM_FORMAT_BGRA5551;
     DRM_FORMAT_RGB565; DRM_FORMAT_BGR565], [(2, 1, 1)]);
   ([DRM_FORMAT_RGB888; DRM_FORMAT_BGR888], [(3, 1, 1)]);
   ([DRM_FORMAT_XRGB8888; DRM_FORMAT_XBGR8888; DRM_FORMAT_RGBX8888; DRM_FORMAT_BGRX8888;
     DRM_FORMAT_ARGB8888; DRM_FORMAT_ABGR8888; DRM_FORMAT_RGBA8888; DRM_FORMAT_BGRA8888;
     DRM_FORMAT_XRGB2101010; DRM_FORMAT_XBGR2101010; DRM_FORMAT_RGBX1010102; DRM_FORMAT_BGRX1010102;
     DRM_FORMAT_ARGB2101010; DRM_FORMAT_ABGR2101010; DRM_FORMAT_RGBA1010102; DRM_FORMAT_BGRA1010102;
     DRM_FORMAT_AYUV], [(4, 1, 1)]);
   ([DRM_FORMAT_YUYV; DRM_FORMAT_YVYU; DRM_FORMAT_UYVY; DRM_FORMAT_VYUY], [(2, 1, 1)]);
   ([DRM_FORMAT_NV12; DRM_FORMAT_NV21], [(1, 1, 1); (2, 2, 2)]);
   ([DRM_FORMAT_NV16; DRM_FORMAT_NV61], [(1, 1, 1); (2, 2, 1)]);
   ([DRM_FORMAT_NV24; DRM_FORMAT_NV42], [(1, 1, 1); (2, 1, 1)]);
   ([DRM_FORMAT_YUV410; DRM_FORMAT_YVU410], [(1, 1, 1); (1, 4, 4); (1, 4, 4)]);
   ([DRM_FORMAT_YUV411; DRM_FORMAT_YVU411], [(1, 1, 1); (1, 4, 1); (1, 4, 1)]);
   ([DRM_FORMAT_YUV420; DRM_FORMAT_YVU420], [(1, 1, 1); (1, 2, 2); (1, 2, 2)]);
   ([DRM_FORMAT_YUV422; DRM_FORMAT_YVU422], [(1, 1, 1); (1, 2, 1); (1, 2, 1)]);
   ([DRM_FORMAT_YUV444; DRM_FORMAT_YVU444], [(1, 1, 1); (1, 1, 1); (1, 1, 1)])].

Definition layout (format : Z) : option (list (Z * Z * Z)) :=
  snd <$> find (fun e => one_of e.1 format) layouts.

(** The formats that have a size in the header and none in [drm_format_plane_cpp]. *)
Definition unsized_formats : list Z :=
  [DRM_FORMAT_XRGB4444; DRM_FORMAT_XBGR4444; DRM_FORMAT_RGBX4444; DRM_FORMAT_BGRX4444;
   DRM_FORMAT_ARGB4444; DRM_FORMAT_ABGR4444; DRM_FORMAT_RGBA4444; DRM_FORMAT_BGRA4444; DRM_FORMAT_AYUV].

(** Plane [i] of a format, as the functions of drm_crtc.c see it. *)
Definition plane_of (f i : Z) : Z * Z * Z :=
  (drm_format_plane_cpp f i, (if negb (i =? 0) then drm_format_horz_chroma_subsampling f else 1),
   (if negb (i =? 0) then drm_format_vert_chroma_subsampling f else 1)).

(** The switches of drm_crtc.c agree with the header on every known format, but for the
    size of the unsized ones. *)
Lemma layouts_agree :
  Forall (fun f => match layout f with
                   | Some l => Z.of_nat (length l) = drm_format_num_planes f /\
                       (f ∉ unsized_formats -> l = map (plane_of f) (seqZ 0 (drm_format_num_planes f)))
                   | None => False
                   end) known_formats.
Proof.
  assert (Forall (fun f => match layout f with
                   | Some l => Z.of_nat (length l) = drm_format_num_planes f /\
                       (one_of unsized_formats f = true \/ l = map (plane_of f) (seqZ 0 (drm_format_num_planes f)))
                   | None => False
                   end) known_formats) as H.
  { unfold known_formats. repeat first [apply Forall_nil_2|apply Forall_cons_2; [vm_compute; split; [reflexivity|]; first [by right|by left]|]]. }
  eapply Forall_impl; [exact H|]. intros f. cbv beta. destruct (layout f) as [l|]; [|done]. intros [Hl Hf].
  split; [done|]. intros Hn. destruct Hf as [Hu%one_of_in|Hf]; done.
Qed.

Lemma layout_known f l : layout f = Some l -> f ∈ known_formats.
Proof.
  unfold layout. destruct (find _ layouts) as [e|] eqn:E; [|done]. intros _. apply find_some in E as [Hin Hf].
  apply one_of_in in Hf. revert f Hf. assert (Forall (fun e => forallb (one_of known_formats) e.1 = true) layouts) as H.
  { unfold layouts. repeat first [apply Forall_nil_2|apply Forall_cons_2; [by vm_compute|]]. }
  apply list_elem_of_In in Hin. rewrite Forall_forall in H. specialize (H e Hin). intros f Hf.
  apply one_of_in. rewrite forallb_forall in H. apply H. by apply list_elem_of_In.
Qed.

(** The planes of a format with a size. *)
Lemma layout_plane f l i bytes hs vs : layout f = Some l -> f ∉ unsized_formats -> l !! i = Some (bytes, hs, vs) ->
  Z.of_nat i < drm_format_num_planes f /\ plane_of f (Z.of_nat i) = (bytes, hs, vs).
Proof.
  intros Hl Hu Hi. pose proof (layout_known f l Hl) as Hk. pose proof layouts_agree as H. rewrite Forall_forall in H.
  specialize (H f Hk). cbv beta in H. rewrite Hl in H. destruct H as [Hlen H]. apply lookup_lt_Some in Hi as Hlt.
  split; [lia|]. rewrite (H Hu), list_lookup_fmap in Hi. destruct (seqZ 0 _ !! i) as [z|] eqn:Ez; [|done].
  apply lookup_seqZ in Ez as [-> _]. rewrite Z.add_0_l in Hi. simpl in Hi. congruence.
Qed.

(** The formats the i915 accepts have one plane and whole bytes. *)
Lemma intel_format_single c f : intel_format_ok c f = true ->
  drm_format_num_planes f = 1 /\ (f ∉ unsized_formats) /\
  exists bytes, layout f = Some [(bytes, 1, 1)] /\ drm_format_plane_cpp f 0 = bytes /\ 1 <= bytes.
Proof.
  set (P f := drm_format_num_planes f = 1 /\ one_of unsized_formats f = false /\
    layout f = Some [(drm_format_plane_cpp f 0, 1, 1)] /\ 1 <= drm_format_plane_cpp f 0).
  assert (forall l, one_of l f = true -> Forall P l -> P f) as Hall.
  { intros l Hin. rewrite one_of_in in Hin. intros Hl. by apply (proj1 (Forall_forall _ _) Hl). }
  intros Hf. enough (P f) as (H1 & H2 & H3 & H4).
  { split; [done|]. split; [intros Hx%one_of_in; congruence|]. by exists (drm_format_plane_cpp f 0). }
  revert Hf. unfold intel_format_ok. repeat match goal with |- context [if one_of ?l ?f then _ else _] => destruct (one_of l f) eqn:? end.
  5: done. all: intros _; eapply Hall; [eassumption|]; repeat constructor; vm_compute; done.
Qed.

(** Pixels of a plane whose rows are long enough lie inside the rows, apart. *)
Lemma pixels_apart o p n w h x y : 0 <= o -> 0 <= p -> 0 < n -> w * n <= p -> o + h * p < 2 ^ 32 ->
  0 <= x < w -> 0 <= y < h ->
  let at_ x y := o + y * p + x * n in
  0 <= at_ x y /\ at_ x y + n <= o + (y + 1) * p < 2 ^ 32 /\
  forall x' y', 0 <= x' < w -> 0 <= y' < h -> (x, y) <> (x', y') -> at_ x y + n <= at_ x' y' \/ at_ x' y' + n <= at_ x y.
Proof.
  intros Ho Hp Hn Hw Hh Hx Hy at_. unfold at_. split; [nia|]. split; [nia|]. intros x' y' Hx' Hy' Hne.
  destruct (Z.lt_trichotomy y y') as [Hlt|[->|Hgt]]; [left; nia| |right; nia].
  destruct (Z.lt_trichotomy x x') as [Hlt|[->|Hgt]]; [left; nia|done|right; nia].
Qed.

Lemma bytes_positive f l i bytes hs vs : layout f = Some l -> l !! i = Some (bytes, hs, vs) -> 0 < bytes /\ 0 < hs /\ 0 < vs.
Proof.
  unfold layout. destruct (find _ layouts) as [e|] eqn:E; [|done]. intros [= <-] Hi. apply find_some in E as [Hin _].
  assert (Forall (fun e => Forall (fun p => 0 < p.1.1 /\ 0 < p.1.2 /\ 0 < p.2) e.2) layouts) as H.
  { unfold layouts. repeat first [apply Forall_nil_2|apply Forall_cons_2]; simpl; lia. }
  apply list_elem_of_In in Hin. rewrite Forall_forall in H. specialize (H e Hin).
  rewrite Forall_lookup in H. by specialize (H i _ Hi).
Qed.

(** C11: a framebuffer that passes [framebuffer_check] lies where it says.  The rows of each
    of its planes end below 4 GB.  If its format is one of drm_fourcc.h and
    [drm_format_plane_cpp] has a size for it, then on each plane the header documents, with
    samples of the size it documents, every sample lies inside its row and no two share a
    byte.  The formats left out are known: the 4444 formats and AYUV, which
    [drm_format_plane_cpp] gives no bytes, and all formats with the big endian flag, which
    are no format of the switches ([formats_without_size]: any pitch passes for them).  If
    the i915 accepts the framebuffer too it is none of those; it has a single plane, a
    pitch of whole cache lines that holds a row and that the chip can scan, and the pitch
    of the tiling if there is one. *)
Theorem framebuffer_check_bounds r c tiling stride : cmd_ok r -> framebuffer_check r = 0 ->
  (forall i, 0 <= i < drm_format_num_planes (pixel_format r) ->
    nth4 (handles r) i <> 0 /\ nth4 (offsets r) i + plane_height r i * nth4 (pitches r) i < 2 ^ 32) /\
  (layout (pixel_format r) = None -> Z.land (pixel_format r) (2 ^ 31 - 1) <> pixel_format r) /\
  (forall l i bytes hs vs, layout (pixel_format r) = Some l -> pixel_format r ∉ unsized_formats ->
    l !! i = Some (bytes, hs, vs) ->
    let at_ x y := nth4 (offsets r) (Z.of_nat i) + y * nth4 (pitches r) (Z.of_nat i) + x * bytes in
    0 < bytes /\ nth4 (handles r) (Z.of_nat i) <> 0 /\ (hs | width r) /\ (vs | height r) /\
    forall x y, 0 <= x < width r / hs -> 0 <= y < height r / vs ->
      0 <= at_ x y /\ at_ x y + bytes <= nth4 (offsets r) (Z.of_nat i) + (y + 1) * nth4 (pitches r) (Z.of_nat i) < 2 ^ 32 /\
      forall x' y', 0 <= x' < width r / hs -> 0 <= y' < height r / vs -> (x, y) <> (x', y') ->
        at_ x y + bytes <= at_ x' y' \/ at_ x' y' + bytes <= at_ x y) /\
  (intel_fb_check c r tiling stride = 0 ->
    (pixel_format r ∉ unsized_formats) /\ exists bytes, layout (pixel_format r) = Some [(bytes, 1, 1)] /\
    nth4 (offsets r) 0 = 0 /\ (64 | nth4 (pitches r) 0) /\ width r * bytes <= nth4 (pitches r) 0 <= 32 * 1024 /\
    (tiling <> I915_TILING_NONE -> nth4 (pitches r) 0 = stride)).
Proof.
  intros Hok Hc. destruct (framebuffer_check_planes r Hok Hc) as (Hf & Hw0 & Hh0 & Hdw & Hdh & Hpl). split; [|split; [|split]].
  - intros i Hi. by destruct (plane_check_ok r i Hok (Hpl i Hi)) as (Hh & _ & Hoh).
  - intros Hn E. rewrite E in Hf. apply one_of_in in Hf. pose proof layouts_agree as H. rewrite Forall_forall in H.
    specialize (H _ Hf). cbv beta in H. by rewrite Hn in H.
  - intros l i bytes hs vs Hl Hu Hi at_. destruct (layout_plane _ l i bytes hs vs Hl Hu Hi) as [Hlt [= E1 E2 E3]].
    destruct (bytes_positive _ l i bytes hs vs Hl Hi) as (Hb & _).
    destruct (plane_check_ok r (Z.of_nat i) Hok (Hpl (Z.of_nat i) ltac:(lia))) as (Hh & Hpw & Hoh).
    unfold plane_width, plane_height in *. rewrite E1, E2, E3 in *.
    assert ((hs | width r) /\ (vs | height r)) as [Hd1 Hd2].
    { rewrite <-E2, <-E3. destruct (negb _); [done|]. split; apply Z.divide_1_l. }
    split_and!; try done. intros x y Hx Hy. destruct Hok as [_ _ Hp Ho].
    apply (nth4_range _ (Z.of_nat i)) in Hp, Ho. unfold is_u32 in *. apply (pixels_apart _ _ _ (width r / hs) (height r / vs)); done || lia.
  - intros Hi. destruct (planes_range (pixel_format r)) as [Hp1 _].
    destruct (plane_check_ok r 0 Hok (Hpl 0 ltac:(lia))) as (_ & Hpw & _).
    replace (plane_width r 0) with (width r) in Hpw by (unfold plane_width; simpl; by rewrite Z.div_1_r).
    destruct (intel_fb_check_ok c r tiling stride Hi) as (Hfo & Ho0 & H64 & Hlim & Htl).
    destruct (intel_format_single c _ Hfo) as (_ & Hu & bytes & Hl & Ecpp & _). rewrite Ecpp in Hpw.
    split; [done|]. exists bytes. split_and!; done.
Qed.

(** The formats [framebuffer_check] knows and [drm_format_plane_cpp] does not: their
    pixels count for nothing, so that any pitch is enough, even 0.  The same is true of
    every RGB format with the big endian flag, which the first check alone takes off. *)
Lemma formats_without_size :
  filter (fun f => drm_format_plane_cpp f 0 = 0) known_formats =
    [DRM_FORMAT_XRGB4444; DRM_FORMAT_XBGR4444; DRM_FORMAT_RGBX4444; DRM_FORMAT_BGRX4444;
     DRM_FORMAT_ARGB4444; DRM_FORMAT_ABGR4444; DRM_FORMAT_RGBA4444; DRM_FORMAT_BGRA4444; DRM_FORMAT_AYUV] /\
  forall f, f ∈ [DRM_FORMAT_ARGB4444; DRM_FORMAT_AYUV; Z.lor DRM_FORMAT_XRGB8888 DRM_FORMAT_BIG_ENDIAN] ->
    framebuffer_check (mk_cmd 640 480 f 0 [1; 0; 0; 0] [0; 0; 0; 0] [0; 0; 0; 0]) = 0.
Proof.
  split; [by vm_compute|]. intros f Hf.
  repeat (apply elem_of_cons in Hf as [->|Hf]; [by vm_compute|]). by apply elem_of_nil in Hf.
Qed.

(** The format [addfb] makes of a depth and a number of bits has that depth and that
    number of bits, for the pairs that name a format. *)
Lemma legacy_format_roundtrip bpp depth :
  (depth, bpp) ∈ [(8, 8); (15, 16); (16, 16); (24, 24); (24, 32); (30, 32); (32, 32)] ->
  drm_fb_get_bpp_depth (drm_mode_legacy_fb_format bpp depth) = (depth, bpp) /\
  one_of known_formats (drm_mode_legacy_fb_format bpp depth) = true.
Proof.
  intros Hd. repeat (apply elem_of_cons in Hd as [[= -> ->]|Hd]; [by vm_compute|]). by apply elem_of_nil in Hd.
Qed.

(** ** At a concrete request *)

Definition chip_965 : chip := mk_chip 4 false false false false false false.
Definition cmd_640 : drm_mode_fb_cmd2 :=
  mk_cmd 640 480 DRM_FORMAT_XRGB8888 0 [1; 0; 0; 0] [2560; 0; 0; 0] [0; 0; 0; 0].

Lemma framebuffer_check_bounds_witness : layout (pixel_format cmd_640) = Some [(4, 1, 1)] /\
  0 + 479 * 2560 + 639 * 4 + 4 <= 480 * 2560 /\ 640 * 4 <= 2560.
Proof.
  assert (cmd_ok cmd_640) as Hok by (split; repeat constructor; done).
  destruct (framebuffer_check_bounds cmd_640 chip_965 I915_TILING_NONE 0 Hok eq_refl) as (_ & _ & Hpx & Hi).
  split; [reflexivity|]. destruct (Hi eq_refl) as (Hu & bytes & [= <-] & _ & _ & [Hp _] & _). split; [|exact Hp].
  destruct (Hpx [(4, 1, 1)] 0%nat 4 1 1 eq_refl Hu eq_refl) as (_ & _ & _ & _ & Hat).
  destruct (Hat 639 479) as (_ & [Hle _] & _); [done..|]. exact Hle.
Defined.
