(* ===== verification/Framebuffer.v ===== *)
(** * Framebuffers, planes and the objects of a mode configuration (drm_crtc.c, with the
    framebuffers of intel_display.c)

    The identifiers of mode objects over Idr, the reference counts of framebuffers, who
    holds them (the identifier, the file that added it, CRTCs, planes, calls under way),
    and every operation that takes or gives up a reference.  A framebuffer keeps the GEM
    object of its pixels alive; the objects are those of Gem.  The driver is a type class;
    [crtc->fb] belongs to its state because its callbacks write it. *)

From S2P Require Import Prelude HandleTable Idr Modes Gem Tiling FbFormat.

Open Scope Z_scope.

(** ** The objects *)

Definition DRM_MODE_OBJECT_CRTC : Z := 0xcccccccc.
Definition DRM_MODE_OBJECT_CONNECTOR : Z := 0xc0c0c0c0.
Definition DRM_MODE_OBJECT_MODE : Z := 0xdededede.
Definition DRM_MODE_OBJECT_FB : Z := 0xfbfbfbfb.
Definition DRM_MODE_OBJECT_PLANE : Z := 0xeeeeeeee.

Record drm_mode_object := mk_object { id : Z; obj_type : Z }.

(** Addresses of objects: of framebuffers, CRTCs, planes, and of modes and connectors. *)
Inductive pointer := PFb (a : nat) | PCrtc (c : nat) | PPlane (p : nat) | POther (a : nat).

#[export] Instance pointer_eq_dec : EqDecision pointer.
Proof. solve_decision. Defined.

Record framebuffer := mk_framebuffer {
  fb_base : drm_mode_object; fb_refcount : Z; fb_width : Z; fb_height : Z; fb_format : Z; fb_obj : option oid }.

Record crtc := mk_crtc { c_base : drm_mode_object; old_fb : option nat; invert_dimensions : bool }.

Record plane := mk_plane {
  p_base : drm_mode_object; p_crtc : option nat; p_fb : option nat; format_types : list Z }.

Record drm_mode_set := mk_set {
  set_crtc : nat; set_x : Z; set_y : Z; set_mode : option drm_display_mode;
  set_connectors : list nat; set_fb : option nat }.

Definition zero_fb : framebuffer := mk_framebuffer (mk_object 0 0) 0 0 0 0 None.

Definition set_fb_base (o : drm_mode_object) (f : framebuffer) : framebuffer :=
  mk_framebuffer o (fb_refcount f) (fb_width f) (fb_height f) (fb_format f) (fb_obj f).
Definition set_fb_refcount (n : Z) (f : framebuffer) : framebuffer :=
  mk_framebuffer (fb_base f) n (fb_width f) (fb_height f) (fb_format f) (fb_obj f).
Definition set_c_base (o : drm_mode_object) (c : crtc) : crtc := mk_crtc o (old_fb c) (invert_dimensions c).
Definition set_old_fb (f : option nat) (c : crtc) : crtc := mk_crtc (c_base c) f (invert_dimensions c).
Definition set_p_base (o : drm_mode_object) (p : plane) : plane := mk_plane o (p_crtc p) (p_fb p) (format_types p).
Definition show (c f : option nat) (p : plane) : plane := mk_plane (p_base p) c f (format_types p).

(** ** The driver *)

(** A position on the screen and in the framebuffer: what [update_plane] is given. *)
Record plane_rects := mk_rects {
  crtc_x : Z; crtc_y : Z; crtc_w : Z; crtc_h : Z; src_x : Z; src_y : Z; src_w : Z; src_h : Z }.

(** [crtc->fb], [crtc->mode] and the position of each CRTC, and the callbacks. *)
Class KmsDriver (D : Type) := {
  crtc_fb : D -> nat -> option nat;
  crtc_mode : D -> nat -> drm_display_mode;
  crtc_xy : D -> nat -> Z * Z;
  set_config : drm_mode_set -> D -> Z * D;
  has_page_flip : bool;
  page_flip : nat -> nat -> bool -> D -> Z * D;
  update_plane : nat -> nat -> nat -> plane_rects -> D -> Z * D;
  disable_plane : nat -> D -> Z * D;
  has_cursor_set : bool;
  cursor_off : nat -> D -> Z * D }.

(** What the core relies on: a configuration shows the framebuffer of the set, or turns
    CRTCs off; a page flip changes the framebuffer of its CRTC when it succeeds; the
    callbacks of planes and cursors change none. *)
Class KmsLaws (D : Type) `{!KmsDriver D} := {
  set_config_fb : forall set d c, let d' := (set_config set d).2 in
    crtc_fb d' c = crtc_fb d c \/ crtc_fb d' c = None \/ crtc_fb d' c = set_fb set;
  page_flip_fb : forall c a ev d c', let '(ret, d') := page_flip c a ev d in
    crtc_fb d' c' = if (ret =? 0) && bool_decide (c' = c) then Some a else crtc_fb d c';
  update_plane_fb : forall p c a r d c', crtc_fb (update_plane p c a r d).2 c' = crtc_fb d c';
  disable_plane_fb : forall p d c', crtc_fb (disable_plane p d).2 c' = crtc_fb d c';
  cursor_off_fb : forall c d c', crtc_fb (cursor_off c d).2 c' = crtc_fb d c' }.

Section Framebuffer.
Context {G T D : Type} `{HandleTable G T oid} `{KmsDriver D}.
Abbreviation gem := (gem (G := G) (T := T)).

(** [mode_config] of a device, the framebuffers of each open file, the GEM objects, the
    driver's own state; [allocs] are the outcomes of the allocations to come, and
    [id_allocs] of those that the table of identifiers makes. *)
Record device := mk_device {
  crtc_idr : idr pointer;
  fbs : gmap nat framebuffer;
  crtcs : list crtc;
  planes : list plane;
  others : gmap nat drm_mode_object;
  fb_list : list nat;
  num_fb : Z;
  num_connector : Z;
  limits : (Z * Z) * (Z * Z);
  files : gmap fid (list nat);
  objs : gem;
  drv : D;
  allocs : list bool;
  id_allocs : list bool }.

Definition set_idr (i : idr pointer) (s : device) : device :=
  mk_device i (fbs s) (crtcs s) (planes s) (others s) (fb_list s) (num_fb s) (num_connector s) (limits s) (files s) (objs s) (drv s) (allocs s) (id_allocs s).
Definition set_fbs (m : gmap nat framebuffer) (s : device) : device :=
  mk_device (crtc_idr s) m (crtcs s) (planes s) (others s) (fb_list s) (num_fb s) (num_connector s) (limits s) (files s) (objs s) (drv s) (allocs s) (id_allocs s).
Definition set_crtcs (l : list crtc) (s : device) : device :=
  mk_device (crtc_idr s) (fbs s) l (planes s) (others s) (fb_list s) (num_fb s) (num_connector s) (limits s) (files s) (objs s) (drv s) (allocs s) (id_allocs s).
Definition set_planes (l : list plane) (s : device) : device :=
  mk_device (crtc_idr s) (fbs s) (crtcs s) l (others s) (fb_list s) (num_fb s) (num_connector s) (limits s) (files s) (objs s) (drv s) (allocs s) (id_allocs s).
Definition set_others (m : gmap nat drm_mode_object) (s : device) : device :=
  mk_device (crtc_idr s) (fbs s) (crtcs s) (planes s) m (fb_list s) (num_fb s) (num_connector s) (limits s) (files s) (objs s) (drv s) (allocs s) (id_allocs s).
Definition set_fb_list (l : list nat) (n : Z) (s : device) : device :=
  mk_device (crtc_idr s) (fbs s) (crtcs s) (planes s) (others s) l n (num_connector s) (limits s) (files s) (objs s) (drv s) (allocs s) (id_allocs s).
Definition set_files (m : gmap fid (list nat)) (s : device) : device :=
  mk_device (crtc_idr s) (fbs s) (crtcs s) (planes s) (others s) (fb_list s) (num_fb s) (num_connector s) (limits s) m (objs s) (drv s) (allocs s) (id_allocs s).
Definition set_objs (g : gem) (s : device) : device :=
  mk_device (crtc_idr s) (fbs s) (crtcs s) (planes s) (others s) (fb_list s) (num_fb s) (num_connector s) (limits s) (files s) g (drv s) (allocs s) (id_allocs s).
Definition set_drv (d : D) (s : device) : device :=
  mk_device (crtc_idr s) (fbs s) (crtcs s) (planes s) (others s) (fb_list s) (num_fb s) (num_connector s) (limits s) (files s) (objs s) d (allocs s) (id_allocs s).
Definition set_allocs (l : list bool) (s : device) : device :=
  mk_device (crtc_idr s) (fbs s) (crtcs s) (planes s) (others s) (fb_list s) (num_fb s) (num_connector s) (limits s) (files s) (objs s) (drv s) l (id_allocs s).
Definition set_id_allocs (l : list bool) (s : device) : device :=
  mk_device (crtc_idr s) (fbs s) (crtcs s) (planes s) (others s) (fb_list s) (num_fb s) (num_connector s) (limits s) (files s) (objs s) (drv s) (allocs s) l.

(** Programs on a device; [None] is a fault. *)
Definition K (A : Type) : Type := Prog device A.

Definition lift {A} (r : option A) : K A := fun s => a ← r; Some (a, s).
Definition next_alloc : K bool := fun s =>
  match allocs s with [] => Some (true, s) | b :: l => Some (b, set_allocs l s) end.
Definition next_id_alloc : K bool := fun s =>
  match id_allocs s with [] => Some (true, s) | b :: l => Some (b, set_id_allocs l s) end.
Definition get_fb (a : nat) : K framebuffer := m ← gets fbs; lift (m !! a).
Definition upd_fb (a : nat) (f : framebuffer -> framebuffer) : K unit :=
  _ ← get_fb a; modify (fun s => set_fbs (alter f a (fbs s)) s).
Definition get_plane (p : nat) : K plane := l ← gets planes; lift (l !! p).
Definition upd_plane (p : nat) (f : plane -> plane) : K unit :=
  _ ← get_plane p; modify (fun s => set_planes (alter f p (planes s)) s).
Definition get_crtc (c : nat) : K crtc := l ← gets crtcs; lift (l !! c).
Definition upd_crtc (c : nat) (f : crtc -> crtc) : K unit :=
  _ ← get_crtc c; modify (fun s => set_crtcs (alter f c (crtcs s)) s).
Definition fb_of (c : nat) : K (option nat) := gets (fun s => crtc_fb (drv s) c).
(** A callback of the driver, and a function on the GEM objects. *)
Definition call (f : D -> Z * D) : K Z := fun s => let '(ret, d) := f (drv s) in Some (ret, set_drv d s).
Definition on_gem {A} (f : gem -> option (A * gem)) : K A := fun s => '(a, g) ← f (objs s); Some (a, set_objs g s).

Fixpoint for_ (l : list nat) (k : nat -> K unit) : K unit :=
  match l with [] => mret tt | i :: l => _ ← k i; for_ l k end.

(** ** Identifiers *)

(** The object at an address; an address of freed memory is a fault. *)
Definition base_of (p : pointer) : K drm_mode_object :=
  match p with
  | PFb a => f ← get_fb a; mret (fb_base f)
  | PCrtc c => c ← get_crtc c; mret (c_base c)
  | PPlane p => p ← get_plane p; mret (p_base p)
  | POther a => m ← gets others; lift (m !! a)
  end.

Definition set_base (p : pointer) (o : drm_mode_object) : K unit :=
  match p with
  | PFb a => upd_fb a (set_fb_base o)
  | PCrtc c => upd_crtc c (set_c_base o)
  | PPlane p => upd_plane p (set_p_base o)
  | POther a => modify (fun s => set_others (<[a := o]> (others s)) s)
  end.

(** [idr_pre_get] always answers; [idr_get_new_above] never answers -EAGAIN. *)
Definition drm_mode_object_get (p : pointer) (type : Z) : K Z :=
  ok ← next_id_alloc;
  i ← gets crtc_idr;
  '(ret, new_id, i) ← lift (idr_get_new_above i p 1 ok);
  _ ← modify (set_idr i);
  _ ← (if ret =? 0 then n ← lift new_id; set_base p (mk_object n type) else mret tt);
  mret ret.

(** The result of [idr_remove] is not looked at. *)
Definition put_id (n : Z) : K unit :=
  ok ← next_id_alloc;
  i ← gets crtc_idr;
  '(_, i) ← lift (idr_remove i n ok);
  modify (set_idr i).

Definition drm_mode_object_put (p : pointer) : K unit := o ← base_of p; put_id (id o).

Definition drm_mode_object_find (n type : Z) : K (option pointer) :=
  i ← gets crtc_idr;
  match idr_find i n with
  | None => mret None
  | Some p =>
      o ← base_of p;
      mret (if negb (obj_type o =? type) || negb (id o =? n) then None else Some p)
  end.

(** ** References *)

Definition kref_get (a : nat) : K unit := upd_fb a (fun f => set_fb_refcount (u32 (fb_refcount f + 1)) f).

Definition kref_put (a : nat) (release : K unit) : K unit :=
  _ ← upd_fb a (fun f => set_fb_refcount (u32 (fb_refcount f - 1)) f);
  f ← get_fb a;
  if fb_refcount f =? 0 then release else mret tt.

Definition gem_unreference (o : oid) : K unit :=
  on_gem (fun g => g ← drm_gem_object_unreference_unlocked o g; Some (tt, g)).

(** [list_del] of a node that is on no list is a fault. *)
Definition drm_framebuffer_cleanup (a : nat) : K unit :=
  l ← gets fb_list;
  n ← gets num_fb;
  if bool_decide (a ∈ l) then modify (set_fb_list (filter (fun x => x <> a) l) (n - 1)) else fail.

Definition intel_user_framebuffer_destroy (a : nat) : K unit :=
  _ ← drm_framebuffer_cleanup a;
  f ← get_fb a;
  o ← lift (fb_obj f);
  _ ← gem_unreference o;
  modify (fun s => set_fbs (delete a (fbs s)) s).

Definition drm_framebuffer_free (a : nat) : K unit := intel_user_framebuffer_destroy a.
Definition drm_framebuffer_free_bug : K unit := fail.

Definition drm_framebuffer_reference (a : nat) : K unit := kref_get a.
Definition drm_framebuffer_unreference (a : nat) : K unit := kref_put a (drm_framebuffer_free a).
Definition __drm_framebuffer_unreference (a : nat) : K unit := kref_put a drm_framebuffer_free_bug.

Definition unref_opt (f : option nat) : K unit :=
  match f with Some a => drm_framebuffer_unreference a | None => mret tt end.

(** The value that is returned is 0 whatever happens. *)
Definition drm_framebuffer_init (a : nat) : K Z :=
  _ ← upd_fb a (set_fb_refcount 1);
  ret ← drm_mode_object_get (PFb a) DRM_MODE_OBJECT_FB;
  _ ← (if ret =? 0 then
         _ ← drm_framebuffer_reference a;
         modify (fun s => set_fb_list (a :: fb_list s) (num_fb s + 1) s)
       else mret tt);
  mret 0.

Definition __drm_framebuffer_lookup (n : Z) : K (option nat) :=
  i ← gets crtc_idr;
  match idr_find i n with
  | None => mret None
  | Some p =>
      o ← base_of p;
      mret (if negb (obj_type o =? DRM_MODE_OBJECT_FB) || negb (id o =? n) then None
            else match p with PFb a => Some a | _ => None end)
  end.

Definition drm_framebuffer_lookup (n : Z) : K (option nat) :=
  fb ← __drm_framebuffer_lookup n;
  match fb with
  | Some a => _ ← kref_get a; mret (Some a)
  | None => mret None
  end.

Definition __drm_framebuffer_unregister (a : nat) : K unit :=
  f ← get_fb a;
  _ ← put_id (id (fb_base f));
  _ ← upd_fb a (fun f => set_fb_base (mk_object 0 (obj_type (fb_base f))) f);
  __drm_framebuffer_unreference a.

Definition drm_framebuffer_unregister_private (a : nat) : K unit := __drm_framebuffer_unregister a.

(** ** Showing framebuffers *)

Definition drm_mode_set_config_internal (set : drm_mode_set) : K Z :=
  n ← gets (fun s => length (crtcs s));
  _ ← for_ (seq 0 n) (fun c => fb ← fb_of c; upd_crtc c (set_old_fb fb));
  ret ← call (set_config set);
  _ ← for_ (seq 0 n) (fun c =>
    fb ← fb_of c;
    _ ← (match fb with Some a => drm_framebuffer_reference a | None => mret tt end);
    c ← get_crtc c;
    unref_opt (old_fb c));
  mret ret.

Definition drm_plane_force_disable (p : nat) : K unit :=
  pl ← get_plane p;
  match p_fb pl with
  | None => mret tt
  | Some a =>
      _ ← call (disable_plane p);
      _ ← __drm_framebuffer_unreference a;
      upd_plane p (show None None)
  end.

(** The part of [drm_framebuffer_remove] under the modeset locks. *)
Definition remove_users (a : nat) : K unit :=
  n ← gets (fun s => length (crtcs s));
  _ ← for_ (seq 0 n) (fun c =>
    fb ← fb_of c;
    if bool_decide (fb = Some a)
    then _ ← drm_mode_set_config_internal (mk_set c 0 0 None [] None); mret tt
    else mret tt);
  m ← gets (fun s => length (planes s));
  for_ (seq 0 m) (fun p =>
    pl ← get_plane p;
    if bool_decide (p_fb pl = Some a) then drm_plane_force_disable p else mret tt).

Definition drm_framebuffer_remove (a : nat) : K unit :=
  f ← get_fb a;
  _ ← (if fb_refcount f >? 1 then remove_users a else mret tt);
  drm_framebuffer_unreference a.

(** The console again: [mode_sets] are those of the fb helper. *)
Fixpoint restore_sets (mode_sets : list drm_mode_set) (error : bool) : K bool :=
  match mode_sets with
  | [] => mret error
  | set :: mode_sets =>
      r1 ← (if has_cursor_set then call (cursor_off (set_crtc set)) else mret 0);
      r2 ← drm_mode_set_config_internal set;
      restore_sets mode_sets (error || negb (r1 =? 0) || negb (r2 =? 0))
  end.

Definition drm_fb_helper_restore_fbdev_mode (mode_sets : list drm_mode_set) : K bool :=
  n ← gets (fun s => length (planes s));
  _ ← for_ (seq 0 n) drm_plane_force_disable;
  restore_sets mode_sets false.
End Framebuffer.
