(* ===== verification/ModeIoctl.v ===== *)
(** * The calls of user space on framebuffers (drm_crtc.c, intel_display.c)

    Adding, removing and asking for framebuffers, planes, the configuration of a CRTC and
    page flips.  A call that finds a framebuffer before it takes a lock is two functions
    here, up to and from that point, so that other calls can come in between; the whole
    call is the one after the other. *)

From stdpp Require Import strings.
From S2P Require Import Prelude HandleTable Idr Modes Gem Tiling FbFormat Framebuffer.

Open Scope Z_scope.

Definition INT_MAX : Z := 2 ^ 31 - 1.
Definition DRM_MODE_FB_INTERLACED : Z := 1.
Definition DRM_MODE_PAGE_FLIP_EVENT : Z := 1.
Definition DRM_MODE_PAGE_FLIP_FLAGS : Z := 0xf.
Definition ENXIO : Z := 6.

Record drm_mode_modeinfo := mk_modeinfo {
  u_clock : Z; u_hdisplay : Z; u_hsync_start : Z; u_hsync_end : Z; u_htotal : Z; u_hskew : Z;
  u_vdisplay : Z; u_vsync_start : Z; u_vsync_end : Z; u_vtotal : Z; u_vscan : Z;
  u_vrefresh : Z; u_flags : Z; u_type : Z; u_name : string }.

(** The error, or the mode in memory that was zero. *)
Definition drm_crtc_convert_umode (i : drm_mode_modeinfo) : Z + drm_display_mode :=
  if (u_clock i >? INT_MAX) || (u_vrefresh i >? INT_MAX) then inl (- ERANGE) else
  inr (mk_mode (String.substring 0 (DRM_DISPLAY_MODE_LEN - 1) (u_name i)) MODE_OK (u_type i) (u_clock i)
    (u_hdisplay i) (u_hsync_start i) (u_hsync_end i) (u_htotal i) (u_hskew i)
    (u_vdisplay i) (u_vsync_start i) (u_vsync_end i) (u_vtotal i) (u_vscan i) (u_flags i) 0 0 crtc0 (u_vrefresh i) 0).

(** The fields of the user's record are 16 bits wide where those of a mode are ints. *)
Definition drm_crtc_convert_to_umode (m : drm_display_mode) : drm_mode_modeinfo :=
  let u16 z := z mod 2 ^ 16 in
  mk_modeinfo (u32 (clock m)) (u16 (hdisplay m)) (u16 (hsync_start m)) (u16 (hsync_end m)) (u16 (htotal m))
    (u16 (hskew m)) (u16 (vdisplay m)) (u16 (vsync_start m)) (u16 (vsync_end m)) (u16 (vtotal m)) (u16 (vscan m))
    (u32 (vrefresh m)) (u32 (flags m)) (u32 (type m)) (String.substring 0 (DRM_DISPLAY_MODE_LEN - 1) (name m)).

Section ModeIoctl.
Context {G T D : Type} `{HandleTable G T oid} `{KmsDriver D}.
Abbreviation gem := (gem (G := G) (T := T)).
Abbreviation device := (device (G := G) (T := T) (D := D)).
Abbreviation K := (K (G := G) (T := T) (D := D)).

(** ** Adding *)

(** [tiling o] is [obj->tiling_mode] and [obj->stride]; [c] the chip. *)
Context (c : chip) (tiling : oid -> Z * Z).

Definition intel_framebuffer_init (a : nat) (r : drm_mode_fb_cmd2) (o : oid) : K Z :=
  let ret := intel_fb_check c r (tiling o).1 (tiling o).2 in
  if negb (ret =? 0) then mret ret else
  _ ← upd_fb a (fun f => mk_framebuffer (fb_base f) (fb_refcount f) (width r) (height r) (pixel_format r) (Some o));
  ret ← drm_framebuffer_init a;
  mret ret.

(** [kz] is the memory kzalloc returns. *)
Definition intel_framebuffer_create (r : drm_mode_fb_cmd2) (o : oid) (kz : option nat) : K (option nat) :=
  match kz with
  | None => _ ← gem_unreference o; mret None
  | Some a =>
      _ ← modify (fun s => set_fbs (<[a := zero_fb]> (fbs s)) s);
      ret ← intel_framebuffer_init a r o;
      if negb (ret =? 0) then
        _ ← gem_unreference o;
        _ ← modify (fun s => set_fbs (delete a (fbs s)) s);
        mret None
      else mret (Some a)
  end.

Definition intel_user_framebuffer_create (f : fid) (r : drm_mode_fb_cmd2) (kz : option nat) : K (option nat) :=
  obj ← on_gem (drm_gem_object_lookup f (nth4 (handles r) 0));
  match obj with
  | None => mret None
  | Some o => intel_framebuffer_create r o kz
  end.

(** The size against the limits of the configuration. *)
Definition size_ok (r : drm_mode_fb_cmd2) : K bool :=
  '(minw, maxw, (minh, maxh)) ← gets limits;
  mret (negb ((minw >? width r) || (width r >? maxw)) && negb ((minh >? height r) || (height r >? maxh))).

(** [drm_mode_addfb2] until the framebuffer exists: an error, or its address. *)
Definition addfb2_create (f : fid) (r : drm_mode_fb_cmd2) (kz : option nat) : K (Z + nat) :=
  if negb (Z.land (fb_flags r) (Z.lxor DRM_MODE_FB_INTERLACED (2 ^ 32 - 1)) =? 0) then mret (inl (- EINVAL)) else
  ok ← size_ok r;
  if negb ok then mret (inl (- EINVAL)) else
  let ret := framebuffer_check r in
  if negb (ret =? 0) then mret (inl ret) else
  fb ← intel_user_framebuffer_create f r kz;
  match fb with
  | None => mret (inl (- ENOMEM))
  | Some a => mret (inr a)
  end.

(** The request of [drm_mode_addfb]: width, height, pitch, bits, depth, handle. *)
Definition addfb_request (w h pitch bpp depth handle : Z) : drm_mode_fb_cmd2 :=
  mk_cmd w h (drm_mode_legacy_fb_format bpp depth) 0 [handle; 0; 0; 0] [pitch; 0; 0; 0] [0; 0; 0; 0].

Definition addfb_create (f : fid) (r : drm_mode_fb_cmd2) (kz : option nat) : K (Z + nat) :=
  ok ← size_ok r;
  if negb ok then mret (inl (- EINVAL)) else
  fb ← intel_user_framebuffer_create f r kz;
  match fb with
  | None => mret (inl (- ENOMEM))
  | Some a => mret (inr a)
  end.

(** The rest of both: the file has the framebuffer; its identifier is reported. *)
Definition add_to_file (f : fid) (a : nat) : K Z :=
  m ← gets files;
  l ← lift (m !! f);
  fb ← get_fb a;
  _ ← modify (fun s => set_files (<[f := a :: l]> (files s)) s);
  mret (id (fb_base fb)).

Definition finish_add (f : fid) (r : Z + nat) : K (Z * Z) :=
  match r with
  | inl ret => mret (ret, 0)
  | inr a => n ← add_to_file f a; mret (0, n)
  end.

Definition drm_mode_addfb (f : fid) (r : drm_mode_fb_cmd2) (kz : option nat) : K (Z * Z) :=
  x ← addfb_create f r kz; finish_add f x.
Definition drm_mode_addfb2 (f : fid) (r : drm_mode_fb_cmd2) (kz : option nat) : K (Z * Z) :=
  x ← addfb2_create f r kz; finish_add f x.

(** ** Removing *)

(** What [rmfb] does under the locks of the lists: no framebuffer, or one that has lost its
    identifier and whose reference now is the caller's. *)
Definition rmfb_unregister (f : fid) (n : Z) : K (option nat) :=
  fb ← __drm_framebuffer_lookup n;
  match fb with
  | None => mret None
  | Some a =>
      m ← gets files;
      l ← lift (m !! f);
      if negb (bool_decide (a ∈@{list nat} l)) then mret None else
      _ ← __drm_framebuffer_unregister a;
      _ ← modify (fun s => set_files (<[f := filter (fun x => x <> a) l]> (files s)) s);
      mret (Some a)
  end.

Definition drm_mode_rmfb (f : fid) (n : Z) : K Z :=
  fb ← rmfb_unregister f n;
  match fb with
  | None => mret (- EINVAL)
  | Some a => _ ← drm_framebuffer_remove a; mret 0
  end.

(** One round of [drm_fb_release], up to the removal. *)
Definition release_one (f : fid) (a : nat) : K unit :=
  _ ← __drm_framebuffer_unregister a;
  m ← gets files;
  l ← lift (m !! f);
  modify (fun s => set_files (<[f := filter (fun x => x <> a) l]> (files s)) s).

Definition drm_fb_release (f : fid) : K unit :=
  m ← gets files;
  l ← lift (m !! f);
  for_ l (fun a => _ ← release_one f a; drm_framebuffer_remove a).

(** ** Asking *)

(** The framebuffer found, with a reference; then the handle that is made for its object,
    with [fuel] for the handle table. *)
Definition getfb_handle (f : fid) (a : nat) : K (Z * option Z) :=
  fb ← get_fb a;
  ok ← next_alloc;
  o ← lift (fb_obj fb);
  on_gem (drm_gem_handle_create 2 f o ok).

Definition drm_mode_getfb (f : fid) (n : Z) : K (Z * option Z) :=
  fb ← drm_framebuffer_lookup n;
  match fb with
  | None => mret (- EINVAL, None)
  | Some a =>
      r ← getfb_handle f a;
      _ ← drm_framebuffer_unreference a;
      mret r
  end.

(** ** Planes *)

Record set_plane := mk_set_plane { sp_plane_id : Z; sp_crtc_id : Z; sp_fb_id : Z; sp_rects : plane_rects }.

Definition find_plane (n : Z) : K (option nat) :=
  o ← drm_mode_object_find n DRM_MODE_OBJECT_PLANE;
  mret (match o with Some (PPlane p) => Some p | _ => None end).
Definition find_crtc (n : Z) : K (option nat) :=
  o ← drm_mode_object_find n DRM_MODE_OBJECT_CRTC;
  mret (match o with Some (PCrtc c) => Some c | _ => None end).

(** The tests on a framebuffer of this size and format: 0 or an error. *)
Definition plane_fits (formats : list Z) (fmt fw fh : Z) (r : plane_rects) : Z :=
  if negb (existsb (Z.eqb fmt) formats) then - EINVAL else
  let fb_width := u32 (Z.shiftl fw 16) in
  let fb_height := u32 (Z.shiftl fh 16) in
  if (src_w r >? fb_width) || (src_x r >? u32 (fb_width - src_w r)) ||
     (src_h r >? fb_height) || (src_y r >? u32 (fb_height - src_h r)) then - ENOSPC else
  if (crtc_w r >? INT_MAX) || (crtc_x r >? INT_MAX - crtc_w r) ||
     (crtc_h r >? INT_MAX) || (crtc_y r >? INT_MAX - crtc_h r) then - ERANGE else 0.

(** What is to be done once the locks are taken. *)
Inductive plane_next : Type :=
| PlaneError (ret : Z)
| PlaneOff (p : nat)
| PlaneShow (p crtc a : nat).

Definition setplane_lookup (r : set_plane) : K plane_next :=
  p ← find_plane (sp_plane_id r);
  match p with
  | None => mret (PlaneError (- ENOENT))
  | Some p =>
      if sp_fb_id r =? 0 then mret (PlaneOff p) else
      crtc ← find_crtc (sp_crtc_id r);
      match crtc with
      | None => mret (PlaneError (- ENOENT))
      | Some crtc =>
          fb ← drm_framebuffer_lookup (sp_fb_id r);
          match fb with
          | None => mret (PlaneError (- ENOENT))
          | Some a =>
              f ← get_fb a;
              pl ← get_plane p;
              let ret := plane_fits (format_types pl) (fb_format f) (fb_width f) (fb_height f) (sp_rects r) in
              if negb (ret =? 0) then _ ← drm_framebuffer_unreference a; mret (PlaneError ret)
              else mret (PlaneShow p crtc a)
          end
      end
  end.

(** Under the locks: the value, and the references that are given up after them. *)
Definition setplane_commit (r : set_plane) (n : plane_next) : K (Z * list nat) :=
  match n with
  | PlaneError ret => mret (ret, [])
  | PlaneOff p =>
      pl ← get_plane p;
      _ ← call (disable_plane p);
      _ ← upd_plane p (show None None);
      mret (0, option_list (p_fb pl))
  | PlaneShow p crtc a =>
      ret ← call (update_plane p crtc a (sp_rects r));
      if ret =? 0 then
        pl ← get_plane p;
        _ ← upd_plane p (show (Some crtc) (Some a));
        mret (0, option_list (p_fb pl))
      else mret (ret, [a])
  end.

Definition drm_mode_setplane (r : set_plane) : K Z :=
  n ← setplane_lookup r;
  '(ret, l) ← setplane_commit r n;
  _ ← for_ l drm_framebuffer_unreference;
  mret ret.

(** ** The configuration of a CRTC *)

Definition drm_mode_create (kz : option nat) : K (option nat) :=
  match kz with
  | None => mret None
  | Some m =>
      _ ← modify (fun s => set_others (<[m := mk_object 0 0]> (others s)) s);
      ret ← drm_mode_object_get (POther m) DRM_MODE_OBJECT_MODE;
      if negb (ret =? 0) then _ ← modify (fun s => set_others (delete m (others s)) s); mret None
      else mret (Some m)
  end.

Definition drm_mode_destroy (m : option nat) : K unit :=
  match m with
  | None => mret tt
  | Some m =>
      _ ← drm_mode_object_put (POther m);
      modify (fun s => set_others (delete m (others s)) s)
  end.

(** The part of the framebuffer a CRTC shows. *)
Definition viewport_ok (invert : bool) (m : drm_display_mode) (x y fw fh : Z) : bool :=
  let '(hd, vd) := if invert then (vdisplay m, hdisplay m) else (hdisplay m, vdisplay m) in
  negb ((u32 hd >? fw) || (u32 vd >? fh) || (u32 x >? u32 (fw - hd)) || (u32 y >? u32 (fh - vd))).

(** [connector_ids]: what the user's array holds, [None] where it cannot be read. *)
Record set_crtc_req := mk_set_crtc {
  sc_crtc_id : Z; sc_fb_id : Z; sc_x : Z; sc_y : Z; sc_mode_valid : bool; sc_mode : drm_mode_modeinfo;
  sc_connector_ids : list (option Z) }.

(** The local variables [fb] and [mode] with the error, if there is one. *)
Record so_far := mk_so_far { sf_ret : Z; sf_fb : option nat; sf_mode : option nat; sf_timings : option drm_display_mode }.

Definition setcrtc_mode (r : set_crtc_req) (crtc : nat) (kz : option nat) : K so_far :=
  if negb (sc_mode_valid r) then mret (mk_so_far 0 None None None) else
  fb ← (if sc_fb_id r =? 2 ^ 32 - 1 then
          cur ← fb_of crtc;
          match cur with Some a => _ ← drm_framebuffer_reference a; mret (Some a) | None => mret None end
        else drm_framebuffer_lookup (sc_fb_id r));
  match fb with
  | None => mret (mk_so_far (- EINVAL) None None None)
  | Some a =>
      mode ← drm_mode_create kz;
      match mode with
      | None => mret (mk_so_far (- ENOMEM) (Some a) None None)
      | Some m =>
          match drm_crtc_convert_umode (sc_mode r) with
          | inl ret => mret (mk_so_far ret (Some a) (Some m) None)
          | inr t =>
              let t := drm_mode_set_crtcinfo t CRTC_INTERLACE_HALVE_V in
              f ← get_fb a;
              cr ← get_crtc crtc;
              if viewport_ok (invert_dimensions cr) t (sc_x r) (sc_y r) (fb_width f) (fb_height f)
              then mret (mk_so_far 0 (Some a) (Some m) (Some t))
              else mret (mk_so_far (- ENOSPC) (Some a) (Some m) (Some t))
          end
      end
  end.

(** The connectors of the request: an error or their addresses. *)
Fixpoint find_connectors (ids : list (option Z)) : K (Z + list nat) :=
  match ids with
  | [] => mret (inr [])
  | None :: _ => mret (inl (- EFAULT))
  | Some n :: ids =>
      o ← drm_mode_object_find n DRM_MODE_OBJECT_CONNECTOR;
      match o with
      | Some (POther k) =>
          r ← find_connectors ids;
          mret (match r with inl e => inl e | inr l => inr (k :: l) end)
      | _ => mret (inl (- EINVAL))
      end
  end.

Definition setcrtc_connectors (r : set_crtc_req) (sf : so_far) : K (Z + list nat) :=
  let count := Z.of_nat (length (sc_connector_ids r)) in
  if (count =? 0) && bool_decide (sf_mode sf <> None) then mret (inl (- EINVAL)) else
  if (count >? 0) && bool_decide (sf_mode sf = None \/ sf_fb sf = None) then mret (inl (- EINVAL)) else
  if count =? 0 then mret (inr []) else
  n ← gets num_connector;
  if count >? n then mret (inl (- EINVAL)) else
  ok ← next_alloc;
  if negb ok then mret (inl (- ENOMEM)) else find_connectors (sc_connector_ids r).

(** The label [out]. *)
Definition setcrtc_out (fb mode : option nat) (ret : Z) : K Z :=
  _ ← unref_opt fb;
  _ ← drm_mode_destroy mode;
  mret ret.

(** Up to the configuration: the value that is returned, or the set and the mode. *)
Definition setcrtc_prepare (r : set_crtc_req) (kz : option nat) : K (Z + drm_mode_set * option nat) :=
  if (sc_x r >? INT_MAX) || (sc_y r >? INT_MAX) then mret (inl (- ERANGE)) else
  crtc ← find_crtc (sc_crtc_id r);
  match crtc with
  | None => mret (inl (- EINVAL))
  | Some crtc =>
      sf ← setcrtc_mode r crtc kz;
      if negb (sf_ret sf =? 0) then ret ← setcrtc_out (sf_fb sf) (sf_mode sf) (sf_ret sf); mret (inl ret) else
      conn ← setcrtc_connectors r sf;
      match conn with
      | inl e => ret ← setcrtc_out (sf_fb sf) (sf_mode sf) e; mret (inl ret)
      | inr l => mret (inr (mk_set crtc (sc_x r) (sc_y r) (sf_timings sf) l (sf_fb sf), sf_mode sf))
      end
  end.

Definition setcrtc_commit (set : drm_mode_set) (mode : option nat) : K Z :=
  ret ← drm_mode_set_config_internal set;
  setcrtc_out (set_fb set) mode ret.

Definition drm_mode_setcrtc (r : set_crtc_req) (kz : option nat) : K Z :=
  p ← setcrtc_prepare r kz;
  match p with
  | inl ret => mret ret
  | inr (set, mode) => setcrtc_commit set mode
  end.

(** ** Page flips *)

(** Up to the call of the driver: an error, or the framebuffer.  [event_ok]: there is room
    and memory for the event, if one is asked for; its accounting is in Vblank. *)
Definition flip_lookup (flip_flags reserved crtc_id fb_id : Z) (event_ok : bool) : K (Z + nat * nat) :=
  if negb (Z.land flip_flags (Z.lxor DRM_MODE_PAGE_FLIP_FLAGS (2 ^ 32 - 1)) =? 0) || negb (reserved =? 0)
  then mret (inl (- EINVAL)) else
  crtc ← find_crtc crtc_id;
  match crtc with
  | None => mret (inl (- EINVAL))
  | Some crtc =>
      cur ← fb_of crtc;
      match cur with
      | None => mret (inl (- EBUSY))
      | Some cur =>
          if negb has_page_flip then mret (inl (- EINVAL)) else
          fb ← drm_framebuffer_lookup fb_id;
          match fb with
          | None => mret (inl (- EINVAL))
          | Some a =>
              f ← get_fb a;
              cr ← get_crtc crtc;
              s ← gets drv;
              fcur ← get_fb cur;
              let '(x, y) := crtc_xy s crtc in
              let ret :=
                if negb (viewport_ok (invert_dimensions cr) (crtc_mode s crtc) x y (fb_width f) (fb_height f)) then - ENOSPC else
                if negb (fb_format fcur =? fb_format f) then - EINVAL else
                if has_flag flip_flags DRM_MODE_PAGE_FLIP_EVENT && negb event_ok then - ENOMEM else 0 in
              if negb (ret =? 0) then _ ← drm_framebuffer_unreference a; mret (inl ret)
              else mret (inr (crtc, a))
          end
      end
  end.

Definition flip_commit (flip_flags : Z) (crtc a : nat) : K Z :=
  old ← fb_of crtc;
  ret ← call (page_flip crtc a (has_flag flip_flags DRM_MODE_PAGE_FLIP_EVENT));
  _ ← (if negb (ret =? 0) then drm_framebuffer_unreference a else unref_opt old);
  mret ret.

Definition drm_mode_page_flip_ioctl (flip_flags reserved crtc_id fb_id : Z) (event_ok : bool) : K Z :=
  r ← flip_lookup flip_flags reserved crtc_id fb_id event_ok;
  match r with
  | inl ret => mret ret
  | inr (crtc, a) => flip_commit flip_flags crtc a
  end.
End ModeIoctl.
