(* ===== verification/Sums.v ===== *)
(** * Sums over lists and maps

    How often something is held: the sum of a function over the elements of a list, or
    over the values of a map, and how it changes with one element. *)

From S2P Require Import Prelude.

Open Scope Z_scope.

Definition total {A} (f : A -> Z) (l : list A) : Z := foldr (fun x n => f x + n) 0 l.
Definition mtotal {I A} `{Countable I} (f : A -> Z) (m : gmap I A) : Z := total f (map_to_list m).*2.

(** One if, zero otherwise. *)
Definition one (P : Prop) `{Decision P} : Z := if decide P then 1 else 0.

Lemma one_yes P `{Decision P} : P -> one P = 1.
Proof. intros. unfold one. by rewrite decide_True. Qed.
Lemma one_no P `{Decision P} : ~ P -> one P = 0.
Proof. intros. unfold one. by rewrite decide_False. Qed.
Lemma one_range P `{Decision P} : 0 <= one P <= 1.
Proof. unfold one. case_decide; lia. Qed.
Lemma one_iff P Q `{Decision P} `{Decision Q} : (P <-> Q) -> one P = one Q.
Proof. intros HE. unfold one. destruct (decide P), (decide Q); tauto. Qed.

(** Whichever way it is decided. *)
Lemma one_none {A} (x : A) (d : Decision (None = Some x)) : @one (None = Some x) d = 0.
Proof. by apply one_no. Qed.
Lemma one_some {A} `{EqDecision A} (a x : A) (d : Decision (Some a = Some x)) : @one (Some a = Some x) d = one (a = x).
Proof. apply one_iff. naive_solver. Qed.

Section Lists.
Context {A : Type}.
Implicit Types (f : A -> Z) (l : list A).

Lemma total_cons f x l : total f (x :: l) = f x + total f l.
Proof. done. Qed.

Lemma total_app f l k : total f (l ++ k) = total f l + total f k.
Proof. induction l as [|x l IH]; simpl; lia. Qed.

Lemma total_perm f l k : l ≡ₚ k -> total f l = total f k.
Proof. induction 1; simpl; lia. Qed.

Lemma total_nonneg f l : (forall x, x ∈ l -> 0 <= f x) -> 0 <= total f l.
Proof.
  induction l as [|x l IH]; simpl; intros Hf; [lia|].
  pose proof (Hf x ltac:(by left)). specialize (IH ltac:(intros y Hy; apply Hf; by right)). lia.
Qed.

Lemma total_pos f l x : (forall x, 0 <= f x) -> x ∈ l -> f x <= total f l.
Proof.
  intros Hf. induction l as [|y l IH]; intros Hx; [by apply elem_of_nil in Hx|]. simpl.
  pose proof (total_nonneg f l ltac:(auto)). pose proof (Hf y). apply elem_of_cons in Hx as [->|Hx]; [lia|]. specialize (IH Hx). lia.
Qed.

Lemma total_pos_inv f l : 0 < total f l -> exists x, x ∈ l /\ 0 < f x.
Proof.
  induction l as [|x l IH]; simpl; [lia|]. intros Hp. destruct (Z.lt_ge_cases 0 (f x)) as [Hx|Hx].
  - exists x. split; [by left|done].
  - destruct IH as (y & Hy & ?); [lia|]. exists y. split; [by right|done].
Qed.

Lemma total_ext f g l : (forall x, x ∈ l -> f x = g x) -> total f l = total g l.
Proof.
  induction l as [|x l IH]; intros Hf; [done|]. simpl.
  rewrite Hf by (by left). rewrite IH; [done|]. intros y Hy. apply Hf. by right.
Qed.

Lemma total_plus f g l : total (fun x => f x + g x) l = total f l + total g l.
Proof. induction l as [|x l IH]; simpl; lia. Qed.

Lemma total_zero f l : (forall x, x ∈ l -> f x = 0) -> total f l = 0.
Proof.
  induction l as [|x l IH]; intros Hf; [done|]. simpl. rewrite (Hf x) by (by left). rewrite IH; [done|].
  intros y Hy. apply Hf. by right.
Qed.

Lemma total_insert f l i x y : l !! i = Some x -> total f (<[i := y]> l) = total f l - f x + f y.
Proof.
  revert i. induction l as [|z l IH]; intros [|i] Hi; simpl in *; try done; [injection Hi as ->; lia|].
  rewrite (IH i Hi). lia.
Qed.

Lemma total_alter f g l i x : l !! i = Some x -> total f (alter g i l) = total f l - f x + f (g x).
Proof.
  revert i. induction l as [|z l IH]; intros [|i] Hi; simpl in *; try done; [injection Hi as ->; lia|].
  specialize (IH i Hi). unfold alter in *. lia.
Qed.
End Lists.

(** How often an element occurs. *)
Definition occurs {A} `{EqDecision A} (a : A) (l : list A) : Z := total (fun x => one (x = a)) l.

Section Occurs.
Context {A : Type} `{EqDecision A}.
Implicit Types (a : A) (l : list A).

Lemma occurs_nonneg a l : 0 <= occurs a l.
Proof. apply total_nonneg. intros x _. apply one_range. Qed.

Lemma occurs_in a l : 0 < occurs a l <-> a ∈ l.
Proof.
  split.
  - intros (x & Hx & Ho)%total_pos_inv. unfold one in Ho. case_decide; [by subst|lia].
  - intros Ha. pose proof (total_pos (fun x => one (x = a)) l a ltac:(intros; apply one_range) Ha) as Hp.
    simpl in Hp. rewrite one_yes in Hp by done. unfold occurs. lia.
Qed.

Lemma occurs_filter a b l : occurs a (filter (fun x => x <> b) l) = if decide (a = b) then 0 else occurs a l.
Proof.
  unfold occurs. induction l as [|x l IH]; [by case_decide|]. rewrite filter_cons, total_cons.
  destruct (decide (x <> b)) as [Hx|Hx]; rewrite ?total_cons, IH.
  - case_decide as Hab; [|done]. subst. by rewrite one_no.
  - apply dec_stable in Hx as ->. case_decide as Hab; [done|]. by rewrite one_no.
Qed.

Lemma filter_out_absent a l : a ∉ l -> filter (fun x => x <> a) l = l.
Proof.
  induction l as [|x l IH]; intros Ha; [done|]. apply not_elem_of_cons in Ha as [Hx Ha].
  rewrite filter_cons. destruct (decide (x <> a)) as [_|Hn]; [by rewrite IH|]. by destruct Hn.
Qed.

Lemma filter_out_length a l : NoDup l -> a ∈ l -> (length (filter (fun x => x <> a) l) + 1 = length l)%nat.
Proof.
  induction l as [|x l IH]; intros Hn Ha; [by apply elem_of_nil in Ha|].
  apply NoDup_cons in Hn as [Hx Hn]. rewrite filter_cons. destruct (decide (x <> a)) as [Hxa|Hxa]; simpl.
  - apply elem_of_cons in Ha as [->|Ha]; [done|]. by rewrite IH.
  - apply dec_stable in Hxa as ->. rewrite filter_out_absent; [lia|done].
Qed.
End Occurs.

Section Maps.
Context {I A : Type} `{Countable I}.
Implicit Types (f : A -> Z) (m : gmap I A).

Lemma mtotal_empty f : mtotal f (∅ : gmap I A) = 0.
Proof. unfold mtotal. by rewrite map_to_list_empty. Qed.

Lemma mtotal_insert_new f m i x : m !! i = None -> mtotal f (<[i := x]> m) = f x + mtotal f m.
Proof. intros Hi. unfold mtotal. by rewrite (total_perm _ _ _ (fmap_Permutation snd _ _ (map_to_list_insert m i x Hi))). Qed.

Lemma mtotal_delete f m i x : m !! i = Some x -> mtotal f (delete i m) = mtotal f m - f x.
Proof.
  intros Hi. rewrite <-(insert_delete_id m i x Hi) at 2.
  rewrite mtotal_insert_new by apply lookup_delete_eq. lia.
Qed.

Lemma mtotal_insert f m i x y : m !! i = Some x -> mtotal f (<[i := y]> m) = mtotal f m - f x + f y.
Proof.
  intros Hi. rewrite <-(insert_delete_eq m i y). rewrite mtotal_insert_new by apply lookup_delete_eq.
  rewrite (mtotal_delete f m i x Hi). lia.
Qed.

Lemma mtotal_alter f g m i x : m !! i = Some x -> mtotal f (alter g i m) = mtotal f m - f x + f (g x).
Proof.
  intros Hi. replace (alter g i m) with (<[i := g x]> m); [by apply mtotal_insert|]. apply map_eq. intros j.
  destruct (decide (j = i)) as [->|Hne]; [by rewrite lookup_insert_eq, lookup_alter_eq, Hi|].
  by rewrite lookup_insert_ne, lookup_alter_ne.
Qed.

Lemma mtotal_nonneg f m : (forall x, 0 <= f x) -> 0 <= mtotal f m.
Proof. intros. by apply total_nonneg. Qed.

Lemma mtotal_pos f m i x : (forall x, 0 <= f x) -> m !! i = Some x -> f x <= mtotal f m.
Proof.
  intros Hf Hi. apply total_pos; [done|]. apply list_elem_of_fmap. exists (i, x). split; [done|].
  by apply elem_of_map_to_list.
Qed.

Lemma mtotal_pos_inv f m : 0 < mtotal f m -> exists i x, m !! i = Some x /\ 0 < f x.
Proof.
  intros (x & Hx & Hp)%total_pos_inv. apply list_elem_of_fmap in Hx as ([i y] & -> & Hi).
  apply elem_of_map_to_list in Hi. by exists i, y.
Qed.

Lemma mtotal_ext f g m : (forall i x, m !! i = Some x -> f x = g x) -> mtotal f m = mtotal g m.
Proof.
  intros Hf. apply total_ext. intros x Hx. apply list_elem_of_fmap in Hx as ([i y] & -> & Hi).
  apply elem_of_map_to_list in Hi. by apply (Hf i).
Qed.
End Maps.
