(* ===== verification/FbFacts.v ===== *)
(** * Framebuffers: the invariant of a device

    What holds between the operations of Framebuffer: identifiers lead to objects that
    exist and have that identifier, every framebuffer is on the list of the device and
    holds a reference to the GEM object of its pixels, and its count is what the holders
    say ([cnt_ok]).  Each operation is shown to change that count by the references it
    takes and gives. *)

From S2P Require Import Prelude Sums HandleTable Idr Modes Gem FbFormat Framebuffer.

Open Scope Z_scope.

Lemma alter_is_insert {A} (f : A -> A) (m : gmap nat A) i x : m !! i = Some x -> alter f i m = <[i := f x]> m.
Proof.
  intros Hi. apply map_eq. intros j. destruct (decide (j = i)) as [->|Hne].
  - by rewrite lookup_insert_eq, lookup_alter_eq, Hi.
  - by rewrite lookup_insert_ne, lookup_alter_ne.
Qed.

(** The types the code finds objects by. *)
Definition type_ok (p : pointer) (o : drm_mode_object) : Prop :=
  match p with
  | PFb _ => obj_type o = DRM_MODE_OBJECT_FB
  | PCrtc _ => obj_type o = DRM_MODE_OBJECT_CRTC
  | PPlane _ => obj_type o = DRM_MODE_OBJECT_PLANE
  | POther _ => obj_type o = DRM_MODE_OBJECT_MODE \/ obj_type o = DRM_MODE_OBJECT_CONNECTOR
  end.

(** How many framebuffers have their pixels in an object. *)
Definition fbs_on (o : oid) (m : gmap nat framebuffer) : Z := mtotal (fun f => one (fb_obj f = Some o)) m.

Section Facts.
Context {G T D : Type} `{HandleTableLaws G T oid} `{KmsLaws D}.
Abbreviation gem := (gem (G := G) (T := T)).
Abbreviation device := (device (G := G) (T := T) (D := D)).
Implicit Types (s : device) (r : nat -> Z) (a : nat).

Definition base_at s (p : pointer) : option drm_mode_object :=
  match p with
  | PFb a => fb_base <$> fbs s !! a
  | PCrtc c => c_base <$> crtcs s !! c
  | PPlane p => p_base <$> planes s !! p
  | POther a => others s !! a
  end.

(** [ext o]: the references to GEM objects that framebuffers do not hold.  [d_allocs] is a
    condition on what is to come: the allocations of the table of identifiers succeed.
    The code does not survive their failure ([failed_id_is_success] and
    [failed_remove_dangles] in FbRuns.v: drm_crtc.c does not look at the results of
    [drm_mode_object_get] in [drm_framebuffer_init] and of [idr_remove]).  All other
    allocations may fail. *)
Record dev_ok (ext : oid -> Z) s : Prop := {
  d_idr : idr_wf (crtc_idr s);
  d_full : idr_full (crtc_idr s);
  d_zero : used_ids (crtc_idr s) !! 0 = None;
  d_base : forall n p, used_ids (crtc_idr s) !! n = Some p -> exists o, base_at s p = Some o /\ id o = n /\ type_ok p o;
  d_list : NoDup (fb_list s);
  d_in : forall a, a ∈ fb_list s <-> is_Some (fbs s !! a);
  d_num : num_fb s = Z.of_nat (length (fb_list s));
  d_obj : forall a f, fbs s !! a = Some f -> is_Some (fb_obj f);
  d_ext : forall o, 0 <= ext o;
  d_gem : gem_inv (fun o => ext o + fbs_on o (fbs s)) (fun _ => 0) (objs s);
  d_named : named_ok (objs s);
  d_allocs : Forall (eq true) (id_allocs s) }.

(** The count of every framebuffer is [r]; those that do not exist are held by nobody. *)
Definition cnt_ok r s : Prop := forall a,
  match fbs s !! a with Some f => fb_refcount f = r a /\ 0 < r a | None => r a = 0 end.

(** The reference of the identifier. *)
Definition reg s a : Z :=
  match fbs s !! a with Some f => one (used_ids (crtc_idr s) !! id (fb_base f) = Some (PFb a)) | None => 0 end.

Lemma cnt_live r s a : cnt_ok r s -> 0 < r a -> exists f, fbs s !! a = Some f /\ fb_refcount f = r a.
Proof. intros Hc Hr. specialize (Hc a). destruct (fbs s !! a) as [f|]; [|lia]. exists f. naive_solver. Qed.

Lemma cnt_ext r r' s : (forall a, r a = r' a) -> cnt_ok r s -> cnt_ok r' s.
Proof. intros E Hc a. specialize (Hc a). by rewrite E in Hc. Qed.

Lemma reg_range s a : 0 <= reg s a <= 1.
Proof. unfold reg. destruct (fbs s !! a); [apply one_range|lia]. Qed.

(** What the reference operations leave alone: all but counts and framebuffers that go. *)
Record same s s' : Prop := {
  sm_idr : crtc_idr s' = crtc_idr s;
  sm_crtcs : crtcs s' = crtcs s;
  sm_planes : planes s' = planes s;
  sm_others : others s' = others s;
  sm_conn : num_connector s' = num_connector s /\ limits s' = limits s;
  sm_files : files s' = files s;
  sm_drv : drv s' = drv s;
  sm_allocs : allocs s' = allocs s /\ id_allocs s' = id_allocs s;
  sm_handles : object_idrs (objs s') = object_idrs (objs s) /\ counters (objs s') = counters (objs s);
  sm_fbs : forall a f', fbs s' !! a = Some f' -> exists f, fbs s !! a = Some f /\ f' = set_fb_refcount (fb_refcount f') f }.

#[global] Instance same_preorder : PreOrder same.
Proof.
  split.
  - intros s. split; try done. intros a f E. exists f. split; [done|]. by destruct f.
  - intros s1 s2 s3 [A1 A2 A3 A4 [A5 A5'] A6 A7 [A8 A8'] [A9 A9'] A10] [B1 B2 B3 B4 [B5 B5'] B6 B7 [B8 B8'] [B9 B9'] B10].
    split; try split; try congruence. intros a f3 E3. destruct (B10 a f3 E3) as (f2 & E2 & Hf3).
    destruct (A10 a f2 E2) as (f1 & E1 & Hf2). exists f1. split; [done|]. rewrite Hf3, Hf2. by destruct f1.
Qed.

(** A framebuffer that is still there is registered as it was. *)
Lemma reg_same s s' a : same s s' -> is_Some (fbs s' !! a) -> reg s' a = reg s a.
Proof.
  intros Hs [f' E']. destruct (sm_fbs _ _ Hs a f' E') as (f & E & Hf). unfold reg. rewrite E', E, (sm_idr _ _ Hs), Hf.
  by destruct f.
Qed.

(** ** Programs *)

Lemma wp_opt {A} (x : option A) Q s : wp (lift x) Q s <-> exists v, x = Some v /\ Q v s.
Proof. unfold wp, lift. destruct x; simpl; naive_solver. Qed.

Lemma wp_get_fb a f Q s : fbs s !! a = Some f -> Q f s -> wp (get_fb a) Q s.
Proof. intros E HQ. unfold get_fb. rewrite wp_bind, wp_gets, wp_opt. by exists f. Qed.

Lemma wp_upd_fb a f g Q s : fbs s !! a = Some f -> Q tt (set_fbs (<[a := g f]> (fbs s)) s) -> wp (upd_fb a g) Q s.
Proof.
  intros E HQ. unfold upd_fb. rewrite wp_bind. apply (wp_get_fb a f); [done|]. rewrite wp_modify.
  by rewrite (alter_is_insert g _ a f E).
Qed.

Lemma wp_get_plane p pl Q s : planes s !! p = Some pl -> Q pl s -> wp (get_plane p) Q s.
Proof. intros E HQ. unfold get_plane. rewrite wp_bind, wp_gets, wp_opt. by exists pl. Qed.

Lemma wp_upd_plane p pl g Q s : planes s !! p = Some pl -> Q tt (set_planes (alter g p (planes s)) s) -> wp (upd_plane p g) Q s.
Proof. intros E HQ. unfold upd_plane. rewrite wp_bind. by apply (wp_get_plane p pl). Qed.

Lemma wp_crtc_get c cr Q s : crtcs s !! c = Some cr -> Q cr s -> wp (get_crtc c) Q s.
Proof. intros E HQ. unfold get_crtc. rewrite wp_bind, wp_gets, wp_opt. by exists cr. Qed.

Lemma wp_crtc_upd c cr g Q s : crtcs s !! c = Some cr -> Q tt (set_crtcs (alter g c (crtcs s)) s) -> wp (upd_crtc c g) Q s.
Proof. intros E HQ. unfold upd_crtc. rewrite wp_bind. by apply (wp_crtc_get c cr). Qed.

Lemma wp_call f Q s : wp (call f) Q s <-> Q (f (drv s)).1 (set_drv (f (drv s)).2 s).
Proof. unfold wp, call. by destruct (f (drv s)). Qed.

Lemma wp_fb_of c Q s : wp (fb_of c) Q s <-> Q (crtc_fb (drv s) c) s.
Proof. done. Qed.

Lemma wp_on_gem {A} (f : gem -> option (A * gem)) Q s :
  wp (on_gem f) Q s <-> exists v g, f (objs s) = Some (v, g) /\ Q v (set_objs g s).
Proof.
  unfold wp, on_gem. destruct (f (objs s)) as [[v g]|]; simpl; [|naive_solver].
  split; [eauto|]. by intros (? & ? & [= -> ->] & ?).
Qed.

(** An allocation of the core: it may fail. *)
Lemma wp_next_alloc Q s : (forall b l, Q b (set_allocs l s)) -> wp next_alloc Q s.
Proof.
  intros HQ. unfold wp, next_alloc. destruct (allocs s) as [|b l] eqn:E; [|apply HQ].
  specialize (HQ true []). rewrite <-E in HQ. by destruct s.
Qed.

(** An allocation of the table of identifiers. *)
Lemma wp_next_id Q s : Forall (eq true) (id_allocs s) ->
  (forall l, Forall (eq true) l -> Q true (set_id_allocs l s)) -> wp next_id_alloc Q s.
Proof.
  intros Ha HQ. unfold wp, next_id_alloc. destruct (id_allocs s) as [|b l] eqn:E.
  - specialize (HQ [] (Forall_nil_2 _)). rewrite <-E in HQ. by destruct s.
  - apply Forall_cons in Ha as [<- Hl]. by apply HQ.
Qed.

Lemma wp_base_of p Q s o : base_at s p = Some o -> Q o s -> wp (base_of p) Q s.
Proof.
  intros E HQ. destruct p as [a|c|p|a]; simpl in *.
  - rewrite wp_bind. destruct (fbs s !! a) as [f|] eqn:Ef; [|done]. injection E as <-. by apply (wp_get_fb a f).
  - rewrite wp_bind. destruct (crtcs s !! c) as [cr|] eqn:Ef; [|done]. injection E as <-. by apply (wp_crtc_get c cr).
  - rewrite wp_bind. destruct (planes s !! p) as [pl|] eqn:Ef; [|done]. injection E as <-. by apply (wp_get_plane p pl).
  - rewrite wp_bind, wp_gets, wp_opt. by exists o.
Qed.

(** A loop keeps an invariant that is indexed by what is done and what is to be done. *)
Lemma wp_for (I : list nat -> list nat -> device -> Prop) k (Q : unit -> device -> Prop) l s :
  I [] l s ->
  (forall l1 i l2 s, l = l1 ++ i :: l2 -> I l1 (i :: l2) s -> wp (k i) (fun _ s' => I (l1 ++ [i]) l2 s') s) ->
  (forall s, I l [] s -> Q tt s) ->
  wp (for_ l k) Q s.
Proof.
  intros HI Hk HQ. assert (forall l2 l1 s, l = l1 ++ l2 -> I l1 l2 s -> wp (for_ l2 k) Q s) as Hgo.
  - induction l2 as [|i l2 IH]; intros l1 s1 El H1.
    + apply wp_ret. apply HQ. by rewrite app_nil_r in El; subst.
    + cbn [for_]. rewrite wp_bind. eapply wp_mono; [by apply (Hk l1 i l2)|]. intros [] s2 H2.
      apply (IH (l1 ++ [i])); [|done]. by rewrite <-app_assoc.
  - by apply (Hgo l []).
Qed.

(** ** References *)

Lemma base_at_refcount s a f n p : fbs s !! a = Some f ->
  base_at (set_fbs (<[a := set_fb_refcount n f]> (fbs s)) s) p = base_at s p.
Proof.
  intros E. destruct p as [b|c|p|b]; try done. simpl. destruct (decide (b = a)) as [->|Hne].
  - by rewrite lookup_insert_eq, E.
  - by rewrite lookup_insert_ne.
Qed.

Lemma same_refcount s a f n : fbs s !! a = Some f -> same s (set_fbs (<[a := set_fb_refcount n f]> (fbs s)) s).
Proof.
  intros E. split; try done. intros b f' Eb. simpl in Eb. destruct (decide (b = a)) as [->|Hne].
  - rewrite lookup_insert_eq in Eb. injection Eb as <-. by exists f.
  - rewrite lookup_insert_ne in Eb by done. exists f'. split; [done|]. by destruct f'.
Qed.

Lemma dev_refcount ext s a f n : dev_ok ext s -> fbs s !! a = Some f ->
  dev_ok ext (set_fbs (<[a := set_fb_refcount n f]> (fbs s)) s).
Proof.
  intros [H1 H2 H3 H4 H5 H6 H7 H8 H9 H10 H11 H12] E. split; try done.
  - intros m p Hp. rewrite base_at_refcount by done. by apply H4.
  - intros b. rewrite H6. simpl. rewrite lookup_insert_is_Some. destruct (decide (b = a)) as [->|Hne]; [|naive_solver].
    rewrite E. split; [by left|done].
  - intros b f' Eb. simpl in Eb. destruct (decide (b = a)) as [->|Hne].
    + rewrite lookup_insert_eq in Eb. injection Eb as <-. by apply (H8 a f).
    + rewrite lookup_insert_ne in Eb by done. by apply (H8 b).
  - apply (inv_ext (fun o => ext o + fbs_on o (fbs s))); [|done]. intros o. f_equal. unfold fbs_on. simpl.
    rewrite (mtotal_insert _ _ a f) by done. simpl. lia.
Qed.

Lemma cnt_refcount r s a f d : cnt_ok r s -> fbs s !! a = Some f -> 0 < r a + d ->
  cnt_ok (fun x => r x + d * one (x = a)) (set_fbs (<[a := set_fb_refcount (r a + d) f]> (fbs s)) s).
Proof.
  intros Hc E Hd b. specialize (Hc b). simpl. destruct (decide (b = a)) as [->|Hne].
  - rewrite lookup_insert_eq, one_yes by done. simpl. lia.
  - rewrite lookup_insert_ne, one_no by done. destruct (fbs s !! b) as [f'|]; lia.
Qed.

Lemma kref_get_run ext r s a : dev_ok ext s -> cnt_ok r s -> 0 < r a -> r a + 1 < 2 ^ 32 ->
  wp (kref_get a) (fun _ s' => dev_ok ext s' /\ cnt_ok (fun x => r x + one (x = a)) s' /\ same s s') s.
Proof.
  intros Hd Hc Hr Hb. destruct (cnt_live r s a Hc Hr) as (f & E & Ef). unfold kref_get. apply (wp_upd_fb a f); [done|].
  rewrite Ef, u32_small by lia. split; [by apply dev_refcount|]. split; [|by apply same_refcount].
  eapply cnt_ext; [|apply (cnt_refcount r s a f 1); [done|done|lia]]. intros x. simpl. lia.
Qed.

(** The last reference: the framebuffer leaves the list, gives up its object and is freed. *)
Lemma destroy_run ext s a f : dev_ok ext s -> fbs s !! a = Some f -> reg s a = 0 ->
  wp (intel_user_framebuffer_destroy a) (fun _ s' => dev_ok ext s' /\ same s s' /\
    fbs s' = delete a (fbs s)) s.
Proof.
  intros [H1 H2 H3 H4 H5 H6 H7 H8 H9 H10 H11 H12] E Hreg. destruct (H8 a f E) as [o Eo].
  unfold intel_user_framebuffer_destroy, drm_framebuffer_cleanup. rewrite !wp_bind, !wp_gets, wp_bind, wp_gets.
  rewrite bool_decide_eq_true_2 by (apply H6; by rewrite E). rewrite wp_modify, wp_bind.
  apply (wp_get_fb a f); [done|]. rewrite wp_bind, wp_opt. exists o. split; [done|]. rewrite wp_bind.
  unfold gem_unreference. rewrite wp_on_gem.
  assert (1 <= fbs_on o (fbs s)) as Hon.
  { unfold fbs_on. etrans; [|apply (mtotal_pos _ _ a f); [intros; apply one_range|done]]. simpl. by rewrite one_yes. }
  destruct (unreference_run _ _ (objs s) o H10 H11) as (g & Eg & Hg1 & Hg2 & Hg3 & Hg4 & Hg5 & Hg6 & _).
  { specialize (H9 o). simpl. lia. } { done. }
  exists tt, g. simpl. rewrite Eg. split; [done|]. rewrite wp_modify.
  assert (forall n, used_ids (crtc_idr s) !! n <> Some (PFb a)) as Hno.
  { intros n Hn. destruct (H4 _ _ Hn) as (b & Hb & Hbn & _). simpl in Hb. rewrite E in Hb. injection Hb as <-.
    unfold reg in Hreg. rewrite E, one_yes in Hreg; [done|]. by rewrite Hbn. }
  split; [|split; [|done]].
  - split; simpl; try done.
    + intros n p Hp. destruct (H4 n p Hp) as (b & Hb & Hbn). exists b. split; [|done].
      destruct p as [a'|c|p|a']; try done. simpl in *. destruct (decide (a' = a)) as [->|Hne]; [by destruct (Hno n)|].
      by rewrite lookup_delete_ne.
    + by apply NoDup_filter.
    + intros b. rewrite list_elem_of_filter, H6. destruct (decide (b = a)) as [->|Hne].
      * rewrite lookup_delete_eq. split; [naive_solver|by intros []].
      * rewrite lookup_delete_ne by done. naive_solver.
    + rewrite H7. pose proof (filter_out_length a (fb_list s) H5 ltac:(apply H6; by rewrite E)). lia.
    + intros b f' Hb. apply lookup_delete_Some in Hb as [_ Hb]. by apply (H8 b).
    + eapply inv_ext; [|exact Hg1]. intros x. unfold bump, fbs_on. rewrite (mtotal_delete _ _ a f) by done. rewrite Eo.
      case_decide as Hx; [subst; rewrite one_yes by done|rewrite one_no by congruence]; lia.
  - split; try done. intros b f' Hb. simpl in Hb. apply lookup_delete_Some in Hb as [_ Hb]. exists f'.
    split; [done|]. by destruct f'.
Qed.

Lemma unref_run ext r s a : dev_ok ext s -> cnt_ok r s -> 0 < r a < 2 ^ 32 -> reg s a <= r a - 1 ->
  wp (drm_framebuffer_unreference a) (fun _ s' => dev_ok ext s' /\ cnt_ok (fun x => r x - one (x = a)) s' /\ same s s') s.
Proof.
  intros Hd Hc Hr Hreg. destruct (cnt_live r s a Hc) as (f & E & Ef); [lia|].
  unfold drm_framebuffer_unreference, kref_put. rewrite wp_bind. apply (wp_upd_fb a f); [done|].
  rewrite wp_bind. eapply wp_get_fb; [apply lookup_insert_eq|]. simpl. rewrite Ef, u32_small by lia.
  pose proof (same_refcount s a f (r a - 1) E) as Hsm.
  destruct (Z.eqb_spec (r a - 1) 0) as [Hz|Hz].
  - eapply wp_mono.
    + eapply (destroy_run ext); [by apply dev_refcount|apply lookup_insert_eq|].
      rewrite (reg_same s) by (simpl; rewrite ?lookup_insert_eq; done). pose proof (reg_range s a). lia.
    + intros [] s' (Hd' & Hs' & Ef'). split; [done|]. split; [|by etrans].
      intros b. specialize (Hc b). rewrite Ef'. simpl. destruct (decide (b = a)) as [->|Hne].
      * rewrite lookup_delete_eq, one_yes by done. lia.
      * rewrite lookup_delete_ne, lookup_insert_ne, one_no by done. destruct (fbs s !! b); lia.
  - apply wp_ret. split; [by apply dev_refcount|]. split; [|done].
    eapply cnt_ext; [|apply (cnt_refcount r s a f (-1)); [done|done|lia]]. intros x. simpl. lia.
Qed.

Lemma unref_bug_run ext r s a : dev_ok ext s -> cnt_ok r s -> 1 < r a < 2 ^ 32 ->
  wp (__drm_framebuffer_unreference a) (fun _ s' => dev_ok ext s' /\ cnt_ok (fun x => r x - one (x = a)) s' /\ same s s') s.
Proof.
  intros Hd Hc Hr. destruct (cnt_live r s a Hc) as (f & E & Ef); [lia|].
  unfold __drm_framebuffer_unreference, kref_put. rewrite wp_bind. apply (wp_upd_fb a f); [done|].
  rewrite wp_bind. eapply wp_get_fb; [apply lookup_insert_eq|]. simpl. rewrite Ef, u32_small by lia.
  rewrite (proj2 (Z.eqb_neq _ _)) by lia. apply wp_ret. split; [by apply dev_refcount|].
  split; [|by apply same_refcount].
  eapply cnt_ext; [|apply (cnt_refcount r s a f (-1)); [done|done|lia]]. intros x. simpl. lia.
Qed.
End Facts.
