(* ===== verification/FbShow.v ===== *)
(** * Framebuffers: what CRTCs and planes show

    The count of a framebuffer as [held] describes it: what other holders have, plus one
    for every CRTC and every plane that shows it.  The configuration of a CRTC, planes that
    are turned off, the removal of a framebuffer from the screen and the return to the
    console keep that equation, whatever the driver does within its laws. *)

From S2P Require Import Prelude Sums HandleTable Idr Modes Gem FbFormat Framebuffer FbFacts.

Open Scope Z_scope.

Section Show.
Context {G T D : Type} `{HandleTableLaws G T oid} `{KmsLaws D}.
Abbreviation device := (device (G := G) (T := T) (D := D)).
Implicit Types (s : device) (base : nat -> Z) (a x : nat).

Definition crtc_cnt s x : Z := total (fun c => one (crtc_fb (drv s) c = Some x)) (seq 0 (length (crtcs s))).
Definition plane_cnt s x : Z := total (fun p => one (p_fb p = Some x)) (planes s).

Record held base s : Prop := {
  h_cnt : cnt_ok (fun x => base x + crtc_cnt s x + plane_cnt s x) s;
  h_reg : forall x, reg s x <= base x;
  h_fits : forall x, base x + plane_cnt s x + 2 * Z.of_nat (length (crtcs s)) + 2 < 2 ^ 32 }.

(** All that a change of what is shown leaves alone. *)
Record keeps s s' : Prop := {
  kp_idr : crtc_idr s' = crtc_idr s;
  kp_crtcs : map (set_old_fb None) (crtcs s') = map (set_old_fb None) (crtcs s);
  kp_planes : map (show None None) (planes s') = map (show None None) (planes s);
  kp_others : others s' = others s;
  kp_conn : num_connector s' = num_connector s /\ limits s' = limits s;
  kp_files : files s' = files s;
  kp_allocs : allocs s' = allocs s /\ id_allocs s' = id_allocs s;
  kp_handles : object_idrs (objs s') = object_idrs (objs s) /\ counters (objs s') = counters (objs s);
  kp_fbs : forall a f', fbs s' !! a = Some f' -> exists f, fbs s !! a = Some f /\ f' = set_fb_refcount (fb_refcount f') f }.

#[global] Instance keeps_preorder : PreOrder keeps.
Proof.
  split.
  - intros s. split; try done. intros a f E. exists f. split; [done|]. by destruct f.
  - intros s1 s2 s3 [A1 A2 A3 A4 [A5 A5'] A6 [A8 A8'] [A9 A9'] A10] [B1 B2 B3 B4 [B5 B5'] B6 [B8 B8'] [B9 B9'] B10].
    split; try split; try congruence. intros a f3 E3. destruct (B10 a f3 E3) as (f2 & E2 & Hf3).
    destruct (A10 a f2 E2) as (f1 & E1 & Hf2). exists f1. split; [done|]. rewrite Hf3, Hf2. by destruct f1.
Qed.

Lemma same_keeps s s' : same s s' -> keeps s s'.
Proof. intros [A1 A2 A3 A4 A5 A6 A7 A8 A9 A10]. by split; rewrite ?A2, ?A3. Qed.

Lemma keeps_crtcs s s' : keeps s s' -> length (crtcs s') = length (crtcs s).
Proof. intros Hk. pose proof (f_equal length (kp_crtcs _ _ Hk)) as E. by rewrite !length_map in E. Qed.
Lemma keeps_planes s s' : keeps s s' -> length (planes s') = length (planes s).
Proof. intros Hk. pose proof (f_equal length (kp_planes _ _ Hk)) as E. by rewrite !length_map in E. Qed.

Lemma reg_keeps s s' a : keeps s s' -> is_Some (fbs s' !! a) -> reg s' a = reg s a.
Proof.
  intros Hk [f' E']. destruct (kp_fbs _ _ Hk a f' E') as (f & E & Hf). unfold reg. rewrite E', E, (kp_idr _ _ Hk), Hf.
  by destruct f.
Qed.

Lemma reg_le base s s' : keeps s s' -> (forall x, reg s x <= base x) -> forall x, reg s' x <= base x.
Proof.
  intros Hk Hr x. destruct (fbs s' !! x) eqn:E; [rewrite (reg_keeps s s') by (try rewrite E; done); apply Hr|].
  unfold reg at 1. rewrite E. specialize (Hr x). pose proof (reg_range s x). lia.
Qed.

Lemma held_base base s x : held base s -> 0 <= base x.
Proof. intros [_ Hr _]. specialize (Hr x). pose proof (reg_range s x). lia. Qed.

Lemma cnt_upper s x : 0 <= crtc_cnt s x <= Z.of_nat (length (crtcs s)) /\ 0 <= plane_cnt s x <= Z.of_nat (length (planes s)).
Proof.
  assert (forall {A} (f : A -> Z) l, (forall y, 0 <= f y <= 1) -> 0 <= total f l <= Z.of_nat (length l)) as Hle.
  { intros A f l Hf. induction l as [|y l IH]; simpl; [lia|]. specialize (Hf y). lia. }
  unfold crtc_cnt, plane_cnt. split.
  - pose proof (Hle _ (fun c => one (crtc_fb (drv s) c = Some x)) (seq 0 (length (crtcs s)))) as Hs.
    rewrite length_seq in Hs. apply Hs. intros. apply one_range.
  - apply Hle. intros. apply one_range.
Qed.

(** Changes of the driver's state that no CRTC notices. *)
Lemma dev_drv ext s d : dev_ok ext s -> dev_ok ext (set_drv d s).
Proof. by intros [H1 H2 H3 H4 H5 H6 H7 H8 H9 H10 H11 H12]. Qed.

Lemma keeps_drv s d : keeps s (set_drv d s).
Proof. split; try done. intros a f E. exists f. split; [done|]. by destruct f. Qed.

Lemma held_drv base s d : held base s -> (forall c, crtc_fb d c = crtc_fb (drv s) c) -> held base (set_drv d s).
Proof.
  intros [H1 H2 H3] E. split; try done. eapply cnt_ext; [|exact H1]. intros x. simpl. f_equal. f_equal.
  unfold crtc_cnt. apply total_ext. intros c _. simpl. by rewrite E.
Qed.

(** Changes of fields of CRTCs and planes that no one counts. *)
Lemma dev_crtcs ext s l : dev_ok ext s -> map (set_old_fb None) l = map (set_old_fb None) (crtcs s) -> dev_ok ext (set_crtcs l s).
Proof.
  intros [H1 H2 H3 H4 H5 H6 H7 H8 H9 H10 H11 H12] E. split; try done. intros n p Hp. destruct (H4 n p Hp) as (o & Ho & Hn).
  exists o. split; [|done]. destruct p as [a|c|p|a]; try done. simpl in *.
  assert (forall (k : list crtc) i, c_base <$> k !! i = c_base <$> map (set_old_fb None) k !! i) as Hmap.
  { intros k i. rewrite list_lookup_fmap. by destruct (k !! i). }
  by rewrite Hmap, E, <-Hmap.
Qed.

Lemma dev_planes ext s l : dev_ok ext s -> map (show None None) l = map (show None None) (planes s) -> dev_ok ext (set_planes l s).
Proof.
  intros [H1 H2 H3 H4 H5 H6 H7 H8 H9 H10 H11 H12] E. split; try done. intros n p Hp. destruct (H4 n p Hp) as (o & Ho & Hn).
  exists o. split; [|done]. destruct p as [a|c|p|a]; try done. simpl in *.
  assert (forall (k : list plane) i, p_base <$> k !! i = p_base <$> map (show None None) k !! i) as Hmap.
  { intros k i. rewrite list_lookup_fmap. by destruct (k !! i). }
  by rewrite Hmap, E, <-Hmap.
Qed.

Lemma map_alter {A B} (f : A -> B) (g : A -> A) i l : (forall y, f (g y) = f y) -> map f (alter g i l) = map f l.
Proof.
  intros E. revert i. induction l as [|y l IH]; intros [|i]; simpl; try done; [by rewrite E|]. f_equal. apply IH.
Qed.

Lemma keeps_set_crtcs s l : map (set_old_fb None) l = map (set_old_fb None) (crtcs s) -> keeps s (set_crtcs l s).
Proof. intros E. split; try done. intros a f Ef. exists f. split; [done|]. by destruct f. Qed.
Lemma keeps_set_planes s l : map (show None None) l = map (show None None) (planes s) -> keeps s (set_planes l s).
Proof. intros E. split; try done. intros a f Ef. exists f. split; [done|]. by destruct f. Qed.

(** ** The configuration of a CRTC *)

(** The first loop notes what every CRTC shows. *)
Lemma note_old_run ext r s : dev_ok ext s -> cnt_ok r s ->
  wp (for_ (seq 0 (length (crtcs s))) (fun c => fb ← fb_of c; upd_crtc c (set_old_fb fb)))
    (fun _ s' => dev_ok ext s' /\ cnt_ok r s' /\ keeps s s' /\ drv s' = drv s /\ planes s' = planes s /\
       forall c, (c < length (crtcs s))%nat -> exists cr, crtcs s' !! c = Some cr /\ old_fb cr = crtc_fb (drv s) c) s.
Proof.
  intros Hd Hc. apply (wp_for (fun l1 _ s' => dev_ok ext s' /\ cnt_ok r s' /\ keeps s s' /\ drv s' = drv s /\
    planes s' = planes s /\ forall c, c ∈ l1 -> exists cr, crtcs s' !! c = Some cr /\ old_fb cr = crtc_fb (drv s) c)).
  - split_and!; try done. intros c Hin. by apply elem_of_nil in Hin.
  - intros l1 c l2 s1 El (Hd1 & Hc1 & Hk1 & Dr1 & P1 & Ho1). rewrite wp_bind, wp_fb_of.
    assert (c < length (crtcs s1))%nat as Hlt.
    { rewrite (keeps_crtcs s s1 Hk1). assert (c ∈ seq 0 (length (crtcs s))) as Hin by (rewrite El; set_solver).
      apply elem_of_seq in Hin. lia. }
    destruct (lookup_lt_is_Some_2 _ _ Hlt) as [cr Ecr]. apply (wp_crtc_upd c cr); [done|].
    assert (map (set_old_fb None) (alter (set_old_fb (crtc_fb (drv s1) c)) c (crtcs s1)) = map (set_old_fb None) (crtcs s1)) as Em
      by by apply map_alter.
    split; [by apply dev_crtcs|]. split; [done|]. split; [etrans; [done|by apply keeps_set_crtcs]|]. split; [done|].
    split; [done|]. intros c' Hc'. simpl. apply elem_of_app in Hc' as [Hc'|Hc'%list_elem_of_singleton].
    + destruct (decide (c = c')) as [<-|Hne]; [|rewrite list_lookup_alter_ne by done; by apply Ho1].
      rewrite list_lookup_alter_eq, Ecr. eexists. split; [done|]. simpl. by rewrite Dr1.
    + subst c'. rewrite list_lookup_alter_eq, Ecr. eexists. split; [done|]. simpl. by rewrite Dr1.
  - intros s1 (Hd1 & Hc1 & Hk1 & Dr1 & P1 & Ho1). split_and!; try done. intros c Hlt. apply Ho1, elem_of_seq. lia.
Qed.

(** The second takes a reference for what each shows now and gives up the old one. *)
Lemma swap_refs_run ext base set d s : dev_ok ext s ->
  (forall x, 0 <= base x /\ base x + 2 * Z.of_nat (length (crtcs s)) + 2 < 2 ^ 32) ->
  (forall x, reg s x <= base x) -> (forall a, set_fb set = Some a -> 1 <= base a) ->
  (forall c, crtc_fb (drv s) c = crtc_fb d c \/ crtc_fb (drv s) c = None \/ crtc_fb (drv s) c = set_fb set) ->
  (forall c, (c < length (crtcs s))%nat -> exists cr, crtcs s !! c = Some cr /\ old_fb cr = crtc_fb d c) ->
  cnt_ok (fun x => base x + total (fun c => one (crtc_fb d c = Some x)) (seq 0 (length (crtcs s)))) s ->
  wp (for_ (seq 0 (length (crtcs s))) (fun c =>
        fb ← fb_of c;
        _ ← (match fb with Some a => drm_framebuffer_reference a | None => mret tt end);
        c ← get_crtc c;
        unref_opt (old_fb c)))
    (fun _ s' => dev_ok ext s' /\ same s s' /\ cnt_ok (fun x => base x + crtc_cnt s' x) s') s.
Proof.
  intros Hd Hb Hr Hset Hlaw Hold Hc. set (n := length (crtcs s)) in *.
  set (new := fun x c => one (crtc_fb (drv s) c = Some x)). set (old := fun x c => one (crtc_fb d c = Some x)).
  assert (forall A (f : A -> Z) l, (forall y, 0 <= f y <= 1) -> 0 <= total f l <= Z.of_nat (length l)) as Hle.
  { intros A f l Hf. induction l as [|y l IH]; simpl; [lia|]. specialize (Hf y). lia. }
  apply (wp_for (fun l1 l2 s' => dev_ok ext s' /\ same s s' /\
    cnt_ok (fun x => base x + total (new x) l1 + total (old x) l2) s')).
  - split; [done|]. split; [done|]. eapply cnt_ext; [|exact Hc]. intros x. change (total (new x) []) with 0. unfold old. lia.
  - intros l1 c l2 s1 El (Hd1 & Hs1 & Hc1). rewrite wp_bind, wp_fb_of, wp_bind, (sm_drv _ _ Hs1).
    assert (c < n)%nat as Hlt.
    { assert (c ∈ seq 0 n) as Hin by (rewrite El; set_solver). apply elem_of_seq in Hin. lia. }
    assert (length l1 + S (length l2) = n)%nat as Hlen.
    { pose proof (f_equal length El) as E. rewrite length_seq, length_app in E. simpl in E. lia. }
    destruct (Hold c Hlt) as (cr & Ecr & Eold).
    assert (forall x, 0 <= total (new x) l1 <= Z.of_nat (length l1) /\ 0 <= total (old x) l2 <= Z.of_nat (length l2)) as Hn
      by (intros x; split; apply Hle; intros; apply one_range).
    assert (wp (match crtc_fb (drv s) c with Some a => drm_framebuffer_reference a | None => mret tt end)
      (fun _ s2 => dev_ok ext s2 /\ same s1 s2 /\
        cnt_ok (fun x => base x + total (new x) l1 + new x c + total (old x) (c :: l2)) s2) s1) as Href.
    { destruct (crtc_fb (drv s) c) as [a|] eqn:Ea.
      - unfold drm_framebuffer_reference. specialize (Hb a). specialize (Hn a).
        assert (0 < base a + total (new a) l1 + total (old a) (c :: l2) /\
                base a + total (new a) l1 + total (old a) (c :: l2) + 1 < 2 ^ 32) as [Hpos Hmax].
        { rewrite total_cons. assert (0 <= old a c <= 1) by apply one_range.
          assert (1 <= base a \/ old a c = 1) as Hor; [|lia].
          destruct (Hlaw c) as [E|[E|E]]; rewrite Ea in E; [right|done|left; by apply Hset].
          unfold old. rewrite <-E. by apply one_yes. }
        eapply wp_mono; [exact (kref_get_run ext _ s1 a Hd1 Hc1 Hpos Hmax)|]. intros [] s2 (Hd2 & Hc2 & Hs2). split; [done|]. split; [done|].
        eapply cnt_ext; [|exact Hc2]. intros x. simpl. unfold new at 3. rewrite Ea.
        rewrite (one_iff (x = a) (Some a = Some x)) by naive_solver. lia.
      - apply wp_ret. split; [done|]. split; [done|]. eapply cnt_ext; [|exact Hc1]. intros x. simpl. unfold new at 3.
        rewrite Ea, one_no by done. lia. }
    eapply wp_mono; [exact Href|]. intros [] s2 (Hd2 & Hs2 & Hc2). rewrite wp_bind.
    assert (same s s2) as Hs02 by (by etrans).
    apply (wp_crtc_get c cr); [by rewrite (sm_crtcs _ _ Hs02)|]. rewrite Eold. unfold unref_opt.
    destruct (crtc_fb d c) as [b|] eqn:Eb.
    + specialize (Hb b). specialize (Hn b). assert (0 <= new b c <= 1) by apply one_range.
      assert (old b c = 1) as Hone by (unfold old; rewrite Eb; by apply one_yes).
      eapply wp_mono; [eapply (unref_run ext _ s2 b Hd2 Hc2)|].
      * rewrite total_cons, Hone. lia.
      * rewrite total_cons, Hone. pose proof (reg_le base s s2 (same_keeps _ _ Hs02) Hr b). lia.
      * intros [] s3 (Hd3 & Hc3 & Hs3). split; [done|]. split; [by etrans|]. eapply cnt_ext; [|exact Hc3]. intros x.
        assert (old x c = one (x = b)) as Eo by (unfold old; rewrite Eb; apply one_iff; naive_solver).
        rewrite total_app, !total_cons, Eo. change (total (new x) []) with 0. lia.
    + apply wp_ret. split; [done|]. split; [done|]. eapply cnt_ext; [|exact Hc2]. intros x.
      assert (old x c = 0) as Eo by (unfold old; rewrite Eb; by apply one_no).
      rewrite total_app, !total_cons, Eo. change (total (new x) []) with 0. lia.
  - intros s1 (Hd1 & Hs1 & Hc1). split; [done|]. split; [done|]. eapply cnt_ext; [|exact Hc1]. intros x.
    unfold crtc_cnt. rewrite (sm_drv _ _ Hs1), (sm_crtcs _ _ Hs1). fold n (new x). change (total (old x) []) with 0. lia.
Qed.

Lemma set_config_internal_run ext base set s : dev_ok ext s -> held base s -> (forall a, set_fb set = Some a -> 1 <= base a) ->
  wp (drm_mode_set_config_internal set)
    (fun ret s' => dev_ok ext s' /\ held base s' /\ keeps s s' /\ planes s' = planes s /\
       (ret, drv s') = set_config set (drv s)) s.
Proof.
  intros Hd Hh Hset. unfold drm_mode_set_config_internal. rewrite wp_bind, wp_gets, wp_bind.
  eapply wp_mono; [by apply (note_old_run ext _ s Hd (h_cnt _ _ Hh))|]. intros [] s1 (Hd1 & Hc1 & Hk1 & Dr1 & P1 & Ho1).
  rewrite wp_bind, wp_call, wp_bind, Dr1. set (d' := (set_config set (drv s)).2). set (ret := (set_config set (drv s)).1).
  assert (length (crtcs (set_drv d' s1)) = length (crtcs s)) as Hlen by (simpl; by apply keeps_crtcs).
  rewrite <-Hlen. eapply wp_mono.
  - apply (swap_refs_run ext (fun x => base x + plane_cnt s x) set (drv s)).
    + by apply dev_drv.
    + intros x. pose proof (held_base _ _ x Hh). pose proof (h_fits _ _ Hh x). pose proof (cnt_upper s x). rewrite Hlen. lia.
    + intros x. pose proof (reg_le base s (set_drv d' s1)) as Hr. pose proof (cnt_upper s x).
      assert (reg (set_drv d' s1) x <= base x); [|lia]. apply Hr; [|apply Hh]. etrans; [done|apply keeps_drv].
    + intros a Ha. pose proof (Hset a Ha). pose proof (cnt_upper s a). lia.
    + intros c. apply set_config_fb.
    + intros c Hlt. simpl in *. rewrite Hlen in Hlt. by apply Ho1.
    + rewrite Hlen. eapply cnt_ext; [|exact Hc1]. intros x. simpl. unfold crtc_cnt. lia.
  - intros [] s2 (Hd2 & Hs2 & Hc2). apply wp_ret. assert (keeps s s2) as Hk2.
    { etrans; [exact Hk1|]. etrans; [apply (keeps_drv s1 d')|by apply same_keeps]. }
    split; [done|]. split; [|split; [done|split]].
    + split.
      * eapply cnt_ext; [|exact Hc2]. intros x. simpl. unfold plane_cnt. rewrite (sm_planes _ _ Hs2). simpl. rewrite P1. lia.
      * by apply (reg_le base s), Hh.
      * intros x. unfold plane_cnt. rewrite (keeps_crtcs s s2), (sm_planes _ _ Hs2) by done. simpl. rewrite P1. apply Hh.
    + rewrite (sm_planes _ _ Hs2). done.
    + rewrite (sm_drv _ _ Hs2). simpl. unfold ret, d'. by destruct (set_config set (drv s)).
Qed.

(** ** Planes *)

(** A plane that shows something else: the references follow. *)
Lemma plane_cnt_alter s p pl c f x : planes s !! p = Some pl ->
  plane_cnt (set_planes (alter (show c f) p (planes s)) s) x = plane_cnt s x - one (p_fb pl = Some x) + one (f = Some x).
Proof. intros Hp. unfold plane_cnt. simpl. by rewrite (total_alter _ _ _ _ pl) by done. Qed.

Lemma show_alter c f p (l : list plane) : map (show None None) (alter (show c f) p l) = map (show None None) l.
Proof. by apply map_alter. Qed.

Lemma force_disable_run ext base s p pl : dev_ok ext s -> held base s -> planes s !! p = Some pl ->
  (forall a, p_fb pl = Some a -> 1 <= base a) ->
  wp (drm_plane_force_disable p) (fun _ s' => dev_ok ext s' /\ held base s' /\ keeps s s' /\
    (forall c, crtc_fb (drv s') c = crtc_fb (drv s) c) /\
    (exists pl', planes s' !! p = Some pl' /\ p_fb pl' = None) /\ forall q, q <> p -> planes s' !! q = planes s !! q) s.
Proof.
  intros Hd Hh Ep Hb. unfold drm_plane_force_disable. rewrite wp_bind. apply (wp_get_plane p pl); [done|].
  destruct (p_fb pl) as [a|] eqn:Ea.
  2: { apply wp_ret. split_and!; try done. by exists pl. }
  specialize (Hb a eq_refl). rewrite wp_bind, wp_call, wp_bind. set (s1 := set_drv _ s).
  assert (forall c, crtc_fb (drv s1) c = crtc_fb (drv s) c) as Hfb by (intros c; apply disable_plane_fb).
  assert (dev_ok ext s1 /\ held base s1) as [Hd1 Hh1] by (split; [by apply dev_drv|by apply held_drv]).
  pose proof (h_fits _ _ Hh1 a) as Hf. pose proof (cnt_upper s1 a) as Hu.
  assert (1 <= plane_cnt s1 a) as Hp1.
  { unfold plane_cnt. etrans; [|apply (total_pos _ _ pl); [intros; apply one_range|by eapply list_elem_of_lookup_2]].
    simpl. by rewrite one_yes. }
  eapply wp_mono; [eapply (unref_bug_run ext _ s1 a Hd1 (h_cnt _ _ Hh1)); simpl; lia|].
  intros [] s2 (Hd2 & Hc2 & Hs2). assert (planes s2 = planes s) as P2 by (by rewrite (sm_planes _ _ Hs2)).
  apply (wp_upd_plane p pl); [by rewrite P2|].
  pose proof (show_alter None None p (planes s2)) as Hsh.
  assert (keeps s (set_planes (alter (show None None) p (planes s2)) s2)) as Hk.
  { etrans; [apply (keeps_drv s)|]. etrans; [apply same_keeps, Hs2|by apply keeps_set_planes]. }
  split; [by apply dev_planes|]. split; [|split; [done|split; [|split]]].
  - split.
    + eapply cnt_ext; [|exact Hc2]. intros x. simpl. rewrite (plane_cnt_alter s2 p pl) by (by rewrite P2).
      rewrite Ea, (one_no (None = Some x)) by done. unfold crtc_cnt, plane_cnt. simpl.
      rewrite (sm_drv _ _ Hs2), (sm_crtcs _ _ Hs2), P2. simpl.
      rewrite (one_iff (x = a) (Some a = Some x)) by naive_solver. lia.
    + by apply (reg_le base s), Hh.
    + intros x. rewrite (keeps_crtcs s _ Hk), (plane_cnt_alter s2 p pl) by (by rewrite P2).
      rewrite (one_no (None = Some x)) by done. pose proof (h_fits _ _ Hh x) as Hfx. unfold plane_cnt in *. rewrite P2.
      pose proof (one_range (p_fb pl = Some x)). lia.
  - intros c. simpl. rewrite (sm_drv _ _ Hs2). apply Hfb.
  - simpl. rewrite list_lookup_alter_eq, P2, Ep. by eexists.
  - intros q Hq. simpl. rewrite list_lookup_alter_ne by done. by rewrite P2.
Qed.

Lemma in_seq_split n l1 i l2 : seq 0 n = l1 ++ i :: l2 -> (i < n)%nat.
Proof. intros El. assert (i ∈ seq 0 n) as Hin by (rewrite El; set_solver). apply elem_of_seq in Hin. lia. Qed.

(** ** Removal and the console *)

(** After it no plane shows the framebuffer, whatever the driver answers. *)
Lemma remove_users_run ext base s a : dev_ok ext s -> held base s -> 1 <= base a ->
  wp (remove_users a) (fun _ s' => dev_ok ext s' /\ held base s' /\ keeps s s' /\
    (forall p pl, planes s' !! p = Some pl -> p_fb pl <> Some a)) s.
Proof.
  intros Hd Hh Hb. unfold remove_users. rewrite wp_bind, wp_gets, wp_bind.
  apply (wp_for (fun _ _ s' => dev_ok ext s' /\ held base s' /\ keeps s s')); [done| |].
  - intros _ c _ s1 _ (Hd1 & Hh1 & Hk1). rewrite wp_bind, wp_fb_of. case_bool_decide; [|by apply wp_ret].
    rewrite wp_bind. eapply wp_mono; [by apply (set_config_internal_run ext base _ s1 Hd1 Hh1)|].
    intros ret s2 (Hd2 & Hh2 & Hk2 & _). apply wp_ret. split_and!; [done..|by etrans].
  - intros s1 (Hd1 & Hh1 & Hk1). rewrite wp_bind, wp_gets.
    apply (wp_for (fun l1 _ s' => dev_ok ext s' /\ held base s' /\ keeps s s' /\
      forall p pl, p ∈ l1 -> planes s' !! p = Some pl -> p_fb pl <> Some a)).
    + split_and!; try done. intros p pl Hp. by apply elem_of_nil in Hp.
    + intros l1 p l2 s2 El (Hd2 & Hh2 & Hk2 & Hn2). assert (p < length (planes s2))%nat as Hlt.
      { rewrite (keeps_planes s s2), <-(keeps_planes s s1) by done. by eapply in_seq_split. }
      destruct (lookup_lt_is_Some_2 _ _ Hlt) as [pl Ep]. rewrite wp_bind. apply (wp_get_plane p pl); [done|].
      case_bool_decide as Hpa.
      * eapply wp_mono; [apply (force_disable_run ext base s2 p pl Hd2 Hh2 Ep); intros b Hb'; congruence|].
        intros [] s3 (Hd3 & Hh3 & Hk3 & _ & (pl' & Ep' & Hpl') & Ho3). split_and!; [done..|by etrans|].
        intros q ql Hq Eq. destruct (decide (q = p)) as [->|Hne]; [congruence|]. rewrite Ho3 in Eq by done.
        apply (Hn2 q ql); [set_solver|done].
      * apply wp_ret. split_and!; [done..|]. intros q ql Hq Eq. apply elem_of_app in Hq as [Hq|Hq%list_elem_of_singleton].
        -- by apply (Hn2 q ql).
        -- subst q. congruence.
    + intros s2 (Hd2 & Hh2 & Hk2 & Hn2). split_and!; try done. intros p pl Ep. apply (Hn2 p pl); [|done].
      apply elem_of_seq. split; [lia|]. apply lookup_lt_Some in Ep.
      rewrite (keeps_planes s s2), <-(keeps_planes s s1) in Ep by done. lia.
Qed.

(** The console comes back when every framebuffer on a plane is held by somebody else. *)
Lemma restore_run ext base s sets : dev_ok ext s -> held base s ->
  (forall p pl a, planes s !! p = Some pl -> p_fb pl = Some a -> 1 <= base a) ->
  (forall set a, set ∈ sets -> set_fb set = Some a -> 1 <= base a) ->
  wp (drm_fb_helper_restore_fbdev_mode sets) (fun _ s' => dev_ok ext s' /\ held base s' /\ keeps s s' /\
    (forall p pl, planes s' !! p = Some pl -> p_fb pl = None)) s.
Proof.
  intros Hd Hh Hpl Hsets. unfold drm_fb_helper_restore_fbdev_mode. rewrite wp_bind, wp_gets, wp_bind.
  apply (wp_for (fun l1 l2 s' => dev_ok ext s' /\ held base s' /\ keeps s s' /\
    (forall p pl a, planes s' !! p = Some pl -> p_fb pl = Some a -> 1 <= base a) /\
    forall p pl, p ∈ l1 -> planes s' !! p = Some pl -> p_fb pl = None)).
  - split_and!; try done. intros p pl Hp. by apply elem_of_nil in Hp.
  - intros l1 p l2 s1 El (Hd1 & Hh1 & Hk1 & Hp1 & Hn1). assert (p < length (planes s1))%nat as Hlt.
    { rewrite (keeps_planes s s1) by done. by eapply in_seq_split. }
    destruct (lookup_lt_is_Some_2 _ _ Hlt) as [pl Ep].
    eapply wp_mono; [apply (force_disable_run ext base s1 p pl Hd1 Hh1 Ep); intros b Hb; by apply (Hp1 p pl)|].
    intros [] s2 (Hd2 & Hh2 & Hk2 & _ & (pl' & Ep' & Hpl') & Ho2). split_and!; [done..|by etrans| |].
    + intros q ql a Eq Ea. destruct (decide (q = p)) as [->|Hne]; [congruence|]. rewrite Ho2 in Eq by done. by apply (Hp1 q ql).
    + intros q ql Hq Eq. destruct (decide (q = p)) as [->|Hne]; [congruence|]. rewrite Ho2 in Eq by done.
      apply (Hn1 q ql); [set_solver|done].
  - intros s1 (Hd1 & Hh1 & Hk1 & _ & Hn1).
    assert (forall p pl, planes s1 !! p = Some pl -> p_fb pl = None) as Hoff.
    { intros p pl Ep. apply (Hn1 p pl); [|done]. apply elem_of_seq. apply lookup_lt_Some in Ep.
      rewrite (keeps_planes s s1) in Ep by done. lia. }
    clear Hn1 Hpl. revert s1 Hd1 Hh1 Hk1 Hoff. generalize false as err.
    induction sets as [|set sets IH]; intros err s1 Hd1 Hh1 Hk1 Hoff; [by apply wp_ret|]. cbn [restore_sets].
    rewrite wp_bind. apply (wp_mono _ (fun _ s' => dev_ok ext s' /\ held base s' /\ keeps s s' /\ planes s' = planes s1)).
    { destruct has_cursor_set; [|by apply wp_ret]. rewrite wp_call.
      split_and!; [by apply dev_drv|apply held_drv; [done|intros; apply cursor_off_fb]|etrans; [done|apply keeps_drv]|done]. }
    intros r1 s2 (Hd2 & Hh2 & Hk2 & P2). rewrite wp_bind.
    eapply wp_mono; [apply (set_config_internal_run ext base set s2 Hd2 Hh2); intros a; apply Hsets; by left|].
    intros r2 s3 (Hd3 & Hh3 & Hk3 & P3 & _). apply IH; try done.
    + intros set' a Hs. apply Hsets. by right.
    + by etrans.
    + intros p pl. rewrite P3, P2. apply Hoff.
Qed.
End Show.
