(* ===== verification/FbLife.v ===== *)
(** * Framebuffers: identifiers, lookups, creation and removal

    The operations that give out identifiers and references: looking up a framebuffer,
    making one for an object of the user, taking its identifier away, and removing it.
    All allocations succeed here; what a failed one does is in FbRuns. *)

From S2P Require Import Prelude Sums HandleTable Idr Modes Gem Tiling FbFormat Framebuffer ModeIoctl FbFacts FbShow.

Open Scope Z_scope.

Section Life.
Context {G T D : Type} `{HandleTableLaws G T oid} `{KmsLaws D}.
Abbreviation device := (device (G := G) (T := T) (D := D)).
Implicit Types (s : device) (base : nat -> Z) (a x : nat).

(** ** Finding *)

Lemma obj_find_run ext s n type : dev_ok ext s ->
  wp (drm_mode_object_find n type) (fun r s' => s' = s /\
    (forall p, r = Some p -> used_ids (crtc_idr s) !! n = Some p /\ exists o, base_at s p = Some o /\ obj_type o = type /\ type_ok p o)) s.
Proof.
  intros Hd. unfold drm_mode_object_find. rewrite wp_bind, wp_gets. unfold idr_find.
  destruct (used_ids (crtc_idr s) !! n) as [p|] eqn:Ep; [|by apply wp_ret].
  destruct (d_base _ _ Hd n p Ep) as (o & Ho & Hn & Ht). rewrite wp_bind. apply (wp_base_of p _ _ o); [done|]. apply wp_ret.
  split; [done|]. intros q. destruct (Z.eqb_spec (obj_type o) type) as [E|]; [|done]. simpl.
  destruct (negb (id o =? n)); [done|]. intros [= <-]. split; [done|]. by exists o.
Qed.

Lemma find_crtc_run ext s n : dev_ok ext s ->
  wp (find_crtc n) (fun r s' => s' = s /\
    (forall c, r = Some c -> used_ids (crtc_idr s) !! n = Some (PCrtc c) /\ is_Some (crtcs s !! c))) s.
Proof.
  intros Hd. unfold find_crtc. rewrite wp_bind. eapply wp_mono; [by apply (obj_find_run ext s n)|].
  intros r s' [-> Hr]. apply wp_ret. split; [done|]. intros c Hc. destruct r as [[| | |]|]; try done. injection Hc as ->.
  destruct (Hr _ eq_refl) as (Hu & o & Ho & _). split; [done|]. simpl in Ho. by destruct (crtcs s !! c).
Qed.

Lemma find_plane_run ext s n : dev_ok ext s ->
  wp (find_plane n) (fun r s' => s' = s /\ (forall p, r = Some p -> is_Some (planes s !! p))) s.
Proof.
  intros Hd. unfold find_plane. rewrite wp_bind. eapply wp_mono; [by apply (obj_find_run ext s n)|].
  intros r s' [-> Hr]. apply wp_ret. split; [done|]. intros c Hc. destruct r as [[| | |]|]; try done. injection Hc as ->.
  destruct (Hr _ eq_refl) as (Hu & o & Ho & _). simpl in Ho. by destruct (planes s !! c).
Qed.

(** A framebuffer is found by its identifier, while it has one. *)
Lemma fb_lookup_run ext s n : dev_ok ext s ->
  wp (__drm_framebuffer_lookup n) (fun r s' => s' = s /\
    match r with
    | Some a => used_ids (crtc_idr s) !! n = Some (PFb a) /\ reg s a = 1 /\ is_Some (fbs s !! a)
    | None => forall a, used_ids (crtc_idr s) !! n <> Some (PFb a)
    end) s.
Proof.
  intros Hd. unfold __drm_framebuffer_lookup. rewrite wp_bind, wp_gets. unfold idr_find.
  destruct (used_ids (crtc_idr s) !! n) as [p|] eqn:Ep; [|by apply wp_ret].
  destruct (d_base _ _ Hd n p Ep) as (o & Ho & Hn & Ht). rewrite wp_bind. apply (wp_base_of p _ _ o); [done|]. apply wp_ret.
  split; [done|]. rewrite Hn, Z.eqb_refl, orb_false_r. simpl.
  destruct p as [a|c|p|a]; simpl in Ht, Ho.
  - rewrite Ht, Z.eqb_refl. simpl. split; [done|]. unfold reg. destruct (fbs s !! a) as [f|]; [|done].
    injection Ho as Ho. rewrite one_yes by (by rewrite Ho, Hn). done.
  - rewrite Ht. by destruct (negb _).
  - rewrite Ht. by destruct (negb _).
  - by destruct Ht as [-> | ->].
Qed.

(** One more reference of somebody. *)
Definition plus (base : nat -> Z) a (d : Z) : nat -> Z := fun x => base x + d * one (x = a).

Lemma plus_eq base a d : plus base a d a = base a + d.
Proof. unfold plus. rewrite one_yes by done. lia. Qed.
Lemma plus_ne base a d x : x <> a -> plus base a d x = base x.
Proof. intros. unfold plus. rewrite one_no by done. lia. Qed.

Definition fits s (base : nat -> Z) : Prop :=
  forall x, base x + plane_cnt s x + 2 * Z.of_nat (length (crtcs s)) + 2 < 2 ^ 32.

Lemma held_same base base' s s' : held base s -> same s s' -> (forall x, reg s x <= base' x) -> fits s base' ->
  cnt_ok (fun x => base' x + crtc_cnt s x + plane_cnt s x) s' -> held base' s'.
Proof.
  intros Hh Hs Hr Hf Hc. split.
  - eapply cnt_ext; [|exact Hc]. intros x. unfold crtc_cnt, plane_cnt. by rewrite (sm_drv _ _ Hs), (sm_crtcs _ _ Hs), (sm_planes _ _ Hs).
  - by apply (reg_le base' s s' (same_keeps _ _ Hs)).
  - intros x. unfold plane_cnt. rewrite (sm_crtcs _ _ Hs), (sm_planes _ _ Hs). apply Hf.
Qed.

Lemma kref_held ext base s a : dev_ok ext s -> held base s -> fits s (plus base a 1) ->
  0 < base a + crtc_cnt s a + plane_cnt s a ->
  wp (kref_get a) (fun _ s' => dev_ok ext s' /\ held (plus base a 1) s' /\ same s s') s.
Proof.
  intros Hd Hh Hf Hp. pose proof (Hf a) as Hfa. rewrite plus_eq in Hfa. pose proof (cnt_upper s a).
  eapply wp_mono; [eapply (kref_get_run ext _ s a Hd (h_cnt _ _ Hh)); simpl; lia|].
  intros [] s' (Hd' & Hc' & Hs'). split; [done|]. split; [|done]. apply (held_same base _ s); try done.
  - intros x. pose proof (h_reg _ _ Hh x). pose proof (one_range (x = a)). unfold plus. lia.
  - eapply cnt_ext; [|exact Hc']. intros x. unfold plus. simpl. lia.
Qed.

Lemma lookup_held ext base s n : dev_ok ext s -> held base s -> (forall a, fits s (plus base a 1)) ->
  wp (drm_framebuffer_lookup n) (fun r s' =>
    match r with
    | Some a => used_ids (crtc_idr s) !! n = Some (PFb a) /\ reg s a = 1 /\
        dev_ok ext s' /\ held (plus base a 1) s' /\ same s s' /\ is_Some (fbs s' !! a)
    | None => s' = s
    end) s.
Proof.
  intros Hd Hh Hf. unfold drm_framebuffer_lookup. rewrite wp_bind. eapply wp_mono; [by apply (fb_lookup_run ext s n)|].
  intros [a|] s' [-> Hr]; [|by apply wp_ret]. destruct Hr as (Hu & Hreg & Hl). rewrite wp_bind.
  pose proof (h_reg _ _ Hh a). pose proof (cnt_upper s a).
  eapply wp_mono; [apply (kref_held ext base s a Hd Hh (Hf a)); lia|].
  intros [] s' (Hd' & Hh' & Hs'). apply wp_ret. split_and!; try done.
  destruct (cnt_live _ s' a (h_cnt _ _ Hh')) as (f & Ef & _); [|by rewrite Ef].
  pose proof (cnt_upper s' a). rewrite plus_eq. lia.
Qed.

(** A reference that is given up; it is not the one of the identifier. *)
Lemma unref_held ext base s a : dev_ok ext s -> held (plus base a 1) s -> (forall x, reg s x <= base x) ->
  wp (drm_framebuffer_unreference a) (fun _ s' => dev_ok ext s' /\ held base s' /\ same s s') s.
Proof.
  intros Hd Hh Hr. pose proof (h_fits _ _ Hh a) as Hf. pose proof (cnt_upper s a). pose proof (Hr a). pose proof (reg_range s a).
  rewrite plus_eq in Hf.
  eapply wp_mono; [eapply (unref_run ext _ s a Hd (h_cnt _ _ Hh)); rewrite plus_eq; lia|].
  intros [] s' (Hd' & Hc' & Hs'). split; [done|]. split; [|done]. apply (held_same (plus base a 1) _ s); try done.
  - intros x. pose proof (h_fits _ _ Hh x) as Hx. unfold plus in Hx. pose proof (one_range (x = a)). lia.
  - eapply cnt_ext; [|exact Hc']. intros x. unfold plus. simpl. lia.
Qed.

Lemma unref_opt_held ext base s f : dev_ok ext s -> held (fun x => base x + one (f = Some x)) s -> (forall x, reg s x <= base x) ->
  wp (unref_opt f) (fun _ s' => dev_ok ext s' /\ held base s' /\ same s s') s.
Proof.
  intros Hd [Hc Hg Hf] Hr. destruct f as [a|]; simpl.
  - apply (unref_held ext base s a Hd); [|done]. split; [|intros x; specialize (Hg x)|intros x; specialize (Hf x)].
    + eapply cnt_ext; [|exact Hc]. intros x. unfold plus. simpl. rewrite (one_iff (Some a = Some x) (x = a)) by naive_solver. lia.
    + unfold plus. rewrite (one_iff (x = a) (Some a = Some x)) by naive_solver. lia.
    + unfold plus. rewrite (one_iff (x = a) (Some a = Some x)) by naive_solver. lia.
  - apply wp_ret. split_and!; try done. split.
    + eapply cnt_ext; [|exact Hc]. intros x. simpl. rewrite one_no by done. lia.
    + done.
    + intros x. specialize (Hf x). rewrite one_no in Hf by done. lia.
Qed.

(** ** Identifiers *)

(** A fresh identifier is at least 1 and not in use. *)
Lemma new_id_run (i : idr pointer) (p : pointer) : idr_wf i -> idr_full i -> (exists n, 1 <= n < ID_MAX /\ used_ids i !! n = None) ->
  exists n i', idr_get_new_above i p 1 true = Some (0, Some n, i') /\ idr_wf i' /\ idr_full i' /\ 1 <= n /\
    used_ids i !! n = None /\ used_ids i' = <[n := p]> (used_ids i).
Proof.
  intros Hwf Hfull (n0 & Hn0 & Hu0). destruct (idr_get_new_above_run i p 1 true Hwf) as (ret & nid & i' & Hr & Hwf' & Ho); [done|].
  destruct Ho as [n i' Hid Hun Hin Hu Hav|Hneg|n i' Hok Hid Hin Hu Hav|i' Hu Hav Hno].
  - exists n, i'. split_and!; try done; [|lia]. intros x Hx Hxn. apply Hav. rewrite Hu, lookup_insert_None in Hxn.
    destruct Hxn. split; [by apply Hfull|done].
  - lia.
  - done.
  - destruct (Hno n0 Hn0). apply Hfull; [lia|done].
Qed.

Definition room_id s : Prop := exists n, 1 <= n < ID_MAX /\ used_ids (crtc_idr s) !! n = None.

(** What an operation on the identifier of one object leaves alone. *)
Record rest (p : pointer) s s' : Prop := {
  rs_crtcs : crtcs s' = crtcs s;
  rs_planes : planes s' = planes s;
  rs_drv : drv s' = drv s;
  rs_files : files s' = files s;
  rs_conn : num_connector s' = num_connector s /\ limits s' = limits s;
  rs_handles : object_idrs (objs s') = object_idrs (objs s) /\ counters (objs s') = counters (objs s);
  rs_ids : forall n q, q <> p -> used_ids (crtc_idr s') !! n = Some q <-> used_ids (crtc_idr s) !! n = Some q;
  rs_others : forall a, p <> POther a -> others s' !! a = others s !! a }.

(** ** Removing the identifier *)

Lemma unregister_run ext base s a : dev_ok ext s -> held (plus base a 1) s -> reg s a = 1 -> 1 <= base a ->
  wp (__drm_framebuffer_unregister a) (fun _ s' => dev_ok ext s' /\ held base s' /\
    (forall x, reg s' x = if decide (x = a) then 0 else reg s x) /\ is_Some (fbs s' !! a) /\
    rest (PFb a) s s' /\
    (forall x, is_Some (fbs s' !! x) <-> is_Some (fbs s !! x))) s.
Proof.
  intros Hd Hh Hreg Hb. destruct (cnt_live _ s a (h_cnt _ _ Hh)) as (f & Ef & _).
  { pose proof (cnt_upper s a). rewrite plus_eq. lia. }
  assert (used_ids (crtc_idr s) !! id (fb_base f) = Some (PFb a)) as Hu.
  { unfold reg, one in Hreg. rewrite Ef in Hreg. by case_decide. }
  unfold __drm_framebuffer_unregister. rewrite wp_bind. apply (wp_get_fb a f); [done|]. unfold put_id. rewrite !wp_bind.
  apply wp_next_id; [apply Hd|]. intros al Hal. rewrite wp_bind, wp_gets, wp_bind, wp_opt. simpl.
  destruct (idr_remove_run (crtc_idr s) (id (fb_base f)) true (d_idr _ _ Hd)) as (ret & i' & Hrm & Hwf' & Hfull' & Hm).
  rewrite Hu in Hm. destruct Hm as [-> Hu']. exists (0, i'). split; [done|]. simpl. rewrite wp_modify, wp_bind.
  apply (wp_upd_fb a f); [done|]. set (f' := set_fb_base _ f).
  set (s1 := set_fbs _ _).
  assert (forall n, used_ids i' !! n <> Some (PFb a)) as Hno.
  { intros n Hn. rewrite Hu' in Hn. apply lookup_delete_Some in Hn as [Hne Hn]. apply Hne.
    destruct (d_base _ _ Hd n _ Hn) as (o & Ho & <- & _). simpl in Ho. rewrite Ef in Ho. by injection Ho as <-. }
  assert (forall n p, used_ids i' !! n = Some p -> used_ids (crtc_idr s) !! n = Some p) as Hsub.
  { intros n p Hn. rewrite Hu' in Hn. by apply lookup_delete_Some in Hn as [_ Hn]. }
  assert (forall n p, p <> PFb a -> used_ids i' !! n = Some p <-> used_ids (crtc_idr s) !! n = Some p) as Heq.
  { intros n p Hp. split; [apply Hsub|]. intros Hn. rewrite Hu'. apply lookup_delete_Some. split; [|done]. intros <-. congruence. }
  assert (forall x, reg s1 x = if decide (x = a) then 0 else reg s x) as Hreg1.
  { intros x. unfold reg. simpl. destruct (decide (x = a)) as [->|Hne].
    - rewrite lookup_insert_eq. by apply one_no.
    - rewrite lookup_insert_ne by done. destruct (fbs s !! x); [|done]. apply one_iff, Heq. congruence. }
  assert (dev_ok ext s1) as Hd1.
  { destruct Hd as [H1 H2 H3 H4 H5 H6 H7 H8 H9 H10 H11 H12]. split; simpl; try done.
    - by apply Hfull'.
    - rewrite Hu'. apply lookup_delete_None. by right.
    - intros n p Hn. destruct (H4 n p (Hsub n p Hn)) as (o & Ho & Hno'). exists o. split; [|done].
      destruct p as [b|c|p|b]; try done. simpl in *. rewrite lookup_insert_ne; [done|]. intros <-. by apply (Hno n).
    - intros x. rewrite H6, lookup_insert_is_Some. destruct (decide (a = x)) as [->|Hne]; [|naive_solver].
      rewrite Ef. split; [by left|done].
    - intros x fx. destruct (decide (x = a)) as [->|Hne].
      + rewrite lookup_insert_eq. intros [= <-]. by apply (H8 a f).
      + rewrite lookup_insert_ne by done. by apply H8.
    - eapply inv_ext; [|exact H10]. intros o. simpl. unfold fbs_on. rewrite (mtotal_insert _ _ a f) by done. simpl. lia. }
  assert (cnt_ok (fun x => plus base a 1 x + crtc_cnt s x + plane_cnt s x) s1) as Hc1.
  { intros x. pose proof (h_cnt _ _ Hh x) as Hx. simpl. destruct (decide (x = a)) as [->|Hne].
    - rewrite lookup_insert_eq. rewrite Ef in Hx. done.
    - by rewrite lookup_insert_ne. }
  pose proof (h_fits _ _ Hh a) as Hf. pose proof (cnt_upper s a). rewrite plus_eq in Hf.
  eapply wp_mono; [eapply (unref_bug_run ext _ s1 a Hd1 Hc1); rewrite plus_eq; lia|].
  intros [] s2 (Hd2 & Hc2 & Hs2). split; [done|].
  assert (forall x, is_Some (fbs s2 !! x) <-> is_Some (fbs s !! x)) as Hdom.
  { intros x. rewrite <-(d_in _ _ Hd x). split.
    - intros [g Eg]. destruct (sm_fbs _ _ Hs2 x g Eg) as (g1 & Eg1 & _). simpl in Eg1. apply Hd.
      destruct (decide (x = a)) as [->|Hne]; [by rewrite Ef|]. rewrite lookup_insert_ne in Eg1 by done. by rewrite Eg1.
    - intros Hin%(d_in _ _ Hd). specialize (Hc2 x). destruct (fbs s2 !! x) eqn:E2; [done|]. simpl in Hc2.
      pose proof (h_cnt _ _ Hh x) as Hx. destruct Hin as [g Eg]. rewrite Eg in Hx.
      destruct (decide (x = a)) as [->|Hne]; [rewrite one_yes, plus_eq in Hc2 by done; lia|].
      rewrite one_no in Hc2 by done. lia. }
  assert (forall x, reg s2 x = if decide (x = a) then 0 else reg s x) as Hreg2.
  { intros x. destruct (fbs s2 !! x) as [g|] eqn:E2.
    - rewrite (reg_same s1 s2), Hreg1 by (try rewrite E2; done). done.
    - unfold reg. rewrite E2. case_decide; [done|]. destruct (fbs s !! x) eqn:E1; [|done].
      assert (is_Some (fbs s2 !! x)) as [? ?] by (apply Hdom; by rewrite E1). congruence. }
  split; [|split; [done|]].
  - split.
    + eapply cnt_ext; [|exact Hc2]. intros x. unfold plus, crtc_cnt, plane_cnt.
      rewrite (sm_drv _ _ Hs2), (sm_crtcs _ _ Hs2), (sm_planes _ _ Hs2). simpl. lia.
    + intros x. rewrite Hreg2. case_decide as Hx; [subst; lia|]. pose proof (h_reg _ _ Hh x) as Hr. by rewrite plus_ne in Hr.
    + intros x. pose proof (h_fits _ _ Hh x) as Hx. unfold plane_cnt, plus in *. rewrite (sm_crtcs _ _ Hs2), (sm_planes _ _ Hs2). simpl.
      pose proof (one_range (x = a)). lia.
  - split; [apply Hdom; by rewrite Ef|]. split; [|done]. destruct Hs2 as [E1 E2 E3 E4 E5 E6 E7 _ E9 _].
    split; try done; [intros n q Hq; rewrite E1; by apply Heq|intros b _; by rewrite E4].
Qed.

(** ** A new framebuffer *)

(** The state after it, whatever the framebuffer was. *)
Lemma fb_init_run s a f : idr_wf (crtc_idr s) -> idr_full (crtc_idr s) -> room_id s -> Forall (eq true) (id_allocs s) ->
  fbs s !! a = Some f ->
  wp (drm_framebuffer_init a) (fun ret s' => ret = 0 /\ exists n i' al, 1 <= n /\ used_ids (crtc_idr s) !! n = None /\
    used_ids i' = <[n := PFb a]> (used_ids (crtc_idr s)) /\ idr_wf i' /\ idr_full i' /\ Forall (eq true) al /\
    s' = set_fb_list (a :: fb_list s) (num_fb s + 1)
      (set_fbs (<[a := set_fb_refcount 2 (set_fb_base (mk_object n DRM_MODE_OBJECT_FB) f)]> (fbs s)) (set_idr i' (set_id_allocs al s)))) s.
Proof.
  intros Hwf Hfull Hroom Hal Ef. unfold drm_framebuffer_init. rewrite wp_bind. apply (wp_upd_fb a f); [done|].
  rewrite wp_bind. unfold drm_mode_object_get. rewrite wp_bind. apply wp_next_id; [done|]. intros al Hal'.
  rewrite wp_bind, wp_gets, wp_bind, wp_opt. simpl.
  destruct (new_id_run _ (PFb a) Hwf Hfull Hroom) as (n & i' & -> & Hwf' & Hfull' & Hn & Hun & Hu').
  eexists. split; [done|]. simpl. rewrite wp_bind, wp_modify, !wp_bind, wp_opt. eexists. split; [done|].
  eapply wp_upd_fb; [apply lookup_insert_eq|]. apply wp_ret. simpl. rewrite wp_bind, insert_insert_eq.
  unfold drm_framebuffer_reference, kref_get. rewrite wp_bind. eapply wp_upd_fb; [apply lookup_insert_eq|]. rewrite wp_modify.
  apply wp_ret. split; [done|]. exists n, i', al. do 6 (split; [done|]). simpl. by rewrite insert_insert_eq.
Qed.

(** With the reference of the identifier and one for the caller. *)
Lemma fb_create_run (c : chip) (tiling : oid -> Z * Z) ext base s r o kz : dev_ok (bump ext o 1) s -> (forall y : oid, 0 <= ext y) -> held base s -> room_id s ->
  (forall a, kz = Some a -> fbs s !! a = None) -> (forall a, fits s (plus base a 2)) ->
  wp (intel_framebuffer_create c tiling r o kz) (fun res s' => dev_ok ext s' /\
    match res with
    | Some a => kz = Some a /\ held (plus base a 2) s' /\ reg s' a = 1 /\ (forall y, y <> a -> reg s' y = reg s y) /\ rest (PFb a) s s'
    | None => held base s' /\ same s s'
    end) s.
Proof.
  intros Hd Hext Hh Hroom Hkz Hf. destruct Hd as [H1 H2 H3 H4 H5 H6 H7 H8 H9 H10 H11 H12].
  assert (forall m, (forall y, y <> o -> fbs_on y m = fbs_on y (fbs s)) -> fbs_on o m = fbs_on o (fbs s) ->
    forall s1, fbs s1 = m -> objs s1 = objs s -> wp (gem_unreference (D := D) o) (fun _ s2 => exists g,
      s2 = set_objs g s1 /\ gem_inv (fun y : oid => ext y + fbs_on y (fbs s)) (fun _ => 0) g /\ named_ok g /\
      counters g = counters (objs s) /\ object_idrs g = object_idrs (objs s)) s1) as Hdrop.
  { intros m Hm Hmo s1 Es1 Eo1. unfold gem_unreference. rewrite wp_on_gem, Eo1.
    assert (0 <= fbs_on o (fbs s)) by (apply mtotal_nonneg; intros; apply one_range).
    destruct (unreference_run _ _ (objs s) o H10 H11) as (g & Eg & Hg1 & Hg2 & Hg3 & Hg4 & Hg5 & Hg6 & _).
    { rewrite bump_eq. specialize (Hext o). lia. } { done. }
    exists tt, g. rewrite Eg. split; [done|]. exists g. split; [done|]. split; [|done].
    eapply inv_ext; [|exact Hg1]. intros y. unfold bump. case_decide; subst; lia. }
  assert (forall g, gem_inv (fun y : oid => ext y + fbs_on y (fbs s)) (fun _ => 0) g -> named_ok g ->
    counters g = counters (objs s) -> object_idrs g = object_idrs (objs s) ->
    dev_ok ext (set_objs g s) /\ held base (set_objs g s) /\ same s (set_objs g s)) as Hback.
  { intros g Hg1 Hg2 Hg3 Hg4. split; [by split|]. split; [by destruct Hh|]. split; try done. intros a f E. exists f.
    split; [done|]. by destruct f. }
  unfold intel_framebuffer_create. destruct kz as [a|].
  2: { rewrite wp_bind. eapply wp_mono; [by apply (Hdrop (fbs s))|]. intros [] s1 (g & -> & Hg1 & Hg2 & Hg3 & Hg4).
       apply wp_ret. by apply Hback. }
  specialize (Hkz a eq_refl). rewrite wp_bind, wp_modify, wp_bind. set (s1 := set_fbs _ s).
  unfold intel_framebuffer_init. destruct (negb (_ =? 0)) eqn:Echk.
  { apply wp_ret. rewrite Echk, wp_bind.
    eapply wp_mono; [apply (Hdrop (<[a := zero_fb]> (fbs s)))|]; try done.
    1,2: intros; unfold fbs_on; rewrite mtotal_insert_new by done; simpl; by rewrite one_no.
    intros [] s2 (g & -> & Hg1 & Hg2 & Hg3 & Hg4). rewrite wp_bind, wp_modify. apply wp_ret. simpl.
    rewrite delete_insert_id by done. replace (set_fbs _ _) with (set_objs g s) by by destruct s. by apply Hback. }
  rewrite wp_bind. eapply wp_upd_fb; [apply lookup_insert_eq|]. simpl. rewrite wp_bind, insert_insert_eq.
  set (f := mk_framebuffer _ _ _ _ _ _). set (s2 := set_fbs _ _).
  eapply wp_mono; [eapply (fb_init_run s2 a f); try done; apply lookup_insert_eq|].
  intros ret s3 (-> & n & i' & al & Hn & Hun & Hu' & Hwf' & Hfull' & Hal & ->). apply wp_ret. cbn [negb Z.eqb]. apply wp_ret.
  set (f2 := set_fb_refcount 2 _). set (s3 := set_fb_list _ _ _).
  assert (fbs s3 = <[a := f2]> (fbs s)) as Efbs by (simpl; by rewrite !insert_insert_eq).
  assert (crtc_idr s3 = i') as Eidr by done. simpl in Hun, Hu'.
  assert (reg s3 a = 1) as Hra.
  { unfold reg. rewrite Efbs, Eidr, lookup_insert_eq. apply one_yes. rewrite Hu'. apply lookup_insert_eq. }
  assert (forall y, y <> a -> reg s3 y = reg s y) as Hry.
  { intros y Hy. unfold reg. rewrite Efbs, Eidr, lookup_insert_ne by done. destruct (fbs s !! y) as [g|]; [|done].
    apply one_iff. rewrite Hu', lookup_insert_Some. split; [intros [[_ [= E]]|[_ Hg]]; [by destruct Hy|done]|].
    intros Hg. right. split; [|done]. intros ->. congruence. }
  assert (base a + crtc_cnt s a + plane_cnt s a = 0) as Hz by (pose proof (h_cnt _ _ Hh a) as Hx; by rewrite Hkz in Hx).
  assert (forall x, crtc_cnt s3 x = crtc_cnt s x /\ plane_cnt s3 x = plane_cnt s x) as Hsh by done.
  split.
  - split; try done.
    + rewrite Eidr, Hu', lookup_insert_ne by lia. done.
    + intros m p. rewrite Eidr, Hu', lookup_insert_Some. intros [[<- <-]|[Hm Hp]].
      * exists (mk_object n DRM_MODE_OBJECT_FB). split; [|done]. unfold base_at. by rewrite Efbs, lookup_insert_eq.
      * destruct (H4 m p Hp) as (b & Hb & Hbm). exists b. split; [|done]. destruct p as [y| | |]; try done.
        unfold base_at. rewrite Efbs. simpl in Hb. rewrite lookup_insert_ne; [done|]. intros <-. by rewrite Hkz in Hb.
    + apply NoDup_cons. split; [|done]. intros [g Eg]%H6. congruence.
    + intros y. rewrite Efbs. simpl. rewrite elem_of_cons, H6, lookup_insert_is_Some. destruct (decide (a = y)); naive_solver.
    + simpl. rewrite H7. lia.
    + intros y g. rewrite Efbs. intros [[<- <-]|[_ Hg]]%lookup_insert_Some; [done|by apply (H8 y)].
    + rewrite Efbs. eapply inv_ext; [|exact H10]. intros y. unfold fbs_on. rewrite mtotal_insert_new by done. simpl.
      unfold bump. case_decide as Hy; [rewrite Hy, one_yes by done; lia|rewrite one_no by congruence; lia].
  - split; [done|]. split; [|split; [done|split; [done|]]].
    + split.
      * intros x. rewrite Efbs. destruct (Hsh x) as [-> ->]. destruct (decide (x = a)) as [->|Hx].
        -- rewrite lookup_insert_eq, plus_eq. simpl. pose proof (held_base _ _ a Hh). pose proof (cnt_upper s a). lia.
        -- rewrite lookup_insert_ne, plus_ne by done. apply (h_cnt _ _ Hh).
      * intros x. pose proof (held_base _ _ x Hh). destruct (decide (x = a)) as [->|Hx]; [rewrite Hra, plus_eq; lia|].
        rewrite Hry, plus_ne by done. apply (h_reg _ _ Hh).
      * intros x. apply (Hf a x).
    + split; try done. intros m q Hq. rewrite Eidr, Hu', lookup_insert_Some. split; [naive_solver|].
      intros Hm. right. split; [|done]. intros ->. congruence.
Qed.

(** ** Modes *)

Definition mode_at s m : Prop := exists o, others s !! m = Some o /\ used_ids (crtc_idr s) !! id o = Some (POther m).

(** Identifiers of other objects do not matter to framebuffers. *)
Lemma held_rest base m s s' : rest (POther m) s s' -> fbs s' = fbs s -> held base s ->
  held base s' /\ forall x, reg s' x = reg s x.
Proof.
  intros [E1 E2 E3 E4 E5 E6 E7 E8] Ef [H1 H2 H3].
  assert (forall x, reg s' x = reg s x) as Hr.
  { intros x. unfold reg. rewrite Ef. destruct (fbs s !! x); [|done]. by apply one_iff, E7. }
  split; [|done]. split.
  - intros x. unfold crtc_cnt, plane_cnt. rewrite Ef, E1, E2, E3. apply H1.
  - intros x. rewrite Hr. apply H2.
  - intros x. unfold plane_cnt. rewrite E1, E2. apply H3.
Qed.

Lemma mode_create_run ext base s kz : dev_ok ext s -> held base s -> room_id s ->
  (forall m, kz = Some m -> others s !! m = None) ->
  wp (drm_mode_create kz) (fun r s' => dev_ok ext s' /\ held base s' /\ (forall x, reg s' x = reg s x) /\ fbs s' = fbs s /\
    match r with Some m => kz = Some m /\ mode_at s' m /\ rest (POther m) s s' | None => s' = s end) s.
Proof.
  intros Hd Hh Hroom Hkz. destruct kz as [m|]; [|by apply wp_ret]. specialize (Hkz m eq_refl).
  unfold drm_mode_create. rewrite wp_bind, wp_modify, wp_bind. unfold drm_mode_object_get. rewrite wp_bind.
  apply wp_next_id; [apply Hd|]. intros al Hal. rewrite wp_bind, wp_gets, wp_bind, wp_opt. simpl.
  destruct (new_id_run _ (POther m) (d_idr _ _ Hd) (d_full _ _ Hd) Hroom) as (n & i' & -> & Hwf' & Hfull' & Hn & Hun & Hu').
  eexists. split; [done|]. simpl. rewrite wp_bind, wp_modify, !wp_bind, wp_opt. eexists. split; [done|].
  simpl. rewrite wp_modify. apply wp_ret. cbn [negb Z.eqb]. apply wp_ret. simpl. rewrite insert_insert_eq.
  set (s2 := set_others _ _).
  assert (rest (POther m) s s2) as Hr.
  { split; try done.
    - intros k q Hq. simpl. rewrite Hu', lookup_insert_Some. split; [naive_solver|]. intros Hk. right. split; [|done].
      intros ->. congruence.
    - intros b Hb. simpl. apply lookup_insert_ne. congruence. }
  destruct (held_rest base m s s2 Hr eq_refl Hh) as [Hh2 Hr2].
  assert (mode_at s2 m) as Hm.
  { exists (mk_object n DRM_MODE_OBJECT_MODE). simpl. split; [apply lookup_insert_eq|]. rewrite Hu'. apply lookup_insert_eq. }
  split; [|by split_and!]. destruct Hd as [H1 H2 H3 H4 H5 H6 H7 H8 H9 H10 H11 H12]. split; try done.
  - simpl. rewrite Hu', lookup_insert_ne by lia. done.
  - intros k p. simpl. rewrite Hu', lookup_insert_Some. intros [[<- <-]|[Hk Hp]].
    + exists (mk_object n DRM_MODE_OBJECT_MODE). simpl. rewrite lookup_insert_eq. split_and!; try done. by left.
    + destruct (H4 k p Hp) as (b & Hb & Hbk). exists b. split; [|done]. destruct p as [| | |y]; try done. simpl in *.
      rewrite lookup_insert_ne; [done|]. intros <-. by rewrite Hkz in Hb.
Qed.

Lemma mode_destroy_run ext base s m : dev_ok ext s -> held base s -> mode_at s m ->
  wp (drm_mode_destroy (Some m)) (fun _ s' => dev_ok ext s' /\ held base s' /\ (forall x, reg s' x = reg s x) /\
    fbs s' = fbs s /\ rest (POther m) s s') s.
Proof.
  intros Hd Hh (o & Ho & Hu). unfold drm_mode_destroy, drm_mode_object_put. rewrite !wp_bind.
  apply (wp_base_of (POther m) _ _ o); [done|]. unfold put_id. rewrite !wp_bind. apply wp_next_id; [apply Hd|]. intros al Hal.
  rewrite wp_bind, wp_gets, wp_bind, wp_opt. simpl.
  destruct (idr_remove_run (crtc_idr s) (id o) true (d_idr _ _ Hd)) as (ret & i' & -> & Hwf' & Hfull' & Hm).
  rewrite Hu in Hm. destruct Hm as [-> Hu']. exists (0, i'). split; [done|]. simpl. rewrite !wp_modify.
  set (s2 := set_others _ _).
  assert (forall n, used_ids (crtc_idr s) !! n = Some (POther m) -> n = id o) as Huniq.
  { intros n Hn. destruct (d_base _ _ Hd n _ Hn) as (b & Hb & <- & _). simpl in Hb. congruence. }
  assert (rest (POther m) s s2) as Hr.
  { split; try done.
    - intros k q Hq. simpl. rewrite Hu', lookup_delete_Some. split; [by intros []|]. intros Hk. split; [|done]. congruence.
    - intros b Hb. simpl. apply lookup_delete_ne. congruence. }
  destruct (held_rest base m s s2 Hr eq_refl Hh) as [Hh2 Hr2].
  split; [|by split_and!]. destruct Hd as [H1 H2 H3 H4 H5 H6 H7 H8 H9 H10 H11 H12]. split; try done.
  - by apply Hfull'.
  - simpl. rewrite Hu'. apply lookup_delete_None. by right.
  - intros k p. simpl. rewrite Hu', lookup_delete_Some. intros [Hk Hp].
    destruct (H4 k p Hp) as (b & Hb & Hbk). exists b. split; [|done]. destruct p as [| | |y]; try done. simpl in *.
    rewrite lookup_delete_ne; [done|]. intros <-. apply Hk. symmetry. by apply Huniq.
Qed.
End Life.
