(* ===== verification/FbSystem.v ===== *)
(** * Framebuffers: the calls of a device, one after another and in between each other

    A device and the calls that are under way.  A call that gives up its locks between two
    parts is a thread that is waiting to go on; the parts of different calls follow each
    other in any order. *)

From S2P Require Import Prelude Sums HandleTable Idr Modes Gem Tiling FbFormat Framebuffer ModeIoctl.

Open Scope Z_scope.

(** What a call still has to do, with what it holds. *)
Inductive thread : Type :=
| TAdd (f : fid) (a : nat)                             (* a framebuffer that no file has yet *)
| THold (a : nat)                                      (* the console's framebuffer *)
| TRemove (a : nat)                                    (* drm_framebuffer_remove is next *)
| TDrop (l : list nat)                                 (* references that are given up *)
| TPlane (r : set_plane) (n : plane_next)
| TSet (set : drm_mode_set) (mode : option nat)
| TFlip (flip_flags : Z) (crtc a : nat).

Section System.
Context {G T D : Type} `{HandleTable G T oid} `{KmsDriver D}.
Abbreviation gem := (gem (G := G) (T := T)).
Abbreviation device := (device (G := G) (T := T) (D := D)).
Abbreviation K := (K (G := G) (T := T) (D := D)).
Context (c : chip) (tiling : oid -> Z * Z).

(** What can happen: calls of user space and of the kernel, other work on GEM objects, and
    work of the driver that changes no [crtc->fb]. *)
Inductive call : Type :=
| CAddfb (f : fid) (r : drm_mode_fb_cmd2) (kz : option nat)
| CAddfb2 (f : fid) (r : drm_mode_fb_cmd2) (kz : option nat)
| CFbdev (r : drm_mode_fb_cmd2) (o : oid) (kz : option nat)
| CRmfb (f : fid) (n : Z)
| CRelease (f : fid)
| CGetfb (f : fid) (n : Z)
| CSetplane (r : set_plane)
| CSetcrtc (r : set_crtc_req) (kz : option nat)
| CFlip (flip_flags reserved crtc_id fb_id : Z) (event_ok : bool)
| CRestore (mode_sets : list drm_mode_set)
| COpen (f : fid)
| CClose (f : fid)
| CGem (g : gem)
| CDriver (d : D).

Definition added (f : fid) (x : Z + nat) : list thread :=
  match x with inr a => [TAdd f a] | inl _ => [] end.

(** The first part of a call. *)
Definition start (k : call) : K (list thread) :=
  match k with
  | CAddfb f r kz => x ← addfb_create c tiling f r kz; mret (added f x)
  | CAddfb2 f r kz => x ← addfb2_create c tiling f r kz; mret (added f x)
  | CFbdev r o kz => x ← intel_framebuffer_create c tiling r o kz; mret (match x with Some a => [THold a] | None => [] end)
  | CRmfb f n => x ← rmfb_unregister f n; mret (match x with Some a => [TRemove a] | None => [] end)
  | CRelease f =>
      m ← gets files;
      match m !! f with
      | Some (a :: _) => _ ← release_one f a; mret [TRemove a]
      | _ => mret []
      end
  | CGetfb f n =>
      x ← drm_framebuffer_lookup n;
      match x with
      | Some a => _ ← getfb_handle f a; mret [TDrop [a]]
      | None => mret []
      end
  | CSetplane r => n ← setplane_lookup r; mret [TPlane r n]
  | CSetcrtc r kz =>
      p ← setcrtc_prepare r kz;
      mret (match p with inr (set, mode) => [TSet set mode] | inl _ => [] end)
  | CFlip flip_flags reserved crtc_id fb_id event_ok =>
      r ← flip_lookup flip_flags reserved crtc_id fb_id event_ok;
      mret (match r with inr (crtc, a) => [TFlip flip_flags crtc a] | inl _ => [] end)
  | CRestore mode_sets => _ ← drm_fb_helper_restore_fbdev_mode mode_sets; mret []
  | COpen f => _ ← modify (fun s => set_files (<[f := []]> (files s)) s); mret []
  | CClose f => _ ← modify (fun s => set_files (delete f (files s)) s); mret []
  | CGem g => _ ← modify (set_objs g); mret []
  | CDriver d => _ ← modify (set_drv d); mret []
  end.

(** The next part of a call that is under way. *)
Definition resume (t : thread) : K (list thread) :=
  match t with
  | TAdd f a => _ ← add_to_file f a; mret []
  | THold a => mret [THold a]
  | TRemove a => _ ← drm_framebuffer_remove a; mret []
  | TDrop [] => mret []
  | TDrop (a :: l) => _ ← drm_framebuffer_unreference a; mret [TDrop l]
  | TPlane r n => '(_, l) ← setplane_commit r n; mret [TDrop l]
  | TSet set mode => _ ← setcrtc_commit set mode; mret []
  | TFlip flip_flags crtc a => _ ← flip_commit flip_flags crtc a; mret []
  end.

Record sys := mk_sys { dev : device; threads : list thread }.

Inductive event : Type :=
| EvStart (k : call)
| EvRun (i : nat).

Definition step (e : event) (S : sys) : option sys :=
  match e with
  | EvStart k => '(ts, s) ← start k (dev S); Some (mk_sys s (ts ++ threads S))
  | EvRun i =>
      t ← threads S !! i;
      '(ts, s) ← resume t (dev S);
      Some (mk_sys s (ts ++ delete i (threads S)))
  end.

(** ** Who holds what *)

(** The reference of the file, while the framebuffer is on its way to one. *)
Definition owns (x : nat) (t : thread) : Z :=
  match t with TAdd _ a | THold a => one (a = x) | _ => 0 end.

Definition refs (x : nat) (t : thread) : Z :=
  match t with
  | TAdd _ _ | THold _ => 0
  | TRemove a | TFlip _ _ a | TPlane _ (PlaneShow _ _ a) => one (a = x)
  | TDrop l => occurs x l
  | TPlane _ _ => 0
  | TSet set _ => one (set_fb set = Some x)
  end.

Definition owners (s : device) (ts : list thread) (x : nat) : Z :=
  mtotal (occurs x) (files s) + total (owns x) ts.

Definition modes (ts : list thread) : list nat :=
  t ← ts; match t with TSet _ (Some m) => [m] | _ => [] end.
End System.
