(* ===== verification/FbInv.v ===== *)
(** * Framebuffers: the invariant of the system

    Every reference has a holder: the identifier, a file (or a call that will give the
    framebuffer to one), a call under way, a CRTC, a plane; and a framebuffer has its
    identifier as long as a file has it. *)

From S2P Require Import Prelude Sums HandleTable Idr Modes Gem Tiling FbFormat Framebuffer ModeIoctl FbFacts FbShow FbLife FbSystem.

Open Scope Z_scope.

Section Inv.
Context {G T D : Type} `{HandleTableLaws G T oid} `{KmsLaws D}.
Abbreviation gem := (gem (G := G) (T := T)).
Abbreviation device := (device (G := G) (T := T) (D := D)).
Implicit Types (s : device) (ts : list thread) (a x : nat).

Definition holders s ts x : Z := reg s x + owners s ts x + total (refs x) ts.

Definition thread_ok s (t : thread) : Prop :=
  match t with
  | TAdd f _ => is_Some (files s !! f)
  | TPlane _ (PlaneOff p) => is_Some (planes s !! p)
  | TPlane _ (PlaneShow p _ _) => is_Some (planes s !! p)
  | TFlip _ cr _ => (cr < length (crtcs s))%nat
  | _ => True
  end.

Record inv s ts : Prop := {
  i_dev : exists ext, dev_ok ext s;
  i_held : held (holders s ts) s;
  i_own : forall x, owners s ts x = reg s x;
  i_threads : Forall (thread_ok s) ts;
  i_nodup : NoDup (modes ts);
  i_modes : Forall (mode_at s) (modes ts);
  i_files : forall f, is_Some (files s !! f) -> is_Some (object_idrs (objs s) !! f) }.

Lemma owns_nonneg x t : 0 <= owns x t.
Proof. destruct t; simpl; try lia; apply one_range. Qed.
Lemma refs_nonneg x t : 0 <= refs x t.
Proof. destruct t as [| | |l|r []|set m|]; simpl; try lia; try apply one_range. apply occurs_nonneg. Qed.
Lemma owners_nonneg s ts x : 0 <= owners s ts x.
Proof.
  unfold owners. pose proof (mtotal_nonneg (occurs x) (files s) ltac:(intros; apply occurs_nonneg)).
  pose proof (total_nonneg (owns x) ts ltac:(intros; apply owns_nonneg)). lia.
Qed.
Lemma total_refs_nonneg ts x : 0 <= total (refs x) ts.
Proof. apply total_nonneg. intros. apply refs_nonneg. Qed.

Lemma owners_perm s ts ts' x : ts ≡ₚ ts' -> owners s ts x = owners s ts' x.
Proof. intros E. unfold owners. by rewrite (total_perm _ _ _ E). Qed.
Lemma holders_perm s ts ts' x : ts ≡ₚ ts' -> holders s ts x = holders s ts' x.
Proof. intros E. unfold holders. by rewrite (owners_perm s _ _ x E), (total_perm _ _ _ E). Qed.

Lemma held_ext base base' s : (forall x, base x = base' x) -> held base s -> held base' s.
Proof.
  intros E [H1 H2 H3]. split; [|intros x; rewrite <-E; auto..]. eapply cnt_ext; [|exact H1]. intros x. simpl. by rewrite E.
Qed.

Lemma modes_app ts ts' : modes (ts ++ ts') = modes ts ++ modes ts'.
Proof. apply bind_app. Qed.

Lemma fb_inv_perm s ts ts' : ts ≡ₚ ts' -> inv s ts -> inv s ts'.
Proof.
  intros E [[ext H1] H2 H3 H4 H5 H6 H7].
  assert (modes ts ≡ₚ modes ts') as Em by (unfold modes; by rewrite E).
  split; try done.
  - by exists ext.
  - eapply held_ext; [|exact H2]. intros x. by apply holders_perm.
  - intros x. by rewrite <-H3, (owners_perm s ts ts').
  - by rewrite <-E.
  - by rewrite <-Em.
  - by rewrite <-Em.
Qed.

(** A framebuffer that somebody has a reference to. *)
Lemma inv_holds s ts x t : inv s ts -> t ∈ ts -> 0 < refs x t -> 1 <= total (refs x) ts.
Proof. intros _ Ht Hr. pose proof (total_pos (refs x) ts t ltac:(intros; apply refs_nonneg) Ht). lia. Qed.

(** Once the counts are right again, registered framebuffers are still registered. *)
Lemma reg_settled b s s' : keeps s s' -> held b s' -> (forall x, reg s x <= b x) -> forall x, reg s' x = reg s x.
Proof.
  intros Hk Hh Hb x. destruct (fbs s' !! x) as [f|] eqn:E; [apply (reg_keeps s s' x Hk); by rewrite E|].
  pose proof (h_cnt _ _ Hh x) as Hx. rewrite E in Hx. unfold reg at 1. rewrite E. specialize (Hb x).
  pose proof (reg_range s x). pose proof (cnt_upper s' x). pose proof (held_base _ _ x Hh). lia.
Qed.

Lemma modes_keeps s s' m : others s' = others s -> crtc_idr s' = crtc_idr s -> mode_at s m -> mode_at s' m.
Proof. intros E1 E2. unfold mode_at. by rewrite E1, E2. Qed.

Lemma thread_keeps s s' t : length (crtcs s') = length (crtcs s) -> length (planes s') = length (planes s) -> files s' = files s -> thread_ok s t -> thread_ok s' t.
Proof.
  intros E0 E1 E2. unfold thread_ok. rewrite E0, E2. destruct t as [| | | |r [ret|p|p cr a]| |]; try done;
    by rewrite !lookup_lt_is_Some, E1.
Qed.

(** What the parts of calls leave alone for other calls; [m] is a mode that may go. *)
Record calm (m : option nat) s s' : Prop := {
  cm_crtcs : length (crtcs s') = length (crtcs s);
  cm_planes : length (planes s') = length (planes s);
  cm_files : files s' = files s;
  cm_idrs : object_idrs (objs s') = object_idrs (objs s);
  cm_reg : forall x, reg s' x = reg s x;
  cm_modes : forall k, m <> Some k -> mode_at s k -> mode_at s' k }.

#[global] Instance calm_preorder : PreOrder (calm None).
Proof.
  split; [by split|]. intros s1 s2 s3 [A0 A1 A2 A3 A4 A5] [B0 B1 B2 B3 B4 B5]. split; [congruence..| |].
  - intros x. by rewrite B4.
  - intros k Hn Hk. by apply B5, A5.
Qed.

Lemma calm_trans m s1 s2 s3 : calm None s1 s2 -> calm m s2 s3 -> calm m s1 s3.
Proof.
  intros [A0 A1 A2 A3 A4 A5] [B0 B1 B2 B3 B4 B5]. split; [congruence..| |].
  - intros x. by rewrite B4.
  - intros k Hn Hk. apply B5; [done|]. by apply A5.
Qed.

Lemma calm_none m s s' : calm None s s' -> calm m s s'.
Proof. intros [A0 A1 A2 A3 A4 A5]. split; try done. intros k _. by apply A5. Qed.

Lemma keeps_calm b s s' : keeps s s' -> held b s' -> (forall x, reg s x <= b x) -> calm None s s'.
Proof.
  intros Hk Hh Hb. split.
  - by apply keeps_crtcs.
  - by apply keeps_planes.
  - by apply kp_files.
  - by apply (kp_handles _ _ Hk).
  - by apply (reg_settled b).
  - intros k _. apply modes_keeps; [by apply kp_others|by apply kp_idr].
Qed.

Lemma rest_calm m s s' : rest (POther m) s s' -> (forall x, reg s' x = reg s x) -> calm (Some m) s s'.
Proof.
  intros [E1 E2 E3 E4 E5 [E6 _] E7 E8] Hr. split; try congruence. intros k Hk (o & Ho & Hu). exists o.
  rewrite E8 by congruence. split; [done|]. apply E7; [congruence|done].
Qed.

(** A mode that was not there before is no loss. *)
Lemma calm_fresh m s s' : calm (Some m) s s' -> others s !! m = None -> calm None s s'.
Proof.
  intros [A0 A1 A2 A3 A4 A5] Hm. split; try done. intros k _ Hk. apply A5; [|done]. intros [= ->].
  destruct Hk as (o & Ho & _). congruence.
Qed.

(** A part of a call that only moves references. *)
Lemma inv_calm m ext s s' ts0 ts1 : inv s ts0 -> dev_ok ext s' -> calm m s s' ->
  held (fun x => reg s x + owners s ts1 x + total (refs x) ts1) s' ->
  (forall x, owners s ts1 x = owners s ts0 x) -> Forall (thread_ok s) ts1 ->
  NoDup (modes ts1) -> Forall (mode_at s') (modes ts1) -> inv s' ts1.
Proof.
  intros Hi Hd' Hk Hh Ho Hts Hm1 Hm2.
  assert (forall x, owners s' ts1 x = owners s ts1 x) as Ho' by (intros x; unfold owners; by rewrite (cm_files _ _ _ Hk)).
  split; try done.
  - by exists ext.
  - eapply held_ext; [|exact Hh]. intros x. unfold holders. by rewrite (cm_reg _ _ _ Hk), Ho'.
  - intros x. rewrite (cm_reg _ _ _ Hk), Ho', Ho. apply Hi.
  - eapply Forall_impl; [exact Hts|]. intros t. apply thread_keeps; apply Hk.
  - intros f. rewrite (cm_files _ _ _ Hk), (cm_idrs _ _ _ Hk). apply Hi.
Qed.
End Inv.
