(* ===== verification/FbParts.v ===== *)
(** * Framebuffers: the parts of calls

    What each part does to the references: it is given some, keeps or passes on some, and
    gives up the others. *)

From S2P Require Import Prelude Sums HandleTable Idr Modes Gem Tiling FbFormat Framebuffer ModeIoctl FbFacts FbShow FbLife FbSystem FbInv.

Open Scope Z_scope.

Section Parts.
Context {G T D : Type} `{HandleTableLaws G T oid} `{KmsLaws D}.
Abbreviation device := (device (G := G) (T := T) (D := D)).
Implicit Types (s : device) (base : nat -> Z) (a x : nat).

(** ** Removing *)

Lemma fb_remove_run ext base s a : dev_ok ext s -> held (plus base a 1) s -> (forall x, reg s x <= base x) ->
  wp (drm_framebuffer_remove a) (fun _ s' => dev_ok ext s' /\ held base s' /\ keeps s s' /\
    forall p pl, planes s' !! p = Some pl -> p_fb pl <> Some a) s.
Proof.
  intros Hd Hh Hr. unfold drm_framebuffer_remove. rewrite wp_bind.
  pose proof (h_cnt _ _ Hh a) as Hx. simpl in Hx. rewrite plus_eq in Hx. pose proof (cnt_upper s a). pose proof (Hr a).
  pose proof (reg_range s a). destruct (fbs s !! a) as [f|] eqn:Ef; [|lia].
  apply (wp_get_fb a f); [done|]. rewrite wp_bind.
  apply (wp_mono _ (fun _ s' => dev_ok ext s' /\ held (plus base a 1) s' /\ keeps s s' /\
    forall p pl, planes s' !! p = Some pl -> p_fb pl <> Some a)).
  - destruct (Z.gtb_spec (fb_refcount f) 1).
    + apply remove_users_run; try done. rewrite plus_eq. lia.
    + apply wp_ret. split_and!; try done. intros p pl Hp Ha.
      assert (1 <= plane_cnt s a); [|lia]. unfold plane_cnt.
      etrans; [|apply (total_pos _ _ pl); [intros; apply one_range|by eapply list_elem_of_lookup_2]]. simpl. by rewrite one_yes.
  - intros [] s1 (Hd1 & Hh1 & Hk1 & Hp1). eapply wp_mono; [apply (unref_held ext base s1 a Hd1 Hh1); by apply (reg_le base s)|].
    intros [] s2 (Hd2 & Hh2 & Hs2). split_and!; [done..|etrans; [done|by apply same_keeps]|]. by rewrite (sm_planes _ _ Hs2).
Qed.

(** ** Planes *)

Lemma held_show base base' s p pl cr f : held base s -> planes s !! p = Some pl -> (forall x, reg s x <= base' x) ->
  (forall x, base' x + one (f = Some x) = base x + one (p_fb pl = Some x)) ->
  held base' (set_planes (alter (show cr f) p (planes s)) s).
Proof.
  intros Hh Hp Hr E. split.
  - eapply cnt_ext; [|exact (h_cnt _ _ Hh)]. intros x. simpl. rewrite (plane_cnt_alter s p pl) by done.
    change (crtc_cnt (set_planes _ s) x) with (crtc_cnt s x). specialize (E x). lia.
  - done.
  - intros x. rewrite (plane_cnt_alter s p pl) by done. pose proof (h_fits _ _ Hh x). specialize (E x). simpl. lia.
Qed.

Lemma option_list_occurs (f : option nat) x : occurs x (option_list f) = one (f = Some x).
Proof.
  destruct f as [a|]; unfold occurs; simpl; [|by rewrite one_no]. rewrite Z.add_0_r. apply one_iff. naive_solver.
Qed.

(** What a plane that is about to show something has a reference to. *)
Definition next_fb (n : plane_next) : option nat :=
  match n with PlaneShow _ _ a => Some a | _ => None end.
Definition next_plane (n : plane_next) : option nat :=
  match n with PlaneShow p _ _ | PlaneOff p => Some p | PlaneError _ => None end.

Lemma plane_commit_run ext base s r n : dev_ok ext s -> held (fun x => base x + one (next_fb n = Some x)) s ->
  (forall x, reg s x <= base x) -> (forall p, next_plane n = Some p -> is_Some (planes s !! p)) ->
  wp (setplane_commit r n) (fun y s' => dev_ok ext s' /\ held (fun x => base x + occurs x y.2) s' /\ keeps s s') s.
Proof.
  intros Hd Hh Hr Hp. assert (forall l x, reg s x <= base x + occurs x l) as Hr'.
  { intros l x. specialize (Hr x). pose proof (occurs_nonneg x l). lia. }
  destruct n as [ret|p|p cr a]; simpl in *.
  - apply wp_ret. split_and!; [done| |done]. eapply held_ext; [|exact Hh]. intros x. simpl. rewrite one_no by done. unfold occurs. simpl. lia.
  - destruct (Hp p eq_refl) as [pl Epl]. rewrite wp_bind. apply (wp_get_plane p pl); [done|]. rewrite wp_bind, wp_call, wp_bind.
    set (s1 := set_drv _ s). assert (held (fun x => base x + one (None = Some x)) s1) as Hh1.
    { apply held_drv; [done|]. intros cr. apply disable_plane_fb. }
    apply (wp_upd_plane p pl); [done|]. apply wp_ret. split; [|split].
    + apply dev_planes; [by apply dev_drv|by apply show_alter].
    + eapply (held_show _ _ s1 p pl); [exact Hh1|done|apply Hr'|]. intros x. simpl. rewrite option_list_occurs, ?one_none, ?one_some. lia.
    + etrans; [apply (keeps_drv s)|]. apply keeps_set_planes. by apply show_alter.
  - destruct (Hp p eq_refl) as [pl Epl]. rewrite wp_bind, wp_call. set (s1 := set_drv _ s).
    assert (held (fun x => base x + one (Some a = Some x)) s1) as Hh1.
    { apply held_drv; [done|]. intros c'. apply update_plane_fb. }
    destruct (_ =? 0).
    + rewrite wp_bind. apply (wp_get_plane p pl); [done|]. rewrite wp_bind. apply (wp_upd_plane p pl); [done|].
      apply wp_ret. split; [|split].
      * apply dev_planes; [by apply dev_drv|by apply show_alter].
      * eapply (held_show _ _ s1 p pl); [exact Hh1|done|apply Hr'|]. intros x. simpl. rewrite option_list_occurs, ?one_none, ?one_some. lia.
      * etrans; [apply (keeps_drv s)|]. apply keeps_set_planes. by apply show_alter.
    + apply wp_ret. split; [by apply dev_drv|]. split; [|apply keeps_drv]. eapply held_ext; [|exact Hh1]. intros x. simpl.
      pose proof (option_list_occurs (Some a) x) as E. simpl in E. by rewrite E, !one_some.
Qed.

(** ** The end of a configuration *)

Lemma setcrtc_out_run ext base s fb mode ret : dev_ok ext s -> held (fun x => base x + one (fb = Some x)) s ->
  (forall x, reg s x <= base x) -> (forall m, mode = Some m -> mode_at s m) ->
  wp (setcrtc_out fb mode ret) (fun v s' => v = ret /\ dev_ok ext s' /\ held base s' /\ calm mode s s') s.
Proof.
  intros Hd Hh Hr Hm. unfold setcrtc_out. rewrite wp_bind.
  eapply wp_mono; [by apply (unref_opt_held ext base s fb)|]. intros [] s1 (Hd1 & Hh1 & Hs1). rewrite wp_bind.
  pose proof (keeps_calm base s s1 (same_keeps _ _ Hs1) Hh1 Hr) as Hc1. destruct mode as [m|].
  - eapply wp_mono; [apply (mode_destroy_run ext base s1 m Hd1 Hh1); apply Hc1; [done|by apply Hm]|].
    intros [] s2 (Hd2 & Hh2 & Hr2 & _ & Hrest). apply wp_ret. split_and!; try done.
    eapply calm_trans; [exact Hc1|by apply rest_calm].
  - apply wp_ret. apply wp_ret. done.
Qed.

Lemma set_commit_run ext base s set mode : dev_ok ext s -> held (fun x => base x + one (set_fb set = Some x)) s ->
  (forall x, reg s x <= base x) -> (forall m, mode = Some m -> mode_at s m) ->
  wp (setcrtc_commit set mode) (fun _ s' => dev_ok ext s' /\ held base s' /\ calm mode s s') s.
Proof.
  intros Hd Hh Hr Hm. unfold setcrtc_commit. rewrite wp_bind.
  eapply wp_mono; [apply (set_config_internal_run ext _ set s Hd Hh)|].
  - intros a Ha. simpl. rewrite one_yes by done. specialize (Hr a). pose proof (reg_range s a). lia.
  - intros ret s1 (Hd1 & Hh1 & Hk1 & _).
    assert (calm None s s1) as Hc1.
    { apply (keeps_calm _ s s1 Hk1 Hh1). intros x. specialize (Hr x). pose proof (one_range (set_fb set = Some x)). lia. }
    eapply wp_mono; [apply (setcrtc_out_run ext base s1 (set_fb set) mode ret Hd1 Hh1)|].
    + intros x. rewrite (cm_reg _ _ _ Hc1). apply Hr.
    + intros m E. apply Hc1; [done|by apply Hm].
    + intros v s2 (_ & Hd2 & Hh2 & Hc2). split_and!; try done. by eapply calm_trans.
Qed.

(** ** Page flips *)

Lemma crtc_cnt_flip s d cr a x : (cr < length (crtcs s))%nat ->
  (forall k, crtc_fb d k = if bool_decide (k = cr) then Some a else crtc_fb (drv s) k) ->
  crtc_cnt (set_drv d s) x = crtc_cnt s x - one (crtc_fb (drv s) cr = Some x) + one (a = x).
Proof.
  intros Hlt Hd. unfold crtc_cnt. simpl. set (n := length (crtcs s)) in *.
  assert (seq 0 n = seq 0 cr ++ cr :: seq (S cr) (n - S cr)) as ->.
  { rewrite <-(Nat.add_0_l cr) at 2. replace n with (cr + S (n - S cr))%nat at 1 by lia. by rewrite seq_app. }
  rewrite !total_app, !total_cons, Hd, bool_decide_eq_true_2 by done.
  rewrite (one_iff (Some a = Some x) (a = x)) by naive_solver.
  rewrite (total_ext _ (fun c => one (crtc_fb (drv s) c = Some x)) (seq 0 cr)).
  2: { intros k Hk%elem_of_seq. rewrite Hd, bool_decide_eq_false_2 by lia. done. }
  rewrite (total_ext _ (fun c => one (crtc_fb (drv s) c = Some x)) (seq (S cr) _)); [lia|].
  intros k Hk%elem_of_seq. rewrite Hd, bool_decide_eq_false_2 by lia. done.
Qed.

Lemma flip_commit_run ext base s fl cr a : dev_ok ext s -> held (plus base a 1) s -> (forall x, reg s x <= base x) ->
  (cr < length (crtcs s))%nat ->
  wp (flip_commit fl cr a) (fun _ s' => dev_ok ext s' /\ held base s' /\ keeps s s') s.
Proof.
  intros Hd Hh Hr Hlt. unfold flip_commit. rewrite wp_bind, wp_fb_of, wp_bind, wp_call, wp_bind.
  pose proof (page_flip_fb cr a (has_flag fl DRM_MODE_PAGE_FLIP_EVENT) (drv s)) as Hfb.
  destruct (page_flip _ _ _ (drv s)) as [ret d] eqn:Eflip. cbn [fst snd]. set (s1 := set_drv d s).
  assert (dev_ok ext s1) as Hd1 by by apply dev_drv.
  destruct (ret =? 0); cbn [negb].
  - assert (forall x, crtc_cnt s1 x = crtc_cnt s x - one (crtc_fb (drv s) cr = Some x) + one (a = x)) as Hcnt.
    { intros x. apply crtc_cnt_flip; [done|]. intros k. apply Hfb. }
    assert (cnt_ok (fun x => plus base a 1 x + crtc_cnt s x + plane_cnt s x) s1) as Hc1 by apply Hh.
    assert (wp (unref_opt (crtc_fb (drv s) cr)) (fun _ s2 => dev_ok ext s2 /\ same s1 s2 /\
      cnt_ok (fun x => base x + crtc_cnt s1 x + plane_cnt s x) s2) s1) as Hun.
    { destruct (crtc_fb (drv s) cr) as [b|] eqn:Eb; simpl.
      - assert (1 <= crtc_cnt s b).
        { unfold crtc_cnt. etrans; [|apply (total_pos _ _ cr); [intros; apply one_range|apply elem_of_seq; lia]].
          simpl. by rewrite Eb, one_yes. }
        pose proof (h_fits _ _ Hh b). pose proof (cnt_upper s b). pose proof (Hr b). pose proof (reg_range s b).
        assert (base b <= plus base a 1 b) by (unfold plus; pose proof (one_range (b = a)); lia).
        eapply wp_mono; [eapply (unref_run ext _ s1 b Hd1 Hc1)|].
        + simpl. lia.
        + change (reg s1 b) with (reg s b). simpl. lia.
        + intros [] s2 (Hd2 & Hc2 & Hs2). split_and!; try done. eapply cnt_ext; [|exact Hc2]. intros x. simpl. rewrite Hcnt. unfold plus.
          rewrite (one_iff (x = b) (Some b = Some x)), (one_iff (x = a) (a = x)) by naive_solver. lia.
      - apply wp_ret. split_and!; try done. eapply cnt_ext; [|exact Hc1]. intros x. simpl. rewrite Hcnt. unfold plus.
        rewrite (one_no (None = Some x)), (one_iff (x = a) (a = x)) by done. lia. }
    eapply wp_mono; [exact Hun|]. intros [] s2 (Hd2 & Hs2 & Hc2). apply wp_ret. split; [done|].
    assert (keeps s s2) as Hk by (etrans; [apply (keeps_drv s d)|by apply same_keeps]). split; [|done].
    assert (plane_cnt s2 = plane_cnt s) as Hpl by (unfold plane_cnt; by rewrite (sm_planes _ _ Hs2)).
    split.
    + eapply cnt_ext; [|exact Hc2]. intros x. rewrite Hpl. unfold crtc_cnt. by rewrite (sm_drv _ _ Hs2), (sm_crtcs _ _ Hs2).
    + by apply (reg_le base s).
    + intros x. rewrite Hpl, (keeps_crtcs s s2 Hk). pose proof (h_fits _ _ Hh x) as Hx. unfold plus in Hx. pose proof (one_range (x = a)). lia.
  - assert (held (plus base a 1) s1) as Hh1 by by apply held_drv.
    eapply wp_mono; [by apply (unref_held ext base s1 a)|]. intros [] s2 (Hd2 & Hh2 & Hs2). apply wp_ret.
    split_and!; [done..|]. etrans; [apply (keeps_drv s d)|by apply same_keeps].
Qed.
End Parts.
