(* ===== verification/FbCalls.v ===== *)
(** * Framebuffers: the first parts of calls

    What a call of user space has found, and holds a reference to, before it goes on under
    the locks of the mode configuration. *)

From S2P Require Import Prelude Sums HandleTable Idr Modes Gem Tiling FbFormat Framebuffer ModeIoctl FbFacts FbShow FbLife FbSystem FbInv FbParts.

Open Scope Z_scope.

Section Calls.
Context {G T D : Type} `{HandleTableLaws G T oid} `{KmsLaws D}.
Abbreviation device := (device (G := G) (T := T) (D := D)).
Implicit Types (s : device) (base : nat -> Z) (a x : nat).

(** There is room for one more reference to any framebuffer. *)
Definition can_hold base s : Prop := forall a, fits s (plus base a 1).

Lemma holds_some base s a : held (plus base a 1) s -> held (fun x => base x + one (Some a = Some x)) s.
Proof. apply held_ext. intros x. unfold plus. rewrite one_some, (one_iff (x = a) (a = x)) by done. lia. Qed.
Lemma holds_none base s : held base s -> held (fun x => base x + one (None = Some x)) s.
Proof. apply held_ext. intros x. rewrite one_none. lia. Qed.

Lemma setplane_lookup_run ext base s r : dev_ok ext s -> held base s -> can_hold base s -> (forall x, reg s x <= base x) ->
  wp (setplane_lookup r) (fun n s' => dev_ok ext s' /\ held (fun x => base x + one (next_fb n = Some x)) s' /\ same s s' /\
    forall p, next_plane n = Some p -> is_Some (planes s' !! p)) s.
Proof.
  intros Hd Hh Hf Hr. unfold setplane_lookup. rewrite wp_bind.
  eapply wp_mono; [by apply (find_plane_run ext)|]. intros [p|] s1 [-> Hp].
  2: { apply wp_ret. split_and!; [done|by apply holds_none|done|done]. }
  specialize (Hp p eq_refl). destruct (sp_fb_id r =? 0).
  { apply wp_ret. split_and!; [done|by apply holds_none|done|]. by intros q [= <-]. }
  rewrite wp_bind. eapply wp_mono; [by apply (find_crtc_run ext)|]. intros [cr|] s1 [-> _].
  2: { apply wp_ret. split_and!; [done|by apply holds_none|done|done]. }
  rewrite wp_bind. eapply wp_mono; [by apply (lookup_held ext base)|]. intros [a|] s1 Hl.
  2: { subst s1. apply wp_ret. split_and!; [done|by apply holds_none|done|done]. }
  destruct Hl as (_ & _ & Hd1 & Hh1 & Hs1 & [f Ef]). rewrite wp_bind. apply (wp_get_fb a f); [done|]. rewrite wp_bind.
  destruct Hp as [pl Ep]. apply (wp_get_plane p pl); [by rewrite (sm_planes _ _ Hs1)|].
  destruct (negb _).
  - rewrite wp_bind. eapply wp_mono; [apply (unref_held ext base s1 a Hd1 Hh1); by apply (reg_le base s), Hr; apply same_keeps|].
    intros [] s2 (Hd2 & Hh2 & Hs2). apply wp_ret. split_and!; [done|by apply holds_none|by etrans|done].
  - apply wp_ret. split_and!; [done|by apply holds_some|done|]. intros q [= <-]. rewrite (sm_planes _ _ Hs1). by exists pl.
Qed.

(** A CRTC that shows something shows something that exists. *)
Lemma shown_live base s cr a : held base s -> (cr < length (crtcs s))%nat -> crtc_fb (drv s) cr = Some a ->
  exists f, fbs s !! a = Some f.
Proof.
  intros Hh Hlt E. assert (1 <= crtc_cnt s a).
  { unfold crtc_cnt. etrans; [|apply (total_pos _ _ cr); [intros; apply one_range|apply elem_of_seq; lia]]. simpl. by rewrite E, one_yes. }
  destruct (cnt_live _ s a (h_cnt _ _ Hh)) as (f & Ef & _); [|by exists f].
  pose proof (held_base _ _ a Hh). pose proof (cnt_upper s a). lia.
Qed.

Lemma flip_lookup_run ext base s fl rv cid n ok : dev_ok ext s -> held base s -> can_hold base s -> (forall x, reg s x <= base x) ->
  wp (flip_lookup fl rv cid n ok) (fun y s' => dev_ok ext s' /\ same s s' /\
    match y with
    | inr (cr, a) => held (plus base a 1) s' /\ (cr < length (crtcs s))%nat
    | inl _ => held base s'
    end) s.
Proof.
  intros Hd Hh Hf Hr. unfold flip_lookup. destruct (_ || _); [by apply wp_ret|]. rewrite wp_bind.
  eapply wp_mono; [by apply (find_crtc_run ext)|]. intros [cr|] s1 [-> Hc]; [|by apply wp_ret].
  destruct (Hc cr eq_refl) as (_ & c' & Ec). pose proof (lookup_lt_Some _ _ _ Ec) as Hlt. rewrite wp_bind, wp_fb_of.
  destruct (crtc_fb (drv s) cr) as [cur|] eqn:Ecur; [|by apply wp_ret]. destruct (negb has_page_flip); [by apply wp_ret|].
  rewrite wp_bind. eapply wp_mono; [by apply (lookup_held ext base)|]. intros [a|] s1 Hl; [|subst s1; by apply wp_ret].
  destruct Hl as (_ & _ & Hd1 & Hh1 & Hs1 & [f Ef]). rewrite wp_bind. apply (wp_get_fb a f); [done|]. rewrite wp_bind.
  apply (wp_crtc_get cr c'); [by rewrite (sm_crtcs _ _ Hs1)|]. rewrite wp_bind, wp_gets, wp_bind.
  destruct (shown_live (plus base a 1) s1 cr cur Hh1) as [g Eg]; [by rewrite (sm_crtcs _ _ Hs1)|by rewrite (sm_drv _ _ Hs1)|].
  apply (wp_get_fb cur g); [done|]. destruct (crtc_xy _ _) as [x y]. destruct (negb (_ =? 0)).
  - rewrite wp_bind. eapply wp_mono; [apply (unref_held ext base s1 a Hd1 Hh1); by apply (reg_le base s), Hr; apply same_keeps|].
    intros [] s2 (Hd2 & Hh2 & Hs2). apply wp_ret. split_and!; [done|by etrans|done].
  - apply wp_ret. split_and!; done.
Qed.

(** ** The configuration of a CRTC *)

Lemma can_hold_same base s s' : crtcs s' = crtcs s -> planes s' = planes s -> can_hold base s -> can_hold base s'.
Proof. intros E1 E2 Hf a x. specialize (Hf a x). unfold plane_cnt in *. by rewrite E1, E2. Qed.

(** The framebuffer of a configuration: the one that is there, or one that is named. *)
Lemma setcrtc_fb_run ext base s r cr : dev_ok ext s -> held base s -> can_hold base s -> (forall x, reg s x <= base x) ->
  (cr < length (crtcs s))%nat ->
  wp (if sc_fb_id r =? 2 ^ 32 - 1 then
        cur ← fb_of cr;
        match cur with Some a => _ ← drm_framebuffer_reference a; mret (Some a) | None => mret None end
      else drm_framebuffer_lookup (sc_fb_id r))
    (fun fb s' => dev_ok ext s' /\ same s s' /\
      match fb with Some a => held (plus base a 1) s' /\ is_Some (fbs s' !! a) | None => s' = s end) s.
Proof.
  intros Hd Hh Hf Hr Hlt. destruct (_ =? _).
  - rewrite wp_bind, wp_fb_of. destruct (crtc_fb (drv s) cr) as [a|] eqn:Ea; [|by apply wp_ret]. rewrite wp_bind.
    destruct (shown_live base s cr a Hh Hlt Ea) as [f Ef]. unfold drm_framebuffer_reference.
    pose proof (h_cnt _ _ Hh a) as Hx. rewrite Ef in Hx.
    eapply wp_mono; [apply (kref_held ext base s a Hd Hh (Hf a)); lia|]. intros [] s1 (Hd1 & Hh1 & Hs1). apply wp_ret.
    split_and!; try done. pose proof (h_cnt _ _ Hh1 a) as Hx1. destruct (fbs s1 !! a) eqn:E1; [done|].
    rewrite plus_eq in Hx1. pose proof (held_base _ _ a Hh). pose proof (cnt_upper s1 a). lia.
  - eapply wp_mono; [by apply (lookup_held ext base)|]. intros [a|] s1 Hl; [|by subst]. naive_solver.
Qed.

Lemma setcrtc_mode_run ext base s r cr kz : dev_ok ext s -> held base s -> can_hold base s -> (forall x, reg s x <= base x) ->
  room_id s -> (forall m, kz = Some m -> others s !! m = None) -> is_Some (crtcs s !! cr) ->
  wp (setcrtc_mode r cr kz) (fun sf s' => dev_ok ext s' /\ held (fun x => base x + one (sf_fb sf = Some x)) s' /\
    calm None s s' /\ (forall m, sf_mode sf = Some m -> kz = Some m /\ mode_at s' m) /\
    crtcs s' = crtcs s /\ planes s' = planes s) s.
Proof.
  intros Hd Hh Hf Hr Hroom Hkz [c' Ec]. pose proof (lookup_lt_Some _ _ _ Ec) as Hlt. unfold setcrtc_mode.
  destruct (negb _). { apply wp_ret. split_and!; [done|by apply holds_none|done..]. }
  rewrite wp_bind. eapply wp_mono; [by apply (setcrtc_fb_run ext base)|]. intros [a|] s1 (Hd1 & Hs1 & Hl).
  2: { subst s1. apply wp_ret. split_and!; [done|by apply holds_none|done..]. }
  destruct Hl as [Hh1 [f Ef]].
  assert (calm None s s1) as Hc1.
  { apply (keeps_calm (plus base a 1)); [by apply same_keeps|done|]. intros x. specialize (Hr x). unfold plus.
    pose proof (one_range (x = a)). lia. }
  rewrite wp_bind. eapply wp_mono; [apply (mode_create_run ext (plus base a 1) s1 kz Hd1 Hh1)|].
  - unfold room_id. by rewrite (sm_idr _ _ Hs1).
  - intros m Em. rewrite (sm_others _ _ Hs1). by apply Hkz.
  - intros [m|] s2 (Hd2 & Hh2 & Hr2 & Ef2 & Hm).
    2: { subst s2. apply wp_ret. split_and!; [done|by apply holds_some|done|done|apply Hs1|apply Hs1]. }
    destruct Hm as (Ekz & Hm & Hrest).
    assert (calm None s s2) as Hc2.
    { etrans; [exact Hc1|]. apply (calm_fresh m); [by apply rest_calm|]. rewrite (sm_others _ _ Hs1). by apply Hkz. }
    assert (crtcs s2 = crtcs s /\ planes s2 = planes s) as [Ecs Eps].
    { by rewrite (rs_crtcs _ _ _ Hrest), (rs_planes _ _ _ Hrest), (sm_crtcs _ _ Hs1), (sm_planes _ _ Hs1). }
    assert (forall ret t, let sf := mk_so_far ret (Some a) (Some m) t in
      dev_ok ext s2 /\ held (fun x => base x + one (sf_fb sf = Some x)) s2 /\
      calm None s s2 /\ (forall m, sf_mode sf = Some m -> kz = Some m /\ mode_at s2 m) /\
      crtcs s2 = crtcs s /\ planes s2 = planes s) as Hdone.
    { intros ret t. split_and!; try done; [by apply holds_some|]. by intros m' [= <-]. }
    destruct (drm_crtc_convert_umode _) as [ret|t]; [by apply wp_ret|].
    rewrite wp_bind. apply (wp_get_fb a f); [by rewrite Ef2|]. rewrite wp_bind. apply (wp_crtc_get cr c'); [by rewrite Ecs|].
    destruct (viewport_ok _ _ _ _ _ _); by apply wp_ret.
Qed.

Lemma find_connectors_run ext s ids : dev_ok ext s -> wp (find_connectors ids) (fun _ s' => s' = s) s.
Proof.
  intros Hd. induction ids as [|[n|] ids IH]; [done| |done]. cbn [find_connectors]. rewrite wp_bind.
  eapply wp_mono; [by apply (obj_find_run ext)|]. intros [[| | |k]|] s1 [-> _]; try by apply wp_ret.
  rewrite wp_bind. eapply wp_mono; [exact IH|]. intros y s1 ->. by apply wp_ret.
Qed.

(** Nothing but a memory allocation happens when the connectors are looked up. *)
Lemma setcrtc_connectors_run ext s r sf : dev_ok ext s ->
  wp (setcrtc_connectors r sf) (fun _ s' => exists al, s' = set_allocs al s) s.
Proof.
  intros Hd. assert (exists al, s = set_allocs al s) as Hnone by (exists (allocs s); by destruct s).
  unfold setcrtc_connectors. destruct (_ && _); [by apply wp_ret|]. destruct (_ && _); [by apply wp_ret|].
  destruct (_ =? _); [by apply wp_ret|]. rewrite wp_bind, wp_gets. destruct (_ >? _); [by apply wp_ret|].
  rewrite wp_bind. apply wp_next_alloc. intros [] al; cbn [negb]; [|apply wp_ret; by exists al].
  eapply wp_mono; [apply (find_connectors_run ext)|]. { destruct Hd. by split. }
  intros y s1 ->. by exists al.
Qed.

Lemma setcrtc_prepare_run ext base s r kz : dev_ok ext s -> held base s -> can_hold base s -> (forall x, reg s x <= base x) ->
  room_id s -> (forall m, kz = Some m -> others s !! m = None) ->
  wp (setcrtc_prepare r kz) (fun y s' => dev_ok ext s' /\ calm None s s' /\
    match y with
    | inr (set, mode) => held (fun x => base x + one (set_fb set = Some x)) s' /\
        forall m, mode = Some m -> kz = Some m /\ mode_at s' m
    | inl _ => held base s'
    end) s.
Proof.
  intros Hd Hh Hf Hr Hroom Hkz. unfold setcrtc_prepare. destruct (_ || _); [by apply wp_ret|]. rewrite wp_bind.
  eapply wp_mono; [by apply (find_crtc_run ext)|]. intros [cr|] s1 [-> Hc]; [|by apply wp_ret].
  destruct (Hc cr eq_refl) as [_ Hcr]. rewrite wp_bind.
  eapply wp_mono; [by apply (setcrtc_mode_run ext base)|]. intros sf s1 (Hd1 & Hh1 & Hc1 & Hm1 & Ec1 & Ep1).
  assert (forall s2 ret, dev_ok ext s2 -> held (fun x => base x + one (sf_fb sf = Some x)) s2 -> calm None s s2 ->
    (forall m, sf_mode sf = Some m -> mode_at s2 m) ->
    wp (v ← setcrtc_out (sf_fb sf) (sf_mode sf) ret; mret (inl v)) (fun (y : Z + drm_mode_set * option nat) s' =>
      dev_ok ext s' /\ calm None s s' /\
      match y with
      | inr (set, mode) => held (fun x => base x + one (set_fb set = Some x)) s' /\
          forall m, mode = Some m -> kz = Some m /\ mode_at s' m
      | inl _ => held base s'
      end) s2) as Hout.
  { intros s2 ret Hd2 Hh2 Hc2 Hm2. rewrite wp_bind. eapply wp_mono; [apply (setcrtc_out_run ext base s2 _ _ ret Hd2 Hh2)|].
    - intros x. rewrite (cm_reg _ _ _ Hc2). apply Hr.
    - done.
    - intros v s3 (_ & Hd3 & Hh3 & Hc3). apply wp_ret. split_and!; try done. destruct (sf_mode sf) as [m|] eqn:Em.
      + apply (calm_fresh m); [by eapply calm_trans|]. apply Hkz. by apply (Hm1 m).
      + by etrans. }
  destruct (negb _). { apply Hout; try done. intros m Em. by apply (Hm1 m). }
  rewrite wp_bind. eapply wp_mono; [by apply (setcrtc_connectors_run ext)|]. intros y s2 (al & ->).
  assert (dev_ok ext (set_allocs al s1)) as Hd2 by (destruct Hd1; by split).
  assert (held (fun x => base x + one (sf_fb sf = Some x)) (set_allocs al s1)) as Hh2 by (destruct Hh1; by split).
  assert (calm None s (set_allocs al s1)) as Hc2 by (etrans; [exact Hc1|by split]).
  destruct y as [e|l].
  - apply Hout; try done. intros m Em. by apply (Hm1 m).
  - apply wp_ret. split_and!; try done.
Qed.
End Calls.
