(* ===== verification/FbAdd.v ===== *)
(** * Framebuffers: adding one, giving it to a file, taking it away *)

From S2P Require Import Prelude Sums HandleTable Idr Modes Gem Tiling FbFormat Framebuffer ModeIoctl FbFacts FbShow FbLife FbSystem FbInv FbParts FbCalls.

Open Scope Z_scope.

Section Add.
Context {G T D : Type} `{HandleTableLaws G T oid} `{KmsLaws D}.
Abbreviation device := (device (G := G) (T := T) (D := D)).
Implicit Types (s : device) (ts : list thread) (base : nat -> Z) (a x : nat) (f : fid).
(** What is left of a request: a framebuffer with two references, or nothing. *)
Definition created (ext : oid -> Z) base s (kz : option nat) (y : option nat) s' : Prop :=
  dev_ok ext s' /\
  match y with
  | Some a => kz = Some a /\ held (plus base a 2) s' /\ reg s' a = 1 /\ (forall x, x <> a -> reg s' x = reg s x) /\ rest (PFb a) s s'
  | None => held base s' /\ same s s'
  end.

Section Create.
Context (c : chip) (tiling : oid -> Z * Z).

Lemma user_create_run ext base s f r kz : dev_ok ext s -> held base s -> room_id s ->
  (forall a, kz = Some a -> fbs s !! a = None) -> (forall a, fits s (plus base a 2)) ->
  is_Some (object_idrs (objs s) !! f) -> room (objs s) -> 0 <= nth4 (handles r) 0 < 2 ^ 32 ->
  wp (intel_user_framebuffer_create c tiling f r kz) (created ext base s kz) s.
Proof.
  intros Hd Hh Hroom Hkz Hf [t Ht] Hg Hn. unfold intel_user_framebuffer_create. rewrite wp_bind, wp_on_gem.
  destruct (lookup_run _ _ _ f t (nth4 (handles r) 0) (d_gem _ _ Hd) (d_named _ _ Hd) Hg Ht Hn)
    as (obj & g & Eg & _ & Hnm & Hgi & Hnone & Ec & _ & Ei & _).
  exists obj, g. split; [done|]. destruct obj as [o|].
  2: { rewrite (Hnone eq_refl). apply wp_ret. replace (set_objs (objs s) s) with s by by destruct s. done. }
  eapply wp_mono; [apply (fb_create_run c tiling ext base (set_objs g s) r o kz)|]; try done.
  - destruct Hd as [H1 H2 H3 H4 H5 H6 H7 H8 H9 H10 H11 H12]. split; try done.
    + intros y. unfold bump. specialize (H9 y). case_decide; lia.
    + eapply inv_ext; [|exact Hgi]. intros y. unfold bump. simpl. case_decide; lia.
  - apply Hd.
  - by destruct Hh.
  - intros y s' [Hd' Hy]. split; [done|]. destruct y as [a|].
    + destruct Hy as (Ek & Hh' & Hr & Hr' & [E1 E2 E3 E4 E5 [E6 E7] E8 E9]). split_and!; try done.
      split; try done. simpl in *. by rewrite E6, E7.
    + destruct Hy as [Hh' [E1 E2 E3 E4 E5 E6 E7 E8 [E9 E10] E11]]. split; [done|]. split; try done. simpl in *. by rewrite E9, E10.
Qed.

Lemma created_inl ext base s kz (e : Z) : dev_ok ext s -> held base s ->
  wp (mret (inl e) : K (Z + nat)) (fun y s' => created ext base s kz (match y with inr a => Some a | inl _ => None end) s') s.
Proof. intros Hd Hh. apply wp_ret. by split. Qed.

(** Both versions of the call. *)
Lemma addfb_create_run ext base s f r kz : dev_ok ext s -> held base s -> room_id s ->
  (forall a, kz = Some a -> fbs s !! a = None) -> (forall a, fits s (plus base a 2)) ->
  is_Some (object_idrs (objs s) !! f) -> room (objs s) -> 0 <= nth4 (handles r) 0 < 2 ^ 32 ->
  wp (addfb_create c tiling f r kz) (fun y s' => created ext base s kz (match y with inr a => Some a | inl _ => None end) s') s /\
  wp (addfb2_create c tiling f r kz) (fun y s' => created ext base s kz (match y with inr a => Some a | inl _ => None end) s') s.
Proof.
  intros Hd Hh Hroom Hkz Hf Ht Hg Hn.
  assert (wp (fb ← intel_user_framebuffer_create c tiling f r kz;
              match fb with None => mret (inl (- ENOMEM)) | Some a => mret (inr a) end : K (Z + nat))
    (fun y s' => created ext base s kz (match y with inr a => Some a | inl _ => None end) s') s) as Hcr.
  { rewrite wp_bind. eapply wp_mono; [by apply (user_create_run ext base)|]. intros [a|] s' Hy; by apply wp_ret. }
  assert (forall k : bool -> K (Z + nat), (forall b, wp (k b) (fun y s' => created ext base s kz (match y with inr a => Some a | inl _ => None end) s') s) ->
    wp (size_ok r ≫= k) (fun y s' => created ext base s kz (match y with inr a => Some a | inl _ => None end) s') s) as Hsize.
  { intros k Hk. rewrite wp_bind. unfold size_ok. rewrite wp_bind, wp_gets. destruct (limits s) as [[minw maxw] [minh maxh]].
    apply wp_ret, Hk. }
  split.
  - unfold addfb_create. apply Hsize. intros [|]; [done|by apply created_inl].
  - unfold addfb2_create. destruct (negb _); [by apply created_inl|]. apply Hsize. intros [|]; [|by apply created_inl].
    cbn [negb]. destruct (negb _); [by apply created_inl|]. done.
Qed.

End Create.

(** ** The invariant with one more framebuffer *)

Lemma mode_rest a s s' m : rest (PFb a) s s' -> mode_at s m -> mode_at s' m.
Proof.
  intros Hr (o & Ho & Hu). exists o. rewrite (rs_others _ _ _ Hr) by done. split; [done|]. by apply (rs_ids _ _ _ Hr).
Qed.

Lemma thread_rest p s s' t : rest p s s' -> thread_ok s t -> thread_ok s' t.
Proof. intros Hr. apply thread_keeps; [by rewrite (rs_crtcs _ _ _ Hr)|by rewrite (rs_planes _ _ _ Hr)|by apply (rs_files _ _ _ Hr)]. Qed.

Lemma inv_created ext s ts kz y t s' : inv s ts -> (forall a, kz = Some a -> fbs s !! a = None) ->
  created ext (holders s ts) s kz y s' ->
  (forall a, y = Some a -> thread_ok s (t a) /\ modes [t a] = [] /\ forall x, owns x (t a) = one (a = x) /\ refs x (t a) = 0) ->
  inv s' ((match y with Some a => [t a] | None => [] end) ++ ts).
Proof.
  intros Hi Hkz [Hd Hy] Ht. destruct y as [a|]; simpl.
  - destruct Hy as (-> & Hh & Hra & Hr & Hrest). specialize (Hkz a eq_refl). destruct (Ht a eq_refl) as (Htok & Hmd & Hw).
    assert (forall x, reg s' x = reg s x + one (a = x)) as Hreg.
    { intros x. destruct (decide (x = a)) as [->|Hx]; [|rewrite Hr, one_no by done; lia].
      rewrite Hra, one_yes by done. unfold reg. rewrite Hkz. lia. }
    assert (forall x, owners s' (t a :: ts) x = owners s ts x + one (a = x)) as Ho.
    { intros x. unfold owners. rewrite (rs_files _ _ _ Hrest), total_cons. destruct (Hw x) as [-> _]. lia. }
    assert (modes (t a :: ts) = modes ts) as Em by (change (t a :: ts) with ([t a] ++ ts); by rewrite modes_app, Hmd).
    split.
    + by exists ext.
    + eapply held_ext; [|exact Hh]. intros x. unfold holders, plus. rewrite total_cons, Ho, Hreg. destruct (Hw x) as [_ ->].
      rewrite (one_iff (x = a) (a = x)) by done. lia.
    + intros x. rewrite Ho, Hreg, (i_own _ _ Hi). done.
    + apply Forall_cons. split; [by apply (thread_rest (PFb a) s)|]. eapply Forall_impl; [apply Hi|].
      intros t'. by apply (thread_rest (PFb a)).
    + rewrite Em. apply Hi.
    + rewrite Em. eapply Forall_impl; [apply (i_modes _ _ Hi)|]. intros m. by apply (mode_rest a).
    + intros f. rewrite (rs_files _ _ _ Hrest). destruct (rs_handles _ _ _ Hrest) as [-> _]. apply Hi.
  - destruct Hy as [Hh Hs]. assert (calm None s s') as Hc.
    { apply (keeps_calm (holders s ts)); [by apply same_keeps|done|apply (i_held _ _ Hi)]. }
    apply (inv_calm None ext s s' ts ts); try done.
    + apply Hi.
    + apply Hi.
    + eapply Forall_impl; [apply (i_modes _ _ Hi)|]. intros m. by apply Hc.
Qed.

(** ** The lists of files *)

Lemma owners_files s ts m x : owners (set_files m s) ts x = mtotal (occurs x) m + total (owns x) ts.
Proof. done. Qed.

Lemma add_to_file_run s ts f a : inv s (TAdd f a :: ts) ->
  wp (add_to_file f a) (fun _ s' => inv s' ts) s.
Proof.
  intros Hi. pose proof (i_threads _ _ Hi) as Ht. apply Forall_cons in Ht as [[l Hl] Ht]. simpl in Hl.
  pose proof (i_own _ _ Hi) as Ho. destruct (i_dev _ _ Hi) as [ext Hd]. pose proof (i_held _ _ Hi) as Hh.
  assert (1 <= owners s (TAdd f a :: ts) a) as Hoa.
  { unfold owners. simpl. rewrite one_yes by done. pose proof (mtotal_nonneg (occurs a) (files s) ltac:(intros; apply occurs_nonneg)).
    pose proof (total_nonneg (owns a) ts ltac:(intros; apply owns_nonneg)). lia. }
  destruct (cnt_live _ s a (h_cnt _ _ Hh)) as (g & Eg & _).
  { simpl. unfold holders. pose proof (reg_range s a). pose proof (total_refs_nonneg (TAdd f a :: ts) a). pose proof (cnt_upper s a). lia. }
  unfold add_to_file. rewrite wp_bind, wp_gets, wp_bind, wp_opt. exists l. split; [done|].
  rewrite wp_bind. apply (wp_get_fb a g); [done|]. rewrite wp_bind, wp_modify. apply wp_ret. set (s1 := set_files _ s).
  assert (forall x, owners s1 ts x = owners s (TAdd f a :: ts) x) as Ho1.
  { intros x. unfold s1. rewrite owners_files, (mtotal_insert _ _ f l) by done. unfold owners. rewrite total_cons.
    change (occurs x (a :: l)) with (one (a = x) + occurs x l). simpl. lia. }
  assert (files s1 = <[f := a :: l]> (files s)) as Ef1 by done.
  split; try done.
  - exists ext. by destruct Hd.
  - assert (forall x, holders s1 ts x = holders s (TAdd f a :: ts) x) as Hx.
    { intros x. unfold holders. rewrite Ho1, total_cons. change (refs x (TAdd f a)) with 0. change (reg s1 x) with (reg s x). lia. }
    eapply held_ext; [intros x; symmetry; apply Hx|]. by destruct Hh.
  - intros x. rewrite Ho1. apply Ho.
  - eapply Forall_impl; [exact Ht|]. intros t. unfold thread_ok. rewrite Ef1. destruct t as [f' b| | | |r n| |]; try done.
    rewrite lookup_insert_is_Some. intros. destruct (decide (f = f')); naive_solver.
  - apply (i_nodup _ _ Hi).
  - apply (i_modes _ _ Hi).
  - intros f'. rewrite Ef1, lookup_insert_is_Some. intros [<-|[_ Hf']]; apply (i_files _ _ Hi); [by rewrite Hl|done].
Qed.

(** A framebuffer of a file has its identifier, is owned once, and loses both. *)
Lemma take_from_file s ts f l a : inv s ts -> files s !! f = Some l -> a ∈ l ->
  wp (__drm_framebuffer_unregister a) (fun _ s1 => files s1 = files s /\
    inv (set_files (<[f := filter (fun x => x <> a) l]> (files s)) s1) (TRemove a :: ts) /\
    (forall n, used_ids (crtc_idr s1) !! n <> Some (PFb a)) /\
    forall n p, p <> PFb a -> used_ids (crtc_idr s1) !! n = Some p <-> used_ids (crtc_idr s) !! n = Some p) s.
Proof.
  intros Hi Hl Ha. destruct (i_dev _ _ Hi) as [ext Hd]. pose proof (i_held _ _ Hi) as Hh. pose proof (i_own _ _ Hi) as Ho.
  assert (0 < occurs a l) as Hocc by by apply occurs_in.
  assert (occurs a l <= mtotal (occurs a) (files s)) as Hm by (apply (mtotal_pos _ _ f l); [intros; apply occurs_nonneg|done]).
  pose proof (total_nonneg (owns a) ts ltac:(intros; apply owns_nonneg)) as Hown0.
  pose proof (reg_range s a) as Hra. pose proof (Ho a) as Hoa. unfold owners in Hoa.
  assert (reg s a = 1 /\ occurs a l = 1) as [Hreg Hone] by lia.
  set (base := fun x => holders s ts x - one (x = a)).
  assert (forall x, plus base a 1 x = holders s ts x) as Hplus by (intros x; unfold plus, base; lia).
  eapply wp_mono; [apply (unregister_run ext base s a Hd); [|done|]|].
  - eapply held_ext; [|exact Hh]. done.
  - unfold base, holders. rewrite one_yes by done. pose proof (total_refs_nonneg ts a). unfold owners. lia.
  - intros [] s1 (Hd1 & Hh1 & Hr1 & _ & Hrest & Hdom). split; [by apply (rs_files _ _ _ Hrest)|].
    assert (forall n, used_ids (crtc_idr s1) !! n <> Some (PFb a)) as Hno.
    { intros n Hn. destruct (d_base _ _ Hd1 n _ Hn) as (b & Hb & Hbn & _). simpl in Hb.
      destruct (fbs s1 !! a) as [g|] eqn:Eg; [|done]. injection Hb as Hb. specialize (Hr1 a). unfold reg at 1 in Hr1.
      rewrite Eg, Hb, Hbn, one_yes, decide_True in Hr1 by done. lia. }
    split; [|split; [done|apply Hrest]]. set (s2 := set_files _ s1). set (l' := filter (fun x => x <> a) l).
    assert (forall x, mtotal (occurs x) (<[f := l']> (files s)) = mtotal (occurs x) (files s) - one (x = a)) as Hmt.
    { intros x. rewrite (mtotal_insert _ _ f l) by done. unfold l'. rewrite occurs_filter.
      case_decide as Hx; [subst; rewrite one_yes by done; lia|rewrite one_no by done; lia]. }
    assert (forall x, owners s2 (TRemove a :: ts) x = owners s ts x - one (x = a)) as Ho2.
    { intros x. unfold s2. rewrite owners_files, Hmt. unfold owners. rewrite total_cons. simpl. lia. }
    assert (forall x, reg s2 x = reg s x - one (x = a)) as Hr2.
    { intros x. change (reg s2 x) with (reg s1 x). rewrite Hr1. case_decide as Hx; [subst; rewrite one_yes by done; lia|rewrite one_no by done; lia]. }
    assert (files s2 = <[f := l']> (files s)) as Ef2 by done.
    split.
    + exists ext. by destruct Hd1.
    + eapply (held_ext base); [|by destruct Hh1]. intros x. unfold holders, base. rewrite Ho2, Hr2, total_cons. simpl.
      rewrite (one_iff (a = x) (x = a)) by done. unfold holders. lia.
    + intros x. rewrite Ho2, Hr2, Ho. done.
    + apply Forall_cons. split; [done|]. eapply Forall_impl; [apply (i_threads _ _ Hi)|]. intros t.
      unfold thread_ok. rewrite Ef2. change (planes s2) with (planes s1). change (crtcs s2) with (crtcs s1). rewrite (rs_planes _ _ _ Hrest), (rs_crtcs _ _ _ Hrest).
      destruct t as [f' b| | | |r n| |]; try done.
      rewrite lookup_insert_is_Some. intros. destruct (decide (f = f')); naive_solver.
    + apply (i_nodup _ _ Hi).
    + eapply Forall_impl; [apply (i_modes _ _ Hi)|]. intros m Hmd. destruct (mode_rest a s s1 m Hrest Hmd) as (o & Hoo & Hu). by exists o.
    + intros f'. rewrite Ef2, lookup_insert_is_Some. simpl. destruct (rs_handles _ _ _ Hrest) as [-> _].
      intros [<-|[_ Hf']]; apply (i_files _ _ Hi); [by rewrite Hl|done].
Qed.
End Add.
