(* ===== verification/FbSafe.v ===== *)
(** * Framebuffers: no part of a call faults, and every count is right

    The invariant of FbInv through every event the system allows, and from it through
    every run. *)

From S2P Require Import Prelude Sums HandleTable Idr Modes Gem Tiling FbFormat Framebuffer ModeIoctl FbFacts FbShow FbLife FbSystem FbInv FbParts FbCalls FbAdd.

Open Scope Z_scope.

Section Safe.
Context {G T D : Type} `{HandleTableLaws G T oid} `{KmsLaws D}.
Abbreviation gem := (gem (G := G) (T := T)).
Abbreviation device := (device (G := G) (T := T) (D := D)).
Abbreviation call := (call (G := G) (T := T) (D := D)).
Implicit Types (s : device) (ts : list thread) (a x : nat) (f : fid) (k : call).
Context (c : chip) (tiling : oid -> Z * Z).

(** ** What can begin *)

(** Counters have room, and there is an identifier. *)
Definition roomy s ts : Prop := (forall a, fits s (plus (holders s ts) a 2)) /\ room_id s.

(** The GEM objects with these references besides those of framebuffers. *)
Definition gem_ok (ext : oid -> Z) (m : gmap nat framebuffer) (g : gem) : Prop :=
  (forall o, 0 <= ext o) /\ gem_inv (fun o => ext o + fbs_on o m) (fun _ => 0) g.

Definition can_add s ts f (r : drm_mode_fb_cmd2) (kz : option nat) : Prop :=
  roomy s ts /\ is_Some (files s !! f) /\ room (objs s) /\ 0 <= nth4 (handles r) 0 < 2 ^ 32 /\
  forall a, kz = Some a -> fbs s !! a = None.

(** A call is made on an open file; memory that is allocated is not in use; counters do
    not overflow.  The console is restored only while every plane shows a framebuffer
    that somebody besides planes and CRTCs holds, which the driver does not see to
    ([plane_race_bug] in FbRuns.v). *)
Definition allowed k s ts : Prop :=
  match k with
  | CAddfb f r kz | CAddfb2 f r kz => can_add s ts f r kz
  | CFbdev r o kz => roomy s ts /\ (exists ext, (forall y, 0 <= ext y) /\ gem_ok (bump ext o 1) (fbs s) (objs s)) /\
      forall a, kz = Some a -> fbs s !! a = None
  | CRmfb f n => is_Some (files s !! f)
  | CRelease f => True
  | CGetfb f n => roomy s ts /\ is_Some (files s !! f) /\ room (objs s) /\ ht_ok 2 (counters (objs s)) /\
      forall t, object_idrs (objs s) !! f = Some t -> Z.of_nat (size (ht_map t)) < ht_capacity
  | CSetplane r => roomy s ts
  | CSetcrtc r kz => roomy s ts /\ forall m, kz = Some m -> others s !! m = None
  | CFlip _ _ _ _ _ => roomy s ts
  | CRestore sets =>
      (forall p pl a, planes s !! p = Some pl -> p_fb pl = Some a -> 1 <= holders s ts a) /\
      (forall set a, set ∈ sets -> set_fb set = Some a -> 1 <= holders s ts a)
  | COpen f => files s !! f = None /\ is_Some (object_idrs (objs s) !! f)
  | CClose f => files s !! f = Some [] /\ forall t a, t ∈ ts -> t <> TAdd f a
  | CGem g => (exists ext, gem_ok ext (fbs s) g) /\ named_ok g /\
      forall f, is_Some (files s !! f) -> is_Some (object_idrs g !! f)
  | CDriver d => forall n, crtc_fb d n = crtc_fb (drv s) n
  end.

Lemma can_hold_roomy s ts : roomy s ts -> can_hold (holders s ts) s.
Proof. intros [Hf _] a x. specialize (Hf a x). unfold plus in *. pose proof (one_range (x = a)). lia. Qed.

Lemma reg_holders s ts x : reg s x <= holders s ts x.
Proof. unfold holders. pose proof (owners_nonneg s ts x). pose proof (total_refs_nonneg ts x). lia. Qed.

(** ** Threads that hold some references *)

Lemma inv_more m ext s s' ts t : inv s ts -> dev_ok ext s' -> calm m s s' ->
  held (fun x => holders s ts x + refs x t) s' -> thread_ok s t -> (forall x, owns x t = 0) ->
  NoDup (modes [t] ++ modes ts) -> Forall (mode_at s') (modes [t] ++ modes ts) -> inv s' (t :: ts).
Proof.
  intros Hi Hd Hc Hh Ht Hw Hm1 Hm2.
  assert (forall x, owners s (t :: ts) x = owners s ts x) as Ho by (intros x; unfold owners; rewrite total_cons, Hw; lia).
  apply (inv_calm m ext s s' ts); try done.
  - eapply held_ext; [|exact Hh]. intros x. unfold holders. rewrite Ho, total_cons. lia.
  - apply Forall_cons. split; [done|apply Hi].
  - change (t :: ts) with ([t] ++ ts). by rewrite modes_app.
  - change (t :: ts) with ([t] ++ ts). by rewrite modes_app.
Qed.

(** A thread without a mode that begins with [l]. *)
Lemma inv_same ext s s' ts t : inv s ts -> dev_ok ext s' -> keeps s s' ->
  held (fun x => holders s ts x + refs x t) s' -> thread_ok s t -> (forall x, owns x t = 0) -> modes [t] = [] -> inv s' (t :: ts).
Proof.
  intros Hi Hd Hk Hh Ht Hw Hm.
  assert (calm None s s') as Hc.
  { apply (keeps_calm _ s s' Hk Hh). intros x. pose proof (reg_holders s ts x). pose proof (refs_nonneg x t). lia. }
  apply (inv_more None ext s s'); try done; rewrite Hm; [apply Hi|].
  eapply Forall_impl; [apply (i_modes _ _ Hi)|]. intros m. by apply Hc.
Qed.

Lemma inv_none ext s s' ts : inv s ts -> dev_ok ext s' -> keeps s s' -> held (holders s ts) s' -> inv s' ts.
Proof.
  intros Hi Hd Hk Hh. assert (calm None s s') as Hc by apply (keeps_calm _ s s' Hk Hh), reg_holders.
  apply (inv_calm None ext s s' ts ts); try done; try apply Hi.
  eapply Forall_impl; [apply (i_modes _ _ Hi)|]. intros m. by apply Hc.
Qed.

Lemma holders_cons s ts t x : (forall y, owns y t = 0) -> holders s (t :: ts) x = holders s ts x + refs x t.
Proof. intros Hw. unfold holders, owners. rewrite !total_cons, Hw. lia. Qed.

(** A part of a thread that keeps the equation gives an invariant of what is left of it. *)
Lemma inv_next m ext s s' ts t l : inv s (t :: ts) -> (forall x, owns x t = 0) -> dev_ok ext s' -> calm m s s' ->
  held (fun x => holders s ts x + total (refs x) l) s' -> (forall x, total (owns x) l = 0) -> Forall (thread_ok s) l ->
  modes l = [] -> (forall i, m = Some i -> modes [t] = [i]) -> inv s' (l ++ ts).
Proof.
  intros Hi Hw Hd Hc Hh Hl Hts Hm Hk. pose proof (i_nodup _ _ Hi) as Hnd. pose proof (i_modes _ _ Hi) as Hma.
  change (t :: ts) with ([t] ++ ts) in Hnd, Hma. rewrite modes_app in Hnd, Hma.
  apply NoDup_app in Hnd as (_ & Hdis & Hnd). apply Forall_app in Hma as [_ Hma].
  assert (forall x, owners s (l ++ ts) x = owners s ts x) as Ho by (intros x; unfold owners; rewrite total_app, Hl; lia).
  apply (inv_calm m ext s s' (t :: ts)); try done.
  - eapply held_ext; [|exact Hh]. intros x. unfold holders. rewrite Ho, total_app. lia.
  - intros x. rewrite Ho. unfold owners. by rewrite total_cons, Hw.
  - apply Forall_app. split; [done|]. pose proof (i_threads _ _ Hi) as Ht. by apply Forall_cons in Ht as [_ Ht].
  - by rewrite modes_app, Hm.
  - rewrite modes_app, Hm. apply Forall_forall. intros i Hin. rewrite Forall_forall in Hma.
    apply Hc; [|by apply Hma]. intros E. specialize (Hk i E). apply (Hdis i); [rewrite Hk; set_solver|done].
Qed.

Lemma keeps_next ext s s' ts t l : inv s (t :: ts) -> (forall x, owns x t = 0) -> dev_ok ext s' -> keeps s s' ->
  held (fun x => holders s ts x + total (refs x) l) s' -> (forall x, total (owns x) l = 0) -> Forall (thread_ok s) l ->
  modes l = [] -> inv s' (l ++ ts).
Proof.
  intros Hi Hw Hd Hk Hh Hl Hts Hm. apply (inv_next None ext s s' ts t); try done.
  apply (keeps_calm _ s s' Hk Hh). intros x. pose proof (reg_holders s ts x). pose proof (total_refs_nonneg l x). lia.
Qed.

(** ** The parts *)

(** Making a handle closes no file. *)
Lemma handle_create_files n f (o : oid) ok (g : gem) ret nid g' : drm_gem_handle_create n f o ok g = Some (ret, nid, g') ->
  forall f', is_Some (object_idrs g !! f') -> is_Some (object_idrs g' !! f').
Proof.
  assert (forall f0 (t : T) (m : gmap fid T) f', is_Some (m !! f') -> is_Some (<[f0 := t]> m !! f')) as Hins.
  { intros f0 t m f' Hm. apply lookup_insert_is_Some. destruct (decide (f0 = f')); [by left|by right]. }
  revert g ret nid g'. induction n as [|n IH]; [done|]. intros g ret nid g' E f' Hf'. simpl in E.
  destruct (objects g !! o) as [ob|] eqn:Eo; [|done]. destruct (object_idrs g !! f) as [t|]; [|done]. simpl in E.
  destruct (ht_new (counters g) t o ok) as [[[[r i] cs] t']|]; [|done]. simpl in E. destruct (r =? - EAGAIN).
  - apply (IH _ _ _ _ E). by apply Hins.
  - destruct (negb (r =? 0)); [injection E as <- <- <-; by apply Hins|].
    unfold drm_gem_object_handle_reference, drm_gem_object_reference, Gem.kref_get, upd_obj in E. simpl in E. rewrite Eo in E. simpl in E.
    rewrite lookup_insert_eq in E. simpl in E. injection E as <- <- <-. by apply Hins.
Qed.


Lemma holders_plus s ts t a x : (forall y, owns y t = 0) -> (forall y, refs y t = one (a = y)) ->
  holders s (t :: ts) x = plus (holders s ts) a 1 x.
Proof. intros Hw Hr. rewrite holders_cons, Hr by done. unfold plus. rewrite (one_iff (x = a) (a = x)) by done. lia. Qed.

Lemma held_nil s ts s' : held (holders s ts) s' -> held (fun x => holders s ts x + total (refs x) []) s'.
Proof. apply held_ext. intros x. simpl. lia. Qed.

Lemma resume_ok s ts t : inv s (t :: ts) -> wp (resume t) (fun l s' => inv s' (l ++ ts)) s.
Proof.
  intros Hi. destruct (i_dev _ _ Hi) as [ext Hd]. pose proof (i_held _ _ Hi) as Hh.
  pose proof (i_threads _ _ Hi) as Hts. apply Forall_cons in Hts as [Htok _].
  assert (forall x, reg s x <= holders s ts x) as Hr by apply reg_holders.
  destruct t as [f a|a|a|[|a l]|r n|set mode|fl cr a]; cbn [resume].
  - rewrite wp_bind. eapply wp_mono; [by apply add_to_file_run|]. intros n s' Hi'. by apply wp_ret.
  - by apply wp_ret.
  - rewrite wp_bind. assert (held (plus (holders s ts) a 1) s) as Hh1.
    { eapply held_ext; [|exact Hh]. intros x. by rewrite (holders_plus _ _ _ a). }
    eapply wp_mono; [by apply (fb_remove_run ext (holders s ts))|]. intros [] s' (Hd' & Hh' & Hk & _). apply wp_ret.
    apply (keeps_next ext s s' ts (TRemove a) []); try done. by apply held_nil.
  - apply wp_ret. apply (keeps_next ext s s ts (TDrop []) []); try done. eapply held_ext; [|exact Hh].
    intros x. by rewrite holders_cons.
  - rewrite wp_bind. assert (held (plus (fun x => holders s ts x + occurs x l) a 1) s) as Hh1.
    { eapply held_ext; [|exact Hh]. intros x. rewrite holders_cons by done. unfold plus.
      change (refs x (TDrop (a :: l))) with (one (a = x) + occurs x l). rewrite (one_iff (x = a) (a = x)) by done. lia. }
    eapply wp_mono; [eapply (unref_held ext _ s a Hd Hh1)|].
    + intros x. specialize (Hr x). pose proof (occurs_nonneg x l). lia.
    + intros [] s' (Hd' & Hh' & Hs). apply wp_ret.
      apply (keeps_next ext s s' ts (TDrop (a :: l)) [TDrop l]); try done; [by apply same_keeps| |by repeat constructor].
      eapply held_ext; [|exact Hh']. intros x. simpl. lia.
  - rewrite wp_bind. assert (forall y, owns y (TPlane r n) = 0) as Hw by done.
    assert (held (fun x => holders s ts x + one (next_fb n = Some x)) s) as Hh1.
    { eapply held_ext; [|exact Hh]. intros x. rewrite holders_cons by done. destruct n; simpl; rewrite ?one_none, ?one_some; done. }
    eapply wp_mono; [apply (plane_commit_run ext (holders s ts) s r n Hd Hh1 Hr)|].
    + intros p Hp. by destruct n as [|q|q cr a]; simpl in *; simplify_eq.
    + intros [ret l] s' (Hd' & Hh' & Hk). apply wp_ret. apply (keeps_next ext s s' ts (TPlane r n) [TDrop l]); try done; [|by repeat constructor].
      eapply held_ext; [|exact Hh']. intros x. simpl. lia.
  - rewrite wp_bind. assert (held (fun x => holders s ts x + one (set_fb set = Some x)) s) as Hh1.
    { eapply held_ext; [|exact Hh]. intros x. by rewrite holders_cons. }
    pose proof (i_modes _ _ Hi) as Hma.
    eapply wp_mono; [apply (set_commit_run ext (holders s ts) s set mode Hd Hh1 Hr)|].
    + intros m ->. by apply Forall_cons in Hma as [Hma _].
    + intros v s' (Hd' & Hh' & Hc). apply wp_ret. apply (inv_next mode ext s s' ts (TSet set mode) []); try done.
      * by apply held_nil.
      * by intros m ->.
  - rewrite wp_bind. assert (held (plus (holders s ts) a 1) s) as Hh1.
    { eapply held_ext; [|exact Hh]. intros x. by rewrite (holders_plus _ _ _ a). }
    eapply wp_mono; [by apply (flip_commit_run ext (holders s ts))|]. intros v s' (Hd' & Hh' & Hk). apply wp_ret.
    apply (keeps_next ext s s' ts (TFlip fl cr a) []); try done. by apply held_nil.
Qed.
Lemma getfb_handle_run ext base s f a : dev_ok ext s -> held (plus base a 1) s -> is_Some (object_idrs (objs s) !! f) ->
  (forall x, 0 <= base x) -> room (objs s) -> ht_ok 2 (counters (objs s)) ->
  (forall t, object_idrs (objs s) !! f = Some t -> Z.of_nat (size (ht_map t)) < ht_capacity) ->
  wp (getfb_handle f a) (fun _ s' => exists g al, s' = set_objs g (set_allocs al s) /\ dev_ok ext s' /\
    forall f', is_Some (object_idrs (objs s) !! f') -> is_Some (object_idrs g !! f')) s.
Proof.
  intros Hd Hh [t Ht] Hb Hroom Hok Hcap. pose proof (h_cnt _ _ Hh a) as Hx. simpl in Hx. rewrite plus_eq in Hx.
  pose proof (cnt_upper s a). specialize (Hb a). destruct (fbs s !! a) as [fb|] eqn:Ef; [|lia].
  unfold getfb_handle. rewrite wp_bind. apply (wp_get_fb a fb); [done|]. rewrite wp_bind. apply wp_next_alloc.
  intros ok al. destruct (d_obj _ _ Hd a fb Ef) as [o Eo]. rewrite wp_bind, wp_opt. exists o. split; [done|]. rewrite wp_on_gem.
  change (objs (set_allocs al s)) with (objs s).
  assert (1 <= fbs_on o (fbs s)) as Hon.
  { unfold fbs_on. etrans; [|apply (mtotal_pos _ _ a fb); [intros; apply one_range|done]]. simpl. by rewrite one_yes. }
  destruct (objects (objs s) !! o) as [ob|] eqn:Eob.
  2: { destruct (gi_gone _ _ _ (d_gem _ _ Hd) o Eob) as [Hz _]. pose proof (d_ext _ _ Hd o). simpl in Hz. lia. }
  destruct (handle_create_run _ _ (objs s) f t o ok (d_gem _ _ Hd) (d_named _ _ Hd)) as (ret & nid & g & Eg & Hg & Hnm & _); try done.
  - by apply Hcap.
  - intros ob' Eob'. specialize (Hroom o ob' Eob'). lia.
  - exists (ret, nid), g. rewrite Eg. split; [done|]. exists g, al. split; [done|]. split.
    + destruct Hd. by split.
    + by apply (handle_create_files 2 f o ok (objs s) ret nid g).
Qed.

Lemma lookup_objs ext s n : dev_ok ext s -> wp (drm_framebuffer_lookup n) (fun _ s' => objs s' = objs s) s.
Proof.
  intros Hd. unfold drm_framebuffer_lookup. rewrite wp_bind. eapply wp_mono; [by apply (fb_lookup_run ext s n)|].
  intros [a|] s' [-> Hr]; [|by apply wp_ret]. destruct Hr as (_ & _ & f & Ef). rewrite wp_bind. unfold kref_get.
  by apply (wp_upd_fb a f).
Qed.

Lemma added_option f (y : Z + nat) :
  added f y = match match y with inr a => Some a | inl _ => None end with Some a => [TAdd f a] | None => [] end.
Proof. by destruct y. Qed.

(** Files that open and close. *)
Lemma inv_files ext s m ts : inv s ts -> dev_ok ext s ->
  (forall x, mtotal (occurs x) m = mtotal (occurs x) (files s)) ->
  (forall f, is_Some (m !! f) -> is_Some (object_idrs (objs s) !! f)) ->
  (forall t, t ∈ ts -> forall f a, t = TAdd f a -> is_Some (files s !! f) -> is_Some (m !! f)) -> inv (set_files m s) ts.
Proof.
  intros [_ I1 I2 I3 I4 I5 I6] Hd Hm Hf Ht.
  assert (forall x, owners (set_files m s) ts x = owners s ts x) as Ho by (intros x; unfold owners; simpl; by rewrite Hm).
  split; try done.
  - exists ext. destruct Hd. by split.
  - eapply held_ext; [|by destruct I1]. intros x. unfold holders. by rewrite Ho.
  - intros x. rewrite Ho. apply I2.
  - apply Forall_forall. intros t Hin. rewrite Forall_forall in I3. specialize (I3 t Hin). specialize (Ht t Hin).
    destruct t as [f a| | | |r n| |]; simpl in *; try done. by apply (Ht f a).
Qed.

Lemma start_ok s ts k : inv s ts -> allowed k s ts -> wp (start c tiling k) (fun l s' => inv s' (l ++ ts)) s.
Proof.
  intros Hi Hal. destruct (i_dev _ _ Hi) as [ext Hd]. pose proof (i_held _ _ Hi) as Hh.
  assert (forall x, reg s x <= holders s ts x) as Hr by apply reg_holders.
  destruct k as [f r kz|f r kz|r o kz|f n|f|f n|r|r kz|fl rv cid n ok|sets|f|f|g|d]; cbn [start] in *.
  - destruct Hal as ([Hf Hid] & Hfile & Hroom & Hn & Hkz). rewrite wp_bind.
    eapply wp_mono; [apply (addfb_create_run c tiling ext (holders s ts) s f r kz); try done; by apply (i_files _ _ Hi)|].
    intros y s' Hy. apply wp_ret. rewrite added_option. by apply (inv_created ext s ts kz _ (TAdd f)).
  - destruct Hal as ([Hf Hid] & Hfile & Hroom & Hn & Hkz). rewrite wp_bind.
    eapply wp_mono; [apply (addfb_create_run c tiling ext (holders s ts) s f r kz); try done; by apply (i_files _ _ Hi)|].
    intros y s' Hy. apply wp_ret. rewrite added_option. by apply (inv_created ext s ts kz _ (TAdd f)).
  - destruct Hal as ([Hf Hid] & (ext' & He' & He & Hg) & Hkz). rewrite wp_bind.
    assert (dev_ok (bump ext' o 1) s) as Hd' by (destruct Hd; by split).
    eapply wp_mono; [by apply (fb_create_run c tiling ext' (holders s ts) s r o kz)|].
    intros y s' Hy. apply wp_ret. by apply (inv_created ext' s ts kz y THold).
  - rewrite wp_bind. unfold rmfb_unregister. rewrite wp_bind. eapply wp_mono; [by apply (fb_lookup_run ext)|].
    intros [a|] s1 [-> _]; [|by do 2 apply wp_ret]. destruct Hal as [l Hl]. rewrite wp_bind, wp_gets, wp_bind, wp_opt.
    exists l. split; [done|]. case_bool_decide as Hin; [|by do 2 apply wp_ret]. cbn [negb]. rewrite wp_bind.
    eapply wp_mono; [by apply (take_from_file s ts f l a)|]. intros [] s1 (Ef1 & Hi1 & _). rewrite wp_bind, wp_modify, Ef1.
    by do 2 apply wp_ret.
  - rewrite wp_bind, wp_gets. destruct (files s !! f) as [[|a l]|] eqn:Hl; try by apply wp_ret. rewrite wp_bind.
    unfold release_one. rewrite wp_bind. eapply wp_mono; [apply (take_from_file s ts f (a :: l) a); [done..|by left]|].
    intros [] s1 (Ef1 & Hi1 & _). rewrite wp_bind, wp_gets, wp_bind, wp_opt, Ef1. exists (a :: l). split; [done|].
    rewrite wp_modify, Ef1. by apply wp_ret.
  - destruct Hal as (Hroomy & Hfile & Hroom & Hok & Hcap). rewrite wp_bind.
    eapply wp_mono; [apply wp_and; [apply (lookup_held ext _ s n Hd Hh); by apply can_hold_roomy|by apply (lookup_objs ext)]|].
    intros [a|] s1 [Hl Eo1]; [|subst s1; by apply wp_ret].
    destruct Hl as (_ & _ & Hd1 & Hh1 & Hs1 & _). rewrite wp_bind.
    assert (inv s1 (TDrop [a] :: ts)) as Hi1.
    { apply (inv_same ext s); try done; [by apply same_keeps|]. eapply held_ext; [|exact Hh1]. intros x. unfold plus. simpl.
      rewrite (one_iff (x = a) (a = x)) by done. lia. }
    eapply wp_mono; [apply (getfb_handle_run ext (holders s ts) s1 f a Hd1 Hh1); rewrite ?Eo1; try done|].
    + by apply (i_files _ _ Hi).
    + intros x. by apply (held_base _ s).
    + intros v s2 (g & al & -> & Hd2 & Hfs). apply wp_ret. destruct Hi1 as [_ I1 I2 I3 I4 I5 I6]. split; try done.
      * by exists ext.
      * by destruct I1.
      * intros f' Hf'. simpl. by apply Hfs, I6.
  - rewrite wp_bind. eapply wp_mono; [apply (setplane_lookup_run ext _ s r Hd Hh); [by apply can_hold_roomy|done]|].
    intros n s1 (Hd1 & Hh1 & Hs1 & Hp). apply wp_ret. apply (inv_same ext s); try done.
    + by apply same_keeps.
    + eapply held_ext; [|exact Hh1]. intros x. by destruct n; simpl; rewrite ?one_none, ?one_some.
    + rewrite (sm_planes _ _ Hs1) in Hp. destruct n; simpl; try done; by apply Hp.
  - destruct Hal as [Hroomy Hkz]. rewrite wp_bind.
    eapply wp_mono; [apply (setcrtc_prepare_run ext _ s r kz Hd Hh); try done; [by apply can_hold_roomy|by apply Hroomy]|].
    intros y s1 (Hd1 & Hc1 & Hy). apply wp_ret. destruct y as [ret|[set mode]].
    + apply (inv_calm None ext s s1 ts ts); try done; try apply Hi. eapply Forall_impl; [apply (i_modes _ _ Hi)|].
      intros m. by apply Hc1.
    + destruct Hy as [Hh1 Hm]. assert (Forall (mode_at s1) (modes ts)) as Hm1.
      { eapply Forall_impl; [apply (i_modes _ _ Hi)|]. intros m. by apply Hc1. }
      apply (inv_more None ext s s1 ts (TSet set mode)); try done.
      * destruct mode as [m|]; [|apply Hi]. apply NoDup_cons. split; [|apply Hi]. destruct (Hm m eq_refl) as [-> _].
        intros Hin. pose proof (i_modes _ _ Hi) as Hma. rewrite Forall_forall in Hma. destruct (Hma m Hin) as (o & Ho & _).
        by rewrite Hkz in Ho.
      * destruct mode as [m|]; [|done]. apply Forall_cons. split; [|done]. by apply (Hm m).
  - rewrite wp_bind. eapply wp_mono; [apply (flip_lookup_run ext _ s fl rv cid n ok Hd Hh); [by apply can_hold_roomy|done]|].
    intros y s1 (Hd1 & Hs1 & Hy). apply wp_ret. destruct y as [ret|[cr a]].
    + apply (inv_none ext s s1 ts); try done. by apply same_keeps.
    + destruct Hy as [Hh1 Hlt]. apply (inv_same ext s); try done; [by apply same_keeps|].
      eapply held_ext; [|exact Hh1]. intros x. unfold plus. simpl. rewrite (one_iff (x = a) (a = x)) by done. lia.
  - destruct Hal as [Hpl Hsets]. rewrite wp_bind. eapply wp_mono; [by apply (restore_run ext (holders s ts) s sets)|].
    intros v s1 (Hd1 & Hh1 & Hk1 & _). apply wp_ret. by apply (inv_none ext s s1 ts).
  - destruct Hal as [Hnone Hopen]. rewrite wp_bind, wp_modify. apply wp_ret. apply (inv_files ext); try done.
    + intros x. by rewrite mtotal_insert_new.
    + intros f'. rewrite lookup_insert_is_Some. intros [<-|[_ Hf']]; [done|by apply (i_files _ _ Hi)].
    + intros t _ f' a _ Hf'. apply lookup_insert_is_Some. destruct (decide (f = f')); naive_solver.
  - destruct Hal as [Hnil Hno]. rewrite wp_bind, wp_modify. apply wp_ret. apply (inv_files ext); try done.
    + intros x. rewrite (mtotal_delete _ _ f []) by done. change (occurs x []) with 0. lia.
    + intros f'. intros [_ Hf']%lookup_delete_is_Some. by apply (i_files _ _ Hi).
    + intros t Ht f' a Et Hf'. apply lookup_delete_is_Some. split; [|done]. intros <-. by apply (Hno t a).
  - destruct Hal as ((ext' & He & Hg) & Hnm & Hfs). rewrite wp_bind, wp_modify. apply wp_ret. simpl.
    destruct Hi as [_ I1 I2 I3 I4 I5 I6]. split; try done; [|by destruct I1].
    exists ext'. destruct Hd. by split.
  - rewrite wp_bind, wp_modify. apply wp_ret. simpl. apply (inv_none ext s _ ts); try done.
    + by apply dev_drv.
    + apply keeps_drv.
    + by apply held_drv.
Qed.
(** ** The system *)

(** A device that is loaded: it has CRTCs, planes and connectors, and nothing is shown.
    By [d_allocs] the allocations that the table of identifiers will make succeed, here and
    so in every reachable state: after one that fails, a framebuffer can be owned without
    an identifier, or an identifier can lead to freed memory, and the code goes on
    (FbRuns.v).  The other allocations, those in [allocs] and the memory of framebuffers
    and modes that the calls bring with them, may fail at any time. *)
Record initial s : Prop := {
  in_dev : exists ext, dev_ok ext s;
  in_fbs : fbs s = ∅;
  in_files : files s = ∅;
  in_crtcs : forall n, crtc_fb (drv s) n = None;
  in_planes : forall p pl, planes s !! p = Some pl -> p_fb pl = None;
  in_few : 2 * Z.of_nat (length (crtcs s)) + 2 < 2 ^ 32 }.

Inductive reachable : sys (G := G) (T := T) (D := D) -> Prop :=
| reach_init s : initial s -> reachable (mk_sys s [])
| reach_start S k S' : reachable S -> allowed k (dev S) (threads S) -> step c tiling (EvStart k) S = Some S' -> reachable S'
| reach_run S i S' : reachable S -> step c tiling (EvRun i) S = Some S' -> reachable S'.

Lemma initial_inv s : initial s -> inv s [].
Proof.
  intros [[ext Hd] Hfb Hfi Hc Hp Hfew].
  assert (forall x, crtc_cnt s x = 0 /\ plane_cnt s x = 0) as Hz.
  { intros x. split.
    - apply total_zero. intros n _. by rewrite Hc, one_none.
    - apply total_zero. intros pl [p Hpl]%list_elem_of_lookup. by rewrite (Hp p pl Hpl), one_none. }
  assert (forall x, reg s x = 0 /\ holders s [] x = 0 /\ owners s [] x = 0) as Hr.
  { intros x. unfold holders, owners, reg. rewrite Hfb, Hfi, mtotal_empty. done. }
  split; try done.
  - by exists ext.
  - split.
    + intros x. rewrite Hfb, lookup_empty. destruct (Hz x) as [-> ->], (Hr x) as (_ & -> & _). done.
    + intros x. destruct (Hr x) as (-> & -> & _). done.
    + intros x. destruct (Hz x) as [_ ->], (Hr x) as (_ & -> & _). lia.
  - intros x. by destruct (Hr x) as (-> & _ & ->).
  - apply NoDup_nil_2.
  - intros f. rewrite Hfi, lookup_empty. by intros [].
Qed.

(** One step of a thread, whichever. *)
Lemma run_step S i t : inv (dev S) (threads S) -> threads S !! i = Some t -> exists l s',
  resume t (dev S) = Some (l, s') /\ step c tiling (EvRun i) S = Some (mk_sys s' (l ++ delete i (threads S))) /\
  inv s' (l ++ delete i (threads S)).
Proof.
  intros Hi Ht. assert (inv (dev S) (t :: delete i (threads S))) as Hi' by (by apply (fb_inv_perm _ (threads S)); [apply delete_Permutation|]).
  destruct (proj1 (wp_run _ _ _) (resume_ok _ _ _ Hi')) as (l & s' & E & Hi2). exists l, s'. split; [done|]. split; [|done].
  simpl. rewrite Ht. simpl. by rewrite E.
Qed.

Lemma start_step S k : inv (dev S) (threads S) -> allowed k (dev S) (threads S) -> exists l s',
  step c tiling (EvStart k) S = Some (mk_sys s' (l ++ threads S)) /\ inv s' (l ++ threads S).
Proof.
  intros Hi Ha. destruct (proj1 (wp_run _ _ _) (start_ok _ _ _ Hi Ha)) as (l & s' & E & Hi2). exists l, s'. split; [|done].
  simpl. by rewrite E.
Qed.

Lemma fb_reachable_inv S : reachable S -> inv (dev S) (threads S).
Proof.
  induction 1 as [s Hs|S k S' _ IH Ha Hst|S i S' _ IH Hst].
  - by apply initial_inv.
  - destruct (start_step S k IH Ha) as (l & s' & E & Hi). rewrite E in Hst. by injection Hst as <-.
  - destruct (threads S !! i) as [t|] eqn:Et; [|simpl in Hst; by rewrite Et in Hst].
    destruct (run_step S i t IH Et) as (l & s' & _ & E & Hi). rewrite E in Hst. by injection Hst as <-.
Qed.

(** C6: In every state that allowed calls of user space, of the console and of the driver
    can reach, with their parts interleaved in any order, every call that is allowed can
    begin and every call under way can go on: no object is used after it is freed, no list
    is corrupted, and no count that must not reach zero does (the BUG of
    [drm_framebuffer_free_bug]).  This is provided the table of identifiers gets the memory
    it asks for; every other allocation may fail.  Where the table gets none the code does
    fault: [failed_id_is_success] and [failed_remove_dangles] in FbRuns.v. *)
Theorem framebuffers_no_fault S : reachable S ->
  (forall k, allowed k (dev S) (threads S) -> exists S', step c tiling (EvStart k) S = Some S' /\ reachable S') /\
  (forall i, (i < length (threads S))%nat -> exists S', step c tiling (EvRun i) S = Some S' /\ reachable S').
Proof.
  intros HS. pose proof (fb_reachable_inv S HS) as Hi. split.
  - intros k Ha. destruct (start_step S k Hi Ha) as (l & s' & E & _). eexists. split; [exact E|]. by apply (reach_start S k).
  - intros i Hlt. destruct (lookup_lt_is_Some_2 _ _ Hlt) as [t Et]. destruct (run_step S i t Hi Et) as (l & s' & _ & E & _).
    eexists. split; [exact E|]. by apply (reach_run S i).
Qed.

(** C7: In every reachable state (the table of identifiers has always got its memory, see
    [initial]) the count of a framebuffer is exactly the number of its holders: its identifier, the file or the console that owns it, the calls under way,
    the CRTCs and the planes that show it.  A framebuffer that is shown, owned or held by a
    call exists, it is on the list of the device, and its GEM object exists with a
    reference for it; and a framebuffer has its identifier exactly while it is owned. *)
Theorem framebuffer_counts_exact S : reachable S -> forall a,
  match fbs (dev S) !! a with
  | Some f =>
      fb_refcount f = reg (dev S) a + owners (dev S) (threads S) a + total (refs a) (threads S) +
        crtc_cnt (dev S) a + plane_cnt (dev S) a /\
      0 < fb_refcount f < 2 ^ 32 /\
      owners (dev S) (threads S) a = reg (dev S) a /\ (a ∈ fb_list (dev S)) /\
      exists o ob, fb_obj f = Some o /\ objects (objs (dev S)) !! o = Some ob /\
        fbs_on o (fbs (dev S)) <= refcount ob
  | None =>
      (a ∉ fb_list (dev S)) /\ owners (dev S) (threads S) a = 0 /\ total (refs a) (threads S) = 0 /\
      (forall n, (n < length (crtcs (dev S)))%nat -> crtc_fb (drv (dev S)) n <> Some a) /\
      forall p pl, planes (dev S) !! p = Some pl -> p_fb pl <> Some a
  end.
Proof.
  intros HS a. destruct (fb_reachable_inv S HS) as [[ext Hd] Hh Ho _ _ _ _]. set (s := dev S) in *. set (ts := threads S) in *.
  pose proof (h_cnt _ _ Hh a) as Hc. pose proof (cnt_upper s a). pose proof (reg_range s a). pose proof (h_fits _ _ Hh a).
  pose proof (owners_nonneg s ts a). pose proof (total_refs_nonneg ts a). unfold holders in *.
  destruct (fbs s !! a) as [f|] eqn:Ef.
  - split; [lia|]. split; [lia|]. split; [apply Ho|]. split; [apply (d_in _ _ Hd); by rewrite Ef|].
    destruct (d_obj _ _ Hd a f Ef) as [o Eo]. pose proof (d_ext _ _ Hd o) as Hx.
    assert (1 <= fbs_on o (fbs s)) as Hon.
    { unfold fbs_on. etrans; [|apply (mtotal_pos _ _ a f); [intros; apply one_range|done]]. simpl. by rewrite one_yes. }
    destruct (objects (objs s) !! o) as [ob|] eqn:Eob.
    + exists o, ob. split; [done|]. split; [done|]. destruct (gi_count _ _ _ (d_gem _ _ Hd) o ob Eob) as (_ & Hhc & Hrc & _).
      pose proof (name_ref_range ob). simpl in Hrc. lia.
    + destruct (gi_gone _ _ _ (d_gem _ _ Hd) o Eob) as [Hz _]. simpl in Hz. lia.
  - split; [intros [g Eg]%(d_in _ _ Hd); congruence|]. split; [lia|]. split; [lia|]. split.
    + intros n Hn Hs. destruct (shown_live _ s n a Hh Hn Hs) as [g Eg]. congruence.
    + intros p pl Hp Hs. assert (1 <= plane_cnt s a); [|lia]. unfold plane_cnt.
      etrans; [|apply (total_pos _ _ pl); [intros; apply one_range|by eapply list_elem_of_lookup_2]]. simpl. by rewrite one_yes.
Qed.

(** C10: Identifiers are typed.  In every reachable state (the table of identifiers has
    always got its memory, see [initial]), what an identifier leads to is an object that exists, has that identifier and the type its kind of object is found by;
    and [drm_mode_object_find] returns an object only of the type that is asked for. *)
Theorem mode_objects_typed S : reachable S -> forall n type,
  (forall p, used_ids (crtc_idr (dev S)) !! n = Some p -> exists o, base_at (dev S) p = Some o /\ id o = n /\ type_ok p o) /\
  exists r, drm_mode_object_find n type (dev S) = Some (r, dev S) /\
    forall p, r = Some p <-> used_ids (crtc_idr (dev S)) !! n = Some p /\ exists o, base_at (dev S) p = Some o /\ obj_type o = type.
Proof.
  intros HS n type. destruct (fb_reachable_inv S HS) as [[ext Hd] _ _ _ _ _ _]. split; [by apply (d_base _ _ Hd)|].
  unfold drm_mode_object_find, gets, mbind, Prog_bind, idr_find. simpl.
  destruct (used_ids (crtc_idr (dev S)) !! n) as [p|] eqn:Ep; [|exists None; naive_solver].
  destruct (d_base _ _ Hd n p Ep) as (o & Ho & Hn & _).
  assert (base_of p (dev S) = Some (o, dev S)) as Hb.
  { destruct (proj1 (wp_run _ _ _) (wp_base_of p (fun v s' => v = o /\ s' = dev S) (dev S) o Ho ltac:(done))) as (v & s' & E & -> & ->).
    done. }
  rewrite Hb. eexists. split; [reflexivity|]. rewrite Hn, Z.eqb_refl. cbn [negb]. rewrite orb_false_r.
  intros q. destruct (Z.eqb_spec (obj_type o) type) as [Et|Et]; simpl; split; try done.
  - intros [= <-]. split; [done|]. by exists o.
  - by intros [? _].
  - intros ([= <-] & o' & Ho' & Et'). congruence.
Qed.
End Safe.
