(* ===== verification/FbLive.v ===== *)
(** * Framebuffers: calls come to an end, and removal removes

    Every call that is under way ends after finitely many parts, in whatever order they
    run, and then only framebuffers that have an owner or are shown are left; and what the
    removal of a framebuffer by its identifier does. *)

From S2P Require Import Prelude Sums HandleTable Idr Modes Gem Tiling FbFormat Framebuffer ModeIoctl FbFacts FbShow FbLife FbSystem FbInv FbParts FbCalls FbAdd FbSafe.

Open Scope Z_scope.

(** An upper bound of the parts a thread still has. *)
Definition weight (t : thread) : nat :=
  match t with
  | THold _ => 0
  | TDrop l => S (length l)
  | TPlane _ _ => 3
  | _ => 1
  end.
Definition work (ts : list thread) : nat := sum_list_with weight ts.

Definition busy (t : thread) : Prop := match t with THold _ => False | _ => True end.

#[export] Instance busy_dec t : Decision (busy t).
Proof. destruct t; simpl; apply _. Defined.

Section Live.
Context {G T D : Type} `{HandleTableLaws G T oid} `{KmsLaws D}.
Abbreviation device := (device (G := G) (T := T) (D := D)).
Abbreviation sys := (sys (G := G) (T := T) (D := D)).
Implicit Types (s : device) (ts : list thread) (S : sys) (a x : nat) (f : fid).
Context (c : chip) (tiling : oid -> Z * Z).

(** Room is plentiful while there are few calls. *)
Lemma refs_weight x t : refs x t <= Z.of_nat (weight t).
Proof.
  destruct t as [f a|a|a|l|r [ret|p|p cr a]|set mode|fl cr a]; simpl; try lia;
    try (match goal with |- one ?P <= _ => pose proof (one_range P) end; lia).
  assert (occurs x l <= Z.of_nat (length l)); [|lia]. unfold occurs. induction l as [|y l IH]; simpl; [lia|].
  pose proof (one_range (y = x)). lia.
Qed.

Lemma roomy_few s ts : inv s ts -> room_id s ->
  Z.of_nat (work ts) + 2 * Z.of_nat (length (crtcs s)) + Z.of_nat (length (planes s)) + 6 < 2 ^ 32 -> roomy s ts.
Proof.
  intros Hi Hid Hn. split; [|done]. intros a x. unfold plus, holders. rewrite (i_own _ _ Hi).
  assert (total (refs x) ts <= Z.of_nat (work ts)) as Hw.
  { clear. induction ts as [|t ts IH]; [done|]. rewrite total_cons. unfold work in *. simpl. pose proof (refs_weight x t). lia. }
  pose proof (reg_range s x). pose proof (one_range (x = a)). pose proof (cnt_upper s x). lia.
Qed.

(** A part of a busy thread. *)
Definition run1 S S' : Prop := exists i t, threads S !! i = Some t /\ busy t /\ step c tiling (EvRun i) S = Some S'.

(** That many parts. *)
Inductive runs : nat -> sys -> sys -> Prop :=
| runs_0 S : runs 0 S S
| runs_S n S1 S2 S3 : run1 S1 S2 -> runs n S2 S3 -> runs (S n) S1 S3.

Lemma bind_some {A B} (m : K A) (k : A -> K B) v s s1 : (m ≫= k) s = Some (v, s1) -> exists y s2, m s = Some (y, s2) /\ k y s2 = Some (v, s1).
Proof. unfold mbind, Prog_bind. destruct (m s) as [[y s2]|]; [|done]. intros E. by exists y, s2. Qed.

Lemma option_list_short {A} (o : option A) : (length (option_list o) <= 1)%nat.
Proof. destruct o; simpl; lia. Qed.

Lemma commit_list s r n y s' : setplane_commit r n s = Some (y, s') -> (length y.2 <= 1)%nat.
Proof.
  destruct n as [ret|p|p cr a]; cbn [setplane_commit]; intros E.
  - injection E as <- _. simpl. lia.
  - apply bind_some in E as (pl & s1 & _ & E). apply bind_some in E as (v & s2 & _ & E).
    apply bind_some in E as ([] & s3 & _ & [= <- _]). apply option_list_short.
  - apply bind_some in E as (v & s1 & _ & E). destruct (v =? 0); [|injection E as <- _; simpl; lia].
    apply bind_some in E as (pl & s2 & _ & E). apply bind_some in E as ([] & s3 & _ & [= <- _]). apply option_list_short.
Qed.

Lemma resume_less s t l s' : busy t -> resume t s = Some (l, s') -> (work l < weight t)%nat.
Proof.
  destruct t as [f a|a|a|[|a k]|r n|set mode|fl cr a]; intros Hbusy E; cbn [resume] in E; try done.
  - apply bind_some in E as (y & s2 & _ & [= <- _]). simpl. lia.
  - apply bind_some in E as (y & s2 & _ & [= <- _]). simpl. lia.
  - injection E as <- _. simpl. lia.
  - apply bind_some in E as (y & s2 & _ & [= <- _]). simpl. lia.
  - apply bind_some in E as ([ret k] & s2 & Ec & [= <- _]). apply commit_list in Ec. simpl in *. lia.
  - apply bind_some in E as (y & s2 & _ & [= <- _]). simpl. lia.
  - apply bind_some in E as (y & s2 & _ & [= <- _]). simpl. lia.
Qed.

Lemma work_app l k : work (l ++ k) = (work l + work k)%nat.
Proof. induction l as [|t l IH]; simpl; [done|]. unfold work in *. lia. Qed.

Lemma run1_less S S' : reachable c tiling S -> run1 S S' -> reachable c tiling S' /\ (work (threads S') < work (threads S))%nat.
Proof.
  intros HS (i & t & Et & Hb & Hst). split; [by apply (reach_run c tiling S i)|].
  destruct (run_step c tiling S i t (fb_reachable_inv c tiling S HS) Et) as (l & s' & Er & Est & _).
  rewrite Hst in Est. injection Est as ->. simpl. rewrite work_app. pose proof (resume_less _ _ _ _ Hb Er).
  assert (work (threads S) = weight t + work (delete i (threads S)))%nat as ->; [|lia].
  change (weight t + work (delete i (threads S)))%nat with (work (t :: delete i (threads S))).
  unfold work. rewrite (delete_Permutation _ _ _ Et) at 1. done.
Qed.

Lemma runs_less n S S' : reachable c tiling S -> runs n S S' ->
  reachable c tiling S' /\ (n + work (threads S') <= work (threads S))%nat.
Proof.
  intros HS Hr. induction Hr as [S|n S1 S2 S3 H1 Hr IH]; [done|].
  destruct (run1_less S1 S2 HS H1) as [HS2 Hw]. destruct (IH HS2) as [HS3 Hw']. split; [done|]. lia.
Qed.

(** Shown by a CRTC or a plane. *)
Definition shown s a : Prop := 0 < crtc_cnt s a + plane_cnt s a.

Lemma idle_left S : reachable c tiling S -> Forall (fun t => ~ busy t) (threads S) -> forall a, is_Some (fbs (dev S) !! a) ->
  owners (dev S) (threads S) a = 1 \/ shown (dev S) a.
Proof.
  intros HS Hidle a [f Ef]. pose proof (fb_reachable_inv c tiling S HS) as Hi. pose proof (h_cnt _ _ (i_held _ _ Hi) a) as Hc.
  rewrite Ef in Hc. destruct Hc as [_ Hc]. pose proof (i_own _ _ Hi a). pose proof (reg_range (dev S) a). unfold holders in Hc.
  assert (total (refs a) (threads S) = 0) as Hz.
  { apply total_zero. intros t Ht. rewrite Forall_forall in Hidle. specialize (Hidle t Ht). destruct t; simpl in *; tauto. }
  unfold shown. lia.
Qed.

(** C8: Calls come to an end.  From every reachable state (the table of identifiers has
    always got its memory, see [initial]), whichever thread is taken next, the calls that are under way take at most [work] more parts, and as long as one is not
    done it can go on; and when all are done, the only framebuffers that are left are
    owned by a file or the console, or are shown: nothing leaks. *)
Theorem framebuffer_calls_end S : reachable c tiling S ->
  (forall n S', runs n S S' -> (n <= work (threads S))%nat /\
    ((exists S'', run1 S' S'') \/
     Forall (fun t => ~ busy t) (threads S') /\
     forall a, is_Some (fbs (dev S') !! a) -> owners (dev S') (threads S') a = 1 \/ shown (dev S') a)) /\
  exists n S', runs n S S' /\ Forall (fun t => ~ busy t) (threads S').
Proof.
  intros HS.
  assert (forall S', reachable c tiling S' -> (exists S'', run1 S' S'') \/ Forall (fun t => ~ busy t) (threads S')) as Hgo.
  { intros S' HS'. destruct (decide (Exists busy (threads S'))) as [Hb|Hb].
    - left. apply Exists_exists in Hb as (t & [i Ht]%list_elem_of_lookup & Hb).
      destruct (run_step c tiling S' i t (fb_reachable_inv c tiling S' HS') Ht) as (l & s' & _ & Est & _).
      eexists. by exists i, t.
    - right. by apply Forall_Exists_neg. }
  split.
  - intros n S' Hr. destruct (runs_less n S S' HS Hr) as [HS' Hw]. split; [lia|].
    destruct (Hgo S' HS') as [?|Hidle]; [by left|]. right. split; [done|]. by apply idle_left.
  - remember (work (threads S)) as w eqn:Ew. revert S HS Ew. induction (lt_wf w) as [w _ IH]. intros S HS ->.
    destruct (Hgo S HS) as [[S2 H12]|Hidle]; [|by exists 0%nat, S; split; [constructor|]].
    destruct (run1_less S S2 HS H12) as [HS2 Hlt]. destruct (IH _ Hlt S2 HS2 eq_refl) as (n & S3 & Hr & Hidle).
    exists (Datatypes.S n), S3. split; [by eapply runs_S|done].
Qed.

(** C9: DRM_IOCTL_MODE_RMFB.  In every reachable state the call runs, provided the table of
    identifiers gets the memory it asks for (see [initial]; if [idr_remove] gets none the
    identifier stays: [failed_remove_dangles] in FbRuns.v).  When the identifier names a framebuffer of the file, it returns 0; afterwards no identifier leads to the
    framebuffer, the file does not have it, no plane shows it, other identifiers are as
    they were, and it is gone unless a CRTC shows it or another call holds it.  Otherwise
    the call returns -EINVAL and changes nothing. *)
Theorem rmfb_sound S f l n : reachable c tiling S -> files (dev S) !! f = Some l ->
  wp (drm_mode_rmfb f n) (fun ret s' =>
    match used_ids (crtc_idr (dev S)) !! n with
    | Some (PFb a) =>
        if decide (a ∈ l) then
          ret = 0 /\ inv s' (threads S) /\ files s' = <[f := filter (fun x => x <> a) l]> (files (dev S)) /\
          (forall m, used_ids (crtc_idr s') !! m <> Some (PFb a)) /\
          (forall m p, p <> PFb a -> used_ids (crtc_idr s') !! m = Some p <-> used_ids (crtc_idr (dev S)) !! m = Some p) /\
          (forall p pl, planes s' !! p = Some pl -> p_fb pl <> Some a) /\
          (total (refs a) (threads S) = 0 -> (forall cr, crtc_fb (drv s') cr <> Some a) -> fbs s' !! a = None)
        else ret = - EINVAL /\ s' = dev S
    | _ => ret = - EINVAL /\ s' = dev S
    end) (dev S).
Proof.
  intros HS Hl. pose proof (fb_reachable_inv c tiling S HS) as Hi. set (s := dev S) in *. set (ts := threads S) in *.
  destruct (i_dev _ _ Hi) as [ext Hd]. unfold drm_mode_rmfb, rmfb_unregister. rewrite !wp_bind.
  eapply wp_mono; [by apply (fb_lookup_run ext)|]. intros [a|] s1 [-> Hu].
  2: { apply wp_ret. apply wp_ret. destruct (used_ids (crtc_idr s) !! n) as [[a| | |]|]; try done. by destruct (Hu a). }
  destruct Hu as (Hu & _ & _). rewrite Hu, wp_bind, wp_gets, wp_bind, wp_opt. exists l. split; [done|].
  case_bool_decide as Hb; destruct (decide (a ∈ l)) as [Hin|Hin]; try done; cbn [negb].
  rewrite wp_bind. eapply wp_mono; [by apply (take_from_file s ts f l a)|].
  intros [] s1 (Ef1 & Hi1 & Hno1 & Hids). rewrite wp_bind, wp_modify, Ef1. apply wp_ret. rewrite wp_bind. set (s2 := set_files _ s1) in *.
  destruct (i_dev _ _ Hi1) as [ext2 Hd2].
  eapply wp_mono; [apply (fb_remove_run ext2 (holders s2 ts) s2 a Hd2); [|apply reg_holders]|].
  - eapply held_ext; [|apply (i_held _ _ Hi1)]. intros x. by apply holders_plus.
  - intros [] s3 (Hd3 & Hh3 & Hk3 & Hp3). apply wp_ret.
    assert (inv s3 ts) as Hi3.
    { apply (keeps_next ext2 s2 s3 ts (TRemove a) []); try done. by apply held_nil. }
    split; [done|]. split; [done|]. split; [by rewrite (kp_files _ _ Hk3)|]. rewrite (kp_idr _ _ Hk3).
    split; [done|]. split; [done|]. split; [done|]. intros Hz Hcr.
    pose proof (h_cnt _ _ (i_held _ _ Hi3) a) as Hc. destruct (fbs s3 !! a) as [g|] eqn:Eg; [|done]. destruct Hc as [_ Hc].
    assert (reg s3 a = 0) as Hr3.
    { unfold reg. rewrite Eg. apply one_no. rewrite (kp_idr _ _ Hk3). apply Hno1. }
    assert (crtc_cnt s3 a = 0) as Hc0 by (apply total_zero; intros cr _; by apply one_no).
    assert (plane_cnt s3 a = 0) as Hp0.
    { apply total_zero. intros pl [p Hpl]%list_elem_of_lookup. apply one_no. by apply (Hp3 p). }
    unfold holders in Hc. rewrite (i_own _ _ Hi3 a) in Hc. lia.
Qed.
End Live.
