(* ===== verification/ModeFacts.v ===== *)
(** * The tests on what user space asks for

    Modes from user space and back, the part of a framebuffer that a CRTC or a plane
    shows. *)

From stdpp Require Import strings.
From S2P Require Import Prelude HandleTable Idr Modes Gem Tiling FbFormat Framebuffer ModeIoctl.

Open Scope Z_scope.

(** A record of user space as its types allow it: 16 and 32 bits, a name that ends in its
    array. *)
Record modeinfo_ok (u : drm_mode_modeinfo) : Prop := {
  mo_16 : Forall (fun v => 0 <= v < 2 ^ 16) [u_hdisplay u; u_hsync_start u; u_hsync_end u; u_htotal u; u_hskew u;
    u_vdisplay u; u_vsync_start u; u_vsync_end u; u_vtotal u; u_vscan u];
  mo_32 : Forall (fun v => 0 <= v < 2 ^ 32) [u_clock u; u_vrefresh u; u_flags u; u_type u];
  mo_name : (String.length (u_name u) < DRM_DISPLAY_MODE_LEN)%nat }.

Lemma substring_all n s : (String.length s <= n)%nat -> String.substring 0 n s = s.
Proof.
  revert n. induction s as [|ch s IH]; intros [|n] Hn; simpl in *; try done; [lia|]. f_equal. apply IH. lia.
Qed.

(** The conversion of a mode refuses exactly clocks and refresh rates that are not
    ints, and what it accepts is what the mode is reported as again. *)
Theorem umode_roundtrip u : modeinfo_ok u ->
  match drm_crtc_convert_umode u with
  | inl ret => ret = - ERANGE /\ (INT_MAX < u_clock u \/ INT_MAX < u_vrefresh u)
  | inr m => u_clock u <= INT_MAX /\ u_vrefresh u <= INT_MAX /\ drm_crtc_convert_to_umode m = u
  end.
Proof.
  intros [H16 H32 Hn]. unfold drm_crtc_convert_umode.
  destruct (Z.gtb_spec (u_clock u) INT_MAX) as [Hc|Hc]; cbn [orb]; [by split; [|left]|].
  destruct (Z.gtb_spec (u_vrefresh u) INT_MAX) as [Hv|Hv]; [by split; [|right]|].
  split; [done|]. split; [done|]. unfold drm_crtc_convert_to_umode. cbn [clock hdisplay hsync_start hsync_end htotal hskew
    vdisplay vsync_start vsync_end vtotal vscan vrefresh flags type name].
  repeat (rewrite Forall_cons in H16). repeat (rewrite Forall_cons in H32). destruct H16 as (? & ? & ? & ? & ? & ? & ? & ? & ? & ? & _), H32 as (? & ? & ? & ? & _).
  unfold DRM_DISPLAY_MODE_LEN in *. rewrite !(substring_all _ (u_name u)) by lia.
  rewrite !u32_small, !Z.mod_small by done. by destruct u.
Qed.

(** A mode fits the framebuffer exactly when the rectangle it shows, turned where the
    CRTC turns it, lies inside: the unsigned arithmetic of the test hides nothing. *)
Theorem viewport_sound invert m x y fw fh : 0 <= hdisplay m < 2 ^ 31 -> 0 <= vdisplay m < 2 ^ 31 ->
  0 <= x <= INT_MAX -> 0 <= y <= INT_MAX -> 0 <= fw < 2 ^ 32 -> 0 <= fh < 2 ^ 32 ->
  viewport_ok invert m x y fw fh = true <->
    x + (if invert then vdisplay m else hdisplay m) <= fw /\ y + (if invert then hdisplay m else vdisplay m) <= fh.
Proof.
  intros Hh Hv Hx Hy Hfw Hfh. unfold viewport_ok, INT_MAX in *.
  assert (forall hd vd, 0 <= hd < 2 ^ 31 -> 0 <= vd < 2 ^ 31 ->
    negb ((u32 hd >? fw) || (u32 vd >? fh) || (u32 x >? u32 (fw - hd)) || (u32 y >? u32 (fh - vd))) = true <-> x + hd <= fw /\ y + vd <= fh) as Hgo.
  { intros hd vd Hhd Hvd. rewrite negb_true_iff, !orb_false_iff, !Z.gtb_ltb, !Z.ltb_ge.
    rewrite (u32_small hd), (u32_small vd), (u32_small x), (u32_small y) by lia. split.
    - intros (((H1 & H2) & H3) & H4). rewrite u32_small in H3, H4 by lia. lia.
    - intros [H1 H2]. rewrite !u32_small by lia. lia. }
  destruct invert; by apply Hgo.
Qed.

(** C12: A plane shows part of a framebuffer only where the driver knows the format, the
    part lies inside the framebuffer in its 16.16 coordinates, and the place on the screen
    has ints for its corners; -EINVAL, -ENOSPC and -ERANGE say which fails first. *)
Theorem plane_fits_sound formats fmt fw fh r : 0 <= fw < 2 ^ 16 -> 0 <= fh < 2 ^ 16 ->
  Forall (fun v => 0 <= v < 2 ^ 32) [src_x r; src_y r; src_w r; src_h r; crtc_w r; crtc_h r] ->
  let inside := src_x r + src_w r <= fw * 2 ^ 16 /\ src_y r + src_h r <= fh * 2 ^ 16 in
  let on_screen := crtc_w r <= INT_MAX /\ crtc_h r <= INT_MAX /\ crtc_x r + crtc_w r <= INT_MAX /\ crtc_y r + crtc_h r <= INT_MAX in
  (plane_fits formats fmt fw fh r = - EINVAL <-> fmt ∉ formats) /\
  (plane_fits formats fmt fw fh r = - ENOSPC <-> fmt ∈ formats /\ ~ inside) /\
  (plane_fits formats fmt fw fh r = - ERANGE <-> fmt ∈ formats /\ inside /\ ~ on_screen) /\
  (plane_fits formats fmt fw fh r = 0 <-> fmt ∈ formats /\ inside /\ on_screen).
Proof.
  intros Hfw Hfh Hr inside on_screen. rewrite !Forall_cons in Hr. destruct Hr as (Hsx & Hsy & Hsw & Hsh & Hcw & Hch & _).
  unfold plane_fits. assert (existsb (Z.eqb fmt) formats = true <-> fmt ∈ formats) as Hin.
  { rewrite existsb_exists, list_elem_of_In. split; [intros (z & Hz & E%Z.eqb_eq); by subst|].
    intros Hz. exists fmt. by rewrite Z.eqb_refl. }
  destruct (existsb (Z.eqb fmt) formats); cbn [negb]; [assert (fmt ∈ formats) as Hf by by apply Hin|].
  2: { assert (fmt ∉ formats) as Hf by (intros Hf%Hin; done). unfold EINVAL, ENOSPC, ERANGE. by split_and!; split; try tauto. }
  rewrite !Z.shiftl_mul_pow2, !(u32_small (_ * _)) by lia.
  match goal with |- context [if ?b then - ENOSPC else _] => assert (b = false <-> inside) as Hb end.
  { unfold inside. rewrite !orb_false_iff, !Z.gtb_ltb, !Z.ltb_ge. split.
    - intros (((H1 & H2) & H3) & H4). rewrite u32_small in H2, H4 by lia. lia.
    - intros [H1 H2]. rewrite !u32_small by lia. lia. }
  match goal with |- context [if ?b then - ERANGE else _] => assert (b = false <-> on_screen) as Hs end.
  { unfold on_screen. rewrite !orb_false_iff, !Z.gtb_ltb, !Z.ltb_ge. lia. }
  match goal with |- context [if ?b then - ENOSPC else _] => destruct b end.
  - assert (~ inside) by (intros Hi%Hb; done). unfold EINVAL, ENOSPC, ERANGE. by split_and!; split; try tauto.
  - assert inside by by apply Hb. match goal with |- context [if ?b then - ERANGE else _] => destruct b end.
    + assert (~ on_screen) by (intros Hi%Hs; done). unfold EINVAL, ENOSPC, ERANGE. by split_and!; split; try tauto.
    + assert on_screen by by apply Hs. unfold EINVAL, ENOSPC, ERANGE. by split_and!; split; try tauto.
Qed.

(** ** At work *)

(** Bounds of fields that are known. *)
Ltac in_range := repeat (apply Forall_cons_2; [simpl; lia|]); apply Forall_nil_2.

Definition vga60 : drm_mode_modeinfo := mk_modeinfo 25175 640 656 752 800 0 480 490 492 525 0 60 10 64 "640x480".

Lemma umode_roundtrip_witness : exists m, drm_crtc_convert_umode vga60 = inr m /\ drm_crtc_convert_to_umode m = vga60.
Proof.
  assert (modeinfo_ok vga60) as H by (split; [in_range|in_range|vm_compute; lia]).
  pose proof (umode_roundtrip vga60 H) as Hr. destruct (drm_crtc_convert_umode vga60) as [ret|m] eqn:E.
  - vm_compute in E. discriminate E.
  - exists m. split; [reflexivity|]. exact (proj2 (proj2 Hr)).
Defined.

(** The last source line that fits, and one more. *)
Lemma plane_fits_sound_witness :
  plane_fits [7] 7 640 480 (mk_rects 0 0 640 480 0 65536 (640 * 65536) (479 * 65536)) = 0 /\
  (plane_fits [7] 7 640 480 (mk_rects 0 0 640 480 0 65537 (640 * 65536) (479 * 65536)) = - ENOSPC <->
   7 ∈ [7] /\ ~ (0 + 640 * 65536 <= 640 * 2 ^ 16 /\ 65537 + 479 * 65536 <= 480 * 2 ^ 16)).
Proof.
  split; [vm_compute; reflexivity|].
  apply (plane_fits_sound [7] 7 640 480 (mk_rects 0 0 640 480 0 65537 (640 * 65536) (479 * 65536))); try lia.
  in_range.
Defined.
