(* ===== verification/FbRuns.v ===== *)
(** * Framebuffers: the theorems at work, and where the code falls short

    A device with one CRTC, one plane and one connector, and a driver that shows what it is
    told.  A file adds a framebuffer, shows it on the CRTC and on the plane; the theorems
    are applied to the states on the way.  Then three runs that end in a fault because an
    allocation fails or because a plane is the last holder of what it shows. *)

From stdpp Require Import strings.
From S2P Require Import Prelude Sums HandleTable IdrList Idr Modes Gem GemSafe Tiling FbFormat Framebuffer ModeIoctl FbFacts FbShow FbLife FbSystem FbInv FbParts FbCalls FbAdd FbSafe FbLive.

Open Scope Z_scope.

(** ** The driver *)

(** What each CRTC shows. *)
Abbreviation panel := (gmap nat nat).

Definition blank_mode : drm_display_mode := DRM_MODE "" 0 0 0 0 0 0 0 0 0 0 0 0 0.

#[export] Instance panel_driver : KmsDriver panel := {|
  crtc_fb d n := d !! n;
  crtc_mode _ _ := blank_mode;
  crtc_xy _ _ := (0, 0);
  set_config set d :=
    (0, match set_fb set with Some a => <[Framebuffer.set_crtc set := a]> d | None => delete (Framebuffer.set_crtc set) d end);
  has_page_flip := true;
  page_flip n a _ d := (0, <[n := a]> d);
  update_plane _ _ _ _ d := (0, d);
  disable_plane _ d := (0, d);
  has_cursor_set := false;
  cursor_off _ d := (0, d) |}.

#[export] Instance panel_laws : KmsLaws panel.
Proof.
  split; try done.
  - intros set d n d'. unfold d'. clear d'. cbn. destruct (set_fb set) as [a|]; destruct (decide (n = Framebuffer.set_crtc set)) as [->|Hne].
    + rewrite lookup_insert_eq. by right; right.
    + rewrite lookup_insert_ne by done. by left.
    + rewrite lookup_delete_eq. by right; left.
    + rewrite lookup_delete_ne by done. by left.
  - intros n a ev d n'. cbn. case_bool_decide as Hn.
    + subst. by rewrite lookup_insert_eq.
    + by rewrite lookup_insert_ne.
Qed.

(** ** The device *)

Abbreviation device := (device (G := ids) (T := tables) (D := panel)).
Abbreviation sys := (sys (G := ids) (T := tables) (D := panel)).
Abbreviation event := (event (G := ids) (T := tables) (D := panel)).

Definition take (i : idr pointer) (p : pointer) : idr pointer :=
  match idr_get_new_above i p 1 true with Some (_, _, i) => i | None => i end.

(** Identifiers 1, 2 and 3. *)
Definition boot_ids : idr pointer := take (take (take idr_init (PCrtc 0)) (PPlane 0)) (POther 0).

(** [al] and [ids]: the outcomes of the first allocations. *)
Definition booted (al ids : list bool) : device :=
  mk_device boot_ids ∅ [mk_crtc (mk_object 1 DRM_MODE_OBJECT_CRTC) None false]
    [mk_plane (mk_object 2 DRM_MODE_OBJECT_PLANE) None None [DRM_FORMAT_XRGB8888]]
    {[ 0%nat := mk_object 3 DRM_MODE_OBJECT_CONNECTOR ]} [] 0 1 ((0, 8192), (0, 8192)) ∅ dev1 ∅ al ids.

Definition i965 : chip := mk_chip 4 false false false false false false.
Definition linear (_ : oid) : Z * Z := (0, 0).

Definition vga : drm_mode_modeinfo := mk_modeinfo 25175 640 656 752 800 0 480 490 492 525 0 60 0 0 "".
Definition request : drm_mode_fb_cmd2 := mk_cmd 640 480 DRM_FORMAT_XRGB8888 0 [6; 0; 0; 0] [2560; 0; 0; 0] [0; 0; 0; 0].
Definition on_plane : set_plane := mk_set_plane 2 1 4 (mk_rects 0 0 640 480 0 0 (640 * 65536) (480 * 65536)).

Definition script : list event :=
  [EvStart (COpen 1%positive); EvStart (CAddfb2 1%positive request (Some 10%nat)); EvRun 0;
   EvStart (CSetcrtc (mk_set_crtc 1 4 0 0 true vga [Some 3]) (Some 20%nat)); EvRun 0;
   EvStart (CSetplane on_plane); EvRun 0; EvRun 0].

Fixpoint play (es : list event) (S : sys) : option sys :=
  match es with [] => Some S | e :: es => S ← step i965 linear e S; play es S end.

(** The state after the first [k] events. *)
Definition at_step (k : nat) : sys := default (mk_sys (booted [true; false] []) []) (play (firstn k script) (mk_sys (booted [true; false] []) [])).

(** ** Its states are reachable *)

Lemma take_ok (i : idr pointer) (p : pointer) n (i' : idr pointer) : idr_wf i -> idr_full i -> (exists m, 1 <= m < ID_MAX /\ used_ids i !! m = None) ->
  idr_get_new_above i p 1 true = Some (0, Some n, i') -> idr_wf i' /\ idr_full i'.
Proof. intros H1 H2 H3 E. destruct (new_id_run i p H1 H2 H3) as (m & j & E' & H4 & H5 & _). rewrite E in E'. by simplify_eq. Qed.

Lemma boot_ids_ok : idr_wf boot_ids /\ idr_full boot_ids.
Proof.
  assert (idr_wf (take idr_init (PCrtc 0)) /\ idr_full (take idr_init (PCrtc 0))) as [H1 H2].
  { eapply (take_ok idr_init (PCrtc 0)); [apply idr_init_wf|apply idr_init_wf| |vm_compute; reflexivity]. exists 1. by vm_compute. }
  assert (idr_wf (take (take idr_init (PCrtc 0)) (PPlane 0)) /\ idr_full (take (take idr_init (PCrtc 0)) (PPlane 0))) as [H3 H4].
  { eapply (take_ok _ (PPlane 0) _ _ H1 H2); [|vm_compute; reflexivity]. exists 2. by vm_compute. }
  eapply (take_ok _ (POther 0) _ _ H3 H4); [|vm_compute; reflexivity]. exists 3. by vm_compute.
Qed.

Lemma booted_initial : initial (booted [true; false] []).
Proof.
  destruct boot_ids_ok as [Hwf Hfull]. destruct (GemSafe.reachable_inv ext1 dev1 dev1_reachable) as [Hg Hnm]. split; try done.
  - exists ext1. split; try done.
    + intros n p Hp. assert (used_ids boot_ids = {[1 := PCrtc 0; 2 := PPlane 0; 3 := POther 0]}) as E by by vm_compute.
      change (crtc_idr (booted [true; false] [])) with boot_ids in Hp. rewrite E in Hp.
      apply lookup_insert_Some in Hp as [[<- <-]|[_ Hp]]; [by eexists|].
      apply lookup_insert_Some in Hp as [[<- <-]|[_ Hp]]; [by eexists|].
      apply lookup_singleton_Some in Hp as [<- <-]. eexists. split; [vm_compute; reflexivity|]. split; [done|by right].
    + apply NoDup_nil_2.
    + intros a. split; [by intros Ha%elem_of_nil|]. by intros [].
  - intros [|p] pl; [by intros [= <-]|done].
Qed.

Lemma fb_reach0 : reachable i965 linear (at_step 0).
Proof. apply (reach_init i965 linear (booted [true; false] [])), booted_initial. Qed.

Lemma few k : reachable i965 linear (at_step k) -> room_id (dev (at_step k)) ->
  Z.of_nat (work (threads (at_step k))) + 2 * Z.of_nat (length (crtcs (dev (at_step k)))) +
    Z.of_nat (length (planes (dev (at_step k)))) + 6 < 2 ^ 32 -> roomy (dev (at_step k)) (threads (at_step k)).
Proof. intros Hr. by apply roomy_few, (fb_reachable_inv i965 linear). Qed.

Lemma fb_reach1 : reachable i965 linear (at_step 1).
Proof.
  apply (reach_start i965 linear (at_step 0) (COpen 1%positive)); [exact fb_reach0| |vm_compute; reflexivity].
  split; [done|]. vm_compute; by eexists.
Qed.

Lemma fb_reach2 : reachable i965 linear (at_step 2).
Proof.
  apply (reach_start i965 linear (at_step 1) (CAddfb2 1%positive request (Some 10%nat))); [exact fb_reach1| |vm_compute; reflexivity].
  split; [|split; [vm_compute; by eexists|split; [exact dev1_room|split; [done|by intros a [= <-]]]]].
  apply (few 1); [exact fb_reach1|exists 4; by vm_compute|by vm_compute].
Qed.

Lemma fb_reach3 : reachable i965 linear (at_step 3).
Proof. apply (reach_run i965 linear (at_step 2) 0); [exact fb_reach2|vm_compute; reflexivity]. Qed.

Lemma fb_reach4 : reachable i965 linear (at_step 4).
Proof.
  apply (reach_start i965 linear (at_step 3) (CSetcrtc (mk_set_crtc 1 4 0 0 true vga [Some 3]) (Some 20%nat)));
    [exact fb_reach3| |vm_compute; reflexivity].
  split; [|by intros m [= <-]; vm_compute]. apply (few 3); [exact fb_reach3|exists 5; by vm_compute|by vm_compute].
Qed.

Lemma fb_reach5 : reachable i965 linear (at_step 5).
Proof. apply (reach_run i965 linear (at_step 4) 0); [exact fb_reach4|vm_compute; reflexivity]. Qed.

Lemma fb_reach6 : reachable i965 linear (at_step 6).
Proof.
  apply (reach_start i965 linear (at_step 5) (CSetplane on_plane)); [exact fb_reach5| |vm_compute; reflexivity].
  apply (few 5); [exact fb_reach5|exists 5; by vm_compute|by vm_compute].
Qed.

Lemma fb_reach7 : reachable i965 linear (at_step 7).
Proof. apply (reach_run i965 linear (at_step 6) 0); [exact fb_reach6|vm_compute; reflexivity]. Qed.
Lemma fb_reach8 : reachable i965 linear (at_step 8).
Proof. apply (reach_run i965 linear (at_step 7) 0); [exact fb_reach7|vm_compute; reflexivity]. Qed.

(** ** The theorems *)

(** The configuration that is about to be set can be set. *)
Lemma framebuffers_no_fault_witness : exists S', step i965 linear (EvRun 0) (at_step 4) = Some S' /\ reachable i965 linear S'.
Proof. apply (framebuffers_no_fault i965 linear (at_step 4) fb_reach4). vm_compute. lia. Defined.

(** Identifier, file, CRTC and plane: four references. *)
Lemma framebuffer_counts_exact_witness : exists f, fbs (dev (at_step 8)) !! 10%nat = Some f /\ fb_refcount f = 4 /\
  fb_refcount f = reg (dev (at_step 8)) 10 + owners (dev (at_step 8)) (threads (at_step 8)) 10 +
    total (refs 10) (threads (at_step 8)) + crtc_cnt (dev (at_step 8)) 10 + plane_cnt (dev (at_step 8)) 10.
Proof.
  pose proof (framebuffer_counts_exact i965 linear (at_step 8) fb_reach8 10) as H.
  destruct (fbs (dev (at_step 8)) !! 10%nat) as [f|] eqn:E; [|vm_compute in E; discriminate E].
  exists f. split; [reflexivity|]. split; [vm_compute in E; injection E as <-; reflexivity|]. exact (proj1 H).
Defined.

Lemma mode_objects_typed_witness : exists r, drm_mode_object_find 4 DRM_MODE_OBJECT_FB (dev (at_step 8)) = Some (r, dev (at_step 8)).
Proof.
  destruct (mode_objects_typed i965 linear (at_step 8) fb_reach8 4 DRM_MODE_OBJECT_FB) as [_ (r & H & _)]. exists r. exact H.
Defined.

Lemma framebuffer_calls_end_witness : threads (at_step 6) <> [] /\
  exists n S', runs i965 linear n (at_step 6) S' /\ Forall (fun t => ~ busy t) (threads S').
Proof. split; [vm_compute; discriminate|]. exact (proj2 (framebuffer_calls_end i965 linear (at_step 6) fb_reach6)). Defined.

Lemma rmfb_sound_witness : exists s', drm_mode_rmfb 1%positive 4 (dev (at_step 8)) = Some (0, s') /\
  forall m, used_ids (crtc_idr s') !! m <> Some (PFb 10).
Proof.
  assert (files (dev (at_step 8)) !! 1%positive = Some [10%nat]) as Hf by (vm_compute; reflexivity).
  pose proof (proj1 (wp_run _ _ _) (rmfb_sound i965 linear (at_step 8) 1%positive [10%nat] 4 fb_reach8 Hf)) as (ret & s' & E & H).
  assert (used_ids (crtc_idr (dev (at_step 8))) !! 4 = Some (PFb 10)) as Hu by (vm_compute; reflexivity).
  rewrite Hu in H. destruct (decide (10%nat ∈ [10%nat])) as [Hin|Hin]; [|destruct Hin; by left].
  destruct H as (-> & _ & _ & H & _). exists s'. split; [exact E|exact H].
Defined.

(** ** Where the code falls short *)

(** The device with an open file; [ids]: the outcomes of the allocations for identifiers. *)
Definition opened (ids : list bool) : device := set_files {[ 1%positive := [] ]} (booted [] ids).

(** When there is no memory for the identifier of a new framebuffer,
    [drm_framebuffer_init] returns 0 all the same: the call succeeds with identifier 0 and
    a framebuffer that is on no list.  Closing the file then takes its only reference with
    [__drm_framebuffer_unreference], whose release function is a BUG. *)
Lemma failed_id_is_success : exists s', drm_mode_addfb2 i965 linear 1%positive request (Some 10%nat) (opened [false]) = Some ((0, 0), s') /\
  fb_list s' = [] /\ files s' !! 1%positive = Some [10%nat] /\ drm_fb_release 1%positive s' = None.
Proof. eexists. split; [vm_compute; reflexivity|]. split; [|split]; vm_compute; reflexivity. Qed.

(** When there is no memory to take an identifier back, nobody notices: the framebuffer is
    removed and freed, its identifier still leads to it, and the next lookup reads freed
    memory. *)
Lemma failed_remove_dangles : exists s', drm_mode_rmfb 1%positive 4 (set_id_allocs [false] (dev (at_step 3))) = Some (0, s') /\
  fbs s' !! 10%nat = None /\ used_ids (crtc_idr s') !! 4 = Some (PFb 10) /\ drm_framebuffer_lookup 4 s' = None.
Proof. eexists. split; [vm_compute; reflexivity|]. split; [|split]; vm_compute; reflexivity. Qed.

(** A plane is to show a framebuffer that is removed between the lookup and the commit.
    The plane is then its last holder, and when the console is restored,
    [drm_plane_force_disable] drops that reference with
    [__drm_framebuffer_unreference]: a BUG. *)
Definition race : list event :=
  [EvStart (CSetplane on_plane); EvStart (CRmfb 1%positive 4); EvRun 0; EvRun 0; EvRun 0].

Definition race_at (k : nat) : sys := default (at_step 5) (play (firstn k race) (at_step 5)).

Lemma race_reachable : reachable i965 linear (race_at 5).
Proof.
  assert (reachable i965 linear (race_at 2)) as H2.
  { apply (reach_start i965 linear (at_step 6) (CRmfb 1%positive 4)); [exact fb_reach6|vm_compute; by eexists|vm_compute; reflexivity]. }
  assert (reachable i965 linear (race_at 3)) as H3 by (apply (reach_run i965 linear (race_at 2) 0); [exact H2|vm_compute; reflexivity]).
  assert (reachable i965 linear (race_at 4)) as H4 by (apply (reach_run i965 linear (race_at 3) 0); [exact H3|vm_compute; reflexivity]).
  apply (reach_run i965 linear (race_at 4) 0); [exact H4|vm_compute; reflexivity].
Qed.

Lemma plane_race_bug : reachable i965 linear (race_at 5) /\ threads (race_at 5) = [] /\
  step i965 linear (EvStart (CRestore [])) (race_at 5) = None.
Proof. split; [exact race_reachable|]. split; vm_compute; reflexivity. Qed.
