(* ===== verification/RadeonMem.v ===== *)
(** * The memory heap of the radeon driver (radeon_mem.c)

    Blocks of graphics memory in a circular list around a head, first fit, with the
    neighbours of a block that is given back joined to it.  The list is the pointers of
    the code over a store; what it means is the list of ranges and owners in their order
    (RadeonHeap), which is what the operations are shown to change. *)

From S2P Require Import Prelude.

Open Scope Z_scope.

(** [filp]: 0, -1, or a file. *)
Inductive owner := Nobody | HeapItself | File (f : positive).

#[export] Instance owner_eq_dec : EqDecision owner.
Proof. solve_decision. Defined.

Record mem_block := mk_mem_block { next : Z; prev : Z; start : Z; size : Z; filp : owner }.

Definition set_next (v : Z) (b : mem_block) : mem_block := mk_mem_block v (prev b) (start b) (size b) (filp b).
Definition set_prev (v : Z) (b : mem_block) : mem_block := mk_mem_block (next b) v (start b) (size b) (filp b).
Definition set_size (v : Z) (b : mem_block) : mem_block := mk_mem_block (next b) (prev b) (start b) v (filp b).
Definition set_filp (v : owner) (b : mem_block) : mem_block := mk_mem_block (next b) (prev b) (start b) (size b) v.

(** The memory of blocks, and the addresses that are going to be allocated; no more is a
    failure. *)
Record store := mk_store { mem : gmap Z mem_block; kmem : list (option Z); gart_heap : option Z; fb_heap : option Z }.

Definition set_mem (m : gmap Z mem_block) (s : store) : store := mk_store m (kmem s) (gart_heap s) (fb_heap s).
Definition set_kmem (l : list (option Z)) (s : store) : store := mk_store (mem s) l (gart_heap s) (fb_heap s).

Definition M (A : Type) : Type := Prog store A.

Definition rd (p : Z) : M mem_block := fun s => b ← mem s !! p; Some (b, s).
Definition upd (p : Z) (f : mem_block -> mem_block) : M unit := fun s =>
  b ← mem s !! p; Some (tt, set_mem (<[p := f b]> (mem s)) s).
(** New memory holds anything; the code writes every field it reads. *)
Definition drm_alloc : M (option Z) := fun s =>
  match kmem s with
  | Some q :: l => Some (Some q, set_kmem l (set_mem (<[q := mk_mem_block 0 0 0 0 Nobody]> (mem s)) s))
  | None :: l => Some (None, set_kmem l s)
  | [] => Some (None, s)
  end.
Definition drm_free (p : Z) : M unit := fun s => _ ← mem s !! p; Some (tt, set_mem (delete p (mem s)) s).

(** [newblock] after [p]: the stores both cuts of [split_block] make. *)
Definition insert_after (p newblock start size : Z) : M unit :=
  b ← rd p;
  _ ← upd newblock (fun _ => mk_mem_block (next b) p start size Nobody);
  _ ← upd (next b) (set_prev newblock);
  upd p (set_next newblock).

(** The start cut off: the block that is left, or nothing if there is no memory. *)
Definition cut_start (p start' : Z) : M (option Z) :=
  b ← rd p;
  if start' >? start b then
    q ← drm_alloc;
    match q with
    | None => mret None
    | Some newblock =>
        let nsize := s32 (size b - s32 (start' - start b)) in
        _ ← insert_after p newblock start' nsize;
        _ ← upd p (fun b => set_size (s32 (size b - nsize)) b);
        mret (Some newblock)
    end
  else mret (Some p).

Definition cut_end (p start' size' : Z) : M unit :=
  b ← rd p;
  if size' <? size b then
    q ← drm_alloc;
    match q with
    | None => mret tt
    | Some newblock =>
        _ ← insert_after p newblock (s32 (start' + size')) (s32 (size b - size'));
        upd p (set_size size')
    end
  else mret tt.

Definition split_block (p start' size' : Z) (f : owner) : M Z :=
  p' ← cut_start p start';
  match p' with
  | None => _ ← upd p (set_filp f); mret p
  | Some p =>
      _ ← cut_end p start' size';
      _ ← upd p (set_filp f);
      mret p
  end.

(** The shift of a 32 bit register uses five bits of its count. *)
Definition align_mask (align2 : Z) : Z := s32 (s32 (Z.shiftl 1 (align2 mod 32)) - 1).
Definition align_up (p mask : Z) : Z := s32 (Z.land (s32 (p + mask)) (Z.lnot mask)).

(** From [p] on; [fuel] is for the walk around the list. *)
Fixpoint alloc_loop (fuel : nat) (heap p size' mask : Z) (f : owner) : M (option Z) :=
  match fuel with
  | O => fail
  | S fuel =>
      if p =? heap then mret None else
      b ← rd p;
      let start' := align_up (start b) mask in
      if bool_decide (filp b = Nobody) && (s32 (start' + size') <=? s32 (start b + size b))
      then p ← split_block p start' size' f; mret (Some p)
      else alloc_loop fuel heap (next b) size' mask f
  end.

(** Enough for every list in the store. *)
Definition around : M nat := gets (fun s => S (base.size (mem s))).

Definition alloc_block (heap size' align2 : Z) (f : owner) : M (option Z) :=
  fuel ← around;
  h ← rd heap;
  alloc_loop fuel heap (next h) size' (align_mask align2) f.

Fixpoint find_loop (fuel : nat) (heap p start' : Z) : M (option Z) :=
  match fuel with
  | O => fail
  | S fuel =>
      if p =? heap then mret None else
      b ← rd p;
      if start b =? start' then mret (Some p) else find_loop fuel heap (next b) start'
  end.

Definition find_block (heap start' : Z) : M (option Z) :=
  fuel ← around;
  h ← rd heap;
  find_loop fuel heap (next h) start'.

(** [q], the block after [p], becomes part of it. *)
Definition join_next (p q : Z) : M unit :=
  b ← rd q;
  _ ← upd p (fun a => set_size (s32 (size a + size b)) a);
  _ ← upd p (set_next (next b));
  _ ← upd (next b) (set_prev p);
  drm_free q.

Definition free_block (p : Z) : M unit :=
  _ ← upd p (set_filp Nobody);
  b ← rd p;
  n ← rd (next b);
  _ ← (if bool_decide (filp n = Nobody) then join_next p (next b) else mret tt);
  b ← rd p;
  q ← rd (prev b);
  if bool_decide (filp q = Nobody) then join_next (prev b) p else mret tt.

(** ENOMEM, or the heap. *)
Definition init_heap (start' size' : Z) : M (Z + Z) :=
  blocks ← drm_alloc;
  match blocks with
  | None => mret (inl ENOMEM)
  | Some blocks =>
      heap ← drm_alloc;
      match heap with
      | None => _ ← drm_free blocks; mret (inl ENOMEM)
      | Some heap =>
          _ ← upd blocks (fun _ => mk_mem_block heap heap start' size' Nobody);
          _ ← upd heap (fun _ => mk_mem_block blocks blocks 0 0 HeapItself);
          mret (inr heap)
      end
  end.

Fixpoint disown (fuel : nat) (heap p : Z) (f : owner) : M unit :=
  match fuel with
  | O => fail
  | S fuel =>
      if p =? heap then mret tt else
      b ← rd p;
      _ ← (if bool_decide (filp b = f) then upd p (set_filp Nobody) else mret tt);
      disown fuel heap (next b) f
  end.

(** Both loops: the inner one stays at [p] while it joins. *)
Fixpoint join_free (fuel : nat) (heap p : Z) : M unit :=
  match fuel with
  | O => fail
  | S fuel =>
      if p =? heap then mret tt else
      b ← rd p;
      n ← rd (next b);
      if bool_decide (filp b = Nobody) && bool_decide (filp n = Nobody)
      then _ ← join_next p (next b); join_free fuel heap p
      else join_free fuel heap (next b)
  end.

(** [heap->next] is never NULL once the heap is there. *)
Definition radeon_mem_release (f : positive) (heap : option Z) : M unit :=
  match heap with
  | None => mret tt
  | Some heap =>
      fuel ← around;
      h ← rd heap;
      _ ← disown fuel heap (next h) (File f);
      h ← rd heap;
      join_free fuel heap (next h)
  end.

Fixpoint takedown_loop (fuel : nat) (heap p : Z) : M unit :=
  match fuel with
  | O => fail
  | S fuel =>
      if p =? heap then mret tt else
      b ← rd p;
      _ ← drm_free p;
      takedown_loop fuel heap (next b)
  end.

(** The heap that is left: none. *)
Definition radeon_mem_takedown (heap : option Z) : M (option Z) :=
  match heap with
  | None => mret None
  | Some heap =>
      fuel ← around;
      h ← rd heap;
      _ ← takedown_loop fuel heap (next h);
      _ ← drm_free heap;
      mret None
  end.

(** ** The ioctls *)

Definition RADEON_MEM_REGION_GART : Z := 1.
Definition RADEON_MEM_REGION_FB : Z := 2.

(** The heap of a region: no such region, or what the device has there. *)
Definition get_heap (region : Z) (s : store) : option (option Z) :=
  if region =? RADEON_MEM_REGION_GART then Some (gart_heap s) else
  if region =? RADEON_MEM_REGION_FB then Some (fb_heap s) else None.

Definition set_heap (region : Z) (h : option Z) (s : store) : store :=
  if region =? RADEON_MEM_REGION_GART then mk_store (mem s) (kmem s) h (fb_heap s)
  else mk_store (mem s) (kmem s) (gart_heap s) h.

(** The value, and the offset that is copied out; [copy_ok]: the copy succeeds. *)
Definition radeon_mem_alloc (region alignment size' : Z) (f : positive) (copy_ok : bool) : M (Z * option Z) :=
  heap ← gets (get_heap region);
  match heap with
  | Some (Some heap) =>
      let alignment := if alignment <? 12 then 12 else alignment in
      block ← alloc_block heap size' alignment (File f);
      match block with
      | None => mret (ENOMEM, None)
      | Some p => b ← rd p; mret (if copy_ok then (0, Some (start b)) else (EFAULT, None))
      end
  | _ => mret (EFAULT, None)
  end.

Definition radeon_mem_free (region offset : Z) (f : positive) : M Z :=
  heap ← gets (get_heap region);
  match heap with
  | Some (Some heap) =>
      block ← find_block heap offset;
      match block with
      | None => mret EFAULT
      | Some p =>
          b ← rd p;
          if negb (bool_decide (filp b = File f)) then mret EPERM else _ ← free_block p; mret 0
      end
  | _ => mret EFAULT
  end.

Definition radeon_mem_init_heap (region size' start' : Z) : M Z :=
  heap ← gets (get_heap region);
  match heap with
  | None => mret EFAULT
  | Some (Some _) => mret EFAULT
  | Some None =>
      r ← init_heap start' size';
      match r with
      | inl ret => mret ret
      | inr h => _ ← modify (set_heap region (Some h)); mret 0
      end
  end.

(** A file closed, and the device closed. *)
Definition release_heaps (f : positive) : M unit :=
  g ← gets gart_heap;
  _ ← radeon_mem_release f g;
  b ← gets fb_heap;
  radeon_mem_release f b.

Definition takedown_heaps : M unit :=
  g ← gets gart_heap;
  r ← radeon_mem_takedown g;
  _ ← modify (set_heap RADEON_MEM_REGION_GART r);
  b ← gets fb_heap;
  r ← radeon_mem_takedown b;
  modify (set_heap RADEON_MEM_REGION_FB r).
