(* ===== verification/RadeonHeap.v ===== *)
(** * The memory heap of the radeon driver: rings and ranges

    A heap is a ring of blocks (in the sense of ListHead) whose contents are a list of
    ranges with their owners.  The pointer operations are shown to change that list as
    meant: a block is cut in two, two neighbours become one, and the rest of memory stays. *)

From S2P Require Import Prelude ListHead RadeonMem.

Open Scope Z_scope.

Record blk := mk_blk { b_start : Z; b_size : Z; b_owner : owner }.

Definition content (b : mem_block) : blk := mk_blk (start b) (size b) (filp b).

Definition nx (m : gmap Z mem_block) (a : Z) : option Z := next <$> m !! a.
Definition pv (m : gmap Z mem_block) (a : Z) : option Z := prev <$> m !! a.

(** The heap at [h] is made of these blocks, in order. *)
Record is_heap (m : gmap Z mem_block) (h : Z) (l : list (Z * blk)) : Prop := {
  hp_ring : ring (nx m) (pv m) h l.*1;
  hp_blk : forall p b, (p, b) ∈ l -> content <$> m !! p = Some b;
  hp_head : filp <$> m !! h = Some HeapItself }.

(** The neighbours of what lies between [l1] and [l2]. *)
Definition before (h : Z) (l1 : list (Z * blk)) : Z := default h (last l1.*1).
Definition after (h : Z) (l2 : list (Z * blk)) : Z := default h (hd_error l2.*1).

Lemma before_last h l1 : last (h :: l1.*1) = Some (before h l1).
Proof. unfold before. destruct (l1.*1) as [|x l] using rev_ind; [done|]. by rewrite app_comm_cons, !last_snoc. Qed.
Lemma after_hd h l2 : hd_error (l2.*1 ++ [h]) = Some (after h l2).
Proof. unfold after. by destruct l2. Qed.

Lemma before_snoc h l1 q (c : blk) : before h (l1 ++ [(q, c)]) = q.
Proof. unfold before. rewrite fmap_app. change ([(q, c)].*1) with [q]. by rewrite last_snoc. Qed.

Section Heap.
Implicit Types (m : gmap Z mem_block) (h p q : Z) (l : list (Z * blk)) (b : blk).

Lemma heap_nodup m h l : is_heap m h l -> NoDup (h :: l.*1).
Proof. intros Hh. by destruct (hp_ring _ _ _ Hh). Qed.

(** A block of the heap, with its links. *)
Lemma heap_at m h l1 p b l2 : is_heap m h (l1 ++ (p, b) :: l2) ->
  m !! p = Some (mk_mem_block (after h l2) (before h l1) (b_start b) (b_size b) (b_owner b)).
Proof.
  intros [Hr Hb _]. specialize (Hb p b ltac:(set_solver)). rewrite fmap_app, fmap_cons in Hr.
  pose proof (proj1 (ring_seam _ _ _ l1.*1 (p :: l2.*1) _ _ (before_last h l1) eq_refl) Hr) as (_ & _ & [_ Hp] & _).
  assert (ring (nx m) (pv m) h ((l1.*1 ++ [p]) ++ l2.*1)) as Hr' by (by rewrite <-app_assoc).
  pose proof (proj1 (ring_seam _ _ h (l1.*1 ++ [p]) l2.*1 p (after h l2) ltac:(by rewrite app_comm_cons, last_snoc) (after_hd h l2)) Hr') as (_ & _ & [Hn _] & _).
  unfold nx, pv in *. destruct (m !! p) as [B|]; [|done]. simpl in *. destruct B as [n v st sz f]. unfold content in Hb. by simplify_eq/=.
Qed.

(** The head, and the first block. *)
Lemma heap_first m h l : is_heap m h l -> exists B, m !! h = Some B /\ next B = after h l /\ filp B = HeapItself.
Proof.
  intros [Hr _ Hh]. pose proof (proj1 (ring_seam _ _ _ [] l.*1 h (after h l) eq_refl (after_hd h l)) Hr) as (_ & _ & [Hn _] & _).
  unfold nx in Hn. destruct (m !! h) as [B|]; [|done]. exists B. by simplify_eq/=.
Qed.

(** What follows a block. *)
Lemma heap_after m h l1 p b l2 : is_heap m h (l1 ++ (p, b) :: l2) ->
  exists B, m !! after h l2 = Some B /\ filp B = match l2 with [] => HeapItself | (_, c) :: _ => b_owner c end.
Proof.
  intros Hh. destruct l2 as [|[q c] l2]; unfold after; simpl.
  - destruct (heap_first _ _ _ Hh) as (B & EB & _ & Ef). by exists B.
  - change (l1 ++ (p, b) :: (q, c) :: l2) with (l1 ++ [(p, b)] ++ (q, c) :: l2) in Hh. rewrite app_assoc in Hh.
    eexists. split; [exact (heap_at _ _ _ _ _ _ Hh)|done].
Qed.

Lemma heap_before m h l1 p b l2 : is_heap m h (l1 ++ (p, b) :: l2) ->
  exists B, m !! before h l1 = Some B /\ filp B = match last l1 with None => HeapItself | Some (_, c) => b_owner c end.
Proof.
  intros Hh. destruct l1 as [|[q c] l1 _] using rev_ind.
  - destruct (heap_first _ _ _ Hh) as (B & EB & _ & Ef). by exists B.
  - rewrite before_snoc, last_snoc. rewrite <-app_assoc in Hh. simpl in Hh.
    eexists. split; [exact (heap_at _ _ _ _ _ _ Hh)|done].
Qed.

(** The links of a store decide the ring. *)
Lemma ring_ext n v n' v' h (l : list Z) : (forall a, a ∈ h :: l -> n' a = n a) -> (forall a, a ∈ h :: l -> v' a = v a) ->
  ring n v h l -> ring n' v' h l.
Proof.
  intros Hn Hv [Hd HC]. split; [done|]. rewrite app_comm_cons in *. apply (Chain_impl_in _ _ _ _ HC).
  intros a b Ha Hb [H1 H2]. split; [rewrite Hn by set_solver|rewrite Hv by set_solver]; done.
Qed.

Lemma heap_not_in m h l1 p b l2 : is_heap m h (l1 ++ (p, b) :: l2) ->
  p <> h /\ (forall c, (p, c) ∉ l1) /\ (forall c, (p, c) ∉ l2).
Proof.
  intros Hh. apply heap_nodup in Hh. rewrite fmap_app, fmap_cons in Hh. apply NoDup_cons in Hh as [Hn Hd].
  apply NoDup_app in Hd as (_ & Hd1 & Hd2). apply NoDup_cons in Hd2 as [Hd2 _].
  split; [intros ->; set_solver|]. split; intros c Hc; apply (list_elem_of_fmap_2 fst) in Hc; simpl in Hc; [|done].
  by apply (Hd1 p); [|left].
Qed.

(** The content of one block changes, its links do not. *)
Lemma heap_upd m h l1 p b l2 g : is_heap m h (l1 ++ (p, b) :: l2) ->
  (forall B, next (g B) = next B /\ prev (g B) = prev B) ->
  exists b', content <$> (g <$> m !! p) = Some b' /\ is_heap (alter g p m) h (l1 ++ (p, b') :: l2).
Proof.
  intros Hh Hg. pose proof (heap_at _ _ _ _ _ _ Hh) as Hp. destruct (heap_not_in _ _ _ _ _ _ Hh) as (Hph & Hn1 & Hn2).
  rewrite Hp. eexists. split; [done|]. destruct Hh as [Hr Hb Hf]. split.
  - rewrite fmap_app, fmap_cons in *. eapply ring_ext; [| |exact Hr].
    + intros a _. unfold nx. destruct (decide (a = p)) as [->|Hne]; [|by rewrite lookup_alter_ne].
      rewrite lookup_alter_eq, Hp. simpl. by rewrite (proj1 (Hg _)).
    + intros a _. unfold pv. destruct (decide (a = p)) as [->|Hne]; [|by rewrite lookup_alter_ne].
      rewrite lookup_alter_eq, Hp. simpl. by rewrite (proj2 (Hg _)).
  - intros a c [Hc|[Hc|Hc]%elem_of_cons]%elem_of_app.
    + rewrite lookup_alter_ne by (intros <-; by apply (Hn1 c)). apply Hb. set_solver.
    + injection Hc as -> ->. by rewrite lookup_alter_eq, Hp.
    + rewrite lookup_alter_ne by (intros <-; by apply (Hn2 c)). apply Hb. set_solver.
  - by rewrite lookup_alter_ne.
Qed.

(** Other memory. *)
Lemma heap_frame m m' h l : is_heap m h l -> (forall a, a ∈ h :: l.*1 -> m' !! a = m !! a) -> is_heap m' h l.
Proof.
  intros [Hr Hb Hf] E. split.
  - eapply ring_ext; [| |exact Hr]; intros a Ha; unfold nx, pv; by rewrite E.
  - intros p b Hp. rewrite E; [by apply Hb|]. right. by apply (list_elem_of_fmap_2 fst) in Hp.
  - rewrite E by (by left). done.
Qed.

(** ** Programs *)

Lemma wp_rd p B Q s : mem s !! p = Some B -> Q B s -> wp (rd p) Q s.
Proof. intros E HQ. unfold wp, rd. rewrite E. done. Qed.

Lemma wp_upd p B g Q s : mem s !! p = Some B -> Q tt (set_mem (<[p := g B]> (mem s)) s) -> wp (upd p g) Q s.
Proof. intros E HQ. unfold wp, upd. rewrite E. done. Qed.

Lemma wp_free p Q s : is_Some (mem s !! p) -> Q tt (set_mem (delete p (mem s)) s) -> wp (drm_free p) Q s.
Proof. intros [B E] HQ. unfold wp, drm_free. rewrite E. done. Qed.

(** A new block after [p]. *)
Lemma insert_after_run s h l1 p b l2 q st sz : is_heap (mem s) h (l1 ++ (p, b) :: l2) ->
  is_Some (mem s !! q) -> q ∉ h :: (l1 ++ (p, b) :: l2).*1 ->
  wp (insert_after p q st sz) (fun _ s' => exists m', s' = set_mem m' s /\
    is_heap m' h (l1 ++ (p, b) :: (q, mk_blk st sz Nobody) :: l2) /\
    (forall a, a ∉ q :: h :: (l1 ++ (p, b) :: l2).*1 -> m' !! a = mem s !! a) /\
    (forall a, is_Some (m' !! a) <-> is_Some (mem s !! a))) s.
Proof.
  intros Hh [Bq Hq] Hni. rewrite fmap_app, fmap_cons in Hni. pose proof (heap_at _ _ _ _ _ _ Hh) as Hp. set (y := after h l2) in *.
  destruct (heap_after _ _ _ _ _ _ Hh) as (By & Hy & _). fold y in Hy.
  assert (q <> p /\ q <> y /\ q <> h) as (Hqp & Hqy & Hqh).
  { split; [set_solver|]. split; [|set_solver]. intros ->. apply Hni. unfold y, after. destruct l2 as [|[? ?] ?]; simpl; set_solver. }
  destruct (heap_not_in _ _ _ _ _ _ Hh) as (Hph & Hn1 & Hn2).
  assert (y <> p) as Hyp.
  { unfold y, after. destruct l2 as [|[z c] l2]; simpl; [done|]. intros ->. apply (Hn2 c). by left. }
  unfold insert_after. rewrite wp_bind. eapply wp_rd; [exact Hp|]. simpl. rewrite wp_bind. eapply wp_upd; [exact Hq|]. simpl.
  rewrite wp_bind. eapply wp_upd; [simpl; by rewrite lookup_insert_ne by done|]. simpl.
  eapply wp_upd; [simpl; by rewrite !lookup_insert_ne by done|]. simpl.
  eexists. split; [reflexivity|]. set (m' := <[p := _]> _).
  assert (forall a, m' !! a = if decide (a = p) then Some (mk_mem_block q (before h l1) (b_start b) (b_size b) (b_owner b))
    else if decide (a = y) then Some (set_prev q By) else if decide (a = q) then Some (mk_mem_block y p st sz Nobody) else mem s !! a) as Em.
  { intros a. unfold m'. case_decide as H1; [by rewrite H1, lookup_insert_eq|]. rewrite lookup_insert_ne by done.
    case_decide as H2; [by rewrite H2, lookup_insert_eq|]. rewrite lookup_insert_ne by done.
    case_decide as H3; [by rewrite H3, lookup_insert_eq|]. by rewrite lookup_insert_ne. }
  clearbody m'. split; [|split].
  - destruct Hh as [Hr Hb Hf]. split.
    + rewrite fmap_app, fmap_cons in Hr. rewrite fmap_app, !fmap_cons.
      cut (ring (nx m') (pv m') h ((l1.*1 ++ [p]) ++ q :: l2.*1)); [by rewrite <-app_assoc|].
      apply (ring_insert (nx (mem s)) (pv (mem s)) _ _ h (l1.*1 ++ [p]) l2.*1 q p y); try done.
      * by rewrite <-app_assoc.
      * set_solver.
      * by rewrite app_comm_cons, last_snoc.
      * apply after_hd.
      * unfold nx. by rewrite Em, decide_True.
      * unfold nx. by rewrite Em, decide_False, decide_False, decide_True.
      * unfold pv. by rewrite Em, decide_False, decide_True.
      * unfold pv. by rewrite Em, decide_False, decide_False, decide_True.
      * intros a H1 H2. unfold nx. rewrite Em, decide_False by done. case_decide as H3; [by rewrite H3, Hy|].
        by rewrite decide_False.
      * intros a H1 H2. unfold pv. rewrite Em. case_decide as H3; [by rewrite H3, Hp|]. by rewrite !decide_False.
    + assert (forall a c, (a, c) ∈ l1 ++ l2 -> a <> p) as Hap.
      { intros a c Hc ->. apply elem_of_app in Hc as [Hc|Hc]; [by apply (Hn1 c)|by apply (Hn2 c)]. }
      assert (forall a c, (a, c) ∈ l1 ++ l2 -> content <$> m' !! a = Some c) as Hrest.
      { intros a c Hc. rewrite Em, decide_False by by apply (Hap a c). specialize (Hb a c ltac:(set_solver)).
        case_decide as H2; [rewrite H2, Hy in Hb; simpl in *; exact Hb|].
        rewrite decide_False; [done|]. intros ->. apply Hni. right. apply (list_elem_of_fmap_2 fst) in Hc. simpl in Hc.
        rewrite fmap_app in Hc. set_solver. }
      intros a c [Hc|[Hc|[Hc|Hc]%elem_of_cons]%elem_of_cons]%elem_of_app; simplify_eq.
      * apply Hrest. set_solver.
      * rewrite Em, decide_True by done. by destruct b.
      * by rewrite Em, decide_False, decide_False, decide_True by done.
      * apply Hrest. set_solver.
    + rewrite Em, decide_False by done. case_decide as H2; [rewrite H2, Hy in Hf; exact Hf|]. by rewrite decide_False.
  - intros a Ha. rewrite fmap_app, fmap_cons, !not_elem_of_cons, not_elem_of_app, not_elem_of_cons in Ha.
    destruct Ha as (Haq & Hah & Ha1 & Hap & Ha2). rewrite Em, decide_False by done. rewrite decide_False; [by rewrite decide_False|].
    intros ->. unfold y, after in *. destruct l2 as [|[z c] l2]; simpl in *; [done|]. apply Ha2. by left.
  - intros a. rewrite Em. case_decide as H1; [rewrite H1, Hp; by split|]. case_decide as H2; [rewrite H2, Hy; by split|].
    case_decide as H3; [rewrite H3, Hq; by split|done].
Qed.
(** The block after [p] becomes part of it. *)
Lemma join_next_run s h l1 p a q b l2 : is_heap (mem s) h (l1 ++ (p, a) :: (q, b) :: l2) ->
  wp (join_next p q) (fun _ s' => exists m', s' = set_mem m' s /\
    is_heap m' h (l1 ++ (p, mk_blk (b_start a) (s32 (b_size a + b_size b)) (b_owner a)) :: l2) /\
    (forall x, x ∉ h :: (l1 ++ (p, a) :: (q, b) :: l2).*1 -> m' !! x = mem s !! x) /\
    (forall x, is_Some (m' !! x) <-> x <> q /\ is_Some (mem s !! x))) s.
Proof.
  intros Hh. pose proof (heap_at _ _ _ _ _ _ Hh) as Hp. set (y := after h l2) in *.
  assert (is_heap (mem s) h ((l1 ++ [(p, a)]) ++ (q, b) :: l2)) as Hh' by (by rewrite <-app_assoc).
  pose proof (heap_at _ _ _ _ _ _ Hh') as Hq. rewrite before_snoc in Hq. fold y in Hq.
  change (after h ((q, b) :: l2)) with q in Hp. destruct (heap_after _ _ _ _ _ _ Hh') as (By & Hy & _). fold y in Hy.
  destruct (heap_not_in _ _ _ _ _ _ Hh) as (Hph & Hn1 & Hn2). destruct (heap_not_in _ _ _ _ _ _ Hh') as (Hqh & Hm1 & Hm2).
  assert (q <> p) as Hqp by (intros ->; apply (Hn2 b); by left).
  assert (y <> p /\ y <> q) as [Hyp Hyq].
  { unfold y, after. destruct l2 as [|[z c] l2]; simpl; [done|]. split; intros ->.
    - apply (Hn2 c). right. by left.
    - apply (Hm2 c). by left. }
  unfold join_next. rewrite wp_bind. eapply wp_rd; [exact Hq|]. simpl. rewrite wp_bind. eapply wp_upd; [exact Hp|]. simpl.
  rewrite wp_bind. eapply wp_upd; [simpl; apply lookup_insert_eq|]. simpl. rewrite wp_bind, insert_insert_eq.
  eapply wp_upd; [simpl; by rewrite lookup_insert_ne|]. simpl. eapply wp_free; [simpl; rewrite !lookup_insert_ne, Hq by done; by eexists|].
  simpl. eexists. split; [reflexivity|]. set (m' := delete q _).
  assert (forall x, m' !! x = if decide (x = q) then None else
    if decide (x = p) then Some (mk_mem_block y (before h l1) (b_start a) (s32 (b_size a + b_size b)) (b_owner a))
    else if decide (x = y) then Some (set_prev p By) else mem s !! x) as Em.
  { intros x. unfold m'. case_decide as H1; [by rewrite H1, lookup_delete_eq|]. rewrite lookup_delete_ne by done.
    case_decide as H2; [rewrite H2, lookup_insert_ne by done; by rewrite lookup_insert_eq|].
    case_decide as H3; [by rewrite H3, lookup_insert_eq|]. by rewrite !lookup_insert_ne. }
  clearbody m'. split; [|split].
  - destruct Hh as [Hr Hb Hf]. split.
    + rewrite fmap_app, !fmap_cons in Hr. rewrite fmap_app, fmap_cons.
      cut (ring (nx m') (pv m') h ((l1.*1 ++ [p]) ++ l2.*1)); [by rewrite <-app_assoc|].
      apply (ring_remove (nx (mem s)) (pv (mem s)) _ _ h (l1.*1 ++ [p]) l2.*1 q p y).
      * by rewrite <-app_assoc.
      * by rewrite app_comm_cons, last_snoc.
      * apply after_hd.
      * unfold nx. rewrite Em, decide_False by done. by rewrite decide_True.
      * unfold pv. rewrite Em, decide_False, decide_False by done. by rewrite decide_True.
      * intros x H1 H2. unfold nx. rewrite Em, decide_False, decide_False by done. case_decide as H3; [by rewrite H3, Hy|done].
      * intros x H1 H2. unfold pv. rewrite Em, decide_False by done. case_decide as H3; [by rewrite H3, Hp|]. by rewrite decide_False.
    + assert (forall x c, (x, c) ∈ l1 ++ l2 -> content <$> m' !! x = Some c) as Hrest.
      { intros x c Hc. specialize (Hb x c ltac:(set_solver)). rewrite Em, decide_False.
        2: { intros ->. apply elem_of_app in Hc as [Hc|Hc]; [apply (Hm1 c); set_solver|by apply (Hm2 c)]. }
        rewrite decide_False.
        2: { intros ->. apply elem_of_app in Hc as [Hc|Hc]; [by apply (Hn1 c)|apply (Hn2 c); by right]. }
        case_decide as H3; [rewrite H3, Hy in Hb; exact Hb|done]. }
      intros x c [Hc|[Hc|Hc]%elem_of_cons]%elem_of_app; simplify_eq.
      * apply Hrest. set_solver.
      * rewrite Em, decide_False by done. by rewrite decide_True.
      * apply Hrest. set_solver.
    + rewrite Em, decide_False, decide_False by done. case_decide as H3; [rewrite H3, Hy in Hf; exact Hf|done].
  - intros x Hx. rewrite fmap_app, !fmap_cons, !not_elem_of_cons, not_elem_of_app, !not_elem_of_cons in Hx.
    destruct Hx as (Hxh & Hx1 & Hxp & Hxq & Hx2). rewrite Em, decide_False, decide_False by done. rewrite decide_False; [done|].
    intros ->. unfold y, after in *. destruct l2 as [|[z c] l2]; simpl in *; [done|]. apply Hx2. by left.
  - intros x. rewrite Em. case_decide as H1; [split; [by intros []|by intros []]|].
    case_decide as H2; [rewrite H2, Hp; by split|]. case_decide as H3; [rewrite H3, Hy; by split|]. tauto.
Qed.
End Heap.

(** * Changes of one heap *)

(** Memory that is going to be allocated is not in use. *)
Definition alloc_ok (s : store) : Prop :=
  NoDup (omap id (kmem s)) /\ forall q, Some q ∈ kmem s -> mem s !! q = None.

(** There is memory for two more blocks. *)
Definition plenty (s : store) : Prop := exists q1 q2 l, kmem s = Some q1 :: Some q2 :: l.

(** The heap at [h] was [l] and is [l']: its blocks are those it had or new ones, and the
    rest of the memory stays. *)
Record goes (h : Z) (l l' : list (Z * blk)) (s s' : store) : Prop := {
  go_heap : is_heap (mem s') h l';
  go_gart : gart_heap s' = gart_heap s;
  go_fb : fb_heap s' = fb_heap s;
  go_frame : forall a, a ∉ h :: l.*1 -> is_Some (mem s !! a) -> mem s' !! a = mem s !! a;
  go_live : forall a, is_Some (mem s' !! a) <-> (is_Some (mem s !! a) /\ a ∉ l.*1) \/ a ∈ l'.*1;
  go_new : forall a, a ∈ l'.*1 -> a ∈ l.*1 \/ mem s !! a = None }.

(** What becomes of a free block [b] at [p] that gets [sz] at [st] for [f].  [short]:
    there was not enough memory. *)
Inductive carved (p : Z) (b : blk) (st sz : Z) (f : owner) (short : Prop) : Z -> list (Z * blk) -> Prop :=
| carved_at front p' got back :
    (front = [] /\ p' = p /\ st = b_start b \/
     front = [(p, mk_blk (b_start b) (st - b_start b) Nobody)] /\ b_start b < st) ->
    (let rest := b_size b - (st - b_start b) in
     got = sz /\ back = [] /\ sz = rest \/
     (exists q, got = sz /\ back = [(q, mk_blk (st + sz) (rest - sz) Nobody)] /\ sz < rest) \/
     short /\ back = [] /\ got = rest /\ sz < rest) ->
    carved p b st sz f short p' (front ++ (p', mk_blk st got f) :: back)
| carved_whole : short -> b_start b < st ->
    carved p b st sz f short p [(p, mk_blk (b_start b) (b_size b) f)].

Section Ops.
Implicit Types (s : store) (h p q : Z) (l : list (Z * blk)) (b : blk).

Lemma heap_live m h l a : is_heap m h l -> a ∈ h :: l.*1 -> is_Some (m !! a).
Proof.
  intros [_ Hb Hf] [->|Ha]%elem_of_cons; [by destruct (m !! h)|]. apply list_elem_of_fmap in Ha as ([p b] & -> & Hp).
  specialize (Hb p b Hp). simpl. by destruct (m !! p).
Qed.

Lemma alloc_run s : alloc_ok s ->
  wp drm_alloc (fun r s' => alloc_ok s' /\ (gart_heap s' = gart_heap s /\ fb_heap s' = fb_heap s) /\ kmem s' = tail (kmem s) /\ r = mjoin (hd_error (kmem s)) /\
    match r with
    | Some q => mem s !! q = None /\ mem s' = <[q := mk_mem_block 0 0 0 0 Nobody]> (mem s)
    | None => mem s' = mem s
    end) s.
Proof.
  intros [Hnd Hfr]. unfold wp, drm_alloc. destruct (kmem s) as [|[q|] l] eqn:El.
  - split; [|by rewrite El]. split; [by rewrite El|]. rewrite El. intros q Hq. by apply elem_of_nil in Hq.
  - simpl in Hnd. apply NoDup_cons in Hnd as [Hq Hnd]. split; [|split; [done|split; [done|split; [done|split; [|done]]]]].
    + split; [done|]. intros x Hx. simpl in *. rewrite lookup_insert_ne; [apply Hfr; by right|]. intros <-.
      apply Hq. apply list_elem_of_omap. by exists (Some q).
    + apply Hfr. by left.
  - split; [|done]. split; [done|]. intros x Hx. apply Hfr. by right.
Qed.

Lemma alloc_ok_mem s m : alloc_ok s -> (forall a, is_Some (m !! a) -> is_Some (mem s !! a)) -> alloc_ok (set_mem m s).
Proof.
  intros [Hnd Hfr] E. split; [done|]. intros q Hq. specialize (Hfr q Hq). simpl. apply eq_None_not_Some. intros HS.
  apply E in HS. rewrite Hfr in HS. by destruct HS.
Qed.

Lemma goes_refl s h l : is_heap (mem s) h l -> goes h l l s s.
Proof.
  intros Hh. split; try done; [|auto]. intros a. split; [destruct (decide (a ∈ l.*1)); tauto|].
  intros [[? _]|Ha]; [done|]. apply (heap_live _ _ _ _ Hh). by right.
Qed.

Lemma goes_trans s s' s'' h l l' l'' : goes h l l' s s' -> goes h l' l'' s' s'' -> goes h l l'' s s''.
Proof.
  intros [_ G1 F1 R1 L1 N1] [H2 G2 F2 R2 L2 N2]. split; [done|congruence|congruence| | |].
  - intros a Ha HS. rewrite <-(R1 a Ha HS). apply R2.
    + rewrite not_elem_of_cons in Ha |- *. destruct Ha as [Hah Ha]. split; [done|]. intros H'. apply N1 in H' as [?|E]; [done|].
      rewrite E in HS. by destruct HS.
    + by rewrite (R1 a Ha HS).
  - intros a. rewrite L2, L1. split; [tauto|]. intros [[HS Ha]|Ha]; [|by right]. left. split; [by left|]. intros H'.
    apply N1 in H' as [?|E]; [done|]. rewrite E in HS. by destruct HS.
  - intros a Ha. apply N2 in Ha as [Ha|E]; [by apply N1|].
    destruct (decide (a ∈ l.*1)); [by left|]. right. apply eq_None_not_Some. intros HS.
    apply (is_Some_None (A:=mem_block)). rewrite <-E. apply L1. by left.
Qed.

(** Another heap, elsewhere. *)
Lemma goes_other s s' h l l' h' k : goes h l l' s s' -> is_heap (mem s) h' k -> h' :: k.*1 ## h :: l.*1 ->
  is_heap (mem s') h' k /\ (h <> h' -> h ∉ k.*1 -> h' :: k.*1 ## h :: l'.*1).
Proof.
  intros Hg Hk Hd. pose proof (fun a Ha => heap_live _ _ _ a Hk Ha) as HL. split.
  - apply (heap_frame _ _ _ _ Hk). intros a Ha. apply (go_frame _ _ _ _ _ Hg); [|by apply HL]. intros Hl. by apply (Hd a).
  - intros Hne Hnk a Ha [->|Hl]%elem_of_cons; [by apply elem_of_cons in Ha as [?|?]|].
    apply (go_new _ _ _ _ _ Hg) in Hl as [Hl|E]; [apply (Hd a); [done|by right]|].
    specialize (HL a Ha). rewrite E in HL. by destruct HL.
Qed.

(** ** One store at a time *)

(** The content of a block. *)
Lemma upd_run s h l1 p b l2 g b' : is_heap (mem s) h (l1 ++ (p, b) :: l2) ->
  (forall B, next (g B) = next B /\ prev (g B) = prev B) ->
  (forall B, content B = b -> content (g B) = b') ->
  wp (upd p g) (fun _ s' => goes h (l1 ++ (p, b) :: l2) (l1 ++ (p, b') :: l2) s s' /\ kmem s' = kmem s /\
    (alloc_ok s -> alloc_ok s')) s.
Proof.
  intros Hh Hg Hb. pose proof (heap_at _ _ _ _ _ _ Hh) as Hp. destruct (heap_upd _ _ _ _ _ _ g Hh Hg) as (c & Hc & Hh').
  rewrite Hp in Hc. simpl in Hc. injection Hc as Hc. eapply wp_upd; [exact Hp|].
  assert (<[p := g (mk_mem_block (after h l2) (before h l1) (b_start b) (b_size b) (b_owner b))]> (mem s) = alter g p (mem s)) as ->.
  { apply map_eq. intros a. destruct (decide (a = p)) as [->|Hne]; [by rewrite lookup_insert_eq, lookup_alter_eq, Hp|].
    by rewrite lookup_insert_ne, lookup_alter_ne. }
  assert (forall a, is_Some (alter g p (mem s) !! a) <-> is_Some (mem s !! a)) as Hd by apply lookup_alter_is_Some.
  rewrite (Hb (mk_mem_block (after h l2) (before h l1) (b_start b) (b_size b) (b_owner b))) in Hc by by destruct b.
  rewrite <-Hc in Hh'. assert ((l1 ++ (p, b') :: l2).*1 = (l1 ++ (p, b) :: l2).*1) as EL by (by rewrite !fmap_app).
  split; [split|split; [done|]]; [done|done|done| | | |].
  - intros a Ha _. apply lookup_alter_ne. intros ->. apply Ha. right. rewrite fmap_app. set_solver.
  - intros a. simpl. rewrite Hd, EL. split; [destruct (decide (a ∈ (l1 ++ (p, b) :: l2).*1)); tauto|].
    intros [[? _]|Ha]; [done|]. apply (heap_live _ _ _ _ Hh). by right.
  - intros a Ha. left. by rewrite <-EL.
  - intros Ha. apply alloc_ok_mem; [done|]. intros a. by rewrite Hd.
Qed.

(** New memory after a block, or none. *)
Lemma insert_new_run s h l1 p b l2 st sz : is_heap (mem s) h (l1 ++ (p, b) :: l2) -> alloc_ok s ->
  wp drm_alloc (fun r s0 => match r with
    | None => ~ plenty s /\ (forall q, kmem s <> Some q :: tail (kmem s)) /\ goes h (l1 ++ (p, b) :: l2) (l1 ++ (p, b) :: l2) s s0
    | Some q => wp (insert_after p q st sz) (fun _ s' => alloc_ok s' /\ kmem s = Some q :: kmem s' /\
        goes h (l1 ++ (p, b) :: l2) (l1 ++ (p, b) :: (q, mk_blk st sz Nobody) :: l2) s s') s0
    end) s.
Proof.
  intros Hh Ha. pose proof (fun a H => heap_live _ _ _ a Hh H) as HL.
  eapply wp_mono; [apply (alloc_run s Ha)|]. intros [q|] s0 (Ha0 & (EG & EF) & EK & ER & Hm); simpl in *.
  - destruct Hm as [Hq Em]. destruct (kmem s) as [|k K] eqn:EKs; [done|]. simpl in EK, ER. subst k.
    assert (q ∉ h :: (l1 ++ (p, b) :: l2).*1) as Hni by (intros Hin; specialize (HL q Hin); rewrite Hq in HL; by destruct HL).
    assert (is_heap (mem s0) h (l1 ++ (p, b) :: l2)) as Hh0.
    { apply (heap_frame _ _ _ _ Hh). intros a Hin. rewrite Em, lookup_insert_ne; [done|]. by intros ->. }
    eapply wp_mono; [apply (insert_after_run s0 h l1 p b l2 q st sz Hh0); [by rewrite Em, lookup_insert_eq|done]|].
    intros [] s' (m' & -> & Hh' & Hf & Hd). split; [by apply alloc_ok_mem; [|intros a; rewrite Hd]|]. split; [simpl; by rewrite EK|].
    assert (forall a, is_Some (m' !! a) <-> is_Some (mem s !! a) \/ a = q) as Hd'.
    { intros a. rewrite Hd, Em. destruct (decide (a = q)) as [->|Hne]; [rewrite lookup_insert_eq; naive_solver|].
      rewrite lookup_insert_ne by done. naive_solver. }
    assert (forall a, a ∈ (l1 ++ (p, b) :: (q, mk_blk st sz Nobody) :: l2).*1 <-> a ∈ (l1 ++ (p, b) :: l2).*1 \/ a = q) as EL.
    { intros a. rewrite !fmap_app, !fmap_cons. simpl. set_solver. }
    split; [done|done|done| | |].
    + intros a Hin HS. simpl. assert (a <> q) by (intros ->; rewrite Hq in HS; by destruct HS).
      rewrite Hf by (rewrite not_elem_of_cons; done). by rewrite Em, lookup_insert_ne.
    + intros a. simpl. rewrite Hd', EL. split; [destruct (decide (a ∈ (l1 ++ (p, b) :: l2).*1)); tauto|].
      intros [[? _]|[Hin| ->]]; [by left| |by right]. left. apply HL. by right.
    + intros a. rewrite EL. intros [?| ->]; auto.
  - assert (forall q, kmem s <> Some q :: tail (kmem s)) as Hno.
    { intros q E. rewrite E in ER. simpl in ER. done. }
    split; [|split; [done|]].
    + intros (q1 & q2 & l & E). by apply (Hno q1); rewrite E.
    + destruct (goes_refl _ _ _ Hh) as [R1 R2 R3 R4 R5 R6]. split; rewrite ?Hm; try done.
Qed.

(** The block after [p] joined to it. *)
Lemma join_run s h l1 p a q b l2 : is_heap (mem s) h (l1 ++ (p, a) :: (q, b) :: l2) ->
  wp (join_next p q) (fun _ s' =>
    goes h (l1 ++ (p, a) :: (q, b) :: l2) (l1 ++ (p, mk_blk (b_start a) (s32 (b_size a + b_size b)) (b_owner a)) :: l2) s s') s.
Proof.
  intros Hh. pose proof (fun x H => heap_live _ _ _ x Hh H) as HL. pose proof (heap_nodup _ _ _ Hh) as Hnd.
  eapply wp_mono; [apply (join_next_run s h l1 p a q b l2 Hh)|].
  intros [] s' (m' & -> & Hh' & Hf & Hd). rewrite fmap_app, !fmap_cons in *. simpl in *.
  assert (q ∉ l1.*1 ++ p :: l2.*1) as Hq.
  { apply NoDup_cons in Hnd as [_ Hnd]. replace (l1.*1 ++ p :: q :: l2.*1) with ((l1.*1 ++ [p]) ++ q :: l2.*1) in Hnd by by rewrite <-app_assoc.
    apply NoDup_app in Hnd as (_ & H1 & [H2 _]%NoDup_cons). intros Hin. rewrite elem_of_app, elem_of_cons in Hin.
    assert (q ∈ l1.*1 ++ [p] \/ q ∈ l2.*1) as [Hx|Hx] by (rewrite elem_of_app, list_elem_of_singleton; tauto); [|done].
    apply (H1 q Hx). by left. }
  split; rewrite ?fmap_app, ?fmap_cons; simpl; [done|done|done| | |].
  - intros x Hx _. by apply Hf.
  - intros x. rewrite Hd. split.
    + intros [Hne HS]. destruct (decide (x ∈ l1.*1 ++ p :: l2.*1)); [by right|]. left. split; [done|]. set_solver.
    + intros [[HS Hx]|Hx]; [split; [set_solver|done]|]. split; [by intros ->|]. apply HL. right. set_solver.
  - intros x Hx. left. set_solver.
Qed.

(** ** A block in three *)

Lemma set_filp_run s h l1 p b l2 f : is_heap (mem s) h (l1 ++ (p, b) :: l2) ->
  wp (upd p (set_filp f)) (fun _ s' => goes h (l1 ++ (p, b) :: l2) (l1 ++ (p, mk_blk (b_start b) (b_size b) f) :: l2) s s' /\
    kmem s' = kmem s /\ (alloc_ok s -> alloc_ok s')) s.
Proof. intros Hh. by apply (upd_run s h l1 p b l2 _ _ Hh); [|intros B <-]. Qed.

Lemma cut_end_run s h l1 p b l2 st sz : is_heap (mem s) h (l1 ++ (p, b) :: l2) -> alloc_ok s ->
  b_start b = st -> 0 <= st -> 0 < sz <= b_size b -> st + b_size b < 2 ^ 31 ->
  wp (cut_end p st sz) (fun _ s' => exists got back,
    (got = sz /\ back = [] /\ sz = b_size b \/
     (exists q, got = sz /\ back = [(q, mk_blk (st + sz) (b_size b - sz) Nobody)] /\ sz < b_size b) \/
     (forall q, kmem s <> Some q :: tail (kmem s)) /\ back = [] /\ got = b_size b /\ sz < b_size b) /\
    goes h (l1 ++ (p, b) :: l2) (l1 ++ (p, mk_blk st got (b_owner b)) :: back ++ l2) s s') s.
Proof.
  intros Hh Ha <- H0 Hsz Hhi. pose proof (heap_at _ _ _ _ _ _ Hh) as Hp. unfold cut_end. rewrite wp_bind. eapply wp_rd; [exact Hp|]. simpl.
  assert (forall s', goes h (l1 ++ (p, b) :: l2) (l1 ++ (p, b) :: l2) s s' ->
    goes h (l1 ++ (p, b) :: l2) (l1 ++ (p, mk_blk (b_start b) (b_size b) (b_owner b)) :: [] ++ l2) s s') as Hsame.
  { intros s' G. destruct b. exact G. }
  destruct (Z.ltb_spec sz (b_size b)) as [Hlt|Hge].
  - rewrite wp_bind. eapply wp_mono; [apply (insert_new_run s h l1 p b l2 (s32 (b_start b + sz)) (s32 (b_size b - sz)) Hh Ha)|].
    intros [q|] s0.
    + intros Hq. rewrite wp_bind. eapply wp_mono; [exact Hq|]. intros [] s1 (Ha1 & EK & G1).
      eapply wp_mono; [apply (upd_run s1 h l1 p b _ (set_size sz) (mk_blk (b_start b) sz (b_owner b)) (go_heap _ _ _ _ _ G1)); [done|by intros B <-]|].
      intros [] s2 (G2 & _ & _). exists sz, [(q, mk_blk (b_start b + sz) (b_size b - sz) Nobody)]. split; [right; left; by exists q|].
      rewrite !s32_small in G1, G2 by lia. simpl. exact (goes_trans _ _ _ _ _ _ _ G1 G2).
    + intros (_ & Hno & G). rewrite wp_ret. exists (b_size b), []. split; [right; right; auto|]. by apply Hsame.
  - rewrite wp_ret. exists (b_size b), []. split; [left; split; [lia|split; [done|lia]]|]. apply Hsame, goes_refl, Hh.
Qed.

Lemma split_run s h l1 p b l2 st sz f : is_heap (mem s) h (l1 ++ (p, b) :: l2) -> alloc_ok s -> b_owner b = Nobody ->
  0 <= b_start b <= st -> 0 < sz -> st + sz <= b_start b + b_size b < 2 ^ 31 ->
  wp (split_block p st sz f) (fun p' s' => exists mid, carved p b st sz f (~ plenty s) p' mid /\
    goes h (l1 ++ (p, b) :: l2) (l1 ++ mid ++ l2) s s') s.
Proof.
  intros Hh Ha Ho H0 Hsz Hhi. pose proof (heap_at _ _ _ _ _ _ Hh) as Hp. unfold split_block, cut_start.
  rewrite !wp_bind. eapply wp_rd; [exact Hp|]. simpl. rewrite Z.gtb_ltb. destruct (Z.ltb_spec (b_start b) st) as [Hlt|Hge].
  - rewrite (s32_small (st - b_start b)), s32_small by lia. rewrite wp_bind.
    eapply wp_mono; [apply (insert_new_run s h l1 p b l2 st (b_size b - (st - b_start b)) Hh Ha)|]. intros [q|] s0.
    + intros Hq. rewrite wp_bind. eapply wp_mono; [exact Hq|]. intros [] s1 (Ha1 & EK & G1). rewrite wp_bind.
      eapply wp_mono; [apply (upd_run s1 h l1 p b _ _ (mk_blk (b_start b) (st - b_start b) Nobody) (go_heap _ _ _ _ _ G1))|].
      { done. }
      { intros [nB pB sB zB fB] <-. unfold content. simpl in *. subst fB. f_equal. rewrite s32_small; lia. }
      intros [] s2 (G2 & EK2 & Ha2). rewrite wp_ret, wp_bind. pose proof (go_heap _ _ _ _ _ G2) as H2.
      replace (l1 ++ (p, mk_blk (b_start b) (st - b_start b) Nobody) :: (q, mk_blk st (b_size b - (st - b_start b)) Nobody) :: l2)
        with ((l1 ++ [(p, mk_blk (b_start b) (st - b_start b) Nobody)]) ++ (q, mk_blk st (b_size b - (st - b_start b)) Nobody) :: l2) in * by by rewrite <-app_assoc.
      eapply wp_mono; [apply (cut_end_run s2 h _ q _ l2 st sz H2 (Ha2 Ha1)); simpl; [done|lia..]|]. simpl.
      intros _ s3 (got & back & Hgot & G3). rewrite wp_bind.
      eapply wp_mono; [apply (set_filp_run s3 h _ q _ _ f (go_heap _ _ _ _ _ G3))|]. intros [] s4 (G4 & _). rewrite wp_ret.
      exists ([(p, mk_blk (b_start b) (st - b_start b) Nobody)] ++ (q, mk_blk st got f) :: back). split.
      * apply carved_at; [by right|]. destruct Hgot as [?|[?|(Hno & ?)]]; [by left|by right; left|right; right]. split; [|done].
        intros (q1 & q2 & l & E). rewrite E in EK. injection EK as _ EK. apply (Hno q2). by rewrite EK2, <-EK.
      * rewrite <-!app_assoc in *. simpl in *. eapply goes_trans; [exact G1|]. eapply goes_trans; [exact G2|].
        eapply goes_trans; [exact G3|]. exact G4.
    + intros (Hno & _ & G). rewrite wp_ret, wp_bind. eapply wp_mono; [apply (set_filp_run s0 h l1 p b l2 f (go_heap _ _ _ _ _ G))|].
      intros [] s1 (G1 & _). rewrite wp_ret. exists [(p, mk_blk (b_start b) (b_size b) f)]. split; [by apply carved_whole|].
      exact (goes_trans _ _ _ _ _ _ _ G G1).
  - rewrite wp_ret, wp_bind. eapply wp_mono; [apply (cut_end_run s h l1 p b l2 st sz Hh Ha); lia|].
    intros _ s1 (got & back & Hgot & G1). rewrite wp_bind.
    eapply wp_mono; [apply (set_filp_run s1 h _ p _ _ f (go_heap _ _ _ _ _ G1))|]. intros [] s2 (G2 & _). rewrite wp_ret.
    exists ([] ++ (p, mk_blk st got f) :: back). split.
    + apply carved_at; [left; split_and!; [done|done|lia]|]. simpl. replace (b_size b - (st - b_start b)) with (b_size b) by lia.
      destruct Hgot as [?|[?|(Hno & ?)]]; [by left|by right; left|right; right]. split; [|done].
      intros (q1 & q2 & l & E). apply (Hno q1). by rewrite E.
    + exact (goes_trans _ _ _ _ _ _ _ G1 G2).
Qed.
End Ops.
