(* ===== verification/RadeonAlloc.v ===== *)
(** * The memory heap of the radeon driver: its operations

    What a heap is meant to be, one range cut into pieces with no two free pieces side by
    side, and that the operations keep it so: the first free block in which an aligned
    range fits is cut; a block that is given back is joined to the free blocks on its
    sides; a file that goes leaves its blocks free, and all neighbours that are free become
    one; a heap is made and taken down. *)

From S2P Require Import Prelude ListHead RadeonMem RadeonHeap.

Open Scope Z_scope.

(** * Allocation *)

(** The ranges fill [lo], [hi) without gaps. *)
Fixpoint tiles (lo hi : Z) (l : list blk) : Prop :=
  match l with
  | [] => lo = hi
  | b :: l => b_start b = lo /\ 0 < b_size b /\ tiles (lo + b_size b) hi l
  end.

Definition apart (a b : blk) : Prop := b_owner a <> Nobody \/ b_owner b <> Nobody.

Record heap_ok (lo hi : Z) (m : gmap Z mem_block) (h : Z) (l : list (Z * blk)) : Prop := {
  ho_heap : is_heap m h l;
  ho_tiles : tiles lo hi l.*2;
  ho_apart : Chain apart l.*2 }.

(** The first multiple of [2^al] from [x] on. *)
Definition ceil (al x : Z) : Z := (x + (2 ^ al - 1)) / 2 ^ al * 2 ^ al.

Definition fits (al sz : Z) (b : blk) : Prop :=
  b_owner b = Nobody /\ ceil al (b_start b) + sz <= b_start b + b_size b.

#[export] Instance fits_dec al sz b : Decision (fits al sz b).
Proof. apply _. Defined.

Lemma tiles_app lo hi l1 l2 : tiles lo hi (l1 ++ l2) <-> exists mid, tiles lo mid l1 /\ tiles mid hi l2.
Proof.
  revert lo. induction l1 as [|b l1 IH]; intros lo; simpl.
  - split; [by exists lo|]. by intros (mid & -> & H).
  - rewrite IH. naive_solver.
Qed.

Lemma tiles_le lo hi l : tiles lo hi l -> lo <= hi.
Proof. revert lo. induction l as [|b l IH]; intros lo; simpl; [lia|]. intros (_ & H & Ht%IH). lia. Qed.

Lemma tiles_in lo hi l1 b l2 : tiles lo hi (l1 ++ b :: l2) ->
  lo <= b_start b /\ 0 < b_size b /\ b_start b + b_size b <= hi /\
  tiles lo (b_start b) l1 /\ tiles (b_start b + b_size b) hi l2.
Proof.
  intros (mid & H1 & H2 & H3 & H4)%tiles_app. subst mid. pose proof (tiles_le _ _ _ H1). pose proof (tiles_le _ _ _ H4). done.
Qed.

(** Ranges in different places start in different places. *)
Lemma tiles_start lo hi l1 b l2 c : tiles lo hi (l1 ++ b :: l2) -> c ∈ l1 -> b_start c <> b_start b.
Proof.
  intros Ht Hc. apply list_elem_of_split in Hc as (k1 & k2 & ->). rewrite <-app_assoc in Ht. simpl in Ht.
  apply tiles_in in Ht as (_ & H1 & _ & _ & Ht). apply tiles_in in Ht as (H2 & _). lia.
Qed.

Lemma ceil_bounds al x : 0 <= al -> x <= ceil al x < x + 2 ^ al.
Proof.
  intros Ha. unfold ceil. pose proof (Z.pow_pos_nonneg 2 al ltac:(lia) Ha).
  pose proof (Z.div_mod (x + (2 ^ al - 1)) (2 ^ al) ltac:(lia)). pose proof (Z.mod_pos_bound (x + (2 ^ al - 1)) (2 ^ al) ltac:(lia)). lia.
Qed.

Lemma ceil_divide al x : (2 ^ al | ceil al x).
Proof. by apply Z.divide_factor_r. Qed.

(** What the code computes with the mask. *)
Lemma align_up_ceil al x : 0 <= al <= 30 -> 0 <= x -> x + 2 ^ al <= 2 ^ 31 -> align_up x (align_mask al) = ceil al x.
Proof.
  intros Ha Hx Hb. pose proof (Z.pow_pos_nonneg 2 al ltac:(lia) ltac:(lia)). pose proof (Z.pow_le_mono_r 2 al 30 ltac:(lia) ltac:(lia)).
  assert (align_mask al = Z.ones al) as ->.
  { unfold align_mask. rewrite Z.mod_small, Z.shiftl_1_l, (s32_small (2 ^ al)), s32_small by lia. by rewrite Z.ones_equiv, Z.sub_1_r. }
  unfold align_up. rewrite Z.ones_equiv. rewrite (s32_small (x + Z.pred (2 ^ al))) by lia. rewrite <-Z.ldiff_land, <-Z.ones_equiv.
  rewrite Z.ldiff_ones_r, Z.shiftl_mul_pow2, Z.shiftr_div_pow2 by lia.
  replace (x + Z.ones al) with (x + (2 ^ al - 1)) by (rewrite Z.ones_equiv; lia).
  change ((x + (2 ^ al - 1)) / 2 ^ al * 2 ^ al) with (ceil al x). pose proof (ceil_bounds al x ltac:(lia)). apply s32_small. lia.
Qed.

(** The code's test. *)
Lemma fits_test al sz b : 0 <= al <= 30 -> 0 <= b_start b -> 0 < sz -> b_start b + b_size b + 2 ^ al + sz <= 2 ^ 31 -> 0 < b_size b ->
  bool_decide (b_owner b = Nobody) && (s32 (align_up (b_start b) (align_mask al) + sz) <=? s32 (b_start b + b_size b)) = true <-> fits al sz b.
Proof.
  intros Ha Hx Hz Hb Hs. pose proof (ceil_bounds al (b_start b) ltac:(lia)). pose proof (Z.pow_pos_nonneg 2 al ltac:(lia) ltac:(lia)).
  rewrite align_up_ceil by lia. rewrite !s32_small by lia. rewrite andb_true_iff, bool_decide_eq_true, Z.leb_le. done.
Qed.

(** ** A block cut in place of another *)

(** [l] may stand where [b] stood. *)
Definition in_place (b : blk) (l : list blk) : Prop :=
  tiles (b_start b) (b_start b + b_size b) l /\ Chain apart l /\
  forall a, (apart a b -> Chain apart (a :: l)) /\ (apart b a -> Chain apart (l ++ [a])).

Lemma in_place_ok lo hi m m' h l1 p b l2 mid : heap_ok lo hi m h (l1 ++ (p, b) :: l2) ->
  is_heap m' h (l1 ++ mid ++ l2) -> mid <> [] -> in_place b mid.*2 -> heap_ok lo hi m' h (l1 ++ mid ++ l2).
Proof.
  intros [_ Ht Hc] Hh Hne (Hp & Hq & Hr). rewrite fmap_app, fmap_cons in Ht, Hc. simpl in *. split; [done| |].
  - rewrite !fmap_app. apply tiles_app in Ht as (x & H1 & <- & _ & H3). apply tiles_app. exists (b_start b). split; [done|].
    apply tiles_app. by exists (b_start b + b_size b).
  - rewrite !fmap_app. apply Chain_split in Hc as [H1 H2]. destruct (mid.*2) as [|c k] eqn:Ek; [by destruct mid|]. clear Ek Hne.
    assert (Chain apart (l1.*2 ++ [c])) as Hl.
    { destruct (l1.*2) as [|a k1 _] using rev_ind; [done|]. rewrite <-app_assoc in *. apply Chain_join in H1 as (H1 & Ha & _).
      apply Chain_join. split; [done|]. split; [|done]. by apply (Hr a), Chain_cons in Ha as [? _]. }
    simpl. apply Chain_split. split; [done|]. destruct (l2.*2) as [|a k2]; [by rewrite app_nil_r|].
    apply Chain_cons in H2 as [Ha H2]. apply (Hr a) in Ha.
    change (c :: k ++ a :: k2) with ((c :: k) ++ a :: k2). by apply Chain_split.
Qed.

Lemma carved_in_place p b st sz g short p' mid : carved p b st sz (File g) short p' mid ->
  b_owner b = Nobody -> b_start b <= st -> 0 < sz -> st + sz <= b_start b + b_size b -> mid <> [] /\ in_place b mid.*2.
Proof.
  intros Hc Ho H0 H1 H2. split; [destruct Hc as [[|x front]|]; discriminate|]. unfold in_place.
  assert (forall f x y z, apart x (mk_blk y z (File f)) /\ apart (mk_blk y z (File f)) x) as Hf by (by intros; split; [right|left]).
  destruct Hc as [front p' got back Hfr Hb|Hs Hlt].
  - simpl in Hb. destruct Hfr as [(-> & -> & ->)|[-> Hlt]]; destruct Hb as [(-> & -> & Hz)|[(q & -> & -> & Hz)|(_ & -> & -> & Hz)]]; simpl;
      (split; [split_and!; lia|]); (split; [repeat split; by apply Hf|]); intros a; unfold apart; simpl; (split; [|]); rewrite Ho; intros Ha; repeat split; first [by left|by right|tauto].
  - simpl. split; [split_and!; lia|]. split; [done|]. intros a. split; intros _; repeat split; by apply Hf.
Qed.

(** ** The walk *)

Lemma heap_length m h l : is_heap m h l -> (length l < base.size m)%nat.
Proof.
  intros Hh. assert (list_to_set (h :: l.*1) ⊆ dom m) as Hs.
  { intros a Ha. apply elem_of_list_to_set in Ha. apply elem_of_dom. by apply (heap_live _ _ _ _ Hh). }
  apply subseteq_size in Hs. rewrite size_dom, size_list_to_set in Hs by by apply (heap_nodup _ _ _ Hh).
  simpl in Hs. rewrite length_fmap in Hs. lia.
Qed.

(** The loop at the end of a heap, and at a block of it. *)
Lemma after_nil h : after h [] = h.
Proof. done. Qed.
Lemma after_cons h p b l2 : after h ((p, b) :: l2) = p.
Proof. done. Qed.

Lemma alloc_loop_run lo hi al sz f h : 0 <= al <= 30 -> 0 <= lo -> 0 < sz -> hi + 2 ^ al + sz <= 2 ^ 31 -> forall l2 l1 fuel s,
  heap_ok lo hi (mem s) h (l1 ++ l2) -> alloc_ok s -> (length l2 < fuel)%nat -> (forall x, x ∈ l1 -> ~ fits al sz x.2) ->
  wp (alloc_loop fuel h (after h l2) sz (align_mask al) (File f)) (fun r s' => match r with
    | None => s' = s /\ forall x, x ∈ l1 ++ l2 -> ~ fits al sz x.2
    | Some p' => exists k1 p b k2 mid, l1 ++ l2 = k1 ++ (p, b) :: k2 /\ (forall x, x ∈ k1 -> ~ fits al sz x.2) /\ fits al sz b /\
        carved p b (ceil al (b_start b)) sz (File f) (~ plenty s) p' mid /\
        goes h (k1 ++ (p, b) :: k2) (k1 ++ mid ++ k2) s s' /\ heap_ok lo hi (mem s') h (k1 ++ mid ++ k2)
    end) s.
Proof.
  intros Hal Hlo Hsz Hhi. induction l2 as [|[p b] l2 IH]; intros l1 fuel s Hok Ha Hf Hn; (destruct fuel as [|fuel]; [simpl in Hf; lia|]).
  - rewrite after_nil. simpl. rewrite Z.eqb_refl, app_nil_r, wp_ret. done.
  - rewrite after_cons. pose proof (ho_heap _ _ _ _ _ Hok) as Hh. pose proof (heap_at _ _ _ _ _ _ Hh) as Hp. destruct (heap_not_in _ _ _ _ _ _ Hh) as (Hph & _).
    pose proof (ho_tiles _ _ _ _ _ Hok) as Ht. rewrite fmap_app, fmap_cons in Ht. simpl in Ht. apply tiles_in in Ht as (Hb1 & Hb2 & Hb3 & _).
    pose proof (Z.pow_pos_nonneg 2 al ltac:(lia) ltac:(lia)). pose proof (ceil_bounds al (b_start b) ltac:(lia)).
    simpl alloc_loop. rewrite (proj2 (Z.eqb_neq p h) Hph), wp_bind. eapply wp_rd; [exact Hp|]. cbn [RadeonMem.start RadeonMem.size filp next].
    destruct (_ && _) eqn:E.
    + apply fits_test in E; [|lia..]. destruct E as [Ho E]. rewrite wp_bind, align_up_ceil by lia.
      eapply wp_mono; [apply (split_run s h l1 p b l2 (ceil al (b_start b)) sz (File f) Hh Ha Ho); lia|].
      intros p' s' (mid & Hc & Hg). rewrite wp_ret. exists l1, p, b, l2, mid. split_and!; try done.
      destruct (carved_in_place _ _ _ _ _ _ _ _ Hc Ho ltac:(lia) Hsz ltac:(lia)) as [Hne Hip].
      exact (in_place_ok _ _ _ _ _ _ _ _ _ _ Hok (go_heap _ _ _ _ _ Hg) Hne Hip).
    + assert (~ fits al sz b) as Hnf by (intros H'; apply fits_test in H'; [congruence|lia..]).
      replace (l1 ++ (p, b) :: l2) with ((l1 ++ [(p, b)]) ++ l2) in Hok |- * by by rewrite <-app_assoc.
      apply IH; [done|done|simpl in Hf; lia|]. intros x [Hx|Hx%list_elem_of_singleton]%elem_of_app; [by apply Hn|by subst].
Qed.

(** The first free block that fits is cut, or nothing changes. *)
Lemma alloc_block_run lo hi al sz f h l s : 0 <= al <= 30 -> 0 <= lo -> 0 < sz -> hi + 2 ^ al + sz <= 2 ^ 31 ->
  heap_ok lo hi (mem s) h l -> alloc_ok s ->
  wp (alloc_block h sz al (File f)) (fun r s' => match r with
    | None => s' = s /\ forall x, x ∈ l -> ~ fits al sz x.2
    | Some p' => exists k1 p b k2 mid, l = k1 ++ (p, b) :: k2 /\ (forall x, x ∈ k1 -> ~ fits al sz x.2) /\ fits al sz b /\
        carved p b (ceil al (b_start b)) sz (File f) (~ plenty s) p' mid /\
        goes h l (k1 ++ mid ++ k2) s s' /\ heap_ok lo hi (mem s') h (k1 ++ mid ++ k2)
    end) s.
Proof.
  intros Hal Hlo Hsz Hhi Hok Ha. pose proof (ho_heap _ _ _ _ _ Hok) as Hh. unfold alloc_block, around. rewrite wp_bind, wp_gets, wp_bind.
  destruct (heap_first _ _ _ Hh) as (B & EB & EN & _). eapply wp_rd; [exact EB|]. rewrite EN.
  eapply wp_mono; [apply (alloc_loop_run lo hi al sz f h Hal Hlo Hsz Hhi l [] _ s Hok Ha)|].
  - pose proof (heap_length _ _ _ Hh). lia.
  - intros x Hx. by apply elem_of_nil in Hx.
  - intros [p'|] s'; [|done]. intros (k1 & p & b & k2 & mid & E & H1 & H2 & H3 & H4 & H5). simpl in E. rewrite <-E in H4.
    by exists k1, p, b, k2, mid.
Qed.

(** * Giving back: lists of ranges *)

(** [p] given back: the block after it taken in, then the block before it extended. *)
Definition take_next (b : blk) (l2 : list (Z * blk)) : blk * list (Z * blk) :=
  match l2 with
  | (_, c) :: k2 => if decide (b_owner c = Nobody) then (mk_blk (b_start b) (b_size b + b_size c) Nobody, k2)
                    else (mk_blk (b_start b) (b_size b) Nobody, l2)
  | [] => (mk_blk (b_start b) (b_size b) Nobody, l2)
  end.

Definition into_prev (l1 : list (Z * blk)) (p : Z) (b : blk) (l2 : list (Z * blk)) : list (Z * blk) :=
  match last l1 with
  | Some (q, c) => if decide (b_owner c = Nobody) then removelast l1 ++ (q, mk_blk (b_start c) (b_size c + b_size b) Nobody) :: l2
                   else l1 ++ (p, b) :: l2
  | None => l1 ++ (p, b) :: l2
  end.

Definition given_back (l1 : list (Z * blk)) (p : Z) (b : blk) (l2 : list (Z * blk)) : list (Z * blk) :=
  let '(b', k2) := take_next b l2 in into_prev l1 p b' k2.

(** Free neighbours made one, from [p] on. *)
Fixpoint merge (p : Z) (b : blk) (l : list (Z * blk)) : list (Z * blk) :=
  match l with
  | [] => [(p, b)]
  | (q, c) :: k =>
      if decide (b_owner b = Nobody /\ b_owner c = Nobody) then merge p (mk_blk (b_start b) (b_size b + b_size c) (b_owner b)) k
      else (p, b) :: merge q c k
  end.
Definition merge_all (l : list (Z * blk)) : list (Z * blk) := match l with [] => [] | (p, b) :: k => merge p b k end.

Definition disowned (f : positive) (x : Z * blk) : Z * blk :=
  (x.1, if decide (b_owner x.2 = File f) then mk_blk (b_start x.2) (b_size x.2) Nobody else x.2).

(** ** Lists of ranges *)

Lemma into_prev_nil p b l2 : into_prev [] p b l2 = (p, b) :: l2.
Proof. done. Qed.
Lemma into_prev_snoc l1 q c p b l2 : into_prev (l1 ++ [(q, c)]) p b l2 =
  if decide (b_owner c = Nobody) then l1 ++ (q, mk_blk (b_start c) (b_size c + b_size b) Nobody) :: l2
  else l1 ++ (q, c) :: (p, b) :: l2.
Proof. unfold into_prev. rewrite last_snoc, removelast_last. case_decide; [done|]. by rewrite <-app_assoc. Qed.

Lemma chain_mid l1 (b : blk) l2 : Chain apart (l1 ++ b :: l2) <->
  Chain apart l1 /\ Chain apart l2 /\ (forall a, last l1 = Some a -> apart a b) /\ (forall a, hd_error l2 = Some a -> apart b a).
Proof.
  rewrite Chain_split. assert (Chain apart (b :: l2) <-> Chain apart l2 /\ forall a, hd_error l2 = Some a -> apart b a) as ->.
  { destruct l2 as [|a l2]; [simpl; naive_solver|]. rewrite Chain_cons. simpl. naive_solver. }
  assert (Chain apart (l1 ++ [b]) <-> Chain apart l1 /\ forall a, last l1 = Some a -> apart a b) as ->; [|tauto].
  destruct l1 as [|a l1 _] using rev_ind; [simpl; naive_solver|]. rewrite <-app_assoc, last_snoc. simpl. rewrite Chain_join. simpl. naive_solver.
Qed.

Lemma apart_free b c a : apart b a -> b_owner b = Nobody -> apart c a /\ apart a c.
Proof. unfold apart. naive_solver. Qed.
Lemma apart_free' b c a : apart a b -> b_owner b = Nobody -> apart c a /\ apart a c.
Proof. unfold apart. naive_solver. Qed.

Lemma take_next_ok hi b l2 b' k2 : take_next b l2 = (b', k2) -> 0 < b_size b -> tiles (b_start b + b_size b) hi l2.*2 -> Chain apart l2.*2 ->
  b_start b' = b_start b /\ b_owner b' = Nobody /\ 0 < b_size b' /\ tiles (b_start b' + b_size b') hi k2.*2 /\ Chain apart k2.*2 /\
  forall a, hd_error k2.*2 = Some a -> b_owner a <> Nobody.
Proof.
  intros E Hb Ht Hc. unfold take_next in E. destruct l2 as [|[q c] l2]; [simplify_eq/=; split_and!; done|]. simpl in Ht. destruct Ht as (Hs & Hz & Ht).
  case_decide as Ho; simplify_eq/=.
  - split_and!; try done; [lia|by rewrite Z.add_assoc|by apply Chain_tail in Hc|]. intros a Ha. destruct (k2.*2) as [|x k]; [done|].
    injection Ha as ->. apply Chain_cons in Hc as [[?|?] _]; done.
  - split_and!; try done. by intros a [= <-].
Qed.

Lemma into_prev_ok lo hi l1 p b k2 : tiles lo (b_start b) l1.*2 -> Chain apart l1.*2 -> b_owner b = Nobody -> 0 < b_size b ->
  tiles (b_start b + b_size b) hi k2.*2 -> Chain apart k2.*2 -> (forall a, hd_error k2.*2 = Some a -> b_owner a <> Nobody) ->
  tiles lo hi (into_prev l1 p b k2).*2 /\ Chain apart (into_prev l1 p b k2).*2.
Proof.
  intros H1 C1 Ho Hz H2 C2 Hhd. assert (forall c a, hd_error k2.*2 = Some a -> apart c a) as Hhd' by (intros c a Ha; right; by apply Hhd).
  destruct l1 as [|[q c] l1 _] using rev_ind.
  - rewrite into_prev_nil. simpl in *. subst lo. split; [done|]. apply (chain_mid []). split_and!; try done. by apply Hhd'.
  - rewrite into_prev_snoc. rewrite fmap_app in H1, C1. simpl in H1, C1. apply chain_mid in C1 as (C1 & _ & L1 & _).
    apply tiles_app in H1 as (x & H1 & Hs & Hcz & Hx). simpl in Hx. case_decide as Hco; rewrite fmap_app, ?fmap_cons; simpl; split.
    + apply tiles_app. exists x. split; [done|]. simpl. split_and!; [done|lia|]. by replace (x + (b_size c + b_size b)) with (b_start b + b_size b) by lia.
    + apply chain_mid. split_and!; try done; [|by apply Hhd']. intros a Ha. apply L1 in Ha. by apply (apart_free' c _ _ Ha).
    + apply tiles_app. exists x. split; [done|]. simpl. split_and!; [done|done|lia|done|]. by replace (x + b_size c + b_size b) with (b_start b + b_size b) by lia.
    + apply chain_mid. split_and!; [done| |done|by intros a [= <-]; left]. apply (chain_mid []). split_and!; try done. by apply Hhd'.
Qed.

(** Two pieces put together are the piece they were cut from. *)
Lemma given_back_ok lo hi l1 p b l2 : tiles lo hi (l1 ++ (p, b) :: l2).*2 -> Chain apart (l1 ++ (p, b) :: l2).*2 ->
  tiles lo hi (given_back l1 p b l2).*2 /\ Chain apart (given_back l1 p b l2).*2.
Proof.
  rewrite fmap_app, fmap_cons. simpl. intros (_ & Hz & _ & H1 & H2)%tiles_in (C1 & C2 & _ & _)%chain_mid.
  unfold given_back. destruct (take_next b l2) as [b' k2] eqn:E.
  apply (take_next_ok hi) in E as (E1 & E2 & E3 & E4 & E5 & E6); [|done..]. apply into_prev_ok; try done. by rewrite E1.
Qed.

Lemma merge_head p b l : exists b', hd_error (merge p b l) = Some (p, b') /\ b_owner b' = b_owner b.
Proof. revert b. induction l as [|[q c] l IH]; intros b; simpl; [by exists b|]. case_decide; [apply (IH (mk_blk _ _ _))|by exists b]. Qed.

Lemma merge_ok lo hi l : forall p b, tiles lo hi (b :: l.*2) -> tiles lo hi (merge p b l).*2 /\ Chain apart (merge p b l).*2.
Proof.
  revert lo. induction l as [|[q c] l IH]; intros lo p b Ht; [done|]. simpl in Ht. destruct Ht as (H1 & H2 & H3 & H4 & H5). simpl. case_decide as Ho.
  - apply IH. simpl. split_and!; [done|lia|by rewrite Z.add_assoc].
  - destruct (IH (lo + b_size b) q c) as [IH1 IH2]; [done|]. split; [done|]. destruct (merge_head q c l) as (c' & Ec & Eo).
    destruct (merge q c l) as [|[q' c''] k]; [done|]. simpl in *. injection Ec as -> ->. split; [|done].
    unfold apart. rewrite Eo. destruct (decide (b_owner b = Nobody)); [right|left]; naive_solver.
Qed.

Lemma merge_all_ok lo hi l : tiles lo hi l.*2 -> tiles lo hi (merge_all l).*2 /\ Chain apart (merge_all l).*2.
Proof. destruct l as [|[p b] l]; [done|]. apply merge_ok. Qed.

(** The blocks that have an owner stay. *)
Definition owned (x : Z * blk) : Prop := b_owner x.2 <> Nobody.
#[export] Instance owned_dec x : Decision (owned x).
Proof. unfold owned. apply _. Defined.

Lemma merge_owned l : forall p b, filter owned (merge p b l) = filter owned ((p, b) :: l).
Proof.
  induction l as [|[q c] l IH]; intros p b; [done|]. simpl merge. case_decide as Ho.
  - destruct Ho as [Hb Hc]. rewrite IH, !filter_cons. by repeat (rewrite decide_False by (unfold owned; simpl; tauto)).
  - rewrite filter_cons, IH. by rewrite (filter_cons _ (p, b) ((q, c) :: l)).
Qed.
Lemma merge_all_owned l : filter owned (merge_all l) = filter owned l.
Proof. destruct l as [|[p b] l]; [done|]. apply merge_owned. Qed.

Lemma disowned_tiles f lo hi (l : list (Z * blk)) : tiles lo hi (disowned f <$> l).*2 <-> tiles lo hi l.*2.
Proof.
  revert lo. induction l as [|[p b] l IH]; intros lo; [done|]. simpl. rewrite <-IH. by case_decide.
Qed.

Lemma disowned_fst f (l : list (Z * blk)) : (disowned f <$> l).*1 = l.*1.
Proof. rewrite <-list_fmap_compose. by apply list_fmap_ext. Qed.

Lemma disowned_owned f (l : list (Z * blk)) : filter owned (disowned f <$> l) = filter (fun x => b_owner x.2 <> Nobody /\ b_owner x.2 <> File f) l.
Proof.
  induction l as [|[p b] l IH]; [done|]. rewrite fmap_cons, !filter_cons, IH. unfold owned, disowned. simpl.
  destruct (decide (b_owner b = File f)) as [E|E]; simpl.
  - repeat case_decide; try done; exfalso; naive_solver.
  - repeat case_decide; try done; exfalso; naive_solver.
Qed.

(** * Giving back: the store *)

Section Run.
Implicit Types (s : store) (h p q : Z) (l : list (Z * blk)) (b : blk).

Lemma find_loop_run h st : forall l2 l1 fuel s, is_heap (mem s) h (l1 ++ l2) -> (length l2 < fuel)%nat ->
  (forall x, x ∈ l1 -> b_start x.2 <> st) ->
  wp (find_loop fuel h (after h l2) st) (fun r s' => s' = s /\ match r with
    | None => forall x, x ∈ l1 ++ l2 -> b_start x.2 <> st
    | Some p => exists k1 b k2, l1 ++ l2 = k1 ++ (p, b) :: k2 /\ b_start b = st /\ forall x, x ∈ k1 -> b_start x.2 <> st
    end) s.
Proof.
  induction l2 as [|[p b] l2 IH]; intros l1 fuel s Hh Hf Hn; (destruct fuel as [|fuel]; [simpl in Hf; lia|]).
  - rewrite after_nil. simpl. rewrite Z.eqb_refl, app_nil_r, wp_ret. done.
  - rewrite after_cons. pose proof (heap_at _ _ _ _ _ _ Hh) as Hp. destruct (heap_not_in _ _ _ _ _ _ Hh) as (Hph & _).
    simpl find_loop. rewrite (proj2 (Z.eqb_neq p h) Hph), wp_bind. eapply wp_rd; [exact Hp|]. cbn [RadeonMem.start next].
    destruct (Z.eqb_spec (b_start b) st) as [E|E].
    + rewrite wp_ret. split; [done|]. by exists l1, b, l2.
    + replace (l1 ++ (p, b) :: l2) with ((l1 ++ [(p, b)]) ++ l2) in Hh |- * by by rewrite <-app_assoc.
      apply IH; [done|simpl in Hf; lia|]. intros x [Hx|Hx%list_elem_of_singleton]%elem_of_app; [by apply Hn|by subst].
Qed.

Lemma find_block_run h st l s : is_heap (mem s) h l ->
  wp (find_block h st) (fun r s' => s' = s /\ match r with
    | None => forall x, x ∈ l -> b_start x.2 <> st
    | Some p => exists k1 b k2, l = k1 ++ (p, b) :: k2 /\ b_start b = st /\ forall x, x ∈ k1 -> b_start x.2 <> st
    end) s.
Proof.
  intros Hh. unfold find_block, around. rewrite wp_bind, wp_gets, wp_bind.
  destruct (heap_first _ _ _ Hh) as (B & EB & EN & _). eapply wp_rd; [exact EB|]. rewrite EN.
  apply (find_loop_run h st l [] _ s Hh); [pose proof (heap_length _ _ _ Hh); lia|]. intros x Hx. by apply elem_of_nil in Hx.
Qed.

(** The first test: the block after. *)
Lemma take_next_run h l1 p b l2 s : is_heap (mem s) h (l1 ++ (p, b) :: l2) -> b_owner b = Nobody ->
  0 <= b_size b -> (forall x, x ∈ l2 -> 0 <= b_size x.2 /\ b_size b + b_size x.2 < 2 ^ 31) ->
  wp (b0 ← rd p; n ← rd (next b0); if bool_decide (filp n = Nobody) then join_next p (next b0) else mret tt)
    (fun _ s' => goes h (l1 ++ (p, b) :: l2) (l1 ++ (p, (take_next b l2).1) :: (take_next b l2).2) s s') s.
Proof.
  intros Hh Ho Hz Hb. rewrite wp_bind. eapply wp_rd; [apply (heap_at _ _ _ _ _ _ Hh)|]. cbn [next]. rewrite wp_bind.
  destruct (heap_after _ _ _ _ _ _ Hh) as (By & Hy & Ef). eapply wp_rd; [exact Hy|]. rewrite Ef.
  assert (mk_blk (b_start b) (b_size b) Nobody = b) as Eb by (destruct b; simpl in *; by subst).
  destruct l2 as [|[q c] l2]; simpl; rewrite ?Eb; [rewrite wp_ret; by apply goes_refl|].
  case_decide as Hc; [rewrite bool_decide_true by done|rewrite bool_decide_false, wp_ret by done; by apply goes_refl].
  rewrite after_cons. specialize (Hb (q, c) ltac:(by left)). simpl in Hb.
  eapply wp_mono; [apply (join_run s h l1 p b q c l2 Hh)|]. intros [] s' G. rewrite Ho, s32_small in G by lia. exact G.
Qed.

(** The second: the block before. *)
Lemma into_prev_run h l1 p b l2 s : is_heap (mem s) h (l1 ++ (p, b) :: l2) -> b_owner b = Nobody ->
  0 <= b_size b -> (forall x, x ∈ l1 -> 0 <= b_size x.2 /\ b_size x.2 + b_size b < 2 ^ 31) ->
  wp (b0 ← rd p; q ← rd (prev b0); if bool_decide (filp q = Nobody) then join_next (prev b0) p else mret tt)
    (fun _ s' => goes h (l1 ++ (p, b) :: l2) (into_prev l1 p b l2) s s') s.
Proof.
  intros Hh Ho Hz Hb. rewrite wp_bind. eapply wp_rd; [apply (heap_at _ _ _ _ _ _ Hh)|]. cbn [prev]. rewrite wp_bind.
  destruct (heap_before _ _ _ _ _ _ Hh) as (By & Hy & Ef). eapply wp_rd; [exact Hy|]. rewrite Ef.
  destruct l1 as [|[q c] l1 _] using rev_ind; [rewrite into_prev_nil; simpl; rewrite wp_ret; by apply goes_refl|].
  rewrite last_snoc, into_prev_snoc, before_snoc. specialize (Hb (q, c) ltac:(set_solver)). simpl in Hb.
  rewrite <-app_assoc in *. simpl in *.
  case_decide as Hc; [rewrite bool_decide_true by done|rewrite bool_decide_false, wp_ret by done; by apply goes_refl].
  eapply wp_mono; [apply (join_run s h l1 q c p b l2 Hh)|]. intros [] s' G. rewrite Hc, s32_small in G by lia. exact G.
Qed.

Lemma tiles_sizes lo hi (k1 k2 : list (Z * blk)) x y : tiles lo hi (k1 ++ x :: k2).*2 -> y ∈ k1 ++ k2 ->
  0 < b_size y.2 /\ b_size x.2 + b_size y.2 <= hi - lo.
Proof.
  intros Ht Hy. rewrite fmap_app, fmap_cons in Ht. apply tiles_in in Ht as (H1 & H2 & H3 & H4 & H5).
  apply elem_of_app in Hy as [Hy|Hy]; apply list_elem_of_split in Hy as (j1 & j2 & ->).
  - rewrite fmap_app, fmap_cons in H4. apply tiles_in in H4 as (? & ? & ? & _). lia.
  - rewrite fmap_app, fmap_cons in H5. apply tiles_in in H5 as (? & ? & ? & _). lia.
Qed.

Lemma free_block_run lo hi h l1 p b l2 s : heap_ok lo hi (mem s) h (l1 ++ (p, b) :: l2) -> hi - lo < 2 ^ 31 ->
  wp (free_block p) (fun _ s' => goes h (l1 ++ (p, b) :: l2) (given_back l1 p b l2) s s' /\
    heap_ok lo hi (mem s') h (given_back l1 p b l2)) s.
Proof.
  intros [Hh Ht Hc] Hhi. set (b0 := mk_blk (b_start b) (b_size b) Nobody).
  assert (b_owner b0 = Nobody) as Ho0 by done.
  assert (tiles lo hi (l1 ++ (p, b0) :: l2).*2) as Ht0 by (rewrite fmap_app, fmap_cons in Ht |- *; apply tiles_app in Ht; by apply tiles_app).
  assert (given_back l1 p b l2 = into_prev l1 p (take_next b0 l2).1 (take_next b0 l2).2) as EG.
  { unfold given_back. change (take_next b0 l2) with (take_next b l2). by destruct (take_next b l2). }
  destruct (take_next b0 l2) as [b' k2] eqn:ET.
  rewrite fmap_app, fmap_cons in Ht0, Hc. simpl in Ht0, Hc. pose proof (tiles_in _ _ _ _ _ Ht0) as (Hlo & Hz & Hle & HT1 & HT2).
  pose proof (chain_mid l1.*2 b l2.*2) as Hcm. apply proj1 in Hcm. specialize (Hcm Hc). destruct Hcm as (C1 & C2 & _ & _).
  pose proof ET as ET'. apply (take_next_ok hi) in ET' as (E1 & E2 & E3 & E4 & E5 & E6); [|done..].
  assert (tiles lo hi (l1 ++ (p, b') :: k2).*2) as Ht1.
  { rewrite fmap_app, fmap_cons. apply tiles_app. exists (b_start b0). split; [done|]. rewrite E1 in E4. simpl in E1, E4 |- *. by rewrite E1. }
  unfold free_block. rewrite wp_bind. eapply wp_mono; [apply (set_filp_run s h l1 p b l2 Nobody Hh)|]. intros [] s1 (G1 & _).
  fold b0 in G1.
  assert (forall (K : M unit) Q, wp (b1 ← rd p; n ← rd (next b1); _ ← (if bool_decide (filp n = Nobody) then join_next p (next b1) else mret tt); K) Q s1 <->
    wp (_ ← (b1 ← rd p; n ← rd (next b1); if bool_decide (filp n = Nobody) then join_next p (next b1) else mret tt); K) Q s1) as EA.
  { intros K Q. unfold wp, mbind, Prog_bind. destruct (rd p s1) as [[B t]|]; [|done]. by destruct (rd (next B) t) as [[n u]|]. }
  apply EA. clear EA. rewrite wp_bind.
  eapply wp_mono; [apply (take_next_run h l1 p b0 l2 s1 (go_heap _ _ _ _ _ G1) Ho0 ltac:(lia))|].
  { intros x Hx. pose proof (tiles_sizes lo hi l1 l2 (p, b0) x) as HX. rewrite fmap_app, fmap_cons in HX. specialize (HX Ht0 ltac:(set_solver)). simpl in HX |- *. lia. }
  rewrite ET. intros [] s2 G2. simpl in G2.
  eapply wp_mono; [apply (into_prev_run h l1 p b' k2 s2 (go_heap _ _ _ _ _ G2) E2 ltac:(lia))|].
  { intros x Hx. pose proof (tiles_sizes lo hi l1 k2 (p, b') x Ht1 ltac:(set_solver)) as HX. simpl in HX. lia. }
  intros [] s3 G3. rewrite EG. simpl. split; [exact (goes_trans _ _ _ _ _ _ _ G1 (goes_trans _ _ _ _ _ _ _ G2 G3))|].
  destruct (into_prev_ok lo hi l1 p b' k2) as [R1 R2]; try done; [by rewrite E1|]. split; [apply (go_heap _ _ _ _ _ G3)|done|done].
Qed.

(** ** A file released *)

Lemma disown_run h f : forall l2 l1 fuel s, is_heap (mem s) h (l1 ++ l2) -> (length l2 < fuel)%nat ->
  wp (disown fuel h (after h l2) (File f)) (fun _ s' => goes h (l1 ++ l2) (l1 ++ (disowned f <$> l2)) s s') s.
Proof.
  induction l2 as [|[p b] l2 IH]; intros l1 fuel s Hh Hf; (destruct fuel as [|fuel]; [simpl in Hf; lia|]).
  - rewrite after_nil. simpl. rewrite Z.eqb_refl, wp_ret. by apply goes_refl.
  - rewrite after_cons. pose proof (heap_at _ _ _ _ _ _ Hh) as Hp. destruct (heap_not_in _ _ _ _ _ _ Hh) as (Hph & _).
    simpl disown. rewrite (proj2 (Z.eqb_neq p h) Hph), wp_bind. eapply wp_rd; [exact Hp|]. cbn [filp next]. rewrite wp_bind.
    set (b' := (disowned f (p, b)).2).
    apply (wp_mono _ (fun _ s1 => goes h (l1 ++ (p, b) :: l2) (l1 ++ (p, b') :: l2) s s1)).
    + unfold b', disowned. simpl. case_bool_decide as E; [rewrite decide_True by done|rewrite decide_False by done].
      * eapply wp_mono; [apply (set_filp_run s h l1 p b l2 Nobody Hh)|]. by intros [] s1 (G & _).
      * rewrite wp_ret. by apply goes_refl.
    + intros [] s1 G1. pose proof (go_heap _ _ _ _ _ G1) as H1.
      replace (l1 ++ (p, b') :: l2) with ((l1 ++ [(p, b')]) ++ l2) in H1, G1 by by rewrite <-app_assoc.
      eapply wp_mono; [apply (IH _ fuel s1 H1); simpl in Hf; lia|]. intros [] s2 G2. rewrite fmap_cons.
      rewrite <-(app_assoc l1 _ (disowned f <$> l2)) in G2. exact (goes_trans _ _ _ _ _ _ _ G1 G2).
Qed.

Lemma join_free_run lo hi h : hi - lo < 2 ^ 31 -> forall l2 l1 p b fuel s, is_heap (mem s) h (l1 ++ (p, b) :: l2) ->
  tiles lo hi (l1 ++ (p, b) :: l2).*2 -> (S (length l2) < fuel)%nat ->
  wp (join_free fuel h p) (fun _ s' => goes h (l1 ++ (p, b) :: l2) (l1 ++ merge p b l2) s s') s.
Proof.
  intros Hhi. induction l2 as [|[q c] l2 IH]; intros l1 p b fuel s Hh Ht Hf; (destruct fuel as [|fuel]; [lia|]);
    pose proof (heap_at _ _ _ _ _ _ Hh) as Hp; destruct (heap_not_in _ _ _ _ _ _ Hh) as (Hph & _);
    simpl join_free; rewrite (proj2 (Z.eqb_neq p h) Hph), wp_bind; (eapply wp_rd; [exact Hp|]); cbn [filp next];
    destruct (heap_after _ _ _ _ _ _ Hh) as (By & Hy & Ef); rewrite wp_bind; (eapply wp_rd; [exact Hy|]); rewrite Ef.
  - rewrite (bool_decide_false (HeapItself = Nobody)), andb_false_r by done. rewrite after_nil.
    destruct fuel as [|fuel]; [simpl in Hf; lia|]. simpl. rewrite Z.eqb_refl, wp_ret. by apply goes_refl.
  - rewrite after_cons. simpl merge. case_decide as Ho.
    + rewrite !bool_decide_true by tauto. simpl. rewrite wp_bind.
      pose proof (tiles_sizes lo hi l1 ((q, c) :: l2) (p, b) (q, c) Ht ltac:(set_solver)) as HS. simpl in HS.
      pose proof (tiles_sizes lo hi (l1 ++ [(p, b)]) l2 (q, c) (p, b)) as HS'. rewrite <-app_assoc in HS'. specialize (HS' Ht ltac:(set_solver)). simpl in HS'.
      eapply wp_mono; [apply (join_run s h l1 p b q c l2 Hh)|]. intros [] s1 G1. rewrite s32_small in G1 by lia.
      eapply wp_mono; [apply (IH l1 p _ fuel s1 (go_heap _ _ _ _ _ G1)); [|simpl in Hf; lia]|].
      { rewrite fmap_app in Ht |- *. simpl in Ht |- *. apply tiles_app in Ht as (x & T1 & <- & T2 & T3 & T4 & T5). apply tiles_app.
        exists (b_start b). split; [done|]. simpl in *. split_and!; [done|lia|by rewrite Z.add_assoc]. }
      intros [] s2 G2. exact (goes_trans _ _ _ _ _ _ _ G1 G2).
    + assert (bool_decide (b_owner b = Nobody) && bool_decide (b_owner c = Nobody) = false) as ->.
      { destruct (bool_decide_reflect (b_owner b = Nobody)), (bool_decide_reflect (b_owner c = Nobody)); naive_solver. }
      replace (l1 ++ (p, b) :: (q, c) :: l2) with ((l1 ++ [(p, b)]) ++ (q, c) :: l2) in Hh, Ht |- * by by rewrite <-app_assoc.
      replace (l1 ++ (p, b) :: merge q c l2) with ((l1 ++ [(p, b)]) ++ merge q c l2) by by rewrite <-app_assoc.
      apply IH; [done|done|simpl in Hf; lia].
Qed.

(** The release of a file: its blocks are free, and joined. *)
Definition released (f : positive) (l : list (Z * blk)) : list (Z * blk) := merge_all (disowned f <$> l).

Lemma mem_release_run lo hi h f l s : heap_ok lo hi (mem s) h l -> hi - lo < 2 ^ 31 ->
  wp (radeon_mem_release f (Some h)) (fun _ s' => goes h l (released f l) s s' /\ heap_ok lo hi (mem s') h (released f l)) s.
Proof.
  intros [Hh Ht Hc] Hhi. pose proof (heap_length _ _ _ Hh) as HL. unfold radeon_mem_release, around.
  rewrite wp_bind, wp_gets, wp_bind. destruct (heap_first _ _ _ Hh) as (B & EB & EN & _). eapply wp_rd; [exact EB|]. rewrite EN, wp_bind.
  eapply wp_mono; [apply (disown_run h f l [] _ s Hh); lia|]. intros [] s1 G1. simpl in G1. pose proof (go_heap _ _ _ _ _ G1) as H1.
  rewrite wp_bind. destruct (heap_first _ _ _ H1) as (B1 & EB1 & EN1 & _). eapply wp_rd; [exact EB1|]. rewrite EN1.
  pose proof (proj2 (disowned_tiles f lo hi l) Ht) as Ht1. destruct (merge_all_ok _ _ _ Ht1) as [Ht2 Hc2].
  apply (wp_mono _ (fun _ s' => goes h (disowned f <$> l) (released f l) s1 s')).
  - destruct l as [|x l]; [simpl; rewrite Z.eqb_refl, wp_ret; by apply goes_refl|].
    rewrite fmap_cons in *. destruct (disowned f x) as [p b] eqn:Ex. rewrite after_cons. unfold released. rewrite fmap_cons, Ex.
    apply (join_free_run lo hi h Hhi (disowned f <$> l) [] p b _ s1 H1 Ht1). rewrite length_fmap. simpl in HL. lia.
  - intros [] s2 G2. pose proof (goes_trans _ _ _ _ _ _ _ G1 G2) as G. split; [done|]. split; [apply (go_heap _ _ _ _ _ G)|done|done].
Qed.

(** ** The end and the beginning of a heap *)

Lemma takedown_loop_run h : forall l2 fuel s, NoDup (h :: l2.*1) ->
  (forall k1 p b k2, l2 = k1 ++ (p, b) :: k2 -> next <$> mem s !! p = Some (after h k2)) -> (length l2 < fuel)%nat ->
  wp (takedown_loop fuel h (after h l2)) (fun _ s' => gart_heap s' = gart_heap s /\ fb_heap s' = fb_heap s /\
    forall a, mem s' !! a = if decide (a ∈ l2.*1) then None else mem s !! a) s.
Proof.
  induction l2 as [|[p b] l2 IH]; intros fuel s Hnd Hn Hf; (destruct fuel as [|fuel]; [simpl in Hf; lia|]).
  - rewrite after_nil. simpl. rewrite Z.eqb_refl, wp_ret. done.
  - rewrite after_cons. pose proof (Hn [] p b l2 eq_refl) as Hp. destruct (mem s !! p) as [B|] eqn:EB; [|done]. injection Hp as Hp.
    apply NoDup_cons in Hnd as [Hh Hnd]. pose proof Hnd as Hnd'. apply NoDup_cons in Hnd' as [Hpl Hl].
    simpl takedown_loop. rewrite (proj2 (Z.eqb_neq p h)) by (intros ->; apply Hh; by left).
    rewrite wp_bind. eapply wp_rd; [exact EB|]. rewrite wp_bind. eapply wp_free; [by exists B|]. rewrite Hp.
    eapply wp_mono; [apply IH|].
    + apply NoDup_cons. split; [|done]. intros ?. apply Hh. by right.
    + intros k1 q c k2 ->. simpl. rewrite lookup_delete_ne; [apply (Hn ((p, b) :: k1) q c k2 eq_refl)|].
      intros ->. apply Hpl. apply list_elem_of_fmap. exists (q, c). split; [done|]. set_solver.
    + simpl in Hf. lia.
    + intros [] s' (EG & EF & Em). split; [done|]. split; [done|]. intros a. rewrite Em. simpl.
      destruct (decide (a = p)) as [->|Hne]; [rewrite lookup_delete_eq; repeat case_decide; try done; set_solver|].
      rewrite lookup_delete_ne by done. repeat case_decide; try done; set_solver.
Qed.

Lemma mem_takedown_run h l s : is_heap (mem s) h l ->
  wp (radeon_mem_takedown (Some h)) (fun r s' => r = None /\ gart_heap s' = gart_heap s /\ fb_heap s' = fb_heap s /\
    forall a, mem s' !! a = if decide (a ∈ h :: l.*1) then None else mem s !! a) s.
Proof.
  intros Hh. pose proof (heap_length _ _ _ Hh) as HL. pose proof (heap_nodup _ _ _ Hh) as Hnd. unfold radeon_mem_takedown, around.
  rewrite wp_bind, wp_gets, wp_bind. destruct (heap_first _ _ _ Hh) as (B & EB & EN & _). eapply wp_rd; [exact EB|]. rewrite EN, wp_bind.
  eapply wp_mono; [apply (takedown_loop_run h l _ s Hnd); [|lia]|].
  - intros k1 p b k2 ->. by rewrite (heap_at _ _ _ _ _ _ Hh).
  - intros [] s1 (EG & EF & Em). apply NoDup_cons in Hnd as [Hnh _]. rewrite wp_bind. eapply wp_free; [rewrite Em, decide_False by done; by exists B|].
    rewrite wp_ret. split; [done|]. split; [done|]. split; [done|]. intros a. simpl.
    destruct (decide (a = h)) as [->|Hne]; [rewrite lookup_delete_eq; repeat case_decide; try done; set_solver|].
    rewrite lookup_delete_ne, Em by done. repeat case_decide; try done; set_solver.
Qed.

Lemma init_heap_run st sz s : alloc_ok s -> 0 < sz ->
  wp (init_heap st sz) (fun r s' => gart_heap s' = gart_heap s /\ fb_heap s' = fb_heap s /\ match r with
    | inl e => e = ENOMEM /\ mem s' = mem s /\ ~ plenty s
    | inr h => exists p, mem s !! p = None /\ mem s !! h = None /\ heap_ok st (st + sz) (mem s') h [(p, mk_blk st sz Nobody)] /\
        forall a, a <> p -> a <> h -> mem s' !! a = mem s !! a
    end) s.
Proof.
  intros Ha Hsz. unfold init_heap. rewrite wp_bind. eapply wp_mono; [apply (alloc_run s Ha)|].
  intros [p|] s1 (Ha1 & [EG1 EF1] & EK1 & ER1 & Hm1).
  2: { rewrite wp_ret. split_and!; try done. intros (q1 & q2 & k & E). by rewrite E in ER1. }
  destruct Hm1 as [Hp Em1]. rewrite wp_bind. eapply wp_mono; [apply (alloc_run s1 Ha1)|].
  intros [h|] s2 (Ha2 & [EG2 EF2] & EK2 & ER2 & Hm2).
  - destruct Hm2 as [Hh Em2]. assert (h <> p) as Hhp by (intros ->; by rewrite Em1, lookup_insert_eq in Hh).
    rewrite Em1, lookup_insert_ne in Hh by done. rewrite wp_bind. eapply wp_upd; [rewrite Em2, lookup_insert_ne, Em1 by done; apply lookup_insert_eq|].
    rewrite wp_bind. eapply wp_upd; [simpl; rewrite Em2, lookup_insert_ne by done; apply lookup_insert_eq|]. rewrite wp_ret.
    split; [simpl; congruence|]. split; [simpl; congruence|]. exists p. split; [done|]. split; [done|]. simpl. set (m := <[h := _]> _).
    assert (m !! h = Some (mk_mem_block p p 0 0 HeapItself) /\ m !! p = Some (mk_mem_block h h st sz Nobody)) as [Eh Ep].
    { unfold m. rewrite lookup_insert_eq, lookup_insert_ne by done. by rewrite lookup_insert_eq. }
    split.
    + split; [split; [split| |]|split_and!|]; simpl.
      * apply NoDup_cons. split; [by rewrite list_elem_of_singleton|]. apply NoDup_singleton.
      * rewrite !Chain_cons. unfold linked, nx, pv. by rewrite Eh, Ep.
      * intros a c Hc%list_elem_of_singleton. simplify_eq. by rewrite Ep.
      * by rewrite Eh.
      * done.
      * done.
      * done.
      * done.
    + intros a Hap Hah. unfold m. by rewrite !lookup_insert_ne, Em2, lookup_insert_ne, Em1, lookup_insert_ne by done.
  - rewrite wp_bind. eapply wp_free; [rewrite Hm2, Em1, lookup_insert_eq; by eexists|]. rewrite wp_ret. simpl.
    split; [congruence|]. split; [congruence|]. split; [done|]. split; [rewrite Hm2, Em1; by apply delete_insert_id|].
    intros (q1 & q2 & k & E). rewrite EK1, E in ER2. done.
Qed.
End Run.
