(* ===== verification/RadeonSys.v ===== *)
(** * The memory heap of the radeon driver: the ioctls

    What an allocation returns and what it leaves, that giving a range back restores the
    heap it was taken from, and what the release of a file leaves; then the two heaps of
    the device over the calls that change them, in any order, with memory that runs out at
    any point and is used again after it was freed; and runs on a heap of 64 KB, where the
    theorems apply and where arguments the handlers do not refuse lead. *)

From S2P Require Import Prelude ListHead RadeonMem RadeonHeap RadeonAlloc.

Open Scope Z_scope.

(** * The handlers *)

(** The alignment the handler asks for. *)
Definition alignment_of (al : Z) : Z := Z.max 12 al.

(** A region whose heap is [l], and the sizes for which the code does not overflow. *)
Record region_at (lo hi : Z) (region : Z) (h : Z) (l : list (Z * blk)) (s : store) : Prop := {
  ra_get : get_heap region s = Some (Some h);
  ra_ok : heap_ok lo hi (mem s) h l;
  ra_lo : 0 <= lo }.

Definition sizes_ok (hi al sz : Z) : Prop := al <= 30 /\ 0 < sz /\ hi + 2 ^ alignment_of al + sz <= 2 ^ 31.

Lemma alignment_test (al : Z) : (if al <? 12 then 12 else al) = alignment_of al.
Proof. unfold alignment_of. destruct (Z.ltb_spec al 12); lia. Qed.

Section Ioctl.
Implicit Types (s : store) (h p q : Z) (l : list (Z * blk)) (b : blk).

(** The piece that was cut out. *)
Lemma carved_got p b st sz f short p' mid : carved p b st sz f short p' mid -> b_owner b = Nobody ->
  exists m1 off got m2, mid = m1 ++ (p', mk_blk off got f) :: m2 /\ (forall x, x ∈ m1 ++ m2 -> b_owner x.2 = Nobody) /\
    (~ short -> off = st /\ got = sz).
Proof.
  intros [front q got back Hfr Hb|Hs Hlt] Ho.
  - exists front, st, got, back. split; [done|]. simpl in Hb. split.
    + intros x [Hx|Hx]%elem_of_app.
      * destruct Hfr as [(-> & _)|[-> _]]; [by apply elem_of_nil in Hx|apply list_elem_of_singleton in Hx; by subst].
      * destruct Hb as [(_ & -> & _)|[(z & _ & -> & _)|(_ & -> & _)]]; [by apply elem_of_nil in Hx| |by apply elem_of_nil in Hx].
        apply list_elem_of_singleton in Hx. by subst.
    + intros Hns. destruct Hb as [(-> & _)|[(z & -> & _)|(? & _)]]; done.
  - exists [], (b_start b), (b_size b), []. split; [done|]. split; [intros x Hx; by apply elem_of_nil in Hx|done].
Qed.

(** Given back, it is the block it was cut from. *)
Lemma carved_back k1 p b k2 st sz g short p' mid : carved p b st sz (File g) short p' mid -> b_owner b = Nobody ->
  Chain apart (k1 ++ (p, b) :: k2).*2 ->
  exists m1 c m2, mid = m1 ++ (p', c) :: m2 /\ b_owner c = File g /\
    given_back (k1 ++ m1) p' c (m2 ++ k2) = k1 ++ (p, b) :: k2.
Proof.
  intros Hc Ho Ha. rewrite fmap_app, fmap_cons in Ha. simpl in Ha. apply chain_mid in Ha as (_ & _ & L1 & L2).
  assert (forall p0 b0 k, into_prev k1 p0 b0 k = k1 ++ (p0, b0) :: k) as EP.
  { intros p0 b0 k. destruct k1 as [|[q c] k1 _] using rev_ind; [done|]. rewrite into_prev_snoc, decide_False; [by rewrite <-app_assoc|].
    destruct (L1 c) as [?|?]; [rewrite fmap_app; apply last_snoc|done|done]. }
  assert (forall b0, take_next b0 k2 = (mk_blk (b_start b0) (b_size b0) Nobody, k2)) as EN.
  { intros b0. destruct k2 as [|[q c] k2]; [done|]. simpl. rewrite decide_False; [done|]. by destruct (L2 c eq_refl). }
  assert (b = mk_blk (b_start b) (b_size b) Nobody) as Eb by (destruct b; simpl in *; by subst).
  destruct Hc as [front q got back Hfr Hb|Hs Hlt].
  - exists front, (mk_blk st got (File g)), back. split; [done|]. split; [done|]. simpl in Hb. unfold given_back.
    assert (take_next (mk_blk st got (File g)) (back ++ k2) = (mk_blk st (b_size b - (st - b_start b)) Nobody, k2)) as ->.
    { destruct Hb as [(-> & -> & Hz)|[(z & -> & -> & Hz)|(_ & -> & -> & _)]]; simpl; rewrite ?EN; simpl; [by rewrite Hz| |done].
      repeat f_equal. lia. }
    destruct Hfr as [(-> & -> & Est)|[-> Hlt]].
    + rewrite app_nil_r, EP, Eb. simpl. by rewrite Est, Z.sub_diag, Z.sub_0_r.
    + rewrite into_prev_snoc, decide_True by done. simpl. do 2 f_equal. f_equal. destruct b; simpl in *; subst. f_equal. lia.
  - exists [], (mk_blk (b_start b) (b_size b) (File g)), []. split; [done|]. split; [done|]. unfold given_back.
    rewrite app_nil_l, EN, app_nil_r, EP. simpl. by rewrite <-Eb.
Qed.

Lemma first_unique (st : Z) l1 x l2 k1 y k2 : l1 ++ x :: l2 = k1 ++ y :: k2 ->
  (forall z, z ∈ l1 -> b_start z.2 <> st) -> b_start x.2 = st -> (forall z, z ∈ k1 -> b_start z.2 <> st) -> b_start y.2 = st ->
  l1 = k1 /\ x = y /\ l2 = k2.
Proof.
  revert k1. induction l1 as [|z l1 IH]; intros [|w k1] E H1 Hx H2 Hy; simplify_eq/=; [done| | |].
  - exfalso. apply (H2 w); [by left|done].
  - exfalso. apply (H1 y); [by left|done].
  - destruct (IH k1) as (-> & -> & ->); try done; intros u Hu; [apply H1|apply H2]; by right.
Qed.

Lemma get_heap_goes region h l l' s s' : goes h l l' s s' -> get_heap region s' = get_heap region s.
Proof. intros G. unfold get_heap. by rewrite (go_gart _ _ _ _ _ G), (go_fb _ _ _ _ _ G). Qed.

(** The handler of an allocation, with the copy of the offset. *)
Lemma mem_alloc_run lo hi region h l s al sz f ok : region_at lo hi region h l s -> sizes_ok hi al sz -> alloc_ok s ->
  wp (radeon_mem_alloc region al sz f ok) (fun r s' =>
    (r = (ENOMEM, None) /\ s' = s /\ forall x, x ∈ l -> ~ fits (alignment_of al) sz x.2) \/
    exists k1 p b k2 mid p' m1 off got m2, l = k1 ++ (p, b) :: k2 /\ (forall x, x ∈ k1 -> ~ fits (alignment_of al) sz x.2) /\
      fits (alignment_of al) sz b /\ carved p b (ceil (alignment_of al) (b_start b)) sz (File f) (~ plenty s) p' mid /\
      mid = m1 ++ (p', mk_blk off got (File f)) :: m2 /\ (forall x, x ∈ m1 ++ m2 -> b_owner x.2 = Nobody) /\
      (~ ~ plenty s -> off = ceil (alignment_of al) (b_start b) /\ got = sz) /\
      r = (if ok then (0, Some off) else (EFAULT, None)) /\
      goes h l (k1 ++ mid ++ k2) s s' /\ heap_ok lo hi (mem s') h (k1 ++ mid ++ k2)) s.
Proof.
  intros [Hg Hok Hlo] (Hal & Hsz & Hhi) Ha. unfold radeon_mem_alloc. rewrite wp_bind, wp_gets, Hg, alignment_test, wp_bind.
  eapply wp_mono; [apply (alloc_block_run lo hi (alignment_of al) sz f h l s); [unfold alignment_of; lia|lia|lia|lia|done|done]|].
  intros [p'|] s'; [|intros [-> Hn]; rewrite wp_ret; by left].
  intros (k1 & p & b & k2 & mid & -> & Hn & [Ho Hf] & Hc & G & Hok').
  destruct (carved_got _ _ _ _ _ _ _ _ Hc Ho) as (m1 & off & got & m2 & Em & Hm & Hs). rewrite wp_bind.
  pose proof (go_heap _ _ _ _ _ G) as Hh'. rewrite Em in Hh'.
  replace (k1 ++ (m1 ++ (p', mk_blk off got (File f)) :: m2) ++ k2) with ((k1 ++ m1) ++ (p', mk_blk off got (File f)) :: (m2 ++ k2)) in Hh' by by rewrite <-!app_assoc.
  eapply wp_rd; [exact (heap_at _ _ _ _ _ _ Hh')|]. rewrite wp_ret. cbn [RadeonMem.start]. right.
  by exists k1, p, b, k2, mid, p', m1, off, got, m2.
Qed.

(** The handler that gives a range back. *)
Lemma mem_free_run lo hi region h l s off f : region_at lo hi region h l s -> hi < 2 ^ 31 ->
  wp (radeon_mem_free region off f) (fun r s' =>
    (r = EFAULT /\ s' = s /\ forall x, x ∈ l -> b_start x.2 <> off) \/
    exists k1 p b k2, l = k1 ++ (p, b) :: k2 /\ b_start b = off /\ (forall x, x ∈ k1 -> b_start x.2 <> off) /\
      (b_owner b <> File f /\ r = EPERM /\ s' = s \/
       b_owner b = File f /\ r = 0 /\ goes h l (given_back k1 p b k2) s s' /\ heap_ok lo hi (mem s') h (given_back k1 p b k2))) s.
Proof.
  intros [Hg Hok Hlo] Hhi. pose proof (ho_heap _ _ _ _ _ Hok) as Hh. unfold radeon_mem_free. rewrite wp_bind, wp_gets, Hg, wp_bind.
  eapply wp_mono; [apply (find_block_run h off l s Hh)|]. intros [p|] s' [-> Hr]; [|rewrite wp_ret; by left].
  destruct Hr as (k1 & b & k2 & -> & Hb & Hn). rewrite wp_bind. eapply wp_rd; [exact (heap_at _ _ _ _ _ _ Hh)|]. cbn [filp].
  case_bool_decide as Ho; simpl.
  - rewrite wp_bind. eapply wp_mono; [apply (free_block_run lo hi h k1 p b k2 s Hok); lia|]. intros [] s' [G Hok']. rewrite wp_ret.
    right. exists k1, p, b, k2. split_and!; try done. by right.
  - rewrite wp_ret. right. exists k1, p, b, k2. split_and!; try done. by left.
Qed.

(** ** The properties *)

(** C14: RADEON_MEM_ALLOC on a heap that fills [lo, hi), asked for a positive size at an
    alignment of at most 2^30 with [hi] + alignment + size at most 2^31, so that no sum
    overflows an int ([sizes_ok]; the code checks none of it: [huge_size_granted] and
    [negative_size_leaves_heap] below), gives out part of the first free block in which
    the range fits at its alignment (at least 4 KB), and ENOMEM leaves the heap alone when
    there is none.  The pieces of that block fill it again, the piece at
    the returned offset belongs to the caller and the others are free, nothing else
    changes, and the heap still fills [lo, hi) without free neighbours.  With memory for
    two more blocks the piece is of the size asked for and aligned. *)
Theorem radeon_alloc_sound lo hi region h l s al sz f :
  region_at lo hi region h l s -> sizes_ok hi al sz -> alloc_ok s ->
  exists r s', radeon_mem_alloc region al sz f true s = Some (r, s') /\
    ((r = (ENOMEM, None) /\ s' = s /\ forall x, x ∈ l -> ~ fits (alignment_of al) sz x.2) \/
     exists k1 p b k2 p' m1 off got m2, l = k1 ++ (p, b) :: k2 /\ r = (0, Some off) /\
       (forall x, x ∈ k1 -> ~ fits (alignment_of al) sz x.2) /\ fits (alignment_of al) sz b /\
       let l' := k1 ++ (m1 ++ (p', mk_blk off got (File f)) :: m2) ++ k2 in
       heap_ok lo hi (mem s') h l' /\ goes h l l' s s' /\ (forall x, x ∈ m1 ++ m2 -> b_owner x.2 = Nobody) /\
       tiles (b_start b) (b_start b + b_size b) (m1 ++ (p', mk_blk off got (File f)) :: m2).*2 /\
       (plenty s -> got = sz /\ (2 ^ alignment_of al | off))).
Proof.
  intros Hr Hs Ha. pose proof (mem_alloc_run _ _ _ _ _ _ al sz f true Hr Hs Ha) as HW. apply wp_run in HW as (r & s' & E & HW).
  exists r, s'. split; [done|]. destruct HW as [HW|(k1 & p & b & k2 & mid & p' & m1 & off & got & m2 & -> & Hn & Hf & Hc & -> & Hm & Hp & -> & G & Hok)]; [by left|].
  right. exists k1, p, b, k2, p', m1, off, got, m2. cbv zeta. split_and!; try done.
  - destruct Hs as (H1 & H2 & H3). destruct Hf as [Ho Hf].
    pose proof (ceil_bounds (alignment_of al) (b_start b) ltac:(unfold alignment_of; lia)).
    destruct (carved_in_place _ _ _ _ _ _ _ _ Hc Ho ltac:(lia) H2 ltac:(lia)) as (_ & HT & _). exact HT.
  - intros Hpl. destruct Hp as [-> ->]; [tauto|]. split; [done|]. apply ceil_divide.
Qed.

(** C15: for a positive size at an alignment of at most 2^30 and no overflow ([sizes_ok] as
    in C14), RADEON_MEM_FREE of the offset RADEON_MEM_ALLOC gave succeeds for the same
    file, and the heap is then made of the very blocks it had before the allocation.  (With
    a size of 0 the owner of a block may not be able to free it: [zero_size_hides_block]
    below.) *)
Theorem radeon_alloc_free_roundtrip lo hi region h l s al sz f off s1 :
  region_at lo hi region h l s -> sizes_ok hi al sz -> alloc_ok s ->
  radeon_mem_alloc region al sz f true s = Some ((0, Some off), s1) ->
  exists s2, radeon_mem_free region off f s1 = Some (0, s2) /\ region_at lo hi region h l s2.
Proof.
  intros Hr Hs Ha E. pose proof (mem_alloc_run _ _ _ _ _ _ al sz f true Hr Hs Ha) as HW. unfold wp in HW. rewrite E in HW.
  destruct HW as [(? & _)|(k1 & p & b & k2 & mid & p' & m1' & off' & got & m2' & -> & Hn & [Ho Hf] & Hc & Em & Hm & Hp & Er & G & Hok)]; [done|].
  injection Er as <-. pose proof (ho_apart _ _ _ _ _ (ra_ok _ _ _ _ _ _ Hr)) as Hap. destruct Hr as [Hg _ Hlo].
  destruct (carved_back k1 p b k2 _ _ _ _ _ _ Hc Ho Hap) as (m1 & c & m2 & Em' & Hco & EB).
  assert (region_at lo hi region h (k1 ++ mid ++ k2) s1) as Hr1 by (split; [by rewrite (get_heap_goes _ _ _ _ _ _ G)|done|done]).
  assert (hi < 2 ^ 31) as Hhi by (destruct Hs as (_ & ? & ?); pose proof (Z.pow_nonneg 2 (alignment_of al) ltac:(lia)); lia).
  pose proof (mem_free_run _ _ _ _ _ _ off f Hr1 Hhi) as HF. apply wp_run in HF as (r & s2 & EF & HF).
  assert (forall m1 c m2, mid = m1 ++ (p', c) :: m2 -> c = mk_blk off got (File f) /\ forall x, x ∈ k1 ++ m1 -> b_start x.2 <> off) as Hfirst.
  { intros n1 d n2 En. assert (d = mk_blk off got (File f)) as ->.
    { pose proof (hp_blk _ _ _ (ho_heap _ _ _ _ _ Hok)) as HB.
      pose proof (HB p' d ltac:(rewrite En; set_solver)) as B1. pose proof (HB p' (mk_blk off got (File f)) ltac:(rewrite Em; set_solver)) as B2. congruence. }
    split; [done|]. pose proof (ho_tiles _ _ _ _ _ Hok) as Ht. rewrite En in Ht.
    replace (k1 ++ (n1 ++ (p', mk_blk off got (File f)) :: n2) ++ k2) with ((k1 ++ n1) ++ (p', mk_blk off got (File f)) :: (n2 ++ k2)) in Ht by by rewrite <-!app_assoc.
    rewrite fmap_app, fmap_cons in Ht. intros x Hx. apply (tiles_start _ _ _ _ _ x.2 Ht). by apply list_elem_of_fmap_2. }
  destruct (Hfirst m1 c m2 Em') as [-> Hx1].
  assert (k1 ++ mid ++ k2 = (k1 ++ m1) ++ (p', mk_blk off got (File f)) :: (m2 ++ k2)) as Emid by (rewrite Em', <-!app_assoc; done).
  destruct HF as [(_ & _ & HF)|(j1 & p2 & b2 & j2 & EJ & Hst & Hj & HF)].
  { exfalso. apply (HF (p', mk_blk off got (File f))); [rewrite Emid; set_solver|done]. }
  rewrite Emid in EJ. apply (first_unique off) in EJ as (<- & [= <- <-] & <-); [|done..].
  destruct HF as [(? & _)|(_ & -> & G2 & Hok2)]; [done|]. exists s2. split; [done|]. rewrite EB in G2, Hok2.
  split; [by rewrite (get_heap_goes _ _ _ _ _ _ G2), (get_heap_goes _ _ _ _ _ _ G)|done|done].
Qed.

(** When a file goes, the blocks of the heap that still have an owner are those of the
    other files, where they were; the rest is free, without free neighbours, and the heap
    is the same range. *)
Theorem radeon_release_sound lo hi h l s f : heap_ok lo hi (mem s) h l -> 0 <= lo -> hi < 2 ^ 31 ->
  exists s' l', radeon_mem_release f (Some h) s = Some (tt, s') /\ heap_ok lo hi (mem s') h l' /\ goes h l l' s s' /\
    filter owned l' = filter (fun x => b_owner x.2 <> Nobody /\ b_owner x.2 <> File f) l.
Proof.
  intros Hok Hlo Hhi. pose proof (mem_release_run lo hi h f l s Hok ltac:(lia)) as HW. apply wp_run in HW as ([] & s' & E & G & Hok').
  exists s', (released f l). split_and!; try done. unfold released. by rewrite merge_all_owned, disowned_owned.
Qed.
End Ioctl.

(** * Every sequence of calls *)

Inductive call : Type :=
| Alloc (region alignment size : Z) (f : positive) (copy_ok : bool)
| Free (region offset : Z) (f : positive)
| InitHeap (region size start : Z)
| Close (f : positive)
| LastClose.

Definition run (c : call) : M (Z * option Z) :=
  match c with
  | Alloc region al sz f ok => radeon_mem_alloc region al sz f ok
  | Free region off f => r ← radeon_mem_free region off f; mret (r, None)
  | InitHeap region sz st => r ← radeon_mem_init_heap region sz st; mret (r, None)
  | Close f => _ ← release_heaps f; mret (0, None)
  | LastClose => _ ← takedown_heaps; mret (0, None)
  end.

Section Sys.
(** Heaps end at or before [top]. *)
Context (top : Z) (Htop : top < 2 ^ 31).

(** What the callers pass: the code checks none of it. *)
Definition allowed (c : call) : Prop :=
  match c with
  | Alloc _ al sz _ _ => sizes_ok top al sz
  | InitHeap _ sz st => 0 <= st /\ 0 < sz /\ st + sz <= top
  | _ => True
  end.

Inductive reachable : store -> Prop :=
| reach_start : reachable (mk_store ∅ [] None None)
| reach_call s k c r s' : reachable s -> alloc_ok (set_kmem k s) -> allowed c ->
    run c (set_kmem k s) = Some (r, s') -> reachable s'.

(** A heap that may be there, and the memory it takes. *)
Definition holds (m : gmap Z mem_block) (x : option Z) (A : list Z) : Prop :=
  match x with
  | None => A = []
  | Some h => exists lo hi l, A = h :: l.*1 /\ 0 <= lo /\ hi <= top /\ heap_ok lo hi m h l
  end.

Definition two (m : gmap Z mem_block) (x y : option Z) : Prop := exists A B,
  holds m x A /\ holds m y B /\ A ## B /\ forall a, is_Some (m !! a) <-> a ∈ A \/ a ∈ B.

Definition inv (s : store) : Prop := two (mem s) (gart_heap s) (fb_heap s).

Lemma two_sym m x y : two m x y -> two m y x.
Proof. intros (A & B & HA & HB & HD & Hm). exists B, A. split_and!; [done|done|intros a ? ?; by apply (HD a)|]. intros a. rewrite Hm. tauto. Qed.

Lemma holds_live m x A a : holds m x A -> a ∈ A -> is_Some (m !! a).
Proof.
  destruct x as [h|]; simpl; [|intros -> Ha; by apply elem_of_nil in Ha]. intros (lo & hi & l & -> & _ & _ & Hok).
  apply (heap_live _ _ _ _ (ho_heap _ _ _ _ _ Hok)).
Qed.

Lemma holds_frame m m' x A : holds m x A -> (forall a, a ∈ A -> m' !! a = m !! a) -> holds m' x A.
Proof.
  destruct x as [h|]; simpl; [|done]. intros (lo & hi & l & -> & H1 & H2 & [Hh Ht Hc]) Hm. exists lo, hi, l. split_and!; try done.
  split; [|done|done]. by apply (heap_frame _ _ _ _ Hh).
Qed.

(** A heap that changes beside the other. *)
Lemma two_goes s h y : two (mem s) (Some h) y -> exists lo hi l, 0 <= lo /\ hi <= top /\ heap_ok lo hi (mem s) h l /\
  forall s' l', goes h l l' s s' -> heap_ok lo hi (mem s') h l' -> two (mem s') (Some h) y.
Proof.
  intros (A & B & (lo & hi & l & -> & H1 & H2 & Hok) & HB & HD & Hm). exists lo, hi, l. split_and!; try done. intros s' l' G Hok'.
  assert (forall a, a ∈ B -> is_Some (mem s !! a)) as HBl by (intros a; by apply (holds_live _ _ _ a HB)).
  exists (h :: l'.*1), B. split; [by exists lo, hi, l'|]. split; [|split].
  - apply (holds_frame _ _ _ _ HB). intros a Ha. apply (go_frame _ _ _ _ _ G); [|by apply HBl]. intros Hl. by apply (HD a).
  - intros a [->|Hl]%elem_of_cons Ha; [apply (HD h); [by left|done]|]. apply (go_new _ _ _ _ _ G) in Hl as [Hl|E].
    + apply (HD a); [by right|done].
    + specialize (HBl a Ha). rewrite E in HBl. by destruct HBl.
  - intros a. rewrite (go_live _ _ _ _ _ G), Hm, !elem_of_cons. pose proof (HD a) as HDa. rewrite elem_of_cons in HDa.
    assert (h ∉ l.*1) by (pose proof (heap_nodup _ _ _ (ho_heap _ _ _ _ _ Hok)) as [? _]%NoDup_cons; done).
    split; [tauto|]. intros [[->|?]|?]; [tauto|tauto|tauto].
Qed.

(** The heap of a region, and the other one. *)
Lemma inv_region region s x : inv s -> get_heap region s = Some x -> exists y, two (mem s) x y /\
  (forall s', gart_heap s' = gart_heap s -> fb_heap s' = fb_heap s -> two (mem s') x y -> inv s') /\
  (forall s' x', gart_heap s' = gart_heap s -> fb_heap s' = fb_heap s -> two (mem s') x' y -> inv (set_heap region x' s')).
Proof.
  unfold inv, get_heap, set_heap. intros Hi E. destruct (region =? RADEON_MEM_REGION_GART); [|destruct (region =? RADEON_MEM_REGION_FB); [|done]];
    injection E as <-; [exists (fb_heap s)|exists (gart_heap s)].
  - split; [done|]. split; [intros s' -> ->; done|]. by intros s' x' _ ->.
  - split; [by apply two_sym|]. split; [intros s' -> ->; apply two_sym|]. intros s' x' -> _. apply two_sym.
Qed.

Lemma region_goes region s h : inv s -> get_heap region s = Some (Some h) -> exists lo hi l, 0 <= lo /\ hi <= top /\
  region_at lo hi region h l s /\ forall s' l', goes h l l' s s' -> heap_ok lo hi (mem s') h l' -> inv s'.
Proof.
  intros Hi E. destruct (inv_region _ _ _ Hi E) as (y & H2 & Hs & _). destruct (two_goes _ _ _ H2) as (lo & hi & l & H3 & H4 & Hok & HG).
  exists lo, hi, l. split_and!; try done. intros s' l' G Hok'. apply Hs; [apply (go_gart _ _ _ _ _ G)|apply (go_fb _ _ _ _ _ G)|by apply (HG s' l')].
Qed.

Lemma alloc_inv region al sz f ok s : inv s -> alloc_ok s -> sizes_ok top al sz -> wp (radeon_mem_alloc region al sz f ok) (fun _ => inv) s.
Proof.
  intros Hi Ha (H1 & H2 & H3). destruct (get_heap region s) as [[h|]|] eqn:E.
  - destruct (region_goes _ _ _ Hi E) as (lo & hi & l & Hlo & Hhi & Hr & HG).
    eapply wp_mono; [apply (mem_alloc_run lo hi region h l s al sz f ok Hr); [split_and!; lia|done]|].
    intros r s' [(_ & -> & _)|(k1 & p & b & k2 & mid & p' & m1 & off & got & m2 & _ & _ & _ & _ & _ & _ & _ & _ & G & Hok)]; [done|].
    by apply (HG s' _ G).
  - unfold radeon_mem_alloc. by rewrite wp_bind, wp_gets, E, wp_ret.
  - unfold radeon_mem_alloc. by rewrite wp_bind, wp_gets, E, wp_ret.
Qed.

Lemma free_inv region off f s : inv s -> wp (radeon_mem_free region off f) (fun _ => inv) s.
Proof.
  intros Hi. destruct (get_heap region s) as [[h|]|] eqn:E.
  - destruct (region_goes _ _ _ Hi E) as (lo & hi & l & Hlo & Hhi & Hr & HG).
    eapply wp_mono; [apply (mem_free_run lo hi region h l s off f Hr); lia|].
    intros r s' [(_ & -> & _)|(k1 & p & b & k2 & _ & _ & _ & [(_ & _ & ->)|(_ & _ & G & Hok)])]; [done|done|]. by apply (HG s' _ G).
  - unfold radeon_mem_free. by rewrite wp_bind, wp_gets, E, wp_ret.
  - unfold radeon_mem_free. by rewrite wp_bind, wp_gets, E, wp_ret.
Qed.

Lemma init_call_inv region sz st s : inv s -> alloc_ok s -> 0 <= st -> 0 < sz -> st + sz <= top ->
  wp (radeon_mem_init_heap region sz st) (fun _ => inv) s.
Proof.
  intros Hi Ha H1 H2 H3. unfold radeon_mem_init_heap. rewrite wp_bind, wp_gets.
  destruct (get_heap region s) as [[h|]|] eqn:E; [by rewrite wp_ret| |by rewrite wp_ret].
  destruct (inv_region _ _ _ Hi E) as (y & (A & B & HA & HB & HD & Hm) & _ & Hset). simpl in HA. subst A. rewrite wp_bind.
  eapply wp_mono; [apply (init_heap_run st sz s Ha H2)|]. intros [e|h] s' (EG & EF & Hr).
  - rewrite wp_ret. destruct Hr as (_ & Em & _). unfold inv. by rewrite EG, EF, Em.
  - rewrite wp_bind, wp_modify, wp_ret. apply Hset; [done|done|]. destruct Hr as (p & Hp & Hh & Hok & Hf).
    assert (forall a, a ∈ B -> a <> p /\ a <> h) as HBn.
    { intros a Ha'. pose proof (holds_live _ _ _ _ HB Ha') as HL. split; intros ->; rewrite ?Hp, ?Hh in HL; by destruct HL. }
    exists [h; p], B. split; [|split; [|split]].
    + by exists st, (st + sz), [(p, mk_blk st sz Nobody)].
    + apply (holds_frame _ _ _ _ HB). intros a Ha'. by apply Hf; apply HBn.
    + intros a Ha1 Ha2. apply HBn in Ha2 as [? ?]. set_solver.
    + intros a. destruct (decide (a = h \/ a = p)) as [He|Hn].
      * split; [set_solver|]. intros _. apply (heap_live _ _ _ _ (ho_heap _ _ _ _ _ Hok)). simpl. set_solver.
      * rewrite Hf by tauto. rewrite Hm. set_solver.
Qed.

Lemma release_inv region f s x : inv s -> get_heap region s = Some x ->
  wp (radeon_mem_release f x) (fun _ s' => inv s' /\ gart_heap s' = gart_heap s /\ fb_heap s' = fb_heap s) s.
Proof.
  intros Hi E. destruct x as [h|]; [|done]. destruct (region_goes _ _ _ Hi E) as (lo & hi & l & Hlo & Hhi & Hr & HG).
  eapply wp_mono; [apply (mem_release_run lo hi h f l s (ra_ok _ _ _ _ _ _ Hr)); lia|]. intros [] s' [G Hok].
  split; [by apply (HG s' _ G)|]. split; [apply (go_gart _ _ _ _ _ G)|apply (go_fb _ _ _ _ _ G)].
Qed.

Lemma takedown_inv region s x : inv s -> get_heap region s = Some x ->
  wp (radeon_mem_takedown x) (fun r s' => r = None /\ gart_heap s' = gart_heap s /\ fb_heap s' = fb_heap s /\ inv (set_heap region r s')) s.
Proof.
  intros Hi E. destruct (inv_region _ _ _ Hi E) as (y & (A & B & HA & HB & HD & Hm) & _ & Hset). destruct x as [h|].
  - destruct HA as (lo & hi & l & -> & _ & _ & Hok).
    eapply wp_mono; [apply (mem_takedown_run h l s (ho_heap _ _ _ _ _ Hok))|]. intros r s' (-> & EG & EF & Em).
    split_and!; try done. apply Hset; [done|done|]. exists [], B. split; [done|]. split; [|split].
    + apply (holds_frame _ _ _ _ HB). intros a Ha. rewrite Em, decide_False; [done|]. intros Hl. by apply (HD a).
    + set_solver.
    + intros a. rewrite Em. pose proof (HD a). pose proof (Hm a). case_decide as Hl; [|set_solver].
      split; [by intros []|]. intros [?%elem_of_nil|Hb]; [done|]. exfalso. by apply (HD a).
  - rewrite wp_ret || unfold radeon_mem_takedown; rewrite ?wp_ret. split_and!; try done. apply Hset; [done|done|]. by exists A, B.
Qed.

Lemma run_inv c s : inv s -> alloc_ok s -> allowed c -> wp (run c) (fun _ => inv) s.
Proof.
  intros Hi Ha Hc. destruct c as [region al sz f ok|region off f|region sz st|f|]; simpl in Hc; unfold run.
  - by apply alloc_inv.
  - rewrite wp_bind. eapply wp_mono; [by apply free_inv|]. intros r s' Hi'. by rewrite wp_ret.
  - rewrite wp_bind. eapply wp_mono; [apply init_call_inv; tauto|]. intros r s' Hi'. by rewrite wp_ret.
  - unfold release_heaps. rewrite !wp_bind, wp_gets, wp_bind.
    eapply wp_mono; [apply (release_inv RADEON_MEM_REGION_GART f s _ Hi eq_refl)|]. intros [] s1 (Hi1 & _ & _). rewrite wp_bind, wp_gets.
    eapply wp_mono; [apply (release_inv RADEON_MEM_REGION_FB f s1 _ Hi1 eq_refl)|]. intros [] s2 (Hi2 & _ & _). by rewrite wp_ret.
  - unfold takedown_heaps. rewrite !wp_bind, wp_gets, wp_bind.
    eapply wp_mono; [apply (takedown_inv RADEON_MEM_REGION_GART s _ Hi eq_refl)|]. intros r s1 (-> & _ & _ & Hi1).
    rewrite wp_bind, wp_modify, wp_bind, wp_gets, wp_bind.
    eapply wp_mono; [apply (takedown_inv RADEON_MEM_REGION_FB _ _ Hi1 eq_refl)|]. intros r s2 (-> & _ & _ & Hi2).
    by rewrite wp_modify, wp_ret.
Qed.

Lemma inv_kmem k s : inv (set_kmem k s) <-> inv s.
Proof. done. Qed.

Lemma heaps_reachable_inv s : reachable s -> inv s.
Proof.
  induction 1 as [|s k c r s' _ IH Ha Hc E].
  - exists [], []. split_and!; [done|done|by intros a ?%elem_of_nil|]. intros a. simpl. rewrite lookup_empty. split; [by intros []|]. by intros [?%elem_of_nil|?%elem_of_nil].
  - pose proof (run_inv c _ (proj2 (inv_kmem k s) IH) Ha Hc) as HW. unfold wp in HW. by rewrite E in HW.
Qed.

(** C13: whatever the order of allocations, frees, initialisations and closes, and wherever
    memory for blocks runs out, no call reads memory that is not a block or walks a list
    that does not end; each heap fills the range it was given without overlap, gaps or
    free neighbours, the two share no block, and no block is leaked.  This is for calls
    that are [allowed], which the code does not check: heaps of positive size in [0, top),
    allocations of positive size with an alignment of at most 2^30 where
    [top] + alignment + size is at most 2^31.  For others it fails:
    [negative_size_leaves_heap], [huge_size_granted] and [zero_size_hides_block] below. *)
Theorem radeon_heaps_sound s : reachable s ->
  (forall k c, alloc_ok (set_kmem k s) -> allowed c -> is_Some (run c (set_kmem k s))) /\
  exists A B, holds (mem s) (gart_heap s) A /\ holds (mem s) (fb_heap s) B /\ A ## B /\
    forall a, is_Some (mem s !! a) <-> a ∈ A \/ a ∈ B.
Proof.
  intros Hr. apply heaps_reachable_inv in Hr. split; [|done]. intros k c Ha Hc.
  pose proof (run_inv c _ (proj2 (inv_kmem k s) Hr) Ha Hc) as HW. apply wp_run in HW as (r & s' & E & _). by exists (r, s').
Qed.
End Sys.

(** * Runs *)

Definition empty_device (k : list (option Z)) : store := mk_store ∅ k None None.

(** After [InitHeap] of [start], [start + 65536) in the GART; blocks at 1, the head at 2. *)
Definition heap_64k (start : Z) (k : list (option Z)) : store :=
  mk_store (<[2 := mk_mem_block 1 1 0 0 HeapItself]> {[1 := mk_mem_block 2 2 start 65536 Nobody]}) k (Some 2) None.

Lemma init_gives k : run (InitHeap RADEON_MEM_REGION_GART 65536 0) (empty_device (Some 1 :: Some 2 :: k)) = Some ((0, None), heap_64k 0 k).
Proof. by vm_compute. Qed.

Lemma heap_64k_region k : region_at 0 65536 RADEON_MEM_REGION_GART 2 [(1, mk_blk 0 65536 Nobody)] (heap_64k 0 k).
Proof.
  split; [done| |done]. split; [split; [split| |]|by repeat split|done].
  - apply (bool_decide_unpack _). by vm_compute.
  - by repeat split.
  - intros p b Hp%list_elem_of_singleton. by simplify_eq.
  - done.
Qed.

Lemma heap_64k_fresh : alloc_ok (heap_64k 0 [Some 3; Some 4]).
Proof.
  split; [apply (bool_decide_unpack _); by vm_compute|]. intros q [[= ->]|[[= ->]|Hq]%elem_of_cons]%elem_of_cons; [done|done|].
  by apply elem_of_nil in Hq.
Qed.

Lemma radeon_alloc_sound_witness : exists r s', radeon_mem_alloc RADEON_MEM_REGION_GART 0 4096 5 true (heap_64k 0 [Some 3; Some 4]) = Some (r, s') /\
  (r = (ENOMEM, None) \/ exists off, r = (0, Some off) /\ (2 ^ alignment_of 0 | off)).
Proof.
  destruct (radeon_alloc_sound 0 65536 RADEON_MEM_REGION_GART 2 [(1, mk_blk 0 65536 Nobody)] (heap_64k 0 [Some 3; Some 4]) 0 4096 5
    (heap_64k_region _) ltac:(by split_and!; vm_compute) heap_64k_fresh)
    as (r & s' & E & [(-> & _)|(k1 & p & b & k2 & p' & m1 & off & got & m2 & _ & -> & _ & _ & _ & _ & _ & _ & H)]).
  - eauto.
  - eexists _, s'. split; [exact E|]. right. exists off. split; [done|]. apply H. by exists 3, 4, [].
Defined.

Lemma radeon_alloc_free_roundtrip_witness : exists s1 s2,
  radeon_mem_alloc RADEON_MEM_REGION_GART 0 4096 5 true (heap_64k 0 [Some 3; Some 4]) = Some ((0, Some 0), s1) /\
  radeon_mem_free RADEON_MEM_REGION_GART 0 5 s1 = Some (0, s2) /\
  region_at 0 65536 RADEON_MEM_REGION_GART 2 [(1, mk_blk 0 65536 Nobody)] s2.
Proof.
  destruct (radeon_mem_alloc RADEON_MEM_REGION_GART 0 4096 5 true (heap_64k 0 [Some 3; Some 4])) as [[r s1]|] eqn:E; [|by vm_compute in E].
  assert (r = (0, Some 0)) as -> by (vm_compute in E; by injection E as <- _).
  destruct (radeon_alloc_free_roundtrip 0 65536 RADEON_MEM_REGION_GART 2 [(1, mk_blk 0 65536 Nobody)] (heap_64k 0 [Some 3; Some 4]) 0 4096 5 0 s1
    (heap_64k_region _) ltac:(by split_and!; vm_compute) heap_64k_fresh E) as (s2 & E2 & H2).
  by exists s1, s2.
Defined.

Lemma radeon_release_sound_witness : exists s' l', radeon_mem_release 5 (Some 2) (heap_64k 0 []) = Some (tt, s') /\
  heap_ok 0 65536 (mem s') 2 l' /\ filter owned l' = [].
Proof.
  destruct (radeon_release_sound 0 65536 2 [(1, mk_blk 0 65536 Nobody)] (heap_64k 0 []) 5 (ra_ok _ _ _ _ _ _ (heap_64k_region _)) ltac:(lia) ltac:(lia))
    as (s' & l' & E & H & _ & EF).
  by exists s', l'.
Defined.

Lemma heap_64k_reachable : reachable 65536 (heap_64k 0 []).
Proof.
  apply (reach_call _ (empty_device []) [Some 1; Some 2] (InitHeap RADEON_MEM_REGION_GART 65536 0) (0, None) _ (reach_start _)).
  - split; [apply (bool_decide_unpack _); by vm_compute|]. intros q _. apply lookup_empty.
  - by split_and!.
  - apply init_gives.
Qed.

Lemma radeon_heaps_sound_witness : reachable 65536 (heap_64k 0 []) /\
  is_Some (run (Free RADEON_MEM_REGION_GART 0 5) (heap_64k 0 [])).
Proof.
  split; [apply heap_64k_reachable|].
  apply (proj1 (radeon_heaps_sound 65536 ltac:(lia) (heap_64k 0 []) heap_64k_reachable) [] (Free RADEON_MEM_REGION_GART 0 5)); [|done].
  split; [apply NoDup_nil_2|]. intros q Hq. by apply elem_of_nil in Hq.
Defined.

(** ** What the handlers do not refuse *)

(** The offsets, or the errors, of calls one after another. *)
Fixpoint results (l : list call) (s : store) : option (list (Z * option Z)) :=
  match l with
  | [] => Some []
  | c :: l => '(r, s') ← run c s; rs ← results l s'; Some (r :: rs)
  end.

Definition gart : Z := RADEON_MEM_REGION_GART.

(** A negative size fits everywhere, and the rest of the block then begins before it: the
    next allocation is below the heap. *)
Example negative_size_leaves_heap : results [Alloc gart 0 (-8192) 5 true; Alloc gart 0 4096 6 true] (heap_64k 0 (Some <$> [3; 4; 5; 6])) =
  Some [(0, Some 0); (0, Some (-8192))].
Proof. by vm_compute. Qed.

(** A size for which the sum overflows fits, and the block stays as small as it was. *)
Example huge_size_granted : results [Alloc gart 0 4096 5 true; Alloc gart 0 (2 ^ 31 - 1) 6 true] (heap_64k 0 (Some <$> [3; 4; 5; 6])) =
  Some [(0, Some 0); (0, Some 4096)].
Proof. by vm_compute. Qed.

(** Two blocks at one offset, of which only the first is found: the owner of the other may
    not free it. *)
Example zero_size_hides_block : results [Alloc gart 0 0 5 true; Alloc gart 0 4096 6 true; Free gart 0 6] (heap_64k 0 (Some <$> [3; 4; 5; 6])) =
  Some [(0, Some 0); (0, Some 0); (EPERM, None)].
Proof. by vm_compute. Qed.

(** No memory for the piece before the aligned start: the whole block is given out, where
    it starts. *)
Example no_memory_unaligned : results [Alloc gart 12 4096 5 true] (heap_64k 100 []) = Some [(0, Some 100)].
Proof. by vm_compute. Qed.

(** The offset cannot be copied out: the error leaves the block allocated. *)
Example failed_copy_keeps_block : results [Alloc gart 0 65536 5 false; Alloc gart 0 4096 5 true] (heap_64k 0 (Some <$> [3; 4])) =
  Some [(EFAULT, None); (ENOMEM, None)].
Proof. by vm_compute. Qed.
